(* ===== verification/_CoqProject ===== *)
-Q . S2P
Prelude.v
Memory.v
Ctype.v
MemOps.v
StrOps.v
Numparse.v
Libgcc.v
Sort.v
Printf.v
Chain.v
Malloc.v
Environ.v
Stdio.v
Getopt.v
Fnmatch.v
Sha1.v
Rand48.v
Scanf.v
Inet.v
Exit.v
Netdev.v
Bootp.v
Ipconfig.v
Ipparse.v
RunInit.v
Mount.v
FileMode.v
Kinit.v
Layout.v
Fstype.v
Prog.v
Devno.v
InodeHash.v
Cpio.v
CpioFs.v
Dd.v
Rootdev.v
DoMounts.v
Sunrpc.v
Pmap.v
Nfsmount.v
Ramdisk.v
Md.v
Initrd.v
Caps.v
Boot.v
Exec.v
Dirent.v
Startup.v
Cat.v
Readfile.v
Syslog.v
Ipmain.v
Mkdir.v
Nuke.v
Ls.v
Mntent.v
