(* ===== verification/Prelude.v ===== *)
(** * Verification of klibc

    klibc is the small C library (and the handful of programs) that runs in
    the early user space of Linux.  This library models its portable C code
    and proves what the functions promise.  Each definition follows the C
    function of the same name; the theorem groups below say what is shown.

    ** Configuration

    LP64, little endian, [char] signed, the portable branches of the C code
    (no hand-written assembly), the allocator over [mmap] with 64 KiB chunks,
    [BUFSIZ] 16384.  A [w]-bit integer is a [Z] with the conversion of C
    written out ([u8] .. [u64], [s8] .. [s64] below); signed overflow wraps, as
    the flag -fwrapv of scripts/Kbuild.klibc asks for.  Code that faults (an
    access outside the memory it owns, a trap, a division by zero) evaluates
    to [None]; a theorem that a function returns is a theorem that it does not
    fault.

    ** The parts and where they are modelled

    The library, sources under src/usr/klibc:

    - [Prelude]: machine integers, list and arithmetic lemmas, tactics.
    - [Memory]: the byte-addressed memory and its monad [M]; what it means that
      a string or a block of bytes is at an address.
    - [Ctype]: ctypes.c and include/ctype.h.
    - [MemOps]: the mem* functions, [StrOps]: the str* functions, both byte by
      byte over [Memory].
    - [Numparse]: strntoumax.c, strntoimax.c, strtox.c, atox.c, strtotimex.c.
    - [Libgcc]: libgcc/*.c and the division routines of arch/alpha and
      arch/cris.
    - [Sort]: qsort.c (a comb sort, over [Mem.memswap]) and bsearch.c.
    - [Printf]: vsnprintf.c with its callers; arguments are a list of typed
      values, the output goes to [Memory].
    - [Chain]: circular doubly linked lists as maps from addresses to nodes,
      used by [Malloc] and [Stdio].
    - [Malloc]: malloc.c, calloc.c, realloc.c; [mmap] and [munmap] are
      parameters.
    - [Environ]: __put_env.c, setenv.c, putenv.c, unsetenv.c, getenv.c,
      clearenv.c over an allocator interface.
    - [Stdio]: the streams of stdio/ and the functions above them; the system
      calls are the class [Kernel] with the laws of [KernelLaws].
    - [Exit]: exit.c, onexit.c, atexit.c; ends with [fflush_all] of [Stdio].
    - [Getopt]: getopt.c and getopt_long.c.
    - [Fnmatch]: fnmatch.c.
    - [Sha1]: sha1hash.c, the build tool that names the shared library.
    - [Rand48]: the 48-bit random number generator.
    - [Scanf]: vsscanf.c, on the integer parser of [Numparse].
    - [Inet]: inet/*.c, on [Scanf] and [Printf].
    - [Exec]: execvpe.c and exec_l.c; [Dirent]: readdir.c on the records of
      getdents, and scandir.c; [Startup]: libc_init.c, the vectors and the
      auxiliary values found on the first stack.
    - [Syslog]: syslog.c, on [Printf] in memory; [Mntent]: getmntent.c, on the
      streams of [Stdio] and [strtok_r] of [StrOps].

    The programs, sources under src/usr/kinit and src/usr/utils:

    - [Netdev], [Bootp]: the messages of ipconfig (netdev.h, packet.c,
      bootp_proto.c, dhcp_proto.c) as lists of bytes.
    - [Ipconfig]: ipconfig/main.c and netdev.c, the state machine of a device,
      the loop that drives all of them and the files they leave; [Ipparse]: the
      command line field ip=; [Ipmain]: the rest of main.c and netdev.c, from the
      arguments and /sys to the devices.
    - [RunInit]: run-init/runinitlib.c over a tree of files with devices.
    - [Kinit]: the argument vector of kinit (kinit.c, getarg.c).
    - [Layout]: the structures of fstype/*.h, with computed offsets;
      [Fstype]: fstype/fstype.c, the probes and the search.
    - [Mount]: utils/mount_opts.c and [do_mount] of utils/mount_main.c.
    - [FileMode]: utils/file_mode.c.
    - [InodeHash], [Cpio], [CpioFs]: utils/cpio.c, the table of inodes, the
      extraction over a class of system calls, and what it leaves in a file
      system with hard links.
    - [Dd]: utils/dd.c, over an input that delivers blocks of any sizes.
    - [Devno]: file modes and device numbers; [Rootdev]: the names of devices
      (kinit/name_to_dev.c, devname.c, getintfile.c, resume/resumelib.c).
    - [DoMounts]: kinit/do_mounts.c and do_mounts_mtd.c, on [Rootdev], [Fstype]
      and [Kinit], over a class of system calls.
    - [Sunrpc]: nfsmount/sunrpc.c and klibc/inet/bindresvport.c, remote procedure
      calls over a network that is an oracle; [Pmap]: nfsmount/dummypmap.c, the
      portmapper; [Nfsmount]: nfsmount/main.c, mount.c, portmap.c and nfsroot.c.
    - [Ramdisk]: kinit/ramdisk_load.c, over disks with seek and a decompressor
      that is a parameter; [Md]: kinit/do_mounts_md.c, RAID arrays; [Initrd]:
      kinit/initrd.c, and [do_mounts] with all its ways to a root put together.
    - [Caps]: kinit/capabilities.c; [Boot]: [main] of kinit/kinit.c, from the
      command line to the start of init.
    - [Readfile]: kinit/readfile.c, on [Stdio] with [errno] added to its kernel.
    - [Cat], [Mkdir], [Nuke], [Ls]: the utilities of these names.
    - [Prog]: the monad of the programs, which return, exit or fault.

    ** What the theorems show

    Memory and strings: each function changes exactly the bytes it should and
    returns what ISO C or POSIX says ([memmove_correct], [memmem_correct],
    [strlcpy_correct], ...).  Numbers: parsing is the positional value modulo
    2^64 and never reads behind the terminator; printing followed by parsing
    is the identity on [long]; long division of every width is Euclidean
    division.  [vsnprintf] produces the text a list-level specification of
    formats gives, cut to the buffer; [vsscanf] stores what the directives
    denote.  [qsort] terminates with a sorted permutation.  The allocator keeps
    an invariant (blocks sorted, disjoint and covering the chunks, both chains
    consistent), hands out non-overlapping blocks whose contents nothing
    else changes, and joins what is freed with its neighbours, giving whole
    pages back.  The environment behaves as a map from names to values.
    Streams deliver and send every byte once and in order unless an error is
    flagged, and [exit] flushes them after the functions registered before.  [getopt]
    reports the options of a declarative reading of the argument vector,
    [fnmatch] decides a declarative matching relation, [SHA1] is the FIPS 180
    function for every division of the message.

    Network configuration: a packet sent is received unchanged; every reply
    with well-formed options is understood; a device is configured by DHCP only
    after an offer and an acknowledgement for it (safety) and it is when they
    come (liveness); without answers the retries back off and the loop gives up
    in time; the file of settings is read back by a POSIX shell as it was
    meant, if the texts of the device end inside of their arrays; the walk over
    the interfaces ends, if none has a name with another meaning, and brings up
    each usable one once.
    Start of the system: switching the root deletes nothing outside of the
    initial root; the argument vector holds the words of the command lines; the
    type of an image is that of the first probe that recognises it, and all
    probes stay inside their block; mount options and symbolic modes have the
    effect their text describes; extracting an archive makes the system calls of
    its entries one by one for every division of the input and every failure,
    and without failures restores the files and the links among them; [dd]
    writes what its operands denote for every division of the input; the names
    of disks and partitions give their numbers; the types of a root are tried in
    the right order, and exactly one root is mounted when the result says so
    (a root by NFS may also end kinit).
    By NFS, a remote call ends in time and takes only a reply to itself; a
    mount uses the handle of the reply to the call that asked for its path; the portmapper reads nothing
    behind a packet and serves nobody but root.  An image, raw or compressed, on
    one disk or on several, is copied whole into the RAM disk for every division
    of the transfers; RAID arrays are made from the members that the command line
    names; linuxrc runs inside of the initial RAM disk, which is then moved or
    freed; [kinit] tries to mount one root and hands it, with the capabilities dropped
    that the command line names, to the first init that can be run.  A program
    is searched along the path up to the first error that ends the search;
    directory entries are returned as the kernel packed them; [cat] numbers,
    squeezes and shows the characters of its input as its options say, for
    every division of the input.  Whole files are read for every division of the
    reads; a log message is one line that fits its buffer; the entries of the
    table of mounts are the words of its lines; [mkdir -p] makes what is missing
    and changes nothing else; [nuke] leaves only what is blocked.

    Where the code departs from its standard the theorem states what the code
    does ([moddi3_value], [putenv_replaces_prefix], [fseek_position],
    [mount_options_correct], ...).

    ** Fuel

    Loops whose measure is not a structural argument carry fuel.  Top-level
    definitions compute enough of it from their arguments ([qsort], [fnmatch],
    [SHA1Final], [parse_file_mode], [fs_proc_check]), or the theorem bounds it
    ([Stdio], where the fuel is the number of interrupted system calls the
    kernel may still produce plus the work to do; [Ipconfig], where it is the
    number of rounds up to the time limit; [Dd], where it bounds the blocks
    read; [scansysdir], where the length of the path grows; [Ramdisk] and [Cat],
    where it bounds the transfers; [Exec], where it bounds the retries of a busy
    program).  Running out of fuel is [None], so
    the theorems that give a result are also termination theorems.

    ** Not modelled

    The system call stubs and the assembly of each architecture (generated or
    machine code), the vendored programs and libraries dash, gzip and zlib (the
    RAM disk loader is proved against a stated law of the decompressor), the
    wrappers of the library that only pass their arguments on to a system call,
    and the remaining utilities (minips, losetup, uname, readlink and the like).
    Messages to the user are left out everywhere.
*)

From stdpp Require Import base numbers list gmap.
From Stdlib Require Import Lia.

(** ** Notations and automation of the development *)

Declare Scope klibc_scope.
Delimit Scope klibc_scope with klibc.
Global Open Scope Z_scope.

Create HintDb klibc.

(** ** Machine integers

    A [w]-bit machine integer is a [Z] together with the explicit wrap-around
    of the C conversion that produced it: [wrapu w] is the conversion to the
    unsigned [w]-bit type, [wraps w] the two's complement conversion to the
    signed one. *)

Definition wrapu (w z : Z) : Z := z mod 2 ^ w.
Definition wraps (w z : Z) : Z := (z + 2 ^ (w - 1)) mod 2 ^ w - 2 ^ (w - 1).

Abbreviation u8 := (wrapu 8).
Abbreviation u16 := (wrapu 16).
Abbreviation u32 := (wrapu 32).
Abbreviation u64 := (wrapu 64).
Abbreviation s8 := (wraps 8).
Abbreviation s16 := (wraps 16).
Abbreviation s32 := (wraps 32).
Abbreviation s64 := (wraps 64).

(** The value ranges of the C types. *)
Definition in_u (w z : Z) : Prop := 0 <= z < 2 ^ w.
Definition in_s (w z : Z) : Prop := - 2 ^ (w - 1) <= z < 2 ^ (w - 1).

Global Instance in_u_dec w z : Decision (in_u w z).
Proof. unfold in_u. apply _. Defined.
Global Instance in_s_dec w z : Decision (in_s w z).
Proof. unfold in_s. apply _. Defined.

Section machine_integers.
Context (w : Z) (Hw : 0 < w).

Lemma pow2_pos : 0 < 2 ^ w.
Proof using Hw. apply Z.pow_pos_nonneg; lia. Qed.

Lemma pow2_half : 2 ^ w = 2 * 2 ^ (w - 1).
Proof using Hw. rewrite <- Z.pow_succ_r by lia. f_equal; lia. Qed.

Lemma wrapu_range z : in_u w (wrapu w z).
Proof using Hw. apply Z.mod_pos_bound, pow2_pos. Qed.

Lemma wrapu_small z : in_u w z → wrapu w z = z.
Proof using Type. intros; by apply Z.mod_small. Qed.

Lemma wraps_range z : in_s w (wraps w z).
Proof using Hw.
  unfold in_s, wraps. pose proof pow2_half.
  pose proof (Z.mod_pos_bound (z + 2 ^ (w - 1)) (2 ^ w) pow2_pos). lia.
Qed.

Lemma wraps_small z : in_s w z → wraps w z = z.
Proof using Hw.
  unfold in_s, wraps. pose proof pow2_half. intros.
  rewrite Z.mod_small; lia.
Qed.

Lemma wrapu_wraps z : wrapu w (wraps w z) = wrapu w z.
Proof using Type.
  unfold wrapu, wraps. rewrite Zminus_mod_idemp_l. f_equal; lia.
Qed.

Lemma wraps_wrapu z : wraps w (wrapu w z) = wraps w z.
Proof using Type. unfold wrapu, wraps. by rewrite Zplus_mod_idemp_l. Qed.

Lemma wrapu_wrapu z : wrapu w (wrapu w z) = wrapu w z.
Proof using Type. unfold wrapu. apply Zmod_mod. Qed.

Lemma wraps_nonneg z : in_u w z → 0 <= wraps w z ↔ z < 2 ^ (w - 1).
Proof using Hw.
  unfold in_u, wraps. pose proof pow2_half. intros Hz.
  destruct (Z.lt_ge_cases z (2 ^ (w - 1))).
  - rewrite Z.mod_small by lia. lia.
  - replace (z + 2 ^ (w - 1)) with (z - 2 ^ (w - 1) + 1 * 2 ^ w) by lia.
    rewrite Z_mod_plus_full, Z.mod_small by lia. lia.
Qed.
End machine_integers.

(** Low-bit masks and shifts as arithmetic. *)
Lemma land_mask (x k : Z) : 0 <= k → Z.land x (2 ^ k - 1) = x mod 2 ^ k.
Proof.
  intros. replace (2 ^ k - 1) with (Z.ones k) by (rewrite Z.ones_equiv; lia).
  by apply Z.land_ones.
Qed.

Lemma shiftr_div (x k : Z) : 0 <= k → Z.shiftr x k = x / 2 ^ k.
Proof. intros; by apply Z.shiftr_div_pow2. Qed.

Lemma shiftl_mul (x k : Z) : 0 <= k → Z.shiftl x k = x * 2 ^ k.
Proof. intros; by apply Z.shiftl_mul_pow2. Qed.

(** [size_t] alignment masks: [x & ~(2^k - 1)] rounds down to a multiple. *)
Lemma pow2_sub_ldiff (w k : Z) :
  0 <= k <= w → 2 ^ w - 2 ^ k = Z.ldiff (Z.ones w) (Z.ones k).
Proof.
  intros. rewrite <- Z.sub_nocarry_ldiff.
  - rewrite !Z.ones_equiv. lia.
  - apply Z.bits_inj'. intros n Hn.
    rewrite Z.ldiff_spec, Z.bits_0, !Z.testbit_ones by lia. lia.
Qed.

Lemma testbit_high (w x n : Z) : 0 <= w → in_u w x → w <= n → Z.testbit x n = false.
Proof.
  unfold in_u. intros Hw Hx Hn. rewrite <- (Z.mod_small x (2 ^ w)) by lia.
  apply Z.mod_pow2_bits_high. lia.
Qed.

Lemma land_not_mask (w x k : Z) :
  0 <= k <= w → in_u w x → Z.land x (2 ^ w - 2 ^ k) = x - x mod 2 ^ k.
Proof.
  intros Hk Hx. rewrite pow2_sub_ldiff, <- (Z.land_ones x k) by lia.
  rewrite Z.sub_nocarry_ldiff.
  - apply Z.bits_inj'. intros n Hn.
    rewrite Z.land_spec, !Z.ldiff_spec, Z.land_spec, !Z.testbit_ones by lia.
    destruct (Z.ltb_spec n w).
    + rewrite (proj2 (Z.leb_le 0 n)) by lia. by destruct (Z.testbit x n), (n <? k).
    + rewrite (testbit_high w x n); [done | lia | done | lia].
  - apply Z.bits_inj'. intros n Hn.
    rewrite Z.ldiff_spec, Z.bits_0, Z.land_spec. by destruct (Z.testbit x n), (Z.testbit _ n).
Qed.

(** ** Lists *)

Lemma filter_all {A} (P : A → Prop) `{!∀ x, Decision (P x)} l : Forall P l → filter P l = l.
Proof. induction 1 as [| x l Hx _ IH]; [done |]. rewrite filter_cons, decide_True by done. by rewrite IH. Qed.

Lemma filter_none {A} (P : A → Prop) `{!∀ x, Decision (P x)} l : Forall (λ x, ¬ P x) l → filter P l = [].
Proof. induction 1 as [| x l Hx _ IH]; [done |]. by rewrite filter_cons, decide_False. Qed.

(** ** Fallible stateful computations

    [st S A] is a computation over a state [S]: [None] is a run-time fault
    (an access outside mapped memory, a division by zero, an exhausted loop
    bound), [Some (a, s)] a normal result with the state after it. *)

Definition st (S A : Type) : Type := S → option (A * S).

Global Instance st_ret {S} : MRet (st S) := λ A a s, Some (a, s).
Global Instance st_bind {S} : MBind (st S) := λ A B f c s,
  match c s with Some (a, s') => f a s' | None => None end.

Definition fault {S A} : st S A := λ _, None.

Lemma bind_ok {S A B} (c : st S A) (f : A → st S B) s a s' :
  c s = Some (a, s') → (c ≫= f) s = f a s'.
Proof. unfold mbind, st_bind. by intros ->. Qed.

Lemma bind_fault {S A B} (c : st S A) (f : A → st S B) s :
  c s = None → (c ≫= f) s = None.
Proof. unfold mbind, st_bind. by intros ->. Qed.

Lemma bind_inv {S A B} (c : st S A) (f : A → st S B) s b s'' :
  (c ≫= f) s = Some (b, s'') →
  ∃ a s', c s = Some (a, s') ∧ f a s' = Some (b, s'').
Proof. unfold mbind, st_bind. destruct (c s) as [[a s'] |]; eauto; done. Qed.

(** [run H] performs the first command of the goal's computation, whose
    result is the equation proved by [H]; [finish] returns. *)
Ltac run H := erewrite bind_ok by (eapply H; eauto with klibc lia).
Ltac case_if :=
  match goal with
  | |- context [if ?b then _ else _] => destruct b eqn:?
  | H : context [if ?b then _ else _] |- _ => destruct b eqn:?
  end.

