(* ===== verification/Memory.v ===== *)
(** * Byte-addressed memory

    The C code reads and writes memory through [char] pointers.  A memory is
    a finite map from addresses to byte values [0..255]; an address outside
    its domain is unmapped and every access to it is a fault.  Pointers are
    plain integers, so aliasing and overlap are represented as they are in
    the code.  Loops run on a bound of [S (size m)] iterations: a loop that
    touches consecutive addresses faults or stops within that many steps. *)

From stdpp Require Import base numbers list gmap.
From Stdlib Require Import Lia.
From S2P Require Import Prelude.

Abbreviation mem := (gmap Z Z).
Abbreviation C := (st mem).

(** ** Accesses *)

Definition load8 (a : Z) : C Z := λ m,
  match m !! a with Some b => Some (b, m) | None => None end.

Definition store8 (a v : Z) : C unit := λ m,
  match m !! a with Some _ => Some (tt, <[a := u8 v]> m) | None => None end.

(** A [char] object read through its signed type. *)
Definition loadc (a : Z) : C Z := b ← load8 a; mret (s8 b).

(** An integer object of [k] bytes, least significant byte first. *)
Fixpoint store_le (k : nat) (a v : Z) : C unit :=
  match k with
  | O => mret tt
  | S k => store8 a v;; store_le k (a + 1) (v / 256)
  end.

Definition with_fuel {A} (f : nat → C A) : C A := λ m, f (S (size m)) m.

(** ** Contents of memory *)

(** [mem_at m a bs]: the bytes [bs] are stored at [a], [a+1], ... *)
Definition mem_at (m : mem) (a : Z) (bs : list Z) : Prop :=
  ∀ i b, bs !! i = Some b → m !! (a + Z.of_nat i) = Some b.

(** [mapped m a n]: the [n] bytes from [a] on are mapped. *)
Definition mapped (m : mem) (a n : Z) : Prop :=
  ∀ k, a <= k < a + n → is_Some (m !! k).

(** [cstr m a s]: the NUL-terminated string [s] is stored at [a]. *)
Definition cstr (m : mem) (a : Z) (s : list Z) : Prop :=
  mem_at m a (s ++ [0]) ∧ Forall (λ b, b ≠ 0) s.

(** Writing a list of bytes at an address. *)
Fixpoint mem_set (m : mem) (a : Z) (bs : list Z) : mem :=
  match bs with
  | [] => m
  | b :: bs => mem_set (<[a := b]> m) (a + 1) bs
  end.

(** Two memories that agree outside of [a .. a+n-1]. *)
Definition same_outside (a n : Z) (m m' : mem) : Prop :=
  ∀ k, k < a ∨ a + n <= k → m' !! k = m !! k.

(** Lists of byte values. *)
Abbreviation bytes := (Forall (in_u 8)).

Definition bytes_ok (m : mem) : Prop := ∀ k b, m !! k = Some b → in_u 8 b.

(** ** Lemmas *)

Lemma load8_ok m a b : m !! a = Some b → load8 a m = Some (b, m).
Proof. unfold load8. by intros ->. Qed.

Lemma store8_ok m a v b : m !! a = Some b → store8 a v m = Some (tt, <[a := u8 v]> m).
Proof. unfold store8. by intros ->. Qed.

Lemma loadc_ok m a b : m !! a = Some b → loadc a m = Some (s8 b, m).
Proof. intros. unfold loadc. by erewrite bind_ok by by apply load8_ok. Qed.

Lemma mem_at_nil m a : mem_at m a [].
Proof. intros i b. by rewrite lookup_nil. Qed.

Lemma mem_at_cons m a b bs :
  mem_at m a (b :: bs) ↔ m !! a = Some b ∧ mem_at m (a + 1) bs.
Proof.
  split.
  - intros H. split.
    + specialize (H 0%nat b eq_refl). by rewrite Z.add_0_r in H.
    + intros i c Hi. specialize (H (S i) c Hi). by rewrite Nat2Z.inj_succ, <- Z.add_1_l, Z.add_assoc in H.
  - intros [Hb H] [| i] c Hi; simpl in Hi.
    + simplify_eq. by rewrite Z.add_0_r.
    + rewrite Nat2Z.inj_succ, <- Z.add_1_l, Z.add_assoc. by apply H.
Qed.

Lemma mem_at_app m a bs cs :
  mem_at m a (bs ++ cs) ↔ mem_at m a bs ∧ mem_at m (a + Z.of_nat (length bs)) cs.
Proof.
  revert a. induction bs as [| b bs IH]; intros a; simpl.
  - rewrite Z.add_0_r. pose proof (mem_at_nil m a). tauto.
  - rewrite !mem_at_cons, IH, Nat2Z.inj_succ, <- Z.add_1_l, Z.add_assoc. tauto.
Qed.

Lemma mem_at_mapped m a bs : mem_at m a bs → mapped m a (Z.of_nat (length bs)).
Proof.
  intros H k Hk. destruct (lookup_lt_is_Some_2 bs (Z.to_nat (k - a))) as [b Hb]; [lia |].
  exists b. specialize (H _ _ Hb). by replace (a + Z.of_nat (Z.to_nat (k - a))) with k in H by lia.
Qed.

Lemma mem_at_inj m a bs cs :
  mem_at m a bs → mem_at m a cs → length bs = length cs → bs = cs.
Proof.
  intros Hb Hc Hl. apply list_eq. intros i.
  destruct (bs !! i) as [b |] eqn:Eb, (cs !! i) as [c |] eqn:Ec; auto.
  - apply Hb in Eb. apply Hc in Ec. congruence.
  - apply lookup_lt_Some in Eb. apply lookup_ge_None in Ec. lia.
  - apply lookup_lt_Some in Ec. apply lookup_ge_None in Eb. lia.
Qed.

Lemma mapped_mem_at m a n :
  0 <= n → mapped m a n → ∃ bs, mem_at m a bs ∧ Z.of_nat (length bs) = n.
Proof.
  intros Hn. revert a. pattern n. apply natlike_ind; [| clear n Hn | done].
  - intros a _. exists []. split; [apply mem_at_nil | done].
  - intros n Hn IH a Hm. destruct (Hm a) as [b Hb]; [lia |].
    destruct (IH (a + 1)) as (bs & Hbs & Hl); [intros k Hk; apply Hm; lia |].
    exists (b :: bs). rewrite mem_at_cons. simpl. split; [done | lia].
Qed.

(** The sub-map of memory that a stored byte string occupies. *)
Lemma mem_set_dom_mapped m a bs k :
  mapped m a (Z.of_nat (length bs)) →
  is_Some (mem_set m a bs !! k) ↔ is_Some (m !! k).
Proof.
  revert m a. induction bs as [| b bs IH]; intros m a Hm; simpl; [done |].
  simpl in Hm. rewrite IH.
  - destruct (decide (a = k)) as [<- |]; [| by rewrite lookup_insert_ne].
    rewrite lookup_insert_eq. split; [intros _; apply Hm; lia | by eauto].
  - intros j Hj. destruct (decide (a = j)) as [<- |]; [lia |].
    rewrite lookup_insert_ne by done. apply Hm. lia.
Qed.

Lemma mem_set_lookup m a bs k :
  mem_set m a bs !! k =
    if decide (a <= k < a + Z.of_nat (length bs))
    then bs !! Z.to_nat (k - a) else m !! k.
Proof.
  revert m a. induction bs as [| b bs IH]; intros m a; simpl.
  - case_decide; [lia | done].
  - rewrite IH. case_decide; case_decide; try lia.
    + replace (Z.to_nat (k - a)) with (S (Z.to_nat (k - (a + 1)))) by lia. done.
    + assert (k = a) as -> by lia. rewrite lookup_insert_eq.
      by replace (Z.to_nat (a - a)) with 0%nat by lia.
    + rewrite lookup_insert_ne; [done | lia].
Qed.

Lemma mem_set_dom_lookup m a bs k :
  a <= k < a + Z.of_nat (length bs) → is_Some (mem_set m a bs !! k).
Proof.
  intros Hk. rewrite mem_set_lookup, decide_True by lia.
  apply lookup_lt_is_Some_2. lia.
Qed.

Lemma mem_set_at m a bs : mem_at (mem_set m a bs) a bs.
Proof.
  intros i b Hi. rewrite mem_set_lookup. pose proof (lookup_lt_Some _ _ _ Hi).
  rewrite decide_True by lia. by replace (Z.to_nat _) with i by lia.
Qed.

Lemma mem_set_outside m a bs : same_outside a (Z.of_nat (length bs)) m (mem_set m a bs).
Proof. intros k Hk. rewrite mem_set_lookup. rewrite decide_False by lia. done. Qed.

Lemma mem_set_app m a bs cs :
  mem_set m a (bs ++ cs) = mem_set (mem_set m a bs) (a + Z.of_nat (length bs)) cs.
Proof.
  revert m a. induction bs as [| b bs IH]; intros m a; simpl; [by rewrite Z.add_0_r |].
  rewrite IH. f_equal. lia.
Qed.

Lemma mem_set_app_at m a k bs cs :
  k = Z.of_nat (length bs) → mem_set m a (bs ++ cs) = mem_set (mem_set m a bs) (a + k) cs.
Proof. intros ->. apply mem_set_app. Qed.

Lemma mem_set_insert_ne m a bs k v :
  k < a ∨ a + Z.of_nat (length bs) <= k →
  mem_set (<[k := v]> m) a bs = <[k := v]> (mem_set m a bs).
Proof.
  intros Hk. apply map_eq. intros j. rewrite mem_set_lookup, !lookup_insert, mem_set_lookup.
  repeat case_decide; done || lia.
Qed.

Lemma mem_set_snoc m a bs b :
  mem_set m a (bs ++ [b]) = mem_set (<[a + Z.of_nat (length bs) := b]> m) a bs.
Proof.
  apply map_eq. intros k. rewrite mem_set_app. simpl.
  destruct (decide (k = a + Z.of_nat (length bs))) as [-> |].
  - rewrite lookup_insert_eq, mem_set_outside, lookup_insert_eq by lia. done.
  - rewrite lookup_insert_ne by done. rewrite !mem_set_lookup.
    case_decide; [done |]. by rewrite lookup_insert_ne.
Qed.

Lemma mem_at_insert_ne m a bs k v :
  mem_at m a bs → k < a ∨ a + Z.of_nat (length bs) <= k → mem_at (<[k := v]> m) a bs.
Proof.
  intros H Hk i b Hi. pose proof (lookup_lt_Some _ _ _ Hi).
  rewrite lookup_insert_ne by lia. by apply H.
Qed.

Lemma mem_at_set_ne m a n bs a' cs :
  mem_at m a' cs → n = Z.of_nat (length bs) →
  a' + Z.of_nat (length cs) <= a ∨ a + n <= a' →
  mem_at (mem_set m a bs) a' cs.
Proof.
  intros H -> Hd i b Hi. pose proof (lookup_lt_Some _ _ _ Hi).
  rewrite mem_set_outside by lia. by apply H.
Qed.

Lemma mem_at_length m a bs : mem_at m a bs → (length bs <= size m)%nat.
Proof.
  revert m a. induction bs as [| b bs IH]; intros m a H; simpl; [lia |].
  apply mem_at_cons in H as [Hb H].
  assert (mem_at (delete a m) (a + 1) bs) as H'.
  { intros i c Hi. rewrite lookup_delete_ne by lia. by apply H. }
  apply IH in H'. rewrite map_size_delete_Some in H' by eauto.
  enough (size m ≠ 0%nat) by lia. apply map_size_ne_0_lookup. eauto.
Qed.

Lemma mapped_size m a n : 0 <= n → mapped m a n → n <= Z.of_nat (size m).
Proof.
  intros Hn Hm. destruct (mapped_mem_at m a n) as (bs & Hbs & <-); [done.. |].
  apply mem_at_length in Hbs. lia.
Qed.

Lemma mapped_split m a n k : 0 <= k <= n → mapped m a n → mapped m a k ∧ mapped m (a + k) (n - k).
Proof. intros Hk Hm. split; intros j Hj; apply Hm; lia. Qed.

Lemma mapped_insert m a n k v : mapped m a n → mapped (<[k := v]> m) a n.
Proof.
  intros Hm j Hj. destruct (decide (k = j)) as [<- |].
  - rewrite lookup_insert_eq. eauto.
  - rewrite lookup_insert_ne by done. by apply Hm.
Qed.

Lemma mapped_set m a n k bs : mapped m a n → mapped (mem_set m k bs) a n.
Proof.
  revert m k. induction bs as [| b bs IH]; intros m k Hm; simpl; [done |].
  by apply IH, mapped_insert.
Qed.

Lemma size_insert_mapped (m : mem) a v : is_Some (m !! a) → size (<[a := v]> m) = size m.
Proof. intros [b Hb]. apply map_size_insert_Some. eauto. Qed.

(** *** Deciding contents by evaluation *)

Fixpoint mem_atb (m : mem) (a : Z) (bs : list Z) : bool :=
  match bs with
  | [] => true
  | b :: bs => bool_decide (m !! a = Some b) && mem_atb m (a + 1) bs
  end.

Lemma mem_atb_spec m a bs : mem_atb m a bs = true ↔ mem_at m a bs.
Proof.
  revert a. induction bs as [| b bs IH]; intros a; simpl.
  - split; [intros _; apply mem_at_nil | done].
  - by rewrite mem_at_cons, andb_true_iff, bool_decide_eq_true, IH.
Qed.

Global Instance mem_at_dec m a bs : Decision (mem_at m a bs).
Proof. refine (cast_if (decide (mem_atb m a bs = true))); by rewrite <- mem_atb_spec. Defined.

Lemma mapped_forall m a n :
  mapped m a n ↔ Forall (λ k, is_Some (m !! k)) (seqZ a n).
Proof. unfold mapped. rewrite Forall_forall. by setoid_rewrite elem_of_seqZ. Qed.

Global Instance mapped_dec m a n : Decision (mapped m a n).
Proof.
  refine (cast_if (decide (Forall (λ k, is_Some (m !! k)) (seqZ a n)))); by rewrite mapped_forall.
Defined.

Global Instance cstr_dec m a s : Decision (cstr m a s).
Proof. unfold cstr. apply _. Defined.

(** Closes a decidable closed goal by evaluation. *)
Ltac by_eval := apply (bool_decide_eq_true_1 _); vm_compute; reflexivity.

(** *** Strings *)

Lemma cstr_nil m a : cstr m a [] ↔ m !! a = Some 0.
Proof.
  unfold cstr. simpl. rewrite mem_at_cons. split; [tauto |].
  intros H. repeat split; auto using mem_at_nil.
Qed.

Lemma cstr_cons m a b s :
  cstr m a (b :: s) ↔ m !! a = Some b ∧ b ≠ 0 ∧ cstr m (a + 1) s.
Proof. unfold cstr. simpl. rewrite mem_at_cons, Forall_cons. tauto. Qed.

Lemma cstr_length m a s : cstr m a s → (length s < size m)%nat.
Proof. intros [H _]. apply mem_at_length in H. rewrite length_app in H. simpl in H. lia. Qed.

(** A string has one length: two strings at one address are equal. *)
Lemma cstr_inj m a s t : cstr m a s → cstr m a t → s = t.
Proof.
  revert a t. induction s as [| b s IH]; intros a [| c t]; rewrite ?cstr_nil, ?cstr_cons;
    intros; destruct_and?; simplify_eq; [done | f_equal; eauto].
Qed.

Lemma cstr_mem_at m a s : cstr m a s → mem_at m a s.
Proof. intros [H _]. by apply mem_at_app in H as [? _]. Qed.

Lemma cstr_end m a s : cstr m a s → m !! (a + Z.of_nat (length s)) = Some 0.
Proof. intros [H _]. apply mem_at_app in H as [_ H]. by apply mem_at_cons in H as [? _]. Qed.

Lemma cstr_app m a s t :
  cstr m a (s ++ t) ↔
  mem_at m a s ∧ Forall (λ b, b ≠ 0) s ∧ cstr m (a + Z.of_nat (length s)) t.
Proof. unfold cstr. rewrite <- app_assoc, mem_at_app, Forall_app. tauto. Qed.

Lemma cstr_set m a s : Forall (λ b, b ≠ 0) s → cstr (mem_set m a (s ++ [0])) a s.
Proof. intros Hs. split; [apply mem_set_at | done]. Qed.

Lemma cstr_set_ne m a bs a' s :
  cstr m a' s →
  a' + Z.of_nat (length s) < a ∨ a + Z.of_nat (length bs) <= a' →
  cstr (mem_set m a bs) a' s.
Proof.
  intros [H Hs] Hd. split; [| done]. eapply mem_at_set_ne; [done.. |].
  rewrite length_app. simpl. lia.
Qed.

(** *** Integer objects *)

Fixpoint le_list (k : nat) (v : Z) : list Z :=
  match k with O => [] | S k => u8 v :: le_list k (v / 256) end.

Lemma le_list_length k : ∀ v, length (le_list k v) = k.
Proof. induction k as [| k IH]; intros v; simpl; [done | by rewrite IH]. Qed.

Lemma store_le_ok k : ∀ m a v, mapped m a (Z.of_nat k) → store_le k a v m = Some (tt, mem_set m a (le_list k v)).
Proof.
  induction k as [| k IH]; intros m a v Hm; [done |]. destruct (Hm a) as [b Hb]; [lia |].
  cbn [store_le le_list mem_set]. erewrite bind_ok by (eapply store8_ok; done).
  apply IH, mapped_insert. intros j Hj. apply Hm. lia.
Qed.

#[export] Hint Resolve load8_ok store8_ok loadc_ok mem_set_at mem_set_outside : klibc.

(** ** Changes inside of a block *)

(** A string stays when only other bytes change. *)
Lemma cstr_outside m m' a w b n : cstr m a w → same_outside b n m m' → a + Z.of_nat (length w) < b ∨ b + n <= a → cstr m' a w.
Proof.
  intros [Hm Hz] Ho Hd. split; [| done]. intros k x Hk. rewrite Ho; [by apply Hm |].
  apply lookup_lt_Some in Hk. rewrite length_app in Hk. simpl in Hk. lia.
Qed.

Lemma same_outside_trans a n b k m m1 m2 : same_outside a n m m1 → same_outside b k m1 m2 → a <= b → b + k <= a + n → same_outside a n m m2.
Proof. intros H1 H2 Ha Hn x Hx. rewrite H2 by lia. by apply H1. Qed.

Lemma same_outside_sub a n a' (bs : list Z) m : a <= a' → a' + Z.of_nat (length bs) <= a + n → same_outside a n m (mem_set m a' bs).
Proof. intros H1 H2 k Hk. rewrite mem_set_lookup, decide_False by lia. done. Qed.
