(* ===== verification/Ctype.v ===== *)
(** * Character classes: [klibc/ctypes.c] and [include/ctype.h]

    The class table [__ctypes] has one entry for [EOF] and one for each of
    the 256 values of an [unsigned char]; a classification function reads the
    entry at [c + 1].  A read outside of the table is undefined behaviour in
    C and is [None] here. *)

From stdpp Require Import base numbers list option.
From Stdlib Require Import Lia.
From S2P Require Import Prelude.

(** ** Class bits ([include/ctype.h]) *)

Definition __ctype_upper : Z := Z.shiftl 1 0.
Definition __ctype_lower : Z := Z.shiftl 1 1.
Definition __ctype_digit : Z := Z.shiftl 1 2.
Definition __ctype_xdigit : Z := Z.shiftl 1 3.
Definition __ctype_space : Z := Z.shiftl 1 4.
Definition __ctype_print : Z := Z.shiftl 1 5.
Definition __ctype_punct : Z := Z.shiftl 1 6.
Definition __ctype_cntrl : Z := Z.shiftl 1 7.

Local Infix ".|" := Z.lor (at level 50, left associativity) : klibc_scope.
Local Open Scope klibc_scope.

(** ** The table

    Runs of equal entries of the C initialiser are written with
    [replicate]. *)

Definition __ctypes_ascii : list Z :=
  [0]                                                        (* EOF *)
  ++ replicate 8 __ctype_cntrl                               (* 0 .. 7 *)
  ++ replicate 6 (__ctype_cntrl .| __ctype_space)             (* BS TAB LF VT FF CR *)
  ++ replicate 18 __ctype_cntrl                              (* 14 .. 31 *)
  ++ [__ctype_print .| __ctype_space]                         (* space *)
  ++ replicate 15 (__ctype_print .| __ctype_punct)
  ++ replicate 10 (__ctype_print .| __ctype_digit .| __ctype_xdigit)
  ++ replicate 7 (__ctype_print .| __ctype_punct)
  ++ replicate 6 (__ctype_print .| __ctype_upper .| __ctype_xdigit)  (* A-F *)
  ++ replicate 20 (__ctype_print .| __ctype_upper)            (* G-Z *)
  ++ replicate 6 (__ctype_print .| __ctype_punct)
  ++ replicate 6 (__ctype_print .| __ctype_lower .| __ctype_xdigit)  (* a-f *)
  ++ replicate 20 (__ctype_print .| __ctype_lower)            (* g-z *)
  ++ replicate 4 (__ctype_print .| __ctype_punct)
  ++ [__ctype_cntrl].                                        (* DEL *)

Definition __ctypes_latin1 : list Z :=
  replicate 32 __ctype_cntrl                                 (* 128 .. 159 *)
  ++ [__ctype_print .| __ctype_space]                         (* NBSP *)
  ++ replicate 31 (__ctype_print .| __ctype_punct)
  ++ replicate 23 (__ctype_print .| __ctype_upper)
  ++ [__ctype_print .| __ctype_punct]                         (* multiplication sign *)
  ++ replicate 7 (__ctype_print .| __ctype_upper)
  ++ replicate 24 (__ctype_print .| __ctype_lower)            (* from sharp s *)
  ++ [__ctype_print .| __ctype_punct]                         (* division sign *)
  ++ replicate 8 (__ctype_print .| __ctype_lower).

Definition __ctypes : list Z := __ctypes_ascii ++ __ctypes_latin1.

Definition ctype_entry (c : Z) : option Z :=
  if bool_decide (0 <= c + 1) then __ctypes !! Z.to_nat (c + 1) else None.

(** ** Classification functions *)

Definition ctype_test (mask c : Z) : option Z := (λ e, Z.land e mask) <$> ctype_entry c.

Definition isalnum (c : Z) := ctype_test (__ctype_upper .| __ctype_lower .| __ctype_digit) c.
Definition isalpha (c : Z) := ctype_test (__ctype_upper .| __ctype_lower) c.
Definition isascii (c : Z) : Z := if Z.land c (-128) =? 0 then 1 else 0.
Definition isblank (c : Z) : Z := if (c =? 9) || (c =? 32) then 1 else 0.
Definition iscntrl (c : Z) := ctype_test __ctype_cntrl c.
(** [((unsigned) c - '0') <= 9] *)
Definition isdigit (c : Z) : Z := if u32 (u32 c - 48) <=? 9 then 1 else 0.
Definition isgraph (c : Z) :=
  ctype_test (__ctype_upper .| __ctype_lower .| __ctype_digit .| __ctype_punct) c.
Definition islower (c : Z) := ctype_test __ctype_lower c.
Definition isprint (c : Z) := ctype_test __ctype_print c.
Definition ispunct (c : Z) := ctype_test __ctype_punct c.
Definition isspace (c : Z) := ctype_test __ctype_space c.
Definition isupper (c : Z) := ctype_test __ctype_upper c.
Definition isxdigit (c : Z) := ctype_test __ctype_xdigit c.

(** [_toupper(c)] is [c & ~32], [_tolower(c)] is [c | 32]. *)
Definition toupper (c : Z) : option Z :=
  (λ l, if l =? 0 then c else Z.land c (Z.lnot 32)) <$> islower c.
Definition tolower (c : Z) : option Z :=
  (λ u, if u =? 0 then c else c .| 32) <$> isupper c.

(** ** Deciding a property of every character by evaluation *)

Lemma uchar_all (P : Z → bool) :
  forallb P (seqZ 0 256) = true → ∀ c, 0 <= c <= 255 → P c = true.
Proof.
  intros H c Hc. rewrite forallb_forall in H. apply H.
  apply list_elem_of_In, elem_of_seqZ. lia.
Qed.

(** [holds o]: the C truth value of a classification that did not fault. *)
Definition holds (o : option Z) : bool := match o with Some v => negb (v =? 0) | None => false end.

Lemma ctype_entry_some c : -1 <= c <= 255 → is_Some (ctype_entry c).
Proof.
  intros Hc. unfold ctype_entry. rewrite bool_decide_true by lia.
  apply lookup_lt_is_Some_2. change (length __ctypes) with 257%nat. lia.
Qed.

Lemma toupper_some c : 0 <= c <= 255 → ∃ d, toupper c = Some d ∧ 0 <= d <= 255.
Proof.
  intros Hc. set (P c := match toupper c with Some d => (0 <=? d) && (d <=? 255) | None => false end).
  assert (P c = true) as HP by (revert c Hc; apply uchar_all; vm_compute; reflexivity).
  unfold P in HP. destruct (toupper c) as [d |]; [| done]. exists d. split; [done | lia].
Qed.

Lemma isspace_some c : 0 <= c <= 255 → ∃ v, isspace c = Some v.
Proof. intros Hc. destruct (ctype_entry_some c) as [e He]; [lia |]. unfold isspace, ctype_test. rewrite He. by eexists. Qed.

(** ** Correctness of the classes *)

(** For every character value the classes obey the
    relations the header promises: [cntrl] is the complement of [print],
    [alpha] is [upper] or [lower] (never both), [graph] is [punct], [alpha] or
    [digit] and equals the printing characters that are not white space, and
    [xdigit] is [digit] or one of the letters a-f. *)
Theorem ctype_classes (c : Z) (Hc : 0 <= c <= 255) :
  holds (iscntrl c) = negb (holds (isprint c)) ∧
  holds (isalpha c) = holds (isupper c) || holds (islower c) ∧
  holds (isupper c) && holds (islower c) = false ∧
  holds (isgraph c) = holds (ispunct c) || holds (isalnum c) ∧
  holds (isgraph c) = holds (isprint c) && negb (holds (isspace c)) ∧
  holds (isxdigit c) = (isdigit c =? 1) || ((65 <=? c) && (c <=? 70)) || ((97 <=? c) && (c <=? 102)).
Proof.
  set (P c := eqb (holds (iscntrl c)) (negb (holds (isprint c))) &&
    eqb (holds (isalpha c)) (holds (isupper c) || holds (islower c)) &&
    eqb (holds (isupper c) && holds (islower c)) false &&
    eqb (holds (isgraph c)) (holds (ispunct c) || holds (isalnum c)) &&
    eqb (holds (isgraph c)) (holds (isprint c) && negb (holds (isspace c))) &&
    eqb (holds (isxdigit c)) ((isdigit c =? 1) || ((65 <=? c) && (c <=? 70)) || ((97 <=? c) && (c <=? 102)))).
  assert (P c = true) as HP by (revert c Hc; apply uchar_all; vm_compute; reflexivity).
  unfold P in HP. rewrite !andb_true_iff, !eqb_true_iff in HP. tauto.
Qed.

Lemma ctype_classes_witness :
  holds (iscntrl 9) = negb (holds (isprint 9)).
Proof. apply (ctype_classes 9). lia. Defined.

(** [isspace] holds of exactly BS, TAB, LF, VT, FF, CR, space
    and the Latin-1 no-break space. *)
Theorem isspace_set (c : Z) (Hc : 0 <= c <= 255) :
  holds (isspace c) = true ↔ 8 <= c <= 13 ∨ c = 32 ∨ c = 160.
Proof.
  assert (eqb (holds (isspace c)) (((8 <=? c) && (c <=? 13)) || (c =? 32) || (c =? 160)) = true) as HP.
  { revert c Hc. apply uchar_all. vm_compute. reflexivity. }
  apply eqb_prop in HP. rewrite HP, !orb_true_iff, andb_true_iff. lia.
Qed.

Lemma isspace_set_witness : holds (isspace 8) = true.
Proof. apply (isspace_set 8); lia. Defined.

(** The case mappings move exactly the letters by 32 and fix
    every other character; they are inverse to each other on letters, except
    at the two Latin-1 letters without a counterpart: [toupper] fixes 223
    (sharp s) and sends 255 (y diaeresis) to 223, a lower-case letter. *)
Theorem case_mapping (c : Z) (Hc : 0 <= c <= 255) :
  toupper c = Some (if holds (islower c) && negb (c =? 223) then c - 32 else c) ∧
  tolower c = Some (if holds (isupper c) then c + 32 else c) ∧
  (holds (isupper c) = true → tolower c ≫= toupper = Some c) ∧
  (holds (islower c) = true → c ≠ 223 → c ≠ 255 → toupper c ≫= tolower = Some c).
Proof.
  set (P c := bool_decide (toupper c = Some (if holds (islower c) && negb (c =? 223) then c - 32 else c)) &&
    bool_decide (tolower c = Some (if holds (isupper c) then c + 32 else c)) &&
    (negb (holds (isupper c)) || bool_decide (tolower c ≫= toupper = Some c)) &&
    (negb (holds (islower c)) || (c =? 223) || (c =? 255) || bool_decide (toupper c ≫= tolower = Some c))).
  assert (P c = true) as HP by (revert c Hc; apply uchar_all; vm_compute; reflexivity).
  unfold P in HP. rewrite !andb_true_iff, !bool_decide_eq_true in HP.
  destruct HP as [[[H1 H2] H3] H4]. repeat split; [done.. | |].
  - intros Hu. rewrite Hu in H3. by apply bool_decide_eq_true in H3.
  - intros Hl H5 H6. rewrite Hl in H4. rewrite (proj2 (Z.eqb_neq c 223) H5), (proj2 (Z.eqb_neq c 255) H6) in H4.
    by apply bool_decide_eq_true in H4.
Qed.

Lemma case_mapping_witness : tolower 65 ≫= toupper = Some 65.
Proof. apply (case_mapping 65); [lia | reflexivity]. Defined.
