(* ===== verification/MemOps.v ===== *)
(** * Memory functions: [klibc/mem*.c]

    Each function is the portable C body (the [#else] branch where the file
    also has an x86 string instruction), over the memory of [Memory].  A
    pointer result uses 0 for [NULL]. *)

From stdpp Require Import base numbers list gmap.
From Stdlib Require Import Lia.
From S2P Require Import Prelude Memory.

Definition NULL : Z := 0.

(** ** Definitions *)

Module Mem.

Fixpoint memcpy_loop (fuel : nat) (q p n : Z) : C unit :=
  match fuel with
  | O => fault
  | S f =>
      if n =? 0 then mret tt
      else ch ← load8 p; store8 q ch;; memcpy_loop f (q + 1) (p + 1) (n - 1)
  end.

Definition memcpy (dst src n : Z) : C Z :=
  with_fuel (λ fuel, memcpy_loop fuel dst src n;; mret dst).

(** [while (n--) *--q = *--p;] *)
Fixpoint memmove_back (fuel : nat) (q p n : Z) : C unit :=
  match fuel with
  | O => fault
  | S f =>
      if n =? 0 then mret tt
      else ch ← load8 (p - 1); store8 (q - 1) ch;; memmove_back f (q - 1) (p - 1) (n - 1)
  end.

Definition memmove (dst src n : Z) : C Z :=
  with_fuel (λ fuel,
    (if dst <? src then memcpy_loop fuel dst src n
     else memmove_back fuel (dst + n) (src + n) n);;
    mret dst).

Fixpoint memset_loop (fuel : nat) (q c n : Z) : C unit :=
  match fuel with
  | O => fault
  | S f =>
      if n =? 0 then mret tt
      else store8 q c;; memset_loop f (q + 1) c (n - 1)
  end.

Definition memset (dst c n : Z) : C Z :=
  with_fuel (λ fuel, memset_loop fuel dst c n;; mret dst).

Fixpoint memcmp_loop (fuel : nat) (c1 c2 n d : Z) : C Z :=
  match fuel with
  | O => fault
  | S f =>
      if n =? 0 then mret d
      else a ← load8 c1; b ← load8 c2;
           let d := a - b in
           if d =? 0 then memcmp_loop f (c1 + 1) (c2 + 1) (n - 1) d else mret d
  end.

Definition memcmp (s1 s2 n : Z) : C Z := with_fuel (λ fuel, memcmp_loop fuel s1 s2 n 0).

Fixpoint memchr_loop (fuel : nat) (sp c n : Z) : C Z :=
  match fuel with
  | O => fault
  | S f =>
      if n =? 0 then mret NULL
      else b ← load8 sp;
           if b =? u8 c then mret sp else memchr_loop f (sp + 1) c (n - 1)
  end.

Definition memchr (s c n : Z) : C Z := with_fuel (λ fuel, memchr_loop fuel s c n).

Fixpoint memrchr_loop (fuel : nat) (sp c n : Z) : C Z :=
  match fuel with
  | O => fault
  | S f =>
      if n =? 0 then mret NULL
      else b ← load8 sp;
           if b =? u8 c then mret sp else memrchr_loop f (sp - 1) c (n - 1)
  end.

Definition memrchr (s c n : Z) : C Z :=
  with_fuel (λ fuel, memrchr_loop fuel (s + n - 1) c n).

(** Here [ch] and [(char)c] are compared as [char] values. *)
Fixpoint memccpy_loop (fuel : nat) (q p c n : Z) : C Z :=
  match fuel with
  | O => fault
  | S f =>
      if n =? 0 then mret NULL
      else ch ← load8 p; store8 q ch;;
           if s8 ch =? s8 c then mret (q + 1)
           else memccpy_loop f (q + 1) (p + 1) c (n - 1)
  end.

Definition memccpy (dst src c n : Z) : C Z :=
  with_fuel (λ fuel, memccpy_loop fuel dst src c n).

Fixpoint memswap_loop (fuel : nat) (p q n : Z) : C unit :=
  match fuel with
  | O => fault
  | S f =>
      if n =? 0 then mret tt
      else tmp ← load8 p; b ← load8 q; store8 p b;; store8 q tmp;;
           memswap_loop f (p + 1) (q + 1) (n - 1)
  end.

Definition memswap (m1 m2 n : Z) : C unit := with_fuel (λ fuel, memswap_loop fuel m1 m2 n).

(** The [while (j <= n - m)] loop of [memmem], for a needle of length >= 2. *)
Fixpoint memmem_loop (fuel : nat) (y x n m k l j : Z) : C Z :=
  match fuel with
  | O => fault
  | S f =>
      if n - m <? j then mret NULL
      else
        x1 ← load8 (x + 1); yj1 ← load8 (y + j + 1);
        if negb (x1 =? yj1) then memmem_loop f y x n m k l (j + k)
        else
          r ← memcmp (x + 2) (y + j + 2) (m - 2);
          if r =? 0 then
            x0 ← load8 x; yj ← load8 (y + j);
            if x0 =? yj then mret (y + j) else memmem_loop f y x n m k l (j + l)
          else memmem_loop f y x n m k l (j + l)
  end.

(** The [do ... while (--n)] loop for a one-byte needle. *)
Fixpoint memmem_one (fuel : nat) (y x n : Z) : C Z :=
  match fuel with
  | O => fault
  | S f =>
      b ← load8 y; c ← load8 x;
      if b =? c then mret y
      else if n - 1 =? 0 then mret NULL else memmem_one f (y + 1) x (n - 1)
  end.

Definition memmem (haystack n needle m : Z) : C Z :=
  with_fuel (λ fuel,
    if (n <? m) || (m =? 0) || (n =? 0) then mret NULL
    else if negb (m =? 1) then
      x0 ← load8 needle; x1 ← load8 (needle + 1);
      let '(k, l) := if x0 =? x1 then (2, 1) else (1, 2) in
      memmem_loop fuel haystack needle n m k l 0
    else memmem_one fuel haystack needle n).

End Mem.

(** ** Reference definitions *)

(** The C comparison value of two byte strings of the same length. *)
Fixpoint lex_diff (bs cs : list Z) : Z :=
  match bs, cs with
  | b :: bs, c :: cs => if b - c =? 0 then lex_diff bs cs else b - c
  | _, _ => 0
  end.

(** First position at which [xs] occurs in [ys]. *)
Fixpoint find_sub (xs ys : list Z) : option nat :=
  if bool_decide (take (length xs) ys = xs) then Some 0%nat
  else match ys with [] => None | _ :: ys => S <$> find_sub xs ys end.

Definition ptr_at (base : Z) (o : option nat) : Z :=
  match o with Some i => base + Z.of_nat i | None => NULL end.

(** ** Correctness *)

Section copying.
Import Mem.

Lemma memcpy_loop_spec bs : ∀ fuel m q p,
  mem_at m p bs → bytes bs → mapped m q (Z.of_nat (length bs)) →
  q <= p ∨ p + Z.of_nat (length bs) <= q → (length bs < fuel)%nat →
  memcpy_loop fuel q p (Z.of_nat (length bs)) m = Some (tt, mem_set m q bs).
Proof.
  induction bs as [| b bs IH]; intros [| f] m q p Hp Hb Hq Hd Hf; cbn [memcpy_loop length] in *; try lia; [done |].
  apply mem_at_cons in Hp as [Hpb Hp]. apply Forall_cons in Hb as [Hbb Hb].
  rewrite (proj2 (Z.eqb_neq _ 0)) by lia. destruct (Hq q) as [c Hc]; [lia |].
  run load8_ok. run store8_ok. rewrite wrapu_small by done.
  replace (Z.of_nat (S (length bs)) - 1) with (Z.of_nat (length bs)) by lia.
  apply IH; [| done | | lia | lia].
  - apply mem_at_insert_ne; [done | lia].
  - intros k Hk. apply (mapped_insert _ _ _ _ _ Hq). lia.
Qed.

Lemma memmove_back_spec bs : ∀ fuel m q p,
  mem_at m p bs → bytes bs → mapped m q (Z.of_nat (length bs)) →
  p <= q → (length bs < fuel)%nat →
  memmove_back fuel (q + Z.of_nat (length bs)) (p + Z.of_nat (length bs)) (Z.of_nat (length bs)) m
  = Some (tt, mem_set m q bs).
Proof.
  induction bs as [| b bs IH] using rev_ind; intros [| f] m q p Hp Hb Hq Hd Hf;
    rewrite ?length_app in *; cbn [memmove_back length] in *; try lia; [done |].
  apply mem_at_app in Hp as [Hp Hpb]. apply mem_at_cons in Hpb as [Hpb _].
  apply Forall_app in Hb as [Hb Hbb]. apply Forall_cons in Hbb as [Hbb _].
  rewrite (proj2 (Z.eqb_neq _ 0)) by lia.
  replace (p + Z.of_nat (length bs + 1) - 1) with (p + Z.of_nat (length bs)) by lia.
  replace (q + Z.of_nat (length bs + 1) - 1) with (q + Z.of_nat (length bs)) by lia.
  replace (Z.of_nat (length bs + 1) - 1) with (Z.of_nat (length bs)) by lia.
  destruct (Hq (q + Z.of_nat (length bs))) as [c Hc]; [lia |].
  run load8_ok. run store8_ok. rewrite wrapu_small, mem_set_snoc by done.
  apply IH; [| done | | lia | lia].
  - apply mem_at_insert_ne; [done | lia].
  - intros k Hk. apply (mapped_insert _ _ _ _ _ Hq). lia.
Qed.

(** [memcpy] of [n] bytes between mapped regions that do not
    overlap (or where the destination is not above the source) returns
    [dst] and leaves exactly the source bytes at [dst]. *)
Theorem memcpy_correct m dst src bs :
  mem_at m src bs → bytes bs → mapped m dst (Z.of_nat (length bs)) →
  dst <= src ∨ src + Z.of_nat (length bs) <= dst →
  memcpy dst src (Z.of_nat (length bs)) m = Some (dst, mem_set m dst bs).
Proof.
  intros Hs Hb Hd Ho. unfold memcpy, with_fuel.
  erewrite bind_ok; [done | apply memcpy_loop_spec; try done].
  apply mem_at_length in Hs. lia.
Qed.

(** C30.  [memmove] is correct for every overlap of the two regions:
    it returns [dst], stores there the bytes that were at [src] before the
    call, and changes nothing else. *)
Theorem memmove_correct m dst src bs :
  mem_at m src bs → bytes bs → mapped m dst (Z.of_nat (length bs)) →
  memmove dst src (Z.of_nat (length bs)) m = Some (dst, mem_set m dst bs) ∧
  mem_at (mem_set m dst bs) dst bs ∧
  same_outside dst (Z.of_nat (length bs)) m (mem_set m dst bs).
Proof.
  intros Hs Hb Hd. split; [| auto with klibc]. unfold memmove, with_fuel.
  pose proof (mem_at_length _ _ _ Hs).
  erewrite bind_ok; [done |]. destruct (Z.ltb_spec dst src).
  - apply memcpy_loop_spec; try done; lia.
  - apply memmove_back_spec; try done; lia.
Qed.
End copying.

(** Overlapping regions in both directions. *)
Definition demo_mem : mem := mem_set ∅ 100 [1; 2; 3; 4; 5; 6].

Lemma memmove_correct_witness :
  Mem.memmove 102 100 4 demo_mem = Some (102, mem_set demo_mem 102 [1; 2; 3; 4]).
Proof.
  apply (memmove_correct demo_mem 102 100 [1; 2; 3; 4]).
  all: by_eval.
Defined.

Lemma memcpy_correct_witness :
  Mem.memcpy 200 100 3 (mem_set demo_mem 200 [0; 0; 0]) =
  Some (200, mem_set (mem_set demo_mem 200 [0; 0; 0]) 200 [1; 2; 3]).
Proof. apply (memcpy_correct _ 200 100 [1; 2; 3]); [by_eval.. | simpl; lia]. Defined.

Section other.
Import Mem.

Lemma memset_loop_spec n : ∀ fuel m q c,
  mapped m q (Z.of_nat n) → (n < fuel)%nat →
  memset_loop fuel q c (Z.of_nat n) m = Some (tt, mem_set m q (replicate n (u8 c))).
Proof.
  induction n as [| n IH]; intros [| f] m q c Hq Hf; cbn [memset_loop replicate] in *; try lia; [done |].
  rewrite (proj2 (Z.eqb_neq _ 0)) by lia. destruct (Hq q) as [b Hb]; [lia |].
  run store8_ok. replace (Z.of_nat (S n) - 1) with (Z.of_nat n) by lia.
  apply IH; [| lia]. intros k Hk. apply (mapped_insert _ _ _ _ _ Hq). lia.
Qed.

Lemma memset_correct m dst c n :
  0 <= n → mapped m dst n →
  memset dst c n m = Some (dst, mem_set m dst (replicate (Z.to_nat n) (u8 c))).
Proof.
  intros Hn Hm. unfold memset, with_fuel. pose proof (mapped_size _ _ _ Hn Hm).
  rewrite <- (Z2Nat.id n) at 1 by done.
  erewrite bind_ok; [done | apply memset_loop_spec; [by rewrite Z2Nat.id | lia]].
Qed.

Lemma memcmp_loop_spec bs : ∀ cs fuel m p q,
  mem_at m p bs → mem_at m q cs → length cs = length bs → (length bs < fuel)%nat →
  memcmp_loop fuel p q (Z.of_nat (length bs)) 0 m = Some (lex_diff bs cs, m).
Proof.
  induction bs as [| b bs IH]; intros [| c cs] [| f] m p q Hp Hq Hl Hf;
    cbn [memcmp_loop length lex_diff] in *; try lia; [done |].
  apply mem_at_cons in Hp as [Hb Hp]. apply mem_at_cons in Hq as [Hc Hq].
  rewrite (proj2 (Z.eqb_neq _ 0)) by lia. run load8_ok. run load8_ok.
  destruct (Z.eqb_spec (b - c) 0) as [He |]; [| done]. rewrite He.
  replace (Z.of_nat (S (length bs)) - 1) with (Z.of_nat (length bs)) by lia.
  apply IH; [done.. | lia | lia].
Qed.

(** [memcmp] returns the difference of the first differing pair
    of bytes and 0 when the regions are equal. *)
Theorem memcmp_correct m s1 s2 bs cs :
  mem_at m s1 bs → mem_at m s2 cs → length cs = length bs →
  memcmp s1 s2 (Z.of_nat (length bs)) m = Some (lex_diff bs cs, m).
Proof.
  intros Hb Hc Hl. apply memcmp_loop_spec; [done.. |].
  apply mem_at_length in Hb. lia.
Qed.

Lemma lex_diff_eq bs cs : length cs = length bs → lex_diff bs cs = 0 ↔ bs = cs.
Proof.
  revert cs. induction bs as [| b bs IH]; intros [| c cs] Hl; simpl in *; try lia; [done |].
  destruct (Z.eqb_spec (b - c) 0).
  - rewrite IH by lia. split; [intros ->; f_equal; lia | congruence].
  - split; [lia | intros; simplify_eq; lia].
Qed.

Lemma memchr_loop_spec bs : ∀ fuel m sp c,
  mem_at m sp bs → (length bs < fuel)%nat →
  memchr_loop fuel sp c (Z.of_nat (length bs)) m =
  Some (ptr_at sp (fst <$> list_find (.= u8 c) bs), m).
Proof.
  induction bs as [| b bs IH]; intros [| f] m sp c Hp Hf;
    cbn [memchr_loop length list_find] in *; try lia; [done |].
  apply mem_at_cons in Hp as [Hb Hp]. rewrite (proj2 (Z.eqb_neq _ 0)) by lia. run load8_ok.
  destruct (Z.eqb_spec b (u8 c)); [rewrite decide_True by done; simpl; by rewrite Z.add_0_r |].
  rewrite decide_False by done.
  replace (Z.of_nat (S (length bs)) - 1) with (Z.of_nat (length bs)) by lia.
  rewrite IH by (done || lia). destruct (list_find _ _) as [[i x] |]; simpl; [do 2 f_equal; lia | done].
Qed.

Lemma memswap_loop_spec bs : ∀ cs fuel m p q,
  mem_at m p bs → mem_at m q cs → bytes bs → bytes cs → length cs = length bs →
  p + Z.of_nat (length bs) <= q ∨ q + Z.of_nat (length bs) <= p → (length bs < fuel)%nat →
  memswap_loop fuel p q (Z.of_nat (length bs)) m = Some (tt, mem_set (mem_set m p cs) q bs).
Proof.
  induction bs as [| b bs IH]; intros [| c cs] [| f] m p q Hp Hq Hb Hc Hl Hd Hf;
    cbn [memswap_loop length mem_set] in *; try lia; [done |].
  apply mem_at_cons in Hp as [Hpb Hp]. apply mem_at_cons in Hq as [Hqc Hq].
  apply Forall_cons in Hb as [? Hb]. apply Forall_cons in Hc as [? Hc].
  rewrite (proj2 (Z.eqb_neq _ 0)) by lia. run load8_ok. run load8_ok. run store8_ok.
  erewrite bind_ok by (eapply store8_ok; rewrite lookup_insert_ne by lia; done).
  rewrite !wrapu_small by done.
  replace (Z.of_nat (S (length bs)) - 1) with (Z.of_nat (length bs)) by lia.
  rewrite (IH cs); [by rewrite mem_set_insert_ne by lia | | | done | done | lia | lia | lia];
    repeat apply mem_at_insert_ne; done || lia.
Qed.
End other.

Section search.
Import Mem.

Lemma ptr_at_S base o : ptr_at base (S <$> o) = ptr_at (base + 1) o.
Proof. destruct o; simpl; [lia | done]. Qed.

Lemma ptr_at_0 base : ptr_at base (Some 0%nat) = base.
Proof. simpl. lia. Qed.

Lemma find_sub_short xs ys : (length ys < length xs)%nat → find_sub xs ys = None.
Proof.
  induction ys as [| y ys IH]; intros Hl; cbn [find_sub length] in *.
  - rewrite bool_decide_false; [done |]. intros He. apply (f_equal length) in He.
    rewrite length_take in He. simpl in He. lia.
  - rewrite bool_decide_false; [by rewrite IH by lia |]. intros He. apply (f_equal length) in He.
    rewrite length_take in He. simpl in *. lia.
Qed.

Lemma find_sub_miss xs y ys :
  take (length xs) (y :: ys) ≠ xs → find_sub xs (y :: ys) = S <$> find_sub xs ys.
Proof. intros H. cbn [find_sub]. by rewrite bool_decide_false. Qed.

Lemma find_sub_hit xs ys : take (length xs) ys = xs → find_sub xs ys = Some 0%nat.
Proof. intros H. destruct ys; cbn [find_sub]; by rewrite bool_decide_true. Qed.

(** A mismatch on the second byte rules the position out, and so does one
    on the first byte. *)
Lemma find_sub_miss2 x0 x1 xs y0 y1 ys :
  x1 ≠ y1 → find_sub (x0 :: x1 :: xs) (y0 :: y1 :: ys) = S <$> find_sub (x0 :: x1 :: xs) (y1 :: ys).
Proof. intros. apply find_sub_miss. simpl. congruence. Qed.

Lemma find_sub_miss1 x0 xs y0 ys :
  x0 ≠ y0 → find_sub (x0 :: xs) (y0 :: ys) = S <$> find_sub (x0 :: xs) ys.
Proof. intros. apply find_sub_miss. simpl. congruence. Qed.

Definition shifts (x0 x1 k l : Z) : Prop :=
  (x0 = x1 ∧ k = 2 ∧ l = 1) ∨ (x0 ≠ x1 ∧ k = 1 ∧ l = 2).

(** The search over a text given by its bytes [ys] at [y + j]. *)
Lemma memmem_loop_spec m y x n x0 x1 xs k l :
  mem_at m x (x0 :: x1 :: xs) → shifts x0 x1 k l →
  ∀ fuel j ys, mem_at m (y + j) ys → n = j + Z.of_nat (length ys) → (length ys < fuel)%nat →
  memmem_loop fuel y x n (Z.of_nat (S (S (length xs)))) k l j m =
  Some (ptr_at (y + j) (find_sub (x0 :: x1 :: xs) ys), m).
Proof.
  intros Hx Hs. pose proof Hx as Hx'. rewrite !mem_at_cons in Hx'. destruct Hx' as (Hx0 & Hx1 & Hxs).
  induction fuel as [| f IH]; intros j ys Hy Hn Hf; [lia |]. cbn [memmem_loop].
  destruct (Z.ltb_spec (n - Z.of_nat (S (S (length xs)))) j).
  { rewrite find_sub_short; [done | simpl; lia]. }
  destruct ys as [| y0 [| y1 ys]]; simpl length in *; [lia.. |].
  pose proof Hy as Hy'. rewrite !mem_at_cons in Hy'. destruct Hy' as (Hy0 & Hy1 & Hys).
  (* what remains to be searched after a shift by one and by two *)
  assert (memmem_loop f y x n (Z.of_nat (S (S (length xs)))) k l (j + 1) m =
    Some (ptr_at (y + j + 1) (find_sub (x0 :: x1 :: xs) (y1 :: ys)), m)) as IH1.
  { rewrite <- Z.add_assoc. apply IH; [| simpl; lia..].
    rewrite mem_at_cons, Z.add_assoc. done. }
  assert (memmem_loop f y x n (Z.of_nat (S (S (length xs)))) k l (j + 2) m =
    Some (ptr_at (y + j + 1 + 1) (find_sub (x0 :: x1 :: xs) ys), m)) as IH2.
  { replace (y + j + 1 + 1) with (y + (j + 2)) in * by lia. apply IH; [done | lia..]. }
  run load8_ok. run load8_ok. destruct (Z.eqb_spec x1 y1) as [-> | Hne]; cbn [negb].
  - replace (Z.of_nat (S (S (length xs))) - 2) with (Z.of_nat (length xs)) by lia.
    assert (mem_at m (y + j + 1 + 1) (take (length xs) ys)) as Ht.
    { rewrite <- (take_drop (length xs) ys), mem_at_app in Hys. tauto. }
    erewrite bind_ok; [| replace (x + 2) with (x + 1 + 1) by lia;
      replace (y + j + 2) with (y + j + 1 + 1) by lia; apply memcmp_correct; [done.. |];
      rewrite length_take; lia].
    assert (length (take (length xs) ys) = length xs) as Hlt by (rewrite length_take; lia).
    assert (x0 ≠ y0 ∨ lex_diff xs (take (length xs) ys) ≠ 0 →
      memmem_loop f y x n (Z.of_nat (S (S (length xs)))) k l (j + l) m =
      Some (ptr_at (y + j) (find_sub (x0 :: y1 :: xs) (y0 :: y1 :: ys)), m)) as Hmiss.
    { intros Hm. rewrite find_sub_miss, ptr_at_S.
      - destruct Hs as [(-> & -> & ->) | (? & -> & ->)]; [done |].
        by rewrite find_sub_miss1, ptr_at_S.
      - simpl. intros He. simplify_eq. rewrite lex_diff_eq in Hm by done. naive_solver. }
    destruct (Z.eqb_spec (lex_diff xs (take (length xs) ys)) 0) as [He |]; [| by auto].
    run load8_ok. run load8_ok. destruct (Z.eqb_spec x0 y0) as [-> |]; [| by auto].
    apply lex_diff_eq in He; [| done]. rewrite find_sub_hit; [by rewrite ptr_at_0 |].
    simpl. by rewrite <- He.
  - rewrite find_sub_miss2, ptr_at_S by done.
    destruct Hs as [(-> & -> & ->) | (? & -> & ->)]; [| done].
    by rewrite find_sub_miss1, ptr_at_S.
Qed.

Lemma memmem_one_spec m x c : m !! x = Some c →
  ∀ ys fuel y, mem_at m y ys → ys ≠ [] → (length ys <= fuel)%nat →
  memmem_one fuel y x (Z.of_nat (length ys)) m = Some (ptr_at y (find_sub [c] ys), m).
Proof.
  intros Hc. induction ys as [| b ys IH]; intros [| f] y Hy Hne Hf; [done.. | simpl in Hf; lia |].
  cbn [memmem_one length]. apply mem_at_cons in Hy as [Hb Hy]. run load8_ok. run load8_ok.
  destruct (Z.eqb_spec b c) as [-> | Hbc].
  - rewrite find_sub_hit, ptr_at_0 by (simpl; by rewrite take_0). done.
  - rewrite find_sub_miss1, ptr_at_S by done. destruct ys as [| b' ys].
    + by rewrite find_sub_short by (simpl; lia).
    + rewrite (proj2 (Z.eqb_neq _ 0)) by (simpl; lia).
      replace (Z.of_nat (S (length (b' :: ys))) - 1) with (Z.of_nat (length (b' :: ys))) by lia.
      apply IH; [done.. | simpl in *; lia].
Qed.

(** The run of both search strategies. *)
Lemma memmem_run m y ys x xs :
  mem_at m y ys → mem_at m x xs → xs ≠ [] →
  memmem y (Z.of_nat (length ys)) x (Z.of_nat (length xs)) m =
  Some (ptr_at y (find_sub xs ys), m).
Proof.
  intros Hy Hx Hne. unfold memmem, with_fuel. pose proof (mem_at_length _ _ _ Hy).
  destruct xs as [| x0 xs]; [done |].
  destruct (Z.ltb_spec (Z.of_nat (length ys)) (Z.of_nat (length (x0 :: xs)))).
  { simpl orb. rewrite find_sub_short by lia. done. }
  rewrite !(proj2 (Z.eqb_neq _ 0)) by (simpl in *; lia). simpl orb.
  destruct xs as [| x1 xs]; cbn [length negb orb].
  - apply mem_at_cons in Hx as [Hx _]. apply memmem_one_spec; [done.. | | lia].
    intros ->. simpl in *. lia.
  - rewrite (proj2 (Z.eqb_neq _ 1)) by lia. cbn [negb].
    pose proof Hx as Hx'. rewrite !mem_at_cons in Hx'. destruct Hx' as (? & ? & ?).
    run load8_ok. run load8_ok. replace (ptr_at y) with (ptr_at (y + 0)) by (f_equal; lia).
    destruct (Z.eqb_spec x0 x1);
      (apply memmem_loop_spec; [done | unfold shifts; tauto | by rewrite Z.add_0_r | lia | lia]).
Qed.

(** C31.  The "Not So Naive" [memmem] agrees with the naive search:
    for a non-empty needle it returns the address of the first occurrence
    of the needle in the haystack and [NULL] when there is none. *)
Theorem memmem_correct m y ys x xs :
  mem_at m y ys → mem_at m x xs → xs ≠ [] →
  memmem y (Z.of_nat (length ys)) x (Z.of_nat (length xs)) m =
  Some (ptr_at y (find_sub xs ys), m).
Proof. apply memmem_run. Qed.
End search.

Lemma memmem_correct_witness :
  Mem.memmem 100 6 103 2 demo_mem = Some (ptr_at 100 (find_sub [4; 5] [1; 2; 3; 4; 5; 6]), demo_mem).
Proof. apply (memmem_correct demo_mem 100 [1; 2; 3; 4; 5; 6] 103 [4; 5]); [by_eval.. | done]. Defined.

Lemma memcmp_correct_witness :
  Mem.memcmp 100 103 2 demo_mem = Some (-3, demo_mem).
Proof. apply (memcmp_correct demo_mem 100 103 [1; 2] [4; 5]); [by_eval.. | done]. Defined.
