(* ===== verification/StrOps.v ===== *)
(** * String functions: [klibc/str*.c]

    The functions on NUL-terminated strings, over the memory of [Memory].
    [char] values that take part in comparisons are sign-extended ([s8]) as
    in the code; comparison functions read [unsigned char]s. *)

From stdpp Require Import base numbers list gmap.
From Stdlib Require Import Lia.
From S2P Require Import Prelude Memory Ctype MemOps.

(** A classification that may fault, as a command. *)
Definition lift {S A} (o : option A) : st S A := λ s, (λ a, (a, s)) <$> o.

Lemma lift_ok {S A} (o : option A) a (s : S) : o = Some a → lift o s = Some (a, s).
Proof. by intros ->. Qed.

(** ** Definitions *)

Module Str.
Import Mem.

Fixpoint strlen_loop (fuel : nat) (ss : Z) : C Z :=
  match fuel with
  | O => fault
  | S f => ch ← load8 ss; if ch =? 0 then mret ss else strlen_loop f (ss + 1)
  end.

Definition strlen (s : Z) : C Z :=
  with_fuel (λ fuel, ss ← strlen_loop fuel s; mret (ss - s)).

(** [while ((maxlen > 0) && *ss)]: the bound is tested before the access. *)
Fixpoint strnlen_loop (fuel : nat) (ss maxlen : Z) : C Z :=
  match fuel with
  | O => fault
  | S f =>
      if 0 <? maxlen then
        ch ← load8 ss;
        if ch =? 0 then mret ss else strnlen_loop f (ss + 1) (maxlen - 1)
      else mret ss
  end.

Definition strnlen (s maxlen : Z) : C Z :=
  with_fuel (λ fuel, ss ← strnlen_loop fuel s maxlen; mret (ss - s)).

Fixpoint strcpy_loop (fuel : nat) (q p : Z) : C unit :=
  match fuel with
  | O => fault
  | S f =>
      ch ← load8 p; store8 q ch;;
      if ch =? 0 then mret tt else strcpy_loop f (q + 1) (p + 1)
  end.

Definition strcpy (dst src : Z) : C Z :=
  with_fuel (λ fuel, strcpy_loop fuel dst src;; mret dst).

Fixpoint strchr_loop (fuel : nat) (s c : Z) : C Z :=
  match fuel with
  | O => fault
  | S f =>
      ch ← loadc s;
      if ch =? s8 c then mret s
      else if ch =? 0 then mret NULL else strchr_loop f (s + 1) c
  end.

Definition strchr (s c : Z) : C Z := with_fuel (λ fuel, strchr_loop fuel s c).

Fixpoint strrchr_loop (fuel : nat) (s c found : Z) : C Z :=
  match fuel with
  | O => fault
  | S f =>
      ch ← loadc s;
      if ch =? 0 then mret found
      else strrchr_loop f (s + 1) c (if ch =? s8 c then s else found)
  end.

Definition strrchr (s c : Z) : C Z := with_fuel (λ fuel, strrchr_loop fuel s c NULL).

Definition strcat (dst src : Z) : C Z :=
  e ← strchr dst 0; strcpy e src;; mret dst.

(** The loop of [strncpy]; returns [q] and the remaining [n]. *)
Fixpoint strncpy_loop (fuel : nat) (q p n : Z) : C (Z * Z) :=
  match fuel with
  | O => fault
  | S f =>
      if n =? 0 then mret (q, n)
      else ch ← load8 p; store8 q ch;;
           if ch =? 0 then mret (q + 1, n - 1) else strncpy_loop f (q + 1) (p + 1) (n - 1)
  end.

Definition strncpy (dst src n : Z) : C Z :=
  with_fuel (λ fuel,
    '(q, n) ← strncpy_loop fuel dst src n;
    memset q 0 n;;
    mret dst).

Fixpoint strncat_loop (fuel : nat) (q p n : Z) : C unit :=
  match fuel with
  | O => fault
  | S f =>
      if n =? 0 then store8 q 0
      else ch ← load8 p; store8 q ch;;
           if ch =? 0 then mret tt else strncat_loop f (q + 1) (p + 1) (n - 1)
  end.

Definition strncat (dst src n : Z) : C Z :=
  q ← strchr dst 0; with_fuel (λ fuel, strncat_loop fuel q src n);; mret dst.

(** The copy loop shared by the bodies of [strlcpy] and [strlcat]; returns
    [q] and [bytes]. *)
Fixpoint strlcpy_loop (fuel : nat) (q p bytes size : Z) : C (Z * Z) :=
  match fuel with
  | O => fault
  | S f =>
      ch ← load8 p;
      if ch =? 0 then mret (q, bytes)
      else if u64 (bytes + 1) <? size then
        store8 q ch;; strlcpy_loop f (q + 1) (p + 1) (bytes + 1) size
      else strlcpy_loop f q (p + 1) (bytes + 1) size
  end.

Definition strlcpy (dst src size : Z) : C Z :=
  with_fuel (λ fuel,
    '(q, bytes) ← strlcpy_loop fuel dst src 0 size;
    (if negb (size =? 0) then store8 q 0 else mret tt);;
    mret bytes).

(** [while (bytes < size && *q)] *)
Fixpoint strlcat_scan (fuel : nat) (q bytes size : Z) : C (Z * Z) :=
  match fuel with
  | O => fault
  | S f =>
      if bytes <? size then
        ch ← load8 q;
        if ch =? 0 then mret (q, bytes) else strlcat_scan f (q + 1) (bytes + 1) size
      else mret (q, bytes)
  end.

Definition strlcat (dst src size : Z) : C Z :=
  with_fuel (λ fuel,
    '(q, bytes) ← strlcat_scan fuel dst 0 size;
    if bytes =? size then l ← strlen src; mret (bytes + l)
    else
      '(q, bytes) ← strlcpy_loop fuel q src bytes size;
      store8 q 0;; mret bytes).

Fixpoint strcmp_loop (fuel : nat) (c1 c2 : Z) : C Z :=
  match fuel with
  | O => fault
  | S f =>
      ch ← load8 c1; b ← load8 c2;
      let d := ch - b in
      if negb (d =? 0) || (ch =? 0) then mret d else strcmp_loop f (c1 + 1) (c2 + 1)
  end.

Definition strcmp (s1 s2 : Z) : C Z := with_fuel (λ fuel, strcmp_loop fuel s1 s2).

Fixpoint strncmp_loop (fuel : nat) (c1 c2 n d : Z) : C Z :=
  match fuel with
  | O => fault
  | S f =>
      if n =? 0 then mret d
      else
        ch ← load8 c1; b ← load8 c2;
        let d := ch - b in
        if negb (d =? 0) || (ch =? 0) then mret d
        else strncmp_loop f (c1 + 1) (c2 + 1) (n - 1) d
  end.

Definition strncmp (s1 s2 n : Z) : C Z := with_fuel (λ fuel, strncmp_loop fuel s1 s2 n 0).

Fixpoint strcasecmp_loop (fuel : nat) (c1 c2 : Z) : C Z :=
  match fuel with
  | O => fault
  | S f =>
      ch ← load8 c1; b ← load8 c2;
      u1 ← lift (toupper ch); u2 ← lift (toupper b);
      let d := u1 - u2 in
      if negb (d =? 0) || (ch =? 0) then mret d else strcasecmp_loop f (c1 + 1) (c2 + 1)
  end.

Definition strcasecmp (s1 s2 : Z) : C Z := with_fuel (λ fuel, strcasecmp_loop fuel s1 s2).

Fixpoint strncasecmp_loop (fuel : nat) (c1 c2 n d : Z) : C Z :=
  match fuel with
  | O => fault
  | S f =>
      if n =? 0 then mret d
      else
        ch ← load8 c1; b ← load8 c2;
        u1 ← lift (toupper ch); u2 ← lift (toupper b);
        let d := u1 - u2 in
        if negb (d =? 0) || (ch =? 0) then mret d
        else strncasecmp_loop f (c1 + 1) (c2 + 1) (n - 1) d
  end.

Definition strncasecmp (s1 s2 n : Z) : C Z :=
  with_fuel (λ fuel, strncasecmp_loop fuel s1 s2 n 0).

(** [strxspn.c]: the local array [matchmap] is a list of 256 entries. *)
Fixpoint strxspn_fill (fuel : nat) (map : Z) (matchmap : list Z) : C (list Z) :=
  match fuel with
  | O => fault
  | S f =>
      ch ← load8 map;
      if ch =? 0 then mret matchmap
      else strxspn_fill f (map + 1) (<[Z.to_nat ch := 1]> matchmap)
  end.

Fixpoint strxspn_count (fuel : nat) (s : Z) (matchmap : list Z) (parity n : Z) : C Z :=
  match fuel with
  | O => fault
  | S f =>
      ch ← load8 s;
      e ← lift (matchmap !! Z.to_nat ch);
      if Z.lxor e parity =? 0 then mret n
      else strxspn_count f (s + 1) matchmap parity (n + 1)
  end.

Definition __strxspn (s map parity : Z) : C Z :=
  with_fuel (λ fuel,
    matchmap ← strxspn_fill fuel map (replicate 256 0);
    strxspn_count fuel s (<[0%nat := parity]> matchmap) parity 0).

Definition strspn (s accept : Z) : C Z := __strxspn s accept 0.
Definition strcspn (s reject : Z) : C Z := __strxspn s reject 1.

Definition strpbrk (s accept : Z) : C Z :=
  n ← __strxspn s accept 1;
  let ss := s + n in
  ch ← load8 ss; mret (if ch =? 0 then NULL else ss).

(** [strsep] takes the value of [*stringp] and returns its result with the
    new value of [*stringp]. *)
Definition strsep (stringp delim : Z) : C (Z * Z) :=
  let s := stringp in
  if s =? NULL then mret (NULL, stringp)
  else
    e ← strpbrk s delim;
    if negb (e =? NULL) then store8 e 0;; mret (s, e + 1) else mret (s, NULL).

(** [do s = strsep(holder, delim); while (s && !*s);] *)
Fixpoint strtok_loop (fuel : nat) (holder delim : Z) : C (Z * Z) :=
  match fuel with
  | O => fault
  | S f =>
      '(s, holder) ← strsep holder delim;
      if s =? NULL then mret (s, holder)
      else ch ← load8 s;
           if ch =? 0 then strtok_loop f holder delim else mret (s, holder)
  end.

Definition strtok_r (s delim holder : Z) : C (Z * Z) :=
  with_fuel (λ fuel, strtok_loop fuel (if negb (s =? NULL) then s else holder) delim).

Definition strstr (haystack needle : Z) : C Z :=
  n ← strlen haystack; k ← strlen needle; memmem haystack n needle k.

End Str.

(** ** Lemmas *)

(** The loops below scan a string [s] and its terminator: [nz] decides the
    test [ch =? 0] inside and at the end of the string. *)
Ltac nz := rewrite (proj2 (Z.eqb_neq _ 0)) by (done || lia).

Lemma s8_eq b c : in_u 8 b → s8 b = s8 c ↔ b = u8 c.
Proof.
  intros Hb. split.
  - intros H. rewrite <- (wrapu_small 8 b), <- (wrapu_wraps 8 b), H by done. apply wrapu_wraps.
  - intros ->. apply wraps_wrapu.
Qed.

Lemma s8_zero b : in_u 8 b → s8 b = 0 ↔ b = 0.
Proof. intros. change 0 with (s8 0) at 1. by apply s8_eq. Qed.

(** Terminating a string that has just been written. *)
Lemma store8_nul m a bs :
  is_Some (m !! (a + Z.of_nat (length bs))) →
  store8 (a + Z.of_nat (length bs)) 0 (mem_set m a bs) = Some (tt, mem_set m a (bs ++ [0])).
Proof.
  intros [c Hc]. rewrite mem_set_app. apply (store8_ok _ _ 0 c).
  by rewrite mem_set_outside by lia.
Qed.

Section scanning.
Import Str.

Lemma strlen_loop_spec s : ∀ fuel m a,
  cstr m a s → (length s < fuel)%nat →
  strlen_loop fuel a m = Some (a + Z.of_nat (length s), m).
Proof.
  induction s as [| b s IH]; intros [| f] m a Hs Hf; cbn [strlen_loop length] in *; try lia.
  - apply cstr_nil in Hs. run load8_ok. simpl. by rewrite Z.add_0_r.
  - apply cstr_cons in Hs as (Hb & Hnz & Hs). run load8_ok. nz.
    rewrite IH by (done || lia). do 2 f_equal. lia.
Qed.

(** *)
Lemma strlen_correct m a s : cstr m a s → strlen a m = Some (Z.of_nat (length s), m).
Proof.
  intros Hs. unfold strlen, with_fuel. pose proof (cstr_length _ _ _ Hs).
  run strlen_loop_spec. unfold mret, st_ret. do 2 f_equal. lia.
Qed.

Lemma strnlen_loop_spec s : ∀ fuel m a n,
  cstr m a s → (length s < fuel)%nat → 0 <= n →
  strnlen_loop fuel a n m = Some (a + Z.min n (Z.of_nat (length s)), m).
Proof.
  induction s as [| b s IH]; intros [| f] m a n Hs Hf Hn; cbn [strnlen_loop length] in *; try lia;
    destruct (Z.ltb_spec 0 n); try (unfold mret, st_ret; do 2 f_equal; lia).
  - apply cstr_nil in Hs. run load8_ok. unfold mret, st_ret. simpl. do 2 f_equal; lia.
  - apply cstr_cons in Hs as (Hb & Hnz & Hs). run load8_ok. nz.
    rewrite IH by (done || lia). do 2 f_equal. lia.
Qed.

Lemma strchr_loop_spec s : ∀ fuel m a c,
  cstr m a s → bytes s → (length s < fuel)%nat →
  strchr_loop fuel a c m = Some (ptr_at a (fst <$> list_find (.= u8 c) (s ++ [0])), m).
Proof.
  induction s as [| b s IH]; intros [| f] m a c Hs Hby Hf;
    cbn [strchr_loop length list_find app] in *; try lia.
  - apply cstr_nil in Hs. run loadc_ok. change (s8 0) with 0.
    destruct (Z.eqb_spec 0 (s8 c)) as [He | He].
    + rewrite decide_True by (by apply (s8_eq 0)). simpl. by rewrite Z.add_0_r.
    + rewrite decide_False by (intros E; apply He; by apply (s8_eq 0)). done.
  - apply cstr_cons in Hs as (Hb & Hnz & Hs). apply Forall_cons in Hby as [Hb8 Hby].
    run loadc_ok. destruct (Z.eqb_spec (s8 b) (s8 c)) as [He | He]; rewrite s8_eq in He by done.
    + rewrite decide_True by done. simpl. by rewrite Z.add_0_r.
    + rewrite decide_False by done. rewrite (proj2 (Z.eqb_neq _ 0)) by (by rewrite s8_zero).
      rewrite IH by (done || lia). destruct (list_find _ _) as [[i x] |]; simpl; [do 2 f_equal; lia | done].
Qed.

(** [strchr] returns the first position of [(char)c] in the
    string, the terminator included, and [NULL] if there is none. *)
Theorem strchr_correct m a s c :
  cstr m a s → bytes s →
  strchr a c m = Some (ptr_at a (fst <$> list_find (.= u8 c) (s ++ [0])), m).
Proof.
  intros Hs Hb. apply strchr_loop_spec; [done.. |]. apply cstr_length in Hs. lia.
Qed.

Lemma strchr_end m a s : cstr m a s → bytes s → strchr a 0 m = Some (a + Z.of_nat (length s), m).
Proof.
  intros Hs Hb. rewrite (strchr_correct m a s) by done.
  rewrite list_find_app_r.
  - simpl. do 2 f_equal; lia.
  - apply list_find_None. destruct Hs as [_ Hs]. done.
Qed.
End scanning.

Section copying.
Import Str.

Lemma strcpy_loop_spec s : ∀ fuel m q p,
  cstr m p s → bytes s → mapped m q (Z.of_nat (length s) + 1) →
  q <= p ∨ p + Z.of_nat (length s) + 1 <= q → (length s < fuel)%nat →
  strcpy_loop fuel q p m = Some (tt, mem_set m q (s ++ [0])).
Proof.
  induction s as [| b s IH]; intros [| f] m q p Hs Hby Hq Hd Hf;
    cbn [strcpy_loop length mem_set app] in *; try lia; (destruct (Hq q) as [c Hc]; [lia |]).
  - apply cstr_nil in Hs. run load8_ok. run store8_ok. done.
  - apply cstr_cons in Hs as (Hb & Hnz & Hs). apply Forall_cons in Hby as [Hb8 Hby].
    run load8_ok. run store8_ok. nz. rewrite wrapu_small by done.
    apply IH; [| done | | lia | lia].
    + apply (cstr_set_ne _ q [b]); [done |]. simpl. lia.
    + intros k Hk. apply (mapped_insert _ _ _ _ _ Hq). lia.
Qed.

Lemma strcpy_correct m dst src s :
  cstr m src s → bytes s → mapped m dst (Z.of_nat (length s) + 1) →
  dst <= src ∨ src + Z.of_nat (length s) + 1 <= dst →
  strcpy dst src m = Some (dst, mem_set m dst (s ++ [0])).
Proof.
  intros Hs Hb Hm Hd. unfold strcpy, with_fuel. pose proof (cstr_length _ _ _ Hs).
  run strcpy_loop_spec. done.
Qed.

(** [strcat] of two disjoint strings makes [dst] hold the
    concatenation, leaves [src] intact, and writes only the appended bytes
    and their terminator. *)
Theorem strcat_correct m dst src t s :
  cstr m dst t → cstr m src s → bytes t → bytes s →
  mapped m dst (Z.of_nat (length t + length s) + 1) →
  dst + Z.of_nat (length t + length s) + 1 <= src ∨ src + Z.of_nat (length s) + 1 <= dst →
  ∃ m', strcat dst src m = Some (dst, m') ∧
    m' = mem_set m (dst + Z.of_nat (length t)) (s ++ [0]) ∧
    cstr m' dst (t ++ s) ∧ cstr m' src s.
Proof.
  intros Ht Hs Hbt Hbs Hm Hd. eexists. split; [| split; [done |]].
  - unfold strcat. erewrite bind_ok by (by apply strchr_end).
    erewrite bind_ok; [done | apply strcpy_correct; [done.. | | lia]].
    intros k Hk. apply Hm. lia.
  - split; [| apply cstr_set_ne; [done | rewrite length_app; simpl; lia]].
    apply cstr_app. destruct Hs as [_ Hs], Ht as [Ht Htn]. split; [| split; [done |]].
    + apply mem_at_app in Ht as [Ht _]. eapply mem_at_set_ne; [done.. | lia].
    + by apply cstr_set.
Qed.

Lemma strncpy_loop_spec s : ∀ fuel m q p n,
  cstr m p s → bytes s → 0 <= n → mapped m q n →
  q <= p ∨ p + Z.of_nat (length s) + 1 <= q → (length s < fuel)%nat →
  ∃ k, strncpy_loop fuel q p n m =
    Some ((q + k, n - k), mem_set m q (take (Z.to_nat k) (s ++ [0]))) ∧
    k = Z.min n (Z.of_nat (length s) + 1).
Proof.
  induction s as [| b s IH]; intros [| f] m q p n Hs Hby Hn Hq Hd Hf;
    cbn [strncpy_loop length app] in *; try lia;
    (destruct (Z.eqb_spec n 0) as [-> | Hn0];
      [exists 0; split; [simpl; by rewrite Z.add_0_r | lia] |]);
    (destruct (Hq q) as [c Hc]; [lia |]).
  - apply cstr_nil in Hs. exists 1. run load8_ok. run store8_ok. split; [done | lia].
  - apply cstr_cons in Hs as (Hb & Hnz & Hs). apply Forall_cons in Hby as [Hb8 Hby].
    destruct (IH f (<[q := b]> m) (q + 1) (p + 1) (n - 1)) as (k & Hk & ->); [| done | lia | | lia | lia |].
    + apply (cstr_set_ne _ q [b]); [done |]. simpl. lia.
    + intros j Hj. apply (mapped_insert _ _ _ _ _ Hq). lia.
    + eexists. split; [| done]. run load8_ok. run store8_ok. nz. rewrite wrapu_small, Hk by done.
      replace (Z.to_nat (Z.min n (Z.of_nat (S (length s)) + 1)))
        with (S (Z.to_nat (Z.min (n - 1) (Z.of_nat (length s) + 1)))) by lia.
      cbn [take mem_set app]. do 3 f_equal; lia.
Qed.

(** [strncpy] writes exactly [n] bytes: the string cut or
    padded with NULs to length [n] (no terminator when the string is
    longer), and nothing else. *)
Theorem strncpy_correct m dst src s n :
  cstr m src s → bytes s → 0 <= n → mapped m dst n →
  dst <= src ∨ src + Z.of_nat (length s) + 1 <= dst →
  strncpy dst src n m = Some (dst, mem_set m dst (resize (Z.to_nat n) 0 s)).
Proof.
  intros Hs Hb Hn Hm Hd. unfold strncpy, with_fuel.
  destruct (strncpy_loop_spec s (S (size m)) m dst src n) as (k & Hk & Hkn); [done.. | |].
  { apply cstr_length in Hs. lia. }
  rewrite (bind_ok _ _ _ _ _ Hk). cbn beta iota.
  erewrite bind_ok; [| apply memset_correct; [lia | apply mapped_set; intros j Hj; apply Hm; lia]].
  unfold mret, st_ret. do 2 f_equal.
  rewrite <- (mem_set_app_at _ _ k) by (rewrite length_take, length_app; simpl; lia).
  f_equal. change (u8 0) with 0. rewrite resize_spec, take_app, <- app_assoc.
  destruct (Z.le_gt_cases n (Z.of_nat (length s))).
  - replace (Z.to_nat k - length s)%nat with 0%nat by lia. rewrite take_0.
    replace k with n by lia. rewrite Z.sub_diag.
    by replace (Z.to_nat n - length s)%nat with 0%nat by lia.
  - rewrite !take_ge by (simpl; lia). f_equal.
    replace (Z.to_nat n - length s)%nat with (S (Z.to_nat (n - k))) by lia. done.
Qed.
End copying.

Section bounded_copying.
Import Str.

(** Room left in a buffer of [size] bytes after [bytes] characters, keeping
    one byte for the terminator. *)
Definition room (size bytes : Z) : nat := Z.to_nat (size - 1 - bytes).

Lemma strlcpy_loop_spec size s : ∀ fuel m q p bytes,
  cstr m p s → Forall (in_u 8) s → 0 <= bytes → bytes + Z.of_nat (length s) + 1 < 2 ^ 64 →
  mapped m q (Z.of_nat (length (take (room size bytes) s))) →
  q <= p ∨ p + Z.of_nat (length s) + 1 <= q → (length s < fuel)%nat →
  strlcpy_loop fuel q p bytes size m =
  Some ((q + Z.of_nat (length (take (room size bytes) s)), bytes + Z.of_nat (length s)),
        mem_set m q (take (room size bytes) s)).
Proof.
  induction s as [| b s IH]; intros [| f] m q p n Hs Hby Hn Hov Hq Hd Hf;
    cbn [strlcpy_loop length] in *; try lia.
  - apply cstr_nil in Hs. run load8_ok. rewrite take_nil. simpl. by rewrite !Z.add_0_r.
  - apply cstr_cons in Hs as (Hb & Hnz & Hs). apply Forall_cons in Hby as [Hb8 Hby].
    run load8_ok. nz. rewrite (wrapu_small 64) by (unfold in_u; lia).
    destruct (Z.ltb_spec (n + 1) size).
    + assert (room size n = S (room size (n + 1))) as Hr by (unfold room; lia).
      rewrite Hr in *. cbn [take length mem_set] in *. destruct (Hq q) as [c Hc]; [lia |].
      run store8_ok. rewrite wrapu_small by done. rewrite IH; [do 3 f_equal; lia | | done | lia.. | | lia | lia].
      * apply (cstr_set_ne _ q [b]); [done |]. simpl. lia.
      * intros k Hk. apply (mapped_insert _ _ _ _ _ Hq). lia.
    + assert (room size n = 0%nat) as Hr by (unfold room; lia).
      assert (room size (n + 1) = 0%nat) as Hr' by (unfold room; lia).
      rewrite (IH f m q (p + 1) (n + 1)), Hr, Hr'; [rewrite !take_0; do 3 f_equal; lia | done.. | lia | lia | | lia | lia].
      rewrite Hr', take_0. intros k Hk. simpl in Hk. lia.
Qed.

(** [strlcpy] returns the full length of the source; a buffer
    of [size > 0] bytes then holds the longest prefix that fits, always
    NUL-terminated, and no byte outside the buffer changes; with [size = 0]
    nothing is written. *)
Theorem strlcpy_correct m dst src s size :
  cstr m src s → bytes s → 0 <= size → Z.of_nat (length s) + 1 < 2 ^ 64 →
  mapped m dst (Z.min size (Z.of_nat (length s) + 1)) →
  dst <= src ∨ src + Z.of_nat (length s) + 1 <= dst →
  let m' := if size =? 0 then m else mem_set m dst (take (Z.to_nat (size - 1)) s ++ [0]) in
  strlcpy dst src size m = Some (Z.of_nat (length s), m') ∧
  same_outside dst size m m' ∧
  (0 < size → cstr m' dst (take (Z.to_nat (size - 1)) s)).
Proof.
  intros Hs Hb Hsz Hl Hm Hd m'. split; [| split].
  - unfold strlcpy, with_fuel. pose proof (cstr_length _ _ _ Hs).
    erewrite bind_ok; [| apply (strlcpy_loop_spec size s); [done | done | lia | lia | | done | lia]].
    2: { intros k Hk. apply Hm. rewrite length_take in Hk. unfold room in Hk. lia. }
    cbn beta iota. unfold m', room. rewrite Z.sub_0_r, Z.add_0_l.
    destruct (Z.eqb_spec size 0) as [-> |]; cbn [negb].
    + erewrite bind_ok by done. by rewrite take_0.
    + destruct (Hm (dst + Z.of_nat (length (take (Z.to_nat (size - 1)) s)))) as [c Hc];
        [rewrite length_take; lia |].
      erewrite bind_ok; [done | apply store8_nul; eauto].
  - unfold m'. destruct (Z.eqb_spec size 0); [done |]. intros k Hk.
    apply mem_set_outside. rewrite length_app, length_take. simpl. lia.
  - intros Hpos. unfold m'. rewrite (proj2 (Z.eqb_neq size 0)) by lia.
    apply cstr_set. destruct Hs as [_ Hs]. by apply Forall_take.
Qed.

Lemma strlcat_scan_spec size t : ∀ fuel m q bytes,
  cstr m q t → (length t < fuel)%nat → bytes <= size →
  strlcat_scan fuel q bytes size m =
  Some ((q + Z.min (size - bytes) (Z.of_nat (length t)),
         Z.min size (bytes + Z.of_nat (length t))), m).
Proof.
  induction t as [| b t IH]; intros [| f] m q n Ht Hf Hn; cbn [strlcat_scan length] in *; try lia;
    destruct (Z.ltb_spec n size); try (unfold mret, st_ret; do 3 f_equal; lia).
  - apply cstr_nil in Ht. run load8_ok. unfold mret, st_ret. simpl. do 3 f_equal; lia.
  - apply cstr_cons in Ht as (Hb & Hnz & Ht). run load8_ok. nz.
    rewrite IH by (done || lia). do 3 f_equal; lia.
Qed.

(** [strlcat] returns the length it tried to create; it appends
    as much of [src] as fits in [size] bytes with a terminator, and leaves
    memory alone when [dst] already fills the buffer. *)
Theorem strlcat_correct m dst src t s size :
  cstr m dst t → cstr m src s → bytes t → bytes s → 0 <= size →
  Z.of_nat (length t + length s) + 1 < 2 ^ 64 →
  mapped m dst (Z.min size (Z.of_nat (length t + length s) + 1)) →
  dst + Z.of_nat (length t + length s) + 1 <= src ∨ src + Z.of_nat (length s) + 1 <= dst →
  let r := Z.min size (Z.of_nat (length t)) + Z.of_nat (length s) in
  if size <=? Z.of_nat (length t) then strlcat dst src size m = Some (r, m)
  else let kept := take (Z.to_nat (size - 1 - Z.of_nat (length t))) s in
       let m' := mem_set m (dst + Z.of_nat (length t)) (kept ++ [0]) in
       strlcat dst src size m = Some (r, m') ∧ cstr m' dst (t ++ kept) ∧ same_outside dst size m m'.
Proof.
  intros Ht Hs Hbt Hbs Hsz Hl Hm Hd r.
  pose proof (cstr_length _ _ _ Ht). pose proof (cstr_length _ _ _ Hs).
  assert (strlcat_scan (S (base.size m)) dst 0 size m = Some ((dst + Z.min size (Z.of_nat (length t)),
    Z.min size (Z.of_nat (length t))), m)) as Hscan.
  { rewrite (strlcat_scan_spec size t) by (done || lia). do 3 f_equal; lia. }
  unfold strlcat, with_fuel. rewrite (bind_ok _ _ _ _ _ Hscan). cbn beta iota.
  destruct (Z.leb_spec size (Z.of_nat (length t))).
  - rewrite Z.min_l by lia. rewrite Z.eqb_refl. unfold r. rewrite Z.min_l by lia.
    by erewrite bind_ok by (by apply strlen_correct).
  - rewrite Z.min_r by lia. unfold r. rewrite Z.min_r by lia.
    rewrite (proj2 (Z.eqb_neq _ _)) by lia. set (kept := take _ s).
    assert (kept = take (room size (Z.of_nat (length t))) s) as Hk by done.
    assert (length kept <= Z.to_nat (size - 1 - Z.of_nat (length t)))%nat as Hlk.
    { unfold kept. rewrite length_take. lia. }
    assert (length kept <= length s)%nat as Hlk'.
    { unfold kept. rewrite length_take. lia. }
    split; [| split].
    + erewrite bind_ok; [| apply (strlcpy_loop_spec size s); [done.. | lia | lia | | lia | lia]].
      2: { rewrite <- Hk. intros k Hk'. apply Hm. lia. }
      cbn beta iota. rewrite <- Hk.
      destruct (Hm (dst + Z.of_nat (length t) + Z.of_nat (length kept))) as [c Hc]; [lia |].
      erewrite bind_ok; [done | apply store8_nul; eauto].
    + apply cstr_app. destruct Hs as [_ Hs], Ht as [Ht Htn]. split; [| split; [done |]].
      * apply mem_at_app in Ht as [Ht _]. eapply mem_at_set_ne; [done.. | lia].
      * apply cstr_set. by apply Forall_take.
    + intros k Hk'. apply mem_set_outside. rewrite length_app. simpl. lia.
Qed.
End bounded_copying.

Section comparing.
Import Str.

(** Lexicographic order on strings of unsigned characters. *)
Fixpoint lex_compare (s t : list Z) : comparison :=
  match s, t with
  | [], [] => Eq
  | [], _ :: _ => Lt
  | _ :: _, [] => Gt
  | x :: s, y :: t => match x ?= y with Eq => lex_compare s t | c => c end
  end.

Lemma lex_compare_eq s t : lex_compare s t = Eq ↔ s = t.
Proof.
  revert t. induction s as [| x s IH]; intros [| y t]; simpl; try done.
  destruct (Z.compare_spec x y) as [-> | |]; [rewrite IH | |]; naive_solver lia.
Qed.

Lemma compare_sub_0 x y : (x - y ?= 0) = (x ?= y).
Proof. destruct (Z.compare_spec (x - y) 0), (Z.compare_spec x y); done || lia. Qed.

Definition char_pos (b : Z) : Prop := 0 < b < 256.

Lemma cstr_chars m a s : cstr m a s → bytes s → Forall char_pos s.
Proof.
  intros [_ Hnz] Hb. apply Forall_forall. intros b Hin.
  rewrite Forall_forall in Hnz, Hb. specialize (Hnz b Hin). specialize (Hb b Hin).
  unfold char_pos, in_u in *. lia.
Qed.

(** [differ d]: the loop stops at a differing pair of characters and
    returns [d], whose sign is the order of the pair. *)
Local Ltac differ d :=
  exists d; rewrite (proj2 (Z.eqb_neq _ _)) by lia; split; [done |];
  rewrite compare_sub_0; first [apply Z.compare_lt_iff; lia | apply Z.compare_gt_iff; lia].

Lemma strcmp_loop_spec s : ∀ t fuel m p q,
  cstr m p s → cstr m q t → Forall char_pos s → Forall char_pos t → (length s < fuel)%nat →
  ∃ d, strcmp_loop fuel p q m = Some (d, m) ∧ (d ?= 0) = lex_compare s t.
Proof.
  induction s as [| b s IH]; intros [| c t] [| f] m p q Hp Hq Hs Ht Hf;
    cbn [strcmp_loop length lex_compare] in *; try lia;
    rewrite ?cstr_nil, ?cstr_cons, ?Forall_cons in *; unfold char_pos in *; destruct_and?;
    (erewrite bind_ok by by apply load8_ok); (erewrite bind_ok by by apply load8_ok).
  - by exists 0.
  - differ (0 - c).
  - differ (b - 0).
  - destruct (Z.compare_spec b c) as [-> | |].
    + rewrite Z.sub_diag, Z.eqb_refl, (proj2 (Z.eqb_neq c 0)) by lia. simpl.
      apply IH; done || lia.
    + differ (b - c).
    + differ (b - c).
Qed.

(** The sign of [strcmp] is the lexicographic order of the two
    strings as unsigned characters. *)
Theorem strcmp_correct m p q s t :
  cstr m p s → cstr m q t → bytes s → bytes t →
  ∃ d, strcmp p q m = Some (d, m) ∧ (d ?= 0) = lex_compare s t.
Proof.
  intros Hs Ht Hbs Hbt. apply strcmp_loop_spec; eauto using cstr_chars.
  apply cstr_length in Hs. lia.
Qed.

Lemma strncmp_loop_spec s : ∀ t fuel m p q n,
  cstr m p s → cstr m q t → Forall char_pos s → Forall char_pos t → 0 <= n → (length s < fuel)%nat →
  ∃ d, strncmp_loop fuel p q n 0 m = Some (d, m) ∧
       (d ?= 0) = lex_compare (take (Z.to_nat n) s) (take (Z.to_nat n) t).
Proof.
  induction s as [| b s IH]; intros t [| f] m p q n Hp Hq Hs Ht Hn Hf; cbn [strncmp_loop length] in *; try lia;
    (destruct (Z.eqb_spec n 0) as [-> | Hn0]; [exists 0; by rewrite !take_0 |]);
    replace (Z.to_nat n) with (S (Z.to_nat (n - 1))) by lia; destruct t as [| c t];
    cbn [take lex_compare];
    rewrite ?cstr_nil, ?cstr_cons, ?Forall_cons in *; unfold char_pos in *; destruct_and?;
    (erewrite bind_ok by by apply load8_ok); (erewrite bind_ok by by apply load8_ok).
  - by exists 0.
  - differ (0 - c).
  - differ (b - 0).
  - destruct (Z.compare_spec b c) as [-> | |].
    + rewrite Z.sub_diag, Z.eqb_refl, (proj2 (Z.eqb_neq c 0)) by lia. simpl.
      apply IH; done || lia.
    + differ (b - c).
    + differ (b - c).
Qed.

Lemma strncmp_correct m p q s t n :
  cstr m p s → cstr m q t → bytes s → bytes t → 0 <= n →
  ∃ d, strncmp p q n m = Some (d, m) ∧
       (d ?= 0) = lex_compare (take (Z.to_nat n) s) (take (Z.to_nat n) t).
Proof.
  intros Hs Ht Hbs Hbt Hn. apply strncmp_loop_spec; eauto using cstr_chars.
  apply cstr_length in Hs. lia.
Qed.

(** [toupper] on a character of a string. *)
Definition upper (b : Z) : Z := default b (toupper b).

Lemma toupper_upper b : char_pos b → toupper b = Some (upper b) ∧ char_pos (upper b).
Proof.
  intros Hb. set (P c := (c =? 0) || match toupper c with Some d => (0 <? d) && (d <? 256) | None => false end).
  assert (P b = true) as HP.
  { unfold char_pos in Hb. assert (0 <= b <= 255) as Hb' by lia. clear Hb. revert b Hb'. apply uchar_all. vm_compute. reflexivity. }
  unfold P in HP. rewrite (proj2 (Z.eqb_neq b 0)) in HP by (unfold char_pos in Hb; lia). simpl in HP.
  unfold upper. destruct (toupper b) as [d |]; [| done]. split; [done |]. unfold char_pos. simpl. lia.
Qed.

Lemma strcasecmp_loop_spec s : ∀ t fuel m p q,
  cstr m p s → cstr m q t → Forall char_pos s → Forall char_pos t → (length s < fuel)%nat →
  ∃ d, strcasecmp_loop fuel p q m = Some (d, m) ∧
       (d ?= 0) = lex_compare (upper <$> s) (upper <$> t).
Proof.
  assert (toupper 0 = Some 0) by reflexivity.
  induction s as [| b s IH]; intros [| c t] [| f] m p q Hp Hq Hs Ht Hf;
    cbn [strcasecmp_loop length lex_compare fmap list_fmap] in *; try lia;
    rewrite ?cstr_nil, ?cstr_cons, ?Forall_cons in *; destruct_and?;
    repeat match goal with H : char_pos ?b |- _ =>
      destruct (toupper_upper b H) as [? [? ?]]; destruct H as [? ?] end;
    do 2 (erewrite bind_ok by by apply load8_ok);
    do 2 (erewrite bind_ok by (apply lift_ok; eassumption)).
  - by exists 0.
  - differ (0 - upper c).
  - differ (upper b - 0).
  - destruct (Z.compare_spec (upper b) (upper c)) as [He | |].
    + rewrite He, Z.sub_diag, Z.eqb_refl, (proj2 (Z.eqb_neq b 0)) by lia. simpl.
      apply IH; done || lia.
    + differ (upper b - upper c).
    + differ (upper b - upper c).
Qed.

(** The sign of [strcasecmp] is the lexicographic order of
    the two strings with every character mapped to upper case. *)
Theorem strcasecmp_correct m p q s t :
  cstr m p s → cstr m q t → bytes s → bytes t →
  ∃ d, strcasecmp p q m = Some (d, m) ∧ (d ?= 0) = lex_compare (upper <$> s) (upper <$> t).
Proof.
  intros Hs Ht Hbs Hbt. apply strcasecmp_loop_spec; eauto using cstr_chars.
  apply cstr_length in Hs. lia.
Qed.
End comparing.

Section spans.
Import Str.

Definition in_set (ds : list Z) (b : Z) : bool := bool_decide (b ∈ ds).

(** Length of the longest prefix of characters satisfying [P]. *)
Fixpoint span_len (P : Z → bool) (s : list Z) : nat :=
  match s with
  | [] => 0
  | b :: s => if P b then S (span_len P s) else 0
  end.

Lemma span_len_le P s : (span_len P s <= length s)%nat.
Proof. induction s as [| b s IH]; simpl; [done |]. destruct (P b); lia. Qed.

(** [matchmap] marks exactly the members of [ds]. *)
Definition marks (mm : list Z) (ds : list Z) : Prop :=
  ∀ b, in_u 8 b → mm !! Z.to_nat b = Some (if in_set ds b then 1 else 0).

Lemma marks_insert mm ds d :
  in_u 8 d → marks mm ds → marks (<[Z.to_nat d := 1]> mm) (ds ++ [d]).
Proof.
  intros Hd Hm b Hb. unfold in_set. destruct (decide (b = d)) as [-> | Hne].
  - rewrite list_lookup_insert_eq by (apply lookup_lt_is_Some; rewrite Hm by done; eauto).
    by rewrite bool_decide_true by set_solver.
  - rewrite list_lookup_insert_ne by (unfold in_u in *; lia). rewrite Hm by done.
    unfold in_set. by rewrite (bool_decide_ext (b ∈ ds ++ [d]) (b ∈ ds)) by set_solver.
Qed.

Lemma strxspn_fill_spec ds : ∀ acc fuel m a mm,
  cstr m a ds → bytes ds → marks mm acc → (length ds < fuel)%nat →
  ∃ mm', strxspn_fill fuel a mm m = Some (mm', m) ∧ marks mm' (acc ++ ds).
Proof.
  induction ds as [| d ds IH]; intros acc [| f] m a mm Hd Hb Hm Hf; cbn [strxspn_fill length] in *; try lia.
  - apply cstr_nil in Hd. exists mm. rewrite app_nil_r. split; [| done]. by run load8_ok.
  - apply cstr_cons in Hd as (Hd & Hnz & Hds). apply Forall_cons in Hb as [Hd8 Hb].
    replace (acc ++ d :: ds) with ((acc ++ [d]) ++ ds) by by rewrite <- app_assoc.
    run load8_ok. nz. apply IH; [done.. | by apply marks_insert | lia].
Qed.

Lemma marks_empty : marks (replicate 256 0) [].
Proof.
  intros b Hb. unfold in_set. rewrite bool_decide_false by set_solver.
  apply lookup_replicate_2. unfold in_u in *. lia.
Qed.

Lemma strxspn_count_spec ds parity mm s : ∀ fuel m a n,
  cstr m a s → bytes s → marks mm ds → parity = 0 ∨ parity = 1 → (length s < fuel)%nat →
  strxspn_count fuel a (<[0%nat := parity]> mm) parity n m =
  Some (n + Z.of_nat (span_len (λ b, xorb (in_set ds b) (parity =? 1)) s), m).
Proof.
  induction s as [| b s IH]; intros [| f] m a n Hs Hb Hm Hp Hf;
    cbn [strxspn_count length span_len] in *; try lia.
  - apply cstr_nil in Hs. run load8_ok. erewrite bind_ok.
    2: { apply lift_ok, list_lookup_insert_eq, lookup_lt_is_Some.
         refine (mk_is_Some _ _ (Hm 0 _)). by_eval. }
    rewrite Z.lxor_nilpotent. simpl. by rewrite Z.add_0_r.
  - apply cstr_cons in Hs as (Hb' & Hnz & Hs). apply Forall_cons in Hb as [Hb8 Hb].
    run load8_ok. erewrite bind_ok.
    2: { apply lift_ok. rewrite list_lookup_insert_ne by (unfold in_u in *; lia). by apply Hm. }
    destruct (in_set ds b), Hp as [-> | ->]; simpl;
      try (by rewrite Z.add_0_r); (rewrite IH by (auto || lia); do 2 f_equal; simpl; lia).
Qed.

(** [__strxspn] measures the longest prefix made of members of
    the set ([parity] 0) or of non-members ([parity] 1); [strspn] and
    [strcspn] are its two instances. *)
Theorem strxspn_correct m a s d ds parity :
  cstr m a s → cstr m d ds → bytes s → bytes ds → parity = 0 ∨ parity = 1 →
  __strxspn a d parity m =
  Some (Z.of_nat (span_len (λ b, xorb (in_set ds b) (parity =? 1)) s), m).
Proof.
  intros Hs Hd Hbs Hbd Hp. unfold __strxspn, with_fuel.
  destruct (strxspn_fill_spec ds [] (S (size m)) m d (replicate 256 0)) as (mm & Hmm & Hok);
    [done.. | apply marks_empty | apply cstr_length in Hd; lia |].
  rewrite (bind_ok _ _ _ _ _ Hmm).
  rewrite (strxspn_count_spec ds parity mm s); [done.. | apply cstr_length in Hs; lia].
Qed.

(** The field that ends at the first delimiter. *)
Definition field_len (ds s : list Z) : nat := span_len (λ b, negb (in_set ds b)) s.

Lemma span_len_ext P Q s : (∀ b, P b = Q b) → span_len P s = span_len Q s.
Proof. intros H. induction s as [| b s IH]; simpl; [done |]. by rewrite H, IH. Qed.

Lemma strpbrk_correct m a s d ds :
  cstr m a s → cstr m d ds → bytes s → bytes ds →
  strpbrk a d m =
  Some (if decide (field_len ds s < length s)%nat then a + Z.of_nat (field_len ds s) else NULL, m).
Proof.
  intros Hs Hd Hbs Hbd. unfold strpbrk. run (strxspn_correct m a s d ds 1).
  rewrite (span_len_ext _ (λ b, negb (in_set ds b))) by (intros; apply xorb_true_r).
  fold (field_len ds s). cbv zeta. pose proof (span_len_le (λ b, negb (in_set ds b)) s).
  fold (field_len ds s) in *. case_decide.
  - destruct (lookup_lt_is_Some_2 s (field_len ds s)) as [b Hb]; [done |].
    pose proof (cstr_mem_at _ _ _ Hs _ _ Hb). run load8_ok. destruct Hs as [_ Hnz].
    rewrite Forall_lookup in Hnz. specialize (Hnz _ _ Hb). by nz.
  - replace (field_len ds s) with (length s) by lia. pose proof (cstr_end _ _ _ Hs).
    by run load8_ok.
Qed.
End spans.

Section tokens.
Import Str.

(** Splitting at the first delimiter leaves two strings. *)
Lemma cstr_cut m p s n :
  cstr m p s → (n < length s)%nat →
  cstr (<[p + Z.of_nat n := 0]> m) p (take n s) ∧
  cstr (<[p + Z.of_nat n := 0]> m) (p + Z.of_nat n + 1) (drop (S n) s).
Proof.
  intros Hs Hn. rewrite <- (take_drop n s), cstr_app in Hs. destruct Hs as (Ht & Htn & Hd).
  rewrite length_take, Nat.min_l in Hd by lia.
  destruct (lookup_lt_is_Some_2 s n Hn) as [b Hb]. rewrite (drop_S s b n Hb) in Hd.
  apply cstr_cons in Hd as (_ & _ & Hd). split.
  - split; [| done]. apply mem_at_app. split.
    + apply mem_at_insert_ne; [done |]. rewrite length_take. lia.
    + rewrite length_take, Nat.min_l by lia. apply mem_at_cons. split; [by rewrite lookup_insert_eq | apply mem_at_nil].
  - apply (cstr_set_ne _ _ [0]); [done | simpl; lia].
Qed.

(** [strsep] returns the start of the string, replaces the first delimiter
    by NUL and moves [*stringp] past it; without a delimiter it sets
    [*stringp] to [NULL] and changes nothing. *)
Lemma strsep_found m p s d ds :
  cstr m p s → cstr m d ds → bytes s → bytes ds → 0 < p → (field_len ds s < length s)%nat →
  strsep p d m = Some ((p, p + Z.of_nat (field_len ds s) + 1), <[p + Z.of_nat (field_len ds s) := 0]> m).
Proof.
  intros Hs Hd Hbs Hbd Hp Hn. unfold strsep. nz. erewrite bind_ok by by apply strpbrk_correct.
  rewrite decide_True by done. unfold NULL. nz. cbn [negb].
  destruct (lookup_lt_is_Some_2 s _ Hn) as [b Hb].
  pose proof (cstr_mem_at _ _ _ Hs _ _ Hb). by run store8_ok.
Qed.

Lemma strsep_last m p s d ds :
  cstr m p s → cstr m d ds → bytes s → bytes ds → 0 < p → field_len ds s = length s →
  strsep p d m = Some ((p, NULL), m).
Proof.
  intros Hs Hd Hbs Hbd Hp Hn. unfold strsep. nz. erewrite bind_ok by by apply strpbrk_correct.
  rewrite decide_False by lia. done.
Qed.

Definition skip_len (ds s : list Z) : nat := span_len (in_set ds) s.

(** What [strtok_r] delivers for a text [s] at [p]: the first non-empty
    field after [skip_len] delimiters, its end marked in memory, and the
    holder at the rest of the text. *)
Definition token_result (m m' : mem) (p : Z) (ds s : list Z) (tok hold : Z) : Prop :=
  let k := skip_len ds s in
  let rest := drop k s in
  let n := field_len ds rest in
  same_outside p (Z.of_nat (length s)) m m' ∧
  (rest = [] → tok = NULL ∧ hold = NULL) ∧
  (rest ≠ [] →
    tok = p + Z.of_nat k ∧ take n rest ≠ [] ∧ cstr m' tok (take n rest) ∧
    if decide (n < length rest)%nat
    then hold = tok + Z.of_nat n + 1 ∧ cstr m' hold (drop (S n) rest) else hold = NULL).

(** A token that starts right at [p]. *)
Lemma strtok_hit m p b s d ds f :
  cstr m p (b :: s) → cstr m d ds → bytes (b :: s) → bytes ds → 0 < p → in_set ds b = false →
  ∃ tok hold m', strtok_loop (S f) p d m = Some ((tok, hold), m') ∧
                 token_result m m' p ds (b :: s) tok hold.
Proof.
  intros Hs Hd Hbs Hbd Hp Hin. pose proof (proj1 (cstr_cons _ _ _ _) Hs) as (Hb & Hnz & _).
  pose proof (span_len_le (λ b, negb (in_set ds b)) (b :: s)) as Hle. fold (field_len ds (b :: s)) in Hle.
  assert (field_len ds (b :: s) ≠ 0%nat) as Hpos by (unfold field_len; simpl; rewrite Hin; done).
  assert (take (field_len ds (b :: s)) (b :: s) ≠ []) as Hne.
  { destruct (field_len ds (b :: s)); [done |]. done. }
  cbn [strtok_loop]. unfold token_result, skip_len. cbn [span_len]. rewrite Hin. cbn [drop].
  destruct (decide (field_len ds (b :: s) < length (b :: s))%nat) as [Hlt | Hge].
  - erewrite bind_ok by by apply strsep_found. cbn beta iota. unfold NULL. nz.
    destruct (cstr_cut m p (b :: s) _ Hs Hlt) as [Ht Hr].
    eexists _, _, _. split.
    + erewrite bind_ok; [| apply load8_ok; rewrite lookup_insert_ne by lia; done]. by nz.
    + split; [intros k Hk; rewrite lookup_insert_ne; [done | lia] |]. split; [done |]. intros _.
      split; [lia |]. done.
  - erewrite bind_ok by (apply (strsep_last _ _ (b :: s) _ ds); done || lia). cbn beta iota. unfold NULL. nz.
    eexists _, _, _. split.
    + run load8_ok. by nz.
    + split; [done |]. split; [done |]. intros _.
      rewrite take_ge in * by lia. split; [lia |]. done.
Qed.

Lemma strtok_loop_spec d ds s : ∀ fuel m p,
  cstr m p s → cstr m d ds → bytes s → bytes ds → 0 < p →
  d + Z.of_nat (length ds) < p ∨ p + Z.of_nat (length s) <= d → (S (length s) < fuel)%nat →
  ∃ tok hold m', strtok_loop fuel p d m = Some ((tok, hold), m') ∧ token_result m m' p ds s tok hold.
Proof.
  induction s as [| b s IH]; intros [| f] m p Hs Hd Hbs Hbd Hp Hdis Hf; cbn [length] in *; try lia.
  - pose proof (proj1 (cstr_nil _ _) Hs). destruct f as [| f]; [lia |].
    exists 0, 0, m. split; [| split; [done |]; split; [done |]; by intros []].
    cbn [strtok_loop]. erewrite bind_ok by by apply (strsep_last _ _ [] _ ds).
    unfold NULL. nz. by run load8_ok.
  - pose proof (proj1 (cstr_cons _ _ _ _) Hs) as (Hb & Hnz & Hs').
    destruct (in_set ds b) eqn:Hin; [| by apply strtok_hit].
    apply Forall_cons in Hbs as Hbs'. destruct Hbs' as [Hb8 Hbs'].
    assert (field_len ds (b :: s) = 0%nat) as Hf0 by (unfold field_len; simpl; by rewrite Hin).
    destruct (IH f (<[p := 0]> m) (p + 1)) as (tok & hold & m' & Hr & Hout & Hnone & Hsome);
      [apply (cstr_set_ne _ p [0]); [done | simpl; lia].. | done | done | lia | lia | lia |].
    exists tok, hold, m'. split.
    + cbn [strtok_loop]. erewrite bind_ok by (apply (strsep_found _ _ (b :: s) _ ds); try done; rewrite Hf0; simpl; lia).
      rewrite Hf0. cbn beta iota. change (Z.of_nat 0) with 0. rewrite Z.add_0_r. unfold NULL. nz.
      by erewrite bind_ok by (apply load8_ok, lookup_insert_eq).
    + unfold token_result, skip_len. cbn [span_len drop length]. rewrite Hin.
      split; [| split]; [| done |].
      * intros j Hj. rewrite Hout by lia. rewrite lookup_insert_ne by lia. done.
      * intros Hne. destruct (Hsome Hne) as (-> & ?). split; [unfold skip_len; lia | done].
Qed.

(** [strtok_r] returns the first maximal run of non-delimiters,
    NUL-terminated in place, and leaves the holder at the text behind it
    ([NULL] at the end of the text); when only delimiters are left it
    returns [NULL].  No byte outside of the text changes. *)
Theorem strtok_r_correct m p s d ds holder :
  cstr m p s → cstr m d ds → bytes s → bytes ds → 0 < p →
  d + Z.of_nat (length ds) < p ∨ p + Z.of_nat (length s) <= d →
  ∃ tok hold m', strtok_r p d holder m = Some ((tok, hold), m') ∧ token_result m m' p ds s tok hold.
Proof.
  intros Hs Hd Hbs Hbd Hp Hdis. unfold strtok_r, with_fuel, NULL. nz.
  apply strtok_loop_spec; try done. apply cstr_length in Hs. lia.
Qed.

(** [strstr] returns the first occurrence of a non-empty needle
    and [NULL] for an empty one. *)
Theorem strstr_correct m h s d t :
  cstr m h s → cstr m d t →
  strstr h d m = Some (if decide (t = []) then NULL else ptr_at h (find_sub t s), m).
Proof.
  intros Hs Ht. unfold strstr. do 2 (erewrite bind_ok by by apply strlen_correct). case_decide as He.
  - subst t. unfold Mem.memmem, with_fuel. simpl. by rewrite orb_true_r.
  - apply memmem_run; auto using cstr_mem_at.
Qed.

Lemma strrchr_loop_spec s : ∀ fuel m a c found,
  cstr m a s → bytes s → (length s < fuel)%nat →
  strrchr_loop fuel a c found m =
  Some (match list_find (.= u8 c) (reverse s) with
        | Some (i, _) => a + Z.of_nat (length s - 1 - i) | None => found end, m).
Proof.
  induction s as [| b s IH]; intros [| f] m a c found Hs Hby Hf; cbn [strrchr_loop length] in *; try lia.
  - apply cstr_nil in Hs. by run loadc_ok.
  - apply cstr_cons in Hs as (Hb & Hnz & Hs). apply Forall_cons in Hby as [Hb8 Hby].
    run loadc_ok. rewrite (proj2 (Z.eqb_neq _ 0)) by (by rewrite s8_zero).
    rewrite IH by (done || lia). do 2 f_equal. rewrite reverse_cons.
    destruct (list_find (.= u8 c) (reverse s)) as [[i x] |] eqn:Hfind.
    + rewrite (list_find_app_l _ _ _ _ _ Hfind). apply list_find_Some in Hfind as (Hi & _).
      apply lookup_lt_Some in Hi. rewrite length_reverse in Hi. lia.
    + rewrite (list_find_app_r _ _ _ Hfind). simpl. destruct (Z.eqb_spec (s8 b) (s8 c)) as [He | He];
        rewrite s8_eq in He by done; [rewrite decide_True by done | by rewrite decide_False by done].
      simpl. rewrite length_reverse. lia.
Qed.
End tokens.

(** ** Witnesses on concrete strings *)

(** "ab,,c" at 16, "," at 32, a 16-byte buffer at 48 holding "xy". *)
Definition str_mem : mem :=
  mem_set (mem_set (mem_set ∅ 16 [97; 98; 44; 44; 99; 0]) 32 [44; 0]) 48
    ([120; 121] ++ replicate 14 0).

Lemma strcat_correct_witness : ∃ m', Str.strcat 48 16 str_mem = Some (48, m') ∧
  m' = mem_set str_mem 50 [97; 98; 44; 44; 99; 0] ∧
  cstr m' 48 [120; 121; 97; 98; 44; 44; 99] ∧ cstr m' 16 [97; 98; 44; 44; 99].
Proof.
  apply (strcat_correct str_mem 48 16 [120; 121] [97; 98; 44; 44; 99]); [by_eval.. |].
  right. simpl. lia.
Defined.

Lemma strncpy_correct_witness :
  Str.strncpy 48 16 3 str_mem = Some (48, mem_set str_mem 48 [97; 98; 44]).
Proof.
  apply (strncpy_correct str_mem 48 16 [97; 98; 44; 44; 99] 3); [by_eval.. |].
  right. simpl. lia.
Defined.

Lemma strlcpy_correct_witness :
  Str.strlcpy 48 16 4 str_mem = Some (5, mem_set str_mem 48 [97; 98; 44; 0]).
Proof.
  apply (strlcpy_correct str_mem 48 16 [97; 98; 44; 44; 99] 4); [by_eval.. |].
  right. simpl. lia.
Defined.

Lemma strlcat_correct_witness :
  Str.strlcat 48 16 5 str_mem = Some (7, mem_set str_mem 50 [97; 98; 0]).
Proof.
  apply (strlcat_correct str_mem 48 16 [120; 121] [97; 98; 44; 44; 99] 5); [by_eval.. |].
  right. simpl. lia.
Defined.

Lemma strcmp_correct_witness : ∃ d,
  Str.strcmp 16 48 str_mem = Some (d, str_mem) ∧ (d ?= 0) = Lt.
Proof. apply (strcmp_correct str_mem 16 48 [97; 98; 44; 44; 99] [120; 121]); by_eval. Defined.

Lemma strcasecmp_correct_witness : ∃ d,
  Str.strcasecmp 16 48 str_mem = Some (d, str_mem) ∧ (d ?= 0) = Lt.
Proof. apply (strcasecmp_correct str_mem 16 48 [97; 98; 44; 44; 99] [120; 121]); by_eval. Defined.

Lemma strchr_correct_witness : Str.strchr 16 44 str_mem = Some (18, str_mem).
Proof. apply (strchr_correct str_mem 16 [97; 98; 44; 44; 99] 44); by_eval. Defined.

Lemma strxspn_correct_witness : Str.__strxspn 16 32 1 str_mem = Some (2, str_mem).
Proof.
  apply (strxspn_correct str_mem 16 [97; 98; 44; 44; 99] 32 [44] 1); [by_eval.. |]. by right.
Defined.

Lemma strtok_r_correct_witness : ∃ tok hold m',
  Str.strtok_r 16 32 0 str_mem = Some ((tok, hold), m') ∧
  token_result str_mem m' 16 [44] [97; 98; 44; 44; 99] tok hold.
Proof.
  apply (strtok_r_correct str_mem 16 [97; 98; 44; 44; 99] 32 [44] 0); [by_eval.. |].
  right. simpl. lia.
Defined.

Lemma strstr_correct_witness : Str.strstr 16 32 str_mem = Some (18, str_mem).
Proof. apply (strstr_correct str_mem 16 [97; 98; 44; 44; 99] 32 [44]); by_eval. Defined.
