(* ===== verification/Numparse.v ===== *)
(** * Number parsing: [klibc/strntoumax.c] and the functions built on it

    [strntoumax] (and [strntoimax], [strto*], [ato*], [strtotime*], which
    only convert its result) over the memory of [Memory].  [parse_num] is the
    same conversion on the list of the characters that the length bound
    leaves visible; [strntoumax_refines] relates the two, and the theorems
    after it describe what is parsed. *)

From stdpp Require Import base numbers list gmap.
From Stdlib Require Import Lia.
From S2P Require Import Prelude Memory Ctype MemOps StrOps.

(** ** The code *)

Definition digitval (ch : Z) : Z :=
  if (48 <=? ch) && (ch <=? 57) then ch - 48
  else if (65 <=? ch) && (ch <=? 90) then ch - 65 + 10
  else if (97 <=? ch) && (ch <=? 122) then ch - 97 + 10
  else -1.

(** [while (n && isspace((unsigned char) *nptr)) nptr++, n--;] *)
Fixpoint skip_spaces (fuel : nat) (nptr n : Z) : C (Z * Z) :=
  match fuel with
  | O => fault
  | S f =>
      if n =? 0 then mret (nptr, n)
      else ch ← load8 nptr; sp ← lift (isspace ch);
           if sp =? 0 then mret (nptr, n) else skip_spaces f (nptr + 1) (n - 1)
  end.

(** The optional sign; returns [minus] with the new position and count. *)
Definition parse_sign (nptr n : Z) : C (bool * Z * Z) :=
  if n =? 0 then mret (false, nptr, n)
  else c ← loadc nptr;
       if (c =? 45) || (c =? 43) then mret (c =? 45, nptr + 1, n - 1)
       else mret (false, nptr, n).

(** [n >= 2 && nptr[0] == '0' && (nptr[1] == 'x' || nptr[1] == 'X')] *)
Definition is_0x (nptr n : Z) : C bool :=
  if n <? 2 then mret false
  else c0 ← loadc nptr;
       if negb (c0 =? 48) then mret false
       else c1 ← loadc (nptr + 1); mret ((c1 =? 120) || (c1 =? 88)).

(** The base prefix; returns the base with the new position and count. *)
Definition parse_base (base nptr n : Z) : C (Z * Z * Z) :=
  if base =? 0 then
    hex ← is_0x nptr n;
    if hex : bool then mret (16, nptr + 2, n - 2)
    else
      oct ← (if n <? 1 then mret false else c0 ← loadc nptr; mret (c0 =? 48));
      if oct : bool then mret (8, nptr + 1, n - 1) else mret (10, nptr, n)
  else if base =? 16 then
    hex ← is_0x nptr n;
    if hex : bool then mret (base, nptr + 2, n - 2) else mret (base, nptr, n)
  else mret (base, nptr, n).

(** [while (n && (d = digitval( *nptr)) >= 0 && d < base)]; [v] is a
    [uintmax_t]. *)
Fixpoint parse_digits (fuel : nat) (base v nptr n : Z) : C (Z * Z) :=
  match fuel with
  | O => fault
  | S f =>
      if n =? 0 then mret (v, nptr)
      else ch ← loadc nptr;
           let d := digitval ch in
           if (0 <=? d) && (d <? base)
           then parse_digits f base (u64 (u64 (v * u64 base) + d)) (nptr + 1) (n - 1)
           else mret (v, nptr)
  end.

(** Returns the value and [*endptr]. *)
Definition strntoumax (nptr base n : Z) : C (Z * Z) :=
  with_fuel (λ fuel,
    '(nptr, n) ← skip_spaces fuel nptr n;
    '(minus, nptr, n) ← parse_sign nptr n;
    '(base, nptr, n) ← parse_base base nptr n;
    '(v, nptr) ← parse_digits fuel base 0 nptr n;
    mret (if minus : bool then u64 (- v) else v, nptr)).

(** [strntoimax.c], [strtox.c] and [atox.c]: conversions of the result to the
    target type, with [n = ~(size_t)0] where the length is unbounded. *)
Definition SIZE_MAX : Z := 2 ^ 64 - 1.

Definition strntoimax (nptr base n : Z) : C (Z * Z) :=
  '(v, e) ← strntoumax nptr base n; mret (s64 v, e).

Definition strtol (nptr base : Z) : C (Z * Z) :=
  '(v, e) ← strntoumax nptr base SIZE_MAX; mret (s64 v, e).
Definition strtoul (nptr base : Z) : C (Z * Z) :=
  '(v, e) ← strntoumax nptr base SIZE_MAX; mret (u64 v, e).

Definition atoi (nptr : Z) : C Z :=
  '(v, _) ← strntoumax nptr 10 SIZE_MAX; mret (s32 v).
Definition atol (nptr : Z) : C Z :=
  '(v, _) ← strntoumax nptr 10 SIZE_MAX; mret (s64 v).

(** [strtotimex.c] with [DECIMALS] 9 ([timespec]) or 6 ([timeval]): returns
    [tv_sec], the fraction field and the end pointer. *)
Fixpoint skip_digits (fuel : nat) (s : Z) : C Z :=
  match fuel with
  | O => fault
  | S f => ch ← loadc s; if isdigit ch =? 0 then mret s else skip_digits f (s + 1)
  end.

Definition strtotimex (decimals str : Z) : C (Z * Z * Z) :=
  '(sec, s) ← strntoumax str 10 SIZE_MAX;
  c ← loadc s;
  if c =? 46 then
    let s0 := s + 1 in
    '(fs, s) ← strntoumax s0 10 decimals;
    let n := s - s0 in
    s ← with_fuel (λ fuel, skip_digits fuel s);
    (* for (; n < DECIMALS; n++) fs *= 10; *)
    mret (s64 sec, s64 (s64 fs * 10 ^ Z.max 0 (decimals - n)), s)
  else mret (s64 sec, 0, s).

(** ** The same conversion on the visible characters *)

Definition is_space (b : Z) : bool := holds (isspace b).
Definition digit_in (base b : Z) : bool := (0 <=? digitval (s8 b)) && (digitval (s8 b) <? base).

Definition split_sign (t : list Z) : bool * nat :=
  match t with
  | b :: _ => if b =? 45 then (true, 1%nat) else if b =? 43 then (false, 1%nat) else (false, 0%nat)
  | [] => (false, 0%nat)
  end.

Definition split_base (base : Z) (t : list Z) : Z * nat :=
  let hex := match t with
             | b0 :: b1 :: _ => (b0 =? 48) && ((b1 =? 120) || (b1 =? 88))
             | _ => false end in
  if base =? 0 then
    if hex then (16, 2%nat)
    else match t with b0 :: _ => if b0 =? 48 then (8, 1%nat) else (10, 0%nat) | [] => (10, 0%nat) end
  else if base =? 16 then (base, if hex then 2%nat else 0%nat)
  else (base, 0%nat).

(** The value of a digit string, with the accumulator of the code. *)
Fixpoint digits_value (base v : Z) (ds : list Z) : Z :=
  match ds with
  | [] => v
  | d :: ds => digits_value base (v * base + digitval (s8 d)) ds
  end.

Definition parse_num (base : Z) (t : list Z) : Z * nat :=
  let k0 := span_len is_space t in
  let '(minus, k1) := split_sign (drop k0 t) in
  let '(b, k2) := split_base base (drop (k0 + k1) t) in
  let t' := drop (k0 + k1 + k2) t in
  let k3 := span_len (digit_in b) t' in
  let v := digits_value b 0 (take k3 t') in
  (u64 (if minus then - v else v), (k0 + k1 + k2 + k3)%nat).

(** ** The code computes [parse_num] on the visible characters *)

Lemma take_cons_pos (n : Z) (b : Z) s :
  0 < n → take (Z.to_nat n) (b :: s) = b :: take (Z.to_nat (n - 1)) s.
Proof. intros. by replace (Z.to_nat n) with (S (Z.to_nat (n - 1))) by lia. Qed.

Lemma take_neg (n : Z) (s : list Z) : n <= 0 → take (Z.to_nat n) s = [].
Proof. intros. replace (Z.to_nat n) with 0%nat by lia. apply take_0. Qed.

Lemma is_space_run b (m : mem) :
  in_u 8 b → ∃ v, lift (isspace b) m = Some (v, m) ∧ (v =? 0) = negb (is_space b).
Proof.
  intros Hb. destruct (isspace_some b) as [v Hv]; [unfold in_u in *; lia |].
  exists v. unfold is_space, lift. rewrite Hv. simpl. by rewrite negb_involutive.
Qed.

Lemma skip_spaces_spec s : ∀ fuel m a n,
  cstr m a s → bytes s → 0 <= n → (length s < fuel)%nat →
  let k := span_len is_space (take (Z.to_nat n) s) in
  skip_spaces fuel a n m = Some ((a + Z.of_nat k, n - Z.of_nat k), m).
Proof.
  induction s as [| b s IH]; intros [| f] m a n Hs Hb Hn Hf; cbn [skip_spaces length] in *; try lia;
    (destruct (Z.eqb_spec n 0) as [-> | Hn0]; [simpl; by rewrite Z.add_0_r |]).
  - apply cstr_nil in Hs. run load8_ok. rewrite take_nil. simpl. by rewrite Z.add_0_r, Z.sub_0_r.
  - apply cstr_cons in Hs as (Hb' & Hnz & Hs). apply Forall_cons in Hb as [Hb8 Hb].
    run load8_ok. destruct (is_space_run b m Hb8) as (v & Hv & Hz). rewrite (bind_ok _ _ _ _ _ Hv), Hz.
    rewrite take_cons_pos by lia. cbn [span_len]. destruct (is_space b); simpl.
    + rewrite IH by (done || lia). do 3 f_equal; lia.
    + by rewrite Z.add_0_r, Z.sub_0_r.
Qed.

(** Comparing a signed character with an ASCII constant. *)
Lemma s8_ascii b c : in_u 8 b → 0 <= c < 128 → (s8 b =? c) = (b =? c).
Proof.
  intros Hb Hc. assert (s8 c = c) as Hsc by (apply wraps_small; unfold in_s; simpl; lia).
  rewrite <- Hsc at 1. destruct (Z.eqb_spec (s8 b) (s8 c)) as [He | He], (Z.eqb_spec b c) as [E | E]; try done.
  - rewrite s8_eq in He by done. rewrite wrapu_small in He by (unfold in_u; lia). lia.
  - by subst.
Qed.

Lemma parse_sign_spec m a s n :
  cstr m a s → bytes s → 0 <= n →
  let '(minus, k) := split_sign (take (Z.to_nat n) s) in
  parse_sign a n m = Some ((minus, a + Z.of_nat k, n - Z.of_nat k), m).
Proof.
  intros Hs Hb Hn. unfold parse_sign.
  destruct (Z.eqb_spec n 0) as [-> |]; [simpl; by rewrite Z.add_0_r |].
  destruct s as [| b s].
  - apply cstr_nil in Hs. rewrite take_nil. run loadc_ok. simpl. by rewrite Z.add_0_r, Z.sub_0_r.
  - apply cstr_cons in Hs as (Hb' & _ & _). apply Forall_cons in Hb as [Hb8 _].
    rewrite take_cons_pos by lia. run loadc_ok. simpl. rewrite !s8_ascii by (done || lia).
    destruct (Z.eqb_spec b 45); [done |]. destruct (Z.eqb_spec b 43); simpl; [done |].
    by rewrite Z.add_0_r, Z.sub_0_r.
Qed.

Definition starts_0x (t : list Z) : bool :=
  match t with b0 :: b1 :: _ => (b0 =? 48) && ((b1 =? 120) || (b1 =? 88)) | _ => false end.

Lemma is_0x_spec m a s n :
  cstr m a s → bytes s → 0 <= n → is_0x a n m = Some (starts_0x (take (Z.to_nat n) s), m).
Proof.
  intros Hs Hb Hn. unfold is_0x. destruct (Z.ltb_spec n 2) as [Hlt |].
  { destruct s as [| b0 s]; [by rewrite take_nil |].
    destruct (decide (n = 0)) as [-> |]; [done |].
    rewrite take_cons_pos, (take_neg (n - 1)) by lia. done. }
  destruct s as [| b0 s].
  { apply cstr_nil in Hs. rewrite take_nil. by run loadc_ok. }
  apply cstr_cons in Hs as (Hb0 & _ & Hs). apply Forall_cons in Hb as [H08 Hb].
  rewrite take_cons_pos by lia. run loadc_ok. rewrite s8_ascii by (done || lia).
  destruct s as [| b1 s].
  { apply cstr_nil in Hs. rewrite take_nil. simpl. destruct (b0 =? 48); [| done]. simpl. by run loadc_ok. }
  apply cstr_cons in Hs as (Hb1 & _ & _). apply Forall_cons in Hb as [H18 _].
  rewrite take_cons_pos by lia. simpl. destruct (b0 =? 48); [| done]. simpl.
  run loadc_ok. by rewrite !s8_ascii by (done || lia).
Qed.

Lemma parse_base_spec m a s n base :
  cstr m a s → bytes s → 0 <= n →
  let '(b, k) := split_base base (take (Z.to_nat n) s) in
  parse_base base a n m = Some ((b, a + Z.of_nat k, n - Z.of_nat k), m).
Proof.
  intros Hs Hb Hn. unfold parse_base, split_base. fold (starts_0x (take (Z.to_nat n) s)).
  destruct (base =? 0); [| destruct (base =? 16)].
  - run is_0x_spec. destruct (starts_0x _); [done |].
    destruct (Z.ltb_spec n 1).
    { rewrite take_neg by lia. simpl. by rewrite Z.add_0_r, Z.sub_0_r. }
    destruct s as [| b s].
    + apply cstr_nil in Hs. rewrite take_nil. erewrite bind_ok; [| by run loadc_ok].
      simpl. by rewrite Z.add_0_r, Z.sub_0_r.
    + apply cstr_cons in Hs as (Hb0 & _ & _). apply Forall_cons in Hb as [H08 _].
      rewrite take_cons_pos by lia. erewrite bind_ok; [| by run loadc_ok].
      simpl. rewrite s8_ascii by (done || lia). destruct (b =? 48); [done |].
      simpl. by rewrite Z.add_0_r, Z.sub_0_r.
  - run is_0x_spec. destruct (starts_0x _); [done |]. simpl. by rewrite Z.add_0_r, Z.sub_0_r.
  - simpl. by rewrite Z.add_0_r, Z.sub_0_r.
Qed.

(** Arithmetic modulo 2^64 of the accumulator. *)
Lemma u64_eqm x y : x mod 2 ^ 64 = y mod 2 ^ 64 → u64 x = u64 y.
Proof. done. Qed.

Lemma u64_accumulate v base d : u64 (u64 (v * u64 base) + d) = u64 (v * base + d).
Proof.
  unfold wrapu. rewrite Zplus_mod_idemp_l.
  rewrite <- (Zplus_mod_idemp_l (v * _)), Zmult_mod_idemp_r, Zplus_mod_idemp_l. done.
Qed.

Lemma digits_value_mod base ds : ∀ v w,
  u64 v = u64 w → u64 (digits_value base v ds) = u64 (digits_value base w ds).
Proof.
  induction ds as [| d ds IH]; intros v w H; simpl; [done |]. apply IH.
  unfold wrapu in *. rewrite <- (Zplus_mod_idemp_l (v * base)), <- (Zplus_mod_idemp_l (w * base)).
  by rewrite <- (Zmult_mod_idemp_l v), <- (Zmult_mod_idemp_l w), H.
Qed.

Lemma u64_idem x : u64 (u64 x) = u64 x.
Proof. apply wrapu_wrapu. Qed.

Lemma u64_opp x : u64 (- u64 x) = u64 (- x).
Proof. unfold wrapu. rewrite <- (Z.sub_0_l (x mod _)), Zminus_mod_idemp_r. f_equal; lia. Qed.

Lemma digit_in_nul base : digit_in base 0 = false.
Proof. done. Qed.

Lemma parse_digits_spec base s : ∀ fuel m a n v,
  cstr m a s → bytes s → 0 <= n → (length s < fuel)%nat → in_u 64 v →
  let t := take (Z.to_nat n) s in
  let k := span_len (digit_in base) t in
  parse_digits fuel base v a n m =
  Some ((u64 (digits_value base v (take k t)), a + Z.of_nat k), m).
Proof.
  induction s as [| b s IH]; intros [| f] m a n v Hs Hb Hn Hf Hv; cbn [parse_digits length] in *; try lia;
    (destruct (Z.eqb_spec n 0) as [-> | Hn0]; [simpl; by rewrite Z.add_0_r, wrapu_small |]).
  - apply cstr_nil in Hs. run loadc_ok. rewrite take_nil. simpl. by rewrite Z.add_0_r, wrapu_small.
  - apply cstr_cons in Hs as (Hb' & Hnz & Hs). apply Forall_cons in Hb as [Hb8 Hb].
    run loadc_ok. rewrite take_cons_pos by lia. cbn [span_len]. unfold digit_in at 1 3.
    destruct ((0 <=? digitval (s8 b)) && (digitval (s8 b) <? base)).
    + rewrite IH; [| done | done | lia | lia | by apply wrapu_range]. cbn [take digits_value].
      do 3 f_equal; [| lia]. apply digits_value_mod. by rewrite u64_idem, u64_accumulate.
    + simpl. by rewrite Z.add_0_r, wrapu_small.
Qed.

Lemma cstr_drop m a s k : cstr m a s → (k <= length s)%nat → cstr m (a + Z.of_nat k) (drop k s).
Proof.
  intros Hs Hk. rewrite <- (take_drop k s), cstr_app in Hs. destruct Hs as (_ & _ & Hs).
  by rewrite length_take, Nat.min_l in Hs by lia.
Qed.

Lemma split_sign_le t : ((split_sign t).2 <= length t)%nat.
Proof. destruct t as [| b t]; simpl; [done |]. repeat case_if; simpl; lia. Qed.

Lemma split_base_le base t : ((split_base base t).2 <= length t)%nat.
Proof. destruct t as [| b [| b1 t]]; unfold split_base; simpl; repeat case_if; simpl; lia. Qed.

(** The characters visible after [k] of them have been consumed. *)
Lemma visible_drop m a s n k :
  cstr m a s → bytes s → 0 <= n → (k <= length (take (Z.to_nat n) s))%nat →
  cstr m (a + Z.of_nat k) (drop k s) ∧ bytes (drop k s) ∧
  take (Z.to_nat (n - Z.of_nat k)) (drop k s) = drop k (take (Z.to_nat n) s) ∧ 0 <= n - Z.of_nat k.
Proof.
  intros Hs Hb Hn Hk. rewrite length_take in Hk. split; [apply cstr_drop; [done | lia] |].
  split; [by apply Forall_drop |]. split; [| lia]. rewrite take_drop_commute. do 2 f_equal. lia.
Qed.

(** The run of the four phases, shared by the theorems below. *)
Lemma strntoumax_run m a s base n :
  cstr m a s → bytes s → 0 <= n →
  let r := parse_num base (take (Z.to_nat n) s) in
  strntoumax a base n m = Some ((r.1, a + Z.of_nat r.2), m) ∧ (r.2 <= Z.to_nat n)%nat.
Proof.
  intros Hs Hb Hn r. set (t := take (Z.to_nat n) s) in *.
  pose proof (λ k, visible_drop m a s n k Hs Hb Hn) as Hsub. fold t in Hsub.
  pose proof (cstr_length _ _ _ Hs) as Hfuel.
  assert (length t <= Z.to_nat n)%nat as Htn by (unfold t; rewrite length_take; lia).
  unfold r, parse_num. pose proof (span_len_le is_space t) as H0. set (k0 := span_len is_space t) in *.
  pose proof (split_sign_le (drop k0 t)) as H1. rewrite length_drop in H1.
  destruct (split_sign (drop k0 t)) as [minus k1] eqn:E1. simpl in H1.
  pose proof (split_base_le base (drop (k0 + k1) t)) as H2. rewrite length_drop in H2.
  destruct (split_base base (drop (k0 + k1) t)) as [b k2] eqn:E2. simpl in H2.
  set (t' := drop (k0 + k1 + k2) t). pose proof (span_len_le (digit_in b) t') as H3.
  set (k3 := span_len (digit_in b) t') in *. unfold t' in H3. rewrite length_drop in H3.
  split; [| simpl; lia]. unfold strntoumax, with_fuel.
  erewrite bind_ok by (apply (skip_spaces_spec s); done || lia). fold t k0. cbn beta iota.
  destruct (Hsub k0 H0) as (C0 & B0 & T0 & N0).
  pose proof (parse_sign_spec _ _ _ _ C0 B0 N0) as P1. rewrite T0, E1 in P1.
  rewrite (bind_ok _ _ _ _ _ P1). cbn beta iota.
  destruct (Hsub (k0 + k1)%nat) as (C1 & B1 & T1 & N1); [lia |].
  rewrite Nat2Z.inj_add, Z.sub_add_distr in T1, N1. rewrite Nat2Z.inj_add, Z.add_assoc in C1.
  pose proof (parse_base_spec _ _ _ _ base C1 B1 N1) as P2. rewrite T1, E2 in P2.
  rewrite (bind_ok _ _ _ _ _ P2). cbn beta iota.
  destruct (Hsub (k0 + k1 + k2)%nat) as (C2 & B2 & T2 & N2); [lia |].
  rewrite !Nat2Z.inj_add, !Z.sub_add_distr in T2, N2. rewrite !Nat2Z.inj_add, !Z.add_assoc in C2.
  erewrite bind_ok; [| apply parse_digits_spec; [done.. | rewrite length_drop; lia | done]].
  cbn beta iota. rewrite T2. fold t' k3. unfold mret, st_ret. simpl.
  do 3 f_equal; [| lia]. destruct minus; [apply u64_opp | done].
Qed.

(** On a NUL-terminated string [strntoumax] never
    faults, reads at most [n] characters, and returns exactly what
    [parse_num] gives for the first [n] characters of the string. *)
Theorem strntoumax_refines m a s base n :
  cstr m a s → bytes s → 0 <= n →
  let r := parse_num base (take (Z.to_nat n) s) in
  strntoumax a base n m = Some ((r.1, a + Z.of_nat r.2), m) ∧ (r.2 <= Z.to_nat n)%nat.
Proof. apply strntoumax_run. Qed.

(** ** What [parse_num] recognises *)

Lemma span_len_app P s t :
  Forall (λ b, P b = true) s → (∀ b t', t = b :: t' → P b = false) → span_len P (s ++ t) = length s.
Proof.
  intros Hs Ht. induction Hs as [| b s Hb Hs IH]; simpl; [| by rewrite Hb, IH].
  destruct t as [| b t']; [done |]. simpl. by rewrite (Ht b t').
Qed.

(** The value of a digit string in positional notation. *)
Fixpoint positional (base : Z) (ds : list Z) : Z :=
  match ds with
  | [] => 0
  | d :: ds => digitval (s8 d) * base ^ Z.of_nat (length ds) + positional base ds
  end.

Lemma digits_value_positional base ds : ∀ v,
  0 <= base → digits_value base v ds = v * base ^ Z.of_nat (length ds) + positional base ds.
Proof.
  induction ds as [| d ds IH]; intros v Hb; cbn [digits_value positional length]; [simpl; lia |].
  rewrite IH by done. rewrite Nat2Z.inj_succ, Z.pow_succ_r by lia. ring.
Qed.

Definition sign_text (minus : option bool) : list Z :=
  match minus with None => [] | Some false => [43] | Some true => [45] end.

Definition apply_sign (minus : option bool) (v : Z) : Z :=
  match minus with Some true => - v | _ => v end.

(** Base prefixes: the text of the prefix and the base it selects, for the
    requested base and the first characters behind it. *)
Inductive base_prefix : Z → list Z → list Z → Z → Prop :=
  | BPplain base t : base ≠ 0 → base ≠ 16 → base_prefix base [] t base
  | BPhex base x t : base = 0 ∨ base = 16 → x = 120 ∨ x = 88 → base_prefix base [48; x] t 16
  | BPhex_bare t : starts_0x t = false → base_prefix 16 [] t 16
  | BPoct t : (∀ x t', t = x :: t' → x ≠ 120 ∧ x ≠ 88) → base_prefix 0 [48] t 8
  | BPdec t : (∀ x t', t = x :: t' → x ≠ 48) → base_prefix 0 [] t 10.

Lemma split_base_prefix base pre t b :
  base_prefix base pre t b → split_base base (pre ++ t) = (b, length pre).
Proof.
  destruct 1 as [base t H0 H16 | base x t Hb Hx | t Ht | t Ht | t Ht]; unfold split_base; simpl.
  - by rewrite !(proj2 (Z.eqb_neq _ _)).
  - destruct Hb as [-> | ->], Hx as [-> | ->]; done.
  - fold (starts_0x t). by rewrite Ht.
  - destruct t as [| x t]; [done |]. destruct (Ht x t eq_refl).
    by rewrite !(proj2 (Z.eqb_neq x _)).
  - destruct t as [| x t]; [done |]. specialize (Ht x t eq_refl).
    destruct t; by rewrite !(proj2 (Z.eqb_neq x _)).
Qed.

(** A digit is neither white space nor a sign. *)
Lemma digit_not_special base c : in_u 8 c → digit_in base c = true →
  is_space c = false ∧ c ≠ 45 ∧ c ≠ 43.
Proof.
  intros Hc Hd. assert (0 <= digitval (s8 c)) as Hd' by (unfold digit_in in Hd; lia). clear Hd.
  set (P c := (digitval (s8 c) <? 0) || (negb (is_space c) && negb (c =? 45) && negb (c =? 43))).
  assert (P c = true) as HP.
  { assert (0 <= c <= 255) as Hr by (unfold in_u in Hc; lia). clear Hc Hd'. revert c Hr.
    apply uchar_all. vm_compute. reflexivity. }
  unfold P in HP. destruct (Z.ltb_spec (digitval (s8 c)) 0); [lia |].
  destruct (is_space c); [done |]. simpl in HP. split; [done | split; lia].
Qed.

(** The first character of a number proper: a digit, or the 0 of a prefix. *)
Lemma number_head base pre ds rest b :
  base_prefix base pre (ds ++ rest) b → Forall (λ c, digit_in b c = true) ds → bytes ds →
  pre ++ ds ≠ [] →
  ∃ c t, pre ++ ds ++ rest = c :: t ∧ is_space c = false ∧ c ≠ 45 ∧ c ≠ 43.
Proof.
  intros Hp Hd Hb Hne. destruct pre as [| p pre].
  - destruct ds as [| d ds]; [done |]. exists d, (ds ++ rest). split; [done |].
    apply Forall_cons in Hd as [Hd _]. apply Forall_cons in Hb as [Hb _].
    by apply (digit_not_special b).
  - assert (p = 48) as -> by (by inversion Hp). by exists 48, (pre ++ ds ++ rest).
Qed.

Lemma parse_num_grammar ws sg pre ds rest base b :
  Forall (λ c, is_space c = true) ws → base_prefix base pre (ds ++ rest) b →
  Forall (λ c, digit_in b c = true) ds → bytes ds → pre ++ ds ≠ [] → 0 <= b →
  (∀ c t, rest = c :: t → digit_in b c = false) →
  parse_num base (ws ++ sign_text sg ++ pre ++ ds ++ rest) =
  (u64 (apply_sign sg (positional b ds)), length (ws ++ sign_text sg ++ pre ++ ds)).
Proof.
  intros Hws Hpre Hds Hb Hne Hb0 Hrest.
  destruct (number_head _ _ _ _ _ Hpre Hds Hb Hne) as (c & t & Ht & Hsp & H45 & H43).
  unfold parse_num. rewrite (span_len_app _ ws).
  2: done. 2: { destruct sg as [[] |]; simpl; rewrite ?Ht; intros; by simplify_eq. }
  rewrite drop_app_length.
  assert (split_sign (sign_text sg ++ pre ++ ds ++ rest) =
    (match sg with Some true => true | _ => false end, length (sign_text sg))) as ->.
  { destruct sg as [[] |]; simpl; [done.. |]. rewrite Ht. simpl.
    by rewrite (proj2 (Z.eqb_neq c 45)), (proj2 (Z.eqb_neq c 43)). }
  rewrite app_assoc, <- length_app, drop_app_length, (split_base_prefix base pre _ b) by done.
  rewrite app_assoc, <- length_app, drop_app_length, (span_len_app _ ds), take_app_length by done.
  rewrite digits_value_positional, Z.mul_0_l, Z.add_0_l, <- length_app, <- !app_assoc by done.
  by destruct sg as [[] |].
Qed.

(** Optional white space, an optional sign, an optional
    base prefix and a run of digits of the selected base are converted to the
    positional value of the digits, negated under a minus sign, modulo 2^64;
    [*endptr] is left at the first character that is not part of the number. *)
Theorem strntoumax_value m a ws sg pre ds rest base b n :
  cstr m a (ws ++ sign_text sg ++ pre ++ ds ++ rest) →
  bytes (ws ++ sign_text sg ++ pre ++ ds ++ rest) →
  Forall (λ c, is_space c = true) ws → base_prefix base pre (ds ++ rest) b →
  Forall (λ c, digit_in b c = true) ds → pre ++ ds ≠ [] → 0 <= b →
  (∀ c t, rest = c :: t → digit_in b c = false) →
  Z.of_nat (length (ws ++ sign_text sg ++ pre ++ ds ++ rest)) <= n →
  strntoumax a base n m =
  Some ((u64 (apply_sign sg (positional b ds)),
         a + Z.of_nat (length (ws ++ sign_text sg ++ pre ++ ds))), m).
Proof.
  intros Hs Hb Hws Hpre Hds Hne Hb0 Hrest Hn.
  destruct (strntoumax_run m a _ base n Hs Hb ltac:(lia)) as [-> _].
  rewrite take_ge by lia. rewrite (parse_num_grammar ws sg pre ds rest base b); try done.
  rewrite !Forall_app in Hb. tauto.
Qed.

(** "\t-0x1fz" *)
Definition num_text : list Z := [9; 45; 48; 120; 49; 102; 122].
Definition num_mem : mem := mem_set ∅ 16 (num_text ++ [0]).

Lemma strntoumax_refines_witness :
  strntoumax 16 0 5 num_mem = Some ((u64 (-1), 16 + 5), num_mem).
Proof. apply (strntoumax_refines num_mem 16 num_text 0 5); by_eval. Defined.

Lemma strntoumax_value_witness :
  strntoumax 16 0 100 num_mem = Some ((u64 (- 31), 16 + 6), num_mem).
Proof.
  apply (strntoumax_value num_mem 16 [9] (Some true) [48; 120] [49; 102] [122] 0 16 100).
  - by_eval.
  - by_eval.
  - by_eval.
  - apply BPhex; by left.
  - by_eval.
  - done.
  - lia.
  - intros c t [= <- <-]. reflexivity.
  - simpl. lia.
Defined.
