(* ===== verification/Libgcc.v ===== *)
(** * Compiler support arithmetic: [klibc/libgcc], [arch/alpha/divide.c],
    [arch/cris/divide.c]

    The division, modulus and shift routines the compiler calls on machines
    that lack the instructions.  [None] is the divide-error trap
    ([__divide_error], [raise(SIGFPE)] or the Alpha [gentrap]) and, for the
    shifts, the undefined shift of a 32-bit value by 32. *)

From stdpp Require Import base numbers list.
From Stdlib Require Import Lia.
From S2P Require Import Prelude.

(** ** The code *)

(** [while ((sint) den >= 0) { den <<= 1; qbit <<= 1; }] for word size [w]. *)
Fixpoint left_justify (fuel : nat) (w den qbit : Z) : option (Z * Z) :=
  if wraps w den <? 0 then Some (den, qbit)
  else match fuel with
       | O => None
       | S f => left_justify f w (wrapu w (Z.shiftl den 1)) (wrapu w (Z.shiftl qbit 1))
       end.

(** [while (qbit) { if (den <= num) {...} den >>= 1; qbit >>= 1; }]; returns
    [num] and [quot]. *)
Fixpoint subtract_loop (fuel : nat) (w num den quot qbit : Z) : option (Z * Z) :=
  if qbit =? 0 then Some (num, quot)
  else match fuel with
       | O => None
       | S f =>
           let '(num, quot) :=
             if den <=? num then (wrapu w (num - den), wrapu w (quot + qbit)) else (num, quot) in
           subtract_loop f w num (Z.shiftr den 1) quot (Z.shiftr qbit 1)
       end.

(** The two loops together; the quotient and the remainder. *)
Definition restoring_divide (w num den : Z) : option (Z * Z) :=
  '(den, qbit) ← left_justify (Z.to_nat w) w den 1;
  '(num, quot) ← subtract_loop (S (Z.to_nat w)) w num den 0 qbit;
  Some (quot, num).

Definition __udivmod (w num den : Z) : option (Z * Z) :=
  if den =? 0 then None else restoring_divide w num den.

Definition __udivmodsi4 (num den : Z) : option (Z * Z) := __udivmod 32 num den.
Definition __udivmoddi4 (num den : Z) : option (Z * Z) := __udivmod 64 num den.

Definition __udivsi3 (num den : Z) : option Z := fst <$> __udivmodsi4 num den.
Definition __udivdi3 (num den : Z) : option Z := fst <$> __udivmoddi4 num den.
Definition __umodsi3 (num den : Z) : option Z := snd <$> __udivmodsi4 num den.
Definition __umoddi3 (num den : Z) : option Z := snd <$> __udivmoddi4 num den.

(** The sign handling shared by the signed routines: [num] and [den] made
    non-negative, and [minus]. *)
Definition split_signs (w num den : Z) : Z * Z * bool :=
  let '(num, minus) := if num <? 0 then (wraps w (- num), true) else (num, false) in
  let '(den, minus) := if den <? 0 then (wraps w (- den), negb minus) else (den, minus) in
  (num, den, minus).

Definition signed_result (w : Z) (minus : bool) (v : Z) : Z :=
  let v := wraps w v in if minus then wraps w (- v) else v.

Definition __divsi3 (num den : Z) : option Z :=
  let '(num, den, minus) := split_signs 32 num den in
  (λ r, signed_result 32 minus r.1) <$> __udivmodsi4 (u32 num) (u32 den).
Definition __divdi3 (num den : Z) : option Z :=
  let '(num, den, minus) := split_signs 64 num den in
  (λ r, signed_result 64 minus r.1) <$> __udivmoddi4 (u64 num) (u64 den).
Definition __modsi3 (num den : Z) : option Z :=
  let '(num, den, minus) := split_signs 32 num den in
  (λ r, signed_result 32 minus r.2) <$> __udivmodsi4 (u32 num) (u32 den).
Definition __moddi3 (num den : Z) : option Z :=
  let '(num, den, minus) := split_signs 64 num den in
  (λ r, signed_result 64 minus r.2) <$> __udivmoddi4 (u64 num) (u64 den).

(** [arch/alpha/divide.c] and [arch/cris/divide.c], with the build's [SIGNED],
    [REM] and [BITS].  The operands are [uint]s; the result type [xint] is the
    signed type in every instance, because [SIGNED] is always defined. *)
Definition uint_signs (SIGNED : bool) (BITS num den : Z) : Z * Z * bool :=
  if SIGNED then
    let minus := wraps BITS (Z.lxor num den) <? 0 in
    let num := if wraps BITS num <? 0 then wrapu BITS (- num) else num in
    let den := if wraps BITS den <? 0 then wrapu BITS (- den) else den in
    (num, den, minus)
  else (num, den, false).

Definition alpha_divide (SIGNED REM : bool) (BITS num den : Z) : option Z :=
  if den =? 0 then None
  else
    let '(num, den, minus) := uint_signs SIGNED BITS num den in
    (λ r, signed_result BITS minus (if REM then r.2 else r.1)) <$> restoring_divide BITS num den.

Definition cris_divide (SIGNED REM : bool) (BITS num den : Z) : option Z :=
  if den =? 0 then None
  else if den =? 1 then Some (wraps BITS (if REM then 0 else num))
  else
    let '(num, den, minus) := uint_signs SIGNED BITS num den in
    let den := wrapu BITS (den - 1) in
    (λ r, signed_result BITS minus (if REM then r.2 else r.1)) <$> restoring_divide BITS num den.

(** A 32-bit shift: undefined for a count of 32 or more. *)
Definition shl32 (v c : Z) : option Z := if (0 <=? c) && (c <? 32) then Some (u32 (Z.shiftl v c)) else None.
Definition shr32 (v c : Z) : option Z := if (0 <=? c) && (c <? 32) then Some (Z.shiftr v c) else None.

Definition __ashldi3 (v cnt : Z) : option Z :=
  let c := Z.land cnt 31 in
  let vl := u32 v in
  let vh := u32 (Z.shiftr v 32) in
  '(vh, vl) ← (if negb (Z.land cnt 32 =? 0) then
      h ← shl32 vl c; Some (h, 0)
    else
      h ← shl32 vh c; x ← shr32 vl (32 - c); l ← shl32 vl c; Some (u32 (h + x), l));
  Some (u64 (u64 (Z.shiftl vh 32) + vl)).

Definition __lshrdi3 (v cnt : Z) : option Z :=
  let c := Z.land cnt 31 in
  let vl := u32 v in
  let vh := u32 (Z.shiftr v 32) in
  '(vh, vl) ← (if negb (Z.land cnt 32 =? 0) then
      l ← shr32 vh c; Some (0, l)
    else
      l ← shr32 vl c; x ← shl32 vh (32 - c); h ← shr32 vh c; Some (h, u32 (l + x)));
  Some (u64 (u64 (Z.shiftl vh 32) + vl)).

(** [(int32_t) vh >> c] is an arithmetic shift. *)
Definition __ashrdi3 (v cnt : Z) : option Z :=
  let c := Z.land cnt 31 in
  let vl := u32 v in
  let vh := u32 (Z.shiftr v 32) in
  '(vh, vl) ← (if negb (Z.land cnt 32 =? 0) then
      l ← shr32 (s32 vh) c; h ← shr32 (s32 vh) 31; Some (u32 h, u32 l)
    else
      l ← shr32 vl c; x ← shl32 vh (32 - c); h ← shr32 (s32 vh) c; Some (u32 h, u32 (l + x)));
  Some (u64 (u64 (Z.shiftl vh 32) + vl)).

Definition clz_step (mask k : Z) (pv : Z * Z) : Z * Z :=
  let '(p, v) := pv in
  if negb (Z.land v mask =? 0) then (p - k, Z.shiftr v k) else (p, v).

Definition __clzsi2 (v : Z) : Z :=
  fst (clz_step 0x2 1 (clz_step 0xc 2 (clz_step 0xf0 4 (clz_step 0xff00 8
    (clz_step 0xffff0000 16 (31, v)))))).

(** ** Correctness of restoring division *)

Section division.
Context (w : Z) (Hw : 0 < w).

Lemma left_justify_spec den : ∀ fuel j,
  0 < den → 0 <= j → den * 2 ^ j < 2 ^ w → w - 1 - j <= Z.of_nat fuel →
  ∃ k, left_justify fuel w (den * 2 ^ j) (2 ^ j) = Some (den * 2 ^ k, 2 ^ k) ∧
       j <= k < w ∧ 2 ^ (w - 1) <= den * 2 ^ k < 2 ^ w.
Proof using Hw.
  induction fuel as [| f IH]; intros j Hd Hj Hlt Hf; cbn [left_justify];
    pose proof (wraps_nonneg w Hw (den * 2 ^ j)) as Hs; unfold in_u in Hs;
    pose proof (Z.pow_pos_nonneg 2 j ltac:(lia) Hj) as Hpj; pose proof (pow2_half w Hw) as Hhalf;
    assert (j < w) as Hjw by (apply (Z.pow_lt_mono_r_iff 2); nia || lia).
  - assert (j = w - 1) as -> by lia.
    destruct (Z.ltb_spec (wraps w (den * 2 ^ (w - 1))) 0); [exists (w - 1); split; [done | lia] |].
    assert (den * 2 ^ (w - 1) < 2 ^ (w - 1)) by (apply Hs; nia). nia.
  - destruct (Z.ltb_spec (wraps w (den * 2 ^ j)) 0) as [Hneg | Hpos].
    + exists j. split; [done |]. split; [lia |]. split; [| done].
      destruct (Z.lt_ge_cases (den * 2 ^ j) (2 ^ (w - 1))) as [Hc |]; [| done].
      apply Hs in Hc; [lia | nia].
    + assert (den * 2 ^ j < 2 ^ (w - 1)) as Hsm by (apply Hs; [nia | done]).
      assert (2 ^ (j + 1) = 2 * 2 ^ j) as Hp1 by (rewrite Z.pow_add_r by lia; lia).
      rewrite !shiftl_mul by lia. change (2 ^ 1) with 2.
      replace (den * 2 ^ j * 2) with (den * 2 ^ (j + 1)) by lia.
      replace (2 ^ j * 2) with (2 ^ (j + 1)) by lia.
      rewrite !wrapu_small by (unfold in_u; nia).
      destruct (IH (j + 1)) as (k & Hk & Hkj & Hkd); [lia.. | nia | lia |].
      exists k. split; [done | split; [lia | done]].
Qed.

Lemma subtract_loop_spec den : ∀ k fuel num quot,
  0 < den → den * 2 ^ Z.of_nat k < 2 ^ w → 0 <= num < den * 2 ^ (Z.of_nat k + 1) →
  0 <= quot → num + quot * den < 2 ^ w → quot + 2 ^ (Z.of_nat k + 1) <= 2 ^ w →
  (S k < fuel)%nat →
  ∃ num' quot', subtract_loop fuel w num (den * 2 ^ Z.of_nat k) quot (2 ^ Z.of_nat k) = Some (num', quot') ∧
    num' + quot' * den = num + quot * den ∧ 0 <= num' < den.
Proof using Hw.
  induction k as [| k IH]; intros [| f'] num quot Hd Hdk Hn Hq Hsum Hqb Hf; try lia;
    cbn [subtract_loop].
  - destruct f' as [| f]; [lia |]. change (2 ^ Z.of_nat 0) with 1. change (2 ^ (Z.of_nat 0 + 1)) with 2 in *. rewrite Z.mul_1_r.
    destruct (Z.leb_spec den num); simpl.
    + rewrite !wrapu_small by (unfold in_u; nia). eexists _, _. split; [done | lia].
    + eexists _, _. split; [done | lia].
  - rewrite Nat2Z.inj_succ in *.
    pose proof (Z.pow_pos_nonneg 2 (Z.of_nat k) ltac:(lia) ltac:(lia)).
    assert (2 ^ Z.succ (Z.of_nat k) = 2 * 2 ^ Z.of_nat k) as E by (rewrite Z.pow_succ_r by lia; lia).
    assert (2 ^ (Z.succ (Z.of_nat k) + 1) = 4 * 2 ^ Z.of_nat k) as E2 by (rewrite Z.pow_add_r by lia; lia).
    assert (2 ^ (Z.of_nat k + 1) = 2 * 2 ^ Z.of_nat k) as E3 by (rewrite Z.pow_add_r by lia; lia).
    rewrite E2 in *. rewrite E3 in IH. rewrite E in *.
    rewrite (proj2 (Z.eqb_neq _ 0)) by lia.
    rewrite !shiftr_div by lia. change (2 ^ 1) with 2.
    replace (den * (2 * 2 ^ Z.of_nat k)) with (den * 2 ^ Z.of_nat k * 2) in * by lia.
    rewrite (Z.mul_comm 2 (2 ^ Z.of_nat k)), !Z.div_mul by lia.
    destruct (Z.leb_spec (den * 2 ^ Z.of_nat k * 2) num).
    + rewrite !wrapu_small by (unfold in_u; nia).
      destruct (IH f' (num - den * 2 ^ Z.of_nat k * 2) (quot + 2 ^ Z.of_nat k * 2)) as (n' & q' & -> & Hi & Hr);
        [nia.. | lia |].
      eexists _, _. split; [done |]. split; [nia | done].
    + destruct (IH f' num quot) as (n' & q' & -> & Hi & Hr); [nia.. | lia |]. eauto.
Qed.

Lemma restoring_divide_spec num den :
  in_u w num → 0 < den < 2 ^ w → restoring_divide w num den = Some (num / den, num mod den).
Proof using Hw.
  unfold in_u, restoring_divide. intros Hn Hd.
  destruct (left_justify_spec den (Z.to_nat w) 0) as (k & Hk & Hkw & Hkd); [simpl; lia.. |].
  change (2 ^ 0) with 1 in Hk. rewrite Z.mul_1_r in Hk. rewrite Hk. cbn [mbind option_bind].
  pose proof (pow2_half w Hw). rewrite <- (Z2Nat.id k) by lia.
  assert (2 ^ (k + 1) = 2 * 2 ^ k) as Ek by (rewrite Z.pow_add_r by lia; lia).
  destruct (subtract_loop_spec den (Z.to_nat k) (S (Z.to_nat w)) num 0) as (n' & q' & -> & Hi & Hr);
    rewrite ?Z2Nat.id, ?Ek by lia; [nia.. | | lia |].
  { assert (2 ^ (k + 1) <= 2 ^ w) by (apply Z.pow_le_mono_r; lia). lia. }
  simpl. f_equal. f_equal; [apply (Z.div_unique num den q' n') | apply (Z.mod_unique num den q' n')]; lia.
Qed.
End division.

(** For every word size the shift-and-subtract division returns
    quotient and remainder, and traps exactly on a zero divisor. *)
Theorem udivmod_correct w num den :
  0 < w → in_u w num → in_u w den →
  __udivmod w num den = if decide (den = 0) then None else Some (num / den, num mod den).
Proof.
  intros Hw Hn Hd. unfold __udivmod. case_decide; [by subst |].
  rewrite (proj2 (Z.eqb_neq den 0)) by done. apply restoring_divide_spec; unfold in_u in *; lia || done.
Qed.

Lemma udivmod_correct_witness : __udivmoddi4 1000 7 = Some (142, 6).
Proof. apply (udivmod_correct 64 1000 7); [lia | split; lia..]. Defined.

Section signed_division.
Context (w : Z) (Hw : 1 < w).

Lemma split_signs_spec num den :
  in_s w num → in_s w den →
  ∃ n d, split_signs w num den = (n, d, xorb (num <? 0) (den <? 0)) ∧
         wrapu w n = Z.abs num ∧ wrapu w d = Z.abs den.
Proof using Hw.
  intros Hn Hd. pose proof (pow2_half w ltac:(lia)). unfold in_s in *.
  assert (∀ z, in_s w z → wrapu w (if z <? 0 then wraps w (- z) else z) = Z.abs z) as Habs.
  { unfold in_s. intros z Hz. destruct (Z.ltb_spec z 0);
      [rewrite wrapu_wraps | ]; rewrite wrapu_small by (unfold in_u; lia); lia. }
  exists (if num <? 0 then wraps w (- num) else num), (if den <? 0 then wraps w (- den) else den).
  split; [| split; by apply Habs]. unfold split_signs.
  by destruct (num <? 0), (den <? 0).
Qed.

Lemma wraps_opp z : wraps w (- wraps w z) = wraps w (- z).
Proof using Hw.
  rewrite <- (wraps_wrapu w (- wraps w z)), <- (wraps_wrapu w (- z)). f_equal.
  unfold wrapu. rewrite <- (Z.sub_0_l (wraps w z)), <- Zminus_mod_idemp_r.
  pose proof (wrapu_wraps w z) as H. unfold wrapu in H. rewrite H, Zminus_mod_idemp_r. f_equal; lia.
Qed.

Lemma signed_result_spec minus v : signed_result w minus v = wraps w (if minus then - v else v).
Proof using Hw. unfold signed_result. destruct minus; [apply wraps_opp | done]. Qed.

(** Quotient and remainder of the absolute values with the sign of the code. *)
Lemma signed_quotient num den :
  den ≠ 0 → (if xorb (num <? 0) (den <? 0) then - (Z.abs num / Z.abs den) else Z.abs num / Z.abs den)
            = Z.quot num den.
Proof using Type.
  intros Hd. rewrite Z.quot_div by done. destruct (Z.ltb_spec num 0), (Z.ltb_spec den 0); simpl;
    rewrite ?(Z.sgn_neg num), ?(Z.sgn_neg den), ?(Z.sgn_pos den) by lia; try lia;
    (destruct (decide (num = 0)) as [-> |]; [rewrite Z.div_0_l by lia; lia | rewrite Z.sgn_pos by lia; lia]).
Qed.

Lemma signed_remainder num den :
  den ≠ 0 → (if xorb (num <? 0) (den <? 0) then - (Z.abs num mod Z.abs den) else Z.abs num mod Z.abs den)
            = if den <? 0 then - Z.rem num den else Z.rem num den.
Proof using Type.
  intros Hd. rewrite Z.rem_mod by done. destruct (Z.ltb_spec num 0), (Z.ltb_spec den 0); simpl;
    rewrite ?(Z.sgn_neg num) by lia; try lia;
    (destruct (decide (num = 0)) as [-> |]; [rewrite Z.mod_0_l by lia; lia | rewrite Z.sgn_pos by lia; lia]).
Qed.

Lemma abs_divide num den :
  in_s w num → in_s w den → den ≠ 0 →
  __udivmod w (Z.abs num) (Z.abs den) = Some (Z.abs num / Z.abs den, Z.abs num mod Z.abs den).
Proof using Hw.
  intros Hn Hd Hne. pose proof (pow2_half w ltac:(lia)). unfold in_s in *.
  unfold __udivmod. rewrite (proj2 (Z.eqb_neq _ 0)) by lia.
  apply restoring_divide_spec; unfold in_u; lia.
Qed.

Lemma remainder_range num den :
  in_s w num → in_s w den → den ≠ 0 → in_s w (if den <? 0 then - Z.rem num den else Z.rem num den).
Proof using Hw.
  intros Hn Hd Hne. pose proof (Z.rem_bound_abs num den Hne). unfold in_s in *.
  destruct (den <? 0); lia.
Qed.

Lemma signed_div_spec num den :
  in_s w num → in_s w den → den ≠ 0 →
  (let '(n, d, minus) := split_signs w num den in
   (λ r : Z * Z, signed_result w minus r.1) <$> __udivmod w (wrapu w n) (wrapu w d)) =
  Some (wraps w (Z.quot num den)).
Proof using Hw.
  intros Hn Hd Hne. destruct (split_signs_spec num den Hn Hd) as (n & d & -> & -> & ->).
  rewrite abs_divide by done. cbn [fmap option_fmap option_map fst].
  by rewrite signed_result_spec, signed_quotient.
Qed.

Lemma signed_mod_spec num den :
  in_s w num → in_s w den → den ≠ 0 →
  (let '(n, d, minus) := split_signs w num den in
   (λ r : Z * Z, signed_result w minus r.2) <$> __udivmod w (wrapu w n) (wrapu w d)) =
  Some (if den <? 0 then - Z.rem num den else Z.rem num den).
Proof using Hw.
  intros Hn Hd Hne. destruct (split_signs_spec num den Hn Hd) as (n & d & -> & -> & ->).
  rewrite abs_divide by done. cbn [fmap option_fmap option_map snd].
  rewrite signed_result_spec, signed_remainder by done.
  rewrite wraps_small; [done | lia | by apply remainder_range].
Qed.
End signed_division.

(** Signed division truncates toward zero, as C requires, for all
    operands (the one overflowing quotient, the least integer divided by -1,
    wraps to itself). *)
Theorem divdi3_correct num den :
  in_s 64 num → in_s 64 den → den ≠ 0 → __divdi3 num den = Some (s64 (Z.quot num den)).
Proof. apply (signed_div_spec 64). lia. Qed.

Lemma divdi3_correct_witness : __divdi3 (-7) 2 = Some (-3).
Proof. apply (divdi3_correct (-7) 2); [split; lia.. | lia]. Defined.

Lemma divsi3_correct num den :
  in_s 32 num → in_s 32 den → den ≠ 0 → __divsi3 num den = Some (s32 (Z.quot num den)).
Proof. apply (signed_div_spec 32). lia. Qed.

(** The signed modulus is the C remainder for a positive divisor,
    but has the opposite sign for a negative one: the code flips [minus] for
    the divisor as if it computed a quotient. *)
Theorem moddi3_value num den :
  in_s 64 num → in_s 64 den → den ≠ 0 →
  __moddi3 num den = Some (if den <? 0 then - Z.rem num den else Z.rem num den).
Proof. apply (signed_mod_spec 64). lia. Qed.

Lemma moddi3_value_witness : __moddi3 7 (-2) = Some (-1) ∧ Z.rem 7 (-2) = 1.
Proof. split; [apply (moddi3_value 7 (-2)); [split; lia.. | lia] | reflexivity]. Defined.

Lemma modsi3_value num den :
  in_s 32 num → in_s 32 den → den ≠ 0 →
  __modsi3 num den = Some (if den <? 0 then - Z.rem num den else Z.rem num den).
Proof. apply (signed_mod_spec 32). lia. Qed.

(** The CRIS routine decrements the divisor before a plain
    shift-and-subtract division (the decrement belongs to the [dstep]
    instruction, which it never uses), so that for a divisor of at least 2 the
    unsigned instances divide by [den - 1]. *)
Theorem cris_divides_by_pred num den :
  in_u 32 num → 2 <= den < 2 ^ 32 →
  cris_divide false false 32 num den = Some (s32 (num / (den - 1))) ∧
  cris_divide false true 32 num den = Some (s32 (num mod (den - 1))).
Proof.
  intros Hn Hd. unfold cris_divide.
  rewrite (proj2 (Z.eqb_neq den 0)), (proj2 (Z.eqb_neq den 1)) by lia. simpl uint_signs. cbv iota beta.
  rewrite (wrapu_small 32) by (unfold in_u; lia).
  rewrite restoring_divide_spec by (done || lia). done.
Qed.

Lemma cris_divides_by_pred_witness : cris_divide false false 32 10 3 = Some 5.
Proof. apply (cris_divides_by_pred 10 3); [split; lia | lia]. Defined.

(** The Alpha routine is right on unsigned operands. *)
Lemma alpha_divide_unsigned w num den :
  0 < w → in_u w num → in_u w den → den ≠ 0 →
  alpha_divide false false w num den = Some (wraps w (num / den)) ∧
  alpha_divide false true w num den = Some (wraps w (num mod den)).
Proof.
  intros Hw Hn Hd Hne. unfold alpha_divide. rewrite (proj2 (Z.eqb_neq den 0)) by done. simpl uint_signs.
  cbv iota beta. rewrite restoring_divide_spec by (unfold in_u in *; lia || done). done.
Qed.

(** ** Shifts and leading zeros *)

Lemma halves v : in_u 64 v → v = Z.shiftr v 32 * 2 ^ 32 + u32 v ∧ 0 <= Z.shiftr v 32 < 2 ^ 32.
Proof.
  unfold in_u, wrapu. intros Hv. rewrite shiftr_div by lia.
  pose proof (Z.div_mod v (2 ^ 32) ltac:(lia)). pose proof (Z.div_pos v (2 ^ 32)).
  pose proof (Z.div_lt_upper_bound v (2 ^ 32) (2 ^ 32)). lia.
Qed.

(** The 63 counts a 64-bit shift can have, as bit operations on [cnt]. *)
Lemma shift_count cnt :
  0 <= cnt < 64 →
  Z.land cnt 31 = cnt mod 32 ∧ (Z.land cnt 32 =? 0) = (cnt <? 32).
Proof.
  intros Hc. split; [by apply (land_mask cnt 5) |].
  assert (∀ c, 0 <= c <= 255 → (c <? 64) = true → (Z.land c 32 =? 0) = (c <? 32)) as H.
  { intros c Hc' Hlt. set (P c := negb (c <? 64) || eqb (Z.land c 32 =? 0) (c <? 32)).
    assert (forallb P (seqZ 0 256) = true) as Hall by (vm_compute; reflexivity).
    rewrite forallb_forall in Hall. specialize (Hall c ltac:(apply list_elem_of_In, elem_of_seqZ; lia)).
    unfold P in Hall. rewrite Hlt in Hall. by apply eqb_prop. }
  apply H; lia.
Qed.

Lemma combine_halves a b : u64 (u64 (Z.shiftl (u32 a) 32) + b) = u64 (a * 2 ^ 32 + b).
Proof.
  unfold wrapu. rewrite shiftl_mul, <- Zmult_mod_distr_r by lia. change (2 ^ 32 * 2 ^ 32) with (2 ^ 64).
  by rewrite Zmod_mod, Zplus_mod_idemp_l.
Qed.

(** Splitting a 32-bit half at the bits that a left shift moves out of it. *)
Lemma shift_out l c :
  0 <= l → 0 <= c <= 32 →
  l * 2 ^ c = l / 2 ^ (32 - c) * 2 ^ 32 + l mod 2 ^ (32 - c) * 2 ^ c ∧
  u32 (l * 2 ^ c) = l mod 2 ^ (32 - c) * 2 ^ c.
Proof.
  intros Hl Hc.
  assert (2 ^ 32 = 2 ^ (32 - c) * 2 ^ c) as Hp by (rewrite <- Z.pow_add_r by lia; f_equal; lia).
  pose proof (Z.pow_pos_nonneg 2 c ltac:(lia) ltac:(lia)).
  pose proof (Z.pow_pos_nonneg 2 (32 - c) ltac:(lia) ltac:(lia)).
  pose proof (Z.div_mod l (2 ^ (32 - c)) ltac:(lia)). split; [rewrite Hp; nia |].
  unfold wrapu. rewrite Hp. apply Zmult_mod_distr_r.
Qed.

(** For counts 1 to 63 the 64-bit left shift assembled from
    32-bit halves is the left shift modulo 2^64; a count of 0 shifts a 32-bit
    value by 32, which C leaves undefined. *)
Theorem ashldi3_correct v cnt :
  in_u 64 v → 0 <= cnt < 64 →
  __ashldi3 v cnt = if decide (cnt = 0) then None else Some (u64 (Z.shiftl v cnt)).
Proof.
  intros Hv Hc. unfold __ashldi3. destruct (shift_count cnt Hc) as [-> ->].
  destruct (halves v Hv) as [Hsplit Hhi]. set (h := Z.shiftr v 32) in *. set (l := u32 v) in *.
  assert (0 <= l < 2 ^ 32) as Hl by apply (wrapu_range 32 ltac:(lia) v).
  rewrite (wrapu_small 32 h) by done. clearbody h l. subst v. rewrite (shiftl_mul _ cnt) by lia.
  destruct (Z.ltb_spec cnt 32); cbn [negb].
  - rewrite (Z.mod_small cnt 32) by lia. unfold shl32, shr32.
    case_decide as Hz; [by subst |]. rewrite !(proj2 (Z.leb_le 0 _)), !(proj2 (Z.ltb_lt _ 32)) by lia.
    cbn [mbind option_bind andb]. rewrite combine_halves, !shiftl_mul, shiftr_div by lia.
    destruct (shift_out l cnt) as [Hs ->]; [lia.. |].
    assert (u32 (h * 2 ^ cnt) * 2 ^ 32 = u64 (h * 2 ^ cnt * 2 ^ 32)) as E.
    { unfold wrapu. rewrite <- Zmult_mod_distr_r. done. }
    rewrite Z.mul_add_distr_r, E, <- Z.add_assoc. unfold wrapu. rewrite Zplus_mod_idemp_l. do 2 f_equal. nia.
  - replace (cnt mod 32) with (cnt - 32) by (apply (Z.mod_unique _ _ 1); lia).
    rewrite decide_False by lia. unfold shl32. rewrite (proj2 (Z.leb_le 0 _)), (proj2 (Z.ltb_lt _ 32)) by lia.
    cbn [mbind option_bind andb]. rewrite combine_halves, shiftl_mul, Z.add_0_r by lia.
    replace (2 ^ cnt) with (2 ^ (cnt - 32) * 2 ^ 32) by (rewrite <- Z.pow_add_r by lia; f_equal; lia).
    replace ((h * 2 ^ 32 + l) * (2 ^ (cnt - 32) * 2 ^ 32))
      with (l * 2 ^ (cnt - 32) * 2 ^ 32 + h * 2 ^ (cnt - 32) * 2 ^ 64) by (change (2 ^ 64) with (2 ^ 32 * 2 ^ 32); ring).
    unfold wrapu. by rewrite Z_mod_plus_full.
Qed.

Lemma ashldi3_correct_witness : __ashldi3 (2 ^ 31 + 5) 33 = Some (u64 (Z.shiftl (2 ^ 31 + 5) 33)).
Proof. apply (ashldi3_correct (2 ^ 31 + 5) 33); [split; lia | lia]. Defined.

(** The mask of a step selects the upper half of [2 k] bits. *)
Lemma land_upper_half u k :
  0 < k → 0 < u < 2 ^ (2 * k) → Z.land u ((2 ^ k - 1) * 2 ^ k) = u / 2 ^ k * 2 ^ k.
Proof.
  intros Hk Hu. rewrite <- shiftr_div, <- !shiftl_mul by lia.
  replace (2 ^ k - 1) with (Z.ones k) by (rewrite Z.ones_equiv; lia).
  apply Z.bits_inj'. intros i Hi. rewrite Z.land_spec.
  destruct (Z.lt_ge_cases i k); [rewrite !Z.shiftl_spec_low by done; apply andb_false_r |].
  rewrite !Z.shiftl_spec_high, Z.shiftr_spec, Z.testbit_ones by lia. replace (i - k + k) with i by lia.
  destruct (Z.lt_ge_cases i (2 * k)).
  - rewrite (proj2 (Z.leb_le 0 _)), (proj2 (Z.ltb_lt _ k)) by lia. apply andb_true_r.
  - by rewrite (testbit_high (2 * k) u i) by (unfold in_u; lia).
Qed.

(** Each step halves the number of candidate bits and keeps [p - log2 v]. *)
Lemma clz_step_spec k mask p u :
  0 < k → mask = (2 ^ k - 1) * 2 ^ k → 0 < u < 2 ^ (2 * k) →
  ∃ p' u', clz_step mask k (p, u) = (p', u') ∧ 0 < u' < 2 ^ k ∧ p' - Z.log2 u' = p - Z.log2 u.
Proof.
  intros Hk -> Hu. unfold clz_step. rewrite land_upper_half by done.
  pose proof (Z.pow_pos_nonneg 2 k ltac:(lia) ltac:(lia)). replace (2 * k) with (k + k) in Hu by lia.
  rewrite Z.pow_add_r in Hu by lia. pose proof (Z.div_pos u (2 ^ k)).
  destruct (Z.eqb_spec (u / 2 ^ k * 2 ^ k) 0) as [Hz | Hz]; cbn [negb]; eexists _, _; (split; [done |]).
  - assert (u / 2 ^ k = 0) as Hz0 by nia. apply Z.div_small_iff in Hz0; [| lia]. split; [lia | done].
  - rewrite shiftr_div by lia. assert (0 < u / 2 ^ k < 2 ^ k) as Hd.
    { split; [nia |]. apply Z.div_lt_upper_bound; lia. }
    split; [done |]. rewrite <- shiftr_div, Z.log2_shiftr by lia.
    assert (k <= Z.log2 u); [| lia]. apply Z.log2_le_pow2; [lia |].
    destruct (Z.lt_ge_cases u (2 ^ k)); [rewrite Z.div_small in Hd by lia; lia | done].
Qed.

(** [__clzsi2] counts the leading zeros of every non-zero word. *)
Theorem clzsi2_correct v : 0 < v < 2 ^ 32 → __clzsi2 v = 31 - Z.log2 v.
Proof.
  intros Hv. unfold __clzsi2.
  destruct (clz_step_spec 16 0xffff0000 31 v) as (p1 & v1 & -> & H1 & E1); [lia | done | lia |].
  destruct (clz_step_spec 8 0xff00 p1 v1) as (p2 & v2 & -> & H2 & E2); [lia | done | lia |].
  destruct (clz_step_spec 4 0xf0 p2 v2) as (p3 & v3 & -> & H3 & E3); [lia | done | lia |].
  destruct (clz_step_spec 2 0xc p3 v3) as (p4 & v4 & -> & H4 & E4); [lia | done | lia |].
  destruct (clz_step_spec 1 0x2 p4 v4) as (p5 & v5 & -> & H5 & E5); [lia | done | lia |].
  assert (v5 = 1) as -> by lia. change (Z.log2 1) with 0 in E5. simpl. lia.
Qed.

Lemma clzsi2_correct_witness : __clzsi2 0x1234 = 19.
Proof. apply (clzsi2_correct 0x1234). lia. Defined.
