(* ===== verification/Sort.v ===== *)
(** * Sorting and searching: [klibc/qsort.c] and [klibc/bsearch.c]

    [qsort] is a comb sort over an array of [nmemb] elements of [size] bytes;
    the comparison function is a parameter that reads memory through the two
    element pointers.  The theorems assume that it computes a function [cmp]
    of the two elements' bytes and leaves memory alone. *)

From stdpp Require Import base numbers list gmap sorting.
From Stdlib Require Import Lia.
From S2P Require Import Prelude Memory MemOps.

(** ** The code *)

Definition newgap (gap : Z) : Z :=
  let gap := u64 (gap * 10) / 13 in
  let gap := if (gap =? 9) || (gap =? 10) then 11 else gap in
  if gap <? 1 then 1 else gap.

Section code.
Context (compar : Z → Z → C Z).

(** The [for] loop of one pass; returns [swapped]. *)
Fixpoint qsort_pass (fuel : nat) (base nmemb size gap i p1 : Z) (swapped : bool) : C bool :=
  if i <? u64 (nmemb - gap) then
    match fuel with
    | O => fault
    | S f =>
        let j := i + gap in
        let p2 := base + u64 (j * size) in
        c ← compar p1 p2;
        if 0 <? c then
          Mem.memswap p1 p2 size;;
          qsort_pass f base nmemb size gap (i + 1) (p1 + size) true
        else qsort_pass f base nmemb size gap (i + 1) (p1 + size) swapped
    end
  else mret swapped.

(** The [do ... while (gap > 1 || swapped)] loop. *)
Fixpoint qsort_loop (fuel : nat) (base nmemb size gap : Z) : C unit :=
  match fuel with
  | O => fault
  | S f =>
      let gap := newgap gap in
      swapped ← qsort_pass (Z.to_nat nmemb) base nmemb size gap 0 base false;
      if (1 <? gap) || swapped then qsort_loop f base nmemb size gap else mret tt
  end.

(** Enough passes for every array of [nmemb] elements: see [qsort_correct]. *)
Definition qsort_passes (nmemb : Z) : nat := Z.to_nat (nmemb + nmemb * nmemb + 1).

Definition qsort (base nmemb size : Z) : C unit :=
  if nmemb =? 0 then mret tt else qsort_loop (qsort_passes nmemb) base nmemb size nmemb.

Fixpoint bsearch_loop (fuel : nat) (key base nmemb size : Z) : C Z :=
  if nmemb =? 0 then mret NULL
  else match fuel with
       | O => fault
       | S f =>
           let mididx := nmemb / 2 in
           let midobj := base + u64 (mididx * size) in
           diff ← compar key midobj;
           if diff =? 0 then mret midobj
           else if 0 <? diff then bsearch_loop f key (midobj + size) (nmemb - (mididx + 1)) size
           else bsearch_loop f key base mididx size
       end.

Definition bsearch (key base nmemb size : Z) : C Z :=
  bsearch_loop (Z.to_nat nmemb) key base nmemb size.
End code.

(** ** Comb sort on lists *)

Section lists.
Context {A : Type} (cmp : A → A → Z).

Definition swap (i j : nat) (x y : A) (l : list A) : list A := <[i := y]> (<[j := x]> l).

(** [k] more comparisons of a pass, from index [i] on. *)
Fixpoint pass (k i gap : nat) (l : list A) (swapped : bool) : list A * bool :=
  match k with
  | O => (l, swapped)
  | S k =>
      match l !! i, l !! (i + gap)%nat with
      | Some x, Some y =>
          if 0 <? cmp x y then pass k (S i) gap (swap i (i + gap) x y l) true
          else pass k (S i) gap l swapped
      | _, _ => (l, swapped)
      end
  end.

Lemma length_swap i j x y l : length (swap i j x y l) = length l.
Proof. unfold swap. by rewrite !length_insert. Qed.

Lemma length_pass k : ∀ i gap l b, length (pass k i gap l b).1 = length l.
Proof.
  induction k as [| k IH]; intros i gap l b; simpl; [done |].
  destruct (l !! i), (l !! (i + gap)%nat); try done. destruct (0 <? _); rewrite IH; auto using length_swap.
Qed.

Lemma swap_Permutation i j x y l :
  l !! i = Some x → l !! j = Some y → swap i j x y l ≡ₚ l.
Proof. intros Hi Hj. unfold swap. by apply Permutation_insert_swap. Qed.

Lemma pass_Permutation k : ∀ i gap l b, (pass k i gap l b).1 ≡ₚ l.
Proof.
  induction k as [| k IH]; intros i gap l b; simpl; [done |].
  destruct (l !! i) as [x |] eqn:Hx, (l !! (i + gap)%nat) as [y |] eqn:Hy; try done.
  destruct (0 <? _); rewrite IH; [by apply swap_Permutation | done].
Qed.

(** A pass that ends with [swapped] unset changed nothing and found every
    compared pair in order. *)
Lemma pass_unswapped k : ∀ i gap l l' b,
  pass k i gap l b = (l', false) → (i + gap + k <= length l)%nat →
  l' = l ∧ b = false ∧ ∀ n x y, (i <= n < i + k)%nat → l !! n = Some x → l !! (n + gap)%nat = Some y → cmp x y <= 0.
Proof.
  induction k as [| k IH]; intros i gap l l' b Hp Hlen; cbn [pass] in Hp.
  { simplify_eq. repeat split; lia. }
  destruct (lookup_lt_is_Some_2 l i) as [x Hx]; [lia |].
  destruct (lookup_lt_is_Some_2 l (i + gap)) as [y Hy]; [lia |]. rewrite Hx, Hy in Hp.
  destruct (Z.ltb_spec 0 (cmp x y)).
  - apply IH in Hp as (_ & ? & _); [done |]. rewrite length_swap. lia.
  - apply IH in Hp as (-> & -> & Hn); [| lia]. repeat split. intros n u v Hr Hu Hv.
    destruct (decide (n = i)) as [-> |]; [simplify_eq; lia |]. apply (Hn n); done || lia.
Qed.

(** *** Inversions *)

Context (cmp_asym : ∀ x y, 0 < cmp x y → cmp y x <= 0).

Fixpoint inversions (l : list A) : nat :=
  match l with
  | [] => 0
  | x :: l => length (filter (λ y, 0 < cmp x y) l) + inversions l
  end.

Lemma inversions_le l : (inversions l <= length l * length l)%nat.
Proof.
  induction l as [| x l IH]; simpl; [done |]. pose proof (length_filter (λ y, 0 < cmp x y) l). lia.
Qed.

Lemma inversions_adjacent l1 x y l2 :
  0 < cmp x y → inversions (l1 ++ x :: y :: l2) = S (inversions (l1 ++ y :: x :: l2)).
Proof.
  intros Hxy. induction l1 as [| z l1 IH]; simpl.
  - rewrite !filter_cons, decide_True by done. pose proof (cmp_asym x y Hxy).
    rewrite (decide_False (P := 0 < cmp y x)) by lia. simpl. lia.
  - rewrite IH. assert (length (filter (λ u, 0 < cmp z u) (l1 ++ x :: y :: l2)) =
      length (filter (λ u, 0 < cmp z u) (l1 ++ y :: x :: l2))) as ->; [| lia].
    apply Permutation_length, filter_Permutation. by rewrite (Permutation_swap y x).
Qed.

Lemma swap_middle l1 x y l2 :
  swap (length l1) (S (length l1)) x y (l1 ++ x :: y :: l2) = l1 ++ y :: x :: l2.
Proof. unfold swap. induction l1 as [| z l1 IH]; simpl; [done |]. by f_equal. Qed.

Lemma lookup_split2 (l : list A) i x y :
  l !! i = Some x → l !! (i + 1)%nat = Some y → ∃ l1 l2, l = l1 ++ x :: y :: l2 ∧ length l1 = i.
Proof.
  intros Hx Hy. rewrite Nat.add_1_r in Hy. exists (take i l), (drop (S (S i)) l). split.
  - rewrite <- (drop_S l y (S i) Hy). by rewrite <- (drop_S l x i Hx), take_drop.
  - apply length_take_le. apply lookup_lt_Some in Hx. lia.
Qed.

Lemma swap_adjacent i x y l :
  l !! i = Some x → l !! (i + 1)%nat = Some y → 0 < cmp x y →
  inversions l = S (inversions (swap i (i + 1) x y l)).
Proof.
  intros Hx Hy Hc. destruct (lookup_split2 l i x y Hx Hy) as (l1 & l2 & -> & <-).
  rewrite Nat.add_1_r, swap_middle. by apply inversions_adjacent.
Qed.

(** A pass of gap 1 never adds inversions, and removes one if it swaps. *)
Lemma pass_inversions k : ∀ i l b l' b',
  pass k i 1 l b = (l', b') →
  (inversions l' <= inversions l)%nat ∧ (b = false → b' = true → inversions l' < inversions l)%nat.
Proof.
  induction k as [| k IH]; intros i l b l' b' Hp; cbn [pass] in Hp.
  { simplify_eq. split; [lia | congruence]. }
  destruct (l !! i) as [x |] eqn:Hx, (l !! (i + 1)%nat) as [y |] eqn:Hy;
    simplify_eq; try (split; [lia | congruence]).
  destruct (Z.ltb_spec 0 (cmp x y)); apply IH in Hp as [H1 H2]; [| done].
  pose proof (swap_adjacent i x y l Hx Hy). split; [lia |]. lia.
Qed.

Context (cmp_trans : ∀ x y z, cmp x y <= 0 → cmp y z <= 0 → cmp x z <= 0).

Lemma adjacent_sorted l :
  (∀ n x y, l !! n = Some x → l !! (n + 1)%nat = Some y → cmp x y <= 0) →
  StronglySorted (λ x y, cmp x y <= 0) l.
Proof.
  intros Hl. apply Sorted_StronglySorted; [intros x y z; apply cmp_trans |].
  induction l as [| x l IH]; constructor.
  - apply IH. intros n u v Hu Hv. by apply (Hl (S n)).
  - destruct l as [| y l]; constructor. by apply (Hl 0%nat).
Qed.
End lists.

Lemma newgap_bounds gap :
  0 <= gap → 1 <= newgap gap ∧ (1 < gap → newgap gap < gap) ∧ (gap <= 1 → newgap gap = 1).
Proof.
  intros Hg. unfold newgap.
  assert (0 <= u64 (gap * 10) <= gap * 10) as Hu.
  { split; [by apply wrapu_range | apply Z.mod_le; lia]. }
  pose proof (Z.div_mod (u64 (gap * 10)) 13 ltac:(lia)).
  pose proof (Z.mod_pos_bound (u64 (gap * 10)) 13 ltac:(lia)).
  set (v := u64 (gap * 10) / 13) in *.
  destruct (Z.eqb_spec v 9), (Z.eqb_spec v 10); cbn [orb];
    destruct (Z.ltb_spec v 1); try (destruct (Z.ltb_spec 11 1)); lia.
Qed.

(** ** The code implements the comb sort *)

(** [arr m base sz es]: the elements [es], of [sz] bytes each, are stored
    consecutively from [base] on. *)
Definition arr (m : mem) (base : Z) (sz : nat) (es : list (list Z)) : Prop :=
  ∀ i e, es !! i = Some e →
    mem_at m (base + Z.of_nat i * Z.of_nat sz) e ∧ length e = sz ∧ bytes e.

Lemma index_disjoint (i j sz : Z) : 0 <= sz → i < j → i * sz + sz <= j * sz.
Proof. nia. Qed.

Lemma arr_swap m base sz es i j x y :
  arr m base sz es → es !! i = Some x → es !! j = Some y → (i < j)%nat →
  let p := base + Z.of_nat i * Z.of_nat sz in
  let q := base + Z.of_nat j * Z.of_nat sz in
  arr (mem_set (mem_set m p y) q x) base sz (swap i j x y es).
Proof.
  intros Ha Hx Hy Hij p q k e Hk.
  destruct (Ha i x Hx) as (Hmx & Hlx & Hbx), (Ha j y Hy) as (Hmy & Hly & Hby).
  pose proof (index_disjoint (Z.of_nat i) (Z.of_nat j) (Z.of_nat sz)). subst p q.
  pose proof (lookup_lt_Some _ _ _ Hx). pose proof (lookup_lt_Some _ _ _ Hy).
  unfold swap in Hk. destruct (decide (k = i)) as [-> |].
  { rewrite list_lookup_insert_eq in Hk by (rewrite length_insert; lia). simplify_eq.
    split; [| done]. eapply mem_at_set_ne; [apply mem_set_at | done | lia]. }
  rewrite list_lookup_insert_ne in Hk by done. destruct (decide (k = j)) as [-> |].
  { rewrite list_lookup_insert_eq in Hk by lia. simplify_eq. split; [apply mem_set_at | done]. }
  rewrite list_lookup_insert_ne in Hk by done. destruct (Ha k e Hk) as (Hmk & Hlk & Hbk).
  split; [| done].
  pose proof (index_disjoint (Z.of_nat k) (Z.of_nat i) (Z.of_nat sz)).
  pose proof (index_disjoint (Z.of_nat k) (Z.of_nat j) (Z.of_nat sz)).
  pose proof (index_disjoint (Z.of_nat i) (Z.of_nat k) (Z.of_nat sz)).
  pose proof (index_disjoint (Z.of_nat j) (Z.of_nat k) (Z.of_nat sz)).
  do 2 (eapply mem_at_set_ne; [| done | lia]). done.
Qed.

Section sort_correct.
Context (compar : Z → Z → C Z) (cmp : list Z → list Z → Z) (sz : nat).
Context (compar_cmp : ∀ m p q x y,
  mem_at m p x → mem_at m q y → length x = sz → length y = sz →
  compar p q m = Some (cmp x y, m)).

Abbreviation Zsz := (Z.of_nat sz).

(** One comparison, and the exchange it asks for. *)
Lemma compar_at m base es i j x y :
  arr m base sz es → es !! i = Some x → es !! j = Some y →
  compar (base + Z.of_nat i * Zsz) (base + Z.of_nat j * Zsz) m = Some (cmp x y, m).
Proof using compar_cmp.
  intros Ha Hx Hy. destruct (Ha i x Hx) as (? & ? & _), (Ha j y Hy) as (? & ? & _). by apply compar_cmp.
Qed.

Lemma memswap_at m base es i j x y :
  arr m base sz es → es !! i = Some x → es !! j = Some y → (i < j)%nat →
  ∃ m', Mem.memswap (base + Z.of_nat i * Zsz) (base + Z.of_nat j * Zsz) Zsz m = Some (tt, m') ∧
    arr m' base sz (swap i j x y es) ∧ same_outside base (Z.of_nat (length es) * Zsz) m m'.
Proof using Type.
  intros Ha Hx Hy Hij. pose proof (arr_swap m base sz es i j x y Ha Hx Hy Hij) as Hs. cbv zeta in Hs.
  destruct (Ha i x Hx) as (Hmx & Hlx & Hbx), (Ha j y Hy) as (Hmy & Hly & Hby).
  pose proof (index_disjoint (Z.of_nat i) (Z.of_nat j) Zsz).
  pose proof (index_disjoint (Z.of_nat j) (Z.of_nat (length es)) Zsz).
  pose proof (lookup_lt_Some _ _ _ Hy). pose proof (mem_at_length _ _ _ Hmx).
  eexists. split; [| split; [exact Hs |]].
  - unfold Mem.memswap, with_fuel. rewrite <- Hlx at 3. apply memswap_loop_spec; done || lia.
  - intros k Hk. rewrite !mem_set_outside by nia. done.
Qed.

Lemma qsort_pass_spec k : ∀ fuel base i gap es b m,
  arr m base sz es → (0 < gap)%nat → (i + gap + k = length es)%nat → (k <= fuel)%nat →
  Z.of_nat (length es) < 2 ^ 64 → Z.of_nat (length es) * Zsz < 2 ^ 64 →
  ∃ m', qsort_pass compar fuel base (Z.of_nat (length es)) Zsz (Z.of_nat gap) (Z.of_nat i)
          (base + Z.of_nat i * Zsz) b m = Some ((pass cmp k i gap es b).2, m') ∧
    arr m' base sz (pass cmp k i gap es b).1 ∧
    same_outside base (Z.of_nat (length es) * Zsz) m m'.
Proof using compar_cmp.
  induction k as [| k IH]; intros [| f] base i gap es b m Ha Hg Hk Hf Hn Hsz; try lia;
    cbn [qsort_pass pass]; rewrite wrapu_small by (unfold in_u; lia).
  1,2: destruct (Z.ltb_spec (Z.of_nat i) (Z.of_nat (length es) - Z.of_nat gap)); [lia |]; by exists m.
  rewrite (proj2 (Z.ltb_lt _ _)) by lia.
  destruct (lookup_lt_is_Some_2 es i) as [x Hx]; [lia |].
  destruct (lookup_lt_is_Some_2 es (i + gap)) as [y Hy]; [lia |]. rewrite Hx, Hy.
  rewrite <- Nat2Z.inj_add, wrapu_small by (unfold in_u; nia).
  erewrite bind_ok by by eapply compar_at.
  replace (Z.of_nat i + 1) with (Z.of_nat (S i)) by lia.
  replace (base + Z.of_nat i * Zsz + Zsz) with (base + Z.of_nat (S i) * Zsz) by lia.
  destruct (0 <? cmp x y); [| apply IH; done || lia].
  destruct (memswap_at m base es i (i + gap) x y) as (m1 & E1 & Ha1 & Ho1); [done.. | lia |].
  erewrite bind_ok by exact E1. rewrite <- (length_swap i (i + gap) x y es) in *.
  destruct (IH f base (S i) gap (swap i (i + gap) x y es) true m1) as (m2 & E2 & Ha2 & Ho2);
    [done | lia.. |]. exists m2. split; [exact E2 |]. split; [exact Ha2 |].
  intros j Hj. by rewrite Ho2, Ho1.
Qed.

Context (cmp_asym : ∀ x y, 0 < cmp x y → cmp y x <= 0).
Context (cmp_trans : ∀ x y z, cmp x y <= 0 → cmp y z <= 0 → cmp x z <= 0).

(** What [qsort] promises of the memory it returns. *)
Definition sorted_result (m m' : mem) (base : Z) (es : list (list Z)) : Prop :=
  ∃ es', arr m' base sz es' ∧ es' ≡ₚ es ∧ StronglySorted (λ x y, cmp x y <= 0) es' ∧
    same_outside base (Z.of_nat (length es) * Zsz) m m'.

(** The passes left: one per decrease of the gap, then one per inversion. *)
Definition passes_left (gap : Z) (es : list (list Z)) : nat :=
  if 1 <? gap then Z.to_nat gap + length es * length es else inversions cmp es.

Lemma qsort_loop_spec fuel : ∀ base gap es m,
  arr m base sz es → 0 < gap <= Z.of_nat (length es) → (passes_left gap es < fuel)%nat →
  Z.of_nat (length es) < 2 ^ 64 → Z.of_nat (length es) * Zsz < 2 ^ 64 →
  ∃ m', qsort_loop compar fuel base (Z.of_nat (length es)) Zsz gap m = Some (tt, m') ∧
    sorted_result m m' base es.
Proof using compar_cmp cmp_asym cmp_trans.
  induction fuel as [| f IH]; intros base gap es m Ha Hg Hf Hn Hsz; [lia |]. cbn [qsort_loop].
  destruct (newgap_bounds gap) as (Hb1 & Hb2 & Hb3); [lia |]. set (g := newgap gap) in *.
  assert (g <= gap) by lia. set (k := (length es - Z.to_nat g)%nat).
  destruct (qsort_pass_spec k (Z.to_nat (Z.of_nat (length es))) base 0 (Z.to_nat g) es false m)
    as (m1 & E1 & Ha1 & Ho1); [done | lia.. |].
  rewrite Z.mul_0_l, Z.add_0_r, Z2Nat.id in E1 by lia. erewrite bind_ok by exact E1.
  destruct (pass cmp k 0 (Z.to_nat g) es false) as [es1 sw] eqn:Ep. cbn [fst snd] in *.
  pose proof (length_pass cmp k 0 (Z.to_nat g) es false) as Hl.
  pose proof (pass_Permutation cmp k 0 (Z.to_nat g) es false) as Hperm.
  rewrite Ep in Hl, Hperm. cbn [fst] in Hl, Hperm.
  destruct ((1 <? g) || sw) eqn:Hgo.
  - destruct (IH base g es1 m1) as (m2 & E2 & es2 & Ha2 & Hp2 & Hs2 & Ho2); [done | lia | | lia.. |].
    + unfold passes_left in *. destruct (Z.ltb_spec 1 g), (Z.ltb_spec 1 gap); try lia.
      * pose proof (inversions_le cmp es1). rewrite Hl in *. lia.
      * simpl in Hgo. subst sw. assert (g = 1) as Hg1 by lia. rewrite Hg1 in Ep.
        apply pass_inversions in Ep as [_ Hi]; [| done]. specialize (Hi eq_refl eq_refl). lia.
    + rewrite Hl in E2, Ho2. exists m2. split; [done |]. exists es2.
      split_and!; [done | by rewrite Hp2 | done | intros j Hj; by rewrite Ho2, Ho1].
  - apply orb_false_iff in Hgo as [Hg1 ->]. apply Z.ltb_ge in Hg1. assert (g = 1) as Hg2 by lia.
    rewrite Hg2 in *. apply pass_unswapped in Ep as (-> & _ & Hadj); [| simpl; lia].
    exists m1. split; [done |]. exists es. split_and!; [done.. | | done].
    apply adjacent_sorted; [done |]. intros n x y Hx Hy. apply (Hadj n); [| done..].
    apply lookup_lt_Some in Hy. lia.
Qed.
End sort_correct.

(** C2.  [qsort] is total and sorts: for every array and every comparison
    function that computes a total preorder [cmp] of the elements, it returns
    within [qsort_passes] passes, leaving in the array a permutation of the
    elements that is sorted by [cmp], and changing no byte outside the array.
    The gap sequence always reaches 1, and each further pass removes an
    inversion. *)
Theorem qsort_correct (compar : Z → Z → C Z) (cmp : list Z → list Z → Z) (sz : nat) base es m :
  (∀ m p q x y, mem_at m p x → mem_at m q y → length x = sz → length y = sz →
     compar p q m = Some (cmp x y, m)) →
  (∀ x y, 0 < cmp x y → cmp y x <= 0) →
  (∀ x y z, cmp x y <= 0 → cmp y z <= 0 → cmp x z <= 0) →
  arr m base sz es →
  Z.of_nat (length es) < 2 ^ 64 → Z.of_nat (length es) * Z.of_nat sz < 2 ^ 64 →
  ∃ m' es', qsort compar base (Z.of_nat (length es)) (Z.of_nat sz) m = Some (tt, m') ∧
    arr m' base sz es' ∧ es' ≡ₚ es ∧ StronglySorted (λ x y, cmp x y <= 0) es' ∧
    same_outside base (Z.of_nat (length es) * Z.of_nat sz) m m'.
Proof.
  intros Hc Hasym Htrans Ha Hn Hsz. unfold qsort. destruct (Z.eqb_spec (Z.of_nat (length es)) 0) as [E | E].
  - destruct es; [| simpl in E; lia]. exists m, []. split_and!; [done | done | done | constructor | done].
  - destruct (qsort_loop_spec compar cmp sz Hc Hasym Htrans (qsort_passes (Z.of_nat (length es)))
      base (Z.of_nat (length es)) es m) as (m' & Hq & es' & Hr); [done | lia | | done.. |].
    + unfold passes_left, qsort_passes. pose proof (inversions_le cmp es).
      case_if; nia.
    + by exists m', es'.
Qed.

Section bsearch.
Context (compar : Z → Z → C Z) (key base : Z) (sz : nat) (m : mem) (d : nat → Z).

Lemma bsearch_loop_spec n : ∀ fuel lo,
  (n <= fuel)%nat → (Z.of_nat (lo + n)) * Z.of_nat sz < 2 ^ 64 →
  (∀ i, (lo <= i < lo + n)%nat →
     compar key (base + Z.of_nat i * Z.of_nat sz) m = Some (d i, m)) →
  (∀ i j, (lo <= i <= j)%nat → (j < lo + n)%nat → Z.sgn (d j) <= Z.sgn (d i)) →
  ∃ r, bsearch_loop compar fuel key (base + Z.of_nat lo * Z.of_nat sz) (Z.of_nat n) (Z.of_nat sz) m
    = Some (r, m) ∧
    ((∃ i, (lo <= i < lo + n)%nat ∧ d i = 0 ∧ r = base + Z.of_nat i * Z.of_nat sz) ∨
     (r = NULL ∧ ∀ i, (lo <= i < lo + n)%nat → d i ≠ 0)).
Proof using Type.
  induction (lt_wf n) as [n _ IH]. intros [| f] lo Hf Hsz Hc Hd.
  { assert (n = 0%nat) as -> by lia. exists NULL. split; [done |]. right. split; [done | lia]. }
  cbn [bsearch_loop]. destruct (Z.eqb_spec (Z.of_nat n) 0) as [E | E].
  { exists NULL. split; [done |]. right. split; [done | lia]. }
  set (mid := (n / 2)%nat). assert (Z.of_nat n / 2 = Z.of_nat mid) as ->.
  { unfold mid. by rewrite Nat2Z.inj_div. }
  assert (mid < n)%nat as Hmid by (apply Nat.div_lt; lia).
  rewrite wrapu_small by (unfold in_u; nia).
  replace (base + Z.of_nat lo * Z.of_nat sz + Z.of_nat mid * Z.of_nat sz)
    with (base + Z.of_nat (lo + mid) * Z.of_nat sz) by lia.
  erewrite bind_ok by (apply Hc; lia).
  destruct (Z.eqb_spec (d (lo + mid)%nat) 0) as [E0 | E0].
  { eexists. split; [done |]. left. exists (lo + mid)%nat. split; [lia | done]. }
  destruct (Z.ltb_spec 0 (d (lo + mid)%nat)) as [Hp | Hp].
  - replace (base + Z.of_nat (lo + mid) * Z.of_nat sz + Z.of_nat sz)
      with (base + Z.of_nat (lo + mid + 1) * Z.of_nat sz) by lia.
    replace (Z.of_nat n - (Z.of_nat mid + 1)) with (Z.of_nat (n - mid - 1)) by lia.
    destruct (IH (n - mid - 1)%nat ltac:(lia) f (lo + mid + 1)%nat) as (r & Er & Hr);
      [lia | nia | intros; apply Hc; lia | intros; apply Hd; lia |].
    exists r. split; [done |]. destruct Hr as [(i & ? & ? & ?) | [-> Hnone]].
    + left. exists i. split; [lia | done].
    + right. split; [done |]. intros i Hi. destruct (decide (lo + mid + 1 <= i)%nat); [apply Hnone; lia |].
      specialize (Hd i (lo + mid)%nat ltac:(lia) ltac:(lia)). rewrite (Z.sgn_pos (d (lo + mid)%nat)) in Hd by lia.
      intros E1. rewrite E1 in Hd. simpl in Hd. lia.
  - destruct (IH mid Hmid f lo) as (r & Er & Hr);
      [lia | nia | intros; apply Hc; lia | intros; apply Hd; lia |].
    exists r. split; [done |]. destruct Hr as [(i & ? & ? & ?) | [-> Hnone]].
    + left. exists i. split; [lia | done].
    + right. split; [done |]. intros i Hi. destruct (decide (i < lo + mid)%nat); [apply Hnone; lia |].
      specialize (Hd (lo + mid)%nat i ltac:(lia) ltac:(lia)). rewrite (Z.sgn_neg (d (lo + mid)%nat)) in Hd by lia.
      intros E1. rewrite E1 in Hd. simpl in Hd. lia.
Qed.
End bsearch.

(** [bsearch] on an array that the key's comparison splits into
    greater, equal and smaller elements returns an element that compares equal
    if there is one, and the null pointer exactly if there is none. *)
Theorem bsearch_correct (compar : Z → Z → C Z) key base (sz n : nat) m (d : nat → Z) :
  (∀ i, (i < n)%nat → compar key (base + Z.of_nat i * Z.of_nat sz) m = Some (d i, m)) →
  (∀ i j, (i <= j < n)%nat → Z.sgn (d j) <= Z.sgn (d i)) →
  Z.of_nat n * Z.of_nat sz < 2 ^ 64 →
  ∃ r, bsearch compar key base (Z.of_nat n) (Z.of_nat sz) m = Some (r, m) ∧
    ((∃ i, (i < n)%nat ∧ d i = 0 ∧ r = base + Z.of_nat i * Z.of_nat sz) ∨
     (r = NULL ∧ ∀ i, (i < n)%nat → d i ≠ 0)).
Proof.
  intros Hc Hd Hsz.
  destruct (bsearch_loop_spec compar key base sz m d n (Z.to_nat (Z.of_nat n)) 0) as (r & Er & Hr);
    [lia.. | intros; apply Hc; lia | intros; apply Hd; lia |].
  rewrite Z.mul_0_l, Z.add_0_r in Er. exists r. split; [done |].
  destruct Hr as [(i & ? & Hi) | [-> Hn]]; [left; exists i; split; [lia | done] |].
  right. split; [done | intros; apply Hn; lia].
Qed.

(** ** Witnesses *)

(** A comparison function that orders elements by their first byte. *)
Definition first_byte (x : list Z) : Z := default 0 (head x).
Definition byte_compar (p q : Z) : C Z := a ← load8 p; b ← load8 q; mret (a - b).

Definition sort_mem : mem := mem_set ∅ 100 [3; 30; 1; 10; 2; 20; 1; 11].

Lemma byte_compar_cmp m p q x y :
  mem_at m p x → mem_at m q y → length x = 2%nat → length y = 2%nat →
  byte_compar p q m = Some (first_byte x - first_byte y, m).
Proof.
  destruct x as [| a x], y as [| b y]; try done. rewrite !mem_at_cons. intros [Ha _] [Hb _] _ _.
  unfold byte_compar. run load8_ok. run load8_ok. done.
Qed.

Lemma qsort_correct_witness :
  let es := [[3; 30]; [1; 10]; [2; 20]; [1; 11]] in
  ∃ m' es', qsort byte_compar 100 4 2 sort_mem = Some (tt, m') ∧
    arr m' 100 2 es' ∧ es' ≡ₚ es ∧ StronglySorted (λ x y, first_byte x - first_byte y <= 0) es' ∧
    same_outside 100 8 sort_mem m'.
Proof.
  intros es. apply (qsort_correct byte_compar (λ x y, first_byte x - first_byte y) 2 100 es sort_mem).
  - exact byte_compar_cmp.
  - intros; lia.
  - intros; lia.
  - intros [| [| [| [| i]]]] e; simpl; intros [= <-]; repeat split; by_eval.
  - by_eval.
  - by_eval.
Defined.

Lemma bsearch_correct_witness :
  ∃ r, bsearch byte_compar 100 100 4 2 (mem_set ∅ 100 [1; 0; 2; 0; 3; 0; 4; 0]) =
      Some (r, mem_set ∅ 100 [1; 0; 2; 0; 3; 0; 4; 0]) ∧
    ((∃ i, (i < 4)%nat ∧ 1 - Z.of_nat (S i) = 0 ∧ r = 100 + Z.of_nat i * 2) ∨
     (r = NULL ∧ ∀ i, (i < 4)%nat → 1 - Z.of_nat (S i) ≠ 0)).
Proof.
  apply (bsearch_correct byte_compar 100 100 2 4 _ (λ i, 1 - Z.of_nat (S i))).
  - intros [| [| [| [| i]]]] Hi; [vm_compute; reflexivity.. | lia].
  - intros i j Hij. lia.
  - by_eval.
Defined.
