(* ===== verification/Printf.v ===== *)
(** * Formatted output: [klibc/vsnprintf.c] and its callers

    [format_int] and the character-driven state machine of [vsnprintf] over
    the memory of [Memory].  Variadic arguments are a list of 64-bit slots;
    [va_arg] of a type takes a slot and converts it to the type.  [int]
    arithmetic whose overflow is undefined in ISO C is checked ([ck32]) and
    faults; the negation of INTMAX_MIN in [format_int] wraps, since klibc and
    its programs are compiled with -fwrapv (scripts/Kbuild.klibc).

    The second half defines the text a format denotes ([render], a
    recursive-descent reading of the format that knows nothing of buffers) and
    shows that the buffer receives exactly the part of it that fits. *)

From stdpp Require Import base numbers list gmap.
From Stdlib Require Import Lia.
From S2P Require Import Prelude Memory Ctype MemOps StrOps Numparse.

(** ** The code *)

Definition FL_ZERO : Z := 0x01.
Definition FL_MINUS : Z := 0x02.
Definition FL_PLUS : Z := 0x04.
Definition FL_TICK : Z := 0x08.
Definition FL_SPACE : Z := 0x10.
Definition FL_HASH : Z := 0x20.
Definition FL_SIGNED : Z := 0x40.
Definition FL_UPPER : Z := 0x80.

(** [flags & mask] as a condition. *)
Definition has (flags mask : Z) : bool := negb (Z.land flags mask =? 0).

Definition rank_char : Z := -2.
Definition rank_short : Z := -1.
Definition rank_int : Z := 0.
Definition rank_long : Z := 1.
Definition rank_longlong : Z := 2.
Definition MIN_RANK : Z := rank_char.
Definition MAX_RANK : Z := rank_longlong.
Definition INTMAX_RANK : Z := rank_longlong.
Definition SIZE_T_RANK : Z := rank_long.
Definition PTRDIFF_T_RANK : Z := rank_long.

(** A result of [int] arithmetic; overflow is undefined behaviour. *)
Definition ck32 (z : Z) : C Z := if bool_decide (in_s 32 z) then mret z else fault.

(** [EMIT(x)] on the output pointer [q] and the output count [o]. *)
Definition EMIT (n x : Z) (qo : Z * Z) : C (Z * Z) :=
  let '(q, o) := qo in
  if o <? n then store8 q x;; mret (q + 1, u64 (o + 1)) else mret (q, u64 (o + 1)).

(** [while (width > nchars) { EMIT(x); width--; }] *)
Fixpoint pad_loop (fuel : nat) (n x width nchars : Z) (qo : Z * Z) : C (Z * (Z * Z)) :=
  if nchars <? width then
    match fuel with
    | O => fault
    | S f => qo ← EMIT n x qo; pad_loop f n x (width - 1) nchars qo
    end
  else mret (width, qo).

Definition pad (n x width nchars : Z) (qo : Z * Z) : C (Z * (Z * Z)) :=
  pad_loop (Z.to_nat (width - nchars)) n x width nchars qo.

(** ["0123456789abcdef"] and ["0123456789ABCDEF"]. *)
Definition lcdigits : list Z := [48; 49; 50; 51; 52; 53; 54; 55; 56; 57; 97; 98; 99; 100; 101; 102].
Definition ucdigits : list Z := [48; 49; 50; 51; 52; 53; 54; 55; 56; 57; 65; 66; 67; 68; 69; 70].

(** [while (tmpval) { tmpval /= base; ndigits++; }]; a [uintmax_t] has at most
    64 digits. *)
Fixpoint count_digits (fuel : nat) (base tmpval ndigits : Z) : C Z :=
  if tmpval =? 0 then mret ndigits
  else match fuel with
       | O => fault
       | S f => count_digits f base (tmpval / base) (ndigits + 1)
       end.

Definition store_if (n oo qq x : Z) : C unit := if oo <? n then store8 qq x else mret tt.

(** The loop that generates the number from right to left. *)
Fixpoint number_loop (fuel : nat) (n : Z) (digits : list Z) (base tickskip : Z)
    (ndigits b4tick val qq oo : Z) : C unit :=
  if 0 <? ndigits then
    match fuel with
    | O => fault
    | S f =>
        '(qq, oo, ndigits, b4tick) ←
          (if b4tick =? 0 then
             store_if n (oo - 1) (qq - 1) 95;;
             mret (qq - 1, oo - 1, ndigits - 1, tickskip - 1)
           else mret (qq, oo, ndigits, b4tick - 1));
        c ← lift (digits !! Z.to_nat (val mod base));
        store_if n (oo - 1) (qq - 1) c;;
        number_loop f n digits base tickskip (ndigits - 1) b4tick (val / base) (qq - 1) (oo - 1)
    end
  else mret tt.

Definition format_int (q n val flags base width prec : Z) : C Z :=
  let digits := if has flags FL_UPPER then ucdigits else lcdigits in
  let minus := has flags FL_SIGNED && (s64 val <? 0) in
  let val := if minus then u64 (- s64 val) else val in
  ndigits ← count_digits 64 base val 0;
  let prec :=
    if has flags FL_HASH && (base =? 8) then
      if prec <? ndigits + 1 then ndigits + 1 else prec
    else prec in
  let ndigits := if ndigits <? prec then prec else if val =? 0 then 1 else ndigits in
  let tickskip := if has flags FL_TICK then if base =? 16 then 4 else 3 else ndigits in
  ndigits ← ck32 (ndigits + Z.quot (ndigits - 1) tickskip);
  nchars ← (if minus || has flags (Z.lor FL_PLUS FL_SPACE) then ck32 (ndigits + 1) else mret ndigits);
  nchars ← (if has flags FL_HASH && (base =? 16) then ck32 (nchars + 2) else mret nchars);
  let qo := (q, 0) in
  '(width, qo) ←
    (if negb (has flags (Z.lor FL_MINUS FL_ZERO)) && (nchars <? width)
     then pad n 32 width nchars qo else mret (width, qo));
  qo ← (if minus then EMIT n 45 qo
        else if has flags FL_PLUS then EMIT n 43 qo
        else if has flags FL_SPACE then EMIT n 32 qo
        else mret qo);
  qo ← (if has flags FL_HASH && (base =? 16) then
          qo ← EMIT n 48 qo; EMIT n (if has flags FL_UPPER then 88 else 120) qo
        else mret qo);
  '(width, (q, o)) ←
    (if (Z.land flags (Z.lor FL_MINUS FL_ZERO) =? FL_ZERO) && (ndigits <? width)
     then pad n 48 width nchars qo else mret (width, qo));
  let q := q + ndigits in
  let o := u64 (o + ndigits) in
  number_loop (Z.to_nat ndigits) n digits base tickskip ndigits tickskip val q o;;
  '(width, (q, o)) ←
    (if has flags FL_MINUS then pad n 32 width nchars (q, o) else mret (width, (q, o)));
  mret o.

(** *** The state machine *)

Inductive printf_state := st_normal | st_flags | st_width | st_prec | st_modifiers.

(** The local variables of [vsnprintf] that live across characters. *)
Record pf := mk_pf {
  state : printf_state; flags : Z; rank : Z; width : Z; prec : Z;
  out : Z * Z;      (* q, o *)
  ap : list Z;
}.

Definition set_state (st : printf_state) (s : pf) : pf :=
  mk_pf st (flags s) (rank s) (width s) (prec s) (out s) (ap s).
Definition set_flags (f : Z) (s : pf) : pf :=
  mk_pf (state s) f (rank s) (width s) (prec s) (out s) (ap s).
Definition set_rank (r : Z) (s : pf) : pf :=
  mk_pf (state s) (flags s) r (width s) (prec s) (out s) (ap s).
Definition set_width (w : Z) (s : pf) : pf :=
  mk_pf (state s) (flags s) (rank s) w (prec s) (out s) (ap s).
Definition set_prec (p : Z) (s : pf) : pf :=
  mk_pf (state s) (flags s) (rank s) (width s) p (out s) (ap s).
Definition set_out (qo : Z * Z) (s : pf) : pf :=
  mk_pf (state s) (flags s) (rank s) (width s) (prec s) qo (ap s).
Definition set_ap (a : list Z) (s : pf) : pf :=
  mk_pf (state s) (flags s) (rank s) (width s) (prec s) (out s) a.

(** [va_arg]: the next slot, and the rest of the list. *)
Definition va_arg (ap : list Z) : C (Z * list Z) :=
  match ap with v :: ap => mret (v, ap) | [] => fault end.

(** The argument conversions of [%d] and of the unsigned conversions. *)
Definition signed_arg (rank v : Z) : Z :=
  u64 (if rank =? rank_char then s8 (s32 v)
       else if rank =? rank_short then s16 (s32 v)
       else if rank =? rank_int then s32 v
       else s64 v).
Definition unsigned_arg (rank v : Z) : Z :=
  if rank =? rank_char then u8 (u32 v)
  else if rank =? rank_short then u16 (u32 v)
  else if rank =? rank_int then u32 v
  else u64 v.

(** The bytes an object of the rank's width takes; [%n] stores that many. *)
Definition rank_size (rank : Z) : nat :=
  if rank =? rank_char then 1 else if rank =? rank_short then 2 else if rank =? rank_int then 4 else 8.

(** The string an [%s] or [%c] conversion copies from: memory, or an object
    that is not part of the modelled memory (the literal, the local [carg]). *)
Inductive text_source := in_memory (a : Z) | literal (bs : list Z).

Definition source_byte (src : text_source) (i : nat) : C Z :=
  match src with
  | in_memory a => load8 (a + Z.of_nat i)
  | literal bs => lift (bs !! i)
  end.

(** [for (i = slen; i; i--) { sch = *sarg++; EMIT(sch); }] *)
Fixpoint copy_loop (fuel : nat) (n : Z) (src : text_source) (k : nat) (i : Z) (qo : Z * Z) : C (Z * Z) :=
  if i =? 0 then mret qo
  else match fuel with
       | O => fault
       | S f => sch ← source_byte src k; qo ← EMIT n sch qo; copy_loop f n src (S k) (i - 1) qo
       end.

(** [is_string:] *)
Definition is_string (n : Z) (src : text_source) (slen : Z) (s : pf) : C pf :=
  let slen := if negb (prec s =? -1) && (prec s <? slen) then prec s else slen in
  let qo := out s in
  '(width, qo) ←
    (if (slen <? width s) && negb (has (flags s) FL_MINUS)
     then pad n (if has (flags s) FL_ZERO then 48 else 32) (width s) slen qo else mret (width s, qo));
  qo ← copy_loop (Z.to_nat slen) n src 0 slen qo;
  '(width, qo) ←
    (if (slen <? width) && has (flags s) FL_MINUS then pad n 32 width slen qo else mret (width, qo));
  mret (set_width width (set_out qo s)).

(** [is_integer:] *)
Definition is_integer (n val base : Z) (s : pf) : C pf :=
  let '(q, o) := out s in
  sz ← format_int q (if o <? n then n - o else 0) val (flags s) base (width s) (prec s);
  mret (set_out (q + sz, u64 (o + sz)) s).

Definition null_text : list Z := [40; 110; 117; 108; 108; 41].

(** The terminal characters of [st_modifiers]; [n] is the buffer size. *)
Definition conversion (n ch : Z) (s : pf) : C pf :=
  let s := set_state st_normal s in
  let s := set_rank (if rank s <? MIN_RANK then MIN_RANK
                     else if MAX_RANK <? rank s then MAX_RANK else rank s) s in
  if (ch =? 80) || (ch =? 112) then                                  (* P p *)
    let s := if ch =? 80 then set_flags (Z.lor (flags s) FL_UPPER) s else s in
    let s := set_flags (Z.lor (flags s) FL_HASH) (set_prec ((8 * 8 + 3) / 4) s) in
    '(v, ap) ← va_arg (ap s); is_integer n (u64 v) 16 (set_ap ap s)
  else if (ch =? 100) || (ch =? 105) then                            (* d i *)
    let s := set_flags (Z.lor (flags s) FL_SIGNED) s in
    '(v, ap) ← va_arg (ap s); is_integer n (signed_arg (rank s) v) 10 (set_ap ap s)
  else if ch =? 111 then                                             (* o *)
    '(v, ap) ← va_arg (ap s); is_integer n (unsigned_arg (rank s) v) 8 (set_ap ap s)
  else if ch =? 117 then                                             (* u *)
    '(v, ap) ← va_arg (ap s); is_integer n (unsigned_arg (rank s) v) 10 (set_ap ap s)
  else if (ch =? 88) || (ch =? 120) then                             (* X x *)
    let s := if ch =? 88 then set_flags (Z.lor (flags s) FL_UPPER) s else s in
    '(v, ap) ← va_arg (ap s); is_integer n (unsigned_arg (rank s) v) 16 (set_ap ap s)
  else if ch =? 99 then                                              (* c *)
    '(v, ap) ← va_arg (ap s); is_string n (literal [u8 v]) 1 (set_ap ap s)
  else if ch =? 115 then                                             (* s *)
    '(v, ap) ← va_arg (ap s);
    if v =? NULL then is_string n (literal null_text) 6 (set_ap ap s)
    else slen ← Str.strlen v; is_string n (in_memory v) (s32 slen) (set_ap ap s)
  else if ch =? 110 then                                             (* n *)
    '(v, ap) ← va_arg (ap s);
    store_le (rank_size (rank s)) v (snd (out s));; mret (set_ap ap s)
  else qo ← EMIT n ch (out s); mret (set_out qo s).

(** One iteration of [while ((ch = *p++))]: the new state, and whether the
    character is processed again ([p--]). *)
Definition vsnprintf_step (n ch : Z) (s : pf) : C (bool * pf) :=
  match state s with
  | st_normal =>
      if ch =? 37 then mret (false, mk_pf st_flags 0 rank_int 0 (-1) (out s) (ap s))
      else qo ← EMIT n ch (out s); mret (false, set_out qo s)
  | st_flags =>
      if ch =? 45 then mret (false, set_flags (Z.lor (flags s) FL_MINUS) s)
      else if ch =? 43 then mret (false, set_flags (Z.lor (flags s) FL_PLUS) s)
      else if ch =? 39 then mret (false, set_flags (Z.lor (flags s) FL_TICK) s)
      else if ch =? 32 then mret (false, set_flags (Z.lor (flags s) FL_SPACE) s)
      else if ch =? 35 then mret (false, set_flags (Z.lor (flags s) FL_HASH) s)
      else if ch =? 48 then mret (false, set_flags (Z.lor (flags s) FL_ZERO) s)
      else mret (true, set_state st_width s)
  | st_width =>
      if (48 <=? ch) && (ch <=? 57) then
        w ← ck32 (width s * 10 + (ch - 48)); mret (false, set_width w s)
      else if ch =? 42 then
        '(v, ap) ← va_arg (ap s);
        let w := s32 v in
        if w <? 0 then
          w ← ck32 (- w);
          mret (false, set_ap ap (set_flags (Z.lor (flags s) FL_MINUS) (set_width w s)))
        else mret (false, set_ap ap (set_width w s))
      else if ch =? 46 then mret (false, set_state st_prec (set_prec 0 s))
      else mret (true, set_state st_modifiers s)
  | st_prec =>
      if (48 <=? ch) && (ch <=? 57) then
        p ← ck32 (prec s * 10 + (ch - 48)); mret (false, set_prec p s)
      else if ch =? 42 then
        '(v, ap) ← va_arg (ap s);
        mret (false, set_ap ap (set_prec (if s32 v <? 0 then -1 else s32 v) s))
      else mret (true, set_state st_modifiers s)
  | st_modifiers =>
      if ch =? 104 then mret (false, set_rank (rank s - 1) s)             (* h *)
      else if ch =? 108 then mret (false, set_rank (rank s + 1) s)        (* l *)
      else if ch =? 106 then mret (false, set_rank INTMAX_RANK s)         (* j *)
      else if ch =? 122 then mret (false, set_rank SIZE_T_RANK s)         (* z *)
      else if ch =? 116 then mret (false, set_rank PTRDIFF_T_RANK s)      (* t *)
      else if (ch =? 76) || (ch =? 113) then mret (false, set_rank (rank s + 2) s)
      else s ← conversion n ch s; mret (false, s)
  end.

Fixpoint vsnprintf_loop (fuel : nat) (n p : Z) (s : pf) : C pf :=
  match fuel with
  | O => fault
  | S f =>
      ch ← loadc p;
      if ch =? 0 then mret s
      else '(again, s) ← vsnprintf_step n ch s;
           vsnprintf_loop f n (if again : bool then p else p + 1) s
  end.

(** A character is processed at most three times. *)
Definition vsnprintf (buffer n format : Z) (ap : list Z) : C Z := λ m,
  ('(mk_pf _ _ _ _ _ (q, o) _) ← vsnprintf_loop (3 * S (size m)) n format
      (mk_pf st_normal 0 rank_int 0 (-1) (buffer, 0) ap);
   (if o <? n then store8 q 0 else if 0 <? n then store8 (buffer + (n - 1)) 0 else mret tt);;
   mret (s32 o)) m.

Definition snprintf (buffer n format : Z) (args : list Z) : C Z := vsnprintf buffer n format args.
Definition sprintf (buffer format : Z) (args : list Z) : C Z := vsnprintf buffer SIZE_MAX format args.
Definition vsprintf (buffer format : Z) (ap : list Z) : C Z := vsnprintf buffer SIZE_MAX format ap.

(** ** The text of an integer conversion *)

Definition digit_char (upper : bool) (d : Z) : Z :=
  if d <? 10 then 48 + d else (if upper then 55 else 87) + d.

(** The [r]-th character from the right of a number whose digits are grouped
    by [skip]: every [skip + 1]-th one is the mark [_]. *)
Definition number_char (upper : bool) (base skip val r : Z) : Z :=
  if r mod (skip + 1) =? skip then 95
  else digit_char upper ((val / base ^ (r - r / (skip + 1))) mod base).

Definition numeral (upper : bool) (base skip val len : Z) : list Z :=
  (λ k, number_char upper base skip val (len - 1 - k)) <$> seqZ 0 len.

(** The number of significant digits of [val < base ^ fuel]. *)
Fixpoint num_digits (fuel : nat) (base val : Z) : Z :=
  match fuel with
  | O => 0
  | S f => if val =? 0 then 0 else 1 + num_digits f base (val / base)
  end.

Definition int_minus (flags val : Z) : bool := has flags FL_SIGNED && (s64 val <? 0).
Definition int_mag (flags val : Z) : Z := if int_minus flags val then - s64 val else val.

Definition int_sign (flags val : Z) : list Z :=
  if int_minus flags val then [45] else if has flags FL_PLUS then [43]
  else if has flags FL_SPACE then [32] else [].

Definition int_prefix (flags base : Z) : list Z :=
  if has flags FL_HASH && (base =? 16) then [48; if has flags FL_UPPER then 88 else 120] else [].

(** The digits asked for: all significant ones, one at least, the precision,
    and with [#] a leading zero in octal. *)
Definition int_digits (flags base val prec : Z) : Z :=
  let nd := num_digits 64 base (int_mag flags val) in
  Z.max (Z.max nd (if has flags FL_HASH && (base =? 8) then Z.max prec (nd + 1) else prec)) 1.

Definition int_skip (flags base val prec : Z) : Z :=
  if has flags FL_TICK then if base =? 16 then 4 else 3 else int_digits flags base val prec.

Definition int_body (flags base val prec : Z) : list Z :=
  let d := int_digits flags base val prec in
  let skip := int_skip flags base val prec in
  numeral (has flags FL_UPPER) base skip (int_mag flags val) (d + (d - 1) / skip).

(** [justify flags width lead body]: [lead ++ body] in a field of [width]. *)
Definition justify (flags width : Z) (lead body : list Z) : list Z :=
  let k := Z.to_nat (width - Z.of_nat (length lead + length body)) in
  if has flags FL_MINUS then lead ++ body ++ replicate k 32
  else if has flags FL_ZERO then lead ++ replicate k 48 ++ body
  else replicate k 32 ++ lead ++ body.

Definition int_text (flags base val width prec : Z) : list Z :=
  justify flags width (int_sign flags val ++ int_prefix flags base) (int_body flags base val prec).

(** ** Emitting text *)

(** [emits n c t]: from a buffer position with [n - o] bytes left, [c] adds
    the text [t] to the output: it is counted in full, and stored as far as
    the buffer goes.  Only the bytes that are stored need to be mapped. *)
Definition emits (n : Z) (c : Z * Z → C (Z * Z)) (t : list Z) : Prop :=
  ∀ m q o, mapped m q (Z.min (n - o) (Z.of_nat (length t))) →
  0 <= o → o + Z.of_nat (length t) < 2 ^ 64 →
  ∃ q', c (q, o) m =
      Some ((q', o + Z.of_nat (length t)), mem_set m q (take (Z.to_nat (n - o)) t)) ∧
    (o + Z.of_nat (length t) < n → q' = q + Z.of_nat (length t)).

Lemma mem_set_take_app m q q' n o t1 t2 :
  (o + Z.of_nat (length t1) < n → q' = q + Z.of_nat (length t1)) →
  mem_set (mem_set m q (take (Z.to_nat (n - o)) t1)) q'
    (take (Z.to_nat (n - (o + Z.of_nat (length t1)))) t2) =
  mem_set m q (take (Z.to_nat (n - o)) (t1 ++ t2)).
Proof.
  intros Hq. destruct (decide (o + Z.of_nat (length t1) < n)) as [Hlt | Hge].
  - rewrite Hq by done. rewrite take_app, (take_ge t1) by lia.
    rewrite mem_set_app. do 2 f_equal. lia.
  - rewrite take_app. replace (Z.to_nat (n - (o + Z.of_nat (length t1)))) with 0%nat by lia.
    replace (Z.to_nat (n - o) - length t1)%nat with 0%nat by lia. by rewrite !take_0, app_nil_r.
Qed.

Lemma mapped_after m q q' n o k l bs :
  mapped m q (Z.min (n - o) (k + l)) → (o + k < n → q' = q + k) → 0 <= k →
  mapped (mem_set m q bs) q' (Z.min (n - (o + k)) l).
Proof.
  intros Hm Hq Hk. apply mapped_set. intros j Hj. rewrite Hq in Hj by lia. apply Hm. lia.
Qed.

Lemma mapped_min m q a k l : mapped m q (Z.min a k) → l <= k → mapped m q (Z.min a l).
Proof. intros Hm Hl j Hj. apply Hm. lia. Qed.

Lemma emits_ret n : emits n mret [].
Proof. intros m q o _ _ _. exists q. cbn [length]. rewrite !Z.add_0_r, take_nil. done. Qed.

Lemma emits_bind n c1 c2 t1 t2 :
  emits n c1 t1 → emits n c2 t2 → emits n (λ qo, c1 qo ≫= c2) (t1 ++ t2).
Proof.
  intros H1 H2 m q o Hm Ho Hl. rewrite length_app in *.
  destruct (H1 m q o) as (q1 & E1 & Hq1); [eapply mapped_min; [done | lia] | done | lia |]. erewrite bind_ok by exact E1.
  destruct (H2 (mem_set m q (take (Z.to_nat (n - o)) t1)) q1 (o + Z.of_nat (length t1)))
    as (q2 & E2 & Hq2); [eapply mapped_after; rewrite <- ?Nat2Z.inj_add; done || lia | lia | lia |].
  exists q2. rewrite E2, mem_set_take_app by done. split; [f_equal; f_equal; f_equal; lia |].
  intros. rewrite Hq2, Hq1 by lia. lia.
Qed.

Lemma emits_EMIT n x : emits n (EMIT n x) [u8 x].
Proof.
  intros m q o Hm Ho Hl. unfold EMIT. cbn [length] in *. destruct (Z.ltb_spec o n).
  - destruct (Hm q) as [b Hb]; [lia |]. run store8_ok. rewrite wrapu_small by (unfold in_u; lia).
    exists (q + 1). split; [| done]. by rewrite (take_ge [_]) by (simpl; lia).
  - rewrite wrapu_small by (unfold in_u; lia). exists q. split; [| lia].
    by replace (Z.to_nat (n - o)) with 0%nat by lia.
Qed.

Lemma emits_pad_loop x n w : ∀ fuel width nchars,
  Z.to_nat (width - nchars) = w → (w <= fuel)%nat →
  ∀ m q o, mapped m q (Z.min (n - o) (Z.of_nat w)) → 0 <= o → o + Z.of_nat w < 2 ^ 64 →
  ∃ q', pad_loop fuel n x width nchars (q, o) m =
      Some ((Z.min width nchars, (q', o + Z.of_nat w)),
            mem_set m q (take (Z.to_nat (n - o)) (replicate w (u8 x)))) ∧
    (o + Z.of_nat w < n → q' = q + Z.of_nat w).
Proof.
  induction w as [| w IH]; intros [| f] width nchars Hw Hf m q o Hm Ho Hl; try lia; cbn [pad_loop].
  1,2: rewrite (proj2 (Z.ltb_ge _ _)) by lia; exists q; cbn [replicate]; rewrite take_nil, !Z.add_0_r, Z.min_l by lia; done.
  rewrite (proj2 (Z.ltb_lt _ _)) by lia.
  destruct (emits_EMIT n x m q o) as (q1 & E1 & Hq1); [eapply mapped_min; [done | simpl; lia] | done | simpl; lia |].
  cbn [length] in *. change (Z.of_nat 1) with 1 in *. erewrite bind_ok by exact E1.
  destruct (IH f (width - 1) nchars ltac:(lia) ltac:(lia)
    (mem_set m q (take (Z.to_nat (n - o)) [u8 x])) q1 (o + 1)) as (q2 & E2 & Hq2);
    [eapply mapped_after; [| done | lia]; by replace (1 + Z.of_nat w) with (Z.of_nat (S w)) by lia | lia | lia |].
  exists q2. rewrite E2. split; [| intros; rewrite Hq2, Hq1 by lia; lia].
  replace (Z.min (width - 1) nchars) with (Z.min width nchars) by lia.
  pose proof (mem_set_take_app m q q1 n o [u8 x] (replicate w (u8 x))) as Happ.
  cbn [length] in Happ. change (Z.of_nat 1) with 1 in Happ. rewrite Happ by done. do 3 f_equal. f_equal. lia.
Qed.

Lemma emits_pad n x width nchars :
  ∀ m q o, mapped m q (Z.min (n - o) (Z.of_nat (Z.to_nat (width - nchars)))) → 0 <= o →
  o + Z.of_nat (Z.to_nat (width - nchars)) < 2 ^ 64 →
  ∃ q', pad n x width nchars (q, o) m =
      Some ((Z.min width nchars, (q', o + Z.of_nat (Z.to_nat (width - nchars)))),
            mem_set m q (take (Z.to_nat (n - o)) (replicate (Z.to_nat (width - nchars)) (u8 x)))) ∧
    (o + Z.of_nat (Z.to_nat (width - nchars)) < n → q' = q + Z.of_nat (Z.to_nat (width - nchars))).
Proof. apply emits_pad_loop; lia. Qed.

(** *** Generating the digits *)

Lemma length_numeral u base skip val len : 0 <= len → length (numeral u base skip val len) = Z.to_nat len.
Proof. intros. unfold numeral. by rewrite length_fmap, length_seqZ. Qed.

Lemma numeral_lookup u base skip val len (k : nat) :
  Z.of_nat k < len →
  numeral u base skip val len !! k = Some (number_char u base skip val (len - 1 - Z.of_nat k)).
Proof.
  intros. unfold numeral. rewrite list_lookup_fmap, lookup_seqZ_lt by lia. simpl. do 2 f_equal.
Qed.

Lemma digits_lookup (u : bool) d :
  0 <= d < 16 → (if u then ucdigits else lcdigits) !! Z.to_nat d = Some (digit_char u d).
Proof.
  intros. assert (d ∈ seqZ 0 16) as Hin by (apply elem_of_seqZ; lia). clear H.
  revert d Hin. apply Forall_forall. destruct u; by_eval.
Qed.

Lemma digit_char_byte u d : 0 <= d < 16 → in_u 8 (digit_char u d).
Proof. unfold digit_char, in_u. intros. destruct (Z.ltb_spec d 10), u; lia. Qed.

(** One guarded store of the digit loop, the [j]-th character of [cs]. *)
Lemma store_if_take n o a m cs (j : nat) c :
  mapped m a (Z.min (n - o) (Z.of_nat (length cs))) → cs !! j = Some c → in_u 8 c →
  ∃ m1, store_if n (o + Z.of_nat j) (a + Z.of_nat j) c m = Some (tt, m1) ∧
    mapped m1 a (Z.min (n - o) (Z.of_nat (length cs))) ∧
    mem_set m1 a (take (Z.to_nat (n - o)) (take j cs)) =
    mem_set m a (take (Z.to_nat (n - o)) (take (S j) cs)).
Proof.
  intros Hm Hc Hb. apply lookup_lt_Some in Hc as Hl.
  unfold store_if. destruct (Z.ltb_spec (o + Z.of_nat j) n).
  - destruct (Hm (a + Z.of_nat j)) as [b Hlk]; [lia |]. exists (<[a + Z.of_nat j := c]> m).
    split; [rewrite (store8_ok _ _ _ _ Hlk); by rewrite wrapu_small |].
    split; [by apply mapped_insert |].
    rewrite !take_take, !Nat.min_r, (take_S_r _ _ _ Hc), mem_set_snoc by lia.
    by rewrite length_take_le by lia.
  - exists m. split_and!; [done | done |]. by rewrite !take_take, !Nat.min_l by lia.
Qed.

Section number.
Context (u : bool) (base skip val len n o a : Z).
Context (Hbase : 2 <= base <= 16) (Hskip : 1 <= skip) (Hval : 0 <= val).
Context (Hlead : (len - 1) mod (skip + 1) ≠ skip).

Abbreviation cs := (numeral u base skip val len).
(** The state of the loop when [r] characters are done. *)
Abbreviation val_at r := (val / base ^ (r - r / (skip + 1))).
Abbreviation b4_at r := (skip - r mod (skip + 1)).

(** One more character: the position within the group, the group. *)
Lemma pos_step r :
  0 <= r →
  (r mod (skip + 1) = skip ∧ (r + 1) mod (skip + 1) = 0 ∧ (r + 1) / (skip + 1) = r / (skip + 1) + 1) ∨
  (r mod (skip + 1) < skip ∧ (r + 1) mod (skip + 1) = r mod (skip + 1) + 1 ∧
   (r + 1) / (skip + 1) = r / (skip + 1)).
Proof using Hskip.
  intros Hr. pose proof (Z.mod_pos_bound r (skip + 1) ltac:(lia)).
  pose proof (Z.div_mod r (skip + 1) ltac:(lia)) as E.
  destruct (decide (r mod (skip + 1) = skip)) as [Es | Hne]; [left | right].
  - split; [done |]. rewrite Es in E.
    assert (r + 1 = (r / (skip + 1) + 1) * (skip + 1)) as -> by lia.
    rewrite Z.mod_mul, Z.div_mul by lia. done.
  - split; [lia |]. assert (r + 1 = (r mod (skip + 1) + 1) + r / (skip + 1) * (skip + 1)) as E1 by lia.
    rewrite E1 at 1 2. rewrite Z_mod_plus_full, Z.mod_small, Z.div_add, (Z.div_small (_ + 1)) by lia. lia.
Qed.

Lemma val_step r : 0 <= r → r mod (skip + 1) < skip → val_at r / base = val_at (r + 1).
Proof using Hskip Hbase Hval.
  intros Hr Hne. destruct (pos_step r Hr) as [? | (_ & _ & ->)]; [lia |].
  pose proof (Z.div_le_upper_bound r (skip + 1) r ltac:(lia) ltac:(nia)).
  rewrite Z.div_div by (try apply Z.pow_pos_nonneg; lia). f_equal.
  rewrite Z.mul_comm, <- Z.pow_succ_r by lia. f_equal. lia.
Qed.

Lemma val_tick r : 0 <= r → r mod (skip + 1) = skip → val_at (r + 1) = val_at r.
Proof using Hskip Hbase.
  intros Hr He. destruct (pos_step r Hr) as [(_ & _ & ->) | ?]; [| lia]. do 2 f_equal. lia.
Qed.

Lemma char_tick r : r mod (skip + 1) = skip → number_char u base skip val r = 95.
Proof using Type. unfold number_char. intros ->. by rewrite Z.eqb_refl. Qed.

Lemma char_digit r :
  r mod (skip + 1) < skip → number_char u base skip val r = digit_char u (val_at r mod base).
Proof using Type. unfold number_char. intros. by rewrite (proj2 (Z.eqb_neq _ _)) by lia. Qed.

Lemma number_loop_spec fuel : ∀ (k : nat) m,
  (k <= fuel)%nat → Z.of_nat k <= len → mapped m a (Z.min (n - o) (Z.of_nat (length cs))) →
  let r := len - Z.of_nat k in
  number_loop fuel n (if u then ucdigits else lcdigits) base skip (Z.of_nat k) (b4_at r) (val_at r)
    (a + Z.of_nat k) (o + Z.of_nat k) m =
  Some (tt, mem_set m a (take (Z.to_nat (n - o)) (take k cs))).
Proof using Hbase Hskip Hval Hlead.
  induction fuel as [| f IH]; intros [| k] m Hf Hk Hm r; try lia; cbn [number_loop].
  1,2: by rewrite take_0, take_nil.
  rewrite (proj2 (Z.ltb_lt 0 _)) by lia. subst r.
  set (r := len - Z.of_nat (S k)). assert (0 <= r) as Hr by lia.
  pose proof (Z.mod_pos_bound r (skip + 1) ltac:(lia)) as Hmod.
  (* the digit after an optional mark *)
  assert (∀ (j : nat) m, Z.of_nat j < len → (j <= f)%nat → mapped m a (Z.min (n - o) (Z.of_nat (length cs))) →
    let r := len - Z.of_nat (S j) in r mod (skip + 1) < skip →
    (c ← lift ((if u then ucdigits else lcdigits) !! Z.to_nat (val_at r mod base));
     store_if n (o + Z.of_nat j) (a + Z.of_nat j) c;;
     number_loop f n (if u then ucdigits else lcdigits) base skip (Z.of_nat j) (b4_at r - 1)
       (val_at r / base) (a + Z.of_nat j) (o + Z.of_nat j)) m =
    Some (tt, mem_set m a (take (Z.to_nat (n - o)) (take (S j) cs)))) as Hdigit.
  { clear -IH Hbase Hskip Hval. intros j m Hj Hf Hm r Hd.
    pose proof (Z.mod_pos_bound (val_at r) base ltac:(lia)).
    erewrite bind_ok by (apply lift_ok, digits_lookup; lia).
    destruct (store_if_take n o a m cs j (digit_char u (val_at r mod base)))
      as (m1 & E1 & Hm1 & Hset);
      [done | rewrite numeral_lookup by lia; subst r; rewrite <- char_digit by done;
              do 2 f_equal; lia | apply digit_char_byte; lia |].
    erewrite bind_ok by exact E1. rewrite <- Hset.
    rewrite (val_step r) by (subst r; lia).
    assert (r + 1 = len - Z.of_nat j) as Er by lia.
    replace (b4_at r - 1) with (b4_at (r + 1)).
    - rewrite Er. apply IH; done || lia.
    - destruct (pos_step r ltac:(lia)) as [? | (_ & -> & _)]; lia. }
  destruct (Z.eqb_spec (b4_at r) 0) as [Eb | Eb].
  - assert (r mod (skip + 1) = skip) as Et by lia.
    destruct k as [| k]; [exfalso; apply Hlead; rewrite <- Et; subst r; f_equal; lia |].
    destruct (store_if_take n o a m cs (S k) 95) as (m1 & E1 & Hm1 & Hset);
      [done | rewrite numeral_lookup by lia; rewrite <- (char_tick r Et); subst r; do 2 f_equal; lia
      | unfold in_u; lia |].
    replace (o + Z.of_nat (S (S k)) - 1) with (o + Z.of_nat (S k)) by lia.
    replace (a + Z.of_nat (S (S k)) - 1) with (a + Z.of_nat (S k)) by lia.
    erewrite bind_ok by (erewrite bind_ok by exact E1; done). cbv beta iota.
    destruct (pos_step r Hr) as [(_ & Em & _) | ?]; [| lia].
    rewrite <- (val_tick r Hr Et). rewrite <- Hset.
    assert (r + 1 = len - Z.of_nat (S k)) as Er by lia. rewrite Er in *.
    rewrite <- (Hdigit k m1); [| lia.. | done | lia].
    replace (skip - 1) with (skip - (len - Z.of_nat (S k)) mod (skip + 1) - 1) by lia.
    replace (Z.of_nat (S (S k)) - 1 - 1) with (Z.of_nat k) by lia.
    replace (a + Z.of_nat (S k) - 1) with (a + Z.of_nat k) by lia.
    replace (o + Z.of_nat (S k) - 1) with (o + Z.of_nat k) by lia. done.
  - erewrite bind_ok by done. cbv beta iota.
    rewrite <- (Hdigit k m); [| lia.. | done | subst r; lia].
    replace (Z.of_nat (S k) - 1) with (Z.of_nat k) by lia.
    replace (a + Z.of_nat (S k) - 1) with (a + Z.of_nat k) by lia.
    replace (o + Z.of_nat (S k) - 1) with (o + Z.of_nat k) by lia. done.
Qed.
End number.

(** *** Counting digits *)

Lemma num_digits_bounds f : ∀ base val, 0 <= num_digits f base val <= Z.of_nat f.
Proof.
  induction f as [| f IH]; intros base val; cbn [num_digits]; [lia |].
  destruct (val =? 0); [lia |]. specialize (IH base (val / base)). lia.
Qed.

Lemma num_digits_upper f : ∀ base val,
  2 <= base → 0 <= val < base ^ Z.of_nat f → val < base ^ num_digits f base val.
Proof.
  induction f as [| f IH]; intros base val Hb Hv; cbn [num_digits]; [apply Hv |].
  destruct (Z.eqb_spec val 0) as [-> |]; [done |].
  rewrite Nat2Z.inj_succ, Z.pow_succ_r in Hv by lia.
  assert (0 <= val / base < base ^ Z.of_nat f) as Hq.
  { split; [apply Z.div_pos; lia | apply Z.div_lt_upper_bound; lia]. }
  specialize (IH base (val / base) Hb Hq). pose proof (num_digits_bounds f base (val / base)).
  rewrite Z.add_comm, Z.pow_add_r, Z.pow_1_r by lia.
  pose proof (Z.div_mod val base ltac:(lia)). pose proof (Z.mod_pos_bound val base ltac:(lia)). nia.
Qed.

Lemma num_digits_zero f base val : num_digits (S f) base val = 0 ↔ val = 0.
Proof.
  cbn [num_digits]. destruct (Z.eqb_spec val 0); [done |].
  pose proof (num_digits_bounds f base (val / base)). lia.
Qed.

Lemma count_digits_spec f : ∀ base val d (m : mem),
  2 <= base → 0 <= val < base ^ Z.of_nat f →
  count_digits f base val d m = Some (d + num_digits f base val, m).
Proof.
  induction f as [| f IH]; intros base val d m Hb Hv; cbn [num_digits count_digits].
  - change (base ^ Z.of_nat 0) with 1 in Hv. assert (val = 0) as -> by lia. simpl. by rewrite Z.add_0_r.
  - destruct (Z.eqb_spec val 0) as [-> |]; [by rewrite Z.add_0_r |].
    rewrite Nat2Z.inj_succ, Z.pow_succ_r in Hv by lia. rewrite IH; [do 2 f_equal; lia | done |].
    split; [apply Z.div_pos; lia | apply Z.div_lt_upper_bound; lia].
Qed.

Lemma u64_pow base val : 2 <= base → in_u 64 val → 0 <= val < base ^ Z.of_nat 64.
Proof. unfold in_u. intros Hb Hv. pose proof (Z.pow_le_mono_l 2 base 64). change (Z.of_nat 64) with 64. lia. Qed.

(** *** Flags *)

Lemma has_lor f a b : has f (Z.lor a b) = has f a || has f b.
Proof.
  unfold has. rewrite Z.land_lor_distr_r.
  destruct (Z.eqb_spec (Z.land f a) 0) as [-> |], (Z.eqb_spec (Z.land f b) 0) as [-> |]; cbn [negb orb];
    rewrite ?Z.lor_0_l; try done; apply negb_true_iff, Z.eqb_neq; rewrite ?Z.lor_eq_0_iff; naive_solver.
Qed.

Lemma land_pow2 f k : 0 <= k → Z.land f (2 ^ k) = if Z.testbit f k then 2 ^ k else 0.
Proof.
  intros Hk. apply Z.bits_inj'. intros j Hj. rewrite Z.land_spec, Z.pow2_bits_eqb by done.
  destruct (Z.eqb_spec k j) as [<- |].
  - destruct (Z.testbit f k); [by rewrite Z.pow2_bits_true | by rewrite Z.bits_0].
  - rewrite andb_false_r. destruct (Z.testbit f k); [by rewrite Z.pow2_bits_false | by rewrite Z.bits_0].
Qed.

Lemma only_zero f :
  (Z.land f (Z.lor FL_MINUS FL_ZERO) =? FL_ZERO) = negb (has f FL_MINUS) && has f FL_ZERO.
Proof.
  unfold has. rewrite Z.land_lor_distr_r.
  change FL_MINUS with (2 ^ 1). change FL_ZERO with (2 ^ 0). rewrite !land_pow2 by lia.
  by destruct (Z.testbit f 1), (Z.testbit f 0).
Qed.

(** *** [format_int] *)

Lemma emits_lead flags n val base :
  emits n (λ qo, qo ← (if int_minus flags val then EMIT n 45 qo
        else if has flags FL_PLUS then EMIT n 43 qo
        else if has flags FL_SPACE then EMIT n 32 qo else mret qo);
      (if has flags FL_HASH && (base =? 16) then
         qo ← EMIT n 48 qo; EMIT n (if has flags FL_UPPER then 88 else 120) qo
       else mret qo)) (int_sign flags val ++ int_prefix flags base).
Proof.
  apply (emits_bind n (λ qo, if int_minus flags val then EMIT n 45 qo
        else if has flags FL_PLUS then EMIT n 43 qo
        else if has flags FL_SPACE then EMIT n 32 qo else mret qo)).
  - unfold int_sign. repeat case_if; apply (emits_EMIT n) || apply emits_ret.
  - unfold int_prefix. case_if; [| apply emits_ret].
    apply (emits_bind n (EMIT n 48) _ [48]); [apply (emits_EMIT n 48) |].
    case_if; [apply (emits_EMIT n 88) | apply (emits_EMIT n 120)].
Qed.

Lemma int_mag_range flags val : in_u 64 val → in_u 64 (int_mag flags val).
Proof.
  unfold int_mag, int_minus. intros Hv. pose proof (wraps_range 64 ltac:(lia) val) as Hs.
  destruct (has flags FL_SIGNED); [| done]. cbn [andb]. destruct (Z.ltb_spec (s64 val) 0); [| done].
  unfold in_u, in_s in *. change (2 ^ (64 - 1)) with 9223372036854775808 in Hs. lia.
Qed.

Lemma int_mag_code flags val :
  in_u 64 val → (if int_minus flags val then u64 (- s64 val) else val) = int_mag flags val.
Proof.
  intros Hv. pose proof (int_mag_range flags val Hv) as Hr. unfold int_mag in *.
  destruct (int_minus flags val); [| done]. by apply wrapu_small.
Qed.

Lemma int_digits_code flags base val prec nd :
  in_u 64 val → nd = num_digits 64 base (int_mag flags val) →
  (let prec := if has flags FL_HASH && (base =? 8) then if prec <? nd + 1 then nd + 1 else prec else prec in
   if nd <? prec then prec else if int_mag flags val =? 0 then 1 else nd) = int_digits flags base val prec.
Proof.
  intros Hv ->. unfold int_digits. cbv zeta. set (v := int_mag flags val) in *.
  set (nd := num_digits 64 base v). pose proof (num_digits_bounds 64 base v).
  pose proof (num_digits_zero 63 base v) as Hz. fold nd in Hz.
  destruct (has flags FL_HASH && (base =? 8)); [destruct (Z.ltb_spec prec (nd + 1)) |];
    case_if; rewrite ?Z.ltb_lt, ?Z.ltb_ge in *; try lia;
    destruct (Z.eqb_spec v 0) as [E | E]; try apply Hz in E; try lia.
Qed.

Lemma int_skip_pos flags base val prec : 1 <= int_skip flags base val prec.
Proof. unfold int_skip, int_digits. repeat case_if; lia. Qed.

(** The leftmost character of a number is never a group mark. *)
Lemma lead_digit d skip : 1 <= d → 1 <= skip → (d + (d - 1) / skip - 1) mod (skip + 1) ≠ skip.
Proof.
  intros Hd Hs. pose proof (Z.div_mod (d - 1) skip ltac:(lia)) as E.
  pose proof (Z.mod_pos_bound (d - 1) skip ltac:(lia)).
  replace (d + (d - 1) / skip - 1) with ((d - 1) mod skip + (d - 1) / skip * (skip + 1)) by lia.
  rewrite Z_mod_plus_full, Z.mod_small by lia. lia.
Qed.

Lemma length_int_body flags base val prec :
  Z.of_nat (length (int_body flags base val prec)) =
    let d := int_digits flags base val prec in d + (d - 1) / int_skip flags base val prec.
Proof.
  unfold int_body. cbv zeta. pose proof (int_skip_pos flags base val prec).
  assert (1 <= int_digits flags base val prec) by (unfold int_digits; lia).
  pose proof (Z.div_pos (int_digits flags base val prec - 1) (int_skip flags base val prec)).
  rewrite length_numeral; lia.
Qed.

Lemma length_justify flags width lead body :
  Z.of_nat (length (justify flags width lead body)) =
    Z.max width (Z.of_nat (length lead + length body)).
Proof.
  unfold justify. repeat case_if; rewrite !length_app, length_replicate; lia.
Qed.

Lemma ck32_ok z (m : mem) : 0 <= z < 2 ^ 31 → ck32 z m = Some (z, m).
Proof. intros. unfold ck32. rewrite bool_decide_eq_true_2; [done |]. unfold in_s. simpl. lia. Qed.

Lemma length_lead flags base val :
  Z.of_nat (length (int_sign flags val ++ int_prefix flags base)) =
    (if int_minus flags val || has flags (Z.lor FL_PLUS FL_SPACE) then 1 else 0) +
    (if has flags FL_HASH && (base =? 16) then 2 else 0).
Proof.
  rewrite has_lor. unfold int_sign, int_prefix.
  destruct (int_minus flags val), (has flags FL_PLUS), (has flags FL_SPACE), (has flags FL_HASH && (base =? 16)); done.
Qed.

(** The size computations at the head of [format_int]. *)
Lemma nchars_code flags base val prec (m : mem) :
  let nd := Z.of_nat (length (int_body flags base val prec)) in
  let nc := Z.of_nat (length (int_sign flags val ++ int_prefix flags base)) + nd in
  0 <= nc < 2 ^ 31 →
  (nchars ← (if int_minus flags val || has flags (Z.lor FL_PLUS FL_SPACE) then ck32 (nd + 1) else mret nd);
   (if has flags FL_HASH && (base =? 16) then ck32 (nchars + 2) else mret nchars)) m = Some (nc, m).
Proof.
  intros nd nc. unfold nc. rewrite length_lead. intros Hr.
  destruct (int_minus flags val || has flags (Z.lor FL_PLUS FL_SPACE));
    [erewrite bind_ok by (apply ck32_ok; case_if; lia) | erewrite bind_ok by done];
    case_if; try rewrite ck32_ok by lia; unfold mret, st_ret; do 2 f_equal; lia.
Qed.

Lemma bind_assoc {S A B D} (c : st S A) (f : A → st S B) (g : B → st S D) s :
  (x ← c; y ← f x; g y) s = (y ← (x ← c; f x); g y) s.
Proof. unfold mbind, st_bind. by destruct (c s) as [[] |]. Qed.

(** The commands of [format_int] that write, as emitters. *)
Lemma emits_spaces n x width nchars :
  0 <= x < 256 →
  emits n (λ qo, '(_, qo) ← pad n x width nchars qo; mret qo) (replicate (Z.to_nat (width - nchars)) x).
Proof.
  intros Hx m q o Hm Ho Hl. rewrite length_replicate in *.
  destruct (emits_pad n x width nchars m q o) as (q' & E & Hq); [done.. |].
  exists q'. erewrite bind_ok by exact E. by rewrite (wrapu_small 8 x).
Qed.

Lemma emits_number flags base val prec n :
  2 <= base <= 16 → in_u 64 val →
  let body := int_body flags base val prec in
  let nd := Z.of_nat (length body) in
  let skip := int_skip flags base val prec in
  emits n (λ '(q, o), number_loop (Z.to_nat nd) n (if has flags FL_UPPER then ucdigits else lcdigits)
      base skip nd skip (int_mag flags val) (q + nd) (u64 (o + nd));; mret (q + nd, u64 (o + nd))) body.
Proof.
  intros Hb Hv body nd skip m q o Hm Ho Hlen.
  pose proof (int_skip_pos flags base val prec) as Hs. fold skip in Hs.
  assert (1 <= int_digits flags base val prec) as Hd by (unfold int_digits; lia).
  pose proof (length_int_body flags base val prec) as Hl. cbv zeta in Hl. fold body skip nd in Hl.
  pose proof (number_loop_spec (has flags FL_UPPER) base skip (int_mag flags val) nd n o q Hb Hs
    (proj1 (int_mag_range flags val Hv)) ltac:(rewrite Hl; by apply lead_digit)
    (Z.to_nat nd) (length body) m ltac:(lia) ltac:(lia)
    ltac:(rewrite length_numeral by lia; unfold nd; by rewrite Nat2Z.id)) as E. cbv zeta in E. fold nd in E, Hlen.
  rewrite Z.sub_diag, Zmod_0_l, Zdiv_0_l, !Z.sub_0_r, Z.pow_0_r, Z.div_1_r in E.
  fold nd. rewrite wrapu_small by (unfold in_u; lia). exists (q + nd). erewrite bind_ok by exact E.
  split; [| done]. rewrite (take_ge (numeral _ _ _ _ _)) by (rewrite length_numeral; lia).
  unfold body, int_body. cbv zeta. fold skip. by rewrite <- Hl.
Qed.

(** Two computations that run the same commands in the same order. *)
Ltac same_runs :=
  cbv beta iota zeta delta [mbind st_bind mret st_ret];
  repeat (match goal with
          | |- context [match ?x with Some _ => _ | None => _ end] =>
              lazymatch x with
              | context [match _ with _ => _ end] => fail
              | _ => destruct x as [[? ?] |]
              end
          | |- context [match ?x with (_, _) => _ end] => is_var x; destruct x
          | |- context [match ?x with Some _ => _ | None => _ end] =>
              lazymatch x with
              | context [match _ with Some _ => _ | None => _ end] => fail
              | _ => destruct x as [[? ?] |]
              end
          end; cbv beta iota; try reflexivity).

(** Lead, body and padding in the order the flags ask for. *)
Lemma layout_emits n flags width lead body (cl cb : Z * Z → C (Z * Z)) (nd : Z) q m :
  emits n cl lead → emits n cb body → nd = Z.of_nat (length body) →
  let nc := Z.of_nat (length lead + length body) in
  let t := justify flags width lead body in
  mapped m q (Z.min n (Z.of_nat (length t))) →
  Z.of_nat (length t) < 2 ^ 64 →
  ('(width, qo) ← (if negb (has flags FL_MINUS || has flags FL_ZERO) && (nc <? width)
                   then pad n 32 width nc (q, 0) else mret (width, (q, 0)));
   qo ← cl qo;
   '(width, qo) ← (if negb (has flags FL_MINUS) && has flags FL_ZERO && (nd <? width)
                   then pad n 48 width nc qo else mret (width, qo));
   qo ← cb qo;
   '(_, (_, o)) ← (if has flags FL_MINUS then pad n 32 width nc qo else mret (width, qo));
   mret o) m = Some (Z.of_nat (length t), mem_set m q (take (Z.to_nat n) t)).
Proof.
  intros Hl Hb -> nc t Hm Ht.
  assert (∀ c u, emits n c u → u = t → (qo ← c (q, 0); mret (snd qo)) m =
    Some (Z.of_nat (length t), mem_set m q (take (Z.to_nat n) t))) as Hrun.
  { intros c ? Hc ->. destruct (Hc m q 0) as (q' & E & _); [by rewrite Z.sub_0_r | done | lia |].
    erewrite bind_ok by exact E. by rewrite Z.sub_0_r. }
  pose proof (emits_spaces n 32 width nc ltac:(lia)) as Hsp.
  pose proof (emits_spaces n 48 width nc ltac:(lia)) as Hze.
  subst t. unfold justify in *. fold nc in Hrun |- *. destruct (has flags FL_MINUS); [| destruct (has flags FL_ZERO)]; cbn [negb orb andb].
  - rewrite <- (Hrun _ _ (emits_bind _ _ _ _ _ Hl (emits_bind _ _ _ _ _ Hb Hsp)) eq_refl).
    same_runs.
  - change (mret (width, (q, 0)) : C _) with (λ m : mem, Some ((width, (q, 0)), m)).
    cbv beta iota delta [mbind st_bind]. destruct (Z.ltb_spec (Z.of_nat (length body)) width).
    + rewrite <- (Hrun _ _ (emits_bind _ _ _ _ _ Hl (emits_bind _ _ _ _ _ Hze Hb)) eq_refl).
      same_runs.
    + replace (Z.to_nat (width - nc)) with 0%nat in Hrun |- * by lia.
      rewrite <- (Hrun _ _ (emits_bind _ _ _ _ _ Hl Hb) eq_refl).
      same_runs.
  - destruct (Z.ltb_spec nc width).
    + rewrite <- (Hrun _ _ (emits_bind _ _ _ _ _ Hsp (emits_bind _ _ _ _ _ Hl Hb)) eq_refl).
      same_runs.
    + replace (Z.to_nat (width - nc)) with 0%nat in Hrun |- * by lia.
      rewrite <- (Hrun _ _ (emits_bind _ _ _ _ _ Hl Hb) eq_refl).
      same_runs.
Qed.

(** [format_int] stores the prefix of the conversion's text that
    fits in the [n] bytes it is given and returns the length of the whole
    text: sign, [0x] prefix, precision, grouping and the three ways to pad to
    the field width, for every flag combination. *)
Theorem format_int_correct q n val flags base width prec m :
  0 <= n → in_u 64 val → 2 <= base <= 16 →
  let t := int_text flags base val width prec in
  mapped m q (Z.min n (Z.of_nat (length t))) →
  Z.of_nat (length t) < 2 ^ 31 →
  format_int q n val flags base width prec m =
    Some (Z.of_nat (length t), mem_set m q (take (Z.to_nat n) t)).
Proof.
  intros Hn Hv Hb t Hm Hlen. unfold t, int_text in *.
  set (lead := int_sign flags val ++ int_prefix flags base) in *.
  set (body := int_body flags base val prec) in *.
  pose proof (length_justify flags width lead body) as Hj.
  pose proof (length_int_body flags base val prec) as Hl. cbv zeta in Hl. fold body in Hl.
  pose proof (int_skip_pos flags base val prec) as Hs.
  assert (1 <= int_digits flags base val prec) as Hd by (unfold int_digits; lia).
  unfold format_int. fold (int_minus flags val). cbv zeta. rewrite int_mag_code by done.
  erewrite bind_ok by (apply count_digits_spec; [lia | apply u64_pow; [lia | by apply int_mag_range]]).
  cbv beta. rewrite Z.add_0_l.
  pose proof (int_digits_code flags base val prec _ Hv eq_refl) as Hcode. cbv zeta in Hcode. rewrite Hcode.
  fold (int_skip flags base val prec). rewrite Z.quot_div_nonneg by lia. rewrite <- Hl.
  erewrite bind_ok by (apply ck32_ok; lia). cbv beta.
  rewrite bind_assoc. erewrite bind_ok by (apply nchars_code; fold lead body; lia).
  fold lead body. cbv beta. rewrite <- Nat2Z.inj_add. rewrite has_lor, only_zero.
  rewrite <- (layout_emits n flags width lead body _ _ _ q m (emits_lead flags n val base)
    (emits_number flags base val prec n Hb Hv) eq_refl Hm ltac:(lia)).
  fold lead body. same_runs; destruct (has flags FL_HASH && (base =? 16)); same_runs.
Qed.

(** ** The text a format denotes *)

Definition flag_of (b : Z) : option Z :=
  if b =? 45 then Some FL_MINUS else if b =? 43 then Some FL_PLUS
  else if b =? 39 then Some FL_TICK else if b =? 32 then Some FL_SPACE
  else if b =? 35 then Some FL_HASH else if b =? 48 then Some FL_ZERO else None.

Fixpoint take_flags (f : Z) (s : list Z) : Z * list Z :=
  match s with
  | b :: s' => match flag_of b with Some x => take_flags (Z.lor f x) s' | None => (f, s) end
  | [] => (f, [])
  end.

Definition is_digit (b : Z) : bool := (48 <=? b) && (b <=? 57).

(** Field width: digits, or [*] for an argument whose sign is the [-] flag. *)
Fixpoint take_width (f w : Z) (ap s : list Z) : option (Z * Z * list Z * list Z) :=
  match s with
  | b :: s' =>
      if is_digit b then
        if bool_decide (in_s 32 (w * 10 + (b - 48))) then take_width f (w * 10 + (b - 48)) ap s' else None
      else if b =? 42 then
        match ap with
        | v :: ap =>
            if s32 v <? 0 then
              if bool_decide (in_s 32 (- s32 v)) then take_width (Z.lor f FL_MINUS) (- s32 v) ap s' else None
            else take_width f (s32 v) ap s'
        | [] => None
        end
      else Some (f, w, ap, s)
  | [] => Some (f, w, ap, [])
  end.

Fixpoint take_prec (p : Z) (ap s : list Z) : option (Z * list Z * list Z) :=
  match s with
  | b :: s' =>
      if is_digit b then
        if bool_decide (in_s 32 (p * 10 + (b - 48))) then take_prec (p * 10 + (b - 48)) ap s' else None
      else if b =? 42 then
        match ap with
        | v :: ap => take_prec (if s32 v <? 0 then -1 else s32 v) ap s'
        | [] => None
        end
      else Some (p, ap, s)
  | [] => Some (p, ap, [])
  end.

Definition rank_of (r b : Z) : option Z :=
  if b =? 104 then Some (r - 1) else if b =? 108 then Some (r + 1)
  else if b =? 106 then Some INTMAX_RANK else if b =? 122 then Some SIZE_T_RANK
  else if b =? 116 then Some PTRDIFF_T_RANK
  else if (b =? 76) || (b =? 113) then Some (r + 2) else None.

Fixpoint take_mods (r : Z) (s : list Z) : Z * list Z :=
  match s with
  | b :: s' => match rank_of r b with Some r' => take_mods r' s' | None => (r, s) end
  | [] => (r, [])
  end.

Definition clamp_rank (r : Z) : Z := Z.max (-2) (Z.min r 2).

Definition string_text (f w p : Z) (bs : list Z) : option (list Z) :=
  if p <? -1 then None
  else Some (justify f w [] (if p =? -1 then bs else take (Z.to_nat p) bs)).

(** The text of one conversion and the arguments it leaves.  [strs] gives the
    strings that pointer arguments point to.  [%n] writes no text but memory,
    and is left out. *)
Definition conv_text (strs : Z → option (list Z)) (c f w p r : Z) (ap : list Z) : option (list Z * list Z) :=
  let r := clamp_rank r in
  let unsigned base f :=
    match ap with v :: ap => Some (int_text f base (unsigned_arg r v) w p, ap) | [] => None end in
  if (c =? 80) || (c =? 112) then
    match ap with
    | v :: ap =>
        let f := if c =? 80 then Z.lor f FL_UPPER else f in
        Some (int_text (Z.lor f FL_HASH) 16 (u64 v) w 16, ap)
    | [] => None
    end
  else if (c =? 100) || (c =? 105) then
    match ap with
    | v :: ap => Some (int_text (Z.lor f FL_SIGNED) 10 (signed_arg r v) w p, ap)
    | [] => None
    end
  else if c =? 111 then unsigned 8 f
  else if c =? 117 then unsigned 10 f
  else if c =? 88 then unsigned 16 (Z.lor f FL_UPPER)
  else if c =? 120 then unsigned 16 f
  else if c =? 99 then
    match ap with
    | v :: ap => match string_text f w p [u8 v] with Some t => Some (t, ap) | None => None end
    | [] => None
    end
  else if c =? 115 then
    match ap with
    | v :: ap =>
        match (if v =? NULL then Some null_text else strs v) with
        | Some bs => match string_text f w p bs with Some t => Some (t, ap) | None => None end
        | None => None
        end
    | [] => None
    end
  else if c =? 110 then None
  else Some ([c], ap).

(** A directive after its [%]: flags, width, precision, rank; then what is
    left of the arguments and of the format. *)
Definition directive (s ap : list Z) : option (Z * Z * Z * Z * list Z * list Z) :=
  let '(f, s) := take_flags 0 s in
  '(f, w, ap, s) ← take_width f 0 ap s;
  '(p, ap, s) ← (match s with
                 | b :: s' => if b =? 46 then take_prec 0 ap s' else Some (-1, ap, s)
                 | [] => Some (-1, ap, s)
                 end);
  let '(r, s) := take_mods rank_int s in
  Some (f, w, p, r, ap, s).

(** [fuel] bounds the directives and characters; the length of the format is
    enough. *)
Fixpoint render (fuel : nat) (strs : Z → option (list Z)) (s ap : list Z) : option (list Z) :=
  match s, fuel with
  | [], _ => Some []
  | _ :: _, O => None
  | b :: s, S fuel =>
      if b =? 37 then
        '(f, w, p, r, ap, s) ← directive s ap;
        match s with
        | [] => Some []
        | c :: s =>
            '(t, ap) ← conv_text strs c f w p r ap;
            (t ++.) <$> render fuel strs s ap
        end
      else (b ::.) <$> render fuel strs s ap
  end.

(** ** The state machine produces the text *)

Section machine.
Context (strs : Z → option (list Z)) (m0 : mem) (B n L : Z).
Context (Hmap : mapped m0 B (Z.min n L)) (HL : 0 <= L < 2 ^ 31) (Hn : 0 <= n).

(** [wrote t m qo]: the output so far is [t], in memory and in the counters. *)
Definition wrote (t : list Z) (m : mem) (qo : Z * Z) : Prop :=
  m = mem_set m0 B (take (Z.to_nat n) t) ∧ snd qo = Z.of_nat (length t) ∧
  (Z.of_nat (length t) < n → fst qo = B + Z.of_nat (length t)).

(** [l] bytes at [a] that the output does not overwrite. *)
Definition away (a l : Z) : Prop := a + l <= B ∨ B + Z.min n L <= a.

Definition outputs (c : Z * Z → C (Z * Z)) (t' : list Z) : Prop :=
  ∀ t m qo, wrote t m qo → Z.of_nat (length t + length t') <= L →
  ∃ m' qo', c qo m = Some (qo', m') ∧ wrote (t ++ t') m' qo'.

Context (Hstrs : ∀ v bs, strs v = Some bs →
  cstr m0 v bs ∧ bytes bs ∧ away v (Z.of_nat (length bs) + 1) ∧ Z.of_nat (length bs) < 2 ^ 31).

Lemma wrote_mapped t m q o (t' : list Z) :
  wrote t m (q, o) → Z.of_nat (length t + length t') <= L →
  mapped m q (Z.min (n - o) (Z.of_nat (length t'))).
Proof using All.
  intros (-> & Ho & Hq) Hl. cbn [fst snd] in *. apply mapped_set. intros j Hj.
  rewrite Hq in Hj by lia. apply Hmap. lia.
Qed.

Lemma wrote_app t m q o (t' : list Z) q' :
  wrote t m (q, o) → (o + Z.of_nat (length t') < n → q' = q + Z.of_nat (length t')) →
  wrote (t ++ t') (mem_set m q (take (Z.to_nat (n - o)) t')) (q', o + Z.of_nat (length t')).
Proof using All.
  intros (-> & Ho & Hq) Hq'. cbn [fst snd] in *. unfold wrote. rewrite length_app. cbn [fst snd].
  split_and!; [| lia | intros; rewrite Hq', Hq by lia; lia].
  rewrite <- (Z.sub_0_r n) at 1 3. rewrite <- mem_set_take_app with (q' := q); [by rewrite Ho |].
  rewrite Z.add_0_l. done.
Qed.

Lemma emits_outputs c t' : emits n c t' → outputs c t'.
Proof using All.
  intros He t m [q o] Hw Hl. pose proof Hw as (_ & Ho & _). cbn [snd] in Ho.
  destruct (He m q o) as (q' & E & Hq'); [by eapply wrote_mapped | lia | lia |].
  eexists _, _. split; [exact E |]. by apply wrote_app.
Qed.

Lemma wrote_outside t m qo a l :
  wrote t m qo → Z.of_nat (length t) <= L → away a l → ∀ k, a <= k < a + l → m !! k = m0 !! k.
Proof using All.
  intros (-> & _ & _) Hl Ha k Hk. apply mem_set_outside. rewrite length_take. unfold away in Ha. lia.
Qed.

Lemma mem_at_frame t m qo a bs :
  wrote t m qo → Z.of_nat (length t) <= L → away a (Z.of_nat (length bs)) →
  mem_at m0 a bs → mem_at m a bs.
Proof using All.
  intros Hw Hl Ha Hbs i b Hi. rewrite (wrote_outside t m qo a (Z.of_nat (length bs))); auto.
  apply lookup_lt_Some in Hi. lia.
Qed.

Lemma cstr_frame t m qo a s :
  wrote t m qo → Z.of_nat (length t) <= L → away a (Z.of_nat (length s) + 1) →
  cstr m0 a s → cstr m a s.
Proof using All.
  intros Hw Hl Ha [Hs Hnz]. split; [| done]. eapply mem_at_frame; [done.. | | done].
  rewrite length_app. simpl. by rewrite Nat2Z.inj_add.
Qed.

(** *** Strings *)

Definition source_ok (src : text_source) (bs : list Z) : Prop :=
  ∀ i b, bs !! i = Some b → ∀ t m qo, wrote t m qo → Z.of_nat (length t) <= L →
  source_byte src i m = Some (b, m).

Lemma copy_loop_outputs src bs j : ∀ k,
  source_ok src bs → bytes bs → (k + j <= length bs)%nat →
  outputs (copy_loop j n src k (Z.of_nat j)) (take j (drop k bs)).
Proof using All.
  induction j as [| j IH]; intros k Hsrc Hb Hk t m qo Hw Hl; cbn [copy_loop].
  { exists m, qo. rewrite take_0, app_nil_r. done. }
  rewrite (proj2 (Z.eqb_neq _ 0)) by lia.
  destruct (lookup_lt_is_Some_2 bs k) as [b Hbk]; [lia |].
  rewrite (drop_S _ _ _ Hbk) in *. cbn [take length] in *.
  erewrite bind_ok by (eapply Hsrc; [done | done | lia]).
  assert (in_u 8 b) as Hbb by (by eapply Forall_lookup_1 in Hb).
  pose proof (emits_EMIT n b) as He. rewrite wrapu_small in He by done.
  destruct (emits_outputs _ _ He t m qo Hw) as (m1 & qo1 & E1 & Hw1); [simpl; lia |].
  erewrite bind_ok by exact E1. replace (Z.of_nat (S j) - 1) with (Z.of_nat j) by lia.
  destruct (IH (S k) Hsrc Hb ltac:(lia) _ m1 qo1 Hw1) as (m2 & qo2 & E2 & Hw2);
    [rewrite length_app; simpl; lia |].
  exists m2, qo2. split; [exact E2 |]. by rewrite <- app_assoc in Hw2.
Qed.

Lemma pad_if_outputs (b : bool) x w k :
  0 <= x < 256 → (b = false → w <= k) → ∀ t m qo, wrote t m qo →
  let t' := replicate (Z.to_nat (w - k)) x in Z.of_nat (length t + length t') <= L →
  ∃ w' m' qo', (if b then pad n x w k qo else mret (w, qo)) m = Some ((w', qo'), m') ∧
    wrote (t ++ t') m' qo' ∧ (b = false → w' = w).
Proof using All.
  intros Hx Hb t m [q o] Hw t' Hl. destruct b.
  - destruct (emits_outputs _ _ (emits_spaces n x w k Hx) t m (q, o) Hw Hl) as (m' & qo' & E & Hw').
    apply bind_inv in E as ([w' qo1] & m1 & E & E1). injection E1 as -> ->.
    exists w', m', qo'. done.
  - exists w, m, (q, o). unfold t'. replace (Z.to_nat (w - k)) with 0%nat by lia.
    cbn [replicate]. rewrite app_nil_r. done.
Qed.

Lemma is_string_spec src bs s t' t m :
  source_ok src bs → bytes bs → Z.of_nat (length bs) < 2 ^ 31 →
  string_text (flags s) (width s) (prec s) bs = Some t' →
  wrote t m (out s) → Z.of_nat (length t + length t') <= L →
  ∃ s' m', is_string n src (Z.of_nat (length bs)) s m = Some (s', m') ∧
    wrote (t ++ t') m' (out s') ∧ state s' = state s ∧ ap s' = ap s.
Proof using All.
  unfold string_text. destruct (Z.ltb_spec (prec s) (-1)) as [| Hp]; [done |].
  intros Hsrc Hb Hlen [= <-] Hw Hl. set (bs' := if prec s =? -1 then bs else take (Z.to_nat (prec s)) bs) in *.
  unfold is_string. cbv zeta. set (slen := if negb (prec s =? -1) && (prec s <? Z.of_nat (length bs))
    then prec s else Z.of_nat (length bs)).
  assert (slen = Z.of_nat (length bs') ∧ bs' = take (length bs') bs) as [-> Hbs'].
  { unfold slen, bs'. destruct (Z.eqb_spec (prec s) (-1)); cbn [negb andb]; [by rewrite take_ge |].
    destruct (Z.ltb_spec (prec s) (Z.of_nat (length bs))).
    - rewrite length_take. split; [lia |]. f_equal. lia.
    - rewrite (take_ge bs (Z.to_nat (prec s))) by lia. by rewrite take_ge. }
  pose proof (copy_loop_outputs src bs (length bs') 0 Hsrc Hb) as Hcopy.
  rewrite drop_0, <- Hbs' in Hcopy. rewrite Nat2Z.id.
  assert (0 + length bs' <= length bs)%nat as Hle by (rewrite Hbs', length_take; lia).
  specialize (Hcopy Hle). clearbody bs'. clear Hbs'. unfold justify in *.
  destruct (has (flags s) FL_MINUS) eqn:Hm; cbn [negb].
  - rewrite andb_false_r. erewrite bind_ok by done. cbv beta iota. cbn [app length Nat.add] in *.
    rewrite length_app in Hl.
    destruct (Hcopy t m (out s) Hw) as (m1 & qo1 & E1 & Hw1); [lia |]. erewrite bind_ok by exact E1.
    cbv beta. rewrite andb_true_r.
    destruct (pad_if_outputs (Z.of_nat (length bs') <? width s) 32 (width s) (Z.of_nat (length bs'))
      ltac:(lia) ltac:(lia) _ m1 qo1 Hw1) as (w2 & m2 & qo2 & E2 & Hw2 & _); [rewrite length_app; lia |].
    erewrite bind_ok by exact E2. eexists _, m2. split; [done |]. split; [by rewrite app_assoc | done].
  - cbn [app length Nat.add] in *. rewrite andb_true_r.
    set (x := if has (flags s) FL_ZERO then 48 else 32).
    set (sp := replicate (Z.to_nat (width s - Z.of_nat (length bs'))) x).
    assert ((if has (flags s) FL_ZERO then replicate (Z.to_nat (width s - Z.of_nat (length bs'))) 48 ++ bs'
      else replicate (Z.to_nat (width s - Z.of_nat (length bs'))) 32 ++ bs') = sp ++ bs') as Ej.
    { unfold sp, x. by destruct (has (flags s) FL_ZERO). }
    rewrite Ej in *. rewrite length_app in Hl.
    destruct (pad_if_outputs (Z.of_nat (length bs') <? width s) x (width s) (Z.of_nat (length bs'))
      ltac:(unfold x; case_if; lia) ltac:(lia) t m (out s) Hw) as (w1 & m1 & qo1 & E1 & Hw1 & _); [fold sp; lia |].
    fold sp in Hw1. erewrite bind_ok by exact E1. cbv beta iota.
    destruct (Hcopy _ m1 qo1 Hw1) as (m2 & qo2 & E2 & Hw2); [rewrite length_app; lia |].
    erewrite bind_ok by exact E2. cbv beta. rewrite andb_false_r. erewrite bind_ok by done.
    eexists _, m2. split; [done |]. split; [by rewrite app_assoc | done].
Qed.

(** *** Integers *)

Lemma is_integer_spec val base s t m :
  in_u 64 val → 2 <= base <= 16 →
  let t' := int_text (flags s) base val (width s) (prec s) in
  wrote t m (out s) → Z.of_nat (length t + length t') <= L →
  ∃ s' m', is_integer n val base s m = Some (s', m') ∧
    wrote (t ++ t') m' (out s') ∧ state s' = state s ∧ ap s' = ap s.
Proof using All.
  intros Hv Hb t' Hw Hl. unfold is_integer. destruct (out s) as [q o] eqn:Hout.
  pose proof (wrote_mapped t m q o t' Hw Hl) as Hm. pose proof Hw as (_ & Ho & _). cbn [snd] in Ho.
  assert ((if o <? n then n - o else 0) = Z.max 0 (n - o)) as -> by (destruct (Z.ltb_spec o n); lia).
  erewrite bind_ok.
  2: { apply format_int_correct; [lia | done | done | | fold t'; lia].
       fold t'. intros j Hj. apply Hm. lia. }
  fold t'. eexists _, _. split; [done |]. cbn [out set_out state ap]. split; [| done].
  rewrite wrapu_small by (unfold in_u; lia).
  replace (Z.to_nat (Z.max 0 (n - o))) with (Z.to_nat (n - o)) by lia. by apply wrote_app.
Qed.

Lemma signed_arg_range r v : in_u 64 (signed_arg r v).
Proof using All. by apply wrapu_range. Qed.

Lemma unsigned_arg_range r v : in_u 64 (unsigned_arg r v).
Proof using All.
  unfold unsigned_arg. repeat case_if;
    match goal with |- in_u 64 (wrapu ?w ?z) => pose proof (wrapu_range w ltac:(lia) z) as Hr end;
    unfold in_u in *; lia.
Qed.

(** *** Conversions *)

Definition with_text (t t' : list Z) (ap' : list Z) (r : option (pf * mem)) : Prop :=
  ∃ s' m', r = Some (s', m') ∧ wrote (t ++ t') m' (out s') ∧ state s' = st_normal ∧ ap s' = ap'.

Lemma literal_ok bs : source_ok (literal bs) bs.
Proof using All. intros i b Hi t m qo _ _. simpl. by rewrite Hi. Qed.

Lemma in_memory_ok v bs :
  mem_at m0 v bs → away v (Z.of_nat (length bs)) → source_ok (in_memory v) bs.
Proof using All.
  intros Hv Ha i b Hi t m qo Hw Hl. simpl. apply load8_ok.
  rewrite (wrote_outside t m qo v (Z.of_nat (length bs)) Hw Hl Ha); [by apply Hv |].
  apply lookup_lt_Some in Hi. lia.
Qed.

Lemma integer_with_text val base s t t' m :
  in_u 64 val → 2 <= base <= 16 → state s = st_normal →
  int_text (flags s) base val (width s) (prec s) = t' →
  wrote t m (out s) → Z.of_nat (length t + length t') <= L →
  with_text t t' (ap s) (is_integer n val base s m).
Proof using All.
  intros Hv Hb Hs <- Hw Hl. destruct (is_integer_spec val base s t m) as (s' & m' & E & Hw' & Hst & Hap); [done.. |].
  exists s', m'. split_and!; [done | done | congruence | done].
Qed.

Lemma string_with_text src bs s t t' m :
  source_ok src bs → bytes bs → Z.of_nat (length bs) < 2 ^ 31 → state s = st_normal →
  string_text (flags s) (width s) (prec s) bs = Some t' →
  wrote t m (out s) → Z.of_nat (length t + length t') <= L →
  with_text t t' (ap s) (is_string n src (Z.of_nat (length bs)) s m).
Proof using All.
  intros Hsrc Hb Hlen Hs Ht Hw Hl.
  destruct (is_string_spec src bs s t' t m) as (s' & m' & E & Hw' & Hst & Hap); [done.. |].
  exists s', m'. split_and!; [done | done | congruence | done].
Qed.

(** The [%s] conversion of a non-null pointer. *)
Lemma pointer_with_text v bs s t t' m :
  strs v = Some bs → state s = st_normal →
  string_text (flags s) (width s) (prec s) bs = Some t' →
  wrote t m (out s) → Z.of_nat (length t + length t') <= L →
  with_text t t' (ap s) ((slen ← Str.strlen v; is_string n (in_memory v) (s32 slen) s) m).
Proof using All.
  intros Hv Hs Ht Hw Hl. destruct (Hstrs v bs Hv) as (Hc & Hb & Ha & Hlen).
  assert (cstr m v bs) as Hcm by (eapply cstr_frame; [done | lia | done | done]).
  erewrite bind_ok by (by apply strlen_correct). rewrite wraps_small by (try unfold in_s; simpl; lia).
  apply string_with_text; try done. apply in_memory_ok; [by apply cstr_mem_at |].
  unfold away in *. lia.
Qed.

(** An integer conversion takes one argument. *)
Lemma integer_case s1 base val t t' ap' m :
  state s1 = st_normal → 2 <= base <= 16 → (∀ v, in_u 64 (val v)) →
  match ap s1 with
  | v :: ap1 => Some (int_text (flags s1) base (val v) (width s1) (prec s1), ap1)
  | [] => None
  end = Some (t', ap') →
  wrote t m (out s1) → Z.of_nat (length t + length t') <= L →
  with_text t t' ap' (('(v, ap) ← va_arg (ap s1); is_integer n (val v) base (set_ap ap s1)) m).
Proof using All.
  intros Hs Hb Hv Hr Hw Hl. destruct (ap s1) as [| v ap1]; [done |].
  simplify_eq. erewrite bind_ok by done. cbv beta iota.
  by apply (integer_with_text (val v) base (set_ap ap' s1)).
Qed.

Lemma conversion_spec c s t' ap' t m :
  in_u 8 c →
  conv_text strs c (flags s) (width s) (prec s) (rank s) (ap s) = Some (t', ap') →
  wrote t m (out s) → Z.of_nat (length t + length t') <= L →
  with_text t t' ap' (conversion n c s m).
Proof using All.
  intros Hc. unfold conv_text, conversion. cbv zeta.
  replace (if rank (set_state st_normal s) <? MIN_RANK then MIN_RANK
    else if MAX_RANK <? rank (set_state st_normal s) then MAX_RANK else rank (set_state st_normal s))
    with (clamp_rank (rank s)).
  2: { cbn [rank set_state]. unfold clamp_rank, MIN_RANK, MAX_RANK, rank_char, rank_longlong.
       destruct (Z.ltb_spec (rank s) (-2)), (Z.ltb_spec 2 (rank s)); lia. }
  set (s0 := set_rank (clamp_rank (rank s)) (set_state st_normal s)).
  change (ap s) with (ap s0). change (out s) with (out s0). change (flags s) with (flags s0).
  change (width s) with (width s0). change (prec s) with (prec s0). change (clamp_rank (rank s)) with (rank s0).
  assert (state s0 = st_normal) as Hst by done. clearbody s0. intros Hconv Hw Hl.
  pose proof (signed_arg_range (rank s0)). pose proof (unsigned_arg_range (rank s0)).
  destruct ((c =? 80) || (c =? 112)).
  { destruct (c =? 80); (apply (integer_case _ 16 u64); [done | lia | intros; by apply wrapu_range | done..]). }
  destruct ((c =? 100) || (c =? 105)); [apply (integer_case _ 10 (signed_arg (rank s0))); done || lia |].
  destruct (c =? 111); [apply (integer_case _ 8 (unsigned_arg (rank s0))); done || lia |].
  destruct (c =? 117); [apply (integer_case _ 10 (unsigned_arg (rank s0))); done || lia |].
  destruct (c =? 88); cbn [orb]; [apply (integer_case _ 16 (unsigned_arg (rank s0))); done || lia |].
  destruct (c =? 120); [apply (integer_case _ 16 (unsigned_arg (rank s0))); done || lia |].
  destruct (c =? 99).
  { destruct (ap s0) as [| v ap1]; [done |]. erewrite bind_ok by done. cbv beta iota.
    destruct (string_text _ _ _ _) as [t1 |] eqn:Et; simplify_eq.
    apply (string_with_text (literal [u8 v]) [u8 v] (set_ap ap' s0)); try done; [apply literal_ok |].
    constructor; [by apply wrapu_range | done]. }
  destruct (c =? 115).
  { destruct (ap s0) as [| v ap1]; [done |]. erewrite bind_ok by done. cbv beta iota.
    destruct (v =? NULL); [| destruct (strs v) as [bs |] eqn:Ev; [| done]];
      destruct (string_text _ _ _ _) as [t1 |] eqn:Et; simplify_eq.
    - apply (string_with_text (literal null_text) null_text (set_ap ap' s0)); try done; [apply literal_ok | by_eval].
    - by apply (pointer_with_text v bs (set_ap ap' s0)). }
  destruct (c =? 110); [done |]. simplify_eq.
  pose proof (emits_EMIT n c) as He. rewrite wrapu_small in He by done.
  destruct (emits_outputs _ _ He t m (out s0) Hw Hl) as (m1 & qo1 & E1 & Hw1).
  erewrite bind_ok by exact E1. by eexists _, m1.
Qed.

(** *** Characters *)

(** The machine compares [char]s with ASCII constants only, so reading a
    byte as signed makes no difference. *)
Lemma step_s8 b s m : in_u 8 b → vsnprintf_step n (s8 b) s m = vsnprintf_step n b s m.
Proof using All.
  intros Hb. destruct (decide (b < 128)).
  { rewrite wraps_small; [done | lia |]. unfold in_u, in_s in *. simpl. lia. }
  assert (s8 b < 0) as Hneg.
  { pose proof (wraps_nonneg 8 ltac:(lia) b Hb) as Hiff. change (2 ^ (8 - 1)) with 128 in Hiff. lia. }
  assert (∀ z, EMIT n (s8 b) z = EMIT n b z) as HE.
  { intros [q o]. unfold EMIT, store8. by rewrite wrapu_wraps by lia. }
  unfold in_u in Hb. change (2 ^ 8) with 256 in Hb.
  unfold vsnprintf_step, conversion. rewrite !HE. clear HE. cbv zeta.
  repeat match goal with
  | |- context [s8 b =? ?c] => rewrite (proj2 (Z.eqb_neq (s8 b) c)) by lia
  | |- context [b =? ?c] => rewrite (proj2 (Z.eqb_neq b c)) by lia
  end.
  rewrite (proj2 (Z.leb_gt 48 (s8 b))), (proj2 (Z.leb_gt b 57)), andb_false_r by lia. cbn [andb orb].
  done.
Qed.

(** [reaches m k p s p' s']: [k] iterations lead from [p] and [s] to [p'] and
    [s'] without a change of memory. *)
Definition reaches (m : mem) (k : nat) (p : Z) (s : pf) (p' : Z) (s' : pf) : Prop :=
  ∀ fuel, vsnprintf_loop (k + fuel) n p s m = vsnprintf_loop fuel n p' s' m.

Lemma reaches_refl m p s : reaches m 0 p s p s.
Proof using Type. intros fuel. done. Qed.

Lemma reaches_trans m k1 k2 p s p1 s1 p2 s2 :
  reaches m k1 p s p1 s1 → reaches m k2 p1 s1 p2 s2 → reaches m (k1 + k2) p s p2 s2.
Proof using Type. intros H1 H2 fuel. rewrite <- Nat.add_assoc, H1. apply H2. Qed.

Lemma loop_step fuel p b t s m :
  cstr m p (b :: t) → in_u 8 b →
  vsnprintf_loop (S fuel) n p s m =
    ('(again, s) ← vsnprintf_step n b s; vsnprintf_loop fuel n (if again : bool then p else p + 1) s) m.
Proof using All.
  intros (Hb & Hnz & _)%cstr_cons Hr. cbn [vsnprintf_loop]. run loadc_ok.
  rewrite (proj2 (Z.eqb_neq _ 0)) by (rewrite s8_zero; done).
  unfold mbind, st_bind. by rewrite step_s8.
Qed.

Lemma reaches_step p b t s again s' m :
  cstr m p (b :: t) → in_u 8 b → vsnprintf_step n b s m = Some ((again, s'), m) →
  reaches m 1 p s (if again : bool then p else p + 1) s'.
Proof using All.
  intros Hc Hb Hs fuel. change (1 + fuel)%nat with (S fuel). rewrite (loop_step _ _ _ _ _ _ Hc Hb).
  by erewrite bind_ok by exact Hs.
Qed.

(** One phase of a directive, over a prefix of the format that the machine
    consumes a character at a time. *)
Definition phase (m : mem) (p : Z) (s : pf) (t t' : list Z) (s' : pf) : Prop :=
  ∃ pre, t = pre ++ t' ∧ reaches m (length pre) p s (p + Z.of_nat (length pre)) s'.

Lemma phase_refl m p s t : phase m p s t t s.
Proof using Type. exists []. split; [done |]. rewrite Z.add_0_r. apply reaches_refl. Qed.

Lemma phase_cons m p b t s s1 t' s' :
  cstr m p (b :: t) → in_u 8 b → vsnprintf_step n b s m = Some ((false, s1), m) →
  phase m (p + 1) s1 t t' s' → phase m p s (b :: t) t' s'.
Proof using All.
  intros Hc Hb Hs (pre & -> & Hr). exists (b :: pre). split; [done |].
  cbn [length]. change (S (length pre)) with (1 + length pre)%nat.
  eapply reaches_trans; [by eapply (reaches_step _ _ _ _ false) |].
  replace (p + Z.of_nat (1 + length pre)) with (p + 1 + Z.of_nat (length pre)) by lia. done.
Qed.

Lemma phase_flags m o ap : ∀ t p f f' t',
  cstr m p t → bytes t → take_flags f t = (f', t') →
  phase m p (mk_pf st_flags f rank_int 0 (-1) o ap) t t' (mk_pf st_flags f' rank_int 0 (-1) o ap).
Proof using All.
  induction t as [| b t IH]; intros p f f' t' Hc Hb Ht; cbn [take_flags] in Ht.
  { simplify_eq. apply phase_refl. }
  apply Forall_cons in Hb as [Hb Hbs]. pose proof Hc as (_ & _ & Hc')%cstr_cons.
  destruct (flag_of b) as [x |] eqn:Ef; [| simplify_eq; apply phase_refl].
  eapply phase_cons; [done | done | | by eapply IH].
  unfold flag_of in Ef. unfold vsnprintf_step. cbn [state].
  repeat (case_if; [simplify_eq; done |]). done.
Qed.

Lemma phase_width m o : ∀ t p f w ap f' w' ap' t',
  cstr m p t → bytes t → take_width f w ap t = Some (f', w', ap', t') →
  phase m p (mk_pf st_width f rank_int w (-1) o ap) t t' (mk_pf st_width f' rank_int w' (-1) o ap').
Proof using All.
  induction t as [| b t IH]; intros p f w ap f' w' ap' t' Hc Hb Ht; cbn [take_width] in Ht.
  { simplify_eq. apply phase_refl. }
  apply Forall_cons in Hb as [Hb Hbs]. pose proof Hc as (_ & _ & Hc')%cstr_cons.
  unfold is_digit in Ht. destruct ((48 <=? b) && (b <=? 57)) eqn:Ed.
  { destruct (bool_decide _) eqn:Eb; [| done]. eapply phase_cons; [done | done | | by eapply IH].
    unfold vsnprintf_step. cbn [state width]. rewrite Ed. unfold ck32. by rewrite Eb. }
  destruct (b =? 42) eqn:Es; [| simplify_eq; apply phase_refl].
  destruct ap as [| v ap]; [done |]. destruct (s32 v <? 0) eqn:Ev.
  - destruct (bool_decide _) eqn:Eb; [| done]. eapply phase_cons; [done | done | | by eapply IH].
    unfold vsnprintf_step. cbn [state]. rewrite Ed, Es. erewrite bind_ok by done. cbv beta iota zeta.
    rewrite Ev. unfold ck32. by rewrite Eb.
  - eapply phase_cons; [done | done | | by eapply IH].
    unfold vsnprintf_step. cbn [state]. rewrite Ed, Es. erewrite bind_ok by done. cbv beta iota zeta.
    by rewrite Ev.
Qed.

Lemma phase_prec m o f w : ∀ t p pr ap pr' ap' t',
  cstr m p t → bytes t → take_prec pr ap t = Some (pr', ap', t') →
  phase m p (mk_pf st_prec f rank_int w pr o ap) t t' (mk_pf st_prec f rank_int w pr' o ap').
Proof using All.
  induction t as [| b t IH]; intros p pr ap pr' ap' t' Hc Hb Ht; cbn [take_prec] in Ht.
  { simplify_eq. apply phase_refl. }
  apply Forall_cons in Hb as [Hb Hbs]. pose proof Hc as (_ & _ & Hc')%cstr_cons.
  unfold is_digit in Ht. destruct ((48 <=? b) && (b <=? 57)) eqn:Ed.
  { destruct (bool_decide _) eqn:Eb; [| done]. eapply phase_cons; [done | done | | by eapply IH].
    unfold vsnprintf_step. cbn [state prec]. rewrite Ed. unfold ck32. by rewrite Eb. }
  destruct (b =? 42) eqn:Es; [| simplify_eq; apply phase_refl].
  destruct ap as [| v ap]; [done |]. eapply phase_cons; [done | done | | by eapply IH].
  unfold vsnprintf_step. cbn [state]. rewrite Ed, Es. by erewrite bind_ok by done.
Qed.

Lemma phase_mods m o f w pr ap : ∀ t p r r' t',
  cstr m p t → bytes t → take_mods r t = (r', t') →
  phase m p (mk_pf st_modifiers f r w pr o ap) t t' (mk_pf st_modifiers f r' w pr o ap).
Proof using All.
  induction t as [| b t IH]; intros p r r' t' Hc Hb Ht; cbn [take_mods] in Ht.
  { simplify_eq. apply phase_refl. }
  apply Forall_cons in Hb as [Hb Hbs]. pose proof Hc as (_ & _ & Hc')%cstr_cons.
  destruct (rank_of r b) as [x |] eqn:Ef; [| simplify_eq; apply phase_refl].
  eapply phase_cons; [done | done | | by eapply IH].
  unfold rank_of in Ef. unfold vsnprintf_step. cbn [state].
  repeat (case_if; [simplify_eq; done |]). done.
Qed.

(** Phases in sequence; [e] counts the characters processed again. *)
Definition within (e : nat) (m : mem) (p : Z) (s : pf) (t t' : list Z) (s' : pf) : Prop :=
  ∃ pre k, t = pre ++ t' ∧ (k <= length pre + e)%nat ∧
    reaches m k p s (p + Z.of_nat (length pre)) s'.

Lemma phase_within m p s t t' s' : phase m p s t t' s' → within 0 m p s t t' s'.
Proof using All. intros (pre & -> & Hr). exists pre, (length pre). split_and!; [done | lia | done]. Qed.

Lemma within_again m p b t s s' :
  cstr m p (b :: t) → in_u 8 b → vsnprintf_step n b s m = Some ((true, s'), m) →
  within 1 m p s (b :: t) (b :: t) s'.
Proof using All.
  intros Hc Hb Hs. exists [], 1%nat. split_and!; [done | simpl; lia |]. rewrite Z.add_0_r.
  by apply (reaches_step _ _ _ _ true s' m Hc).
Qed.

Lemma within_trans e1 e2 m p s t t1 s1 t2 s2 :
  within e1 m p s t t1 s1 →
  (∀ p, cstr m p t1 → bytes t1 → within e2 m p s1 t1 t2 s2) → cstr m p t → bytes t →
  within (e1 + e2) m p s t t2 s2.
Proof using All.
  intros (pre1 & k1 & -> & Hk1 & Hr1) H2 Hc Hb. apply Forall_app in Hb as [_ Hb].
  apply cstr_app in Hc as (_ & _ & Hc). destruct (H2 _ Hc Hb) as (pre2 & k2 & -> & Hk2 & Hr2).
  exists (pre1 ++ pre2), (k1 + k2)%nat. rewrite length_app, app_assoc. split_and!; [done | lia |].
  eapply reaches_trans; [done |]. by rewrite Nat2Z.inj_add, Z.add_assoc.
Qed.

Lemma take_flags_stop f : ∀ t f' b t', take_flags f t = (f', b :: t') → flag_of b = None.
Proof using Type.
  intros t. revert f. induction t as [| c t IH]; intros f f' b t'; cbn [take_flags]; [done |].
  destruct (flag_of c) eqn:E; [apply IH | by intros [= _ -> _]].
Qed.

Lemma take_width_stop : ∀ t f w ap f' w' ap' b t',
  take_width f w ap t = Some (f', w', ap', b :: t') → is_digit b = false ∧ (b =? 42) = false.
Proof using Type.
  induction t as [| c t IH]; intros f w ap f' w' ap' b t'; cbn [take_width]; [done |].
  destruct (is_digit c) eqn:Ed; [case_match; [apply IH | done] |].
  destruct (c =? 42) eqn:Es; [| by intros [= _ _ _ -> _]].
  destruct ap as [| v ap]; [done |]. repeat case_match; try done; apply IH.
Qed.

Lemma take_prec_stop : ∀ t p ap p' ap' b t',
  take_prec p ap t = Some (p', ap', b :: t') → is_digit b = false ∧ (b =? 42) = false.
Proof using Type.
  induction t as [| c t IH]; intros p ap p' ap' b t'; cbn [take_prec]; [done |].
  destruct (is_digit c) eqn:Ed; [case_match; [apply IH | done] |].
  destruct (c =? 42) eqn:Es; [| by intros [= _ _ -> _]].
  destruct ap as [| v ap]; [done |]. apply IH.
Qed.

(** A directive ends in [st_modifiers] on its conversion character, unless
    the format ends first. *)
Definition at_end (o : Z * Z) (t' : list Z) (s' goal : pf) : Prop :=
  out s' = o ∧ (t' ≠ [] → s' = goal).

Lemma within_mods m o f w pr ap r t' : ∀ t p,
  take_mods rank_int t = (r, t') → cstr m p t → bytes t →
  within 0 m p (mk_pf st_modifiers f rank_int w pr o ap) t t' (mk_pf st_modifiers f r w pr o ap).
Proof using All. intros t p Ht Hc Hb. by apply phase_within, phase_mods. Qed.

Lemma within_prec m o f w ap p0 pr ap' r t t1 t' :
  take_prec 0 ap t = Some (pr, ap', t1) → take_mods rank_int t1 = (r, t') → cstr m p0 t → bytes t →
  ∃ s', at_end o t' s' (mk_pf st_modifiers f r w pr o ap') ∧
    within 1 m p0 (mk_pf st_prec f rank_int w 0 o ap) t t' s'.
Proof using All.
  intros Hp Hm Hc Hb. pose proof (phase_within _ _ _ _ _ _ (phase_prec m o f w _ _ _ _ _ _ _ Hc Hb Hp)) as H1.
  destruct t1 as [| b t1].
  - simpl in Hm. simplify_eq. exists (mk_pf st_prec f rank_int w pr o ap'). split; [split; [done | done] |].
    destruct H1 as (pre & k & ? & ? & ?). exists pre, k. split_and!; [done | lia | done].
  - apply take_prec_stop in Hp as [Hd Hs]. exists (mk_pf st_modifiers f r w pr o ap'). split; [done |].
    apply (within_trans 0 1 _ _ _ _ _ _ _ _ H1); [| done..]. intros p Hcp Hbp.
    apply (within_trans 1 0 _ _ _ _ (b :: t1) (mk_pf st_modifiers f rank_int w pr o ap')); [| | done..].
    + apply Forall_cons in Hbp as [? _]. apply within_again; [done.. |].
      unfold vsnprintf_step. cbn [state]. unfold is_digit in Hd. by rewrite Hd, Hs.
    + intros q Hcq Hbq. by apply within_mods.
Qed.

Lemma within_width m o ap p0 f f1 w pr ap1 ap' r t t1 t2 t' :
  take_width f 0 ap t = Some (f1, w, ap1, t1) →
  (match t1 with
   | b :: t => if b =? 46 then take_prec 0 ap1 t else Some (-1, ap1, t1)
   | [] => Some (-1, ap1, t1)
   end) = Some (pr, ap', t2) →
  take_mods rank_int t2 = (r, t') → cstr m p0 t → bytes t →
  ∃ s', at_end o t' s' (mk_pf st_modifiers f1 r w pr o ap') ∧
    within 1 m p0 (mk_pf st_width f rank_int 0 (-1) o ap) t t' s'.
Proof using All.
  intros Hw Hp Hm Hc Hb. pose proof (phase_within _ _ _ _ _ _ (phase_width m o _ _ _ _ _ _ _ _ _ Hc Hb Hw)) as H1.
  destruct t1 as [| b t1].
  - simplify_eq. simpl in Hm. simplify_eq. exists (mk_pf st_width f1 rank_int w (-1) o ap'). split; [split; [done | done] |].
    destruct H1 as (pre & k & ? & ? & ?). exists pre, k. split_and!; [done | lia | done].
  - apply take_width_stop in Hw as [Hd Hs]. unfold is_digit in Hd. destruct (b =? 46) eqn:Edot.
    + pose proof H1 as (pre & _ & -> & _). pose proof Hc as (_ & _ & Hc1)%cstr_app.
      pose proof Hb as [_ Hb1]%Forall_app. apply Forall_cons in Hb1 as [Hbb Hbt].
      pose proof Hc1 as (_ & _ & Hc2)%cstr_cons.
      assert (vsnprintf_step n b (mk_pf st_width f1 rank_int w (-1) o ap1) m =
        Some ((false, mk_pf st_prec f1 rank_int w 0 o ap1), m)) as Hstep.
      { unfold vsnprintf_step. cbn [state]. by rewrite Hd, Hs, Edot. }
      destruct (within_prec m o f1 w _ _ _ _ _ _ _ _ Hp Hm Hc2 Hbt) as (s' & He & pre2 & k2 & E2 & Hk2 & Hr2).
      destruct H1 as (pre' & k1 & E1 & Hk1 & Hr1). apply app_inv_tail in E1 as <-.
      exists s'. split; [done |]. exists (pre ++ b :: pre2), (k1 + (1 + k2))%nat.
      rewrite length_app. cbn [length]. split_and!; [rewrite E2, <- app_assoc; done | lia |].
      eapply reaches_trans; [done |]. eapply reaches_trans; [by eapply (reaches_step _ _ _ _ false) |].
      by replace (p0 + Z.of_nat (length pre + S (length pre2)))
        with (p0 + Z.of_nat (length pre) + 1 + Z.of_nat (length pre2)) by lia.
    + simplify_eq. exists (mk_pf st_modifiers f1 r w (-1) o ap'). split; [done |].
      apply (within_trans 0 1 _ _ _ _ _ _ _ _ H1); [| done..]. intros p Hcp Hbp.
      apply (within_trans 1 0 _ _ _ _ (b :: t1) (mk_pf st_modifiers f1 rank_int w (-1) o ap')); [| | done..].
      * apply Forall_cons in Hbp as [? _]. apply within_again; [done.. |].
        unfold vsnprintf_step. cbn [state]. by rewrite Hd, Hs, Edot.
      * intros q Hcq Hbq. by apply within_mods.
Qed.

Lemma within_directive m o ap p0 f w pr r ap' t t' :
  directive t ap = Some (f, w, pr, r, ap', t') → cstr m p0 t → bytes t →
  ∃ s', at_end o t' s' (mk_pf st_modifiers f r w pr o ap') ∧
    within 2 m p0 (mk_pf st_flags 0 rank_int 0 (-1) o ap) t t' s'.
Proof using All.
  unfold directive. destruct (take_flags 0 t) as [f0 t0] eqn:Hf. intros Hd Hc Hb.
  destruct (take_width f0 0 ap t0) as [[[[f1 w1] ap1] t1] |] eqn:Hw; [| done]. simpl in Hd.
  destruct (match t1 with [] => _ | _ :: _ => _ end) as [[[pr1 ap2] t2] |] eqn:Hp; [| done]. simpl in Hd.
  destruct (take_mods rank_int t2) as [r1 t3] eqn:Hm. simplify_eq.
  pose proof (phase_within _ _ _ _ _ _ (phase_flags m o ap _ _ _ _ _ Hc Hb Hf)) as H1.
  destruct t0 as [| b t0].
  - simpl in Hw. simplify_eq. simpl in Hm. simplify_eq.
    exists (mk_pf st_flags f rank_int 0 (-1) o ap'). split; [split; [done | done] |].
    destruct H1 as (pre & k & ? & ? & ?). exists pre, k. split_and!; [done | lia | done].
  - apply take_flags_stop in Hf. pose proof H1 as (pre & _ & -> & _). pose proof Hc as (_ & _ & Hc1)%cstr_app.
    pose proof Hb as [_ Hb1]%Forall_app.
    destruct (within_width m o ap _ f0 _ _ _ _ _ _ _ _ _ _ Hw Hp Hm Hc1 Hb1) as (s' & He & H2).
    exists s'. split; [done |]. assert (within 1 m (p0 + Z.of_nat (length pre)) (mk_pf st_flags f0 rank_int 0 (-1) o ap)
      (b :: t0) (b :: t0) (mk_pf st_width f0 rank_int 0 (-1) o ap)) as Hag.
    { apply Forall_cons in Hb1 as [? _]. apply within_again; [done.. |]. unfold vsnprintf_step. cbn [state].
      unfold flag_of in Hf. repeat (case_if; [done |]). done. }
    destruct H1 as (pre1 & k1 & E1 & Hk1 & Hr1). apply app_inv_tail in E1 as <-.
    destruct Hag as (pre2 & k2 & E2 & Hk2 & Hr2).
    assert (pre2 = []) as -> by (destruct pre2; [done | apply (f_equal length) in E2; rewrite length_app in E2; simpl in E2; lia]).
    destruct H2 as (pre3 & k3 & E3 & Hk3 & Hr3). exists (pre ++ pre3), (k1 + (k2 + k3))%nat.
    simpl in Hk2. rewrite Z.add_0_r in Hr2. rewrite length_app, E3, app_assoc. split_and!; [done | lia |].
    eapply reaches_trans; [done |]. eapply reaches_trans; [done |]. by rewrite Nat2Z.inj_add, Z.add_assoc.
Qed.

Lemma take_mods_stop : ∀ t r r' b t', take_mods r t = (r', b :: t') → rank_of r' b = None.
Proof using Type.
  induction t as [| c t IH]; intros r r' b t'; cbn [take_mods]; [done |].
  destruct (rank_of r c) eqn:E; [apply IH | by intros [= -> -> _]].
Qed.

Lemma directive_stop t ap f w pr r ap' b t' :
  directive t ap = Some (f, w, pr, r, ap', b :: t') → rank_of r b = None.
Proof using Type.
  unfold directive. destruct (take_flags 0 t) as [f0 t0]. intros Hd.
  destruct (take_width f0 0 ap t0) as [[[[f1 w1] ap1] t1] |]; [| done]. simpl in Hd.
  destruct (match t1 with [] => _ | _ :: _ => _ end) as [[[pr1 ap2] t2] |]; [| done]. simpl in Hd.
  destruct (take_mods rank_int t2) as [r1 t3] eqn:Hm. simplify_eq. by eapply take_mods_stop.
Qed.

Lemma step_conversion b f r w pr o ap m :
  rank_of r b = None →
  vsnprintf_step n b (mk_pf st_modifiers f r w pr o ap) m =
    (s ← conversion n b (mk_pf st_modifiers f r w pr o ap); mret (false, s)) m.
Proof using Type.
  unfold rank_of, vsnprintf_step. cbn [state]. intros Hr. repeat (case_if; [done |]). done.
Qed.

Lemma loop_at_nul fuel p s m : m !! p = Some 0 → vsnprintf_loop (S fuel) n p s m = Some (s, m).
Proof using Type. intros Hp. cbn [vsnprintf_loop]. by run loadc_ok. Qed.

(** The whole loop, from the ground state. *)
Lemma loop_spec rf : ∀ fuel t p s txt done_txt m,
  render rf strs t (ap s) = Some txt → state s = st_normal → cstr m0 p t → bytes t →
  away p (Z.of_nat (length t) + 1) →
  wrote done_txt m (out s) → Z.of_nat (length done_txt + length txt) <= L → (3 * length t < fuel)%nat →
  ∃ s' m', vsnprintf_loop fuel n p s m = Some (s', m') ∧ wrote (done_txt ++ txt) m' (out s').
Proof using All.
  induction rf as [| rf IH]; intros [| fuel] [| b t] p s txt dt m Hr Hst Hc Hb Ha Hw Hl Hf;
    cbn [render length] in *; try done; try lia.
  1,2: simplify_eq; rewrite app_nil_r; exists s, m; split; [| done]; apply loop_at_nul;
    rewrite (wrote_outside dt m (out s) p 1 Hw ltac:(lia) Ha) by lia; by apply cstr_nil.
  assert (cstr m p (b :: t)) as Hcm by (eapply cstr_frame; [done | lia | exact Ha | done]).
  pose proof Hc as (_ & _ & Hc')%cstr_cons. pose proof Hcm as (_ & _ & Hcm')%cstr_cons.
  apply Forall_cons in Hb as [Hb Hbs]. destruct s as [st f r w pr o ap]; cbn [state Printf.ap out] in *. subst st.
  rewrite (loop_step _ _ _ _ _ _ Hcm Hb). unfold vsnprintf_step at 1. cbn [state out Printf.ap].
  destruct (b =? 37) eqn:Eb.
  - erewrite bind_ok by done. cbv beta iota.
    destruct (directive t ap) as [[[[[[f1 w1] pr1] r1] ap1] t1] |] eqn:Hd; [| done]. simpl in Hr.
    destruct (within_directive m o ap (p + 1) _ _ _ _ _ _ _ Hd Hcm' Hbs)
      as (s1 & [Ho1 Hs1] & pre & k & -> & Hk & Hreach).
    rewrite length_app in *. replace fuel with (k + (fuel - k))%nat by lia. rewrite Hreach.
    destruct (fuel - k)%nat as [| f2] eqn:Ef2; [lia |].
    pose proof Hcm' as (_ & _ & Hcm1)%cstr_app. pose proof Hc' as (_ & _ & Hc1)%cstr_app.
    pose proof Hbs as [_ Hbt]%Forall_app. destruct t1 as [| c t1].
    { injection Hr as <-. rewrite app_nil_r. exists s1, m. rewrite Ho1. split; [| done]. apply loop_at_nul.
      by apply cstr_nil in Hcm1. }
    rewrite Hs1 by done. apply Forall_cons in Hbt as [Hcb Hbt].
    destruct (conv_text strs c f1 w1 pr1 r1 ap1) as [[t1' ap2] |] eqn:Hconv; [| done]. simpl in Hr.
    destruct (render rf strs t1 ap2) as [txt2 |] eqn:Hr2; [| done]. simpl in Hr. injection Hr as <-.
    rewrite length_app in Hl.
    rewrite (loop_step _ _ _ _ _ _ Hcm1 Hcb).
    destruct (conversion_spec c (mk_pf st_modifiers f1 r1 w1 pr1 o ap1) t1' ap2 dt m Hcb Hconv Hw)
      as (s2 & m2 & Ec & Hw2 & Hst2 & Hap2); [lia |].
    erewrite bind_ok.
    2: { rewrite step_conversion by (by eapply directive_stop). by erewrite bind_ok by exact Ec. }
    cbv beta iota. cbn [length] in *. pose proof Hc1 as (_ & _ & Hc2)%cstr_cons.
    rewrite app_assoc. apply IH with (t := t1); rewrite ?Hap2, ?length_app; try done; [| lia..].
    unfold away in *. lia.
  - destruct (render rf strs t ap) as [txt1 |] eqn:Hr1; [| done]. simpl in Hr. simplify_eq.
    pose proof (emits_EMIT n b) as He. rewrite wrapu_small in He by done.
    destruct (emits_outputs _ _ He dt m o Hw) as (m1 & qo1 & E1 & Hw1); [cbn [length] in *; lia |].
    erewrite bind_ok by (erewrite bind_ok by exact E1; done). cbv beta iota.
    change (b :: txt1) with ([b] ++ txt1). rewrite app_assoc. cbn [length] in Hl.
    eapply IH with (t := t); cbn [Printf.ap state out set_out]; rewrite ?length_app; try done;
      cbn [length]; [| lia..]. unfold away in *. lia.
Qed.
End machine.

Lemma mem_set_last m a bs c d :
  <[a + Z.of_nat (length bs) := d]> (mem_set m a (bs ++ [c])) = mem_set m a (bs ++ [d]).
Proof. rewrite !mem_set_app. cbn [mem_set]. by rewrite insert_insert_eq. Qed.

(** The terminating NUL. *)
Lemma terminate_spec B n t m m' q o :
  wrote m B n t m' (q, o) → 0 <= n → mapped m B (Z.min n (Z.of_nat (length t) + 1)) →
  (if o <? n then store8 q 0 else if 0 <? n then store8 (B + (n - 1)) 0 else mret tt) m' =
    Some (tt, if n =? 0 then m else mem_set m B (take (Z.to_nat (n - 1)) t ++ [0])).
Proof.
  intros (-> & Ho & Hq) Hn Hm. cbn [fst snd] in *. subst o.
  destruct (Z.ltb_spec (Z.of_nat (length t)) n) as [Hlt | Hge].
  - rewrite Hq, (proj2 (Z.eqb_neq n 0)), !take_ge by lia.
    destruct (mapped_set m B _ B t Hm (B + Z.of_nat (length t))) as [b Hb]; [lia |].
    rewrite (store8_ok _ _ _ _ Hb), mem_set_app. done.
  - destruct (Z.ltb_spec 0 n); [| assert (n = 0) as -> by lia; done].
    rewrite (proj2 (Z.eqb_neq n 0)) by lia.
    destruct (lookup_lt_is_Some_2 t (Z.to_nat (n - 1))) as [c Hc]; [lia |].
    replace (Z.to_nat n) with (S (Z.to_nat (n - 1))) by lia. rewrite (take_S_r _ _ _ Hc).
    destruct (mapped_set m B _ B (take (Z.to_nat (n - 1)) t ++ [c]) Hm (B + (n - 1))) as [b Hb]; [lia |].
    rewrite (store8_ok _ _ _ _ Hb).
    rewrite <- (mem_set_last m B (take (Z.to_nat (n - 1)) t) c 0), length_take_le by lia.
    by rewrite Z2Nat.id by lia.
Qed.

(** The run of the whole function. *)
Lemma vsnprintf_run strs m buffer n format f ap t :
  render (length f) strs f ap = Some t → Z.of_nat (length t) < 2 ^ 31 → 0 <= n →
  mapped m buffer (Z.min n (Z.of_nat (length t) + 1)) →
  cstr m format f → bytes f →
  away buffer n (Z.of_nat (length t)) format (Z.of_nat (length f) + 1) →
  (∀ v bs, strs v = Some bs → cstr m v bs ∧ bytes bs ∧ Z.of_nat (length bs) < 2 ^ 31 ∧
     away buffer n (Z.of_nat (length t)) v (Z.of_nat (length bs) + 1)) →
  vsnprintf buffer n format ap m =
    Some (Z.of_nat (length t), if n =? 0 then m else mem_set m buffer (take (Z.to_nat (n - 1)) t ++ [0])).
Proof.
  intros Hr Hlen Hn Hm Hc Hb Ha Hstrs. unfold vsnprintf.
  destruct (loop_spec strs m buffer n (Z.of_nat (length t)) ltac:(intros k Hk; apply Hm; lia) ltac:(lia) Hn
    ltac:(intros v bs Hv; destruct (Hstrs v bs Hv) as (? & ? & ? & ?); done)
    (length f) (3 * S (size m)) f format (mk_pf st_normal 0 rank_int 0 (-1) (buffer, 0) ap) t [] m)
    as ([st fl r w pr [q o] ap'] & m' & E & Hw); try done.
  - split_and!; [by rewrite take_nil | done | simpl; lia].
  - apply cstr_length in Hc. lia.
  - erewrite bind_ok by exact E. cbn [out] in Hw. simpl app in Hw. cbv beta iota.
    erewrite bind_ok by (by apply (terminate_spec buffer n t m m' q o)). destruct Hw as (_ & Ho & _).
    cbn [snd] in Ho. subst o. unfold mret, st_ret. rewrite wraps_small; [done | lia |].
    unfold in_s. change (2 ^ (32 - 1)) with (2 ^ 31). lia.
Qed.

(** C1.  [vsnprintf] is correct with respect to the text [t] that the
    format and its arguments denote: it terminates and returns the length of
    [t]; unless [n] is 0 the buffer holds the first [n - 1] bytes of [t]
    followed by a NUL; and no other byte of memory changes.  [t] is computed
    by [render] independently of the buffer and its size; only the bytes that
    are stored need to be mapped. *)
Theorem vsnprintf_correct strs m buffer n format f ap t :
  render (length f) strs f ap = Some t → Z.of_nat (length t) < 2 ^ 31 → 0 <= n →
  mapped m buffer (Z.min n (Z.of_nat (length t) + 1)) →
  cstr m format f → bytes f →
  away buffer n (Z.of_nat (length t)) format (Z.of_nat (length f) + 1) →
  (∀ v bs, strs v = Some bs → cstr m v bs ∧ bytes bs ∧ Z.of_nat (length bs) < 2 ^ 31 ∧
     away buffer n (Z.of_nat (length t)) v (Z.of_nat (length bs) + 1)) →
  vsnprintf buffer n format ap m =
    Some (Z.of_nat (length t), if n =? 0 then m else mem_set m buffer (take (Z.to_nat (n - 1)) t ++ [0])).
Proof. apply vsnprintf_run. Qed.

(** ** Printing and parsing back *)

Lemma num_digits_lower f : ∀ base val,
  2 <= base → 0 < val < base ^ Z.of_nat f → base ^ (num_digits f base val - 1) <= val.
Proof.
  induction f as [| f IH]; intros base val Hb Hv; [change (base ^ Z.of_nat 0) with 1 in Hv; lia |].
  cbn [num_digits]. rewrite (proj2 (Z.eqb_neq val 0)) by lia. rewrite Z.add_simpl_l.
  rewrite Nat2Z.inj_succ, Z.pow_succ_r in Hv by lia.
  pose proof (Z.div_mod val base ltac:(lia)). pose proof (Z.mod_pos_bound val base ltac:(lia)).
  destruct (decide (val / base = 0)) as [E | E].
  - rewrite E. destruct f; simpl; lia.
  - assert (0 <= val / base) by (apply Z.div_pos; lia).
    assert (val / base < base ^ Z.of_nat f) by (apply Z.div_lt_upper_bound; lia).
    specialize (IH base (val / base) Hb ltac:(lia)).
    assert (0 < num_digits f base (val / base)) as Hd.
    { destruct f; [change (base ^ Z.of_nat 0) with 1 in *; lia |].
      pose proof (num_digits_bounds (S f) base (val / base)).
      pose proof (proj1 (num_digits_zero f base (val / base))). lia. }
    replace (num_digits f base (val / base)) with (1 + (num_digits f base (val / base) - 1)) by lia.
    rewrite Z.pow_add_r, Z.pow_1_r by lia. nia.
Qed.

Lemma digitval_digit_char u d : 0 <= d < 16 → digitval (s8 (digit_char u d)) = d.
Proof.
  intros Hd. assert (d ∈ seqZ 0 16) as Hin by (apply elem_of_seqZ; lia). clear Hd.
  revert d Hin. apply Forall_forall. destruct u; by_eval.
Qed.

Lemma fmap_add_seqZ_1 len : seqZ (Z.succ 0) len = Z.add 1 <$> seqZ 0 len.
Proof. by rewrite fmap_add_seqZ. Qed.

(** A number without group marks, its leading digit first. *)
Lemma numeral_succ u base skip val len :
  0 <= len → len < skip →
  numeral u base skip val (len + 1) =
    digit_char u ((val / base ^ len) mod base) :: numeral u base skip val len.
Proof.
  intros Hl Hs. unfold numeral. rewrite (seqZ_cons 0 (len + 1)) by lia. cbn [fmap list_fmap].
  f_equal.
  - replace (len + 1 - 1 - 0) with len by lia. unfold number_char.
    rewrite (Z.mod_small len), (Z.div_small len), Z.sub_0_r by lia. by rewrite (proj2 (Z.eqb_neq len skip)) by lia.
  - replace (Z.pred (len + 1)) with len by lia. rewrite (fmap_add_seqZ_1 len), <- list_fmap_compose.
    apply list_fmap_ext. intros _ k _. unfold compose. f_equal. lia.
Qed.

Lemma positional_numeral u base skip val (len : nat) :
  2 <= base <= 16 → 0 <= val → Z.of_nat len <= skip →
  positional base (numeral u base skip val (Z.of_nat len)) = val mod base ^ Z.of_nat len ∧
  Forall (λ c, digit_in base c = true ∧ in_u 8 c ∧ c ≠ 0) (numeral u base skip val (Z.of_nat len)).
Proof.
  intros Hb Hv. induction len as [| len IH]; intros Hs.
  { unfold numeral. simpl. by rewrite Zmod_1_r. }
  destruct IH as [IH1 IH2]; [lia |]. rewrite Nat2Z.inj_succ, <- Z.add_1_r, numeral_succ by lia.
  pose proof (Z.mod_pos_bound (val / base ^ Z.of_nat len) base ltac:(lia)) as Hd.
  set (d := (val / base ^ Z.of_nat len) mod base) in *. split.
  - cbn [positional]. rewrite digitval_digit_char, IH1, length_numeral, Nat2Z.id by lia.
    rewrite Z.pow_add_r, Z.pow_1_r by lia. rewrite Z.rem_mul_r by (try apply Z.pow_nonzero; lia). unfold d. lia.
  - constructor; [| done]. unfold digit_in. rewrite digitval_digit_char by lia.
    pose proof (digit_char_byte u d ltac:(lia)). split_and!; [lia | done |].
    unfold digit_char. destruct u, (d <? 10); lia.
Qed.

Lemma s64_u64 v : in_s 64 v → s64 (u64 v) = v.
Proof. intros. rewrite wraps_wrapu by lia. by apply wraps_small. Qed.

(** The text of [%ld]: an optional minus sign and the decimal digits of the
    absolute value. *)
Lemma decimal_text v :
  in_s 64 v →
  ∃ ds, int_text FL_SIGNED 10 (u64 v) 0 (-1) = sign_text (if v <? 0 then Some true else None) ++ ds ∧
    Forall (λ c, digit_in 10 c = true ∧ in_u 8 c ∧ c ≠ 0) ds ∧ positional 10 ds = Z.abs v ∧
    (1 <= length ds <= 19)%nat.
Proof.
  intros Hv. unfold int_text, justify.
  change (has FL_SIGNED FL_MINUS) with false. change (has FL_SIGNED FL_ZERO) with false. cbv iota.
  set (ds := int_body FL_SIGNED 10 (u64 v) (-1)). exists ds.
  assert (int_minus FL_SIGNED (u64 v) = (v <? 0)) as Hmin.
  { unfold int_minus. change (has FL_SIGNED FL_SIGNED) with true. by rewrite s64_u64. }
  assert (in_u 64 (u64 v)) as Hu by (by apply wrapu_range).
  assert (int_mag FL_SIGNED (u64 v) = Z.abs v) as Hmag.
  { unfold int_mag. rewrite Hmin, s64_u64 by done. destruct (Z.ltb_spec v 0); [lia |].
    rewrite wrapu_small; [lia |]. unfold in_u, in_s in *. change (2 ^ (64 - 1)) with (2 ^ 63) in *. lia. }
  assert (Z.abs v < 10 ^ 19) as Hlt by (unfold in_s in Hv; simpl in Hv; lia).
  set (d := int_digits FL_SIGNED 10 (u64 v) (-1)).
  assert (d = Z.max (num_digits 64 10 (Z.abs v)) 1) as Hd.
  { unfold d, int_digits. rewrite Hmag. change (has FL_SIGNED FL_HASH && (10 =? 8)) with false.
    cbv zeta iota. pose proof (num_digits_bounds 64 10 (Z.abs v)). lia. }
  assert (num_digits 64 10 (Z.abs v) <= 19) as H19.
  { destruct (decide (Z.abs v = 0)) as [-> |]; [done |].
    pose proof (num_digits_lower 64 10 (Z.abs v) ltac:(lia) ltac:(change (Z.of_nat 64) with 64; lia)) as Hlow.
    assert (10 ^ (num_digits 64 10 (Z.abs v) - 1) < 10 ^ 19) as Hp by lia.
    apply Z.pow_lt_mono_r_iff in Hp; lia. }
  assert (ds = numeral false 10 d (Z.abs v) (Z.of_nat (Z.to_nat d))) as Hds.
  { unfold ds, int_body, int_skip. fold d. change (has FL_SIGNED FL_TICK) with false.
    change (has FL_SIGNED FL_UPPER) with false. cbv iota zeta. rewrite Hmag, (Z.div_small (d - 1)) by lia.
    f_equal. lia. }
  destruct (positional_numeral false 10 d (Z.abs v) (Z.to_nat d)) as [Hpos Hall]; [lia.. |].
  rewrite <- Hds in Hpos, Hall. split_and!.
  - unfold int_sign. rewrite Hmin. change (int_prefix FL_SIGNED 10) with (@nil Z).
    rewrite app_nil_r. replace (Z.to_nat _) with 0%nat by lia. by destruct (v <? 0).
  - done.
  - rewrite Hpos, Z.mod_small; [done |]. split; [lia |].
    pose proof (num_digits_upper 64 10 (Z.abs v) ltac:(lia) ltac:(change (Z.of_nat 64) with 64; lia)) as Hup.
    eapply Z.lt_le_trans; [exact Hup |]. apply Z.pow_le_mono_r; lia.
  - rewrite Hds, length_numeral; lia.
  - rewrite Hds, length_numeral; lia.
Qed.

(** "%ld" *)
Definition ld_format : list Z := [37; 108; 100].

(** C3.  Printing a [long] with [%ld] and parsing the buffer back with
    [strtol] gives the same number, the end pointer at the terminating NUL:
    for every value, [LONG_MIN] included, and every buffer of at least 21
    bytes. *)
Theorem print_parse_roundtrip m buffer n format v :
  in_s 64 v → 21 <= n → mapped m buffer 21 → cstr m format ld_format →
  format + 4 <= buffer ∨ buffer + 20 <= format →
  ∃ k m', vsnprintf buffer n format [u64 v] m = Some (k, m') ∧
    strtol buffer 10 m' = Some ((v, buffer + k), m').
Proof.
  intros Hv Hn Hm Hc Ha. destruct (decimal_text v Hv) as (ds & Ht & Hds & Hpos & Hlen).
  set (t := int_text FL_SIGNED 10 (u64 v) 0 (-1)) in *.
  assert (render (length ld_format) (λ _, None) ld_format [u64 v] = Some t) as Hr.
  { change (render (length ld_format) (λ _, None) ld_format [u64 v])
      with (Some (int_text FL_SIGNED 10 (u64 (s64 (u64 v))) 0 (-1) ++ [])).
    by rewrite s64_u64, app_nil_r by done. }
  assert (Z.of_nat (length t) <= 20) as Hlt.
  { rewrite Ht, length_app. destruct (v <? 0); simpl; lia. }
  assert (bytes t ∧ Forall (λ b, b ≠ 0) t) as [Hb Hnz].
  { rewrite Ht, !Forall_app. repeat split.
    1, 3: destruct (v <? 0); by_eval.
    all: eapply Forall_impl; [exact Hds |]; naive_solver. }
  eexists _, _. split.
  { apply (vsnprintf_run (λ _, None) m buffer n format ld_format [u64 v] t); try done; [lia.. | | by_eval |].
    - intros k Hk. apply Hm. lia.
    - unfold away. cbn [length ld_format]. lia. }
  rewrite (proj2 (Z.eqb_neq n 0)), take_ge by lia.
  pose proof (cstr_set m buffer t Hnz) as Hcs. set (m' := mem_set m buffer (t ++ [0])) in *.
  unfold strtol. erewrite bind_ok.
  2: { apply (strntoumax_value m' buffer [] (if v <? 0 then Some true else None) [] ds [] 10 10 SIZE_MAX);
         cbn [app]; rewrite ?app_nil_r, <- ?Ht; try done; try lia.
       - by apply BPplain.
       - eapply Forall_impl; [exact Hds |]; naive_solver.
       - destruct ds; [simpl in Hlen; lia | done].
       - unfold SIZE_MAX. lia. }
  cbv beta iota. unfold mret, st_ret. cbn [app]. rewrite <- Ht, wraps_wrapu, Hpos by lia.
  assert (apply_sign (if v <? 0 then Some true else None) (Z.abs v) = v) as ->
    by (destruct (Z.ltb_spec v 0); cbn [apply_sign]; lia).
  by rewrite wraps_small.
Qed.

(** ** Witnesses *)

(** "%-5s|%'u", the string "hi" and an 8-byte buffer. *)
Definition printf_format : list Z := [37; 45; 53; 115; 124; 37; 39; 117].
Definition printf_mem : mem :=
  mem_set (mem_set (mem_set ∅ 16 (replicate 24 255)) 64 (printf_format ++ [0])) 96 [104; 105; 0].
Definition printf_strs (v : Z) : option (list Z) := if v =? 96 then Some [104; 105] else None.

Lemma format_int_correct_witness :
  format_int 16 8 (u64 (-4321)) (Z.lor FL_SIGNED FL_ZERO) 10 7 (-1) printf_mem =
    Some (7, mem_set printf_mem 16 [45; 48; 48; 52; 51; 50; 49]).
Proof. apply (format_int_correct 16 8 (u64 (-4321)) (Z.lor FL_SIGNED FL_ZERO) 10 7 (-1) printf_mem); by_eval. Defined.

(** [snprintf(buf, 12, "%-5s|%'u", "hi", 1234567)] truncates "hi   |1_234_567". *)
Lemma vsnprintf_correct_witness :
  vsnprintf 16 12 64 [96; 1234567] printf_mem =
    Some (15, mem_set printf_mem 16 [104; 105; 32; 32; 32; 124; 49; 95; 50; 51; 52; 0]).
Proof.
  apply (vsnprintf_correct printf_strs printf_mem 16 12 64 printf_format [96; 1234567]
    [104; 105; 32; 32; 32; 124; 49; 95; 50; 51; 52; 95; 53; 54; 55]);
    [vm_compute; reflexivity | by_eval | by_eval | by_eval | by_eval | by_eval | unfold away; simpl; lia |].
  intros v bs. unfold printf_strs. destruct (Z.eqb_spec v 96) as [-> |]; [| done].
  intros [= <-]. split_and!; [by_eval | by_eval | by_eval | unfold away; simpl; lia].
Defined.

Lemma print_parse_roundtrip_witness :
  let m := mem_set (mem_set ∅ 16 (replicate 24 255)) 64 (ld_format ++ [0]) in
  ∃ k m', vsnprintf 16 24 64 [u64 (- 2 ^ 63)] m = Some (k, m') ∧
    strtol 16 10 m' = Some ((- 2 ^ 63, 16 + k), m').
Proof.
  intros m. apply (print_parse_roundtrip m 16 24 64 (- 2 ^ 63)); [by_eval | by_eval | by_eval | by_eval | lia].
Defined.
