(* ===== verification/Chain.v ===== *)
(** * Circular doubly linked lists with a head node

    The allocator's block and free chains ([klibc/malloc.c]) and the list of
    open streams ([klibc/stdio/fxopen.c]) have the same shape: nodes linked in
    both directions through a head node that belongs to the list.  A chain is
    a pair of link maps; [dll] relates it to the list of its nodes. *)

From stdpp Require Import base numbers list gmap.
From S2P Require Import Prelude.

(** [path n x l y]: following [n] from [x] visits [l] and then [y]. *)
Fixpoint path (n : gmap Z Z) (x : Z) (l : list Z) (y : Z) : Prop :=
  match l with
  | [] => n !! x = Some y
  | z :: l => n !! x = Some z ∧ path n z l y
  end.

(** The list [l] hangs off the head node [h], forward by [n], backward by [p]. *)
Definition dll (n p : gmap Z Z) (h : Z) (l : list Z) : Prop :=
  path n h l h ∧ path p h (reverse l) h.

(** The neighbours of a position that splits the list into [l1] and [l2]. *)
Definition pred_of (h : Z) (l1 : list Z) : Z := default h (last l1).
Definition succ_of (h : Z) (l2 : list Z) : Z := default h (list.head l2).

Lemma path_app n x l1 z l2 y : path n x (l1 ++ z :: l2) y ↔ path n x l1 z ∧ path n z l2 y.
Proof. revert x. induction l1 as [| w l1 IH]; intros x; simpl; [done |]. rewrite IH. tauto. Qed.

Lemma path_insert_ne n x l y k v : path n x l y → k ∉ x :: l → path (<[k := v]> n) x l y.
Proof.
  revert x. induction l as [| z l IH]; intros x; simpl.
  - intros Hp Hk. rewrite lookup_insert_ne; set_solver.
  - intros [Hx Hp] Hk. split; [rewrite lookup_insert_ne; set_solver | apply IH; set_solver].
Qed.

(** Redirecting the last link of a path. *)
Lemma path_set_last n x l y y' :
  NoDup (x :: l) → path n x l y → path (<[default x (last l) := y']> n) x l y'.
Proof.
  destruct (decide (l = [])) as [-> | Hne]; [intros _ _; simpl; apply lookup_insert_eq |].
  destruct (exists_last Hne) as (l1 & z & ->). rewrite last_snoc. simpl default.
  intros Hnd [H1 _]%path_app. apply path_app. split; [| simpl; apply lookup_insert_eq].
  apply path_insert_ne; [done |]. apply NoDup_cons in Hnd as [Hx Hnd].
  apply NoDup_app in Hnd as (_ & Hd & _). set_solver.
Qed.

Lemma path_head n x l y : path n x l y → n !! x = Some (default y (list.head l)).
Proof. destruct l; simpl; tauto. Qed.

Lemma path_remove n h l1 a l2 :
  NoDup (h :: l1 ++ a :: l2) → path n h (l1 ++ a :: l2) h →
  path (<[pred_of h l1 := succ_of h l2]> n) h (l1 ++ l2) h.
Proof.
  intros Hnd [H1 H2]%path_app. unfold pred_of, succ_of.
  assert (NoDup (h :: l1)) as Hnd1.
  { change (h :: l1 ++ a :: l2) with ((h :: l1) ++ a :: l2) in Hnd. by apply NoDup_app in Hnd as [? _]. }
  destruct l2 as [| z l2]; cbn [list.head default from_option].
  - rewrite app_nil_r. by apply (path_set_last n h l1 a).
  - destruct H2 as [_ H2]. apply path_app. split; [by apply (path_set_last n h l1 a) |].
    apply path_insert_ne; [done |]. change (h :: l1 ++ a :: z :: l2) with ((h :: l1) ++ a :: z :: l2) in Hnd.
    apply NoDup_app in Hnd as (_ & Hd & _). intros Hin. apply (Hd (default h (last l1))); [| set_solver].
    destruct (last l1) as [w |] eqn:E; simpl; [| set_solver]. apply last_Some in E as [l' ->]. set_solver.
Qed.

Lemma pred_of_in h l1 : pred_of h l1 ∈ h :: l1.
Proof.
  unfold pred_of. destruct (last l1) as [w |] eqn:E; simpl; [| set_solver].
  apply last_Some in E as [l' ->]. set_solver.
Qed.

Lemma succ_of_in h l2 : succ_of h l2 ∈ h :: l2.
Proof. unfold succ_of. destruct l2; set_solver. Qed.

(** Linking a new node [z] in, whatever followed the position before. *)
Lemma path_link n h l1 z l2 w :
  NoDup (h :: l1 ++ z :: l2) → path n h l1 w →
  match l2 with [] => True | y :: l2' => path n y l2' h end →
  path (<[pred_of h l1 := z]> (<[z := succ_of h l2]> n)) h (l1 ++ z :: l2) h.
Proof.
  intros Hnd H1 H2. pose proof (pred_of_in h l1) as Hp.
  change (h :: l1 ++ z :: l2) with ((h :: l1) ++ z :: l2) in Hnd.
  apply NoDup_app in Hnd as (Hnd1 & Hd & Hnd2).
  apply path_app. split.
  - apply (path_set_last _ h l1 w); [done |]. apply path_insert_ne; [done |]. set_solver.
  - assert (pred_of h l1 ∉ z :: l2) as Hnp by (intros ?; by eapply Hd).
    apply path_insert_ne; [| done]. unfold succ_of. destruct l2 as [| y l2]; simpl; [by rewrite lookup_insert_eq |].
    split; [by rewrite lookup_insert_eq |]. apply path_insert_ne; [done |].
    apply NoDup_cons in Hnd2 as [Hz _]. done.
Qed.

Lemma reverse_mid {A} (l1 : list A) a l2 : reverse (l1 ++ a :: l2) = reverse l2 ++ a :: reverse l1.
Proof. by rewrite reverse_app, reverse_cons, <- app_assoc. Qed.

Lemma pred_reverse h l : pred_of h (reverse l) = succ_of h l.
Proof. unfold pred_of, succ_of. by rewrite last_reverse. Qed.

Lemma succ_reverse h l : succ_of h (reverse l) = pred_of h l.
Proof. rewrite <- pred_reverse, reverse_involutive. done. Qed.

Lemma NoDup_reverse_cons (h : Z) l : NoDup (h :: l) → NoDup (h :: reverse l).
Proof. intros [? ?]%NoDup_cons. apply NoDup_cons. by rewrite elem_of_reverse, reverse_Permutation. Qed.

Section dll.
Context (h : Z).

Lemma dll_prev n p l1 a l2 : dll n p h (l1 ++ a :: l2) → p !! a = Some (pred_of h l1).
Proof.
  intros [_ Hp]. rewrite reverse_mid in Hp. apply path_app in Hp as [_ Hp]. apply path_head in Hp.
  by rewrite Hp, <- succ_reverse.
Qed.

Lemma dll_next n p l1 a l2 : dll n p h (l1 ++ a :: l2) → n !! a = Some (succ_of h l2).
Proof. intros [Hn _]. apply path_app in Hn as [_ Hn]. by apply path_head in Hn. Qed.

Lemma dll_first n p l : dll n p h l → n !! h = Some (succ_of h l).
Proof. intros [Hn _]. by apply path_head in Hn. Qed.

Lemma dll_last n p l : dll n p h l → p !! h = Some (pred_of h l).
Proof. intros [_ Hp]. apply path_head in Hp. by rewrite Hp, <- succ_reverse. Qed.

Lemma dll_remove n p l1 a l2 :
  NoDup (h :: l1 ++ a :: l2) → dll n p h (l1 ++ a :: l2) →
  dll (<[pred_of h l1 := succ_of h l2]> n) (<[succ_of h l2 := pred_of h l1]> p) h (l1 ++ l2).
Proof.
  intros Hnd [Hn Hp]. split; [by apply (path_remove n h l1 a l2) |]. rewrite reverse_app.
  rewrite <- (pred_reverse h l2), <- (succ_reverse h l1). apply (path_remove p h _ a).
  - rewrite <- reverse_mid. by apply NoDup_reverse_cons.
  - by rewrite <- reverse_mid.
Qed.

(** Inserting [z] between [l1] and [l2]. *)
Lemma dll_insert n p l1 z l2 :
  NoDup (h :: l1 ++ z :: l2) → dll n p h (l1 ++ l2) →
  dll (<[pred_of h l1 := z]> (<[z := succ_of h l2]> n))
      (<[succ_of h l2 := z]> (<[z := pred_of h l1]> p)) h (l1 ++ z :: l2).
Proof.
  assert (∀ (n : gmap Z Z) l1 l2, path n h (l1 ++ l2) h →
    (∃ w, path n h l1 w) ∧ match l2 with [] => True | y :: l2' => path n y l2' h end) as Hsplit.
  { clear. intros n l1 [| y l2] Hp; [rewrite app_nil_r in Hp; eauto |].
    apply path_app in Hp as [? ?]. eauto. }
  intros Hnd [Hn Hp]. destruct (Hsplit _ _ _ Hn) as [[w1 ?] ?]. rewrite reverse_app in Hp.
  destruct (Hsplit _ _ _ Hp) as [[w2 ?] ?]. split; [by eapply path_link |].
  rewrite reverse_mid, <- (pred_reverse h l2), <- (succ_reverse h l1). eapply path_link; [| done..].
  rewrite <- reverse_mid. by apply NoDup_reverse_cons.
Qed.

(** Replacing [a] by [z]. *)
Lemma dll_replace n p l1 a z l2 :
  NoDup (h :: l1 ++ a :: l2) → NoDup (h :: l1 ++ z :: l2) → dll n p h (l1 ++ a :: l2) →
  dll (<[pred_of h l1 := z]> (<[z := succ_of h l2]> n))
      (<[succ_of h l2 := z]> (<[z := pred_of h l1]> p)) h (l1 ++ z :: l2).
Proof.
  assert (∀ (n : gmap Z Z) l1 l2, path n h (l1 ++ a :: l2) h →
    path n h l1 a ∧ match l2 with [] => True | y :: l2' => path n y l2' h end) as Hsplit.
  { clear. intros n l1 l2 [? H2]%path_app. split; [done |]. destruct l2; [done |]. apply H2. }
  intros _ Hnd [Hn Hp]. destruct (Hsplit _ _ _ Hn) as [? ?]. rewrite reverse_mid in Hp.
  destruct (Hsplit _ _ _ Hp) as [? ?]. split; [by eapply path_link |].
  rewrite reverse_mid, <- (pred_reverse h l2), <- (succ_reverse h l1). eapply path_link; [| done..].
  rewrite <- reverse_mid. by apply NoDup_reverse_cons.
Qed.
End dll.

