(* ===== verification/Malloc.v ===== *)
(** * The memory allocator: [klibc/malloc.c], [malloc.h], [calloc.c], [realloc.c]

    Blocks are described by headers that form two circular doubly linked
    lists with a common head node: the main chain of all blocks in address
    order, and the free chain.  The header fields are kept as one map per
    field, indexed by the header's address, so that an assignment such as
    [ap->a.next = an] changes the map of [next] only, whatever the pointers
    alias.  [data] is the byte memory that user data lives in.

    The configuration is [_KLIBC_MALLOC_USES_SBRK 0] (memory comes from
    [mmap]) without [DEBUG_MALLOC], on LP64: [sizeof(struct arena_header)] is
    32.  The kernel is a parameter: [mmap] gives the address it answers for a
    request, [page_size] is [getpagesize()].

    The invariant [wf] says that the two chains, the header fields and the
    layout of the blocks agree; [used] is the abstract state of the allocator,
    the list of allocated blocks. *)

From stdpp Require Import base numbers list gmap.
From Stdlib Require Import Lia.
From S2P Require Import Prelude Chain Memory MemOps.

(** ** The code *)

Definition ARENA_TYPE_USED : Z := 0.
Definition ARENA_TYPE_FREE : Z := 1.
Definition ARENA_TYPE_HEAD : Z := 2.

Definition HDR : Z := 32.                     (* sizeof(struct arena_header) *)
Definition CHUNK_SIZE : Z := 65536.           (* _KLIBC_MALLOC_CHUNK_SIZE *)
Definition MAP_FAILED : Z := 2 ^ 64 - 1.

(** The fields of all headers, and the bytes of all mappings. *)
Record arena := mk_arena {
  ty : gmap Z Z; sz : gmap Z Z;
  nx : gmap Z Z; pv : gmap Z Z;
  nf : gmap Z Z; pf : gmap Z Z;
  data : mem;
}.

Definition set_ty (f : gmap Z Z → gmap Z Z) (s : arena) : arena :=
  mk_arena (f (ty s)) (sz s) (nx s) (pv s) (nf s) (pf s) (data s).
Definition set_sz (f : gmap Z Z → gmap Z Z) (s : arena) : arena :=
  mk_arena (ty s) (f (sz s)) (nx s) (pv s) (nf s) (pf s) (data s).
Definition set_nx (f : gmap Z Z → gmap Z Z) (s : arena) : arena :=
  mk_arena (ty s) (sz s) (f (nx s)) (pv s) (nf s) (pf s) (data s).
Definition set_pv (f : gmap Z Z → gmap Z Z) (s : arena) : arena :=
  mk_arena (ty s) (sz s) (nx s) (f (pv s)) (nf s) (pf s) (data s).
Definition set_nf (f : gmap Z Z → gmap Z Z) (s : arena) : arena :=
  mk_arena (ty s) (sz s) (nx s) (pv s) (f (nf s)) (pf s) (data s).
Definition set_pf (f : gmap Z Z → gmap Z Z) (s : arena) : arena :=
  mk_arena (ty s) (sz s) (nx s) (pv s) (nf s) (f (pf s)) (data s).
Definition set_data (m : mem) (s : arena) : arena :=
  mk_arena (ty s) (sz s) (nx s) (pv s) (nf s) (pf s) m.

Abbreviation H := (st arena).

(** Reading a field of a header that was never written is a fault. *)
Definition get (f : arena → gmap Z Z) (a : Z) : H Z := λ s,
  match f s !! a with Some v => Some (v, s) | None => None end.
Definition put (g : (gmap Z Z → gmap Z Z) → arena → arena) (a v : Z) : H unit := λ s,
  Some (tt, g <[a := v]> s).
Definition on_data {A} (c : C A) : H A := λ s,
  match c (data s) with Some (r, m) => Some (r, set_data m s) | None => None end.

Definition upd_data (f : mem → mem) : H unit := λ s, Some (tt, set_data (f (data s)) s).

(** A bound for the walks along the chains: no chain has more nodes than there
    are headers. *)
Definition nheaders (s : arena) : nat := size (ty s).

(** What [mmap] and [munmap] do to the mapped bytes. *)
Definition map_region (a n : Z) (m : mem) : mem := mem_set m a (replicate (Z.to_nat n) 0).
Definition unmap_region (a n : Z) (m : mem) : mem :=
  filter (λ kv, kv.1 < a ∨ a + n <= kv.1) m.

Section code.
Context (head : Z).                        (* &__malloc_head *)
Context (page_size : Z).                   (* getpagesize() *)
Context (mmap : Z → Z).                    (* the kernel's answer to a request *)

Definition remove_from_main_chain (ah : Z) : H unit :=
  ap ← get pv ah;
  an ← get nx ah;
  put set_nx ap an;;
  put set_pv an ap.

Definition remove_from_free_chain (ah : Z) : H unit :=
  ap ← get pf ah;
  an ← get nf ah;
  put set_nf ap an;;
  put set_pf an ap.

Definition remove_from_chains (ah : Z) : H unit :=
  remove_from_free_chain ah;;
  remove_from_main_chain ah.

Definition __malloc_from_block (fp size : Z) : H Z :=
  fsize ← get sz fp;
  (if u64 (size + 2 * HDR) <=? fsize then
     let nfp := fp + size in
     na ← get nx fp;
     put set_ty nfp ARENA_TYPE_FREE;;
     put set_sz nfp (u64 (fsize - size));;
     put set_ty fp ARENA_TYPE_USED;;
     put set_sz fp size;;
     put set_pv nfp fp;;
     put set_nx nfp na;;
     put set_pv na nfp;;
     put set_nx fp nfp;;
     fpn ← get nf fp;
     put set_nf nfp fpn;;
     fpp ← get pf fp;
     put set_pf nfp fpp;;
     put set_pf fpn nfp;;
     put set_nf fpp nfp
   else
     put set_ty fp ARENA_TYPE_USED;;
     remove_from_free_chain fp);;
  mret (fp + HDR).

(** Coalesce into the previous block, or add the block to the free chain;
    returns the block that contains [ah]. *)
Definition merge_prev (ah pah nah : Z) : H Z :=
  pty ← get ty pah;
  adjacent ← (if pty =? ARENA_TYPE_FREE then
                psz ← get sz pah; mret (pah + psz =? ah)
              else mret false);
  if adjacent : bool then
    psz ← get sz pah;
    asz ← get sz ah;
    put set_sz pah (u64 (psz + asz));;
    put set_nx pah nah;;
    put set_pv nah pah;;
    mret pah
  else
    put set_ty ah ARENA_TYPE_FREE;;
    hn ← get nf head;
    put set_nf ah hn;;
    put set_pf ah head;;
    put set_nf head ah;;
    an ← get nf ah;
    put set_pf an ah;;
    mret ah.

(** Merge with the subsequent block. *)
Definition merge_next (ah nah : Z) : H unit :=
  nty ← get ty nah;
  adjacent ← (if nty =? ARENA_TYPE_FREE then
                asz ← get sz ah; mret (ah + asz =? nah)
              else mret false);
  if adjacent : bool then
    asz ← get sz ah;
    nsz ← get sz nah;
    put set_sz ah (u64 (asz + nsz));;
    remove_from_chains nah
  else mret tt.

Definition __free_block (ah : Z) : H Z :=
  pah ← get pv ah;
  nah ← get nx ah;
  ah ← merge_prev ah pah nah;
  merge_next ah nah;;
  mret ah.

(** [for (fp = head.next_free; fp->type != HEAD; fp = fp->next_free)] *)
Fixpoint find_fit (fuel : nat) (size fp : Z) : H (option Z) :=
  t ← get ty fp;
  if t =? ARENA_TYPE_HEAD then mret None
  else match fuel with
       | O => fault
       | S f =>
           fsize ← get sz fp;
           if size <=? fsize then mret (Some fp)
           else fp ← get nf fp; find_fit f size fp
       end.

(** [for (pah = head.prev; pah->type != HEAD; pah = pah->prev) if (pah < fp) break;] *)
Fixpoint find_pred (fuel : nat) (fp pah : Z) : H Z :=
  t ← get ty pah;
  if t =? ARENA_TYPE_HEAD then mret pah
  else match fuel with
       | O => fault
       | S f => if pah <? fp then mret pah else pah ← get pv pah; find_pred f fp pah
       end.

(** [(x + 2^k - 1) & ~(2^k - 1)] as the code writes it, on [size_t]. *)
Definition round_request (size : Z) : Z := Z.land (u64 (size + 2 * HDR - 1)) (2 ^ 64 - HDR).
Definition round_chunk (size : Z) : Z := Z.land (u64 (size + (CHUNK_SIZE - 1))) (2 ^ 64 - CHUNK_SIZE).

(** Insert a block from the kernel into the main chain, in address order, and
    release it; [fuel] bounds the walk. *)
Definition add_chunk (fuel : nat) (fp fsize : Z) : H Z :=
  upd_data (map_region fp fsize);;
  put set_ty fp ARENA_TYPE_FREE;;
  put set_sz fp fsize;;
  last ← get pv head;
  pah ← find_pred fuel fp last;
  pn ← get nx pah;
  put set_nx fp pn;;
  put set_pv fp pah;;
  put set_nx pah fp;;
  fn ← get nx fp;
  put set_pv fn fp;;
  __free_block fp.

Definition malloc (size : Z) : H Z := λ s,
  (if size =? 0 then mret NULL
   else
     let size := round_request size in
     first ← get nf head;
     fit ← find_fit (nheaders s) size first;
     match fit with
     | Some fp => __malloc_from_block fp size
     | None =>
         let fsize := round_chunk size in
         let fp := mmap fsize in
         if fp =? MAP_FAILED then mret NULL
         else
           fp ← add_chunk (nheaders s) fp fsize;
           __malloc_from_block fp size
     end) s.

(** [if (portion && portion < 2*sizeof(struct arena_header)) portion += page_size;] *)
Definition adjust_portion (portion : Z) : Z :=
  if negb (portion =? 0) && (portion <? 2 * HDR) then portion + page_size else portion.

(** The new header for the pages' tail, inserted right after the block. *)
Definition split_tail (ah tah tail_portion : Z) : H unit :=
  put set_ty tah ARENA_TYPE_FREE;;
  put set_sz tah tail_portion;;
  tan ← get nx ah;
  put set_nx tah tan;;
  put set_pv tan tah;;
  put set_pv tah ah;;
  put set_nx ah tah;;
  tap ← get pf ah;
  put set_pf tah tap;;
  put set_nf tap tah;;
  put set_nf tah ah;;
  put set_pf ah tah.

(** Return the whole pages of a large free block to the system. *)
Definition trim (ah : Z) : H unit :=
  asz ← get sz ah;
  let page_mask := page_size - 1 in
  let head_portion := adjust_portion (Z.land (u64 (- ah)) page_mask) in
  let tail_portion := adjust_portion (Z.land (u64 (ah + asz)) page_mask) in
  let adj_size := u64 (asz - head_portion - tail_portion) in
  if u64 (head_portion + tail_portion + CHUNK_SIZE) <=? asz then
    (if negb (tail_portion =? 0) then split_tail ah (ah + head_portion + adj_size) tail_portion
     else mret tt);;
    (if negb (head_portion =? 0) then put set_sz ah head_portion else remove_from_chains ah);;
    upd_data (unmap_region (ah + head_portion) adj_size)
  else mret tt.

Definition free (ptr : Z) : H unit :=
  if ptr =? NULL then mret tt
  else ah ← __free_block (ptr - HDR); trim ah.

Definition calloc (nmemb size : Z) : H Z :=
  let size := u64 (size * nmemb) in
  ptr ← malloc size;
  (if negb (ptr =? NULL) then on_data (Mem.memset ptr 0 size);; mret tt else mret tt);;
  mret ptr.

Definition realloc (ptr size : Z) : H Z :=
  if ptr =? NULL then malloc size
  else if size =? 0 then free ptr;; mret NULL
  else
    let size := round_request size in
    let ah := ptr - HDR in
    asz ← get sz ah;
    if (size <=? asz) && (Z.shiftr asz 2 <=? size) then mret ptr
    else
      let oldsize := u64 (asz - HDR) in
      newptr ← malloc size;
      on_data (Mem.memcpy newptr ptr (if size <? oldsize then size else oldsize));;
      free ptr;;
      mret newptr.
End code.

(** The state before the first call: only the head node. *)
Definition malloc_init (head : Z) : arena :=
  let self := {[ head := head ]} in
  mk_arena {[ head := ARENA_TYPE_HEAD ]} {[ head := 0 ]} self self self self ∅.

(** ** Blocks *)

(** [BPending] is a block on the main chain that is neither allocated nor on
    the free chain: the argument of [__free_block]. *)
Inductive kind := BUsed | BFree | BPending.

Global Instance kind_eq_dec : EqDecision kind.
Proof. solve_decision. Defined.

Record blk := Blk { b_addr : Z; b_size : Z; b_kind : kind }.

Definition b_end (b : blk) : Z := b_addr b + b_size b.
Definition addrs (bs : list blk) : list Z := b_addr <$> bs.
Definition is_kind (k : kind) (b : blk) : Prop := b_kind b = k.

Global Instance is_kind_dec k b : Decision (is_kind k b).
Proof. unfold is_kind. apply _. Defined.

(** The abstract state: the allocated blocks. *)
Definition used (bs : list blk) : list (Z * Z) := (λ b, (b_addr b, b_size b)) <$> filter (is_kind BUsed) bs.

(** A block can hold a free header, and is aligned. *)
Definition blk_ok (b : blk) : Prop := 64 <= b_size b ∧ (HDR | b_addr b) ∧ (HDR | b_size b).

(** The blocks lie between [lo] and [hi] in address order without overlap. *)
Fixpoint layout (lo : Z) (bs : list blk) (hi : Z) : Prop :=
  match bs with
  | [] => lo <= hi
  | b :: bs => lo <= b_addr b ∧ blk_ok b ∧ layout (b_end b) bs hi
  end.

Definition hdr_ok (t z : gmap Z Z) (b : blk) : Prop :=
  z !! b_addr b = Some (b_size b) ∧
  match b_kind b with
  | BUsed => t !! b_addr b = Some ARENA_TYPE_USED
  | BFree => t !! b_addr b = Some ARENA_TYPE_FREE
  | BPending => True
  end.

(** Block addresses are below the sign bit, as user-space addresses are. *)
Definition TOP : Z := 2 ^ 63.

Record wf (head : Z) (s : arena) (bs : list blk) (fs : list Z) : Prop := mk_wf {
  wf_main : dll (nx s) (pv s) head (addrs bs);
  wf_free : dll (nf s) (pf s) head fs;
  wf_perm : fs ≡ₚ addrs (filter (is_kind BFree) bs);
  wf_hdrs : Forall (hdr_ok (ty s) (sz s)) bs;
  wf_head : ty s !! head = Some ARENA_TYPE_HEAD;
  wf_layout : layout 1 bs TOP;
  wf_away : Forall (λ b, head < b_addr b ∨ b_end b <= head) bs;
  wf_mapped : Forall (λ b, mapped (data s) (b_addr b) (b_size b)) bs;
}.

Lemma layout_le lo bs hi : layout lo bs hi → lo <= hi.
Proof.
  revert lo. induction bs as [| b bs IH]; intros lo; simpl; [done |].
  intros (? & [? _] & Hl). apply IH in Hl. unfold b_end in Hl. lia.
Qed.

Lemma layout_app lo bs1 b bs2 hi :
  layout lo (bs1 ++ b :: bs2) hi ↔
  layout lo bs1 (b_addr b) ∧ blk_ok b ∧ layout (b_end b) bs2 hi.
Proof.
  revert lo. induction bs1 as [| c bs1 IH]; intros lo; simpl; [tauto |]. rewrite IH. tauto.
Qed.

Lemma layout_mono lo lo' bs hi hi' : layout lo bs hi → lo' <= lo → hi <= hi' → layout lo' bs hi'.
Proof.
  revert lo lo'. induction bs as [| b bs IH]; intros lo lo'; simpl; [lia |].
  intros (? & ? & Hl) ? ?. split_and!; [lia | done |]. by eapply IH.
Qed.

Lemma layout_range lo bs hi b :
  layout lo bs hi → b ∈ bs → blk_ok b ∧ lo <= b_addr b ∧ b_end b <= hi.
Proof.
  intros Hl (bs1 & bs2 & ->)%list_elem_of_split. apply layout_app in Hl as (H1 & H2 & H3).
  apply layout_le in H1, H3. done.
Qed.

(** The blocks around one block are disjoint from it. *)
Lemma layout_disjoint lo bs1 b bs2 hi c :
  layout lo (bs1 ++ b :: bs2) hi → c ∈ bs1 ++ bs2 → b_end c <= b_addr b ∨ b_end b <= b_addr c.
Proof.
  intros (H1 & _ & H2)%layout_app [Hc | Hc]%elem_of_app; [left | right].
  - by destruct (layout_range _ _ _ _ H1 Hc) as (_ & _ & ?).
  - by destruct (layout_range _ _ _ _ H2 Hc) as (_ & ? & _).
Qed.

(** An address inside a block is the address of no other block. *)
Lemma layout_fresh lo bs1 b bs2 hi a :
  layout lo (bs1 ++ b :: bs2) hi → b_addr b <= a < b_end b → a ∉ addrs (bs1 ++ bs2).
Proof.
  intros Hl Ha Hin. unfold addrs in Hin. apply list_elem_of_fmap in Hin as (c & -> & Hc).
  pose proof (layout_disjoint _ _ _ _ _ _ Hl Hc) as Hd.
  assert (64 <= b_size c) as Hs.
  { apply layout_app in Hl as (H1 & _ & H2). apply elem_of_app in Hc as [Hc | Hc].
    - destruct (layout_range _ _ _ _ H1 Hc) as [[? _] _]. done.
    - destruct (layout_range _ _ _ _ H2 Hc) as [[? _] _]. done. }
  unfold b_end in *. lia.
Qed.

Lemma addrs_app bs1 bs2 : addrs (bs1 ++ bs2) = addrs bs1 ++ addrs bs2.
Proof. apply fmap_app. Qed.

Lemma layout_NoDup lo bs hi : layout lo bs hi → NoDup (addrs bs).
Proof.
  revert lo. induction bs as [| b bs IH]; intros lo; [constructor |]. intros Hl.
  apply NoDup_cons. split.
  - apply (layout_fresh lo [] b bs hi (b_addr b) Hl). simpl in Hl. destruct Hl as (_ & [? _] & _).
    unfold b_end. lia.
  - simpl in Hl. destruct Hl as (_ & _ & Hl). by eapply IH.
Qed.

Section frames.
Context (head : Z).

Lemma away_not_in bs :
  Forall (λ b, head < b_addr b ∨ b_end b <= head) bs → Forall blk_ok bs → head ∉ addrs bs.
Proof.
  intros Ha Hk Hin. unfold addrs in Hin. apply list_elem_of_fmap in Hin as (c & E & Hc).
  rewrite Forall_forall in Ha, Hk. specialize (Ha c Hc). destruct (Hk c Hc) as [? _]. unfold b_end in Ha. lia.
Qed.

Lemma layout_blk_ok lo bs hi : layout lo bs hi → Forall blk_ok bs.
Proof. intros Hl. apply Forall_forall. intros b Hb. by destruct (layout_range _ _ _ _ Hl Hb). Qed.

Lemma wf_NoDup s bs fs : wf head s bs fs → NoDup (head :: addrs bs).
Proof.
  intros W. apply NoDup_cons. split; [| eapply layout_NoDup, W].
  apply away_not_in; [apply W | eapply layout_blk_ok, W].
Qed.

Lemma addrs_filter_subset k bs a : a ∈ addrs (filter (is_kind k) bs) → a ∈ addrs bs.
Proof.
  unfold addrs. rewrite !list_elem_of_fmap. intros (b & -> & [_ Hb]%list_elem_of_filter). eauto.
Qed.

Lemma NoDup_addrs_filter k bs : NoDup (addrs bs) → NoDup (addrs (filter (is_kind k) bs)).
Proof.
  unfold addrs. induction bs as [| b bs IH]; [constructor |]. cbn [fmap list_fmap].
  intros [Hb Hbs]%NoDup_cons. rewrite filter_cons. case_decide; [| by apply IH].
  cbn [fmap list_fmap]. apply NoDup_cons. split; [| by apply IH].
  intros Hin. apply Hb. by apply (addrs_filter_subset k bs).
Qed.

Lemma wf_NoDup_free s bs fs : wf head s bs fs → NoDup (head :: fs).
Proof.
  intros W. pose proof (wf_NoDup _ _ _ W) as [Hh Hnd]%NoDup_cons. apply NoDup_cons.
  rewrite (wf_perm _ _ _ _ W). split; [| by apply NoDup_addrs_filter].
  intros Hin. apply Hh. by eapply addrs_filter_subset.
Qed.

Lemma hdrs_insert_ty t z bs k v :
  k ∉ addrs bs → Forall (hdr_ok t z) bs → Forall (hdr_ok (<[k := v]> t) z) bs.
Proof.
  intros Hk Hb. rewrite Forall_forall in *. intros b Hin. destruct (Hb b Hin) as [Hz Ht]. split; [done |].
  assert (k ≠ b_addr b) by (intros ->; apply Hk; unfold addrs; apply list_elem_of_fmap; eauto).
  destruct (b_kind b); rewrite ?lookup_insert_ne; done.
Qed.

Lemma hdrs_insert_sz t z bs k v :
  k ∉ addrs bs → Forall (hdr_ok t z) bs → Forall (hdr_ok t (<[k := v]> z)) bs.
Proof.
  intros Hk Hb. rewrite Forall_forall in *. intros b Hin. destruct (Hb b Hin) as [Hz Ht]. split; [| done].
  assert (k ≠ b_addr b) by (intros ->; apply Hk; unfold addrs; apply list_elem_of_fmap; eauto).
  by rewrite lookup_insert_ne.
Qed.
End frames.

(** ** The block operations keep the invariant *)

Lemma get_ok f a v s : f s !! a = Some v → get f a s = Some (v, s).
Proof. unfold get. by intros ->. Qed.

Ltac get_step := erewrite bind_ok by (apply get_ok; cbn [ty sz nx pv nf pf data set_ty set_sz set_nx set_pv set_nf set_pf set_data]; eassumption).
Ltac put_step := erewrite bind_ok by reflexivity.

Lemma pred_of_snoc h l a : pred_of h (l ++ [a]) = a.
Proof. unfold pred_of. by rewrite last_snoc. Qed.

Lemma filter_mid {A} (P : A → Prop) `{∀ x, Decision (P x)} (l1 : list A) a l2 :
  filter P (l1 ++ a :: l2) = filter P l1 ++ filter P [a] ++ filter P l2.
Proof. rewrite filter_app. f_equal. change (a :: l2) with ([a] ++ l2). by rewrite filter_app. Qed.

Lemma filter_kind k b : filter (is_kind k) [b] = if decide (b_kind b = k) then [b] else [].
Proof. rewrite filter_cons. unfold is_kind. by destruct (decide (b_kind b = k)). Qed.

Lemma NoDup_mid {A} (h : A) l1 z l2 :
  NoDup (h :: l1 ++ l2) → z ∉ h :: l1 ++ l2 → NoDup (h :: l1 ++ z :: l2).
Proof.
  intros Hnd Hz. rewrite <- Permutation_middle. assert (h :: z :: l1 ++ l2 ≡ₚ z :: h :: l1 ++ l2) as -> by constructor.
  by apply NoDup_cons.
Qed.

Lemma NoDup_drop_mid {A} (h : A) l1 a l2 : NoDup (h :: l1 ++ a :: l2) → NoDup (h :: l1 ++ l2).
Proof.
  rewrite <- Permutation_middle. rewrite !NoDup_cons, not_elem_of_cons. tauto.
Qed.

Section operations.
Context (head : Z).

Lemma remove_from_free_chain_spec s f1 a f2 :
  dll (nf s) (pf s) head (f1 ++ a :: f2) →
  remove_from_free_chain a s =
    Some (tt, set_pf (<[succ_of head f2 := pred_of head f1]>) (set_nf (<[pred_of head f1 := succ_of head f2]>) s)).
Proof.
  intros D. unfold remove_from_free_chain.
  pose proof (dll_prev _ _ _ _ _ _ D). pose proof (dll_next _ _ _ _ _ _ D).
  get_step. get_step. put_step. done.
Qed.

Lemma remove_from_main_chain_spec s l1 a l2 :
  dll (nx s) (pv s) head (l1 ++ a :: l2) →
  remove_from_main_chain a s =
    Some (tt, set_pv (<[succ_of head l2 := pred_of head l1]>) (set_nx (<[pred_of head l1 := succ_of head l2]>) s)).
Proof.
  intros D. unfold remove_from_main_chain.
  pose proof (dll_prev _ _ _ _ _ _ D). pose proof (dll_next _ _ _ _ _ _ D).
  get_step. get_step. put_step. done.
Qed.

(** Facts about a block in the middle of a well-formed arena. *)
Lemma wf_split s bs1 b bs2 fs :
  wf head s (bs1 ++ b :: bs2) fs →
  Forall (hdr_ok (ty s) (sz s)) (bs1 ++ bs2) ∧ hdr_ok (ty s) (sz s) b ∧ blk_ok b ∧
  layout 1 bs1 (b_addr b) ∧ layout (b_end b) bs2 TOP ∧ (b_addr b ∉ addrs (bs1 ++ bs2)) ∧
  (head < b_addr b ∨ b_end b <= head) ∧ mapped (data s) (b_addr b) (b_size b) ∧
  1 <= b_addr b ∧ b_end b <= TOP.
Proof.
  intros W. pose proof (wf_hdrs _ _ _ _ W) as Hh. rewrite Forall_app, Forall_cons in Hh.
  pose proof (wf_layout _ _ _ _ W) as Hl. pose proof Hl as (L1 & L2 & L3)%layout_app.
  pose proof (wf_away _ _ _ _ W) as Ha. rewrite Forall_app, Forall_cons in Ha.
  pose proof (wf_mapped _ _ _ _ W) as Hm. rewrite Forall_app, Forall_cons in Hm.
  rewrite Forall_app. split_and!; try tauto.
  - eapply (layout_fresh 1 bs1 b bs2 TOP); [done |]. destruct L2 as [? _]. unfold b_end. lia.
  - by apply layout_le in L1.
  - by apply layout_le in L3.
Qed.

Lemma wf_others s bs1 b bs2 fs :
  wf head s (bs1 ++ b :: bs2) fs →
  Forall (λ b, head < b_addr b ∨ b_end b <= head) (bs1 ++ bs2) ∧
  Forall (λ b, mapped (data s) (b_addr b) (b_size b)) (bs1 ++ bs2).
Proof.
  intros W. pose proof (wf_away _ _ _ _ W) as Ha. pose proof (wf_mapped _ _ _ _ W) as Hm.
  rewrite !Forall_app, !Forall_cons in *. tauto.
Qed.

Lemma wf_free_split s bs1 b bs2 fs :
  wf head s (bs1 ++ b :: bs2) fs → b_kind b = BFree →
  ∃ f1 f2, fs = f1 ++ b_addr b :: f2 ∧ f1 ++ f2 ≡ₚ addrs (filter (is_kind BFree) (bs1 ++ bs2)).
Proof.
  intros W Hk. pose proof (wf_perm _ _ _ _ W) as Hp.
  rewrite filter_mid, filter_kind, decide_True, !addrs_app in Hp by done.
  assert (b_addr b ∈ fs) as Hin by (rewrite Hp; set_solver).
  apply list_elem_of_split in Hin as (f1 & f2 & ->). exists f1, f2. split; [done |].
  rewrite filter_app, addrs_app.
  apply (Permutation_cons_inv (a := b_addr b)). rewrite Permutation_middle, Hp. simpl.
  by rewrite Permutation_middle.
Qed.

(** Allocating the whole of a free block. *)
Lemma take_block s bs1 b bs2 f1 f2 :
  wf head s (bs1 ++ b :: bs2) (f1 ++ b_addr b :: f2) →
  f1 ++ f2 ≡ₚ addrs (filter (is_kind BFree) (bs1 ++ bs2)) →
  wf head (set_pf (<[succ_of head f2 := pred_of head f1]>) (set_nf (<[pred_of head f1 := succ_of head f2]>)
      (set_ty (<[b_addr b := ARENA_TYPE_USED]>) s)))
    (bs1 ++ Blk (b_addr b) (b_size b) BUsed :: bs2) (f1 ++ f2).
Proof.
  intros W Hp. destruct (wf_split _ _ _ _ _ W) as (Hh & [Hz _] & Hok & L1 & L2 & Hni & Ha & Hm & Hpos & Htop).
  destruct (wf_others _ _ _ _ _ W) as [Ha' Hm']. pose proof (wf_NoDup _ _ _ _ W) as Hnd.
  destruct b as [a n k]. cbn [b_addr b_size] in *.
  apply mk_wf; cbn [ty sz nx pv nf pf data set_ty set_sz set_nx set_pv set_nf set_pf set_data].
  - pose proof (wf_main _ _ _ _ W) as D. by rewrite !addrs_app in *.
  - apply dll_remove with (a := a); [by eapply wf_NoDup_free | apply W].
  - by rewrite filter_mid, filter_kind, decide_False, app_nil_l, <- filter_app.
  - apply (hdrs_insert_ty _ _ _ a ARENA_TYPE_USED) in Hh; [| done].
    rewrite !Forall_app, Forall_cons in *. destruct Hh. split_and!; try done.
    split; cbn [b_kind b_addr b_size]; [done | by rewrite lookup_insert_eq].
  - rewrite lookup_insert_ne; [apply W |]. intros ->.
    apply NoDup_cons in Hnd as [Hnd _]. rewrite addrs_app in Hnd. set_solver.
  - by apply layout_app.
  - rewrite !Forall_app, Forall_cons in *. tauto.
  - rewrite !Forall_app, Forall_cons in *. tauto.
Qed.

(** Splitting a free block: the first [n] bytes become used, a free block for
    the rest takes its place on the free chain. *)
Lemma split_block s bs1 b bs2 f1 f2 n :
  wf head s (bs1 ++ b :: bs2) (f1 ++ b_addr b :: f2) →
  f1 ++ f2 ≡ₚ addrs (filter (is_kind BFree) (bs1 ++ bs2)) →
  64 <= n → (HDR | n) → n + 64 <= b_size b →
  let a := b_addr b in
  let z := a + n in
  wf head (mk_arena (<[a := ARENA_TYPE_USED]> (<[z := ARENA_TYPE_FREE]> (ty s)))
      (<[a := n]> (<[z := b_size b - n]> (sz s)))
      (<[a := z]> (<[z := succ_of head (addrs bs2)]> (nx s)))
      (<[succ_of head (addrs bs2) := z]> (<[z := a]> (pv s)))
      (<[pred_of head f1 := z]> (<[z := succ_of head f2]> (nf s)))
      (<[succ_of head f2 := z]> (<[z := pred_of head f1]> (pf s))) (data s))
    (bs1 ++ Blk a n BUsed :: Blk z (b_size b - n) BFree :: bs2) (f1 ++ z :: f2).
Proof.
  intros W Hp Hn Hdiv Hfit a z.
  destruct (wf_split _ _ _ _ _ W) as (Hh & [Hz _] & (Hok & Hda & Hds) & L1 & L2 & Hni & Ha & Hm & Hpos & Htop).
  destruct (wf_others _ _ _ _ _ W) as [Ha' Hm']. pose proof (wf_NoDup _ _ _ _ W) as Hnd.
  assert (z ∉ addrs (bs1 ++ bs2)) as Hzf.
  { apply (layout_fresh 1 bs1 b bs2 TOP); [apply W |]. unfold b_end, z, a. lia. }
  assert (z ≠ a ∧ z ≠ head ∧ a ≠ head) as (Hza & Hzh & Hah).
  { unfold z, a, b_end in *. split_and!; [lia | lia |]. intros E.
    apply NoDup_cons in Hnd as [Hnd _]. rewrite addrs_app in Hnd. apply Hnd. simpl. rewrite E. set_solver. }
  assert (z ∉ f1 ++ f2) as Hzfs by (rewrite Hp; intros ?%addrs_filter_subset; done).
  apply mk_wf; cbn [ty sz nx pv nf pf data].
  - rewrite !addrs_app in *. cbn [addrs fmap list_fmap] in *. fold (addrs bs2) (addrs bs1) in *.
    change (b_addr (Blk a n BUsed)) with a. change (b_addr (Blk z (b_size b - n) BFree)) with z.
    replace (addrs bs1 ++ a :: z :: addrs bs2) with ((addrs bs1 ++ [a]) ++ z :: addrs bs2) by (by rewrite <- app_assoc).
    pose proof (dll_insert head (nx s) (pv s) (addrs bs1 ++ [a]) z (addrs bs2)) as Hins.
    rewrite pred_of_snoc in Hins. apply Hins.
    + apply NoDup_mid; rewrite <- app_assoc; [exact Hnd |]. rewrite not_elem_of_cons, !not_elem_of_app in *. cbn [app].
      set_solver.
    + rewrite <- app_assoc. pose proof (wf_main _ _ _ _ W) as D. rewrite addrs_app in D. exact D.
  - apply (dll_replace head _ _ _ a); [by eapply wf_NoDup_free | | apply W].
    pose proof (wf_NoDup_free _ _ _ _ W) as Hndf.
    apply NoDup_mid; [by eapply NoDup_drop_mid | by rewrite not_elem_of_cons].
  - rewrite filter_mid, filter_kind, decide_False, app_nil_l by done.
    change (Blk z (b_size b - n) BFree :: bs2) with ([Blk z (b_size b - n) BFree] ++ bs2).
    rewrite filter_app, filter_kind, decide_True by done. rewrite filter_app, addrs_app in Hp.
    rewrite !addrs_app. cbn [addrs fmap list_fmap]. fold (addrs (filter (is_kind BFree) bs2)).
    cbn [app]. rewrite <- !Permutation_middle. by rewrite Hp.
  - apply (hdrs_insert_ty _ _ _ z ARENA_TYPE_FREE) in Hh; [| done].
    apply (hdrs_insert_ty _ _ _ a ARENA_TYPE_USED) in Hh; [| done].
    apply (hdrs_insert_sz _ _ _ z (b_size b - n)) in Hh; [| done].
    apply (hdrs_insert_sz _ _ _ a n) in Hh; [| done].
    rewrite !Forall_app, !Forall_cons in *. destruct Hh. split_and!; try done.
    + split; cbn [b_kind b_addr b_size]; by rewrite lookup_insert_eq.
    + split; cbn [b_kind b_addr b_size]; by rewrite lookup_insert_ne, lookup_insert_eq.
  - rewrite !lookup_insert_ne by done. apply W.
  - apply layout_app. split; [done |]. split; [by split_and!; cbn [b_size b_addr] |].
    cbn [layout]. unfold b_end in *. cbn [b_addr b_size]. split_and!; [lia | |].
    + split_and!; cbn [b_size b_addr]; [lia | by apply Z.divide_add_r | by apply Z.divide_sub_r].
    + by replace (z + (b_size b - n)) with (b_addr b + b_size b) by (unfold z, a; lia).
  - unfold b_end, z, a in *. rewrite !Forall_app, !Forall_cons in *. destruct Ha'. cbn [b_addr b_size].
    split_and!; try done; lia.
  - rewrite !Forall_app, !Forall_cons in *. destruct Hm'. cbn [b_addr b_size]. split_and!; try done;
      intros j Hj; apply Hm; unfold z, a in *; lia.
Qed.

(** What [__malloc_from_block] leaves of a free block. *)
Definition remainder (a size n : Z) : list blk := if n =? size then [] else [Blk (a + n) (size - n) BFree].

Lemma malloc_from_block_spec s bs1 b bs2 fs size :
  wf head s (bs1 ++ b :: bs2) fs → b_kind b = BFree → 64 <= size → (HDR | size) → size <= b_size b →
  ∃ s' n fs', __malloc_from_block (b_addr b) size s = Some (b_addr b + HDR, s') ∧
    wf head s' (bs1 ++ Blk (b_addr b) n BUsed :: remainder (b_addr b) (b_size b) n ++ bs2) fs' ∧
    size <= n <= b_size b ∧ data s' = data s.
Proof.
  intros W Hk Hs Hdiv Hfit. destruct (wf_free_split _ _ _ _ _ W Hk) as (f1 & f2 & -> & Hp).
  destruct (wf_split _ _ _ _ _ W) as (_ & [Hz _] & _ & _ & _ & _ & _ & _ & Hpos & Htop).
  pose proof (wf_free _ _ _ _ W) as Df. pose proof (wf_main _ _ _ _ W) as Dm.
  rewrite addrs_app in Dm. change (addrs (b :: bs2)) with (b_addr b :: addrs bs2) in Dm.
  unfold __malloc_from_block. get_step. unfold b_end, TOP, HDR in *.
  rewrite wrapu_small by (unfold in_u; lia). destruct (Z.leb_spec (size + 2 * 32) (b_size b)) as [Hle | Hgt].
  - pose proof (dll_next _ _ _ _ _ _ Dm) as Hnx.
    pose proof (dll_next _ _ _ _ _ _ Df) as Hnf. pose proof (dll_prev _ _ _ _ _ _ Df) as Hpf.
    pose proof (split_block s bs1 b bs2 f1 f2 size W Hp Hs Hdiv ltac:(lia)) as W'. cbv zeta in W'.
    eexists _, size, _. split; [| split; [| split; [lia |]]].
    + erewrite bind_ok; [done |]. get_step. do 8 put_step. get_step. put_step. get_step. do 2 put_step. reflexivity.
    + unfold remainder. rewrite (proj2 (Z.eqb_neq size (b_size b))) by lia.
      rewrite (wrapu_small 64) by (unfold in_u; lia). exact W'.
    + reflexivity.
  - pose proof (take_block s bs1 b bs2 f1 f2 W Hp) as W'.
    eexists _, (b_size b), _. split; [| split; [| split; [lia |]]].
    + erewrite bind_ok; [done |]. put_step. by rewrite (remove_from_free_chain_spec _ f1 _ f2).
    + unfold remainder. rewrite Z.eqb_refl. exact W'.
    + reflexivity.
Qed.

(** Taking a block off the free chain, or turning a used one in. *)
Lemma detach_block s bs1 b bs2 f1 f2 :
  wf head s (bs1 ++ b :: bs2) (f1 ++ b_addr b :: f2) →
  f1 ++ f2 ≡ₚ addrs (filter (is_kind BFree) (bs1 ++ bs2)) →
  wf head (set_pf (<[succ_of head f2 := pred_of head f1]>) (set_nf (<[pred_of head f1 := succ_of head f2]>) s))
    (bs1 ++ Blk (b_addr b) (b_size b) BPending :: bs2) (f1 ++ f2).
Proof.
  intros W Hp. destruct (wf_split _ _ _ _ _ W) as (Hh & [Hz _] & Hok & L1 & L2 & Hni & Ha & Hm & Hpos & Htop).
  destruct (wf_others _ _ _ _ _ W) as [Ha' Hm']. destruct b as [a n k]. cbn [b_addr b_size] in *.
  apply mk_wf; cbn [ty sz nx pv nf pf data set_nf set_pf].
  - pose proof (wf_main _ _ _ _ W) as D. by rewrite !addrs_app in *.
  - apply dll_remove with (a := a); [by eapply wf_NoDup_free | apply W].
  - by rewrite filter_mid, filter_kind, decide_False, app_nil_l, <- filter_app.
  - rewrite !Forall_app, Forall_cons in *. by destruct Hh.
  - apply W.
  - by apply layout_app.
  - rewrite !Forall_app, Forall_cons in *. tauto.
  - rewrite !Forall_app, Forall_cons in *. tauto.
Qed.

Lemma pend_block s bs1 b bs2 fs :
  wf head s (bs1 ++ b :: bs2) fs → b_kind b = BUsed →
  wf head s (bs1 ++ Blk (b_addr b) (b_size b) BPending :: bs2) fs.
Proof.
  intros W Hk. destruct (wf_split _ _ _ _ _ W) as (Hh & [Hz _] & Hok & L1 & L2 & Hni & Ha & Hm & Hpos & Htop).
  destruct (wf_others _ _ _ _ _ W) as [Ha' Hm']. destruct b as [a n k]. cbn [b_addr b_size b_kind] in *. subst k.
  apply mk_wf; try apply W.
  - pose proof (wf_main _ _ _ _ W) as D. by rewrite !addrs_app in *.
  - rewrite (wf_perm _ _ _ _ W). by rewrite !filter_mid, !filter_kind, !decide_False.
  - rewrite !Forall_app, Forall_cons in *. by destruct Hh.
  - by apply layout_app.
  - rewrite !Forall_app, Forall_cons in *. tauto.
  - rewrite !Forall_app, Forall_cons in *. tauto.
Qed.

(** Merging a pending block into the free block before it. *)
Lemma absorb_block s bs1 p b bs2 fs :
  wf head s (bs1 ++ p :: b :: bs2) fs → b_kind p = BFree → b_kind b = BPending → b_end p = b_addr b →
  wf head (mk_arena (ty s) (<[b_addr p := b_size p + b_size b]> (sz s))
      (<[b_addr p := succ_of head (addrs bs2)]> (nx s))
      (<[succ_of head (addrs bs2) := b_addr p]> (pv s)) (nf s) (pf s) (data s))
    (bs1 ++ Blk (b_addr p) (b_size p + b_size b) BFree :: bs2) fs.
Proof.
  intros W Hkp Hkb Hadj.
  destruct (wf_split _ _ _ _ _ W) as (Hh & [Hz Ht] & (Hok & Hda & Hds) & L1 & L2 & Hni & Ha & Hm & Hpos & Htop).
  rewrite Hkp in Ht. destruct L2 as (_ & (Hokb & _ & Hdb) & L2).
  destruct (wf_others _ _ _ _ _ W) as [Ha' Hm'].
  assert (Forall (hdr_ok (ty s) (sz s)) (bs1 ++ bs2)) as Hh'.
  { rewrite !Forall_app, !Forall_cons in *. tauto. }
  assert (b_addr p ∉ addrs (bs1 ++ bs2)) as Hni'.
  { rewrite addrs_app in *. change (addrs (b :: bs2)) with (b_addr b :: addrs bs2) in Hni. set_solver. }
  apply (hdrs_insert_sz _ _ _ (b_addr p) (b_size p + b_size b)) in Hh'; [| done].
  apply mk_wf; cbn [ty sz nx pv nf pf data]; try apply W.
  - pose proof (wf_main _ _ _ _ W) as D. pose proof (wf_NoDup _ _ _ _ W) as Hnd. rewrite addrs_app in *.
    change (addrs (p :: b :: bs2)) with (b_addr p :: b_addr b :: addrs bs2) in D, Hnd.
    change (addrs (Blk (b_addr p) (b_size p + b_size b) BFree :: bs2)) with (b_addr p :: addrs bs2).
    replace (addrs bs1 ++ b_addr p :: b_addr b :: addrs bs2)
      with ((addrs bs1 ++ [b_addr p]) ++ b_addr b :: addrs bs2) in D, Hnd by (by rewrite <- app_assoc).
    pose proof (dll_remove head _ _ _ _ _ Hnd D) as D'. rewrite pred_of_snoc in D'. by rewrite <- app_assoc in D'.
  - rewrite (wf_perm _ _ _ _ W). rewrite !filter_mid, !filter_kind, !(decide_True (P := _ = BFree)) by done.
    change (b :: bs2) with ([b] ++ bs2). rewrite filter_app, filter_kind, decide_False by congruence.
    by rewrite !addrs_app.
  - rewrite !Forall_app, Forall_cons in *. split_and!; try tauto.
    split; cbn [b_addr b_size b_kind]; [by rewrite lookup_insert_eq | done].
  - apply layout_app. split; [done |]. unfold b_end in *. cbn [b_addr b_size]. split.
    + split_and!; cbn [b_addr b_size]; [lia | done | by apply Z.divide_add_r].
    + by replace (b_addr p + (b_size p + b_size b)) with (b_addr b + b_size b) by lia.
  - unfold b_end in *. rewrite !Forall_app, !Forall_cons in *. cbn [b_addr b_size]. destruct Ha' as (? & ? & ?).
    split_and!; try done. lia.
  - rewrite !Forall_app, !Forall_cons in *. cbn [b_addr b_size]. destruct Hm' as (? & Hmb & ?). split_and!; try done.
    intros j Hj. unfold b_end in *. destruct (decide (j < b_addr b)); [apply Hm; lia | apply Hmb; lia].
Qed.

(** Putting a pending block at the head of the free chain. *)
Lemma release_block s bs1 b bs2 fs :
  wf head s (bs1 ++ b :: bs2) fs → b_kind b = BPending →
  wf head (mk_arena (<[b_addr b := ARENA_TYPE_FREE]> (ty s)) (sz s) (nx s) (pv s)
      (<[head := b_addr b]> (<[b_addr b := succ_of head fs]> (nf s)))
      (<[succ_of head fs := b_addr b]> (<[b_addr b := head]> (pf s))) (data s))
    (bs1 ++ Blk (b_addr b) (b_size b) BFree :: bs2) (b_addr b :: fs).
Proof.
  intros W Hk. destruct (wf_split _ _ _ _ _ W) as (Hh & [Hz _] & Hok & L1 & L2 & Hni & Ha & Hm & Hpos & Htop).
  destruct (wf_others _ _ _ _ _ W) as [Ha' Hm']. pose proof (wf_NoDup _ _ _ _ W) as Hnd.
  pose proof (wf_perm _ _ _ _ W) as Hp. rewrite filter_mid, filter_kind, decide_False, app_nil_l in Hp by congruence.
  assert (b_addr b ≠ head) as Hbh.
  { intros E. apply NoDup_cons in Hnd as [Hnd _]. rewrite addrs_app in Hnd. apply Hnd. simpl. rewrite E. set_solver. }
  assert (b_addr b ∉ fs) as Hbf.
  { rewrite Hp, <- filter_app. intros Hin%addrs_filter_subset. done. }
  destruct b as [a n k]. cbn [b_addr b_size] in *.
  apply mk_wf; cbn [ty sz nx pv nf pf data].
  - pose proof (wf_main _ _ _ _ W) as D. by rewrite !addrs_app in *.
  - apply (dll_insert head (nf s) (pf s) [] a fs); [| apply W]. cbn [app].
    pose proof (wf_NoDup_free _ _ _ _ W) as Hndf. apply (NoDup_mid head [] a fs); set_solver.
  - rewrite filter_mid, filter_kind, decide_True by done. rewrite addrs_app in *. rewrite Hp. cbn [app].
    change (addrs (Blk a n BFree :: filter (is_kind BFree) bs2)) with (a :: addrs (filter (is_kind BFree) bs2)).
    by rewrite <- Permutation_middle.
  - apply (hdrs_insert_ty _ _ _ a ARENA_TYPE_FREE) in Hh; [| done].
    rewrite !Forall_app, Forall_cons in *. destruct Hh. split_and!; try done.
    split; cbn [b_kind b_addr b_size]; [done | by rewrite lookup_insert_eq].
  - rewrite lookup_insert_ne by done. apply W.
  - by apply layout_app.
  - rewrite !Forall_app, Forall_cons in *. tauto.
  - rewrite !Forall_app, Forall_cons in *. tauto.
Qed.

(** *** [__free_block] *)

Definition settled (bs : list blk) : Prop := Forall (λ b, b_kind b ≠ BPending) bs.

Definition used_of (b : blk) : list (Z * Z) := if decide (b_kind b = BUsed) then [(b_addr b, b_size b)] else [].

Lemma used_app bs1 bs2 : used (bs1 ++ bs2) = used bs1 ++ used bs2.
Proof. unfold used. by rewrite filter_app, fmap_app. Qed.

Lemma used_cons b bs : used (b :: bs) = used_of b ++ used bs.
Proof.
  change (b :: bs) with ([b] ++ bs). rewrite used_app. unfold used at 1. rewrite filter_kind.
  unfold used_of. by destruct (decide (b_kind b = BUsed)).
Qed.

(** The type test of a neighbour: it is free exactly if it is a free block. *)
Lemma neighbour_type s bs1 b bs2 fs :
  wf head s (bs1 ++ b :: bs2) fs → b_kind b ≠ BPending →
  ∃ t, ty s !! b_addr b = Some t ∧ ((t =? ARENA_TYPE_FREE) = true ↔ b_kind b = BFree).
Proof.
  intros W Hk. destruct (wf_split _ _ _ _ _ W) as (_ & [_ Ht] & _).
  destruct (b_kind b); [eexists; split; [done |]; done.. | done].
Qed.

(** A released block of [n] bytes at [a] and the blocks [bs1] before it: it is
    joined to the last of them if that one is free and ends at [a]. *)
Inductive joined_left (bs1 : list blk) (a n : Z) : list blk → blk → Prop :=
  | joined_left_free bs0 p : bs1 = bs0 ++ [p] → b_kind p = BFree → b_end p = a →
      joined_left bs1 a n bs0 (Blk (b_addr p) (b_size p + n) BFree)
  | joined_left_none : (∀ bs0 p, bs1 = bs0 ++ [p] → b_kind p = BFree → b_end p ≠ a) →
      joined_left bs1 a n bs1 (Blk a n BFree).

(** The same on the other side. *)
Inductive joined_right (c : blk) (bs2 : list blk) : blk → list blk → Prop :=
  | joined_right_free q bs0 : bs2 = q :: bs0 → b_kind q = BFree → b_end c = b_addr q →
      joined_right c bs2 (Blk (b_addr c) (b_size c + b_size q) BFree) bs0
  | joined_right_none : (∀ q bs0, bs2 = q :: bs0 → b_kind q = BFree → b_end c ≠ b_addr q) →
      joined_right c bs2 c bs2.

(** First half: merge with the predecessor, or put the block on the free chain. *)
Lemma free_block_prev s bs1 b bs2 fs :
  wf head s (bs1 ++ b :: bs2) fs → b_kind b = BPending → settled (bs1 ++ bs2) →
  ∃ s' bs1' c fs',
    merge_prev head (b_addr b) (pred_of head (addrs bs1)) (succ_of head (addrs bs2)) s = Some (b_addr c, s') ∧
    wf head s' (bs1' ++ c :: bs2) fs' ∧ b_kind c = BFree ∧ b_addr c <= b_addr b ∧ b_end c = b_end b ∧
    used bs1' = used bs1 ∧ settled bs1' ∧ data s' = data s ∧ joined_left bs1 (b_addr b) (b_size b) bs1' c.
Proof.
  intros W Hk Hset. destruct (wf_split _ _ _ _ _ W) as (_ & [Hz _] & Hok & _ & _ & _ & _ & _ & Hpos & Htop).
  apply Forall_app in Hset as [Hset1 Hset2].
  assert (∀ pty, ty s !! pred_of head (addrs bs1) = Some pty →
    ((pty =? ARENA_TYPE_FREE) = true ↔ ∃ bs0 p, bs1 = bs0 ++ [p] ∧ b_kind p = BFree)) as Hpty.
  { intros pty Hpty. destruct bs1 as [| p bs0 _] using rev_ind.
    - change (pred_of head (addrs [])) with head in Hpty. rewrite (wf_head _ _ _ _ W) in Hpty. simplify_eq.
      split; [done |]. by intros ([] & ? & ? & ?).
    - rewrite addrs_app in Hpty. change (addrs [p]) with [b_addr p] in Hpty.
      rewrite pred_of_snoc in Hpty. rewrite <- app_assoc in W. apply Forall_app in Hset1 as [_ Hset1].
      apply Forall_cons in Hset1 as [Hp _].
      destruct (neighbour_type s bs0 p ([] ++ b :: bs2) fs W Hp) as (t & Ht & E). simplify_eq. rewrite E.
      split; [by exists bs0, p |]. by intros (? & ? & [_ [= ->]]%app_inj_tail & ?). }
  assert (∃ pty, ty s !! pred_of head (addrs bs1) = Some pty) as [pty Ep].
  { clear Hpty. destruct bs1 as [| p bs0 _] using rev_ind; [eexists; apply (wf_head _ _ _ _ W) |].
    rewrite addrs_app. change (addrs [p]) with [b_addr p]. rewrite pred_of_snoc. rewrite <- app_assoc in W.
    apply Forall_app in Hset1 as [_ Hset1]. apply Forall_cons in Hset1 as [Hp _].
    destruct (neighbour_type s bs0 p ([] ++ b :: bs2) fs W Hp) as (t & Ht & _). eauto. }
  specialize (Hpty pty Ep). unfold merge_prev. get_step.
  (* is the predecessor free and adjacent? *)
  assert (∃ adj : bool, (if pty =? ARENA_TYPE_FREE then
      psz ← get sz (pred_of head (addrs bs1)); mret (pred_of head (addrs bs1) + psz =? b_addr b)
      else mret false) s = Some (adj, s) ∧
    (adj = true ↔ ∃ bs0 p, bs1 = bs0 ++ [p] ∧ b_kind p = BFree ∧ b_end p = b_addr b)) as (adj & Eadj & Hadj).
  { destruct (pty =? ARENA_TYPE_FREE).
    2: { exists false. split; [done |]. split; [done |]. intros (bs0 & p & ? & ? & _). apply Hpty. eauto. }
    destruct (proj1 Hpty eq_refl) as (bs0 & p & -> & Hkp). rewrite <- app_assoc in W.
    destruct (wf_split _ _ _ _ _ W) as (_ & [Hzp _] & _).
    rewrite addrs_app. change (addrs [p]) with [b_addr p]. rewrite pred_of_snoc.
    eexists. split; [get_step; reflexivity |]. rewrite Z.eqb_eq. split; [by exists bs0, p |].
    by intros (? & ? & [_ [= ->]]%app_inj_tail & _ & ?). }
  erewrite bind_ok by exact Eadj. destruct adj.
  - destruct (proj1 Hadj eq_refl) as (bs0 & p & -> & Hkp & Hend). rewrite <- app_assoc in W. cbn [app] in W.
    destruct (wf_split _ _ _ _ _ W) as (_ & [Hzp _] & [? _] & _ & _ & _ & _ & _ & Hpp & _).
    rewrite addrs_app. change (addrs [p]) with [b_addr p]. rewrite pred_of_snoc.
    pose proof (absorb_block s bs0 p b bs2 fs W Hkp Hk Hend) as W'.
    get_step. get_step. do 3 put_step. destruct Hok as [? _]. unfold b_end, TOP in *.
    rewrite wrapu_small by (unfold in_u; lia).
    eexists _, bs0, (Blk (b_addr p) (b_size p + b_size b) BFree), fs. split; [reflexivity |].
    apply Forall_app in Hset1 as [Hset1 _]. split; [exact W' |]. cbn [b_addr b_size b_kind].
    split_and!; [done | lia | lia | | done | done | by apply (joined_left_free _ _ _ bs0)].
    rewrite used_app, used_cons. unfold used_of. rewrite decide_False by congruence. by rewrite app_nil_r.
  - pose proof (release_block s bs1 b bs2 fs W Hk) as W'. pose proof (dll_first _ _ _ _ (wf_free _ _ _ _ W)).
    assert (b_addr b ≠ head) as Hbh.
    { pose proof (wf_NoDup _ _ _ _ W) as [Hnd _]%NoDup_cons. intros E. apply Hnd. rewrite addrs_app. simpl. set_solver. }
    put_step. get_step. do 3 put_step.
    erewrite bind_ok.
    2: { apply get_ok. cbn [nf set_nf set_pf set_ty]. rewrite lookup_insert_ne, lookup_insert_eq by done. done. }
    put_step. eexists _, bs1, (Blk (b_addr b) (b_size b) BFree), _. split; [reflexivity |].
    split; [exact W' |]. split_and!; try done. apply joined_left_none. intros bs0 p ? ? ?.
    assert (false = true) by (apply Hadj; eauto). done.
Qed.

(** Second half: merge the successor into the block. *)
Lemma free_block_next s bs1 c bs2 fs :
  wf head s (bs1 ++ c :: bs2) fs → b_kind c = BFree → settled bs2 →
  ∃ s' c' bs2' fs',
    merge_next (b_addr c) (succ_of head (addrs bs2)) s = Some (tt, s') ∧
    wf head s' (bs1 ++ c' :: bs2') fs' ∧ b_kind c' = BFree ∧ b_addr c' = b_addr c ∧
    b_end c <= b_end c' ∧ used bs2' = used bs2 ∧ settled bs2' ∧ data s' = data s ∧ joined_right c bs2 c' bs2'.
Proof.
  intros W Hk Hset. destruct (wf_split _ _ _ _ _ W) as (_ & [Hz _] & Hok & _ & _ & _ & _ & _ & Hpos & Htop).
  (* the block is left alone *)
  assert (∀ nty, ty s !! succ_of head (addrs bs2) = Some nty → (nty =? ARENA_TYPE_FREE) = false ∨
      succ_of head (addrs bs2) ≠ b_end c → (∀ q bs0, bs2 = q :: bs0 → b_kind q = BFree → b_end c ≠ b_addr q) →
    ∃ s' c' bs2' fs', merge_next (b_addr c) (succ_of head (addrs bs2)) s = Some (tt, s') ∧
    wf head s' (bs1 ++ c' :: bs2') fs' ∧ b_kind c' = BFree ∧ b_addr c' = b_addr c ∧
    b_end c <= b_end c' ∧ used bs2' = used bs2 ∧ settled bs2' ∧ data s' = data s ∧ joined_right c bs2 c' bs2') as Hstay.
  { intros nty En Hno Hq. exists s, c, bs2, fs. split; [| split_and!; try done; by apply joined_right_none]. unfold merge_next. get_step.
    destruct (nty =? ARENA_TYPE_FREE); [| done]. destruct Hno as [? | Hno]; [done |].
    erewrite bind_ok by (get_step; reflexivity). unfold b_end in Hno. by rewrite (proj2 (Z.eqb_neq _ _)) by done. }
  destruct bs2 as [| nb bs2].
  { apply (Hstay ARENA_TYPE_HEAD); [apply (wf_head _ _ _ _ W) | by left | done]. }
  assert (bs1 ++ c :: nb :: bs2 = (bs1 ++ [c]) ++ nb :: bs2) as Eb by (by rewrite <- app_assoc).
  rewrite Eb in W. pose proof Hset as [Hnp Hset']%Forall_cons.
  destruct (neighbour_type _ _ _ _ _ W Hnp) as (nty & En & Hnty).
  change (succ_of head (addrs (nb :: bs2))) with (b_addr nb) in *.
  destruct (nty =? ARENA_TYPE_FREE) eqn:Et.
  2: { apply (Hstay nty); [done | by left |]. intros q bs0 [= <- _] Hq. by apply Hnty in Hq. }
  destruct (decide (b_addr nb = b_end c)) as [Hadj | Hadj].
  2: { apply (Hstay nty); [done | by right |]. intros q bs0 [= <- _] _. congruence. }
  clear Hstay. apply proj1 in Hnty. specialize (Hnty eq_refl).
  destruct (wf_split _ _ _ _ _ W) as (_ & [Hzn _] & [? _] & _ & _ & _ & _ & _ & _ & Htopn).
  destruct (wf_free_split _ _ _ _ _ W Hnty) as (f1 & f2 & -> & Hp).
  pose proof (detach_block _ _ _ _ _ _ W Hp) as W1. rewrite <- app_assoc in W1. cbn [app] in W1.
  pose proof (absorb_block _ _ _ _ _ _ W1 Hk eq_refl ltac:(by cbn [b_addr])) as W2.
  cbn [b_addr b_size ty sz nx pv nf pf data set_nf set_pf] in W2.
  exists (mk_arena (ty s) (<[b_addr c := b_size c + b_size nb]> (sz s))
      (<[b_addr c := succ_of head (addrs bs2)]> (nx s))
      (<[succ_of head (addrs bs2) := b_addr c]> (pv s))
      (<[pred_of head f1 := succ_of head f2]> (nf s)) (<[succ_of head f2 := pred_of head f1]> (pf s)) (data s)),
    (Blk (b_addr c) (b_size c + b_size nb) BFree), bs2, (f1 ++ f2).
  split; [| split; [exact W2 |]; unfold b_end in *; cbn [b_addr b_size b_kind]; split_and!; try done; try lia; [| by apply (joined_right_free _ _ nb)]].
  - unfold merge_next. get_step. rewrite Et. erewrite bind_ok by (get_step; reflexivity). unfold b_end, TOP in *.
    rewrite (proj2 (Z.eqb_eq _ _)) by lia. destruct Hok as [? _].
    get_step. get_step. put_step. rewrite wrapu_small by (unfold in_u; lia).
    unfold remove_from_chains. erewrite bind_ok.
    2: { apply (remove_from_free_chain_spec _ f1 _ f2). apply (wf_free _ _ _ _ W). }
    pose proof (wf_main _ _ _ _ W) as D. rewrite !addrs_app in D.
    erewrite remove_from_main_chain_spec; [| exact D].
    change (addrs [c]) with [b_addr c]. by rewrite pred_of_snoc.
  - rewrite used_cons. unfold used_of. by rewrite decide_False by congruence.
Qed.

Lemma free_block_spec s bs1 b bs2 fs :
  wf head s (bs1 ++ b :: bs2) fs → b_kind b = BPending → settled (bs1 ++ bs2) →
  ∃ s' bs1' c bs2' fs', __free_block head (b_addr b) s = Some (b_addr c, s') ∧
    wf head s' (bs1' ++ c :: bs2') fs' ∧ b_kind c = BFree ∧ b_addr c <= b_addr b ∧ b_end b <= b_end c ∧
    used (bs1' ++ c :: bs2') = used (bs1 ++ bs2) ∧ settled (bs1' ++ c :: bs2') ∧ data s' = data s ∧
    ∃ l, joined_left bs1 (b_addr b) (b_size b) bs1' l ∧ joined_right l bs2 c bs2'.
Proof.
  intros W Hk Hset. pose proof (wf_main _ _ _ _ W) as D. rewrite addrs_app in D.
  change (addrs (b :: bs2)) with (b_addr b :: addrs bs2) in D.
  pose proof (dll_prev _ _ _ _ _ _ D) as Hpv. pose proof (dll_next _ _ _ _ _ _ D) as Hnx.
  destruct (free_block_prev s bs1 b bs2 fs W Hk Hset) as (s1 & bs1' & c & fs1 & E1 & W1 & Hk1 & Ha1 & He1 & Hu1 & Hs1 & Hd1 & Hl).
  apply Forall_app in Hset as [_ Hset2].
  destruct (free_block_next s1 bs1' c bs2 fs1 W1 Hk1 Hset2) as (s2 & c' & bs2' & fs2 & E2 & W2 & Hk2 & Ha2 & He2 & Hu2 & Hs2 & Hd2 & Hr).
  exists s2, bs1', c', bs2', fs2. split_and!; [| done | done | lia | lia | | | congruence | by exists c].
  - unfold __free_block. get_step. get_step. erewrite bind_ok by exact E1.
    erewrite bind_ok by exact E2. by rewrite Ha2.
  - rewrite !used_app, used_cons, Hu1, Hu2. unfold used_of. by rewrite decide_False by congruence.
  - apply Forall_app. split; [done |]. apply Forall_cons. split; [congruence | done].
Qed.

(** *** The walks *)

Lemma headers_bound (m : gmap Z Z) (l : list Z) :
  NoDup l → Forall (λ a, is_Some (m !! a)) l → (length l <= size m)%nat.
Proof.
  intros Hnd Hl. rewrite <- (size_list_to_set (C := gset Z) l Hnd), <- size_dom.
  apply subseteq_size. intros a Ha%elem_of_list_to_set. rewrite Forall_forall in Hl. by apply elem_of_dom, Hl.
Qed.

Lemma settled_types s bs fs :
  wf head s bs fs → settled bs → Forall (λ a, is_Some (ty s !! a)) (addrs bs).
Proof.
  intros W Hs. apply Forall_forall. intros a Ha. unfold addrs in Ha. apply list_elem_of_fmap in Ha as (b & -> & Hb).
  pose proof (wf_hdrs _ _ _ _ W) as Hh. unfold settled in Hs. rewrite Forall_forall in Hh, Hs. destruct (Hh b Hb) as [_ Ht].
  specialize (Hs b Hb). destruct (b_kind b); eauto; done.
Qed.

(** The free chain consists of free blocks. *)
Lemma wf_free_block s bs fs a :
  wf head s bs fs → a ∈ fs → ∃ bs1 b bs2, bs = bs1 ++ b :: bs2 ∧ b_addr b = a ∧ b_kind b = BFree.
Proof.
  intros W Ha. rewrite (wf_perm _ _ _ _ W) in Ha. unfold addrs in Ha.
  apply list_elem_of_fmap in Ha as (b & -> & [Hk Hb]%list_elem_of_filter).
  apply list_elem_of_split in Hb as (bs1 & bs2 & ->). by exists bs1, b, bs2.
Qed.

Lemma find_fit_spec s bs fs sz0 : wf head s bs fs →
  ∀ f2 f1 fuel, fs = f1 ++ f2 → (length f2 <= fuel)%nat →
  ∃ r, find_fit fuel sz0 (succ_of head f2) s = Some (r, s) ∧
    match r with
    | Some a => ∃ bs1 b bs2, bs = bs1 ++ b :: bs2 ∧ b_addr b = a ∧ b_kind b = BFree ∧ sz0 <= b_size b
    | None => ∀ b, b ∈ bs → b_kind b = BFree → b_addr b ∈ f2 → b_size b < sz0
    end.
Proof.
  intros W. induction f2 as [| a f2 IH]; intros f1 fuel Hfs Hfuel.
  - exists None. split; [| by intros b _ _ ?%elem_of_nil]. pose proof (wf_head _ _ _ _ W). destruct fuel; cbn [find_fit];
      change (succ_of head []) with head; by get_step.
  - destruct fuel as [| fuel]; [simpl in Hfuel; lia |]. cbn [find_fit].
    change (succ_of head (a :: f2)) with a.
    destruct (wf_free_block s bs fs a W) as (bs1 & b & bs2 & -> & <- & Hk); [rewrite Hfs; set_solver |].
    destruct (wf_split _ _ _ _ _ W) as (_ & [Hz Ht] & _). rewrite Hk in Ht. get_step.
    change (ARENA_TYPE_FREE =? ARENA_TYPE_HEAD) with false. cbv iota. get_step.
    destruct (Z.leb_spec sz0 (b_size b)).
    + exists (Some (b_addr b)). split; [done |]. by exists bs1, b, bs2.
    + pose proof (wf_free _ _ _ _ W) as D. rewrite Hfs in D. pose proof (dll_next _ _ _ _ _ _ D). get_step.
      destruct (IH (f1 ++ [b_addr b]) fuel) as (r & Er & Hr); [by rewrite <- app_assoc | simpl in Hfuel; lia |].
      exists r. split; [done |]. destruct r as [a |]; [done |].
      intros c Hc Hkc [Ea | Hin]%elem_of_cons; [| by apply Hr].
      apply list_elem_of_split in Hc as (c1 & c2 & Ec). rewrite Ec in W.
      destruct (wf_split _ _ _ _ _ W) as (_ & [Hzc _] & _). rewrite Ea in Hzc. simplify_eq. lia.
Qed.

Lemma find_pred_spec s fp :
  ty s !! head = Some ARENA_TYPE_HEAD → ∀ bs1 bs2 fuel lo hi,
  dll (nx s) (pv s) head (addrs (bs1 ++ bs2)) →
  Forall (λ b, ∃ t, ty s !! b_addr b = Some t ∧ t ≠ ARENA_TYPE_HEAD) bs1 → layout lo bs1 hi →
  Forall (λ b, fp <= b_addr b) bs2 → (length bs1 <= fuel)%nat →
  ∃ bs1' bs2', bs1 ++ bs2 = bs1' ++ bs2' ∧
    find_pred fuel fp (pred_of head (addrs bs1)) s = Some (pred_of head (addrs bs1'), s) ∧
    Forall (λ b, b_addr b < fp) bs1' ∧ Forall (λ b, fp <= b_addr b) bs2'.
Proof.
  intros Hh. induction bs1 as [| b bs1 IH] using rev_ind; intros bs2 fuel lo hi D Ht L H2 Hf.
  - exists [], bs2. split; [done |]. split; [| done]. destruct fuel; cbn [find_pred];
      change (pred_of head (addrs [])) with head; by get_step.
  - rewrite length_app in Hf. destruct fuel as [| fuel]; [simpl in Hf; lia |]. cbn [find_pred].
    rewrite addrs_app. change (addrs [b]) with [b_addr b]. rewrite pred_of_snoc.
    apply Forall_app in Ht as [Ht (t & Etb & Hne)%Forall_singleton]. get_step.
    rewrite (proj2 (Z.eqb_neq _ _)) by done. destruct (Z.ltb_spec (b_addr b) fp) as [Hlt | Hge].
    + exists (bs1 ++ [b]), bs2. split; [done |]. rewrite addrs_app. change (addrs [b]) with [b_addr b].
      rewrite pred_of_snoc. split; [done |]. split; [| done]. apply Forall_app. split; [| by apply Forall_singleton].
      apply layout_app in L as (L1 & _ & _). apply Forall_forall. intros c Hc.
      destruct (layout_range _ _ _ _ L1 Hc) as ([? _] & _ & ?). unfold b_end in *. lia.
    + rewrite <- app_assoc in D. pose proof D as D'. rewrite addrs_app in D'.
      change (addrs ([b] ++ bs2)) with (b_addr b :: addrs bs2) in D'.
      pose proof (dll_prev _ _ _ _ _ _ D'). get_step. rewrite <- app_assoc.
      apply layout_app in L as (L1 & _ & _). eapply (IH ([b] ++ bs2)); [done | done | exact L1 | | simpl in Hf; lia].
      apply Forall_cons. done.
Qed.

(** *** A new mapping *)

(** What [mmap] documents about a successful call: an aligned region of user
    space that is not in use. *)
Definition fresh_region (bs : list blk) (a n : Z) : Prop :=
  (HDR | a) ∧ 1 <= a ∧ a + n <= TOP ∧ (head < a ∨ a + n <= head) ∧
  Forall (λ b, b_end b <= a ∨ a + n <= b_addr b) bs.

Lemma layout_insert lo bs1 bs2 hi b :
  layout lo (bs1 ++ bs2) hi → blk_ok b → lo <= b_addr b → b_end b <= hi →
  Forall (λ c, b_end c <= b_addr b ∨ b_end b <= b_addr c) (bs1 ++ bs2) →
  Forall (λ c, b_addr c < b_addr b) bs1 → Forall (λ c, b_addr b <= b_addr c) bs2 →
  layout lo (bs1 ++ b :: bs2) hi.
Proof.
  intros L Hok Hlo Hhi Hd H1 H2. revert lo L Hlo. induction bs1 as [| c bs1 IH]; intros lo L Hlo.
  - simpl. split_and!; [done | done |]. destruct bs2 as [| c bs2]; [done |].
    simpl in L |- *. destruct L as (_ & Hc & L). split_and!; [| done | done].
    apply Forall_cons in Hd as [Hd _]. apply Forall_cons in H2 as [H2 _].
    destruct Hc as [? _], Hok as [? _]. unfold b_end in *. lia.
  - simpl in L |- *. destruct L as (? & Hc & L). split_and!; [done | done |].
    apply Forall_cons in Hd as [Hdc Hd]. apply Forall_cons in H1 as [H1c H1].
    apply IH; [done.. |]. destruct Hok as [? _]. unfold b_end in *. lia.
Qed.

Lemma mem_set_map_region a n m k :
  0 <= n → map_region a n m !! k = if decide (a <= k < a + n) then Some 0 else m !! k.
Proof.
  intros Hn. unfold map_region. rewrite mem_set_lookup, length_replicate, Z2Nat.id by done.
  case_decide; [| done]. rewrite lookup_replicate_2; [done | lia].
Qed.

Lemma add_block s bs1 bs2 fs z n :
  wf head s (bs1 ++ bs2) fs → fresh_region (bs1 ++ bs2) z n → 64 <= n → (HDR | n) →
  Forall (λ c, b_addr c < z) bs1 → Forall (λ c, z <= b_addr c) bs2 →
  wf head (mk_arena (<[z := ARENA_TYPE_FREE]> (ty s)) (<[z := n]> (sz s))
      (<[pred_of head (addrs bs1) := z]> (<[z := succ_of head (addrs bs2)]> (nx s)))
      (<[succ_of head (addrs bs2) := z]> (<[z := pred_of head (addrs bs1)]> (pv s)))
      (nf s) (pf s) (map_region z n (data s)))
    (bs1 ++ Blk z n BPending :: bs2) fs.
Proof.
  intros W (Hdz & Hz1 & Hztop & Hzh & Hfresh) Hn Hdn Hlt Hge.
  assert (layout 1 (bs1 ++ Blk z n BPending :: bs2) TOP) as L.
  { apply layout_insert; cbn [b_addr]; try done; apply W. }
  assert (z ∉ addrs (bs1 ++ bs2)) as Hni.
  { eapply (layout_fresh 1 bs1 (Blk z n BPending) bs2 TOP); [done |]. unfold b_end. cbn [b_addr b_size]. lia. }
  assert (z ≠ head) as Hzne by (unfold b_end in Hzh; lia).
  apply mk_wf; cbn [ty sz nx pv nf pf data]; try apply W.
  - rewrite addrs_app. change (addrs (Blk z n BPending :: bs2)) with (z :: addrs bs2). apply dll_insert.
    + rewrite addrs_app in Hni. apply NoDup_mid; rewrite <- addrs_app in *; [by eapply wf_NoDup |].
      by apply not_elem_of_cons.
    + rewrite <- addrs_app. apply W.
  - rewrite (wf_perm _ _ _ _ W). by rewrite filter_mid, filter_kind, decide_False, app_nil_l, <- filter_app.
  - pose proof (wf_hdrs _ _ _ _ W) as Hh.
    apply (hdrs_insert_ty _ _ _ z ARENA_TYPE_FREE) in Hh; [| done].
    apply (hdrs_insert_sz _ _ _ z n) in Hh; [| done]. rewrite !Forall_app, Forall_cons in *. destruct Hh.
    split_and!; try done. split; [| done]. cbn [b_addr b_size]. by rewrite lookup_insert_eq.
  - rewrite lookup_insert_ne by done. apply W.
  - exact L.
  - pose proof (wf_away _ _ _ _ W) as Ha. rewrite !Forall_app, Forall_cons in *. tauto.
  - pose proof (wf_mapped _ _ _ _ W) as Hm.
    assert (Forall (λ b, mapped (map_region z n (data s)) (b_addr b) (b_size b)) (bs1 ++ bs2)) as Hm'.
    { eapply Forall_impl; [exact Hm |]. intros b Hb. by apply mapped_set. }
    rewrite !Forall_app, Forall_cons in *. split_and!; try tauto.
    cbn [b_addr b_size]. intros k Hk. rewrite mem_set_map_region, decide_True by lia. eauto.
Qed.
End operations.

(** *** Returning memory to the kernel *)

Section trimming.
Context (head : Z).

Lemma shrink_block s bs1 c bs2 fs n :
  wf head s (bs1 ++ c :: bs2) fs → 64 <= n <= b_size c → (HDR | n) →
  wf head (set_sz (<[b_addr c := n]>) s) (bs1 ++ Blk (b_addr c) n (b_kind c) :: bs2) fs.
Proof.
  intros W Hn Hd. destruct (wf_split _ _ _ _ _ _ W) as (Hh & [Hz Ht] & (_ & Hda & _) & L1 & L2 & Hni & Ha & Hm & Hpos & Htop).
  destruct (wf_others _ _ _ _ _ _ W) as [Ha' Hm']. destruct c as [a m k]. cbn [b_addr b_size b_kind] in *.
  apply mk_wf; cbn [ty sz nx pv nf pf data set_sz]; try apply W.
  - pose proof (wf_main _ _ _ _ W) as D. by rewrite !addrs_app in *.
  - rewrite (wf_perm _ _ _ _ W). rewrite !filter_mid, !filter_kind. cbn [b_kind]. destruct (decide (k = BFree)); by rewrite !addrs_app.
  - apply (hdrs_insert_sz _ _ _ a n) in Hh; [| done]. rewrite !Forall_app, Forall_cons in *. destruct Hh.
    split_and!; try done. split; cbn [b_addr b_size b_kind]; [by rewrite lookup_insert_eq | done].
  - apply layout_app. split; [done |]. split; [split_and!; cbn [b_size b_addr]; done || lia |].
    eapply layout_mono; [exact L2 | | done]. unfold b_end. cbn [b_addr b_size]. lia.
  - unfold b_end in *. rewrite !Forall_app, Forall_cons in *. cbn [b_addr b_size] in *. destruct Ha'. split_and!; try done. lia.
  - rewrite !Forall_app, Forall_cons in *. cbn [b_addr b_size]. destruct Hm'. split_and!; try done.
    intros j Hj. apply Hm. lia.
Qed.

Lemma drop_block s bs1 c bs2 f1 f2 :
  wf head s (bs1 ++ c :: bs2) (f1 ++ b_addr c :: f2) →
  f1 ++ f2 ≡ₚ addrs (filter (is_kind BFree) (bs1 ++ bs2)) →
  wf head (mk_arena (ty s) (sz s)
      (<[pred_of head (addrs bs1) := succ_of head (addrs bs2)]> (nx s))
      (<[succ_of head (addrs bs2) := pred_of head (addrs bs1)]> (pv s))
      (<[pred_of head f1 := succ_of head f2]> (nf s))
      (<[succ_of head f2 := pred_of head f1]> (pf s)) (data s)) (bs1 ++ bs2) (f1 ++ f2).
Proof.
  intros W Hp. destruct (wf_split _ _ _ _ _ _ W) as (Hh & _ & Hok & L1 & L2 & Hni & _ & _ & Hpos & Htop).
  destruct (wf_others _ _ _ _ _ _ W) as [Ha' Hm'].
  apply mk_wf; cbn [ty sz nx pv nf pf data]; try done; try apply W.
  - pose proof (wf_main _ _ _ _ W) as D. pose proof (wf_NoDup _ _ _ _ W) as Hnd. rewrite !addrs_app in *.
    by apply dll_remove with (a := b_addr c).
  - apply dll_remove with (a := b_addr c); [by eapply wf_NoDup_free | apply W].
  - clear -L1 L2 Hok. destruct Hok as [? _]. unfold b_end in L2. revert L1. generalize 1.
    induction bs1 as [| b bs1 IH]; intros lo; simpl.
    + intros ?. eapply layout_mono; [exact L2 | lia | done].
    + intros (? & ? & L). split_and!; [done | done |]. by apply IH.
Qed.

Lemma unmap_lookup a n m k : k < a ∨ a + n <= k → unmap_region a n m !! k = m !! k.
Proof.
  intros Hk. unfold unmap_region. destruct (m !! k) as [v |] eqn:E.
  - by apply map_lookup_filter_Some.
  - apply map_lookup_filter_None. by left.
Qed.

Lemma unmap_wf s bs fs a n :
  wf head s bs fs → Forall (λ b, b_end b <= a ∨ a + n <= b_addr b) bs →
  wf head (set_data (unmap_region a n (data s)) s) bs fs.
Proof.
  intros W Hd. apply mk_wf; cbn [ty sz nx pv nf pf data set_data]; try apply W.
  pose proof (wf_mapped _ _ _ _ W) as Hm. rewrite Forall_forall in *. intros b Hb k Hk.
  rewrite unmap_lookup; [by apply (Hm b Hb) |]. specialize (Hd b Hb). unfold b_end in Hd. lia.
Qed.

(** Cutting a free block off the end of a free block; the size of the first
    part is adjusted afterwards. *)
Lemma cut_block s bs1 c bs2 f1 f2 n :
  wf head s (bs1 ++ c :: bs2) (f1 ++ b_addr c :: f2) → b_kind c = BFree →
  f1 ++ f2 ≡ₚ addrs (filter (is_kind BFree) (bs1 ++ bs2)) →
  64 <= n → (HDR | n) → n + 64 <= b_size c →
  let a := b_addr c in
  let z := a + (b_size c - n) in
  wf head (mk_arena (<[z := ARENA_TYPE_FREE]> (ty s)) (<[a := b_size c - n]> (<[z := n]> (sz s)))
      (<[a := z]> (<[z := succ_of head (addrs bs2)]> (nx s)))
      (<[succ_of head (addrs bs2) := z]> (<[z := a]> (pv s)))
      (<[pred_of head f1 := z]> (<[z := a]> (nf s)))
      (<[a := z]> (<[z := pred_of head f1]> (pf s))) (data s))
    (bs1 ++ Blk a (b_size c - n) BFree :: Blk z n BFree :: bs2) (f1 ++ z :: a :: f2).
Proof.
  intros W Hk Hp Hn Hdiv Hfit a z.
  destruct (wf_split _ _ _ _ _ _ W) as (Hh & [Hz Ht] & (Hok & Hda & Hds) & L1 & L2 & Hni & Ha & Hm & Hpos & Htop).
  rewrite Hk in Ht. destruct (wf_others _ _ _ _ _ _ W) as [Ha' Hm']. pose proof (wf_NoDup _ _ _ _ W) as Hnd.
  assert (z ∉ addrs (bs1 ++ bs2)) as Hzf.
  { apply (layout_fresh 1 bs1 c bs2 TOP); [apply W |]. unfold b_end, z, a. lia. }
  assert (z ≠ a ∧ z ≠ head) as (Hza & Hzh) by (unfold z, a, b_end in *; lia).
  assert (z ∉ f1 ++ f2) as Hzfs by (rewrite Hp; intros ?%addrs_filter_subset; done).
  assert ((HDR | b_size c - n)) as Hdr by (by apply Z.divide_sub_r).
  apply mk_wf; cbn [ty sz nx pv nf pf data].
  - pose proof (wf_main _ _ _ _ W) as D. rewrite addrs_app in *.
    change (addrs (Blk a (b_size c - n) BFree :: Blk z n BFree :: bs2)) with (a :: z :: addrs bs2).
    change (addrs (c :: bs2)) with (a :: addrs bs2) in *.
    replace (addrs bs1 ++ a :: z :: addrs bs2) with ((addrs bs1 ++ [a]) ++ z :: addrs bs2) by (by rewrite <- app_assoc).
    pose proof (dll_insert head (nx s) (pv s) (addrs bs1 ++ [a]) z (addrs bs2)) as Hins.
    rewrite pred_of_snoc in Hins. apply Hins; [| by rewrite <- app_assoc].
    apply NoDup_mid; rewrite <- app_assoc; [exact Hnd |]. cbn [app]. set_solver.
  - apply (dll_insert head (nf s) (pf s) f1 z (a :: f2)); [| apply W].
    apply NoDup_mid; [by eapply wf_NoDup_free |]. set_solver.
  - rewrite filter_mid, filter_kind, decide_True by done.
    change (Blk z n BFree :: bs2) with ([Blk z n BFree] ++ bs2).
    rewrite filter_app, filter_kind, decide_True by done. rewrite filter_app, addrs_app in Hp.
    rewrite !addrs_app. change (addrs [Blk a (b_size c - n) BFree]) with [a]. change (addrs [Blk z n BFree]) with [z].
    cbn [app]. rewrite <- !Permutation_middle, Hp. constructor.
  - apply (hdrs_insert_ty _ _ _ z ARENA_TYPE_FREE) in Hh; [| done].
    apply (hdrs_insert_sz _ _ _ z n) in Hh; [| done].
    apply (hdrs_insert_sz _ _ _ a (b_size c - n)) in Hh; [| done].
    rewrite !Forall_app, !Forall_cons in *. destruct Hh. split_and!; try done.
    + split; cbn [b_kind b_addr b_size]; [by rewrite lookup_insert_eq | by rewrite lookup_insert_ne].
    + split; cbn [b_kind b_addr b_size]; [by rewrite lookup_insert_ne, lookup_insert_eq | by rewrite lookup_insert_eq].
  - rewrite !lookup_insert_ne by done. apply W.
  - apply layout_app. split; [done |]. split; [split_and!; cbn [b_size b_addr]; done || lia |].
    cbn [layout]. unfold b_end in *. cbn [b_addr b_size]. split_and!; [unfold z; lia | |].
    + split_and!; cbn [b_size b_addr]; [lia | by apply Z.divide_add_r | done].
    + by replace (z + n) with (b_addr c + b_size c) by (unfold z, a; lia).
  - unfold b_end, z, a in *. rewrite !Forall_app, !Forall_cons in *. destruct Ha'. cbn [b_addr b_size].
    split_and!; try done; lia.
  - rewrite !Forall_app, !Forall_cons in *. destruct Hm'. cbn [b_addr b_size]. split_and!; try done;
      intros j Hj; apply Hm; unfold z, a in *; lia.
Qed.
End trimming.

(** ** Rounding *)

Lemma round_request_spec size :
  0 < size < 2 ^ 64 - 63 →
  (HDR | round_request size) ∧ size + HDR <= round_request size < size + 2 * HDR ∧ 64 <= round_request size.
Proof.
  intros Hs. unfold round_request, HDR. rewrite wrapu_small by (unfold in_u; lia).
  change (2 ^ 64 - 32) with (2 ^ 64 - 2 ^ 5). rewrite land_not_mask by (unfold in_u; lia).
  pose proof (Z.div_mod (size + 2 * 32 - 1) (2 ^ 5) ltac:(lia)) as E.
  pose proof (Z.mod_pos_bound (size + 2 * 32 - 1) (2 ^ 5) ltac:(lia)).
  set (q := (size + 2 * 32 - 1) / 2 ^ 5) in *. set (r := (size + 2 * 32 - 1) mod 2 ^ 5) in *.
  change (2 ^ 5) with 32 in *. split_and!; [exists q |..]; lia.
Qed.

(** A multiple below the least multiple that is not below [x] is below [x]. *)
Lemma multiple_below b r x : (HDR | b) → (HDR | r) → r < x + HDR → b < r → b < x.
Proof. unfold HDR. intros [i ->] [j ->] ? ?. lia. Qed.

Lemma round_chunk_spec n :
  0 < n < 2 ^ 64 - 65535 →
  (CHUNK_SIZE | round_chunk n) ∧ n <= round_chunk n < n + CHUNK_SIZE.
Proof.
  intros Hs. unfold round_chunk, CHUNK_SIZE. rewrite wrapu_small by (unfold in_u; lia).
  change (2 ^ 64 - 65536) with (2 ^ 64 - 2 ^ 16). rewrite land_not_mask by (unfold in_u; lia).
  pose proof (Z.div_mod (n + (65536 - 1)) (2 ^ 16) ltac:(lia)) as E.
  pose proof (Z.mod_pos_bound (n + (65536 - 1)) (2 ^ 16) ltac:(lia)).
  set (q := (n + (65536 - 1)) / 2 ^ 16) in *. set (r := (n + (65536 - 1)) mod 2 ^ 16) in *.
  change (2 ^ 16) with 65536 in *. split_and!; [exists q |..]; lia.
Qed.

(** ** The allocator's contract *)

(** [s'] serves a request of [size] bytes at [p]: the invariant holds, exactly
    one block has been added to the allocated ones, it holds the request
    behind its header, and no byte of the other allocated blocks changed. *)
Definition serves (head : Z) (s : arena) (bs : list blk) (size p : Z) (s' : arena) : Prop :=
  ∃ n bs' fs', wf head s' bs' fs' ∧ settled bs' ∧ used bs' ≡ₚ (p - HDR, n) :: used bs ∧
    size + HDR <= n ∧ (HDR | p) ∧ p ≠ NULL ∧
    ∀ a l k, (a, l) ∈ used bs → a <= k < a + l → data s' !! k = data s !! k.

Lemma used_elem bs a l : (a, l) ∈ used bs ↔ Blk a l BUsed ∈ bs.
Proof.
  unfold used. rewrite list_elem_of_fmap. split.
  - intros ([a' l' k] & [= -> ->] & [Hk Hb]%list_elem_of_filter). unfold is_kind in Hk. simpl in Hk. by subst k.
  - intros Hb. exists (Blk a l BUsed). split; [done |]. by apply list_elem_of_filter.
Qed.

Lemma serve_from_block head s0 bs0 s bs1 b bs2 fs size :
  wf head s (bs1 ++ b :: bs2) fs → settled (bs1 ++ b :: bs2) → b_kind b = BFree →
  0 < size < 2 ^ 63 → round_request size <= b_size b → used (bs1 ++ b :: bs2) = used bs0 →
  (∀ a l k, (a, l) ∈ used bs0 → a <= k < a + l → data s !! k = data s0 !! k) →
  ∃ s', __malloc_from_block (b_addr b) (round_request size) s = Some (b_addr b + HDR, s') ∧
    serves head s0 bs0 size (b_addr b + HDR) s'.
Proof.
  intros W Hset Hk Hs Hfit Hu Hdata. destruct (round_request_spec size ltac:(lia)) as (Hd & Hr & H64).
  destruct (malloc_from_block_spec head s bs1 b bs2 fs _ W Hk H64 Hd Hfit) as (s' & n & fs' & E & W' & Hn & Hdat).
  exists s'. split; [done |]. eexists n, _, fs'. split; [exact W' |].
  destruct (wf_split _ _ _ _ _ _ W) as (_ & _ & (_ & Hda & _) & _ & _ & _ & _ & _ & Hpos & _).
  assert (used (remainder (b_addr b) (b_size b) n) = []) as Hrem by (unfold remainder; by case_if).
  assert (settled (remainder (b_addr b) (b_size b) n)) as Hsrem.
  { unfold remainder. case_if; [constructor | by apply Forall_singleton]. }
  split_and!.
  - unfold settled in *. rewrite !Forall_app, !Forall_cons, !Forall_app in *. destruct Hset as (? & ? & ?). by split_and!.
  - rewrite <- Hu, !used_app, !used_cons, used_app, Hrem. unfold used_of at 1. cbn [b_kind b_addr b_size].
    rewrite decide_True by done. unfold used_of. rewrite decide_False by congruence.
    rewrite Z.add_simpl_r. cbn [app]. by rewrite Permutation_middle.
  - unfold HDR in *. lia.
  - apply Z.divide_add_r; [done | by exists 1].
  - unfold NULL, HDR in *. lia.
  - intros a l k Ha Hk'. rewrite Hdat. by eapply Hdata.
Qed.

Section correct.
Context (head : Z) (mmap : Z → Z).

Lemma add_chunk_spec s bs fs fsize :
  wf head s bs fs → settled bs → fresh_region head bs (mmap fsize) fsize → 64 <= fsize → (HDR | fsize) →
  ∃ s' bs1 c bs2 fs',
    add_chunk head (nheaders s) (mmap fsize) fsize s = Some (b_addr c, s') ∧
    wf head s' (bs1 ++ c :: bs2) fs' ∧ b_kind c = BFree ∧ fsize <= b_size c ∧
    used (bs1 ++ c :: bs2) = used bs ∧ settled (bs1 ++ c :: bs2) ∧
    data s' = map_region (mmap fsize) fsize (data s).
Proof.
  intros W Hset Hfresh H64 Hd. set (z := mmap fsize) in *. pose proof Hfresh as (Hdz & Hz1 & Hztop & Hzh & Hfr).
  assert (z ∉ addrs bs) as Hni.
  { intros Hin. unfold addrs in Hin. apply list_elem_of_fmap in Hin as (b & Eb & Hb). rewrite Forall_forall in Hfr.
    specialize (Hfr b Hb). destruct (layout_range _ _ _ _ (wf_layout _ _ _ _ W) Hb) as ([? _] & _ & _).
    unfold b_end in *. lia. }
  assert (z ≠ head) as Hzne by lia.
  pose proof (dll_last _ _ _ _ (wf_main _ _ _ _ W)) as Hlast.
  set (s1 := set_sz <[z := fsize]> (set_ty <[z := ARENA_TYPE_FREE]> (set_data (map_region z fsize (data s)) s))).
  destruct (find_pred_spec head s1 z) with (bs1 := bs) (bs2 := @nil blk) (fuel := nheaders s) (lo := 1) (hi := TOP)
    as (bs1 & bs2 & Ebs & Epred & Hlt & Hge); rewrite ?app_nil_r.
  - unfold s1. cbn [ty set_ty set_sz]. rewrite lookup_insert_ne by done. apply W.
  - apply (wf_main _ _ _ _ W).
  - apply Forall_forall. intros b Hb. unfold s1. cbn [ty set_ty set_sz].
    rewrite lookup_insert_ne by (intros E; apply Hni; rewrite E; unfold addrs; apply list_elem_of_fmap; eauto).
    pose proof (wf_hdrs _ _ _ _ W) as Hh. unfold settled in Hset. rewrite Forall_forall in Hh, Hset.
    destruct (Hh b Hb) as [_ Ht]. specialize (Hset b Hb). destruct (b_kind b); [eexists; by split.. | done].
  - apply W.
  - constructor.
  - pose proof (headers_bound (ty s) (addrs bs)) as Hb. unfold addrs in Hb at 3. rewrite length_fmap in Hb.
    apply Hb; [by eapply layout_NoDup, W | by eapply settled_types].
  - rewrite app_nil_r in Ebs. subst bs. pose proof (wf_main _ _ _ _ W) as D. rewrite addrs_app in D.
    pose proof (add_block head s bs1 bs2 fs z fsize W Hfresh H64 Hd Hlt Hge) as W1.
    destruct (free_block_spec head _ bs1 (Blk z fsize BPending) bs2 fs W1 eq_refl Hset)
      as (s2 & bs1' & c & bs2' & fs2 & E2 & W2 & Hk2 & Ha2 & He2 & Hu2 & Hs2 & Hd2 & _).
    exists s2, bs1', c, bs2', fs2. unfold b_end in *. cbn [b_addr b_size data] in *. split_and!; try done; try lia.
    unfold add_chunk. do 3 put_step. erewrite bind_ok by (apply get_ok; exact Hlast).
    erewrite bind_ok by exact Epred.
    assert (nx s !! pred_of head (addrs bs1) = Some (succ_of head (addrs bs2))) as Hpn.
    { destruct bs1 as [| b bs1 _] using rev_ind; [apply (dll_first _ _ _ _ D) |].
      rewrite addrs_app in *. change (addrs [b]) with [b_addr b] in *. rewrite pred_of_snoc.
      rewrite <- app_assoc in D. apply (dll_next _ _ _ _ _ _ D). }
    get_step. do 3 put_step. erewrite bind_ok.
    2: { apply get_ok. cbn [nx set_nx set_pv]. rewrite lookup_insert_ne, lookup_insert_eq; [done |].
         intros E. pose proof (pred_of_in head (addrs bs1)) as Hin. rewrite E in Hin.
         rewrite addrs_app in Hni. set_solver. }
    put_step. exact E2.
Qed.

(** No free block has room for the request, and the kernel gives none. *)
Definition exhausted (bs : list blk) (size : Z) : Prop :=
  (∀ b, b ∈ bs → b_kind b = BFree → b_size b < size + HDR) ∧
  mmap (round_chunk (round_request size)) = MAP_FAILED.

Lemma malloc_spec s bs fs size :
  wf head s bs fs → settled bs → 0 < size < 2 ^ 64 - 65598 →
  let fsize := round_chunk (round_request size) in
  mmap fsize = MAP_FAILED ∨ fresh_region head bs (mmap fsize) fsize →
  (malloc head mmap size s = Some (NULL, s) ∧ exhausted bs size) ∨
  (¬ exhausted bs size ∧ ∃ p s', malloc head mmap size s = Some (p, s') ∧ serves head s bs size p s').
Proof.
  intros W Hset Hs fsize Hmmap. destruct (round_request_spec size ltac:(lia)) as (Hdr & Hr & H64).
  destruct (round_chunk_spec (round_request size)) as (Hdc & Hc); [unfold HDR in *; lia |]. fold fsize in Hdc, Hc.
  unfold malloc. rewrite (proj2 (Z.eqb_neq size 0)) by lia. cbv zeta.
  pose proof (dll_first _ _ _ _ (wf_free _ _ _ _ W)). get_step.
  destruct (find_fit_spec head s bs fs (round_request size) W fs [] (nheaders s)) as (r & Er & Hfit); [done | |].
  { apply headers_bound; [by eapply NoDup_cons_1_2, wf_NoDup_free |]. apply Forall_forall. intros a Ha.
    destruct (wf_free_block _ _ _ _ _ W Ha) as (bs1 & b & bs2 & -> & <- & Hk).
    destruct (wf_split _ _ _ _ _ _ W) as (_ & [_ Ht] & _). rewrite Hk in Ht. eauto. }
  erewrite bind_ok by exact Er. destruct r as [a |].
  - right. destruct Hfit as (bs1 & b & bs2 & -> & <- & Hk & Hle).
    destruct (wf_split _ _ _ _ _ _ W) as (_ & _ & _ & _ & _ & _ & _ & _ & Hpos & Htop). unfold b_end, TOP in Htop.
    split. { intros [Hno _]. specialize (Hno b ltac:(set_solver) Hk). unfold HDR in *. lia. }
    destruct (serve_from_block head s (bs1 ++ b :: bs2) s bs1 b bs2 fs size W Hset Hk) as (s' & E & Hserve);
      [unfold HDR in *; lia | done.. |].
    by exists (b_addr b + HDR), s'.
  - fold fsize. destruct (Z.eqb_spec (mmap fsize) MAP_FAILED) as [Ef | Ef].
    { left. split; [done |]. split; [| done]. intros b Hb Hk. specialize (Hfit b Hb Hk).
      destruct (layout_range _ _ _ _ (wf_layout _ _ _ _ W) Hb) as ((_ & _ & Hdb) & _).
      apply (multiple_below _ (round_request size)); [done | exact Hdr | unfold HDR in *; lia |]. apply Hfit. rewrite (wf_perm _ _ _ _ W).
      apply list_elem_of_fmap. exists b. split; [done |]. by apply list_elem_of_filter. }
    destruct Hmmap as [? | Hfresh]; [done |]. right. split; [by intros [_ ?] |].
    destruct (add_chunk_spec s bs fs fsize W Hset Hfresh) as (s1 & bs1 & c & bs2 & fs1 & E1 & W1 & Hk & Hsz & Hu & Hs1 & Hd1).
    { lia. }
    { etransitivity; [| exact Hdc]. by exists 2048. }
    erewrite bind_ok by exact E1. destruct Hfresh as (_ & Hz1 & Hztop & _ & Hfr).
    destruct (serve_from_block head s bs s1 bs1 c bs2 fs1 size W1 Hs1 Hk) as (s' & E & Hserve);
      [unfold TOP, HDR in *; lia | lia | done | |].
    { intros a l k Ha Hk'. rewrite Hd1, mem_set_map_region, decide_False; [done | | lia].
      apply used_elem in Ha. rewrite Forall_forall in Hfr.
      specialize (Hfr _ Ha). unfold b_end in Hfr. cbn [b_addr b_size] in Hfr. lia. }
    by exists (b_addr c + HDR), s'.
Qed.

End correct.

(** C4.  For every size whose rounding does not wrap around, [malloc] keeps
    the allocator's invariant.  It returns [NULL], with the state unchanged,
    exactly if the size is 0 or no free block has room and the kernel refuses
    a mapping; otherwise it returns an aligned non-null pointer to a new
    block: one block is added to the allocated ones, disjoint from all of them
    by the invariant, with room for the request, and the contents of all other
    blocks are untouched. *)
Theorem malloc_correct head mmap s bs fs size :
  wf head s bs fs → settled bs → 0 <= size < 2 ^ 64 - 65598 →
  let fsize := round_chunk (round_request size) in
  mmap fsize = MAP_FAILED ∨ fresh_region head bs (mmap fsize) fsize →
  (size = 0 ∨ exhausted mmap bs size → malloc head mmap size s = Some (NULL, s)) ∧
  (¬ (size = 0 ∨ exhausted mmap bs size) →
   ∃ p s', malloc head mmap size s = Some (p, s') ∧ serves head s bs size p s').
Proof.
  intros W Hset Hs fsize Hmm. destruct (decide (size = 0)) as [-> | Hne]; [split; [done | tauto] |].
  destruct (malloc_spec head mmap s bs fs size W Hset ltac:(lia) Hmm) as [[? ?] | [? ?]]; split; tauto.
Qed.

(** *** [free] *)

(** The least number of bytes from [x] to a page boundary that is 0 or enough
    for a block. *)
Definition edge_at (page x h : Z) : Prop := 0 <= h ∧ (page | x + h) ∧ (h = 0 ∨ 2 * HDR <= h).
Definition edge (page x h : Z) : Prop := edge_at page x h ∧ ∀ h', edge_at page x h' → h <= h'.

(** What stays of a free block whose pages go back to the kernel, all but the
    first [h] and the last [t] bytes: at least a chunk, or nothing at all. *)
Definition piece (a n : Z) : list blk := if decide (n = 0) then [] else [Blk a n BFree].
Definition worth (c : blk) (h t : Z) : Prop := CHUNK_SIZE <= b_size c - h - t.
Global Instance worth_dec c h t : Decision (worth c h t).
Proof. unfold worth. apply _. Defined.
Definition kept (c : blk) (h t : Z) : list blk :=
  if decide (worth c h t) then piece (b_addr c) h ++ piece (b_end c - t) t else [c].
Definition given_back (c : blk) (h t k : Z) : Prop := worth c h t ∧ b_addr c + h <= k < b_end c - t.

Global Instance given_back_dec c h t k : Decision (given_back c h t k).
Proof. unfold given_back. apply _. Defined.

(** [s'] is [s] with the allocated block of [n] bytes at [a] released: it is
    joined to its free neighbours, the whole pages of the result are unmapped
    if they make up a chunk, the rest stays on the chains, and no other byte
    changes. *)
Definition released (head page : Z) (s : arena) (bs : list blk) (a n : Z) (s' : arena) : Prop :=
  ∃ bs1 bs2 bs1' l c bs2' h t fs',
    bs = bs1 ++ Blk a n BUsed :: bs2 ∧
    joined_left bs1 a n bs1' l ∧ joined_right l bs2 c bs2' ∧
    edge page (b_addr c) h ∧ edge page (- b_end c) t ∧
    wf head s' (bs1' ++ kept c h t ++ bs2') fs' ∧ settled (bs1' ++ kept c h t ++ bs2') ∧
    used bs ≡ₚ (a, n) :: used (bs1' ++ kept c h t ++ bs2') ∧
    ∀ k, data s' !! k = if decide (given_back c h t k) then None else data s !! k.

Lemma piece_used a n : used (piece a n) = [].
Proof. unfold piece. by case_decide. Qed.

Lemma piece_settled a n : settled (piece a n).
Proof. unfold piece. case_decide; by repeat constructor. Qed.

Lemma piece_away a n lo hi :
  (0 <= n → a + n <= lo ∨ hi <= a) → Forall (λ b, b_end b <= lo ∨ hi <= b_addr b) (piece a n) ∨ n < 0.
Proof.
  intros Hn. destruct (decide (n < 0)); [by right |]. left. unfold piece. case_decide; [constructor |].
  apply Forall_singleton. unfold b_end. cbn [b_addr b_size]. apply Hn. lia.
Qed.

Lemma kept_used c h t : b_kind c = BFree → used (kept c h t) = [].
Proof.
  intros Hk. unfold kept. case_decide; [by rewrite used_app, !piece_used |].
  rewrite used_cons. unfold used_of. by rewrite decide_False by congruence.
Qed.

Lemma kept_settled c h t : b_kind c = BFree → settled (kept c h t).
Proof.
  intros Hk. unfold kept. case_decide; [apply Forall_app; split; apply piece_settled |].
  apply Forall_singleton. congruence.
Qed.

Section freeing.
Context (head page_size : Z).
Context (pk : Z) (Hpage : page_size = 2 ^ pk) (Hpk : 6 <= pk <= 16).

Lemma page_facts : 64 <= page_size <= 65536 ∧ (HDR | page_size).
Proof using Hpage Hpk.
  rewrite Hpage. split.
  - split; [change 64 with (2 ^ 6) | change 65536 with (2 ^ 16)]; apply Z.pow_le_mono_r; lia.
  - exists (2 ^ (pk - 5)). unfold HDR. change 32 with (2 ^ 5). rewrite <- Z.pow_add_r by lia. f_equal. lia.
Qed.

Lemma portion_spec x :
  (HDR | x) →
  let r := adjust_portion page_size (Z.land (u64 x) (page_size - 1)) in
  (HDR | r) ∧ (r = 0 ∨ 64 <= r) ∧ 0 <= r < page_size + 64 ∧ edge page_size (- x) r.
Proof using Hpage Hpk.
  intros Hx. destruct page_facts as [Hp Hdp]. cbv zeta.
  assert (Z.land (u64 x) (page_size - 1) = x mod page_size) as ->.
  { rewrite Hpage, land_mask by lia. unfold wrapu. apply Z.mod_mod_divide.
    exists (2 ^ (64 - pk)). rewrite <- Z.pow_add_r by lia. f_equal. lia. }
  pose proof (Z.mod_pos_bound x page_size ltac:(lia)) as Hr.
  assert ((HDR | x mod page_size)) as Hd.
  { rewrite Z.mod_eq by lia. apply Z.divide_sub_r; [done |]. by apply Z.divide_mul_l. }
  assert (∀ h', (page_size | - x + h') → 0 <= h' → h' = x mod page_size ∨ x mod page_size + page_size <= h') as Hmin.
  { intros h' [q Hq] Hh'. pose proof (Z.div_mod x page_size ltac:(lia)) as Ex.
    assert (h' = x mod page_size + page_size * (q + x / page_size)) as -> by lia.
    set (r := x mod page_size) in *. set (e := q + x / page_size) in *.
    destruct (Z.lt_trichotomy e 0) as [? | [-> | ?]]; [nia | left; lia | right; nia]. }
  assert ((page_size | - x + x mod page_size)) as Hon.
  { exists (- (x / page_size)). pose proof (Z.div_mod x page_size ltac:(lia)). lia. }
  unfold adjust_portion, edge, edge_at, HDR in *.
  destruct (Z.eqb_spec (x mod page_size) 0), (Z.ltb_spec (x mod page_size) (2 * 32));
    cbn [negb andb]; split_and!; try done; try lia; try (intros h' (? & Hh' & ?); destruct (Hmin h' Hh'); lia).
  - by apply Z.divide_add_r.
  - rewrite Z.add_assoc. apply Z.divide_add_r; [exact Hon | by exists 1; lia].
Qed.

(** The split of the tail, as far as the blocks are concerned. *)
Lemma split_tail_spec s bs1 c bs2 fs n :
  wf head s (bs1 ++ c :: bs2) fs → b_kind c = BFree → 64 <= n → (HDR | n) → n + 64 <= b_size c →
  ∃ s' fs', split_tail (b_addr c) (b_addr c + (b_size c - n)) n s = Some (tt, s') ∧
    wf head (set_sz (<[b_addr c := b_size c - n]>) s')
      (bs1 ++ Blk (b_addr c) (b_size c - n) BFree :: Blk (b_addr c + (b_size c - n)) n BFree :: bs2) fs' ∧
    data s' = data s ∧ sz s' !! b_addr c = Some (b_size c).
Proof using All.
  intros W Hk Hn Hd Hfit. destruct (wf_free_split _ _ _ _ _ _ W Hk) as (f1 & f2 & -> & Hp).
  pose proof (cut_block head s bs1 c bs2 f1 f2 n W Hk Hp Hn Hd Hfit) as W'. cbv zeta in W'.
  destruct (wf_split _ _ _ _ _ _ W) as (_ & [Hz _] & _ & _ & _ & _ & Ha & _ & Hpos & Htop).
  pose proof (wf_free _ _ _ _ W) as Df. pose proof (wf_main _ _ _ _ W) as Dm. rewrite addrs_app in Dm.
  change (addrs (c :: bs2)) with (b_addr c :: addrs bs2) in Dm.
  pose proof (dll_next _ _ _ _ _ _ Dm) as Hnx. pose proof (dll_prev _ _ _ _ _ _ Df) as Hpf.
  set (z := b_addr c + (b_size c - n)) in *.
  pose proof (layout_fresh 1 bs1 c bs2 TOP z (wf_layout _ _ _ _ W) ltac:(unfold b_end, z; lia)) as Hzf.
  assert (z ≠ b_addr c ∧ z ≠ head) as [Hzc Hzh] by (unfold z, b_end in *; lia).
  assert (z ≠ succ_of head (addrs bs2)) as Hzs.
  { intros E. pose proof (succ_of_in head (addrs bs2)) as Hin. rewrite <- E in Hin. rewrite addrs_app in Hzf. set_solver. }
  assert (z ≠ pred_of head f1) as Hzp.
  { intros E. pose proof (pred_of_in head f1) as Hin. rewrite <- E in Hin. apply elem_of_cons in Hin as [? | Hin]; [done |].
    apply Hzf, (addrs_filter_subset BFree). rewrite <- Hp. set_solver. }
  eexists _, _. split; [| split; [| split]].
  - unfold split_tail. do 2 put_step. get_step. do 4 put_step. get_step. do 3 put_step. reflexivity.
  - rewrite (insert_insert_ne (pv s)), (insert_insert_ne (nf s)) in W' by done. exact W'.
  - reflexivity.
  - cbn [sz set_ty set_sz set_nx set_pv set_nf set_pf]. by rewrite lookup_insert_ne.
Qed.

Lemma set_sz_id s a n : sz s !! a = Some n → set_sz (<[a := n]>) s = s.
Proof using Type. intros E. destruct s. unfold set_sz. cbn in *. by rewrite insert_id. Qed.

Lemma set_sz_twice s a n n' : set_sz (<[a := n']>) (set_sz (<[a := n]>) s) = set_sz (<[a := n']>) s.
Proof using Type. unfold set_sz. cbn. by rewrite insert_insert_eq. Qed.

(** The size field of an address that is no block is irrelevant. *)
Lemma unset_sz s a v bs fs : a ∉ addrs bs → wf head (set_sz (<[a := v]>) s) bs fs → wf head s bs fs.
Proof using Type.
  intros Ha W. apply mk_wf; try apply W. pose proof (wf_hdrs _ _ _ _ W) as Hh. cbn [ty sz set_sz] in Hh.
  rewrite Forall_forall in *. intros b Hb. destruct (Hh b Hb) as [Hz Ht]. split; [| done].
  by rewrite lookup_insert_ne in Hz by (intros ->; apply Ha; unfold addrs; apply list_elem_of_fmap; eauto).
Qed.

(** What the two steps before [munmap] leave around the hole. *)
Lemma trim_tail_spec s bs1 c bs2 fs n :
  wf head s (bs1 ++ c :: bs2) fs → b_kind c = BFree → (n = 0 ∨ 64 <= n) → (HDR | n) → n + 64 <= b_size c →
  let z := b_addr c + (b_size c - n) in
  ∃ s1 fs1, (if negb (n =? 0) then split_tail (b_addr c) z n else mret tt) s = Some (tt, s1) ∧
    wf head (set_sz (<[b_addr c := b_size c - n]>) s1) (bs1 ++ Blk (b_addr c) (b_size c - n) BFree :: piece z n ++ bs2) fs1 ∧
    data s1 = data s.
Proof using All.
  intros W Hk [-> | Hn] Hd Hfit.
  - exists s, fs. rewrite Z.sub_0_r. destruct (wf_split _ _ _ _ _ _ W) as (_ & [Hz _] & _).
    rewrite set_sz_id by done. split_and!; try done. destruct c as [a m k]. cbn in *. by subst k.
  - unfold piece. rewrite (proj2 (Z.eqb_neq n 0)), decide_False by lia. cbn [negb].
    destruct (split_tail_spec s bs1 c bs2 fs n W Hk Hn Hd Hfit) as (s1 & fs1 & E & W1 & Hd1 & _).
    by exists s1, fs1.
Qed.

Lemma trim_head_spec s bs1 a m bs2 fs n :
  wf head (set_sz (<[a := m]>) s) (bs1 ++ Blk a m BFree :: bs2) fs → (n = 0 ∨ 64 <= n) → (HDR | n) → n <= m →
  ∃ s1 fs1, (if negb (n =? 0) then put set_sz a n else remove_from_chains a) s = Some (tt, s1) ∧
    wf head s1 (bs1 ++ piece a n ++ bs2) fs1 ∧ data s1 = data s.
Proof using All.
  intros W [-> | Hn] Hd Hle.
  - destruct (wf_free_split _ _ _ _ _ _ W eq_refl) as (f1 & f2 & -> & Hp).
    pose proof (drop_block head _ _ _ _ _ _ W Hp) as W1. cbn [ty sz nx pv nf pf data set_sz b_addr] in W1.
    destruct (wf_split _ _ _ _ _ _ W) as (_ & _ & _ & _ & _ & Hni & _). cbn [b_addr] in Hni.
    pose proof (wf_main _ _ _ _ W) as D. rewrite addrs_app in D. cbn [nx pv set_sz] in D.
    pose proof (wf_free _ _ _ _ W) as Df. cbn [nf pf set_sz] in Df.
    eexists _, _. split; [| split].
    + cbn [negb Z.eqb]. unfold remove_from_chains.
      erewrite bind_ok by (by apply (remove_from_free_chain_spec head _ f1 _ f2)).
      erewrite (remove_from_main_chain_spec head); [| exact D]. reflexivity.
    + apply (unset_sz _ a m); [done |]. exact W1.
    + reflexivity.
  - unfold piece. rewrite (proj2 (Z.eqb_neq n 0)), decide_False by lia. cbn [negb].
    pose proof (shrink_block head _ _ _ _ _ n W) as W1. cbn [b_addr b_size b_kind] in W1. rewrite set_sz_twice in W1.
    exists (set_sz (<[a := n]>) s), fs. split; [done |]. split; [by apply W1; [lia |] | done].
Qed.

Lemma trim_spec s bs1 c bs2 fs :
  wf head s (bs1 ++ c :: bs2) fs → b_kind c = BFree →
  ∃ s' fs' h t, trim page_size (b_addr c) s = Some (tt, s') ∧
    edge page_size (b_addr c) h ∧ edge page_size (- b_end c) t ∧
    wf head s' (bs1 ++ kept c h t ++ bs2) fs' ∧
    ∀ k, data s' !! k = if decide (given_back c h t k) then None else data s !! k.
Proof using All.
  intros W Hk. destruct (wf_split _ _ _ _ _ _ W) as (_ & [Hz _] & (Hok & Hda & Hds) & L1 & L2 & _ & _ & _ & Hpos & Htop).
  destruct page_facts as [Hpg _]. unfold trim. get_step. cbv zeta.
  destruct (portion_spec (- b_addr c)) as (Hdh & Hh0 & Hhr & Heh); [by apply Z.divide_opp_r |].
  destruct (portion_spec (b_addr c + b_size c)) as (Hdt & Ht0 & Htr & Het); [by apply Z.divide_add_r |].
  set (hp := adjust_portion page_size (Z.land (u64 (- b_addr c)) (page_size - 1))) in *.
  set (tp := adjust_portion page_size (Z.land (u64 (b_addr c + b_size c)) (page_size - 1))) in *.
  rewrite Z.opp_involutive in Heh. fold (b_end c) in Het.
  unfold CHUNK_SIZE, TOP in *. unfold b_end in Htop. rewrite (wrapu_small 64 (hp + tp + 65536)) by (unfold in_u; lia).
  destruct (Z.leb_spec (hp + tp + 65536) (b_size c)) as [Hbig | Hsmall].
  2: { assert (¬ worth c hp tp) as Hw by (unfold worth, CHUNK_SIZE; lia).
       exists s, fs, hp, tp. unfold kept. rewrite decide_False by done. split_and!; try done.
       intros k. by rewrite decide_False by (by intros [? _]). }
  assert (worth c hp tp) as Hw by (unfold worth, CHUNK_SIZE; lia).
  rewrite (wrapu_small 64 (b_size c - hp - tp)) by (unfold in_u; lia).
  replace (b_addr c + hp + (b_size c - hp - tp)) with (b_addr c + (b_size c - tp)) by lia.
  destruct (trim_tail_spec s bs1 c bs2 fs tp W Hk Ht0 Hdt) as (s1 & fs1 & E1 & W1 & Hd1); [lia |].
  destruct (trim_head_spec s1 bs1 (b_addr c) (b_size c - tp) _ fs1 hp W1 Hh0 Hdh) as (s2 & fs2 & E2 & W2 & Hd2); [lia |].
  erewrite bind_ok by exact E1. erewrite bind_ok by exact E2.
  replace (b_addr c + (b_size c - tp)) with (b_end c - tp) in W2 by (unfold b_end; lia).
  eexists _, fs2, hp, tp. split; [reflexivity |]. split; [done |]. split; [done |]. unfold kept. rewrite decide_True by done.
  rewrite <- app_assoc. split.
  - apply unmap_wf; [done |]. rewrite !Forall_app. split_and!.
    + apply Forall_forall. intros b Hin. destruct (layout_range _ _ _ _ L1 Hin) as (_ & _ & ?). left. lia.
    + destruct (piece_away (b_addr c) hp (b_addr c + hp) (b_addr c + hp + (b_size c - hp - tp))); [lia | done | lia].
    + destruct (piece_away (b_end c - tp) tp (b_addr c + hp) (b_addr c + hp + (b_size c - hp - tp))); [| done | lia].
      unfold b_end. lia.
    + apply Forall_forall. intros b Hin. destruct (layout_range _ _ _ _ L2 Hin) as (_ & ? & _). unfold b_end in *. right. lia.
  - intros k. cbn [data set_data]. rewrite Hd2, Hd1. unfold given_back, b_end in *. case_decide as Hg.
    + apply map_lookup_filter_None. right. intros v _. cbn. lia.
    + apply unmap_lookup. destruct (decide (k < b_addr c + hp)), (decide (b_addr c + b_size c - tp <= k)); try lia.
      exfalso. apply Hg. split; [done | lia].
Qed.

Lemma free_released s bs fs a n :
  wf head s bs fs → settled bs → (a, n) ∈ used bs →
  ∃ s', free head page_size (a + HDR) s = Some (tt, s') ∧ released head page_size s bs a n s'.
Proof using All.
  intros W Hset Hu. apply used_elem, list_elem_of_split in Hu as (bs1 & bs2 & ->).
  destruct (wf_split _ _ _ _ _ _ W) as (_ & _ & _ & _ & _ & _ & _ & _ & Hpos & _). cbn [b_addr] in Hpos.
  pose proof (pend_block head s bs1 _ bs2 fs W eq_refl) as W0. cbn [b_addr b_size] in W0.
  unfold settled in Hset. rewrite Forall_app, Forall_cons in Hset. destruct Hset as (Hset1 & _ & Hset2).
  destruct (free_block_spec head s bs1 _ bs2 fs W0 eq_refl)
    as (s1 & b1 & c & b2 & fs1 & E1 & W1 & Hk & _ & _ & Hu1 & Hs1 & Hd1 & l & Hl & Hr);
    [by apply Forall_app |]. cbn [b_addr] in E1.
  destruct (trim_spec s1 b1 c b2 fs1 W1 Hk) as (s' & fs' & h & t & E2 & Hh & Ht & W2 & Hd2).
  exists s'. split.
  { unfold free, HDR. rewrite (proj2 (Z.eqb_neq _ NULL)) by (unfold NULL; lia). rewrite Z.add_simpl_r.
    by erewrite bind_ok by exact E1. }
  exists bs1, bs2, b1, l, c, b2, h, t, fs'. split_and!; try done.
  - unfold settled in *. rewrite !Forall_app, ?Forall_cons in *. split_and!; try tauto. by apply kept_settled.
  - rewrite !used_app, used_cons in Hu1 |- *. rewrite used_app, (kept_used c) by done. unfold used_of in Hu1 |- *.
    rewrite decide_False in Hu1 by congruence. cbn [b_kind b_addr b_size]. rewrite decide_True by done.
    cbn [app] in Hu1 |- *. by rewrite Hu1, <- Permutation_middle.
  - intros k. rewrite Hd2. by rewrite Hd1.
Qed.

(** An allocated block that remains keeps its bytes. *)
Lemma released_keeps s bs fs a n s' :
  wf head s bs fs → released head page_size s bs a n s' →
  ∃ bs' fs', wf head s' bs' fs' ∧ settled bs' ∧ used bs ≡ₚ (a, n) :: used bs' ∧
    ∀ b l k, (b, l) ∈ used bs' → b <= k < b + l → data s' !! k = data s !! k.
Proof using All.
  intros W (bs1 & bs2 & b1 & l & c & b2 & h & t & fs' & -> & Hl & Hr & Hh & Ht & W' & Hs' & Hu & Hd).
  exists (b1 ++ kept c h t ++ b2), fs'. split_and!; try done.
  intros b m k Hb Hk. rewrite Hd. case_decide as Hg; [| done]. exfalso.
  apply used_elem in Hb. pose proof (wf_mapped _ _ _ _ W') as Hm. rewrite Forall_forall in Hm.
  destruct (Hm _ Hb k) as [v Hv]; [done |]. by rewrite Hd, decide_True in Hv.
Qed.

Lemma free_spec s bs fs a n :
  wf head s bs fs → settled bs → (a, n) ∈ used bs →
  free head page_size NULL s = Some (tt, s) ∧
  ∃ s' bs' fs', free head page_size (a + HDR) s = Some (tt, s') ∧ wf head s' bs' fs' ∧ settled bs' ∧
    used bs ≡ₚ (a, n) :: used bs' ∧
    ∀ b l k, (b, l) ∈ used bs' → b <= k < b + l → data s' !! k = data s !! k.
Proof using All.
  intros W Hset Hu. split; [done |]. destruct (free_released s bs fs a n W Hset Hu) as (s' & E & Hrel).
  destruct (released_keeps s bs fs a n s' W Hrel) as (bs' & fs' & ? & ? & ? & ?). by exists s', bs', fs'.
Qed.
End freeing.

(** C5.  [free] of an allocated block takes exactly that block out of the
    allocated ones.  It is joined to the free blocks next to it; if the whole
    pages inside the result make up a chunk they are unmapped, and what is
    left before and after them, never less than the room of a header, stays on
    the chains, otherwise all of it does: nothing leaks.  Every byte that is
    not unmapped, in particular those of all other allocated blocks, keeps its
    value, and the invariant holds.  [free(NULL)] does nothing. *)
Theorem free_correct head page_size pk s bs fs a n :
  page_size = 2 ^ pk → 6 <= pk <= 16 →
  wf head s bs fs → settled bs → (a, n) ∈ used bs →
  free head page_size NULL s = Some (tt, s) ∧
  ∃ s', free head page_size (a + HDR) s = Some (tt, s') ∧ released head page_size s bs a n s' ∧
    ∃ bs' fs', wf head s' bs' fs' ∧ settled bs' ∧ used bs ≡ₚ (a, n) :: used bs' ∧
      ∀ b l k, (b, l) ∈ used bs' → b <= k < b + l → data s' !! k = data s !! k.
Proof.
  intros Hp Hpk W Hset Hu. split; [done |].
  destruct (free_released head page_size pk Hp Hpk s bs fs a n W Hset Hu) as (s' & E & Hrel).
  exists s'. split_and!; try done. by eapply released_keeps.
Qed.

(** *** [calloc] and [realloc] *)

Section clients.
Context (head : Z).

Lemma wf_init : wf head (malloc_init head) [] [].
Proof.
  assert (dll {[head := head]} {[head := head]} head []) as D by (split; simpl; apply lookup_singleton_eq).
  apply mk_wf; try done. apply lookup_singleton_eq.
Qed.

(** Writing inside memory keeps the invariant. *)
Lemma wf_write s bs fs a vs :
  wf head s bs fs → wf head (set_data (mem_set (data s) a vs) s) bs fs.
Proof.
  intros W. apply mk_wf; cbn [ty sz nx pv nf pf data set_data]; try apply W.
  eapply Forall_impl; [apply (wf_mapped _ _ _ _ W) |]. intros b Hb. by apply mapped_set.
Qed.

Lemma wf_used_mapped s bs fs a n :
  wf head s bs fs → (a, n) ∈ used bs → mapped (data s) (a + HDR) (n - HDR).
Proof.
  intros W Hu%used_elem. pose proof (wf_mapped _ _ _ _ W) as Hm. rewrite Forall_forall in Hm.
  specialize (Hm _ Hu). cbn [b_addr b_size] in Hm. intros k Hk. apply Hm. unfold HDR in *. lia.
Qed.

Lemma wf_used_disjoint s bs fs a n rest a' n' :
  wf head s bs fs → used bs ≡ₚ (a, n) :: rest → (a', n') ∈ rest → a + n <= a' ∨ a' + n' <= a.
Proof.
  intros W Hp Hin. assert (Blk a n BUsed ∈ bs) as Hb by (apply used_elem; rewrite Hp; set_solver).
  assert (Blk a' n' BUsed ∈ bs) as Hb' by (apply used_elem; rewrite Hp; set_solver).
  assert (a ≠ a') as Hne.
  { pose proof (layout_NoDup _ _ _ (wf_layout _ _ _ _ W)) as Hnd. apply (NoDup_addrs_filter BUsed) in Hnd.
    intros ->. unfold used in Hp. apply (fmap_Permutation fst) in Hp. rewrite <- list_fmap_compose in Hp.
    change (fst ∘ (λ b, (b_addr b, b_size b))) with b_addr in Hp. unfold addrs in Hnd. rewrite Hp in Hnd.
    apply NoDup_cons in Hnd as [Hnd _]. apply Hnd. apply list_elem_of_fmap. by exists (a', n'). }
  apply list_elem_of_split in Hb as (bs1 & bs2 & ->).
  apply elem_of_app in Hb' as [Hb' | [[= ? ?] | Hb']%elem_of_cons]; [| done |].
  - destruct (layout_disjoint _ _ _ _ _ (Blk a' n' BUsed) (wf_layout _ _ _ _ W)) as [? | ?]; [set_solver | |];
      unfold b_end in *; cbn [b_addr b_size] in *; lia.
  - destruct (layout_disjoint _ _ _ _ _ (Blk a' n' BUsed) (wf_layout _ _ _ _ W)) as [? | ?]; [set_solver | |];
      unfold b_end in *; cbn [b_addr b_size] in *; lia.
Qed.

Context (mmap : Z → Z).

(** [calloc] of a product that does not overflow serves the request
    like [malloc] and clears it. *)
Theorem calloc_correct s bs fs nmemb size :
  wf head s bs fs → settled bs → 0 < size * nmemb < 2 ^ 63 - 65536 →
  let fsize := round_chunk (round_request (size * nmemb)) in
  mmap fsize = MAP_FAILED ∨ fresh_region head bs (mmap fsize) fsize →
  (calloc head mmap nmemb size s = Some (NULL, s) ∧ mmap fsize = MAP_FAILED) ∨
  (∃ p s', calloc head mmap nmemb size s = Some (p, s') ∧ serves head s bs (size * nmemb) p s' ∧
     ∀ k, p <= k < p + size * nmemb → data s' !! k = Some 0).
Proof.
  intros W Hset Hs fsize Hmm. unfold calloc. rewrite wrapu_small by (unfold in_u; lia). cbv zeta.
  set (sz0 := size * nmemb) in *.
  destruct (malloc_spec head mmap s bs fs sz0 W Hset ltac:(lia) Hmm) as [[E [_ Hf]] | (_ & p & s1 & E & n & bs1 & fs1 & W1 & Hs1 & Hu & Hn & Hd & Hp0 & Hdata)].
  - left. split; [| done]. by erewrite bind_ok by exact E.
  - right. erewrite bind_ok by exact E. rewrite (proj2 (Z.eqb_neq p NULL)) by done. cbn [negb].
    assert ((p - HDR, n) ∈ used bs1) as Hin by (rewrite Hu; set_solver).
    pose proof (wf_used_mapped s1 bs1 fs1 _ _ W1 Hin) as Hmap. rewrite Z.sub_simpl_r in Hmap.
    assert (mapped (data s1) p sz0) as Hmap' by (intros k Hk; apply Hmap; unfold HDR in *; lia).
    exists p, (set_data (mem_set (data s1) p (replicate (Z.to_nat sz0) 0)) s1). split; [| split].
    + erewrite bind_ok; [reflexivity |]. erewrite bind_ok; [reflexivity |].
      unfold on_data. by rewrite memset_correct by (done || lia).
    + exists n, bs1, fs1. split_and!; try done; [by apply wf_write |].
      intros a l k Ha Hk. cbn [data set_data]. rewrite <- (Hdata a l k Ha Hk).
      apply mem_set_outside. rewrite length_replicate.
      destruct (wf_used_disjoint s1 bs1 fs1 _ _ _ _ _ W1 Hu Ha); unfold HDR in *; lia.
    + intros k Hk. cbn [data set_data]. rewrite mem_set_lookup, length_replicate, decide_True by lia.
      rewrite lookup_replicate_2; [done | lia].
Qed.

Context (page_size pk : Z) (Hpage : page_size = 2 ^ pk) (Hpk : 6 <= pk <= 16).

(** The copy of [realloc] between two allocated blocks. *)
Lemma realloc_copy s1 bs1 fs1 p nn a n cnt rest :
  wf head s1 bs1 fs1 → (∀ k v, a <= k < a + n → data s1 !! k = Some v → in_u 8 v) →
  used bs1 ≡ₚ (p - HDR, nn) :: rest → (a, n) ∈ rest →
  0 <= cnt → cnt + HDR <= nn → cnt + HDR <= n →
  ∃ vs, Z.of_nat (length vs) = cnt ∧ mem_at (data s1) (a + HDR) vs ∧
    Mem.memcpy p (a + HDR) cnt (data s1) = Some (p, mem_set (data s1) p vs).
Proof.
  intros W Hb Hu Hin Hc0 Hc1 Hc2.
  assert (mapped (data s1) (a + HDR) cnt) as Hms.
  { intros k Hk. apply (wf_used_mapped s1 bs1 fs1 a n W); [rewrite Hu; set_solver | unfold HDR in *; lia]. }
  assert (mapped (data s1) p cnt) as Hmd.
  { intros k Hk. pose proof (wf_used_mapped s1 bs1 fs1 (p - HDR) nn W) as Hm. rewrite Z.sub_simpl_r in Hm.
    apply Hm; [rewrite Hu; set_solver | unfold HDR in *; lia]. }
  destruct (mapped_mem_at (data s1) (a + HDR) cnt Hc0 Hms) as (vs & Hvs & Hlen). exists vs. split_and!; [done | done |].
  rewrite <- Hlen. apply memcpy_correct; [done | | by rewrite Hlen |].
  - apply Forall_forall. intros v (i & Hi)%list_elem_of_lookup. pose proof (lookup_lt_Some _ _ _ Hi).
    eapply Hb; [| apply Hvs, Hi]. unfold HDR in *. lia.
  - destruct (wf_used_disjoint s1 bs1 fs1 _ _ _ _ _ W Hu Hin); unfold HDR in *; lia.
Qed.

(** What [realloc] promises when it returns: a block for [size] bytes at [q]
    that starts with the old contents, in place of the old block. *)
Definition moved (s : arena) (bs : list blk) (a n size q : Z) (s' : arena) : Prop :=
  ∃ nn bs' fs', wf head s' bs' fs' ∧ settled bs' ∧ size + HDR <= nn ∧
    (a, n) :: used bs' ≡ₚ (q - HDR, nn) :: used bs ∧
    (∀ k, 0 <= k < Z.min size (n - HDR) → data s' !! (q + k) = data s !! (a + HDR + k)) ∧
    (∀ b l k, (b, l) ∈ used bs → b ≠ a → b <= k < b + l → data s' !! k = data s !! k).

Lemma used_blk_ok s bs fs a n : wf head s bs fs → (a, n) ∈ used bs → 64 <= n < 2 ^ 63 ∧ 0 < a.
Proof.
  intros W Hu%used_elem. destruct (layout_range _ _ _ _ (wf_layout _ _ _ _ W) Hu) as ([? _] & ? & ?).
  unfold b_end, TOP in *. cbn [b_addr b_size] in *. lia.
Qed.

Lemma moved_intro s bs s1 bs1 fs1 p nn a n size rsize cnt vs :
  wf head s1 bs1 fs1 → settled bs1 → used bs1 ≡ₚ (p - HDR, nn) :: used bs → rsize + HDR <= nn →
  (∀ b l k, (b, l) ∈ used bs → b <= k < b + l → data s1 !! k = data s !! k) → (a, n) ∈ used bs →
  64 <= n → 0 < a → size <= rsize → cnt = Z.min rsize (n - HDR) → Z.of_nat (length vs) = cnt →
  mem_at (data s1) (a + HDR) vs →
  ∃ s', free head page_size (a + HDR) (set_data (mem_set (data s1) p vs) s1) = Some (tt, s') ∧
    moved s bs a n size p s'.
Proof.
  intros W1 Hs1 Hu Hnn Hdata Hin Hn Ha Hsz Hcnt Hlen Hvs.
  assert ((a, n) ∈ used bs1) as Hin1 by (rewrite Hu; set_solver).
  pose proof (wf_write s1 bs1 fs1 p vs W1) as W2.
  destruct (free_spec head page_size pk Hpage Hpk _ bs1 fs1 a n W2 Hs1 Hin1)
    as (_ & s3 & bs3 & fs3 & E3 & W3 & Hs3 & Hu3 & Hd3). cbn [data set_data] in Hd3.
  exists s3. split; [done |]. exists nn, bs3, fs3. unfold HDR in *. split_and!; try done; [lia | by rewrite <- Hu3 | |].
  - intros k Hk. assert ((p - 32, nn) ∈ used bs3) as Hp3.
    { assert ((p - 32, nn) ∈ (a, n) :: used bs3) as Hp by (rewrite <- Hu3, Hu; set_solver).
      apply elem_of_cons in Hp as [[= ? ?] | ?]; [| done].
      destruct (wf_used_disjoint s1 bs1 fs1 _ _ _ _ _ W1 Hu Hin); lia. }
    rewrite (Hd3 _ _ (p + k) Hp3) by lia.
    destruct (lookup_lt_is_Some_2 vs (Z.to_nat k)) as [v Hv]; [lia |].
    rewrite mem_set_lookup, decide_True by lia. replace (p + k - p) with k by lia. rewrite Hv.
    rewrite <- (Hdata a n) by (done || lia). apply Hvs in Hv. rewrite Z2Nat.id in Hv by lia. done.
  - intros b l k Hb Hne Hk. assert ((b, l) ∈ used bs3) as Hb3.
    { assert ((b, l) ∈ (a, n) :: used bs3) as Hb3 by (rewrite <- Hu3, Hu; set_solver).
      by apply elem_of_cons in Hb3 as [[= ? ?] | ?]. }
    rewrite (Hd3 b l k Hb3 Hk). rewrite <- (Hdata b l k Hb Hk). apply mem_set_outside.
    destruct (wf_used_disjoint s1 bs1 fs1 _ _ _ _ _ W1 Hu Hb); lia.
Qed.

(** C6.  [realloc] of an allocated block gives a block for the new size
    that starts with the old contents and takes the old block's place in the
    allocator, unless a new mapping is needed and refused: then it copies
    through the null pointer, a fault where address 0 is unmapped. *)
Theorem realloc_correct s bs fs a n size :
  wf head s bs fs → settled bs → bytes_ok (data s) → data s !! 0 = None → (a, n) ∈ used bs →
  0 < size < 2 ^ 63 - 131072 →
  let fsize := round_chunk (round_request (round_request size)) in
  mmap fsize = MAP_FAILED ∨ fresh_region head bs (mmap fsize) fsize →
  (∃ q s', realloc head page_size mmap (a + HDR) size s = Some (q, s') ∧ moved s bs a n size q s') ∨
  (realloc head page_size mmap (a + HDR) size s = None ∧ mmap fsize = MAP_FAILED).
Proof.
  intros W Hset Hb H0 Hin Hs fsize Hmm. destruct (used_blk_ok s bs fs a n W Hin) as [Hn Ha].
  destruct (round_request_spec size ltac:(lia)) as (_ & Hr & _). set (rsize := round_request size) in *.
  assert (sz s !! a = Some n) as Hz.
  { apply used_elem in Hin. pose proof (wf_hdrs _ _ _ _ W) as Hh. rewrite Forall_forall in Hh. by destruct (Hh _ Hin). }
  unfold realloc. rewrite (proj2 (Z.eqb_neq _ NULL)) by (unfold NULL, HDR; lia).
  rewrite (proj2 (Z.eqb_neq size 0)) by lia. cbv zeta. rewrite Z.add_simpl_r. fold rsize. get_step.
  rewrite (wrapu_small 64 (n - HDR)) by (unfold in_u, HDR; lia).
  replace (if rsize <? n - HDR then rsize else n - HDR) with (Z.min rsize (n - HDR))
    by (destruct (Z.ltb_spec rsize (n - HDR)); lia).
  destruct ((rsize <=? n) && (Z.shiftr n 2 <=? rsize)) eqn:Efit.
  { left. apply andb_true_iff in Efit as [Efit%Z.leb_le _]. exists (a + HDR), s. split; [done |].
    exists n, bs, fs. rewrite Z.add_simpl_r. split_and!; try done. lia. }
  destruct (malloc_spec head mmap s bs fs rsize W Hset ltac:(unfold HDR in *; lia) Hmm)
    as [[E [_ Hf]] | (_ & p & s1 & E & nn & bs1 & fs1 & W1 & Hs1 & Hu & Hnn & Hd & Hp0 & Hdata)].
  - right. split; [| done]. erewrite bind_ok by exact E. apply bind_fault. unfold on_data.
    replace (Mem.memcpy NULL (a + HDR) (Z.min rsize (n - HDR)) (data s)) with (@None (Z * mem)); [done |].
    destruct (wf_used_mapped s bs fs a n W Hin (a + HDR)) as [v Hv]; [unfold HDR in *; lia |].
    unfold Mem.memcpy, with_fuel. symmetry. apply bind_fault. cbn [Mem.memcpy_loop].
    rewrite (proj2 (Z.eqb_neq _ 0)) by (unfold HDR in *; lia). run load8_ok. apply bind_fault.
    unfold store8, NULL. by rewrite H0.
  - left. erewrite bind_ok by exact E.
    destruct (realloc_copy s1 bs1 fs1 p nn a n (Z.min rsize (n - HDR)) (used bs)) as (vs & Hlen & Hvs & Ecp);
      [done | | done | done | unfold HDR in *; lia.. |].
    { intros k v Hk Hv. rewrite (Hdata a n k Hin Hk) in Hv. by eapply Hb. }
    erewrite bind_ok by (unfold on_data; rewrite Ecp; reflexivity).
    destruct (moved_intro s bs s1 bs1 fs1 p nn a n size rsize (Z.min rsize (n - HDR)) vs) as (s' & Ef & Hmv);
      try done; [lia | lia |]. exists p, s'. split; [| done]. by erewrite bind_ok by exact Ef.
Qed.
End clients.

(** The rounding of the request wraps around for sizes just
    below 2^64: with anything on the free chain, [malloc] then succeeds,
    although no block of that size can exist. *)
Theorem malloc_overflow head mmap s bs fs size :
  wf head s bs fs → fs ≠ [] → 2 ^ 64 - 63 <= size < 2 ^ 64 - 31 →
  ∃ p s', malloc head mmap size s = Some (p, s') ∧ p ≠ NULL.
Proof.
  intros W Hne Hs. destruct fs as [| a fs]; [done |].
  assert (round_request size = 0) as Hr.
  { unfold round_request, HDR. replace (size + 2 * 32 - 1) with ((size + 63 - 2 ^ 64) + 1 * 2 ^ 64) by lia.
    unfold wrapu. rewrite Z_mod_plus_full, Z.mod_small by lia. change (2 ^ 64 - 32) with (2 ^ 64 - 2 ^ 5).
    rewrite land_not_mask by (unfold in_u; lia). rewrite Z.mod_small by lia. lia. }
  destruct (wf_free_block head s bs (a :: fs) a W) as (bs1 & b & bs2 & -> & <- & Hk); [set_solver |].
  destruct (wf_split _ _ _ _ _ _ W) as (_ & [Hz Ht] & [Hb _] & _ & _ & _ & _ & _ & Hpos & _). rewrite Hk in Ht.
  pose proof (wf_free _ _ _ _ W) as Df. pose proof (dll_first _ _ _ _ Df) as Hfirst.
  change (succ_of head (b_addr b :: fs)) with (b_addr b) in Hfirst.
  pose proof (dll_next _ _ _ [] _ _ Df). pose proof (dll_prev _ _ _ [] _ _ Df).
  pose proof (wf_main _ _ _ _ W) as Dm. rewrite addrs_app in Dm. pose proof (dll_next _ _ _ _ _ _ Dm).
  unfold malloc. rewrite (proj2 (Z.eqb_neq size 0)) by lia. rewrite Hr. cbv zeta. get_step.
  assert (nheaders s ≠ 0%nat) as Hnz.
  { unfold nheaders. intros E%map_size_empty_inv. rewrite E in Ht. done. }
  destruct (nheaders s) as [| f]; [done |]. cbn [find_fit].
  erewrite bind_ok.
  2: { get_step. change (ARENA_TYPE_FREE =? ARENA_TYPE_HEAD) with false. cbv iota. get_step.
       rewrite (proj2 (Z.leb_le 0 (b_size b))) by lia. reflexivity. }
  unfold __malloc_from_block. get_step. change (u64 (0 + 2 * HDR)) with 64.
  rewrite (proj2 (Z.leb_le 64 (b_size b))) by lia. exists (b_addr b + HDR). eexists. split; [| unfold HDR, NULL; lia].
  erewrite bind_ok; [reflexivity |]. get_step. do 8 put_step. get_step. put_step. get_step. do 2 put_step. reflexivity.
Qed.

(** ** Witnesses *)

(** A used and a free block of 64 bytes each, above the head node at 16. *)
Definition two_blocks : list blk := [Blk 1024 64 BUsed; Blk 1088 64 BFree].
Definition demo_arena : arena :=
  mk_arena (list_to_map [(16, 2); (1024, 0); (1088, 1)]) (list_to_map [(16, 0); (1024, 64); (1088, 64)])
    (list_to_map [(16, 1024); (1024, 1088); (1088, 16)]) (list_to_map [(16, 1088); (1088, 1024); (1024, 16)])
    (list_to_map [(16, 1088); (1088, 16)]) (list_to_map [(16, 1088); (1088, 16)])
    (mem_set ∅ 1024 (replicate 128 7)).

Lemma demo_wf : wf 16 demo_arena two_blocks [1088].
Proof.
  apply mk_wf.
  - split; vm_compute; by repeat split.
  - split; vm_compute; by repeat split.
  - done.
  - repeat constructor.
  - done.
  - unfold layout, two_blocks, blk_ok, HDR, TOP, b_end. cbn [b_addr b_size]. split_and!; try lia; by (apply Z.mod_divide; [lia |]).
  - repeat constructor; unfold b_end; cbn [b_addr b_size]; lia.
  - repeat constructor; cbn [b_addr b_size]; by_eval.
Qed.

Lemma demo_settled : settled two_blocks.
Proof. repeat constructor; done. Qed.

Lemma demo_fresh n : 0 < n <= 2 ^ 62 → fresh_region 16 two_blocks 65536 n.
Proof.
  intros Hn. unfold fresh_region, HDR, TOP. split_and!; [by exists 2048 | lia | lia | lia |].
  repeat constructor; unfold b_end; cbn [b_addr b_size]; lia.
Qed.

Lemma malloc_correct_witness :
  let mmap := λ _, 65536 in
  (1000 = 0 ∨ exhausted mmap two_blocks 1000 → malloc 16 mmap 1000 demo_arena = Some (NULL, demo_arena)) ∧
  (¬ (1000 = 0 ∨ exhausted mmap two_blocks 1000) →
   ∃ p s', malloc 16 mmap 1000 demo_arena = Some (p, s') ∧ serves 16 demo_arena two_blocks 1000 p s').
Proof.
  intros mmap. apply (malloc_correct 16 mmap demo_arena two_blocks [1088] 1000 demo_wf demo_settled); [lia |].
  right. apply demo_fresh. vm_compute. split; [reflexivity | discriminate].
Defined.

Lemma free_correct_witness :
  free 16 4096 NULL demo_arena = Some (tt, demo_arena) ∧
  ∃ s', free 16 4096 (1024 + HDR) demo_arena = Some (tt, s') ∧ released 16 4096 demo_arena two_blocks 1024 64 s' ∧
    ∃ bs' fs', wf 16 s' bs' fs' ∧ settled bs' ∧ used two_blocks ≡ₚ (1024, 64) :: used bs' ∧
      ∀ b l k, (b, l) ∈ used bs' → b <= k < b + l → data s' !! k = data demo_arena !! k.
Proof.
  apply (free_correct 16 4096 12 demo_arena two_blocks [1088] 1024 64);
    [reflexivity | lia | exact demo_wf | exact demo_settled | apply used_elem; constructor].
Defined.

Lemma calloc_correct_witness :
  let mmap := λ _, 65536 in
  (calloc 16 mmap 10 100 demo_arena = Some (NULL, demo_arena) ∧ mmap (round_chunk (round_request (100 * 10))) = MAP_FAILED) ∨
  (∃ p s', calloc 16 mmap 10 100 demo_arena = Some (p, s') ∧ serves 16 demo_arena two_blocks (100 * 10) p s' ∧
     ∀ k, p <= k < p + 100 * 10 → data s' !! k = Some 0).
Proof.
  intros mmap. apply (calloc_correct 16 mmap demo_arena two_blocks [1088] 10 100 demo_wf demo_settled); [lia |].
  right. apply demo_fresh. vm_compute. split; [reflexivity | discriminate].
Defined.

Lemma demo_bytes : bytes_ok (data demo_arena).
Proof.
  intros k b. cbn [data demo_arena]. rewrite mem_set_lookup, length_replicate.
  case_decide; [| by rewrite lookup_empty]. intros [-> _]%lookup_replicate. by_eval.
Qed.

Lemma realloc_correct_witness :
  let mmap := λ _, 65536 in
  (∃ q s', realloc 16 4096 mmap (1024 + HDR) 500 demo_arena = Some (q, s') ∧
     moved 16 demo_arena two_blocks 1024 64 500 q s') ∨
  (realloc 16 4096 mmap (1024 + HDR) 500 demo_arena = None ∧
     mmap (round_chunk (round_request (round_request 500))) = MAP_FAILED).
Proof.
  intros mmap.
  apply (realloc_correct 16 mmap 4096 12 eq_refl ltac:(lia) demo_arena two_blocks [1088] 1024 64 500
    demo_wf demo_settled demo_bytes); [vm_compute; reflexivity | apply used_elem; constructor | lia |].
  right. apply demo_fresh. vm_compute. split; [reflexivity | discriminate].
Defined.

Lemma malloc_overflow_witness :
  ∃ p s', malloc 16 (λ _, MAP_FAILED) (2 ^ 64 - 40) demo_arena = Some (p, s') ∧ p ≠ NULL.
Proof.
  apply (malloc_overflow 16 (λ _, MAP_FAILED) demo_arena two_blocks [1088] (2 ^ 64 - 40) demo_wf); [discriminate | lia].
Defined.
