(* ===== verification/Environ.v ===== *)
(** * The environment: [klibc/__put_env.c], [setenv.c], [putenv.c],
      [unsetenv.c], [getenv.c], [clearenv.c]

    [environ] points to an array of string pointers that ends with a null
    pointer.  The arrays are objects of a store, so that the initial array,
    the read-only [__null_environ] and the arrays made by [__put_env] are told
    apart and a write outside an array, or into a constant, is a fault; the
    strings are values.  [oom] gives the answers of the allocator ([true]: no
    memory); an exhausted list means success. *)

From stdpp Require Import base numbers list gmap.
From Stdlib Require Import Lia.
From S2P Require Import Prelude StrOps.

Abbreviation str := (list Z).

(** ** State *)

(** A slot of an array: a string or the null pointer. *)
Abbreviation slot := (option str).

Record env := mk_env {
  environ : option Z;              (* the array that environ points to, if any *)
  environ_size : Z;                (* __environ_size *)
  environ_alloc : option Z;        (* __environ_alloc *)
  arrays : gmap Z (list slot);
  next_array : Z;                  (* the identity of the next allocated array *)
  oom : list bool;
}.

Abbreviation E := (st env).

(** [__null_environ], the constant array of one null pointer. *)
Definition null_environ : Z := 0.

Definition set_environ (e : option Z) (s : env) : env :=
  mk_env e (environ_size s) (environ_alloc s) (arrays s) (next_array s) (oom s).
Definition set_size (n : Z) (s : env) : env :=
  mk_env (environ s) n (environ_alloc s) (arrays s) (next_array s) (oom s).
Definition set_alloc (a : option Z) (s : env) : env :=
  mk_env (environ s) (environ_size s) a (arrays s) (next_array s) (oom s).
Definition set_arrays (m : gmap Z (list slot)) (s : env) : env :=
  mk_env (environ s) (environ_size s) (environ_alloc s) m (next_array s) (oom s).

Definition gets {A} (f : env → A) : E A := λ s, Some (f s, s).
Definition modify (f : env → env) : E unit := λ s, Some (tt, f s).

(** [*p] for [p = a + i]; [a] null or an index outside the array faults. *)
Definition read_slot (a : option Z) (i : nat) : E slot := λ s,
  match a with
  | Some l => match arrays s !! l with
              | Some arr => match arr !! i with Some q => Some (q, s) | None => None end
              | None => None
              end
  | None => None
  end.

Definition write_slot (a : option Z) (i : nat) (v : slot) : E unit := λ s,
  match a with
  | Some l =>
      if l =? null_environ then None
      else match arrays s !! l with
           | Some arr =>
               if decide (i < length arr)%nat then Some (tt, set_arrays (<[l := <[i := v]> arr]> (arrays s)) s)
               else None
           | None => None
           end
  | None => None
  end.

(** One request to the allocator; [true] if it is refused. *)
Definition alloc_fails : E bool := λ s,
  match oom s with
  | [] => Some (false, s)
  | b :: r => Some (b, mk_env (environ s) (environ_size s) (environ_alloc s) (arrays s) (next_array s) r)
  end.

(** [malloc(n * sizeof(char * ))]: a new array of [n] slots, uninitialised. *)
Definition new_array (n : Z) : E (option Z) :=
  f ← alloc_fails;
  if f : bool then mret None
  else λ s, let l := next_array s in
       Some (Some l, mk_env (environ s) (environ_size s) (environ_alloc s)
                       (<[l := replicate (Z.to_nat n) None]> (arrays s)) (l + 1) (oom s)).

Definition free_array (a : option Z) : E unit := λ s,
  match a with
  | Some l => Some (tt, set_arrays (delete l (arrays s)) s)
  | None => Some (tt, s)
  end.

(** [realloc] of an array to [n] slots. *)
Definition realloc_array (a : option Z) (n : Z) : E (option Z) := λ s,
  match a with
  | Some l =>
      match arrays s !! l with
      | Some arr =>
          (r ← new_array n;
           match r with
           | Some l' => modify (λ s, set_arrays (<[l' := take (Z.to_nat n) arr ++ replicate (Z.to_nat n - length arr) None]>
                                                  (delete l (arrays s))) s);; mret (Some l')
           | None => mret None
           end) s
      | None => None
      end
  | None => new_array n s
  end.

(** Copying [n] slots to the start of another array. *)
Fixpoint copy_slots (n : nat) (dst src : option Z) (i : nat) : E unit :=
  match n with
  | O => mret tt
  | S n => v ← read_slot src i; write_slot dst i v;; copy_slots n dst src (S i)
  end.

(** ** The code *)

(** [strncmp] of two strings: 0 if they agree up to [n] characters or their end. *)
Fixpoint strncmp_z (n : nat) (s t : str) : Z :=
  match n with
  | O => 0
  | S n =>
      match s, t with
      | [], [] => 0
      | [], c :: _ => - c
      | c :: _, [] => c
      | c :: s, d :: t => if c =? d then strncmp_z n s t else c - d
      end
  end.

(** The scan of [__put_env]: the slot that matches, or the index of the final
    null pointer. *)
Fixpoint find_slot (fuel : nat) (test : str → bool) (a : option Z) (i : nat) : E (bool * nat) :=
  match fuel with
  | O => fault
  | S f =>
      q ← read_slot a i;
      match q with
      | None => mret (false, i)
      | Some q => if test q then mret (true, i) else find_slot f test a (S i)
      end
  end.

(** No array is longer than this bound for the scans. *)
Definition slots (s : env) : nat :=
  match environ s with Some l => S (length (default [] (arrays s !! l))) | None => 1 end.

Definition __put_env (s : str) (len : nat) (overwrite : bool) : E Z := λ st0,
  ((* if (!environ) environ = (char ** )null_environ; the static null_environ
      of this function is itself the null pointer *)
   a ← gets environ;
   '(found, i) ← find_slot (slots st0) (λ q, strncmp_z len q s =? 0) a 0;
   if found : bool then
     (if overwrite then write_slot a i (Some s) else mret tt);;
     mret 0
   else
     let n := Z.of_nat i + 1 in
     al ← gets environ_alloc;
     (if bool_decide (is_Some al) && negb (bool_decide (a = al))
      then free_array al;; modify (set_alloc None) else mret tt);;
     size ← gets environ_size;
     if n <? size then
       write_slot a (S i) None;;
       write_slot a i (Some s);;
       mret 0
     else
       al ← gets environ_alloc;
       r ← (if bool_decide (is_Some al) then
              newenv ← realloc_array al (size * 2);
              match newenv with
              | None => mret None
              | Some l => modify (set_size (size * 2));; mret (Some l)
              end
            else
              let newsize := n + 32 in
              newenv ← new_array newsize;
              match newenv with
              | None => mret None
              | Some l =>
                  copy_slots (Z.to_nat n) (Some l) a 0;;
                  modify (set_size newsize);; mret (Some l)
              end);
       match r with
       | None => mret (-1)
       | Some l =>
           write_slot (Some l) i (Some s);;
           write_slot (Some l) (S i) None;;
           modify (set_environ (Some l));;
           mret 0
       end) st0.

(** [name[0] == 0], or an [=] in the name: [EINVAL]. *)
Definition bad_name (name : str) : bool :=
  match name with [] => true | _ => existsb (Z.eqb 61) name end.

Definition setenv (name val : str) (overwrite : bool) : E Z :=
  if bad_name name then mret (-1)
  else
    f ← alloc_fails;
    if f : bool then mret (-1)
    else __put_env (name ++ 61 :: val) (length name + 1) overwrite.

(** The position of the last [=]. *)
Fixpoint last_eq (i : nat) (e : option nat) (s : str) : option nat :=
  match s with
  | [] => e
  | c :: s => last_eq (S i) (if c =? 61 then Some i else e) s
  end.

Definition putenv (s : str) : E Z :=
  match last_eq 0 None s with
  | None => mret (-1)
  | Some e =>
      f ← alloc_fails;
      if f : bool then mret (-1) else __put_env s e true
  end.

(** [!strncmp(name, q, len) && q[len] == '='] *)
Definition is_entry (name q : str) : bool :=
  (strncmp_z (length name) name q =? 0) && bool_decide (q !! length name = Some 61).

(** [for (; (q = *p); p++) p[0] = p[1];] *)
Fixpoint shift_slots (fuel : nat) (a : option Z) (i : nat) : E unit :=
  match fuel with
  | O => fault
  | S f =>
      q ← read_slot a i;
      match q with
      | None => mret tt
      | Some _ => v ← read_slot a (S i); write_slot a i v;; shift_slots f a (S i)
      end
  end.

Definition unsetenv (name : str) : E Z := λ st0,
  (if bad_name name then mret (-1)
   else
     a ← gets environ;
     match a with
     | None => mret 0
     | Some _ =>
         '(_, i) ← find_slot (slots st0) (is_entry name) a 0;
         shift_slots (slots st0) a i;;
         mret 0
     end) st0.

Definition getenv (name : str) : E (option str) := λ st0,
  (a ← gets environ;
   match a with
   | None => mret None
   | Some _ =>
       '(found, i) ← find_slot (slots st0) (is_entry name) a 0;
       if found : bool then
         q ← read_slot a i;
         mret (drop (length name + 1) <$> q)
       else mret None
   end) st0.

Definition clearenv : E Z := modify (set_environ (Some null_environ));; mret 0.

(** ** The abstract environment: a list of strings *)

Fixpoint env_get (name : str) (es : list str) : option str :=
  match es with
  | [] => None
  | q :: es => if is_entry name q then Some (drop (length name + 1) q) else env_get name es
  end.

(** Replace the first entry that passes the test, or append. *)
Fixpoint env_put (test : str → bool) (s : str) (es : list str) : list str :=
  match es with
  | [] => [s]
  | q :: es => if test q then s :: es else q :: env_put test s es
  end.

Fixpoint env_del (test : str → bool) (es : list str) : list str :=
  match es with
  | [] => []
  | q :: es => if test q then es else q :: env_del test es
  end.

Abbreviation text := (Forall (λ c, c ≠ 0)).

(** [view_at s a junk es]: [environ] is the array [a], which holds the strings
    [es], the final null pointer and unused slots. *)
Record view_at (s : env) (a : Z) (junk : list slot) (es : list str) : Prop := mk_view {
  v_environ : environ s = Some a;
  v_slots : arrays s !! a = Some ((Some <$> es) ++ None :: junk);
  v_text : Forall text es;
  v_alloc : environ_alloc s = None;
  v_writable : es ≠ [] → a ≠ null_environ;
  (* room for more entries is only recorded for an array that has it *)
  v_room : Z.of_nat (length es) + 1 < environ_size s →
    a ≠ null_environ ∧ environ_size s <= Z.of_nat (length es + 1 + length junk);
  v_fresh : 0 < next_array s ∧ a < next_array s;
}.

(** [view s es]: the environment consists of the strings [es]. *)
Definition view (s : env) (es : list str) : Prop := ∃ a junk, view_at s a junk es.

Lemma strncmp_zero n : ∀ s t, text s → text t → strncmp_z n s t = 0 ↔ take n s = take n t.
Proof.
  induction n as [| n IH]; intros [| c s] [| d t] Hs Ht; simpl; try done.
  - apply Forall_cons in Ht as [? _]. split; [lia | done].
  - apply Forall_cons in Hs as [? _]. split; [lia | done].
  - apply Forall_cons in Hs as [? Hs], Ht as [? Ht]. destruct (Z.eqb_spec c d) as [-> |].
    + rewrite IH by done. split; [by intros -> | congruence].
    + split; [lia | congruence].
Qed.

Lemma take_length_prefix {A} (s q : list A) : take (length s) q = s ↔ ∃ v, q = s ++ v.
Proof.
  split; [| intros [v ->]; by rewrite take_app_length].
  intros Ht. exists (drop (length s) q). rewrite <- (take_drop (length s) q) at 1. by rewrite Ht.
Qed.

Lemma is_entry_spec name q : text name → text q → is_entry name q = true ↔ ∃ v, q = name ++ 61 :: v.
Proof.
  intros Hn Hq. unfold is_entry. rewrite andb_true_iff, Z.eqb_eq, strncmp_zero, bool_decide_eq_true by done.
  rewrite (take_ge name) by done. split.
  - intros [Ht Hl]. symmetry in Ht. apply take_length_prefix in Ht as [v ->].
    rewrite lookup_app_r, Nat.sub_diag in Hl by done. destruct v as [| c v]; [done |]. simplify_eq/=. eauto.
  - intros [v ->]. split; [by rewrite take_app_length |]. rewrite lookup_app_r, Nat.sub_diag by done. done.
Qed.

(** The test of [__put_env] for a key that ends in [=] is the test of [getenv]. *)
Lemma put_test name val q :
  text name → text q → text val →
  (strncmp_z (length name + 1) q (name ++ 61 :: val) =? 0) = is_entry name q.
Proof.
  intros Hn Hq Hv. apply eq_bool_prop_intro. rewrite !Is_true_true, Z.eqb_eq, is_entry_spec by done.
  rewrite strncmp_zero by (rewrite ?Forall_app, ?Forall_cons; done).
  replace (take (length name + 1) (name ++ 61 :: val)) with (name ++ [61]).
  2: { rewrite take_app, take_ge by lia. replace (length name + 1 - length name)%nat with 1%nat by lia. done. }
  replace (length name + 1)%nat with (length (name ++ [61])) by (by rewrite length_app).
  rewrite take_length_prefix. split; intros [v ->]; exists v; by rewrite <- app_assoc.
Qed.

(** ** The code implements the abstract operations *)

Lemma read_slot_ok s a arr i q :
  arrays s !! a = Some arr → arr !! i = Some q → read_slot (Some a) i s = Some (q, s).
Proof. unfold read_slot. by intros -> ->. Qed.

Lemma write_slot_ok s a arr i v :
  arrays s !! a = Some arr → a ≠ null_environ → (i < length arr)%nat →
  write_slot (Some a) i v s = Some (tt, set_arrays (<[a := <[i := v]> arr]> (arrays s)) s).
Proof.
  unfold write_slot. intros -> Hn Hi. rewrite (proj2 (Z.eqb_neq _ _)) by done. by rewrite decide_True.
Qed.

(** The index where a scan stops. *)
Fixpoint scan (test : str → bool) (es : list str) : bool * nat :=
  match es with
  | [] => (false, 0%nat)
  | q :: es => if test q then (true, 0%nat) else let '(b, i) := scan test es in (b, S i)
  end.

Lemma find_slot_spec test s a pre es junk : ∀ fuel,
  arrays s !! a = Some ((Some <$> pre) ++ (Some <$> es) ++ None :: junk) → (length es < fuel)%nat →
  find_slot fuel test (Some a) (length pre) s =
    Some (let '(b, i) := scan test es in (b, (length pre + i)%nat), s).
Proof.
  revert pre. induction es as [| q es IH]; intros pre [| f] Ha Hf; simpl in Hf; try lia; cbn [find_slot scan].
  - erewrite bind_ok.
    2: { eapply read_slot_ok; [done |]. rewrite lookup_app_r by (by rewrite length_fmap).
         rewrite length_fmap, Nat.sub_diag. done. }
    by rewrite Nat.add_0_r.
  - erewrite bind_ok.
    2: { eapply read_slot_ok; [done |]. rewrite lookup_app_r by (by rewrite length_fmap).
         rewrite length_fmap, Nat.sub_diag. done. }
    cbv beta iota. destruct (test q); [by rewrite Nat.add_0_r |].
    specialize (IH (pre ++ [q]) f). rewrite fmap_app, <- app_assoc, length_app in IH.
    change (length [q]) with 1%nat in IH. rewrite Nat.add_1_r in IH. rewrite IH; [| done | lia].
    destruct (scan test es) as [b i]. do 2 f_equal. f_equal. lia.
Qed.

Lemma slots_bound s a junk es : view_at s a junk es → (length es < slots s)%nat.
Proof.
  intros V. unfold slots. rewrite (v_environ _ _ _ _ V), (v_slots _ _ _ _ V). simpl.
  rewrite length_app, length_fmap. simpl. lia.
Qed.

Lemma scan_spec test es :
  match scan test es with
  | (true, i) => ∃ es1 q es2, es = es1 ++ q :: es2 ∧ length es1 = i ∧ test q = true ∧
                   Forall (λ e, test e = false) es1
  | (false, i) => i = length es ∧ Forall (λ e, test e = false) es
  end.
Proof.
  induction es as [| q es IH]; simpl; [done |]. destruct (test q) eqn:Eq.
  - by exists [], q, es.
  - destruct (scan test es) as [[] i].
    + destruct IH as (es1 & q' & es2 & -> & <- & Ht & Hf). exists (q :: es1), q', es2. simpl.
      split_and!; try done. by constructor.
    + destruct IH as [-> Hf]. split; [done |]. by constructor.
Qed.

Lemma env_put_found test s es1 q es2 :
  Forall (λ e, test e = false) es1 → test q = true → env_put test s (es1 ++ q :: es2) = es1 ++ s :: es2.
Proof. intros Hf Hq. induction Hf as [| e es1 He Hf IH]; simpl; [by rewrite Hq | by rewrite He, IH]. Qed.

Lemma env_put_append test s es : Forall (λ e, test e = false) es → env_put test s es = es ++ [s].
Proof. intros Hf. induction Hf as [| e es He Hf IH]; simpl; [done | by rewrite He, IH]. Qed.

Lemma env_del_found test es1 q es2 :
  Forall (λ e, test e = false) es1 → test q = true → env_del test (es1 ++ q :: es2) = es1 ++ es2.
Proof. intros Hf Hq. induction Hf as [| e es1 He Hf IH]; simpl; [by rewrite Hq | by rewrite He, IH]. Qed.

Lemma env_del_none test es : Forall (λ e, test e = false) es → env_del test es = es.
Proof. intros Hf. induction Hf as [| e es He Hf IH]; simpl; [done | by rewrite He, IH]. Qed.

Lemma getenv_spec s es name :
  view s es → getenv name s = Some (env_get name es, s).
Proof.
  intros (a & junk & V). unfold getenv. erewrite bind_ok by reflexivity. rewrite (v_environ _ _ _ _ V).
  pose proof (find_slot_spec (is_entry name) s a [] es junk (slots s) (v_slots _ _ _ _ V) (slots_bound _ _ _ _ V)) as E.
  cbn [length] in E. erewrite bind_ok by exact E.
  pose proof (scan_spec (is_entry name) es) as Hscan. destruct (scan (is_entry name) es) as [[] i]; cbv beta iota.
  - destruct Hscan as (es1 & q & es2 & -> & <- & Hq & Hf).
    erewrite bind_ok.
    2: { eapply read_slot_ok; [apply V |]. rewrite fmap_app, <- app_assoc, Nat.add_0_l, lookup_app_r by (by rewrite length_fmap).
         rewrite length_fmap, Nat.sub_diag. done. }
    unfold mret, st_ret. simpl. do 2 f_equal. clear -Hq Hf.
    induction Hf as [| e es1 He Hf IH]; simpl; [by rewrite Hq | by rewrite He].
  - destruct Hscan as [-> Hf]. unfold mret, st_ret. do 2 f_equal.
    clear -Hf. induction Hf as [| e es He Hf IH]; simpl; [done | by rewrite He].
Qed.

Lemma set_arrays_twice m m' s : set_arrays m' (set_arrays m s) = set_arrays m' s.
Proof. done. Qed.

Lemma copy_slots_spec src dst A n : ∀ i D s,
  arrays s !! src = Some A → arrays s !! dst = Some D → dst ≠ src → dst ≠ null_environ →
  (i + n <= length A)%nat → (i + n <= length D)%nat →
  copy_slots n (Some dst) (Some src) i s =
    Some (tt, set_arrays (<[dst := take i D ++ take n (drop i A) ++ drop (i + n) D]> (arrays s)) s).
Proof.
  induction n as [| n IH]; intros i D s HA HD Hne Hnn HlA HlD; cbn [copy_slots].
  - rewrite Nat.add_0_r, take_0. cbn [app]. rewrite take_drop, insert_id by done. by destruct s.
  - destruct (lookup_lt_is_Some_2 A i) as [v Hv]; [lia |].
    erewrite bind_ok by (by eapply read_slot_ok). erewrite bind_ok by (eapply write_slot_ok; [done.. | lia]).
    rewrite (IH (S i) (<[i := v]> D)); cbn [arrays set_arrays].
    2: by rewrite lookup_insert_ne. 2: by rewrite lookup_insert_eq. 2,3: done. 2: lia. 2: rewrite length_insert; lia.
    rewrite set_arrays_twice, insert_insert_eq. do 4 f_equal.
    rewrite (drop_S _ _ _ Hv). cbn [take app]. replace (i + S n)%nat with (S i + n)%nat by lia.
    rewrite drop_insert_lt by lia.
    rewrite (take_S_r (<[i := v]> D) i v) by (rewrite list_lookup_insert_eq; [done | lia]).
    by rewrite take_insert_ge, <- app_assoc by lia.
Qed.

Lemma lookup_last_slot es (junk : list slot) : ((Some <$> es) ++ None :: junk) !! length es = Some None.
Proof. rewrite lookup_app_r by (by rewrite length_fmap). by rewrite length_fmap, Nat.sub_diag. Qed.

Lemma insert_slots es (junk : list slot) s v :
  <[length es := Some s]> (<[S (length es) := v]> ((Some <$> es) ++ None :: junk)) =
    (Some <$> (es ++ [s])) ++ <[0%nat := v]> junk.
Proof.
  rewrite fmap_app, <- app_assoc. rewrite <- (length_fmap Some es) at 1 2.
  replace (S (length (Some <$> es))) with (length (Some <$> es) + 1)%nat by lia.
  rewrite insert_app_r. replace (length (Some <$> es)) with (length (Some <$> es) + 0)%nat at 1 by lia.
  by rewrite insert_app_r.
Qed.

(** Extending in place, with room in the array. *)
Lemma extend_in_place s a junk es str :
  view_at s a junk es → text str → Z.of_nat (length es) + 1 < environ_size s →
  ∃ s', (write_slot (Some a) (S (length es)) None;; write_slot (Some a) (length es) (Some str);; mret 0) s =
      Some (0, s') ∧ view s' (es ++ [str]).
Proof.
  intros V Ht Hroom. destruct (v_room _ _ _ _ V Hroom) as [Hn Hsz]. destruct (v_fresh _ _ _ _ V) as [Hf1 Hf2].
  pose proof (v_slots _ _ _ _ V) as Ha.
  assert (length ((Some <$> es) ++ None :: junk) = (length es + 1 + length junk)%nat) as Hlen
    by (rewrite length_app, length_fmap; simpl; lia).
  destruct junk as [| j junk]; [simpl in Hsz; lia |].
  erewrite bind_ok by (eapply write_slot_ok; [done | done | rewrite Hlen; simpl; lia]).
  erewrite bind_ok.
  2: { eapply write_slot_ok; [cbn [arrays set_arrays]; by rewrite lookup_insert_eq | done |].
       rewrite length_insert, Hlen. simpl. lia. }
  eexists. split; [reflexivity |]. exists a, junk. cbn [arrays set_arrays]. rewrite set_arrays_twice, insert_insert_eq, insert_slots.
  apply mk_view; cbn [environ arrays environ_alloc environ_size next_array set_arrays]; try apply V.
  - by rewrite lookup_insert_eq.
  - rewrite Forall_app, Forall_singleton. split; [apply V | done].
  - done.
  - intros _. split; [done |]. rewrite length_app. simpl in *. lia.
Qed.

(** Moving to a new, larger array. *)
Definition grow (a : option Z) (i : nat) (str : str) : E Z :=
  newenv ← new_array (Z.of_nat i + 1 + 32);
  r ← match newenv with
      | None => mret None
      | Some l =>
          copy_slots (Z.to_nat (Z.of_nat i + 1)) (Some l) a 0;;
          modify (set_size (Z.of_nat i + 1 + 32));; mret (Some l)
      end;
  match r with
  | None => mret (-1)
  | Some l =>
      write_slot (Some l) i (Some str);;
      write_slot (Some l) (S i) None;;
      modify (set_environ (Some l));;
      mret 0
  end.

Lemma insert_slots_rev es (junk : list slot) s v :
  <[S (length es) := v]> (<[length es := Some s]> ((Some <$> es) ++ None :: junk)) =
    (Some <$> (es ++ [s])) ++ <[0%nat := v]> junk.
Proof. rewrite list_insert_insert_ne by lia. apply insert_slots. Qed.

Lemma grow_spec s a junk es str :
  view_at s a junk es → text str →
  ∃ r s', grow (Some a) (length es) str s = Some (r, s') ∧
    ((r = 0 ∧ view s' (es ++ [str])) ∨ (r = -1 ∧ view s' es ∧ ∃ rest, oom s = true :: rest)).
Proof.
  intros V Ht. destruct (v_fresh _ _ _ _ V) as [Hf1 Hf2]. unfold grow, new_array, alloc_fails.
  assert (∀ r, view (mk_env (environ s) (environ_size s) (environ_alloc s) (arrays s) (next_array s) r) es) as Hoom.
  { intros r. exists a, junk. apply mk_view; try apply V. }
  assert (∀ s1, (∃ r, s1 = mk_env (environ s) (environ_size s) (environ_alloc s) (arrays s) (next_array s) r) →
    ∃ s', (newenv ← (λ s, Some (Some (next_array s), mk_env (environ s) (environ_size s) (environ_alloc s)
             (<[next_array s := replicate (Z.to_nat (Z.of_nat (length es) + 1 + 32)) None]> (arrays s))
             (next_array s + 1) (oom s)) : option (option Z * env)) : E (option Z);
           r ← match newenv with
               | None => mret None
               | Some l =>
                   copy_slots (Z.to_nat (Z.of_nat (length es) + 1)) (Some l) (Some a) 0;;
                   modify (set_size (Z.of_nat (length es) + 1 + 32));; mret (Some l)
               end;
           match r with
           | None => mret (-1)
           | Some l =>
               write_slot (Some l) (length es) (Some str);;
               write_slot (Some l) (S (length es)) None;;
               modify (set_environ (Some l));; mret 0
           end) s1 = Some (0, s') ∧ view s' (es ++ [str])) as Hok.
  { intros s1 [r ->]. erewrite bind_ok by reflexivity. cbn [environ environ_size environ_alloc arrays next_array oom].
    set (l := next_array s) in *. set (n := length es) in *.
    assert (l ≠ a ∧ l ≠ null_environ) as [Hla Hl0] by (unfold null_environ; lia).
    assert (length ((Some <$> es) ++ None :: junk) = (n + 1 + length junk)%nat) as HlenA
      by (rewrite length_app, length_fmap; simpl; lia).
    erewrite bind_ok.
    2: { erewrite bind_ok.
         2: { eapply copy_slots_spec; cbn [arrays]; [by rewrite lookup_insert_ne, (v_slots _ _ _ _ V) |
                by rewrite lookup_insert_eq | done | done | rewrite HlenA; lia | rewrite length_replicate; lia]. }
         erewrite bind_ok by reflexivity. reflexivity. }
    cbv beta iota. cbn [arrays set_arrays]. rewrite insert_insert_eq, take_0, drop_0, app_nil_l.
    replace (Z.to_nat (Z.of_nat n + 1)) with (n + 1)%nat by lia. rewrite Nat.add_0_l.
    assert (take (n + 1) ((Some <$> es) ++ None :: junk) ++ drop (n + 1) (replicate (Z.to_nat (Z.of_nat n + 1 + 32)) None)
      = (Some <$> es) ++ None :: replicate 32 None) as ->.
    { rewrite take_app, length_fmap, (take_ge (Some <$> es)) by (rewrite length_fmap; lia).
      replace (n + 1 - length es)%nat with 1%nat by lia. rewrite drop_replicate.
      replace (Z.to_nat (Z.of_nat n + 1 + 32) - (n + 1))%nat with 32%nat by lia. cbn [take]. by rewrite <- app_assoc. }
    erewrite bind_ok.
    2: { eapply write_slot_ok; [cbn [arrays set_arrays set_size]; by rewrite lookup_insert_eq | done |].
         rewrite length_app, length_fmap. simpl. lia. }
    erewrite bind_ok.
    2: { eapply write_slot_ok; [cbn [arrays set_arrays set_size]; by rewrite lookup_insert_eq | done |].
         rewrite length_insert, length_app, length_fmap. simpl. lia. }
    erewrite bind_ok by reflexivity. eexists. split; [reflexivity |]. exists l, (replicate 31 None).
    cbn [arrays set_arrays set_size]. rewrite !insert_insert_eq. unfold n. rewrite insert_slots_rev.
    apply mk_view; cbn [environ arrays environ_alloc environ_size next_array set_arrays set_environ set_size].
    - done.
    - by rewrite lookup_insert_eq.
    - rewrite Forall_app, Forall_singleton. split; [apply V | done].
    - apply V.
    - done.
    - intros _. split; [done |]. rewrite length_app. simpl. lia.
    - lia. }
  destruct s as [e sz al ar nx [| b rest]]; cbn [oom environ environ_size environ_alloc arrays next_array] in *.
  - destruct (Hok (mk_env e sz al ar nx [])) as (s' & E1 & V'); [eauto |]. exists 0, s'. split; [exact E1 | by left].
  - destruct b.
    + eexists _, _. split; [reflexivity |]. right. split; [done |]. split; [apply Hoom | eauto].
    + destruct (Hok (mk_env e sz al ar nx rest)) as (s' & E1 & V'); [eauto |]. exists 0, s'. split; [exact E1 | by left].
Qed.

Lemma view_oom s es r :
  view s es → view (mk_env (environ s) (environ_size s) (environ_alloc s) (arrays s) (next_array s) r) es.
Proof. intros (a & junk & V). exists a, junk. apply mk_view; try apply V. Qed.

Lemma insert_at_length es (l : list slot) v :
  <[length es := v]> ((Some <$> es) ++ l) = (Some <$> es) ++ <[0%nat := v]> l.
Proof.
  rewrite <- (length_fmap Some es) at 1. rewrite <- (Nat.add_0_r (length (Some <$> es))). apply insert_app_r.
Qed.

(** Replacing one entry in place. *)
Lemma replace_spec s a junk es1 q es2 str :
  view_at s a junk (es1 ++ q :: es2) → text str →
  ∃ s', write_slot (Some a) (length es1) (Some str) s = Some (tt, s') ∧ view s' (es1 ++ str :: es2).
Proof.
  intros V Ht. assert (a ≠ null_environ) as Hn by (apply (v_writable _ _ _ _ V); by destruct es1).
  pose proof (v_text _ _ _ _ V) as Htx. rewrite Forall_app, Forall_cons in Htx. destruct Htx as (Ht1 & _ & Ht2).
  eexists. split.
  { eapply write_slot_ok; [apply V | done |]. rewrite length_app, length_fmap, length_app. simpl. lia. }
  exists a, junk.
  apply mk_view; cbn [environ arrays environ_alloc environ_size next_array set_arrays]; try apply V.
  - rewrite lookup_insert_eq. f_equal. rewrite !fmap_app, <- !app_assoc. cbn [fmap list_fmap app].
    by rewrite insert_at_length.
  - by rewrite Forall_app, Forall_cons.
  - done.
  - intros Hr. replace (length (es1 ++ str :: es2)) with (length (es1 ++ q :: es2)) in * by (by rewrite !length_app).
    by apply V.
Qed.

(** What [__put_env] does to the strings: the entry that agrees with the new
    string in the first [len] characters is replaced if the caller wants
    that, and otherwise the string is appended. *)
Definition put_result (test : str → bool) (q : str) (overwrite : bool) (es : list str) : list str :=
  if existsb test es && negb overwrite then es else env_put test q es.

Lemma existsb_none {A} (test : A → bool) l : Forall (λ e, test e = false) l → existsb test l = false.
Proof. intros Hf. induction Hf as [| e l He Hf IH]; simpl; [done | by rewrite He]. Qed.

Lemma put_env_spec s es str len overwrite :
  view s es → text str →
  ∃ r s', __put_env str len overwrite s = Some (r, s') ∧
    ((r = 0 ∧ view s' (put_result (λ q, strncmp_z len q str =? 0) str overwrite es)) ∨
     (r = -1 ∧ view s' es ∧ ∃ rest, oom s = true :: rest)).
Proof.
  intros (a & junk & V) Ht. unfold __put_env, put_result. set (test := λ q, strncmp_z len q str =? 0).
  erewrite bind_ok by reflexivity. rewrite (v_environ _ _ _ _ V).
  pose proof (find_slot_spec test s a [] es junk (slots s) (v_slots _ _ _ _ V) (slots_bound _ _ _ _ V)) as E.
  cbn [length] in E. erewrite bind_ok by exact E.
  pose proof (scan_spec test es) as Hscan. destruct (scan test es) as [[] i]; cbv beta iota.
  - destruct Hscan as (es1 & q & es2 & -> & <- & Hq & Hf). rewrite Nat.add_0_l.
    rewrite existsb_app, (existsb_none _ _ Hf), env_put_found by done. cbn [existsb]. rewrite Hq. simpl.
    destruct overwrite; simpl.
    + destruct (replace_spec s a junk es1 q es2 str) as (s' & E1 & V'); [done.. |].
      erewrite bind_ok by exact E1. eauto 6.
    + exists 0, s. split; [reflexivity |]. left. split; [done |]. by exists a, junk.
  - destruct Hscan as [-> Hf]. rewrite Nat.add_0_l. rewrite (existsb_none _ _ Hf), env_put_append by done. simpl.
    erewrite bind_ok by reflexivity. rewrite (v_alloc _ _ _ _ V). cbn [andb]. rewrite bool_decide_eq_false_2 by (by intros []).
    cbn [andb]. erewrite bind_ok by reflexivity. erewrite bind_ok by reflexivity.
    destruct (Z.ltb_spec (Z.of_nat (length es) + 1) (environ_size s)) as [Hr | Hr].
    + destruct (extend_in_place s a junk es str) as (s' & E1 & V'); [done.. |]. exists 0, s'. split; [exact E1 | by left].
    + destruct (grow_spec s a junk es str V Ht) as (r & s' & E1 & H1). exists r, s'. split; [| exact H1].
      rewrite <- E1. erewrite bind_ok by reflexivity. rewrite (v_alloc _ _ _ _ V), bool_decide_eq_false_2 by (by intros []).
      clear. unfold grow, mbind, st_bind. destruct (new_array _ s) as [[[l |] s1] |]; reflexivity.
Qed.

(** The second loop of [unsetenv] closes the gap. *)
Lemma shift_slots_spec a es junk : ∀ fuel pre q s,
  arrays s !! a = Some ((Some <$> pre) ++ (Some <$> q :: es) ++ None :: junk) →
  a ≠ null_environ → (S (length es) < fuel)%nat →
  shift_slots fuel (Some a) (length pre) s =
    Some (tt, set_arrays (<[a := (Some <$> pre) ++ (Some <$> es) ++ None :: None :: junk]> (arrays s)) s).
Proof.
  induction es as [| h es IH]; intros [| f] pre q s Ha Hn Hf; simpl in Hf; try lia; cbn [shift_slots];
    (erewrite bind_ok by (eapply read_slot_ok; [exact Ha |]; rewrite lookup_app_r by (by rewrite length_fmap);
       by rewrite length_fmap, Nat.sub_diag)); cbv iota;
    (erewrite bind_ok by (eapply read_slot_ok; [exact Ha |]; rewrite lookup_app_r by (rewrite length_fmap; lia);
       rewrite length_fmap; replace (S (length pre) - length pre)%nat with 1%nat by lia; reflexivity));
    (erewrite bind_ok by (eapply write_slot_ok; [exact Ha | done |]; rewrite length_app, length_fmap; simpl; lia));
    rewrite insert_at_length;
    cbn [app fmap list_fmap].
  - destruct f as [| f]; [lia |]. cbn [shift_slots].
    erewrite (bind_ok _ _ _ None); [reflexivity |].
    eapply read_slot_ok; [cbn [arrays set_arrays]; by rewrite lookup_insert_eq |].
    rewrite lookup_app_r by (rewrite length_fmap; lia). rewrite length_fmap.
    by replace (S (length pre) - length pre)%nat with 1%nat by lia.
  - specialize (IH f (pre ++ [h]) h (set_arrays (<[a := (Some <$> pre) ++ Some h :: Some h :: (Some <$> es) ++ None :: junk]> (arrays s)) s)).
    rewrite length_app, Nat.add_1_r in IH. cbn [insert list_insert]. rewrite IH; [| | done | lia].
    + cbn [arrays set_arrays]. by rewrite set_arrays_twice, insert_insert_eq, fmap_app, <- app_assoc.
    + cbn [arrays set_arrays]. by rewrite lookup_insert_eq, fmap_app, <- app_assoc.
Qed.

Lemma unsetenv_spec s es name :
  view s es → bad_name name = false →
  ∃ s', unsetenv name s = Some (0, s') ∧ view s' (env_del (is_entry name) es) ∧ oom s' = oom s.
Proof.
  intros (a & junk & V) Hb. unfold unsetenv. rewrite Hb. erewrite bind_ok by reflexivity. rewrite (v_environ _ _ _ _ V).
  pose proof (find_slot_spec (is_entry name) s a [] es junk (slots s) (v_slots _ _ _ _ V) (slots_bound _ _ _ _ V)) as E.
  cbn [length] in E. erewrite bind_ok by exact E. pose proof (slots_bound _ _ _ _ V) as Hs.
  pose proof (scan_spec (is_entry name) es) as Hscan. destruct (scan (is_entry name) es) as [[] i]; cbv beta iota.
  - destruct Hscan as (es1 & q & es2 & -> & <- & Hq & Hf). rewrite Nat.add_0_l, env_del_found by done.
    rewrite length_app in Hs. simpl in Hs.
    pose proof (v_text _ _ _ _ V) as Htx. rewrite Forall_app, Forall_cons in Htx. destruct Htx as (Ht1 & _ & Ht2).
    erewrite bind_ok.
    2: { eapply (shift_slots_spec a es2 junk); [rewrite (v_slots _ _ _ _ V), fmap_app, <- app_assoc; reflexivity | | lia].
         apply (v_writable _ _ _ _ V). by destruct es1. }
    eexists. split; [reflexivity |]. split; [| done]. exists a, (None :: junk).
    apply mk_view; cbn [environ arrays environ_alloc environ_size next_array set_arrays]; try apply V.
    + by rewrite lookup_insert_eq, fmap_app, <- app_assoc.
    + by apply Forall_app.
    + intros _. apply (v_writable _ _ _ _ V). by destruct es1.
    + intros Hr. pose proof (v_writable _ _ _ _ V) as Hw. split; [apply Hw; by destruct es1 |].
      pose proof (v_room _ _ _ _ V) as Hrm. rewrite !length_app in *. simpl in *.
      destruct (Z.lt_ge_cases (Z.of_nat (length es1 + S (length es2)) + 1) (environ_size s)) as [H1 | H1].
      * specialize (Hrm H1) as [_ Hrm]. lia.
      * lia.
  - destruct Hscan as [-> Hf]. rewrite env_del_none by done.
    assert (shift_slots (slots s) (Some a) (0 + length es) s = Some (tt, s)) as E1.
    { destruct (slots s) as [| f]; [lia |]. cbn [shift_slots].
      erewrite (bind_ok _ _ _ None); [reflexivity |]. eapply read_slot_ok; [apply V |]. apply lookup_last_slot. }
    erewrite bind_ok by exact E1. eexists. split; [reflexivity |]. split; [by exists a, junk | done].
Qed.

(** ** Reading back *)

Abbreviation good_name name := (bad_name name = false ∧ text name).

Lemma good_name_no_eq name : bad_name name = false → 61 ∉ name.
Proof.
  intros Hb Hin. assert (existsb (Z.eqb 61) name = true) as He by (apply existsb_exists; exists 61; by rewrite <- list_elem_of_In).
  unfold bad_name in Hb. destruct name; [done | congruence].
Qed.

Lemma key_unique (n n' v v' : str) : 61 ∉ n → 61 ∉ n' → n ++ 61 :: v = n' ++ 61 :: v' → n = n' ∧ v = v'.
Proof.
  revert n'. induction n as [| c n IH]; intros [| c' n'] Hn Hn' [=]; subst; try done; try set_solver.
  destruct (IH n') as [-> ->]; [set_solver.. | done | done].
Qed.

Lemma entry_other name name' q :
  good_name name → good_name name' → name ≠ name' → text q → is_entry name q = true → is_entry name' q = false.
Proof.
  intros [Hb Hn] [Hb' Hn'] Hne Hq He. apply not_true_is_false. intros He'.
  apply is_entry_spec in He as [v ->]; [| done..]. apply is_entry_spec in He' as [v' He']; [| done..].
  apply key_unique in He' as [? _]; [done | by apply good_name_no_eq..].
Qed.

Lemma entry_self name val : text name → text val → is_entry name (name ++ 61 :: val) = true.
Proof. intros. apply is_entry_spec; [done | rewrite Forall_app, Forall_cons; done | eauto]. Qed.

Lemma drop_key {A} (name : list A) c v : drop (length name + 1) (name ++ c :: v) = v.
Proof. rewrite drop_app_ge by lia. by replace (length name + 1 - length name)%nat with 1%nat by lia. Qed.

Lemma env_get_put name val es :
  text name → text val → Forall text es → env_get name (env_put (is_entry name) (name ++ 61 :: val) es) = Some val.
Proof.
  intros Hn Hv He. induction He as [| q es Hq He IH]; simpl.
  - by rewrite entry_self, drop_key.
  - destruct (is_entry name q) eqn:Eq; simpl; [by rewrite entry_self, drop_key | by rewrite Eq].
Qed.

Lemma env_get_put_other name name' val es :
  good_name name → good_name name' → name ≠ name' → text val → Forall text es →
  env_get name' (env_put (is_entry name) (name ++ 61 :: val) es) = env_get name' es.
Proof.
  intros Hn Hn' Hne Hv He. assert (text (name ++ 61 :: val)) as Ht by (rewrite Forall_app, Forall_cons; by destruct Hn).
  assert (is_entry name' (name ++ 61 :: val) = false) as Hs
    by (apply (entry_other name); [done.. | apply entry_self; [apply Hn | done]]).
  induction He as [| q es Hq He IH]; simpl; [by rewrite Hs |].
  destruct (is_entry name q) eqn:Eq; simpl; [by rewrite Hs, (entry_other name name' q) | by rewrite IH].
Qed.

Lemma env_get_del_other name name' es :
  good_name name → good_name name' → name ≠ name' → Forall text es →
  env_get name' (env_del (is_entry name) es) = env_get name' es.
Proof.
  intros Hn Hn' Hne He. induction He as [| q es Hq He IH]; simpl; [done |].
  destruct (is_entry name q) eqn:Eq; simpl; [by rewrite (entry_other name name' q) | by rewrite IH].
Qed.

Lemma env_get_none name es : existsb (is_entry name) es = bool_decide (is_Some (env_get name es)).
Proof.
  induction es as [| q es IH]; simpl; [done |]. by destruct (is_entry name q).
Qed.

(** The abstract [setenv]. *)
Definition env_set (name val : str) (overwrite : bool) (es : list str) : list str :=
  put_result (is_entry name) (name ++ 61 :: val) overwrite es.

Lemma put_result_ext t t' q ow es :
  Forall (λ e, t e = t' e) es → put_result t q ow es = put_result t' q ow es.
Proof.
  intros Hf. unfold put_result. assert (existsb t es = existsb t' es ∧ env_put t q es = env_put t' q es) as [-> ->]; [| done].
  induction Hf as [| e es He Hf [IH1 IH2]]; simpl; [done |]. by rewrite He, IH1, IH2.
Qed.

Lemma setenv_spec s es name val overwrite :
  view s es → good_name name → text val →
  ∃ r s', setenv name val overwrite s = Some (r, s') ∧
    ((r = 0 ∧ view s' (env_set name val overwrite es)) ∨ (r = -1 ∧ view s' es ∧ true ∈ oom s)).
Proof.
  intros V [Hb Hn] Hv. unfold setenv. rewrite Hb.
  assert (∀ r, oom s = r ∨ oom s = false :: r →
    ∃ r' s', __put_env (name ++ 61 :: val) (length name + 1) overwrite
        (mk_env (environ s) (environ_size s) (environ_alloc s) (arrays s) (next_array s) r) = Some (r', s') ∧
      ((r' = 0 ∧ view s' (env_set name val overwrite es)) ∨ (r' = -1 ∧ view s' es ∧ true ∈ oom s))) as H.
  { intros r Hr. destruct (put_env_spec _ es (name ++ 61 :: val) (length name + 1) overwrite (view_oom s es r V))
      as (r' & s' & E1 & H1).
    { rewrite Forall_app, Forall_cons; done. }
    exists r', s'. split; [exact E1 |]. destruct H1 as [[-> V'] | (-> & V' & rest & Ho)].
    - left. split; [done |]. unfold env_set. rewrite (put_result_ext _ (is_entry name)) in V'; [done |].
      destruct V as (a & junk & V). eapply Forall_impl; [apply V |]. intros q Hq. by apply put_test.
    - right. split_and!; [done.. |]. simpl in Ho. subst r. destruct Hr as [-> | ->]; set_solver. }
  unfold alloc_fails, mbind, st_bind. destruct s as [e sz al ar nx [| [] rest]]; cbn [oom environ environ_size environ_alloc arrays next_array] in *.
  - apply H. by left.
  - eexists _, _. split; [reflexivity |]. right. split; [done |]. split; [by apply (view_oom _ _ rest) in V | set_solver].
  - apply H. by right.
Qed.

Lemma putenv_spec s es str e :
  view s es → text str → last_eq 0 None str = Some e →
  ∃ r s', putenv str s = Some (r, s') ∧
    ((r = 0 ∧ view s' (env_put (λ q, bool_decide (take e q = take e str)) str es)) ∨
     (r = -1 ∧ view s' es ∧ true ∈ oom s)).
Proof.
  intros V Ht He. unfold putenv. rewrite He.
  assert (∀ r, oom s = r ∨ oom s = false :: r →
    ∃ r' s', __put_env str e true
        (mk_env (environ s) (environ_size s) (environ_alloc s) (arrays s) (next_array s) r) = Some (r', s') ∧
      ((r' = 0 ∧ view s' (env_put (λ q, bool_decide (take e q = take e str)) str es)) ∨
       (r' = -1 ∧ view s' es ∧ true ∈ oom s))) as H.
  { intros r Hr. destruct (put_env_spec _ es str e true (view_oom s es r V) Ht) as (r' & s' & E1 & H1).
    exists r', s'. split; [exact E1 |]. destruct H1 as [[-> V'] | (-> & V' & rest & Ho)].
    - left. split; [done |].
      rewrite (put_result_ext _ (λ q, bool_decide (take e q = take e str))) in V'.
      + unfold put_result in V'. by rewrite andb_false_r in V'.
      + destruct V as (a & junk & V). eapply Forall_impl; [apply V |]. intros q Hq. cbv beta.
        apply eq_bool_prop_intro. by rewrite !Is_true_true, Z.eqb_eq, strncmp_zero, bool_decide_eq_true.
    - right. split_and!; [done.. |]. simpl in Ho. subst r. destruct Hr as [-> | ->]; set_solver. }
  unfold alloc_fails, mbind, st_bind. destruct s as [en sz al ar nx [| [] rest]]; cbn [oom environ environ_size environ_alloc arrays next_array] in *.
  - apply H. by left.
  - eexists _, _. split; [reflexivity |]. right. split; [done |]. split; [by apply (view_oom _ _ rest) in V | set_solver].
  - apply H. by right.
Qed.

(** ** Theorems *)

(** C7.  On an environment with the strings [es], [setenv] of a valid
    name never faults.  It returns 0, and then [getenv] gives the new value
    (the old one, if the name was set and [overwrite] is 0), every other name
    keeps its value and the new state is again an environment; or it returns
    -1 with the environment unchanged, which happens only if the allocator
    refused a request. *)
Theorem setenv_correct s es name val overwrite :
  view s es → good_name name → text val →
  ∃ r s', setenv name val overwrite s = Some (r, s') ∧
    ((r = 0 ∧ (∃ es', view s' es') ∧
      getenv name s' = Some (Some (if overwrite then val else default val (env_get name es)), s') ∧
      ∀ name', good_name name' → name ≠ name' → getenv name' s' = Some (env_get name' es, s')) ∨
     (r = -1 ∧ view s' es ∧ true ∈ oom s)).
Proof.
  intros V Hn Hv. destruct (setenv_spec s es name val overwrite) as (r & s' & E1 & H); [done.. |].
  exists r, s'. split; [done |]. destruct H as [[-> V'] | H]; [left | by right].
  assert (Forall text es) as Ht by (destruct V as (a & junk & V); apply V).
  split; [done |]. split; [by eexists |]. rewrite (getenv_spec _ _ _ V').
  unfold env_set, put_result in *. rewrite env_get_none in *.
  split.
  - destruct overwrite; simpl; [rewrite andb_false_r, env_get_put; done || apply Hn |].
    rewrite andb_true_r. destruct (env_get name es) as [v |] eqn:Eg.
    + by rewrite bool_decide_eq_true_2, Eg by eauto.
    + rewrite bool_decide_eq_false_2 by (by intros []). by rewrite env_get_put by (done || apply Hn).
  - intros name' Hn' Hne. rewrite (getenv_spec _ _ _ V').
    destruct (_ && _); [done |]. by rewrite env_get_put_other.
Qed.

(** An environment as the kernel passes it: [environ] points to an array on
    the stack, nothing has been allocated. *)
Definition initial (es : list str) : env :=
  mk_env (Some 1) 0 None (<[null_environ := [None]]> {[ 1 := (Some <$> es) ++ [None] ]}) 2 [].

Lemma initial_view es : Forall text es → view (initial es) es.
Proof. intros Ht. exists 1, []. apply mk_view; simpl; try done; lia. Qed.

Lemma setenv_correct_witness :
  ∃ s', setenv [65] [49] true (initial [[65; 66; 61; 50]; [65; 61; 51]]) = Some (0, s') ∧
    getenv [65] s' = Some (Some [49], s') ∧ getenv [65; 66] s' = Some (Some [50], s').
Proof.
  destruct (setenv_correct (initial [[65; 66; 61; 50]; [65; 61; 51]]) [[65; 66; 61; 50]; [65; 61; 51]] [65] [49] true)
    as (r & s' & E1 & H).
  - apply initial_view. by repeat constructor.
  - split; [done | by repeat constructor].
  - by repeat constructor.
  - destruct H as [(-> & _ & Hg & Ho) | (_ & _ & Hoom)].
    + exists s'. split; [done |]. split; [done |]. apply Ho; [split; [done | by repeat constructor] | done].
    + simpl in Hoom. set_solver.
Defined.

(** [unsetenv] of a valid name always returns 0, removes the first
    entry of the name and keeps every other name's value; if no name occurs
    twice, [getenv] then finds nothing. *)
Theorem unsetenv_correct s es name :
  view s es → good_name name →
  ∃ s', unsetenv name s = Some (0, s') ∧ view s' (env_del (is_entry name) es) ∧
    (∀ name', good_name name' → name ≠ name' → getenv name' s' = Some (env_get name' es, s')) ∧
    ((∀ es1 q es2, es = es1 ++ q :: es2 → is_entry name q = true → env_get name es2 = None) →
     getenv name s' = Some (None, s')).
Proof.
  intros V Hn. destruct (unsetenv_spec s es name V) as (s' & E1 & V' & _); [apply Hn |].
  assert (Forall text es) as Ht by (destruct V as (a & junk & V); apply V).
  exists s'. split_and!; [done.. | |].
  - intros name' Hn' Hne. by rewrite (getenv_spec _ _ _ V'), env_get_del_other.
  - intros Hd. rewrite (getenv_spec _ _ _ V'). do 2 f_equal. clear -Hd.
    induction es as [| q es IH]; simpl; [done |]. destruct (is_entry name q) eqn:Eq.
    + by apply (Hd [] q es).
    + simpl. rewrite Eq. apply IH. intros es1 q' es2 -> Hq. by apply (Hd (q :: es1) q' es2).
Qed.

Lemma unsetenv_correct_witness :
  ∃ s', unsetenv [65] (initial [[65; 61; 51]; [66; 61]]) = Some (0, s') ∧ view s' [[66; 61]] ∧
    getenv [65] s' = Some (None, s').
Proof.
  destruct (unsetenv_correct (initial [[65; 61; 51]; [66; 61]]) [[65; 61; 51]; [66; 61]] [65]) as (s' & E1 & V & _ & Hg).
  - apply initial_view. by repeat constructor.
  - split; [done | by repeat constructor].
  - exists s'. split; [done |]. split; [exact V |]. apply Hg. intros [| e [| e' [| ? ?]]] q es2 [=]; subst; done.
Defined.

(** [putenv] compares the key without its [=]: the first entry that
    begins with the characters before the last [=] is replaced, so an entry
    with a longer name is lost and the name itself is not set twice. *)
Theorem putenv_replaces_prefix s es1 rest es2 key val :
  view s (es1 ++ (key ++ rest) :: es2) → text (key ++ 61 :: val) → 61 ∉ val →
  Forall (λ q, take (length key) q ≠ key) es1 → oom s = [] →
  ∃ s', putenv (key ++ 61 :: val) s = Some (0, s') ∧ view s' (es1 ++ (key ++ 61 :: val) :: es2).
Proof.
  intros V Ht Hv Hf Ho.
  assert (last_eq 0 None (key ++ 61 :: val) = Some (length key)) as He.
  { assert (∀ l i e, 61 ∉ l → last_eq i e l = e) as Hnone.
    { induction l as [| c l IH]; intros i e Hl; simpl; [done |]. rewrite (proj2 (Z.eqb_neq c 61)) by set_solver.
      apply IH. set_solver. }
    assert (∀ k i e, last_eq i e (k ++ 61 :: val) = Some (i + length k)%nat) as Hk; [| by rewrite Hk].
    induction k as [| c k IH]; intros i e; simpl; [rewrite Hnone by done; f_equal; lia | rewrite IH; f_equal; lia]. }
  destruct (putenv_spec s _ _ _ V Ht He) as (r & s' & E1 & [[-> V'] | (_ & _ & Hoom)]).
  - exists s'. split; [done |]. rewrite env_put_found in V'; [done | |].
    + eapply Forall_impl; [exact Hf |]. intros q Hq. apply bool_decide_eq_false. by rewrite take_app_length.
    + apply bool_decide_eq_true. by rewrite !take_app_length.
  - rewrite Ho in Hoom. set_solver.
Qed.

Lemma putenv_replaces_prefix_witness :
  ∃ s', putenv [65; 61; 49] (initial [[65; 66; 61; 50]]) = Some (0, s') ∧ view s' [[65; 61; 49]].
Proof.
  apply (putenv_replaces_prefix (initial [[65; 66; 61; 50]]) [] [66; 61; 50] [] [65] [49]).
  - apply initial_view. by repeat constructor.
  - by repeat constructor.
  - set_solver.
  - constructor.
  - done.
Defined.

(** After [clearenv], once an array has been allocated, the next
    [setenv] writes the new entry into the constant [__null_environ]: the size
    of the old array is still recorded. *)
Theorem clearenv_setenv_faults s name val overwrite :
  arrays s !! null_environ = Some [None] → environ_alloc s = None → 1 < environ_size s →
  oom s = [] → bad_name name = false →
  (clearenv;; setenv name val overwrite) s = None.
Proof.
  intros Ha Hal Hs Ho Hb. erewrite bind_ok by reflexivity. unfold setenv. rewrite Hb.
  erewrite bind_ok by (unfold alloc_fails; simpl; by rewrite Ho). cbv iota. unfold __put_env.
  erewrite bind_ok by reflexivity. cbn [environ set_environ].
  erewrite bind_ok.
  2: { unfold slots. cbn [environ set_environ arrays]. rewrite Ha. cbn [default length find_slot].
       erewrite (bind_ok _ _ _ None); [reflexivity |]. by eapply read_slot_ok. }
  cbv beta iota. erewrite bind_ok by reflexivity. cbn [environ_alloc set_environ]. rewrite Hal.
  rewrite bool_decide_eq_false_2 by (by intros []). erewrite bind_ok by reflexivity. erewrite bind_ok by reflexivity.
  cbn [environ_size set_environ]. rewrite (proj2 (Z.ltb_lt _ _)) by lia. by apply bind_fault.
Qed.

Lemma clearenv_setenv_faults_witness :
  (s1 ← setenv [65] [49] true; clearenv;; setenv [66] [50] true) (initial []) = None.
Proof.
  erewrite bind_ok by (vm_compute; reflexivity).
  apply clearenv_setenv_faults; reflexivity.
Defined.
