(* ===== verification/Stdio.v ===== *)
(** * Buffered streams: [klibc/stdio/] and the functions on top of it

    A stream is a [FILE] record with one buffer, used for input or for output.
    The kernel is a parameter: the class [Kernel] has the system calls the
    code makes, over an arbitrary state [W] of the world, and [KernelLaws]
    what POSIX says about them, through the bytes a descriptor has accepted
    ([sent]), the bytes it will deliver ([input]) and its position ([pos]).
    The caller's arrays are values: [_fwrite] takes the bytes at [buf],
    [_fread] and [fgets] return the bytes they store.  The loops repeat an
    interrupted system call without bound; they take [fuel], and the theorems
    show that any fuel beyond the number of repetitions gives the result. *)

From stdpp Require Import base numbers list gmap.
From Stdlib Require Import Lia.
From S2P Require Import Prelude Chain.

(** ** The kernel *)

(** The result of [read] and [write]: a count (with the data), [-1] with
    [errno] [EINTR] or [EAGAIN], or [-1] with another error. *)
Inductive sysres (A : Type) := Ret (a : A) | Again | Fail.
Arguments Ret {A} a.
Arguments Again {A}.
Arguments Fail {A}.

Class Kernel (W : Type) := {
  sys_read : Z → Z → W → sysres (list Z) * W;
  sys_write : Z → list Z → W → sysres Z * W;
  sys_lseek : Z → Z → Z → W → Z * W;
  sys_open : list Z → Z → W → Z * W;
  sys_close : Z → W → Z * W;
  sys_isatty : Z → W → bool;
  sys_fcntl : Z → Z → Z → W → Z * W;
  (* malloc and free, for the FILE records and their buffers *)
  alloc : Z → W → Z * W;
  dealloc : Z → W → W;
}.

Definition SEEK_SET : Z := 0.
Definition SEEK_CUR : Z := 1.

(** What the system calls promise. *)
Class KernelLaws (W : Type) `{Kernel W} := {
  sent : W → Z → list Z;
  input : W → Z → list Z;
  pos : W → Z → Z;
  status : W → Z → Z;                (* the file status flags of open descriptors *)
  (* a bound on the number of calls that will still be interrupted *)
  patience : W → nat;
  write_ret fd l w n w' : sys_write fd l w = (Ret n, w') →
    0 <= n <= Z.of_nat (length l) ∧ sent w' fd = sent w fd ++ take (Z.to_nat n) l ∧
    (∀ d, d ≠ fd → sent w' d = sent w d) ∧ (patience w' <= patience w)%nat;
  write_again fd l w w' : sys_write fd l w = (Again, w') → sent w' = sent w ∧ (patience w' < patience w)%nat;
  write_fail fd l w w' : sys_write fd l w = (Fail, w') → sent w' = sent w ∧ (patience w' <= patience w)%nat;
  read_ret fd n w l w' : 0 < n → sys_read fd n w = (Ret l, w') →
    Z.of_nat (length l) <= n ∧ input w fd = l ++ input w' fd ∧ (l = [] → input w fd = []) ∧
    pos w' fd = pos w fd + Z.of_nat (length l) ∧ (patience w' <= patience w)%nat;
  read_again fd n w w' : sys_read fd n w = (Again, w') →
    input w' = input w ∧ pos w' = pos w ∧ (patience w' < patience w)%nat;
  read_fail fd n w w' : sys_read fd n w = (Fail, w') →
    input w' = input w ∧ pos w' = pos w ∧ (patience w' <= patience w)%nat;
  seek_cur fd off w p w' : sys_lseek fd off SEEK_CUR w = (p, w') → p ≠ -1 → p = pos w fd + off ∧ pos w' fd = p;
  seek_set fd off w p w' : sys_lseek fd off SEEK_SET w = (p, w') → p ≠ -1 → p = off ∧ pos w' fd = p;
  getfl fd a w : (sys_fcntl fd 3 a w).1 = status w fd;
  seek_sent fd off wh w p w' : sys_lseek fd off wh w = (p, w') → sent w' = sent w;
  close_sent fd w r w' : sys_close fd w = (r, w') → sent w' = sent w;
  dealloc_sent a w : sent (dealloc a w) = sent w;
}.

(** ** The stream *)

Definition BUFSIZ : Z := 16384.               (* _KLIBC_MALLOC_CHUNK_SIZE >> 2 *)
Definition IO_UNGET_SLOP : Z := 32.
Definition EOF : Z := -1.

Definition FLAG_WRITE : Z := 1.
Definition FLAG_READ : Z := 2.
Definition FLAG_LINE_BUF : Z := 4.
Definition FLAG_UNBUF : Z := 8.
Definition FLAG_EOF : Z := 16.
Definition FLAG_ERR : Z := 32.

(** [struct _IO_file]; its links are in the chain of all streams below.  The
    buffer is the address of its allocation and its contents. *)
Record FILE := mk_FILE {
  filepos : Z;
  buf_at : Z;
  buf : list Z;
  offset : Z;
  bytes : Z;
  bufsiz : Z;
  fd : Z;
  flags : Z;
}.

Definition set_filepos (v : Z) (f : FILE) := mk_FILE v (buf_at f) (buf f) (offset f) (bytes f) (bufsiz f) (fd f) (flags f).
Definition set_buf (v : list Z) (f : FILE) := mk_FILE (filepos f) (buf_at f) v (offset f) (bytes f) (bufsiz f) (fd f) (flags f).
Definition set_offset (v : Z) (f : FILE) := mk_FILE (filepos f) (buf_at f) (buf f) v (bytes f) (bufsiz f) (fd f) (flags f).
Definition set_bytes (v : Z) (f : FILE) := mk_FILE (filepos f) (buf_at f) (buf f) (offset f) v (bufsiz f) (fd f) (flags f).
Definition set_flags (v : Z) (f : FILE) := mk_FILE (filepos f) (buf_at f) (buf f) (offset f) (bytes f) (bufsiz f) (fd f) v.

(** [f->flags & b], [f->flags |= b], [f->flags &= ~b] *)
Definition flag (b : Z) (f : FILE) : bool := negb (Z.land (flags f) b =? 0).
Definition raise (b : Z) (f : FILE) : FILE := set_flags (Z.lor (flags f) b) f.
Definition lower (b : Z) (f : FILE) : FILE := set_flags (Z.land (flags f) (Z.lnot b)) f.

Section code.
Context {W : Type} `{Kernel W}.

(** Operations on one stream and the world. *)
Local Abbreviation M := (st (FILE * W)).

Definition file : M FILE := λ s, Some (s.1, s).
Definition upd (g : FILE → FILE) : M unit := λ s, Some (tt, (g s.1, s.2)).
Definition call {A} (c : W → A * W) : M A := λ s, let '(a, w) := c s.2 in Some (a, (s.1, w)).

(** [n] bytes of the buffer at [o]; outside the buffer is a fault. *)
Definition get_buf (o n : Z) : M (list Z) := λ s,
  if bool_decide (0 <= o ∧ 0 <= n ∧ o + n <= Z.of_nat (length (buf s.1)))
  then Some (take (Z.to_nat n) (drop (Z.to_nat o) (buf s.1)), s) else None.

Definition put_buf (o : Z) (l : list Z) : M unit := λ s,
  if bool_decide (0 <= o ∧ o + Z.of_nat (length l) <= Z.of_nat (length (buf s.1)))
  then Some (tt, (set_buf (take (Z.to_nat o) (buf s.1) ++ l ++ drop (Z.to_nat o + length l) (buf s.1)) s.1, s.2))
  else None.

(** *** [fflush] of one stream *)

Fixpoint fflush_loop (fuel : nat) (p : Z) : M Z :=
  match fuel with
  | O => fault
  | S fuel =>
      f ← file;
      if bytes f =? 0 then mret 0
      else
        data ← get_buf p (bytes f);
        rv ← call (sys_write (fd f) data);
        match rv with
        | Again => fflush_loop fuel p
        | Fail => upd (raise FLAG_ERR);; mret EOF
        | Ret rv =>
            if rv =? 0 then upd (raise FLAG_EOF);; mret EOF
            else
              upd (λ f, set_bytes (bytes f - rv) f);;
              fflush_loop fuel (p + rv)
        end
  end.

Definition fflush (fuel : nat) : M Z :=
  f ← file;
  if negb (flag FLAG_WRITE f) then mret 0
  else
    r ← fflush_loop fuel 0;
    if r =? 0 then
      upd (set_offset IO_UNGET_SLOP);;
      upd (lower FLAG_WRITE);;
      mret 0
    else mret r.

(** *** Output *)

Fixpoint fwrite_noflush (fuel : nat) (p : list Z) (done : Z) : M Z :=
  match fuel with
  | O => fault
  | S n =>
      f ← file;
      let count := Z.of_nat (length p) in
      let nb := u64 (bufsiz f - bytes f) in
      let nb := if count <? nb then count else nb in
      (if negb (nb =? 0) then
         put_buf (bytes f) (take (Z.to_nat nb) p);;
         upd (λ f, set_bytes (bytes f + nb) f);;
         upd (λ f, set_filepos (filepos f + nb) f);;
         upd (raise FLAG_WRITE)
       else mret tt);;
      let p := drop (Z.to_nat nb) p in
      if bool_decide (p = []) then mret (done + nb)
      else
        r ← fflush fuel;
        if negb (r =? 0) then mret (done + nb)
        else fwrite_noflush n p (done + nb)
  end.

(** The length of the part up to the last newline: [while (pf_len &&
    p[pf_len-1] != '\n')]. *)
Fixpoint flushed_part (pf_len : nat) (p : list Z) : nat :=
  match pf_len with
  | O => O
  | S n => if bool_decide (p !! n = Some 10) then S n else flushed_part n p
  end.

Definition _fwrite (fuel : nat) (p : list Z) : M Z :=
  f ← file;
  let pf_len :=
    if flag FLAG_UNBUF f then O
    else if flag FLAG_LINE_BUF f then flushed_part (length p) p
    else O in
  let pf := take pf_len p in
  '(n, stop) ←
    (if bool_decide (pf_len = O) then mret (0, false)
     else
       n ← fwrite_noflush fuel pf 0;
       r ← fflush fuel;
       mret (n, negb (r =? 0) || negb (n =? Z.of_nat pf_len)));
  if stop : bool then mret n
  else
    let pu := drop pf_len p in
    if bool_decide (pu = []) then mret n
    else
      m ← fwrite_noflush fuel pu 0;
      mret (n + m).

(** [p] holds at least [size * nmemb] bytes. *)
Definition fwrite (fuel : nat) (p : list Z) (size nmemb : Z) : M Z :=
  n ← _fwrite fuel (take (Z.to_nat (u64 (size * nmemb))) p);
  if size =? 0 then fault else mret (n / size).

Definition fputs (fuel : nat) (s : list Z) : M Z := n ← _fwrite fuel s; mret (s32 n).

Definition fputc (fuel : nat) (c : Z) : M Z :=
  let ch := u8 c in
  n ← _fwrite fuel [ch];
  mret (if n =? 1 then ch else EOF).

(** *** Input *)

(** [_fread]: the bytes stored so far in [acc], [count] still wanted. *)
Fixpoint fread_loop (fuel : nat) (count : Z) (acc : list Z) : M (list Z) :=
  match fuel with
  | O => fault
  | S n =>
      f ← file;
      let nb := u64 (bytes f) in
      let nb := if count <? nb then count else nb in
      data ← (if negb (nb =? 0) then
                data ← get_buf (offset f) nb;
                upd (λ f, set_offset (offset f + nb) f);;
                upd (λ f, set_bytes (bytes f - nb) f);;
                upd (λ f, set_filepos (filepos f + nb) f);;
                upd (λ f, if bytes f =? 0 then lower FLAG_READ f else f);;
                mret data
              else mret []);
      let acc := acc ++ data in
      let count := count - nb in
      if count =? 0 then mret acc
      else
        upd (set_offset IO_UNGET_SLOP);;
        rv ← call (sys_read (fd f) BUFSIZ);
        match rv with
        | Again => fread_loop n count acc
        | Fail => upd (raise FLAG_ERR);; mret acc
        | Ret l =>
            if bool_decide (l = []) then upd (raise FLAG_EOF);; mret acc
            else
              put_buf IO_UNGET_SLOP l;;
              upd (set_bytes (Z.of_nat (length l)));;
              upd (raise FLAG_READ);;
              fread_loop n count acc
        end
  end.

Definition _fread (fuel : nat) (count : Z) : M (list Z) := fread_loop fuel count [].

(** [fread] stores the bytes and returns the number of whole objects. *)
Definition fread (fuel : nat) (size nmemb : Z) : M (Z * list Z) :=
  l ← _fread fuel (u64 (size * nmemb));
  if size =? 0 then fault else mret (Z.of_nat (length l) / size, l).

Definition fgetc (fuel : nat) : M Z :=
  l ← _fread fuel 1;
  mret (match l with [ch] => ch | _ => EOF end).

(** [fgets]: [true] when [s] is returned, [false] for [NULL], with the bytes
    stored at [s]. *)
Fixpoint fgets_loop (fuel n : nat) (acc : list Z) : M (bool * list Z) :=
  match n with
  | O => mret (true, acc)
  | S O => mret (true, acc ++ [0])
  | S ((S _) as n) =>
      ch ← fgetc fuel;
      if ch =? EOF then mret (false, acc ++ [0])
      else if ch =? 10 then mret (true, acc ++ [u8 ch; 0])
      else fgets_loop fuel n (acc ++ [u8 ch])
  end.

Definition fgets (fuel : nat) (n : Z) : M (bool * list Z) :=
  if n <? 0 then mret (true, [0]) else fgets_loop fuel (Z.to_nat n) [].

Definition ungetc (c : Z) : M Z :=
  f ← file;
  if flag FLAG_WRITE f || (offset f <=? 0) then mret EOF
  else
    upd (λ f, set_offset (offset f - 1) f);;
    f ← file;
    put_buf (offset f) [u8 c];;
    upd (λ f, set_bytes (bytes f + 1) f);;
    upd (raise FLAG_READ);;
    mret c.

(** *** Positioning and state *)

Definition fseek (fuel : nat) (off whence : Z) : M Z :=
  fflush fuel;;
  f ← file;
  rv ← call (sys_lseek (fd f) off whence);
  if negb (rv =? -1) then
    upd (set_filepos rv);;
    upd (set_bytes 0);;
    upd (lower FLAG_READ);;
    mret 0
  else mret (-1).

Definition ftell : M Z := f ← file; mret (filepos f).
Definition feof : M Z := f ← file; mret (Z.land (flags f) FLAG_EOF).
Definition ferror : M Z := f ← file; mret (Z.land (flags f) FLAG_ERR).
Definition fileno : M Z := f ← file; mret (fd f).

(** *** The list of all streams *)

Record stdio := mk_stdio {
  files : gmap Z FILE;
  nxt : gmap Z Z;                   (* f->next, the head node included *)
  prv : gmap Z Z;                   (* f->prev *)
  std_in : Z;
  std_out : Z;
  std_err : Z;
  world : W;
}.

Local Abbreviation G := (st stdio).

Definition set_files (m : gmap Z FILE) (s : stdio) :=
  mk_stdio m (nxt s) (prv s) (std_in s) (std_out s) (std_err s) (world s).
Definition set_world (w : W) (s : stdio) :=
  mk_stdio (files s) (nxt s) (prv s) (std_in s) (std_out s) (std_err s) w.
Definition set_links (n p : gmap Z Z) (s : stdio) :=
  mk_stdio (files s) n p (std_in s) (std_out s) (std_err s) (world s).
Definition set_std (i o e : Z) (s : stdio) :=
  mk_stdio (files s) (nxt s) (prv s) i o e (world s).

(** An operation on the stream [f]; an invalid pointer is a fault. *)
Definition on_file {A} (f : Z) (c : M A) : G A := λ s,
  match files s !! f with
  | Some x => match c (x, world s) with
              | Some (a, (x', w')) => Some (a, set_world w' (set_files (<[f := x']> (files s)) s))
              | None => None
              end
  | None => None
  end.

Definition gcall {A} (c : W → A * W) : G A := λ s, let '(a, w) := c (world s) in Some (a, set_world w s).
Definition gdo (c : W → W) : G unit := λ s, Some (tt, set_world (c (world s)) s).
Definition gupd (g : stdio → stdio) : G unit := λ s, Some (tt, g s).

Definition next (a : Z) : G Z := λ s, match nxt s !! a with Some v => Some (v, s) | None => None end.
Definition prev (a : Z) : G Z := λ s, match prv s !! a with Some v => Some (v, s) | None => None end.
Definition set_next (a v : Z) : G unit := gupd (λ s, set_links (<[a := v]> (nxt s)) (prv s) s).
Definition set_prev (a v : Z) : G unit := gupd (λ s, set_links (nxt s) (<[a := v]> (prv s)) s).

(** [&__stdio_headnode] *)
Context (headnode : Z).

(** [fflush(NULL)]; [n] bounds the number of streams. *)
Fixpoint fflush_all_loop (fuel n : nat) (f err : Z) : G Z :=
  match n with
  | O => fault
  | S n =>
      if f =? headnode then mret err
      else
        r ← on_file f (fflush fuel);
        g ← next f;
        fflush_all_loop fuel n g (Z.lor err r)
  end.

Definition fflush_all (fuel : nat) : G Z := λ s,
  (f ← next headnode; fflush_all_loop fuel (S (size (files s))) f 0) s.

Definition O_RDONLY : Z := 0.
Definition O_WRONLY : Z := 1.
Definition O_RDWR : Z := 2.
Definition O_CREAT : Z := 64.
Definition O_TRUNC : Z := 512.
Definition O_APPEND : Z := 1024.

Fixpoint parse_mode_loop (mode : list Z) (plus : bool) (fl : Z) : bool * Z :=
  match mode with
  | [] => (plus, fl)
  | c :: mode =>
      if c =? 114 then parse_mode_loop mode plus O_RDONLY
      else if c =? 119 then parse_mode_loop mode plus (Z.lor (Z.lor O_WRONLY O_CREAT) O_TRUNC)
      else if c =? 97 then parse_mode_loop mode plus (Z.lor (Z.lor O_WRONLY O_CREAT) O_APPEND)
      else if c =? 43 then parse_mode_loop mode true fl
      else parse_mode_loop mode plus fl
  end.

Definition __parse_open_mode (mode : list Z) : Z :=
  let '(plus, fl) := parse_mode_loop mode false O_RDONLY in
  if plus : bool then Z.lor (Z.land fl (Z.lnot (Z.lor O_RDONLY O_WRONLY))) O_RDWR else fl.

(** [sizeof(FILE)] *)
Definition sizeof_FILE : Z := 56.

(** The [err] label; [f->buf] is null there when [f] is not. *)
Definition fxopen_err (f d : Z) (close_on_err : bool) : G Z :=
  (if negb (f =? 0) then gdo (dealloc 0);; gdo (dealloc f) else mret tt);;
  (if close_on_err then _ ← gcall (sys_close d); mret tt else mret tt);;
  mret 0.

(** The buffer is not initialised by [malloc]; the code never reads a byte of
    it before writing it. *)
Definition __fxopen (d fl : Z) (close_on_err : bool) : G Z :=
  f ← gcall (alloc sizeof_FILE);
  if f =? 0 then fxopen_err 0 d close_on_err
  else
    p ← gcall (sys_lseek d 0 SEEK_CUR);
    b ← gcall (alloc (BUFSIZ + IO_UNGET_SLOP));
    if b =? 0 then fxopen_err f d close_on_err
    else
      (λ s, Some (tt, set_files (<[f := mk_FILE p b (replicate (Z.to_nat (BUFSIZ + IO_UNGET_SLOP)) 0) IO_UNGET_SLOP 0
                                         BUFSIZ d (if sys_isatty d (world s) then FLAG_LINE_BUF else 0)]> (files s)) s));;
      set_prev f headnode;;
      n ← next headnode;
      set_next f n;;
      n ← next f;
      set_prev n f;;
      set_next headnode f;;
      mret f.

Definition fopen (path mode : list Z) : G Z :=
  let fl := __parse_open_mode mode in
  d ← gcall (sys_open path fl);
  if d <? 0 then mret 0 else __fxopen d fl true.

Definition F_GETFL : Z := 3.
Definition F_SETFL : Z := 4.

(** [oldflags] is the address of the local variable, which both calls of
    [fcntl] receive; its value is computed and stored but never passed. *)
Definition fdopen (oldflags d : Z) (mode : list Z) : G Z :=
  let fl := __parse_open_mode mode in
  r ← gcall (sys_fcntl d F_GETFL oldflags);
  if negb (r =? 0) then mret 0
  else
    r ← gcall (sys_fcntl d F_SETFL oldflags);
    if negb (r =? 0) then mret 0
    else __fxopen d fl false.

Definition fclose (fuel : nat) (f : Z) : G Z :=
  _ ← on_file f (fflush fuel);
  d ← on_file f fileno;
  rv ← gcall (sys_close d);
  n ← next f; p ← prev f;
  set_prev n p;;
  p ← prev f; n ← next f;
  set_next p n;;
  b ← on_file f (x ← file; mret (buf_at x));
  gdo (dealloc b);;
  gdo (dealloc f);;
  gupd (λ s, set_files (delete f (files s)) s);;
  mret rv.

Definition __init_stdio : G unit :=
  i ← __fxopen 0 O_RDONLY false;
  on_file i (upd (set_flags FLAG_LINE_BUF));;
  o ← __fxopen 1 (Z.lor O_WRONLY O_TRUNC) false;
  on_file o (upd (set_flags FLAG_LINE_BUF));;
  e ← __fxopen 2 (Z.lor O_WRONLY O_TRUNC) false;
  on_file e (upd (set_flags FLAG_UNBUF));;
  gupd (set_std i o e).

Definition puts (fuel : nat) (s : list Z) : G Z := λ st,
  (r ← on_file (std_out st) (fputs fuel s);
   if r <? 0 then mret (-1)
   else n ← on_file (std_out st) (_fwrite fuel [10]); mret (s32 n)) st.

Definition putchar (fuel : nat) (c : Z) : G Z := λ s, on_file (std_out s) (fputc fuel c) s.
End code.

(** ** Flags *)

Definition is_flag (b : Z) : bool := existsb (Z.eqb b) [1; 2; 4; 8; 16; 32].

Lemma is_flag_pow b : is_flag b = true → ∃ i, 0 <= i ∧ b = 2 ^ i.
Proof.
  unfold is_flag. simpl. rewrite !orb_true_iff, !Z.eqb_eq.
  intros [-> | [-> | [-> | [-> | [-> | [-> | [=]]]]]]].
  - by exists 0. - by exists 1. - by exists 2. - by exists 3. - by exists 4. - by exists 5.
Qed.

Lemma flag_testbit i f : 0 <= i → flag (2 ^ i) f = Z.testbit (flags f) i.
Proof.
  intros Hi. unfold flag.
  assert (Z.land (flags f) (2 ^ i) = if Z.testbit (flags f) i then 2 ^ i else 0) as ->.
  { apply Z.bits_inj'. intros n Hn. rewrite Z.land_spec, Z.pow2_bits_eqb by done.
    destruct (Z.eqb_spec i n) as [-> | Hne].
    - destruct (Z.testbit (flags f) n); [by rewrite Z.pow2_bits_true | by rewrite Z.bits_0].
    - rewrite andb_false_r. destruct (Z.testbit _ i); [by rewrite Z.pow2_bits_false | by rewrite Z.bits_0]. }
  destruct (Z.testbit _ i); [| done]. rewrite (proj2 (Z.eqb_neq _ _)); [done |].
  pose proof (Z.pow_pos_nonneg 2 i). lia.
Qed.

Lemma pow2_eqb i j : 0 <= i → 0 <= j → (2 ^ i =? 2 ^ j) = (i =? j).
Proof.
  intros Hi Hj. destruct (Z.eqb_spec i j) as [-> | Hne]; [apply Z.eqb_refl |].
  apply Z.eqb_neq. intros E. apply Hne. by apply (Z.pow_inj_r 2) in E; [| lia..].
Qed.

Lemma flag_raise b c f : is_flag b = true → is_flag c = true → flag b (raise c f) = (b =? c) || flag b f.
Proof.
  intros (i & Hi & ->)%is_flag_pow (j & Hj & ->)%is_flag_pow. rewrite !flag_testbit, pow2_eqb by done.
  unfold raise, set_flags. cbn [flags]. rewrite Z.lor_spec, Z.pow2_bits_eqb, orb_comm, (Z.eqb_sym j) by done. done.
Qed.

Lemma flag_lower b c f : is_flag b = true → is_flag c = true → flag b (lower c f) = negb (b =? c) && flag b f.
Proof.
  intros (i & Hi & ->)%is_flag_pow (j & Hj & ->)%is_flag_pow. rewrite !flag_testbit, pow2_eqb by done.
  unfold lower, set_flags. cbn [flags]. rewrite Z.land_spec, Z.lnot_spec, Z.pow2_bits_eqb, andb_comm, (Z.eqb_sym j) by done. done.
Qed.

(** Setting any other field keeps the flags; all updates of a stream are
    normalised by [file_simpl]. *)
Ltac file_simpl :=
  cbn [fst snd filepos buf_at buf offset bytes bufsiz fd flags set_filepos set_buf set_offset set_bytes raise lower set_flags] in *.

Lemma flag_of_flags b f g : flags f = flags g → flag b f = flag b g.
Proof. unfold flag. by intros ->. Qed.

(** ** Invariants *)

(** A stream that is not being read from: its buffer holds output. *)
Record out_ok (f : FILE) : Prop := mk_out {
  out_buf : Z.of_nat (length (buf f)) = BUFSIZ + IO_UNGET_SLOP;
  out_size : bufsiz f = BUFSIZ;
  out_bytes : 0 <= bytes f <= BUFSIZ;
  out_clean : flag FLAG_WRITE f = false → bytes f = 0;
}.

(** A stream that is not being written to: its buffer holds input. *)
Record in_ok (f : FILE) : Prop := mk_in {
  in_buf : Z.of_nat (length (buf f)) = BUFSIZ + IO_UNGET_SLOP;
  in_mode : flag FLAG_WRITE f = false;
  in_bytes : 0 <= offset f ∧ 0 <= bytes f ∧ offset f + bytes f <= BUFSIZ + IO_UNGET_SLOP;
}.

(** Output not yet written, and input not yet delivered. *)
Definition pending (f : FILE) : list Z := take (Z.to_nat (bytes f)) (buf f).
Definition ready (f : FILE) : list Z := take (Z.to_nat (bytes f)) (drop (Z.to_nat (offset f)) (buf f)).

Definition troubled (f : FILE) : bool := flag FLAG_ERR f || flag FLAG_EOF f.

(** The same stream at another time: descriptor, buffer and buffering mode are kept. *)
Record same_stream (f g : FILE) : Prop := mk_same {
  same_fd : fd g = fd f;
  same_at : buf_at g = buf_at f;
  same_line : flag FLAG_LINE_BUF g = flag FLAG_LINE_BUF f;
  same_unbuf : flag FLAG_UNBUF g = flag FLAG_UNBUF f;
}.

Global Instance same_stream_refl : Reflexive same_stream.
Proof. by split. Qed.
Global Instance same_stream_trans : Transitive same_stream.
Proof. intros f g h [] []. split; congruence. Qed.

Lemma bufsiz_value : 0 < BUFSIZ < 2 ^ 31.
Proof. done. Qed.

Lemma length_pending f : out_ok f → Z.of_nat (length (pending f)) = bytes f.
Proof.
  intros [Hb _ Hn _]. unfold pending. rewrite length_take. unfold IO_UNGET_SLOP in Hb. lia.
Qed.

Section theorems.
Context {W : Type} `{KernelLaws W}.

Lemma get_buf_ok (f : FILE) (w : W) o n :
  0 <= o → 0 <= n → o + n <= Z.of_nat (length (buf f)) →
  get_buf o n (f, w) = Some (take (Z.to_nat n) (drop (Z.to_nat o) (buf f)), (f, w)).
Proof. intros. unfold get_buf. cbn [fst]. by rewrite bool_decide_eq_true_2. Qed.

Lemma put_buf_ok (f : FILE) (w : W) o l :
  0 <= o → o + Z.of_nat (length l) <= Z.of_nat (length (buf f)) →
  put_buf o l (f, w) =
    Some (tt, (set_buf (take (Z.to_nat o) (buf f) ++ l ++ drop (Z.to_nat o + length l) (buf f)) f, w)).
Proof. intros. unfold put_buf. cbn [fst snd]. by rewrite bool_decide_eq_true_2. Qed.

Lemma take_take_drop {A} (n m : nat) (l : list A) : take n l ++ take m (drop n l) = take (n + m) l.
Proof.
  revert n. induction l as [| x l IH]; intros [| n]; simpl; rewrite ?take_nil; try done. by rewrite IH.
Qed.

(** [fflush] sends the bytes in order; a failure leaves a count of the rest. *)
Lemma fflush_loop_spec : ∀ fuel p f w,
  0 <= p → 0 <= bytes f → p + bytes f <= Z.of_nat (length (buf f)) → (patience w + Z.to_nat (bytes f) < fuel)%nat →
  ∃ r f' w' k, fflush_loop fuel p (f, w) = Some (r, (f', w')) ∧ (patience w' <= patience w)%nat ∧
    (∀ d, d ≠ fd f → sent w' d = sent w d) ∧ 0 <= k <= bytes f ∧
    sent w' (fd f) = sent w (fd f) ++ take (Z.to_nat k) (drop (Z.to_nat p) (buf f)) ∧
    ((r = 0 ∧ k = bytes f ∧ f' = set_bytes 0 f) ∨
     (r = EOF ∧ k < bytes f ∧ ∃ b, (b = FLAG_ERR ∨ b = FLAG_EOF) ∧ f' = raise b (set_bytes (bytes f - k) f))).
Proof.
  induction fuel as [| fuel IH]; intros p f w Hp Hb Hl Hf; [lia |]. cbn [fflush_loop].
  erewrite bind_ok by reflexivity. cbn [fst]. destruct (Z.eqb_spec (bytes f) 0) as [E0 | E0].
  { exists 0, f, w, 0. rewrite E0, app_nil_r. split_and!; try done. left. split_and!; try done. destruct f; by file_simpl; subst. }
  erewrite bind_ok by (apply get_buf_ok; lia). unfold call at 1. unfold mbind at 1, st_bind at 1. cbn [snd fst].
  set (data := take (Z.to_nat (bytes f)) (drop (Z.to_nat p) (buf f))).
  assert (length data = Z.to_nat (bytes f)) as Hdata by (unfold data; rewrite length_take, length_drop; lia).
  destruct (sys_write (fd f) data w) as [[rv | |] w1] eqn:Ew; cbv beta iota.
  - apply write_ret in Ew as (Hrv & Hs & Ho & Hpat). rewrite Hdata in Hrv. destruct (Z.eqb_spec rv 0) as [-> | Hrv0].
    + erewrite bind_ok by reflexivity. cbn [fst snd]. eexists EOF, _, w1, 0. split; [reflexivity |].
      split_and!; try done; try lia. right. split_and!; try done; try lia.
      exists FLAG_EOF. split; [by right |]. rewrite Z.sub_0_r. by destruct f.
    + erewrite bind_ok by reflexivity. cbn [fst snd].
      destruct (IH (p + rv) (set_bytes (bytes f - rv) f) w1) as (r & f' & w' & k & E1 & Hp' & Ho' & Hk & Hs' & Hr);
        file_simpl; [lia.. |].
      exists r, f', w', (rv + k). split; [exact E1 |]. split; [lia |].
      split; [intros d Hd; by rewrite Ho', Ho |]. split; [lia |]. split.
      * rewrite Hs', Hs, <- app_assoc. f_equal. unfold data. rewrite take_take, (Nat.min_l (Z.to_nat rv)) by lia.
        replace (drop (Z.to_nat (p + rv)) (buf f)) with (drop (Z.to_nat rv) (drop (Z.to_nat p) (buf f)))
          by (rewrite drop_drop; f_equal; lia).
        rewrite take_take_drop. f_equal. lia.
      * destruct Hr as [(-> & -> & ->) | (-> & Hk' & b & Hb' & ->)].
        -- left. split_and!; [done | lia | done].
        -- right. split_and!; [done | lia |]. exists b. split; [done |]. unfold raise, set_flags, set_bytes. cbn. f_equal; lia.
  - apply write_again in Ew as [Hs Hpat]. destruct (IH p f w1) as (r & f' & w' & k & E1 & Hp' & Ho' & Hk & Hs' & Hr); [lia.. |].
    exists r, f', w', k. rewrite Hs in *. split_and!; try done; lia.
  - apply write_fail in Ew as [Hs Hpat]. erewrite bind_ok by reflexivity. cbn [fst snd].
    eexists EOF, _, w1, 0. split; [reflexivity |]. rewrite Hs. split_and!; try done; try lia.
    { by rewrite app_nil_r. }
    right. split_and!; try done; try lia. exists FLAG_ERR. split; [by left |]. rewrite Z.sub_0_r. by destruct f.
Qed.

Lemma fflush_spec fuel f w :
  out_ok f → (patience w + Z.to_nat (bytes f) < fuel)%nat →
  ∃ r f' w', fflush fuel (f, w) = Some (r, (f', w')) ∧ (patience w' <= patience w)%nat ∧
    (∀ d, d ≠ fd f → sent w' d = sent w d) ∧ same_stream f f' ∧ out_ok f' ∧ buf f' = buf f ∧ filepos f' = filepos f ∧
    ((r = 0 ∧ sent w' (fd f) = sent w (fd f) ++ pending f ∧ bytes f' = 0 ∧
      flag FLAG_WRITE f' = false ∧ troubled f' = troubled f) ∨
     (r = EOF ∧ troubled f' = true ∧ ∃ k, 0 <= k < bytes f ∧ bytes f' = bytes f - k ∧
        sent w' (fd f) = sent w (fd f) ++ take (Z.to_nat k) (pending f))).
Proof.
  intros Ho Hf. pose proof Ho as [Hb Hs Hn Hc]. unfold fflush. erewrite bind_ok by reflexivity. cbn [fst].
  destruct (flag FLAG_WRITE f) eqn:Ew; cbn [negb].
  2: { exists 0, f, w. split; [reflexivity |]. split_and!; try done. left. split_and!; try done; [| by apply Hc].
       unfold pending. rewrite Hc by done. by rewrite app_nil_r. }
  destruct (fflush_loop_spec fuel 0 f w) as (r & f' & w' & k & E1 & Hp & Hd & Hk & Hsent & Hr); unfold IO_UNGET_SLOP in *; [lia.. |].
  erewrite bind_ok by exact E1. cbv beta iota. rewrite drop_0 in Hsent.
  destruct Hr as [(-> & -> & ->) | (-> & Hk' & b & Hb' & ->)].
  - cbn [Z.eqb]. erewrite bind_ok by reflexivity. erewrite bind_ok by reflexivity. cbn [fst snd].
    eexists 0, _, w'. split; [reflexivity |]. split_and!; try done.
    + split; try done; rewrite flag_lower by done; done.
    + left. split_and!; try done; [by rewrite flag_lower | unfold troubled; by rewrite !flag_lower].
  - change (EOF =? 0) with false. cbv iota. eexists EOF, _, w'. split; [reflexivity |]. split_and!; try done.
    + split; try done; rewrite flag_raise by (done || by destruct Hb' as [-> | ->]); by destruct Hb' as [-> | ->].
    + split; file_simpl; try done; [lia |]. rewrite flag_raise by (done || by destruct Hb' as [-> | ->]).
      change (flag FLAG_WRITE (set_bytes (bytes f - k) f)) with (flag FLAG_WRITE f). rewrite Ew. by rewrite orb_true_r.
    + right. split_and!; [done | |].
      * unfold troubled. destruct Hb' as [-> | ->]; rewrite !flag_raise by done; simpl; by rewrite ?orb_true_r.
      * exists k. split_and!; try done; [lia |]. rewrite Hsent. f_equal. unfold pending. rewrite take_take. f_equal. lia.
Qed.
(** Storing [nb] bytes in the buffer. *)
Lemma store_step f (w : W) p nb :
  out_ok f → 0 <= nb <= Z.of_nat (length p) → bytes f + nb <= BUFSIZ →
  ∃ f1, (if negb (nb =? 0) then
           put_buf (bytes f) (take (Z.to_nat nb) p);;
           upd (λ f, set_bytes (bytes f + nb) f);;
           upd (λ f, set_filepos (filepos f + nb) f);;
           upd (raise FLAG_WRITE)
         else mret tt) (f, w) = Some (tt, (f1, w)) ∧
    out_ok f1 ∧ bytes f1 = bytes f + nb ∧ pending f1 = pending f ++ take (Z.to_nat nb) p ∧
    filepos f1 = filepos f + nb ∧ same_stream f f1 ∧ troubled f1 = troubled f.
Proof.
  intros Ho Hnb Hroom. pose proof Ho as [Hb Hs Hn Hc]. unfold IO_UNGET_SLOP in *. destruct (Z.eqb_spec nb 0) as [-> | Hne]; cbn [negb].
  { exists f. split; [reflexivity |]. rewrite app_nil_r. split_and!; try done; lia. }
  assert (length (take (Z.to_nat nb) p) = Z.to_nat nb) as Hl by (rewrite length_take; lia).
  erewrite bind_ok by (apply put_buf_ok; lia). erewrite bind_ok by reflexivity. erewrite bind_ok by reflexivity.
  eexists. split; [reflexivity |]. cbn [fst snd]. split.
  { split; unfold IO_UNGET_SLOP; file_simpl; try done; try lia.
    - rewrite !length_app, length_drop, !length_take. lia.
    - rewrite flag_raise by done. done. }
  split; [done |]. split.
  { unfold pending. file_simpl. rewrite app_assoc.
    replace (Z.to_nat (bytes f + nb)) with (length (take (Z.to_nat (bytes f)) (buf f) ++ take (Z.to_nat nb) p))
      by (rewrite length_app, Hl, length_take; lia).
    by rewrite take_app_length. }
  split; [done |]. split.
  - split; try done; by rewrite flag_raise.
  - unfold troubled. by rewrite !flag_raise.
Qed.

Lemma fwrite_noflush_spec : ∀ fuel p done f w,
  out_ok f → Z.of_nat (length p) < 2 ^ 64 → (patience w + length p + Z.to_nat (bytes f) < fuel)%nat →
  ∃ r f' w', fwrite_noflush fuel p done (f, w) = Some (done + r, (f', w')) ∧ (patience w' <= patience w)%nat ∧
    (∀ d, d ≠ fd f → sent w' d = sent w d) ∧ sent w (fd f) `prefix_of` sent w' (fd f) ∧ same_stream f f' ∧ out_ok f' ∧
    0 <= r <= Z.of_nat (length p) ∧ filepos f' = filepos f + r ∧
    (troubled f' = true ∨
     (r = Z.of_nat (length p) ∧ troubled f' = troubled f ∧
      sent w' (fd f) ++ pending f' = sent w (fd f) ++ pending f ++ p)).
Proof.
  induction fuel as [| fuel IH]; intros p done f w Ho Hlen Hf; [lia |]. pose proof Ho as [Hb Hs Hn Hc].
  cbn [fwrite_noflush]. erewrite bind_ok by reflexivity. cbn [fst].
  pose proof bufsiz_value as HB.
  assert (u64 (bufsiz f - bytes f) = BUFSIZ - bytes f) as -> by (rewrite Hs; apply wrapu_small; unfold in_u; lia).
  set (nb := if Z.of_nat (length p) <? BUFSIZ - bytes f then Z.of_nat (length p) else BUFSIZ - bytes f).
  assert (0 <= nb <= Z.of_nat (length p) ∧ bytes f + nb <= BUFSIZ ∧ (nb < Z.of_nat (length p) → bytes f + nb = BUFSIZ))
    as (Hnb & Hroom & Hfull) by (unfold nb; destruct (Z.ltb_spec (Z.of_nat (length p)) (BUFSIZ - bytes f)); lia).
  destruct (store_step f w p nb) as (f1 & E1 & Ho1 & Hb1 & Hp1 & Hfp1 & Hsame1 & Ht1); [done.. |].
  erewrite bind_ok by exact E1. case_bool_decide as Hd.
  - assert (length (drop (Z.to_nat nb) p) = O) as Hz by (by rewrite Hd). rewrite length_drop in Hz.
    exists nb, f1, w. split; [reflexivity |]. split_and!; try done; try lia. right.
    split_and!; [lia | done |]. rewrite Hp1, take_ge by lia. done.
  - assert (nb < Z.of_nat (length p)) as Hlt.
    { destruct (Z.lt_ge_cases nb (Z.of_nat (length p))); [done |]. exfalso. apply Hd. apply drop_ge. lia. }
    specialize (Hfull Hlt).
    destruct (fflush_spec (S fuel) f1 w Ho1) as (r & f2 & w2 & E2 & Hpat & Hoth & Hsame2 & Ho2 & Hbuf2 & Hfp2 & Hr); [lia |].
    rewrite (same_fd _ _ Hsame1) in *.
    erewrite bind_ok by exact E2. destruct Hr as [(-> & Hsent & Hb2 & Hw2 & Ht2) | (-> & Ht2 & k & Hk & Hb2 & Hsent)].
    + cbn [Z.eqb negb]. destruct (IH (drop (Z.to_nat nb) p) (done + nb) f2 w2)
        as (r & f3 & w3 & E3 & Hpat3 & Hoth3 & Hpre3 & Hsame3 & Ho3 & Hr3 & Hfp3 & Hres); [done | rewrite length_drop; lia.. |].
      rewrite length_drop in *. rewrite (same_fd _ _ Hsame2), (same_fd _ _ Hsame1) in *.
      exists (nb + r), f3, w3. rewrite E3. split_and!; try lia; [do 2 f_equal; lia | | | by do 2 etrans |  done |].
      * intros d Hdd. by rewrite Hoth3, Hoth.
      * etrans; [| exact Hpre3]. rewrite Hsent. apply prefix_app_r. done.
      * destruct Hres as [? | (-> & Ht3 & Hs3)]; [by left | right]. split_and!; [lia | congruence |].
        assert (pending f2 = []) as Hp2 by (unfold pending; by rewrite Hb2).
        rewrite Hs3, Hsent, Hp1, Hp2. cbn [app]. by rewrite <- !app_assoc, take_drop.
    + change (EOF =? 0) with false. cbn [negb]. exists nb, f2, w2. split; [reflexivity |].
      split_and!; try done; try lia; [rewrite Hsent; by apply prefix_app_r | by etrans | by left].
Qed.
Lemma flushed_part_spec n p :
  (n <= length p)%nat → (flushed_part n p <= n)%nat ∧ 10 ∉ take (n - flushed_part n p) (drop (flushed_part n p) p).
Proof.
  induction n as [| n IH]; intros Hn; simpl; [split; [lia | set_solver] |].
  case_bool_decide as E; [rewrite Nat.sub_diag; split; [lia | set_solver] |].
  destruct IH as [Hle Hni]; [lia |]. split; [lia |]. destruct (lookup_lt_is_Some_2 p n) as [c Hc]; [lia |].
  replace (S n - flushed_part n p)%nat with (S (n - flushed_part n p)) by lia.
  rewrite (take_S_r _ _ c) by (rewrite lookup_drop; by replace (flushed_part n p + (n - flushed_part n p))%nat with n by lia).
  rewrite not_elem_of_app. split; [done |]. intros E1%list_elem_of_singleton. by subst c.
Qed.

(** The part that is not flushed has no newline. *)
Lemma flushed_part_rest p : 10 ∉ drop (flushed_part (length p) p) p.
Proof.
  pose proof (flushed_part_spec (length p) p (le_n _)) as [Hle Hni]. by rewrite take_ge in Hni by (rewrite length_drop; lia).
Qed.

Lemma flushed_part_pos p : 10 ∈ p → flushed_part (length p) p ≠ O.
Proof. intros Hin E. pose proof (flushed_part_rest p) as Hn. by rewrite E, drop_0 in Hn. Qed.

(** The first part of [_fwrite]: the bytes up to the last newline. *)
Lemma flush_part_spec fuel p f w k :
  out_ok f → Z.of_nat (length p) < 2 ^ 64 → (patience w + length p + Z.to_nat BUFSIZ < fuel)%nat → (k <= length p)%nat →
  ∃ n stop f1 w1,
    (if bool_decide (k = O) then mret (0, false)
     else n ← fwrite_noflush fuel (take k p) 0; r ← fflush fuel;
          mret (n, negb (r =? 0) || negb (n =? Z.of_nat k))) (f, w) = Some ((n, stop), (f1, w1)) ∧
    (patience w1 <= patience w)%nat ∧ (∀ d, d ≠ fd f → sent w1 d = sent w d) ∧ same_stream f f1 ∧ out_ok f1 ∧
    0 <= n <= Z.of_nat k ∧ filepos f1 = filepos f + n ∧
    (troubled f1 = true ∨
     (stop = false ∧ n = Z.of_nat k ∧ troubled f1 = troubled f ∧ (k ≠ O → pending f1 = []) ∧
      sent w1 (fd f) ++ pending f1 = sent w (fd f) ++ pending f ++ take k p)).
Proof.
  intros Ho Hlen Hf Hk. pose proof (out_bytes _ Ho) as Hb. case_bool_decide as Hk0.
  { exists 0, false, f, w. subst k. split; [reflexivity |]. split_and!; try done; [lia |]. right.
    rewrite take_0, app_nil_r. done. }
  assert (length (take k p) = k) as Hlk by (rewrite length_take; lia).
  destruct (fwrite_noflush_spec fuel (take k p) 0 f w) as (r & f1 & w1 & E1 & Hpat & Hoth & _ & Hsame & Ho1 & Hr & Hfp & Hres);
    [done | lia | lia |].
  rewrite Hlk in *. erewrite bind_ok by exact E1. pose proof (out_bytes _ Ho1) as Hb1.
  destruct (fflush_spec fuel f1 w1 Ho1) as (r2 & f2 & w2 & E2 & Hpat2 & Hoth2 & Hsame2 & Ho2 & Hbuf2 & Hfp2 & Hr2); [lia |].
  rewrite (same_fd _ _ Hsame) in *. erewrite bind_ok by exact E2.
  eexists _, _, f2, w2. split; [reflexivity |]. split_and!; try done; try lia; [| by etrans |].
  { intros d Hd. by rewrite Hoth2, Hoth. }
  destruct Hr2 as [(-> & Hs2 & Hb2 & Hw2 & Ht2) | (-> & Ht2 & _)]; [| by left].
  destruct Hres as [Ht | (-> & Ht & Hs1)]; [left; congruence | right].
  assert (pending f2 = []) as Hp2 by (unfold pending; by rewrite Hb2).
  rewrite Z.add_0_l, !Z.eqb_refl, Hp2, Hs2, Hs1, Ht2, Ht, app_nil_r. done.
Qed.

(** C8.  [_fwrite] on a stream used for output always returns.  Unless
    the stream's error or end-of-file flag is set afterwards, it accepts all
    the bytes: what was sent and what is buffered together grow by exactly
    [p], the position by its length, and on a line-buffered stream nothing up
    to the last newline stays in the buffer.  Other descriptors get nothing. *)
Theorem fwrite_correct fuel p f w :
  out_ok f → Z.of_nat (length p) < 2 ^ 64 → (patience w + length p + Z.to_nat BUFSIZ < fuel)%nat →
  ∃ r f' w', _fwrite fuel p (f, w) = Some (r, (f', w')) ∧ (∀ d, d ≠ fd f → sent w' d = sent w d) ∧
    same_stream f f' ∧ out_ok f' ∧ 0 <= r <= Z.of_nat (length p) ∧ filepos f' = filepos f + r ∧
    (troubled f' = true ∨
     (r = Z.of_nat (length p) ∧ troubled f' = troubled f ∧
      sent w' (fd f) ++ pending f' = sent w (fd f) ++ pending f ++ p ∧
      (flag FLAG_LINE_BUF f = true → flag FLAG_UNBUF f = false → 10 ∈ p → 10 ∉ pending f'))).
Proof.
  intros Ho Hlen Hf. unfold _fwrite. erewrite bind_ok by reflexivity. cbn [fst].
  set (k := if flag FLAG_UNBUF f then O else if flag FLAG_LINE_BUF f then flushed_part (length p) p else O).
  assert (k <= length p)%nat as Hk.
  { unfold k. destruct (flag _ f); [lia |]. destruct (flag _ f); [| lia]. by apply flushed_part_spec. }
  destruct (flush_part_spec fuel p f w k) as (n & stop & f1 & w1 & E1 & Hpat & Hoth & Hsame & Ho1 & Hn & Hfp & Hres); [done.. |].
  erewrite bind_ok by exact E1. cbv beta iota. pose proof (out_bytes _ Ho1) as Hb1.
  destruct stop.
  { exists n, f1, w1. split; [reflexivity |]. destruct Hres as [Ht | (? & _)]; [| done].
    split_and!; try done; try lia; by left. }
  assert (k ≠ O → flag FLAG_LINE_BUF f = true → flag FLAG_UNBUF f = false → 10 ∉ drop k p) as Hrest.
  { unfold k. intros _ -> ->. apply flushed_part_rest. }
  assert (flag FLAG_LINE_BUF f = true → flag FLAG_UNBUF f = false → 10 ∈ p → k ≠ O) as Hpos.
  { unfold k. intros -> ->. apply flushed_part_pos. }
  clear E1. case_bool_decide as Hpu.
  - assert (length (drop k p) = O) as Hz by (by rewrite Hpu). rewrite length_drop in Hz.
    exists n, f1, w1. split; [reflexivity |]. split_and!; try done; try lia.
    destruct Hres as [Ht | (_ & -> & Ht & Hp1 & Hs1)]; [by left | right].
    split_and!; [lia | done | by rewrite Hs1, take_ge by lia |]. intros Hl Hu Hin. rewrite Hp1 by auto. set_solver.
  - destruct (fwrite_noflush_spec fuel (drop k p) 0 f1 w1) as (m & f2 & w2 & E2 & Hpat2 & Hoth2 & Hpre2 & Hsame2 & Ho2 & Hm & Hfp2 & Hres2);
      [done | rewrite length_drop; lia.. |].
    rewrite length_drop, (same_fd _ _ Hsame) in *. erewrite bind_ok by exact E2.
    exists (n + (0 + m)), f2, w2. split; [reflexivity |]. split_and!; try done; try lia; [| by etrans |].
    { intros d Hd. by rewrite Hoth2, Hoth. }
    destruct Hres2 as [Ht2 | (-> & Ht2 & Hs2)]; [by left |].
    destruct Hres as [Ht | (_ & -> & Ht & Hp1 & Hs1)]; [left; congruence | right].
    split_and!; [lia | congruence | by rewrite Hs2, (app_assoc (sent w1 _)), Hs1, <- !app_assoc, take_drop |].
    intros Hl Hu Hin Hnl. rewrite Hp1 in Hs2 by auto. destruct Hpre2 as [x Hx]. rewrite Hx, <- app_assoc in Hs2.
    apply app_inv_head in Hs2. cbn [app] in Hs2. apply (Hrest (Hpos Hl Hu Hin) Hl Hu). rewrite <- Hs2. set_solver.
Qed.
(** *** Input *)

Lemma length_ready f : in_ok f → Z.of_nat (length (ready f)) = bytes f.
Proof. intros [Hb _ Hn]. unfold ready. rewrite length_take, length_drop. lia. Qed.

(** Taking [nb] bytes out of the buffer. *)
Lemma take_step f (w : W) nb :
  in_ok f → 0 <= nb <= bytes f →
  ∃ data f1, (if negb (nb =? 0) then
                data ← get_buf (offset f) nb;
                upd (λ f, set_offset (offset f + nb) f);;
                upd (λ f, set_bytes (bytes f - nb) f);;
                upd (λ f, set_filepos (filepos f + nb) f);;
                upd (λ f, if bytes f =? 0 then lower FLAG_READ f else f);;
                mret data
              else mret []) (f, w) = Some (data, (f1, w)) ∧
    in_ok f1 ∧ ready f = data ++ ready f1 ∧ Z.of_nat (length data) = nb ∧ bytes f1 = bytes f - nb ∧
    filepos f1 = filepos f + nb ∧ same_stream f f1 ∧
    flag FLAG_EOF f1 = flag FLAG_EOF f ∧ flag FLAG_ERR f1 = flag FLAG_ERR f.
Proof.
  intros Hi Hnb. pose proof Hi as [Hb Hm Hn]. destruct (Z.eqb_spec nb 0) as [-> | Hne]; cbn [negb].
  { exists [], f. split; [reflexivity |]. split_and!; try done; lia. }
  erewrite bind_ok by (apply get_buf_ok; lia). repeat (erewrite bind_ok by reflexivity). cbn [fst snd].
  set (g := set_filepos _ _). exists (take (Z.to_nat nb) (drop (Z.to_nat (offset f)) (buf f))), (if bytes g =? 0 then lower FLAG_READ g else g).
  split; [reflexivity |].
  assert (ready f = take (Z.to_nat nb) (drop (Z.to_nat (offset f)) (buf f)) ++ ready g) as Hr.
  { unfold ready, g. file_simpl.
    replace (drop (Z.to_nat (offset f + nb)) (buf f)) with (drop (Z.to_nat nb) (drop (Z.to_nat (offset f)) (buf f)))
      by (rewrite drop_drop; f_equal; lia).
    rewrite take_take_drop. f_equal. lia. }
  assert (∀ b, is_flag b = true → b ≠ FLAG_READ → flag b (if bytes g =? 0 then lower FLAG_READ g else g) = flag b f) as Hfl.
  { intros b Hb1 Hb2. destruct (bytes g =? 0); [| done]. rewrite flag_lower, (proj2 (Z.eqb_neq _ _)) by done. done. }
  split_and!; try (by apply Hfl).
  - split; [by destruct (bytes g =? 0) | by rewrite Hfl |]. destruct (bytes g =? 0); unfold g; file_simpl; lia.
  - by destruct (bytes g =? 0).
  - rewrite length_take, length_drop. lia.
  - by destruct (bytes g =? 0).
  - by destruct (bytes g =? 0).
  - split; try (by destruct (bytes g =? 0)); by apply Hfl.
Qed.

(** A successful [read] fills the buffer behind the room for [ungetc]. *)
Lemma refill_step f (w : W) l :
  in_ok f → Z.of_nat (length l) <= BUFSIZ →
  ∃ f1, (∀ A (k : st (FILE * W) A),
           (put_buf IO_UNGET_SLOP l;; upd (set_bytes (Z.of_nat (length l)));; upd (raise FLAG_READ);; k)
             (set_offset IO_UNGET_SLOP f, w) = k (f1, w)) ∧
    in_ok f1 ∧ ready f1 = l ∧ filepos f1 = filepos f ∧ same_stream f f1 ∧ bytes f1 = Z.of_nat (length l) ∧
    flag FLAG_EOF f1 = flag FLAG_EOF f ∧ flag FLAG_ERR f1 = flag FLAG_ERR f.
Proof.
  intros [Hb Hm Hn] Hl. pose proof bufsiz_value as HB. eexists. split.
  { intros A k. erewrite bind_ok by (apply put_buf_ok; file_simpl; unfold IO_UNGET_SLOP in *; lia).
    do 2 erewrite bind_ok by reflexivity. reflexivity. }
  cbn [fst snd]. unfold IO_UNGET_SLOP in *.
  split_and!; try (rewrite flag_raise by done; done); try done.
  - split; file_simpl; unfold IO_UNGET_SLOP.
    + rewrite !length_app, length_take, length_drop. lia.
    + by rewrite flag_raise.
    + lia.
  - unfold ready. file_simpl. rewrite drop_app_ge by (rewrite length_take; lia).
    replace (Z.to_nat 32 - length (take (Z.to_nat 32) (buf f)))%nat with 0%nat by (rewrite length_take; lia).
    rewrite drop_0, Nat2Z.id. apply take_app_length.
  - split; try done; by rewrite flag_raise.
Qed.
(** The outcome of a read of [count] bytes that delivered [l]. *)
Record delivered (f : FILE) (w : W) (count : Z) (l : list Z) (f' : FILE) (w' : W) : Prop := mk_delivered {
  dv_ok : in_ok f';
  dv_same : same_stream f f';
  dv_patience : (patience w' <= patience w)%nat;
  dv_length : Z.of_nat (length l) <= count;
  dv_stream : ready f ++ input w (fd f) = l ++ ready f' ++ input w' (fd f);
  dv_filepos : filepos f' = filepos f + Z.of_nat (length l);
  dv_pos : pos w' (fd f) - bytes f' = pos w (fd f) - bytes f + Z.of_nat (length l);
  dv_end : (Z.of_nat (length l) = count ∧ troubled f' = troubled f) ∨
    (Z.of_nat (length l) < count ∧ ready f' = [] ∧
     ((flag FLAG_EOF f' = true ∧ input w' (fd f) = []) ∨ flag FLAG_ERR f' = true));
}.

(** The state after delivering [l], with the rest still to be read. *)
Record advanced (f : FILE) (w : W) (l : list Z) (f' : FILE) (w' : W) : Prop := mk_advanced {
  ad_ok : in_ok f';
  ad_same : same_stream f f';
  ad_patience : (patience w' <= patience w)%nat;
  ad_stream : ready f ++ input w (fd f) = l ++ ready f' ++ input w' (fd f);
  ad_filepos : filepos f' = filepos f + Z.of_nat (length l);
  ad_pos : pos w' (fd f) - bytes f' = pos w (fd f) - bytes f + Z.of_nat (length l);
}.

Lemma delivered_more f w count data f1 w1 l f' w' :
  advanced f w data f1 w1 → troubled f1 = troubled f →
  delivered f1 w1 (count - Z.of_nat (length data)) l f' w' → delivered f w count (data ++ l) f' w'.
Proof.
  intros [Hi Hs Hp Hst Hfp Hpos] Ht [Hok3 Hsame3 Hpat3 Hlen3 Hst3 Hfp3 Hpos3 Hend3].
  rewrite (same_fd _ _ Hs) in *. split; try done; rewrite ?length_app; try lia.
  - by etrans.
  - by rewrite Hst, Hst3, <- app_assoc.
  - destruct Hend3 as [[? Ht3] | (? & ? & ?)]; [left | right].
    + split; [lia | congruence].
    + split_and!; [lia | done | done].
Qed.

Lemma delivered_stop f w count data f1 w1 :
  advanced f w data f1 w1 → Z.of_nat (length data) < count → bytes f1 = 0 →
  (flag FLAG_EOF f1 = true ∧ input w1 (fd f) = []) ∨ flag FLAG_ERR f1 = true →
  delivered f w count data f1 w1.
Proof.
  intros [Hi Hs Hp Hst Hfp Hpos] Hl Hb Hfl. split; try done; [lia |]. right. split_and!; try done.
  unfold ready. by rewrite Hb.
Qed.

Lemma delivered_all f w count data f1 w1 :
  advanced f w data f1 w1 → Z.of_nat (length data) = count → troubled f1 = troubled f → delivered f w count data f1 w1.
Proof. intros [Hi Hs Hp Hst Hfp Hpos] Hl Ht. split; try done; [lia | by left]. Qed.

(** Emptying the buffer and then getting an answer from [read]. *)
Lemma advanced_empty f w data f1 f2 w2 :
  advanced f w data f1 w → bytes f1 = 0 → in_ok f2 → same_stream f1 f2 → bytes f2 = 0 → filepos f2 = filepos f1 →
  input w2 (fd f) = input w (fd f) → pos w2 (fd f) = pos w (fd f) → (patience w2 <= patience w)%nat →
  advanced f w data f2 w2.
Proof.
  intros [Hi Hs Hp Hst Hfp Hpos] Hb Hi2 Hs2 Hb2 Hfp2 Hin Hpos2 Hp2.
  assert (ready f1 = [] ∧ ready f2 = []) as [Hr Hr2] by (unfold ready; by rewrite Hb, Hb2).
  split; try done; [by etrans | by rewrite Hst, Hr, Hr2, Hin | lia | lia].
Qed.

Lemma advanced_refill f w data f1 l f2 w2 :
  advanced f w data f1 w → bytes f1 = 0 → in_ok f2 → same_stream f1 f2 → ready f2 = l → filepos f2 = filepos f1 →
  input w (fd f) = l ++ input w2 (fd f) → pos w2 (fd f) = pos w (fd f) + Z.of_nat (length l) → (patience w2 <= patience w)%nat →
  advanced f w data f2 w2.
Proof.
  intros [Hi Hs Hp Hst Hfp Hpos] Hb Hi2 Hs2 Hr2 Hfp2 Hin Hpos2 Hp2.
  assert (ready f1 = []) as Hr by (unfold ready; by rewrite Hb).
  split; try done; [by etrans | by rewrite Hst, Hr, Hr2, Hin | lia |].
  rewrite <- (length_ready f2), Hr2 by done. lia.
Qed.

Lemma fread_loop_spec : ∀ fuel count acc f w,
  in_ok f → 0 <= count < 2 ^ 64 →
  (patience w + Z.to_nat count + (if bool_decide (bytes f = 0%Z) then 1 else 0) < fuel)%nat →
  ∃ l f' w', fread_loop fuel count acc (f, w) = Some (acc ++ l, (f', w')) ∧ delivered f w count l f' w'.
Proof.
  induction fuel as [| fuel IH]; intros count acc f w Hi Hc Hf; [lia |]. cbn [fread_loop].
  erewrite bind_ok by reflexivity. cbn [fst]. pose proof Hi as [Hb Hm Hn].
  pose proof bufsiz_value as HB. unfold IO_UNGET_SLOP in Hb, Hn.
  assert (u64 (bytes f) = bytes f) as -> by (apply wrapu_small; unfold in_u; lia).
  set (nb := if count <? bytes f then count else bytes f).
  assert (0 <= nb <= bytes f ∧ nb <= count ∧ (nb < count → nb = bytes f)) as (Hnb & Hnc & Hall)
    by (unfold nb; destruct (Z.ltb_spec count (bytes f)); lia).
  destruct (take_step f w nb Hi Hnb) as (data & f1 & E1 & Hi1 & Hr1 & Hdl & Hb1 & Hfp1 & Hs1 & He1 & Hx1).
  assert (troubled f1 = troubled f) as Ht1 by (unfold troubled; by rewrite He1, Hx1).
  assert (advanced f w data f1 w) as Hadv by (split; try done; [by rewrite Hr1, <- app_assoc | lia | lia]).
  erewrite bind_ok by exact E1. destruct (Z.eqb_spec (count - nb) 0) as [Hz | Hz].
  { exists data, f1, w. split; [reflexivity |]. apply delivered_all; [done | lia | done]. }
  assert (nb = bytes f) as Enb by lia. assert (bytes f1 = 0) as Hb1z by lia. rewrite Enb in Hdl, Hz |- *.
  assert (in_ok (set_offset IO_UNGET_SLOP f1)) as Hi1' by (split; unfold IO_UNGET_SLOP; file_simpl; try apply Hi1; lia).
  erewrite bind_ok by reflexivity. cbn [fst snd]. unfold call at 1. unfold mbind at 1, st_bind at 1. cbn [fst snd].
  destruct (sys_read (fd f) BUFSIZ w) as [[l | |] w1] eqn:Er; cbv beta iota.
  - apply read_ret in Er as (Hl & Hin & Hnil & Hpos & Hpat); [| lia].
    destruct (decide (l = [])) as [El | El]; [rewrite bool_decide_eq_true_2 by done | rewrite (bool_decide_eq_false_2 (l = [])) by done].
    + erewrite bind_ok by reflexivity. subst l. eexists data, _, w1. split; [reflexivity |]. cbn [fst snd].
      specialize (Hnil eq_refl). cbn [app length Z.of_nat] in *. rewrite Z.add_0_r in Hpos.
      apply delivered_stop; [| lia | done | left; split; [by rewrite flag_raise | congruence]].
      eapply advanced_empty; try done; split; file_simpl; try apply Hi1'; try done; rewrite flag_raise; done || apply Hi1.
    + destruct (refill_step f1 w1 l Hi1 Hl) as (f2 & E2 & Hi2 & Hr2 & Hfp2 & Hs2 & Hb2 & He2 & Hx2). rewrite E2.
      assert (length l ≠ 0%nat) as Hln by (by destruct l).
      destruct (IH (count - bytes f) (acc ++ data) f2 w1) as (l3 & f3 & w3 & E3 & Hd3); [done | lia | |].
      { rewrite bool_decide_eq_false_2 by lia. repeat case_bool_decide; lia. }
      rewrite E3, <- app_assoc. exists (data ++ l3), f3, w3. split; [done |]. rewrite <- Hdl in Hd3.
      eapply delivered_more; [| | exact Hd3]; [by eapply advanced_refill |].
      rewrite <- Ht1. unfold troubled. by rewrite He2, Hx2.
  - apply read_again in Er as (Hin & Hpos & Hpat).
    destruct (IH (count - bytes f) (acc ++ data) (set_offset IO_UNGET_SLOP f1) w1) as (l3 & f3 & w3 & E3 & Hd3); [done | lia | |].
    { repeat case_bool_decide; lia. }
    rewrite E3, <- app_assoc. exists (data ++ l3), f3, w3. split; [done |]. rewrite <- Hdl in Hd3.
    eapply delivered_more; [| | exact Hd3]; [| exact Ht1]. eapply advanced_empty; rewrite ?Hin, ?Hpos; done || lia.
  - apply read_fail in Er as (Hin & Hpos & Hpat). erewrite bind_ok by reflexivity. eexists data, _, w1. split; [reflexivity |].
    cbn [fst snd]. apply delivered_stop; [| lia | done | right; by rewrite flag_raise].
    eapply advanced_empty; rewrite ?Hin, ?Hpos; try done; split; file_simpl; try apply Hi1'; try done; rewrite flag_raise; done || apply Hi1.
Qed.
(** C9.  [_fread] on a stream used for input always returns.  The bytes it
    delivers are the next bytes of the stream (the buffer followed by what
    the descriptor will give), in order and without loss; there are fewer than
    [count] only if the input has ended (and the end-of-file flag is set) or
    [read] failed (and the error flag is set).  The file position advances by
    the number of bytes delivered. *)
Theorem fread_correct fuel count f w :
  in_ok f → 0 <= count < 2 ^ 64 → (patience w + Z.to_nat count + 1 < fuel)%nat →
  ∃ l f' w', _fread fuel count (f, w) = Some (l, (f', w')) ∧ delivered f w count l f' w'.
Proof.
  intros Hi Hc Hf. unfold _fread. apply (fread_loop_spec fuel count [] f w); [done.. |]. case_bool_decide; lia.
Qed.

(** The bytes still to be read. *)
Definition stream (f : FILE) (w : W) : list Z := ready f ++ input w (fd f).

Lemma fgetc_spec fuel f w :
  in_ok f → Forall (in_u 8) (stream f w) → (patience w + 2 < fuel)%nat →
  ∃ c f' w', fgetc fuel (f, w) = Some (c, (f', w')) ∧ in_ok f' ∧ same_stream f f' ∧ (patience w' <= patience w)%nat ∧
    ((in_u 8 c ∧ stream f w = c :: stream f' w') ∨
     (c = EOF ∧ stream f w = stream f' w' ∧ (stream f' w' = [] ∨ flag FLAG_ERR f' = true))).
Proof.
  intros Hi Hby Hf. destruct (fread_loop_spec fuel 1 [] f w Hi) as (l & f' & w' & E & Hd); [done | case_bool_decide; lia |].
  destruct Hd as [Hok Hs Hp Hl Hst Hfp Hpos Hend]. unfold fgetc, _fread. erewrite bind_ok by exact E.
  unfold stream in *.
  eexists _, f', w'. split; [reflexivity |]. split_and!; [done.. |]. rewrite (same_fd _ _ Hs). cbn [app].
  destruct l as [| c [| ? ?]].
  - right. split_and!; try done. destruct Hend as [[Hl0 _] | (_ & Hr & [[_ Hi0] | He])]; [done | left; by rewrite Hr, Hi0 | by right].
  - left. split; [| exact Hst]. rewrite Hst in Hby. by apply Forall_cons in Hby as [? _].
  - simpl in Hl. lia.
Qed.

Lemma fgets_loop_spec fuel : ∀ n acc f w,
  in_ok f → Forall (in_u 8) (stream f w) → (patience w + 2 < fuel)%nat →
  ∃ ok line f' w', fgets_loop fuel (S n) acc (f, w) = Some ((ok, acc ++ line ++ [0]), (f', w')) ∧
    in_ok f' ∧ same_stream f f' ∧ stream f w = line ++ stream f' w' ∧ (length line <= n)%nat ∧
    (if ok : bool then (∃ l, line = l ++ [10] ∧ 10 ∉ l) ∨ (length line = n ∧ 10 ∉ line)
     else (10 ∉ line) ∧ (stream f' w' = [] ∨ flag FLAG_ERR f' = true)).
Proof.
  induction n as [| n IH]; intros acc f w Hi Hby Hf.
  { exists true, [], f, w. split; [reflexivity |]. split_and!; try done. right. split; [done | set_solver]. }
  cbn [fgets_loop]. destruct (fgetc_spec fuel f w Hi Hby Hf) as (c & f1 & w1 & E1 & Hi1 & Hs1 & Hp1 & Hc).
  erewrite bind_ok by exact E1. destruct Hc as [[Hcu Hst] | (-> & Hst & Hend)].
  - unfold in_u in Hcu. rewrite (proj2 (Z.eqb_neq c EOF)) by (unfold EOF; lia).
    assert (u8 c = c) as -> by (by apply wrapu_small).
    rewrite Hst in Hby. apply Forall_cons in Hby as [_ Hby].
    destruct (Z.eqb_spec c 10) as [-> | Hc10].
    + exists true, [10], f1, w1. split; [reflexivity |]. split_and!; try done; [simpl; lia |].
      left. exists []. split; [done | set_solver].
    + destruct (IH (acc ++ [c]) f1 w1) as (ok & line & f2 & w2 & E2 & Hi2 & Hs2 & Hst2 & Hl2 & Hr); [done | done | lia |].
      exists ok, (c :: line), f2, w2. rewrite <- app_assoc in E2. split; [exact E2 |].
      split_and!; [done | by etrans | by rewrite Hst, Hst2 | simpl; lia |].
      destruct ok.
      * destruct Hr as [(l & -> & Hl) | [Hl Hn]]; [left; exists (c :: l); split; [done | set_solver] |].
        right. split; [simpl; lia | set_solver].
      * destruct Hr as [Hn Hr]. split; [set_solver | done].
  - cbn. exists false, [], f1, w1. split; [reflexivity |]. split_and!; try done; [simpl; lia | apply not_elem_of_nil].
Qed.

(** [fgets] with room for at least one byte always returns and stores
    the next bytes of the stream, at most [n - 1] and not beyond the first
    newline, followed by a NUL.  It returns [s] exactly when it stopped at a
    newline or a full buffer; at the end of the input it returns [NULL], even
    if it has stored the last, unterminated line. *)
Theorem fgets_correct fuel n f w :
  in_ok f → Forall (in_u 8) (stream f w) → (patience w + 2 < fuel)%nat → 1 <= n →
  ∃ ok line f' w', fgets fuel n (f, w) = Some ((ok, line ++ [0]), (f', w')) ∧
    in_ok f' ∧ same_stream f f' ∧ stream f w = line ++ stream f' w' ∧ Z.of_nat (length line) < n ∧
    (if ok : bool then (∃ l, line = l ++ [10] ∧ 10 ∉ l) ∨ (Z.of_nat (length line) = n - 1 ∧ 10 ∉ line)
     else (10 ∉ line) ∧ (stream f' w' = [] ∨ flag FLAG_ERR f' = true)).
Proof.
  intros Hi Hby Hf Hn. unfold fgets. rewrite (proj2 (Z.ltb_ge n 0)) by lia.
  replace (Z.to_nat n) with (S (Z.to_nat (n - 1))) by lia.
  destruct (fgets_loop_spec fuel (Z.to_nat (n - 1)) [] f w Hi Hby Hf) as (ok & line & f' & w' & E & Hi' & Hs & Hst & Hl & Hr).
  exists ok, line, f', w'. split; [exact E |]. split_and!; try done; [lia |].
  destruct ok; [| done]. destruct Hr as [? | [Hl2 ?]]; [by left | right]. split; [lia | done].
Qed.
(** *** Pushing back *)

Lemma ungetc_spec (c : Z) f (w : W) :
  in_ok f → 0 < offset f →
  ∃ f', ungetc c (f, w) = Some (c, (f', w)) ∧ in_ok f' ∧ same_stream f f' ∧ offset f' = offset f - 1 ∧
    bytes f' = bytes f + 1 ∧ ready f' = u8 c :: ready f ∧ filepos f' = filepos f ∧ troubled f' = troubled f.
Proof.
  intros [Hb Hm Hn] Ho. unfold ungetc. erewrite bind_ok by reflexivity. cbn [fst]. rewrite Hm, (proj2 (Z.leb_gt _ _)) by lia.
  cbn [orb]. unfold IO_UNGET_SLOP in *. do 2 erewrite bind_ok by reflexivity. cbn [fst].
  erewrite bind_ok by (apply put_buf_ok; file_simpl; simpl; lia). do 2 erewrite bind_ok by reflexivity.
  eexists. split; [reflexivity |]. cbn [fst snd]. split_and!; try done; try (by rewrite flag_raise).
  - split; file_simpl; unfold IO_UNGET_SLOP.
    + rewrite !length_app, length_take, length_drop. simpl. lia.
    + by rewrite flag_raise.
    + lia.
  - split; try done; by rewrite flag_raise.
  - unfold ready. file_simpl. set (o := Z.to_nat (offset f - 1)).
    rewrite drop_app_ge by (rewrite length_take; lia).
    replace (o - length (take o (buf f)))%nat with 0%nat by (rewrite length_take; lia).
    replace (Z.to_nat (bytes f + 1)) with (S (Z.to_nat (bytes f))) by lia. cbn [drop take app length].
    by replace (o + 1)%nat with (Z.to_nat (offset f)) by lia.
  - unfold troubled. by rewrite !flag_raise.
Qed.

(** Pushing back a list, its last byte first. *)
Fixpoint unget_all (cs : list Z) : st (FILE * W) unit :=
  match cs with
  | [] => mret tt
  | c :: cs => unget_all cs;; ungetc c;; mret tt
  end.

Lemma unget_all_spec cs f (w : W) :
  in_ok f → Z.of_nat (length cs) <= offset f →
  ∃ f', unget_all cs (f, w) = Some (tt, (f', w)) ∧ in_ok f' ∧ same_stream f f' ∧
    offset f' = offset f - Z.of_nat (length cs) ∧ ready f' = (u8 <$> cs) ++ ready f ∧ filepos f' = filepos f ∧ troubled f' = troubled f.
Proof.
  intros Hi. induction cs as [| c cs IH]; intros Hl; cbn [unget_all length] in *.
  { exists f. split_and!; try done. simpl. lia. }
  destruct IH as (f1 & E1 & Hi1 & Hs1 & Ho1 & Hr1 & Hfp1 & Ht1); [lia |]. erewrite bind_ok by exact E1.
  destruct (ungetc_spec c f1 w Hi1) as (f2 & E2 & Hi2 & Hs2 & Ho2 & Hb2 & Hr2 & Hfp2 & Ht2); [lia |].
  erewrite bind_ok by exact E2. exists f2. split; [reflexivity |].
  split_and!; [done | by etrans | lia | by rewrite Hr2, Hr1 | congruence | congruence].
Qed.

(** As many bytes as the buffer has room for in front of its data
    (32 on a fresh stream) can be pushed back, and [_fread] then delivers them
    first, in order, without a system call; the stream continues as before.
    The file position is not moved back by [ungetc], so it is ahead by the
    number of bytes pushed back. *)
Theorem ungetc_correct fuel cs f w :
  in_ok f → Z.of_nat (length cs) <= offset f → (patience w + length cs + 1 < fuel)%nat →
  ∃ f', (unget_all cs;; _fread fuel (Z.of_nat (length cs))) (f, w) = Some (u8 <$> cs, (f', w)) ∧
    in_ok f' ∧ ready f' = ready f ∧ filepos f' = filepos f + Z.of_nat (length cs).
Proof.
  intros Hi Hl Hf. destruct (unget_all_spec cs f w Hi Hl) as (f1 & E1 & Hi1 & Hs1 & Ho1 & Hr1 & Hfp1 & Ht1).
  erewrite bind_ok by exact E1. pose proof (length_ready f1 Hi1) as Hlen. rewrite Hr1, length_app, length_fmap in Hlen.
  destruct fuel as [| fuel]; [lia |]. unfold _fread. cbn [fread_loop]. erewrite bind_ok by reflexivity. cbn [fst].
  pose proof Hi1 as [Hb Hm Hn]. pose proof bufsiz_value as HB. unfold IO_UNGET_SLOP in *.
  assert (u64 (bytes f1) = bytes f1) as -> by (apply wrapu_small; unfold in_u; lia).
  set (nb := if _ <? _ then _ else _).
  assert (nb = Z.of_nat (length cs)) as -> by (unfold nb; destruct (Z.ltb_spec (Z.of_nat (length cs)) (bytes f1)); lia).
  destruct (take_step f1 w (Z.of_nat (length cs)) Hi1) as (data & f2 & E2 & Hi2 & Hr2 & Hdl & Hb2 & Hfp2 & Hs2 & _); [lia |].
  erewrite bind_ok by exact E2. rewrite Z.sub_diag. cbn [Z.eqb app].
  rewrite Hr1 in Hr2. apply app_inj_1 in Hr2 as [<- Hr2]; [| rewrite length_fmap; lia].
  exists f2. split; [reflexivity |]. split_and!; [done | done | lia].
Qed.

(** *** Positioning *)

(** [fseek] on a stream being read discards the buffer and leaves the
    stream's position and the descriptor's position equal.  An absolute seek
    goes where it should; a relative one is taken from the descriptor's
    position, which is ahead of the stream's by the bytes in the buffer. *)
Theorem fseek_position fuel off whence f w p w' :
  in_ok f → filepos f + bytes f = pos w (fd f) → sys_lseek (fd f) off whence w = (p, w') → p ≠ -1 →
  ∃ f', fseek fuel off whence (f, w) = Some (0, (f', w')) ∧ in_ok f' ∧ ready f' = [] ∧
    (whence = SEEK_SET → filepos f' = off ∧ pos w' (fd f) = off) ∧
    (whence = SEEK_CUR → filepos f' = filepos f + bytes f + off ∧ pos w' (fd f) = filepos f').
Proof.
  intros Hi Hsync E Hp. pose proof Hi as [Hb Hm Hn]. unfold fseek, fflush.
  erewrite (bind_ok _ _ _ 0).
  2: { erewrite bind_ok by reflexivity. cbn [fst]. rewrite Hm. reflexivity. }
  erewrite bind_ok by reflexivity. cbn [fst]. erewrite bind_ok by (unfold call; cbn [snd]; rewrite E; reflexivity).
  rewrite (proj2 (Z.eqb_neq _ _)) by done. cbn [negb]. do 3 erewrite bind_ok by reflexivity.
  eexists. split; [reflexivity |]. cbn [fst snd]. split_and!.
  - split; file_simpl; [done | | lia]. by rewrite flag_lower.
  - done.
  - intros ->. apply seek_set in E as [-> ?]; done.
  - intros ->. apply seek_cur in E as [-> ?]; [| done]. file_simpl. lia.
Qed.

(** When [write] fails after part of the buffer has been sent, the
    sent bytes are not removed from the buffer, only counted: the next
    successful [fflush] starts from the beginning of the buffer again. *)
Theorem fflush_after_failure fuel f w f1 w1 f2 w2 :
  out_ok f → (patience w + Z.to_nat BUFSIZ < fuel)%nat →
  fflush fuel (f, w) = Some (EOF, (f1, w1)) → fflush fuel (f1, w1) = Some (0, (f2, w2)) →
  ∃ k, 0 <= k < bytes f ∧
    sent w2 (fd f) = sent w (fd f) ++ take (Z.to_nat k) (pending f) ++ take (Z.to_nat (bytes f - k)) (pending f).
Proof.
  intros Ho Hf E1 E2. pose proof (out_bytes _ Ho).
  destruct (fflush_spec fuel f w Ho) as (r & g & x & E1' & Hp & _ & Hs & Hg & Hbuf & _ & Hr); [lia |].
  rewrite E1 in E1'. injection E1' as <- <- <-. destruct Hr as [[? _] | (_ & _ & k & Hk & Hb1 & Hsent)]; [done |].
  destruct (fflush_spec fuel f1 w1 Hg) as (r & g & x & E2' & _ & _ & _ & _ & _ & _ & Hr); [lia |].
  rewrite E2 in E2'. injection E2' as <- <- <-. destruct Hr as [(_ & Hsent2 & _) | [? _]]; [| done].
  rewrite (same_fd _ _ Hs) in Hsent2. exists k. split; [done |].
  rewrite Hsent2, Hsent, <- app_assoc. do 2 f_equal. unfold pending. rewrite Hbuf, Hb1, take_take. f_equal. lia.
Qed.
(** *** The list of all streams *)

(** The streams of the list [l] are exactly the open ones. *)
Record wf_stdio (headnode : Z) (s : @stdio W) (l : list Z) : Prop := mk_wf_stdio {
  ws_chain : dll (nxt s) (prv s) headnode l;
  ws_nodup : NoDup (headnode :: l);
  ws_files : ∀ f, f ∈ l ↔ is_Some (files s !! f);
}.

(** Every stream is in a consistent state, and no two share a descriptor. *)
Definition streams_ok (s : @stdio W) : Prop :=
  (∀ f x, files s !! f = Some x → out_ok x ∨ in_ok x) ∧
  (∀ f g x y, files s !! f = Some x → files s !! g = Some y → fd x = fd y → f = g).

Definition unsent (x : FILE) : list Z := if flag FLAG_WRITE x then pending x else [].

Lemma fflush_any fuel x w :
  out_ok x ∨ in_ok x → (patience w + Z.to_nat BUFSIZ < fuel)%nat →
  ∃ r x' w', fflush fuel (x, w) = Some (r, (x', w')) ∧ (patience w' <= patience w)%nat ∧
    (∀ d, d ≠ fd x → sent w' d = sent w d) ∧ fd x' = fd x ∧ (out_ok x' ∨ in_ok x') ∧
    ((r = 0 ∧ flag FLAG_WRITE x' = false ∧ sent w' (fd x) = sent w (fd x) ++ unsent x) ∨ (r = EOF ∧ troubled x' = true)).
Proof.
  intros Hx Hf. destruct (flag FLAG_WRITE x) eqn:Ew.
  - destruct Hx as [Ho | Hi]; [| by rewrite (in_mode _ Hi) in Ew]. pose proof (out_bytes _ Ho).
    destruct (fflush_spec fuel x w Ho) as (r & x' & w' & E & Hp & Hoth & Hs & Ho' & _ & _ & Hr); [lia |].
    exists r, x', w'. split_and!; try done; [by apply same_fd | by left |].
    unfold unsent. rewrite Ew. destruct Hr as [(-> & ? & ? & ? & ?) | (-> & ? & ?)]; [by left | by right].
  - exists 0, x, w. unfold fflush, unsent. erewrite bind_ok by reflexivity. cbn [fst]. rewrite Ew.
    split; [reflexivity |]. split_and!; try done. left. by rewrite app_nil_r.
Qed.

Lemma on_file_ok {A} (s : @stdio W) f x (c : st (FILE * W) A) a x' w' :
  files s !! f = Some x → c (x, world s) = Some (a, (x', w')) →
  on_file f c s = Some (a, set_world w' (set_files (<[f := x']> (files s)) s)).
Proof. unfold on_file. by intros -> ->. Qed.

(** Updating one stream keeps the list and the other streams. *)
Lemma update_stream (s : @stdio W) f x x' w' :
  files s !! f = Some x → fd x' = fd x → out_ok x' ∨ in_ok x' → streams_ok s →
  let s1 := set_world w' (set_files (<[f := x']> (files s)) s) in
  streams_ok s1 ∧ (∀ headnode l, wf_stdio headnode s l → wf_stdio headnode s1 l) ∧
  (∀ g y, files s1 !! g = Some y → ∃ z, files s !! g = Some z ∧ fd y = fd z).
Proof.
  intros Hx Hfd Hok' [Hok Hdis] s1.
  assert (∀ g y, files s1 !! g = Some y → ∃ z, files s !! g = Some z ∧ fd y = fd z) as Hfiles1.
  { intros g y. unfold s1. cbn [files set_world set_files]. rewrite lookup_insert. case_decide as Hg; [subst g |]; [intros [= <-] |]; eauto. }
  split_and!; [split | | done].
  - intros g y. unfold s1. cbn [files set_world set_files]. rewrite lookup_insert. case_decide; [by intros [= <-] | eauto].
  - intros g h y z Hy Hz Hyz. apply Hfiles1 in Hy as (y0 & Hy0 & Ey). apply Hfiles1 in Hz as (z0 & Hz0 & Ez).
    apply (Hdis g h y0 z0); congruence.
  - intros headnode l [Hch Hnd Hfs]. split; [done | done |]. intros g. rewrite Hfs. unfold s1. cbn [files set_world set_files].
    rewrite lookup_insert. case_decide as Hg; [subst g; rewrite Hx; split; eauto | done].
Qed.

Lemma fflush_all_loop_spec headnode fuel : ∀ l2 l1 n err s,
  wf_stdio headnode s (l1 ++ l2) → streams_ok s → (length l2 < n)%nat →
  (patience (world s) + Z.to_nat BUFSIZ < fuel)%nat →
  ∃ r s', fflush_all_loop headnode fuel n (succ_of headnode l2) err s = Some (r, s') ∧ wf_stdio headnode s' (l1 ++ l2) ∧
    streams_ok s' ∧ (∀ f, f ∉ l2 → files s' !! f = files s !! f) ∧
    (∀ d, (∀ f x, f ∈ l2 → files s !! f = Some x → fd x ≠ d) → sent (world s') d = sent (world s) d) ∧
    (r = 0 → err = 0 ∧ ∀ f x, f ∈ l2 → files s !! f = Some x →
      (∃ x', files s' !! f = Some x' ∧ unsent x' = []) ∧ sent (world s') (fd x) = sent (world s) (fd x) ++ unsent x).
Proof.
  induction l2 as [| f l2 IH]; intros l1 [| n] err s Hwf Hok Hn Hf; simpl in Hn; try lia; cbn [fflush_all_loop].
  { unfold succ_of. cbn. rewrite Z.eqb_refl. exists err, s. split; [reflexivity |]. split_and!; try done.
    intros ->. split; [done |]. intros f x Hin. by apply not_elem_of_nil in Hin. }
  pose proof Hwf as [Hch Hnd Hfs]. change (succ_of headnode (f :: l2)) with f.
  assert (headnode ≠ f ∧ f ∉ l2) as [Hhf Hfl].
  { apply NoDup_cons in Hnd as [Hh Hnd]. split; [set_solver |]. by apply NoDup_app in Hnd as (_ & _ & [? _]%NoDup_cons). }
  rewrite (proj2 (Z.eqb_neq f headnode)) by done. destruct (proj1 (Hfs f)) as [x Hx]; [set_solver |].
  destruct (fflush_any fuel x (world s)) as (r & x' & w' & E & Hp & Hoth & Hfd & Hok' & Hr); [by eapply Hok | done |].
  erewrite bind_ok by (by eapply on_file_ok).
  destruct (update_stream s f x x' w' Hx Hfd Hok' Hok) as (Hok1 & Hwf1 & Hfiles1).
  set (s1 := set_world w' (set_files (<[f := x']> (files s)) s)) in *.
  erewrite (bind_ok _ _ _ (succ_of headnode l2) s1).
  2: { unfold next. change (nxt s1) with (nxt s). by rewrite (dll_next _ _ _ _ _ _ Hch). }
  specialize (Hwf1 _ _ Hwf). rewrite (cons_middle f l1 l2), app_assoc in Hwf1 |- *.
  destruct (IH (l1 ++ [f]) n (Z.lor err r) s1 Hwf1 Hok1) as (r2 & s2 & E2 & Hwf2 & Hok2 & Hsame2 & Hoth2 & Hr2); [lia | cbn; lia |].
  assert (∀ g y, g ∈ l2 → files s !! g = Some y → files s1 !! g = Some y ∧ fd y ≠ fd x) as Hl2.
  { intros g y Hg Hy. assert (f ≠ g) as Hfg by set_solver. unfold s1. cbn [files set_world set_files].
    rewrite lookup_insert_ne by done. split; [done |]. intros Heq. apply Hfg. symmetry. by eapply Hok. }
  assert (sent (world s2) (fd x) = sent w' (fd x)) as Hsx.
  { apply Hoth2. intros h z Hh Hz Heq. apply Hfiles1 in Hz as (z0 & Hz0 & Ez). destruct (Hl2 h z0 Hh Hz0) as [_ ?]. congruence. }
  exists r2, s2. split; [exact E2 |]. split_and!; try done.
  - intros g Hg. rewrite Hsame2 by set_solver. unfold s1. cbn. rewrite lookup_insert_ne; set_solver.
  - intros d Hd. rewrite Hoth2.
    + apply Hoth. intros ->. by apply (Hd f x); [set_solver | |].
    + intros g y Hg Hy. apply Hfiles1 in Hy as (z & Hz & ->). apply (Hd g z); [set_solver | done].
  - intros ->. destruct Hr2 as [Hlor Hr2]; [done |]. apply Z.lor_eq_0_iff in Hlor as [-> ->].
    destruct Hr as [(_ & Hw & Hs) | [? _]]; [| done]. split; [done |]. intros g y [-> | Hg2]%elem_of_cons Hy.
    + rewrite Hx in Hy. injection Hy as <-. split; [| by rewrite Hsx, Hs].
      exists x'. rewrite Hsame2 by set_solver. unfold s1, unsent. cbn. by rewrite lookup_insert_eq, Hw.
    + destruct (Hl2 g y Hg2 Hy) as [Hy1 Hne]. destruct (Hr2 g y Hg2 Hy1) as [? Hsy].
      split; [done |]. rewrite Hsy. unfold s1. cbn. by rewrite Hoth.
Qed.

Lemma wf_stdio_size headnode s l : wf_stdio headnode s l → (length l <= size (files s))%nat.
Proof.
  intros [_ Hnd Hfs]. rewrite <- size_dom. replace (length l) with (size (list_to_set (C := gset Z) l)).
  - apply subseteq_size. intros f. rewrite elem_of_list_to_set, elem_of_dom, Hfs. done.
  - apply size_list_to_set. by apply NoDup_cons in Hnd as [_ ?].
Qed.

(** The run of the loop over all streams. *)
Lemma fflush_all_run headnode fuel s l :
  wf_stdio headnode s l → streams_ok s → (patience (world s) + Z.to_nat BUFSIZ < fuel)%nat →
  ∃ r s', fflush_all headnode fuel s = Some (r, s') ∧ wf_stdio headnode s' l ∧ streams_ok s' ∧
    (r = 0 → ∀ f x, files s !! f = Some x →
      (∃ x', files s' !! f = Some x' ∧ unsent x' = []) ∧ sent (world s') (fd x) = sent (world s) (fd x) ++ unsent x).
Proof.
  intros Hwf Hok Hf. unfold fflush_all.
  erewrite bind_ok by (unfold next; rewrite (dll_first _ _ _ _ (ws_chain _ _ _ Hwf)); reflexivity).
  pose proof (wf_stdio_size _ _ _ Hwf).
  destruct (fflush_all_loop_spec headnode fuel l [] (S (size (files s))) 0 s Hwf Hok) as (r & s' & E & Hwf' & Hok' & _ & _ & Hr);
    [lia | done |].
  exists r, s'. split; [exact E |]. split_and!; try done. intros ->. destruct Hr as [_ Hr]; [done |].
  intros f x Hx. apply Hr; [| done]. apply (ws_files _ _ _ Hwf). eauto.
Qed.

(** [fflush(NULL)] visits every open stream and returns.  If it
    returns 0, the unwritten output of every stream has been sent to its
    descriptor, in order, and no stream has output left. *)
Theorem fflush_all_correct headnode fuel s l :
  wf_stdio headnode s l → streams_ok s → (patience (world s) + Z.to_nat BUFSIZ < fuel)%nat →
  ∃ r s', fflush_all headnode fuel s = Some (r, s') ∧ wf_stdio headnode s' l ∧ streams_ok s' ∧
    (r = 0 → ∀ f x, files s !! f = Some x →
      (∃ x', files s' !! f = Some x' ∧ unsent x' = []) ∧ sent (world s') (fd x) = sent (world s) (fd x) ++ unsent x).
Proof. apply fflush_all_run. Qed.
Lemma gcall_ok {A} (c : W → A * W) (s : @stdio W) a w :
  c (world s) = (a, w) → gcall c s = Some (a, set_world w s).
Proof. unfold gcall. by intros ->. Qed.

(** A stream just opened on the descriptor [d]. *)
Definition fresh_stream (d : Z) (x : FILE) : Prop :=
  in_ok x ∧ out_ok x ∧ fd x = d ∧ ready x = [] ∧ offset x = IO_UNGET_SLOP ∧ troubled x = false.

Lemma new_stream_fresh p b B d (tty : bool) :
  Z.of_nat (length B) = BUFSIZ + IO_UNGET_SLOP →
  fresh_stream d (mk_FILE p b B IO_UNGET_SLOP 0 BUFSIZ d (if tty then FLAG_LINE_BUF else 0)).
Proof.
  intros Hl. unfold fresh_stream. split; [split; [exact Hl | by destruct tty | done] |].
  split; [split; [exact Hl | done | done | done] |]. split_and!; try done. by destruct tty.
Qed.

Lemma length_new_buffer : Z.of_nat (length (replicate (Z.to_nat (BUFSIZ + IO_UNGET_SLOP)) 0)) = BUFSIZ + IO_UNGET_SLOP.
Proof. rewrite length_replicate. apply Z2Nat.id. done. Qed.

(** [__fxopen] either fails for lack of memory, leaving the streams
    and their list unchanged, or returns a new stream in a consistent, empty
    state at the front of the list. *)
Theorem fxopen_correct headnode d fl close_on_err s l :
  wf_stdio headnode s l → (alloc sizeof_FILE (world s)).1 ∉ headnode :: l →
  ∃ f s', __fxopen headnode d fl close_on_err s = Some (f, s') ∧
    ((f = 0 ∧ wf_stdio headnode s' l ∧ files s' = files s) ∨
     (f ≠ 0 ∧ wf_stdio headnode s' (f :: l) ∧ ∃ x, fresh_stream d x ∧ files s' = <[f := x]> (files s))).
Proof.
  intros Hwf Hf. assert (∀ w p, wf_stdio headnode (set_world w s) l) as Hworld by (by intros; destruct Hwf).
  assert (∀ g w, ∃ s', fxopen_err g d close_on_err (set_world w s) = Some (0, s') ∧ wf_stdio headnode s' l ∧ files s' = files s) as Herr.
  { intros g w. unfold fxopen_err. destruct (g =? 0), close_on_err; cbn [negb]; unfold gcall, gdo, mbind, st_bind, mret, st_ret;
      try destruct (sys_close _ _); eexists; (split; [reflexivity |]); split; try done; by destruct Hwf. }
  unfold __fxopen.
  destruct (alloc sizeof_FILE (world s)) as [f w1] eqn:E1. cbn [fst] in Hf. erewrite bind_ok by (by apply gcall_ok).
  destruct (Z.eqb_spec f 0) as [-> | Hf0]; [destruct (Herr 0 w1) as (s' & E & ? & ?); exists 0, s'; split; [exact E | by left] |].
  destruct (sys_lseek d 0 SEEK_CUR w1) as [p w2] eqn:E2. erewrite bind_ok by (by apply gcall_ok).
  destruct (alloc (BUFSIZ + IO_UNGET_SLOP) w2) as [b w3] eqn:E3. erewrite bind_ok by (by apply gcall_ok).
  destruct (b =? 0); [destruct (Herr f w3) as (s' & E & ? & ?); exists 0, s'; split; [exact E | by left] |].
  pose proof length_new_buffer as Hlen. set (B := replicate _ _) in *. clearbody B.
  erewrite bind_ok by reflexivity. cbn [files world set_world]. set (x := mk_FILE _ _ _ _ _ _ _ _).
  assert (fresh_stream d x) as Hx by (by apply new_stream_fresh). clearbody x.
  destruct Hwf as [Hch Hnd Hfs]. apply not_elem_of_cons in Hf as [Hfh Hfl].
  assert (NoDup (headnode :: f :: l)) as Hnd'.
  { apply NoDup_cons in Hnd as [Hh Hnd]. apply NoDup_cons. split; [set_solver | by apply NoDup_cons]. }
  unfold set_prev, set_next, gupd. do 1 erewrite bind_ok by reflexivity.
  erewrite bind_ok by (unfold next; cbn; by rewrite (dll_first _ _ _ _ Hch)).
  erewrite bind_ok by reflexivity. erewrite bind_ok by (unfold next; cbn; by rewrite lookup_insert_eq).
  do 2 erewrite bind_ok by reflexivity. eexists f, _. split; [reflexivity |]. right. split; [done |]. split.
  - split; cbn.
    + apply (dll_insert headnode (nxt s) (prv s) [] f l); done.
    + done.
    + intros g. rewrite lookup_insert. case_decide as Hg; [subst g; split; [eauto | set_solver] |]. rewrite <- Hfs. set_solver.
  - by exists x.
Qed.

(** [fclose] of an open stream flushes it, takes it off the list and
    out of the set of streams, and returns what [close] returned: a failed
    flush goes unnoticed, a successful one has sent all its output. *)
Theorem fclose_correct headnode fuel s l1 f l2 x :
  wf_stdio headnode s (l1 ++ f :: l2) → streams_ok s → files s !! f = Some x →
  (patience (world s) + Z.to_nat BUFSIZ < fuel)%nat →
  ∃ rf x' w', fflush fuel (x, world s) = Some (rf, (x', w')) ∧
    ∃ s', fclose fuel f s = Some ((sys_close (fd x) w').1, s') ∧ wf_stdio headnode s' (l1 ++ l2) ∧
      files s' = delete f (files s) ∧
      (rf = 0 → sent (world s') (fd x) = sent (world s) (fd x) ++ unsent x).
Proof.
  intros Hwf Hok Hx Hf. pose proof Hwf as [Hch Hnd Hfs].
  destruct (fflush_any fuel x (world s)) as (rf & x' & w' & E & Hp & Hoth & Hfd & Hok' & Hr); [by eapply Hok | done |].
  exists rf, x', w'. split; [done |]. unfold fclose. erewrite bind_ok by (by eapply on_file_ok).
  set (s1 := set_world w' _). assert (files s1 !! f = Some x') as Hx1 by (unfold s1; cbn; by rewrite lookup_insert_eq).
  erewrite bind_ok by (eapply on_file_ok; [exact Hx1 | reflexivity]). cbn [fst snd]. rewrite Hfd.
  destruct (sys_close (fd x) w') as [rv w3] eqn:Ec. erewrite bind_ok by (by apply gcall_ok).
  pose proof (dll_next headnode _ _ _ _ _ Hch) as Hn. pose proof (dll_prev headnode _ _ _ _ _ Hch) as Hpv.
  erewrite bind_ok by (unfold next; cbn; by rewrite Hn). erewrite bind_ok by (unfold prev; cbn; by rewrite Hpv).
  unfold set_prev, set_next, gupd, gdo. erewrite bind_ok by reflexivity.
  assert (f ∉ headnode :: l1 ++ l2) as Hfn.
  { apply NoDup_cons in Hnd as [Hh Hnd]. apply NoDup_app in Hnd as (_ & Hd & [? _]%NoDup_cons). set_solver. }
  assert (succ_of headnode l2 ≠ f ∧ pred_of headnode l1 ≠ f) as [Hsf Hpf].
  { pose proof (succ_of_in headnode l2). pose proof (pred_of_in headnode l1). split; intros Heq; set_solver. }
  erewrite bind_ok by (unfold prev; cbn; by rewrite lookup_insert_ne, Hpv).
  erewrite bind_ok by (unfold next; cbn; by rewrite Hn). erewrite bind_ok by reflexivity.
  erewrite bind_ok by (eapply on_file_ok; [cbn; apply lookup_insert_eq | reflexivity]).
  do 3 erewrite bind_ok by reflexivity. eexists. split; [reflexivity |]. cbn. split_and!.
  - split; cbn.
    + by apply (dll_remove headnode _ _ l1 f l2).
    + apply NoDup_cons in Hnd as [Hh Hnd]. apply NoDup_cons. split; [set_solver |].
      apply NoDup_app in Hnd as (H1 & Hd & [? ?]%NoDup_cons). apply NoDup_app. split_and!; try done. set_solver.
    + intros g. rewrite lookup_delete, !lookup_insert. specialize (Hfs g).
      repeat case_decide; subst; try done; [| set_solver]. split; [set_solver | by intros []].
  - apply map_eq. intros g. rewrite !lookup_delete, !lookup_insert. by repeat case_decide.
  - intros ->. destruct Hr as [(_ & _ & Hs) | [? _]]; [| done]. by rewrite !dealloc_sent, (close_sent _ _ _ _ Ec).
Qed.
(** [fdopen] tests the result of [fcntl(fd, F_GETFL)], which is the
    set of status flags, for 0: it fails for every descriptor that is not
    plainly read-only. *)
Theorem fdopen_refuses headnode oldflags d mode s :
  status (world s) d ≠ 0 → ∃ s', fdopen headnode oldflags d mode s = Some (0, s') ∧ files s' = files s.
Proof.
  intros Hst. unfold fdopen. pose proof (getfl d oldflags (world s)) as Hg.
  destruct (sys_fcntl d F_GETFL oldflags (world s)) as [r w1] eqn:E. erewrite bind_ok by (by apply gcall_ok).
  change F_GETFL with 3 in E. rewrite E in Hg. cbn [fst] in Hg. rewrite (proj2 (Z.eqb_neq _ _)) by congruence.
  eexists. by split; [reflexivity |].
Qed.
End theorems.

(** The modes of ISO C: a letter, then [+] and [b] in any order. *)
Theorem parse_open_mode_correct c rest :
  Forall (λ x, x ≠ 114 ∧ x ≠ 119 ∧ x ≠ 97) rest → c = 114 ∨ c = 119 ∨ c = 97 →
  __parse_open_mode (c :: rest) =
    Z.lor (if bool_decide (43 ∈ rest) then O_RDWR else if c =? 114 then O_RDONLY else O_WRONLY)
          (if c =? 119 then Z.lor O_CREAT O_TRUNC else if c =? 97 then Z.lor O_CREAT O_APPEND else 0).
Proof.
  intros Hr Hc. assert (∀ fl plus, parse_mode_loop rest plus fl = (plus || bool_decide (43 ∈ rest), fl)) as Hl.
  { induction Hr as [| x rest (H1 & H2 & H3) Hr IH]; intros fl plus; cbn [parse_mode_loop].
    - rewrite bool_decide_eq_false_2 by apply not_elem_of_nil. by rewrite orb_false_r.
    - rewrite (proj2 (Z.eqb_neq x 114)), (proj2 (Z.eqb_neq x 119)), (proj2 (Z.eqb_neq x 97)) by done.
      destruct (Z.eqb_spec x 43) as [-> | Hx].
      + rewrite IH, (bool_decide_eq_true_2 (43 ∈ 43 :: rest)) by set_solver. by rewrite orb_true_r.
      + rewrite IH. f_equal. f_equal. apply bool_decide_ext. set_solver. }
  unfold __parse_open_mode. destruct Hc as [-> | [-> | ->]]; cbn; rewrite Hl; by case_bool_decide.
Qed.

(** ** A kernel

    Every call of [read] and [write] takes the next number of a script: [-1]
    interrupts it, [-2] makes it fail, [n] limits it to [n] bytes (at least
    one); when the script is used up, calls succeed in full. *)
Record demo := mk_demo {
  d_script : list Z;
  d_sent : Z → list Z;
  d_input : Z → list Z;
  d_pos : Z → Z;
  d_next : Z;
}.

Definition demo_limit (n : Z) (w : demo) : sysres Z * list Z :=
  match d_script w with
  | [] => (Ret n, [])
  | a :: r => if a =? -1 then (Again, r) else if a =? -2 then (Fail, r) else (Ret (Z.min n (Z.max 1 a)), r)
  end.

Definition demo_write (fd : Z) (l : list Z) (w : demo) : sysres Z * demo :=
  let '(a, r) := demo_limit (Z.of_nat (length l)) w in
  (a, mk_demo r (match a with
                 | Ret n => λ d, if d =? fd then d_sent w d ++ take (Z.to_nat n) l else d_sent w d
                 | _ => d_sent w
                 end) (d_input w) (d_pos w) (d_next w)).

Definition demo_read (fd n : Z) (w : demo) : sysres (list Z) * demo :=
  let '(a, r) := demo_limit n w in
  match a with
  | Ret n => let l := take (Z.to_nat n) (d_input w fd) in
             (Ret l, mk_demo r (d_sent w) (λ d, if d =? fd then drop (Z.to_nat n) (d_input w d) else d_input w d)
                       (λ d, if d =? fd then d_pos w d + Z.of_nat (length l) else d_pos w d) (d_next w))
  | Again => (Again, mk_demo r (d_sent w) (d_input w) (d_pos w) (d_next w))
  | Fail => (Fail, mk_demo r (d_sent w) (d_input w) (d_pos w) (d_next w))
  end.

Definition demo_lseek (fd off whence : Z) (w : demo) : Z * demo :=
  let p := if whence =? SEEK_CUR then d_pos w fd + off else off in
  (p, mk_demo (d_script w) (d_sent w) (d_input w) (λ d, if d =? fd then p else d_pos w d) (d_next w)).

Definition demo_alloc (n : Z) (w : demo) : Z * demo :=
  (d_next w, mk_demo (d_script w) (d_sent w) (d_input w) (d_pos w) (d_next w + 1)).

(** Descriptors above 2 are open for reading and writing. *)
Global Instance demo_kernel : Kernel demo := {|
  sys_read := demo_read;
  sys_write := demo_write;
  sys_lseek := demo_lseek;
  sys_open _ _ w := (3, w);
  sys_close _ w := (0, w);
  sys_isatty fd _ := fd <? 3;
  sys_fcntl fd _ _ w := (if fd <? 3 then 0 else O_RDWR, w);
  alloc := demo_alloc;
  dealloc _ w := w;
|}.

Lemma demo_limit_spec n w a r : 0 <= n → demo_limit n w = (a, r) →
  (length r <= length (d_script w))%nat ∧
  match a with
  | Ret m => 0 <= m <= n ∧ (0 < n → 0 < m)
  | Again => (length r < length (d_script w))%nat
  | Fail => True
  end.
Proof.
  unfold demo_limit. intros Hn. destruct (d_script w) as [| x l]; [intros [= <- <-]; simpl; lia |].
  destruct (x =? -1); [intros [= <- <-]; simpl; lia |]. destruct (x =? -2); intros [= <- <-]; simpl; lia.
Qed.

Lemma demo_write_spec fd l w a w' : demo_write fd l w = (a, w') →
  (length (d_script w') <= length (d_script w))%nat ∧
  match a with
  | Ret n => 0 <= n <= Z.of_nat (length l) ∧ d_sent w' fd = d_sent w fd ++ take (Z.to_nat n) l ∧
             (∀ d, d ≠ fd → d_sent w' d = d_sent w d)
  | Again => d_sent w' = d_sent w ∧ (length (d_script w') < length (d_script w))%nat
  | Fail => d_sent w' = d_sent w
  end.
Proof.
  unfold demo_write. destruct (demo_limit _ w) as [b r] eqn:E. apply demo_limit_spec in E as [Hr Hb]; [| lia].
  intros [= <- <-]. cbn. split; [done |]. destruct b as [n | |]; [| done | done].
  split_and!; try lia; [by rewrite Z.eqb_refl |]. intros d Hd. by rewrite (proj2 (Z.eqb_neq _ _)).
Qed.

Lemma demo_read_spec fd n w a w' : 0 <= n → demo_read fd n w = (a, w') →
  (length (d_script w') <= length (d_script w))%nat ∧
  match a with
  | Ret l => Z.of_nat (length l) <= n ∧ d_input w fd = l ++ d_input w' fd ∧ (0 < n → l = [] → d_input w fd = []) ∧
             d_pos w' fd = d_pos w fd + Z.of_nat (length l)
  | Again => d_input w' = d_input w ∧ d_pos w' = d_pos w ∧ (length (d_script w') < length (d_script w))%nat
  | Fail => d_input w' = d_input w ∧ d_pos w' = d_pos w
  end.
Proof.
  intros Hn. unfold demo_read. destruct (demo_limit _ w) as [b r] eqn:E. apply demo_limit_spec in E as [Hr Hb]; [| lia].
  destruct b as [m | |]; intros [= <- <-]; cbn; split; try done. rewrite !Z.eqb_refl, take_drop. split_and!; try done.
  - rewrite length_take. lia.
  - intros Hn0 Hnil. destruct (d_input w fd) as [| x i]; [done |]. exfalso.
    destruct (Z.to_nat m) eqn:Em; [lia | done].
Qed.

Global Instance demo_laws : KernelLaws demo.
Proof.
  refine {| sent := d_sent; input := d_input; pos := d_pos; patience w := length (d_script w);
            status _ fd := if fd <? 3 then 0 else O_RDWR |}.
  - intros fd l w n w' E. apply demo_write_spec in E as (? & ? & ? & ?). done.
  - intros fd l w w' E. by apply demo_write_spec in E as (_ & ?).
  - intros fd l w w' E. by apply demo_write_spec in E as (? & ?).
  - intros fd n w l w' Hn E. apply demo_read_spec in E as (? & ? & ? & ? & ?); [| lia]. split_and!; auto.
  - intros fd n w w' E. unfold sys_read in E. cbn in E. unfold demo_read in E. destruct (demo_limit n w) as [[m | |] r] eqn:El; try done.
    injection E as <-. split_and!; try done. unfold demo_limit in El.
    destruct (d_script w) as [| x l]; [done |]. repeat case_if; simplify_eq. cbn. lia.
  - intros fd n w w' E. unfold sys_read in E. cbn in E. unfold demo_read in E. destruct (demo_limit n w) as [[m | |] r] eqn:El; try done.
    injection E as <-. split_and!; try done. unfold demo_limit in El.
    destruct (d_script w) as [| x l]; [done |]. repeat case_if; simplify_eq. cbn. lia.
  - intros fd off w p w' [= <- <-] _. cbn. by rewrite Z.eqb_refl.
  - intros fd off w p w' [= <- <-] _. cbn. by rewrite Z.eqb_refl.
  - done.
  - by intros fd off wh w p w' [= <- <-].
  - by intros fd w r w' [= <- <-].
  - done.
Defined.

(** ** Examples *)

Definition demo_buffer : list Z := replicate (Z.to_nat (BUFSIZ + IO_UNGET_SLOP)) 0.
Definition demo_file (fl : Z) : FILE := mk_FILE 0 8 demo_buffer IO_UNGET_SLOP 0 BUFSIZ 1 fl.
Definition demo_world (script inp : list Z) : demo := mk_demo script (λ _, []) (λ _, inp) (λ _, 0) 16.
Definition demo_fuel : nat := Z.to_nat (BUFSIZ + 100).

Lemma demo_file_in fl : flag FLAG_WRITE (demo_file fl) = false → in_ok (demo_file fl).
Proof. intros Hf. split; [exact length_new_buffer | exact Hf | done]. Qed.

Lemma demo_file_out fl : out_ok (demo_file fl).
Proof. split; [exact length_new_buffer | done | done | done]. Qed.

Lemma demo_fuel_enough n : (n < 100)%nat → (n + Z.to_nat BUFSIZ < demo_fuel)%nat.
Proof. intros Hn. unfold demo_fuel. rewrite Z2Nat.inj_add by done. lia. Qed.

Lemma demo_fuel_small n : (n < 100)%nat → (n < demo_fuel)%nat.
Proof. intros Hn. pose proof (demo_fuel_enough n Hn). lia. Qed.

(** A line-buffered stream: "hi" and a newline are sent, with one byte written
    first and one interruption. *)
Lemma fwrite_correct_witness :
  ∃ r f' w', _fwrite demo_fuel [104; 105; 10] (demo_file FLAG_LINE_BUF, demo_world [1; -1] []) = Some (r, (f', w')) ∧
    (troubled f' = true ∨ (r = 3 ∧ sent w' 1 ++ pending f' = [104; 105; 10] ∧ 10 ∉ pending f')).
Proof.
  destruct (fwrite_correct demo_fuel [104; 105; 10] (demo_file FLAG_LINE_BUF) (demo_world [1; -1] []))
    as (r & f' & w' & E & _ & _ & _ & _ & _ & Hr).
  - apply demo_file_out.
  - done.
  - apply (demo_fuel_enough 5). lia.
  - exists r, f', w'. split; [exact E |]. destruct Hr as [? | (-> & _ & Hs & Hn)]; [by left | right].
    split; [done |]. split; [exact Hs | apply Hn; [reflexivity | reflexivity | do 2 apply list_elem_of_further; apply list_elem_of_here]].
Defined.

Lemma fread_correct_witness :
  ∃ l f' w', _fread demo_fuel 3 (demo_file 0, demo_world [-1; 2] [97; 98; 99; 100]) = Some (l, (f', w')) ∧
    delivered (demo_file 0) (demo_world [-1; 2] [97; 98; 99; 100]) 3 l f' w'.
Proof.
  apply (fread_correct demo_fuel 3 (demo_file 0) (demo_world [-1; 2] [97; 98; 99; 100])).
  - by apply demo_file_in.
  - done.
  - apply (demo_fuel_small 6). lia.
Defined.

Lemma fgets_correct_witness :
  ∃ ok line f' w', fgets demo_fuel 80 (demo_file 0, demo_world [] [97; 98]) = Some ((ok, line ++ [0]), (f', w')) ∧
    Z.of_nat (length line) < 80.
Proof.
  destruct (fgets_correct demo_fuel 80 (demo_file 0) (demo_world [] [97; 98])) as (ok & line & f' & w' & E & _ & _ & _ & Hl & _).
  - by apply demo_file_in.
  - by repeat constructor.
  - apply (demo_fuel_small 2). lia.
  - done.
  - exists ok, line, f', w'. split; [exact E | exact Hl].
Defined.

Lemma ungetc_correct_witness :
  ∃ f', (unget_all [97; 98];; _fread demo_fuel 2) (demo_file 0, demo_world [] [99]) = Some ([97; 98], (f', demo_world [] [99])) ∧
    filepos f' = 2.
Proof.
  destruct (ungetc_correct demo_fuel [97; 98] (demo_file 0) (demo_world [] [99])) as (f' & E & _ & _ & Hp).
  - by apply demo_file_in.
  - done.
  - apply (demo_fuel_small 3). lia.
  - exists f'. split; [exact E | exact Hp].
Defined.

Lemma fseek_position_witness :
  ∃ f', fseek demo_fuel 5 SEEK_CUR (set_bytes 3 (demo_file 0), mk_demo [] (λ _, []) (λ _, []) (λ _, 3) 16) =
      Some (0, (f', mk_demo [] (λ _, []) (λ _, []) (λ d, if d =? 1 then 8 else 3) 16)) ∧ filepos f' = 8.
Proof.
  destruct (fseek_position demo_fuel 5 SEEK_CUR (set_bytes 3 (demo_file 0)) (mk_demo [] (λ _, []) (λ _, []) (λ _, 3) 16)
              8 (mk_demo [] (λ _, []) (λ _, []) (λ d, if d =? 1 then 8 else 3) 16)) as (f' & E & _ & _ & _ & Hc).
  - split; [exact length_new_buffer | done | done].
  - done.
  - done.
  - done.
  - exists f'. split; [exact E |]. by destruct (Hc eq_refl) as [-> _].
Defined.

(** The first byte is sent, then [write] fails; the next flush sends that byte
    again instead of the second one. *)
Definition demo_output : FILE :=
  mk_FILE 2 8 ([97; 98] ++ replicate (Z.to_nat (BUFSIZ + IO_UNGET_SLOP - 2)) 0) IO_UNGET_SLOP 2 BUFSIZ 1 FLAG_WRITE.

Lemma demo_output_ok : out_ok demo_output.
Proof.
  split; [| done | done | done]. unfold demo_output. cbn [buf]. rewrite length_app, length_replicate, Nat2Z.inj_add, Z2Nat.id by done.
  cbn [length Z.of_nat]. lia.
Qed.

Lemma result_inv {A B} (o : option (A * B)) a : fst <$> o = Some a → ∃ b, o = Some (a, b).
Proof. destruct o as [[a' b] |]; [intros [= ->]; eauto | done]. Qed.

Lemma fflush_after_failure_witness :
  ∃ f1 w1 f2 w2 k, fflush demo_fuel (demo_output, demo_world [1; -2] []) = Some (EOF, (f1, w1)) ∧
    fflush demo_fuel (f1, w1) = Some (0, (f2, w2)) ∧ 0 <= k < 2 ∧
    sent w2 1 = take (Z.to_nat k) [97; 98] ++ take (Z.to_nat (2 - k)) [97; 98].
Proof.
  assert (fst <$> fflush demo_fuel (demo_output, demo_world [1; -2] []) = Some EOF) as H1 by (vm_compute; reflexivity).
  assert (fst <$> (_ ← fflush demo_fuel; fflush demo_fuel) (demo_output, demo_world [1; -2] []) = Some 0) as H2 by (vm_compute; reflexivity).
  destruct (result_inv _ _ H1) as [[f1 w1] E1]. pose proof (bind_ok _ (λ _, fflush demo_fuel) _ _ _ E1) as E.
  rewrite E in H2. destruct (result_inv _ _ H2) as [[f2 w2] E2].
  destruct (fflush_after_failure demo_fuel demo_output (demo_world [1; -2] []) f1 w1 f2 w2) as (k & Hk & Hs).
  - apply demo_output_ok.
  - apply (demo_fuel_enough 2). lia.
  - exact E1.
  - exact E2.
  - exists f1, w1, f2, w2, k. split; [done |]. split; [exact E2 |]. split; [exact Hk | exact Hs].
Defined.

(** One open stream at address 8 with two bytes of output; the head node is at 4. *)
Definition demo_stdio (script : list Z) : @stdio demo :=
  mk_stdio {[ 8 := demo_output ]} (<[4 := 8]> {[ 8 := 4 ]}) (<[4 := 8]> {[ 8 := 4 ]}) 0 8 0 (demo_world script []).

Lemma demo_stdio_wf script : wf_stdio 4 (demo_stdio script) [8].
Proof.
  split.
  - repeat split; reflexivity.
  - apply NoDup_cons. split; [set_solver | apply NoDup_singleton].
  - intros f. cbn [files demo_stdio]. rewrite list_elem_of_singleton, lookup_singleton_is_Some. done.
Qed.

Lemma demo_stdio_ok script : streams_ok (demo_stdio script).
Proof.
  split; cbn [files demo_stdio].
  - intros f x [_ <-]%lookup_singleton_Some. left. apply demo_output_ok.
  - intros f g x y [<- _]%lookup_singleton_Some [<- _]%lookup_singleton_Some. done.
Qed.

Lemma fflush_all_correct_witness :
  ∃ r s', fflush_all 4 demo_fuel (demo_stdio [1; -1]) = Some (r, s') ∧ wf_stdio 4 s' [8] ∧
    (r = 0 → sent (world s') 1 = [97; 98]).
Proof.
  destruct (fflush_all_correct 4 demo_fuel (demo_stdio [1; -1]) [8]) as (r & s' & E & Hwf & _ & Hr).
  - apply demo_stdio_wf.
  - apply demo_stdio_ok.
  - apply (demo_fuel_enough 2). lia.
  - exists r, s'. split; [exact E |]. split; [exact Hwf |]. intros H0.
    destruct (Hr H0 8 demo_output (lookup_singleton_eq 8 demo_output)) as [_ Hs]. exact Hs.
Defined.

Lemma fxopen_correct_witness :
  ∃ f s', __fxopen 4 3 O_RDONLY true (demo_stdio []) = Some (f, s') ∧
    ((f = 0 ∧ wf_stdio 4 s' [8]) ∨ wf_stdio 4 s' [f; 8]).
Proof.
  destruct (fxopen_correct 4 3 O_RDONLY true (demo_stdio []) [8]) as (f & s' & E & Hr).
  - apply demo_stdio_wf.
  - cbn. set_solver.
  - exists f, s'. split; [exact E |]. destruct Hr as [(? & ? & _) | (_ & ? & _)]; [by left | by right].
Defined.

Lemma fclose_correct_witness :
  ∃ s', fclose demo_fuel 8 (demo_stdio []) = Some (0, s') ∧ wf_stdio 4 s' [].
Proof.
  destruct (fclose_correct 4 demo_fuel (demo_stdio []) [] 8 [] demo_output) as (rf & x' & w' & _ & s' & E & Hwf & _).
  - apply demo_stdio_wf.
  - apply demo_stdio_ok.
  - apply lookup_singleton_eq.
  - apply (demo_fuel_enough 0). lia.
  - exists s'. split; [exact E | exact Hwf].
Defined.

Lemma fdopen_refuses_witness :
  ∃ s', fdopen 4 0 3 [119] (demo_stdio []) = Some (0, s') ∧ files s' = {[ 8 := demo_output ]}.
Proof. apply (fdopen_refuses 4 0 3 [119] (demo_stdio [])). done. Defined.
