(* ===== verification/Getopt.v ===== *)
(** * Option parsing: [klibc/getopt.c] and [klibc/getopt_long.c]

    The arguments are strings with their addresses, because the code decides
    by pointer arithmetic whether [pvt.optptr] points into the current
    argument.  Both functions keep the same static state; the part that
    handles the one-letter options is the same text in both files. *)

From stdpp Require Import base numbers list gmap.
From Stdlib Require Import Lia.
From S2P Require Import Prelude.

(** Signed characters, without the terminator. *)
Abbreviation str := (list Z).

(** A string in memory: its address and its text. *)
Abbreviation cptr := (Z * str)%type.

(** [optarg], [optind], [optopt] and [struct getopt_private_state]. *)
Record gstate := mk_gstate {
  optarg : option cptr;
  optind : Z;
  optopt : Z;
  optptr : Z;
  last_optstring : Z;
  last_argv : Z;
}.

Abbreviation O := (st gstate).

Definition set_optarg (v : option cptr) (s : gstate) :=
  mk_gstate v (optind s) (optopt s) (optptr s) (last_optstring s) (last_argv s).
Definition set_optind (v : Z) (s : gstate) :=
  mk_gstate (optarg s) v (optopt s) (optptr s) (last_optstring s) (last_argv s).
Definition set_optopt (v : Z) (s : gstate) :=
  mk_gstate (optarg s) (optind s) v (optptr s) (last_optstring s) (last_argv s).
Definition set_optptr (v : Z) (s : gstate) :=
  mk_gstate (optarg s) (optind s) (optopt s) v (last_optstring s) (last_argv s).

Definition getst : O gstate := λ s, Some (s, s).
Definition modify (f : gstate → gstate) : O unit := λ s, Some (tt, f s).

(** ** Strings *)

(** [s[i]]: the terminator is readable, anything else outside is a fault. *)
Definition char_at (s : str) (i : Z) : option Z :=
  if bool_decide (0 <= i < Z.of_nat (length s)) then s !! Z.to_nat i
  else if i =? Z.of_nat (length s) then Some 0 else None.

Definition lift {A} (o : option A) : O A := λ s, match o with Some a => Some (a, s) | None => None end.

(** [strchr(s, c)] as an index; the terminator is part of the string. *)
Fixpoint strchr_from (s : str) (c i : Z) : option Z :=
  match s with
  | [] => if c =? 0 then Some i else None
  | d :: s => if d =? c then Some i else strchr_from s c (i + 1)
  end.

(** [argv[i]]: the null pointer behind the last argument is readable. *)
Definition argv_at (args : list cptr) (i : Z) : option (option cptr) :=
  if bool_decide (0 <= i < Z.of_nat (length args)) then Some (args !! Z.to_nat i)
  else if i =? Z.of_nat (length args) then Some None else None.

(** ** The code *)

Section code.
(* argv and optstring as pointers, and what they point to *)
Context (argv optstring_p : Z) (args : list cptr) (optstring : str).

(** The query state is reset when the arguments have changed. *)
Definition check_query (argc : Z) : O unit :=
  modify (λ s,
    if negb (optstring_p =? last_optstring s) || negb (argv =? last_argv s) || (optind s <? 1) || (argc <? optind s)
    then mk_gstate (optarg s) 1 (optopt s) 0 optstring_p argv
    else s).

(** The option letter at [pvt.optptr], in the argument [carg]. *)
Definition at_letter (carg : cptr) : O Z :=
  let '(a, text) := carg in
  s ← getst;
  opt ← lift (char_at text (optptr s - a));
  modify (λ s, set_optptr (optptr s + 1) s);;
  s ← getst;
  let osptr := if opt =? 58 then None else strchr_from optstring opt 0 in
  match osptr with
  | Some i =>
      colon ← lift (char_at optstring (i + 1));
      next ← lift (char_at text (optptr s - a));
      if colon =? 58 then
        if negb (next =? 0) then
          modify (set_optarg (Some (optptr s, drop (Z.to_nat (optptr s - a)) text)));;
          modify (λ s, set_optind (optind s + 1) s);;
          mret opt
        else
          arg ← lift (argv_at args (optind s + 1));
          match arg with
          | Some _ =>
              modify (set_optarg arg);;
              modify (λ s, set_optind (optind s + 2) s);;
              mret opt
          | None =>
              modify (λ s, set_optind (optind s + 1) s);;
              first ← lift (char_at optstring 0);
              mret (if first =? 58 then 58 else 63)
          end
      else
        (if next =? 0 then modify (λ s, set_optind (optind s + 1) s) else mret tt);;
        mret opt
  | None =>
      modify (set_optopt opt);;
      next ← lift (char_at text (optptr s - a));
      (if next =? 0 then modify (λ s, set_optind (optind s + 1) s) else mret tt);;
      mret 63
  end.

(** The one-letter options of the argument [carg]. *)
Definition short_option (carg : cptr) : O Z :=
  let '(a, text) := carg in
  s ← getst;
  (if Z.of_nat (length text) <? u64 (optptr s - a) then modify (set_optptr (a + 1)) else mret tt);;
  at_letter carg.

Definition getopt (argc : Z) : O Z :=
  check_query argc;;
  s ← getst;
  carg ← lift (argv_at args (optind s));
  match carg with
  | None => mret (-1)
  | Some (a, text) =>
      match text with
      | d :: c :: cl =>
          if negb (d =? 45) then mret (-1)
          else if (c =? 45) && bool_decide (cl = []) then
            modify (λ s, set_optind (optind s + 1) s);; mret (-1)
          else short_option (a, text)
      | _ => mret (-1)
      end
  end.

(** [struct option]; [flag] is the identity of the variable to set, if any. *)
Record option_desc := mk_option {
  opt_name : str;
  has_arg : Z;
  opt_flag : option Z;
  opt_val : Z;
}.

(** The rest of the argument behind the name, if it matches. *)
Fixpoint option_matches (arg_str name : str) : option str :=
  match arg_str with
  | [] => match name with [] => Some [] | _ => None end
  | c :: arg' =>
      if c =? 61 then match name with [] => Some arg_str | _ => None end
      else match name with
           | d :: name' => if c =? d then option_matches arg' name' else None
           | [] => None
           end
  end.

(** The loop over [longopts], which ends with a null name. *)
Fixpoint find_long (arg_str : str) (longopts : list option_desc) (i : Z) : option (Z * option_desc * str) :=
  match longopts with
  | [] => None
  | lo :: longopts =>
      match option_matches arg_str (opt_name lo) with
      | Some rest => Some (i, lo, rest)
      | None => find_long arg_str longopts (i + 1)
      end
  end.

(** [longindex] and the [flag] variables are returned beside the result. *)
Definition getopt_long (argc : Z) (longopts : list option_desc) : O (Z * option Z * option (Z * Z)) :=
  check_query argc;;
  s ← getst;
  carg ← lift (argv_at args (optind s));
  match carg with
  | None => mret (-1, None, None)
  | Some (a, text) =>
      match text with
      | d :: c :: name =>
          if negb (d =? 45) then mret (-1, None, None)
          else if c =? 45 then
            modify (λ s, set_optind (optind s + 1) s);;
            match name with
            | [] => mret (-1, None, None)
            | _ =>
                match find_long name longopts 0 with
                | None => mret (63, None, None)
                | Some (i, lo, rest) =>
                    let found := mret (match opt_flag lo with
                                       | Some v => (0, Some i, Some (v, opt_val lo))
                                       | None => (opt_val lo, Some i, None)
                                       end) in
                    if bool_decide (head rest = Some 61) then
                      let value := tail rest in
                      if has_arg lo =? 0 then mret (63, Some i, None)
                      else
                        modify (set_optarg (Some (a + Z.of_nat (length text - length value), value)));;
                        found
                    else if has_arg lo =? 1 then
                      s ← getst;
                      arg ← lift (argv_at args (optind s));
                      modify (set_optarg arg);;
                      match arg with
                      | None => mret (63, Some i, None)
                      | Some _ => modify (λ s, set_optind (optind s + 1) s);; found
                      end
                    else found
                end
            end
          else r ← short_option (a, text); mret (r, None, None)
      | _ => mret (-1, None, None)
      end
  end.
End code.

(** ** The specification: what the argument list means *)

Inductive event :=
| Opt (c : Z) (arg : option str)      (* an option, with its argument *)
| Missing (c : Z)                     (* an option without the argument it needs *)
| Unknown (c : Z)                     (* not an option letter *)
| Done.                               (* no more options *)

Global Instance event_eq_dec : EqDecision event.
Proof. solve_decision. Defined.

Section specification.
Context (optstring : str).

(** [None]: not an option letter; otherwise whether it takes an argument. *)
Definition takes_arg (c : Z) : option bool :=
  if c =? 58 then None
  else match list_find (c =.) optstring with
       | Some (i, _) => Some (bool_decide (optstring !! S i = Some 58))
       | None => None
       end.

(** One letter [c] of a cluster whose remaining letters are [cl], before the
    arguments [rest]. *)
Definition letter (c : Z) (cl : str) (rest : list str) : event * (str * list str) :=
  match takes_arg c with
  | Some true =>
      match cl, rest with
      | _ :: _, _ => (Opt c (Some cl), ([], rest))
      | [], a :: rest => (Opt c (Some a), ([], rest))
      | [], [] => (Missing c, ([], []))
      end
  | Some false => (Opt c None, (cl, rest))
  | None => (Unknown c, (cl, rest))
  end.

(** The next event, from the letters left in the current cluster and the
    arguments behind it. *)
Definition next_event (cl : str) (rest : list str) : event * (str * list str) :=
  match cl, rest with
  | c :: cl, _ => letter c cl rest
  | [], (d :: c :: cl) :: rest' =>
      if negb (d =? 45) then (Done, ([], rest))
      else if (c =? 45) && bool_decide (cl = []) then (Done, ([], rest'))
      else letter c cl rest'
  | [], _ => (Done, ([], rest))
  end.

(** All events up to the end of the options, and the operands. *)
Fixpoint events (n : nat) (cl : str) (rest : list str) : option (list event * list str) :=
  match n with
  | 0%nat => None
  | S n =>
      match next_event cl rest with
      | (Done, (_, rest)) => Some ([], rest)
      | (e, (cl, rest)) => '(es, ops) ← events n cl rest; Some (e :: es, ops)
      end
  end.

Definition work (cl : str) (rest : list str) : nat := length cl + sum_list_with length rest.

Lemma letter_work c cl rest e cl' rest' :
  letter c cl rest = (e, (cl', rest')) → (work cl' rest' <= work cl rest)%nat ∧ e ≠ Done.
Proof.
  unfold letter, work. destruct (takes_arg c) as [[] |]; [| intros [= <- <- <-]; split; lia || done..].
  destruct cl as [| d cl]; [destruct rest as [| a rest] |]; intros [= <- <- <-]; simpl; split; (lia || done).
Qed.

Lemma next_event_work cl rest e cl' rest' :
  next_event cl rest = (e, (cl', rest')) → e ≠ Done → (work cl' rest' < work cl rest)%nat.
Proof.
  unfold next_event. destruct cl as [| c cl]; [| intros [Hw _]%letter_work _; unfold work in *; simpl; lia].
  destruct rest as [| [| d [| c cl]] rest]; try (by intros [= <- _ _]).
  destruct (negb (d =? 45)); [by intros [= <- _ _] |]. destruct ((c =? 45) && bool_decide (cl = [])); [by intros [= <- _ _] |].
  intros [Hw _]%letter_work _. unfold work in *. simpl. lia.
Qed.

(** The specification is total. *)
Lemma events_total n cl rest : (work cl rest < n)%nat → ∃ es ops, events n cl rest = Some (es, ops).
Proof.
  revert cl rest. induction n as [| n IH]; intros cl rest Hn; [lia |]. cbn [events].
  destruct (next_event cl rest) as [e [cl' rest']] eqn:E.
  destruct (decide (e = Done)) as [-> | He]; [eauto |].
  destruct (IH cl' rest') as (es & ops & Ee); [pose proof (next_event_work _ _ _ _ _ E He); lia |].
  exists (e :: es), ops. destruct e; try done; by rewrite Ee.
Qed.
End specification.

(** ** The code implements the specification *)

Lemma char_at_lookup s n c : s !! n = Some c → char_at s (Z.of_nat n) = Some c.
Proof.
  intros Hn. pose proof (lookup_lt_Some _ _ _ Hn). unfold char_at.
  rewrite bool_decide_eq_true_2 by lia. by rewrite Nat2Z.id.
Qed.

Lemma char_at_end s : char_at s (Z.of_nat (length s)) = Some 0.
Proof. unfold char_at. rewrite bool_decide_eq_false_2 by lia. by rewrite Z.eqb_refl. Qed.

Lemma strchr_from_spec s c : c ≠ 0 → ∀ i,
  strchr_from s c i = match list_find (c =.) s with Some (n, _) => Some (i + Z.of_nat n) | None => None end.
Proof.
  intros Hc. induction s as [| d s IH]; intros i; cbn [strchr_from list_find].
  - by rewrite (proj2 (Z.eqb_neq _ _)).
  - destruct (Z.eqb_spec d c) as [-> | Hd].
    + rewrite decide_True by done. f_equal. lia.
    + rewrite decide_False by congruence. rewrite IH. destruct (list_find _ s) as [[n x] |]; simpl; [f_equal; lia | done].
Qed.

(** The character behind a position of a string, and whether it is [c]. *)
Lemma char_after s n c : c ≠ 0 → (n < length s)%nat →
  ∃ v, char_at s (Z.of_nat n + 1) = Some v ∧ (v =? c) = bool_decide (s !! S n = Some c).
Proof.
  intros Hc Hn. replace (Z.of_nat n + 1) with (Z.of_nat (S n)) by lia. destruct (s !! S n) as [v |] eqn:E.
  - exists v. split; [by apply char_at_lookup |]. destruct (Z.eqb_spec v c); case_bool_decide; congruence.
  - apply lookup_ge_None in E. replace (S n) with (length s) by lia. exists 0. split; [apply char_at_end |].
    rewrite (proj2 (Z.eqb_neq 0 c)) by done. done.
Qed.

Lemma first_char s : ∃ v, char_at s 0 = Some v ∧ (v =? 58) = bool_decide (head s = Some 58).
Proof.
  destruct s as [| c s]; [by exists 0 |]. exists c. split; [by apply (char_at_lookup _ 0) |]. simpl.
  destruct (Z.eqb_spec c 58); case_bool_decide; congruence.
Qed.

(** The return value of [getopt] for an event, and what it leaves in the globals. *)
Definition ret_of (optstring : str) (e : event) : Z :=
  match e with
  | Opt c _ => c
  | Missing _ => if bool_decide (head optstring = Some 58) then 58 else 63
  | Unknown _ => 63
  | Done => -1
  end.

Definition leaves (e : event) (s : gstate) : Prop :=
  match e with
  | Opt _ (Some arg) => snd <$> optarg s = Some arg
  | Unknown c => optopt s = c
  | _ => True
  end.

Section proofs.
Context (argv optstring_p : Z) (args : list cptr) (optstring : str).

(** The strings lie in memory one beside the other, each with its terminator. *)
Record good_args : Prop := mk_good {
  ga_args : ∀ i a t, args !! i = Some (a, t) → 0 < a ∧ a + Z.of_nat (length t) < 2 ^ 64 ∧ Forall (λ c, c ≠ 0) t;
  ga_apart : ∀ i j a t b u, args !! i = Some (a, t) → args !! j = Some (b, u) → i ≠ j →
    a + Z.of_nat (length t) < b ∨ b + Z.of_nat (length u) < a;
}.
Context (Hargs : good_args).

(** [pvt.optptr] points into none of the arguments from the [i]-th on. *)
Definition away (p : Z) (i : nat) : Prop :=
  ∀ j a t, (i <= j)%nat → args !! j = Some (a, t) → Z.of_nat (length t) < u64 (p - a).

(** The state of [getopt] when the letters [cl] of the current argument and
    the arguments [rest] are still to be read. *)
Definition tracks (s : gstate) (cl : str) (rest : list str) : Prop :=
  last_optstring s = optstring_p ∧ last_argv s = argv ∧
  ∃ i, optind s = Z.of_nat i ∧ (1 <= i <= length args)%nat ∧
    if bool_decide (cl = []) then rest = snd <$> drop i args ∧ away (optptr s) i
    else rest = snd <$> drop (S i) args ∧
      ∃ a pre, args !! i = Some (a, 45 :: pre ++ cl) ∧ pre ≠ [] ∧ optptr s = a + 1 + Z.of_nat (length pre).

Lemma away_after i a t p : args !! i = Some (a, t) → a <= p <= a + Z.of_nat (length t) → away p (S i).
Proof using Hargs.
  intros Hi Hp j b u Hj Hb. destruct (ga_args Hargs _ _ _ Hi) as (? & ? & _). destruct (ga_args Hargs _ _ _ Hb) as (? & ? & _).
  destruct (ga_apart Hargs i j _ _ _ _ Hi Hb) as [Hlt | Hlt]; [lia | |].
  - unfold wrapu. rewrite <- (Z_mod_plus_full (p - b) 1), Z.mod_small by lia. lia.
  - unfold wrapu. rewrite Z.mod_small by lia. lia.
Qed.

Lemma away_weaken p i j : (i <= j)%nat → away p i → away p j.
Proof using Type. intros Hij Ha k a t Hk. apply Ha. lia. Qed.

Lemma argv_at_drop i : (i <= length args)%nat →
  argv_at args (Z.of_nat i) = Some (args !! i) ∧ snd <$> drop i args = match args !! i with Some (_, t) => t :: (snd <$> drop (S i) args) | None => [] end.
Proof using Type.
  intros Hi. unfold argv_at. destruct (args !! i) as [[a t] |] eqn:E.
  - pose proof (lookup_lt_Some _ _ _ E). rewrite bool_decide_eq_true_2 by lia. rewrite Nat2Z.id, E. split; [done |].
    by rewrite (drop_S _ _ _ E).
  - apply lookup_ge_None in E. rewrite bool_decide_eq_false_2 by lia. rewrite (proj2 (Z.eqb_eq _ _)) by lia.
    split; [done |]. by rewrite drop_ge.
Qed.

(** After the last letter of an argument, or an option argument. *)
Lemma tracks_next s i k a t :
  last_optstring s = optstring_p → last_argv s = argv → args !! i = Some (a, t) → a <= optptr s <= a + Z.of_nat (length t) →
  optind s = Z.of_nat k → (i < k <= length args)%nat → tracks s [] (snd <$> drop k args).
Proof using Hargs.
  intros H1 H2 Hi Hp Hk Hle. split; [done |]. split; [done |]. exists k. split; [done |]. split; [lia |].
  rewrite bool_decide_eq_true_2 by done. split; [done |]. apply (away_weaken _ (S i)); [lia |]. by eapply away_after.
Qed.
(** The letters behind the current one stay in the same argument. *)
Lemma tracks_letter s i a pre c cl :
  last_optstring s = optstring_p → last_argv s = argv → args !! i = Some (a, 45 :: pre ++ c :: cl) → (1 <= i)%nat →
  optptr s = a + 2 + Z.of_nat (length pre) → optind s = Z.of_nat (if bool_decide (cl = []) then S i else i) →
  tracks s cl (snd <$> drop (S i) args).
Proof using Hargs.
  intros H1 H2 Hi Hi1 Hp Hk. pose proof (lookup_lt_Some _ _ _ Hi). destruct (decide (cl = [])) as [-> | Hcl].
  - rewrite bool_decide_eq_true_2 in Hk by done. eapply tracks_next; try done; [| lia].
    cbn [length]. rewrite length_app. simpl. lia.
  - rewrite bool_decide_eq_false_2 in Hk by done. split; [done |]. split; [done |]. exists i. split; [done |]. split; [lia |].
    rewrite bool_decide_eq_false_2 by done. split; [done |]. exists a, (pre ++ [c]). rewrite <- app_assoc.
    split; [done |]. split; [by destruct pre |]. rewrite length_app. simpl. lia.
Qed.

Lemma next_char pre c (cl : str) : Forall (λ c, c ≠ 0) cl →
  ∃ v, char_at (45 :: pre ++ c :: cl) (Z.of_nat (length pre) + 2) = Some v ∧ (v =? 0) = bool_decide (cl = []).
Proof using Type.
  intros Hn. replace (Z.of_nat (length pre) + 2) with (Z.of_nat (S (length pre + 1))) by lia. destruct cl as [| d cl].
  - exists 0. split; [| done]. replace (S (length pre + 1)) with (length (45 :: pre ++ [c])) by (simpl; rewrite length_app; simpl; lia).
    apply char_at_end.
  - exists d. split.
    + apply char_at_lookup. change ((pre ++ c :: d :: cl) !! (length pre + 1)%nat = Some d). rewrite lookup_app_r by lia. by replace (length pre + 1 - length pre)%nat with 1%nat by lia.
    + apply Forall_cons in Hn as [Hd _]. by rewrite (proj2 (Z.eqb_neq d 0)).
Qed.

Lemma finish_letter s i a pre c cl nx :
  last_optstring s = optstring_p → last_argv s = argv → args !! i = Some (a, 45 :: pre ++ c :: cl) → (1 <= i)%nat →
  optind s = Z.of_nat i → optptr s = a + 2 + Z.of_nat (length pre) → (nx =? 0) = bool_decide (cl = []) →
  ∃ s', (if nx =? 0 then modify (λ s, set_optind (optind s + 1) s) else mret tt) s = Some (tt, s') ∧
    tracks s' cl (snd <$> drop (S i) args) ∧ optarg s' = optarg s ∧ optopt s' = optopt s.
Proof using Hargs.
  intros H1 H2 Hi Hi1 Hind Hptr ->. destruct (decide (cl = [])) as [Hcl | Hcl].
  - rewrite bool_decide_eq_true_2 by done. eexists. split; [reflexivity |]. split; [| done].
    eapply tracks_letter; try done; cbn. rewrite bool_decide_eq_true_2 by done. lia.
  - rewrite bool_decide_eq_false_2 by done. eexists. split; [reflexivity |]. split; [| done].
    eapply tracks_letter; try done; cbn. by rewrite bool_decide_eq_false_2.
Qed.

Lemma at_letter_spec s i a pre c cl :
  last_optstring s = optstring_p → last_argv s = argv → args !! i = Some (a, 45 :: pre ++ c :: cl) → (1 <= i)%nat →
  optind s = Z.of_nat i → optptr s = a + 1 + Z.of_nat (length pre) →
  let '(e, (cl', rest')) := letter optstring c cl (snd <$> drop (S i) args) in
  ∃ s', at_letter args optstring (a, 45 :: pre ++ c :: cl) s = Some (ret_of optstring e, s') ∧ tracks s' cl' rest' ∧ leaves e s'.
Proof using Hargs.
  intros H1 H2 Hi Hi1 Hind Hptr. pose proof (lookup_lt_Some _ _ _ Hi) as Hlt.
  destruct (ga_args Hargs _ _ _ Hi) as (Ha0 & Ha1 & Hnz). apply Forall_cons in Hnz as [_ Hnz].
  apply Forall_app in Hnz as [_ Hnz]. apply Forall_cons in Hnz as [Hc Hnz]. destruct (next_char pre c cl Hnz) as (nx & En & Hnx).
  unfold at_letter. erewrite bind_ok by reflexivity.
  erewrite bind_ok.
  2: { unfold lift. replace (optptr s - a) with (Z.of_nat (S (length pre))) by lia. rewrite (char_at_lookup _ _ c); [reflexivity |].
       change ((pre ++ c :: cl) !! length pre = Some c). by rewrite list_lookup_middle. }
  do 2 erewrite bind_ok by reflexivity. cbn [optptr set_optptr].
  replace (optptr s + 1 - a) with (Z.of_nat (length pre) + 2) by lia. rewrite En.
  assert (∀ s0, last_optstring s0 = optstring_p → last_argv s0 = argv → optind s0 = Z.of_nat i → optptr s0 = optptr s + 1 →
    ∃ s', (if nx =? 0 then modify (λ s, set_optind (optind s + 1) s) else mret tt) s0 = Some (tt, s') ∧
      tracks s' cl (snd <$> drop (S i) args) ∧ optarg s' = optarg s0 ∧ optopt s' = optopt s0) as Hfin
    by (intros s0 ????; eapply finish_letter; try done; lia).
  assert (∀ s0 e, e = Unknown c → last_optstring s0 = optstring_p → last_argv s0 = argv → optind s0 = Z.of_nat i → optptr s0 = optptr s + 1 →
    ∃ s', (modify (set_optopt c);; nx ← lift (Some nx); (if nx =? 0 then modify (λ s, set_optind (optind s + 1) s) else mret tt);; mret 63) s0
      = Some (ret_of optstring e, s') ∧ tracks s' cl (snd <$> drop (S i) args) ∧ leaves e s') as Hunk.
  { intros s0 e -> ????. do 2 erewrite bind_ok by reflexivity. destruct (Hfin (set_optopt c s0)) as (s' & E & Ht & _ & Ho); [done.. |].
    erewrite bind_ok by exact E. exists s'. split; [reflexivity |]. split; [done | exact Ho]. }
  unfold letter, takes_arg. rewrite strchr_from_spec by done. destruct (Z.eqb_spec c 58) as [Hcc | Hcc]; [by apply Hunk |].
  destruct (list_find (c =.) optstring) as [[n x] |] eqn:Ef; [| by apply Hunk].
  apply list_find_Some in Ef as (Hx & _ & _). pose proof (lookup_lt_Some _ _ _ Hx) as Hnl.
  destruct (char_after optstring n 58) as (col & Ecol & Hcol); [done.. |].
  rewrite Z.add_0_l, Ecol. do 2 erewrite bind_ok by reflexivity. rewrite Hcol. case_bool_decide as Hcolon.
  - destruct cl as [| d cl]; rewrite Hnx; cbn [bool_decide negb].
    + rewrite bool_decide_eq_true_2 by done. cbn [negb optind set_optptr]. rewrite Hind.
      replace (Z.of_nat i + 1) with (Z.of_nat (S i)) by lia. destruct (argv_at_drop (S i)) as [-> ->]; [lia |].
      destruct (args !! S i) as [[b u] |] eqn:Eb; erewrite bind_ok by reflexivity; cbv iota.
      * do 2 erewrite bind_ok by reflexivity. eexists. split; [reflexivity |]. split; [| done].
        pose proof (lookup_lt_Some _ _ _ Eb). eapply (tracks_next _ i (S (S i))); try done; cbn; [| lia | lia].
        rewrite length_app. simpl. lia.
      * apply lookup_ge_None in Eb. erewrite bind_ok by reflexivity.
        destruct (first_char optstring) as (v & Ev & Hv). rewrite Ev. erewrite bind_ok by reflexivity. rewrite Hv.
        eexists. split; [reflexivity | split; [| done]].
        replace (@nil str) with (snd <$> drop (S i) args) by (by rewrite drop_ge).
        eapply (tracks_next _ i (S i)); try done; cbn; [| lia | lia]. rewrite length_app. simpl. lia.
    + rewrite bool_decide_eq_false_2 by done. cbn [negb]. do 2 erewrite bind_ok by reflexivity.
      eexists. split; [reflexivity |]. split.
      * eapply (tracks_next _ i (S i)); try done; cbn; [| lia | lia]. rewrite length_app. simpl. lia.
      * cbn. f_equal. replace (Z.to_nat (Z.of_nat (length pre) + 2)) with (S (length pre + 1)) by lia. cbn [drop].
        rewrite drop_app_ge by lia. by replace (length pre + 1 - length pre)%nat with 1%nat by lia.
  - destruct (Hfin (set_optptr (optptr s + 1) s)) as (s' & E & Ht & _); [done.. |]. erewrite bind_ok by exact E.
    exists s'. split; [reflexivity |]. done.
Qed.
(** A query the state does not belong to. *)
Definition new_query (s : gstate) : Prop :=
  last_optstring s ≠ optstring_p ∨ last_argv s ≠ argv ∨ optind s < 1 ∨ Z.of_nat (length args) < optind s.

Lemma check_query_new s : new_query s → args ≠ [] →
  ∃ s', check_query argv optstring_p (Z.of_nat (length args)) s = Some (tt, s') ∧ tracks s' [] (snd <$> drop 1 args).
Proof using Hargs.
  intros Hq Hne. unfold check_query, modify. eexists. split; [reflexivity |].
  assert (negb (optstring_p =? last_optstring s) || negb (argv =? last_argv s) || (optind s <? 1) || (Z.of_nat (length args) <? optind s) = true) as ->.
  { rewrite !orb_true_iff, !negb_true_iff, !Z.eqb_neq, !Z.ltb_lt. unfold new_query in Hq. intuition congruence. }
  split; [done |]. split; [done |]. exists 1%nat. split; [done |]. split; [destruct args; [done | simpl; lia] |].
  rewrite bool_decide_eq_true_2 by done. split; [done |]. intros j a t _ Hj. cbn.
  destruct (ga_args Hargs _ _ _ Hj) as (? & ? & _). unfold wrapu. rewrite <- (Z_mod_plus_full (0 - a) 1), Z.mod_small by lia. lia.
Qed.

Lemma check_query_same s cl rest : tracks s cl rest →
  check_query argv optstring_p (Z.of_nat (length args)) s = Some (tt, s).
Proof using Type.
  intros (H1 & H2 & i & Hi & Hle & _). unfold check_query, modify. rewrite H1, H2, !Z.eqb_refl, Hi.
  rewrite (proj2 (Z.ltb_ge _ 1)), (proj2 (Z.ltb_ge _ (Z.of_nat i))) by lia. done.
Qed.

(** [short_option] starts at the second character of a new argument and goes
    on where it stopped in the current one. *)
Lemma short_option_spec s i a pre c cl :
  last_optstring s = optstring_p → last_argv s = argv → args !! i = Some (a, 45 :: pre ++ c :: cl) → (1 <= i)%nat →
  optind s = Z.of_nat i → (pre = [] ∧ away (optptr s) i) ∨ optptr s = a + 1 + Z.of_nat (length pre) →
  let '(e, (cl', rest')) := letter optstring c cl (snd <$> drop (S i) args) in
  ∃ s', short_option args optstring (a, 45 :: pre ++ c :: cl) s = Some (ret_of optstring e, s') ∧ tracks s' cl' rest' ∧ leaves e s'.
Proof using Hargs.
  intros H1 H2 Hi Hi1 Hind Hptr. destruct (ga_args Hargs _ _ _ Hi) as (Ha0 & Ha1 & _). unfold short_option.
  erewrite bind_ok by reflexivity. destruct Hptr as [[-> Haw] | Hptr].
  - rewrite (proj2 (Z.ltb_lt _ _)) by (by eapply Haw). erewrite bind_ok by reflexivity.
    apply (at_letter_spec (set_optptr (a + 1) s) i a []); try done. cbn. lia.
  - rewrite (proj2 (Z.ltb_ge _ _)).
    + erewrite bind_ok by reflexivity. by apply at_letter_spec.
    + cbn [length] in *. rewrite length_app in *. cbn [length] in *. unfold wrapu. rewrite Z.mod_small; lia.
Qed.

Lemma getopt_step s cl rest :
  tracks s cl rest →
  let '(e, (cl', rest')) := next_event optstring cl rest in
  ∃ s', (s ← getst; carg ← lift (argv_at args (optind s));
         match carg with
         | None => mret (-1)
         | Some (a, text) =>
             match text with
             | d :: c :: cl =>
                 if negb (d =? 45) then mret (-1)
                 else if (c =? 45) && bool_decide (cl = []) then modify (λ s, set_optind (optind s + 1) s);; mret (-1)
                 else short_option args optstring (a, text)
             | _ => mret (-1)
             end
         end) s = Some (ret_of optstring e, s') ∧ tracks s' cl' rest' ∧ leaves e s'.
Proof using Hargs.
  intros Ht. pose proof Ht as (H1 & H2 & i & Hi & Hle & Hcl). erewrite bind_ok by reflexivity. rewrite Hi.
  destruct (argv_at_drop i) as [-> Hdrop]; [lia |]. erewrite bind_ok by reflexivity.
  destruct cl as [| c0 cl].
  - rewrite bool_decide_eq_true_2 in Hcl by done. destruct Hcl as [-> Haw]. unfold next_event. rewrite Hdrop in Ht |- *.
    revert Ht. destruct (args !! i) as [[a text] |] eqn:Ea; intros Ht; [| by exists s].
    destruct text as [| d [| c cl]]; [by exists s.. |].
    destruct (Z.eqb_spec d 45) as [-> | Hd]; cbn [negb]; [| by exists s].
    destruct ((c =? 45) && bool_decide (cl = [])).
    + erewrite bind_ok by reflexivity. eexists. split; [reflexivity |]. split; [| done].
      pose proof (lookup_lt_Some _ _ _ Ea). split; [done |]. split; [done |]. exists (S i). cbn. split; [lia |]. split; [lia |].
      split; [done |]. by apply (away_weaken _ i); [lia |].
    + apply (short_option_spec s i a [] c cl); try done; [lia | by left].
  - rewrite bool_decide_eq_false_2 in Hcl by done. destruct Hcl as [-> (a & pre & Ea & Hpre & Hp)]. cbn [next_event].
    rewrite Ea. destruct pre as [| x pre]; [done |]. cbn [app]. cbn [Z.eqb Pos.eqb negb].
    rewrite bool_decide_eq_false_2 by (by destruct pre). rewrite andb_false_r.
    apply (short_option_spec s i a (x :: pre) c0 cl); try done; [lia | by right].
Qed.

(** All calls of [getopt] up to the one that returns -1: the values returned
    with the text of [optarg] and [optopt] after each. *)
Fixpoint getopt_all (n : nat) : O (list (Z * option str * Z)) :=
  match n with
  | 0%nat => fault
  | S n =>
      r ← getopt argv optstring_p args optstring (Z.of_nat (length args));
      if r =? -1 then mret []
      else
        s ← getst;
        rs ← getopt_all n;
        mret ((r, snd <$> optarg s, optopt s) :: rs)
  end.

Definition reports (e : event) (r : Z * option str * Z) : Prop :=
  r.1.1 = ret_of optstring e ∧
  match e with
  | Opt _ (Some arg) => r.1.2 = Some arg
  | Unknown c => r.2 = c
  | _ => True
  end.

Lemma ret_of_end e cl rest cl' rest' : -1 ∉ optstring → next_event optstring cl rest = (e, (cl', rest')) →
  (ret_of optstring e =? -1) = bool_decide (e = Done).
Proof using Type.
  intros Hn E. destruct e as [c a | c | c |]; cbn [ret_of]; try (rewrite bool_decide_eq_false_2 by done); try done.
  - apply Z.eqb_neq. intros ->. apply Hn.
    assert (∀ cl rest, letter optstring (-1) cl rest = (Opt (-1) a, (cl', rest')) → -1 ∈ optstring) as Hl.
    { intros cl0 rest0. unfold letter, takes_arg. cbn [Z.eqb]. destruct (list_find _ optstring) as [[n x] |] eqn:Ef; [| done].
      intros _. apply list_find_Some in Ef as (Hx & <- & _). by eapply list_elem_of_lookup_2. }
    unfold next_event in E. assert (∀ c cl rest, letter optstring c cl rest = (Opt (-1) a, (cl', rest')) → c = -1) as Hc.
    { intros c cl0 rest0. unfold letter. destruct (takes_arg _ _) as [[] |]; [| congruence | congruence].
      destruct cl0; [destruct rest0 |]; congruence. }
    destruct cl as [| c cl].
    + destruct rest as [| [| d [| c cl]] rest]; try done. destruct (negb _); [done |]. destruct (_ && _); [done |].
      pose proof (Hc _ _ _ E). subst c. by eapply Hl.
    + pose proof (Hc _ _ _ E). subst c. by eapply Hl.
  - by case_bool_decide.
Qed.
Lemma getopt_all_tracks n : -1 ∉ optstring → ∀ s cl rest es ops,
  tracks s cl rest → events optstring n cl rest = Some (es, ops) →
  ∃ rs s', getopt_all n s = Some (rs, s') ∧ Forall2 reports es rs ∧ ops = snd <$> drop (Z.to_nat (optind s')) args.
Proof using Hargs.
  intros Hm. induction n as [| n IH]; intros s cl rest es ops Ht; [done |]. cbn [events getopt_all].
  pose proof (getopt_step s cl rest Ht) as Hstep. destruct (next_event optstring cl rest) as [e [cl' rest']] eqn:E.
  destruct Hstep as (s' & E1 & Ht' & Hl). pose proof (ret_of_end _ _ _ _ _ Hm E) as Hret.
  erewrite bind_ok by (unfold getopt; erewrite bind_ok by (by eapply check_query_same); exact E1). rewrite Hret.
  destruct (decide (e = Done)) as [-> | He].
  - rewrite bool_decide_eq_true_2 by done. intros [= <- <-]. exists [], s'. split; [done |]. split; [constructor |].
    unfold next_event in E. destruct cl as [| c cl].
    + assert (cl' = []) as ->.
      { destruct rest as [| [| d [| c cl]] rest]; try congruence. destruct (negb _); [congruence |].
        destruct (_ && _); [congruence |]. by apply letter_work in E as [_ []]. }
      destruct Ht' as (_ & _ & i & Hi & _ & Hr & _). by rewrite Hi, Nat2Z.id.
    + by apply letter_work in E as [_ []].
  - rewrite bool_decide_eq_false_2 by done. intros Hev.
    assert (∃ es', events optstring n cl' rest' = Some (es', ops) ∧ es = e :: es') as (es' & Hev' & ->).
    { destruct e; try done; destruct (events optstring n cl' rest') as [[es' ops'] |]; simplify_eq/=; eauto. }
    destruct (IH s' cl' rest' es' ops Ht' Hev') as (rs & s'' & E2 & Hf & Hops).
    erewrite bind_ok by reflexivity. erewrite bind_ok by exact E2. eexists _, s''. split; [reflexivity |].
    split; [| done]. constructor; [| done]. split; [done |]. by destruct e as [c [a |] | | |].
Qed.

(** C11.  Calling [getopt] until it returns -1 goes through the argument
    list exactly as the specification says: every option letter in order,
    with the attached or following argument of those that take one, missing
    arguments and unknown letters reported, and stops at the first operand or
    behind [--], with [optind] at the operands.  The number of calls is
    bounded by the number of characters. *)
Theorem getopt_correct n s :
  args ≠ [] → new_query s → -1 ∉ optstring → (work [] (snd <$> drop 1 args) < n)%nat →
  ∃ es ops rs s', events optstring n [] (snd <$> drop 1 args) = Some (es, ops) ∧ getopt_all n s = Some (rs, s') ∧
    Forall2 reports es rs ∧ snd <$> drop (Z.to_nat (optind s')) args = ops.
Proof using Hargs.
  intros Hne Hq Hm Hn. destruct (events_total optstring n [] (snd <$> drop 1 args) Hn) as (es & ops & Hev).
  destruct (check_query_new s Hq Hne) as (s1 & E1 & Ht).
  destruct (getopt_all_tracks n Hm s1 _ _ _ _ Ht Hev) as (rs & s' & E2 & Hf & Hops).
  exists es, ops, rs, s'. split; [done |]. split; [| by subst ops].
  destruct n as [| n]; [lia |]. rewrite <- E2. cbn [getopt_all]. unfold mbind at 1 4, st_bind at 1 4.
  assert (getopt argv optstring_p args optstring (Z.of_nat (length args)) s =
          getopt argv optstring_p args optstring (Z.of_nat (length args)) s1) as ->; [| done].
  unfold getopt. by rewrite (bind_ok _ _ _ _ _ E1), (bind_ok _ _ _ _ _ (check_query_same _ _ _ Ht)).
Qed.
End proofs.

(** ** Long options *)

Section long_proofs.
Context (argv optstring_p : Z) (args : list cptr) (optstring : str).

Lemma option_matches_spec arg name rest : 61 ∉ name →
  option_matches arg name = Some rest ↔ arg = name ++ rest ∧ (rest = [] ∨ head rest = Some 61).
Proof using Type.
  revert name. induction arg as [| c arg IH]; intros name Hn; cbn [option_matches].
  - destruct name as [| d name]; cbn [app]; [| by split; [| intros [? _]]]. split; [intros [= <-]; auto |]. intros [E _]. by rewrite E.
  - destruct (Z.eqb_spec c 61) as [-> | Hc].
    + destruct name as [| d name]; cbn [app].
      * split; [intros [= <-]; split; [done | by right] |]. intros [E _]. by rewrite E.
      * split; [done |]. intros [[= <- _] _]. set_solver.
    + destruct name as [| d name]; cbn [app].
      * split; [done |]. intros [E [-> | Hh]]; [done |]. rewrite <- E in Hh. simpl in Hh. congruence.
      * destruct (Z.eqb_spec c d) as [-> | Hd]; [| split; [done | by intros [[= ? _] _]]].
        rewrite IH by set_solver. split; [by intros [-> ?] | by intros [[= ->] ?]].
Qed.

(** A long option is found by its exact name: [find_long]
    returns the first option whose name is the text up to an [=] or the end,
    and fails only if no option has that name; abbreviations are not accepted. *)
Theorem find_long_correct arg longopts : Forall (λ lo, 61 ∉ opt_name lo) longopts →
  match find_long arg longopts 0 with
  | Some (i, lo, rest) =>
      0 <= i ∧ longopts !! Z.to_nat i = Some lo ∧ arg = opt_name lo ++ rest ∧ (rest = [] ∨ head rest = Some 61) ∧
      ∀ j lo', (j < Z.to_nat i)%nat → longopts !! j = Some lo' → opt_name lo' ≠ opt_name lo
  | None => ∀ lo rest, lo ∈ longopts → arg = opt_name lo ++ rest → ¬ (rest = [] ∨ head rest = Some 61)
  end.
Proof using Type.
  intros Hn. assert (∀ k, 0 <= k → match find_long arg longopts k with
    | Some (i, lo, rest) => k <= i ∧ longopts !! Z.to_nat (i - k) = Some lo ∧ option_matches arg (opt_name lo) = Some rest ∧
        ∀ j lo', (j < Z.to_nat (i - k))%nat → longopts !! j = Some lo' → option_matches arg (opt_name lo') = None
    | None => ∀ lo, lo ∈ longopts → option_matches arg (opt_name lo) = None
    end) as H.
  { clear Hn. induction longopts as [| lo longopts IH]; intros k Hk; cbn [find_long]; [intros lo Hlo; set_solver |].
    destruct (option_matches arg (opt_name lo)) as [rest |] eqn:E.
    - rewrite Z.sub_diag. split_and!; try done. lia.
    - specialize (IH (k + 1)). destruct (find_long arg longopts (k + 1)) as [[[i lo'] rest] |].
      + destruct IH as (Hi & Hl & Hm & Hj); [lia |]. split; [lia |].
        replace (Z.to_nat (i - k)) with (S (Z.to_nat (i - (k + 1)))) by lia. split_and!; try done.
        intros [| j] lo2 Hj2 Hl2; [simpl in Hl2; congruence |]. apply (Hj j); [lia | done].
      + intros lo2 [-> | Hin]%elem_of_cons; [done |]. apply IH; [lia | done]. }
  specialize (H 0 (Z.le_refl 0)). rewrite Forall_forall in Hn. destruct (find_long arg longopts 0) as [[[i lo] rest] |].
  - rewrite Z.sub_0_r in H. destruct H as (Hi & Hl & Hm & Hj). pose proof (list_elem_of_lookup_2 _ _ _ Hl) as Hin.
    pose proof Hm as Hm'. apply option_matches_spec in Hm as [Harg Hr]; [| by apply Hn]. split_and!; try done.
    intros j lo' Hji Hl' Heq. specialize (Hj j lo' Hji Hl'). rewrite Heq in Hj. congruence.
  - intros lo rest Hin Harg Hr. specialize (H lo Hin). assert (option_matches arg (opt_name lo) = Some rest) as Hm; [| congruence].
    apply option_matches_spec; [by apply Hn | done].
Qed.
End long_proofs.

(** ** Examples *)

(** [prog -ab x y] with the options [ab:]. *)
Definition demo_args : list cptr := [(100, [112; 114]); (110, [45; 97; 98]); (120, [120]); (130, [121])].
Definition demo_state : gstate := mk_gstate None 0 0 0 0 0.

Lemma demo_args_good : good_args demo_args.
Proof.
  split.
  - intros i a t Hi. do 4 (destruct i as [| i]; [injection Hi as <- <-; by repeat constructor |]). done.
  - intros i j a t b u Hi Hj Hne.
    do 4 (destruct i as [| i]; [injection Hi as <- <-;
      do 4 (destruct j as [| j]; [injection Hj as <- <-; simpl; lia |]); done |]). done.
Qed.

Lemma getopt_correct_witness :
  ∃ rs s', getopt_all 8 16 demo_args [97; 98; 58] 10 demo_state = Some (rs, s') ∧
    Forall2 (reports [97; 98; 58]) [Opt 97 None; Opt 98 (Some [120])] rs ∧
    snd <$> drop (Z.to_nat (optind s')) demo_args = [[121]].
Proof.
  destruct (getopt_correct 8 16 demo_args [97; 98; 58] demo_args_good 10 demo_state) as (es & ops & rs & s' & Hev & E & Hf & Hops).
  - done.
  - left. done.
  - set_solver.
  - apply Nat.ltb_lt; reflexivity.
  - vm_compute in Hev. injection Hev as <- <-. by exists rs, s'.
Defined.

Lemma find_long_correct_witness :
  ∃ i lo rest, find_long [97; 61; 120] [mk_option [98] 0 None 5; mk_option [97] 1 None 6] 0 = Some (i, lo, rest) ∧
    [97; 61; 120] = opt_name lo ++ rest.
Proof.
  pose proof (find_long_correct [97; 61; 120] [mk_option [98] 0 None 5; mk_option [97] 1 None 6]) as H.
  cbn in H. destruct H as (_ & _ & H & _); [by repeat constructor; simpl; set_solver |]. eexists _, _, _. split; [reflexivity | exact H].
Defined.
