(* ===== verification/Fnmatch.v ===== *)
(** * Pattern matching: [klibc/fnmatch.c]

    A pointer into a string is the rest of the string with its terminator; a
    read behind the terminator is a fault.  [fnmatch] returns 0 for a match
    and 1 otherwise. *)

From stdpp Require Import base numbers list.
From Stdlib Require Import Lia.
From S2P Require Import Prelude.

Definition FNM_NOMATCH : Z := 1.
Definition FNM_PATHNAME : Z := 1.
Definition FNM_NOESCAPE : Z := 2.
Definition FNM_PERIOD : Z := 4.

(** The pattern behind its leading stars. *)
Fixpoint skip_stars (p : list Z) : list Z :=
  match p with
  | c :: p' => if c =? 42 then skip_stars p' else p
  | [] => []
  end.

(** The rest of a bracket expression from its closing bracket on. *)
Fixpoint skip_class (p : list Z) : list Z :=
  match p with
  | c :: p' => if (c =? 0) || (c =? 93) then p else skip_class p'
  | [] => []
  end.

(** The loop over the items of a bracket expression for the character [c]:
    [Some (Some p)] if the match goes on with [p] behind the bracket. *)
Fixpoint bracket_loop (fuel : nat) (neg : bool) (c : Z) (p : list Z) : option (option (list Z)) :=
  match fuel with
  | O => None
  | S fuel =>
      d ← head p;
      if (d =? 0) || (d =? 93) then Some None
      else
        e ← head (drop 1 p);
        '(matched, p) ←
          (if e =? 45 then
             if d <=? c then hi ← head (drop 2 p); Some (c <=? hi, drop 3 p)
             else Some (false, drop 3 p)
           else Some (d =? c, drop 1 p));
        if xorb matched neg then
          let p := skip_class p in
          d ← head p;
          if d =? 93 then Some (Some (drop 1 p)) else bracket_loop fuel neg c p
        else bracket_loop fuel neg c p
  end.

Definition bracket (c : Z) (p : list Z) : option (option (list Z)) :=
  d ← head p;
  if d =? 33 then bracket_loop (S (length p)) true c (drop 1 p) else bracket_loop (S (length p)) false c p.

Definition has (flags b : Z) : bool := negb (Z.land flags b =? 0).

(** [(a != b) || r] for a call [r] made only if [a == b]. *)
Definition or_mismatch (a b : Z) (r : option Z) : option Z :=
  if a =? b then v ← r; Some (if v =? 0 then 0 else 1) else Some 1.

Fixpoint fnmatch_fuel (fuel : nat) (p s : list Z) (flags : Z) : option Z :=
  match fuel with
  | O => None
  | S n =>
      sc ← head s;
      pc ← head p;
      if has flags FNM_PATHNAME && (sc =? 47) then or_mismatch pc 47 (fnmatch_fuel n (drop 1 p) (drop 1 s) flags)
      else if has flags FNM_PERIOD && (sc =? 46) then or_mismatch pc 46 (fnmatch_fuel n (drop 1 p) (drop 1 s) flags)
      else
        let flags := Z.land flags (Z.lnot FNM_PERIOD) in
        if negb (has flags FNM_NOESCAPE) && (pc =? 92) then
          let p := drop 1 p in
          pc ← head p;
          or_mismatch pc sc (fnmatch_fuel n (drop 1 p) (drop 1 s) flags)
        else if sc =? 0 then
          d ← head (skip_stars p);
          Some (if d =? 0 then 0 else 1)
        else if pc =? 91 then
          r ← bracket sc (drop 1 p);
          match r with
          | Some p => fnmatch_fuel n p (drop 1 s) flags
          | None => Some 1
          end
        else if pc =? 42 then
          r ← fnmatch_fuel n p (drop 1 s) flags;
          if negb (r =? 0) then fnmatch_fuel n (drop 1 p) s flags else Some 0
        else if pc =? 0 then
          Some (if sc =? 0 then 0 else 1)
        else if (pc =? sc) || (pc =? 63) then fnmatch_fuel n (drop 1 p) (drop 1 s) flags
        else Some 1
  end.

(** Every call shortens the pattern or the string. *)
Definition fnmatch (p s : list Z) (flags : Z) : option Z := fnmatch_fuel (S (length p + length s)) p s flags.

(** ** Patterns *)

Inductive item := Single (c : Z) | Range (lo hi : Z).

Inductive pat :=
| Lit (c : Z)
| Any
| Star
| Esc (c : Z)
| Class (neg : bool) (items : list item).

Global Instance item_eq_dec : EqDecision item.
Proof. solve_decision. Defined.
Global Instance pat_eq_dec : EqDecision pat.
Proof. solve_decision. Defined.

Definition item_text (i : item) : list Z := match i with Single c => [c] | Range lo hi => [lo; 45; hi] end.
Definition items_text (its : list item) : list Z := its ≫= item_text.

Definition pat_text (p : pat) : list Z :=
  match p with
  | Lit c => [c]
  | Any => [63]
  | Star => [42]
  | Esc c => [92; c]
  | Class neg its => 91 :: (if neg then [33] else []) ++ items_text its ++ [93]
  end.

Definition text (ps : list pat) : list Z := ps ≫= pat_text.

(** The patterns whose text is read back as they are: a literal is not a
    special character; in a class no character is [0] or a closing bracket,
    a single character is not followed by [-], and the first is not [!]. *)
Definition class_char (c : Z) : bool := negb (c =? 0) && negb (c =? 93).

Fixpoint items_ok (its : list item) : bool :=
  match its with
  | [] => true
  | Single c :: its => class_char c && negb (bool_decide (head (items_text its) = Some 45)) && items_ok its
  | Range lo hi :: its => class_char lo && class_char hi && items_ok its
  end.

Definition pat_ok (p : pat) : bool :=
  match p with
  | Lit c => negb (existsb (Z.eqb c) [0; 42; 63; 91; 92])
  | Any | Star => true
  | Esc c => negb (c =? 0)
  | Class neg its => items_ok its && (neg || negb (bool_decide (head (items_text its) = Some 33)))
  end.

(** Which characters a pattern element accepts.  A complemented class accepts a
    character as soon as one of its items does not match. *)
Definition item_has (c : Z) (i : item) : bool :=
  match i with Single d => d =? c | Range lo hi => (lo <=? c) && (c <=? hi) end.

Definition accepts (p : pat) (c : Z) : bool :=
  match p with
  | Lit d | Esc d => d =? c
  | Any => true
  | Star => false
  | Class neg its => existsb (λ i, xorb (item_has c i) neg) its
  end.

(** The language of a pattern. *)
Inductive Matches : list pat → list Z → Prop :=
| M_nil : Matches [] []
| M_char p ps c s : p ≠ Star → accepts p c = true → Matches ps s → Matches (p :: ps) (c :: s)
| M_star ps s1 s2 : Matches ps s2 → Matches (Star :: ps) (s1 ++ s2).

Fixpoint matchb (ps : list pat) (s : list Z) : bool :=
  match ps with
  | [] => bool_decide (s = [])
  | Star :: ps =>
      (fix star (s : list Z) : bool :=
         matchb ps s || match s with [] => false | _ :: s => star s end) s
  | p :: ps => match s with c :: s => accepts p c && matchb ps s | [] => false end
  end.

Lemma matchb_star ps s :
  matchb (Star :: ps) s = matchb ps s || match s with [] => false | _ :: s => matchb (Star :: ps) s end.
Proof. by destruct s. Qed.

Lemma matchb_char p ps s : p ≠ Star →
  matchb (p :: ps) s = match s with c :: s => accepts p c && matchb ps s | [] => false end.
Proof. by destruct p. Qed.

Lemma matchb_spec ps s : matchb ps s = true ↔ Matches ps s.
Proof.
  split.
  - revert s. induction ps as [| p ps IH]; intros s.
    + cbn. rewrite bool_decide_eq_true. intros ->. constructor.
    + destruct (decide (p = Star)) as [-> | Hp].
      * induction s as [| c s IHs]; rewrite matchb_star, orb_true_iff.
        -- intros [H | [=]]. apply (M_star ps [] []). by apply IH.
        -- intros [H | H]; [apply (M_star ps [] (c :: s)); by apply IH |].
           apply IHs in H. remember (Star :: ps) as q eqn:Eq. destruct H as [| | ps' s1 s2 H]; simplify_eq. by apply (M_star ps (c :: s1)).
      * rewrite matchb_char by done. destruct s as [| c s]; [done |]. rewrite andb_true_iff. intros [? ?]. constructor; auto.
  - intros H. induction H as [| p ps c s Hp Ha H IH | ps s1 s2 H IH].
    + done.
    + rewrite matchb_char by done. by rewrite Ha, IH.
    + induction s1 as [| c s1 IHs]; cbn [app]; rewrite matchb_star, orb_true_iff; [by left | by right].
Qed.

(** ** The code implements the patterns *)

Lemma items_text_cons i its : items_text (i :: its) = item_text i ++ items_text its.
Proof. done. Qed.

Lemma text_cons p ps : text (p :: ps) = pat_text p ++ text ps.
Proof. done. Qed.

Lemma class_char_spec c : class_char c = true ↔ (c =? 0) || (c =? 93) = false.
Proof. unfold class_char. destruct (c =? 0), (c =? 93); simpl; intuition congruence. Qed.

Lemma skip_class_items its rest : items_ok its = true → skip_class (items_text its ++ 93 :: rest) = 93 :: rest.
Proof.
  assert (∀ c l, class_char c = true → skip_class (c :: l) = skip_class l) as Hs
    by (intros c l Hc%class_char_spec; cbn [skip_class]; by rewrite Hc).
  induction its as [| [d | lo hi] its IH]; intros Hok; [done | |]; rewrite items_text_cons; cbn [item_text app items_ok] in *;
    rewrite !andb_true_iff in Hok; destruct Hok as [[Hd Hn] Hok].
  - by rewrite Hs, IH.
  - by rewrite !Hs, IH.
Qed.

Lemma bracket_loop_spec neg c rest : ∀ its fuel,
  items_ok its = true → (length (items_text its) < fuel)%nat →
  bracket_loop fuel neg c (items_text its ++ 93 :: rest) =
    Some (if existsb (λ i, xorb (item_has c i) neg) its then Some rest else None).
Proof.
  induction its as [| i its IH]; intros [| fuel] Hok Hf; simpl in Hf; try lia; [done |].
  rewrite items_text_cons in *. rewrite length_app in Hf. cbn [existsb].
  assert (∀ m, (if xorb m neg then
                  let p := skip_class (items_text its ++ 93 :: rest) in
                  d ← head p; if d =? 93 then Some (Some (drop 1 p)) else bracket_loop fuel neg c p
                else bracket_loop fuel neg c (items_text its ++ 93 :: rest)) =
               Some (if xorb m neg || existsb (λ i, xorb (item_has c i) neg) its then Some rest else None)) as Hend.
  { assert (items_ok its = true ∧ (length (items_text its) < fuel)%nat) as [Hok' Hf'].
    { destruct i; cbn [items_ok item_text length] in *; rewrite !andb_true_iff in Hok; split; [tauto | lia | tauto | lia]. }
    intros m. destruct (xorb m neg); [| by apply IH]. rewrite skip_class_items by done. done. }
  destruct i as [d | lo hi]; cbn [items_ok item_text app] in *; rewrite !andb_true_iff in Hok; destruct Hok as [[Hd Hn] Hok];
    apply class_char_spec in Hd; cbn [bracket_loop head drop].
  - cbn [mbind option_bind]. rewrite Hd.
    assert (∃ e, head (items_text its ++ 93 :: rest) = Some e ∧ (e =? 45) = false) as (e & Ee & He).
    { rewrite negb_true_iff, bool_decide_eq_false in Hn. destruct (items_text its) as [| e l]; [by exists 93 |].
      exists e. split; [done |]. apply Z.eqb_neq. intros ->. by apply Hn. }
    change (drop 0 ?l) with l. rewrite Ee. cbn [mbind option_bind]. rewrite He. apply Hend.
  - cbn [mbind option_bind]. rewrite Hd. cbn [Z.eqb Pos.eqb]. cbn [item_has]. change (drop 0 ?l) with l.
    destruct (lo <=? c); apply Hend.
Qed.

Lemma bracket_spec neg its c rest : pat_ok (Class neg its) = true →
  bracket c ((if neg then [33] else []) ++ items_text its ++ 93 :: rest) =
    Some (if accepts (Class neg its) c then Some rest else None).
Proof.
  cbn [pat_ok accepts]. rewrite andb_true_iff. intros [Hok Hn]. unfold bracket. destruct neg; cbn [app].
  - cbn [head mbind option_bind Z.eqb Pos.eqb drop]. apply bracket_loop_spec; [done |]. cbn [length]. rewrite length_app. lia.
  - cbn [orb] in Hn. rewrite negb_true_iff, bool_decide_eq_false in Hn.
    assert (∃ d, head (items_text its ++ 93 :: rest) = Some d ∧ (d =? 33) = false) as (d & Ed & Hd).
    { destruct (items_text its) as [| d l]; [by exists 93 |]. exists d. split; [done |]. apply Z.eqb_neq. intros ->. by apply Hn. }
    rewrite Ed. cbn [mbind option_bind]. rewrite Hd. apply bracket_loop_spec; [done |]. rewrite length_app. lia.
Qed.

(** The end of the string: only stars may be left. *)
Lemma skip_stars_text ps : forallb pat_ok ps = true →
  (d ← head (skip_stars (text ps ++ [0])); Some (if d =? 0 then 0 else 1)) = Some (if matchb ps [] then 0 else 1).
Proof.
  induction ps as [| p ps IH]; [done |]. cbn [forallb]. rewrite andb_true_iff. intros [Hp Hps]. rewrite text_cons.
  destruct p as [c | | | c | neg its]; try done.
  - cbn [pat_ok existsb] in Hp. rewrite negb_true_iff, !orb_false_iff in Hp. destruct Hp as (H0 & H42 & _).
    cbn. rewrite H42. cbn. by rewrite H0.
  - rewrite matchb_star, orb_false_r. by apply IH.
Qed.

Lemma or_mismatch_spec a b r (m : bool) : r = Some (if m then 0 else 1) →
  or_mismatch a b r = Some (if (a =? b) && m then 0 else 1).
Proof. intros ->. unfold or_mismatch. destruct (a =? b), m; done. Qed.

Lemma pat_text_pos p : (0 < length (pat_text p))%nat.
Proof. destruct p; simpl; lia. Qed.

(** One step with no flags. *)
Lemma fnmatch_step n pc p sc s :
  fnmatch_fuel (S n) (pc :: p) (sc :: s) 0 =
    if pc =? 92 then c ← head p; or_mismatch c sc (fnmatch_fuel n (drop 1 p) s 0)
    else if sc =? 0 then d ← head (skip_stars (pc :: p)); Some (if d =? 0 then 0 else 1)
    else if pc =? 91 then r ← bracket sc p; match r with Some p => fnmatch_fuel n p s 0 | None => Some 1 end
    else if pc =? 42 then
      r ← fnmatch_fuel n (pc :: p) s 0; if negb (r =? 0) then fnmatch_fuel n p (sc :: s) 0 else Some 0
    else if pc =? 0 then Some (if sc =? 0 then 0 else 1)
    else if (pc =? sc) || (pc =? 63) then fnmatch_fuel n p s 0
    else Some 1.
Proof. done. Qed.

Lemma fnmatch_spec : ∀ fuel ps s,
  forallb pat_ok ps = true → Forall (λ c, c ≠ 0) s → (length (text ps) + length s < fuel)%nat →
  fnmatch_fuel fuel (text ps ++ [0]) (s ++ [0]) 0 = Some (if matchb ps s then 0 else 1).
Proof.
  induction fuel as [| n IH]; intros ps s Hok Hs Hf; [lia |].
  destruct ps as [| p ps].
  { change (text [] ++ [0]) with [0]. destruct s as [| c s]; [done |]. apply Forall_cons in Hs as [Hc Hs].
    cbn [app]. rewrite fnmatch_step. cbn. by rewrite (proj2 (Z.eqb_neq c 0)). }
  cbn [forallb] in Hok. apply andb_true_iff in Hok as [Hp Hok]. rewrite text_cons in *. rewrite length_app in Hf.
  pose proof (pat_text_pos p) as Hpos. rewrite <- app_assoc. destruct s as [| c s].
  - pose proof (skip_stars_text (p :: ps)) as Hend. rewrite text_cons, <- app_assoc in Hend. cbn [forallb] in Hend.
    rewrite Hp, Hok in Hend. specialize (Hend eq_refl). cbn [app].
    destruct p as [d | | | d | neg its]; cbn [pat_text app] in *; rewrite fnmatch_step; cbn [Z.eqb Pos.eqb]; try exact Hend.
    + cbn [pat_ok existsb] in Hp. rewrite negb_true_iff, !orb_false_iff in Hp. destruct Hp as (_ & _ & _ & _ & -> & _). exact Hend.
    + cbn [head mbind option_bind]. unfold or_mismatch. cbn [pat_ok] in Hp. rewrite negb_true_iff in Hp. by rewrite Hp.
  - apply Forall_cons in Hs as [Hc Hs]. cbn [length] in Hf. pose proof (IH ps s Hok Hs) as IHchar. cbn [app].
    assert ((c =? 0) = false) as Hc0 by (by apply Z.eqb_neq).
    destruct p as [d | | | d | neg its]; cbn [pat_text app length] in *; rewrite fnmatch_step; rewrite ?Hc0; cbn [Z.eqb Pos.eqb].
    + cbn [pat_ok existsb] in Hp. rewrite negb_true_iff, !orb_false_iff in Hp. destruct Hp as (-> & -> & -> & -> & -> & _).
      rewrite orb_false_r, IHchar by lia. rewrite matchb_char by done. cbn [accepts]. by destruct (d =? c).
    + rewrite orb_true_r, IHchar by lia. by rewrite matchb_char.
    + assert (fnmatch_fuel n (42 :: text ps ++ [0]) (s ++ [0]) 0 = Some (if matchb (Star :: ps) s then 0 else 1)) as ->.
      { apply (IH (Star :: ps) s); [cbn; by rewrite Hok | done |]. rewrite text_cons, length_app. cbn. lia. }
      assert (fnmatch_fuel n (text ps ++ [0]) (c :: s ++ [0]) 0 = Some (if matchb ps (c :: s) then 0 else 1)) as Hskip.
      { apply (IH ps (c :: s)); [done | by constructor | simpl; lia]. }
      rewrite (matchb_star ps (c :: s)), Hskip. cbn [mbind option_bind].
      destruct (matchb (Star :: ps) s); cbn [Z.eqb negb]; [by rewrite orb_true_r | by rewrite orb_false_r].
    + cbn [head mbind option_bind drop]. change (drop 0 ?l) with l. rewrite matchb_char by done. apply or_mismatch_spec, IHchar. lia.
    + rewrite <- !app_assoc. rewrite !length_app in Hf. cbn [length app] in *. rewrite bracket_spec by done. cbn [mbind option_bind].
      rewrite matchb_char by done. destruct (accepts _ c); [| done]. rewrite IHchar by lia. done.
Qed.

(** C32.  Without flags, [fnmatch] terminates on every pattern that is
    well formed and returns 0 exactly if the string belongs to the language of
    the pattern: literals, [?], stars, escapes and bracket expressions. *)
Theorem fnmatch_correct ps s :
  forallb pat_ok ps = true → Forall (λ c, c ≠ 0) s →
  ∃ r, fnmatch (text ps ++ [0]) (s ++ [0]) 0 = Some r ∧ (r = 0 ∨ r = FNM_NOMATCH) ∧ (r = 0 ↔ Matches ps s).
Proof.
  intros Hok Hs. unfold fnmatch. rewrite fnmatch_spec; [| done | done | rewrite !length_app; simpl; lia].
  eexists. split; [reflexivity |]. rewrite <- matchb_spec. by destruct (matchb ps s); split; [left | | right |].
Qed.

Lemma fnmatch_correct_witness :
  ∃ r, fnmatch (text [Star; Lit 46; Class false [Range 97 99; Single 104]] ++ [0]) ([120; 46; 104] ++ [0]) 0 = Some r ∧
    (r = 0 ↔ Matches [Star; Lit 46; Class false [Range 97 99; Single 104]] [120; 46; 104]).
Proof.
  destruct (fnmatch_correct [Star; Lit 46; Class false [Range 97 99; Single 104]] [120; 46; 104]) as (r & E & _ & Hr).
  - reflexivity.
  - by repeat constructor.
  - exists r. split; [exact E | exact Hr].
Defined.

(** A complemented bracket expression with two different
    single characters accepts every character, these two included: the loop
    stops at the first item that does not match. *)
Theorem negated_class_accepts_all a b c ps s :
  a ≠ b → class_char a = true → class_char b = true → b ≠ 45 → c ≠ 0 → forallb pat_ok ps = true → Forall (λ c, c ≠ 0) s →
  Matches ps s → fnmatch (text (Class true [Single a; Single b] :: ps) ++ [0]) ((c :: s) ++ [0]) 0 = Some 0.
Proof.
  intros Hab Ha Hb Hb45 Hc Hok Hs Hm. unfold fnmatch. rewrite fnmatch_spec.
  - assert (matchb (Class true [Single a; Single b] :: ps) (c :: s) = true) as ->; [| done].
    rewrite matchb_char by done. rewrite (proj2 (matchb_spec ps s) Hm), andb_true_r. cbn [accepts existsb item_has].
    destruct (Z.eqb_spec a c), (Z.eqb_spec b c); try done. congruence.
  - cbn [forallb pat_ok items_ok items_text]. rewrite Ha, Hb, Hok. cbn. by rewrite bool_decide_eq_false_2 by congruence.
  - by constructor.
  - rewrite !length_app. simpl. lia.
Qed.

Lemma negated_class_accepts_all_witness :
  fnmatch (text [Class true [Single 97; Single 98]] ++ [0]) ([97] ++ [0]) 0 = Some 0.
Proof. apply (negated_class_accepts_all 97 98 97 [] []); try done. constructor. Defined.

(** With [FNM_PATHNAME], a star directly before a slash
    never matches: the test for the slash in the string comes first and asks
    for a slash in the pattern, where the star still stands. *)
Theorem pathname_star_slash n p s : fnmatch_fuel n (42 :: 47 :: p) s FNM_PATHNAME ≠ Some 0.
Proof.
  revert s. induction n as [| n IH]; intros s; [done |]. destruct s as [| c s]; [done |].
  cbn [fnmatch_fuel head mbind option_bind].
  change (has FNM_PATHNAME FNM_PATHNAME) with true. change (has FNM_PATHNAME FNM_PERIOD) with false. cbn [andb].
  destruct (Z.eqb_spec c 47) as [-> | Hc]; [done |].
  change (Z.land FNM_PATHNAME (Z.lnot FNM_PERIOD)) with FNM_PATHNAME. change (has FNM_PATHNAME FNM_NOESCAPE) with false.
  cbn [negb andb Z.eqb Pos.eqb]. destruct (Z.eqb_spec c 0) as [-> | Hc0]; [done |]. cbn [drop]. change (drop 0 ?l) with l.
  pose proof (IH s) as Hs. destruct (fnmatch_fuel n (42 :: 47 :: p) s FNM_PATHNAME) as [r |]; [| done]. cbn [mbind option_bind].
  destruct (Z.eqb_spec r 0) as [-> | Hr]; [done |]. cbn [negb]. destruct n as [| n]; [done |].
  cbn [fnmatch_fuel head mbind option_bind].
  change (has FNM_PATHNAME FNM_PATHNAME) with true. change (has FNM_PATHNAME FNM_PERIOD) with false. cbn [andb].
  rewrite (proj2 (Z.eqb_neq c 47)) by done. change (has (Z.land FNM_PATHNAME (Z.lnot FNM_PERIOD)) FNM_NOESCAPE) with false.
  rewrite (proj2 (Z.eqb_neq c 0)), (proj2 (Z.eqb_neq 47 c)) by congruence. done.
Qed.

(** A backslash at the end of the pattern matches the terminator of the string
    and reads on behind both. *)
Example trailing_backslash_faults : fnmatch ([92] ++ [0]) ([] ++ [0]) 0 = None.
Proof. done. Qed.
