(* ===== verification/Sha1.v ===== *)
(** * The SHA-1 digest of [klibc/sha1hash.c]

    The program names the shared library after the digest of its contents.
    [SHA1Transform] works in place: the message schedule overwrites the block,
    and the five working variables change roles from round to round instead of
    being moved.  [SHA1Update] and [SHA1Final] are modelled with their 32-bit
    counters and with the blocks of the caller's data that they overwrite. *)

From stdpp Require Import base numbers list.
From Stdlib Require Import Lia Btauto.
From S2P Require Import Prelude.

(** ** The code *)

Definition rol (value bits : Z) : Z := Z.lor (u32 (Z.shiftl value bits)) (Z.shiftr value (32 - bits)).

(** The bytes of a word, least significant first, and back. *)
Definition byte (x k : Z) : Z := Z.land (Z.shiftr x (8 * k)) 255.
Definition le_bytes (x : Z) : list Z := [byte x 0; byte x 1; byte x 2; byte x 3].
Definition le_word (l : list Z) : Z := l !!! 0%nat + l !!! 1%nat * 2 ^ 8 + l !!! 2%nat * 2 ^ 16 + l !!! 3%nat * 2 ^ 24.

(** [ntohl] on a little-endian machine. *)
Definition ntohl (x : Z) : Z := byte x 0 * 2 ^ 24 + byte x 1 * 2 ^ 16 + byte x 2 * 2 ^ 8 + byte x 3.

(** [block->c] read as [block->l], and back. *)
Fixpoint words (n : nat) (c : list Z) : list Z :=
  match n with O => [] | S n => le_word (take 4 c) :: words n (drop 4 c) end.
Definition chars (l : list Z) : list Z := l ≫= le_bytes.

(** [blk0] and [blk]: the word used in round [i], stored in the block. *)
Definition blk0 (i : nat) (l : list Z) : Z * list Z := let w := ntohl (l !!! i) in (w, <[i := w]> l).

Definition blk (i : nat) (l : list Z) : Z * list Z :=
  let at_ (k : Z) := l !!! Z.to_nat (Z.land k 15) in
  let i := Z.of_nat i in
  let w := rol (Z.lxor (Z.lxor (Z.lxor (at_ (i + 13)) (at_ (i + 8))) (at_ (i + 2))) (at_ i)) 1 in
  (w, <[Z.to_nat (Z.land i 15) := w]> l).

(** The working variables, as positions. *)
Definition a : nat := 0.
Definition b : nat := 1.
Definition c : nat := 2.
Definition d : nat := 3.
Definition e : nat := 4.

(** The macros [R0] to [R4]: how three variables are mixed, which word of the
    schedule is used and the constant. *)
Inductive op := R0 | R1 | R2 | R3 | R4.

Definition mix (r : op) (w x y : Z) : Z :=
  match r with
  | R0 | R1 => Z.lxor (Z.land w (Z.lxor x y)) y
  | R2 | R4 => Z.lxor (Z.lxor w x) y
  | R3 => Z.lor (Z.land (Z.lor w x) y) (Z.land w x)
  end.

Definition constant (r : op) : Z :=
  match r with R0 | R1 => 0x5A827999 | R2 => 0x6ED9EBA1 | R3 => 0x8F1BBCDC | R4 => 0xCA62C1D6 end.

Definition word_of (r : op) (i : nat) (l : list Z) : Z * list Z :=
  match r with R0 => blk0 i l | _ => blk i l end.

Record round := row { r_op : op; r_v : nat; r_w : nat; r_x : nat; r_y : nat; r_z : nat; r_i : nat }.

Definition R (q : round) (s : list Z * list Z) : list Z * list Z :=
  let '(regs, l) := s in
  let reg := λ k, regs !!! k in
  let '(wd, l) := word_of (r_op q) (r_i q) l in
  let z := u32 (reg (r_z q) + (mix (r_op q) (reg (r_w q)) (reg (r_x q)) (reg (r_y q)) + wd + constant (r_op q) + rol (reg (r_v q)) 5)) in
  let regs := <[r_z q := z]> regs in
  (<[r_w q := rol (regs !!! r_w q) 30]> regs, l).

(** The 80 rounds as they are written out. *)
Definition rounds : list round :=
  [
   row R0 a b c d e 0; row R0 e a b c d 1; row R0 d e a b c 2; row R0 c d e a b 3;
   row R0 b c d e a 4; row R0 a b c d e 5; row R0 e a b c d 6; row R0 d e a b c 7;
   row R0 c d e a b 8; row R0 b c d e a 9; row R0 a b c d e 10; row R0 e a b c d 11;
   row R0 d e a b c 12; row R0 c d e a b 13; row R0 b c d e a 14; row R0 a b c d e 15;
   row R1 e a b c d 16; row R1 d e a b c 17; row R1 c d e a b 18; row R1 b c d e a 19;
   row R2 a b c d e 20; row R2 e a b c d 21; row R2 d e a b c 22; row R2 c d e a b 23;
   row R2 b c d e a 24; row R2 a b c d e 25; row R2 e a b c d 26; row R2 d e a b c 27;
   row R2 c d e a b 28; row R2 b c d e a 29; row R2 a b c d e 30; row R2 e a b c d 31;
   row R2 d e a b c 32; row R2 c d e a b 33; row R2 b c d e a 34; row R2 a b c d e 35;
   row R2 e a b c d 36; row R2 d e a b c 37; row R2 c d e a b 38; row R2 b c d e a 39;
   row R3 a b c d e 40; row R3 e a b c d 41; row R3 d e a b c 42; row R3 c d e a b 43;
   row R3 b c d e a 44; row R3 a b c d e 45; row R3 e a b c d 46; row R3 d e a b c 47;
   row R3 c d e a b 48; row R3 b c d e a 49; row R3 a b c d e 50; row R3 e a b c d 51;
   row R3 d e a b c 52; row R3 c d e a b 53; row R3 b c d e a 54; row R3 a b c d e 55;
   row R3 e a b c d 56; row R3 d e a b c 57; row R3 c d e a b 58; row R3 b c d e a 59;
   row R4 a b c d e 60; row R4 e a b c d 61; row R4 d e a b c 62; row R4 c d e a b 63;
   row R4 b c d e a 64; row R4 a b c d e 65; row R4 e a b c d 66; row R4 d e a b c 67;
   row R4 c d e a b 68; row R4 b c d e a 69; row R4 a b c d e 70; row R4 e a b c d 71;
   row R4 d e a b c 72; row R4 c d e a b 73; row R4 b c d e a 74; row R4 a b c d e 75;
   row R4 e a b c d 76; row R4 d e a b c 77; row R4 c d e a b 78; row R4 b c d e a 79].

(** [SHA1Transform]: the new state, and the block as it is overwritten. *)
Definition SHA1Transform (state buffer : list Z) : list Z * list Z :=
  let '(regs, l) := fold_left (λ s q, R q s) rounds (state, words 16 buffer) in
  (zip_with (λ s r, u32 (s + r)) state regs, chars l).

Record SHA1_CTX := mk_ctx {
  state : list Z;
  count0 : Z;
  count1 : Z;
  buffer : list Z;
}.

Definition SHA1Init (buffer : list Z) : SHA1_CTX :=
  mk_ctx [0x67452301; 0xEFCDAB89; 0x98BADCFE; 0x10325476; 0xC3D2E1F0] 0 0 buffer.

(** [memcpy(&buf[j], src, ...)] *)
Definition splice (j : nat) (src buf : list Z) : list Z := take j buf ++ src ++ drop (j + length src) buf.

(** [for ( ; i + 63 < len; i += 64) SHA1Transform(context->state, &data[i]);] *)
Fixpoint update_loop (fuel : nat) (i len : Z) (st data : list Z) : Z * list Z * list Z :=
  match fuel with
  | O => (i, st, data)
  | S fuel =>
      if u32 (i + 63) <? len then
        let '(st, blk) := SHA1Transform st (take 64 (drop (Z.to_nat i) data)) in
        update_loop fuel (u32 (i + 64)) len st (splice (Z.to_nat i) blk data)
      else (i, st, data)
  end.

(** The context after the call, and the data as it is left. *)
Definition SHA1Update (context : SHA1_CTX) (data : list Z) (len : Z) : SHA1_CTX * list Z :=
  let j := Z.land (Z.shiftr (count0 context) 3) 63 in
  let bits := u32 (Z.shiftl len 3) in
  let c0 := u32 (count0 context + bits) in
  let c1 := if c0 <? bits then u32 (count1 context + 1) else count1 context in
  let c1 := u32 (c1 + Z.shiftr len 29) in
  if 63 <? u32 (j + len) then
    let i := 64 - j in
    let buf := splice (Z.to_nat j) (take (Z.to_nat i) data) (buffer context) in
    let '(st, buf) := SHA1Transform (state context) buf in
    let '(i, st, data) := update_loop (length data) i len st data in
    (mk_ctx st c0 c1 (splice 0 (take (Z.to_nat (len - i)) (drop (Z.to_nat i) data)) buf), data)
  else
    (mk_ctx (state context) c0 c1 (splice (Z.to_nat j) (take (Z.to_nat len) data) (buffer context)), data).

(** [finalcount[i]] *)
Definition finalcount (ctx : SHA1_CTX) : list Z :=
  (λ i, Z.land (Z.shiftr (if 4 <=? i then count0 ctx else count1 ctx) ((3 - Z.land i 3) * 8)) 255) <$> [0; 1; 2; 3; 4; 5; 6; 7].

(** [while ((context->count[0] & 504) != 448)] *)
Fixpoint pad_loop (fuel : nat) (ctx : SHA1_CTX) : option SHA1_CTX :=
  match fuel with
  | O => None
  | S fuel => if Z.land (count0 ctx) 504 =? 448 then Some ctx else pad_loop fuel (SHA1Update ctx [0] 1).1
  end.

(** The digest and the wiped context; at most 64 bytes of padding are
    added. *)
Definition SHA1Final (ctx : SHA1_CTX) : option (list Z * SHA1_CTX) :=
  let fc := finalcount ctx in
  let ctx := (SHA1Update ctx [128] 1).1 in
  match pad_loop 65 ctx with
  | Some ctx =>
      let ctx := (SHA1Update ctx fc 8).1 in
      Some ((λ i, Z.land (Z.shiftr (state ctx !!! Z.to_nat (Z.shiftr i 2)) ((3 - Z.land i 3) * 8)) 255)
              <$> [0; 1; 2; 3; 4; 5; 6; 7; 8; 9; 10; 11; 12; 13; 14; 15; 16; 17; 18; 19],
            mk_ctx (replicate 5 0) 0 0 (replicate 64 0))
  | None => None
  end.

(** [main] between opening the file and printing: the digest of the chunks
    [fread] delivers, and the context as it is left. *)
Definition SHA1 (chunks : list (list Z)) (garbage : list Z) : option (list Z * SHA1_CTX) :=
  SHA1Final (fold_left (λ ctx d, (SHA1Update ctx d (Z.of_nat (length d))).1) chunks (SHA1Init garbage)).

Example test_abc : SHA1 [[97]; [98; 99]] (replicate 64 7) =
  Some ([0xA9; 0x99; 0x3E; 0x36; 0x47; 0x06; 0x81; 0x6A; 0xBA; 0x3E; 0x25; 0x71; 0x78; 0x50; 0xC2; 0x6C; 0x9C; 0xD0; 0xD8; 0x9D],
  mk_ctx (replicate 5 0) 0 0 (replicate 64 0)).
Proof. vm_compute. reflexivity. Qed.

(** ** The specification: FIPS 180 *)

Module fips.
(** Section 4.1.1 *)
Definition f (t : nat) (x y z : Z) : Z :=
  if (t <? 20)%nat then Z.lxor (Z.land x y) (Z.land (Z.lnot x) z)
  else if (t <? 40)%nat then Z.lxor (Z.lxor x y) z
  else if (t <? 60)%nat then Z.lxor (Z.lxor (Z.land x y) (Z.land x z)) (Z.land y z)
  else Z.lxor (Z.lxor x y) z.

(** Section 4.2.1 *)
Definition K (t : nat) : Z :=
  if (t <? 20)%nat then 0x5a827999 else if (t <? 40)%nat then 0x6ed9eba1
  else if (t <? 60)%nat then 0x8f1bbcdc else 0xca62c1d6.

Definition be_word (l : list Z) : Z := l !!! 0%nat * 2 ^ 24 + l !!! 1%nat * 2 ^ 16 + l !!! 2%nat * 2 ^ 8 + l !!! 3%nat.
Definition be_bytes (n : nat) (x : Z) : list Z := (λ k, (x / 2 ^ (8 * Z.of_nat k)) mod 256) <$> reverse (seq 0 n).

Fixpoint be_words (n : nat) (c : list Z) : list Z :=
  match n with O => [] | S n => be_word (take 4 c) :: be_words n (drop 4 c) end.

(** Section 6.1.2, step 1: the message schedule *)
Definition next (W : list Z) : Z :=
  let t := length W in
  rol (Z.lxor (Z.lxor (Z.lxor (W !!! (t - 3)%nat) (W !!! (t - 8)%nat)) (W !!! (t - 14)%nat)) (W !!! (t - 16)%nat)) 1.

Fixpoint expand (n : nat) (W : list Z) : list Z :=
  match n with O => W | S n => expand n (W ++ [next W]) end.

Definition schedule (block : list Z) : list Z := expand 64 (be_words 16 block).

(** Steps 2 and 3 *)
Definition vars : Type := Z * Z * Z * Z * Z.

Definition step (W : list Z) (s : vars) (t : nat) : vars :=
  let '(a, b, c, d, e) := s in
  (u32 (rol a 5 + f t b c d + e + K t + W !!! t), a, rol b 30, c, d).

Definition of_list (H : list Z) : vars := (H !!! 0%nat, H !!! 1%nat, H !!! 2%nat, H !!! 3%nat, H !!! 4%nat).
Definition to_list (s : vars) : list Z := let '(a, b, c, d, e) := s in [a; b; c; d; e].

(** Step 4 *)
Definition compress (H block : list Z) : list Z :=
  zip_with (λ h r, u32 (h + r)) H (to_list (fold_left (step (schedule block)) (seq 0 80) (of_list H))).

(** Section 5.3.1 and the loop over the blocks *)
Definition H0 : list Z := [0x67452301; 0xefcdab89; 0x98badcfe; 0x10325476; 0xc3d2e1f0].

Fixpoint absorb (n : nat) (H m : list Z) : list Z :=
  match n with O => H | S n => absorb n (compress H (take 64 m)) (drop 64 m) end.

(** Section 5.1.1: padding *)
Definition pad (m : list Z) : list Z :=
  m ++ [128] ++ replicate (Z.to_nat ((55 - Z.of_nat (length m)) mod 64)) 0 ++ be_bytes 8 (8 * Z.of_nat (length m)).

Definition sha1 (m : list Z) : list Z :=
  absorb (length (pad m) / 64) H0 (pad m) ≫= be_bytes 4.
End fips.

(** ** [SHA1Transform] is the compression function *)

Abbreviation is_byte := (in_u 8).
Abbreviation is_word := (in_u 32).

Lemma mix_f t w x y :
  (t < 80)%nat → let r := if (t <? 16)%nat then R0 else if (t <? 20)%nat then R1 else if (t <? 40)%nat then R2
                          else if (t <? 60)%nat then R3 else R4 in
  mix r w x y = fips.f t w x y ∧ constant r = fips.K t.
Proof.
  intros Ht r. unfold fips.f, fips.K, r. clear r.
  assert (Z.lxor (Z.land w (Z.lxor x y)) y = Z.lxor (Z.land w x) (Z.land (Z.lnot w) y)) as Hch.
  { apply Z.bits_inj'. intros n Hn. rewrite !Z.lxor_spec, !Z.land_spec, !Z.lxor_spec, Z.lnot_spec by done. btauto. }
  assert (Z.lor (Z.land (Z.lor w x) y) (Z.land w x) = Z.lxor (Z.lxor (Z.land w x) (Z.land w y)) (Z.land x y)) as Hmaj.
  { apply Z.bits_inj'. intros n Hn. rewrite !Z.lxor_spec, !Z.lor_spec, !Z.land_spec, !Z.lor_spec by done. btauto. }
  destruct (Nat.ltb_spec t 16); [rewrite (proj2 (Nat.ltb_lt t 20)) by lia; done |].
  destruct (Nat.ltb_spec t 20); [done |]. destruct (Nat.ltb_spec t 40); [done |]. by destruct (Nat.ltb_spec t 60).
Qed.

Lemma byte_le_word b0 b1 b2 b3 k : is_byte b0 → is_byte b1 → is_byte b2 → is_byte b3 → 0 <= k < 4 →
  byte (le_word [b0; b1; b2; b3]) k = [b0; b1; b2; b3] !!! Z.to_nat k.
Proof.
  unfold in_u. intros H0 H1 H2 H3 Hk. unfold byte, le_word. rewrite (land_mask _ 8), Z.shiftr_div_pow2 by lia. cbn [lookup_total list_lookup_total].
  change (2 ^ 8) with 256 in *. change (2 ^ 16) with 65536. change (2 ^ 24) with 16777216.
  assert (k = 0 ∨ k = 1 ∨ k = 2 ∨ k = 3) as [-> | [-> | [-> | ->]]] by lia;
    [change (_ !!! _) with b0; change (2 ^ (8 * 0)) with 1 | change (_ !!! _) with b1; change (2 ^ (8 * 1)) with 256
    | change (_ !!! _) with b2; change (2 ^ (8 * 2)) with 65536 | change (_ !!! _) with b3; change (2 ^ (8 * 3)) with 16777216];
    Z.to_euclidean_division_equations; lia.
Qed.

Lemma ntohl_le_word l : length l = 4%nat → Forall is_byte l → ntohl (le_word l) = fips.be_word l.
Proof.
  intros Hl Hb. do 4 (destruct l as [| ? l]; [done |]). destruct l; [| done].
  repeat (apply Forall_cons in Hb as [? Hb]). unfold ntohl. rewrite !byte_le_word by (done || lia). done.
Qed.

Lemma length_words n l : length (words n l) = n.
Proof. revert l. induction n as [| n IH]; intros l; cbn; [done | by rewrite IH]. Qed.

Lemma length_chars l : length (chars l) = (4 * length l)%nat.
Proof. unfold chars. induction l as [| x l IH]; [done |]. cbn [mbind list_bind]. rewrite length_app, IH. cbn. lia. Qed.

Lemma chars_bytes l : Forall is_byte (chars l).
Proof.
  assert (∀ x k, is_byte (byte x k)) as Hb.
  { intros x k. unfold byte, in_u. rewrite (land_mask _ 8) by lia. apply Z.mod_pos_bound. done. }
  unfold chars. induction l as [| x l IH]; [constructor |]. cbn [mbind list_bind]. apply Forall_app. split; [| done].
  repeat (constructor; [apply Hb |]). constructor.
Qed.

Lemma length_be_words n l : length (fips.be_words n l) = n.
Proof. revert l. induction n as [| n IH]; intros l; cbn; [done | by rewrite IH]. Qed.

Lemma be_words_ntohl n : ∀ l, (4 * n <= length l)%nat → Forall is_byte l → ∀ i, (i < n)%nat →
  ntohl (words n l !!! i) = fips.be_words n l !!! i.
Proof.
  induction n as [| n IH]; intros l Hl Hb i Hi; [lia |]. cbn [words fips.be_words]. destruct i as [| i].
  - apply ntohl_le_word; [rewrite length_take; lia | by apply Forall_take].
  - apply IH; [rewrite length_drop; lia | by apply Forall_drop | lia].
Qed.

(** *** The message schedule *)

Lemma expand_stable n : ∀ W t, (t < length W)%nat → fips.expand n W !!! t = W !!! t.
Proof.
  induction n as [| n IH]; intros W t Ht; cbn [fips.expand]; [done |].
  rewrite IH by (rewrite length_app; simpl; lia). by rewrite lookup_total_app_l.
Qed.

Lemma expand_next n : ∀ W t, (16 <= length W)%nat → (length W <= t < length W + n)%nat →
  fips.expand n W !!! t = rol (Z.lxor (Z.lxor (Z.lxor (fips.expand n W !!! (t - 3)%nat) (fips.expand n W !!! (t - 8)%nat))
    (fips.expand n W !!! (t - 14)%nat)) (fips.expand n W !!! (t - 16)%nat)) 1.
Proof.
  induction n as [| n IH]; intros W t HW Ht; [lia |]. cbn [fips.expand].
  destruct (decide (t = length W)) as [-> | Hne].
  - rewrite !expand_stable by (rewrite length_app; simpl; lia). rewrite lookup_total_app_r, Nat.sub_diag by lia.
    rewrite !lookup_total_app_l by lia. done.
  - apply IH; rewrite length_app; simpl; lia.
Qed.

(** The words of the schedule that the block holds after [i] rounds. *)
Record holds (raw W : list Z) (i : nat) (l : list Z) : Prop := mk_holds {
  h_length : length l = 16%nat;
  h_done : ∀ t, (t < i)%nat → (i <= t + 16)%nat → l !!! (t mod 16)%nat = W !!! t;
  h_raw : ∀ t, (i <= t < 16)%nat → l !!! t = raw !!! t;
}.

Lemma land_15 (k : nat) : Z.to_nat (Z.land (Z.of_nat k) 15) = (k mod 16)%nat.
Proof. rewrite (land_mask _ 4) by lia. change (2 ^ 4) with (Z.of_nat 16). by rewrite <- Nat2Z.inj_mod, Nat2Z.id. Qed.

Lemma mod_16_sub t k j : (t mod 16 = j mod 16 → t < k → j < k → k <= t + 16 → k <= j + 16 → t = j)%nat.
Proof.
  intros Hm ????. pose proof (Nat.div_mod_eq t 16). pose proof (Nat.div_mod_eq j 16).
  assert (t / 16 = j / 16)%nat; lia.
Qed.

Lemma holds_store raw W i l w : holds raw W i l → w = W !!! i → holds raw W (S i) (<[(i mod 16)%nat := w]> l).
Proof.
  intros [Hl Hd Hr] ->. pose proof (Nat.mod_upper_bound i 16). split.
  - by rewrite length_insert.
  - intros t Ht1 Ht2. destruct (decide (t = i)) as [-> | Hne]; [rewrite list_lookup_total_insert_eq; [done | lia] |].
    rewrite list_lookup_total_insert_ne; [apply Hd; lia |].
    intros Heq. apply Hne. symmetry. apply (mod_16_sub _ (S i)); lia.
  - intros t Ht. rewrite (Nat.mod_small i) by lia. rewrite list_lookup_total_insert_ne by lia. apply Hr. lia.
Qed.

Definition op_of (t : nat) : op :=
  if (t <? 16)%nat then R0 else if (t <? 20)%nat then R1 else if (t <? 40)%nat then R2 else if (t <? 60)%nat then R3 else R4.

Lemma word_of_spec raw W i l :
  holds raw W i l → (i < 80)%nat → (∀ t, (t < 16)%nat → W !!! t = ntohl (raw !!! t)) →
  (∀ t, (16 <= t < 80)%nat → W !!! t = rol (Z.lxor (Z.lxor (Z.lxor (W !!! (t - 3)%nat) (W !!! (t - 8)%nat)) (W !!! (t - 14)%nat)) (W !!! (t - 16)%nat)) 1) →
  ∃ l', word_of (op_of i) i l = (W !!! i, l') ∧ holds raw W (S i) l'.
Proof.
  intros Hh Hi Hraw Hnext. pose proof Hh as [Hl Hd Hr]. destruct (decide (i < 16)%nat) as [H16 | H16].
  - assert (op_of i = R0) as -> by (unfold op_of; by rewrite (proj2 (Nat.ltb_lt i 16))).
    eexists. cbn [word_of]. unfold blk0. rewrite Hr by lia. rewrite <- (Hraw i) by lia. split; [reflexivity |].
    rewrite <- (Nat.mod_small i 16) at 2 by lia. by apply holds_store.
  - assert (word_of (op_of i) i l = blk i l) as ->.
    { unfold op_of. rewrite (proj2 (Nat.ltb_ge i 16)) by lia. by repeat case_match. }
    assert (∀ k : nat, (1 <= k <= 16)%nat → l !!! ((i + 16 - k) mod 16)%nat = W !!! (i - k)%nat) as Hat.
    { intros k Hk. rewrite <- (Hd (i - k)%nat) by lia. f_equal. replace (i + 16 - k)%nat with (i - k + 1 * 16)%nat by lia. by rewrite Nat.Div0.mod_add. }
    unfold blk. replace (Z.of_nat i + 13) with (Z.of_nat (i + 16 - 3)) by lia. replace (Z.of_nat i + 8) with (Z.of_nat (i + 16 - 8)) by lia.
    replace (Z.of_nat i + 2) with (Z.of_nat (i + 16 - 14)) by lia. rewrite !land_15, !Hat by lia.
    replace (l !!! (i mod 16)%nat) with (W !!! (i - 16)%nat) by (rewrite <- (Hat 16%nat) by lia; f_equal; f_equal; lia).
    rewrite <- Hnext by lia. eexists. split; [reflexivity |]. by apply holds_store.
Qed.

(** *** The rounds *)

(** The positions of the five variables in round [i]. *)
Definition row_of (i : nat) : round :=
  match (i mod 5)%nat with
  | 0%nat => row (op_of i) a b c d e i
  | 1%nat => row (op_of i) e a b c d i
  | 2%nat => row (op_of i) d e a b c i
  | 3%nat => row (op_of i) c d e a b i
  | _ => row (op_of i) b c d e a i
  end.

Lemma rounds_rows : rounds = row_of <$> seq 0 80.
Proof. reflexivity. Qed.

(** Where the values of the specification are before round [i]. *)
Definition arrange (i : nat) (s : fips.vars) : list Z :=
  let '(va, vb, vc, vd, ve) := s in
  match (i mod 5)%nat with
  | 0%nat => [va; vb; vc; vd; ve]
  | 1%nat => [vb; vc; vd; ve; va]
  | 2%nat => [vc; vd; ve; va; vb]
  | 3%nat => [vd; ve; va; vb; vc]
  | _ => [ve; va; vb; vc; vd]
  end.

Lemma succ_mod_5 i r : (i mod 5 = r → r < 5 → S i mod 5 = if decide (r = 4) then 0 else S r)%nat.
Proof.
  intros Hr Hlt. pose proof (Nat.div_mod_eq i 5) as Hi. rewrite Hr in Hi. replace (S i) with (S r + i / 5 * 5)%nat by lia.
  rewrite Nat.Div0.mod_add. case_decide; [replace r with 4%nat by done; done | apply Nat.mod_small; lia].
Qed.

Lemma R_step i s l wd l' W :
  (i < 80)%nat → word_of (op_of i) i l = (wd, l') → wd = W !!! i →
  R (row_of i) (arrange i s, l) = (arrange (S i) (fips.step W s i), l').
Proof.
  intros Hi Hw HW. destruct s as [[[[va vb] vc] vd] ve].
  assert (∀ w x y v z, u32 (z + (mix (op_of i) w x y + wd + constant (op_of i) + v)) = u32 (v + fips.f i w x y + z + fips.K i + W !!! i)) as Hz.
  { intros w x y v z. destruct (mix_f i w x y Hi) as [Hmix Hk]. fold (op_of i) in Hmix, Hk. rewrite Hmix, Hk, HW. f_equal. lia. }
  pose proof (Nat.mod_upper_bound i 5). unfold arrange at 1, row_of. unfold fips.step, arrange.
  destruct (i mod 5)%nat as [| [| [| [| [| r]]]]] eqn:Er; [.. | lia]; rewrite (succ_mod_5 i _ Er) by lia; cbn [decide];
    unfold R; cbn [r_op r_i]; rewrite Hw; cbn [r_op r_v r_w r_x r_y r_z]; rewrite Hz; reflexivity.
Qed.

Lemma rounds_spec raw W : ∀ n s l i,
  (∀ t, (t < 16)%nat → W !!! t = ntohl (raw !!! t)) →
  (∀ t, (16 <= t < 80)%nat → W !!! t = rol (Z.lxor (Z.lxor (Z.lxor (W !!! (t - 3)%nat) (W !!! (t - 8)%nat)) (W !!! (t - 14)%nat)) (W !!! (t - 16)%nat)) 1) →
  holds raw W i l → (i + n <= 80)%nat →
  ∃ l', fold_left (λ s q, R q s) (row_of <$> seq i n) (arrange i s, l) =
      (arrange (i + n) (fold_left (fips.step W) (seq i n) s), l') ∧ length l' = 16%nat.
Proof.
  induction n as [| n IH]; intros s l i Hraw Hnext Hh Hn; cbn [seq fmap list_fmap fold_left].
  { exists l. rewrite Nat.add_0_r. split; [done | apply Hh]. }
  destruct (word_of_spec raw W i l Hh) as (l1 & Ew & Hh1); [lia | done | done |].
  rewrite (R_step i s l _ l1 W) by (done || lia).
  destruct (IH (fips.step W s i) l1 (S i) Hraw Hnext Hh1) as (l2 & E & Hl2); [lia |].
  exists l2. rewrite E. by rewrite Nat.add_succ_r.
Qed.

Lemma schedule_start blk t : length blk = 64%nat → Forall is_byte blk → (t < 16)%nat →
  fips.schedule blk !!! t = ntohl (words 16 blk !!! t).
Proof.
  intros Hl Hb Ht. unfold fips.schedule. rewrite expand_stable by (rewrite length_be_words; lia).
  symmetry. apply be_words_ntohl; [lia | done | done].
Qed.

Lemma schedule_next blk t : (16 <= t < 80)%nat →
  fips.schedule blk !!! t = rol (Z.lxor (Z.lxor (Z.lxor (fips.schedule blk !!! (t - 3)%nat) (fips.schedule blk !!! (t - 8)%nat))
    (fips.schedule blk !!! (t - 14)%nat)) (fips.schedule blk !!! (t - 16)%nat)) 1.
Proof.
  intros Ht. unfold fips.schedule. rewrite <- expand_next; [done | rewrite length_be_words; lia..].
Qed.

Lemma arrange_start st : length st = 5%nat → arrange 0 (fips.of_list st) = st.
Proof. intros Hst. do 5 (destruct st as [| ? st]; [done |]). by destruct st. Qed.

Lemma arrange_end s : arrange (0 + 80) s = fips.to_list s.
Proof. by destruct s as [[[[? ?] ?] ?] ?]. Qed.

Lemma transform_spec st blk :
  length st = 5%nat → length blk = 64%nat → Forall is_byte blk →
  ∃ blk', SHA1Transform st blk = (fips.compress st blk, blk') ∧ length blk' = 64%nat ∧ Forall is_byte blk'.
Proof.
  intros Hst Hl Hb. unfold SHA1Transform, fips.compress. rewrite rounds_rows.
  pose proof (λ t, schedule_start blk t Hl Hb) as Hraw. pose proof (schedule_next blk) as Hnext.
  generalize dependent (fips.schedule blk). intros W Hraw Hnext. remember (seq 0 80) as ts eqn:Ets.
  destruct (rounds_spec (words 16 blk) W 80 (fips.of_list st) (words 16 blk) 0) as (l' & E & Hl').
  - exact Hraw.
  - intros t Ht. by apply Hnext.
  - split; [apply length_words | lia | done].
  - lia.
  - rewrite <- Ets in E. rewrite arrange_start, arrange_end in E by done. rewrite E.
    exists (chars l'). split; [done |]. split; [by rewrite length_chars, Hl' | apply chars_bytes].
Qed.

(** The 80 rounds of [SHA1Transform], written out with
    rotating variable names and with the message schedule computed in place,
    are the compression function of FIPS 180. *)
Theorem SHA1Transform_correct st blk :
  length st = 5%nat → length blk = 64%nat → Forall is_byte blk → (SHA1Transform st blk).1 = fips.compress st blk.
Proof. intros Hs Hl Hb. by destruct (transform_spec st blk Hs Hl Hb) as (blk' & -> & _). Qed.

Lemma SHA1Transform_correct_witness :
  (SHA1Transform fips.H0 (replicate 64 0)).1 = fips.compress fips.H0 (replicate 64 0).
Proof. apply SHA1Transform_correct; [reflexivity | reflexivity |]. by repeat constructor. Defined.

(** ** The context represents the message hashed so far *)

Lemma length_compress st blk : length st = 5%nat → length (fips.compress st blk) = 5%nat.
Proof.
  intros Hst. unfold fips.compress. rewrite length_zip_with, Hst. by destruct (fold_left _ _ _) as [[[[? ?] ?] ?] ?].
Qed.

Lemma length_absorb n : ∀ st m, length st = 5%nat → length (fips.absorb n st m) = 5%nat.
Proof. induction n as [| n IH]; intros st m Hst; cbn [fips.absorb]; [done |]. by apply IH, length_compress. Qed.

Lemma absorb_app n : ∀ st m d, (64 * n <= length m)%nat → fips.absorb n st (m ++ d) = fips.absorb n st m.
Proof.
  induction n as [| n IH]; intros st m d Hl; cbn [fips.absorb]; [done |].
  rewrite take_app_le, drop_app_le by lia. rewrite IH; [done | rewrite length_drop; lia].
Qed.

Lemma absorb_add n k : ∀ st m, fips.absorb (n + k) st m = fips.absorb k (fips.absorb n st m) (drop (64 * n) m).
Proof.
  induction n as [| n IH]; intros st m; [done |]. change (S n + k)%nat with (S (n + k)). cbn [fips.absorb]. rewrite IH, drop_drop.
  do 2 f_equal. lia.
Qed.

Lemma length_splice j src buf : (j + length src <= length buf)%nat → length (splice j src buf) = length buf.
Proof. intros Hl. unfold splice. rewrite !length_app, length_take, length_drop. lia. Qed.

Lemma update_loop_spec len : len < 2 ^ 32 - 64 → ∀ fuel i st data,
  0 <= i → i <= len → len = Z.of_nat (length data) → (Z.to_nat (len - i) / 64 < fuel)%nat → length st = 5%nat → Forall is_byte data →
  let n := (Z.to_nat (len - i) / 64)%nat in
  ∃ data', update_loop fuel i len st data = (i + 64 * Z.of_nat n, fips.absorb n st (drop (Z.to_nat i) data), data') ∧
    drop (Z.to_nat i + 64 * n) data' = drop (Z.to_nat i + 64 * n) data.
Proof.
  intros Hmax. induction fuel as [| fuel IH]; intros i st data Hi Hil Hlen Hf Hst Hb; [lia |]. cbn [update_loop]. cbv zeta.
  unfold wrapu. rewrite (Z.mod_small (i + 63)) by lia. destruct (Z.ltb_spec (i + 63) len) as [Hc | Hc].
  - assert (Z.to_nat (len - i) / 64 = S (Z.to_nat (len - (i + 64)) / 64))%nat as Hn.
    { replace (Z.to_nat (len - i)) with (Z.to_nat (len - (i + 64)) + 1 * 64)%nat by lia. rewrite Nat.div_add by lia. lia. }
    destruct (transform_spec st (take 64 (drop (Z.to_nat i) data))) as (blk & E & Hblk & Hbb);
      [done | rewrite length_take, length_drop; lia | by apply Forall_take, Forall_drop |].
    rewrite E. set (data1 := splice (Z.to_nat i) blk data). rewrite (Z.mod_small (i + 64)) by lia.
    assert (drop (Z.to_nat (i + 64)) data1 = drop (Z.to_nat (i + 64)) data) as Hd1.
    { unfold data1, splice. replace (Z.to_nat (i + 64)) with (length (take (Z.to_nat i) data ++ blk)) at 1
        by (rewrite length_app, length_take; lia). rewrite app_assoc, drop_app_length. f_equal. lia. }
    assert (length data1 = length data) as Hl1 by (apply length_splice; lia).
    destruct (IH (i + 64) (fips.compress st (take 64 (drop (Z.to_nat i) data))) data1) as (data' & E' & Hd');
      [lia | lia | lia | lia | by apply length_compress | |].
    { unfold data1, splice. apply Forall_app. split; [by apply Forall_take |]. apply Forall_app. split; [done | by apply Forall_drop]. }
    rewrite Hn, E', Hd1. exists data'. split.
    + cbn [fips.absorb]. rewrite drop_drop. f_equal; f_equal; [lia |]. f_equal. f_equal. lia.
    + replace (Z.to_nat i + 64 * S (Z.to_nat (len - (i + 64)) / 64))%nat with (Z.to_nat (i + 64) + 64 * (Z.to_nat (len - (i + 64)) / 64))%nat by lia.
      rewrite Hd'. rewrite <- !drop_drop. by rewrite Hd1.
  - assert (Z.to_nat (len - i) / 64 = 0)%nat as -> by (apply Nat.div_small; lia). exists data. split; [| done].
    cbn [fips.absorb]. by rewrite Z.mul_0_r, Z.add_0_r.
Qed.

Record repr (ctx : SHA1_CTX) (m : list Z) : Prop := mk_repr {
  rp_state : state ctx = fips.absorb (length m / 64) fips.H0 m;
  rp_range : is_word (count0 ctx) ∧ is_word (count1 ctx);
  rp_count : count1 ctx * 2 ^ 32 + count0 ctx = (8 * Z.of_nat (length m)) mod 2 ^ 64;
  rp_buffer : length (buffer ctx) = 64%nat;
  rp_tail : take (length m mod 64) (buffer ctx) = drop (64 * (length m / 64)) m;
  rp_bytes : Forall is_byte m;
}.

Lemma repr_low ctx m : repr ctx m → count0 ctx = (8 * Z.of_nat (length m)) mod 2 ^ 32.
Proof.
  intros [_ [H0 H1] Hc _ _ _]. unfold in_u in *. change (2 ^ 64) with (2 ^ 32 * 2 ^ 32) in Hc.
  rewrite Z.rem_mul_r in Hc by lia. pose proof (Z.mod_pos_bound (8 * Z.of_nat (length m)) (2 ^ 32)). lia.
Qed.

(** The bit counters are one 64-bit counter. *)
Lemma count_step c0 c1 (M len : Z) :
  is_word c0 → is_word c1 → c1 * 2 ^ 32 + c0 = (8 * M) mod 2 ^ 64 → 0 <= len < 2 ^ 32 → 0 <= M →
  let bits := u32 (Z.shiftl len 3) in
  let c0' := u32 (c0 + bits) in
  let c1' := u32 ((if c0' <? bits then u32 (c1 + 1) else c1) + Z.shiftr len 29) in
  is_word c0' ∧ is_word c1' ∧ c1' * 2 ^ 32 + c0' = (8 * (M + len)) mod 2 ^ 64.
Proof.
  intros H0 H1 Hc Hlen HM bits c0' c1'. unfold in_u in H0, H1 |- *.
  assert (8 * len = Z.shiftr len 29 * 2 ^ 32 + bits) as Hbits.
  { unfold bits, wrapu. rewrite Z.shiftl_mul_pow2, Z.shiftr_div_pow2 by lia. change (2 ^ 3) with 8.
    Z.to_euclidean_division_equations. lia. }
  assert (0 <= bits < 2 ^ 32) as Hb by (unfold bits; exact (wrapu_range 32 eq_refl _)).
  set (carry := if c0' <? bits then 1 else 0).
  assert (c0 + bits = carry * 2 ^ 32 + c0' ∧ 0 <= c0' < 2 ^ 32) as [Hcarry Hc0].
  { split; [| unfold c0'; exact (wrapu_range 32 eq_refl _)]. unfold carry, c0', wrapu.
    destruct (Z.ltb_spec ((c0 + bits) mod 2 ^ 32) bits); Z.to_euclidean_division_equations; lia. }
  assert (c1' = (c1 + Z.shiftr len 29 + carry) mod 2 ^ 32) as Hc1.
  { unfold c1', carry, wrapu. destruct (c0' <? bits); [rewrite Zplus_mod_idemp_l |]; f_equal; lia. }
  split; [done |]. split; [unfold c1'; exact (wrapu_range 32 eq_refl _) |].
  transitivity ((c1 * 2 ^ 32 + c0 + 8 * len) mod 2 ^ 64).
  - rewrite Hbits. replace (c1 * 2 ^ 32 + c0 + (Z.shiftr len 29 * 2 ^ 32 + bits)) with (c0' + (c1 + Z.shiftr len 29 + carry) * 2 ^ 32) by lia.
    change (2 ^ 64) with (2 ^ 32 * 2 ^ 32). rewrite Z.rem_mul_r by lia.
    rewrite Z_mod_plus_full, (Z.mod_small c0') by lia. rewrite Z_div_plus_full, (Z.div_small c0'), Z.add_0_l by lia. lia.
  - rewrite Hc, Zplus_mod_idemp_l. f_equal. lia.
Qed.

Lemma take_splice j src buf : (j <= length buf)%nat → take (j + length src) (splice j src buf) = take j buf ++ src.
Proof.
  intros Hj. unfold splice. rewrite app_assoc. replace (j + length src)%nat with (length (take j buf ++ src)) by (rewrite length_app, length_take; lia).
  apply take_app_length.
Qed.

Lemma repr_offset ctx m : repr ctx m → Z.land (Z.shiftr (count0 ctx) 3) 63 = Z.of_nat (length m mod 64).
Proof.
  intros Hr. rewrite (repr_low _ _ Hr), (land_mask _ 6), Z.shiftr_div_pow2 by lia. rewrite Nat2Z.inj_mod.
  change (2 ^ 3) with 8. change (2 ^ 6) with 64. change (2 ^ 32) with 4294967296. change (Z.of_nat 64) with 64.
  Z.to_euclidean_division_equations. lia.
Qed.

Lemma update_repr ctx m d :
  repr ctx m → Forall is_byte d → Z.of_nat (length d) < 2 ^ 32 - 64 →
  repr (SHA1Update ctx d (Z.of_nat (length d))).1 (m ++ d).
Proof.
  intros Hr Hd Hmax. pose proof Hr as [Hst [Hc0 Hc1] Hcnt Hbuf Htail Hby]. pose proof (repr_offset _ _ Hr) as Hj.
  unfold SHA1Update. rewrite Hj. set (q := (length m / 64)%nat) in *. set (j := (length m mod 64)%nat) in *.
  assert (length m = 64 * q + j ∧ j < 64)%nat as [Hm Hj64]
    by (unfold q, j; split; [apply Nat.div_mod_eq | apply Nat.mod_upper_bound; lia]).
  destruct (count_step (count0 ctx) (count1 ctx) (Z.of_nat (length m)) (Z.of_nat (length d))) as (Hw0 & Hw1 & Hcount); [done | done | done | lia | lia |].
  assert (8 * Z.of_nat (length (m ++ d)) = 8 * (Z.of_nat (length m) + Z.of_nat (length d))) as Htot by (rewrite length_app; lia).
  assert (length (fips.absorb q fips.H0 m) = 5%nat) as Hlst by (by apply length_absorb).
  assert (drop (64 * q) (m ++ d) = drop (64 * q) m ++ d) as Hdrop by (apply drop_app_le; lia).
  assert (Forall is_byte (m ++ d)) as Hall by (by apply Forall_app).
  unfold wrapu at 1. rewrite Z.mod_small by lia. destruct (Z.ltb_spec 63 (Z.of_nat j + Z.of_nat (length d))) as [Hbig | Hsmall].
  - set (i := (64 - j)%nat). replace (64 - Z.of_nat j) with (Z.of_nat i) by lia. rewrite !Nat2Z.id.
    set (blk := splice j (take i d) (buffer ctx)).
    assert (length (take i d) = i) as Hti by (rewrite length_take; lia).
    assert (blk = drop (64 * q) m ++ take i d) as Hblk.
    { unfold blk, splice. rewrite Hti, Htail, (drop_ge (buffer ctx)), app_nil_r by lia. done. }
    destruct (transform_spec (state ctx) blk) as (buf' & E1 & Hbuf' & _).
    { by rewrite Hst. } { rewrite Hblk, length_app, length_drop. lia. }
    { rewrite Hblk. apply Forall_app. split; [by apply Forall_drop | by apply Forall_take]. }
    rewrite E1. set (n := ((length d - i) / 64)%nat).
    destruct (update_loop_spec (Z.of_nat (length d)) Hmax (length d) (Z.of_nat i) (fips.compress (state ctx) blk) d) as (d' & E2 & Hd');
      [lia | lia | done | | by rewrite Hst; apply length_compress | done |].
    { replace (Z.to_nat (Z.of_nat (length d) - Z.of_nat i)) with (length d - i)%nat by lia. apply Nat.Div0.div_lt_upper_bound. lia. }
    replace (Z.to_nat (Z.of_nat (length d) - Z.of_nat i)) with (length d - i)%nat in E2, Hd' by lia. fold n in E2, Hd'.
    rewrite Nat2Z.id in E2, Hd'. rewrite E2. cbn [fst].
    assert (length d - i = 64 * n + (length d - i) mod 64)%nat as Hrem by apply Nat.div_mod_eq.
    assert ((length d - i) mod 64 < 64)%nat as Hrem64 by (apply Nat.mod_upper_bound; lia).
    assert (length (m ++ d) = 64 * (q + 1 + n) + (length d - i) mod 64)%nat as Hlen by (rewrite length_app; lia).
    assert (length (m ++ d) / 64 = q + 1 + n)%nat as Hq by (symmetry; apply (Nat.div_unique _ _ _ ((length d - i) mod 64)); lia).
    assert (length (m ++ d) mod 64 = (length d - i) mod 64)%nat as Hmod by (symmetry; apply (Nat.mod_unique _ _ (q + 1 + n)); lia).
    assert (drop (64 * (q + 1)) (m ++ d) = drop i d) as Hdi.
    { rewrite drop_app_ge by lia. f_equal. lia. }
    replace (Z.to_nat (Z.of_nat i + 64 * Z.of_nat n)) with (i + 64 * n)%nat by lia.
    replace (Z.to_nat (Z.of_nat (length d) - (Z.of_nat i + 64 * Z.of_nat n))) with ((length d - i) mod 64)%nat by lia.
    rewrite Hd'. set (rest := take ((length d - i) mod 64) (drop (i + 64 * n) d)).
    assert (length rest = (length d - i) mod 64)%nat as Hlr by (unfold rest; rewrite length_take, length_drop; lia).
    assert (rest = drop (i + 64 * n) d) as Hrest by (unfold rest; apply take_ge; rewrite length_drop; lia).
    apply mk_repr; cbn [state count0 count1 buffer].
    + rewrite Hq, !absorb_add, (absorb_app q) by lia. cbn [fips.absorb]. rewrite <- Hst.
      rewrite Hdrop, take_app, length_drop, (take_ge (drop (64 * q) m)) by (rewrite length_drop; lia).
      replace (64 - (length m - 64 * q))%nat with i by lia. rewrite <- Hblk, Hdi. reflexivity.
    + by split.
    + by rewrite Htot.
    + rewrite length_splice; [done | lia].
    + rewrite Hmod, Hq. rewrite <- Hlr at 1. rewrite <- (Nat.add_0_l (length rest)), take_splice by lia. cbn [take app].
      rewrite Hrest. replace (64 * (q + 1 + n))%nat with (64 * (q + 1) + 64 * n)%nat by lia. 
      symmetry. rewrite <- (drop_drop (m ++ d)), Hdi, drop_drop. reflexivity.
    + exact Hall.
  - rewrite !Nat2Z.id, (take_ge d) by lia.
    assert (length (m ++ d) / 64 = q)%nat as Hq by (rewrite length_app; symmetry; apply (Nat.div_unique _ _ _ (j + length d)); lia).
    assert (length (m ++ d) mod 64 = j + length d)%nat as Hmod by (rewrite length_app; symmetry; apply (Nat.mod_unique _ _ q); lia).
    apply mk_repr; cbn [fst state count0 count1 buffer].
    + rewrite Hq, absorb_app by lia. exact Hst.
    + by split.
    + by rewrite Htot.
    + rewrite length_splice; [done | lia].
    + rewrite Hmod, Hq, Hdrop, take_splice, Htail by lia. reflexivity.
    + exact Hall.
Qed.

Lemma init_repr buf : length buf = 64%nat → repr (SHA1Init buf) [].
Proof. intros Hb. by apply mk_repr. Qed.

Lemma chunks_repr chunks : Forall (λ d, Forall is_byte d ∧ Z.of_nat (length d) < 2 ^ 32 - 64) chunks → ∀ ctx m,
  repr ctx m → repr (fold_left (λ ctx d, (SHA1Update ctx d (Z.of_nat (length d))).1) chunks ctx) (m ++ concat chunks).
Proof.
  induction 1 as [| d chunks [Hd Hl] Hf IH]; intros ctx m Hr; cbn [fold_left concat].
  - by rewrite app_nil_r.
  - rewrite app_assoc. apply IH. by apply update_repr.
Qed.

(** *** Padding *)

Lemma land_504 ctx m : repr ctx m → Z.land (count0 ctx) 504 = 8 * Z.of_nat (length m mod 64).
Proof.
  intros Hr. rewrite (repr_low _ _ Hr). change (2 ^ 32) with (8 * 2 ^ 29). rewrite Z.mul_mod_distr_l by lia.
  rewrite (Z.mul_comm 8 (_ mod 2 ^ 29)). change 8 with (2 ^ 3) at 1. rewrite <- Z.shiftl_mul_pow2 by lia.
  change 504 with (Z.shiftl 63 3). rewrite <- Z.shiftl_land, (land_mask _ 6), Z.shiftl_mul_pow2 by lia.
  rewrite Nat2Z.inj_mod. change (2 ^ 6) with 64. change (2 ^ 29) with 536870912. change (2 ^ 3) with 8. change (Z.of_nat 64) with 64.
  Z.to_euclidean_division_equations. lia.
Qed.

Lemma one_byte_repr ctx m x : repr ctx m → is_byte x → repr (SHA1Update ctx [x] 1).1 (m ++ [x]).
Proof. intros Hr Hx. apply (update_repr ctx m [x] Hr); [by constructor | simpl; lia]. Qed.

Lemma pad_loop_spec : ∀ fuel k ctx m,
  repr ctx m → ((length m + k) mod 64 = 56)%nat → (k < 64)%nat → (k < fuel)%nat →
  ∃ ctx', pad_loop fuel ctx = Some ctx' ∧ repr ctx' (m ++ replicate k 0).
Proof.
  induction fuel as [| fuel IH]; intros k ctx m Hr Hk Hk64 Hf; [lia |]. cbn [pad_loop]. rewrite (land_504 _ _ Hr).
  destruct k as [| k].
  - rewrite Nat.add_0_r in Hk. rewrite Hk. exists ctx. by rewrite app_nil_r.
  - assert (length m mod 64 ≠ 56)%nat as Hne.
    { intros He. pose proof (Nat.div_mod_eq (length m) 64). pose proof (Nat.div_mod_eq (length m + S k) 64). lia. }
    rewrite (proj2 (Z.eqb_neq _ _)) by lia.
    destruct (IH k (SHA1Update ctx [0] 1).1 (m ++ [0])) as (ctx' & E & Hr').
    + by apply one_byte_repr.
    + rewrite length_app. simpl. by replace (length m + 1 + k)%nat with (length m + S k)%nat by lia.
    + lia.
    + lia.
    + exists ctx'. split; [done |]. by rewrite <- app_assoc in Hr'.
Qed.

Lemma byte_of_sum hi lo k : is_word lo → 0 <= k < 8 →
  Z.land (Z.shiftr (if 4 <=? k then hi else lo) (8 * (k mod 4))) 255 = ((hi * 2 ^ 32 + lo) / 2 ^ (8 * k)) mod 256.
Proof.
  unfold in_u. intros Hlo Hk. pose proof (Z.mod_pos_bound k 4).
  rewrite (land_mask _ 8), Z.shiftr_div_pow2 by lia. change (2 ^ 8) with 256. destruct (Z.leb_spec 4 k).
  - replace (k mod 4) with (k - 4) by (apply (Z.mod_unique_pos _ _ 1); lia).
    replace (8 * k) with (32 + 8 * (k - 4)) by lia. rewrite Z.pow_add_r, <- Z.div_div by (try lia; apply Z.pow_pos_nonneg; lia).
    rewrite Z.add_comm, Z.div_add by lia. by rewrite (Z.div_small lo).
  - rewrite (Z.mod_small k) by lia. replace (hi * 2 ^ 32) with (hi * 2 ^ (24 - 8 * k) * 256 * 2 ^ (8 * k)).
    + rewrite Z.add_comm, Z.div_add by (apply Z.pow_nonzero; lia). by rewrite Z_mod_plus_full.
    + change 256 with (2 ^ 8). rewrite <- !Z.mul_assoc, <- !Z.pow_add_r by lia. do 2 f_equal. lia.
Qed.

Lemma finalcount_spec ctx m : repr ctx m → finalcount ctx = fips.be_bytes 8 (8 * Z.of_nat (length m)).
Proof.
  intros Hr. pose proof Hr as [_ [H0 H1] Hc _ _ _]. unfold finalcount, fips.be_bytes.
  assert (∀ k : nat, (k < 8)%nat → Z.land (Z.shiftr (if 4 <=? Z.of_nat k then count1 ctx else count0 ctx) (8 * (Z.of_nat k mod 4))) 255 =
    (8 * Z.of_nat (length m) / 2 ^ (8 * Z.of_nat k)) mod 256) as Hb.
  { intros k Hk. rewrite byte_of_sum by (done || lia). rewrite Hc.
    rewrite <- !(land_mask _ 8), <- !Z.shiftr_div_pow2, <- (land_mask _ 64) by lia.
    apply Z.bits_inj'. intros n Hn. rewrite !Z.land_spec, !Z.shiftr_spec, Z.land_spec by done.
    change (2 ^ 8 - 1) with (Z.ones 8). change (2 ^ 64 - 1) with (Z.ones 64). rewrite !Z.testbit_ones by lia.
    destruct (Z.ltb_spec n 8); [| by rewrite !andb_false_r]. rewrite (proj2 (Z.ltb_lt (n + 8 * Z.of_nat k) 64)) by lia.
    rewrite (proj2 (Z.leb_le 0 (n + 8 * Z.of_nat k))) by lia. by rewrite andb_true_r. }
  change (reverse (seq 0 8)) with [7; 6; 5; 4; 3; 2; 1; 0]%nat. cbn [fmap list_fmap].
  rewrite <- !Hb by lia. reflexivity.
Qed.

Lemma pad_length (m : list Z) : ((length m + 1 + Z.to_nat ((55 - Z.of_nat (length m)) mod 64)%Z) mod 64 = 56)%nat.
Proof.
  apply Nat2Z.inj. rewrite Nat2Z.inj_mod, !Nat2Z.inj_add, Z2Nat.id by (apply Z.mod_pos_bound; lia).
  change (Z.of_nat 64) with 64. change (Z.of_nat 1) with 1. change (Z.of_nat 56) with 56. Z.to_euclidean_division_equations. lia.
Qed.

(** C10.  Hashing a message in any division into chunks gives the SHA-1
    digest of FIPS 180 of the whole message: [SHA1Init], [SHA1Update] per
    chunk and [SHA1Final] never fail, keep the bit count across the two
    32-bit counters, and pad as the standard says, whatever the buffer
    contained before; nothing of the message is left in the context. *)
Theorem SHA1_correct chunks garbage :
  Forall (λ d, Forall is_byte d ∧ Z.of_nat (length d) < 2 ^ 32 - 64) chunks → length garbage = 64%nat →
  SHA1 chunks garbage = Some (fips.sha1 (concat chunks), mk_ctx (replicate 5 0) 0 0 (replicate 64 0)).
Proof.
  intros Hc Hg. unfold SHA1. pose proof (chunks_repr chunks Hc _ _ (init_repr garbage Hg)) as Hr. cbn [app] in Hr.
  set (m := concat chunks) in *. set (ctx := fold_left _ _ _) in *. unfold SHA1Final.
  rewrite (finalcount_spec _ _ Hr). set (k := Z.to_nat ((55 - Z.of_nat (length m)) mod 64)).
  assert (k < 64)%nat as Hk by (unfold k; pose proof (Z.mod_pos_bound (55 - Z.of_nat (length m)) 64); lia).
  destruct (pad_loop_spec 65 k (SHA1Update ctx [128] 1).1 (m ++ [128])) as (ctx2 & E & Hr2).
  { by apply one_byte_repr. } { rewrite length_app. apply pad_length. } { done. } { lia. }
  rewrite E. set (fc := fips.be_bytes 8 (8 * Z.of_nat (length m))).
  assert (repr (SHA1Update ctx2 fc 8).1 (fips.pad m)) as Hr3.
  { unfold fips.pad. fold k fc. replace (m ++ [128] ++ replicate k 0 ++ fc) with (((m ++ [128]) ++ replicate k 0) ++ fc) by (by rewrite <- !app_assoc).
    apply (update_repr ctx2 _ fc Hr2); [| done]. unfold fc, fips.be_bytes. apply Forall_fmap, Forall_forall. intros x _.
    cbn. unfold in_u. apply Z.mod_pos_bound. done. }
  do 2 f_equal. unfold fips.sha1. rewrite <- (rp_state _ _ Hr3). pose proof (length_absorb (length (fips.pad m) / 64) fips.H0 (fips.pad m) eq_refl) as H5.
  rewrite <- (rp_state _ _ Hr3) in H5. generalize dependent (state (SHA1Update ctx2 fc 8).1). clear. intros st H5.
  do 5 (destruct st as [| ? st]; [done |]). destruct st; [| done].
  cbn [mbind list_bind app]. unfold fips.be_bytes. change (reverse (seq 0 4)) with [3; 2; 1; 0]%nat. cbn [fmap list_fmap app].
  rewrite !(land_mask _ 8), !Z.shiftr_div_pow2 by done. reflexivity.
Qed.

Lemma SHA1_correct_witness :
  SHA1 [[97]; [98; 99]] (replicate 64 0) = Some (fips.sha1 [97; 98; 99], mk_ctx (replicate 5 0) 0 0 (replicate 64 0)).
Proof. apply (SHA1_correct [[97]; [98; 99]] (replicate 64 0)); [by repeat constructor | reflexivity]. Defined.

(** ** The printed form of the digest *)

(** The letters, the digits, [-] and [_]. *)
Definition charz : list Z :=
  [65; 66; 67; 68; 69; 70; 71; 72; 73; 74; 75; 76; 77; 78; 79; 80; 81; 82; 83; 84; 85; 86; 87; 88; 89; 90;
   97; 98; 99; 100; 101; 102; 103; 104; 105; 106; 107; 108; 109; 110; 111; 112; 113; 114; 115; 116; 117; 118; 119; 120; 121; 122;
   48; 49; 50; 51; 52; 53; 54; 55; 56; 57; 45; 95].

(** The inner loop: four characters from one 24-bit value. *)
Fixpoint base64_chars (j : nat) (bv : Z) : list Z :=
  match j with
  | O => []
  | S j => charz !!! Z.to_nat (Z.land (Z.shiftr bv 18) 63) :: base64_chars j (u32 (Z.shiftl bv 6))
  end.

Fixpoint base64_groups (i : nat) (p : list Z) : list Z :=
  match i with
  | O => []
  | S i =>
      let bv := Z.lor (Z.lor (Z.shiftl (p !!! 0%nat) 16) (Z.shiftl (p !!! 1%nat) 8)) (p !!! 2%nat) in
      base64_chars 4 bv ++ base64_groups i (drop 3 p)
  end.

(** The last character is replaced by the terminator. *)
Definition mybase64 (digest : list Z) : list Z := take 27 (base64_groups 7 (digest ++ [0])).

(** Reading the printed form back. *)
Definition digit (c : Z) : Z := match list_find (c =.) charz with Some (i, _) => Z.of_nat i | None => 0 end.

Fixpoint unbase64 (i : nat) (s : list Z) : list Z :=
  match i with
  | O => []
  | S i =>
      let v := digit (s !!! 0%nat) * 2 ^ 18 + digit (s !!! 1%nat) * 2 ^ 12 + digit (s !!! 2%nat) * 2 ^ 6 + digit (s !!! 3%nat) in
      v / 2 ^ 16 :: (v / 2 ^ 8) mod 256 :: v mod 256 :: unbase64 i (drop 4 s)
  end.

Lemma digit_charz k : 0 <= k < 64 → digit (charz !!! Z.to_nat k) = k.
Proof.
  assert (Forall (λ k : nat, digit (charz !!! k) = Z.of_nat k) (seq 0 64)) as Hall by (by repeat constructor).
  intros Hk. rewrite Forall_forall in Hall. rewrite Hall; [lia |]. apply elem_of_seq. lia.
Qed.

Lemma lor_shift x y n : 0 <= n → 0 <= y < 2 ^ n → Z.lor (Z.shiftl x n) y = x * 2 ^ n + y.
Proof.
  intros Hn Hy. rewrite Z.shiftl_mul_pow2 by done. assert (Z.land (x * 2 ^ n) y = 0) as Hd.
  { apply Z.bits_inj'. intros k Hk. rewrite Z.land_spec, Z.bits_0. destruct (Z.lt_ge_cases k n).
    - by rewrite Z.mul_pow2_bits_low.
    - rewrite (testbit_high n y k) by (done || lia). by rewrite andb_false_r. }
  rewrite <- Z.lxor_lor, <- Z.add_nocarry_lxor by done. done.
Qed.

Lemma group_value b0 b1 b2 : is_byte b0 → is_byte b1 → is_byte b2 →
  Z.lor (Z.lor (Z.shiftl b0 16) (Z.shiftl b1 8)) b2 = b0 * 65536 + b1 * 256 + b2.
Proof.
  unfold in_u. intros H0 H1 H2. rewrite (lor_shift b0 (Z.shiftl b1 8) 16) by (rewrite ?Z.shiftl_mul_pow2; lia). rewrite Z.shiftl_mul_pow2 by lia.
  replace (b0 * 2 ^ 16 + b1 * 2 ^ 8) with (Z.shiftl (b0 * 256 + b1) 8) by (rewrite Z.shiftl_mul_pow2; lia).
  rewrite lor_shift by lia. lia.
Qed.

(** The four characters stand for the four groups of six bits. *)
Lemma base64_chars_spec v : 0 <= v < 16777216 →
  base64_chars 4 v = (λ k, charz !!! Z.to_nat k) <$> [v / 262144; v / 4096 mod 64; v / 64 mod 64; v mod 64].
Proof.
  intros Hv. cbn [base64_chars fmap list_fmap]. unfold wrapu.
  rewrite !(land_mask _ 6), !Z.shiftr_div_pow2, !Z.shiftl_mul_pow2 by lia. change (2 ^ 18) with 262144. change (2 ^ 6) with 64. change (2 ^ 32) with 4294967296.
  assert (v / 262144 mod 64 = v / 262144) as -> by (apply Z.mod_small; Z.to_euclidean_division_equations; lia).
  assert ((v * 64) mod 4294967296 / 262144 mod 64 = v / 4096 mod 64) as -> by (Z.to_euclidean_division_equations; lia).
  assert (((v * 64) mod 4294967296 * 64) mod 4294967296 / 262144 mod 64 = v / 64 mod 64) as -> by (Z.to_euclidean_division_equations; lia).
  assert ((((v * 64) mod 4294967296 * 64) mod 4294967296 * 64) mod 4294967296 / 262144 mod 64 = v mod 64) as -> by (Z.to_euclidean_division_equations; lia).
  done.
Qed.

(** Three bytes are recovered from their four characters; when the third byte
    is 0 the last character is not needed. *)
Lemma base64_group b0 b1 b2 s : is_byte b0 → is_byte b1 → is_byte b2 →
  take 4 s = base64_chars 4 (b0 * 65536 + b1 * 256 + b2) ∨
  (b2 = 0 ∧ s = take 3 (base64_chars 4 (b0 * 65536 + b1 * 256 + b2))) →
  ∀ i, unbase64 (S i) s = b0 :: b1 :: b2 :: unbase64 i (drop 4 s).
Proof.
  unfold in_u. change (2 ^ 8) with 256. intros H0 H1 H2 Hs i. set (v := b0 * 65536 + b1 * 256 + b2) in *.
  assert (0 <= v < 16777216) as Hv by (unfold v; lia). rewrite base64_chars_spec in Hs by done. cbn [fmap list_fmap] in Hs.
  assert (digit (s !!! 0%nat) = v / 262144 ∧ digit (s !!! 1%nat) = v / 4096 mod 64 ∧ digit (s !!! 2%nat) = v / 64 mod 64 ∧
          digit (s !!! 3%nat) = v mod 64) as (Hd0 & Hd1 & Hd2 & Hd3).
  { assert (0 <= v / 262144 < 64) by (Z.to_euclidean_division_equations; lia).
    destruct Hs as [Hs | [-> ->]].
    - do 4 (destruct s as [| ? s]; [done |]). cbn [take] in Hs. simplify_eq.
      split_and!; apply digit_charz; done || apply Z.mod_pos_bound; lia.
    - cbn [take lookup_total list_lookup_total]. split_and!; try (apply digit_charz; done || apply Z.mod_pos_bound; lia).
      transitivity 0; [reflexivity |]. unfold v. Z.to_euclidean_division_equations. lia. }
  cbn [unbase64]. rewrite Hd0, Hd1, Hd2, Hd3. change (2 ^ 18) with 262144. change (2 ^ 12) with 4096. change (2 ^ 6) with 64.
  change (2 ^ 16) with 65536. change (2 ^ 8) with 256.
  replace (v / 262144 * 262144 + v / 4096 mod 64 * 4096 + v / 64 mod 64 * 64 + v mod 64) with v by (Z.to_euclidean_division_equations; lia).
  assert (v / 65536 = b0 ∧ v / 256 mod 256 = b1 ∧ v mod 256 = b2) as (-> & -> & ->); [| done].
  unfold v. split_and!; Z.to_euclidean_division_equations; lia.
Qed.

Lemma unbase64_groups n : ∀ p b0 b1, length p = (3 * n)%nat → Forall is_byte p → is_byte b0 → is_byte b1 →
  unbase64 (S n) (take (4 * n + 3) (base64_groups (S n) (p ++ [b0; b1; 0]))) = p ++ [b0; b1; 0].
Proof.
  induction n as [| n IH]; intros p b0 b1 Hl Hp H0 H1.
  - destruct p; [| done]. cbn [app base64_groups]. rewrite group_value by (done || by unfold in_u). rewrite app_nil_r.
    rewrite (base64_group b0 b1 0); [reflexivity | done | done | by unfold in_u | by right].
  - do 3 (destruct p as [| ? p]; [simpl in Hl; lia |]). repeat (apply Forall_cons in Hp as [? Hp]). cbn [app length] in *.
    change (base64_groups (S (S n)) (z :: z0 :: z1 :: p ++ [b0; b1; 0])) with
      (base64_chars 4 (Z.lor (Z.lor (Z.shiftl z 16) (Z.shiftl z0 8)) z1) ++ base64_groups (S n) (p ++ [b0; b1; 0])).
    rewrite group_value by done. assert (∀ v, length (base64_chars 4 v) = 4%nat) as H4 by done.
    rewrite take_app, H4, (take_ge (base64_chars 4 _)) by (rewrite H4; lia).
    rewrite (base64_group z z0 z1); [| done | done | done |].
    + rewrite drop_app, H4, drop_ge by (rewrite H4; lia). cbn [Nat.sub app drop]. rewrite drop_0.
      replace (4 * S n + 3 - 4)%nat with (4 * n + 3)%nat by lia. rewrite IH; [done | lia | done | done | done].
    + left. rewrite take_app, H4, take_ge by (rewrite H4; lia). rewrite Nat.sub_diag. by rewrite app_nil_r.
Qed.

(** The printed name determines the digest: reading its 27
    characters back gives the 20 bytes (and the padding byte). *)
Theorem mybase64_roundtrip digest :
  length digest = 20%nat → Forall is_byte digest → unbase64 7 (mybase64 digest) = digest ++ [0].
Proof.
  intros Hl Hb. unfold mybase64. assert (∃ p b0 b1, digest = p ++ [b0; b1] ∧ length p = 18%nat) as (p & b0 & b1 & -> & Hp).
  { do 20 (destruct digest as [| ? digest]; [done |]). destruct digest; [| done]. eexists [_; _; _; _; _; _; _; _; _; _; _; _; _; _; _; _; _; _], _, _.
    split; reflexivity. }
  apply Forall_app in Hb as [Hbp Hb]. apply Forall_cons in Hb as [H0 Hb]. apply Forall_cons in Hb as [H1 _].
  rewrite <- !app_assoc. cbn [app]. by apply (unbase64_groups 6).
Qed.

Lemma mybase64_roundtrip_witness : unbase64 7 (mybase64 (replicate 20 200)) = replicate 20 200 ++ [0].
Proof. apply mybase64_roundtrip; [reflexivity | by repeat constructor]. Defined.
