(* ===== verification/Rand48.v ===== *)
(** * Pseudo-random numbers: [klibc/jrand48.c], [lrand48.c], [mrand48.c],
      [nrand48.c], [srand48.c], [seed48.c]

    The generator keeps 48 bits in three unsigned shorts and computes with
    64-bit words. *)

From stdpp Require Import base numbers list.
From Stdlib Require Import Lia.
From S2P Require Import Prelude.

(** [unsigned short xsubi[3]] *)
Record seed := mk_seed { x0 : Z; x1 : Z; x2 : Z }.

(** ** The code *)

Definition jrand48 (xsubi : seed) : Z * seed :=
  let x := u64 (u64 (u16 (x0 xsubi) + u64 (Z.shiftl (u16 (x1 xsubi)) 16)) + u64 (Z.shiftl (u16 (x2 xsubi)) 32)) in
  let x := u64 (u64 (0x5deece66d * x) + 0xb) in
  (s32 (Z.shiftr x 16), mk_seed (u16 x) (u16 (Z.shiftr x 16)) (u16 (Z.shiftr x 32))).

Definition nrand48 (xsubi : seed) : Z * seed :=
  let '(r, s) := jrand48 xsubi in (Z.shiftr (u32 r) 1, s).

(** The functions without an argument use [__rand48_seed]. *)
Definition mrand48 : seed → Z * seed := jrand48.

Definition lrand48 (s : seed) : Z * seed :=
  let '(r, s) := jrand48 s in (Z.shiftr (u32 r) 1, s).

Definition srand48 (seedval : Z) : seed := mk_seed 0x330e (u16 seedval) (u16 (Z.shiftr (u32 seedval) 16)).

(** The old seed and the new one. *)
Definition seed48 (xsubi s : seed) : seed * seed := (s, xsubi).

(** ** The linear congruential generator *)

Definition wf (s : seed) : Prop := in_u 16 (x0 s) ∧ in_u 16 (x1 s) ∧ in_u 16 (x2 s).

(** The 48-bit number the seed stands for. *)
Definition value (s : seed) : Z := x0 s + x1 s * 2 ^ 16 + x2 s * 2 ^ 32.

Definition lcg (x : Z) : Z := (0x5deece66d * x + 0xb) mod 2 ^ 48.

Lemma value_range s : wf s → in_u 48 (value s).
Proof.
  unfold wf, in_u, value. change (2 ^ 16) with 65536. change (2 ^ 32) with 4294967296. change (2 ^ 48) with 281474976710656. lia.
Qed.

Lemma value_inj s t : wf s → wf t → value s = value t → s = t.
Proof.
  destruct s as [a b c], t as [d e f]. unfold wf, in_u, value. cbn. change (2 ^ 16) with 65536. change (2 ^ 32) with 4294967296.
  intros (? & ? & ?) (? & ? & ?) Heq. assert (a = d ∧ b = e ∧ c = f) as (-> & -> & ->) by lia. done.
Qed.

Lemma jrand48_value s : wf s →
  wf (jrand48 s).2 ∧ value (jrand48 s).2 = lcg (value s) ∧ (jrand48 s).1 = s32 (lcg (value s) / 2 ^ 16).
Proof.
  intros Hs. pose proof (value_range s Hs) as Hv. destruct Hs as (H0 & H1 & H2). unfold jrand48.
  rewrite !(wrapu_small 16) by done. rewrite !Z.shiftl_mul_pow2 by lia.
  assert (∀ z, in_u 48 z → u64 z = z) as H64.
  { intros z Hz. apply wrapu_small. unfold in_u in *. pose proof (Z.pow_lt_mono_r 2 48 64). lia. }
  unfold in_u, value in *. change (2 ^ 16) with 65536 in *. change (2 ^ 32) with 4294967296 in *. change (2 ^ 48) with 281474976710656 in *.
  rewrite (H64 (x1 s * 65536)), (H64 (x2 s * 4294967296)), (H64 (x0 s + x1 s * 65536)), (H64 (x0 s + x1 s * 65536 + x2 s * 4294967296)) by lia.
  set (v := x0 s + x1 s * 65536 + x2 s * 4294967296) in *. 
  set (x := (0x5deece66d * v + 0xb) mod 2 ^ 64).
  assert (u64 (u64 (0x5deece66d * v) + 0xb) = x) as -> by (unfold x, wrapu; by rewrite Zplus_mod_idemp_l). cbn [fst snd]. rewrite !Z.shiftr_div_pow2 by lia.
  assert (lcg v = x mod 281474976710656) as Hlcg.
  { unfold lcg, x. change (2 ^ 64) with (281474976710656 * 65536). rewrite Z.rem_mul_r by lia.
    change (2 ^ 48) with 281474976710656. rewrite (Z.mul_comm 281474976710656 (_ mod 65536)), Z_mod_plus_full, Z.mod_mod by lia. done. }
  rewrite Hlcg. assert (0 <= x < 18446744073709551616) as Hx by (unfold x; apply Z.mod_pos_bound; done). clearbody x.
  split_and!.
  - repeat split; apply wrapu_range; lia.
  - cbn [x0 x1 x2]. unfold wrapu. change (2 ^ 16) with 65536. change (2 ^ 32) with 4294967296. Z.to_euclidean_division_equations. lia.
  - unfold wraps. change (2 ^ 16) with 65536. change (2 ^ 32) with 4294967296. change (2 ^ (32 - 1)) with 2147483648.
    f_equal. Z.to_euclidean_division_equations. lia.
Qed.

(** The three shorts hold the state of the 48-bit linear
    congruential generator of POSIX, and [lrand48] and [mrand48] return its
    high-order 31 and 32 bits. *)
Theorem rand48_correct s : wf s →
  wf (lrand48 s).2 ∧ value (lrand48 s).2 = lcg (value s) ∧ (lrand48 s).1 = lcg (value s) / 2 ^ 17 ∧
  (mrand48 s).2 = (lrand48 s).2 ∧ (mrand48 s).1 = s32 (lcg (value s) / 2 ^ 16).
Proof.
  intros Hs. destruct (jrand48_value s Hs) as (Hwf & Hv & Hr). unfold lrand48, mrand48. destruct (jrand48 s) as [r s'].
  cbn [fst snd] in *. split_and!; try done. subst r. rewrite wrapu_wraps, Z.shiftr_div_pow2 by lia.
  assert (0 <= lcg (value s) < 2 ^ 48) as Hl by (apply Z.mod_pos_bound; done). unfold wrapu.
  change (2 ^ 48) with 281474976710656 in Hl. change (2 ^ 16) with 65536. change (2 ^ 32) with 4294967296. change (2 ^ 17) with 131072. change (2 ^ 1) with 2.
  Z.to_euclidean_division_equations. lia.
Qed.

Lemma rand48_correct_witness : (lrand48 (srand48 1)).1 = lcg (value (srand48 1)) / 2 ^ 17.
Proof. apply (rand48_correct (srand48 1)). repeat split. all: done. Defined.

(** The generator loses no state: different seeds have
    different successors, so that every sequence is a cycle. *)
Theorem jrand48_injective s t : wf s → wf t → (jrand48 s).2 = (jrand48 t).2 → s = t.
Proof.
  intros Hs Ht Heq. apply value_inj; [done | done |]. destruct (jrand48_value s Hs) as (_ & Hvs & _).
  destruct (jrand48_value t Ht) as (_ & Hvt & _). rewrite Heq, Hvt in Hvs. unfold lcg in Hvs.
  pose proof (value_range s Hs) as Hrs. pose proof (value_range t Ht) as Hrt. unfold in_u in *.
  set (a := value s) in *. set (b := value t) in *.
  assert ((2 ^ 48 | 0x5deece66d * (a - b))) as Hdiv.
  { apply Z.mod_divide; [done |]. replace (0x5deece66d * (a - b)) with (0x5deece66d * a + 0xb - (0x5deece66d * b + 0xb)) by lia.
    rewrite Zminus_mod, Hvs, Z.sub_diag. done. }
  apply Z.gauss in Hdiv as [k Hk]; [| reflexivity]. assert (k = 0) by nia. lia.
Qed.

Lemma jrand48_injective_witness : (jrand48 (srand48 1)).2 = (jrand48 (srand48 (2 ^ 32 + 1))).2 ∧ srand48 1 = srand48 (2 ^ 32 + 1).
Proof.
  split; [reflexivity |]. apply jrand48_injective; [repeat split; done | repeat split; done | reflexivity].
Defined.

(** [srand48] sets the high 32 bits from the seed and the low 16 to 0x330e. *)
Lemma srand48_value seedval : wf (srand48 seedval) ∧ value (srand48 seedval) = u32 seedval * 2 ^ 16 + 0x330e.
Proof.
  split; [repeat split; try done; apply wrapu_range; lia |]. unfold value, srand48. cbn [x0 x1 x2]. unfold wrapu.
  rewrite Z.shiftr_div_pow2 by lia. change (2 ^ 16) with 65536. change (2 ^ 32) with 4294967296.
  Z.to_euclidean_division_equations. lia.
Qed.
