(* ===== verification/Scanf.v ===== *)
(** * Formatted input: [klibc/vsscanf.c]

    The character-driven state machine of [vsscanf] over the memory of
    [Memory]; the variadic arguments are the list of the pointers that
    [va_arg] will deliver.

    The second half reads a format as a list of directives and gives each
    directive its effect on the rest of the input ([effect_of]); the machine is
    shown to perform exactly those effects.  The conversion [%[] leaves the
    machine in its [st_match] state, so it is only specified as the last
    directive of a format. *)

From stdpp Require Import base numbers list gmap.
From Stdlib Require Import Lia.
From S2P Require Import Prelude Memory Ctype MemOps StrOps Numparse.

(** ** The code *)

Definition FL_SPLAT : Z := 0x01.
Definition FL_INV : Z := 0x02.
Definition FL_WIDTH : Z := 0x04.

(** [flags & mask] as a condition. *)
Definition has (flags mask : Z) : bool := negb (Z.land flags mask =? 0).

Definition rank_char : Z := -2.
Definition rank_short : Z := -1.
Definition rank_int : Z := 0.
Definition rank_long : Z := 1.
Definition rank_longlong : Z := 2.
Definition rank_ptr : Z := 2 ^ 31 - 1.

Definition MIN_RANK : Z := rank_char.
Definition MAX_RANK : Z := rank_longlong.
Definition INTMAX_RANK : Z := rank_longlong.
Definition SIZE_T_RANK : Z := rank_long.
Definition PTRDIFF_T_RANK : Z := rank_long.

Definition UINT_MAX : Z := 2 ^ 32 - 1.

Inductive bail := bail_none | bail_eof | bail_err.
Inductive scan_state := st_normal | st_flags | st_width | st_modifiers | st_match_init | st_match | st_match_range.

Global Instance bail_eq_dec : EqDecision bail.
Proof. solve_decision. Defined.

Fixpoint skipspace_loop (fuel : nat) (p : Z) : C Z :=
  match fuel with
  | O => fault
  | S f => ch ← load8 p; sp ← lift (isspace ch); if sp =? 0 then mret p else skipspace_loop f (p + 1)
  end.
Definition skipspace (p : Z) : C Z := with_fuel (λ fuel, skipspace_loop fuel p).

(** The bitmap is an array of [unsigned long]. *)
Definition set_bit (bitmap : list Z) (bit : Z) : list Z :=
  let i := Z.to_nat (bit / 64) in <[i := Z.lor (bitmap !!! i) (u64 (Z.shiftl 1 (bit mod 64)))]> bitmap.
Definition test_bit (bitmap : list Z) (bit : Z) : Z :=
  Z.land (s32 (Z.shiftr (bitmap !!! Z.to_nat (bit / 64)) (bit mod 64))) 1.

(** The local variables; [ap] is what is left of the arguments. *)
Record sf := mk_sf {
  state : scan_state;
  flags : Z;
  rank : Z;
  width : Z;
  q : Z;
  bailed : bail;
  converted : Z;
  ap : list Z;
  sarg : Z;
  matchmap : list Z;
  matchinv : bool;
  range_start : Z;
}.

Definition set_state v s := mk_sf v (flags s) (rank s) (width s) (q s) (bailed s) (converted s) (ap s) (sarg s) (matchmap s) (matchinv s) (range_start s).
Definition set_flags v s := mk_sf (state s) v (rank s) (width s) (q s) (bailed s) (converted s) (ap s) (sarg s) (matchmap s) (matchinv s) (range_start s).
Definition set_rank v s := mk_sf (state s) (flags s) v (width s) (q s) (bailed s) (converted s) (ap s) (sarg s) (matchmap s) (matchinv s) (range_start s).
Definition set_width v s := mk_sf (state s) (flags s) (rank s) v (q s) (bailed s) (converted s) (ap s) (sarg s) (matchmap s) (matchinv s) (range_start s).
Definition set_q v s := mk_sf (state s) (flags s) (rank s) (width s) v (bailed s) (converted s) (ap s) (sarg s) (matchmap s) (matchinv s) (range_start s).
Definition set_bail v s := mk_sf (state s) (flags s) (rank s) (width s) (q s) v (converted s) (ap s) (sarg s) (matchmap s) (matchinv s) (range_start s).
Definition set_converted v s := mk_sf (state s) (flags s) (rank s) (width s) (q s) (bailed s) v (ap s) (sarg s) (matchmap s) (matchinv s) (range_start s).
Definition set_ap v s := mk_sf (state s) (flags s) (rank s) (width s) (q s) (bailed s) (converted s) v (sarg s) (matchmap s) (matchinv s) (range_start s).
Definition set_sarg v s := mk_sf (state s) (flags s) (rank s) (width s) (q s) (bailed s) (converted s) (ap s) v (matchmap s) (matchinv s) (range_start s).
Definition set_matchmap v s := mk_sf (state s) (flags s) (rank s) (width s) (q s) (bailed s) (converted s) (ap s) (sarg s) v (matchinv s) (range_start s).
Definition set_matchinv v s := mk_sf (state s) (flags s) (rank s) (width s) (q s) (bailed s) (converted s) (ap s) (sarg s) (matchmap s) v (range_start s).
Definition set_range_start v s := mk_sf (state s) (flags s) (rank s) (width s) (q s) (bailed s) (converted s) (ap s) (sarg s) (matchmap s) (matchinv s) v.

Definition va_arg (s : sf) : C (Z * sf) := λ m,
  match ap s with a :: l => Some ((a, set_ap l s), m) | [] => None end.

Definition splat (s : sf) : bool := has (flags s) FL_SPLAT.

(** [set_integer:] *)
Definition set_integer (val : Z) (s : sf) : C sf :=
  if splat s then mret s
  else
    let store k := '(p, s) ← va_arg s; store_le k p val;; mret s in
    if rank s =? rank_char then store 1%nat
    else if rank s =? rank_short then store 2%nat
    else if rank s =? rank_int then store 4%nat
    else if rank s =? rank_long then store 8%nat
    else if rank s =? rank_longlong then store 8%nat
    else if rank s =? rank_ptr then store 8%nat
    else mret s.

(** [scan_int:], which falls through to [set_integer]. *)
Definition scan_int (base : Z) (s : sf) : C sf :=
  q ← skipspace (q s);
  let s := set_q q s in
  c ← loadc q;
  if c =? 0 then mret (set_bail bail_eof s)
  else
    '(val, qq) ← strntoumax q base (width s);
    if qq =? q then mret (set_bail bail_err s)
    else
      let s := set_q qq s in
      let s := if splat s then s else set_converted (converted s + 1) s in
      set_integer val s.

(** [while (width--) if (!*q) { bail = bail_eof; break; }]: true if the
    end of the input was met. *)
Fixpoint splat_chars (width : nat) (q : Z) : C bool :=
  match width with
  | O => mret false
  | S width => c ← loadc q; if c =? 0 then mret true else splat_chars width q
  end.

(** The loop of [%c]: whether it met the end of the input, and [q]. *)
Fixpoint copy_chars (fuel : nat) (width q sarg : Z) : C (bool * Z) :=
  if width =? 0 then mret (false, q)
  else match fuel with
       | O => fault
       | S f =>
           c ← load8 q;
           if c =? 0 then mret (true, q) else store8 sarg c;; copy_chars f (width - 1) (q + 1) (sarg + 1)
       end.

(** The two loops of [%s], which differ in the store only: [uc], [q], [sp]. *)
Fixpoint scan_word (fuel : nat) (store : bool) (width uc q sp : Z) : C (Z * Z * Z) :=
  if width =? 0 then mret (uc, q, sp)
  else match fuel with
       | O => fault
       | S f =>
           uc ← load8 q;
           if uc =? 0 then mret (uc, q, sp)
           else
             space ← lift (isspace uc);
             if space =? 0 then
               (if store then store8 sp uc else mret tt);;
               scan_word f store (width - 1) uc (q + 1) (if store then sp + 1 else sp)
             else mret (uc, q, sp)
       end.

(** The loop of [match_run:]; [width] is tested but not counted down. *)
Fixpoint scan_set (fuel : nat) (map : list Z) (inv : bool) (width uc q sarg : Z) : C (Z * Z * Z) :=
  if width =? 0 then mret (uc, q, sarg)
  else match fuel with
       | O => fault
       | S f =>
           uc ← load8 q;
           if uc =? 0 then mret (uc, q, sarg)
           else if Z.lxor (test_bit map uc) (Z.b2z inv) =? 0 then mret (uc, q, sarg)
           else
             (if sarg =? NULL then mret tt else store8 sarg uc);;
             scan_set f map inv width uc (q + 1) (if sarg =? NULL then sarg else sarg + 1)
       end.

(** [match_run:]; the state is not changed back to [st_normal]. *)
Definition match_run (s : sf) : C sf :=
  let qq := q s in
  '(uc, q, sarg) ← with_fuel (λ fuel, scan_set fuel (matchmap s) (matchinv s) (width s) 1 qq (sarg s));
  let s := set_sarg sarg (set_q q s) in
  s ← (if negb (q =? qq) && negb (sarg =? NULL)
       then store8 sarg 0;; mret (set_converted (converted s + 1) s)
       else mret (set_bail bail_err s));
  mret (if uc =? 0 then set_bail bail_eof s else s).

(** The terminal characters of a directive. *)
Definition conversion (buffer ch : Z) (s : sf) : C sf :=
  let s := set_state st_normal s in
  let s := if rank s <? MIN_RANK then set_rank MIN_RANK s
           else if MAX_RANK <? rank s then set_rank MAX_RANK s else s in
  if (ch =? 80) || (ch =? 112) then scan_int 0 (set_rank rank_ptr s)  (* P p *)
  else if ch =? 105 then scan_int 0 s                                 (* i *)
  else if ch =? 100 then scan_int 10 s                                (* d *)
  else if ch =? 111 then scan_int 8 s                                 (* o *)
  else if ch =? 117 then scan_int 10 s                                (* u *)
  else if (ch =? 120) || (ch =? 88) then scan_int 16 s                (* x X *)
  else if ch =? 110 then set_integer (u64 (q s - buffer)) s           (* n *)
  else if ch =? 99 then                                               (* c *)
    let s := set_width (if has (flags s) FL_WIDTH then width s else 1) s in
    if splat s then
      eof ← splat_chars (Z.to_nat (width s)) (q s);
      mret (if eof : bool then set_bail bail_eof s else s)
    else
      '(sarg, s) ← va_arg s;
      '(eof, q) ← with_fuel (λ fuel, copy_chars fuel (width s) (q s) sarg);
      let s := set_q q s in
      mret (if eof : bool then set_bail bail_eof s else set_converted (converted s + 1) s)
  else if ch =? 115 then                                              (* s *)
    '(uc, s) ←
      (if splat s then
         '(uc, q, _) ← with_fuel (λ fuel, scan_word fuel false (width s) 1 (q s) NULL);
         mret (uc, set_q q s)
       else
         '(sarg, s) ← va_arg s;
         '(uc, q, sp) ← with_fuel (λ fuel, scan_word fuel true (width s) 1 (q s) sarg);
         let s := set_q q s in
         if sarg =? sp then mret (uc, s)
         else store8 sp 0;; mret (uc, set_converted (converted s + 1) s));
    mret (if uc =? 0 then set_bail bail_eof s else s)
  else if ch =? 91 then                                               (* [ *)
    '(sarg, s) ← (if splat s then mret (NULL, s) else va_arg s);
    mret (set_matchmap [0; 0; 0; 0] (set_matchinv false (set_state st_match_init (set_sarg sarg s))))
  else if ch =? 37 then                                               (* % *)
    c ← loadc (q s);
    mret (if c =? 37 then set_q (q s + 1) s else set_bail bail_err s)
  else mret (set_bail bail_err s).

(** [for (i = range_start; i < (unsigned char)ch; i++) set_bit(matchmap, i);] *)
Definition set_range (map : list Z) (lo hi : Z) : list Z := fold_left set_bit (seqZ lo (hi - lo)) map.

(** One iteration of the main loop: whether the character is processed again
    ([p--]), and the new state. *)
Definition vsscanf_step (buffer ch : Z) (s : sf) : C (bool * sf) :=
  match state s with
  | st_normal =>
      if ch =? 37 then
        mret (false, set_state st_flags (set_flags 0 (set_rank rank_int (set_width UINT_MAX s))))
      else
        sp ← lift (isspace (u8 ch));
        if negb (sp =? 0) then q ← skipspace (q s); mret (false, set_q q s)
        else
          c ← loadc (q s);
          mret (false, if c =? ch then set_q (q s + 1) s else set_bail bail_err s)
  | st_flags =>
      if ch =? 42 then mret (false, set_flags (Z.lor (flags s) FL_SPLAT) s)
      else if (48 <=? ch) && (ch <=? 57) then
        mret (false, set_flags (Z.lor (flags s) FL_WIDTH) (set_state st_width (set_width (ch - 48) s)))
      else mret (true, set_state st_modifiers s)
  | st_width =>
      if (48 <=? ch) && (ch <=? 57) then
        mret (false, set_width (u32 (u32 (width s * 10) + (ch - 48))) s)
      else mret (true, set_state st_modifiers s)
  | st_modifiers =>
      if ch =? 104 then mret (false, set_rank (rank s - 1) s)             (* h *)
      else if ch =? 108 then mret (false, set_rank (rank s + 1) s)        (* l *)
      else if ch =? 106 then mret (false, set_rank INTMAX_RANK s)         (* j *)
      else if ch =? 122 then mret (false, set_rank SIZE_T_RANK s)         (* z *)
      else if ch =? 116 then mret (false, set_rank PTRDIFF_T_RANK s)      (* t *)
      else if (ch =? 76) || (ch =? 113) then mret (false, set_rank rank_longlong s)
      else s ← conversion buffer ch s; mret (false, s)
  | st_match_init =>
      if (ch =? 94) && negb (has (flags s) FL_INV) then mret (false, set_matchinv true s)
      else mret (false, set_state st_match (set_matchmap (set_bit (matchmap s) (u8 ch)) s))
  | st_match =>
      if ch =? 93 then s ← match_run s; mret (false, s)
      else if ch =? 45 then mret (false, set_state st_match_range (set_range_start (u8 ch) s))
      else mret (false, set_matchmap (set_bit (matchmap s) (u8 ch)) s)
  | st_match_range =>
      if ch =? 93 then s ← match_run (set_matchmap (set_bit (matchmap s) 45) s); mret (false, s)
      else mret (false, set_state st_match (set_matchmap (set_range (matchmap s) (range_start s) (u8 ch)) s))
  end.

(** [while ((ch = *p++) && !bail)] *)
Fixpoint vsscanf_loop (fuel : nat) (buffer p : Z) (s : sf) : C sf :=
  match fuel with
  | O => fault
  | S f =>
      ch ← loadc p;
      if (ch =? 0) || negb (bool_decide (bailed s = bail_none)) then mret s
      else
        '(again, s) ← vsscanf_step buffer ch s;
        vsscanf_loop f buffer (if again : bool then p else p + 1) s
  end.

(** [matchmap] is uninitialised at first; [%[] clears it before it is used.
    Every character of the format is processed at most twice. *)
Definition vsscanf (buffer format : Z) (args : list Z) : C Z := λ m,
  (s ← vsscanf_loop (2 * S (size m)) buffer format
         (mk_sf st_normal 0 rank_int UINT_MAX buffer bail_none 0 args NULL [0; 0; 0; 0] false 0);
   mret (if bool_decide (bailed s = bail_eof) && (converted s =? 0) then -1 else converted s)) m.

(** [sscanf.c] *)
Definition sscanf (str format : Z) (args : list Z) : C Z := vsscanf str format args.

(** ** The directives of a format and their effects *)

(** A member of a scan set behind its first character: itself, or [-c], which
    the code reads as all characters from [-] up to but not including [c]. *)
Inductive set_item := Member (c : Z) | Upto (c : Z).

Inductive directive :=
  | White (c : Z)
  | Literal (c : Z)
  | Conv (sp : bool) (w mods : list Z) (c : Z)
  | Scanset (sp : bool) (w mods : list Z) (inv : bool) (first : Z) (items : list set_item) (dash : bool).

Definition item_text (i : set_item) : list Z := match i with Member c => [c] | Upto c => [45; c] end.

Definition prefix_text (sp : bool) (w mods : list Z) : list Z := 37 :: (if sp then [42] else []) ++ w ++ mods.

Definition set_text (inv : bool) (first : Z) (items : list set_item) (dash : bool) : list Z :=
  (if inv then [94] else []) ++ first :: (items ≫= item_text) ++ (if dash then [45] else []) ++ [93].

Definition directive_text (d : directive) : list Z :=
  match d with
  | White c | Literal c => [c]
  | Conv sp w mods c => prefix_text sp w mods ++ [c]
  | Scanset sp w mods inv first items dash => prefix_text sp w mods ++ 91 :: set_text inv first items dash
  end.

Definition format_text (ds : list directive) : list Z := ds ≫= directive_text.

(** *** Well-formed directives *)

Definition is_digit (c : Z) : bool := (48 <=? c) && (c <=? 57).
Definition is_mod (c : Z) : bool := bool_decide (c ∈ [104; 108; 106; 122; 116; 76; 113]).
Definition is_char (c : Z) : bool := (0 <? c) && (c <? 256).

Definition item_ok (i : set_item) : bool :=
  match i with
  | Member c => is_char c && negb (c =? 93) && negb (c =? 45)
  | Upto c => is_char c && negb (c =? 93)
  end.

Definition directive_ok (d : directive) : bool :=
  match d with
  | White c => is_char c && is_space c
  | Literal c => is_char c && negb (is_space c) && negb (c =? 37)
  | Conv _ w mods c =>
      forallb is_digit w && forallb is_mod mods && is_char c && negb (is_digit c) && negb (is_mod c) &&
      negb (c =? 42) && negb (c =? 91)
  | Scanset _ w mods _ first items _ =>
      forallb is_digit w && forallb is_mod mods && is_char first && negb (first =? 94) && forallb item_ok items
  end.

Definition is_set (d : directive) : bool := match d with Scanset _ _ _ _ _ _ _ => true | _ => false end.

Fixpoint format_ok (ds : list directive) : bool :=
  match ds with
  | [] => true
  | d :: ds => directive_ok d && (negb (is_set d) || bool_decide (ds = [])) && format_ok ds
  end.

(** *** Effects *)

(** The field width, as an [unsigned int]. *)
Definition width_value (w : list Z) : option Z :=
  match w with
  | [] => None
  | c :: w => Some (fold_left (λ v c, u32 (u32 (v * 10) + (c - 48))) w (c - 48))
  end.
Definition field_width (w : list Z) : Z := default UINT_MAX (width_value w).

Definition mod_rank (r c : Z) : Z :=
  if c =? 104 then r - 1 else if c =? 108 then r + 1 else if c =? 106 then INTMAX_RANK
  else if c =? 122 then SIZE_T_RANK else if c =? 116 then PTRDIFF_T_RANK else rank_longlong.
Definition mods_rank (mods : list Z) : Z := fold_left mod_rank mods rank_int.

(** The bytes of the object an integer conversion stores to. *)
Definition object_size (r : Z) : nat := if r <=? -2 then 1 else if r =? -1 then 2 else if r =? 0 then 4 else 8.

(** What a directive does: the stores it makes, the input it uses, the
    conversions it counts, whether scanning stops, and the arguments left. *)
Record effect := mk_effect {
  stores : list (Z * list Z);
  used : nat;
  count : Z;
  stop : bail;
  args_left : list Z;
}.

(** An integer object is stored unless the assignment is suppressed. *)
Definition int_effect (sp : bool) (size : nat) (v : Z) (k : nat) (n : Z) (args : list Z) : option effect :=
  if sp then Some (mk_effect [] k 0 bail_none args)
  else match args with
       | a :: args => Some (mk_effect [(a, le_list size v)] k n bail_none args)
       | [] => None
       end.

(** The first [width] characters of [t]. *)
Definition visible (width : Z) (t : list Z) : list Z := take (Z.to_nat (Z.min width (Z.of_nat (length t)))) t.

Definition number_effect (sp : bool) (width : Z) (size : nat) (base : Z) (t : list Z) (args : list Z) : option effect :=
  let k := span_len is_space t in
  let t := drop k t in
  if bool_decide (t = []) then Some (mk_effect [] k 0 bail_eof args)
  else
    let '(v, n) := parse_num base (visible width t) in
    if bool_decide (n = 0%nat) then Some (mk_effect [] k 0 bail_err args)
    else int_effect sp size v (k + n) 1 args.

(** [%c] takes exactly [width] characters; suppressed, it takes none. *)
Definition chars_effect (sp : bool) (width : Z) (t args : list Z) : option effect :=
  if sp then Some (mk_effect [] 0 0 (if negb (width =? 0) && bool_decide (t = []) then bail_eof else bail_none) args)
  else match args with
       | a :: args =>
           let got := visible width t in
           if Z.of_nat (length t) <? width then Some (mk_effect [(a, got)] (length got) 0 bail_eof args)
           else Some (mk_effect [(a, got)] (length got) 1 bail_none args)
       | [] => None
       end.

(** A run of characters satisfying [P], at most [width] of them. *)
Definition run_of (P : Z → bool) (width : Z) (t : list Z) : list Z :=
  let t := visible width t in take (span_len P t) t.

(** Whether the character behind the run was read and is the terminator. *)
Definition at_end (width : Z) (l t : list Z) : bool :=
  bool_decide (length l = length t) && (Z.of_nat (length l) <? width).

Definition word_effect (sp : bool) (width : Z) (t args : list Z) : option effect :=
  let word := run_of (λ c, negb (is_space c)) width t in
  let e := if at_end width word t then bail_eof else bail_none in
  if sp then Some (mk_effect [] (length word) 0 e args)
  else match args with
       | a :: args =>
           Some (if bool_decide (word = []) then mk_effect [] 0 0 e args
                 else mk_effect [(a, word ++ [0])] (length word) 1 e args)
       | [] => None
       end.

(** The set of characters: [first], the items, and a final [-]. *)
Definition item_has (b : Z) (i : set_item) : bool :=
  match i with Member c => b =? c | Upto c => (45 <=? b) && (b <? c) end.
Definition set_has (first : Z) (items : list set_item) (dash : bool) (b : Z) : bool :=
  (b =? first) || existsb (item_has b) items || (dash && (b =? 45)).

(** The width only matters if it is 0. *)
Definition set_effect (sp : bool) (width : Z) (P : Z → bool) (t args : list Z) : option effect :=
  let run := if width =? 0 then [] else take (span_len P t) t in
  let eof := negb (width =? 0) && bool_decide (length run = length t) in
  if sp then Some (mk_effect [] (length run) 0 (if eof then bail_eof else bail_err) args)
  else match args with
       | a :: args =>
           Some (if bool_decide (run = []) then mk_effect [] 0 0 (if eof then bail_eof else bail_err) args
                 else mk_effect [(a, run ++ [0])] (length run) 1 (if eof then bail_eof else bail_none) args)
       | [] => None
       end.

Definition conv_effect (sp : bool) (w mods : list Z) (c : Z) (t : list Z) (pos : nat) (args : list Z) : option effect :=
  let size := object_size (mods_rank mods) in
  if (c =? 80) || (c =? 112) then number_effect sp (field_width w) 8 0 t args
  else if c =? 105 then number_effect sp (field_width w) size 0 t args
  else if (c =? 100) || (c =? 117) then number_effect sp (field_width w) size 10 t args
  else if c =? 111 then number_effect sp (field_width w) size 8 t args
  else if (c =? 120) || (c =? 88) then number_effect sp (field_width w) size 16 t args
  else if c =? 110 then int_effect sp size (u64 (Z.of_nat pos)) 0 0 args
  else if c =? 99 then chars_effect sp (default 1 (width_value w)) t args
  else if c =? 115 then word_effect sp (field_width w) t args
  else if (c =? 37) && bool_decide (head t = Some 37) then Some (mk_effect [] 1 0 bail_none args)
  else Some (mk_effect [] 0 0 bail_err args).

(** The effect of a directive on the rest [t] of the input, which starts at
    position [pos]; [None] if there is no argument for it. *)
Definition effect_of (d : directive) (t : list Z) (pos : nat) (args : list Z) : option effect :=
  match d with
  | White _ => Some (mk_effect [] (span_len is_space t) 0 bail_none args)
  | Literal c => Some (if bool_decide (head t = Some c) then mk_effect [] 1 0 bail_none args
                       else mk_effect [] 0 0 bail_err args)
  | Conv sp w mods c => conv_effect sp w mods c t pos args
  | Scanset sp w mods inv first items dash =>
      set_effect sp (field_width w) (λ b, xorb (set_has first items dash b) inv) t args
  end.

Definition result (conv : Z) (b : bail) : Z :=
  if bool_decide (b = bail_eof) && (conv =? 0) then -1 else conv.

(** All directives: the value returned and the stores made. *)
Fixpoint scan (ds : list directive) (t : list Z) (pos : nat) (args : list Z) (conv : Z) : option (Z * list (Z * list Z)) :=
  match ds with
  | [] => Some (conv, [])
  | d :: ds =>
      e ← effect_of d t pos args;
      if bool_decide (stop e = bail_none) then
        '(r, ws) ← scan ds (drop (used e) t) (pos + used e) (args_left e) (conv + count e);
        Some (r, stores e ++ ws)
      else Some (result (conv + count e) (stop e), stores e)
  end.

Definition apply_stores (m : mem) (ws : list (Z * list Z)) : mem :=
  fold_left (λ m w, mem_set m w.1 w.2) ws m.

(** ** The loops over the input *)

Lemma visible_take width t : visible width t = take (Z.to_nat width) t.
Proof.
  unfold visible. destruct (Z.le_ge_cases width (Z.of_nat (length t))).
  - by rewrite Z.min_l by lia.
  - rewrite Z.min_r by lia. by rewrite !take_ge by lia.
Qed.

Lemma skipspace_spec s : ∀ fuel m a, cstr m a s → bytes s → (length s < fuel)%nat →
  skipspace_loop fuel a m = Some (a + Z.of_nat (span_len is_space s), m).
Proof.
  induction s as [| b s IH]; intros [| f] m a Hs Hb Hf; cbn [skipspace_loop length span_len] in *; try lia.
  - apply cstr_nil in Hs. run load8_ok. simpl. by rewrite Z.add_0_r.
  - apply cstr_cons in Hs as (Hb' & Hnz & Hs). apply Forall_cons in Hb as [Hb8 Hb].
    run load8_ok. destruct (is_space_run b m Hb8) as (v & Hv & Hz). rewrite (bind_ok _ _ _ _ _ Hv), Hz.
    destruct (is_space b); simpl.
    + rewrite IH by (done || lia). do 2 f_equal. lia.
    + by rewrite Z.add_0_r.
Qed.

Lemma skipspace_ok m a s : cstr m a s → bytes s → skipspace a m = Some (a + Z.of_nat (span_len is_space s), m).
Proof. intros Hs Hb. apply skipspace_spec; [done.. |]. apply cstr_length in Hs. lia. Qed.

Lemma splat_chars_spec m q t : cstr m q t → bytes t → ∀ n,
  splat_chars n q m = Some (negb (bool_decide (n = 0%nat)) && bool_decide (t = []), m).
Proof.
  intros Ht Hb n. induction n as [| n IH]; [done |]. cbn [splat_chars].
  destruct t as [| b t].
  - apply cstr_nil in Ht. by run loadc_ok.
  - pose proof Ht as (Hb' & Hnz & _)%cstr_cons. apply Forall_cons in Hb as [Hb8 _]. run loadc_ok.
    rewrite s8_ascii, (proj2 (Z.eqb_neq b 0)), IH by (done || lia). by rewrite !andb_false_r.
Qed.

(** The [n] bytes at [a] and the [l] bytes at [b] do not overlap. *)
Definition apart (a n b l : Z) : Prop := 0 < n → a + n <= b ∨ b + l <= a.

Lemma cstr_insert_ne m a s k v :
  cstr m a s → k < a ∨ a + Z.of_nat (length s) < k → cstr (<[k := v]> m) a s.
Proof. intros Hs Hk. apply (cstr_set_ne m k [v]); [done |]. simpl. lia. Qed.

Lemma copy_chars_spec t : ∀ fuel m width q sarg,
  cstr m q t → bytes t → 0 <= width → (length t < fuel)%nat →
  let got := take (Z.to_nat width) t in
  mapped m sarg (Z.of_nat (length got)) → apart sarg (Z.of_nat (length got)) q (Z.of_nat (length t) + 1) →
  copy_chars fuel width q sarg m =
    Some ((Z.of_nat (length t) <? width, q + Z.of_nat (length got)), mem_set m sarg got).
Proof.
  induction t as [| b t IH]; intros [| f] m width q sarg Hs Hb Hw Hf got Hm Ha; cbn [copy_chars length] in *; try lia;
    subst got; (destruct (Z.eqb_spec width 0) as [-> | Hw0]; [| ]).
  - simpl. by rewrite Z.add_0_r.
  - apply cstr_nil in Hs. run load8_ok. rewrite take_nil. cbn [mem_set length]. change (Z.of_nat 0) with 0. rewrite Z.add_0_r.
    by rewrite (proj2 (Z.ltb_lt 0 width)) by lia.
  - simpl take. cbn [mem_set length]. change (Z.of_nat 0) with 0. rewrite Z.add_0_r. by rewrite (proj2 (Z.ltb_ge _ _)) by lia.
  - apply cstr_cons in Hs as (Hb' & Hnz & Hs). apply Forall_cons in Hb as [Hb8 Hb].
    rewrite take_cons_pos in * by lia. cbn [length mem_set] in *. unfold apart in *.
    run load8_ok. rewrite (proj2 (Z.eqb_neq b 0)) by done.
    destruct (Hm sarg) as [c Hc]; [lia |]. erewrite bind_ok by (eapply store8_ok; done).
    rewrite wrapu_small by done. rewrite IH; [| | done | lia | lia | |].
    + do 3 f_equal; [| lia]. destruct (Z.ltb_spec (Z.of_nat (length t)) (width - 1)), (Z.ltb_spec (Z.of_nat (S (length t))) width); lia || done.
    + apply cstr_insert_ne; [done | lia].
    + apply mapped_insert. intros j Hj. apply Hm. lia.
    + lia.
Qed.

Lemma run_of_cons P width b t : 0 < width →
  run_of P width (b :: t) = if P b then b :: run_of P (width - 1) t else [].
Proof.
  intros Hw. unfold run_of. rewrite !visible_take, take_cons_pos by lia. cbn [span_len]. by destruct (P b).
Qed.

Lemma run_of_0 P t : run_of P 0 t = [].
Proof. unfold run_of. by rewrite visible_take. Qed.

Lemma run_of_nil P w : run_of P w [] = [].
Proof. unfold run_of. by rewrite visible_take, take_nil. Qed.

Lemma run_of_bytes P w t : bytes t → bytes (run_of P w t).
Proof. intros. unfold run_of. rewrite visible_take. by repeat apply Forall_take. Qed.

Lemma run_of_length P w t : (length (run_of P w t) <= length t)%nat.
Proof. unfold run_of. rewrite visible_take, !length_take. lia. Qed.

Lemma at_end_cons w b (l t : list Z) : at_end w (b :: l) (b :: t) = at_end (w - 1) l t.
Proof.
  unfold at_end. cbn [length]. rewrite (bool_decide_ext (S (length l) = S (length t)) (length l = length t)) by lia.
  destruct (Z.ltb_spec (Z.of_nat (S (length l))) w), (Z.ltb_spec (Z.of_nat (length l)) (w - 1)); done || lia.
Qed.

Lemma scan_word_spec (store : bool) t : ∀ fuel m width uc q sp,
  cstr m q t → bytes t → 0 <= width → uc ≠ 0 → (length t < fuel)%nat →
  let word := run_of (λ c, negb (is_space c)) width t in
  let n := if store then Z.of_nat (length word) else 0 in
  mapped m sp n → apart sp n q (Z.of_nat (length t) + 1) →
  ∃ uc', scan_word fuel store width uc q sp m =
    Some ((uc', q + Z.of_nat (length word), sp + n), if store then mem_set m sp word else m) ∧
    (uc' =? 0) = at_end width word t.
Proof.
  induction t as [| b t IH]; intros [| f] m width uc q sp Hs Hb Hw Huc Hf word n Hm Ha; cbn [scan_word length] in *; try lia;
    subst word n; (destruct (Z.eqb_spec width 0) as [-> | Hw0]; [| ]).
  - rewrite run_of_0. exists uc. simpl. rewrite !Z.add_0_r. split; [by destruct store; simpl; rewrite ?Z.add_0_r | by apply Z.eqb_neq].
  - apply cstr_nil in Hs. rewrite run_of_nil. exists 0. run load8_ok. simpl. rewrite !Z.add_0_r.
    split; [by destruct store; simpl; rewrite ?Z.add_0_r |]. unfold at_end. cbn [length]. change (Z.of_nat 0) with 0. by rewrite (proj2 (Z.ltb_lt 0 width)) by lia.
  - rewrite run_of_0. exists uc. simpl. rewrite !Z.add_0_r. split; [by destruct store; simpl; rewrite ?Z.add_0_r | by apply Z.eqb_neq].
  - apply cstr_cons in Hs as (Hb' & Hnz & Hs). apply Forall_cons in Hb as [Hb8 Hb].
    rewrite run_of_cons in * by lia. run load8_ok. rewrite (proj2 (Z.eqb_neq b 0)) by done.
    destruct (is_space_run b m Hb8) as (v & Hv & Hz). rewrite (bind_ok _ _ _ _ _ Hv), Hz.
    destruct (is_space b); cbn [negb] in *.
    + exists b. simpl. rewrite !Z.add_0_r. split; [by destruct store; simpl; rewrite ?Z.add_0_r |]. by apply Z.eqb_neq.
    + cbn [length] in *. rewrite at_end_cons. unfold apart in *. destruct store.
      * destruct (Hm sp) as [c Hc]; [lia |]. erewrite bind_ok by (eapply store8_ok; done). rewrite wrapu_small by done.
        destruct (IH f (<[sp := b]> m) (width - 1) b (q + 1) (sp + 1)) as (uc' & E & He); [| done | lia | done | lia | | lia |].
        { apply cstr_insert_ne; [done | lia]. } { apply mapped_insert. intros j Hj. apply Hm. lia. }
        exists uc'. split; [| done]. rewrite E. cbn [mem_set]. do 3 f_equal; [f_equal |]; lia.
      * destruct (IH f m (width - 1) b (q + 1) sp) as (uc' & E & He); [done | done | lia | done | lia | done | lia |].
        exists uc'. split; [| done]. erewrite bind_ok by done. rewrite E. do 3 f_equal; f_equal; lia.
Qed.

(** *** Scan sets as bitmaps *)

Definition bit_of (map : list Z) (b : Z) : bool := Z.testbit (map !!! Z.to_nat (b / 64)) (b mod 64).

(** The bitmap holds the characters satisfying [P]. *)
Definition represents (map : list Z) (P : Z → bool) : Prop :=
  length map = 4%nat ∧ ∀ b, in_u 8 b → bit_of map b = P b.

Lemma test_bit_spec map b : test_bit map b = Z.b2z (bit_of map b).
Proof.
  unfold test_bit, bit_of. set (w := map !!! _). change 1 with (2 ^ 1 - 1). rewrite land_mask by done.
  rewrite <- (Z.add_0_l (b mod 64)) at 2. rewrite <- Z.shiftr_spec by done. set (x := Z.shiftr w (b mod 64)).
  rewrite Z.bit0_mod. change (2 ^ 1) with 2. unfold wraps. change (2 ^ 32) with 4294967296. change (2 ^ (32 - 1)) with 2147483648.
  Z.to_euclidean_division_equations. lia.
Qed.

Lemma represents_set_bit map P c : represents map P → in_u 8 c →
  represents (set_bit map c) (λ b, P b || (b =? c)).
Proof.
  intros [Hl Hp] Hc. split; [unfold set_bit; by rewrite length_insert |].
  intros b Hb. rewrite <- Hp by done. unfold in_u in *. change (2 ^ 8) with 256 in *. unfold bit_of, set_bit. pose proof (Z.div_mod c 64 ltac:(done)).
  pose proof (Z.div_mod b 64 ltac:(done)). pose proof (Z.mod_pos_bound c 64 ltac:(done)). pose proof (Z.mod_pos_bound b 64 ltac:(done)).
  destruct (decide (b / 64 = c / 64)) as [E | E].
  - rewrite E, list_lookup_total_insert_eq by (rewrite Hl; lia). rewrite Z.lor_spec. f_equal.
    unfold wrapu. rewrite Z.mod_pow2_bits_low, Z.shiftl_1_l, Z.pow2_bits_eqb by lia.
    destruct (Z.eqb_spec (c mod 64) (b mod 64)), (Z.eqb_spec b c); done || lia.
  - rewrite list_lookup_total_insert_ne by lia. rewrite (proj2 (Z.eqb_neq b c)) by congruence. by rewrite orb_false_r.
Qed.

Lemma represents_ext map P Q : represents map P → (∀ b, in_u 8 b → P b = Q b) → represents map Q.
Proof. intros [Hl Hp] H. split; [done |]. intros b Hb. by rewrite Hp, H. Qed.

Lemma represents_fold l : ∀ map P, represents map P → bytes l →
  represents (fold_left set_bit l map) (λ b, P b || existsb (Z.eqb b) l).
Proof.
  induction l as [| c l IH]; intros map P Hp Hl; cbn [fold_left existsb].
  - eapply represents_ext; [done |]. intros; by rewrite orb_false_r.
  - apply Forall_cons in Hl as [Hc Hl]. eapply represents_ext; [by apply IH, Hl; apply represents_set_bit |].
    intros b _. simpl. by rewrite orb_assoc.
Qed.

Lemma represents_set_range map P lo hi : represents map P → 0 <= lo → hi <= 256 →
  represents (set_range map lo hi) (λ b, P b || ((lo <=? b) && (b <? hi))).
Proof.
  intros Hp Hlo Hhi. eapply represents_ext; [apply represents_fold; [done |] |].
  - apply Forall_forall. intros b Hb%elem_of_seqZ. unfold in_u. change (2 ^ 8) with 256. lia.
  - intros b _. cbv beta. f_equal. apply eq_true_iff_eq. rewrite existsb_exists, andb_true_iff, Z.leb_le, Z.ltb_lt. split.
    + intros (x & Hx & <-%Z.eqb_eq). apply list_elem_of_In, elem_of_seqZ in Hx. lia.
    + intros Hb. exists b. split; [apply list_elem_of_In, elem_of_seqZ; lia | apply Z.eqb_refl].
Qed.

Lemma represents_empty : represents [0; 0; 0; 0] (λ _, false).
Proof.
  split; [done |]. intros b Hb. unfold bit_of.
  unfold in_u in Hb. change (2 ^ 8) with 256 in Hb.
  assert (b / 64 = 0 ∨ b / 64 = 1 ∨ b / 64 = 2 ∨ b / 64 = 3) as [-> | [-> | [-> | ->]]] by (Z.to_euclidean_division_equations; lia);
    apply Z.bits_0.
Qed.

(** The run of a scan set into [sarg] (nothing is stored if it is [NULL]). *)
Lemma scan_set_spec map inv P width : represents map P → width ≠ 0 → ∀ t fuel m uc q sarg,
  cstr m q t → bytes t → (length t < fuel)%nat →
  let run := take (span_len (λ b, xorb (P b) inv) t) t in
  (run = [] ∨ 0 <= sarg) →
  let n := if sarg =? NULL then 0 else Z.of_nat (length run) in
  mapped m sarg n → apart sarg n q (Z.of_nat (length t) + 1) →
  ∃ uc', scan_set fuel map inv width uc q sarg m =
    Some ((uc', q + Z.of_nat (length run), sarg + n), if sarg =? NULL then m else mem_set m sarg run) ∧
    (uc' =? 0) = bool_decide (length run = length t).
Proof.
  intros HP Hw t. induction t as [| b t IH]; intros [| f] m uc q sarg Hs Hb Hf run Hsarg n Hm Ha; cbn [scan_set length span_len] in *; try lia;
    subst run n; rewrite (proj2 (Z.eqb_neq width 0)) by done.
  - apply cstr_nil in Hs. exists 0. run load8_ok. simpl. rewrite Z.add_0_r. split; [| done].
    destruct (sarg =? NULL); simpl; by rewrite Z.add_0_r.
  - apply cstr_cons in Hs as (Hb' & Hnz & Hs). apply Forall_cons in Hb as [Hb8 Hb].
    run load8_ok. rewrite (proj2 (Z.eqb_neq b 0)) by done. rewrite test_bit_spec, (proj2 HP b Hb8).
    replace (Z.lxor (Z.b2z (P b)) (Z.b2z inv) =? 0) with (negb (xorb (P b) inv)) by (by destruct (P b), inv).
    destruct (xorb (P b) inv); cbn [negb take length] in *.
    + destruct Hsarg as [? | Hsarg]; [done |]. unfold apart, NULL in *. destruct (Z.eqb_spec sarg 0) as [-> | Hs0].
      * destruct (IH f m b (q + 1) 0) as (uc' & E & He); [done | done | lia | by right | done | simpl; lia |].
        exists uc'. simpl in E. erewrite bind_ok by done. rewrite E. split; [do 3 f_equal; f_equal; lia |].
        rewrite He. apply bool_decide_ext. lia.
      * destruct (Hm sarg) as [c Hc]; [lia |]. erewrite bind_ok by (eapply store8_ok; done). rewrite wrapu_small by done.
        destruct (IH f (<[sarg := b]> m) b (q + 1) (sarg + 1)) as (uc' & E & He); rewrite ?(proj2 (Z.eqb_neq (sarg + 1) 0)) in * by lia;
          [| done | lia | right; lia | | lia |].
        { apply cstr_insert_ne; [done | lia]. } { apply mapped_insert. intros j Hj. apply Hm. lia. }
        exists uc'. rewrite E. cbn [mem_set]. split; [do 3 f_equal; [f_equal |]; lia |]. rewrite He. apply bool_decide_ext. lia.
    + exists b. simpl. rewrite Z.add_0_r. split; [destruct (sarg =? NULL); simpl; by rewrite Z.add_0_r |].
      by apply Z.eqb_neq.
Qed.

(** ** The conversions have their effects *)

(** A store the input is safe from. *)
Definition writable (m : mem) (q : Z) (t : list Z) (w : Z * list Z) : Prop :=
  0 < w.1 ∧ mapped m w.1 (Z.of_nat (length w.2)) ∧ apart w.1 (Z.of_nat (length w.2)) q (Z.of_nat (length t) + 1).

(** The state [s'] after an effect [e] in state [s]. *)
Definition after (s : sf) (e : effect) (s' : sf) : Prop :=
  bailed s' = stop e ∧ converted s' = converted s + count e ∧
  (stop e = bail_none → state s' = state s ∧ q s' = q s + Z.of_nat (used e) ∧ ap s' = args_left e).

Definition canonical (r : Z) : Prop := MIN_RANK <= r <= MAX_RANK ∨ r = rank_ptr.

Lemma set_integer_spec m s val k n e :
  canonical (rank s) → bailed s = bail_none →
  int_effect (splat s) (object_size (rank s)) val k n (ap s) = Some e →
  Forall (λ w, mapped m w.1 (Z.of_nat (length w.2))) (stores e) →
  ∃ s', set_integer val s m = Some (s', apply_stores m (stores e)) ∧
    bailed s' = stop e ∧ converted s' = converted s ∧ state s' = state s ∧ q s' = q s ∧ ap s' = args_left e.
Proof.
  unfold set_integer, int_effect. intros Hr Hb He Hst. destruct (splat s).
  { simplify_eq. by exists s. }
  destruct (ap s) as [| a args] eqn:Hap; simplify_eq. cbn [stores] in *. apply Forall_cons in Hst as [Hst _]. cbn [fst snd] in Hst. rewrite le_list_length in Hst.
  exists (set_ap args s). split; [| by destruct s].
  assert (∀ k, k = object_size (rank s) → ('(p, s) ← va_arg s; store_le k p val;; mret s) m =
    Some (set_ap args s, mem_set m a (le_list (object_size (rank s)) val))) as Hgo.
  { intros j ->. unfold va_arg. erewrite bind_ok by (by rewrite Hap). cbv beta iota. by erewrite bind_ok by by apply store_le_ok. }
  cbn [apply_stores fold_left fst snd]. unfold canonical, MIN_RANK, MAX_RANK, rank_char, rank_longlong, rank_ptr in Hr.
  unfold object_size, rank_char, rank_short, rank_int, rank_long, rank_longlong, rank_ptr in *.
  repeat match goal with |- (if ?x =? ?y then _ else _) _ = _ => let E := fresh "E" in destruct (Z.eqb_spec x y) as [E | E]; [apply Hgo; by rewrite E |] end.
  lia.
Qed.

Lemma scan_int_spec m s t base e :
  cstr m (q s) t → bytes t → 0 <= width s → canonical (rank s) → bailed s = bail_none →
  number_effect (splat s) (width s) (object_size (rank s)) base t (ap s) = Some e →
  Forall (writable m (q s) t) (stores e) →
  ∃ s', scan_int base s m = Some (s', apply_stores m (stores e)) ∧ after s e s'.
Proof.
  intros Hc Hb Hw Hr Hbail He Hst. unfold scan_int, number_effect in *. erewrite bind_ok by by apply skipspace_ok.
  set (k := span_len is_space t) in *. pose proof (cstr_drop m (q s) t k Hc ltac:(apply span_len_le)) as Hc'.
  assert (bytes (drop k t)) as Hb' by by apply Forall_drop.
  case_bool_decide as Ht.
  { rewrite Ht in Hc'. apply cstr_nil in Hc'. erewrite bind_ok by (eapply loadc_ok; done). simplify_eq. simpl.
    eexists. split; [done |]. split; [done |]. split; [simpl; lia | done]. }
  destruct (drop k t) as [| b t'] eqn:Edrop; [done |]. pose proof Hc' as (Hb0 & Hnz & _)%cstr_cons.
  erewrite bind_ok by (eapply loadc_ok; done). rewrite s8_ascii, (proj2 (Z.eqb_neq b 0)); [| done | by apply Forall_cons in Hb' as [? _] | lia].
  destruct (strntoumax_run m _ _ base (width s) Hc' Hb' Hw) as [E _]. rewrite <- visible_take in E. cbv zeta in E.
  destruct (parse_num base (visible (width s) (b :: t'))) as [v n] eqn:Ep. cbn [fst snd] in E.
  erewrite bind_ok by exact E. cbv beta iota.
  case_bool_decide as Hn.
  { subst n. rewrite (proj2 (Z.eqb_eq _ _)) by lia. simplify_eq. eexists. split; [done |]. split; [done |]. split; [simpl; lia | done]. }
  rewrite (proj2 (Z.eqb_neq _ _)) by lia. set (s1 := set_q _ _). set (s2 := if splat s1 then s1 else _).
  assert (splat s2 = splat s ∧ rank s2 = rank s ∧ ap s2 = ap s ∧ bailed s2 = bailed s ∧ state s2 = state s ∧
    q s2 = q s + Z.of_nat (k + n) ∧ converted s2 = converted s + (if splat s then 0 else 1)) as (H1 & H2 & H3 & H4 & H5 & H6 & H7).
  { unfold s2. change (splat s1) with (splat s). destruct (splat s) eqn:Es; simpl; split_and!; try done; lia. }
  destruct (set_integer_spec m s2 v (k + n) 1 e) as (s' & E' & ? & ? & ? & ? & ?).
  { by rewrite H2. } { by rewrite H4. } { by rewrite H1, H2, H3. }
  { eapply Forall_impl; [done |]. intros w (_ & ? & _). done. }
  exists s'. split; [done |]. split; [done |]. unfold int_effect in He.
  destruct (splat s); [| destruct (ap s); [done |]]; simplify_eq; simpl in *; (split; [lia |]); intros _; split_and!; congruence || lia.
Qed.

(** The effect is the one computed: compare the fields. *)
Ltac finish_effect :=
  eexists; split; [reflexivity |]; unfold after; split_and!; simpl; intros;
  repeat match goal with |- _ ∧ _ => split end; first [done | lia | congruence].

(** The branch of [%c]. *)
Lemma chars_spec m s t e :
  cstr m (q s) t → bytes t → 0 <= width s → bailed s = bail_none →
  chars_effect (splat s) (width s) t (ap s) = Some e → Forall (writable m (q s) t) (stores e) →
  ∃ s', (if splat s then
      eof ← splat_chars (Z.to_nat (width s)) (q s);
      mret (if eof : bool then set_bail bail_eof s else s)
    else
      '(sarg, s) ← va_arg s;
      '(eof, q) ← with_fuel (λ fuel, copy_chars fuel (width s) (q s) sarg);
      let s := set_q q s in
      mret (if eof : bool then set_bail bail_eof s else set_converted (converted s + 1) s)) m =
    Some (s', apply_stores m (stores e)) ∧ after s e s'.
Proof.
  intros Hc Hb Hw Hbail He Hst. unfold chars_effect in He. destruct (splat s).
  - simplify_eq. erewrite bind_ok by by apply splat_chars_spec. cbn [stores].
    replace (negb (bool_decide (Z.to_nat (width s) = 0%nat))) with (negb (width s =? 0))
      by (destruct (Z.eqb_spec (width s) 0); [by rewrite bool_decide_true by lia | by rewrite bool_decide_false by lia]).
    destruct (negb (width s =? 0) && bool_decide (t = [])); finish_effect.
  - destruct (ap s) as [| a args] eqn:Hap; [done |]. rewrite visible_take in He. set (got := take (Z.to_nat (width s)) t) in *.
    assert (writable m (q s) t (a, got)) as (Ha & Hm & Hd).
    { destruct (Z.of_nat (length t) <? width s); simplify_eq; by apply Forall_cons in Hst as [? _]. }
    unfold va_arg. erewrite bind_ok by (by rewrite Hap). cbv beta iota. cbn [width q set_ap].
    erewrite bind_ok by (unfold with_fuel; eapply copy_chars_spec; try done; apply cstr_length in Hc; lia). fold got.
    cbv beta iota zeta. destruct (Z.of_nat (length t) <? width s); simplify_eq; finish_effect.
Qed.

(** The branch of [%s]. *)
Lemma word_spec m s t e :
  cstr m (q s) t → bytes t → 0 <= width s → bailed s = bail_none →
  word_effect (splat s) (width s) t (ap s) = Some e → Forall (writable m (q s) t) (stores e) →
  ∃ s', ('(uc, s) ←
      (if splat s then
         '(uc, q, _) ← with_fuel (λ fuel, scan_word fuel false (width s) 1 (q s) NULL);
         mret (uc, set_q q s)
       else
         '(sarg, s) ← va_arg s;
         '(uc, q, sp) ← with_fuel (λ fuel, scan_word fuel true (width s) 1 (q s) sarg);
         let s := set_q q s in
         if sarg =? sp then mret (uc, s)
         else store8 sp 0;; mret (uc, set_converted (converted s + 1) s));
    mret (if uc =? 0 then set_bail bail_eof s else s)) m =
    Some (s', apply_stores m (stores e)) ∧ after s e s'.
Proof.
  intros Hc Hb Hw Hbail He Hst. unfold word_effect in He. set (word := run_of _ _ _) in *.
  pose proof (cstr_length _ _ _ Hc) as Hf. destruct (splat s).
  - destruct (scan_word_spec false t (S (size m)) m (width s) 1 (q s) NULL Hc Hb Hw) as (uc & E & Hu); [done | lia | |  |].
    { intros k Hk. lia. } { unfold apart. lia. }
    fold word in E, Hu. simplify_eq. erewrite bind_ok by (erewrite bind_ok by exact E; done). cbv beta iota. rewrite Hu.
    destruct (at_end _ _ _); finish_effect.
  - destruct (ap s) as [| a args] eqn:Hap; [done |]. unfold va_arg at 1.
    assert (word = [] ∨ word ≠ []) as [Hnil | Hne] by (destruct word; [by left | by right]).
    + rewrite bool_decide_true in He by done. apply (inj Some) in He as <-.
      destruct (scan_word_spec true t (S (size m)) m (width s) 1 (q s) a Hc Hb Hw) as (uc & E & Hu); [done | lia | | |].
      { fold word. rewrite Hnil. intros k Hk. simpl in Hk. lia. } { fold word. rewrite Hnil. unfold apart. simpl. lia. }
      fold word in E, Hu. rewrite Hnil in *.
      simpl in E. rewrite !Z.add_0_r in E.
      erewrite bind_ok by (erewrite bind_ok by (by rewrite Hap); cbv beta iota; cbn [width q set_ap];
        erewrite bind_ok by exact E; cbv beta iota zeta; rewrite Z.eqb_refl; done). cbv beta iota. rewrite Hu.
      destruct (at_end _ _ _); finish_effect.
    + rewrite bool_decide_false in He by done. apply (inj Some) in He as <-. cbn [stores] in *. apply Forall_cons in Hst as [(Ha & Hm & Hd) _]. cbn [fst snd] in *.
      rewrite length_app in Hm, Hd. simpl in Hm, Hd. unfold apart in Hd.
      destruct (scan_word_spec true t (S (size m)) m (width s) 1 (q s) a Hc Hb Hw) as (uc & E & Hu); [done | lia | | |].
      { fold word. intros k Hk. apply Hm. lia. } { fold word. unfold apart. lia. }
      fold word in E, Hu.
      assert (length word ≠ 0)%nat by (destruct word; done).
      destruct (mapped_set m a _ a word Hm (a + Z.of_nat (length word))) as [b Hb']; [lia |].
      erewrite bind_ok by (erewrite bind_ok by (by rewrite Hap); cbv beta iota; cbn [width q set_ap];
        erewrite bind_ok by exact E; cbv beta iota zeta; rewrite (proj2 (Z.eqb_neq _ _)) by lia;
        erewrite bind_ok by (eapply store8_ok; done); done). cbv beta iota. rewrite Hu.
      replace (<[a + Z.of_nat (length word) := u8 0]> (mem_set m a word)) with (mem_set m a (word ++ [0])) by (by rewrite mem_set_app).
      destruct (at_end _ _ _); finish_effect.
Qed.

Definition clamp (r : Z) : Z := if r <? MIN_RANK then MIN_RANK else if MAX_RANK <? r then MAX_RANK else r.

Lemma clamp_spec r : canonical (clamp r) ∧ object_size (clamp r) = object_size r.
Proof.
  unfold canonical, clamp, object_size, MIN_RANK, MAX_RANK, rank_char, rank_longlong.
  repeat match goal with
  | |- context [?x <? ?y] => destruct (Z.ltb_spec x y)
  | |- context [?x <=? ?y] => destruct (Z.leb_spec x y)
  | |- context [?x =? ?y] => destruct (Z.eqb_spec x y)
  end; split; lia.
Qed.

Lemma field_width_range w : forallb is_digit w = true → 0 <= field_width w ∧ 0 <= default 1 (width_value w).
Proof.
  unfold field_width, width_value. destruct w as [| c w]; simpl; [done |]. intros [Hc Hw]%andb_true_iff.
  assert (0 <= c - 48) as Hv by (unfold is_digit in Hc; lia). revert Hv. generalize (c - 48). clear Hc Hw.
  induction w as [| d w IH]; intros v Hv; simpl; [done |]. apply IH. apply wrapu_range. lia.
Qed.

(** The state in which the machine is ready for the conversion character. *)
Record ready (s : sf) (sp : bool) (w mods : list Z) : Prop := mk_ready {
  rd_bail : bailed s = bail_none;
  rd_splat : splat s = sp;
  rd_width : width s = field_width w;
  rd_given : has (flags s) FL_WIDTH = negb (bool_decide (w = []));
  rd_inv : has (flags s) FL_INV = false;
  rd_rank : rank s = mods_rank mods;
}.

Lemma scan_conversion_spec buffer m s t pos sp w mods c e :
  ready s sp w mods → forallb is_digit w = true → cstr m (q s) t → bytes t → q s = buffer + Z.of_nat pos → c ≠ 91 →
  conv_effect sp w mods c t pos (ap s) = Some e → Forall (writable m (q s) t) (stores e) →
  ∃ s', conversion buffer c s m = Some (s', apply_stores m (stores e)) ∧ after (set_state st_normal s) e s'.
Proof.
  intros [Hbail Hsp Hwd Hgv _ Hrk] Hdig Hc Hb Hq Hset He Hst. unfold conversion, conv_effect in *.
  destruct (field_width_range w Hdig) as [Hw0 Hw1].
  set (s1 := if _ <? _ then _ else _).
  assert (s1 = set_rank (clamp (rank s)) (set_state st_normal s)) as ->.
  { unfold s1, clamp. simpl. destruct (rank s <? MIN_RANK); [done |]. by destruct (MAX_RANK <? rank s), s. }
  destruct (clamp_spec (rank s)) as [Hcan Hsz].
  assert (∀ r base, canonical r →
    number_effect sp (field_width w) (object_size r) base t (ap s) = Some e →
    ∃ s', scan_int base (set_rank r (set_state st_normal s)) m = Some (s', apply_stores m (stores e)) ∧
      after (set_state st_normal s) e s') as Hnum.
  { intros r base Hr E. apply (scan_int_spec m (set_rank r (set_state st_normal s)) t base e); try done.
    - simpl. by rewrite Hwd.
    - change (splat _) with (splat s). simpl. by rewrite Hsp, Hwd. }
  rewrite <- Hrk, <- Hsz in He.
  destruct ((c =? 80) || (c =? 112)).
  { apply (Hnum rank_ptr); [by right | exact He]. }
  destruct (c =? 105); [by apply (Hnum _ 0) |].
  destruct (c =? 100); [by apply (Hnum _ 10) |]. cbn [orb] in He.
  destruct (c =? 117) eqn:E117; cbn [orb] in He.
  { apply Z.eqb_eq in E117 as ->. by apply (Hnum _ 10). }
  destruct (c =? 111); [by apply (Hnum _ 8) |].
  destruct ((c =? 120) || (c =? 88)); [by apply (Hnum _ 16) |].
  destruct (c =? 110).
  { destruct (set_integer_spec m (set_rank (clamp (rank s)) (set_state st_normal s)) (u64 (q s - buffer)) 0 0 e)
      as (s' & E & ? & ? & ? & ? & ?); [done | done | | by eapply Forall_impl; [done |]; intros ? (_ & ? & _) |].
    - change (splat _) with (splat s). simpl. by rewrite Hsp, Hq, Z.add_simpl_l.
    - exists s'. split; [done |]. unfold int_effect in He.
      destruct sp; [| destruct (ap s); [done |]]; simplify_eq; split_and!; simpl in *; try done; try lia; intros _; split_and!; congruence || lia. }
  destruct (c =? 99).
  { cbv zeta. set (s2 := set_width _ _). apply (chars_spec m s2 t e); try done.
    - unfold s2. simpl. rewrite Hgv, Hwd. unfold field_width. by destruct w.
    - change (splat s2) with (splat s). rewrite Hsp. unfold s2. simpl. rewrite Hgv, Hwd. unfold field_width. by destruct w. }
  destruct (c =? 115).
  { apply (word_spec m (set_rank (clamp (rank s)) (set_state st_normal s)) t e); try done.
    - simpl. by rewrite Hwd.
    - change (splat _) with (splat s). simpl. by rewrite Hsp, Hwd. }
  rewrite (proj2 (Z.eqb_neq c 91)) by done.
  destruct (c =? 37); cbn [andb] in He; [| simplify_eq; finish_effect].
  destruct t as [| b t].
  - apply cstr_nil in Hc. erewrite bind_ok by (eapply loadc_ok; done). rewrite bool_decide_false in He by done. apply (inj Some) in He as <-. finish_effect.
  - pose proof Hc as (Hb0 & _ & _)%cstr_cons. apply Forall_cons in Hb as [Hb8 _]. erewrite bind_ok by (eapply loadc_ok; done).
    rewrite s8_ascii by (done || lia). destruct (Z.eqb_spec b 37) as [-> | Hne].
    + rewrite bool_decide_true in He by done. apply (inj Some) in He as <-. finish_effect.
    + rewrite bool_decide_false in He by (simpl; congruence). apply (inj Some) in He as <-. finish_effect.
Qed.

(** ** The machine reads the format *)

Section machine.
Context (buffer : Z).

(** [k] iterations lead from [p] and [s] to [p'] and [s'], changing [m] to
    [m']. *)
Definition reaches (k : nat) (p : Z) (s : sf) (m : mem) (p' : Z) (s' : sf) (m' : mem) : Prop :=
  ∀ fuel, vsscanf_loop (k + fuel) buffer p s m = vsscanf_loop fuel buffer p' s' m'.

Lemma scan_reaches_trans k1 k2 p s m p1 s1 m1 p2 s2 m2 :
  reaches k1 p s m p1 s1 m1 → reaches k2 p1 s1 m1 p2 s2 m2 → reaches (k1 + k2) p s m p2 s2 m2.
Proof using Type. intros H1 H2 fuel. rewrite <- Nat.add_assoc, H1. apply H2. Qed.

Lemma scan_reaches_step p b t s m again s' m' :
  cstr m p (b :: t) → in_u 8 b → bailed s = bail_none →
  vsscanf_step buffer (s8 b) s m = Some ((again, s'), m') →
  reaches 1 p s m (if again : bool then p else p + 1) s' m'.
Proof using Type.
  intros (Hb & Hnz & _)%cstr_cons Hr Hbail Hs fuel. change (1 + fuel)%nat with (S fuel). cbn [vsscanf_loop].
  erewrite bind_ok by (eapply loadc_ok; done). rewrite s8_ascii, (proj2 (Z.eqb_neq b 0)), Hbail by (done || lia).
  rewrite bool_decide_true by done. cbn [orb negb]. by erewrite bind_ok by exact Hs.
Qed.

Lemma scan_loop_at_nul fuel p s m : m !! p = Some 0 → vsscanf_loop (S fuel) buffer p s m = Some (s, m).
Proof using Type. intros Hp. cbn [vsscanf_loop]. by erewrite bind_ok by (eapply loadc_ok; done). Qed.

Lemma loop_bailed fuel p s m b : m !! p = Some b → bailed s ≠ bail_none → vsscanf_loop (S fuel) buffer p s m = Some (s, m).
Proof using Type.
  intros Hp Hb. cbn [vsscanf_loop]. erewrite bind_ok by (eapply loadc_ok; done).
  rewrite bool_decide_false by done. by rewrite orb_true_r.
Qed.

Lemma s8_small b : 0 <= b < 128 → s8 b = b.
Proof using Type. intros. apply wraps_small; [lia |]. unfold in_s. simpl. lia. Qed.

(** [s] with the variables a directive sets. *)
Definition at_dir (s : sf) (x : scan_state) (fl rk wd : Z) : sf := set_state x (set_flags fl (set_rank rk (set_width wd s))).

Lemma digit_small c : is_digit c = true → 0 <= c < 128 ∧ c ≠ 42.
Proof using Type. unfold is_digit. lia. Qed.

Lemma mod_small c : is_mod c = true → 0 <= c < 128 ∧ c ≠ 42 ∧ is_digit c = false.
Proof using Type.
  unfold is_mod. intros H%bool_decide_eq_true. rewrite !elem_of_cons, elem_of_nil in H. unfold is_digit. lia.
Qed.

Lemma width_phase s m fl rk : bailed s = bail_none → ∀ w p wd rest,
  cstr m p (w ++ rest) → forallb is_digit w = true →
  reaches (length w) p (at_dir s st_width fl rk wd) m (p + Z.of_nat (length w))
    (at_dir s st_width fl rk (fold_left (λ v c, u32 (u32 (v * 10) + (c - 48))) w wd)) m.
Proof using Type.
  intros Hbail w. induction w as [| c w IH]; intros p wd rest Hc Hw; simpl; [rewrite Z.add_0_r; by intros fuel |].
  apply andb_true_iff in Hw as [Hd Hw]. destruct (digit_small c Hd) as [Hs _]. pose proof Hc as (_ & _ & Hc')%cstr_cons.
  replace (p + Z.of_nat (S (length w))) with (p + 1 + Z.of_nat (length w)) by lia.
  change (S (length w)) with (1 + length w)%nat. eapply scan_reaches_trans; [| by eapply IH].
  eapply (scan_reaches_step _ _ _ _ _ false); [exact Hc | unfold in_u; lia | done |].
  rewrite s8_small by lia. unfold vsscanf_step. cbn [state at_dir set_state]. unfold is_digit in Hd. by rewrite Hd.
Qed.

Lemma mods_phase s m fl wd : bailed s = bail_none → ∀ mods p rk rest,
  cstr m p (mods ++ rest) → forallb is_mod mods = true →
  reaches (length mods) p (at_dir s st_modifiers fl rk wd) m (p + Z.of_nat (length mods))
    (at_dir s st_modifiers fl (fold_left mod_rank mods rk) wd) m.
Proof using Type.
  intros Hbail mods. induction mods as [| c mods IH]; intros p rk rest Hc Hw; simpl; [rewrite Z.add_0_r; by intros fuel |].
  apply andb_true_iff in Hw as [Hd Hw]. destruct (mod_small c Hd) as [Hs _]. pose proof Hc as (_ & _ & Hc')%cstr_cons.
  replace (p + Z.of_nat (S (length mods))) with (p + 1 + Z.of_nat (length mods)) by lia.
  change (S (length mods)) with (1 + length mods)%nat. eapply scan_reaches_trans; [| by eapply IH].
  eapply (scan_reaches_step _ _ _ _ _ false); [exact Hc | unfold in_u; lia | done |].
  rewrite s8_small by lia. unfold vsscanf_step. cbn [state at_dir set_state]. unfold mod_rank.
  repeat match goal with |- context [?x =? ?y] => destruct (x =? y) eqn:?; [done |]; cbn [orb] end.
  exfalso. unfold is_mod in Hd. apply bool_decide_eq_true in Hd. rewrite !elem_of_cons, elem_of_nil in Hd. lia.
Qed.

(** The character that ends the flags or the width is processed again. *)
Lemma again_phase s m fl rk wd x p c rest :
  x = st_flags ∨ x = st_width → bailed s = bail_none → cstr m p (c :: rest) → in_u 8 c → is_digit c = false → c ≠ 42 →
  reaches 1 p (at_dir s x fl rk wd) m p (at_dir s st_modifiers fl rk wd) m.
Proof using Type.
  intros Hx Hbail Hc Hc8 Hd Hs. eapply (scan_reaches_step _ _ _ _ _ true); [exact Hc | done | done |].
  assert ((s8 c =? 42) = false) as E1 by (rewrite s8_ascii by (done || lia); by apply Z.eqb_neq).
  assert ((48 <=? s8 c) && (s8 c <=? 57) = false) as E2.
  { destruct (decide (c < 128)); [by rewrite s8_small by (unfold in_u in Hc8; lia) |].
    pose proof (wraps_nonneg 8 ltac:(lia) c Hc8). change (2 ^ (8 - 1)) with 128 in *. lia. }
  unfold vsscanf_step. destruct Hx as [-> | ->]; cbn [state at_dir set_state]; by rewrite ?E1, E2.
Qed.

Lemma prefix_phase s m sp w mods p c rest :
  state s = st_normal → bailed s = bail_none →
  forallb is_digit w = true → forallb is_mod mods = true → in_u 8 c → is_digit c = false → c ≠ 42 →
  cstr m p (prefix_text sp w mods ++ c :: rest) →
  ∃ s', reaches (S (length (prefix_text sp w mods))) p s m (p + Z.of_nat (length (prefix_text sp w mods))) s' m ∧
    ready s' sp w mods ∧ state s' = st_modifiers ∧ q s' = q s ∧ converted s' = converted s ∧ ap s' = ap s.
Proof using Type.
  intros Hst Hbail Hw Hmods Hc8 Hcd Hc42 Hc. unfold prefix_text in *. cbn [app] in Hc. pose proof Hc as (_ & _ & Hc1)%cstr_cons.
  assert (reaches 1 p s m (p + 1) (at_dir s st_flags 0 rank_int UINT_MAX) m) as R1.
  { eapply (scan_reaches_step _ _ _ _ _ false); [exact Hc | unfold in_u; lia | done |].
    rewrite s8_small by lia. unfold vsscanf_step. by rewrite Hst. }
  set (n1 := length (if sp then [42] else [])). set (fl := if sp then FL_SPLAT else 0).
  rewrite <- !app_assoc in Hc1. apply cstr_app in Hc1 as (Hm1 & Hz1 & Hc2).
  assert (reaches n1 (p + 1) (at_dir s st_flags 0 rank_int UINT_MAX) m (p + 1 + Z.of_nat n1) (at_dir s st_flags fl rank_int UINT_MAX) m) as R2.
  { unfold n1, fl. destruct sp; [| rewrite Z.add_0_r; by intros fuel]. simpl length.
    eapply (scan_reaches_step _ 42 (w ++ mods ++ c :: rest) _ _ false); [| unfold in_u; lia | done | done].
    apply (cstr_app _ _ [42]). split_and!; [done | done |]. exact Hc2. }
  pose proof (scan_reaches_trans _ _ _ _ _ _ _ _ _ _ _ R1 R2) as R12. clear R1 R2. fold n1 in Hc2.
  set (fl' := if bool_decide (w = []) then fl else Z.lor fl FL_WIDTH).
  assert (reaches (length w) (p + 1 + Z.of_nat n1) (at_dir s st_flags fl rank_int UINT_MAX) m (p + 1 + Z.of_nat n1 + Z.of_nat (length w))
    (at_dir s (if bool_decide (w = []) then st_flags else st_width) fl' rank_int (field_width w)) m) as R3.
  { unfold fl'. destruct w as [| d w]; [rewrite Z.add_0_r; by intros fuel |]. rewrite bool_decide_false by done.
    cbn [forallb] in Hw. apply andb_true_iff in Hw as [Hd Hw]. destruct (digit_small d Hd) as [Hs ?]. pose proof Hc2 as (_ & _ & Hc3)%cstr_cons.
    simpl length. change (S (length w)) with (1 + length w)%nat. replace (p + 1 + Z.of_nat n1 + Z.of_nat (1 + length w)) with (p + 1 + Z.of_nat n1 + 1 + Z.of_nat (length w)) by lia.
    eapply scan_reaches_trans; [| by apply (width_phase s m _ _ Hbail w _ (d - 48) (mods ++ c :: rest))].
    eapply (scan_reaches_step _ _ _ _ _ false); [exact Hc2 | unfold in_u; lia | done |].
    rewrite s8_small by lia. unfold vsscanf_step. cbn [state at_dir set_state]. rewrite (proj2 (Z.eqb_neq d 42)) by done.
    unfold is_digit in Hd. by rewrite Hd. }
  pose proof (scan_reaches_trans _ _ _ _ _ _ _ _ _ _ _ R12 R3) as R123. clear R12 R3.
  apply cstr_app in Hc2 as (_ & _ & Hc3). set (p3 := p + 1 + Z.of_nat n1 + Z.of_nat (length w)) in *.
  assert (reaches 1 p3 (at_dir s (if bool_decide (w = []) then st_flags else st_width) fl' rank_int (field_width w)) m p3
    (at_dir s st_modifiers fl' rank_int (field_width w)) m) as R4.
  { assert (∃ x l, mods ++ c :: rest = x :: l ∧ in_u 8 x ∧ is_digit x = false ∧ x ≠ 42) as (x & l & E & Hx8 & Hxd & Hx42).
    { destruct mods as [| x mods]; [by exists c, rest |]. exists x, (mods ++ c :: rest). cbn [forallb] in Hmods.
      apply andb_true_iff in Hmods as [Hx _]. destruct (mod_small x Hx) as (? & ? & ?). split_and!; try done. unfold in_u. lia. }
    rewrite E in Hc3. eapply again_phase; try done. case_bool_decide; [by left | by right]. }
  pose proof (scan_reaches_trans _ _ _ _ _ _ _ _ _ _ _ R123 R4) as R1234. clear R123 R4.
  pose proof (scan_reaches_trans _ _ _ _ _ _ _ _ _ _ _ R1234 (mods_phase s m fl' (field_width w) Hbail mods p3 rank_int (c :: rest) Hc3 Hmods)) as R.
  exists (at_dir s st_modifiers fl' (mods_rank mods) (field_width w)). split; [| split; [| by split_and!]].
  - unfold p3 in R. cbn [length]. rewrite !length_app. fold n1.
    replace (S (S (n1 + (length w + length mods)))) with (1 + n1 + length w + 1 + length mods)%nat by lia.
    replace (p + Z.of_nat (S (n1 + (length w + length mods)))) with
      (p + 1 + Z.of_nat n1 + Z.of_nat (length w) + Z.of_nat (length mods)) by lia. exact R.
  - constructor; simpl; try done.
    + unfold splat, fl', fl. simpl. by case_bool_decide; destruct sp.
    + unfold fl', fl. by case_bool_decide; destruct sp.
    + unfold fl', fl. by case_bool_decide; destruct sp.
Qed.

(** While a scan set is read: the bitmap represents [P], and the variables of
    the run are those of [s0]. *)
Record building (s0 : sf) (x : scan_state) (P : Z → bool) (s : sf) : Prop := mk_building {
  bd_state : state s = x;
  bd_bail : bailed s = bail_none;
  bd_width : width s = width s0;
  bd_sarg : sarg s = sarg s0;
  bd_q : q s = q s0;
  bd_converted : converted s = converted s0;
  bd_inv : matchinv s = matchinv s0;
  bd_map : represents (matchmap s) P;
}.

Lemma building_ext s0 x P Q s : building s0 x P s → (∀ b, P b = Q b) → building s0 x Q s.
Proof using Type. intros [] H. constructor; try done. eapply represents_ext; [done |]. intros; apply H. Qed.

Lemma u8_s8 c : in_u 8 c → u8 (s8 c) = c.
Proof using Type. intros. rewrite wrapu_wraps. by apply wrapu_small. Qed.

Lemma is_char_u8 c : is_char c = true → in_u 8 c.
Proof using Type. unfold is_char, in_u. simpl. lia. Qed.

Lemma item_phase s0 P s m p i rest :
  building s0 st_match P s → item_ok i = true → cstr m p (item_text i ++ rest) →
  ∃ s', reaches (length (item_text i)) p s m (p + Z.of_nat (length (item_text i))) s' m ∧
    building s0 st_match (λ b, P b || item_has b i) s'.
Proof using Type.
  intros Hs Hi Hc. destruct i as [c | c]; cbn [item_ok item_text length app] in *.
  - apply andb_true_iff in Hi as [[Hch H93]%andb_true_iff H45]. apply is_char_u8 in Hch.
    exists (set_matchmap (set_bit (matchmap s) c) s). destruct Hs. split.
    + eapply (scan_reaches_step _ _ _ _ _ false); [exact Hc | done | done |]. unfold vsscanf_step. rewrite bd_state0.
      rewrite !s8_ascii by (done || lia). destruct (c =? 93), (c =? 45); try done. by rewrite u8_s8.
    + constructor; try done. by apply represents_set_bit.
  - apply andb_true_iff in Hi as [Hch H93]. apply is_char_u8 in Hch. pose proof Hc as (_ & _ & Hc')%cstr_cons.
    exists (set_state st_match (set_matchmap (set_range (matchmap s) 45 c) (set_state st_match_range (set_range_start 45 s)))). destruct Hs. split.
    + eapply (scan_reaches_trans 1 1).
      * eapply (scan_reaches_step _ _ _ _ _ false (set_state st_match_range (set_range_start 45 s))); [exact Hc | unfold in_u; lia | done |].
        unfold vsscanf_step. by rewrite bd_state0.
      * replace (p + Z.of_nat 2) with (p + 1 + 1) by lia.
        eapply (scan_reaches_step _ _ _ _ _ false); [exact Hc' | done | done |]. unfold vsscanf_step. cbn [state set_state].
        rewrite s8_ascii by (done || lia). destruct (c =? 93); [done |]. by rewrite u8_s8.
    + constructor; try done. simpl. apply represents_set_range; [done | lia |]. unfold in_u in Hch. change (2 ^ 8) with 256 in *. lia.
Qed.

Lemma items_phase s0 m rest items : ∀ P s p,
  building s0 st_match P s → forallb item_ok items = true → cstr m p ((items ≫= item_text) ++ rest) →
  ∃ s', reaches (length (items ≫= item_text)) p s m (p + Z.of_nat (length (items ≫= item_text))) s' m ∧
    building s0 st_match (λ b, P b || existsb (item_has b) items) s'.
Proof using Type.
  induction items as [| i items IH]; intros P s p Hs Hi Hc.
  - exists s. split; [rewrite Z.add_0_r; by intros fuel |]. eapply building_ext; [done |]. intros b. by rewrite orb_false_r.
  - cbn [forallb mbind list_bind] in *. apply andb_true_iff in Hi as [Hi His]. rewrite <- app_assoc in Hc.
    destruct (item_phase s0 P s m p i _ Hs Hi Hc) as (s1 & R1 & H1). apply cstr_app in Hc as (_ & _ & Hc).
    destruct (IH _ s1 _ H1 His Hc) as (s2 & R2 & H2). exists s2. split.
    + rewrite length_app, Nat2Z.inj_add, Z.add_assoc. by eapply scan_reaches_trans.
    + eapply building_ext; [exact H2 |]. intros b. cbn [existsb]. by rewrite orb_assoc.
Qed.

(** The run itself, at the closing bracket. *)
Lemma match_run_spec s0 s m t (sp : bool) P args e :
  represents (matchmap s) P → bailed s = bail_none → width s = width s0 → sarg s = sarg s0 → q s = q s0 →
  converted s = converted s0 → matchinv s = matchinv s0 → (if sp then sarg s0 = NULL else head args = Some (sarg s0)) →
  cstr m (q s0) t → bytes t →
  set_effect sp (width s0) (λ b, xorb (P b) (matchinv s0)) t args = Some e →
  Forall (writable m (q s0) t) (stores e) →
  ∃ s', match_run s m = Some (s', apply_stores m (stores e)) ∧ bailed s' = stop e ∧ converted s' = converted s0 + count e.
Proof using Type.
  intros Hmap Hbail Hwd Hsarg Hq Hcv Hinv Hargs Hc Hb He Hst. unfold match_run, set_effect in *. rewrite Hwd, Hsarg, Hq, Hinv.
  set (run := if width s0 =? 0 then [] else _) in *.
  assert (if sp then sarg s0 = NULL else run = [] ∨ writable m (q s0) t (sarg s0, run ++ [0])) as Ha.
  { destruct sp; [done |]. destruct args as [| x args]; [done |]. simpl in Hargs. simplify_eq.
    destruct (bool_decide (run = [])) eqn:Er; [left; by apply bool_decide_eq_true in Er |]. right. simplify_eq. by apply Forall_cons in Hst as [? _]. }
  assert (∃ uc, with_fuel (λ fuel, scan_set fuel (matchmap s) (matchinv s0) (width s0) 1 (q s0) (sarg s0)) m =
    Some ((uc, q s0 + Z.of_nat (length run), sarg s0 + (if sarg s0 =? NULL then 0 else Z.of_nat (length run))),
      if sarg s0 =? NULL then m else mem_set m (sarg s0) run) ∧
    (uc =? 0) = negb (width s0 =? 0) && bool_decide (length run = length t)) as (uc & E & Hu).
  { unfold run, with_fuel. destruct (Z.eqb_spec (width s0) 0) as [Hw0 | Hw0].
    - exists 1. rewrite Hw0. simpl. rewrite !Z.add_0_r. split; [| done]. by destruct (sarg s0 =? NULL); rewrite Z.add_0_r.
    - cbn [negb andb]. pose proof (cstr_length _ _ _ Hc).
      unfold run in Ha. rewrite ?(proj2 (Z.eqb_neq (width s0) 0)) in Ha by done. clear run He.
      set (run := take _ t) in *.
      assert (mapped m (sarg s0) (if sarg s0 =? NULL then 0 else Z.of_nat (length run)) ∧
        apart (sarg s0) (if sarg s0 =? NULL then 0 else Z.of_nat (length run)) (q s0) (Z.of_nat (length t) + 1) ∧ (run = [] ∨ 0 <= sarg s0)) as (? & ? & ?).
      { destruct sp.
        - rewrite Ha. simpl. split_and!; [intros k Hk; lia | unfold apart; lia | by right].
        - destruct (Z.eqb_spec (sarg s0) NULL) as [-> |]; [split_and!; [intros k Hk; lia | unfold apart; lia | by right] |].
          destruct Ha as [-> | (Ha & Hm & Hd)]; [split_and!; [intros k Hk; simpl in Hk; lia | unfold apart; simpl; lia | by left] |].
          cbn [fst snd] in *. rewrite length_app in Hm, Hd. simpl in Hm, Hd. unfold apart in *. split_and!; [intros k Hk; apply Hm; lia | lia | right; lia]. }
      apply scan_set_spec; try done. lia. }
  erewrite bind_ok by exact E. cbv beta iota zeta.
  destruct (decide (sp = true)) as [-> | Hsp].
  { apply (inj Some) in He as <-. rewrite Ha in *. simpl Z.eqb. cbn [negb]. rewrite andb_false_r.
    erewrite bind_ok by done. cbv beta. rewrite Hu. destruct (negb _ && _); eexists; (split; [done |]); simpl; split; done || lia. }
  destruct sp; [done |]. destruct args as [| x args]; [done |]. simpl in Hargs. injection Hargs as ->. apply (inj Some) in He as <-.
  destruct (decide (run = [])) as [Hrun | Hrun];
    [rewrite (bool_decide_true (run = [])) in * by done | rewrite (bool_decide_false (run = [])) in * by done].
  - rewrite Hrun in *. change (Z.of_nat (length (@nil Z))) with 0. rewrite (Z.add_0_r (q s0)), Z.eqb_refl. cbn [negb andb]. erewrite bind_ok by done. cbv beta. rewrite Hu.
    replace (if sarg s0 =? NULL then m else mem_set m (sarg s0) []) with m by (by destruct (sarg s0 =? NULL)).
    destruct (negb _ && _); eexists; (split; [done |]); simpl; split; done || lia.
  - destruct Ha as [? | (Ha & Hm & Hd)]; [done |]. cbn [fst snd] in *. rewrite length_app in Hm. simpl in Hm.
    assert (length run ≠ 0%nat) by (by destruct run). unfold NULL in *.
    rewrite (proj2 (Z.eqb_neq (sarg s0) 0)) in * by lia. rewrite (proj2 (Z.eqb_neq (q s0 + _) (q s0))), (proj2 (Z.eqb_neq (sarg s0 + _) 0)) by lia. cbn [negb andb].
    destruct (mapped_set m (sarg s0) _ (sarg s0) run Hm (sarg s0 + Z.of_nat (length run))) as [b Hb']; [lia |].
    erewrite bind_ok by (erewrite bind_ok by (eapply store8_ok; done); done). cbv beta. rewrite Hu.
    replace (<[sarg s0 + Z.of_nat (length run) := u8 0]> (mem_set m (sarg s0) run)) with (mem_set m (sarg s0) (run ++ [0])) by (by rewrite mem_set_app).
    destruct (negb _ && _); eexists; (split; [done |]); simpl; split; done || lia.
Qed.
(** The opening bracket, an optional [^] and the first member. *)
Lemma set_open_phase s m (sp : bool) w mods p (inv : bool) first rest args0 :
  ready s sp w mods → state s = st_modifiers → (if sp then True else ap s = args0 ∧ args0 ≠ []) →
  is_char first = true → first ≠ 94 →
  cstr m p (91 :: (if inv then [94] else []) ++ first :: rest) →
  ∃ s0 s' k, reaches k p s m (p + Z.of_nat k) s' m ∧ k = length (91 :: (if inv then [94] else []) ++ [first]) ∧
    building s0 st_match (λ b, b =? first) s' ∧ width s0 = field_width w ∧ q s0 = q s ∧ converted s0 = converted s ∧
    matchinv s0 = inv ∧ (if sp then sarg s0 = NULL else head args0 = Some (sarg s0)).
Proof using Type.
  intros [Hbail Hsp Hwd Hgv Hfi Hrk] Hst Hargs Hf%is_char_u8 H94 Hc. pose proof Hc as (_ & _ & Hc1)%cstr_cons.
  assert (∃ a l, (if sp then mret (NULL, s) else va_arg s) m = Some ((a, set_ap l s), m) ∧
    (if sp then a = NULL ∧ l = ap s else head args0 = Some a)) as (a & l & Ea & Ha).
  { destruct sp; [exists NULL, (ap s); by destruct s |]. destruct Hargs as [<- Hne]. unfold va_arg.
    destruct (ap s) as [| a l]; [done |]. by exists a, l. }
  set (s1 := set_matchmap [0; 0; 0; 0] (set_matchinv false (set_state st_match_init (set_sarg a (set_rank (clamp (rank s)) (set_ap l (set_state st_normal s))))))).
  assert (reaches 1 p s m (p + 1) s1 m) as R1.
  { eapply (scan_reaches_step _ _ _ _ _ false); [exact Hc | unfold in_u; lia | done |]. rewrite s8_small by lia.
    unfold vsscanf_step. rewrite Hst. simpl. unfold conversion. cbv zeta. simpl Z.eqb. cbn [orb].
    set (s2 := if _ <? _ then _ else _).
    assert (s2 = set_rank (clamp (rank s)) (set_state st_normal s)) as ->.
    { unfold s2, clamp. simpl. destruct (rank s <? MIN_RANK); [done |]. by destruct (MAX_RANK <? rank s), s. }
    change (splat (set_rank _ _)) with (splat s). rewrite Hsp.
    assert ((if sp then mret (NULL, set_rank (clamp (rank s)) (set_state st_normal s))
             else va_arg (set_rank (clamp (rank s)) (set_state st_normal s))) m =
      Some ((a, set_rank (clamp (rank s)) (set_ap l (set_state st_normal s))), m)) as E.
    { destruct sp; [destruct Ha as [-> ->]; by destruct s |]. unfold va_arg in *. cbn [ap set_rank set_state]. by destruct (ap s); simplify_eq. }
    erewrite bind_ok by (erewrite bind_ok by exact E; done). done. }
  set (s2 := set_matchinv inv s1). set (n := length (if inv then [94] else [])).
  apply cstr_app in Hc1 as (Hm1 & Hz1 & Hc2).
  assert (reaches n (p + 1) s1 m (p + 1 + Z.of_nat n) s2 m) as R2.
  { unfold n, s2. destruct inv; [| rewrite Z.add_0_r; by intros fuel].
    eapply (scan_reaches_step _ 94 (first :: rest) _ _ false); [| unfold in_u; lia | done |].
    - apply (cstr_app _ _ [94]). split_and!; done.
    - rewrite s8_small by lia. unfold vsscanf_step. simpl. by rewrite Hfi. }
  assert (reaches 1 (p + 1 + Z.of_nat n) s2 m (p + 1 + Z.of_nat n + 1) (set_state st_match (set_matchmap (set_bit [0; 0; 0; 0] first) s2)) m) as R3.
  { eapply (scan_reaches_step _ _ _ _ _ false); [exact Hc2 | done | done |]. unfold vsscanf_step. cbn [state s2 s1 set_matchinv set_matchmap set_state].
    rewrite s8_ascii, (proj2 (Z.eqb_neq first 94)) by (done || lia). cbn [andb]. by rewrite u8_s8. }
  exists s2. eexists. exists (1 + n + 1)%nat. split; [| split].
  - pose proof (scan_reaches_trans _ _ _ _ _ _ _ _ _ _ _ (scan_reaches_trans _ _ _ _ _ _ _ _ _ _ _ R1 R2) R3) as R.
    replace (p + Z.of_nat (1 + n + 1)) with (p + 1 + Z.of_nat n + 1) by lia. exact R.
  - cbn [length]. rewrite length_app. simpl. unfold n. lia.
  - split_and!; try done; [| by destruct sp; [destruct Ha |]].
    constructor; try done. apply (represents_set_bit _ (λ _, false)); [apply represents_empty | done].
Qed.

(** A whole scan set. *)
Lemma set_phase s m (sp : bool) w mods p (inv : bool) first items (dash : bool) rest t e :
  ready s sp w mods → state s = st_modifiers → is_char first = true → first ≠ 94 → forallb item_ok items = true →
  cstr m p (91 :: set_text inv first items dash ++ rest) → cstr m (q s) t → bytes t →
  set_effect sp (field_width w) (λ b, xorb (set_has first items dash b) inv) t (ap s) = Some e →
  Forall (writable m (q s) t) (stores e) →
  let k := length (91 :: set_text inv first items dash) in
  ∃ s', reaches k p s m (p + Z.of_nat k) s' (apply_stores m (stores e)) ∧
    bailed s' = stop e ∧ converted s' = converted s + count e.
Proof using Type.
  intros Hrd Hst Hf H94 Hi Hc Ht Hb He Hw k.
  assert (91 :: set_text inv first items dash ++ rest = 91 :: (if inv then [94] else []) ++ first :: ((items ≫= item_text) ++ (if dash then [45] else []) ++ [93] ++ rest)) as Htxt.
  { unfold set_text. by rewrite <- !app_assoc, <- app_comm_cons, <- !app_assoc. }
  rewrite Htxt in Hc.
  destruct (set_open_phase s m sp w mods p inv first ((items ≫= item_text) ++ (if dash then [45] else []) ++ [93] ++ rest) (ap s) Hrd Hst) as (s0 & s1 & k1 & R1 & Hk1 & H1 & Hw0 & Hq0 & Hc0 & Hi0 & Ha0); try done.
  { unfold set_effect in He. destruct sp; [done |]. split; [done |]. by destruct (ap s). }
  assert (cstr m (p + Z.of_nat k1) ((items ≫= item_text) ++ (if dash then [45] else []) ++ [93] ++ rest)) as Hc1.
  { replace (91 :: (if inv then [94] else []) ++ first :: ((items ≫= item_text) ++ (if dash then [45] else []) ++ [93] ++ rest))
      with ((91 :: (if inv then [94] else []) ++ [first]) ++ ((items ≫= item_text) ++ (if dash then [45] else []) ++ [93] ++ rest)) in Hc
      by (by rewrite <- app_comm_cons, <- app_assoc). apply cstr_app in Hc as (_ & _ & Hc). by rewrite <- Hk1 in Hc. }
  destruct (items_phase s0 m _ items _ s1 _ H1 Hi Hc1) as (s2 & R2 & H2). apply cstr_app in Hc1 as (_ & _ & Hc2).
  pose proof (scan_reaches_trans _ _ _ _ _ _ _ _ _ _ _ R1 R2) as R12. clear R1 R2 H1. set (k2 := length (items ≫= item_text)) in *.
  set (p2 := p + Z.of_nat k1 + Z.of_nat k2) in *.
  assert (∃ s3, reaches (length ((if dash then [45] else []) ++ [93])) p2 s2 m (p2 + Z.of_nat (length ((if dash then [45] else []) ++ [93]))) s3 (apply_stores m (stores e)) ∧
    bailed s3 = stop e ∧ converted s3 = converted s + count e) as (s3 & R3 & Hb3 & Hc3).
  { rewrite <- Hw0 in He. rewrite <- Hq0 in Ht, Hw. rewrite <- Hc0. rewrite <- Hi0 in He. destruct H2. destruct dash.
    - destruct (match_run_spec s0 (set_matchmap (set_bit (matchmap s2) 45) (set_state st_match_range (set_range_start 45 s2))) m t sp
        (set_has first items true) (ap s) e) as (s3 & E3 & ? & ?); try done.
      { eapply represents_ext; [by apply represents_set_bit |]. done. }
      exists s3. split; [| done]. simpl app in Hc2. pose proof Hc2 as (_ & _ & Hc3)%cstr_cons.
      eapply (scan_reaches_trans 1 1).
      + eapply (scan_reaches_step _ _ _ _ _ false (set_state st_match_range (set_range_start 45 s2))); [exact Hc2 | unfold in_u; lia | done |].
        unfold vsscanf_step. by rewrite bd_state0.
      + simpl length. replace (p2 + Z.of_nat 2) with (p2 + 1 + 1) by lia. eapply (scan_reaches_step _ _ _ _ _ false); [exact Hc3 | unfold in_u; lia | done |].
        unfold vsscanf_step. cbn [state set_state]. rewrite s8_small by lia. change (93 =? 93) with true. cbv iota. by erewrite bind_ok by exact E3.
    - destruct (match_run_spec s0 s2 m t sp (set_has first items false) (ap s) e) as (s3 & E3 & ? & ?); try done.
      { eapply represents_ext; [done |]. intros b _. unfold set_has. cbn [andb]. by rewrite orb_false_r. }
      exists s3. split; [| done]. simpl app in Hc2. eapply (scan_reaches_step _ _ _ _ _ false); [exact Hc2 | unfold in_u; lia | done |].
      unfold vsscanf_step. rewrite bd_state0, s8_small by lia. change (93 =? 93) with true. cbv iota. by erewrite bind_ok by exact E3. }
  exists s3. split; [| done]. pose proof (scan_reaches_trans _ _ _ _ _ _ _ _ _ _ _ R12 R3) as R.
  set (d := (if dash then [45] else []) ++ [93]) in *.
  assert (k = k1 + k2 + length d)%nat as ->.
  { unfold k, d, set_text. rewrite Hk1. cbn [length]. rewrite !length_app. cbn [length]. rewrite !length_app. fold k2. cbn [length]. lia. }
  replace (p + Z.of_nat (k1 + k2 + length d)) with (p2 + Z.of_nat (length d)) by (unfold p2; lia). exact R.
Qed.
(** Every directive but a scan set. *)
Lemma directive_phase s m p d rest t pos e :
  state s = st_normal → bailed s = bail_none → directive_ok d = true → is_set d = false →
  cstr m p (directive_text d ++ rest) → cstr m (q s) t → bytes t → q s = buffer + Z.of_nat pos →
  effect_of d t pos (ap s) = Some e → Forall (writable m (q s) t) (stores e) →
  ∃ k s', (k <= 2 * length (directive_text d))%nat ∧
    reaches k p s m (p + Z.of_nat (length (directive_text d))) s' (apply_stores m (stores e)) ∧ after s e s'.
Proof using Type.
  intros Hst Hbail Hok Hns Hc Ht Hb Hq He Hw. destruct d as [c | c | sp w mods c |]; [| | | done]; cbn [directive_ok directive_text effect_of length] in *.
  - apply andb_true_iff in Hok as [Hch%is_char_u8 Hsp]. simplify_eq. exists 1%nat, (set_q (q s + Z.of_nat (span_len is_space t)) s).
    split; [lia |]. split; [| split_and!; simpl; done || lia].
    eapply (scan_reaches_step _ _ _ _ _ false); [exact Hc | done | done |]. unfold vsscanf_step. rewrite Hst.
    rewrite s8_ascii by (done || lia). destruct (Z.eqb_spec c 37) as [-> | _]; [done |]. rewrite u8_s8 by done.
    destruct (is_space_run c m Hch) as (v & Hv & Hz). rewrite (bind_ok _ _ _ _ _ Hv), Hz, Hsp. cbn [negb].
    by erewrite bind_ok by by apply skipspace_ok.
  - apply andb_true_iff in Hok as [[Hch%is_char_u8 Hsp]%andb_true_iff H37].
    set (s' := if bool_decide (head t = Some c) then set_q (q s + 1) s else set_bail bail_err s).
    exists 1%nat, s'. split; [lia |].
    assert (vsscanf_step buffer (s8 c) s m = Some ((false, s'), m)) as E.
    { unfold vsscanf_step. rewrite Hst, s8_ascii by (done || lia). destruct (Z.eqb_spec c 37) as [-> | _]; [done |]. rewrite u8_s8 by done.
      destruct (is_space_run c m Hch) as (v & Hv & Hz). rewrite (bind_ok _ _ _ _ _ Hv), Hz.
      destruct (is_space c); [done |]. cbn [negb]. unfold s'. destruct t as [| b t].
      - apply cstr_nil in Ht. erewrite bind_ok by (eapply loadc_ok; done). rewrite bool_decide_false by done.
        change (s8 0) with 0. rewrite Z.eqb_sym, s8_ascii by (done || lia).
        by rewrite (proj2 (Z.eqb_neq c 0)) by (unfold cstr in Hc; destruct Hc as [_ Hz']; by apply Forall_cons in Hz' as [? _]).
      - pose proof Ht as (Hb0 & _ & _)%cstr_cons. apply Forall_cons in Hb as [Hb8 _]. erewrite bind_ok by (eapply loadc_ok; done).
        unfold mret, st_ret. repeat f_equal. destruct (Z.eqb_spec (s8 b) (s8 c)) as [Hbc | Hbc].
        + rewrite bool_decide_true; [done |]. apply (f_equal u8) in Hbc. rewrite !u8_s8 in Hbc by done. by rewrite Hbc.
        + rewrite bool_decide_false; [done |]. simpl. intros [= ->]. done. }
    apply (inj Some) in He. split.
    + replace (apply_stores m (stores e)) with m by (by rewrite <- He; destruct (bool_decide _)).
      eapply (scan_reaches_step _ _ _ _ _ false); [exact Hc | done | done | exact E].
    + subst e. unfold s'. destruct (bool_decide _); split_and!; simpl; done || lia.
  - rewrite !andb_true_iff, !negb_true_iff in Hok. destruct Hok as ((((((Hd & Hm) & Hch) & Hnd) & Hnm) & H42) & H91).
    apply Z.eqb_neq in H42, H91. rewrite <- app_assoc in Hc. cbn [app] in Hc.
    destruct (prefix_phase s m sp w mods p c rest) as (s1 & R1 & Hrd & Hst1 & Hq1 & Hc1 & Ha1); try done; [by apply is_char_u8 |].
    apply cstr_app in Hc as (_ & _ & Hc). apply is_char_u8 in Hch.
    destruct (scan_conversion_spec buffer m s1 t pos sp w mods c e Hrd) as (s2 & E2 & Haf); try done; rewrite ?Hq1, ?Ha1; try done.
    exists (S (length (prefix_text sp w mods)) + 1)%nat, s2. rewrite length_app, Nat2Z.inj_add, Z.add_assoc.
    split; [cbn [length]; unfold prefix_text; cbn [length]; lia |]. split.
    + eapply scan_reaches_trans; [exact R1 |]. eapply (scan_reaches_step _ _ _ _ _ false); [exact Hc | done | by destruct Hrd |].
      unfold vsscanf_step. rewrite Hst1. unfold is_mod in Hnm. apply bool_decide_eq_false in Hnm. rewrite !not_elem_of_cons in Hnm.
      rewrite !(λ k H, s8_ascii c k Hch H) by lia.
      repeat match goal with |- context [c =? ?y] => rewrite (proj2 (Z.eqb_neq c y)) by tauto end. cbn [orb].
      assert (conversion buffer (s8 c) s1 = conversion buffer c s1) as ->.
      { unfold conversion. by rewrite !(λ k H, s8_ascii c k Hch H) by lia. }
      by erewrite bind_ok by exact E2.
    + destruct Haf as (? & ? & Haf). split_and!; [done | simpl in *; lia |]. intros Hn. specialize (Haf Hn). simpl in Haf.
      by rewrite Hst, <- Hq1.
Qed.
End machine.

(** ** The whole function *)

Lemma parse_num_le base t : ((parse_num base t).2 <= length t)%nat.
Proof.
  unfold parse_num. pose proof (span_len_le is_space t) as H0. set (k0 := span_len is_space t) in *.
  pose proof (split_sign_le (drop k0 t)) as H1. rewrite length_drop in H1. destruct (split_sign _) as [mi k1].
  pose proof (split_base_le base (drop (k0 + k1) t)) as H2. rewrite length_drop in H2. destruct (split_base _ _) as [b k2].
  pose proof (span_len_le (digit_in b) (drop (k0 + k1 + k2) t)) as H3. rewrite length_drop in H3. simpl in *. lia.
Qed.

Lemma int_effect_used sp size v k n args e : int_effect sp size v k n args = Some e → used e = k.
Proof. unfold int_effect. intros. repeat case_match; by simplify_eq. Qed.

Lemma number_effect_used sp width size base t args e :
  number_effect sp width size base t args = Some e → (used e <= length t)%nat.
Proof.
  unfold number_effect. intros He. pose proof (span_len_le is_space t). set (k := span_len is_space t) in *.
  case_bool_decide; [by simplify_eq |].
  pose proof (parse_num_le base (visible width (drop k t))) as Hn. destruct (parse_num _ _) as [v n]. simpl in Hn.
  rewrite visible_take, length_take, length_drop in Hn. case_bool_decide; [by simplify_eq |].
  apply int_effect_used in He. lia.
Qed.

(** No directive takes more input than there is. *)
Lemma effect_used d t pos args e : is_set d = false → effect_of d t pos args = Some e → (used e <= length t)%nat.
Proof.
  intros Hd He. destruct d as [c | c | sp w mods c |]; [| | | done]; cbn [effect_of] in He.
  - simplify_eq. apply span_len_le.
  - simplify_eq. destruct t; case_bool_decide; simpl in *; simplify_eq; lia.
  - unfold conv_effect in He.
    repeat match type of He with (if ?b then number_effect _ _ _ _ _ _ else _) = _ => destruct b; [by eapply number_effect_used |] end.
    destruct (c =? 110); [apply int_effect_used in He; lia |].
    destruct (c =? 99).
    { unfold chars_effect in He. rewrite visible_take in He. repeat case_match; simplify_eq; simpl; rewrite ?length_take; lia. }
    destruct (c =? 115).
    { unfold word_effect in He. pose proof (run_of_length (λ c, negb (is_space c)) (field_width w) t). repeat case_match; simplify_eq; simpl; lia. }
    destruct (c =? 37); simpl in He; [| simplify_eq; simpl; lia].
    destruct t; case_bool_decide; simpl in *; simplify_eq; simpl; lia.
Qed.

Section whole.
Context (B F : Z) (input ftext : list Z).

(** A store that leaves the input and the format alone. *)
Definition store_ok (m : mem) (w : Z * list Z) : Prop :=
  0 < w.1 ∧ mapped m w.1 (Z.of_nat (length w.2)) ∧
  apart w.1 (Z.of_nat (length w.2)) B (Z.of_nat (length input) + 1) ∧
  apart w.1 (Z.of_nat (length w.2)) F (Z.of_nat (length ftext) + 1).

Global Instance store_ok_dec m w : Decision (store_ok m w).
Proof using Type. unfold store_ok, apart. apply _. Defined.

Lemma cstr_store m w a s : apart w.1 (Z.of_nat (length w.2)) a (Z.of_nat (length s) + 1) → cstr m a s → cstr (mem_set m w.1 w.2) a s.
Proof using Type.
  destruct w as [x bs]. unfold apart. cbn [fst snd]. intros Ha Hs. destruct bs as [| b bs]; [done |].
  apply cstr_set_ne; [done |]. cbn [length] in *. lia.
Qed.

Lemma stores_keep ws : ∀ m ws', Forall (store_ok m) ws → Forall (store_ok m) ws' →
  cstr m B input → cstr m F ftext →
  let m' := apply_stores m ws in cstr m' B input ∧ cstr m' F ftext ∧ Forall (store_ok m') ws'.
Proof using Type.
  induction ws as [| w ws IH]; intros m ws' Hws Hws' HB HF; [done |]. apply Forall_cons in Hws as [Hw Hws]. simpl.
  assert (∀ l, Forall (store_ok m) l → Forall (store_ok (mem_set m w.1 w.2)) l) as Hmono.
  { intros l Hl. eapply Forall_impl; [exact Hl |]. intros x (? & ? & ? & ?). split_and!; try done. by apply mapped_set. }
  destruct Hw as (? & ? & ? & ?). apply IH; auto using cstr_store.
Qed.

Lemma store_ok_writable m pos ws : (pos <= length input)%nat → Forall (store_ok m) ws →
  Forall (writable m (B + Z.of_nat pos) (drop pos input)) ws.
Proof using Type.
  intros Hp Hws. eapply Forall_impl; [exact Hws |]. intros w (? & ? & Hb & _). split_and!; try done. unfold apart in *. rewrite length_drop. lia.
Qed.

Lemma scan_loop_spec ds : ∀ fuel m s i pos r ws,
  format_ok ds = true → drop i ftext = format_text ds → (i <= length ftext)%nat → (pos <= length input)%nat →
  cstr m B input → bytes input → cstr m F ftext → state s = st_normal → bailed s = bail_none → q s = B + Z.of_nat pos →
  scan ds (drop pos input) pos (ap s) (converted s) = Some (r, ws) → Forall (store_ok m) ws →
  (2 * length (format_text ds) < fuel)%nat →
  ∃ s', vsscanf_loop fuel B (F + Z.of_nat i) s m = Some (s', apply_stores m ws) ∧ result (converted s') (bailed s') = r.
Proof using Type.
  induction ds as [| d ds IH]; intros fuel m s i pos r ws Hok Hi Hil Hpos HB Hb HF Hst Hbail Hq Hscan Hws Hfuel;
    cbn [format_ok scan] in *.
  { simplify_eq. destruct fuel as [| fuel]; [lia |]. exists s. rewrite Hbail. split; [| done].
    apply scan_loop_at_nul. pose proof (cstr_drop _ _ _ _ HF Hil) as H. rewrite Hi in H. by apply cstr_nil in H. }
  rewrite !andb_true_iff in Hok. destruct Hok as [[Hd Hset] Hds]. change (format_text (d :: ds)) with (directive_text d ++ format_text ds) in *.
  pose proof (cstr_drop _ _ _ _ HF Hil) as Hcf. rewrite Hi in Hcf.
  pose proof (cstr_drop _ _ _ _ HB Hpos) as Hci. rewrite <- Hq in Hci. assert (bytes (drop pos input)) as Hbd by by apply Forall_drop.
  destruct (effect_of d (drop pos input) pos (ap s)) as [e |] eqn:He; [| done]. simpl in Hscan. rewrite length_app in Hfuel.
  assert (Forall (store_ok m) (stores e)) as Hse.
  { destruct (bool_decide (stop e = bail_none)); [| by simplify_eq]. destruct (scan ds _ _ _ _) as [[r' ws'] |]; simpl in Hscan; [| done]. simplify_eq. by apply Forall_app in Hws as [? _]. }
  pose proof (store_ok_writable m pos _ Hpos Hse) as Hwr. rewrite <- Hq in Hwr.
  destruct (is_set d) eqn:Eset.
  - (* the last directive *) simpl in Hset. apply bool_decide_eq_true in Hset as ->.
    destruct d as [| | | sp w mods inv first items dash]; try done. cbn [directive_ok directive_text] in *.
    rewrite !andb_true_iff, negb_true_iff in Hd. destruct Hd as ((((Hdig & Hmods) & Hfi) & H94) & Hit). apply Z.eqb_neq in H94.
    rewrite <- app_assoc in Hcf. cbn [app] in Hcf.
    destruct (prefix_phase B s m sp w mods (F + Z.of_nat i) 91 (set_text inv first items dash ++ format_text [])) as (s1 & R1 & Hrd & Hst1 & Hq1 & Hc1 & Ha1); try done.
    apply cstr_app in Hcf as (_ & _ & Hcf). cbn [effect_of] in He. rewrite <- Hq1 in Hci, Hwr. rewrite <- Ha1 in He.
    destruct (set_phase B s1 m sp w mods (F + Z.of_nat i + Z.of_nat (length (prefix_text sp w mods))) inv first items dash (format_text []) (drop pos input) e Hrd Hst1 Hfi H94 Hit) as (s2 & R2 & Hb2 & Hc2); try done.
    pose proof (scan_reaches_trans _ _ _ _ _ _ _ _ _ _ _ _ R1 R2) as R. rewrite length_app in Hfuel.
    set (k := (S (length (prefix_text sp w mods)) + length (91%Z :: set_text inv first items dash))%nat) in *.
    assert (ws = stores e ∧ result (converted s2) (bailed s2) = r) as [-> Hr].
    { rewrite Hb2, Hc2, Hc1. destruct (bool_decide (stop e = bail_none)) eqn:Es; simpl in Hscan; simplify_eq; [| done].
      rewrite app_nil_r. apply bool_decide_eq_true in Es as ->. by split. }
    exists s2. split; [| done]. destruct (stores_keep (stores e) m [] Hse (Forall_nil_2 _) HB HF) as (_ & HF' & _).
    assert (∃ n, fuel = (k + S n)%nat) as [n ->] by (exists (fuel - k - 1)%nat; unfold k in *; unfold prefix_text in *; cbn [length] in *; lia).
    rewrite R. apply scan_loop_at_nul. replace (_ + _) with (F + Z.of_nat (length ftext)); [by apply cstr_end |].
    apply (f_equal length) in Hi. rewrite length_drop, !length_app in Hi. simpl in Hi. simpl. lia.
  - destruct (directive_phase B s m (F + Z.of_nat i) d (format_text ds) (drop pos input) pos e) as (k & s1 & Hk & R & Hb1 & Hc1 & Haf); try done.
    set (i' := (i + length (directive_text d))%nat). replace (F + Z.of_nat i + _) with (F + Z.of_nat i') in R by lia.
    assert (i' <= length ftext)%nat as Hil'.
    { apply (f_equal length) in Hi. rewrite length_drop, length_app in Hi. unfold i'. destruct d; simpl in Hi |- *; lia. }
    assert (drop i' ftext = format_text ds) as Hi' by (unfold i'; by rewrite <- drop_drop, Hi, drop_app_length).
    assert (∃ n, fuel = (k + S n)%nat) as [n ->] by (exists (fuel - k - 1)%nat; lia).
    rewrite R. destruct (bool_decide (stop e = bail_none)) eqn:Es.
    + apply bool_decide_eq_true in Es. destruct (scan ds _ _ _ _) as [[r' ws'] |] eqn:Esc; simpl in Hscan; [| done]. simplify_eq.
      apply Forall_app in Hws as [_ Hws']. destruct (stores_keep (stores e) m ws' Hse Hws' HB HF) as (HB' & HF' & Hok').
      destruct (Haf Es) as (Hst1 & Hq1 & Ha1). pose proof (effect_used _ _ _ _ _ Eset He) as Hu. rewrite length_drop in Hu.
      destruct (IH (S n) (apply_stores m (stores e)) s1 i' (pos + used e)%nat r ws') as (s2 & E2 & Hr2); try done; try congruence; try lia.
      { rewrite Hc1, Ha1. rewrite <- drop_drop. exact Esc. }
      exists s2. split; [| done]. rewrite E2. unfold apply_stores. by rewrite fold_left_app.
    + apply bool_decide_eq_false in Es. simplify_eq. exists s1. rewrite Hb1, Hc1. split; [| done].
      destruct (stores_keep (stores e) m [] Hse (Forall_nil_2 _) HB HF) as (_ & HF' & _).
      pose proof (cstr_drop _ _ _ _ HF' Hil') as Hcd.
      assert (∃ b, apply_stores m (stores e) !! (F + Z.of_nat i') = Some b) as [b Hb'].
      { destruct (drop i' ftext); [apply cstr_nil in Hcd | apply cstr_cons in Hcd as (? & _)]; eauto. }
      eapply loop_bailed; [exact Hb' | by rewrite Hb1].
Qed.
End whole.

(** The run of the whole function. *)
Lemma vsscanf_run m buffer format ds input args r ws :
  format_ok ds = true → cstr m format (format_text ds) → cstr m buffer input → bytes input →
  scan ds input 0 args 0 = Some (r, ws) → Forall (store_ok buffer format input (format_text ds) m) ws →
  vsscanf buffer format args m = Some (r, apply_stores m ws).
Proof.
  intros Hok HF HB Hb Hs Hw. unfold vsscanf.
  destruct (scan_loop_spec buffer format input (format_text ds) ds (2 * S (size m)) m
    (mk_sf st_normal 0 rank_int UINT_MAX buffer bail_none 0 args NULL [0; 0; 0; 0] false 0) 0 0 r ws) as (s' & E & Hr);
    try done; try (simpl; lia).
  { apply cstr_length in HF. lia. }
  rewrite Z.add_0_r in E. erewrite bind_ok by exact E. unfold result in Hr. by rewrite Hr.
Qed.

(** C27.  [vsscanf] performs the directives of its format one after the
    other: it always returns, makes exactly the stores of their effects in
    order and changes no other byte, and returns the number of conversions
    (or -1 if the input ended before the first).  A scan set is the last
    directive of the format; the objects the stores go to do not overlap the
    input or the format. *)
Theorem vsscanf_correct m buffer format ds input args r ws :
  format_ok ds = true → cstr m format (format_text ds) → cstr m buffer input → bytes input →
  scan ds input 0 args 0 = Some (r, ws) → Forall (store_ok buffer format input (format_text ds) m) ws →
  vsscanf buffer format args m = Some (r, apply_stores m ws).
Proof. apply vsscanf_run. Qed.

(** ["%ld %*s %3c%n%[a-d]"] on [" -12 ab xyzabcde"]. *)
Definition demo_format : list directive :=
  [Conv false [] [108] 100; White 32; Conv true [] [] 115; White 32; Conv false [51] [] 99; Conv false [] [] 110;
   Scanset false [] [] false 97 [Upto 100] false].
Definition demo_input : list Z := [32; 45; 49; 50; 32; 97; 98; 32; 120; 121; 122; 97; 98; 99; 100; 101].
Definition scan_mem (fmt input : list Z) : mem :=
  mem_set (mem_set (mem_set ∅ 100 (fmt ++ [0])) 200 (input ++ [0])) 300 (replicate 100 7).

Lemma vsscanf_correct_witness :
  vsscanf 200 100 [300; 320; 340; 360] (scan_mem (format_text demo_format) demo_input) =
  Some (3, apply_stores (scan_mem (format_text demo_format) demo_input)
             [(300, [244; 255; 255; 255; 255; 255; 255; 255]); (320, [120; 121; 122]); (340, [11; 0; 0; 0]);
              (360, [97; 98; 99; 0])]).
Proof.
  apply (vsscanf_correct _ 200 100 demo_format demo_input [300; 320; 340; 360]); [reflexivity | by_eval | by_eval | by_eval | vm_compute; reflexivity | by_eval].
Defined.

(** The machine stays in [st_match] behind a scan set: in ["%[a]%d"] the
    second conversion is never performed. *)
Example set_swallows_format :
  fst <$> vsscanf 200 100 [300; 320] (scan_mem [37; 91; 97; 93; 37; 100] [97; 53]) = Some 1.
Proof. vm_compute. reflexivity. Qed.

(** [%s] does not skip white space: nothing is converted, and no failure is
    reported. *)
Example string_keeps_space : fst <$> vsscanf 200 100 [300] (scan_mem [37; 115] [32; 97]) = Some 0.
Proof. vm_compute. reflexivity. Qed.

(** [%*c] does not consume its character: ["%*c%c"] stores the first one. *)
Example splat_char_stays :
  (λ r, r.2 !! 300) <$> vsscanf 200 100 [300] (scan_mem [37; 42; 99; 37; 99] [97; 98]) = Some (Some 97).
Proof. vm_compute. reflexivity. Qed.
