(* ===== verification/Inet.v ===== *)
(** * Internet addresses: [klibc/inet/*.c]

    The conversions between addresses and their text, over [Memory], on top
    of [Printf] and [Scanf].  The string literals, the static buffer of
    [inet_ntoa] and the local objects whose address is taken are at addresses
    that are parameters.  A [struct in_addr] is its [uint32_t] value; the
    bytes of an object are read in little-endian order. *)

From stdpp Require Import base numbers list gmap.
From Stdlib Require Import Lia.
From S2P Require Import Prelude Memory Ctype MemOps StrOps Numparse Printf Scanf.

(** ** The code *)

Definition AF_INET : Z := 2.
Definition AF_INET6 : Z := 10.
Definition INADDR_NONE : Z := 0xffffffff.

(** The object representation of an integer, read back. *)
Fixpoint load_le (k : nat) (a : Z) : C Z :=
  match k with
  | O => mret 0
  | S k => b ← load8 a; v ← load_le k (a + 1); mret (b + 256 * v)
  end.

(** ["%u.%u.%u.%u"] *)
Definition u_format : list Z := [37; 117; 46; 37; 117; 46; 37; 117; 46; 37; 117].

Section code.
(* the literals "%u.%u.%u.%u", "%hhu.%hhu.%hhu.%hhu", "%x:%x:%x:%x:%x:%x:%x:%x";
   the static buffer of inet_ntoa; the locals a of inet_aton and inet_addr *)
Context (fmt_u fmt_hhu fmt_x name a_aton a_addr : Z).

Definition inet_aton (str addr : Z) : C Z :=
  r ← sscanf str fmt_hhu [a_aton; a_aton + 1; a_aton + 2; a_aton + 3];
  if r =? 4 then
    l ← load_le 4 a_aton;
    store_le 4 addr l;;
    mret 1
  else mret 0.

Definition inet_addr (str : Z) : C Z :=
  rv ← inet_aton str a_addr;
  if negb (rv =? 0) then load_le 4 a_addr else mret INADDR_NONE.

(** [cp[i]] of an address passed by value. *)
Definition cp (addr i : Z) : Z := u8 (addr / 256 ^ i).

Definition inet_ntoa (addr : Z) : C Z :=
  sprintf name fmt_u [cp addr 0; cp addr 1; cp addr 2; cp addr 3];;
  mret name.

(** [ntohs(s->s6_addr16[i])] *)
Definition word16 (s i : Z) : C Z := hi ← load8 (s + 2 * i); lo ← load8 (s + 2 * i + 1); mret (hi * 256 + lo).

(** Returns [buf] or [NULL]. *)
Definition inet_ntop (af cp buf len : Z) : C Z :=
  let finish (xlen : Z) : C Z := if len <? u64 xlen then mret NULL else mret buf in
  if af =? AF_INET then
    b0 ← load8 cp; b1 ← load8 (cp + 1); b2 ← load8 (cp + 2); b3 ← load8 (cp + 3);
    xlen ← snprintf buf len fmt_u [b0; b1; b2; b3];
    finish xlen
  else if af =? AF_INET6 then
    w0 ← word16 cp 0; w1 ← word16 cp 1; w2 ← word16 cp 2; w3 ← word16 cp 3;
    w4 ← word16 cp 4; w5 ← word16 cp 5; w6 ← word16 cp 6; w7 ← word16 cp 7;
    xlen ← snprintf buf len fmt_x [w0; w1; w2; w3; w4; w5; w6; w7];
    finish xlen
  else mret NULL.

Definition hexval (ch : Z) : Z :=
  if (48 <=? ch) && (ch <=? 57) then ch - 48
  else if (65 <=? ch) && (ch <=? 70) then ch - 65 + 10
  else if (97 <=? ch) && (ch <=? 102) then ch - 97 + 10
  else -1.

(** The first loop: [None] inside is the return at an invalid character. *)
Fixpoint count_colons (fuel : nat) (p colons dcolons : Z) : C (option (Z * Z)) :=
  match fuel with
  | O => fault
  | S f =>
      c ← loadc p;
      if c =? 0 then mret (Some (colons, dcolons))
      else if c =? 58 then
        c1 ← loadc (p + 1);
        count_colons f (p + 1) (colons + 1) (if c1 =? 58 then dcolons + 1 else dcolons)
      else
        x ← lift (isxdigit c);
        if x =? 0 then mret None else count_colons f (p + 1) colons dcolons
  end.

(** The second loop. *)
Fixpoint fill_words (fuel : nat) (d colons p i : Z) : C unit :=
  match fuel with
  | O => fault
  | S f =>
      c ← loadc p;
      if c =? 0 then mret tt
      else if c =? 58 then
        c1 ← loadc (p + 1);
        fill_words f d colons (p + 1) (if c1 =? 58 then i + (8 - colons) else i + 1)
      else
        w ← word16 d i;
        let w := u16 (u16 (Z.shiftl w 4) + hexval c) in
        store8 (d + 2 * i) (w / 256);;
        store8 (d + 2 * i + 1) w;;
        fill_words f d colons (p + 1) i
  end.

(** Both loops run over [dst], as the code has it. *)
Definition inet_pton (af src dst : Z) : C Z :=
  if af =? AF_INET then inet_aton src dst
  else if af =? AF_INET6 then
    r ← with_fuel (λ fuel, count_colons fuel dst 0 0);
    match r with
    | None => mret 0
    | Some (colons, dcolons) =>
        if (7 <? colons) || (1 <? dcolons) || ((dcolons =? 0) && negb (colons =? 7)) then mret 0
        else
          Mem.memset dst 0 16;;
          with_fuel (λ fuel, fill_words fuel dst colons dst 0);;
          mret 1
    end
  else mret (-1).
End code.

(** ** Dotted decimal text *)

Definition dec (b : Z) : list Z := int_text 0 10 b 0 (-1).

(** The text of an address whose bytes in memory order are [bs]. *)
Definition dotted (b0 b1 b2 b3 : Z) : list Z := dec b0 ++ 46 :: dec b1 ++ 46 :: dec b2 ++ 46 :: dec b3.

Definition dec_good (b : Z) : Prop :=
  Forall (λ c, digit_in 10 c = true ∧ in_u 8 c ∧ c ≠ 0 ∧ is_space c = false) (dec b) ∧
  positional 10 (dec b) = b ∧ (1 <= length (dec b) <= 3)%nat.

Global Instance dec_good_dec b : Decision (dec_good b).
Proof. unfold dec_good. apply _. Defined.

Lemma dec_byte b : in_u 8 b → dec_good b.
Proof.
  intros Hb. assert (b ∈ seqZ 0 256) as Hin by (apply elem_of_seqZ; unfold in_u in Hb; simpl in Hb; lia).
  revert b Hb Hin. assert (Forall dec_good (seqZ 0 256)) as H by by_eval. rewrite Forall_forall in H. auto.
Qed.

Lemma render_dotted strs b0 b1 b2 b3 : in_u 8 b0 → in_u 8 b1 → in_u 8 b2 → in_u 8 b3 →
  render (length u_format) strs u_format [b0; b1; b2; b3] = Some (dotted b0 b1 b2 b3).
Proof.
  intros H0 H1 H2 H3.
  change (render (length u_format) strs u_format [b0; b1; b2; b3]) with
    (Some (int_text 0 10 (u32 b0) 0 (-1) ++ 46 :: int_text 0 10 (u32 b1) 0 (-1) ++ 46 :: int_text 0 10 (u32 b2) 0 (-1) ++ 46 :: int_text 0 10 (u32 b3) 0 (-1) ++ [])).
  unfold dotted, dec. rewrite app_nil_r, !wrapu_small by (unfold in_u in *; lia). done.
Qed.

(* [dec] is used through [dec_byte] from here on *)
#[local] Opaque dec.

(** ** Scanning an address *)

(** ["%hhu.%hhu.%hhu.%hhu"] *)
Definition hhu : directive := Conv false [] [104; 104] 117.
Definition hhu_format : list directive := [hhu; Literal 46; hhu; Literal 46; hhu; Literal 46; hhu].

Lemma hhu_effect b rest pos a args :
  in_u 8 b → (∀ c t, rest = c :: t → digit_in 10 c = false) → Z.of_nat (length rest) < 100 →
  effect_of hhu (dec b ++ rest) pos (a :: args) = Some (mk_effect [(a, [b])] (length (dec b)) 1 bail_none args).
Proof.
  intros Hb Hrest Hlen. destruct (dec_byte b Hb) as (Hall & Hpos & Hl).
  change (effect_of hhu (dec b ++ rest) pos (a :: args)) with (number_effect false UINT_MAX 1 10 (dec b ++ rest) (a :: args)).
  unfold number_effect.
  assert (span_len is_space (dec b ++ rest) = 0%nat) as ->.
  { destruct (dec b) as [| c l] eqn:E; [simpl in Hl; lia |]. apply Forall_cons in Hall as [(_ & _ & _ & Hs) _]. simpl. by rewrite Hs. }
  rewrite drop_0, bool_decide_false by (destruct (dec b); simpl in *; [lia | done]).
  rewrite visible_take, take_ge by (rewrite length_app; unfold UINT_MAX; lia).
  pose proof (parse_num_grammar [] None [] (dec b) rest 10 10) as Hp. cbn [app sign_text] in Hp. rewrite Hp; clear Hp.
  - rewrite bool_decide_false by lia. rewrite Hpos. cbn [apply_sign]. unfold int_effect. cbn [le_list].
    rewrite (wrapu_small 64) by (unfold in_u in *; lia). by rewrite wrapu_small.
  - done.
  - by apply BPplain.
  - eapply Forall_impl; [exact Hall |]. by intros ? (? & ? & ? & ?).
  - eapply Forall_impl; [exact Hall |]. by intros ? (? & ? & ? & ?).
  - destruct (dec b); simpl in Hl; [lia | done].
  - lia.
  - done.
Qed.

Lemma dot_not_digit (t : list Z) : ∀ c u, 46 :: t = c :: u → digit_in 10 c = false.
Proof. intros c u [= <- _]. reflexivity. Qed.

Lemma scan_step d ds t pos args conv k st n args' rest r ws :
  effect_of d t pos args = Some (mk_effect st k n bail_none args') → drop k t = rest →
  scan ds rest (pos + k) args' (conv + n) = Some (r, ws) →
  scan (d :: ds) t pos args conv = Some (r, st ++ ws).
Proof. intros He <- Hs. cbn [scan]. rewrite He. simpl. by rewrite Hs. Qed.

Lemma scan_dotted b0 b1 b2 b3 a0 a1 a2 a3 :
  in_u 8 b0 → in_u 8 b1 → in_u 8 b2 → in_u 8 b3 →
  scan hhu_format (dotted b0 b1 b2 b3) 0 [a0; a1; a2; a3] 0 =
    Some (4, [(a0, [b0]); (a1, [b1]); (a2, [b2]); (a3, [b3])]).
Proof.
  intros H0 H1 H2 H3. unfold hhu_format, dotted.
  destruct (dec_byte b0 H0) as (_ & _ & L0), (dec_byte b1 H1) as (_ & _ & L1), (dec_byte b2 H2) as (_ & _ & L2), (dec_byte b3 H3) as (_ & _ & L3).
  assert (∀ b a l rest pos conv ds r ws, in_u 8 b → Z.of_nat (length rest) < 90 →
    scan ds rest (pos + length (dec b) + 1)%nat l (conv + 1) = Some (r, ws) →
    scan (hhu :: Literal 46 :: ds) (dec b ++ 46 :: rest) pos (a :: l) conv = Some (r, (a, [b]) :: ws)) as Hdot.
  { intros b a l rest pos conv ds r ws Hb Hl Hs.
    apply (scan_step _ _ _ _ _ _ (length (dec b)) [(a, [b])] 1 l (46 :: rest)).
    - apply hhu_effect; [done | apply dot_not_digit | simpl; lia].
    - by rewrite drop_app_length.
    - apply (scan_step _ _ _ _ _ _ 1 [] 0 l rest _ ws); [done | done |]. by rewrite Z.add_0_r. }
  repeat (apply Hdot; [done | rewrite ?length_app; cbn [length]; rewrite ?length_app; cbn [length]; rewrite ?length_app; cbn [length]; lia |]).
  apply (scan_step _ _ _ _ _ _ (length (dec b3)) [(a3, [b3])] 1 [] [] _ []).
  - rewrite <- (app_nil_r (dec b3)) at 1. by apply hhu_effect.
  - by rewrite drop_all.
  - done.
Qed.

(** ** Round trip of an address *)

(** The value of a little-endian object. *)
Fixpoint le_val (bs : list Z) : Z := match bs with [] => 0 | b :: bs => b + 256 * le_val bs end.

Lemma load_le_ok bs : ∀ m a, mem_at m a bs → load_le (length bs) a m = Some (le_val bs, m).
Proof.
  induction bs as [| b bs IH]; intros m a Hm; [done |]. apply mem_at_cons in Hm as [Hb Hm]. cbn [length load_le].
  erewrite bind_ok by (eapply load8_ok; done). by erewrite bind_ok by by apply IH.
Qed.

Lemma le_list_val bs : bytes bs → le_list (length bs) (le_val bs) = bs.
Proof.
  induction bs as [| b bs IH]; intros Hb; [done |]. apply Forall_cons in Hb as [Hb Hbs]. cbn [length le_list le_val].
  unfold in_u in Hb. change (2 ^ 8) with 256 in Hb. unfold wrapu. change (2 ^ 8) with 256. f_equal.
  - Z.to_euclidean_division_equations. lia.
  - replace ((b + 256 * le_val bs) / 256) with (le_val bs) by (Z.to_euclidean_division_equations; lia). auto.
Qed.

Lemma le_val_cp a : in_u 32 a → le_val [cp a 0; cp a 1; cp a 2; cp a 3] = a.
Proof.
  intros Ha. unfold in_u in Ha. cbn [le_val]. unfold cp, wrapu. change (2 ^ 8) with 256. change (256 ^ 0) with 1. change (256 ^ 1) with 256.
  change (256 ^ 2) with 65536. change (256 ^ 3) with 16777216. change (2 ^ 32) with 4294967296 in Ha. Z.to_euclidean_division_equations. lia.
Qed.

Lemma dotted_chars b0 b1 b2 b3 : in_u 8 b0 → in_u 8 b1 → in_u 8 b2 → in_u 8 b3 →
  bytes (dotted b0 b1 b2 b3) ∧ Forall (λ b, b ≠ 0) (dotted b0 b1 b2 b3) ∧ (7 <= length (dotted b0 b1 b2 b3) <= 15)%nat.
Proof.
  intros H0 H1 H2 H3. unfold dotted.
  destruct (dec_byte b0 H0) as (A0 & _ & L0), (dec_byte b1 H1) as (A1 & _ & L1), (dec_byte b2 H2) as (A2 & _ & L2), (dec_byte b3 H3) as (A3 & _ & L3).
  split_and!.
  - rewrite !Forall_app, !Forall_cons, !Forall_app, !Forall_cons, !Forall_app, !Forall_cons.
    split_and!; try (eapply Forall_impl; [eassumption |]; intros ? (? & ? & ? & ?); done); by_eval.
  - rewrite !Forall_app, !Forall_cons, !Forall_app, !Forall_cons, !Forall_app, !Forall_cons.
    split_and!; try (eapply Forall_impl; [eassumption |]; intros ? (? & ? & ? & ?); done); done.
  - rewrite !length_app; cbn [length]; rewrite !length_app; cbn [length]; rewrite !length_app; cbn [length]; lia.
  - rewrite !length_app; cbn [length]; rewrite !length_app; cbn [length]; rewrite !length_app; cbn [length]; lia.
Qed.

Section proofs.
Context (fmt_u fmt_hhu fmt_x name a_aton a_addr : Z).

Lemma aton_run m str addr b0 b1 b2 b3 :
  in_u 8 b0 → in_u 8 b1 → in_u 8 b2 → in_u 8 b3 → cstr m str (dotted b0 b1 b2 b3) →
  cstr m fmt_hhu (format_text hhu_format) → 0 < a_aton → mapped m a_aton 4 →
  apart a_aton 4 str (Z.of_nat (length (dotted b0 b1 b2 b3)) + 1) → apart a_aton 4 fmt_hhu 20 → mapped m addr 4 →
  inet_aton fmt_hhu a_aton str addr m =
    Some (1, mem_set (mem_set m a_aton [b0; b1; b2; b3]) addr [b0; b1; b2; b3]).
Proof using Type.
  intros H0 H1 H2 H3 Hs Hf Hpos Hm Ha1 Ha2 Hd. destruct (dotted_chars b0 b1 b2 b3 H0 H1 H2 H3) as (Hb & _ & _).
  unfold inet_aton, sscanf.
  assert (apply_stores m [(a_aton, [b0]); (a_aton + 1, [b1]); (a_aton + 2, [b2]); (a_aton + 3, [b3])] = mem_set m a_aton [b0; b1; b2; b3]) as Hset.
  { simpl. by replace (a_aton + 1 + 1) with (a_aton + 2) by lia; replace (a_aton + 2 + 1) with (a_aton + 3) by lia. }
  erewrite bind_ok.
  2: { apply (vsscanf_run m str fmt_hhu hhu_format (dotted b0 b1 b2 b3) _ 4 [(a_aton, [b0]); (a_aton + 1, [b1]); (a_aton + 2, [b2]); (a_aton + 3, [b3])]); try done.
       - by apply scan_dotted.
       - unfold store_ok, apart in *. change (Z.of_nat (length (format_text hhu_format)) + 1) with 20.
         rewrite !Forall_cons, Forall_nil. cbn [fst snd length]. change (Z.of_nat 1) with 1.
         split_and!; try done; try lia; intros k Hk; apply Hm; lia. }
  change (4 =? 4) with true. cbv iota. rewrite Hset.
  erewrite bind_ok by (apply (load_le_ok [b0; b1; b2; b3]), mem_set_at).
  erewrite bind_ok by (apply store_le_ok; by apply mapped_set). unfold mret, st_ret. do 3 f_equal.
  apply (le_list_val [b0; b1; b2; b3]). rewrite !Forall_cons, Forall_nil. done.
Qed.

(** [inet_ntoa] followed by [inet_aton] of its result gives back
    every address: the dotted decimal text fits the static buffer, and the
    address is stored as it was. *)
Theorem inet_roundtrip m a addr :
  in_u 32 a → cstr m fmt_u u_format → cstr m fmt_hhu (format_text hhu_format) →
  mapped m name 16 → 0 < a_aton → mapped m a_aton 4 → mapped m addr 4 →
  apart name 16 fmt_u 12 → apart name 16 fmt_hhu 20 → apart a_aton 4 name 16 → apart a_aton 4 fmt_hhu 20 →
  ∃ m1 m2, inet_ntoa fmt_u name a m = Some (name, m1) ∧ inet_aton fmt_hhu a_aton name addr m1 = Some (1, m2) ∧
    load_le 4 addr m2 = Some (a, m2).
Proof using Type.
  intros Ha Hu Hh Hn Hpos Hm Hd A1 A2 A3 A4.
  assert (∀ i, in_u 8 (cp a i)) as Hcp by (intros; apply wrapu_range; lia).
  set (b0 := cp a 0). set (b1 := cp a 1). set (b2 := cp a 2). set (b3 := cp a 3).
  destruct (dotted_chars b0 b1 b2 b3 (Hcp _) (Hcp _) (Hcp _) (Hcp _)) as (Hb & Hnz & Hl). set (t := dotted b0 b1 b2 b3) in *.
  eexists _, _. split; [| split].
  - unfold inet_ntoa. erewrite bind_ok; [done |]. unfold sprintf.
    apply (vsnprintf_run (λ _, None) m name SIZE_MAX fmt_u u_format [b0; b1; b2; b3] t);
      [apply render_dotted; apply Hcp | lia | done | | done | by_eval | | done].
    + intros k Hk. apply Hn. unfold SIZE_MAX in Hk. lia.
    + unfold away, apart in *. cbn [length u_format]. unfold SIZE_MAX. lia.
  - change (SIZE_MAX =? 0) with false. cbv iota. rewrite take_ge by (unfold SIZE_MAX; lia).
    apply (aton_run _ _ _ b0 b1 b2 b3); [apply Hcp | apply Hcp | apply Hcp | apply Hcp | by apply cstr_set | | done | by apply mapped_set | | done | by apply mapped_set].
    + apply (cstr_store _ (name, t ++ [0])); [| done]. unfold apart in *. cbn [fst snd]. rewrite length_app.
      change (Z.of_nat (length (format_text hhu_format)) + 1) with 20. cbn [length]. lia.
    + fold t. unfold apart in *. lia.
  - rewrite <- (le_val_cp a Ha) at 1. apply (load_le_ok [b0; b1; b2; b3]), mem_set_at.
Qed.

(** [inet_ntop] of an IPv4 address stores the part of the dotted
    decimal text that fits, terminated, and fails only if the text without its
    terminator is longer than the buffer: a buffer of exactly the length of
    the text gets a truncated address without an error. *)
Theorem inet_ntop_v4 m cp buf len b0 b1 b2 b3 :
  in_u 8 b0 → in_u 8 b1 → in_u 8 b2 → in_u 8 b3 → mem_at m cp [b0; b1; b2; b3] → cstr m fmt_u u_format →
  let t := dotted b0 b1 b2 b3 in
  0 <= len → mapped m buf (Z.min len 16) → buf + Z.min len 16 <= fmt_u ∨ fmt_u + 12 <= buf →
  inet_ntop fmt_u fmt_x AF_INET cp buf len m =
    Some (if len <? Z.of_nat (length t) then NULL else buf,
          if len =? 0 then m else mem_set m buf (take (Z.to_nat (len - 1)) t ++ [0])).
Proof using Type.
  intros H0 H1 H2 H3 Hcp Hf t Hlen Hm Ha. destruct (dotted_chars b0 b1 b2 b3 H0 H1 H2 H3) as (Hb & Hnz & Hl). fold t in Hb, Hnz, Hl.
  rewrite !mem_at_cons in Hcp. replace (cp + 1 + 1) with (cp + 2) in Hcp by lia. replace (cp + 2 + 1) with (cp + 3) in Hcp by lia.
  destruct Hcp as (C0 & C1 & C2 & C3 & _). unfold inet_ntop. change (AF_INET =? AF_INET) with true. cbv iota zeta.
  do 4 (erewrite bind_ok by (eapply load8_ok; done)). unfold snprintf.
  erewrite bind_ok.
  2: { apply (vsnprintf_run (λ _, None) m buf len fmt_u u_format [b0; b1; b2; b3] t);
         [by apply render_dotted | lia | done | | done | by_eval | | done].
       - intros k Hk. apply Hm. lia.
       - unfold away. cbn [length u_format]. lia. }
  rewrite wrapu_small by (unfold in_u; lia). by destruct (len <? Z.of_nat (length t)).
Qed.
End proofs.

(** ** The IPv6 branch of [inet_pton] *)

Lemma count_colons_spec s : ∀ fuel m p colons dcolons,
  cstr m p s → Forall (λ c, 0 < c < 128) s → (length s < fuel)%nat →
  ∃ r, count_colons fuel p colons dcolons m = Some (r, m).
Proof.
  induction s as [| c s IH]; intros [| f] m p co dc Hs Hc Hf; cbn [count_colons length] in *; try lia.
  - apply cstr_nil in Hs. erewrite bind_ok by (eapply loadc_ok; done). by eexists.
  - pose proof Hs as (Hb & Hnz & Hs')%cstr_cons. apply Forall_cons in Hc as [Hc Hcs].
    erewrite bind_ok by (eapply loadc_ok; done). rewrite s8_small by lia. rewrite (proj2 (Z.eqb_neq c 0)) by lia.
    destruct (c =? 58).
    + assert (∃ d, m !! (p + 1) = Some d) as [d Hd].
      { destruct s; [apply cstr_nil in Hs' | apply cstr_cons in Hs' as (? & _)]; eauto. }
      erewrite bind_ok by (eapply loadc_ok; done). apply IH; done || lia.
    + assert (∃ x, isxdigit c = Some x) as [x Hx].
      { assert (c ∈ seqZ 0 128) as Hin by (apply elem_of_seqZ; lia). clear -Hin. revert c Hin.
        assert (Forall (λ c, is_Some (isxdigit c)) (seqZ 0 128)) as H by by_eval. rewrite Forall_forall in H. intros c Hin.
        destruct (H c Hin) as [x Hx]. by exists x. }
      erewrite bind_ok by (by apply lift_ok). destruct (x =? 0); [by eexists |]. apply IH; done || lia.
Qed.

(** For IPv6 [inet_pton] reads [dst] instead of [src]: whatever
    [src] is, it fails and stores nothing, or succeeds and stores the zero
    address. *)
Theorem inet_pton_v6 fmt_hhu a_aton m src dst s :
  cstr m dst s → Forall (λ c, 0 < c < 128) s → mapped m dst 16 →
  inet_pton fmt_hhu a_aton AF_INET6 src dst m = Some (0, m) ∨
  inet_pton fmt_hhu a_aton AF_INET6 src dst m = Some (1, mem_set m dst (replicate 16 0)).
Proof.
  intros Hs Hc Hm. unfold inet_pton. change (AF_INET6 =? AF_INET) with false. change (AF_INET6 =? AF_INET6) with true. cbv iota.
  destruct (count_colons_spec s (S (size m)) m dst 0 0 Hs Hc) as [r E]; [apply cstr_length in Hs; lia |].
  rewrite (bind_ok _ _ _ _ _ E : (with_fuel (λ fuel, count_colons fuel dst 0 0) ≫= _) m = _). clear E.
  destruct r as [[co dc] |]; [| by left]. destruct (_ || _); [by left |]. right.
  erewrite bind_ok by (apply memset_correct; [lia | done]). change (u8 0) with 0. change (Z.to_nat 16) with 16%nat.
  set (m' := mem_set m dst (replicate 16 0)).
  assert (fill_words (S (size m')) dst co dst 0 m' = Some (tt, m')) as E.
  { cbn [fill_words]. by erewrite bind_ok by (eapply loadc_ok; rewrite <- (Z.add_0_r dst); apply (mem_set_at m dst (replicate 16 0) 0%nat 0); done). }
  by erewrite bind_ok by exact E.
Qed.

(** ** Witnesses *)

Definition inet_mem : mem :=
  mem_set (mem_set (mem_set ∅ 100 (u_format ++ [0])) 200 (format_text hhu_format ++ [0])) 300 (replicate 64 0).

(** 192.168.1.10 *)
Definition inet_demo : Z := 192 + 168 * 2 ^ 8 + 1 * 2 ^ 16 + 10 * 2 ^ 24.

Lemma inet_roundtrip_witness :
  ∃ m1 m2, inet_ntoa 100 300 inet_demo inet_mem = Some (300, m1) ∧ inet_aton 200 320 300 330 m1 = Some (1, m2) ∧
    load_le 4 330 m2 = Some (inet_demo, m2).
Proof. apply (inet_roundtrip 100 200 300 320 inet_mem inet_demo 330); by_eval || (unfold apart; lia). Defined.

(** "1.2.3.4" has seven characters; with room for seven, the last one is lost. *)
Lemma inet_ntop_v4_witness :
  inet_ntop 100 0 AF_INET 340 300 7 (mem_set inet_mem 340 [1; 2; 3; 4]) =
    Some (300, mem_set (mem_set inet_mem 340 [1; 2; 3; 4]) 300 [49; 46; 50; 46; 51; 46; 0]).
Proof. apply (inet_ntop_v4 100 0 (mem_set inet_mem 340 [1; 2; 3; 4]) 340 300 7 1 2 3 4); by_eval || lia. Defined.

Lemma inet_pton_v6_witness :
  inet_pton 200 320 AF_INET6 100 300 inet_mem = Some (0, inet_mem) ∨
  inet_pton 200 320 AF_INET6 100 300 inet_mem = Some (1, mem_set inet_mem 300 (replicate 16 0)).
Proof. apply (inet_pton_v6 200 320 inet_mem 100 300 []); by_eval. Defined.
