(* ===== verification/Exit.v ===== *)
(** * Leaving the program: [klibc/exit.c], [onexit.c], [atexit.c]

    Functions registered with [on_exit] are kept in a linked list of
    allocated nodes.  [exit] walks it from the last registration to the
    first, then flushes every stream ([Stdio]) and leaves.  What a registered
    function does is a parameter [call]: it acts on the whole program state
    and may itself register functions. *)

From stdpp Require Import base numbers list gmap.
From Stdlib Require Import Lia.
From S2P Require Import Prelude Chain Stdio.

(** ** The code *)

(** [struct atexit] *)
Record atexit_node := mk_atexit { fctn : Z; arg : Z; link : Z }.
Definition sizeof_atexit : Z := 24.
Definition NULL : Z := 0.

Section code.
Context {W : Type} `{Kernel W}.

Record program := mk_program {
  atexit_list : Z;                   (* __atexit_list *)
  nodes : gmap Z atexit_node;
  streams : stdio (W := W);
  exited : option Z;                 (* the argument of _exit *)
}.

Definition set_list (a : Z) (n : gmap Z atexit_node) (s : program) := mk_program a n (streams s) (exited s).
Definition set_streams (x : stdio) (s : program) := mk_program (atexit_list s) (nodes s) x (exited s).
Definition set_exited (x : option Z) (s : program) := mk_program (atexit_list s) (nodes s) (streams s) x.

Local Abbreviation P := (st program).

(** A function of the standard I/O library. *)
Definition on_streams {A} (c : st stdio A) : P A := λ s,
  match c (streams s) with Some (a, x) => Some (a, set_streams x s) | None => None end.

(** The assignments to [*as] and [__atexit_list]. *)
Definition push_node (a f x : Z) : P unit := λ s,
  Some (tt, set_list a (<[a := mk_atexit f x (atexit_list s)]> (nodes s)) s).

Definition on_exit (f x : Z) : P Z :=
  a ← on_streams (gcall (alloc sizeof_atexit));
  if a =? NULL then mret (-1)
  else push_node a f x;; mret 0.

Definition atexit (f : Z) : P Z := on_exit f NULL.

(** [call f rv x]: the function [f] with arguments [rv] and [x]; [headnode] is
    that of the streams. *)
Context (call : Z → Z → Z → P unit) (headnode : Z).

Definition node (a : Z) : P atexit_node := λ s, match nodes s !! a with Some n => Some (n, s) | None => None end.

(** [for (ap = __atexit_list; ap; ap = ap->next) ap->fctn(rv, ap->arg);] *)
Fixpoint exit_loop (n : nat) (ap rv : Z) : P unit :=
  if ap =? NULL then mret tt
  else match n with
       | O => fault
       | S n =>
           x ← node ap;
           call (fctn x) rv (arg x);;
           x ← node ap;
           exit_loop n (link x) rv
       end.

Definition sys_exit (rv : Z) : P unit := λ s, Some (tt, set_exited (Some rv) s).

(** The list has at most as many nodes as there are; [fuel] is that of
    [fflush]. *)
Definition exit (fuel : nat) (rv : Z) : P unit := λ s,
  (exit_loop (size (nodes s)) (atexit_list s) rv;;
   _ ← on_streams (fflush_all headnode fuel);
   sys_exit rv) s.

(** ** The list of registered functions *)

Fixpoint chain (m : gmap Z atexit_node) (a : Z) (hs : list (Z * Z)) : Prop :=
  match hs with
  | [] => a = NULL
  | (f, x) :: hs => a ≠ NULL ∧ ∃ b, m !! a = Some (mk_atexit f x b) ∧ chain m b hs
  end.

Lemma chain_mono m m' hs : ∀ a, m ⊆ m' → chain m a hs → chain m' a hs.
Proof using Type.
  induction hs as [| [f x] hs IH]; intros a Hm; [done |]. intros (Hn & b & Hb & Hc). split; [done |].
  exists b. split; [by eapply lookup_weaken | by apply IH].
Qed.

Lemma chain_fresh m a n hs : ∀ b, m !! a = None → chain m b hs → chain (<[a := n]> m) b hs.
Proof using Type. intros b Ha. apply chain_mono. by apply insert_subseteq. Qed.

(** The nodes of a list are distinct, as the list ends. *)
Lemma chain_delete m a f x b hs : chain m a ((f, x) :: hs) → m !! a = Some (mk_atexit f x b) → chain (delete a m) b hs.
Proof using Type.
  intros Hc Ha.
  assert (∀ k hs' c, chain m c hs' → length hs' = k → ∀ hs2, chain m c hs2 → hs' = hs2) as Huniq.
  { induction k as [| k IH]; intros [| [g y] hs1] c H1 Hl [| [g2 y2] hs2] H2; simpl in *; try done.
    - by destruct H2. - by destruct H1.
    - destruct H1 as (_ & d & Hd & H1), H2 as (_ & d2 & Hd2 & H2). simplify_eq. f_equal. by eapply IH. }
  assert (chain m b hs) as Hb by (destruct Hc as (_ & b' & Hb' & Hc); by simplify_eq).
  assert (∀ l c, chain m c l → (length l <= length hs)%nat → chain (delete a m) c l) as Hgo.
  { induction l as [| [g y] l IH]; intros c Hl Hle; [done |]. pose proof Hl as (Hn & d & Hd & Hl'). split; [done |].
    exists d. rewrite lookup_delete_ne; [split; [done |]; apply IH; [done | simpl in Hle; lia] |].
    intros <-. assert ((f, x) :: hs = (g, y) :: l) as E by (eapply Huniq; done). apply (f_equal length) in E. simpl in *. lia. }
  by apply Hgo.
Qed.

Lemma chain_size hs : ∀ m a, chain m a hs → (length hs <= size m)%nat.
Proof using Type.
  induction hs as [| [f x] hs IH]; intros m a Hc; simpl; [lia |].
  pose proof Hc as (_ & b & Hb & _). pose proof (IH _ _ (chain_delete _ _ _ _ _ _ Hc Hb)) as Hle.
  rewrite map_size_delete_Some in Hle by eauto. assert (size m ≠ 0%nat) by (apply map_size_ne_0_lookup; eauto). lia.
Qed.

(** *** What [exit] runs *)

Fixpoint run_handlers (hs : list (Z * Z)) (rv : Z) : P unit :=
  match hs with
  | [] => mret tt
  | (f, x) :: hs => call f rv x;; run_handlers hs rv
  end.

(** No function takes a node out of the list: the library has no operation
    that does. *)
Definition keeps_nodes : Prop := ∀ f rv x s s', call f rv x s = Some (tt, s') → nodes s ⊆ nodes s'.

Lemma exit_loop_run rv : keeps_nodes → ∀ hs n ap s,
  chain (nodes s) ap hs → (length hs <= n)%nat → exit_loop n ap rv s = run_handlers hs rv s.
Proof using Type.
  intros Hk hs. induction hs as [| [f x] hs IH]; intros n ap s Hc Hn.
  - simpl in Hc. subst ap. by destruct n.
  - destruct Hc as (Hne & b & Hb & Hc). destruct n as [| n]; [simpl in Hn; lia |]. cbn [exit_loop run_handlers].
    rewrite (proj2 (Z.eqb_neq ap NULL)) by done.
    assert (∀ s', nodes s' !! ap = Some (mk_atexit f x b) → node ap s' = Some (mk_atexit f x b, s')) as Hnode.
    { intros s' E. unfold node. by rewrite E. }
    erewrite bind_ok by by apply Hnode. cbn [fctn arg].
    destruct (call f rv x s) as [[[] s'] |] eqn:E; [| by rewrite !bind_fault].
    rewrite !(bind_ok _ _ _ _ _ E). apply Hk in E. erewrite bind_ok by (apply Hnode; by eapply lookup_weaken). cbn [link]. apply IH; [| simpl in Hn; lia].
    by eapply chain_mono.
Qed.

(** Registrations one after the other, each with a fresh node. *)
Fixpoint registered (regs : list (Z * Z)) (s s' : program) : Prop :=
  match regs with
  | [] => s' = s
  | (f, x) :: regs =>
      nodes s !! (alloc sizeof_atexit (world (streams s))).1 = None ∧
      ∃ s1, on_exit f x s = Some (0, s1) ∧ registered regs s1 s'
  end.

Lemma on_exit_run f x s hs :
  nodes s !! (alloc sizeof_atexit (world (streams s))).1 = None → chain (nodes s) (atexit_list s) hs →
  ∃ r s', on_exit f x s = Some (r, s') ∧
    (r = 0 ∧ chain (nodes s') (atexit_list s') ((f, x) :: hs) ∨
     r = -1 ∧ nodes s' = nodes s ∧ atexit_list s' = atexit_list s).
Proof using Type.
  intros Hfr Hc. unfold on_exit, on_streams, gcall, mbind, st_bind. destruct (alloc sizeof_atexit (world (streams s))) as [a w]. simpl in Hfr.
  destruct (Z.eqb_spec a NULL) as [-> | Hne]; eexists _, _; (split; [done |]); [right; done | left]. split; [done |]. split; [done |].
  exists (atexit_list s). simpl. rewrite lookup_insert_eq. split; [done |]. by apply chain_fresh.
Qed.

Lemma registered_chain regs : ∀ s s' hs,
  registered regs s s' → chain (nodes s) (atexit_list s) hs → chain (nodes s') (atexit_list s') (reverse regs ++ hs).
Proof using Type.
  induction regs as [| [f x] regs IH]; intros s s' hs; cbn [registered].
  - intros -> Hc. by rewrite reverse_nil.
  - intros (Hfr & s1 & E & Hr) Hc. destruct (on_exit_run f x s hs Hfr Hc) as (r & s2 & E2 & Hcase).
    rewrite E in E2. injection E2 as <- <-. destruct Hcase as [[_ Hc'] | [? _]]; [| done].
    rewrite reverse_cons, <- app_assoc. by apply (IH s1).
Qed.
End code.

Section theorems.
Context {W : Type} `{KernelLaws W}.
Context (call : Z → Z → Z → st (program (W := W)) unit) (headnode : Z).

(** C36.  [exit] runs exactly the functions that were registered before it was
    called, once each, in the reverse order of their registration; functions
    that these register meanwhile are put in front of the list and are not
    run.  Then every stream is flushed, and the program leaves with the status
    it was given.  If no flush fails, nothing that was written to a stream is
    lost. *)
Theorem exit_correct fuel regs rv s s0 s1 l :
  atexit_list s = NULL → registered regs s s0 → keeps_nodes call →
  run_handlers call (reverse regs) rv s0 = Some (tt, s1) →
  wf_stdio headnode (streams s1) l → streams_ok (streams s1) →
  (patience (world (streams s1)) + Z.to_nat BUFSIZ < fuel)%nat →
  ∃ s', exit call headnode fuel rv s0 = Some (tt, s') ∧ exited s' = Some rv ∧
    ∃ r, fflush_all headnode fuel (streams s1) = Some (r, streams s') ∧
      (r = 0 → ∀ f x, files (streams s1) !! f = Some x →
        sent (world (streams s')) (fd x) = sent (world (streams s1)) (fd x) ++ unsent x).
Proof using Type.
  intros Hl Hreg Hk Hrun Hwf Hok Hf. unfold exit.
  pose proof (registered_chain regs s s0 [] Hreg ltac:(by rewrite Hl)) as Hc. rewrite app_nil_r in Hc.
  destruct (fflush_all_run headnode fuel (streams s1) l Hwf Hok Hf) as (r & x' & E & _ & _ & Hr).
  eexists. split; [| split; [| exists r; split]].
  - erewrite bind_ok by (rewrite (exit_loop_run call rv Hk (reverse regs)); [exact Hrun | done | by eapply chain_size]).
    by erewrite bind_ok by (unfold on_streams; rewrite E; done).
  - done.
  - exact E.
  - intros Hz f x Hx. by apply (Hr Hz f x Hx).
Qed.
End theorems.

(** ** Witness *)

(** Handler 1 registers handler 2 while it runs (if the allocator has a fresh
    node); the stream of the demo kernel has two bytes in its buffer. *)
Definition demo_call (f rv x : Z) : st (program (W := demo)) unit := λ s,
  if (f =? 1) && bool_decide (nodes s !! (alloc sizeof_atexit (world (streams s))).1 = None)
  then (on_exit 2 0;; mret tt) s else Some (tt, s).

Definition demo_program : program (W := demo) := mk_program NULL ∅ (demo_stdio []) None.

Lemma demo_call_keeps : keeps_nodes demo_call.
Proof.
  intros f rv x s s' E. unfold demo_call in E. destruct (f =? 1); simpl in E; [| by simplify_eq].
  destruct (bool_decide _) eqn:Hb; [| by simplify_eq]. apply bool_decide_eq_true in Hb.
  unfold on_exit, on_streams, gcall, push_node, mbind, st_bind, mret, st_ret in E. simpl in *.
  destruct (_ =? NULL); simplify_eq; simpl; [done |].
  by apply insert_subseteq.
Qed.

Definition program_after (o : option (unit * program (W := demo))) : program := match o with Some (_, s) => s | None => demo_program end.
Definition program_of (o : option (Z * program (W := demo))) : program := match o with Some (_, s) => s | None => demo_program end.
Definition demo_registered : program := program_of ((on_exit 1 7;; on_exit 3 8) demo_program).
Definition demo_ran : program := program_after (run_handlers demo_call [(3, 8); (1, 7)] 42 demo_registered).

Lemma demo_streams_at w : wf_stdio 4 (set_world w (demo_stdio [])) [8] ∧ streams_ok (set_world w (demo_stdio [])).
Proof. destruct (demo_stdio_wf []), (demo_stdio_ok []). split; split; done. Qed.

Lemma exit_correct_witness :
  ∃ s', exit demo_call 4 demo_fuel 42 demo_registered = Some (tt, s') ∧ exited s' = Some 42.
Proof.
  assert (streams demo_ran = set_world (mk_demo [] (λ _, []) (λ _, []) (λ _, 0) 19) (demo_stdio [])) as Hw by reflexivity.
  destruct (exit_correct demo_call 4 demo_fuel [(1, 7); (3, 8)] 42 demo_program demo_registered demo_ran [8]) as (s' & E & Hx & _).
  - reflexivity.
  - split; [reflexivity |]. eexists. split; [reflexivity |]. split; [reflexivity |]. eexists. split; reflexivity.
  - exact demo_call_keeps.
  - reflexivity.
  - rewrite Hw. apply demo_streams_at.
  - rewrite Hw. apply demo_streams_at.
  - rewrite Hw. apply (demo_fuel_enough 0). lia.
  - exists s'. split; [exact E | exact Hx].
Defined.
