(* ===== verification/Netdev.v ===== *)
(** * The network device of ipconfig: [kinit/ipconfig/netdev.h]

    [struct netdev] with an update function per field that the protocol code
    assigns, and the byte-level helpers of the packet code.  A character array
    is the list of all its bytes, the name (a pointer) the string; an address is the [uint32_t] with the bytes
    of the packet, in the order of the machine. *)

From stdpp Require Import base numbers list.
From Stdlib Require Import Lia.
From S2P Require Import Prelude.

Definition SYS_NMLN : Z := 65.
Definition BPLEN : Z := 256.
Definition FNLEN : Z := 128.

Record netdev := mk_netdev {
  name : list Z;
  hwtype : Z;
  hwlen : Z;
  hwaddr : list Z;
  hwbrd : list Z;
  ifindex : Z;
  mtu : Z;
  caps : Z;
  open_time : Z;
  xid : Z;
  bootp_gateway : Z;
  ip_addr : Z;
  ip_broadcast : Z;
  ip_server : Z;
  ip_netmask : Z;
  ip_gateway : Z;
  ns0 : Z;
  ns1 : Z;
  serverid : Z;
  reqhostname : list Z;
  hostname : list Z;
  dnsdomainname : list Z;
  nisdomainname : list Z;
  bootpath : list Z;
  filename : list Z;
}.

Definition set_mtu v d := mk_netdev (name d) (hwtype d) (hwlen d) (hwaddr d) (hwbrd d) (ifindex d) v (caps d) (open_time d) (xid d) (bootp_gateway d) (ip_addr d) (ip_broadcast d) (ip_server d) (ip_netmask d) (ip_gateway d) (ns0 d) (ns1 d) (serverid d) (reqhostname d) (hostname d) (dnsdomainname d) (nisdomainname d) (bootpath d) (filename d).
Definition set_caps v d := mk_netdev (name d) (hwtype d) (hwlen d) (hwaddr d) (hwbrd d) (ifindex d) (mtu d) v (open_time d) (xid d) (bootp_gateway d) (ip_addr d) (ip_broadcast d) (ip_server d) (ip_netmask d) (ip_gateway d) (ns0 d) (ns1 d) (serverid d) (reqhostname d) (hostname d) (dnsdomainname d) (nisdomainname d) (bootpath d) (filename d).
Definition set_open_time v d := mk_netdev (name d) (hwtype d) (hwlen d) (hwaddr d) (hwbrd d) (ifindex d) (mtu d) (caps d) v (xid d) (bootp_gateway d) (ip_addr d) (ip_broadcast d) (ip_server d) (ip_netmask d) (ip_gateway d) (ns0 d) (ns1 d) (serverid d) (reqhostname d) (hostname d) (dnsdomainname d) (nisdomainname d) (bootpath d) (filename d).
Definition set_xid v d := mk_netdev (name d) (hwtype d) (hwlen d) (hwaddr d) (hwbrd d) (ifindex d) (mtu d) (caps d) (open_time d) v (bootp_gateway d) (ip_addr d) (ip_broadcast d) (ip_server d) (ip_netmask d) (ip_gateway d) (ns0 d) (ns1 d) (serverid d) (reqhostname d) (hostname d) (dnsdomainname d) (nisdomainname d) (bootpath d) (filename d).
Definition set_bootp_gateway v d := mk_netdev (name d) (hwtype d) (hwlen d) (hwaddr d) (hwbrd d) (ifindex d) (mtu d) (caps d) (open_time d) (xid d) v (ip_addr d) (ip_broadcast d) (ip_server d) (ip_netmask d) (ip_gateway d) (ns0 d) (ns1 d) (serverid d) (reqhostname d) (hostname d) (dnsdomainname d) (nisdomainname d) (bootpath d) (filename d).
Definition set_ip_addr v d := mk_netdev (name d) (hwtype d) (hwlen d) (hwaddr d) (hwbrd d) (ifindex d) (mtu d) (caps d) (open_time d) (xid d) (bootp_gateway d) v (ip_broadcast d) (ip_server d) (ip_netmask d) (ip_gateway d) (ns0 d) (ns1 d) (serverid d) (reqhostname d) (hostname d) (dnsdomainname d) (nisdomainname d) (bootpath d) (filename d).
Definition set_ip_broadcast v d := mk_netdev (name d) (hwtype d) (hwlen d) (hwaddr d) (hwbrd d) (ifindex d) (mtu d) (caps d) (open_time d) (xid d) (bootp_gateway d) (ip_addr d) v (ip_server d) (ip_netmask d) (ip_gateway d) (ns0 d) (ns1 d) (serverid d) (reqhostname d) (hostname d) (dnsdomainname d) (nisdomainname d) (bootpath d) (filename d).
Definition set_ip_server v d := mk_netdev (name d) (hwtype d) (hwlen d) (hwaddr d) (hwbrd d) (ifindex d) (mtu d) (caps d) (open_time d) (xid d) (bootp_gateway d) (ip_addr d) (ip_broadcast d) v (ip_netmask d) (ip_gateway d) (ns0 d) (ns1 d) (serverid d) (reqhostname d) (hostname d) (dnsdomainname d) (nisdomainname d) (bootpath d) (filename d).
Definition set_ip_netmask v d := mk_netdev (name d) (hwtype d) (hwlen d) (hwaddr d) (hwbrd d) (ifindex d) (mtu d) (caps d) (open_time d) (xid d) (bootp_gateway d) (ip_addr d) (ip_broadcast d) (ip_server d) v (ip_gateway d) (ns0 d) (ns1 d) (serverid d) (reqhostname d) (hostname d) (dnsdomainname d) (nisdomainname d) (bootpath d) (filename d).
Definition set_ip_gateway v d := mk_netdev (name d) (hwtype d) (hwlen d) (hwaddr d) (hwbrd d) (ifindex d) (mtu d) (caps d) (open_time d) (xid d) (bootp_gateway d) (ip_addr d) (ip_broadcast d) (ip_server d) (ip_netmask d) v (ns0 d) (ns1 d) (serverid d) (reqhostname d) (hostname d) (dnsdomainname d) (nisdomainname d) (bootpath d) (filename d).
Definition set_ns0 v d := mk_netdev (name d) (hwtype d) (hwlen d) (hwaddr d) (hwbrd d) (ifindex d) (mtu d) (caps d) (open_time d) (xid d) (bootp_gateway d) (ip_addr d) (ip_broadcast d) (ip_server d) (ip_netmask d) (ip_gateway d) v (ns1 d) (serverid d) (reqhostname d) (hostname d) (dnsdomainname d) (nisdomainname d) (bootpath d) (filename d).
Definition set_ns1 v d := mk_netdev (name d) (hwtype d) (hwlen d) (hwaddr d) (hwbrd d) (ifindex d) (mtu d) (caps d) (open_time d) (xid d) (bootp_gateway d) (ip_addr d) (ip_broadcast d) (ip_server d) (ip_netmask d) (ip_gateway d) (ns0 d) v (serverid d) (reqhostname d) (hostname d) (dnsdomainname d) (nisdomainname d) (bootpath d) (filename d).
Definition set_serverid v d := mk_netdev (name d) (hwtype d) (hwlen d) (hwaddr d) (hwbrd d) (ifindex d) (mtu d) (caps d) (open_time d) (xid d) (bootp_gateway d) (ip_addr d) (ip_broadcast d) (ip_server d) (ip_netmask d) (ip_gateway d) (ns0 d) (ns1 d) v (reqhostname d) (hostname d) (dnsdomainname d) (nisdomainname d) (bootpath d) (filename d).
Definition set_hostname v d := mk_netdev (name d) (hwtype d) (hwlen d) (hwaddr d) (hwbrd d) (ifindex d) (mtu d) (caps d) (open_time d) (xid d) (bootp_gateway d) (ip_addr d) (ip_broadcast d) (ip_server d) (ip_netmask d) (ip_gateway d) (ns0 d) (ns1 d) (serverid d) (reqhostname d) v (dnsdomainname d) (nisdomainname d) (bootpath d) (filename d).
Definition set_dnsdomainname v d := mk_netdev (name d) (hwtype d) (hwlen d) (hwaddr d) (hwbrd d) (ifindex d) (mtu d) (caps d) (open_time d) (xid d) (bootp_gateway d) (ip_addr d) (ip_broadcast d) (ip_server d) (ip_netmask d) (ip_gateway d) (ns0 d) (ns1 d) (serverid d) (reqhostname d) (hostname d) v (nisdomainname d) (bootpath d) (filename d).
Definition set_nisdomainname v d := mk_netdev (name d) (hwtype d) (hwlen d) (hwaddr d) (hwbrd d) (ifindex d) (mtu d) (caps d) (open_time d) (xid d) (bootp_gateway d) (ip_addr d) (ip_broadcast d) (ip_server d) (ip_netmask d) (ip_gateway d) (ns0 d) (ns1 d) (serverid d) (reqhostname d) (hostname d) (dnsdomainname d) v (bootpath d) (filename d).
Definition set_bootpath v d := mk_netdev (name d) (hwtype d) (hwlen d) (hwaddr d) (hwbrd d) (ifindex d) (mtu d) (caps d) (open_time d) (xid d) (bootp_gateway d) (ip_addr d) (ip_broadcast d) (ip_server d) (ip_netmask d) (ip_gateway d) (ns0 d) (ns1 d) (serverid d) (reqhostname d) (hostname d) (dnsdomainname d) (nisdomainname d) v (filename d).
Definition set_filename v d := mk_netdev (name d) (hwtype d) (hwlen d) (hwaddr d) (hwbrd d) (ifindex d) (mtu d) (caps d) (open_time d) (xid d) (bootp_gateway d) (ip_addr d) (ip_broadcast d) (ip_server d) (ip_netmask d) (ip_gateway d) (ns0 d) (ns1 d) (serverid d) (reqhostname d) (hostname d) (dnsdomainname d) (nisdomainname d) (bootpath d) v.

Definition set_name v d := mk_netdev v (hwtype d) (hwlen d) (hwaddr d) (hwbrd d) (ifindex d) (mtu d) (caps d) (open_time d) (xid d) (bootp_gateway d) (ip_addr d) (ip_broadcast d) (ip_server d) (ip_netmask d) (ip_gateway d) (ns0 d) (ns1 d) (serverid d) (reqhostname d) (hostname d) (dnsdomainname d) (nisdomainname d) (bootpath d) (filename d).
Definition set_hwtype v d := mk_netdev (name d) v (hwlen d) (hwaddr d) (hwbrd d) (ifindex d) (mtu d) (caps d) (open_time d) (xid d) (bootp_gateway d) (ip_addr d) (ip_broadcast d) (ip_server d) (ip_netmask d) (ip_gateway d) (ns0 d) (ns1 d) (serverid d) (reqhostname d) (hostname d) (dnsdomainname d) (nisdomainname d) (bootpath d) (filename d).
Definition set_hwlen v d := mk_netdev (name d) (hwtype d) v (hwaddr d) (hwbrd d) (ifindex d) (mtu d) (caps d) (open_time d) (xid d) (bootp_gateway d) (ip_addr d) (ip_broadcast d) (ip_server d) (ip_netmask d) (ip_gateway d) (ns0 d) (ns1 d) (serverid d) (reqhostname d) (hostname d) (dnsdomainname d) (nisdomainname d) (bootpath d) (filename d).
Definition set_hwaddr v d := mk_netdev (name d) (hwtype d) (hwlen d) v (hwbrd d) (ifindex d) (mtu d) (caps d) (open_time d) (xid d) (bootp_gateway d) (ip_addr d) (ip_broadcast d) (ip_server d) (ip_netmask d) (ip_gateway d) (ns0 d) (ns1 d) (serverid d) (reqhostname d) (hostname d) (dnsdomainname d) (nisdomainname d) (bootpath d) (filename d).
Definition set_hwbrd v d := mk_netdev (name d) (hwtype d) (hwlen d) (hwaddr d) v (ifindex d) (mtu d) (caps d) (open_time d) (xid d) (bootp_gateway d) (ip_addr d) (ip_broadcast d) (ip_server d) (ip_netmask d) (ip_gateway d) (ns0 d) (ns1 d) (serverid d) (reqhostname d) (hostname d) (dnsdomainname d) (nisdomainname d) (bootpath d) (filename d).
Definition set_ifindex v d := mk_netdev (name d) (hwtype d) (hwlen d) (hwaddr d) (hwbrd d) v (mtu d) (caps d) (open_time d) (xid d) (bootp_gateway d) (ip_addr d) (ip_broadcast d) (ip_server d) (ip_netmask d) (ip_gateway d) (ns0 d) (ns1 d) (serverid d) (reqhostname d) (hostname d) (dnsdomainname d) (nisdomainname d) (bootpath d) (filename d).
Definition set_reqhostname v d := mk_netdev (name d) (hwtype d) (hwlen d) (hwaddr d) (hwbrd d) (ifindex d) (mtu d) (caps d) (open_time d) (xid d) (bootp_gateway d) (ip_addr d) (ip_broadcast d) (ip_server d) (ip_netmask d) (ip_gateway d) (ns0 d) (ns1 d) (serverid d) v (hostname d) (dnsdomainname d) (nisdomainname d) (bootpath d) (filename d).

Definition CAP_BOOTP : Z := 1.
Definition CAP_DHCP : Z := 2.
Definition CAP_RARP : Z := 4.

Definition INADDR_ANY : Z := 0.
Definition INADDR_NONE : Z := 0xffffffff.

(** ** Bytes *)

Abbreviation bytes := (Forall (in_u 8)).

(** [old[0..] = new]: [memcpy] to the beginning of an array. *)
Definition overwrite (old new : list Z) : list Z := new ++ drop (length new) old.

(** Reading an array: outside of it, nothing is known to be there. *)
Definition byte_at (l : list Z) (i : Z) : option Z := if i <? 0 then None else l !! Z.to_nat i.
Definition bytes_at (l : list Z) (i n : Z) : option (list Z) :=
  if (0 <=? i) && (0 <=? n) && (i + n <=? Z.of_nat (length l)) then Some (take (Z.to_nat n) (drop (Z.to_nat i) l)) else None.

(** Integers from their bytes, least and most significant byte first. *)
Fixpoint le (l : list Z) : Z := match l with [] => 0 | b :: l => b + 256 * le l end.
Definition be (l : list Z) : Z := fold_left (λ v b, v * 256 + b) l 0.
Fixpoint to_le (k : nat) (v : Z) : list Z := match k with O => [] | S k => v mod 256 :: to_le k (v / 256) end.
(** The two bytes of [htons(v)] in memory. *)
Definition be16 (v : Z) : list Z := [(v / 256) mod 256; v mod 256].

Lemma length_overwrite old new : (length new <= length old)%nat → length (overwrite old new) = length old.
Proof. intros. unfold overwrite. rewrite length_app, length_drop. lia. Qed.

Lemma overwrite_full old new : length new = length old → overwrite old new = new.
Proof. intros H. unfold overwrite. by rewrite H, drop_all, app_nil_r. Qed.

Lemma to_le_length k : ∀ v, length (to_le k v) = k.
Proof. induction k as [| k IH]; intros v; simpl; [done | by rewrite IH]. Qed.

Lemma le_to_le k : ∀ v, 0 <= v < 256 ^ Z.of_nat k → le (to_le k v) = v.
Proof.
  induction k as [| k IH]; intros v Hv; [change (256 ^ Z.of_nat 0) with 1 in Hv; simpl; lia |].
  cbn [to_le le]. rewrite Nat2Z.inj_succ, Z.pow_succ_r in Hv by lia.
  rewrite IH; [pose proof (Z.div_mod v 256); lia |]. split; [apply Z.div_pos; lia | apply Z.div_lt_upper_bound; lia].
Qed.

Lemma to_le_bytes k : ∀ v, Forall (in_u 8) (to_le k v).
Proof. induction k as [| k IH]; intros v; constructor; [apply Z.mod_pos_bound; done | apply IH]. Qed.

Lemma be16_bytes v : Forall (in_u 8) (be16 v).
Proof. repeat constructor; by apply Z.mod_pos_bound. Qed.

Lemma byte_at_app l r b : byte_at (l ++ b :: r) (Z.of_nat (length l)) = Some b.
Proof. unfold byte_at. rewrite (proj2 (Z.ltb_ge _ _)), Nat2Z.id by lia. by rewrite list_lookup_middle. Qed.

Lemma bytes_at_app l d r i n : i = Z.of_nat (length l) → n = Z.of_nat (length d) → bytes_at (l ++ d ++ r) i n = Some d.
Proof.
  intros -> ->. unfold bytes_at. rewrite !(proj2 (Z.leb_le _ _)) by (rewrite ?length_app; lia). simpl.
  by rewrite !Nat2Z.id, drop_app_length, take_app_length.
Qed.
