(* ===== verification/Bootp.v ===== *)
(** * BOOTP and DHCP packets: [kinit/ipconfig/packet.c], [bootp_proto.c],
      [dhcp_proto.c]

    A datagram is a list of bytes.  What the kernel delivers to one receive
    (the peek at the IP header, the message itself, the contents of fresh
    buffers) is a record [incoming]; what is handed to [sendmsg] is the list
    of bytes sent.  A read outside of an array is [None].

    The theorems: the IP checksum of a packet that is sent verifies when it is
    received; what is sent is received unchanged; the options of a well-formed
    reply are applied in order; options that do not fit the packet are read
    beyond its end. *)

From stdpp Require Import base numbers list.
From Stdlib Require Import Lia.
From S2P Require Import Prelude Netdev.

(** ** Packets *)

Definition LOCAL_PORT : Z := 68.
Definition REMOTE_PORT : Z := 67.

(** The loop of [ip_checksum] over [len] groups of two [uint16_t]. *)
Fixpoint checksum_loop (len : nat) (hdr : list Z) (chksum : Z) : option Z :=
  match len with
  | O => Some chksum
  | S len =>
      match hdr with
      | b0 :: b1 :: b2 :: b3 :: hdr => checksum_loop len hdr (u32 (u32 (chksum + (b0 + 256 * b1)) + (b2 + 256 * b3)))
      | _ => None
      end
  end.

(** [chksum = (chksum & 0xffff) + (chksum >> 16)] *)
Definition fold16 (c : Z) : Z := Z.land c 0xffff + Z.shiftr c 16.

Definition ip_checksum (hdr : list Z) (len : Z) : option Z :=
  c ← checksum_loop (Z.to_nat len) hdr 0;
  Some (Z.land (Z.lnot (fold16 (fold16 c))) 0xffff).

(** [ipudp_hdrs]: the ports are all that is not set by every call. *)
Record ports := mk_ports { source : Z; dest : Z }.
Definition initial_ports : ports := mk_ports LOCAL_PORT REMOTE_PORT.

(** The [struct iphdr] of the static header with a length and a checksum (a
    number in the byte order of the machine), and the [struct udphdr]. *)
Definition iphdr (tot_len check : Z) : list Z :=
  [0x45; 0] ++ be16 tot_len ++ [0; 0; 0x40; 0; 64; 17] ++ to_le 2 check ++ [0; 0; 0; 0; 255; 255; 255; 255].
Definition udphdr (p : ports) (len : Z) : list Z := be16 (source p) ++ be16 (dest p) ++ be16 len ++ [0; 0].

(** [packet_send]: [cfg_local_port] and [cfg_remote_port], the static header,
    and [iov[1 .. iov_len-1]]; the header afterwards and the bytes given to
    [sendmsg]. *)
Definition packet_send (cfg_local cfg_remote : Z) (p : ports) (iov : list (list Z)) : option (ports * list Z) :=
  let p := if negb (cfg_local =? LOCAL_PORT) then mk_ports cfg_local cfg_remote else p in
  let len := 28 + Z.of_nat (length (concat iov)) in
  check ← ip_checksum (iphdr len 0) 5;
  Some (p, iphdr len check ++ udphdr p (len - 20) ++ concat iov).

(** What one receive gets: the result of [recvfrom] with [MSG_PEEK], that of
    [recvmsg], and the previous contents of [iph], of a block from [malloc]
    ([None] if there is none), and of the buffers for the header and the
    options. *)
Record incoming := mk_incoming {
  peek : option (list Z);
  msg : option (list Z);
  iph0 : list Z;
  malloc_ip : Z → option (list Z);
  bootp0 : list Z;
  options0 : list Z;
}.

(** The message distributed over the buffers, and the number of bytes. *)
Fixpoint scatter (bufs : list (list Z)) (d : list Z) : list (list Z) * Z :=
  match bufs with
  | [] => ([], 0)
  | b :: bufs =>
      let part := take (length b) d in
      let '(bs, n) := scatter bufs (drop (length b) d) in
      (overwrite b part :: bs, Z.of_nat (length part) + n)
  end.

Definition ihl (ip : list Z) : Z := Z.land (ip !!! 0%nat) 15.
Definition version (ip : list Z) : Z := Z.shiftr (ip !!! 0%nat) 4.
Definition be_at (l : list Z) (i : nat) : Z := l !!! i * 256 + l !!! S i.

(** [packet_recv]: the return value, and the contents of [iov[1]] and
    [iov[2]]. *)
Definition packet_recv (cfg_local cfg_remote : Z) (inc : incoming) : option (Z * list Z * list Z) :=
  let unread (r : Z) := Some (r, bootp0 inc, options0 inc) in
  match peek inc with
  | None => unread (-1)
  | Some d =>
      let iph := overwrite (iph0 inc) (take 20 d) in
      if (ihl iph <? 5) || negb (version iph =? 4) then unread 0
      else
        let iphl := ihl iph * 4 in
        match malloc_ip inc (iphl + 8), msg inc with
        | None, _ => unread 0
        | Some _, None => unread 0
        | Some ip, Some d =>
            match scatter [ip; bootp0 inc; options0 inc] d with
            | ([ip; bootp; options], ret) =>
                sum ← ip_checksum ip (ihl ip);
                if negb (sum =? 0) then Some (0, bootp, options)
                else if (ret <? be_at ip 2) || negb (ip !!! 9%nat =? 17) then Some (0, bootp, options)
                else
                  let ret := ret - 4 * ihl ip in
                  let udp := drop (Z.to_nat iphl) ip in
                  if negb (be_at udp 0 =? cfg_remote) || negb (be_at udp 2 =? cfg_local) then Some (0, bootp, options)
                  else if ret <? be_at udp 4 then Some (0, bootp, options)
                  else Some (ret - 8, bootp, options)
            | _ => None
            end
        end
  end.

(** ** BOOTP *)

Definition BOOTP_REQUEST : Z := 1.
Definition BOOTP_REPLY : Z := 2.
Definition sizeof_bootp_hdr : Z := 236.

(** The fields of [struct bootp_hdr] in its 236 bytes. *)
Definition field (h : list Z) (i n : nat) : list Z := take n (drop i h).
Definition op (h : list Z) : Z := h !!! 0%nat.
Definition hdr_xid (h : list Z) : Z := le (field h 4 4).
Definition yiaddr (h : list Z) : Z := le (field h 16 4).
Definition siaddr (h : list Z) : Z := le (field h 20 4).
Definition giaddr (h : list Z) : Z := le (field h 24 4).
Definition chaddr (h : list Z) : list Z := field h 28 16.
Definition boot_file (h : list Z) : list Z := field h 108 128.

Definition bootp_hdr (htype hlen xid secs ciaddr yiaddr : Z) (chaddr : list Z) : list Z :=
  [BOOTP_REQUEST; u8 htype; u8 hlen; 0] ++ to_le 4 xid ++ be16 secs ++ [0; 0] ++ to_le 4 ciaddr ++ to_le 4 yiaddr ++
  to_le 4 0 ++ to_le 4 0 ++ chaddr ++ replicate 64 0 ++ replicate 128 0.

(** The request: [packet_send] is called with [iov_len] 2, so the options in
    [iov[2]] are not part of it. *)
Definition bootp_send_request (dev : netdev) (now : Z) : list (list Z) :=
  [bootp_hdr (hwtype dev) (hwlen dev) (xid dev) (u16 (now - open_time dev)) (ip_addr dev) 0 (hwaddr dev)].

(** The cookie test of both parsers. *)
Definition has_cookie (exts : list Z) (extlen : Z) : option bool :=
  if extlen <? 4 then Some false
  else c ← bytes_at exts 0 4; Some (bool_decide (c = [99; 130; 83; 99])).

(** [memcpy(&dev->name, ext, len); dev->name[len] = '\0';] *)
Definition put_string (array s : list Z) : list Z := overwrite array (s ++ [0]).

(** One option: the device and the value of [len] afterwards. *)
Definition bootp_option (opt len : Z) (exts : list Z) (ext : Z) (dev : netdev) : option (netdev * Z) :=
  let get n := bytes_at exts ext n in
  let clamp size := if size - 1 <? len then size - 1 else len in
  if opt =? 1 then
    if len =? 4 then a ← get 4; Some (set_ip_netmask (le a) dev, len) else Some (dev, len)
  else if opt =? 3 then
    if 4 <=? len then a ← get 4; Some (set_ip_gateway (le a) dev, len) else Some (dev, len)
  else if opt =? 6 then
    if 8 <=? len then a ← get 8; Some (set_ns1 (le (drop 4 a)) (set_ns0 (le (take 4 a)) dev), len)
    else if 4 <=? len then a ← get 4; Some (set_ns0 (le a) dev, len)
    else Some (dev, len)
  else if opt =? 12 then
    let len := clamp SYS_NMLN in s ← get len; Some (set_hostname (put_string (hostname dev) s) dev, len)
  else if opt =? 15 then
    let len := clamp SYS_NMLN in s ← get len; Some (set_dnsdomainname (put_string (dnsdomainname dev) s) dev, len)
  else if opt =? 17 then
    let len := clamp BPLEN in s ← get len; Some (set_bootpath (put_string (bootpath dev) s) dev, len)
  else if opt =? 26 then
    if len =? 2 then a ← get 2; Some (set_mtu (be a) dev, len) else Some (dev, len)
  else if opt =? 28 then
    if len =? 4 then a ← get 4; Some (set_ip_broadcast (le a) dev, len) else Some (dev, len)
  else if opt =? 40 then
    let len := clamp SYS_NMLN in s ← get len; Some (set_nisdomainname (put_string (nisdomainname dev) s) dev, len)
  else if opt =? 54 then
    if (len =? 4) && (ip_server dev =? 0) then a ← get 4; Some (set_ip_server (le a) dev, len) else Some (dev, len)
  else Some (dev, len).

(** [for (ext = exts + 4; ext - exts < extlen;)]; every round advances. *)
Fixpoint bootp_loop (fuel : nat) (exts : list Z) (extlen ext : Z) (dev : netdev) : option netdev :=
  match fuel with
  | O => None
  | S fuel =>
      if ext <? extlen then
        opt ← byte_at exts ext;
        let ext := ext + 1 in
        if opt =? 0 then bootp_loop fuel exts extlen ext dev
        else if opt =? 255 then Some dev
        else
          len ← byte_at exts ext;
          let ext := ext + 1 in
          '(dev, len) ← bootp_option opt len exts ext dev;
          bootp_loop fuel exts extlen (ext + len) dev
      else Some dev
  end.

(** The assignments before the options are looked at. *)
Definition bootp_defaults (dev : netdev) (hdr : list Z) : netdev :=
  let dev := set_bootp_gateway (giaddr hdr) dev in
  let dev := set_ip_addr (yiaddr hdr) dev in
  let dev := set_ip_server (siaddr hdr) dev in
  let dev := set_ip_netmask INADDR_ANY dev in
  let dev := set_ip_broadcast INADDR_ANY dev in
  let dev := set_ip_gateway (giaddr hdr) dev in
  let dev := set_ns1 INADDR_ANY (set_ns0 INADDR_ANY dev) in
  let dev := set_hostname (overwrite (hostname dev) [0]) dev in
  let dev := set_nisdomainname (overwrite (nisdomainname dev) [0]) dev in
  let dev := set_bootpath (overwrite (bootpath dev) [0]) dev in
  set_filename (overwrite (filename dev) (boot_file hdr)) dev.

Definition bootp_parse (dev : netdev) (hdr exts : list Z) (extlen : Z) : option (Z * netdev) :=
  let dev := bootp_defaults dev hdr in
  c ← has_cookie exts extlen;
  dev ← (if c : bool then bootp_loop (S (Z.to_nat extlen)) exts extlen 4 dev else Some dev);
  Some (1, dev).

(** A reply to the request of this device. *)
Definition is_reply (dev : netdev) (ret : Z) (bootp : list Z) : bool :=
  (sizeof_bootp_hdr <=? ret) && (op bootp =? BOOTP_REPLY) && (hdr_xid bootp =? xid dev) &&
  bool_decide (chaddr bootp = hwaddr dev).

Definition bootp_recv_reply (cfg_local cfg_remote : Z) (inc : incoming) (dev : netdev) : option (Z * netdev) :=
  '(ret, bootp, options) ← packet_recv cfg_local cfg_remote inc;
  if ret <=? 0 then Some (ret, dev)
  else if negb (is_reply dev ret bootp) then Some (0, dev)
  else bootp_parse dev bootp options (ret - sizeof_bootp_hdr).

Definition IFF_BROADCAST : Z := 2.

(** [flags]: the result of [netdev_getflags]; [rand]: that of [lrand48]. *)
Definition bootp_init_if (dev : netdev) (flags : option Z) (rand now : Z) : Z * netdev :=
  match flags with
  | None => (-1, dev)
  | Some flags =>
      if (mtu dev <? 364) || (Z.land flags IFF_BROADCAST =? 0)
      then (0, set_caps (Z.land (caps dev) (Z.lnot (Z.lor CAP_BOOTP CAP_DHCP))) dev)
      else (0, set_open_time now (set_xid (u32 rand) dev))
  end.

(** ** DHCP *)

Definition DHCPDISCOVER : Z := 1.
Definition DHCPOFFER : Z := 2.
Definition DHCPREQUEST : Z := 3.
Definition DHCPACK : Z := 5.
Definition DHCPNAK : Z := 6.

Definition dhcp_params : list Z := [1; 3; 6; 12; 15; 17; 26; 28; 40].
Definition dhcp_discover_hdr : list Z := [99; 130; 83; 99; 53; 1; DHCPDISCOVER; 55; 9].
Definition dhcp_request_hdr (server req : Z) : list Z :=
  [99; 130; 83; 99; 53; 1; DHCPREQUEST] ++ 54 :: 4 :: to_le 4 server ++ 50 :: 4 :: to_le 4 req ++ [55; 9].
Definition dhcp_end : list Z := [255].

(** The loop of [dhcp_parse]: [type] and [serverid]. *)
Fixpoint dhcp_loop (fuel : nat) (exts : list Z) (extlen ext type serverid : Z) : option (Z * Z) :=
  match fuel with
  | O => None
  | S fuel =>
      if ext <? extlen then
        opt ← byte_at exts ext;
        if opt =? 0 then dhcp_loop fuel exts extlen (ext + 1) type serverid
        else
          len ← byte_at exts (ext + 1);
          type ← (if opt =? 53 then byte_at exts (ext + 2) else Some type);
          serverid ← (if opt =? 54 then le <$> bytes_at exts (ext + 2) 4 else Some serverid);
          dhcp_loop fuel exts extlen (ext + 2 + len) type serverid
      else Some (type, serverid)
  end.

Definition dhcp_parse (dev : netdev) (hdr exts : list Z) (extlen : Z) : option (Z * netdev) :=
  c ← has_cookie exts extlen;
  '(type, server) ← (if c : bool then dhcp_loop (S (Z.to_nat extlen)) exts extlen 4 0 INADDR_NONE
                     else Some (0, INADDR_NONE));
  if type =? DHCPOFFER then
    '(r, dev) ← bootp_parse dev hdr exts extlen;
    let ret := if negb (r =? 0) then DHCPOFFER else 0 in
    Some (ret, if (ret =? DHCPOFFER) && negb (server =? INADDR_NONE) then set_serverid server dev else dev)
  else if type =? DHCPACK then
    '(r, dev) ← bootp_parse dev hdr exts extlen;
    Some (if negb (r =? 0) then DHCPACK else 0, dev)
  else if type =? DHCPNAK then Some (DHCPNAK, dev)
  else Some (0, dev).

Definition dhcp_recv (cfg_local cfg_remote : Z) (inc : incoming) (dev : netdev) : option (Z * netdev) :=
  '(ret, bootp, options) ← packet_recv cfg_local cfg_remote inc;
  if ret <=? 0 then Some (ret, dev)
  else if negb (is_reply dev ret bootp) then Some (0, dev)
  else dhcp_parse dev bootp options (ret - sizeof_bootp_hdr).

(** A string in an array. *)
Fixpoint takewhile_nz (l : list Z) : list Z :=
  match l with [] => [] | b :: l => if b =? 0 then [] else b :: takewhile_nz l end.

(** [dhcp_send]: the message for a protocol header; [vendor] is
    [vendor_class_identifier] with its length. *)
Definition dhcp_send (dev : netdev) (now : Z) (vendor hdr : list Z) : list (list Z) :=
  let bootp := bootp_hdr (hwtype dev) (hwlen dev) (xid dev) (u16 (now - open_time dev)) INADDR_ANY (ip_addr dev) (hwaddr dev) in
  let name := takewhile_nz (reqhostname dev) in
  [bootp; hdr; dhcp_params] ++
  (if 2 <? Z.of_nat (length vendor) then [vendor] else []) ++
  (if bool_decide (name = []) then [] else [12 :: u8 (Z.of_nat (length name)) :: name]) ++
  [dhcp_end].

Definition dhcp_send_discover (dev : netdev) (now : Z) (vendor : list Z) : netdev * list (list Z) :=
  let dev := set_ip_gateway INADDR_ANY (set_ip_addr INADDR_ANY dev) in
  (dev, dhcp_send dev now vendor dhcp_discover_hdr).

Definition dhcp_send_request (dev : netdev) (now : Z) (vendor : list Z) : list (list Z) :=
  dhcp_send dev now vendor (dhcp_request_hdr (serverid dev) (ip_addr dev)).

(** ** The checksum *)

Fixpoint sum16 (h : list Z) : Z := match h with b0 :: b1 :: h => b0 + 256 * b1 + sum16 h | _ => 0 end.

Lemma sum16_app h1 : ∀ n h2, length h1 = (2 * n)%nat → sum16 (h1 ++ h2) = sum16 h1 + sum16 h2.
Proof.
  intros n. revert h1. induction n as [| n IH]; intros [| b0 [| b1 h1]] h2 Hl; simpl in Hl; try lia; [done |].
  cbn [app sum16]. rewrite IH by lia. lia.
Qed.

Lemma sum16_bound n : ∀ h, bytes h → (length h = 2 * n)%nat → 0 <= sum16 h <= 65535 * Z.of_nat n.
Proof.
  induction n as [| n IH]; intros [| b0 [| b1 h]] Hb Hl; simpl in Hl; try lia; [simpl; lia |].
  rewrite !Forall_cons in Hb. destruct Hb as (H0 & H1 & Hb). unfold in_u in *. change (2 ^ 8) with 256 in *. cbn [sum16].
  specialize (IH h Hb ltac:(lia)). lia.
Qed.

Lemma checksum_loop_sum n : ∀ h acc, bytes h → (length h = 4 * n)%nat → 0 <= acc → acc + sum16 h < 2 ^ 32 →
  checksum_loop n h acc = Some (acc + sum16 h).
Proof.
  induction n as [| n IH]; intros h acc Hb Hl Ha Hs.
  { destruct h; [simpl; f_equal; lia | simpl in Hl; lia]. }
  destruct h as [| b0 [| b1 [| b2 [| b3 h]]]]; simpl in Hl; try lia. pose proof Hb as Hb'.
  rewrite !Forall_cons in Hb. destruct Hb as (H0 & H1 & H2 & H3 & Hb). cbn [checksum_loop sum16] in *.
  pose proof (sum16_bound (2 * n) h Hb ltac:(lia)) as Hsum. unfold in_u in H0, H1, H2, H3. change (2 ^ 8) with 256 in *.
  rewrite (wrapu_small 32 (acc + _)) by (unfold in_u; lia). rewrite wrapu_small by (unfold in_u; lia).
  rewrite IH; [f_equal; lia | done | lia | lia | lia].
Qed.

(** Two foldings give a 16-bit number congruent to the sum modulo 2^16 - 1. *)
Lemma fold16_twice x : 0 <= x < 2 ^ 32 →
  0 <= fold16 (fold16 x) <= 65535 ∧ (fold16 (fold16 x) = 0 ↔ x = 0) ∧ ∃ k, x = fold16 (fold16 x) + 65535 * k.
Proof.
  intros Hx. unfold fold16. change 0xffff with (2 ^ 16 - 1). rewrite !land_mask, !shiftr_div by done.
  change (2 ^ 16) with 65536 in *. change (2 ^ 32) with 4294967296 in Hx.
  set (y := x mod 65536 + x / 65536). set (z := y mod 65536 + y / 65536).
  assert (0 <= y <= 131070 ∧ x = y + 65535 * (x / 65536)) as [Hy Ey] by (unfold y; Z.to_euclidean_division_equations; lia).
  assert (0 <= z <= 65535 ∧ y = z + 65535 * (y / 65536)) as [Hz Ez].
  { unfold z. split; [| Z.to_euclidean_division_equations; lia].
    assert (y / 65536 = 0 ∨ (y / 65536 = 1 ∧ y mod 65536 <= 65534)) by (Z.to_euclidean_division_equations; lia).
    pose proof (Z.mod_pos_bound y 65536 ltac:(done)). lia. }
  split; [done |]. split; [| exists (x / 65536 + y / 65536); lia].
  split; [| by intros ->].
  intros Hz0. assert (y = 65535 * (y / 65536)) by lia. unfold z, y in *. Z.to_euclidean_division_equations. lia.
Qed.

Lemma ip_checksum_sum n h : bytes h → (length h = 4 * n)%nat → (n <= 15)%nat →
  ip_checksum h (Z.of_nat n) = Some (65535 - fold16 (fold16 (sum16 h))) ∧ 0 <= sum16 h < 2 ^ 32 - 65536.
Proof.
  intros Hb Hl Hn. pose proof (sum16_bound (2 * n) h Hb ltac:(lia)) as Hs. split; [| lia].
  unfold ip_checksum. rewrite Nat2Z.id, checksum_loop_sum by (done || lia). simpl. f_equal. rewrite Z.add_0_l.
  destruct (fold16_twice (sum16 h) ltac:(lia)) as (Hf & _ & _). set (y := fold16 (fold16 (sum16 h))) in *.
  change 65535 with (2 ^ 16 - 1) at 1. rewrite land_mask by done. unfold Z.lnot. change (2 ^ 16) with 65536.
  Z.to_euclidean_division_equations. lia.
Qed.

(** The checksum, computed with the check field 0 and stored there, makes the
    checksum of the header 0. *)
Lemma checksum_verifies n pre post :
  bytes pre → bytes post → length (pre ++ [0; 0] ++ post) = (4 * n)%nat → (n <= 15)%nat → (∃ k, length pre = 2 * k)%nat →
  ∃ c, ip_checksum (pre ++ [0; 0] ++ post) (Z.of_nat n) = Some c ∧ 0 <= c < 65536 ∧
    ip_checksum (pre ++ to_le 2 c ++ post) (Z.of_nat n) = Some 0.
Proof.
  intros Hpre Hpost Hl Hn [k Hk].
  assert (bytes (pre ++ [0; 0] ++ post)) as Hb by (rewrite !Forall_app; split_and!; [done | by apply (bool_decide_eq_true_1 _) | done]).
  destruct (ip_checksum_sum n _ Hb Hl Hn) as [E Hs]. rewrite (sum16_app pre k) in E, Hs by done. cbn [app sum16] in E, Hs.
  set (S := sum16 pre + (0 + 256 * 0 + sum16 post)) in *. destruct (fold16_twice S ltac:(lia)) as (Hf & H0 & j & Hj).
  set (y := fold16 (fold16 S)) in *. exists (65535 - y). split; [done |]. split; [lia |].
  assert (bytes (pre ++ to_le 2 (65535 - y) ++ post)) as Hb2 by (rewrite !Forall_app; split_and!; [done | apply to_le_bytes | done]).
  destruct (ip_checksum_sum n _ Hb2) as [E2 Hs2]; [by rewrite !length_app in *; simpl in *; lia | done |].
  rewrite E2. f_equal. rewrite (sum16_app pre k) in * by done. cbn [app sum16 to_le] in *.
  set (c := 65535 - y) in *. assert (c mod 256 + 256 * (c / 256 mod 256) = c) as Hc.
  { rewrite (Z.mod_small (c / 256)) by (split; [apply Z.div_pos; lia | apply Z.div_lt_upper_bound; lia]). pose proof (Z.div_mod c 256). lia. }
  set (S2 := sum16 pre + (c mod 256 + 256 * (c / 256 mod 256) + sum16 post)) in *.
  assert (S2 = S + c) as ES by (unfold S2, S; lia). destruct (fold16_twice S2 ltac:(lia)) as (Hf2 & H02 & j2 & Hj2).
  set (y2 := fold16 (fold16 S2)) in *. assert (S2 ≠ 0) by (unfold c in *; lia). assert (y2 ≠ 0) by tauto.
  unfold c in *. lia.
Qed.

Lemma checksum_loop_app n : ∀ h rest acc, length h = (4 * n)%nat → checksum_loop n (h ++ rest) acc = checksum_loop n h acc.
Proof.
  induction n as [| n IH]; intros h rest acc Hl; [by destruct h |].
  destruct h as [| b0 [| b1 [| b2 [| b3 h]]]]; simpl in Hl; try lia. cbn [app checksum_loop]. apply IH. lia.
Qed.

Lemma iphdr_verifies len : ∃ c, ip_checksum (iphdr len 0) 5 = Some c ∧ 0 <= c < 65536 ∧ ip_checksum (iphdr len c) 5 = Some 0.
Proof.
  destruct (checksum_verifies 5 ([0x45; 0] ++ be16 len ++ [0; 0; 0x40; 0; 64; 17]) [0; 0; 0; 0; 255; 255; 255; 255]) as (c & E & Hc & E0).
  - rewrite !Forall_app. split_and!; [by apply (bool_decide_eq_true_1 _) | apply be16_bytes | by apply (bool_decide_eq_true_1 _)].
  - by apply (bool_decide_eq_true_1 _).
  - done.
  - lia.
  - by exists 5%nat.
  - exists c. unfold iphdr. rewrite <- !app_assoc in E, E0. done.
Qed.

Lemma be_at_be16 v l : 0 <= v < 65536 → be_at (be16 v ++ l) 0 = v.
Proof. intros Hv. unfold be_at, be16. simpl. Z.to_euclidean_division_equations. lia. Qed.

Lemma length_iphdr len c : length (iphdr len c) = 20%nat.
Proof. done. Qed.
Lemma length_udphdr p len : length (udphdr p len) = 8%nat.
Proof. done. Qed.

(** The message over the three buffers of a receive. *)
Lemma scatter_three ip bootp options hdr payload :
  length ip = length hdr → (length bootp <= length payload <= length bootp + length options)%nat →
  scatter [ip; bootp; options] (hdr ++ payload) =
    ([hdr; take (length bootp) payload; overwrite options (drop (length bootp) payload)],
     Z.of_nat (length hdr) + Z.of_nat (length payload)).
Proof.
  intros Hip Hl. cbn [scatter]. rewrite Hip, take_app_length, drop_app_length, overwrite_full by done.
  rewrite overwrite_full by (rewrite length_take; lia).
  rewrite (take_ge (drop (length bootp) payload)) by (rewrite length_drop; lia).
  rewrite length_take, length_drop. do 2 f_equal. lia.
Qed.

Lemma packet_run cl cr p iov inc ip0 :
  let payload := concat iov in
  (length (bootp0 inc) <= length payload <= length (bootp0 inc) + length (options0 inc))%nat →
  Z.of_nat (length payload) + 28 < 65536 →
  in_u 16 cl → in_u 16 cr → in_u 16 (source p) → in_u 16 (dest p) →
  length (iph0 inc) = 20%nat → malloc_ip inc 28 = Some ip0 → length ip0 = 28%nat →
  ∃ p' d, packet_send cl cr p iov = Some (p', d) ∧
    (peek inc = Some d → msg inc = Some d →
     packet_recv (dest p') (source p') inc =
       Some (Z.of_nat (length payload), take (length (bootp0 inc)) payload,
             overwrite (options0 inc) (drop (length (bootp0 inc)) payload))).
Proof.
  intros payload Hl Hlen Hcl Hcr Hs Hd Hiph Hmal Hip. unfold packet_send. fold payload.
  set (p' := if negb (cl =? LOCAL_PORT) then mk_ports cl cr else p).
  assert (in_u 16 (source p') ∧ in_u 16 (dest p')) as [Hs' Hd'] by (unfold p'; by destruct (negb _)).
  unfold in_u in Hs', Hd'. change (2 ^ 16) with 65536 in *.
  set (len := 28 + Z.of_nat (length payload)). destruct (iphdr_verifies len) as (c & E & Hc & E0).
  eexists p', _. rewrite E. cbn [mbind option_bind]. split; [reflexivity |]. intros Hpeek Hmsg. unfold packet_recv. rewrite Hpeek, Hmsg.
  set (hdr := iphdr len c ++ udphdr p' (len - 20)).
  assert (overwrite (iph0 inc) (take 20 (iphdr len c ++ udphdr p' (len - 20) ++ payload)) = iphdr len c) as ->.
  { rewrite (take_app_length' (iphdr len c)) by done. by rewrite overwrite_full. }
  change (ihl (iphdr len c)) with 5. change (version (iphdr len c)) with 4. cbv zeta.
  change ((5 <? 5) || negb (4 =? 4)) with false. cbv iota. change (5 * 4 + 8) with 28. rewrite Hmal, app_assoc. fold hdr.
  rewrite scatter_three by (done || by rewrite Hip).
  assert (ip_checksum hdr (ihl hdr) = Some 0) as ->.
  { change (ihl hdr) with 5. unfold ip_checksum, hdr in *. by rewrite checksum_loop_app. }
  assert (be_at hdr 2 = len) as ->.
  { change (be_at hdr 2) with (be_at (be16 len ++ []) 0). apply be_at_be16. unfold len. lia. }
  change (hdr !!! 9%nat) with 17. change (ihl hdr) with 5. change (drop (Z.to_nat (5 * 4)) hdr) with (udphdr p' (len - 20)).
  change (length hdr) with 28%nat. simpl mbind. cbv iota. change (negb (0 =? 0)) with false. change (negb (17 =? 17)) with false. cbv iota.
  rewrite (proj2 (Z.ltb_ge (Z.of_nat 28 + Z.of_nat (length payload)) len)) by (unfold len; lia). cbn [orb].
  change (be_at (udphdr p' (len - 20)) 0) with (be_at (be16 (source p') ++ []) 0).
  change (be_at (udphdr p' (len - 20)) 2) with (be_at (be16 (dest p') ++ []) 0).
  change (be_at (udphdr p' (len - 20)) 4) with (be_at (be16 (len - 20) ++ []) 0).
  rewrite !be_at_be16 by (unfold len in *; lia). rewrite !Z.eqb_refl. cbn [negb orb].
  rewrite (proj2 (Z.ltb_ge (Z.of_nat 28 + Z.of_nat (length payload) - 4 * 5) (len - 20))) by (unfold len; lia). do 3 f_equal. lia.
Qed.

(** C29.  A packet sent is received: with the ports exchanged the receiver
    accepts the header (the checksum, the lengths and the ports are right) and
    gets exactly the bytes that were sent, split into the BOOTP header and the
    options. *)
Theorem packet_roundtrip cl cr p iov inc ip0 :
  let payload := concat iov in
  (length (bootp0 inc) <= length payload <= length (bootp0 inc) + length (options0 inc))%nat →
  Z.of_nat (length payload) + 28 < 65536 →
  in_u 16 cl → in_u 16 cr → in_u 16 (source p) → in_u 16 (dest p) →
  length (iph0 inc) = 20%nat → malloc_ip inc 28 = Some ip0 → length ip0 = 28%nat →
  ∃ p' d, packet_send cl cr p iov = Some (p', d) ∧
    (peek inc = Some d → msg inc = Some d →
     packet_recv (dest p') (source p') inc =
       Some (Z.of_nat (length payload), take (length (bootp0 inc)) payload,
             overwrite (options0 inc) (drop (length (bootp0 inc)) payload))).
Proof. apply packet_run. Qed.

(** ** Options

    What a reply means: a list of options and paddings, each option with its
    data, and the effect of an option on the device. *)

Inductive item := Pad | Opt (tag : Z) (data : list Z).

Definition encode_item (i : item) : list Z :=
  match i with Pad => [0] | Opt t d => t :: Z.of_nat (length d) :: d end.
Definition encode_items (l : list item) : list Z := concat (encode_item <$> l).

(** Options whose names fit the arrays of the device. *)
Definition item_ok (i : item) : Prop :=
  match i with
  | Pad => True
  | Opt t d => 1 <= t <= 254 ∧ (length d <= 255)%nat ∧ (t ∈ [12; 15; 40] → (length d <= 64)%nat)
  end.

Definition string_effect (set : list Z → netdev → netdev) (get : netdev → list Z) (d : list Z) (dev : netdev) : netdev :=
  set (put_string (get dev) d) dev.

Definition option_effect (t : Z) (d : list Z) (dev : netdev) : netdev :=
  if t =? 1 then match d with [_; _; _; _] => set_ip_netmask (le d) dev | _ => dev end
  else if t =? 3 then match d with a :: b :: c :: e :: _ => set_ip_gateway (le [a; b; c; e]) dev | _ => dev end
  else if t =? 6 then
    match d with
    | a :: b :: c :: e :: f :: g :: h :: i :: _ => set_ns1 (le [f; g; h; i]) (set_ns0 (le [a; b; c; e]) dev)
    | a :: b :: c :: e :: _ => set_ns0 (le [a; b; c; e]) dev
    | _ => dev
    end
  else if t =? 12 then string_effect set_hostname hostname d dev
  else if t =? 15 then string_effect set_dnsdomainname dnsdomainname d dev
  else if t =? 17 then string_effect set_bootpath bootpath d dev
  else if t =? 26 then match d with [a; b] => set_mtu (256 * a + b) dev | _ => dev end
  else if t =? 28 then match d with [_; _; _; _] => set_ip_broadcast (le d) dev | _ => dev end
  else if t =? 40 then string_effect set_nisdomainname nisdomainname d dev
  else if t =? 54 then
    match d with [_; _; _; _] => if ip_server dev =? 0 then set_ip_server (le d) dev else dev | _ => dev end
  else dev.

Definition item_effect (dev : netdev) (i : item) : netdev :=
  match i with Pad => dev | Opt t d => option_effect t d dev end.

Lemma encode_items_cons i l : encode_items (i :: l) = encode_item i ++ encode_items l.
Proof. done. Qed.

Lemma length_encode_items l : (length l <= length (encode_items l))%nat.
Proof. induction l as [| i l IH]; [done |]. rewrite encode_items_cons, length_app. destruct i; simpl; lia. Qed.

Lemma bytes_at_take l d r n : (n <= length d)%nat → bytes_at (l ++ d ++ r) (Z.of_nat (length l)) (Z.of_nat n) = Some (take n d).
Proof.
  intros Hn. rewrite <- (take_drop n d) at 1. rewrite <- app_assoc. apply bytes_at_app; [done |]. rewrite length_take. lia.
Qed.

(** An option is read from its place in the packet with its effect. *)
Lemma bootp_option_effect t d l r dev : item_ok (Opt t d) →
  bootp_option t (Z.of_nat (length d)) (l ++ d ++ r) (Z.of_nat (length l)) dev = Some (option_effect t d dev, Z.of_nat (length d)).
Proof.
  intros (_ & Hl & Hname). unfold bootp_option, option_effect, string_effect.
  assert (∀ n, (n <= length d)%nat → bytes_at (l ++ d ++ r) (Z.of_nat (length l)) (Z.of_nat n) = Some (take n d)) as Hget
    by (intros; by apply bytes_at_take).
  assert (bytes_at (l ++ d ++ r) (Z.of_nat (length l)) (Z.of_nat (length d)) = Some d) as Hall
    by (rewrite Hget by lia; by rewrite take_ge).
  pose proof (Hget 2%nat) as H2. pose proof (Hget 4%nat) as H4. pose proof (Hget 8%nat) as H8. clear Hget.
  change (Z.of_nat 2) with 2 in H2. change (Z.of_nat 4) with 4 in H4. change (Z.of_nat 8) with 8 in H8.
  cbv zeta. unfold SYS_NMLN, BPLEN.
  assert (∀ k, 64 <= k → (length d <= 64)%nat → (if k <? Z.of_nat (length d) then k else Z.of_nat (length d)) = Z.of_nat (length d)) as Hk
    by (intros; rewrite (proj2 (Z.ltb_ge _ _)) by lia; done).
  repeat lazymatch goal with
  | |- (if t =? ?k then _ else _) = _ => destruct (Z.eqb_spec t k) as [-> | ?]
  end;
  try (rewrite Hk by (lia || (apply Hname; rewrite !elem_of_cons; tauto)); by rewrite Hall);
  try (destruct (Z.ltb_spec (256 - 1) (Z.of_nat (length d))); [lia | by rewrite Hall]);
  try done.
  all: destruct d as [| a [| b [| c [| e [| f [| g [| h [| i d]]]]]]]]; simpl length in *; try done.
  all: repeat lazymatch goal with
  | |- context [?x =? ?y] => destruct (Z.eqb_spec x y); [lia || idtac | lia || idtac]
  | |- context [?x <=? ?y] => destruct (Z.leb_spec x y); [lia || idtac | lia || idtac]
  end; try done.
  all: rewrite ?H2, ?H4, ?H8 by lia; try done.
  unfold be. cbn [take mbind option_bind fold_left]. do 3 f_equal. lia.
Qed.

Lemma byte_at_at pre b post i : i = Z.of_nat (length pre) → byte_at (pre ++ b :: post) i = Some b.
Proof. intros ->. apply byte_at_app. Qed.

(** One round of each loop per item. *)
Lemma bootp_loop_item fuel i pre post extlen dev :
  item_ok i → Z.of_nat (length pre) + Z.of_nat (length (encode_item i)) <= extlen →
  bootp_loop (S fuel) (pre ++ encode_item i ++ post) extlen (Z.of_nat (length pre)) dev =
  bootp_loop fuel ((pre ++ encode_item i) ++ post) extlen (Z.of_nat (length (pre ++ encode_item i))) (item_effect dev i).
Proof.
  intros Hok Hlen. rewrite <- app_assoc, length_app, Nat2Z.inj_add. destruct i as [| t d]; simpl length in Hlen.
  - cbn [bootp_loop encode_item]. rewrite (proj2 (Z.ltb_lt _ _)) by lia. cbn [app]. by rewrite byte_at_app.
  - cbn [bootp_loop encode_item]. rewrite (proj2 (Z.ltb_lt _ _)) by lia. cbn [app]. rewrite byte_at_app. cbn [mbind option_bind].
    pose proof Hok as (Ht & _ & _). rewrite (proj2 (Z.eqb_neq t 0)), (proj2 (Z.eqb_neq t 255)) by lia.
    replace (pre ++ t :: Z.of_nat (length d) :: d ++ post) with ((pre ++ [t]) ++ Z.of_nat (length d) :: d ++ post) by by rewrite <- app_assoc.
    rewrite byte_at_at by (rewrite length_app; simpl; lia). cbn [mbind option_bind].
    replace ((pre ++ [t]) ++ Z.of_nat (length d) :: d ++ post) with ((pre ++ [t; Z.of_nat (length d)]) ++ d ++ post) by by rewrite <- !app_assoc.
    replace (Z.of_nat (length pre) + 1 + 1) with (Z.of_nat (length (pre ++ [t; Z.of_nat (length d)]))) by (rewrite length_app; simpl; lia).
    rewrite bootp_option_effect by done. cbn [mbind option_bind item_effect]. f_equal. rewrite length_app. simpl. lia.
Qed.

Lemma bootp_loop_items l : ∀ fuel pre post extlen dev,
  Forall item_ok l → Z.of_nat (length pre) + Z.of_nat (length (encode_items l)) <= extlen → (length l <= fuel)%nat →
  bootp_loop fuel (pre ++ encode_items l ++ post) extlen (Z.of_nat (length pre)) dev =
  bootp_loop (fuel - length l) (pre ++ encode_items l ++ post) extlen
    (Z.of_nat (length pre) + Z.of_nat (length (encode_items l))) (foldl item_effect dev l).
Proof.
  induction l as [| i l IH]; intros fuel pre post extlen dev Hok Hlen Hf; simpl in Hf.
  { simpl. by rewrite Nat.sub_0_r, Z.add_0_r. }
  apply Forall_cons in Hok as [Hi Hok]. destruct fuel as [| fuel]; [lia |].
  rewrite encode_items_cons, length_app, <- app_assoc in *. rewrite bootp_loop_item by (done || lia).
  rewrite IH by (rewrite ?length_app; done || lia). rewrite <- app_assoc, length_app. simpl. f_equal. lia.
Qed.

Definition cookie : list Z := [99; 130; 83; 99].

(** The end of the options: the option 255 with anything after it, or the end
    of the packet; after it the rest of the buffer. *)
Definition packet_options (l : list item) (rest : list Z) : list Z := cookie ++ encode_items l ++ rest.

Lemma has_cookie_options l rest extlen : 4 <= extlen → has_cookie (packet_options l rest) extlen = Some true.
Proof.
  intros H. unfold has_cookie, packet_options. rewrite (proj2 (Z.ltb_ge _ _)) by lia.
  change (cookie ++ encode_items l ++ rest) with ([] ++ cookie ++ encode_items l ++ rest). by rewrite bytes_at_app.
Qed.

Lemma bootp_parse_items dev hdr l rest extlen :
  Forall item_ok l →
  extlen = 4 + Z.of_nat (length (encode_items l)) ∨
    (4 + Z.of_nat (length (encode_items l)) < extlen ∧ head rest = Some 255) →
  bootp_parse dev hdr (packet_options l rest) extlen = Some (1, foldl item_effect (bootp_defaults dev hdr) l).
Proof.
  intros Hok Hend. unfold bootp_parse. rewrite has_cookie_options by lia. cbn [mbind option_bind]. pose proof (length_encode_items l).
  unfold packet_options. change 4 with (Z.of_nat (length cookie)) at 1. rewrite bootp_loop_items by (done || (change (length cookie) with 4%nat; lia)).
  change (Z.of_nat (length cookie)) with 4. set (dev' := foldl _ _ _).
  assert (S (Z.to_nat extlen) - length l = S (Z.to_nat extlen - length l))%nat as -> by lia. cbn [bootp_loop].
  destruct Hend as [-> | [Hlt Hr]]; [by rewrite Z.ltb_irrefl |].
  rewrite (proj2 (Z.ltb_lt _ _)) by done. destruct rest as [| b rest]; simpl in Hr; [done |]. apply (inj Some) in Hr as ->.
  rewrite app_assoc, (byte_at_at (cookie ++ encode_items l) 255 rest (4 + Z.of_nat (length (encode_items l)))) by (rewrite length_app; change (length cookie) with 4%nat; lia). done.
Qed.

(** The message type and the server identifier of a reply: those of the last
    options 53 and 54. *)
Definition type_step (t : Z) (i : item) : Z := match i with Opt 53 (v :: _) => v | _ => t end.
Definition server_step (t : Z) (i : item) : Z := match i with Opt 54 d => le d | _ => t end.
Definition message_type (l : list item) : Z :=
  foldl type_step 0 l.
Definition server_identifier (l : list item) : Z :=
  foldl server_step INADDR_NONE l.

Definition dhcp_item_ok (i : item) : Prop :=
  item_ok i ∧ match i with Opt 53 d => length d = 1%nat | Opt 54 d => length d = 4%nat | _ => True end.

Lemma dhcp_loop_item fuel i pre post extlen type server :
  dhcp_item_ok i → Z.of_nat (length pre) + Z.of_nat (length (encode_item i)) <= extlen →
  dhcp_loop (S fuel) (pre ++ encode_item i ++ post) extlen (Z.of_nat (length pre)) type server =
  dhcp_loop fuel ((pre ++ encode_item i) ++ post) extlen (Z.of_nat (length (pre ++ encode_item i))) (type_step type i) (server_step server i).
Proof.
  intros [Hok H53] Hlen. rewrite <- app_assoc, length_app, Nat2Z.inj_add. destruct i as [| t d]; simpl length in Hlen.
  - cbn [dhcp_loop encode_item]. rewrite (proj2 (Z.ltb_lt _ _)) by lia. cbn [app]. by rewrite byte_at_app.
  - cbn [dhcp_loop encode_item]. rewrite (proj2 (Z.ltb_lt _ _)) by lia. cbn [app]. rewrite byte_at_app. cbn [mbind option_bind].
    pose proof Hok as (Ht & _ & _). rewrite (proj2 (Z.eqb_neq t 0)) by lia.
    replace (pre ++ t :: Z.of_nat (length d) :: d ++ post) with ((pre ++ [t]) ++ Z.of_nat (length d) :: d ++ post) by by rewrite <- app_assoc.
    rewrite (byte_at_at (pre ++ [t]) _ _ (Z.of_nat (length pre) + 1)) by (rewrite length_app; simpl; lia). cbn [mbind option_bind].
    replace ((pre ++ [t]) ++ Z.of_nat (length d) :: d ++ post) with ((pre ++ [t; Z.of_nat (length d)]) ++ d ++ post) by by rewrite <- !app_assoc.
    assert (Z.of_nat (length pre) + 2 = Z.of_nat (length (pre ++ [t; Z.of_nat (length d)]))) as E by (rewrite length_app; simpl; lia).
    rewrite E. set (pre' := pre ++ [t; Z.of_nat (length d)]) in *.
    assert ((if t =? 53 then byte_at (pre' ++ d ++ post) (Z.of_nat (length pre')) else Some type) = Some (type_step type (Opt t d))) as ->.
    { destruct (Z.eqb_spec t 53) as [-> | Hn]; [by destruct d as [| v [|]]; try done; cbn [app]; rewrite byte_at_app |].
      simpl. repeat (case_match; try done). }
    cbn [mbind option_bind].
    assert ((if t =? 54 then le <$> bytes_at (pre' ++ d ++ post) (Z.of_nat (length pre')) 4 else Some server) = Some (server_step server (Opt t d))) as ->.
    { destruct (Z.eqb_spec t 54) as [-> | Hn]; [by rewrite bytes_at_app by (done || lia) |]. simpl. repeat (case_match; try done). }
    cbn [mbind option_bind]. f_equal. rewrite <- E. simpl. lia.
Qed.

Lemma dhcp_loop_items l : ∀ fuel pre post extlen type server,
  Forall dhcp_item_ok l → Z.of_nat (length pre) + Z.of_nat (length (encode_items l)) <= extlen → (length l <= fuel)%nat →
  dhcp_loop fuel (pre ++ encode_items l ++ post) extlen (Z.of_nat (length pre)) type server =
  dhcp_loop (fuel - length l) (pre ++ encode_items l ++ post) extlen
    (Z.of_nat (length pre) + Z.of_nat (length (encode_items l))) (foldl type_step type l) (foldl server_step server l).
Proof.
  induction l as [| i l IH]; intros fuel pre post extlen type server Hok Hlen Hf; simpl in Hf.
  { simpl. by rewrite Nat.sub_0_r, Z.add_0_r. }
  apply Forall_cons in Hok as [Hi Hok]. destruct fuel as [| fuel]; [lia |].
  rewrite encode_items_cons, length_app, <- app_assoc in *. rewrite dhcp_loop_item by (done || lia).
  rewrite IH by (rewrite ?length_app; done || lia). rewrite <- app_assoc, length_app. simpl. f_equal. lia.
Qed.

(** The loop does not stop at the option 255, but takes the zeros after it for
    its length and for padding. *)
Lemma dhcp_loop_zeros k : ∀ fuel pre post type server, (k < fuel)%nat →
  dhcp_loop fuel (pre ++ replicate k 0 ++ post) (Z.of_nat (length pre) + Z.of_nat k) (Z.of_nat (length pre)) type server = Some (type, server).
Proof.
  induction k as [| k IH]; intros fuel pre post type server Hf; (destruct fuel as [| fuel]; [lia |]); cbn [dhcp_loop].
  - by rewrite Z.add_0_r, Z.ltb_irrefl.
  - rewrite (proj2 (Z.ltb_lt _ _)) by lia. cbn [replicate app]. rewrite byte_at_app. cbn [mbind option_bind]. change (0 =? 0) with true. cbv iota.
    replace (pre ++ 0 :: replicate k 0 ++ post) with ((pre ++ [0]) ++ replicate k 0 ++ post) by by rewrite <- app_assoc.
    replace (Z.of_nat (length pre) + 1) with (Z.of_nat (length (pre ++ [0]))) by (rewrite length_app; simpl; lia).
    replace (Z.of_nat (length pre) + Z.of_nat (S k)) with (Z.of_nat (length (pre ++ [0])) + Z.of_nat k) by (rewrite length_app; simpl; lia).
    apply IH. lia.
Qed.

Lemma dhcp_loop_end fuel k pre post type server : (S k < fuel)%nat → (k = 0%nat → post ≠ []) → bytes post →
  dhcp_loop fuel (pre ++ 255 :: replicate k 0 ++ post) (Z.of_nat (length pre) + 1 + Z.of_nat k) (Z.of_nat (length pre)) type server = Some (type, server).
Proof.
  intros Hf Hk Hb. destruct fuel as [| fuel]; [lia |]. cbn [dhcp_loop]. rewrite (proj2 (Z.ltb_lt _ _)) by lia.
  rewrite byte_at_app. cbn [mbind option_bind]. change (255 =? 0) with false. change (255 =? 53) with false. change (255 =? 54) with false. cbv iota.
  replace (pre ++ 255 :: replicate k 0 ++ post) with ((pre ++ [255]) ++ replicate k 0 ++ post) by by rewrite <- app_assoc.
  assert (∃ b r, replicate k 0 ++ post = b :: r ∧ (k = 0%nat → 0 <= b) ∧ (k ≠ 0%nat → b = 0 ∧ r = replicate (pred k) 0 ++ post)) as (b & r & E & Hb0 & Hbk).
  { destruct k as [| k]; [| by eexists 0, _].
    destruct post as [| b r]; [by destruct Hk |]. exists b, r. split_and!; [done | | done]. intros _. apply Forall_cons in Hb as [Hb _]. apply Hb. }
  rewrite E, byte_at_at by (rewrite length_app; simpl; lia). cbn [mbind option_bind].
  destruct k as [| k].
  - specialize (Hb0 eq_refl). destruct fuel as [| fuel]; [lia |]. cbn [dhcp_loop]. by rewrite (proj2 (Z.ltb_ge _ _)) by lia.
  - destruct Hbk as [-> ->]; [done |]. cbn [pred].
    replace ((pre ++ [255]) ++ 0 :: replicate k 0 ++ post) with ((pre ++ [255; 0]) ++ replicate k 0 ++ post) by by rewrite <- !app_assoc.
    replace (Z.of_nat (length pre) + 2 + 0) with (Z.of_nat (length (pre ++ [255; 0]))) by (rewrite length_app; simpl; lia).
    replace (Z.of_nat (length pre) + 1 + Z.of_nat (S k)) with (Z.of_nat (length (pre ++ [255; 0])) + Z.of_nat k) by (rewrite length_app; simpl; lia).
    apply dhcp_loop_zeros. lia.
Qed.

(** What a reply means to the device that receives it. *)
Definition dhcp_result (dev : netdev) (hdr : list Z) (l : list item) : Z * netdev :=
  let dev' := foldl item_effect (bootp_defaults dev hdr) l in
  if message_type l =? DHCPOFFER then
    (DHCPOFFER, if server_identifier l =? INADDR_NONE then dev' else set_serverid (server_identifier l) dev')
  else if message_type l =? DHCPACK then (DHCPACK, dev')
  else if message_type l =? DHCPNAK then (DHCPNAK, dev)
  else (0, dev).

Lemma dhcp_parse_items dev hdr l k post :
  Forall dhcp_item_ok l → (k = 0%nat → post ≠ []) → bytes post →
  dhcp_parse dev hdr (packet_options l (255 :: replicate k 0 ++ post)) (4 + Z.of_nat (length (encode_items l)) + 1 + Z.of_nat k) =
  Some (dhcp_result dev hdr l).
Proof.
  intros Hok Hk Hb. pose proof (length_encode_items l) as Hlen. unfold dhcp_parse. rewrite has_cookie_options by lia. cbn [mbind option_bind].
  assert (∀ dev', bootp_parse dev' hdr (packet_options l (255 :: replicate k 0 ++ post)) (4 + Z.of_nat (length (encode_items l)) + 1 + Z.of_nat k) =
    Some (1, foldl item_effect (bootp_defaults dev' hdr) l)) as Hparse.
  { intros dev'. apply bootp_parse_items; [eapply Forall_impl; [exact Hok | by intros ? []] |]. right. split; [lia | done]. }
  set (extlen := 4 + Z.of_nat (length (encode_items l)) + 1 + Z.of_nat k) in *.
  assert (dhcp_loop (S (Z.to_nat extlen)) (packet_options l (255 :: replicate k 0 ++ post)) extlen 4 0 INADDR_NONE =
    Some (message_type l, server_identifier l)) as ->.
  { unfold packet_options. rewrite (dhcp_loop_items l _ cookie) by (done || (change (length cookie) with 4%nat; unfold extlen; lia)).
    rewrite app_assoc, <- Nat2Z.inj_add, <- length_app.
    assert (extlen = Z.of_nat (length (cookie ++ encode_items l)) + 1 + Z.of_nat k) as ->
      by (rewrite length_app; change (length cookie) with 4%nat; unfold extlen; lia).
    apply dhcp_loop_end; [rewrite length_app; change (length cookie) with 4%nat; lia | done | done]. }
  cbn [mbind option_bind]. unfold dhcp_result. rewrite !Hparse. cbn [mbind option_bind].
  change (negb (1 =? 0)) with true. cbv iota zeta. repeat case_match; try done; by rewrite ?andb_true_l in *.
Qed.

(** A reply of a server to this device: the header, the options. *)
Definition reply_hdr (dev : netdev) (h : list Z) : Prop :=
  length h = 236%nat ∧ op h = BOOTP_REPLY ∧ hdr_xid h = xid dev ∧ chaddr h = hwaddr dev.
Definition reply_options (l : list item) (k : nat) : list Z := packet_options l (255 :: replicate k 0).

(** The buffers of a receive: a block from [malloc] for the headers, the BOOTP
    header and [n] bytes for the options. *)
Definition buffers_ok (inc : incoming) (n : nat) : Prop :=
  length (iph0 inc) = 20%nat ∧ length (bootp0 inc) = 236%nat ∧ length (options0 inc) = n ∧ bytes (options0 inc) ∧
  ∃ ip0, malloc_ip inc 28 = Some ip0 ∧ length ip0 = 28%nat.

Lemma length_reply_options l k : length (reply_options l k) = (4 + length (encode_items l) + 1 + k)%nat.
Proof. unfold reply_options, packet_options. rewrite !length_app. simpl. rewrite length_replicate. lia. Qed.

Lemma is_reply_hdr dev h ret : reply_hdr dev h → 236 <= ret → is_reply dev ret h = true.
Proof.
  intros (_ & Ho & Hx & Hc) Hr. unfold is_reply, sizeof_bootp_hdr. rewrite Ho, Hx, bool_decide_true by done.
  by rewrite (proj2 (Z.leb_le _ _)), !Z.eqb_refl by lia.
Qed.

(** The packet a server sends with this header and these options, as it is
    received. *)
Lemma reply_received cl cr p inc n h options :
  buffers_ok inc n → length h = 236%nat → (length options <= n)%nat → (n <= 1500)%nat →
  in_u 16 cl → in_u 16 cr → in_u 16 (source p) → in_u 16 (dest p) →
  ∃ p' d, packet_send cl cr p [h; options] = Some (p', d) ∧
    (peek inc = Some d → msg inc = Some d →
     packet_recv (dest p') (source p') inc =
       Some (236 + Z.of_nat (length options), h, options ++ drop (length options) (options0 inc))).
Proof.
  intros (Hiph & Hb & Ho & _ & ip0 & Hmal & Hip) Hh Hl Hn Hcl Hcr Hs Hd.
  assert (length (concat [h; options]) = 236 + length options)%nat as El by (simpl; rewrite app_nil_r, length_app; lia).
  destruct (packet_run cl cr p [h; options] inc ip0) as (p' & d & E & Hrecv); [lia | lia | done..|].
  exists p', d. split; [done |]. intros Hp Hm. rewrite Hrecv by done. rewrite El. simpl. rewrite app_nil_r, Hb.
  rewrite take_app_length', drop_app_length' by done. do 3 f_equal. lia.
Qed.

(** A server's packet, through the whole of [dhcp_recv]. *)
Lemma dhcp_reply_run cl cr p inc dev h l k :
  buffers_ok inc 1500 → reply_hdr dev h → Forall dhcp_item_ok l → (length (reply_options l k) < 1500)%nat →
  in_u 16 cl → in_u 16 cr → in_u 16 (source p) → in_u 16 (dest p) →
  ∃ p' d, packet_send cl cr p [h; reply_options l k] = Some (p', d) ∧
    (peek inc = Some d → msg inc = Some d →
     dhcp_recv (dest p') (source p') inc dev = Some (dhcp_result dev h l)).
Proof.
  intros Hbuf Hh Hl Hlen Hcl Hcr Hs Hd. pose proof Hbuf as (_ & _ & Ho & Hob & _). pose proof Hh as (Hhl & _).
  destruct (reply_received cl cr p inc 1500 h (reply_options l k)) as (p' & d & E & Hrecv); [done | done | lia | lia | done..|].
  exists p', d. split; [done |]. intros Hp Hm. unfold dhcp_recv. rewrite Hrecv by done. cbn [mbind option_bind].
  rewrite (proj2 (Z.leb_gt _ _)) by lia. rewrite is_reply_hdr by (done || lia). cbn [negb]. unfold sizeof_bootp_hdr.
  set (post := drop (length (reply_options l k)) (options0 inc)).
  assert (post ≠ []) as Hpost by (intros E0%(f_equal length); unfold post in E0; rewrite length_drop, Ho in E0; change (length []) with 0%nat in E0; lia).
  replace (reply_options l k ++ post) with (packet_options l (255 :: replicate k 0 ++ post))
    by (unfold reply_options, packet_options; by rewrite <- !app_assoc).
  rewrite <- (dhcp_parse_items dev h l k post Hl (λ _, Hpost)) by by apply Forall_drop.
  f_equal. rewrite length_reply_options. lia.
Qed.

(** C28.  A DHCP reply to this device is understood: when a server sends a
    header with the transaction and the hardware address of the device and
    well-formed options (any number of paddings and options, the option 255,
    zeros), [dhcp_recv] returns its message type, and for an offer or an
    acknowledgement the device has the addresses of the header with every
    option applied in order; the server identifier is taken from an offer. *)
Theorem dhcp_reply_understood cl cr p inc dev h l k :
  buffers_ok inc 1500 → reply_hdr dev h → Forall dhcp_item_ok l → (length (reply_options l k) < 1500)%nat →
  in_u 16 cl → in_u 16 cr → in_u 16 (source p) → in_u 16 (dest p) →
  ∃ p' d, packet_send cl cr p [h; reply_options l k] = Some (p', d) ∧
    (peek inc = Some d → msg inc = Some d →
     dhcp_recv (dest p') (source p') inc dev = Some (dhcp_result dev h l)).
Proof. apply dhcp_reply_run. Qed.

(** The same for a BOOTP reply and the 312 bytes of [bootp_recv_reply]. *)
Lemma bootp_reply_understood cl cr p inc dev h l k :
  buffers_ok inc 312 → reply_hdr dev h → Forall item_ok l → (length (reply_options l k) <= 312)%nat →
  in_u 16 cl → in_u 16 cr → in_u 16 (source p) → in_u 16 (dest p) →
  ∃ p' d, packet_send cl cr p [h; reply_options l k] = Some (p', d) ∧
    (peek inc = Some d → msg inc = Some d →
     bootp_recv_reply (dest p') (source p') inc dev = Some (1, foldl item_effect (bootp_defaults dev h) l)).
Proof.
  intros Hbuf Hh Hl Hlen Hcl Hcr Hs Hd. pose proof Hh as (Hhl & _).
  destruct (reply_received cl cr p inc 312 h (reply_options l k)) as (p' & d & E & Hrecv); [done | done | lia | lia | done..|].
  exists p', d. split; [done |]. intros Hp Hm. unfold bootp_recv_reply. rewrite Hrecv by done. cbn [mbind option_bind].
  rewrite (proj2 (Z.leb_gt _ _)) by lia. rewrite is_reply_hdr by (done || lia). cbn [negb]. unfold sizeof_bootp_hdr.
  unfold reply_options at 1, packet_options. rewrite <- !app_assoc. apply bootp_parse_items; [done |].
  right. rewrite length_reply_options. split; [lia | done].
Qed.

(** ** What a packet cannot change

    A reply, well formed or not, leaves the name, the hardware address and the
    transaction of the device as they are. *)

Definition identity (d : netdev) := (name d, hwtype d, hwlen d, hwaddr d, hwbrd d, ifindex d, xid d, caps d).

Lemma bootp_option_identity opt len exts ext dev dev' len' :
  bootp_option opt len exts ext dev = Some (dev', len') → identity dev' = identity dev.
Proof.
  unfold bootp_option. intros H. repeat (case_match; try done).
  all: try (apply bind_Some in H as (? & _ & H)); by apply (inj Some) in H; injection H as <- _.
Qed.

Lemma bootp_loop_identity fuel : ∀ exts extlen ext dev dev', bootp_loop fuel exts extlen ext dev = Some dev' → identity dev' = identity dev.
Proof.
  induction fuel as [| fuel IH]; intros exts extlen ext dev dev' H; [done |]. cbn [bootp_loop] in H.
  destruct (ext <? extlen); [| by apply (inj Some) in H as <-].
  apply bind_Some in H as (opt & _ & H). destruct (opt =? 0); [by eapply IH |]. destruct (opt =? 255); [by apply (inj Some) in H as <- |].
  apply bind_Some in H as (len & _ & H). apply bind_Some in H as ([d1 l1] & Eo & H).
  etrans; [by eapply IH | by eapply bootp_option_identity].
Qed.

Lemma bootp_parse_identity dev hdr exts extlen r dev' : bootp_parse dev hdr exts extlen = Some (r, dev') → identity dev' = identity dev.
Proof.
  unfold bootp_parse. intros (c & _ & H)%bind_Some. apply bind_Some in H as (d & E & [= _ <-]).
  destruct c; [| by apply (inj Some) in E as <-]. by apply bootp_loop_identity in E.
Qed.

Lemma dhcp_parse_identity dev hdr exts extlen r dev' : dhcp_parse dev hdr exts extlen = Some (r, dev') → identity dev' = identity dev.
Proof.
  unfold dhcp_parse. intros (c & _ & H)%bind_Some. apply bind_Some in H as ([type server] & _ & H).
  repeat case_match; try (apply bind_Some in H as ([r1 d1] & E & H); apply bootp_parse_identity in E);
    apply (inj Some) in H; injection H as _ <-; try done. by destruct (_ && _).
Qed.

Lemma dhcp_recv_identity cl cr inc dev r dev' : dhcp_recv cl cr inc dev = Some (r, dev') → identity dev' = identity dev.
Proof.
  unfold dhcp_recv. intros ([[ret h] o] & _ & H)%bind_Some. repeat case_match; try (by apply (inj Some) in H; injection H as _ <-).
  by eapply dhcp_parse_identity.
Qed.

Lemma bootp_recv_identity cl cr inc dev r dev' : bootp_recv_reply cl cr inc dev = Some (r, dev') → identity dev' = identity dev.
Proof.
  unfold bootp_recv_reply. intros ([[ret h] o] & _ & H)%bind_Some. repeat case_match; try (by apply (inj Some) in H; injection H as _ <-).
  by eapply bootp_parse_identity.
Qed.

(** A message type is the result only for a reply to this device. *)
Definition genuine (cl cr : Z) (inc : incoming) (dev : netdev) (type : Z) (dev' : netdev) : Prop :=
  ∃ ret h o, packet_recv cl cr inc = Some (ret, h, o) ∧ sizeof_bootp_hdr <= ret ∧
    op h = BOOTP_REPLY ∧ hdr_xid h = xid dev ∧ chaddr h = hwaddr dev ∧
    dhcp_parse dev h o (ret - sizeof_bootp_hdr) = Some (type, dev').

Lemma is_reply_true dev ret h : is_reply dev ret h = true →
  sizeof_bootp_hdr <= ret ∧ op h = BOOTP_REPLY ∧ hdr_xid h = xid dev ∧ chaddr h = hwaddr dev.
Proof.
  unfold is_reply. rewrite !andb_true_iff, Z.leb_le, !Z.eqb_eq, bool_decide_eq_true. tauto.
Qed.

Lemma dhcp_recv_genuine cl cr inc dev r dev' : 0 < r → dhcp_recv cl cr inc dev = Some (r, dev') → genuine cl cr inc dev r dev'.
Proof.
  intros Hr H. unfold dhcp_recv in H. apply bind_Some in H as ([[ret h] o] & E & H).
  destruct (Z.leb_spec ret 0); [apply (inj Some) in H; injection H; lia |].
  destruct (is_reply dev ret h) eqn:Ei; cbn [negb] in H; [| apply (inj Some) in H; injection H; lia].
  apply is_reply_true in Ei as (? & ? & ? & ?). by exists ret, h, o.
Qed.

(** ** Concrete replies *)

Definition example_dev : netdev :=
  mk_netdev [101; 116; 104; 48] 1 6 ([2; 0; 0; 0; 0; 1] ++ replicate 10 0) (replicate 16 255) 2 1500 3 1000 0x12345678 0 0 0 0 0 0 0 0 0
    (replicate 65 0) (replicate 65 0) (replicate 65 0) (replicate 65 0) (replicate 256 0) (replicate 128 0).
Definition example_hdr : list Z :=
  [2; 1; 6; 0; 0x78; 0x56; 0x34; 0x12] ++ replicate 8 0 ++ [192; 168; 1; 7] ++ [192; 168; 1; 1] ++ replicate 4 0 ++
  ([2; 0; 0; 0; 0; 1] ++ replicate 10 0) ++ replicate 192 0.
Definition example_offer : list item :=
  [Opt 53 [2]; Pad; Opt 54 [192; 168; 1; 1]; Opt 1 [255; 255; 255; 0]; Opt 12 [104; 105]; Opt 26 [5; 220]].
Definition example_incoming (d : list Z) (n : nat) : incoming :=
  mk_incoming (Some d) (Some d) (replicate 20 0) (λ n, Some (replicate (Z.to_nat n) 0)) (replicate 236 0) (replicate n 170).
Definition server_ports : ports := mk_ports REMOTE_PORT LOCAL_PORT.

Lemma example_buffers d n : buffers_ok (example_incoming d n) n.
Proof.
  split_and!; [done | done | apply length_replicate | apply Forall_replicate; done | by eexists].
Qed.

Lemma packet_roundtrip_witness : ∃ d, packet_send 68 67 server_ports [example_hdr; cookie] = Some (server_ports, d) ∧
  packet_recv 68 67 (example_incoming d 312) = Some (240, example_hdr, cookie ++ replicate 308 170).
Proof.
  destruct (packet_send 68 67 server_ports [example_hdr; cookie]) as [[p' d] |] eqn:E; [| by vm_compute in E].
  destruct (packet_roundtrip 68 67 server_ports [example_hdr; cookie] (example_incoming d 312) (replicate 28 0)) as (p2 & d2 & E2 & H);
    [by apply (bool_decide_eq_true_1 _) ; vm_compute | done | done | done | done | done | done | done | done |].
  rewrite E2 in E. apply (inj Some) in E. apply pair_equal_spec in E as [-> ->]. exists d.
  assert (fst <$> packet_send 68 67 server_ports [example_hdr; cookie] = Some server_ports) as Ep by (vm_compute; reflexivity).
  rewrite E2 in Ep. simpl in Ep. apply (inj Some) in Ep as ->.
  split; [done |]. by apply H.
Defined.

Lemma dhcp_reply_understood_witness : ∃ d,
  packet_send 68 67 server_ports [example_hdr; reply_options example_offer 3] = Some (server_ports, d) ∧
  dhcp_recv 68 67 (example_incoming d 1500) example_dev = Some (dhcp_result example_dev example_hdr example_offer).
Proof.
  destruct (packet_send 68 67 server_ports [example_hdr; reply_options example_offer 3]) as [[p' d] |] eqn:E; [| by vm_compute in E].
  destruct (dhcp_reply_understood 68 67 server_ports (example_incoming d 1500) example_dev example_hdr example_offer 3) as (p2 & d2 & E2 & H).
  - apply example_buffers.
  - by split_and!.
  - repeat constructor; done || (simpl; lia) || (rewrite !elem_of_cons, elem_of_nil; lia).
  - apply (bool_decide_eq_true_1 _). vm_compute. reflexivity.
  - done.
  - done.
  - done.
  - done.
  - rewrite E2 in E. apply (inj Some) in E. apply pair_equal_spec in E as [-> ->]. exists d.
    assert (fst <$> packet_send 68 67 server_ports [example_hdr; reply_options example_offer 3] = Some server_ports) as Ep by (vm_compute; reflexivity).
    rewrite E2 in Ep. simpl in Ep. apply (inj Some) in Ep as ->. split; [done |]. by apply H.
Defined.

(** The offer is an offer, with the values of the options. *)
Example example_offer_result :
  (λ '(r, d), (r, ip_addr d, ip_netmask d, serverid d, takewhile_nz (hostname d), mtu d)) (dhcp_result example_dev example_hdr example_offer) =
  (DHCPOFFER, le [192; 168; 1; 7], le [255; 255; 255; 0], le [192; 168; 1; 1], [104; 105], 1500).
Proof. vm_compute. reflexivity. Qed.

(** A packet that fills the buffer, with an option in its last byte: its length
    is read from behind the buffer. *)
Example option_overrun : bootp_parse example_dev example_hdr (cookie ++ replicate 307 0 ++ [1]) 312 = None.
Proof. vm_compute. reflexivity. Qed.

(** A host name of more than 64 bytes: the bytes that do not fit are taken for
    further options, here a netmask. *)
Example long_host_name :
  (λ '(r, d), ip_netmask d) <$>
    bootp_parse example_dev example_hdr (packet_options [Opt 12 (replicate 64 97 ++ [1; 4; 1; 2; 3; 4])] [255]) 77 =
  Some (le [1; 2; 3; 4]).
Proof. vm_compute. reflexivity. Qed.

(** The end of the options is not the end for the message type: bytes after
    the option 255 are still read. *)
Example type_after_end :
  fst <$> dhcp_parse example_dev example_hdr (packet_options [Opt 53 [5]; Opt 255 []; Opt 53 [6]] [0]) 13 = Some DHCPNAK.
Proof. vm_compute. reflexivity. Qed.
