(* ===== verification/Ipconfig.v ===== *)
(** * The configuration of network devices: [kinit/ipconfig/main.c]

    Each device is a state machine: [process_timeout_event] sends the packet of
    its state, [process_receive_event] takes a packet, and [loop] drives all
    devices with [poll].  The globals of the program are a record; what the
    kernel answers to one event (the packet received, whether a packet could
    be sent, the flags of the device, the time) is a record [env].

    The theorems: the states, and the retry period, stay in range; a device is
    configured by DHCP only after an offer and an acknowledgement for it; when
    a server answers, it is configured; the period between retries doubles up
    to a minute; what is written to the configuration file is read back by a
    shell. *)

From stdpp Require Import base numbers list strings.
From Stdlib Require Import Lia Ascii.
From S2P Require Import Prelude Inet Netdev Bootp.

Definition text (s : string) : list Z := (λ a, Z.of_N (N_of_ascii a)) <$> String.list_ascii_of_string s.
Arguments text _%_string.

Definition DEVST_BOOTP : Z := 1.
Definition DEVST_DHCPDISC : Z := 2.
Definition DEVST_DHCPREQ : Z := 3.
Definition DEVST_COMPLETE : Z := 4.
Definition DEVST_ERROR : Z := 5.

(** [struct state]; the list is a Rocq list. *)
Record state := mk_state {
  state_ : Z;
  restart_state : Z;
  expire : Z;
  retry_period : Z;
  dev : netdev;
}.
Definition set_state v s := mk_state v (restart_state s) (expire s) (retry_period s) (dev s).
Definition set_restart v s := mk_state (state_ s) v (expire s) (retry_period s) (dev s).
Definition set_expire v s := mk_state (state_ s) (restart_state s) v (retry_period s) (dev s).
Definition set_retry v s := mk_state (state_ s) (restart_state s) (expire s) v (dev s).
Definition set_dev v s := mk_state (state_ s) (restart_state s) (expire s) (retry_period s) v.

(** What the kernel is asked to do for a device. *)
Inductive request :=
  | SIOCSIFMTU (mtu : Z)
  | SIOCSIFADDR (addr : Z)
  | SIOCSIFBRDADDR (addr : Z)
  | SIOCSIFNETMASK (addr : Z)
  | SIOCADDRT (gateway : Z)
  | Sethostname (name : list Z).

(** The globals, and the effects: the datagrams sent, the requests made, the
    files written. *)
Record globals := mk_globals {
  ipudp_hdrs : ports;
  cfg_local_port : Z;
  cfg_remote_port : Z;
  vendor_class_identifier : list Z;
  do_not_config : bool;
  configured : Z;
  ifaces : list netdev;
  sent : list (list Z);
  requests : list request;
  files : list (list Z * list Z);
}.

(** The answers of the kernel during one event, and what is in memory behind
    the last array of the device (its member [next] and whatever follows), up
    to a null character. *)
Record env := mk_env {
  received : incoming;
  sendmsg_ok : bool;
  getflags : option Z;
  clock : Z;
  request_ok : request → bool;
  fopen_ok : bool;
  behind : list Z;
}.

(** ** The configuration of a device *)

Definition netdev_setaddress (ok : request → bool) (d : netdev) : list request :=
  let set (a : Z) (r : request) (next : list request) :=
    if negb (a =? INADDR_ANY) then r :: (if ok r then next else []) else next in
  set (ip_addr d) (SIOCSIFADDR (ip_addr d))
    (set (ip_broadcast d) (SIOCSIFBRDADDR (ip_broadcast d))
       (set (ip_netmask d) (SIOCSIFNETMASK (ip_netmask d)) [])).

Definition netdev_setdefaultroute (d : netdev) : list request :=
  if ip_gateway d =? INADDR_ANY then [] else [SIOCADDRT (ip_gateway d)].

Definition configure_device (no : bool) (ok : request → bool) (d : netdev) : list request :=
  if no then []
  else [SIOCSIFMTU (mtu d)] ++ netdev_setaddress ok d ++ netdev_setdefaultroute d ++
       (if bool_decide (takewhile_nz (hostname d) = []) then [] else [Sethostname (takewhile_nz (hostname d))]).

(** [write_option]: the characters [!] and ['] are put between quotes. *)
Fixpoint escape (chr : list Z) : list Z :=
  match chr with
  | [] => []
  | c :: chr => (if (c =? 33) || (c =? 39) then [39; 92; c; 39] else [c]) ++ escape chr
  end.
Definition write_option (name chr : list Z) : list Z := name ++ [61; 39] ++ escape chr ++ [39; 10].

(** [my_inet_ntoa]: the text that [inet_ntoa] produces. *)
Definition my_inet_ntoa (a : Z) : list Z := dotted (cp a 0) (cp a 1) (cp a 2) (cp a 3).

(** The contents of the file.  [filename] is filled by a [memcpy] of all its
    128 bytes, so that its text may go on behind the array; the other arrays
    are always terminated. *)
Definition dump_file (behind : list Z) (d : netdev) : list Z :=
  write_option (text "DEVICE") (name d) ++
  write_option (text "IPV4ADDR") (my_inet_ntoa (ip_addr d)) ++
  write_option (text "IPV4BROADCAST") (my_inet_ntoa (ip_broadcast d)) ++
  write_option (text "IPV4NETMASK") (my_inet_ntoa (ip_netmask d)) ++
  write_option (text "IPV4GATEWAY") (my_inet_ntoa (ip_gateway d)) ++
  write_option (text "IPV4DNS0") (my_inet_ntoa (ns0 d)) ++
  write_option (text "IPV4DNS1") (my_inet_ntoa (ns1 d)) ++
  write_option (text "HOSTNAME") (takewhile_nz (hostname d)) ++
  write_option (text "DNSDOMAIN") (takewhile_nz (dnsdomainname d)) ++
  write_option (text "NISDOMAIN") (takewhile_nz (nisdomainname d)) ++
  write_option (text "ROOTSERVER") (my_inet_ntoa (ip_server d)) ++
  write_option (text "ROOTPATH") (takewhile_nz (bootpath d)) ++
  write_option (text "filename") (takewhile_nz (filename d ++ behind)).

(** [dump_device_config]: the file and its contents; the name is cut to 39
    bytes by [snprintf]. *)
Definition dump_device_config (ok : bool) (behind : list Z) (d : netdev) : list (list Z * list Z) :=
  if ok then [(take 39 (text "/tmp/net-" ++ name d ++ text ".conf"), dump_file behind d)] else [].

(** [ntohl] and [htonl] on a little-endian machine. *)
Definition bswap32 (v : Z) : Z := be (to_le 4 v).

Definition inet_class_netmask (ip : Z) : Z :=
  let ip := bswap32 ip in
  if Z.land ip 0x80000000 =? 0 then bswap32 0xff000000
  else if Z.land ip 0xc0000000 =? 0x80000000 then bswap32 0xffff0000
  else if Z.land ip 0xe0000000 =? 0xc0000000 then bswap32 0xffffff00
  else INADDR_ANY.

Definition postprocess_device (d : netdev) : netdev :=
  let d := if ip_netmask d =? INADDR_ANY then set_ip_netmask (inet_class_netmask (ip_addr d)) d else d in
  if ip_broadcast d =? INADDR_ANY
  then set_ip_broadcast (Z.lor (Z.land (ip_addr d) (ip_netmask d)) (u32 (Z.lnot (ip_netmask d)))) d else d.

Definition complete_device (e : env) (d : netdev) (g : globals) : netdev * globals :=
  let d := postprocess_device d in
  (d, mk_globals (ipudp_hdrs g) (cfg_local_port g) (cfg_remote_port g) (vendor_class_identifier g) (do_not_config g)
        (configured g + 1) (d :: ifaces g) (sent g)
        (requests g ++ configure_device (do_not_config g) (request_ok e) d)
        (files g ++ dump_device_config (fopen_ok e) (behind e) d)).

(** ** Events *)

(** The end of every send function: [packet_send] and its result. *)
Definition send (e : env) (iov : list (list Z)) (g : globals) : option (Z * globals) :=
  '(p, d) ← packet_send (cfg_local_port g) (cfg_remote_port g) (ipudp_hdrs g) iov;
  let g' := mk_globals p (cfg_local_port g) (cfg_remote_port g) (vendor_class_identifier g) (do_not_config g)
              (configured g) (ifaces g) (sent g ++ if sendmsg_ok e then [d] else []) (requests g) (files g) in
  Some (if sendmsg_ok e then Z.of_nat (length d) else -1, g').

Definition process_receive_event (e : env) (now : Z) (s : state) (g : globals) : option (Z * state * globals) :=
  let recv_dhcp d := dhcp_recv (cfg_local_port g) (cfg_remote_port g) (received e) d in
  if (state_ s =? DEVST_ERROR) || (state_ s =? DEVST_COMPLETE) then Some (0, s, g)
  else
    '(handled, s, g) ←
      (if state_ s =? DEVST_BOOTP then
         let s := set_restart DEVST_BOOTP s in
         '(r, d) ← bootp_recv_reply (cfg_local_port g) (cfg_remote_port g) (received e) (dev s);
         let s := set_dev d s in
         Some (if r =? -1 then (1, set_state DEVST_ERROR s, g)
               else if r =? 0 then (0, s, g)
               else if r =? 1 then (1, set_state DEVST_COMPLETE s, g)
               else (1, s, g))
       else if state_ s =? DEVST_DHCPDISC then
         let s := set_restart DEVST_DHCPDISC s in
         '(r, d) ← recv_dhcp (dev s);
         let s := set_dev d s in
         if r =? -1 then Some (1, set_state DEVST_ERROR s, g)
         else if r =? 0 then Some (0, s, g)
         else if r =? DHCPOFFER then
           let s := set_state DEVST_DHCPREQ s in
           '(_, g) ← send e (dhcp_send_request (dev s) (clock e) (vendor_class_identifier g)) g;
           Some (1, s, g)
         else Some (1, s, g)
       else if state_ s =? DEVST_DHCPREQ then
         let s := set_restart DEVST_DHCPDISC s in
         '(r, d) ← recv_dhcp (dev s);
         let s := set_dev d s in
         Some (if r =? -1 then (1, set_state DEVST_ERROR s, g)
               else if r =? 0 then (0, s, g)
               else if r =? DHCPACK then (1, set_state DEVST_COMPLETE s, g)
               else if r =? DHCPNAK then (1, set_state DEVST_DHCPDISC s, g)
               else (1, s, g))
       else Some (0, s, g));
    if state_ s =? DEVST_COMPLETE then
      let '(d, g) := complete_device e (dev s) g in Some (handled, set_dev d s, g)
    else if state_ s =? DEVST_ERROR then Some (handled, set_expire (now + 10) s, g)
    else Some (handled, s, g).

Definition IFF_RUNNING : Z := 0x40.
Definition netdev_running (e : env) : bool :=
  match getflags e with None => false | Some flags => negb (Z.land flags IFF_RUNNING =? 0) end.

Definition process_timeout_event (e : env) (now : Z) (s : state) (g : globals) : option (state * globals) :=
  if negb (netdev_running e) then Some (set_state (restart_state s) (set_expire (now + 1) s), g)
  else
    let s := if state_ s =? DEVST_ERROR then set_state (restart_state s) s else s in
    '(ret, s, g) ←
      (if state_ s =? DEVST_BOOTP then
         '(ret, g) ← send e (bootp_send_request (dev s) (clock e)) g;
         Some (ret, set_restart DEVST_BOOTP s, g)
       else if state_ s =? DEVST_DHCPDISC then
         let '(d, iov) := dhcp_send_discover (dev s) (clock e) (vendor_class_identifier g) in
         '(ret, g) ← send e iov g;
         Some (ret, set_restart DEVST_DHCPDISC (set_dev d s), g)
       else if state_ s =? DEVST_DHCPREQ then
         '(ret, g) ← send e (dhcp_send_request (dev s) (clock e) (vendor_class_identifier g)) g;
         Some (ret, set_restart DEVST_DHCPDISC s, g)
       else Some (0, s, g));
    Some (if ret =? -1 then set_expire (now + 10) (set_state DEVST_ERROR s)
          else
            let s := set_expire (now + retry_period s) s in
            let r := retry_period s * 2 in
            set_retry (if 60 <? r then 60 else r) s,
          g).

(** ** The main loop *)

(** [add_one_dev]: [junk] are the contents of the block from [malloc], [None]
    if there is none. *)
Definition add_one_dev (junk : option (Z * Z)) (now : Z) (d : netdev) (slist : list state) : Z * list state :=
  match junk with
  | None => (-1, slist)
  | Some (junk_state, junk_restart) =>
      let st :=
        if negb (Z.land (caps d) CAP_DHCP =? 0) && (ip_addr d =? INADDR_ANY) then Some DEVST_DHCPDISC
        else if negb (Z.land (caps d) CAP_DHCP =? 0) then Some DEVST_DHCPREQ
        else if negb (Z.land (caps d) CAP_BOOTP =? 0) then Some DEVST_BOOTP
        else None in
      (0, mk_state (default junk_state st) (default junk_restart st) now 1 d :: slist)
  end.

(** [do_pkt_recv]: [envs i] is what the kernel answers for the [i]-th device. *)
Fixpoint do_pkt_recv (envs : nat → env) (i : nat) (now : Z) (l : list state) (g : globals) : option (Z * list state * globals) :=
  match l with
  | [] => Some (0, [], g)
  | s :: l =>
      '(handled, s, g) ← process_receive_event (envs i) now s g;
      '(ret, l, g) ← do_pkt_recv envs (S i) now l g;
      Some (Z.lor handled ret, s :: l, g)
  end.

(** The first part of a round: the devices whose time has come. *)
Fixpoint scan_devices (envs : nat → env) (i : nat) (now : Z) (l : list state) (g : globals) (timeout pending done : Z) :
    option (list state * globals * Z * Z * Z) :=
  match l with
  | [] => Some ([], g, timeout, pending, done)
  | s :: l =>
      if state_ s =? DEVST_COMPLETE then
        '(l, g, timeout, pending, done) ← scan_devices envs (S i) now l g timeout pending (done + 1);
        Some (s :: l, g, timeout, pending, done)
      else
        '(s, g) ← (if expire s - now <=? 0 then process_timeout_event (envs i) now s g else Some (s, g));
        let timeout := if expire s - now <? timeout then s32 (expire s - now) else timeout in
        '(l, g, timeout, pending, done) ← scan_devices envs (S i) now l g timeout (pending + 1) done;
        Some (s :: l, g, timeout, pending, done)
  end.

(** One call of [poll], with the time after it and the answers during
    [do_pkt_recv]; one round of the loop has at most two. *)
Record poll_result := mk_poll { readable : bool; tv_sec : Z; tv_usec : Z; recv_envs : nat → env }.
Record round := mk_round { scan_envs : nat → env; polls : poll_result * poll_result }.

(** How the polls of a round end: time is up, or the next round begins. *)
Record waited := mk_waited { bail : bool; at_sec : Z; at_usec : Z; at_slist : list state; at_globals : globals; waits : list Z }.

Fixpoint poll_loop (loop_timeout start : Z) (ps : list poll_result) (timeout_ms sec usec : Z) (l : list state) (g : globals) (ws : list Z) :
    option waited :=
  match ps with
  | [] => Some (mk_waited false sec usec l g ws)
  | p :: ps =>
      let timeout_ms := if timeout_ms <=? 0 then 100 else timeout_ms in
      let ws := ws ++ [timeout_ms] in
      '(handled, l, g) ← (if readable p then do_pkt_recv (recv_envs p) 0 (tv_sec p) l g else Some (0, l, g));
      if handled =? 1 then Some (mk_waited false (tv_sec p) (tv_usec p) l g ws)
      else if (0 <=? loop_timeout) && (loop_timeout <=? tv_sec p - start) then Some (mk_waited true (tv_sec p) (tv_usec p) l g ws)
      else
        let delta_ms := s32 (s32 ((tv_sec p - sec) * 1000) + Z.quot (tv_usec p - usec) 1000) in
        poll_loop loop_timeout start ps (s32 (timeout_ms - delta_ms)) (tv_sec p) (tv_usec p) l g ws
  end.

(** [loop]: the result, the devices and globals, and the timeouts of the
    polls; [None] when the rounds are over and the loop still waits. *)
Fixpoint loop_rounds (bringup_first : bool) (loop_timeout start : Z) (rs : list round) (sec usec : Z) (l : list state) (g : globals) (ws : list Z) :
    option (Z * list state * globals * list Z) :=
  match rs with
  | [] => None
  | r :: rs =>
      '(l, g, timeout, pending, done) ← scan_devices (scan_envs r) 0 sec l g 60 0 0;
      if (pending =? 0) || (bringup_first && negb (done =? 0)) then Some (0, l, g, ws)
      else
        w ← poll_loop loop_timeout start [(polls r).1; (polls r).2] (timeout * 1000) sec usec l g ws;
        if bail w then Some (-1, at_slist w, at_globals w, waits w)
        else loop_rounds bringup_first loop_timeout start rs (at_sec w) (at_usec w) (at_slist w) (at_globals w) (waits w)
  end.

Definition loop (packet_open_ok bringup_first : bool) (loop_timeout sec usec : Z) (rs : list round) (l : list state) (g : globals) :=
  if negb packet_open_ok then Some (-1, l, g, []) else
  loop_rounds bringup_first loop_timeout sec rs sec usec l g [].

(** ** Well-formed devices *)

Definition active (st : Z) : Prop := st = DEVST_BOOTP ∨ st = DEVST_DHCPDISC ∨ st = DEVST_DHCPREQ.
Definition state_ok (s : state) : Prop :=
  (active (state_ s) ∨ state_ s = DEVST_COMPLETE ∨ state_ s = DEVST_ERROR) ∧ active (restart_state s) ∧ 1 <= retry_period s <= 60.

(** What a device receives, and the protocol: the state after a result of the
    receive function. *)
Definition recv (e : env) (g : globals) (s : state) : option (Z * netdev) :=
  if state_ s =? DEVST_BOOTP then bootp_recv_reply (cfg_local_port g) (cfg_remote_port g) (received e) (dev s)
  else dhcp_recv (cfg_local_port g) (cfg_remote_port g) (received e) (dev s).

Definition next_state (st r : Z) : Z :=
  if r =? -1 then DEVST_ERROR
  else if (st =? DEVST_BOOTP) && (r =? 1) then DEVST_COMPLETE
  else if (st =? DEVST_DHCPDISC) && (r =? DHCPOFFER) then DEVST_DHCPREQ
  else if (st =? DEVST_DHCPREQ) && (r =? DHCPACK) then DEVST_COMPLETE
  else if (st =? DEVST_DHCPREQ) && (r =? DHCPNAK) then DEVST_DHCPDISC
  else st.

(** The globals change by what is sent and by completed devices only. *)
Definition same_config (g g' : globals) : Prop :=
  cfg_local_port g' = cfg_local_port g ∧ cfg_remote_port g' = cfg_remote_port g ∧
  vendor_class_identifier g' = vendor_class_identifier g ∧ do_not_config g' = do_not_config g.

Lemma send_spec e iov g ret g' : send e iov g = Some (ret, g') →
  same_config g g' ∧ configured g' = configured g ∧ ifaces g' = ifaces g ∧ requests g' = requests g ∧ files g' = files g ∧
  (ret = -1 ↔ sendmsg_ok e = false) ∧
  ∃ p d, packet_send (cfg_local_port g) (cfg_remote_port g) (ipudp_hdrs g) iov = Some (p, d) ∧ ipudp_hdrs g' = p ∧
    sent g' = sent g ++ if sendmsg_ok e then [d] else [].
Proof.
  unfold send. intros ([p d] & E & [= <- <-])%bind_Some. split_and!; try done; [| by exists p, d].
  destruct (sendmsg_ok e); [split; [lia | done] | done].
Qed.

(** The event of an active device: the protocol's next state; the device with
    what it received, completed when the state is. *)
Record received_spec (e : env) (now : Z) (s : state) (g : globals) (h : Z) (s' : state) (g' : globals) (r : Z) (d : netdev) : Prop := {
  rs_recv : recv e g s = Some (r, d);
  rs_state : state_ s' = next_state (state_ s) r;
  rs_restart : restart_state s' = if state_ s =? DEVST_BOOTP then DEVST_BOOTP else DEVST_DHCPDISC;
  rs_retry : retry_period s' = retry_period s;
  rs_expire : expire s' = if state_ s' =? DEVST_ERROR then now + 10 else expire s;
  rs_dev : dev s' = if state_ s' =? DEVST_COMPLETE then postprocess_device d else d;
  rs_config : same_config g g';
  rs_ifaces : ifaces g' = (if state_ s' =? DEVST_COMPLETE then [dev s'] else []) ++ ifaces g;
  rs_configured : configured g' = configured g + if state_ s' =? DEVST_COMPLETE then 1 else 0;
  rs_handled : h = if r =? 0 then 0 else 1;
  rs_sent : if (state_ s =? DEVST_DHCPDISC) && (r =? DHCPOFFER)
            then ∃ ret, send e (dhcp_send_request d (clock e) (vendor_class_identifier g)) g = Some (ret, g')
            else sent g' = sent g;
}.

(** Comparisons of constants, and the fields of an updated state. *)
Ltac eqb_eval :=
  repeat match goal with
  | H : context [?a =? ?b] |- _ => let c := eval vm_compute in (a =? b) in lazymatch c with true => idtac | false => idtac end; change (a =? b) with c in H
  | |- context [?a =? ?b] => let c := eval vm_compute in (a =? b) in lazymatch c with true => idtac | false => idtac end; change (a =? b) with c
  end; cbn [orb andb negb] in *.
Ltac fields := cbn [state_ dev restart_state expire retry_period set_state set_dev set_restart set_expire set_retry mbind option_bind] in *.

Lemma receive_spec e now s g h s' g' : active (state_ s) → process_receive_event e now s g = Some (h, s', g') →
  ∃ r d, received_spec e now s g h s' g' r d.
Proof.
  destruct s as [st rst ex rt dv]. unfold process_receive_event. fields.
  intros [-> | [-> | ->]] H; eqb_eval; apply bind_Some in H as ([[h1 s1] g1] & H & H2); apply bind_Some in H as ([r d] & E & H); exists r, d.
  all: repeat lazymatch type of H with
    | (if ?r =? ?k then _ else _) = _ => destruct (Z.eqb_spec r k) as [-> | ?]
    | Some (if ?r =? ?k then _ else _) = _ => destruct (Z.eqb_spec r k) as [-> | ?]
    end.
  all: try (apply bind_Some in H as ([ret g2] & Es & H)).
  all: apply (inj Some) in H; injection H as <- <- <-; fields; eqb_eval; unfold complete_device in H2; apply (inj Some) in H2; injection H2 as <- <- <-.
  all: try (pose proof (send_spec _ _ _ _ _ Es) as (Hc & Hn & Hi & Hr & Hf & _)).
  all: split; fields; try done.
  all: unfold next_state; eqb_eval; rewrite ?(proj2 (Z.eqb_neq _ _)) by done; try done; try lia.
  by exists ret.
Qed.

(** The event of a device whose time has come. *)
Record timeout_spec (e : env) (now : Z) (s : state) (g : globals) (s' : state) (g' : globals) : Prop := {
  ts_config : same_config g g';
  ts_ifaces : ifaces g' = ifaces g;
  ts_down : netdev_running e = false → g' = g ∧ state_ s' = restart_state s ∧ restart_state s' = restart_state s ∧
    expire s' = now + 1 ∧ retry_period s' = retry_period s ∧ dev s' = dev s;
  ts_up : netdev_running e = true →
    let st := if state_ s =? DEVST_ERROR then restart_state s else state_ s in
    restart_state s' = (if st =? DEVST_BOOTP then DEVST_BOOTP else DEVST_DHCPDISC) ∧
    dev s' = (if st =? DEVST_DHCPDISC then set_ip_gateway INADDR_ANY (set_ip_addr INADDR_ANY (dev s)) else dev s) ∧
    (∃ ret, send e (if st =? DEVST_BOOTP then bootp_send_request (dev s') (clock e)
                    else if st =? DEVST_DHCPDISC then dhcp_send (dev s') (clock e) (vendor_class_identifier g) dhcp_discover_hdr
                    else dhcp_send_request (dev s') (clock e) (vendor_class_identifier g)) g = Some (ret, g')) ∧
    (if sendmsg_ok e
     then state_ s' = st ∧ expire s' = now + retry_period s ∧ retry_period s' = Z.min 60 (2 * retry_period s)
     else state_ s' = DEVST_ERROR ∧ expire s' = now + 10 ∧ retry_period s' = retry_period s);
}.

Lemma timeout_event_spec e now s g s' g' : active (state_ s) ∨ state_ s = DEVST_ERROR → active (restart_state s) →
  process_timeout_event e now s g = Some (s', g') → timeout_spec e now s g s' g'.
Proof.
  destruct s as [st rst ex rt dv]. unfold process_timeout_event. fields. intros Ha Hr H.
  destruct (netdev_running e) eqn:Hrun; cbn [negb] in H.
  2: { apply (inj Some) in H. injection H as <- <-. split; fields; [done | done | done | by rewrite Hrun]. }
  remember (if st =? DEVST_ERROR then rst else st) as st' eqn:Est.
  assert (active st') as Hst' by (subst st'; destruct (Z.eqb_spec st DEVST_ERROR); tauto).
  replace (if st =? DEVST_ERROR then set_state rst (mk_state st rst ex rt dv) else mk_state st rst ex rt dv) with (mk_state st' rst ex rt dv) in H
    by (subst st'; by destruct (st =? DEVST_ERROR)).
  fields. apply bind_Some in H as ([[ret s1] g1] & H & H2).
  destruct Hst' as [E | [E | E]]; rewrite E in H; eqb_eval; apply bind_Some in H as ([ret' g2] & Es & H);
    apply (inj Some) in H; injection H as <- <- <-; fields; apply (inj Some) in H2; injection H2 as <- <-;
    pose proof (send_spec _ _ _ _ _ Es) as (Hc & _ & Hi & _ & _ & Hret & _);
    (split; [done | done | by rewrite Hrun | intros _; fields; rewrite <- Est, E; eqb_eval]);
    (destruct (Z.eqb_spec ret' (-1)) as [Hm | Hm]; rewrite Hret in Hm; [rewrite Hm | apply not_false_is_true in Hm; rewrite Hm]);
    fields; (split_and!; [done | done | by exists ret' | done | done |]); try done; destruct (Z.ltb_spec 60 (rt * 2)); lia.
Qed.

(** ** Histories of a device *)

Inductive event := Receive (e : env) (now : Z) | Timeout (e : env) (now : Z).

(** The loop has no timeouts for a completed device. *)
Definition perform (ev : event) (s : state) (g : globals) : option (state * globals) :=
  match ev with
  | Receive e now => '(_, s, g) ← process_receive_event e now s g; Some (s, g)
  | Timeout e now => if state_ s =? DEVST_COMPLETE then Some (s, g) else process_timeout_event e now s g
  end.

Fixpoint run_events (evs : list event) (s : state) (g : globals) : option (state * globals) :=
  match evs with
  | [] => Some (s, g)
  | ev :: evs => '(s, g) ← perform ev s g; run_events evs s g
  end.

Lemma run_events_app evs1 evs2 : ∀ s g, run_events (evs1 ++ evs2) s g = '(s, g) ← run_events evs1 s g; run_events evs2 s g.
Proof.
  induction evs1 as [| ev evs1 IH]; intros s g; [done |]. simpl. destruct (perform ev s g) as [[s1 g1] |]; [| done]. simpl. apply IH.
Qed.

Lemma run_events_snoc evs ev s g s' g' : run_events (evs ++ [ev]) s g = Some (s', g') →
  ∃ s1 g1, run_events evs s g = Some (s1, g1) ∧ perform ev s1 g1 = Some (s', g').
Proof.
  rewrite run_events_app. intros ([s1 g1] & E & H)%bind_Some. exists s1, g1. split; [done |]. simpl in H.
  apply bind_Some in H as ([s2 g2] & H & [= <- <-]). done.
Qed.

Lemma receive_idle e now s g : ¬ active (state_ s) → state_ s = DEVST_COMPLETE ∨ state_ s = DEVST_ERROR →
  process_receive_event e now s g = Some (0, s, g).
Proof. intros _ [E | E]; unfold process_receive_event; by rewrite E. Qed.

Lemma active_not s : active s → s ≠ DEVST_COMPLETE ∧ s ≠ DEVST_ERROR.
Proof. by intros [-> | [-> | ->]]. Qed.

Lemma next_state_cases st r : active st → active (next_state st r) ∨ next_state st r = DEVST_COMPLETE ∨ next_state st r = DEVST_ERROR.
Proof.
  intros Ha. unfold next_state. destruct (r =? -1); [by right; right |].
  destruct (_ && (r =? 1)); [by right; left |]. destruct (_ && (r =? DHCPOFFER)); [left; by right; right |].
  destruct (_ && (r =? DHCPACK)); [by right; left |]. destruct (_ && (r =? DHCPNAK)); [left; by right; left |]. by left.
Qed.

Lemma perform_ok ev s g s' g' : state_ok s → perform ev s g = Some (s', g') → state_ok s'.
Proof.
  intros Hok H. pose proof Hok as (Hs & Hr & Hp). destruct ev as [e now | e now]; simpl in H.
  - apply bind_Some in H as ([[h s1] g1] & H & E). apply (inj Some) in E. injection E as -> ->.
    destruct Hs as [Ha | Hs].
    2: { rewrite receive_idle in H; [by simplify_eq | intros [? ?]%active_not; naive_solver | done]. }
    destruct (receive_spec e now s g h s' g' Ha H) as (r & d & []). split_and!.
    + rewrite rs_state0. by apply next_state_cases.
    + rewrite rs_restart0. by destruct (_ =? _); [left | right; left].
    + lia.
    + lia.
  - destruct (Z.eqb_spec (state_ s) DEVST_COMPLETE) as [E | E]; [by simplify_eq |].
    assert (active (state_ s) ∨ state_ s = DEVST_ERROR) as Hs' by tauto.
    destruct (timeout_event_spec e now s g s' g' Hs' Hr H) as [_ _ Hdown Hup].
    destruct (netdev_running e).
    + destruct (Hup eq_refl) as (Hr' & _ & _ & Hst). split_and!.
      * destruct (sendmsg_ok e); destruct Hst as (-> & _ & _); [| tauto]. left. by destruct (Z.eqb_spec (state_ s) DEVST_ERROR); [| tauto].
      * rewrite Hr'. by destruct (_ =? DEVST_BOOTP); [left | right; left].
      * destruct (sendmsg_ok e); destruct Hst as (_ & _ & ->); lia.
      * destruct (sendmsg_ok e); destruct Hst as (_ & _ & ->); lia.
    + destruct (Hdown eq_refl) as (_ & Hst & Hrs & _ & Hrt & _). unfold state_ok. rewrite Hst, Hrs, Hrt. tauto.
Qed.

Lemma perform_complete ev s g : state_ s = DEVST_COMPLETE → perform ev s g = Some (s, g).
Proof.
  intros E. destruct ev as [e now | e now]; simpl; [rewrite receive_idle; [done | intros [? ?]%active_not; done | by left] | by rewrite E].
Qed.

Lemma run_events_ok evs : ∀ s g s' g', state_ok s → run_events evs s g = Some (s', g') → state_ok s'.
Proof.
  induction evs as [| ev evs IH]; intros s g s' g' Hok H; simpl in H; [by simplify_eq |].
  apply bind_Some in H as ([s1 g1] & H1 & H). eapply IH; [by eapply perform_ok | done].
Qed.

Lemma add_one_dev_ok junk now d s : Z.land (caps d) (Z.lor CAP_DHCP CAP_BOOTP) ≠ 0 →
  add_one_dev (Some junk) now d [] = (0, [s]) → state_ok s ∧ dev s = d ∧ retry_period s = 1 ∧ expire s = now ∧ state_ s = restart_state s ∧ active (state_ s).
Proof.
  intros Hcaps H. destruct junk as [j1 j2]. simpl in H.
  rewrite Z.land_lor_distr_r in Hcaps.
  destruct (Z.eqb_spec (Z.land (caps d) CAP_DHCP) 0) as [E1 | E1], (Z.eqb_spec (Z.land (caps d) CAP_BOOTP) 0) as [E2 | E2], (ip_addr d =? INADDR_ANY);
    try (by rewrite E1, E2 in Hcaps); simpl in H; injection H as <-; unfold state_ok, active; simpl; split_and!; (lia || tauto).
Qed.

(** C35.  The state machine of a device stays well formed and never leaves
    completion: for a device that can use DHCP or BOOTP, whatever packets
    arrive and however often its time comes, its state is one of the five of
    the protocol, the state to restart from is one that sends a packet, and
    the retry period is between 1 and 60 seconds; once it is complete, later
    events change neither the device nor the globals. *)
Theorem device_invariant junk now d s evs g s' g' :
  Z.land (caps d) (Z.lor CAP_DHCP CAP_BOOTP) ≠ 0 →
  add_one_dev (Some junk) now d [] = (0, [s]) → run_events evs s g = Some (s', g') →
  state_ok s' ∧ (state_ s' = DEVST_COMPLETE → ∀ evs', run_events evs' s' g' = Some (s', g')).
Proof.
  intros Hcaps Hadd Hrun. split.
  - eapply run_events_ok; [by eapply (add_one_dev_ok junk now d) | done].
  - intros Hc evs'. induction evs' as [| ev evs' IH]; [done |]. simpl. by rewrite perform_complete.
Qed.

(** ** Safety *)

(** The packet of event [e] is, for the device [d], a DHCP message of the type
    from a server, and makes the device [d']. *)
Definition delivers (g : globals) (e : env) (d : netdev) (type : Z) (d' : netdev) : Prop :=
  genuine (cfg_local_port g) (cfg_remote_port g) (received e) d type d'.

(** An offer at some point of a history, and an acknowledgement after it. *)
Definition offered (s0 : state) (g0 : globals) (evs : list event) : Prop :=
  ∃ evs1 e now evs2 s1 g1 d, evs = evs1 ++ Receive e now :: evs2 ∧ run_events evs1 s0 g0 = Some (s1, g1) ∧
    state_ s1 = DEVST_DHCPDISC ∧ identity (dev s1) = identity (dev s0) ∧ delivers g1 e (dev s1) DHCPOFFER d.

Definition acknowledged (s0 : state) (g0 : globals) (evs : list event) (final : netdev) : Prop :=
  ∃ evs1 e now evs2 s1 g1 d, evs = evs1 ++ Receive e now :: evs2 ∧ run_events evs1 s0 g0 = Some (s1, g1) ∧
    offered s0 g0 evs1 ∧ state_ s1 = DEVST_DHCPREQ ∧ identity (dev s1) = identity (dev s0) ∧
    delivers g1 e (dev s1) DHCPACK d ∧ final = postprocess_device d.

Lemma offered_snoc s0 g0 evs ev : offered s0 g0 evs → offered s0 g0 (evs ++ [ev]).
Proof.
  intros (evs1 & e & now & evs2 & s1 & g1 & d & -> & H). exists evs1, e, now, (evs2 ++ [ev]), s1, g1, d.
  split; [by rewrite <- app_assoc | done].
Qed.

Lemma acknowledged_snoc s0 g0 evs ev d : acknowledged s0 g0 evs d → acknowledged s0 g0 (evs ++ [ev]) d.
Proof.
  intros (evs1 & e & now & evs2 & s1 & g1 & d1 & -> & H). exists evs1, e, now, (evs2 ++ [ev]), s1, g1, d1.
  split; [by rewrite <- app_assoc | done].
Qed.

Lemma identity_postprocess d : identity (postprocess_device d) = identity d.
Proof. unfold postprocess_device. repeat case_match; done. Qed.

Lemma perform_identity ev s g s' g' : state_ok s → perform ev s g = Some (s', g') → identity (dev s') = identity (dev s).
Proof.
  intros (Hs & Hr & Hp) H. destruct ev as [e now | e now]; simpl in H.
  - apply bind_Some in H as ([[h s1] g1] & H & E). apply (inj Some) in E. injection E as -> ->.
    destruct Hs as [Ha | Hs].
    2: { rewrite receive_idle in H; [by simplify_eq | intros [? ?]%active_not; naive_solver | done]. }
    destruct (receive_spec e now s g h s' g' Ha H) as (r & d & []). rewrite rs_dev0.
    trans (identity d); [destruct (state_ s' =? DEVST_COMPLETE); [apply identity_postprocess | done] |].
    unfold recv in rs_recv0. destruct (state_ s =? DEVST_BOOTP); [by eapply bootp_recv_identity | by eapply dhcp_recv_identity].
  - destruct (Z.eqb_spec (state_ s) DEVST_COMPLETE) as [E | E]; [by simplify_eq |].
    assert (active (state_ s) ∨ state_ s = DEVST_ERROR) as Hs' by tauto.
    destruct (timeout_event_spec e now s g s' g' Hs' Hr H) as [_ _ Hdown Hup]. destruct (netdev_running e).
    + destruct (Hup eq_refl) as (_ & -> & _). by destruct ((if state_ s =? DEVST_ERROR then _ else _) =? DEVST_DHCPDISC).
    + by destruct (Hdown eq_refl) as (_ & _ & _ & _ & _ & ->).
Qed.

(** The invariant of a device that began with DHCP and without an address. *)
Record dhcp_history (s0 : state) (g0 : globals) (evs : list event) (s : state) : Prop := {
  dh_ok : state_ok s;
  dh_restart : restart_state s = DEVST_DHCPDISC;
  dh_state : state_ s ≠ DEVST_BOOTP;
  dh_identity : identity (dev s) = identity (dev s0);
  dh_offer : state_ s = DEVST_DHCPREQ → offered s0 g0 evs;
  dh_ack : state_ s = DEVST_COMPLETE → acknowledged s0 g0 evs (dev s);
}.

Lemma dhcp_history_receive s0 g0 evs s g e now s' g' :
  dhcp_history s0 g0 evs s → run_events evs s0 g0 = Some (s, g) → perform (Receive e now) s g = Some (s', g') →
  dhcp_history s0 g0 (evs ++ [Receive e now]) s'.
Proof.
  intros [Hok Hr Hs Hi Ho Ha] Hrun H. pose proof (perform_ok _ _ _ _ _ Hok H) as Hok'. pose proof (perform_identity _ _ _ _ _ Hok H) as Hi'.
  assert (active (state_ s) ∨ (state_ s = DEVST_COMPLETE ∨ state_ s = DEVST_ERROR)) as [Hact | Hidle] by apply Hok.
  2: { simpl in H. rewrite receive_idle in H; [| intros [? ?]%active_not; naive_solver | done]. simpl in H. apply (inj Some) in H. injection H as <- <-.
       split; try done; [intros; by apply offered_snoc, Ho | intros; by apply acknowledged_snoc, Ha]. }
  simpl in H. apply bind_Some in H as ([[h s1] g1] & H & E). apply (inj Some) in E. injection E as -> ->.
  destruct (receive_spec e now s g h s' g' Hact H) as (r & d & []).
  assert (state_ s = DEVST_DHCPDISC ∨ state_ s = DEVST_DHCPREQ) as Hst by (destruct Hact as [| []]; tauto).
  unfold recv in rs_recv0. rewrite (proj2 (Z.eqb_neq _ _) Hs) in rs_recv0, rs_restart0.
  assert (0 < r → delivers g e (dev s) r d) as Hgen by (intros; by apply dhcp_recv_genuine).
  split; [done | done | | by rewrite Hi' | |].
  - rewrite rs_state0. unfold next_state. destruct Hst as [-> | ->]; eqb_eval; by repeat case_match.
  - rewrite rs_state0. unfold next_state. destruct Hst as [E | E]; rewrite E; eqb_eval.
    + destruct (r =? -1); [done |]. destruct (Z.eqb_spec r DHCPOFFER) as [-> |]; [| done]. intros _.
      exists evs, e, now, [], s, g, d. by split_and!; [| | | | apply Hgen].
    + intros _. by apply offered_snoc, Ho.
  - rewrite rs_state0. intros Hc. unfold next_state in Hc. destruct Hst as [E | E]; rewrite E in Hc; eqb_eval.
    { by destruct (r =? -1), (r =? DHCPOFFER). }
    destruct (r =? -1); [done |]. destruct (Z.eqb_spec r DHCPACK) as [-> |]; [| by destruct (r =? DHCPNAK)].
    exists evs, e, now, [], s, g, d. split_and!; [done | done | by apply Ho | done | done | by apply Hgen |].
    rewrite rs_dev0, rs_state0. unfold next_state. by rewrite E.
Qed.

Lemma dhcp_history_timeout s0 g0 evs s g e now s' g' :
  dhcp_history s0 g0 evs s → perform (Timeout e now) s g = Some (s', g') → dhcp_history s0 g0 (evs ++ [Timeout e now]) s'.
Proof.
  intros [Hok Hr Hs Hi Ho Ha] H. pose proof (perform_ok _ _ _ _ _ Hok H) as Hok'. pose proof (perform_identity _ _ _ _ _ Hok H) as Hi'.
  simpl in H. destruct (Z.eqb_spec (state_ s) DEVST_COMPLETE) as [E | E].
  { apply (inj Some) in H. injection H as <- <-. split; try done; [intros; by apply offered_snoc, Ho | intros; by apply acknowledged_snoc, Ha]. }
  assert (active (state_ s) ∨ state_ s = DEVST_ERROR) as Hs' by (destruct Hok as (? & _); tauto).
  destruct (timeout_event_spec e now s g s' g' Hs' (proj1 (proj2 Hok)) H) as [_ _ Hdown Hup].
  assert (restart_state s' = DEVST_DHCPDISC ∧ (state_ s' = DEVST_DHCPDISC ∨ state_ s' = DEVST_ERROR ∨ (state_ s' = state_ s ∧ state_ s = DEVST_DHCPREQ))) as [Hr' Hst'].
  { destruct (netdev_running e).
    - destruct (Hup eq_refl) as (Hrs & _ & _ & Hst). rewrite Hr in *.
      assert ((if state_ s =? DEVST_ERROR then DEVST_DHCPDISC else state_ s) ≠ DEVST_BOOTP) as Hne by by destruct (_ =? _).
      rewrite (proj2 (Z.eqb_neq _ _) Hne) in Hrs. split; [done |].
      destruct (sendmsg_ok e); destruct Hst as (-> & _ & _); [| tauto].
      destruct (Z.eqb_spec (state_ s) DEVST_ERROR); [by left |]. destruct Hs' as [[|[|]]|]; tauto.
    - destruct (Hdown eq_refl) as (_ & -> & -> & _). rewrite Hr. tauto. }
  split; [done | done | | by rewrite Hi' | |].
  - destruct Hst' as [-> | [-> | [-> ->]]]; done.
  - destruct Hst' as [-> | [-> | [-> Er]]]; [done | done |]. intros _. by apply offered_snoc, Ho.
  - destruct Hst' as [-> | [-> | [-> ->]]]; done.
Qed.

Lemma dhcp_history_run s0 g0 evs : state_ok s0 → state_ s0 = DEVST_DHCPDISC → restart_state s0 = DEVST_DHCPDISC →
  ∀ s g, run_events evs s0 g0 = Some (s, g) → dhcp_history s0 g0 evs s.
Proof.
  intros Hok Hst Hr. induction evs as [| ev evs IH] using rev_ind; intros s g H.
  { apply (inj Some) in H. injection H as <- <-. split; rewrite ?Hst; done. }
  apply run_events_snoc in H as (s1 & g1 & Hrun & H). specialize (IH _ _ Hrun). destruct ev as [e now | e now].
  - by eapply dhcp_history_receive.
  - by eapply dhcp_history_timeout.
Qed.

(** C12.  No device is configured by DHCP without a server's consent: if a
    device that began with DHCP and no address is complete, its history holds
    a packet that was a DHCPOFFER and, later, one that was a DHCPACK, each a
    reply carrying the transaction identifier and the hardware address of the
    device, the second received while the device was requesting; and the
    configuration is the one that acknowledgement gave. *)
Theorem dhcp_safety junk now d s0 g0 evs s g :
  Z.land (caps d) CAP_DHCP ≠ 0 → ip_addr d = INADDR_ANY → add_one_dev (Some junk) now d [] = (0, [s0]) →
  run_events evs s0 g0 = Some (s, g) → state_ s = DEVST_COMPLETE → acknowledged s0 g0 evs (dev s).
Proof.
  intros Hcaps Hip Hadd Hrun Hc. destruct junk as [j1 j2]. simpl in Hadd. rewrite (proj2 (Z.eqb_neq _ _) Hcaps), (proj2 (Z.eqb_eq _ _) Hip) in Hadd.
  simpl in Hadd. injection Hadd as Es. eapply dh_ack; [| done]. eapply dhcp_history_run; [| | | done]; subst s0; try done.
  split_and!; [left; by right; left | by right; left | done | done].
Qed.

(** ** Liveness *)

Lemma send_total e iov g : ∃ ret g', send e iov g = Some (ret, g').
Proof.
  unfold send, packet_send. destruct (iphdr_verifies (28 + Z.of_nat (length (concat iov)))) as (c & E & _). rewrite E. by eexists _, _.
Qed.

Lemma timeout_total e now s g : ∃ s' g', process_timeout_event e now s g = Some (s', g').
Proof.
  unfold process_timeout_event. destruct (negb _); [by eexists _, _ |]. cbv zeta.
  destruct (_ =? DEVST_BOOTP).
  { destruct (send_total e (bootp_send_request (dev (if state_ s =? DEVST_ERROR then set_state (restart_state s) s else s)) (clock e)) g)
      as (ret & g' & ->). by eexists _, _. }
  destruct (_ =? DEVST_DHCPDISC).
  { destruct (dhcp_send_discover _ _ _) as [d iov]. destruct (send_total e iov g) as (ret & g' & ->). by eexists _, _. }
  destruct (_ =? DEVST_DHCPREQ); [| by eexists _, _].
  destruct (send_total e (dhcp_send_request (dev (if state_ s =? DEVST_ERROR then set_state (restart_state s) s else s)) (clock e) (vendor_class_identifier g)) g)
    as (ret & g' & ->). by eexists _, _.
Qed.

Lemma receive_total e now s g r d : active (state_ s) → recv e g s = Some (r, d) →
  ∃ h s' g', process_receive_event e now s g = Some (h, s', g').
Proof.
  destruct s as [st rst ex rt dv]. unfold recv, process_receive_event. fields. intros [-> | [-> | ->]]; eqb_eval; intros E; fields; rewrite E; fields.
  2: destruct (send_total e (dhcp_send_request d (clock e) (vendor_class_identifier g)) g) as (ret & g' & Es).
  all: repeat case_match; fields; rewrite ?Es; fields; by eexists _, _, _.
Qed.

(** A server's answer arrives in event [e]: well-formed options after a header
    for the device, sent to the port of the client. *)
Record answers (g : globals) (e : env) (d : netdev) (h : list Z) (l : list item) : Prop := {
  an_buffers : buffers_ok (received e) 1500;
  an_hdr : reply_hdr d h;
  an_items : Forall dhcp_item_ok l;
  an_packet : ∃ k cl cr p p' dgram, (length (reply_options l k) < 1500)%nat ∧
    in_u 16 cl ∧ in_u 16 cr ∧ in_u 16 (source p) ∧ in_u 16 (dest p) ∧
    packet_send cl cr p [h; reply_options l k] = Some (p', dgram) ∧ dest p' = cfg_local_port g ∧ source p' = cfg_remote_port g ∧
    peek (received e) = Some dgram ∧ msg (received e) = Some dgram;
}.

Lemma reply_hdr_identity d d' h : identity d' = identity d → reply_hdr d h → reply_hdr d' h.
Proof. unfold identity, reply_hdr. intros [= _ _ _ -> _ _ -> _]. done. Qed.

Lemma answers_recv g e d h l s : answers g e d h l → identity (dev s) = identity d → state_ s ≠ DEVST_BOOTP →
  recv e g s = Some (dhcp_result (dev s) h l).
Proof.
  intros [Hb Hh Hl (k & cl & cr & p & p' & dgram & Hlen & Hcl & Hcr & Hs & Hd & E & Ed & Es & Hp & Hm)] Hi Hst.
  unfold recv. rewrite (proj2 (Z.eqb_neq _ _) Hst).
  destruct (dhcp_reply_run cl cr p (received e) (dev s) h l k) as (p2 & d2 & E2 & H); [done | by eapply reply_hdr_identity | done..|].
  rewrite E2 in E. apply (inj Some) in E. injection E as -> ->. rewrite <- Ed, <- Es. by apply H.
Qed.

Lemma ip_addr_items l : ∀ d, ip_addr (foldl item_effect d l) = ip_addr d.
Proof.
  induction l as [| i l IH]; intros d; [done |]. simpl. rewrite IH. destruct i as [| t o]; [done |].
  unfold item_effect, option_effect, string_effect. repeat case_match; done.
Qed.

Lemma ip_addr_postprocess d : ip_addr (postprocess_device d) = ip_addr d.
Proof. unfold postprocess_device. repeat case_match; done. Qed.

Lemma dhcp_result_type d h l t : message_type l = t → t = DHCPOFFER ∨ t = DHCPACK →
  ∃ d', dhcp_result d h l = (t, d') ∧ identity d' = identity d ∧
    (t = DHCPACK → d' = foldl item_effect (bootp_defaults d h) l).
Proof.
  intros E Ht. unfold dhcp_result. rewrite E.
  assert (∀ l d, identity (foldl item_effect d l) = identity d) as Hid.
  { clear. induction l as [| i l IH]; intros d; [done |]. simpl. rewrite IH. destruct i as [| t o]; [done |].
    unfold item_effect, option_effect, string_effect. repeat case_match; done. }
  destruct Ht as [-> | ->]; eqb_eval; (eexists; split; [done |]; split; [| done]).
  - destruct (server_identifier l =? INADDR_NONE); [by rewrite Hid |]. trans (identity (foldl item_effect (bootp_defaults d h) l)); [done | by rewrite Hid].
  - by rewrite Hid.
Qed.

Lemma run_events_cons ev evs s g s1 g1 : perform ev s g = Some (s1, g1) → run_events (ev :: evs) s g = run_events evs s1 g1.
Proof. intros E. simpl. by rewrite E. Qed.

(** [p] carries a message of device [d] to the servers: behind the 28 bytes of
    the IP and UDP headers a BOOTP request with the transaction number and the
    hardware address of the device, and the options, which begin with [l]. *)
Definition dhcp_message (d : netdev) (l : list item) (p : list Z) : Prop :=
  let m := drop 28 p in
  op m = BOOTP_REQUEST ∧ field m 4 4 = to_le 4 (xid d) ∧ chaddr m = hwaddr d ∧ ∃ rest, drop 236 m = packet_options l rest.

(** What a device asks for when it looks for a server, and when it takes up
    the offer of the address [a] by the server [sid]. *)
Definition discover_items : list item := [Opt 53 [1]; Opt 55 dhcp_params].
Definition request_items (sid a : Z) : list item := [Opt 53 [3]; Opt 54 (to_le 4 sid); Opt 50 (to_le 4 a); Opt 55 dhcp_params].

Lemma packet_send_payload cl cr pp iov p dg : packet_send cl cr pp iov = Some (p, dg) → drop 28 dg = concat iov.
Proof.
  unfold packet_send. cbv zeta. generalize (concat iov). intros payload (c & _ & H)%bind_Some. injection H as _ <-.
  reflexivity.
Qed.

Lemma dhcp_message_sent d d' now vendor hdr l cl cr pp p dg :
  hdr ++ dhcp_params = packet_options l [] → length (hwaddr d) = 16%nat → identity d' = identity d →
  packet_send cl cr pp (dhcp_send d' now vendor hdr) = Some (p, dg) → dhcp_message d l dg.
Proof.
  intros Hl Hw Hi Hp%packet_send_payload. unfold identity in Hi. injection Hi as _ _ _ Ea _ _ Ex _.
  unfold dhcp_message. cbv zeta. rewrite Hp. unfold dhcp_send. rewrite Ea, Ex. cbn [app concat].
  set (m := bootp_hdr _ _ _ _ _ _ _). generalize (concat ((if 2 <? Z.of_nat (length vendor) then [vendor] else []) ++
    (if bool_decide (takewhile_nz (reqhostname d') = []) then [] else [12 :: u8 (Z.of_nat (length (takewhile_nz (reqhostname d')))) :: takewhile_nz (reqhostname d')]) ++ [dhcp_end])).
  intros tl. assert (length m = 236%nat) as Hm by (unfold m, bootp_hdr; rewrite !length_app, !length_replicate, Hw; done).
  rewrite (drop_app_length' m) by done. split_and!; [done | done | |].
  - unfold chaddr, field, m, bootp_hdr. simpl. rewrite <- app_assoc. by apply take_app_length'.
  - exists tl. rewrite app_assoc, Hl. unfold packet_options. by rewrite app_nil_r, <- !app_assoc.
Qed.

Lemma serverid_items l : ∀ d, serverid (foldl item_effect d l) = serverid d.
Proof.
  induction l as [| i l IH]; intros d; [done |]. simpl. rewrite IH. destruct i as [| t o]; [done |].
  unfold item_effect, option_effect, string_effect. repeat case_match; done.
Qed.

(** The device after a discovery, and the server it takes the offer of. *)
Definition cleared (d : netdev) : netdev := set_ip_gateway INADDR_ANY (set_ip_addr INADDR_ANY d).
Definition offering (d : netdev) (l : list item) : Z :=
  if server_identifier l =? INADDR_NONE then serverid d else server_identifier l.

Lemma offer_result d h l : message_type l = DHCPOFFER →
  serverid (dhcp_result d h l).2 = offering d l ∧ ip_addr (dhcp_result d h l).2 = yiaddr h.
Proof.
  intros E. unfold dhcp_result, offering. rewrite E. eqb_eval. cbn [snd].
  destruct (server_identifier l =? INADDR_NONE); cbn [set_serverid serverid ip_addr];
    rewrite ?serverid_items, ?ip_addr_items; done.
Qed.

Lemma answers_hwaddr g e d h l : answers g e d h l → length (hwaddr d) = 16%nat.
Proof. intros [_ (Hl & _ & _ & <-) _ _]. unfold chaddr, field. rewrite length_take, length_drop. lia. Qed.

(** The three steps of a successful exchange. *)
Lemma discover_step e now s g : state_ s = DEVST_DHCPDISC → restart_state s = DEVST_DHCPDISC → netdev_running e = true → sendmsg_ok e = true →
  length (hwaddr (dev s)) = 16%nat →
  ∃ s' g' p, perform (Timeout e now) s g = Some (s', g') ∧ state_ s' = DEVST_DHCPDISC ∧ dev s' = cleared (dev s) ∧
    same_config g g' ∧ ifaces g' = ifaces g ∧ sent g' = sent g ++ [p] ∧ dhcp_message (dev s) discover_items p.
Proof.
  intros Hst Hr Hrun Hsend Hw. simpl. rewrite Hst. eqb_eval. destruct (timeout_total e now s g) as (s' & g' & H).
  destruct (timeout_event_spec e now s g s' g') as [Hc Hi _ Hup]; [left; rewrite Hst; by right; left | rewrite Hr; by right; left | done |].
  destruct (Hup Hrun) as (_ & Hd & (ret & Es) & Hst'). rewrite Hsend, Hst in Hst'. rewrite Hst in Hd, Es. eqb_eval.
  destruct Hst' as (Hs' & _ & _). apply send_spec in Es as (_ & _ & _ & _ & _ & _ & p & dg & Ep & _ & Hsent).
  exists s', g', dg. rewrite Hsend in Hsent. split_and!; try done.
  eapply dhcp_message_sent; [| done | | exact Ep]; [done | by rewrite Hd].
Qed.

Lemma offer_step e now s g d h l : state_ s = DEVST_DHCPDISC → identity (dev s) = identity d → answers g e d h l →
  message_type l = DHCPOFFER → sendmsg_ok e = true →
  ∃ s' g' p, perform (Receive e now) s g = Some (s', g') ∧ state_ s' = DEVST_DHCPREQ ∧ dev s' = (dhcp_result (dev s) h l).2 ∧
    identity (dev s') = identity d ∧ same_config g g' ∧ ifaces g' = ifaces g ∧ sent g' = sent g ++ [p] ∧
    dhcp_message d (request_items (offering (dev s) l) (yiaddr h)) p.
Proof.
  intros Hst Hi Ha Ht Hsend. assert (active (state_ s)) as Hact by (rewrite Hst; by right; left).
  pose proof (answers_recv g e d h l s Ha Hi ltac:(by rewrite Hst)) as Hrecv.
  destruct (dhcp_result_type (dev s) h l _ Ht (or_introl eq_refl)) as (d' & Er & Hid & _). rewrite Er in Hrecv.
  destruct (receive_total e now s g _ _ Hact Hrecv) as (hd & s' & g' & H).
  destruct (receive_spec e now s g hd s' g' Hact H) as (r & d1 & []). rewrite Hrecv in rs_recv0. apply (inj Some) in rs_recv0. injection rs_recv0 as <- <-.
  assert (state_ s' = DEVST_DHCPREQ) as Hst' by (rewrite rs_state0, Hst; done).
  rewrite Hst' in *. rewrite Hst in *. eqb_eval. destruct rs_sent0 as [ret Es].
  apply send_spec in Es as (_ & _ & _ & _ & _ & _ & p & dg & Ep & _ & Hsent). rewrite Hsend in Hsent.
  destruct (offer_result (dev s) h l Ht) as [Hsid Hip]. rewrite Er in Hsid, Hip. cbn [snd] in Hsid, Hip.
  exists s', g', dg. split; [simpl; by rewrite H |]. split_and!; try done; [by rewrite rs_dev0, Er | by rewrite rs_dev0, Hid |].
  rewrite <- Hsid, <- Hip. eapply dhcp_message_sent; [| by eapply answers_hwaddr | | exact Ep]; [done | by rewrite Hid].
Qed.

Lemma ack_step e now s g d h l : state_ s = DEVST_DHCPREQ → identity (dev s) = identity d → answers g e d h l → message_type l = DHCPACK →
  ∃ s' g', perform (Receive e now) s g = Some (s', g') ∧ state_ s' = DEVST_COMPLETE ∧
    dev s' = postprocess_device (foldl item_effect (bootp_defaults (dev s) h) l) ∧ ifaces g' = dev s' :: ifaces g ∧
    configured g' = configured g + 1 ∧ sent g' = sent g.
Proof.
  intros Hst Hi Ha Ht. assert (active (state_ s)) as Hact by (rewrite Hst; by right; right).
  pose proof (answers_recv g e d h l s Ha Hi ltac:(by rewrite Hst)) as Hrecv.
  destruct (dhcp_result_type (dev s) h l _ Ht (or_intror eq_refl)) as (d' & Er & _ & Hd'). rewrite Er in Hrecv.
  destruct (receive_total e now s g _ _ Hact Hrecv) as (hd & s' & g' & H).
  destruct (receive_spec e now s g hd s' g' Hact H) as (r & d1 & []). rewrite Hrecv in rs_recv0. apply (inj Some) in rs_recv0. injection rs_recv0 as <- <-.
  assert (state_ s' = DEVST_COMPLETE) as Hst' by (rewrite rs_state0, Hst; done).
  rewrite Hst' in *. rewrite Hst in *. eqb_eval. exists s', g'. split; [simpl; by rewrite H |].
  rewrite <- Hd' by done. split_and!; [done | done | done | done | done].
Qed.

Lemma answers_config g g' e d h l : same_config g g' → answers g e d h l → answers g' e d h l.
Proof.
  intros (H1 & H2 & _) [Hb Hh Hl (k & cl & cr & p & p' & dgram & ? & ? & ? & ? & ? & ? & ? & ? & ?)]. split; [done | done | done |].
  exists k, cl, cr, p, p', dgram. rewrite H1, H2. done.
Qed.

(** C13.  A device whose server answers is configured: from the discovery
    state, when its time comes, the link is up and packets can be sent, a well
    formed DHCPOFFER and then a DHCPACK for it complete it.  It sends exactly
    two packets with its transaction number and hardware address: a
    DHCPDISCOVER, and a DHCPREQUEST for the address and to the server of the
    offer.  It ends with the address the acknowledgement assigns and its
    options on top of the offer's, and is added to the configured
    interfaces. *)
Theorem dhcp_liveness s g e0 t0 e1 t1 e2 t2 h1 l1 h2 l2 :
  state_ s = DEVST_DHCPDISC → restart_state s = DEVST_DHCPDISC → netdev_running e0 = true → sendmsg_ok e0 = true → sendmsg_ok e1 = true →
  answers g e1 (dev s) h1 l1 → message_type l1 = DHCPOFFER → answers g e2 (dev s) h2 l2 → message_type l2 = DHCPACK →
  let d := (dhcp_result (cleared (dev s)) h1 l1).2 in
  ∃ s' g' p1 p2, run_events [Timeout e0 t0; Receive e1 t1; Receive e2 t2] s g = Some (s', g') ∧ state_ s' = DEVST_COMPLETE ∧
    identity d = identity (dev s) ∧ dev s' = postprocess_device (foldl item_effect (bootp_defaults d h2) l2) ∧ ip_addr (dev s') = yiaddr h2 ∧
    ifaces g' = dev s' :: ifaces g ∧ sent g' = sent g ++ [p1; p2] ∧
    dhcp_message (dev s) discover_items p1 ∧ dhcp_message (dev s) (request_items (offering (dev s) l1) (yiaddr h1)) p2.
Proof.
  intros Hst Hr Hrun S0 S1 A1 T1 A2 T2 d.
  destruct (discover_step e0 t0 s g Hst Hr Hrun S0 (answers_hwaddr _ _ _ _ _ A1)) as (s1 & g1 & p1 & E1 & Hst1 & Hd1 & Hc1 & Hf1 & Hn1 & M1).
  destruct (offer_step e1 t1 s1 g1 (dev s) h1 l1 Hst1 ltac:(by rewrite Hd1) (answers_config _ _ _ _ _ _ Hc1 A1) T1 S1)
    as (s2 & g2 & p2 & E2 & Hst2 & Hd2 & Hi2 & Hc2 & Hf2 & Hn2 & M2).
  destruct (ack_step e2 t2 s2 g2 (dev s) h2 l2 Hst2 Hi2 (answers_config _ _ _ _ _ _ Hc2 (answers_config _ _ _ _ _ _ Hc1 A2)) T2)
    as (s3 & g3 & E3 & Hst3 & Hd3 & Hf3 & _ & Hn3). rewrite Hd1 in Hd2, M2. fold d in Hd2. rewrite Hd2 in Hd3, Hi2.
  exists s3, g3, p1, p2. rewrite (run_events_cons _ _ _ _ _ _ E1), (run_events_cons _ _ _ _ _ _ E2), (run_events_cons _ _ _ _ _ _ E3).
  split_and!; try done; [| by rewrite Hf3, Hf2, Hf1 | by rewrite Hn3, Hn2, Hn1, <- app_assoc].
  by rewrite Hd3, ip_addr_postprocess, ip_addr_items.
Qed.

(** ** Retries *)

Definition up (e : env) : Prop := netdev_running e = true ∧ sendmsg_ok e = true.

Lemma timeout_step e now s g : active (state_ s) → active (restart_state s) → up e →
  ∃ s' g', perform (Timeout e now) s g = Some (s', g') ∧ state_ s' = state_ s ∧ active (restart_state s') ∧
    length (sent g') = S (length (sent g)) ∧ expire s' = now + retry_period s ∧ retry_period s' = Z.min 60 (2 * retry_period s).
Proof.
  intros Ha Hr [Hrun Hsend]. destruct (active_not _ Ha) as [Hc He]. simpl. rewrite (proj2 (Z.eqb_neq _ _) Hc).
  destruct (timeout_total e now s g) as (s' & g' & H). exists s', g'. split; [done |].
  destruct (timeout_event_spec e now s g s' g' (or_introl Ha) Hr H) as [_ _ _ Hup]. destruct (Hup Hrun) as (Hrs & _ & (ret & Es) & Hst).
  rewrite Hsend, (proj2 (Z.eqb_neq _ _) He) in Hst. destruct Hst as (Hst & Hex & Hrt). split_and!; [done | | | done | done].
  - rewrite Hrs. by destruct (_ =? DEVST_BOOTP); [left | right; left].
  - apply send_spec in Es as (_ & _ & _ & _ & _ & _ & p & dg & _ & _ & ->). rewrite Hsend, length_app. simpl. lia.
Qed.

Lemma retry_run evs : ∀ j s g, active (state_ s) → active (restart_state s) → retry_period s = Z.min (2 ^ Z.of_nat j) 60 → Forall (λ '(e, _), up e) evs →
  ∃ s' g', run_events ((λ '(e, t), Timeout e t) <$> evs) s g = Some (s', g') ∧ state_ s' = state_ s ∧ active (restart_state s') ∧
    length (sent g') = (length (sent g) + length evs)%nat ∧ retry_period s' = Z.min (2 ^ Z.of_nat (j + length evs)) 60.
Proof.
  induction evs as [| [e t] evs IH]; intros j s g Ha Hr Hp Hup.
  { exists s, g. rewrite !Nat.add_0_r. done. }
  apply Forall_cons in Hup as [Hu Hup]. destruct (timeout_step e t s g Ha Hr Hu) as (s1 & g1 & E & Hst & Hr1 & Hn & _ & Hp1).
  destruct (IH (S j) s1 g1) as (s2 & g2 & E2 & Hst2 & Hr2 & Hn2 & Hp2); [by rewrite Hst | done | | done |].
  { rewrite Hp1, Hp, Nat2Z.inj_succ, Z.pow_succ_r by lia. pose proof (Z.pow_pos_nonneg 2 (Z.of_nat j)). lia. }
  exists s2, g2. rewrite fmap_cons, (run_events_cons _ _ _ _ _ _ E). simpl length.
  split_and!; [done | by rewrite Hst2 | done | lia | by rewrite Hp2, <- plus_n_Sm].
Qed.

(** A device that gets no answer tries again with doubled periods, at
    most a minute: after [k + 1] timeouts with the link up, beginning with the
    period 1, it has sent [k + 1] packets, is in the same state, waits
    [min(2^k, 60)] seconds after the last one, and the next period is
    [min(2^(k+1), 60)]. *)
Theorem retry_doubles evs e now s g :
  active (state_ s) → active (restart_state s) → retry_period s = 1 → Forall (λ '(e, _), up e) evs → up e →
  ∃ s' g', run_events ((λ '(e, t), Timeout e t) <$> evs ++ [(e, now)]) s g = Some (s', g') ∧ state_ s' = state_ s ∧
    length (sent g') = (length (sent g) + S (length evs))%nat ∧
    expire s' = now + Z.min (2 ^ Z.of_nat (length evs)) 60 ∧ retry_period s' = Z.min (2 ^ Z.of_nat (S (length evs))) 60.
Proof.
  intros Ha Hr Hp Hups Hup. destruct (retry_run evs 0 s g Ha Hr Hp Hups) as (s1 & g1 & E1 & Hst1 & Hr1 & Hn1 & Hp1).
  destruct (timeout_step e now s1 g1) as (s2 & g2 & E2 & Hst2 & _ & Hn2 & He2 & Hp2); [by rewrite Hst1 | done | done |].
  exists s2, g2. rewrite fmap_app, run_events_app, E1. split; [by apply (run_events_cons (Timeout e now) []) |].
  rewrite He2, Hp2, Hp1, Hst2, Hst1. split_and!; [done | lia | done |].
  rewrite Nat2Z.inj_succ, Z.pow_succ_r by lia. pose proof (Z.pow_pos_nonneg 2 (Z.of_nat (length evs))). simpl. lia.
Qed.

(** ** The main loop ends *)

Definition complete (s : state) : Prop := state_ s = DEVST_COMPLETE.
Definition silent (p : poll_result) : Prop := readable p = false.

(** The time of successive polls goes forward, by at most 10^6 seconds. *)
Fixpoint ticks (sec usec : Z) (ps : list poll_result) : Prop :=
  match ps with
  | [] => True
  | p :: ps => 0 <= tv_usec p < 1000000 ∧ (sec < tv_sec p ∨ (sec = tv_sec p ∧ usec <= tv_usec p)) ∧ tv_sec p - sec <= 1000000 ∧
      ticks (tv_sec p) (tv_usec p) ps
  end.
Definition all_polls (rs : list round) : list poll_result := concat ((λ r, [(polls r).1; (polls r).2]) <$> rs).

(** What the loop promises about its result. *)
Definition loop_done (bringup_first : bool) (r : Z) (l : list state) : Prop :=
  (r = 0 ∧ (Forall complete l ∨ (bringup_first = true ∧ Exists complete l))) ∨ r = -1.

Lemma timeout_expire e now s g s' g' : state_ok s → ¬ complete s → process_timeout_event e now s g = Some (s', g') →
  state_ok s' ∧ now < expire s'.
Proof.
  intros Hok Hc H. assert (perform (Timeout e now) s g = Some (s', g')) as Hp by (simpl; by rewrite (proj2 (Z.eqb_neq _ _) Hc)).
  split; [by eapply perform_ok |]. pose proof Hok as (Hs & Hr & Hret).
  destruct (timeout_event_spec e now s g s' g') as [_ _ Hdown Hup]; [unfold complete in Hc; tauto | done | done |].
  destruct (netdev_running e).
  - destruct (Hup eq_refl) as (_ & _ & _ & Hst). destruct (sendmsg_ok e); destruct Hst as (_ & -> & _); lia.
  - destruct (Hdown eq_refl) as (_ & _ & _ & -> & _). lia.
Qed.

Lemma scan_devices_spec envs now : ∀ l i g timeout pending dn,
  Forall state_ok l → 1 <= timeout <= 60 → 0 <= pending → 0 <= dn →
  ∃ l' g' timeout' pending' dn', scan_devices envs i now l g timeout pending dn = Some (l', g', timeout', pending', dn') ∧
    Forall state_ok l' ∧ 1 <= timeout' <= 60 ∧ pending <= pending' ∧ dn <= dn' ∧
    (pending' = pending → Forall complete l') ∧ (dn' ≠ dn → Exists complete l').
Proof.
  induction l as [| s l IH]; intros i g timeout pending dn Hok Ht Hp Hd.
  { exists [], g, timeout, pending, dn. split_and!; done || lia. }
  apply Forall_cons in Hok as [Hs Hok]. cbn [scan_devices]. destruct (Z.eqb_spec (state_ s) DEVST_COMPLETE) as [Hc | Hc].
  - destruct (IH (S i) g timeout pending (dn + 1)) as (l' & g' & t' & p' & d' & -> & Hok' & Ht' & Hp' & Hd' & Hall & Hsome); [done | done | done | lia |].
    exists (s :: l'), g', t', p', d'. split_and!; [done | by constructor | lia | lia | done | lia | |].
    + intros E. constructor; [done | by apply Hall].
    + intros _. by constructor.
  - assert (∃ s1 g1, (if expire s - now <=? 0 then process_timeout_event (envs i) now s g else Some (s, g)) = Some (s1, g1) ∧
      state_ok s1 ∧ now < expire s1) as (s1 & g1 & -> & Hs1 & He).
    { destruct (Z.leb_spec (expire s - now) 0); [| exists s, g; split_and!; [done | done | lia]].
      destruct (timeout_total (envs i) now s g) as (s1 & g1 & E). exists s1, g1. split; [done |]. by eapply timeout_expire. }
    fields. set (t1 := if expire s1 - now <? timeout then s32 (expire s1 - now) else timeout).
    assert (1 <= t1 <= 60) as Ht1.
    { unfold t1. destruct (Z.ltb_spec (expire s1 - now) timeout); [| done]. rewrite wraps_small by (unfold in_s; lia). lia. }
    destruct (IH (S i) g1 t1 (pending + 1) dn) as (l' & g' & t' & p' & d' & -> & Hok' & Ht' & Hp' & Hd' & Hall & Hsome); [done | done | lia | done |].
    exists (s1 :: l'), g', t', p', d'. split_and!; [done | by constructor | lia | lia | lia | done | lia |].
    intros E. apply Exists_cons_tl. by apply Hsome.
Qed.

Definition wait_ok (w : Z) : Prop := 1 <= w <= 60000.

Lemma delta_bound sec usec sec' usec' :
  0 <= usec < 1000000 → 0 <= usec' < 1000000 → sec < sec' ∨ (sec = sec' ∧ usec <= usec') → sec' - sec <= 1000000 →
  0 <= (sec' - sec) * 1000 + Z.quot (usec' - usec) 1000 <= 1000001000 ∧
  s32 (s32 ((sec' - sec) * 1000) + Z.quot (usec' - usec) 1000) = (sec' - sec) * 1000 + Z.quot (usec' - usec) 1000.
Proof.
  intros Hu Hu' Hm Hj.
  assert (-999 <= Z.quot (usec' - usec) 1000 <= 999 ∧ (usec <= usec' → 0 <= Z.quot (usec' - usec) 1000)) as [Hq Hq0].
  { Z.to_euclidean_division_equations. lia. }
  assert (0 <= (sec' - sec) * 1000 + Z.quot (usec' - usec) 1000 <= 1000001000) as Hb by lia. split; [done |].
  rewrite (wraps_small 32 ltac:(done) ((sec' - sec) * 1000)) by (unfold in_s; lia). apply wraps_small; [lia | unfold in_s; lia].
Qed.

Lemma poll_loop_silent T start : ∀ ps timeout_ms sec usec l g ws,
  Forall silent ps → 0 <= usec < 1000000 → ticks sec usec ps → timeout_ms <= 60000 → -2000000000 <= timeout_ms → Forall wait_ok ws → (length ps <= 2)%nat →
  ∃ w, poll_loop T start ps timeout_ms sec usec l g ws = Some w ∧ at_slist w = l ∧ at_globals w = g ∧ Forall wait_ok (waits w) ∧
    (bail w = false → (0 <= T → Forall (λ p, tv_sec p - start < T) ps) ∧
       match last ps with Some p => at_sec w = tv_sec p ∧ at_usec w = tv_usec p | None => at_sec w = sec ∧ at_usec w = usec end).
Proof.
  induction ps as [| p ps IH]; intros timeout_ms sec usec l g ws Hs Hu Htk Ht Ht2 Hws Hlen.
  { exists (mk_waited false sec usec l g ws). done. }
  apply Forall_cons in Hs as [Hp Hs]. destruct Htk as (Hu' & Hmono & Hjump & Htk). cbn [poll_loop]. rewrite Hp. fields. eqb_eval.
  set (t := if timeout_ms <=? 0 then 100 else timeout_ms).
  assert (wait_ok t) as Htok by (unfold t, wait_ok; destruct (Z.leb_spec timeout_ms 0); lia).
  assert (Forall wait_ok (ws ++ [t])) as Hws' by (apply Forall_app; split; [done | by constructor]).
  destruct ((0 <=? T) && (T <=? tv_sec p - start)) eqn:Eb.
  { eexists. split; [done |]. done. }
  destruct (delta_bound sec usec (tv_sec p) (tv_usec p)) as (Hd & ->); [done | done | done | lia |].
  set (delta := (tv_sec p - sec) * 1000 + Z.quot (tv_usec p - usec) 1000) in *. unfold wait_ok in Htok.
  rewrite (wraps_small 32 ltac:(done) (t - delta)) by (unfold in_s; lia).
  destruct (IH (t - delta) (tv_sec p) (tv_usec p) l g (ws ++ [t])) as (w & E & El & Eg & Hw & Hnb); [done | done | done | lia | lia | done | simpl in Hlen; lia |].
  exists w. split_and!; [done | done | done | done |]. intros Hb. destruct (Hnb Hb) as [Hall Hlast]. split.
  - intros HT. constructor; [| by apply Hall]. rewrite (proj2 (Z.leb_le 0 T)) in Eb by done. by apply Z.leb_gt in Eb.
  - destruct ps as [| p2 ps]; [done |]. rewrite last_cons_cons. destruct (last (p2 :: ps)) eqn:El2; [done | by apply last_None in El2].
Qed.

Lemma loop_rounds_silent bf T start rs : ∀ sec usec l g ws,
  0 <= T → Forall state_ok l → 0 <= usec < 1000000 → ticks sec usec (all_polls rs) → Forall silent (all_polls rs) →
  Exists (λ p, T <= tv_sec p - start) (all_polls rs) → Forall wait_ok ws →
  ∃ r l' g' ws', loop_rounds bf T start rs sec usec l g ws = Some (r, l', g', ws') ∧ Forall wait_ok ws' ∧ Forall state_ok l' ∧ loop_done bf r l'.
Proof.
  induction rs as [| r rs IH]; intros sec usec l g ws HT Hok Hu Htk Hsil Hex Hws.
  { by apply Exists_nil in Hex. }
  cbn [loop_rounds].
  destruct (scan_devices_spec (scan_envs r) sec l 0 g 60 0 0) as (l1 & g1 & t1 & p1 & d1 & -> & Hok1 & Ht1 & Hp1 & Hd1 & Hall & Hsome); [done | lia | lia | lia |].
  fields. destruct ((p1 =? 0) || (bf && negb (d1 =? 0))) eqn:Edone.
  { exists 0, l1, g1, ws. split_and!; [done | done | done |]. left. split; [done |].
    apply orb_true_iff in Edone as [E%Z.eqb_eq | [E1 E2%negb_true_iff%Z.eqb_neq]%andb_true_iff]; [left; by apply Hall | right; split; [done | by apply Hsome]]. }
  change (all_polls (r :: rs)) with ([(polls r).1; (polls r).2] ++ all_polls rs) in *.
  apply Forall_app in Hsil as [Hs1 Hs2]. apply Exists_app in Hex. destruct Htk as (U1 & M1 & J1 & U2 & M2 & J2 & Htk).
  destruct (poll_loop_silent T start [(polls r).1; (polls r).2] (t1 * 1000) sec usec l1 g1 ws) as (w & -> & El & Eg & Hw & Hnb);
    [done | done | exact (conj U1 (conj M1 (conj J1 (conj U2 (conj M2 (conj J2 I)))))) | lia | lia | done | done |].
  fields. destruct (bail w) eqn:Eb.
  { exists (-1), (at_slist w), (at_globals w), (waits w). split_and!; [done | done | by rewrite El | by right]. }
  destruct (Hnb eq_refl) as [Hlt [Es Eu]]. cbn in Es, Eu. rewrite El, Eg, Es, Eu.
  apply IH; [done | done | done | done | done | | done].
  destruct Hex as [Hex | Hex]; [| done]. exfalso. specialize (Hlt HT). rewrite Forall_forall in Hlt. apply Exists_exists in Hex as (p & Hin & Hp).
  specialize (Hlt p Hin). lia.
Qed.

(** C34.  The program gives up: with a time limit and a network that is
    silent, the main loop ends as soon as a poll returns after the limit (or
    before), whatever the devices, with 0 only if every device is complete or
    one is and one is enough; and every poll waits at least a millisecond and
    at most a minute, so it neither spins nor blocks for ever. *)
Theorem loop_gives_up bf T sec usec rs l g :
  0 <= T → Forall state_ok l → 0 <= usec < 1000000 → ticks sec usec (all_polls rs) → Forall silent (all_polls rs) →
  Exists (λ p, T <= tv_sec p - sec) (all_polls rs) →
  ∃ r l' g' ws, loop true bf T sec usec rs l g = Some (r, l', g', ws) ∧ Forall wait_ok ws ∧ Forall state_ok l' ∧ loop_done bf r l'.
Proof. intros. by apply loop_rounds_silent. Qed.

(** ** The configuration file *)

(** The assignments [NAME=word] a POSIX shell reads from such lines.  A name
    is made of letters, digits and underscores.  A word is made of parts in
    single quotes, where every character stands for itself, and of characters
    behind a backslash, and ends with the line; a word with any other
    character outside quotes is not accepted. *)
Fixpoint sh_word (quoted : bool) (l : list Z) : option (list Z * list Z) :=
  match l with
  | [] => None
  | c :: l =>
      let push d r := '(w, rest) ← r; Some (d :: w, rest) in
      if quoted then if c =? 39 then sh_word false l else push c (sh_word true l)
      else if c =? 39 then sh_word true l
      else if c =? 92 then match l with [] => None | d :: l => if d =? 10 then None else push d (sh_word false l) end
      else if c =? 10 then Some ([], l)
      else None
  end.

Definition name_char (c : Z) : bool :=
  ((65 <=? c) && (c <=? 90)) || ((97 <=? c) && (c <=? 122)) || (c =? 95) || ((48 <=? c) && (c <=? 57)).

Fixpoint sh_name (l : list Z) : option (list Z * list Z) :=
  match l with
  | [] => None
  | c :: l =>
      if c =? 61 then Some ([], l)
      else if name_char c then '(n, rest) ← sh_name l; Some (c :: n, rest)
      else None
  end.

Fixpoint sh_read (fuel : nat) (l : list Z) : option (list (list Z * list Z)) :=
  match fuel, l with
  | _, [] => Some []
  | O, _ => None
  | S fuel, _ =>
      '(n, l) ← sh_name l;
      '(v, l) ← sh_word false l;
      r ← sh_read fuel l;
      Some ((n, v) :: r)
  end.

Lemma sh_word_escape v : ∀ rest, sh_word true (escape v ++ 39 :: 10 :: rest) = Some (v, rest).
Proof.
  induction v as [| c v IH]; intros rest; [done |]. cbn [escape]. rewrite <- app_assoc.
  destruct (Z.eqb_spec c 33) as [-> | H33]; [cbn; by rewrite IH |]. destruct (Z.eqb_spec c 39) as [-> | H39]; cbn [orb app].
  - cbn. by rewrite IH.
  - cbn [sh_word]. rewrite (proj2 (Z.eqb_neq _ _) H39). by rewrite IH.
Qed.

Lemma sh_name_spec n : ∀ rest, Forall name_char n → sh_name (n ++ 61 :: rest) = Some (n, rest).
Proof.
  induction n as [| c n IH]; intros rest Hn; [done |]. apply Forall_cons in Hn as [Hc Hn]. cbn [app sh_name].
  destruct (Z.eqb_spec c 61) as [-> | _]; [done |]. apply Is_true_true in Hc. rewrite Hc. by rewrite IH.
Qed.

Lemma sh_read_options opts : ∀ fuel, Forall (λ '(n, _), Forall name_char n) opts → (length opts <= fuel)%nat →
  sh_read fuel (concat ((λ '(n, v), write_option n v) <$> opts)) = Some opts.
Proof.
  induction opts as [| [n v] opts IH]; intros fuel Hn Hf; [by destruct fuel |]. apply Forall_cons in Hn as [Hn Hns].
  destruct fuel as [| fuel]; simpl in Hf; [lia |]. rewrite fmap_cons. cbn [concat]. unfold write_option at 1.
  set (rest := concat _). rewrite <- !app_assoc. change ([61; 39] ++ ?x) with (61 :: 39 :: x).
  assert (∃ c t, n ++ 61 :: 39 :: escape v ++ [39; 10] ++ rest = c :: t) as (c & t & E) by (destruct n; by eexists _, _).
  cbn [sh_read]. rewrite E, <- E. rewrite sh_name_spec by done. cbn [mbind option_bind sh_word].
  change (39 =? 39) with true. cbv iota. change ([39; 10] ++ rest) with (39 :: 10 :: rest). rewrite sh_word_escape. cbn [mbind option_bind].
  unfold rest. by rewrite IH by (done || lia).
Qed.

(** The variables of a configured device. *)
Definition settings (d : netdev) : list (list Z * list Z) :=
  [(text "DEVICE", name d); (text "IPV4ADDR", my_inet_ntoa (ip_addr d)); (text "IPV4BROADCAST", my_inet_ntoa (ip_broadcast d));
   (text "IPV4NETMASK", my_inet_ntoa (ip_netmask d)); (text "IPV4GATEWAY", my_inet_ntoa (ip_gateway d));
   (text "IPV4DNS0", my_inet_ntoa (ns0 d)); (text "IPV4DNS1", my_inet_ntoa (ns1 d));
   (text "HOSTNAME", takewhile_nz (hostname d)); (text "DNSDOMAIN", takewhile_nz (dnsdomainname d));
   (text "NISDOMAIN", takewhile_nz (nisdomainname d)); (text "ROOTSERVER", my_inet_ntoa (ip_server d));
   (text "ROOTPATH", takewhile_nz (bootpath d)); (text "filename", takewhile_nz (filename d))].

(** The arrays of the device are terminated. *)
Definition strings_ok (d : netdev) : Prop :=
  Forall (λ a, 0 ∈ a) [hostname d; dnsdomainname d; nisdomainname d; bootpath d; filename d].

Lemma takewhile_nz_end a b : 0 ∈ a → takewhile_nz (a ++ b) = takewhile_nz a.
Proof.
  induction a as [| c a IH]; [by intros ?%elem_of_nil |]. intros Hin. cbn [app takewhile_nz].
  destruct (Z.eqb_spec c 0) as [-> | Hc]; [done |]. apply elem_of_cons in Hin as [<- | Hin]; [done |]. by rewrite IH.
Qed.

Lemma takewhile_nz_past a b : 0 ∉ a → takewhile_nz (a ++ b) = a ++ takewhile_nz b.
Proof.
  induction a as [| c a IH]; [done |]. intros [Hc Hin]%not_elem_of_cons. cbn [app takewhile_nz].
  rewrite (proj2 (Z.eqb_neq c 0)) by done. by rewrite IH.
Qed.

(** C37.  The configuration file is read back by a shell as it was meant: if
    the arrays of the device are terminated, then whatever text a server put
    into the host name, the domains, the boot path or the file name (quotes
    and newlines included), reading the file as assignments gives exactly the
    settings of the device and nothing else, so no text from the network is
    read as a command. *)
Theorem conf_roundtrip behind d : strings_ok d → ∃ n, sh_read n (dump_file behind d) = Some (settings d).
Proof.
  intros Hd. unfold strings_ok in Hd. rewrite !Forall_cons in Hd. destruct Hd as (_ & _ & _ & _ & Hf & _).
  exists 13%nat. rewrite <- (sh_read_options (settings d) 13); [| | done].
  - f_equal. unfold dump_file, settings. rewrite takewhile_nz_end by done. cbn [fmap list_fmap concat]. by rewrite app_nil_r.
  - unfold settings. repeat (constructor; [by apply (bool_decide_unpack _) |]). constructor.
Qed.

Lemma dump_file_last behind d :
  ∃ lines, dump_file behind d = lines ++ write_option (text "filename") (takewhile_nz (filename d ++ behind)).
Proof.
  unfold dump_file. generalize (write_option (text "filename") (takewhile_nz (filename d ++ behind))). intros w.
  eexists. rewrite !app_assoc. reflexivity.
Qed.

(** A boot file name of 128 bytes leaves the array without an end: the file
    gets what is behind it in memory. *)
Lemma filename_overrun behind d h :
  length h = 236%nat → length (filename d) = 128%nat → 0 ∉ boot_file h →
  ∃ lines, dump_file behind (bootp_defaults d h) =
    lines ++ write_option (text "filename") (boot_file h ++ takewhile_nz behind).
Proof.
  intros Hl Hf H0. destruct (dump_file_last behind (bootp_defaults d h)) as [lines E]. exists lines. rewrite E. do 2 f_equal.
  assert (length (boot_file h) = 128%nat) as Hb by (unfold boot_file, field; rewrite length_take, length_drop; lia).
  change (filename (bootp_defaults d h)) with (overwrite (filename d) (boot_file h)).
  unfold overwrite. by rewrite Hb, drop_ge, app_nil_r, takewhile_nz_past by (done || lia).
Qed.

(** ** A concrete run *)

Definition example_globals : globals := mk_globals initial_ports LOCAL_PORT REMOTE_PORT [60; 1; 76] false 0 [] [] [] [].
Definition example_ack : list item := [Opt 53 [5]; Opt 54 [192; 168; 1; 1]; Opt 12 [98; 111; 120; 39]].
Definition server_packet (l : list item) : list Z :=
  match packet_send 68 67 server_ports [example_hdr; reply_options l 3] with Some (_, d) => d | None => [] end.
Definition example_env (d : list Z) : env := mk_env (example_incoming d 1500) true (Some IFF_RUNNING) 1010 (λ _, true) true [].
Definition example_state : state := mk_state DEVST_DHCPDISC DEVST_DHCPDISC 1000 1 example_dev.

Lemma example_answers l : l = example_offer ∨ l = example_ack → answers example_globals (example_env (server_packet l)) example_dev example_hdr l.
Proof.
  intros Hl. split.
  - apply example_buffers.
  - by split_and!.
  - destruct Hl as [-> | ->]; repeat constructor; done || (simpl; lia) || (rewrite !elem_of_cons, elem_of_nil; lia).
  - exists 3%nat, 68, 67, server_ports, server_ports, (server_packet l).
    assert ((length (reply_options l 3) < 1500)%nat ∧ packet_send 68 67 server_ports [example_hdr; reply_options l 3] = Some (server_ports, server_packet l)) as [H1 H2]
      by (destruct Hl as [-> | ->]; (split; [apply (bool_decide_eq_true_1 _); vm_compute; reflexivity | vm_compute; reflexivity])).
    done.
Qed.

Definition example_events : list event :=
  [Timeout (example_env []) 1000; Receive (example_env (server_packet example_offer)) 1001; Receive (example_env (server_packet example_ack)) 1002].

Lemma conf_roundtrip_witness : ∃ n, sh_read n (dump_file [120] example_dev) = Some (settings example_dev).
Proof. apply (conf_roundtrip [120] example_dev). apply (bool_decide_unpack _). vm_compute. exact I. Defined.

Lemma dhcp_liveness_witness :
  let d := (dhcp_result (cleared example_dev) example_hdr example_offer).2 in
  ∃ s' g' p1 p2, run_events example_events example_state example_globals = Some (s', g') ∧ state_ s' = DEVST_COMPLETE ∧
  identity d = identity example_dev ∧ dev s' = postprocess_device (foldl item_effect (bootp_defaults d example_hdr) example_ack) ∧
  ip_addr (dev s') = yiaddr example_hdr ∧ ifaces g' = dev s' :: [] ∧ sent g' = [] ++ [p1; p2] ∧
  dhcp_message example_dev discover_items p1 ∧
  dhcp_message example_dev (request_items (offering example_dev example_offer) (yiaddr example_hdr)) p2.
Proof.
  apply (dhcp_liveness example_state example_globals (example_env []) 1000 (example_env (server_packet example_offer)) 1001
           (example_env (server_packet example_ack)) 1002 example_hdr example_offer example_hdr example_ack);
    [done | done | done | done | done | apply example_answers; by left | done | apply example_answers; by right | done].
Defined.

(** The events of the example with a packet for another device and a lost
    request in between. *)
Definition example_history : list event :=
  [Timeout (example_env []) 1000; Receive (example_env [1; 2; 3]) 1000; Receive (example_env (server_packet example_offer)) 1001;
   Timeout (example_env []) 1002; Receive (example_env (server_packet example_ack)) 1003; Timeout (example_env []) 1004].

Lemma example_history_complete : (λ '(s, g), (state_ s, ip_netmask (dev s), length (sent g), configured g)) <$> run_events example_history example_state example_globals =
  Some (DEVST_COMPLETE, le [255; 255; 255; 0], 3%nat, 1).
Proof. vm_compute. reflexivity. Qed.

Lemma device_invariant_witness : ∃ s g, run_events example_history example_state example_globals = Some (s, g) ∧ state_ok s ∧
  (state_ s = DEVST_COMPLETE → ∀ evs', run_events evs' s g = Some (s, g)).
Proof.
  destruct (run_events example_history example_state example_globals) as [[s g] |] eqn:E; [| by vm_compute in E].
  exists s, g. split; [done |]. apply (device_invariant (0, 0) 1000 example_dev example_state example_history example_globals); done.
Defined.

Lemma dhcp_safety_witness : ∃ s g, run_events example_history example_state example_globals = Some (s, g) ∧
  acknowledged example_state example_globals example_history (dev s).
Proof.
  pose proof example_history_complete as H.
  destruct (run_events example_history example_state example_globals) as [[s g] |] eqn:E; [| by vm_compute in E].
  exists s, g. split; [done |]. simpl in H. injection H as Hs _ _ _.
  apply (dhcp_safety (0, 0) 1000 example_dev example_state example_globals example_history s g); done.
Defined.

Lemma retry_doubles_witness : ∃ s' g',
  run_events [Timeout (example_env []) 1000; Timeout (example_env []) 1001; Timeout (example_env []) 1003] example_state example_globals = Some (s', g') ∧
  state_ s' = DEVST_DHCPDISC ∧ length (sent g') = (0 + 3)%nat ∧ expire s' = 1003 + 4 ∧ retry_period s' = 8.
Proof.
  apply (retry_doubles [(example_env [], 1000); (example_env [], 1001)] (example_env []) 1003 example_state example_globals);
    [by right; left | by right; left | done | by repeat constructor | done].
Defined.

Definition silent_poll (t : Z) : poll_result := mk_poll false t 500 (λ _, example_env []).
Definition silent_rounds : list round :=
  [mk_round (λ _, example_env []) (silent_poll 1001, silent_poll 1001); mk_round (λ _, example_env []) (silent_poll 1003, silent_poll 1006)].

Lemma loop_gives_up_witness : ∃ r l' g' ws, loop true false 5 1000 0 silent_rounds [example_state] example_globals = Some (r, l', g', ws) ∧
  Forall wait_ok ws ∧ Forall state_ok l' ∧ loop_done false r l'.
Proof.
  apply (loop_gives_up false 5 1000 0 silent_rounds [example_state] example_globals).
  - lia.
  - constructor; [| done]. split_and!; [left; by right; left | by right; left | done | done].
  - lia.
  - repeat split; simpl; lia.
  - by repeat constructor.
  - do 3 apply Exists_cons_tl. by apply Exists_cons_hd.
Defined.
