(* ===== verification/Ipparse.v ===== *)
(** * The command line of ipconfig: the rest of [kinit/ipconfig/main.c]

    The arguments of the program and of the kernel's [ip=] parameter:
    [parse_addr], [parse_proto], [parse_device], [set_vendor_identifier],
    [bringup_one_dev], [check_autoconfig].  A string is the list of its
    characters; [longjmp(abort_buf, 1)] is the result [Aborted]. *)

From stdpp Require Import base numbers list strings gmap.
From Stdlib Require Import Lia.
From S2P Require Import Prelude Memory Printf Scanf Inet Netdev Bootp Ipconfig.

Inductive result (A : Type) := Ok (a : A) | Aborted.
Arguments Ok {_} _.
Arguments Aborted {_}.

Global Instance result_bind : MBind result := λ A B f r, match r with Ok a => f a | Aborted => Aborted end.

(** ** Parsing *)

(** The call of [inet_aton] on a copy of the string in memory of its own. *)
Definition aton_mem (s : list Z) : mem :=
  mem_set (mem_set (mem_set ∅ 100 (replicate 8 0)) 200 (format_text hhu_format ++ [0])) 300 (s ++ [0]).
Definition aton (s : list Z) : option Z :=
  '(r, m) ← inet_aton 200 100 300 104 (aton_mem s);
  if r =? 0 then None else fst <$> load_le 4 104 m.

Definition parse_addr (ip : list Z) : result Z :=
  match aton ip with Some a => Ok a | None => Aborted end.

Definition parse_proto (ip : list Z) : result Z :=
  let same s := bool_decide (ip = text s) in
  if same "" || same "on" || same "any" then Ok (Z.lor (Z.lor CAP_BOOTP CAP_DHCP) CAP_RARP)
  else if same "both" then Ok (Z.lor CAP_BOOTP CAP_RARP)
  else if same "dhcp" then Ok (Z.lor CAP_BOOTP CAP_DHCP)
  else if same "bootp" then Ok CAP_BOOTP
  else if same "rarp" then Ok CAP_RARP
  else if same "none" || same "static" || same "off" then Ok 0
  else Aborted.

(** [strchr(ip, ':')]: the text before the first colon, and what follows it. *)
Fixpoint cut (ip : list Z) : list Z * option (list Z) :=
  match ip with
  | [] => ([], None)
  | c :: ip => if c =? 58 then ([], Some ip) else let '(f, cp) := cut ip in (c :: f, cp)
  end.

(** [strncpy(dev->hostname, ip, SYS_NMLN - 1); dev->hostname[SYS_NMLN - 1] = '\0';] *)
Definition host_array (ip : list Z) : list Z := take 64 (ip ++ replicate 64 0) ++ [0].

(** The [switch] of [parse_device]. *)
Definition parse_field (opt : Z) (ip : list Z) (d : netdev) : result netdev :=
  if opt =? 0 then a ← parse_addr ip; Ok (set_caps 0 (set_ip_addr a d))
  else if opt =? 1 then a ← parse_addr ip; Ok (set_ip_server a d)
  else if opt =? 2 then a ← parse_addr ip; Ok (set_ip_gateway a d)
  else if opt =? 3 then a ← parse_addr ip; Ok (set_ip_netmask a d)
  else if opt =? 4 then Ok (set_reqhostname (host_array ip) (set_hostname (host_array ip) d))
  else if opt =? 5 then Ok (set_name ip d)
  else if opt =? 6 then c ← parse_proto ip; Ok (set_caps c d)
  else Ok d.

(** [for (opt = 0; ip && *ip; ip = cp, opt++)] *)
Fixpoint parse_fields (fuel : nat) (opt : Z) (ip : list Z) (d : netdev) : result netdev :=
  match fuel with
  | O => Aborted
  | S fuel =>
      match ip with
      | [] => Ok d
      | _ =>
          let '(f, cp) := cut ip in
          if 6 <? opt then Aborted
          else
            d ← (match f with [] => Ok d | _ => parse_field opt f d end);
            match cp with Some ip => parse_fields fuel (opt + 1) ip d | None => Ok d end
      end
  end.

Fixpoint strip (p ip : list Z) : option (list Z) :=
  match p, ip with
  | [], _ => Some ip
  | c :: p, b :: ip => if c =? b then strip p ip else None
  | _, [] => None
  end.

(** [parse_device]: the device, whether [bringup_first] has been set, and
    whether one device is meant (1) or every one that [add_all_devices] finds
    in /sys (0). *)
Definition parse_device (d : netdev) (ip : list Z) : result (netdev * bool * Z) :=
  let '(ip, is_ip) :=
    match strip (text "ip=") ip with
    | Some ip => (ip, true)
    | None => match strip (text "nfsaddrs=") ip with Some ip => (ip, true) | None => (ip, false) end
    end in
  '(d, first) ←
    (match cut ip with
     | (_, None) => if is_ip : bool then c ← parse_proto ip; Ok (set_caps c d, true) else Ok (set_name ip d, false)
     | (_, Some _) => d ← parse_fields (S (length ip)) 0 ip d; Ok (d, false)
     end);
  if bool_decide (name d = []) || bool_decide (name d = text "all") then Ok (d, true, 0) else Ok (d, first, 1).

Definition set_vendor_identifier (id : list Z) : result (list Z) :=
  if 255 <=? Z.of_nat (length id) then Aborted else Ok (60 :: u8 (Z.of_nat (length id)) :: id).

(** ** Bringing up *)

(** [strcpy] into an array of the device. *)
Definition strcpy_array (old new : list Z) : list Z := overwrite old (takewhile_nz new ++ [0]).

Definition merge_template (t d : netdev) : netdev :=
  let take_addr (get : netdev → Z) set d := if negb (get t =? INADDR_NONE) then set (get t) d else d in
  let d := take_addr ip_addr set_ip_addr d in
  let d := take_addr ip_server set_ip_server d in
  let d := take_addr ip_gateway set_ip_gateway d in
  let d := take_addr ip_netmask set_ip_netmask d in
  let d := take_addr ns0 set_ns0 d in
  let d := take_addr ns1 set_ns1 d in
  let d := if bool_decide (takewhile_nz (hostname t) = []) then d else set_hostname (strcpy_array (hostname d) (hostname t)) d in
  let d := if bool_decide (takewhile_nz (reqhostname t) = []) then d else set_reqhostname (strcpy_array (reqhostname d) (reqhostname t)) d in
  set_caps (Z.land (caps d) (caps t)) d.

(** [bringup_device]: [up_ok] is the success of [netdev_up]. *)
Definition bringup_device (e : env) (up_ok : bool) (junk : option (Z * Z)) (d : netdev) (slist : list state) (g : globals) : list state * globals :=
  if up_ok then
    if negb (caps d =? 0) then (snd (add_one_dev junk (clock e) d slist), g)
    else (slist, snd (complete_device e d g))
  else (slist, g).

Definition bringup_one_dev (e : env) (up_ok : bool) (junk : option (Z * Z)) (template d : netdev) (slist : list state) (g : globals) : list state * globals :=
  bringup_device e up_ok junk (merge_template template d) slist g.

Definition check_autoconfig (slist : list state) (g : globals) : result Z :=
  if (Z.of_nat (length slist) =? 0) && (configured g =? 0) then Aborted
  else Ok (Z.of_nat (length (filter (λ s, caps (dev s) ≠ 0) slist))).

(** ** What the parameter means *)

Lemma cp_byte a i : in_u 8 (cp a i).
Proof. apply wrapu_range. lia. Qed.

Lemma aton_ntoa a : in_u 32 a → aton (my_inet_ntoa a) = Some a.
Proof.
  intros Ha. unfold aton, my_inet_ntoa. set (t := dotted _ _ _ _).
  destruct (dotted_chars (cp a 0) (cp a 1) (cp a 2) (cp a 3) (cp_byte a 0) (cp_byte a 1) (cp_byte a 2) (cp_byte a 3)) as (Hb & Hnz & Hl). fold t in Hb, Hnz, Hl.
  assert (∀ b n, mapped (mem_set (mem_set ∅ 100 (replicate 8 0)) 200 (format_text hhu_format ++ [0])) b n → mapped (aton_mem t) b n) as Hmap
    by (intros; by apply mapped_set).
  rewrite (aton_run 200 100 (aton_mem t) 300 104 (cp a 0) (cp a 1) (cp a 2) (cp a 3)).
  - cbn [mbind option_bind]. change (1 =? 0) with false. cbv iota.
    rewrite (load_le_ok [cp a 0; cp a 1; cp a 2; cp a 3] _ 104) by apply mem_set_at. simpl fmap. f_equal. by apply le_val_cp.
  - apply cp_byte.
  - apply cp_byte.
  - apply cp_byte.
  - apply cp_byte.
  - by apply cstr_set.
  - apply cstr_set_ne; [by_eval |]. change (Z.of_nat (length (format_text hhu_format))) with 19. lia.
  - lia.
  - apply Hmap. by_eval.
  - unfold apart. lia.
  - unfold apart. lia.
  - apply Hmap. by_eval.
Qed.

Lemma cut_field f rest : 58 ∉ f → cut (f ++ 58 :: rest) = (f, Some rest).
Proof.
  induction f as [| c f IH]; intros Hf; [done |]. apply not_elem_of_cons in Hf as [Hc Hf]. cbn [app cut].
  rewrite (proj2 (Z.eqb_neq c 58)) by done. by rewrite IH.
Qed.

Lemma cut_last f : 58 ∉ f → cut f = (f, None).
Proof.
  induction f as [| c f IH]; intros Hf; [done |]. apply not_elem_of_cons in Hf as [Hc Hf]. cbn [cut].
  rewrite (proj2 (Z.eqb_neq c 58)) by done. by rewrite IH.
Qed.

(** A field, which may be empty, and its effect. *)
Definition field_effect (opt : Z) (f : list Z) (d : netdev) : result netdev :=
  match f with [] => Ok d | _ => parse_field opt f d end.

Lemma parse_fields_field fuel opt f rest d d' : 58 ∉ f → opt <= 6 → field_effect opt f d = Ok d' →
  parse_fields (S fuel) opt (f ++ 58 :: rest) d = parse_fields fuel (opt + 1) rest d'.
Proof.
  intros Hf Ho He. cbn [parse_fields]. assert (∃ c t, f ++ 58 :: rest = c :: t) as (c & t & E) by (destruct f; by eexists _, _).
  rewrite E, <- E, cut_field by done. rewrite (proj2 (Z.ltb_ge _ _)) by lia. fold (field_effect opt f d). by rewrite He.
Qed.

Lemma parse_fields_last fuel opt f d : 58 ∉ f → f ≠ [] → opt <= 6 → parse_fields (S fuel) opt f d = (d ← parse_field opt f d; Ok d).
Proof.
  intros Hf Hn Ho. destruct f as [| c f]; [done |]. cbn [parse_fields]. rewrite cut_last by done.
  rewrite (proj2 (Z.ltb_ge _ _)) by lia. done.
Qed.

(** An optional address: its text and its effect. *)
Definition addr_text (o : option Z) : list Z := from_option my_inet_ntoa [] o.
Definition addr_effect (set : Z → netdev → netdev) (o : option Z) (d : netdev) : netdev := from_option (λ a, set a d) d o.

Lemma dotted_no_colon a : 58 ∉ my_inet_ntoa a.
Proof.
  unfold my_inet_ntoa, dotted. assert (∀ i, 58 ∉ dec (cp a i)) as H.
  { intros i Hin. destruct (dec_byte _ (cp_byte a i)) as (Hf & _). rewrite Forall_forall in Hf. by apply Hf in Hin as (Hd & _). }
  rewrite !elem_of_app, !elem_of_cons, !elem_of_app, !elem_of_cons, !elem_of_app, !elem_of_cons. naive_solver.
Qed.

Lemma addr_text_no_colon o : 58 ∉ addr_text o.
Proof. destruct o; [apply dotted_no_colon | apply not_elem_of_nil]. Qed.

Lemma my_inet_ntoa_nonempty a : my_inet_ntoa a ≠ [].
Proof.
  intros E%(f_equal length). destruct (dotted_chars _ _ _ _ (cp_byte a 0) (cp_byte a 1) (cp_byte a 2) (cp_byte a 3)) as (_ & _ & Hl).
  unfold my_inet_ntoa in E. simpl in E. lia.
Qed.

Lemma addr_field opt o d set : from_option (in_u 32) True o →
  (∀ ip, parse_field opt ip d = (a ← parse_addr ip; Ok (set a d))) → field_effect opt (addr_text o) d = Ok (addr_effect set o d).
Proof.
  intros Ho Hp. destruct o as [a |]; [| done]. simpl. unfold field_effect.
  destruct (my_inet_ntoa a) as [| c t] eqn:E; [by apply my_inet_ntoa_nonempty in E |]. rewrite <- E, Hp. unfold parse_addr. by rewrite aton_ntoa.
Qed.

Lemma host_field h d : field_effect 4 h d = Ok match h with [] => d | _ => set_reqhostname (host_array h) (set_hostname (host_array h) d) end.
Proof. by destruct h. Qed.

Lemma device_field n d : field_effect 5 n d = Ok match n with [] => d | _ => set_name n d end.
Proof. by destruct n. Qed.

Lemma parse_proto_chars p c : parse_proto p = Ok c → 58 ∉ p.
Proof.
  unfold parse_proto. intros H. cbv zeta in H.
  repeat match type of H with
  | context [bool_decide (p = ?t)] => destruct (decide (p = t)) as [-> | ?]; [by_eval | rewrite (bool_decide_false (p = t)) in H by done]
  end. done.
Qed.

(** The device that the seven fields of the parameter describe. *)
Definition described (d : netdev) (client server gateway netmask : option Z) (host device : list Z) (c : Z) : netdev :=
  let d := addr_effect (λ a d, set_caps 0 (set_ip_addr a d)) client d in
  let d := addr_effect set_ip_server server d in
  let d := addr_effect set_ip_gateway gateway d in
  let d := addr_effect set_ip_netmask netmask d in
  let d := match host with [] => d | _ => set_reqhostname (host_array host) (set_hostname (host_array host) d) end in
  let d := match device with [] => d | _ => set_name device d end in
  set_caps c d.

(** The kernel's parameter
    [ip=client:server:gateway:netmask:host:device:protocol] is understood: for
    all addresses (each may be missing), every host and device name without a
    colon (or none) and every known protocol, the device gets exactly these
    values; without a device, or with the device "all", every device is
    meant. *)
Theorem ip_parameter d client server gateway netmask host device proto c :
  Forall (from_option (in_u 32) True) [client; server; gateway; netmask] → 58 ∉ host → 58 ∉ device →
  parse_proto proto = Ok c → proto ≠ [] →
  let d' := described d client server gateway netmask host device c in
  parse_device d (text "ip=" ++ addr_text client ++ 58 :: addr_text server ++ 58 :: addr_text gateway ++ 58 :: addr_text netmask ++ 58 ::
                  host ++ 58 :: device ++ 58 :: proto) =
  Ok (if bool_decide (name d' = []) || bool_decide (name d' = text "all") then (d', true, 0) else (d', false, 1)).
Proof.
  intros Ha Hh Hd Hp Hne d'. rewrite !Forall_cons in Ha. destruct Ha as (A0 & A1 & A2 & A3 & _). unfold parse_device.
  set (ip := addr_text client ++ _). assert (strip (text "ip=") (text "ip=" ++ ip) = Some ip) as -> by done.
  assert (cut ip = (addr_text client, Some (addr_text server ++ 58 :: addr_text gateway ++ 58 :: addr_text netmask ++ 58 :: host ++ 58 :: device ++ 58 :: proto))) as ->
    by (apply cut_field, addr_text_no_colon).
  assert (parse_fields (S (length ip)) 0 ip d = Ok d') as ->; [| simpl; by destruct (_ || _)].
  assert (∃ k, length ip = 6 + k)%nat as [k ->].
  { exists (length ip - 6)%nat. unfold ip. rewrite !length_app; cbn [length]. rewrite !length_app; cbn [length]. rewrite !length_app; cbn [length].
    rewrite !length_app; cbn [length]. rewrite !length_app; cbn [length]. rewrite !length_app; cbn [length]. lia. }
  unfold ip. change (S (6 + k)) with (S (S (S (S (S (S (S k))))))).
  erewrite parse_fields_field; [| apply addr_text_no_colon | lia | by apply (addr_field 0 client d (λ a d, set_caps 0 (set_ip_addr a d)))].
  erewrite parse_fields_field; [| apply addr_text_no_colon | lia | by apply (addr_field 1 server _ set_ip_server)].
  erewrite parse_fields_field; [| apply addr_text_no_colon | lia | by apply (addr_field 2 gateway _ set_ip_gateway)].
  erewrite parse_fields_field; [| apply addr_text_no_colon | lia | by apply (addr_field 3 netmask _ set_ip_netmask)].
  erewrite parse_fields_field; [| done | lia | apply (host_field host)].
  erewrite parse_fields_field; [| done | lia | apply (device_field device)].
  rewrite parse_fields_last by (done || lia || by eapply parse_proto_chars). unfold parse_field. change (0 + 1 + 1 + 1 + 1 + 1 + 1) with 6.
  cbn [Z.eqb]. rewrite Hp. done.
Qed.

(** ["ip=192.168.1.10::192.168.1.1::box:eth0:dhcp"] *)
Lemma ip_parameter_witness :
  let d' := described example_dev (Some inet_demo) None (Some (le [192; 168; 1; 1])) None (text "box") (text "eth0") 3 in
  parse_device example_dev (text "ip=" ++ addr_text (Some inet_demo) ++ 58 :: [] ++ 58 :: addr_text (Some (le [192; 168; 1; 1])) ++ 58 :: [] ++ 58 ::
                  text "box" ++ 58 :: text "eth0" ++ 58 :: text "dhcp") = Ok (d', false, 1).
Proof.
  apply (ip_parameter example_dev (Some inet_demo) None (Some (le [192; 168; 1; 1])) None (text "box") (text "eth0") (text "dhcp") 3);
    [by repeat constructor | by_eval | by_eval | vm_compute; reflexivity | done].
Defined.

Example parameter_text : text "ip=192.168.1.10::192.168.1.1::box:eth0:dhcp" =
  text "ip=" ++ addr_text (Some inet_demo) ++ 58 :: [] ++ 58 :: addr_text (Some (le [192; 168; 1; 1])) ++ 58 :: [] ++ 58 ::
    text "box" ++ 58 :: text "eth0" ++ 58 :: text "dhcp".
Proof. vm_compute. reflexivity. Qed.

(** An eighth field is refused, but a final colon is not a field. *)
Example too_many_fields : parse_device example_dev (text "ip=::::h:eth0:dhcp:x") = Aborted.
Proof. vm_compute. reflexivity. Qed.
Example final_colon : match parse_device example_dev (text "ip=::::h:eth0:dhcp:") with Ok (_, _, r) => r = 1 | Aborted => False end.
Proof. vm_compute. reflexivity. Qed.
