(* ===== verification/RunInit.v ===== *)
(** * Switching to the real root: [kinit/run-init/runinitlib.c]

    [run_init] deletes everything in the initramfs, moves the new root over it
    and starts init.  The name space is a tree of files and directories, each
    with the device it is on (a mount point is a directory on another device
    than its parent); a system call that can fail asks an oracle.

    The theorems: whatever fails, nothing on another device than the initial
    root is touched, and nothing at all is deleted unless the root is a ramfs
    or tmpfs and the new root is on another device; without failures exactly
    the mount points are left. *)

From stdpp Require Import base numbers list strings.
From Stdlib Require Import Lia.
From S2P Require Import Prelude.

#[local] Set Warnings "-register-all".

Definition ENOENT : Z := 2.
Definition EACCES : Z := 13.
Definition ENOTDIR : Z := 20.
Definition EISDIR : Z := 21.
Definition ENOTEMPTY : Z := 39.
Definition TMPFS_MAGIC : Z := 0x01021994.
Definition RAMFS_MAGIC : Z := 0x858458f6.

Inductive node := File (st_dev : Z) | Dir (st_dev : Z) (entries : list (string * node)).
Abbreviation path := (list string).

Definition dev_of (n : node) : Z := match n with File d | Dir d _ => d end.

(** Why a call on a path fails, if it does (beyond what follows from the
    tree). *)
Record oracle := mk_oracle {
  lstat_err : path → option Z;
  unlink_err : path → option Z;
  rmdir_err : path → option Z;
  opendir_err : path → option Z;
}.

Section nuke.
Context (o : oracle).

(** The loop of [nuke_dir] over the entries, with [nuke_dirent]: the error and
    the entries left.  [nuke] is the function for one of them. *)
Fixpoint nuke_entries (nuke : path → node → Z * option node) (what : path) (me : Z) (es : list (string * node)) : Z * list (string * node) :=
  match es with
  | [] => (0, [])
  | (name, n) :: es =>
      let p := what ++ [name] in
      match lstat_err o p with
      | Some _ => (ENOENT, (name, n) :: es)
      | None =>
          if negb (dev_of n =? me) then
            let '(err, es') := nuke_entries nuke what me es in (err, (name, n) :: es')
          else
            let '(err, rest) := nuke p n in
            let kept := match rest with Some n' => [(name, n')] | None => [] end in
            if negb (err =? 0) then (err, kept ++ es)
            else let '(err, es') := nuke_entries nuke what me es in (err, kept ++ es')
      end
  end.

(** [nuke_dir]: the error, and the directory with the entries left. *)
Definition nuke_dir_with (nuke : path → node → Z * option node) (what : path) (n : node) : Z * node :=
  match lstat_err o what with
  | Some e => (e, n)
  | None =>
      match n with
      | File _ => (ENOTDIR, n)
      | Dir me es =>
          match opendir_err o what with
          | Some e => (if e =? EACCES then 0 else e, n)
          | None => let '(err, es') := nuke_entries nuke what me es in (err, Dir me es')
          end
      end
  end.

(** [unlink] of a directory fails, with [EISDIR] if for no other reason, and
    [rmdir] of one that is not empty with [ENOTEMPTY]. *)
Definition unlink (what : path) (n : node) : option Z :=
  match unlink_err o what, n with
  | Some e, _ => Some e
  | None, File _ => None
  | None, Dir _ _ => Some EISDIR
  end.
Definition rmdir (what : path) (n : node) : option Z :=
  match n with
  | File _ => Some ENOTDIR
  | Dir _ (_ :: _) => Some ENOTEMPTY
  | Dir _ [] => rmdir_err o what
  end.

(** [nuke]: the error and what is left. *)
Fixpoint nuke (what : path) (n : node) : Z * option node :=
  match unlink what n with
  | None => (0, None)
  | Some e =>
      if e =? EISDIR then
        let '(err, n) := nuke_dir_with nuke what n in
        if negb (err =? 0) then (err, Some n)
        else
          match rmdir what n with
          | Some e => (e, Some n)
          | None => (0, None)
          end
      else (e, Some n)
  end.

Definition nuke_dir (what : path) (n : node) : Z * node := nuke_dir_with nuke what n.
End nuke.

(** ** [run_init] *)

Fixpoint find_entry (x : string) (es : list (string * node)) : option node :=
  match es with
  | [] => None
  | (y, n) :: es => if decide (x = y) then Some n else find_entry x es
  end.
Fixpoint lookup_path (n : node) (p : path) : option node :=
  match p with
  | [] => Some n
  | x :: p => match n with Dir _ es => c ← find_entry x es; lookup_path c p | File _ => None end
  end.

(** The answers of the kernel to the other calls; [stat_ok] is for both calls
    of [stat]. *)
Record calls := mk_calls {
  files : oracle;
  chdir_ok : bool;
  stat_ok : bool;
  statfs_root : option Z;
  mount_ok : bool;
  chroot_ok : bool;
  chdir_root_ok : bool;
  open_ok : bool;
  exec_ok : bool;
}.

(** What is done after the precautions, and whether it succeeds. *)
Inductive step := Nuke | Move | Chroot | Chdir_root | Console | Exec.

(** The message returned, [None] when init runs; the steps in order; and the
    tree. *)
Definition run_init (k : calls) (realroot : path) (init : string) (root : node) : option string * list (step * bool) * node :=
  match (if chdir_ok k then lookup_path root realroot else None) with
  | Some (Dir cwd_dev _) =>
      if negb (stat_ok k) then (Some "stat"%string, [], root)
      else if dev_of root =? cwd_dev then (Some "current directory on the same filesystem as the root"%string, [], root)
      else
        match statfs_root k with
        | None => (Some "statfs /"%string, [], root)
        | Some f_type =>
            if negb (f_type =? RAMFS_MAGIC) && negb (f_type =? TMPFS_MAGIC) then (Some "rootfs not a ramfs or tmpfs"%string, [], root)
            else
              let '(err, root) := nuke_dir (files k) [] root in
              let steps := [(Nuke, err =? 0)] in
              if negb (err =? 0) then (Some "nuking initramfs contents"%string, steps, root)
              else
              let steps := steps ++ [(Move, mount_ok k)] in
              if negb (mount_ok k) then (Some "overmounting root"%string, steps, root)
              else
              let steps := steps ++ [(Chroot, chroot_ok k)] in
              if negb (chroot_ok k) then (Some "chroot"%string, steps, root)
              else
              let steps := steps ++ [(Chdir_root, chdir_root_ok k)] in
              if negb (chdir_root_ok k) then (Some "chroot"%string, steps, root)
              else
              let steps := steps ++ [(Console, open_ok k)] in
              if negb (open_ok k) then (Some "opening console"%string, steps, root)
              else
              let steps := steps ++ [(Exec, exec_ok k)] in
              (if exec_ok k then None else Some init, steps, root)
        end
  | _ => (Some "chdir to new root"%string, [], root)
  end.

(** ** Safety *)

(** Induction over trees: a directory, assuming it for its entries. *)
Lemma node_tree_ind (P : node → Prop) : (∀ d, P (File d)) → (∀ d es, Forall (λ '(_, c), P c) es → P (Dir d es)) → ∀ n, P n.
Proof.
  intros HF HD. fix IH 1. intros [d | d es]; [apply HF |]. apply HD.
  induction es as [| [x c] es IHes]; constructor; [apply IH | apply IHes].
Qed.

Lemma node_below_ind (P : node → Prop) :
  (∀ n, match n with File _ => True | Dir _ es => Forall (λ '(_, c), P c) es end → P n) → ∀ n, P n.
Proof. intros H n. induction n as [d | d es IH] using node_tree_ind; by apply H. Qed.

(** What a deletion may do to a tree: every node on another device than [me],
    at every path, is still there with everything below it. *)
Definition keeps (me : Z) (n : node) (n' : option node) : Prop :=
  ∀ p c, lookup_path n p = Some c → dev_of c ≠ me → (m ← n'; lookup_path m p) = Some c.
Definition keeps_entries (me : Z) (es es' : list (string * node)) : Prop :=
  ∀ x p n c, find_entry x es = Some n → lookup_path n p = Some c → dev_of c ≠ me → (m ← find_entry x es'; lookup_path m p) = Some c.

Lemma keeps_refl me n : keeps me n (Some n).
Proof. by intros p c H _. Qed.
Lemma keeps_entries_refl me es : keeps_entries me es es.
Proof. intros x p n c E H _. by rewrite E. Qed.

Lemma keeps_entries_cons me x n rest es es' : keeps me n rest → keeps_entries me es es' →
  keeps_entries me ((x, n) :: es) (match rest with Some n' => [(x, n')] | None => [] end ++ es').
Proof.
  intros Hn Hes y p m c E H Hd. simpl in E. destruct (decide (y = x)) as [-> | Hne].
  - apply (inj Some) in E as ->. specialize (Hn p c H Hd). destruct rest as [n' |]; [| done]. simpl. by rewrite decide_True.
  - specialize (Hes y p m c E H Hd). destruct rest as [n' |]; [| done]. simpl. by rewrite decide_False.
Qed.

Lemma keeps_dir d es es' : keeps_entries d es es' → keeps d (Dir d es) (Some (Dir d es')).
Proof.
  intros Hes [| x p] c H Hd; simpl in H; [by apply (inj Some) in H as <- |].
  apply bind_Some in H as (n & E & H). simpl. by eapply Hes.
Qed.

Section safety.
Context (o : oracle).

Lemma nuke_entries_keeps nk what me es :
  Forall (λ '(_, n), dev_of n = me → ∀ p, keeps me n (nk p n).2) es → keeps_entries me es (nuke_entries o nk what me es).2.
Proof using Type.
  induction es as [| [x n] es IH]; intros Hf; [apply keeps_entries_refl |]. apply Forall_cons in Hf as [Hn Hf]. specialize (IH Hf).
  cbn [nuke_entries]. destruct (lstat_err o _); [apply keeps_entries_refl |].
  destruct (nuke_entries o nk what me es) as [err' es']. simpl in IH. destruct (Z.eqb_spec (dev_of n) me) as [Hd | Hd]; cbn [negb].
  - specialize (Hn Hd (what ++ [x])). destruct (nk (what ++ [x]) n) as [err rest]. simpl in Hn.
    destruct (negb (err =? 0)); simpl; apply keeps_entries_cons; done || apply keeps_entries_refl.
  - apply (keeps_entries_cons me x n (Some n) es es'); [apply keeps_refl | done].
Qed.

Lemma nuke_dir_with_keeps nk what n :
  match n with File _ => True | Dir d es => Forall (λ '(_, c), dev_of c = d → ∀ p, keeps d c (nk p c).2) es end →
  keeps (dev_of n) n (Some (nuke_dir_with o nk what n).2) ∧ dev_of (nuke_dir_with o nk what n).2 = dev_of n.
Proof using Type.
  intros Hn. unfold nuke_dir_with. destruct (lstat_err o what); [by split; [apply keeps_refl |] |].
  destruct n as [d | d es]; [by split; [apply keeps_refl |] |]. destruct (opendir_err o what); [by split; [apply keeps_refl |] |].
  pose proof (nuke_entries_keeps nk what d es Hn) as Hes. destruct (nuke_entries o nk what d es) as [err es']. by split; [apply keeps_dir |].
Qed.

(** [unlink] and [rmdir] remove only nodes that hold nothing. *)
Lemma keeps_leaf n : match n with File _ | Dir _ [] => True | _ => False end → keeps (dev_of n) n None.
Proof using Type.
  intros Hn [| x p] c H Hd; [by apply (inj Some) in H as <- |]. by destruct n as [d | d []].
Qed.

Lemma keeps_trans me n m n' : keeps me n (Some m) → keeps me m n' → keeps me n n'.
Proof using Type. intros H1 H2 p c H Hd. by apply H2; [apply H1 |]. Qed.

Lemma nuke_unfold what n : nuke o what n =
  match unlink o what n with
  | None => (0, None)
  | Some e =>
      if e =? EISDIR then
        let '(err, n) := nuke_dir_with o (nuke o) what n in
        if negb (err =? 0) then (err, Some n) else match rmdir o what n with Some e => (e, Some n) | None => (0, None) end
      else (e, Some n)
  end.
Proof using Type. by destruct n. Qed.

Lemma nuke_keeps n : ∀ what, keeps (dev_of n) n (nuke o what n).2.
Proof using Type.
  induction n as [n IH] using node_below_ind. intros what. rewrite nuke_unfold.
  destruct (unlink o what n) as [e |] eqn:Eu.
  - destruct (e =? EISDIR); [| apply keeps_refl].
    destruct (nuke_dir_with_keeps (nuke o) what n) as [Hk Hd].
    { destruct n as [| d es]; [done |]. eapply Forall_impl; [exact IH |]. intros [x c] Hc <- p. apply Hc. }
    destruct (nuke_dir_with o (nuke o) what n) as [err n']. simpl in Hk, Hd. destruct (negb (err =? 0)); [done |].
    destruct (rmdir o what n') eqn:Er; [done |]. apply (keeps_trans _ _ n' _ Hk). rewrite <- Hd. apply keeps_leaf.
    by destruct n' as [| d []].
  - apply keeps_leaf. unfold unlink in Eu. by destruct (unlink_err o what), n.
Qed.

Lemma nuke_dir_keeps n what : keeps (dev_of n) n (Some (nuke_dir o what n).2) ∧ dev_of (nuke_dir o what n).2 = dev_of n.
Proof using Type.
  apply nuke_dir_with_keeps. destruct n as [| d es]; [done |]. apply Forall_forall. intros [x n] _ <- p. apply nuke_keeps.
Qed.
End safety.

(** The precautions: the new root is a directory on another device than the
    root, which is a ramfs or a tmpfs. *)
Definition precautions (k : calls) (realroot : path) (root : node) : Prop :=
  chdir_ok k = true ∧ stat_ok k = true ∧ (statfs_root k = Some RAMFS_MAGIC ∨ statfs_root k = Some TMPFS_MAGIC) ∧
  ∃ d es, lookup_path root realroot = Some (Dir d es) ∧ d ≠ dev_of root.

(** All that is to be done, with the success of each step, and what is left of
    such a list when nothing is done after a failure. *)
Definition plan (k : calls) (err : Z) : list (step * bool) :=
  [(Nuke, err =? 0); (Move, mount_ok k); (Chroot, chroot_ok k); (Chdir_root, chdir_root_ok k); (Console, open_ok k); (Exec, exec_ok k)].
Fixpoint until_failure (l : list (step * bool)) : list (step * bool) :=
  match l with [] => [] | (st, ok) :: l => (st, ok) :: if ok then until_failure l else [] end.

Lemma run_init_spec k realroot init root :
  let '(msg, steps, root') := run_init k realroot init root in
  (¬ precautions k realroot root ∧ steps = [] ∧ root' = root ∧ is_Some msg) ∨
  (precautions k realroot root ∧ ∃ err, nuke_dir (files k) [] root = (err, root') ∧ steps = until_failure (plan k err) ∧
     (msg = None ↔ Forall (λ s, s.2 = true) (plan k err))).
Proof.
  unfold run_init, precautions. destruct (chdir_ok k); [| left; naive_solver].
  destruct (lookup_path root realroot) as [[| cwd_dev es] |]; [left; naive_solver | | left; naive_solver].
  destruct (stat_ok k); cbn [negb]; [| left; naive_solver].
  destruct (Z.eqb_spec (dev_of root) cwd_dev) as [| Hd]; [left; naive_solver |].
  destruct (statfs_root k) as [f_type |]; [| left; naive_solver].
  destruct (Z.eqb_spec f_type RAMFS_MAGIC) as [Er | Er], (Z.eqb_spec f_type TMPFS_MAGIC) as [Et | Et]; cbn [negb andb];
    [| | | left; naive_solver].
  all: assert (Some f_type = Some RAMFS_MAGIC ∨ Some f_type = Some TMPFS_MAGIC) as Hf by (subst f_type; auto); clear Er Et.
  all: destruct (nuke_dir (files k) [] root) as [err r]; unfold plan.
  all: destruct (err =? 0) eqn:Ee; [destruct (mount_ok k), (chroot_ok k), (chdir_root_ok k), (open_ok k), (exec_ok k) |]; cbn.
  all: right; (split; [by split_and!; eauto |]); exists err; (split; [done |]); rewrite Ee; (split; [done |]);
    rewrite !Forall_cons; naive_solver.
Qed.

(** C14.  Switching the root destroys nothing but the initramfs: whatever
    calls fail and wherever mount points are, every file and directory on
    another device than the root is kept, with all that is below it, the new
    root among them.  Anything is done at all exactly if the root is a ramfs
    or a tmpfs and the new root a directory on another device.  Then the
    deletion, the move of the mount, the change of root, of directory, the
    opening of the console and the execution of init follow in this order,
    each only if all before it succeeded, and only the last one ends in
    success. *)
Theorem run_init_safe k realroot init root msg steps root' : run_init k realroot init root = (msg, steps, root') →
  keeps (dev_of root) root (Some root') ∧ dev_of root' = dev_of root ∧
  (steps = [] → root' = root ∧ msg ≠ None) ∧
  (steps ≠ [] ↔ precautions k realroot root) ∧
  (steps ≠ [] → ∃ err, nuke_dir (files k) [] root = (err, root') ∧ steps = until_failure (plan k err) ∧
     (msg = None ↔ Forall (λ s, s.2 = true) (plan k err))) ∧
  (steps ≠ [] → ∃ new, lookup_path root realroot = Some new ∧ dev_of new ≠ dev_of root ∧ lookup_path root' realroot = Some new).
Proof.
  intros H. pose proof (run_init_spec k realroot init root) as Hs. rewrite H in Hs.
  destruct Hs as [(Hp & -> & -> & Hm) | (Hp & err & En & Es & Hm)].
  { split_and!; [apply keeps_refl | done | intros _; split; [done | by intros ->; apply is_Some_None in Hm] | by split | done | done]. }
  assert (steps ≠ []) as Hne by (by rewrite Es).
  destruct (nuke_dir_keeps (files k) root []) as [Hk Hd]. rewrite En in Hk, Hd. cbn [snd] in Hk, Hd.
  split_and!; [done | done | done | done | by exists err |]. intros _.
  destruct Hp as (_ & _ & _ & d & es & El & Hne'). exists (Dir d es). split_and!; [done | done |]. by apply (Hk realroot).
Qed.

(** ** Success *)

Definition no_failures : oracle := mk_oracle (λ _, None) (λ _, None) (λ _, None) (λ _, None).

(** A tree without mount points. *)
Fixpoint all_on (me : Z) (n : node) : bool :=
  (dev_of n =? me) && match n with File _ => true | Dir _ es => forallb (λ '(_, c), all_on me c) es end.

Definition foreign (me : Z) (e : string * node) : bool := negb (dev_of e.2 =? me).

Lemma nuke_entries_foreign nk what me es :
  Forall (λ '(_, n), dev_of n = me → ∀ p, nk p n = (0, None)) es → nuke_entries no_failures nk what me es = (0, filter (λ e, foreign me e = true) es).
Proof.
  induction es as [| [x n] es IH]; intros Hf; [done |]. apply Forall_cons in Hf as [Hn Hf]. cbn [nuke_entries]. simpl lstat_err. cbv iota.
  rewrite (IH Hf). destruct (Z.eqb_spec (dev_of n) me) as [Hd | Hd]; cbn [negb].
  - rewrite filter_cons_False by (unfold foreign; simpl; by rewrite (proj2 (Z.eqb_eq _ _) Hd)). by rewrite (Hn Hd (what ++ [x])).
  - by rewrite filter_cons_True by (unfold foreign; simpl; by rewrite (proj2 (Z.eqb_neq _ _) Hd)).
Qed.

Lemma nuke_all_on me n : ∀ what, all_on me n = true → nuke no_failures what n = (0, None).
Proof.
  induction n as [d | d es IH] using node_tree_ind; intros what Hon; [done |]. rewrite nuke_unfold. unfold nuke_dir_with. simpl.
  simpl in Hon. apply andb_true_iff in Hon as [->%Z.eqb_eq Hon].
  rewrite forallb_forall in Hon. rewrite nuke_entries_foreign.
  - assert (filter (λ e, foreign me e = true) es = []) as ->; [| done].
    apply filter_none, Forall_forall. intros [x n] Hin. unfold foreign. simpl.
    specialize (Hon (x, n) (proj1 (list_elem_of_In _ _) Hin)). simpl in Hon. destruct n; simpl in Hon |- *; apply andb_true_iff in Hon as [-> _]; done.
  - rewrite Forall_forall in IH |- *. intros [x n] Hin _ p. apply (IH (x, n) Hin). exact (Hon (x, n) (proj1 (list_elem_of_In _ _) Hin)).
Qed.

(** Without failures the switch succeeds and cleans up: when every
    entry of the root is a mount point or holds none, and the new root is one
    of the mount points, [run_init] reaches the execution of init and leaves
    in the old root exactly the mount points. *)
Theorem run_init_succeeds magic d es new nd nes init :
  magic = RAMFS_MAGIC ∨ magic = TMPFS_MAGIC →
  forallb (λ e, foreign d e || all_on d e.2) es = true → find_entry new es = Some (Dir nd nes) → nd ≠ d →
  run_init (mk_calls no_failures true true (Some magic) true true true true true) [new] init (Dir d es) =
    (None, [(Nuke, true); (Move, true); (Chroot, true); (Chdir_root, true); (Console, true); (Exec, true)], Dir d (filter (λ e, foreign d e = true) es)).
Proof.
  intros Hm Hes Hnew Hnd. unfold run_init. simpl lookup_path. rewrite Hnew. simpl. rewrite (proj2 (Z.eqb_neq d nd)) by congruence.
  assert (negb (magic =? RAMFS_MAGIC) && negb (magic =? TMPFS_MAGIC) = false) as -> by by destruct Hm as [-> | ->].
  unfold nuke_dir, nuke_dir_with. simpl. rewrite nuke_entries_foreign; [done |]. rewrite forallb_forall in Hes. apply Forall_forall.
  intros [x n] Hin Hd p. specialize (Hes (x, n) (proj1 (list_elem_of_In _ _) Hin)). unfold foreign in Hes. simpl in Hes. rewrite (proj2 (Z.eqb_eq _ _) Hd) in Hes.
  simpl in Hes. by apply (nuke_all_on d).
Qed.

(** ** An initramfs *)

Definition example_entries : list (string * node) :=
  [("init", File 1); ("dev", Dir 1 [("console", File 1); ("pts", Dir 1 [])]); ("root", Dir 8 [("sbin", Dir 8 [("init", File 8)])]);
         ("proc", Dir 3 [("1", Dir 3 [])])]%string.
Definition example_root : node := Dir 1 example_entries.

Lemma run_init_succeeds_witness :
  run_init (mk_calls no_failures true true (Some RAMFS_MAGIC) true true true true true) ["root"%string] "/sbin/init" example_root =
    (None, [(Nuke, true); (Move, true); (Chroot, true); (Chdir_root, true); (Console, true); (Exec, true)],
     Dir 1 [("root"%string, Dir 8 [("sbin"%string, Dir 8 [("init"%string, File 8)])]); ("proc"%string, Dir 3 [("1"%string, Dir 3 [])])]).
Proof.
  apply (run_init_succeeds RAMFS_MAGIC 1 example_entries "root" 8 [("sbin"%string, Dir 8 [("init"%string, File 8)])]); [by left | done | done | done].
Defined.

(** A file that cannot be unlinked stops the deletion. *)
Lemma run_init_safe_witness :
  let o := mk_oracle (λ _, None) (λ p, if decide (p = ["dev"; "console"]%string) then Some 1 else None) (λ _, None) (λ _, None) in
  let k := mk_calls o true true (Some TMPFS_MAGIC) true true true true true in
  ∃ root', run_init k ["root"%string] "/sbin/init" example_root = (Some "nuking initramfs contents"%string, [(Nuke, false)], root') ∧
    keeps 1 example_root (Some root') ∧ precautions k ["root"%string] example_root ∧ lookup_path root' ["init"%string] = None.
Proof.
  intros o k. eexists. split; [vm_compute; reflexivity |].
  edestruct (run_init_safe k ["root"%string] "/sbin/init" example_root (Some "nuking initramfs contents"%string) [(Nuke, false)])
    as (Hk & _ & _ & Hp & _); [vm_compute; reflexivity |].
  split; [exact Hk |]. split; [by apply Hp |]. reflexivity.
Defined.

(** A mount point below a directory of the initramfs makes the deletion fail:
    the directory cannot be removed. *)
Example nested_mount :
  run_init (mk_calls no_failures true true (Some RAMFS_MAGIC) true true true true true) ["mnt"; "root"]%string "/sbin/init"
    (Dir 1 [("mnt", Dir 1 [("root", Dir 8 [])])]%string) =
  (Some "nuking initramfs contents"%string, [(Nuke, false)], Dir 1 [("mnt", Dir 1 [("root", Dir 8 [])])]%string).
Proof. vm_compute. reflexivity. Qed.
