(* ===== verification/Mount.v ===== *)
(** * Mount options: [utils/mount_opts.c] and [do_mount] of [utils/mount_main.c]

    Options are strings (lists of characters without the terminator); the
    order of two strings is that of [strcmp].  The block for the options the
    table does not know is the list of its bytes: writing outside of it is
    [None]. *)

From stdpp Require Import base numbers list strings.
From Stdlib Require Import Lia Sorted.
From S2P Require Import Prelude StrOps Netdev Ipconfig.

Definition MS_RDONLY : Z := 0x0001.
Definition MS_NOSUID : Z := 0x0002.
Definition MS_NODEV : Z := 0x0004.
Definition MS_NOEXEC : Z := 0x0008.
Definition MS_SYNCHRONOUS : Z := 0x0010.
Definition MS_REMOUNT : Z := 0x0020.
Definition MS_DIRSYNC : Z := 0x0080.
Definition MS_NOATIME : Z := 0x0400.
Definition MS_NODIRATIME : Z := 0x0800.
Definition MS_BIND : Z := 0x1000.
Definition MS_MOVE : Z := 0x2000.
Definition MS_REC : Z := 0x4000.
Definition MS_VERBOSE : Z := 0x8000.
Definition MS_TYPE : Z := Z.lor (Z.lor MS_REMOUNT MS_BIND) MS_MOVE.

Record mount_opts := mk_opts { str : list Z; rwmask : Z; rwset : Z; rwnoset : Z }.

Definition options : list mount_opts := [
  mk_opts (text "async") MS_SYNCHRONOUS 0 MS_SYNCHRONOUS;
  mk_opts (text "atime") MS_NOATIME 0 MS_NOATIME;
  mk_opts (text "bind") MS_TYPE MS_BIND 0;
  mk_opts (text "dev") MS_NODEV 0 MS_NODEV;
  mk_opts (text "diratime") MS_NODIRATIME 0 MS_NODIRATIME;
  mk_opts (text "dirsync") MS_DIRSYNC MS_DIRSYNC 0;
  mk_opts (text "exec") MS_NOEXEC 0 MS_NOEXEC;
  mk_opts (text "move") MS_TYPE MS_MOVE 0;
  mk_opts (text "nodev") MS_NODEV MS_NODEV 0;
  mk_opts (text "noexec") MS_NOEXEC MS_NOEXEC 0;
  mk_opts (text "nosuid") MS_NOSUID MS_NOSUID 0;
  mk_opts (text "recurse") MS_REC MS_REC 0;
  mk_opts (text "remount") MS_TYPE MS_REMOUNT 0;
  mk_opts (text "ro") MS_RDONLY MS_RDONLY 0;
  mk_opts (text "rw") MS_RDONLY 0 MS_RDONLY;
  mk_opts (text "suid") MS_NOSUID 0 MS_NOSUID;
  mk_opts (text "sync") MS_SYNCHRONOUS MS_SYNCHRONOUS 0;
  mk_opts (text "verbose") MS_VERBOSE MS_VERBOSE 0 ].

(** [struct extra_opts]: the block, if there is one, and the offset of [end]
    in it. *)
Record extra_opts := mk_extra { block : option (list Z); end_ : Z; used_size : Z; alloc_size : Z }.
Definition no_extra : extra_opts := mk_extra None 0 0 0.

(** A store of consecutive bytes into a block. *)
Definition poke (b : list Z) (i : Z) (bs : list Z) : option (list Z) :=
  if (0 <=? i) && (i + Z.of_nat (length bs) <=? Z.of_nat (length b))
  then Some (take (Z.to_nat i) b ++ bs ++ drop (Z.to_nat i + length bs) b) else None.

(** [junk n]: [n] fresh bytes from [realloc], which succeeds if [mem]. *)
Definition add_extra_option (mem : bool) (junk : Z → list Z) (s : list Z) (extra : extra_opts) : option extra_opts :=
  let len := Z.of_nat (length s) in
  let newlen := used_size extra + len in
  let len := match block extra with Some _ => len + 1 | None => len end in
  if (alloc_size extra <=? newlen) && negb mem then Some extra
  else
    let extra :=
      if alloc_size extra <=? newlen then
        let old := default [] (block extra) in
        let n := Z.to_nat (newlen + 1) in
        mk_extra (Some (take n (old ++ junk (newlen + 1)))) (used_size extra) (used_size extra) newlen
      else extra in
    b ← block extra;
    '(b, e) ← (if negb (used_size extra =? 0) then b ← poke b (end_ extra) [44]; Some (b, end_ extra + 1) else Some (b, end_ extra));
    b ← poke b e (s ++ [0]);
    Some (mk_extra (Some b) e (used_size extra + len) (alloc_size extra)).

(** The loop over the table: the flags and the last value of [res]. *)
Fixpoint find_option (s : list Z) (no : bool) (rwflag : Z) (table : list mount_opts) (res : comparison) : Z * comparison :=
  match table with
  | [] => (rwflag, res)
  | o :: table =>
      let res := lex_compare s (str o) in
      match res with
      | Eq => (Z.lor (Z.land rwflag (Z.lnot (rwmask o))) (if no then rwnoset o else rwset o), res)
      | Lt => (rwflag, res)
      | Gt => find_option s no rwflag table res
      end
  end.

(** [strsep(&arg, ",")] until it returns [NULL]: the fields. *)
Fixpoint fields_of (arg : list Z) : list (list Z) :=
  match arg with
  | [] => [[]]
  | c :: arg =>
      if c =? 44 then [] :: fields_of arg
      else match fields_of arg with f :: fs => (c :: f) :: fs | [] => [[c]] end
  end.

Definition strip_no (s : list Z) : list Z * bool :=
  match s with 110 :: 111 :: s => (s, true) | _ => (s, false) end.

Fixpoint parse_loop (mem : bool) (junk : Z → list Z) (fs : list (list Z)) (rwflag : Z) (extra : extra_opts) : option (Z * extra_opts) :=
  match fs with
  | [] => Some (rwflag, extra)
  | opt :: fs =>
      let '(s, no) := strip_no opt in
      let '(rwflag, res) := find_option s no rwflag options Gt in
      extra ← (match res, s with Eq, _ | _, [] => Some extra | _, _ => add_extra_option mem junk opt extra end);
      parse_loop mem junk fs rwflag extra
  end.

Definition parse_mount_options (mem : bool) (junk : Z → list Z) (arg : list Z) (rwflag : Z) (extra : extra_opts) : option (Z * extra_opts) :=
  parse_loop mem junk (fields_of arg) rwflag extra.

Definition ENODEV : Z := 19.
Definition EINVAL : Z := 22.
Definition EACCES : Z := 13.

(** [do_mount]: [mount s flags] is the error of the call with this type and
    flags, [None] on success; the result and the calls made. *)
Section do_mount.
Context (mount : list Z → Z → option Z).

(** One round of the loop: the error, the flags, whether to [continue]. *)
Definition mount_type (s : list Z) (rwflag : Z) : Z * Z * bool * list (list Z * Z) :=
  let next e := (e =? ENODEV) || (e =? EINVAL) in
  match mount s rwflag with
  | None => (0, rwflag, false, [(s, rwflag)])
  | Some e =>
      if next e then (e, rwflag, true, [(s, rwflag)])
      else if (e =? EACCES) && (Z.land rwflag (Z.lor MS_REMOUNT MS_RDONLY) =? 0) then
        let rwflag' := Z.lor rwflag MS_RDONLY in
        match mount s rwflag' with
        | None => (0, rwflag', false, [(s, rwflag); (s, rwflag')])
        | Some e => (e, rwflag', next e, [(s, rwflag); (s, rwflag')])
        end
      else (e, rwflag, false, [(s, rwflag)])
  end.

Fixpoint mount_loop (types : list (list Z)) (rwflag error : Z) : Z * list (list Z * Z) :=
  match types with
  | [] => (error, [])
  | s :: types =>
      let '(error, rwflag, cont, calls) := mount_type s rwflag in
      if cont then let '(error, calls') := mount_loop types rwflag error in (error, calls ++ calls') else (error, calls)
  end.

Definition do_mount (type : list Z) (rwflag : Z) : Z * list (list Z * Z) :=
  let '(error, calls) := mount_loop (fields_of type) rwflag 0 in
  (if negb (error =? 0) then 255 else 0, calls).
End do_mount.

(** ** The table *)

Lemma lex_compare_opp s : ∀ t, lex_compare t s = CompOpp (lex_compare s t).
Proof.
  induction s as [| x s IH]; intros [| y t]; simpl; try done. rewrite (Z.compare_antisym x y).
  destruct (x ?= y); simpl; [apply IH | done | done].
Qed.

Definition sorted_table (table : list mount_opts) : Prop := StronglySorted (λ a b, lex_compare (str a) (str b) = Lt) table.

Lemma options_sorted : sorted_table options.
Proof. unfold options. repeat (constructor; [| by repeat (constructor; [vm_compute; reflexivity |])]). constructor. Qed.

(** What a name means: the entry with this name. *)
Definition lookup_option (table : list mount_opts) (s : list Z) : option mount_opts := snd <$> list_find (λ o, str o = s) table.
Definition set_flags (no : bool) (rwflag : Z) (o : mount_opts) : Z :=
  Z.lor (Z.land rwflag (Z.lnot (rwmask o))) (if no then rwnoset o else rwset o).

Lemma lookup_option_cons o table s : lookup_option (o :: table) s = if decide (str o = s) then Some o else lookup_option table s.
Proof.
  unfold lookup_option. simpl. destruct (decide (str o = s)); [done |]. by destruct (list_find _ table) as [[i x] |].
Qed.

Lemma lookup_option_none table s : Forall (λ o, str o ≠ s) table → lookup_option table s = None.
Proof. induction 1; [done |]. by rewrite lookup_option_cons, decide_False. Qed.

(** The search that stops at the first name that is not smaller finds what a
    search of the whole table finds. *)
Lemma find_option_spec s no rwflag table : ∀ res, sorted_table table → res ≠ Eq →
  match lookup_option table s with
  | Some o => find_option s no rwflag table res = (set_flags no rwflag o, Eq)
  | None => ∃ res', find_option s no rwflag table res = (rwflag, res') ∧ res' ≠ Eq
  end.
Proof.
  induction table as [| o table IH]; intros res Hs Hres; [by exists res |]. inversion_clear Hs as [| ? ? Hs' Ho].
  rewrite lookup_option_cons. cbn [find_option]. destruct (lex_compare s (str o)) eqn:E.
  - apply lex_compare_eq in E as ->. by rewrite decide_True.
  - rewrite decide_False by (intros Heq; symmetry in Heq; apply lex_compare_eq in Heq; congruence).
    rewrite lookup_option_none; [by exists Lt |]. eapply Forall_impl; [exact Ho |]. intros o' Hlt <-. simpl in Hlt.
    rewrite (lex_compare_opp (str o)) in E. by rewrite Hlt in E.
  - rewrite decide_False by (intros Heq; symmetry in Heq; apply lex_compare_eq in Heq; congruence). by apply IH.
Qed.

(** ** The options *)

Definition known (opt : list Z) : option (bool * mount_opts) :=
  let '(s, no) := strip_no opt in (λ o, (no, o)) <$> lookup_option options s.
Definition flag_effect (rwflag : Z) (opt : list Z) : Z :=
  match known opt with Some (no, o) => set_flags no rwflag o | None => rwflag end.
(** The options passed on to the file system. *)
Definition is_extra (opt : list Z) : bool := bool_decide (known opt = None) && bool_decide ((strip_no opt).1 ≠ []).

Lemma poke_all b bs : length bs = length b → poke b 0 bs = Some bs.
Proof.
  intros E. unfold poke. rewrite !(proj2 (Z.leb_le _ _)) by lia. cbn [andb]. change (Z.to_nat 0) with 0%nat.
  rewrite E, Nat.add_0_l, drop_all, app_nil_r. done.
Qed.

Lemma parse_loop_step mem junk opt fs rwflag extra :
  parse_loop mem junk (opt :: fs) rwflag extra =
    (extra ← (if is_extra opt then add_extra_option mem junk opt extra else Some extra); parse_loop mem junk fs (flag_effect rwflag opt) extra).
Proof.
  cbn [parse_loop]. unfold flag_effect, is_extra, known. destruct (strip_no opt) as [s no]. cbn [fst].
  pose proof (find_option_spec s no rwflag options Gt options_sorted ltac:(done)) as H. destruct (lookup_option options s) as [o |].
  - by rewrite H.
  - destruct H as (res & -> & Hres). simpl. destruct s as [| c s]; [by destruct res |]. by destruct res.
Qed.

Section extra.
Context (junk : Z → list Z) (Hjunk : ∀ n, 0 <= n → length (junk n) = Z.to_nat n).

Lemma add_first u : u ≠ [] →
  add_extra_option true junk u no_extra = Some (mk_extra (Some (u ++ [0])) 0 (Z.of_nat (length u)) (Z.of_nat (length u))).
Proof using Hjunk.
  intros Hu. unfold add_extra_option, no_extra. simpl. rewrite (proj2 (Z.leb_le 0 _)) by lia. simpl.
  rewrite poke_all; [done |]. rewrite length_take, Hjunk, length_app by lia. simpl. lia.
Qed.

(** The second option does not fit: the block has no room for the comma. *)
Lemma add_second u b : b ≠ [] →
  add_extra_option true junk u (mk_extra (Some (b ++ [0])) 0 (Z.of_nat (length b)) (Z.of_nat (length b))) = None.
Proof using Hjunk.
  intros Hb. unfold add_extra_option. cbn [block used_size alloc_size]. rewrite (proj2 (Z.leb_le (Z.of_nat (length b)) _)) by lia.
  cbn [negb andb block end_ used_size alloc_size default mbind option_bind]. destruct b as [| c b]; [done |].
  rewrite (proj2 (Z.eqb_neq (Z.of_nat (length (c :: b))) 0)) by (simpl; lia). cbn [negb]. destruct (poke _ _ [44]) as [b1 |] eqn:E1; [| done].
  cbn [mbind option_bind]. assert (length b1 = Z.to_nat (Z.of_nat (length (c :: b)) + Z.of_nat (length u) + 1)) as El.
  { unfold poke in E1. destruct ((0 <=? _) && (_ <=? _)) eqn:Eb; [| done]. apply (inj Some) in E1 as <-.
    apply andb_true_iff in Eb as [_ Eb%Z.leb_le]. rewrite length_take, length_app, Hjunk in Eb by lia.
    rewrite !length_app, length_drop, !length_take, length_app, Hjunk by lia. cbn [length] in *. lia. }
  unfold poke. rewrite (proj2 (Z.leb_gt _ (Z.of_nat (length b1)))); [by rewrite andb_false_r |]. rewrite El, length_app. cbn [length]. lia.
Qed.

Lemma parse_rest_known fs : ∀ rwflag extra, filter (λ f, is_extra f = true) fs = [] →
  parse_loop true junk fs rwflag extra = Some (foldl flag_effect rwflag fs, extra).
Proof using Type.
  induction fs as [| f fs IH]; intros rwflag extra H; [done |]. rewrite parse_loop_step, filter_cons in *.
  destruct (is_extra f) eqn:E; [done |]. by apply IH.
Qed.

Lemma parse_rest_one fs u : ∀ rwflag, u ≠ [] →
  parse_loop true junk fs rwflag (mk_extra (Some (u ++ [0])) 0 (Z.of_nat (length u)) (Z.of_nat (length u))) =
  match filter (λ f, is_extra f = true) fs with
  | [] => Some (foldl flag_effect rwflag fs, mk_extra (Some (u ++ [0])) 0 (Z.of_nat (length u)) (Z.of_nat (length u)))
  | _ => None
  end.
Proof using Hjunk.
  induction fs as [| f fs IH]; intros rwflag Hu; [done |]. rewrite parse_loop_step, filter_cons.
  destruct (is_extra f) eqn:E; [by rewrite add_second |]. by apply IH.
Qed.

(** The option string of [mount -o] is read correctly as far as it
    goes: every field, with or without "no", changes the flags by the entry of
    the table with its name (the search stops early, but the table is sorted),
    in the order of the string; one option that is not in the table is passed
    on as it is.  With a second one, the block for them is one byte too small
    and the store runs out of it. *)
Theorem mount_options_correct arg rwflag :
  parse_mount_options true junk arg rwflag no_extra =
  match filter (λ f, is_extra f = true) (fields_of arg) with
  | [] => Some (foldl flag_effect rwflag (fields_of arg), no_extra)
  | [u] => Some (foldl flag_effect rwflag (fields_of arg), mk_extra (Some (u ++ [0])) 0 (Z.of_nat (length u)) (Z.of_nat (length u)))
  | _ => None
  end.
Proof using Hjunk.
  unfold parse_mount_options. generalize (fields_of arg). intros fs. revert rwflag. induction fs as [| f fs IH]; intros rwflag; [done |].
  rewrite parse_loop_step, filter_cons. destruct (is_extra f) eqn:E; [| by apply IH].
  assert (f ≠ []) as Hf by (intros ->; by vm_compute in E). rewrite decide_True by done. rewrite add_first by done. cbn [mbind option_bind].
  rewrite parse_rest_one by done. by destruct (filter _ fs).
Qed.
End extra.

Lemma mount_options_correct_witness :
  parse_mount_options true (λ n, replicate (Z.to_nat n) 170) (text "ro,noexec,nolock,nodev,suid") MS_VERBOSE no_extra =
    Some (Z.lor (Z.lor (Z.lor MS_VERBOSE MS_RDONLY) MS_NOEXEC) MS_NODEV, mk_extra (Some (text "nolock" ++ [0])) 0 6 6).
Proof.
  apply (mount_options_correct (λ n, replicate (Z.to_nat n) 170) (λ n _, length_replicate (Z.to_nat n) 170) (text "ro,noexec,nolock,nodev,suid") MS_VERBOSE).
Defined.

(** ** Trying the types *)

Section try_types.
Context (mount : list Z → Z → option Z).

Definition read_only (rwflag : Z) : bool := negb (Z.land rwflag MS_RDONLY =? 0).

(** One type: at most one more call, read-only, and then the flags say so. *)
Lemma mount_type_spec s rwflag error rwflag' cont calls : mount_type mount s rwflag = (error, rwflag', cont, calls) →
  (∃ f, last calls = Some (s, f) ∧ error = default 0 (mount s f)) ∧
  Forall (λ '(t, f), t = s ∧ (f = rwflag ∨ f = Z.lor rwflag MS_RDONLY)) calls ∧
  (rwflag' = rwflag ∧ length calls = 1%nat ∨
   rwflag' = Z.lor rwflag MS_RDONLY ∧ length calls = 2%nat ∧ Z.land rwflag (Z.lor MS_REMOUNT MS_RDONLY) = 0 ∧ mount s rwflag = Some EACCES) ∧
  (cont = true → error = ENODEV ∨ error = EINVAL).
Proof using Type.
  unfold mount_type. intros H.
  assert (∀ e, (e =? ENODEV) || (e =? EINVAL) = true → e = ENODEV ∨ e = EINVAL) as Hnext by (intros e; rewrite orb_true_iff, !Z.eqb_eq; done).
  destruct (mount s rwflag) as [e |] eqn:E.
  2: { injection H as <- <- <- <-. split_and!; [exists rwflag; by rewrite E | by repeat constructor; left | by left | done]. }
  destruct ((e =? ENODEV) || (e =? EINVAL)) eqn:En.
  { injection H as <- <- <- <-. split_and!; [exists rwflag; by rewrite E | by repeat constructor; left | by left | by auto]. }
  destruct ((e =? EACCES) && _) eqn:Ea.
  2: { injection H as <- <- <- <-. split_and!; [exists rwflag; by rewrite E | by repeat constructor; left | by left | done]. }
  apply andb_true_iff in Ea as [->%Z.eqb_eq Ez%Z.eqb_eq].
  destruct (mount s (Z.lor rwflag MS_RDONLY)) as [e |] eqn:E2; injection H as <- <- <- <-;
    (split_and!; [exists (Z.lor rwflag MS_RDONLY); by rewrite E2 | rewrite !Forall_cons, Forall_nil; auto | by right | by auto]).
Qed.

Lemma mount_loop_spec rw0 types : ∀ rwflag error error' calls,
  rwflag = rw0 ∨ rwflag = Z.lor rw0 MS_RDONLY → types ≠ [] → mount_loop mount types rwflag error = (error', calls) →
  (∃ s f, last calls = Some (s, f) ∧ error' = default 0 (mount s f)) ∧
  Forall (λ '(t, f), t ∈ types ∧ (f = rw0 ∨ f = Z.lor rw0 MS_RDONLY)) calls ∧
  (length calls <= length types + (if decide (Z.land rwflag MS_RDONLY = 0%Z) then 1 else 0))%nat.
Proof using Type.
  induction types as [| s types IH]; intros rwflag error error' calls Hrw Hne H; [done |]. cbn [mount_loop] in H.
  destruct (mount_type mount s rwflag) as [[[e rw'] cont] calls1] eqn:E. apply mount_type_spec in E as (Hlast & Hcalls & Hrw' & Hcont).
  assert (Z.lor (Z.lor rw0 MS_RDONLY) MS_RDONLY = Z.lor rw0 MS_RDONLY) as Hlor by (by rewrite <- Z.lor_assoc).
  assert (Forall (λ '(t, f), t ∈ s :: types ∧ (f = rw0 ∨ f = Z.lor rw0 MS_RDONLY)) calls1) as Hcalls'.
  { eapply Forall_impl; [exact Hcalls |]. intros [t f] [-> Hf]. split; [by left |]. destruct Hrw as [-> | ->], Hf as [-> | ->]; rewrite ?Hlor; tauto. }
  assert (length calls1 + (if decide (Z.land rw' MS_RDONLY = 0%Z) then 1 else 0) <= 1 + (if decide (Z.land rwflag MS_RDONLY = 0%Z) then 1 else 0))%nat as Hlen.
  { destruct Hrw' as [(-> & ->) | (-> & -> & Hz & _)]; [done |].
    assert (Z.land rwflag MS_RDONLY = 0) as Hz0.
    { change MS_RDONLY with (Z.land (Z.lor MS_REMOUNT MS_RDONLY) MS_RDONLY). by rewrite Z.land_assoc, Hz. }
    rewrite (decide_True _ _ Hz0). rewrite decide_False; [lia |]. rewrite Z.land_lor_distr_l, Hz0. done. }
  assert (calls1 ≠ []) as Hne1 by (destruct Hlast as (? & Hl & _); by destruct calls1).
  destruct cont.
  - destruct (mount_loop mount types rw' e) as [e2 calls2] eqn:E2. injection H as <- <-. destruct types as [| s2 types].
    { simpl in E2. injection E2 as <- <-. rewrite app_nil_r. destruct Hlast as (f & Hl & He). split_and!; [by exists s, f | done | simpl; lia]. }
    apply IH in E2 as ((s3 & f & Hl & He) & Hc2 & Hl2); [| destruct Hrw as [-> | ->], Hrw' as [[-> _] | [-> _]]; rewrite ?Hlor; tauto | done].
    split_and!.
    + exists s3, f. split; [| done]. by rewrite last_app, Hl.
    + apply Forall_app. split; [done |]. eapply Forall_impl; [exact Hc2 |]. intros [t g] [Ht Hg]. split; [by right | done].
    + rewrite length_app. cbn [length] in *. lia.
  - injection H as <- <-. destruct Hlast as (f & Hl & He). split_and!; [by exists s, f | done |]. cbn [length]. lia.
Qed.

(** Trying the types of a list ends, and its result is that of the last
    attempt: [do_mount] makes at least one and at most one call per type and
    one more, each with a type of the list and the given flags or those with
    read-only added, and returns 0 exactly if the last call succeeded. *)
Theorem do_mount_correct type rwflag : (∀ s f, mount s f ≠ Some 0) →
  ∃ calls s f, (do_mount mount type rwflag).2 = calls ∧ last calls = Some (s, f) ∧
    (do_mount mount type rwflag).1 = (match mount s f with None => 0 | Some _ => 255 end) ∧
    Forall (λ '(t, g), t ∈ fields_of type ∧ (g = rwflag ∨ g = Z.lor rwflag MS_RDONLY)) calls ∧
    (length calls <= length (fields_of type) + 1)%nat.
Proof using Type.
  intros Hm. unfold do_mount. destruct (mount_loop mount (fields_of type) rwflag 0) as [error calls] eqn:E.
  assert (fields_of type ≠ []) as Hne by (destruct type as [| c t]; [done |]; simpl; destruct (c =? 44); [done | by destruct (fields_of t)]).
  destruct (mount_loop_spec rwflag _ rwflag 0 error calls (or_introl eq_refl) Hne E) as ((s & f & Hl & He) & Hc & Hn).
  exists calls, s, f. split_and!; [done | done | | done | destruct (decide _); lia]. simpl. rewrite He.
  destruct (mount s f) as [e |] eqn:Em; [| done]. simpl. destruct (Z.eqb_spec e 0) as [-> | Hne0]; [by apply Hm in Em | done].
Qed.
End try_types.

(** ext3 is unknown, ext2 wants read-only. *)
Definition example_mount (s : list Z) (f : Z) : option Z :=
  if decide (s = text "ext2") then if read_only f then None else Some EACCES else Some ENODEV.

Lemma do_mount_correct_witness : ∃ calls s f, (do_mount example_mount (text "ext3,ext2,vfat") 0).2 = calls ∧ last calls = Some (s, f) ∧
  (do_mount example_mount (text "ext3,ext2,vfat") 0).1 = (match example_mount s f with None => 0 | Some _ => 255 end) ∧
  Forall (λ '(t, g), t ∈ fields_of (text "ext3,ext2,vfat") ∧ (g = 0 ∨ g = Z.lor 0 MS_RDONLY)) calls ∧
  (length calls <= length (fields_of (text "ext3,ext2,vfat")) + 1)%nat.
Proof.
  apply (do_mount_correct example_mount (text "ext3,ext2,vfat") 0). intros s f. unfold example_mount.
  destruct (decide _); [destruct (read_only f) |]; done.
Defined.

Example do_mount_example : do_mount example_mount (text "ext3,ext2,vfat") 0 = (0, [(text "ext3", 0); (text "ext2", 0); (text "ext2", MS_RDONLY)]).
Proof. vm_compute. reflexivity. Qed.
