(* ===== verification/FileMode.v ===== *)
(** * Symbolic file modes: [utils/file_mode.c]

    The mode argument of mkdir and mkfifo: an octal number or a list of
    clauses like [u=rwx,go-w].  Strings are lists of characters; [exit(255)]
    is [None].  The theorem gives the meaning of the clauses bit by bit. *)

From stdpp Require Import base numbers list.
From Stdlib Require Import Lia.
From S2P Require Import Prelude Ctype Numparse Netdev Mount.

(* the octal constants in hexadecimal: 04000, 02000, 01000, 0700, 070, 07 *)
Definition S_ISUID : Z := 0x800.
Definition S_ISGID : Z := 0x400.
Definition S_ISVTX : Z := 0x200.
Definition S_IRWXU : Z := 0x1c0.
Definition S_IRWXG : Z := 0x38.
Definition S_IRWXO : Z := 0x7.

(** The who list: the mask and the rest of the clause. *)
Fixpoint parse_who (p : list Z) (who : Z) : Z * list Z :=
  match p with
  | c :: p' =>
      if c =? 117 then parse_who p' (Z.lor who (Z.lor S_IRWXU S_ISUID))
      else if c =? 103 then parse_who p' (Z.lor who (Z.lor S_IRWXG S_ISGID))
      else if c =? 111 then parse_who p' (Z.lor who (Z.lor S_IRWXO S_ISVTX))
      else if c =? 97 then parse_who p' 0xfff
      else (who, p)
  | [] => (who, [])
  end.

(** The permissions after an action. *)
Fixpoint parse_perm (mode : Z) (p : list Z) (perm : Z) : Z * list Z :=
  match p with
  | c :: p' =>
      if c =? 114 then parse_perm mode p' (Z.lor perm 0x124)
      else if c =? 119 then parse_perm mode p' (Z.lor perm 0x92)
      else if c =? 120 then parse_perm mode p' (Z.lor perm 0x49)
      else if c =? 88 then parse_perm mode p' (Z.lor perm S_ISVTX)
      else if c =? 115 then parse_perm mode p' (Z.lor perm (Z.lor S_ISUID S_ISGID))
      else if c =? 117 then
        let perm := Z.land mode S_IRWXU in
        let perm := Z.lor perm (Z.lor (Z.shiftr perm 3) (Z.shiftr perm 6)) in
        parse_perm mode p' (if negb (Z.land mode S_ISUID =? 0) then Z.lor perm S_ISGID else perm)
      else if c =? 103 then
        let perm := Z.land mode S_IRWXG in
        let perm := Z.lor perm (Z.lor (u32 (Z.shiftl perm 3)) (Z.shiftr perm 3)) in
        parse_perm mode p' (if negb (Z.land mode S_ISGID =? 0) then Z.lor perm S_ISUID else perm)
      else if c =? 111 then
        let perm := Z.land mode S_IRWXO in
        parse_perm mode p' (Z.lor perm (Z.lor (u32 (Z.shiftl perm 6)) (u32 (Z.shiftl perm 3))))
      else (perm, p)
  | [] => (perm, [])
  end.

(** The action list of a clause. *)
Fixpoint parse_actions (fuel : nat) (p : list Z) (who mode : Z) : option Z :=
  match fuel, p with
  | _, [] => Some mode
  | O, _ => None
  | S fuel, action :: p' =>
      let is_action := (action =? 43) || (action =? 45) || (action =? 61) in
      let '(perm, p) := parse_perm mode (if is_action then p' else p) 0 in
      let perm := Z.land perm who in
      if action =? 43 then parse_actions fuel p who (Z.lor mode perm)
      else if action =? 45 then parse_actions fuel p who (Z.land mode (Z.lnot perm))
      else if action =? 61 then parse_actions fuel p who (Z.lor (Z.land mode (Z.lnot who)) perm)
      else None
  end.

Definition parse_clause (sumask mode : Z) (clause : list Z) : option Z :=
  let '(who, p) := parse_who clause 0 in
  let who := if who =? 0 then Z.lor (u32 (Z.lnot sumask)) S_ISVTX else who in
  parse_actions (length p) p who mode.

Fixpoint parse_clauses (sumask mode : Z) (clauses : list (list Z)) : option Z :=
  match clauses with
  | [] => Some mode
  | c :: cs => mode ← parse_clause sumask mode c; parse_clauses sumask mode cs
  end.

(** [strtoul] is the list-level conversion of [strntoumax]; [errno] is not
    [ERANGE], which nothing sets. *)
Definition parse_file_mode (arg : list Z) (mode sumask : Z) : option Z :=
  match arg with
  | c :: _ =>
      if (48 <=? c) && (c <? 56) then
        let num := (parse_num 8 arg).1 in
        if 0xfff <? num then None else Some num
      else parse_clauses sumask mode (fields_of arg)
  | [] => parse_clauses sumask mode (fields_of arg)
  end.

(** ** What a mode means

    A mode as its bits: [mode i] is bit [i].  Bits 0 to 8 are the permissions
    of others, group and user, three each; 9, 10 and 11 are the sticky,
    set-group-id and set-user-id bits. *)

Abbreviation bits := (Z → bool).

Inductive who_char := User | Group | Other | All.
Inductive op_char := Add | Remove | Set_.
Inductive perm_char := PRead | PWrite | PExec | PSticky | PSetid | CopyUser | CopyGroup | CopyOther.

Record action := mk_action { act_op : op_char; act_perms : list perm_char }.
Record clause := mk_clause { cl_who : list who_char; cl_actions : list action }.

Definition who_has (w : who_char) (i : Z) : bool :=
  match w with
  | User => (6 <=? i) && (i <=? 8) || (i =? 11)
  | Group => (3 <=? i) && (i <=? 5) || (i =? 10)
  | Other => (0 <=? i) && (i <=? 2) || (i =? 9)
  | All => true
  end.

(** The bits a clause is about; without a who list those not in the umask, and
    the sticky bit. *)
Definition who_bits (umask : bits) (ws : list who_char) (i : Z) : bool :=
  match ws with [] => negb (umask i) || (i =? 9) | _ => existsb (λ w, who_has w i) ws end.

(** The bits a letter grants, given those of the letters before it; copying a
    class begins anew. *)
Definition grants (mode granted : bits) (c : perm_char) (i : Z) : bool :=
  match c with
  | PRead => granted i || ((i <=? 8) && (i mod 3 =? 2))
  | PWrite => granted i || ((i <=? 8) && (i mod 3 =? 1))
  | PExec => granted i || ((i <=? 8) && (i mod 3 =? 0))
  | PSticky => granted i || (i =? 9)
  | PSetid => granted i || (i =? 10) || (i =? 11)
  | CopyUser => (i <=? 8) && mode (6 + i mod 3) || (i =? 10) && mode 11
  | CopyGroup => (i <=? 8) && mode (3 + i mod 3) || (i =? 11) && mode 10
  | CopyOther => (i <=? 8) && mode (i mod 3)
  end.

Definition perms_bits (mode : bits) (ps : list perm_char) : bits := foldl (grants mode) (λ _, false) ps.

Definition action_effect (who : bits) (mode : bits) (a : action) (i : Z) : bool :=
  if who i then
    match act_op a with
    | Add => mode i || perms_bits mode (act_perms a) i
    | Remove => mode i && negb (perms_bits mode (act_perms a) i)
    | Set_ => perms_bits mode (act_perms a) i
    end
  else mode i.

Definition clause_effect (umask mode : bits) (c : clause) : bits := foldl (action_effect (who_bits umask (cl_who c))) mode (cl_actions c).
Definition mode_effect (umask mode : bits) (cs : list clause) : bits := foldl (clause_effect umask) mode cs.

(** The text of a mode. *)
Definition who_text (w : who_char) : Z := match w with User => 117 | Group => 103 | Other => 111 | All => 97 end.
Definition op_text (o : op_char) : Z := match o with Add => 43 | Remove => 45 | Set_ => 61 end.
Definition perm_text (p : perm_char) : Z :=
  match p with PRead => 114 | PWrite => 119 | PExec => 120 | PSticky => 88 | PSetid => 115 | CopyUser => 117 | CopyGroup => 103 | CopyOther => 111 end.
Definition action_text (a : action) : list Z := op_text (act_op a) :: (perm_text <$> act_perms a).
Definition clause_text (c : clause) : list Z := (who_text <$> cl_who c) ++ concat (action_text <$> cl_actions c).
Fixpoint mode_text (cs : list clause) : list Z :=
  match cs with [] => [] | [c] => clause_text c | c :: cs => clause_text c ++ 44 :: mode_text cs end.

Definition low (i : Z) : Prop := 0 <= i < 12.
Definition same_bits (m : Z) (b : bits) : Prop := ∀ i, low i → Z.testbit m i = b i.

(** ** The parser computes it *)

Ltac low_cases i H := 
  let E := fresh in
  assert (i = 0 ∨ i = 1 ∨ i = 2 ∨ i = 3 ∨ i = 4 ∨ i = 5 ∨ i = 6 ∨ i = 7 ∨ i = 8 ∨ i = 9 ∨ i = 10 ∨ i = 11) as E by (unfold low in H; lia);
  repeat destruct E as [-> | E]; [.. | subst i].

Lemma land_single m k : 0 <= k → (Z.land m (2 ^ k) =? 0) = negb (Z.testbit m k).
Proof.
  intros Hk. destruct (Z.testbit m k) eqn:E; simpl.
  - apply Z.eqb_neq. intros H. assert (Z.testbit (Z.land m (2 ^ k)) k = false) as Hb by by rewrite H, Z.bits_0.
    rewrite Z.land_spec, E, Z.pow2_bits_true in Hb by lia. done.
  - apply Z.eqb_eq, Z.bits_inj'. intros j Hj. rewrite Z.land_spec, Z.bits_0.
    destruct (Z.eq_dec j k) as [-> | Hne]; [by rewrite E |]. rewrite Z.pow2_bits_false by congruence. apply andb_false_r.
Qed.

Lemma u32_low x i : low i → Z.testbit (u32 x) i = Z.testbit x i.
Proof. intros Hi. unfold low in Hi. apply Z.mod_pow2_bits_low. lia. Qed.

Lemma copy_user mode granted :
  same_bits (let perm := Z.land mode S_IRWXU in let perm := Z.lor perm (Z.lor (Z.shiftr perm 3) (Z.shiftr perm 6)) in
             if negb (Z.land mode S_ISUID =? 0) then Z.lor perm S_ISGID else perm) (grants (Z.testbit mode) granted CopyUser).
Proof.
  intros i Hi. cbv zeta. change S_ISUID with (2 ^ 11). rewrite land_single, negb_involutive by lia.
  assert (0 <= i) by (unfold low in Hi; lia).
  destruct (Z.testbit mode 11) eqn:E11; rewrite ?Z.lor_spec, ?Z.shiftr_spec, ?Z.land_spec by done; unfold grants; rewrite E11;
    low_cases i Hi; cbn; rewrite ?andb_true_r, ?andb_false_r, ?orb_false_r, ?orb_true_r, ?orb_diag; done.
Qed.

Lemma copy_group mode granted :
  same_bits (let perm := Z.land mode S_IRWXG in let perm := Z.lor perm (Z.lor (u32 (Z.shiftl perm 3)) (Z.shiftr perm 3)) in
             if negb (Z.land mode S_ISGID =? 0) then Z.lor perm S_ISUID else perm) (grants (Z.testbit mode) granted CopyGroup).
Proof.
  intros i Hi. cbv zeta. change S_ISGID with (2 ^ 10). rewrite land_single, negb_involutive by lia.
  assert (0 <= i) by (unfold low in Hi; lia).
  destruct (Z.testbit mode 10) eqn:E10; rewrite ?Z.lor_spec, ?u32_low, ?Z.shiftl_spec, ?Z.shiftr_spec, ?Z.land_spec by done; unfold grants; rewrite E10;
    low_cases i Hi; cbn; rewrite ?andb_true_r, ?andb_false_r, ?orb_false_r, ?orb_true_r, ?orb_diag; done.
Qed.

Lemma copy_other mode granted :
  same_bits (let perm := Z.land mode S_IRWXO in Z.lor perm (Z.lor (u32 (Z.shiftl perm 6)) (u32 (Z.shiftl perm 3)))) (grants (Z.testbit mode) granted CopyOther).
Proof.
  intros i Hi. cbv zeta. assert (0 <= i) by (unfold low in Hi; lia).
  rewrite ?Z.lor_spec, ?u32_low, ?Z.shiftl_spec, ?Z.shiftr_spec, ?Z.land_spec by done; unfold grants;
    low_cases i Hi; cbn; rewrite ?andb_true_r, ?andb_false_r, ?orb_false_r, ?orb_true_r, ?orb_diag; done.
Qed.

Lemma parse_perm_spec mode ps : ∀ perm granted rest,
  same_bits perm granted → (∀ c t, rest = c :: t → c ∈ [43; 45; 61]) →
  ∃ perm', parse_perm mode ((perm_text <$> ps) ++ rest) perm = (perm', rest) ∧ same_bits perm' (foldl (grants (Z.testbit mode)) granted ps).
Proof.
  induction ps as [| c ps IH]; intros perm granted rest Hp Hrest.
  { exists perm. split; [| done]. destruct rest as [| c t]; [done |]. simpl. specialize (Hrest c t eq_refl).
    rewrite !elem_of_cons, elem_of_nil in Hrest. destruct Hrest as [-> | [-> | [-> | []]]]; done. }
  cbn [foldl fmap list_fmap app parse_perm]. destruct c; cbn [perm_text Z.eqb Pos.eqb].
  all: try (apply IH; [| done]; intros i Hi; rewrite Z.lor_spec, (Hp i Hi); low_cases i Hi; cbn; by destruct (granted _)).
  - apply IH; [apply copy_user | done].
  - apply IH; [apply copy_group | done].
  - apply IH; [apply copy_other | done].
Qed.

Lemma low_mod i k : 0 <= k <= 9 → low (k + i mod 3).
Proof. intros Hk. pose proof (Z.mod_pos_bound i 3 ltac:(done)). unfold low. lia. Qed.

(** The meaning depends on the twelve bits only. *)
Lemma grants_ext m m' g g' c i : same_bits m m' → low i → g i = g' i → grants (Z.testbit m) g c i = grants m' g' c i.
Proof.
  intros Hm Hi Hg. destruct c; unfold grants; rewrite ?Hg; try done.
  - by rewrite (Hm _ (low_mod i 6 ltac:(lia))), (Hm 11 ltac:(by unfold low)).
  - by rewrite (Hm _ (low_mod i 3 ltac:(lia))), (Hm 10 ltac:(by unfold low)).
  - by rewrite (Hm (i mod 3) (low_mod i 0 ltac:(lia))).
Qed.

Lemma perms_ext m m' ps : same_bits m m' → ∀ g g', (∀ i, low i → g i = g' i) → ∀ i, low i → foldl (grants (Z.testbit m)) g ps i = foldl (grants m') g' ps i.
Proof.
  intros Hm. induction ps as [| c ps IH]; intros g g' Hg i Hi; simpl; [by apply Hg |]. apply IH; [| done].
  intros j Hj. apply grants_ext; auto.
Qed.

Lemma op_head a : ∃ c t, action_text a = c :: t ∧ c ∈ [43; 45; 61].
Proof. destruct a as [[] ps]; eexists _, _; (split; [done |]); rewrite !elem_of_cons; auto. Qed.

Lemma actions_head l : ∀ c t, concat (action_text <$> l) = c :: t → c ∈ [43; 45; 61].
Proof.
  destruct l as [| a l]; [done |]. intros c t. destruct (op_head a) as (c' & t' & E & Hin). rewrite fmap_cons. cbn [concat]. rewrite E. intros [= <- _]. done.
Qed.

Lemma parse_actions_spec who wb l : ∀ fuel mode mb, same_bits who wb → same_bits mode mb → (length l <= fuel)%nat →
  ∃ mode', parse_actions fuel (concat (action_text <$> l)) who mode = Some mode' ∧ same_bits mode' (foldl (action_effect wb) mb l).
Proof.
  induction l as [| a l IH]; intros fuel mode mb Hw Hm Hf; [exists mode; by destruct fuel |].
  destruct fuel as [| fuel]; [simpl in Hf; lia |]. rewrite fmap_cons. destruct a as [op ps]. unfold action_text at 1. cbn [concat act_op act_perms app].
  destruct (parse_perm_spec mode ps 0 (λ _, false) (concat (action_text <$> l))) as (perm & Ep & Hp); [by intros i _; rewrite Z.bits_0 | apply actions_head |].
  assert (same_bits (Z.land perm who) (λ i, wb i && perms_bits mb ps i)) as Hand.
  { intros i Hi. rewrite Z.land_spec, (Hw i Hi), (Hp i Hi), andb_comm. f_equal. by apply perms_ext. }
  cbn [parse_actions]. destruct op; cbn [op_text Z.eqb Pos.eqb orb]; rewrite Ep; remember (Z.land perm who) as pw eqn:Epw; apply IH; try done; try (simpl in Hf; lia);
    intros i Hi; unfold action_effect; cbn [act_op act_perms]; rewrite ?Z.lor_spec, ?Z.land_spec, ?Z.lnot_spec by (unfold low in Hi; lia);
    rewrite ?(Hand i Hi), ?(Hm i Hi), ?(Hw i Hi); by destruct (wb i), (mb i), (perms_bits mb ps i).
Qed.

Lemma parse_who_spec ws : ∀ who b rest, 0 <= who → same_bits who b → (∀ c t, rest = c :: t → c ∈ [43; 45; 61]) →
  ∃ who', parse_who ((who_text <$> ws) ++ rest) who = (who', rest) ∧ 0 <= who' ∧ (who' = 0 ↔ who = 0 ∧ ws = []) ∧
    same_bits who' (λ i, b i || existsb (λ w, who_has w i) ws).
Proof.
  induction ws as [| w ws IH]; intros who b rest H0 Hb Hrest.
  { exists who. split_and!; [| done | tauto | intros i Hi; simpl; by rewrite orb_false_r, Hb].
    destruct rest as [| c t]; [done |]. simpl. specialize (Hrest c t eq_refl).
    rewrite !elem_of_cons, elem_of_nil in Hrest. destruct Hrest as [-> | [-> | [-> | []]]]; done. }
  rewrite fmap_cons. cbn [app existsb].
  assert (∃ who1, (∀ t, parse_who (who_text w :: t) who = parse_who t who1) ∧ 0 < who1 ∧ same_bits who1 (λ i, b i || who_has w i)) as (who1 & Hc & Hpos & Hb1).
  { assert (∀ k, 0 < k → 0 < Z.lor who k) as Hlor.
    { intros k Hk. assert (0 <= Z.lor who k) by (apply Z.lor_nonneg; lia). assert (Z.lor who k ≠ 0) by (rewrite Z.lor_eq_0_iff; lia). lia. }
    destruct w; eexists; (split; [done |]); (split; [by apply Hlor || lia |]); intros i Hi; rewrite ?Z.lor_spec, ?(Hb i Hi);
      low_cases i Hi; cbn; by destruct (b _). }
  rewrite Hc. destruct (IH who1 (λ i, b i || who_has w i) rest) as (who' & E & Hp' & Hz & Hb'); [lia | done | done |].
  exists who'. split_and!; [done | done | rewrite Hz; split; [lia | by intros []] | intros i Hi; rewrite (Hb' i Hi); by rewrite orb_assoc].
Qed.

Lemma parse_clause_spec umask mode mb c : same_bits mode mb →
  ∃ mode', parse_clause umask mode (clause_text c) = Some mode' ∧ same_bits mode' (clause_effect (Z.testbit umask) mb c).
Proof.
  intros Hm. unfold parse_clause, clause_text. destruct c as [ws l]. cbn [cl_who cl_actions].
  destruct (parse_who_spec ws 0 (λ _, false) (concat (action_text <$> l))) as (who & E & H0 & Hz & Hb);
    [done | by intros i _; rewrite Z.bits_0 | apply actions_head |]. rewrite E. unfold clause_effect. cbn [cl_who cl_actions].
  apply parse_actions_spec; [| done |].
  - intros i Hi. destruct (Z.eqb_spec who 0) as [Ew | Ew].
    + apply Hz in Ew as [_ ->]. rewrite Z.lor_spec, u32_low, Z.lnot_spec by (done || (unfold low in Hi; lia)). simpl. f_equal.
      low_cases i Hi; done.
    + rewrite (Hb i Hi). destruct ws; [tauto | done].
  - clear E. induction l as [| a l IHl]; [simpl; lia |]. rewrite fmap_cons. cbn [concat]. rewrite length_app. destruct a. simpl in *. lia.
Qed.

Lemma clause_chars c : Forall (λ x, x ≠ 44 ∧ ¬ (48 <= x < 56)) (clause_text c).
Proof.
  unfold clause_text. apply Forall_app. split.
  - apply Forall_fmap, Forall_forall. intros w _. destruct w; simpl; lia.
  - induction (cl_actions c) as [| a l IH]; [constructor |]. rewrite fmap_cons. cbn [concat]. apply Forall_app. split; [| done].
    unfold action_text. constructor; [destruct (act_op a); simpl; lia |]. apply Forall_fmap, Forall_forall. intros p _. destruct p; simpl; lia.
Qed.

Lemma fields_of_single t : Forall (λ x, x ≠ 44) t → fields_of t = [t].
Proof. induction 1 as [| c t Hc Ht IH]; [done |]. simpl. rewrite (proj2 (Z.eqb_neq c 44)) by done. by rewrite IH. Qed.

Lemma fields_of_app t rest : Forall (λ x, x ≠ 44) t → fields_of (t ++ 44 :: rest) = t :: fields_of rest.
Proof. induction 1 as [| c t Hc Ht IH]; [done |]. simpl. rewrite (proj2 (Z.eqb_neq c 44)) by done. by rewrite IH. Qed.

Lemma fields_of_mode cs : cs ≠ [] → fields_of (mode_text cs) = clause_text <$> cs.
Proof.
  induction cs as [| c cs IH]; [done |]. intros _.
  assert (Forall (λ x, x ≠ 44) (clause_text c)) as Hc by (eapply Forall_impl; [apply clause_chars |]; naive_solver).
  destruct cs as [| c2 cs]; [by apply fields_of_single |]. change (mode_text (c :: c2 :: cs)) with (clause_text c ++ 44 :: mode_text (c2 :: cs)).
  rewrite fields_of_app by done. by rewrite IH.
Qed.

Lemma mode_head cs c t : mode_text cs = c :: t → ¬ (48 <= c < 56).
Proof.
  destruct cs as [| cl cs]; [done |]. pose proof (clause_chars cl) as Hc. destruct cs as [| c2 cs]; simpl.
  - intros E. rewrite E in Hc. by apply Forall_cons in Hc as [[_ ?] _].
  - destruct (clause_text cl) as [| x tx]; simpl; intros [= <- _]; [lia | by apply Forall_cons in Hc as [[_ ?] _]].
Qed.

Lemma parse_clauses_spec umask cs : ∀ mode mb, same_bits mode mb →
  ∃ mode', parse_clauses umask mode (clause_text <$> cs) = Some mode' ∧ same_bits mode' (mode_effect (Z.testbit umask) mb cs).
Proof.
  induction cs as [| c cs IH]; intros mode mb Hm; [by exists mode |]. destruct (parse_clause_spec umask mode mb c Hm) as (m1 & E1 & H1).
  destruct (IH m1 _ H1) as (m2 & E2 & H2). exists m2. rewrite fmap_cons. cbn [parse_clauses]. rewrite E1. done.
Qed.

Lemma parse_symbolic cs mode umask : cs ≠ [] →
  ∃ mode', parse_file_mode (mode_text cs) mode umask = Some mode' ∧ same_bits mode' (mode_effect (Z.testbit umask) (Z.testbit mode) cs).
Proof.
  intros Hcs. destruct (parse_clauses_spec umask cs mode (Z.testbit mode)) as (mode' & E & Hb); [done |].
  exists mode'. split; [| done]. rewrite <- fields_of_mode in E by done. unfold parse_file_mode.
  destruct (mode_text cs) as [| c t] eqn:Et; [done |].
  pose proof (mode_head _ _ _ Et) as Hh. destruct (Z.leb_spec 48 c), (Z.ltb_spec c 56); simpl; done || lia.
Qed.

(** ** What is accepted *)

Lemma parse_who_split p : ∀ who who' rest, parse_who p who = (who', rest) → ∃ ws, p = (who_text <$> ws) ++ rest.
Proof.
  induction p as [| c p IH]; intros who who' rest; cbn [parse_who]; [intros [= _ <-]; by exists [] |].
  repeat match goal with |- context [?a =? ?b] => destruct (Z.eqb_spec a b) as [-> | ?] end; intros H;
    try (apply IH in H as [ws ->]).
  - by exists (User :: ws).
  - by exists (Group :: ws).
  - by exists (Other :: ws).
  - by exists (All :: ws).
  - injection H as _ <-. by exists [].
Qed.

Lemma parse_perm_split mode p : ∀ perm perm' rest, parse_perm mode p perm = (perm', rest) → ∃ ps, p = (perm_text <$> ps) ++ rest.
Proof.
  induction p as [| c p IH]; intros perm perm' rest; cbn [parse_perm]; [intros [= _ <-]; by exists [] |].
  repeat match goal with |- context [?a =? ?b] => lazymatch b with 0 => fail | _ => destruct (Z.eqb_spec a b) as [-> | ?] end end; intros H;
    try (apply IH in H as [ps ->]).
  - by exists (PRead :: ps).
  - by exists (PWrite :: ps).
  - by exists (PExec :: ps).
  - by exists (PSticky :: ps).
  - by exists (PSetid :: ps).
  - by exists (CopyUser :: ps).
  - by exists (CopyGroup :: ps).
  - by exists (CopyOther :: ps).
  - injection H as _ <-. by exists [].
Qed.

Lemma parse_actions_split fuel : ∀ p who mode m, parse_actions fuel p who mode = Some m → ∃ l, p = concat (action_text <$> l).
Proof.
  induction fuel as [| fuel IH]; intros [| a p] who mode m; try done; try (by exists []). cbn [parse_actions].
  destruct (Z.eqb_spec a 43) as [-> | H43]; [| destruct (Z.eqb_spec a 45) as [-> | H45]; [| destruct (Z.eqb_spec a 61) as [-> | H61]]]; cbn [orb].
  all: destruct (parse_perm mode _ 0) as [perm rest] eqn:Ep; intros H; try done.
  all: apply parse_perm_split in Ep as [ps ->]; apply IH in H as [l ->].
  - by exists (mk_action Add ps :: l).
  - by exists (mk_action Remove ps :: l).
  - by exists (mk_action Set_ ps :: l).
Qed.

Lemma parse_clauses_split umask fs : ∀ mode m, parse_clauses umask mode fs = Some m → ∃ cs, fs = clause_text <$> cs.
Proof.
  induction fs as [| t fs IH]; intros mode m; [by exists [] |]. cbn [parse_clauses]. intros (m1 & H1 & [cs ->]%IH)%bind_Some.
  unfold parse_clause in H1. destruct (parse_who t 0) as [who p] eqn:Ew. apply parse_who_split in Ew as [ws ->].
  apply parse_actions_split in H1 as [l ->]. by exists (mk_clause ws l :: cs).
Qed.

Fixpoint join (fs : list (list Z)) : list Z :=
  match fs with [] => [] | [f] => f | f :: fs => f ++ 44 :: join fs end.

Lemma join_fields t : ∃ f fs, fields_of t = f :: fs ∧ join (f :: fs) = t.
Proof.
  induction t as [| c t (f & fs & E & IH)]; [by exists [], [] |]. cbn [fields_of]. rewrite E. destruct (Z.eqb_spec c 44) as [-> | Hc].
  - exists [], (f :: fs). split; [done |]. change (join ([] :: f :: fs)) with (44 :: join (f :: fs)). by rewrite IH.
  - exists (c :: f), fs. split; [done |]. rewrite <- IH. by destruct fs.
Qed.

Lemma mode_text_join cs : mode_text cs = join (clause_text <$> cs).
Proof.
  induction cs as [| c [| c2 cs] IH]; [done | done |].
  change (mode_text (c :: c2 :: cs)) with (clause_text c ++ 44 :: mode_text (c2 :: cs)). by rewrite IH.
Qed.

Lemma parse_file_mode_split arg mode umask m : (∀ c t, arg = c :: t → ¬ (48 <= c < 56)) →
  parse_file_mode arg mode umask = Some m → ∃ cs, cs ≠ [] ∧ arg = mode_text cs.
Proof.
  intros Hno H. assert (parse_clauses umask mode (fields_of arg) = Some m) as Hc.
  { unfold parse_file_mode in H. destruct arg as [| c t]; [done |]. specialize (Hno c t eq_refl).
    destruct (Z.leb_spec 48 c), (Z.ltb_spec c 56); simpl in H; done || lia. }
  apply parse_clauses_split in Hc as [cs E]. destruct (join_fields arg) as (f & fs & Ef & Ej). exists cs.
  rewrite mode_text_join, <- E, Ef, Ej. split; [| done]. intros ->. by rewrite Ef in E.
Qed.

(** C40.  A symbolic mode is applied as it is meant: for every list of
    clauses, each with any who list and at least one action, the mode that
    [parse_file_mode] computes from their text has, bit by bit, the
    permissions that the clauses describe, applied from left to right.  Every
    other text that does not begin with an octal digit is refused, except for
    clauses without any action. *)
Theorem file_mode_correct mode umask :
  (∀ cs, cs ≠ [] → Forall (λ c, cl_actions c ≠ []) cs →
     ∃ mode', parse_file_mode (mode_text cs) mode umask = Some mode' ∧
       ∀ i, 0 <= i < 12 → Z.testbit mode' i = mode_effect (Z.testbit umask) (Z.testbit mode) cs i) ∧
  (∀ arg, (∀ c t, arg = c :: t → ¬ (48 <= c < 56)) → (∀ cs, cs ≠ [] → arg ≠ mode_text cs) →
     parse_file_mode arg mode umask = None).
Proof.
  split.
  - intros cs Hcs _. destruct (parse_symbolic cs mode umask Hcs) as (mode' & E & Hb). by exists mode'.
  - intros arg Hd Hno. destruct (parse_file_mode arg mode umask) as [m |] eqn:E; [| done].
    apply parse_file_mode_split in E as (cs & Hcs & ->); [| done]. by destruct (Hno cs Hcs).
Qed.

(** A clause without an action, which a comment of the code excludes, is
    accepted and changes nothing. *)
Lemma no_action_accepted ws mode umask :
  ∃ mode', parse_file_mode (mode_text [mk_clause ws []]) mode umask = Some mode' ∧ ∀ i, 0 <= i < 12 → Z.testbit mode' i = Z.testbit mode i.
Proof. destruct (parse_symbolic [mk_clause ws []] mode umask) as (mode' & E & Hb); [done |]. exists mode'. by split. Qed.

(** [u=rwx,g=u-w,o+r] on the mode 0 *)
Example file_mode_example : parse_file_mode (mode_text
  [mk_clause [User] [mk_action Set_ [PRead; PWrite; PExec]]; mk_clause [Group] [mk_action Set_ [CopyUser]; mk_action Remove [PWrite]];
   mk_clause [Other] [mk_action Add [PRead]]]) 0 0x12 = Some 0x1ec.
Proof. vm_compute. reflexivity. Qed.

(** An octal number is the mode; what follows its digits is ignored. *)
Example octal_mode : parse_file_mode [55; 53; 53] 0 0 = Some 0x1ed ∧ parse_file_mode [55; 53; 53; 113] 0 0 = Some 0x1ed.
Proof. by vm_compute. Qed.

Lemma file_mode_correct_witness :
  ∃ mode', parse_file_mode (mode_text [mk_clause [User] [mk_action Add [PRead]]; mk_clause [] [mk_action Set_ [CopyUser; PExec]]]) 0 0 = Some mode' ∧
    ∀ i, 0 <= i < 12 → Z.testbit mode' i = mode_effect (Z.testbit 0) (Z.testbit 0)
      [mk_clause [User] [mk_action Add [PRead]]; mk_clause [] [mk_action Set_ [CopyUser; PExec]]] i.
Proof. apply (file_mode_correct 0 0); [discriminate | by repeat constructor]. Defined.
