(* ===== verification/Kinit.v ===== *)
(** * The command line of kinit: [kinit/kinit.c] and [kinit/getarg.c]

    [split_cmdline] builds the argument vector from the kernel's command line:
    a first call counts, a second one fills the array and ends the words in
    place.  Lines are strings in memory, the vector is a list of pointers;
    a store outside of it is a fault.  [get_flag] and [get_arg] look for an
    argument from the end. *)

From stdpp Require Import base numbers list gmap.
From Stdlib Require Import Lia.
From S2P Require Import Prelude Memory Ctype MemOps StrOps Numparse.

(** ** Splitting *)

(** [if (cmdv) cmdv[v] = p;] *)
Definition set_cmdv (cmdv : option (list Z)) (v p : Z) : C (option (list Z)) :=
  match cmdv with
  | None => mret None
  | Some l => if (0 <=? v) && (v <? Z.of_nat (length l)) then mret (Some (<[Z.to_nat v := p]> l)) else fault
  end.

(** [while (v < vmax)] over one line. *)
Fixpoint split_loop (fuel : nat) (vmax v p : Z) (was_space : bool) (cmdv : option (list Z)) : C (Z * option (list Z)) :=
  match fuel with
  | O => fault
  | S fuel =>
      if v <? vmax then
        c ← loadc p;
        sp ← lift (isspace c);
        let space := negb (sp =? 0) in
        '(v, cmdv) ←
          (if (space || (c =? 0)) && negb was_space then
             (match cmdv with Some _ => store8 p 0 | None => mret tt end);;
             mret (v + 1, cmdv)
           else if was_space then
             cmdv ← set_cmdv cmdv v p;
             mret (v, cmdv)
           else mret (v, cmdv));
        if c =? 0 then mret (v, cmdv) else split_loop fuel vmax v (p + 1) space cmdv
      else mret (v, cmdv)
  end.

Fixpoint split_lines (vmax v : Z) (cmdlines : list Z) (cmdv : option (list Z)) : C (Z * option (list Z)) :=
  match cmdlines with
  | [] => mret (v, cmdv)
  | p :: cmdlines =>
      '(v, cmdv) ← with_fuel (λ fuel, split_loop fuel vmax v p true cmdv);
      split_lines vmax v cmdlines cmdv
  end.

Fixpoint add_args (vmax v : Z) (args : list Z) (cmdv : option (list Z)) : C (Z * option (list Z)) :=
  match args with
  | [] => mret (v, cmdv)
  | a :: args => if v <? vmax then cmdv ← set_cmdv cmdv v a; add_args vmax (v + 1) args cmdv else mret (v, cmdv)
  end.

Definition split_cmdline (cmdcmax : Z) (cmdv : option (list Z)) (argv0 : Z) (cmdlines args : list Z) : C (Z * option (list Z)) :=
  cmdv ← set_cmdv cmdv 0 argv0;
  '(v, cmdv) ← split_lines cmdcmax 1 cmdlines cmdv;
  '(v, cmdv) ← add_args cmdcmax v args cmdv;
  cmdv ← set_cmdv cmdv v NULL;
  mret (v, cmdv).

(** ** Looking for arguments

    [argv] with its strings as lists of characters. *)

Fixpoint get_flag_loop (i : nat) (argv : list (list Z)) (name : list Z) : Z :=
  match i with
  | O => 0
  | S i' => if bool_decide (argv !! i = Some name) then Z.of_nat i else get_flag_loop i' argv name
  end.
Definition get_flag (argv : list (list Z)) (name : list Z) : Z := get_flag_loop (length argv - 1) argv name.

(** [strncmp(argv[i], name, len) == 0 && argv[i][len] != '\0'] *)
Definition arg_value (arg name : list Z) : option (list Z) :=
  if bool_decide (take (length name) arg = name) then
    match drop (length name) arg with [] => None | v => Some v end
  else None.

Fixpoint get_arg_loop (i : nat) (argv : list (list Z)) (name : list Z) : option (list Z) :=
  match i with
  | O => None
  | S i' => match argv !! i ≫= (λ a, arg_value a name) with Some v => Some v | None => get_arg_loop i' argv name end
  end.
Definition get_arg (argv : list (list Z)) (name : list Z) : option (list Z) := get_arg_loop (length argv - 1) argv name.

(** ** The words of a line *)

(** The words with their offsets; [cur] is the word that has begun. *)
Fixpoint scan_words (i : Z) (cur : option (Z * list Z)) (s : list Z) : list (Z * list Z) :=
  match s with
  | [] => match cur with Some w => [w] | None => [] end
  | c :: s =>
      if is_space c then (match cur with Some w => [w] | None => [] end) ++ scan_words (i + 1) None s
      else match cur with
           | Some (o, w) => scan_words (i + 1) (Some (o, w ++ [c])) s
           | None => scan_words (i + 1) (Some (i, [c])) s
           end
  end.
Definition words (s : list Z) : list (list Z) := (scan_words 0 None s).*2.

Definition ascii (b : Z) : Prop := 0 < b < 128.

Lemma ascii_char b : ascii b → s8 b = b ∧ in_u 8 b ∧ ∃ v, isspace b = Some v ∧ negb (v =? 0) = is_space b.
Proof.
  intros Hb. unfold ascii in Hb. assert (in_u 8 b) as H8 by (unfold in_u; lia).
  split_and!; [apply wraps_small; [done | unfold in_s; lia] | done |].
  destruct (isspace_some b) as [v Hv]; [lia |]. exists v. split; [done |]. unfold is_space. by rewrite Hv.
Qed.

Lemma isspace_nul : isspace 0 = Some 0.
Proof. vm_compute. reflexivity. Qed.

(** The first pass: the words are counted, memory and array are not touched. *)
Lemma count_words s : ∀ fuel m vmax v p i cur,
  cstr m p s → Forall ascii s → (length s < fuel)%nat → v + Z.of_nat (length s) + 1 < vmax →
  split_loop fuel vmax v p (bool_decide (cur = None)) None m =
    Some ((v + Z.of_nat (length (scan_words i cur s)), None), m).
Proof.
  induction s as [| b s IH]; intros fuel m vmax v p i cur Hs Ha Hf Hv; (destruct fuel as [| fuel]; [simpl in Hf; lia |]); cbn [split_loop];
    rewrite (proj2 (Z.ltb_lt _ _)) by lia.
  - apply cstr_nil in Hs. erewrite bind_ok by by apply loadc_ok. change (s8 0) with 0. rewrite isspace_nul. unfold lift. cbn [fmap option_fmap option_map].
    erewrite bind_ok by done. cbn [negb orb andb]. change (0 =? 0) with true. cbn [negb orb andb].
    destruct cur as [[o w] |]; [rewrite bool_decide_false by done | rewrite bool_decide_true by done]; cbn [negb]; simpl; unfold mbind, st_bind, mret, st_ret; do 3 f_equal; lia.
  - apply cstr_cons in Hs as (Hb & Hnz & Hs). apply Forall_cons in Ha as [Hab Ha]. destruct (ascii_char b Hab) as (Es & _ & sp & Hsp & Espace).
    erewrite bind_ok by by apply loadc_ok. rewrite Es. unfold lift. rewrite Hsp. cbn [fmap option_fmap option_map]. erewrite bind_ok by done.
    rewrite Espace, (proj2 (Z.eqb_neq b 0)) by done. rewrite orb_false_r. simpl length in *. cbn [scan_words].
    assert (∀ cur', bool_decide (cur' = None) = is_space b → ∀ v', v <= v' <= v + 1 →
      split_loop fuel vmax v' (p + 1) (is_space b) None m = Some ((v' + Z.of_nat (length (scan_words (i + 1) cur' s)), None), m)) as Hnext.
    { intros cur' <- v' Hv'. apply IH; [done | done | lia | lia]. }
    destruct (is_space b) eqn:Eb; cbn [andb].
    + destruct cur as [[o w] |]; [rewrite bool_decide_false by done | rewrite bool_decide_true by done]; cbn [negb]; simpl.
      * unfold mbind, st_bind, mret, st_ret. rewrite (Hnext None) by (done || lia). do 3 f_equal. lia.
      * unfold mbind, st_bind, mret, st_ret. rewrite (Hnext None) by (done || lia). done.
    + destruct cur as [[o w] |]; [rewrite bool_decide_false by done | rewrite bool_decide_true by done]; simpl;
        unfold mbind, st_bind, mret, st_ret; (erewrite Hnext; [done | done | lia]).
Qed.

(** Where the words are. *)
Lemma scan_words_some s : ∀ i o w, (1 <= length (scan_words i (Some (o, w)) s))%nat.
Proof.
  induction s as [| c s IH]; intros i o w; simpl; [lia |]. destruct (is_space c); [simpl; lia | apply IH].
Qed.

Lemma scan_words_bounds s : ∀ i cur o w, (o, w) ∈ scan_words i cur s → (∀ o' w', cur = Some (o', w') → o' + Z.of_nat (length w') = i) →
  (match cur with Some (o', _) => o' | None => i end) <= o ∧ o + Z.of_nat (length w) <= i + Z.of_nat (length s).
Proof.
  induction s as [| c s IH]; intros i cur o w Hin Hcur; simpl in Hin |- *.
  - destruct cur as [[o' w'] |]; [| by apply elem_of_nil in Hin]. apply list_elem_of_singleton in Hin as [= -> ->]. specialize (Hcur _ _ eq_refl). lia.
  - destruct (is_space c).
    + apply elem_of_app in Hin as [Hin | Hin].
      * destruct cur as [[o' w'] |]; [| by apply elem_of_nil in Hin]. apply list_elem_of_singleton in Hin as [= -> ->]. specialize (Hcur _ _ eq_refl). lia.
      * apply IH in Hin as [? ?]; [| done]. destruct cur as [[o' w'] |]; [specialize (Hcur _ _ eq_refl) |]; lia.
    + destruct cur as [[o' w'] |].
      * apply IH in Hin as [? ?]; [lia |]. intros ? ? [= <- <-]. specialize (Hcur _ _ eq_refl). rewrite length_app. simpl. lia.
      * apply IH in Hin as [? ?]; [lia |]. intros ? ? [= <- <-]. simpl. lia.
Qed.

Lemma same_outside_insert a n m x v : a <= x < a + n → same_outside a n m (<[x := v]> m).
Proof. intros Hx k Hk. apply lookup_insert_ne. lia. Qed.

(** The state of the second pass: the word that has begun is at its place, and
    the array points to it. *)
Definition begun (m : mem) (l : list Z) (p0 i v : Z) (cur : option (Z * list Z)) : Prop :=
  match cur with
  | Some (o, w) => mem_at m (p0 + o) w ∧ Forall (λ b, b ≠ 0) w ∧ o + Z.of_nat (length w) = i ∧ l !! Z.to_nat v = Some (p0 + o)
  | None => True
  end.

(** What it has done: the words are strings, and the array points to them. *)
Record filled (m : mem) (l : list Z) (p0 i n v : Z) (ws : list (Z * list Z)) (m' : mem) (l' : list Z) : Prop := {
  fi_length : length l' = length l;
  fi_before : ∀ j, (j < Z.to_nat v)%nat → l' !! j = l !! j;
  fi_words : ∀ k o w, ws !! k = Some (o, w) → l' !! (Z.to_nat v + k)%nat = Some (p0 + o) ∧ cstr m' (p0 + o) w;
  fi_memory : same_outside (p0 + i) n m m';
}.

Lemma filled_weaken m l p0 i n v ws m' l' l0 m0 : filled m l p0 (i + 1) n v ws m' l' → 0 <= n →
  length l = length l0 → (∀ j, (j < Z.to_nat v)%nat → l !! j = l0 !! j) → same_outside (p0 + i) (n + 1) m0 m →
  filled m0 l0 p0 i (n + 1) v ws m' l'.
Proof.
  intros [Hl Hb Hw Hm] Hn E Hbb Hmm. split; [by rewrite Hl | intros j Hj; rewrite Hb by done; by apply Hbb | done |].
  eapply same_outside_trans; [done | done | lia | lia].
Qed.

(** Ending the word that has begun. *)
Lemma end_word m l p0 i v o w : begun m l p0 i v (Some (o, w)) → is_Some (m !! (p0 + i)) →
  cstr (<[p0 + i := 0]> m) (p0 + o) w.
Proof.
  intros (Hm & Hz & Hi & _) Hp. split; [| done]. intros k x Hk. destruct (decide (k = length w)) as [-> | Hne].
  - rewrite list_lookup_middle in Hk by done. apply (inj Some) in Hk as <-. replace (p0 + o + Z.of_nat (length w)) with (p0 + i) by lia.
    by rewrite lookup_insert_eq.
  - pose proof (lookup_lt_Some _ _ _ Hk) as Hlt. rewrite length_app in Hlt. simpl in Hlt.
    rewrite lookup_insert_ne by lia. apply Hm. by rewrite lookup_app_l in Hk by lia.
Qed.

Lemma filled_cons m l p0 i n v o w ws m' l' :
  begun m l p0 i v (Some (o, w)) → is_Some (m !! (p0 + i)) → 0 <= v → 0 <= n → 0 <= Z.of_nat (length w) →
  filled (<[p0 + i := 0]> m) l p0 (i + 1) n (v + 1) ws m' l' → filled m l p0 i (n + 1) v ((o, w) :: ws) m' l'.
Proof.
  intros Hb Hp Hv Hn Hw [Hl Hbf Hws Hm]. pose proof Hb as (_ & _ & Hi & Hlv). split; [done | | |].
  - intros j Hj. apply Hbf. lia.
  - intros [| k] o' w' Hk; simpl in Hk.
    + apply (inj Some) in Hk. injection Hk as <- <-. split; [rewrite Nat.add_0_r, Hbf by lia; done |].
      eapply cstr_outside; [by eapply end_word | done | left; lia].
    + replace (Z.to_nat v + S k)%nat with (Z.to_nat (v + 1) + k)%nat by lia. by apply Hws.
  - apply (same_outside_trans _ _ (p0 + (i + 1)) n _ (<[p0 + i := 0]> m)); [apply same_outside_insert; lia | done | lia | lia].
Qed.

Lemma set_cmdv_ok l v p (m : mem) : 0 <= v < Z.of_nat (length l) → let l' := <[Z.to_nat v := p]> l in
  set_cmdv (Some l) v p m = Some (Some l', m) ∧ length l' = length l ∧ (∀ j, (j < Z.to_nat v)%nat → l' !! j = l !! j) ∧ l' !! Z.to_nat v = Some p.
Proof.
  intros Hv l'. unfold set_cmdv. rewrite (proj2 (Z.leb_le 0 v)), (proj2 (Z.ltb_lt v _)) by lia.
  split_and!; [done | apply length_insert | intros j Hj; apply list_lookup_insert_ne; lia | apply list_lookup_insert_eq; lia].
Qed.

Lemma fill_words s : ∀ fuel m vmax v p0 i cur l,
  cstr m (p0 + i) s → Forall ascii s → (length s < fuel)%nat → 0 <= v → vmax < Z.of_nat (length l) →
  v + Z.of_nat (length (scan_words i cur s)) <= vmax → begun m l p0 i v cur →
  ∃ m' l', split_loop fuel vmax v (p0 + i) (bool_decide (cur = None)) (Some l) m =
      Some ((v + Z.of_nat (length (scan_words i cur s)), Some l'), m') ∧
    filled m l p0 i (Z.of_nat (length s) + 1) v (scan_words i cur s) m' l'.
Proof.
  induction s as [| b s IH]; intros fuel m vmax v p0 i cur l Hs Ha Hf Hv Hl Hn Hbg; (destruct fuel as [| fuel]; [simpl in Hf; lia |]); cbn [split_loop].
  - destruct (Z.ltb_spec v vmax) as [Hlt | Hge].
    2: { destruct cur as [[o w] |]; simpl in Hn; [lia |]. exists m, l. simpl. rewrite Z.add_0_r. split; [done |]. split; done. }
    apply cstr_nil in Hs. erewrite bind_ok by by apply loadc_ok. change (s8 0) with 0. rewrite isspace_nul. unfold lift. cbn [fmap option_fmap option_map].
    erewrite bind_ok by done. change (negb (0 =? 0) || (0 =? 0)) with true. cbn [andb]. destruct cur as [[o w] |].
    + rewrite bool_decide_false by done. cbn [negb scan_words]. unfold mbind, st_bind, mret, st_ret. rewrite (store8_ok m (p0 + i) 0 0) by done.
      change (0 =? 0) with true. cbv iota. exists (<[p0 + i := 0]> m), l. split; [done |].
      apply (filled_cons m l p0 i 0 v o w []); [done | by eexists | done | lia | lia |]. split; done.
    + rewrite bool_decide_true by done. cbn [negb scan_words]. unfold mbind, st_bind, mret, st_ret. simpl set_cmdv.
      rewrite (proj2 (Z.leb_le 0 v)), (proj2 (Z.ltb_lt v _)) by lia. cbn [andb]. change (0 =? 0) with true. cbv iota. unfold mret, st_ret. simpl length. rewrite Z.add_0_r.
      eexists m, _. split; [done |]. split; [apply length_insert | intros j Hj; apply list_lookup_insert_ne; lia | done | done].
  - apply cstr_cons in Hs as (Hb & Hnz & Hs). apply Forall_cons in Ha as [Hab Ha]. destruct (ascii_char b Hab) as (Es & _ & sp & Hsp & Espace).
    rewrite <- Z.add_assoc in Hs. change (length (b :: s)) with (S (length s)) in *.
    assert (cur = None ∧ is_space b = true ∧ v = vmax ∨ v < vmax) as [(-> & Eb & ->) | Hlt].
    { destruct (Z.eq_dec v vmax) as [-> | ?]; [| lia]. cbn [scan_words] in Hn.
      destruct cur as [[o w] |]; destruct (is_space b); cbn [length app] in Hn; try lia; [| tauto |];
        [pose proof (scan_words_some s (i + 1) o (w ++ [b])) | pose proof (scan_words_some s (i + 1) i [b])]; lia. }
    { rewrite Z.ltb_irrefl. assert (scan_words i None (b :: s) = []) as E by (apply nil_length_inv; lia). rewrite E. exists m, l.
      change (Z.of_nat (length [])) with 0. rewrite Z.add_0_r. split; [done |]. split; done. }
    rewrite (proj2 (Z.ltb_lt v vmax)) by done.
    erewrite bind_ok by by apply loadc_ok. rewrite Es. unfold lift. rewrite Hsp. cbn [fmap option_fmap option_map]. erewrite bind_ok by done.
    rewrite Espace, (proj2 (Z.eqb_neq b 0)) by done. rewrite orb_false_r, <- Z.add_assoc. cbn [scan_words] in Hn |- *.
    replace (Z.of_nat (S (length s)) + 1) with (Z.of_nat (length s) + 1 + 1) by lia.
    destruct (set_cmdv_ok l v (p0 + i) m) as (Hset & Hl1 & Hl2 & Hl3); [lia |].
    assert (same_outside (p0 + i) (Z.of_nat (length s) + 1 + 1) m m) as Hsame by done.
    destruct (is_space b) eqn:Eb; cbn [andb]; (destruct cur as [[o w] |]; [rewrite bool_decide_false by done | rewrite bool_decide_true by done]); cbn [negb].
    + unfold mbind, st_bind, mret, st_ret. rewrite (store8_ok m (p0 + i) 0 b) by done. change (u8 0) with 0. cbn [app length] in Hn |- *.
      destruct (IH fuel (<[p0 + i := 0]> m) vmax (v + 1) p0 (i + 1) None l) as (m' & l' & E & Hfill); [| done | lia | lia | done | lia | done |].
      { eapply cstr_outside; [done | apply (same_outside_insert (p0 + i) 1); lia | lia]. }
      rewrite bool_decide_true in E by done. exists m', l'. split; [rewrite E; do 3 f_equal; lia |].
      apply filled_cons; [done | by eexists | done | lia | lia | done].
    + erewrite bind_ok by (erewrite bind_ok by done; done). cbn [app] in Hn |- *.
      destruct (IH fuel m vmax v p0 (i + 1) None (<[Z.to_nat v := p0 + i]> l)) as (m' & l' & E & Hfill); [done | done | lia | lia | by rewrite Hl1 | done | done |].
      rewrite bool_decide_true in E by done. exists m', l'. split; [done |]. eapply filled_weaken; [done | lia | done | done | done].
    + unfold mbind, st_bind, mret, st_ret.
      destruct (IH fuel m vmax v p0 (i + 1) (Some (o, w ++ [b])) l) as (m' & l' & E & Hfill); [done | done | lia | lia | done | done | |].
      { destruct Hbg as (Hm & Hz & Hi & Hlv). split_and!; [| | rewrite length_app; simpl; lia | done].
        - apply mem_at_app. split; [done |]. replace (p0 + o + Z.of_nat (length w)) with (p0 + i) by lia. by apply mem_at_cons.
        - apply Forall_app. split; [done | by constructor]. }
      rewrite bool_decide_false in E by done. exists m', l'. split; [done |]. by eapply filled_weaken; [| lia | | |].
    + erewrite bind_ok by (erewrite bind_ok by done; done).
      destruct (IH fuel m vmax v p0 (i + 1) (Some (i, [b])) (<[Z.to_nat v := p0 + i]> l)) as (m' & l' & E & Hfill);
        [done | done | lia | lia | by rewrite Hl1 | done | |].
      { split_and!; [by apply mem_at_cons | by constructor | simpl; lia | done]. }
      rewrite bool_decide_false in E by done. exists m', l'. split; [done |]. eapply filled_weaken; [done | lia | done | done | done].
Qed.

(** ** The whole vector *)

Abbreviation line := (Z * list Z)%type.
Definition line_ok (m : mem) (ln : line) : Prop := cstr m ln.1 ln.2 ∧ Forall ascii ln.2.
Definition outside (a : Z) (ln : line) : Prop := a < ln.1 ∨ ln.1 + Z.of_nat (length ln.2) < a.
Fixpoint apart_lines (ls : list line) : Prop :=
  match ls with
  | [] => True
  | ln :: ls => Forall (λ ln', ln.1 + Z.of_nat (length ln.2) < ln'.1 ∨ ln'.1 + Z.of_nat (length ln'.2) < ln.1) ls ∧ apart_lines ls
  end.
Definition all_words (ls : list line) : list (list Z) := concat ((λ ln, words ln.2) <$> ls).
Definition total (ls : list line) : Z := foldr (λ ln n, Z.of_nat (length ln.2) + 1 + n) 0 ls.

Lemma total_nonneg ls : 0 <= total ls.
Proof. induction ls as [| ln ls IH]; simpl; [lia |]. fold (total ls). lia. Qed.

Lemma words_le s : ∀ i cur, (length (scan_words i cur s) <= length s + match cur with Some _ => 1 | None => 0 end)%nat.
Proof.
  induction s as [| c s IH]; intros i cur; simpl; [by destruct cur; simpl; lia |]. destruct (is_space c).
  - rewrite length_app. pose proof (IH (i + 1) None) as H. simpl in H. destruct cur; simpl; lia.
  - destruct cur as [[o w] |]; [pose proof (IH (i + 1) (Some (o, w ++ [c]))) | pose proof (IH (i + 1) (Some (i, [c])))]; simpl in *; lia.
Qed.

Lemma length_all_words p s ls : length (all_words ((p, s) :: ls)) = (length (scan_words 0 None s) + length (all_words ls))%nat.
Proof. unfold all_words. rewrite fmap_cons. cbn [concat snd]. rewrite length_app. unfold words at 1. by rewrite length_fmap. Qed.

Lemma all_words_le ls : Z.of_nat (length (all_words ls)) <= total ls.
Proof.
  induction ls as [| [p s] ls IH]; [done |]. rewrite length_all_words. pose proof (words_le s 0 None) as H. simpl in *. fold (total ls). lia.
Qed.

Lemma count_lines ls : ∀ m vmax v, Forall (line_ok m) ls → v + total ls < vmax →
  split_lines vmax v ls.*1 None m = Some ((v + Z.of_nat (length (all_words ls)), None), m).
Proof.
  induction ls as [| [p s] ls IH]; intros m vmax v Hls Hv.
  { simpl. unfold mret, st_ret. by rewrite Z.add_0_r. }
  cbn [fmap list_fmap split_lines fst total foldr snd] in *. fold (total ls) in Hv. apply Forall_cons in Hls as [[Hs Ha] Hls]. simpl in Hs, Ha. pose proof (total_nonneg ls).
  unfold with_fuel. erewrite bind_ok by (apply (count_words s _ _ _ _ _ 0 None); [done | done | apply cstr_length in Hs; lia | lia]).
  pose proof (words_le s 0 None) as Hw. simpl in Hw. cbv beta iota. change (list_fmap line Z fst ls) with ls.*1. rewrite IH; [| done | lia].
  rewrite length_all_words. do 3 f_equal. lia.
Qed.

(** The vector holds, from [v] on, pointers to these strings. *)
Definition points (m : mem) (l : list Z) (v : nat) (ws : list (list Z)) : Prop :=
  ∀ k w, ws !! k = Some w → ∃ p, l !! (v + k)%nat = Some p ∧ cstr m p w.

Lemma fill_lines ls : ∀ m vmax v l, Forall (line_ok m) ls → apart_lines ls → 0 <= v → vmax < Z.of_nat (length l) →
  v + Z.of_nat (length (all_words ls)) <= vmax →
  ∃ m' l', split_lines vmax v ls.*1 (Some l) m = Some ((v + Z.of_nat (length (all_words ls)), Some l'), m') ∧
    length l' = length l ∧ (∀ j, (j < Z.to_nat v)%nat → l' !! j = l !! j) ∧ points m' l' (Z.to_nat v) (all_words ls) ∧
    (∀ a, Forall (outside a) ls → m' !! a = m !! a).
Proof.
  induction ls as [| [p s] ls IH]; intros m vmax v l Hls Hap Hv Hl Hn.
  { exists m, l. simpl. unfold mret, st_ret. rewrite Z.add_0_r. split_and!; done. }
  apply Forall_cons in Hls as [[Hs Ha] Hls]. destruct Hap as [Hap1 Hap]. cbn [fst snd] in *.
  assert (all_words ((p, s) :: ls) = words s ++ all_words ls) as Eall by done. rewrite Eall, length_app in *. clear Eall.
  assert (length (words s) = length (scan_words 0 None s)) as Ew by apply length_fmap.
  destruct (fill_words s (S (size m)) m vmax v p 0 None l) as (m1 & l1 & E1 & [Hf1 Hf2 Hf3 Hf4]);
    [by rewrite Z.add_0_r | done | apply cstr_length in Hs; lia | done | done | lia | done |].
  rewrite Z.add_0_r in E1, Hf4. rewrite bool_decide_true in E1 by done.
  assert (∀ a, a < p ∨ p + Z.of_nat (length s) < a → m1 !! a = m !! a) as Hout by (intros a Ho; apply Hf4; lia).
  destruct (IH m1 vmax (v + Z.of_nat (length (words s))) l1) as (m2 & l2 & E2 & Hg1 & Hg2 & Hg3 & Hg4); [| done | lia | by rewrite Hf1 | lia |].
  { rewrite Forall_forall in Hls, Hap1 |- *. intros [q t] Hin. destruct (Hls _ Hin) as [Ht Hat]. specialize (Hap1 _ Hin). cbn [fst snd] in *. split; cbn [fst snd]; [| done].
    eapply cstr_outside; [done | exact Hf4 | lia]. }
  exists m2, l2. cbn [fmap list_fmap split_lines fst]. unfold with_fuel. erewrite bind_ok by exact E1. rewrite <- Ew, E2.
  split_and!; [do 3 f_equal; lia | by rewrite Hg1 | intros j Hj; rewrite Hg2 by lia; by apply Hf2 | |].
  - intros k w Hk. destruct (decide (k < length (words s))%nat) as [Hlt | Hge].
    + rewrite lookup_app_l in Hk by done. unfold words in Hk. rewrite list_lookup_fmap in Hk. apply fmap_Some in Hk as ([o w'] & Hk & ->).
      destruct (Hf3 k o w' Hk) as [Hp Hc]. simpl. exists (p + o). split; [rewrite Hg2 by lia; done |].
      apply list_elem_of_lookup_2, scan_words_bounds in Hk as [Ho1 Ho2]; [| done]. destruct Hc as [Hm Hz]. split; [| done].
      intros j x Hj. rewrite Hg4; [by apply Hm |]. pose proof (lookup_lt_Some _ _ _ Hj) as Hjl. rewrite length_app in Hjl. simpl in Hjl.
      rewrite Forall_forall in Hap1 |- *. intros ln Hin. specialize (Hap1 _ Hin). unfold outside. lia.
    + rewrite lookup_app_r in Hk by lia. destruct (Hg3 _ _ Hk) as (q & Hq & Hc). exists q. split; [| done]. rewrite <- Hq. f_equal. lia.
  - intros a Hout'. apply Forall_cons in Hout' as [Ho Hos]. rewrite Hg4 by done. by apply Hout.
Qed.

Lemma add_args_count args : ∀ (m : mem) vmax v, v + Z.of_nat (length args) <= vmax →
  add_args vmax v args None m = Some ((v + Z.of_nat (length args), None), m).
Proof.
  induction args as [| a args IH]; intros m vmax v Hv; simpl in *.
  { unfold mret, st_ret. by rewrite Z.add_0_r. }
  rewrite (proj2 (Z.ltb_lt _ _)) by lia. erewrite bind_ok by done. rewrite IH by lia. do 3 f_equal. lia.
Qed.

Lemma add_args_fill args : ∀ (m : mem) vmax v l, 0 <= v → v + Z.of_nat (length args) <= vmax → vmax < Z.of_nat (length l) →
  ∃ l', add_args vmax v args (Some l) m = Some ((v + Z.of_nat (length args), Some l'), m) ∧ length l' = length l ∧
    (∀ j, (j < Z.to_nat v)%nat → l' !! j = l !! j) ∧ (∀ k a, args !! k = Some a → l' !! (Z.to_nat v + k)%nat = Some a).
Proof.
  induction args as [| a args IH]; intros m vmax v l Hv Hn Hl; cbn [length add_args] in *.
  { exists l. simpl. unfold mret, st_ret. rewrite Z.add_0_r. done. }
  rewrite (proj2 (Z.ltb_lt _ _)) by lia. destruct (set_cmdv_ok l v a m) as (Hset & Hl1 & Hl2 & Hl3); [lia |]. rewrite (bind_ok _ _ _ _ _ Hset).
  destruct (IH m vmax (v + 1) (<[Z.to_nat v := a]> l)) as (l' & E & Hg1 & Hg2 & Hg3); [lia | lia | by rewrite Hl1 |].
  exists l'. rewrite E. split_and!; [do 3 f_equal; lia | by rewrite Hg1 | intros j Hj; rewrite Hg2 by lia; by apply Hl2 |].
  intros [| k] x Hk; simpl in Hk.
  - apply (inj Some) in Hk as <-. rewrite Nat.add_0_r, Hg2 by lia. done.
  - replace (Z.to_nat v + S k)%nat with (Z.to_nat (v + 1) + k)%nat by lia. by apply Hg3.
Qed.

(** The argument vector of kinit is right: for command lines of
    ASCII text that lie apart in memory, the first call of [split_cmdline]
    counts, without touching anything, one for the program, the words of all
    lines and the further arguments; the second call, with an array of one
    more than that, returns the same number without a store outside of the
    array, and the array then holds the program's name, pointers to strings
    that are exactly the words in order, the further arguments and a null
    pointer. *)
Theorem split_cmdline_correct m argv0 lines args cmdv :
  Forall (line_ok m) lines → apart_lines lines →
  let n := 1 + Z.of_nat (length (all_words lines)) + Z.of_nat (length args) in
  1 + total lines + Z.of_nat (length args) < 2 ^ 31 - 1 → Z.of_nat (length cmdv) = n + 1 →
  split_cmdline (2 ^ 31 - 1) None argv0 lines.*1 args m = Some ((n, None), m) ∧
  ∃ m' cmdv', split_cmdline n (Some cmdv) argv0 lines.*1 args m = Some ((n, Some cmdv'), m') ∧
    length cmdv' = length cmdv ∧ cmdv' !! 0%nat = Some argv0 ∧ points m' cmdv' 1 (all_words lines) ∧
    drop (S (length (all_words lines))) cmdv' = args ++ [NULL] ∧
    (∀ a, Forall (outside a) lines → m' !! a = m !! a).
Proof.
  intros Hls Hap n Htot Hlen. pose proof (all_words_le lines) as Hw. pose proof (total_nonneg lines). unfold split_cmdline. split.
  - erewrite bind_ok by done. erewrite bind_ok by (apply count_lines; [done | lia]). cbv beta iota.
    erewrite bind_ok by (apply add_args_count; lia). cbv beta iota. erewrite bind_ok by done. done.
  - destruct (set_cmdv_ok cmdv 0 argv0 m) as (Hset & Hl1 & _ & Hl3); [lia |]. rewrite (bind_ok _ _ _ _ _ Hset).
    destruct (fill_lines lines m n 1 (<[Z.to_nat 0 := argv0]> cmdv)) as (m' & l1 & E1 & Hf1 & Hf2 & Hf3 & Hf4); [done | done | lia | rewrite Hl1; lia | lia |].
    rewrite (bind_ok _ _ _ _ _ E1). cbv beta iota.
    destruct (add_args_fill args m' n (1 + Z.of_nat (length (all_words lines))) l1) as (l2 & E2 & Hg1 & Hg2 & Hg3); [lia | lia | rewrite Hf1, Hl1; lia |].
    rewrite (bind_ok _ _ _ _ _ E2). cbv beta iota. fold n.
    destruct (set_cmdv_ok l2 n NULL m') as (Hset3 & Hh1 & Hh2 & Hh3); [rewrite Hg1, Hf1, Hl1; lia |]. rewrite (bind_ok _ _ _ _ _ Hset3).
    exists m', (<[Z.to_nat n := NULL]> l2). change (Z.to_nat 1) with 1%nat in *. change (Z.to_nat 0) with 0%nat in *.
    split_and!; [done | by rewrite Hh1, Hg1, Hf1, Hl1 | | | | done].
    + rewrite Hh2, Hg2, Hf2 by lia. done.
    + intros k w Hk. destruct (Hf3 k w Hk) as (p & Hp & Hc). exists p. split; [| done]. pose proof (lookup_lt_Some _ _ _ Hk). rewrite Hh2, Hg2 by lia. done.
    + apply list_eq_same_length with (n := S (length args)); [rewrite length_app; simpl; lia | rewrite length_drop, Hh1, Hg1, Hf1, Hl1; lia |].
      intros k x y Hk. rewrite lookup_drop. destruct (decide (k = length args)) as [-> | Hne].
      * rewrite list_lookup_middle by done. replace (S (length (all_words lines)) + length args)%nat with (Z.to_nat n) by lia. rewrite Hh3. congruence.
      * rewrite Hh2 by lia. rewrite lookup_app_l by lia. intros Hx Hy. apply Hg3 in Hy.
        replace (Z.to_nat (1 + Z.of_nat (length (all_words lines))) + k)%nat with (S (length (all_words lines)) + k)%nat in Hy by lia. congruence.
Qed.

(** The words of a text made of words and white space are these words. *)
Definition spaced (l : list (list Z * list Z)) (tail : list Z) : list Z := concat ((λ '(sp, w), sp ++ w) <$> l) ++ tail.
Definition spaces (sp : list Z) : Prop := Forall (λ c, is_space c = true) sp.
Definition word (w : list Z) : Prop := w ≠ [] ∧ Forall (λ c, is_space c = false) w.

Lemma scan_spaces sp : ∀ i s, spaces sp → scan_words i None (sp ++ s) = scan_words (i + Z.of_nat (length sp)) None s.
Proof.
  induction sp as [| c sp IH]; intros i s Hsp; [simpl; by rewrite Z.add_0_r |]. apply Forall_cons in Hsp as [Hc Hsp]. simpl. rewrite Hc. simpl.
  rewrite IH by done. f_equal. lia.
Qed.

Lemma scan_word_chars w : ∀ i o w0 s, Forall (λ c, is_space c = false) w →
  scan_words i (Some (o, w0)) (w ++ s) = scan_words (i + Z.of_nat (length w)) (Some (o, w0 ++ w)) s.
Proof.
  induction w as [| c w IH]; intros i o w0 s Hw; [simpl; by rewrite Z.add_0_r, app_nil_r |]. apply Forall_cons in Hw as [Hc Hw]. simpl. rewrite Hc.
  rewrite IH by done. rewrite <- app_assoc. simpl. f_equal. lia.
Qed.

Lemma scan_after l : ∀ i cur tail, Forall (λ '(sp, w), spaces sp ∧ sp ≠ [] ∧ word w) l → spaces tail →
  (scan_words i cur (spaced l tail)).*2 = (match cur with Some (_, w) => [w] | None => [] end) ++ l.*2.
Proof.
  induction l as [| [sp w] l IH]; intros i cur tail Hl Ht.
  - unfold spaced. simpl. destruct tail as [| c tail]; [by destruct cur as [[]|] |]. apply Forall_cons in Ht as [Hc Ht]. simpl. rewrite Hc.
    rewrite <- (app_nil_r tail), scan_spaces by done. simpl. rewrite app_nil_r. by destruct cur as [[]|].
  - apply Forall_cons in Hl as [(Hsp & Hne & Hw & Hwc) Hl]. unfold spaced. rewrite fmap_cons. cbn [concat]. rewrite <- !app_assoc. fold (spaced l tail).
    destruct sp as [| c sp]; [done |]. apply Forall_cons in Hsp as [Hc Hsp]. cbn [app scan_words]. rewrite Hc, fmap_app, scan_spaces by done.
    destruct w as [| d w]; [done |]. apply Forall_cons in Hwc as [Hd Hwc]. cbn [app scan_words]. rewrite Hd.
    rewrite scan_word_chars by done. rewrite IH by done. by destruct cur as [[]|].
Qed.

Lemma words_spaced w0 l tail : word w0 → Forall (λ '(sp, w), spaces sp ∧ sp ≠ [] ∧ word w) l → spaces tail →
  words (w0 ++ spaced l tail) = w0 :: l.*2.
Proof.
  intros [Hne Hc] Hl Ht. unfold words. destruct w0 as [| d w0]; [done |]. apply Forall_cons in Hc as [Hd Hc]. cbn [app scan_words]. rewrite Hd.
  rewrite scan_word_chars by done. by rewrite scan_after.
Qed.

(** ** Arguments *)

(** Of several arguments with the same name the last one counts:
    [get_arg] returns the value of the last argument after the program's name
    that begins with the name and goes on. *)
Theorem get_arg_correct argv name : get_arg argv name = last (omap (λ a, arg_value a name) (tail argv)).
Proof.
  unfold get_arg. destruct argv as [| a0 argv]; [done |]. simpl tail. replace (length (a0 :: argv) - 1)%nat with (length argv) by (simpl; lia).
  assert (∀ i, (i <= length argv)%nat → get_arg_loop i (a0 :: argv) name = last (omap (λ a, arg_value a name) (take i argv))) as H.
  { induction i as [| i IH]; intros Hi; [done |]. cbn [get_arg_loop]. destruct (lookup_lt_is_Some_2 argv i ltac:(lia)) as [a Ha].
    change ((a0 :: argv) !! S i) with (argv !! i). rewrite Ha. erewrite take_S_r by done. rewrite omap_app. simpl.
    destruct (arg_value a name) as [v |]; [by rewrite last_snoc | rewrite app_nil_r; apply IH; lia]. }
  rewrite H by done. by rewrite take_ge.
Qed.

(** [get_flag] is the index of the last occurrence, 0 if there is none. *)
Lemma get_flag_correct argv name :
  let i := Z.to_nat (get_flag argv name) in
  0 <= get_flag argv name < Z.max 1 (Z.of_nat (length argv)) ∧ (i ≠ 0%nat → argv !! i = Some name) ∧ (∀ j, (i < j)%nat → argv !! j ≠ Some name).
Proof.
  unfold get_flag. assert (∀ n, (n < Nat.max 1 (length argv))%nat →
    0 <= get_flag_loop n argv name <= Z.of_nat n ∧ (Z.to_nat (get_flag_loop n argv name) ≠ 0%nat → argv !! Z.to_nat (get_flag_loop n argv name) = Some name) ∧
    ∀ j, (Z.to_nat (get_flag_loop n argv name) < j <= n)%nat → argv !! j ≠ Some name) as H.
  { induction n as [| n IH]; intros Hn; cbn [get_flag_loop]; [split_and!; [lia | lia | done | intros j Hj; simpl in Hj; lia] |].
    destruct (decide (argv !! S n = Some name)) as [E | E]; [rewrite bool_decide_true by done | rewrite bool_decide_false by done].
    - rewrite Nat2Z.id. split_and!; [lia | lia | done | lia].
    - destruct IH as (H1 & H2 & H3); [lia |]. split_and!; [lia | lia | done |]. intros j Hj. destruct (decide (j = S n)) as [-> |]; [done | apply H3; lia]. }
  destruct (H (length argv - 1)%nat) as (H1 & H2 & H3); [lia |]. cbv zeta. split_and!; [lia | lia | done |]. intros j Hj E.
  destruct (decide (j <= length argv - 1)%nat); [by apply (H3 j) |]. apply lookup_lt_Some in E. lia.
Qed.

(** ** A command line *)

(** ["ro  root=/dev/sda1 init=/x"] and [" quiet\n"] *)
Definition example_line1 : list Z :=
  [114; 111; 32; 32; 114; 111; 111; 116; 61; 47; 100; 101; 118; 47; 115; 100; 97; 49; 32; 105; 110; 105; 116; 61; 47; 120].
Definition example_line2 : list Z := [32; 113; 117; 105; 101; 116; 10].
Definition example_mem : mem := mem_set (mem_set ∅ 100 (example_line1 ++ [0])) 200 (example_line2 ++ [0]).

Example example_words : length (all_words [(100, example_line1); (200, example_line2)]) = 4%nat ∧ words example_line2 = [[113; 117; 105; 101; 116]].
Proof. by vm_compute. Qed.

Lemma split_cmdline_correct_witness :
  split_cmdline (2 ^ 31 - 1) None 50 [100; 200] [60] example_mem = Some ((6, None), example_mem) ∧
  ∃ m' cmdv', split_cmdline 6 (Some (replicate 7 0)) 50 [100; 200] [60] example_mem = Some ((6, Some cmdv'), m') ∧
    length cmdv' = 7%nat ∧ cmdv' !! 0%nat = Some 50 ∧ points m' cmdv' 1 (all_words [(100, example_line1); (200, example_line2)]) ∧
    drop 5 cmdv' = [60] ++ [NULL] ∧
    (∀ a, Forall (outside a) [(100, example_line1); (200, example_line2)] → m' !! a = example_mem !! a).
Proof.
  apply (split_cmdline_correct example_mem 50 [(100, example_line1); (200, example_line2)] [60] (replicate 7 0)).
  - repeat constructor; cbn [fst snd]; try by_eval; done.
  - simpl. split; [| done]. constructor; [| constructor]. simpl. lia.
  - vm_compute. reflexivity.
  - vm_compute. reflexivity.
Defined.
