(* ===== verification/Layout.v ===== *)
(** * On-disk structures: the headers of [kinit/fstype]

    A C structure is a list of named members; offsets follow from the sizes and
    alignments of the members (LP64, natural alignment, none in a packed
    structure).  [get] reads an integer member from a block of bytes, little
    endian, and [has] compares the bytes of a member with a string; both fail
    outside of the block. *)

From stdpp Require Import base numbers list strings.
From Stdlib Require Import Lia.
From S2P Require Import Prelude Netdev.

#[local] Set Warnings "-register-all".

Inductive ctype :=
  | Int (size : Z)
  | Arr (elem : ctype) (n : Z)
  | Struct (packed : bool) (members : list (string * ctype)).

Definition align_up (off a : Z) : Z := (off + a - 1) / a * a.

Fixpoint alignof (t : ctype) : Z :=
  match t with
  | Int size => size
  | Arr elem _ => alignof elem
  | Struct packed members => if packed then 1 else foldr (λ '(_, t) a, Z.max (alignof t) a) 1 members
  end.
Definition member_align (packed : bool) (t : ctype) : Z := if packed then 1 else alignof t.

Fixpoint sizeof (t : ctype) : Z :=
  match t with
  | Int size => size
  | Arr elem n => sizeof elem * n
  | Struct packed members =>
      align_up (foldl (λ off '(_, t), align_up off (member_align packed t) + sizeof t) 0 members)
        (if packed then 1 else foldr (λ '(_, t) a, Z.max (alignof t) a) 1 members)
  end.

Fixpoint member (packed : bool) (off : Z) (members : list (string * ctype)) (x : string) : option (Z * ctype) :=
  match members with
  | [] => None
  | (y, t) :: members =>
      let off := align_up off (member_align packed t) in
      if String.eqb x y then Some (off, t) else member packed (off + sizeof t) members x
  end.

(** [offsetof] with the type, for a member or a member of a member, ... *)
Fixpoint offsetof (t : ctype) (xs : list string) : option (Z * ctype) :=
  match xs with
  | [] => Some (0, t)
  | x :: xs =>
      match t with
      | Struct packed members =>
          '(o, t) ← member packed 0 members x;
          '(o', t) ← offsetof t xs;
          Some (o + o', t)
      | _ => None
      end
  end.

Definition get (t : ctype) (xs : list string) (buf : list Z) : option Z :=
  '(o, t) ← offsetof t xs;
  match t with
  | Int size => le <$> bytes_at buf o size
  | _ => None
  end.

(** [memcmp(sb->member, s, strlen(s)) == 0] *)
Definition has (t : ctype) (xs : list string) (s buf : list Z) : option bool :=
  '(o, _) ← offsetof t xs;
  bs ← bytes_at buf o (Z.of_nat (length s));
  Some (bool_decide (bs = s)).

(** ** The structures *)

Definition b8 (x : string) : string * ctype := (x, Int 1).
Definition b16 (x : string) : string * ctype := (x, Int 2).
Definition b32 (x : string) : string * ctype := (x, Int 4).
Definition b64 (x : string) : string * ctype := (x, Int 8).
Definition a8 (x : string) (n : Z) : string * ctype := (x, Arr (Int 1) n).
Definition a32 (x : string) (n : Z) : string * ctype := (x, Arr (Int 4) n).
Definition a64 (x : string) (n : Z) : string * ctype := (x, Arr (Int 8) n).
Arguments b8 _%_string.
Arguments b16 _%_string.
Arguments b32 _%_string.
Arguments b64 _%_string.
Arguments a8 _%_string _.
Arguments a32 _%_string _.
Arguments a64 _%_string _.

Definition btrfs_dev_item : ctype := Struct true [b64 "devid"; b64 "total_bytes"; b64 "bytes_used"; b32 "io_align"; b32 "io_width"; b32 "sector_size"; b64 "type"; b64 "generation";
  b64 "start_offset"; b32 "dev_group"; b8 "seek_speed"; b8 "bandwidth"; a8 "uuid" 16; a8 "fsid" 16].
Definition btrfs_super_block : ctype := Struct true [
  a8 "csum" 32; a8 "fsid" 16; b64 "bytenr"; b64 "flags"; a8 "magic" 8; b64 "generation"; b64 "root"; b64 "chunk_root";
  b64 "log_root"; b64 "log_root_transid"; b64 "total_bytes"; b64 "bytes_used"; b64 "root_dir_objectid"; b64 "num_devices";
  b32 "sectorsize"; b32 "nodesize"; b32 "leafsize"; b32 "stripesize"; b32 "sys_chunk_array_size"; b64 "chunk_root_generation";
  b64 "compat_flags"; b64 "compat_ro_flags"; b64 "incompat_flags"; b16 "csum_type"; b8 "root_level"; b8 "chunk_root_level";
  b8 "log_root_level"; ("dev_item"%string, btrfs_dev_item); a8 "label" 256].

(** The three words of bit-fields. *)
Definition cramfs_inode : ctype := Struct false [b32 "mode_uid"; b32 "size_gid"; b32 "namelen_offset"].
Definition cramfs_info : ctype := Struct false [
  b32 "crc"; b32 "edition"; b32 "blocks"; b32 "files"].
Definition cramfs_super : ctype := Struct false [
  b32 "magic"; b32 "size"; b32 "flags"; b32 "future"; a8 "signature" 16; ("fsid"%string, cramfs_info); a8 "name" 16;
  ("root"%string, cramfs_inode)].

Definition ext2_super_block : ctype := Struct false [
  b32 "s_inodes_count"; b32 "s_blocks_count"; b32 "s_r_blocks_count"; b32 "s_free_blocks_count"; b32 "s_free_inodes_count";
  b32 "s_first_data_block"; b32 "s_log_block_size"; b32 "s_log_frag_size"; b32 "s_blocks_per_group"; b32 "s_frags_per_group";
  b32 "s_inodes_per_group"; b32 "s_mtime"; b32 "s_wtime"; b16 "s_mnt_count"; b16 "s_max_mnt_count"; b16 "s_magic"; b16 "s_state";
  b16 "s_errors"; b16 "s_minor_rev_level"; b32 "s_lastcheck"; b32 "s_checkinterval"; b32 "s_creator_os"; b32 "s_rev_level";
  b16 "s_def_resuid"; b16 "s_def_resgid"; b32 "s_first_ino"; b16 "s_inode_size"; b16 "s_block_group_nr"; b32 "s_feature_compat";
  b32 "s_feature_incompat"; b32 "s_feature_ro_compat"; a8 "s_uuid" 16; a8 "s_volume_name" 16; a8 "s_last_mounted" 64;
  b32 "s_algorithm_usage_bitmap"; b8 "s_prealloc_blocks"; b8 "s_prealloc_dir_blocks"; b16 "s_padding1"; a8 "s_journal_uuid" 16;
  b32 "s_journal_inum"; b32 "s_journal_dev"; b32 "s_last_orphan"; a32 "s_hash_seed" 4; b8 "s_def_hash_version";
  b8 "s_reserved_char_pad"; b16 "s_reserved_word_pad"; b32 "s_default_mount_opts"; b32 "s_first_meta_bg"; a32 "s_reserved" 190].
Definition ext3_super_block : ctype := Struct false [
  b32 "s_inodes_count"; b32 "s_blocks_count"; b32 "s_r_blocks_count"; b32 "s_free_blocks_count"; b32 "s_free_inodes_count";
  b32 "s_first_data_block"; b32 "s_log_block_size"; b32 "s_log_frag_size"; b32 "s_blocks_per_group"; b32 "s_frags_per_group";
  b32 "s_inodes_per_group"; b32 "s_mtime"; b32 "s_wtime"; b16 "s_mnt_count"; b16 "s_max_mnt_count"; b16 "s_magic"; b16 "s_state";
  b16 "s_errors"; b16 "s_minor_rev_level"; b32 "s_lastcheck"; b32 "s_checkinterval"; b32 "s_creator_os"; b32 "s_rev_level";
  b16 "s_def_resuid"; b16 "s_def_resgid"; b32 "s_first_ino"; b16 "s_inode_size"; b16 "s_block_group_nr"; b32 "s_feature_compat";
  b32 "s_feature_incompat"; b32 "s_feature_ro_compat"; a8 "s_uuid" 16; a8 "s_volume_name" 16; a8 "s_last_mounted" 64;
  b32 "s_algorithm_usage_bitmap"; b8 "s_prealloc_blocks"; b8 "s_prealloc_dir_blocks"; b16 "s_padding1"; a8 "s_journal_uuid" 16;
  b32 "s_journal_inum"; b32 "s_journal_dev"; b32 "s_last_orphan"; a32 "s_hash_seed" 4; b8 "s_def_hash_version";
  b8 "s_jnl_backup_type"; b16 "s_reserved_word_pad"; b32 "s_default_mount_opts"; b32 "s_first_meta_bg"; b32 "s_mkfs_time";
  a32 "s_jnl_blocks" 17; b32 "s_blocks_count_hi"; b32 "s_r_blocks_count_hi"; b32 "s_free_blocks_hi"; b16 "s_min_extra_isize";
  b16 "s_want_extra_isize"; b32 "s_flags"; b16 "s_raid_stride"; b16 "s_mmp_interval"; b64 "s_mmp_block"; b32 "s_raid_stripe_width";
  a32 "s_reserved" 163].

Definition gfs2_inum : ctype := Struct false [
  b64 "no_formal_ino"; b64 "no_addr"].
Definition gfs2_meta_header : ctype := Struct false [
  b32 "mh_magic"; b32 "mh_type"; b64 "__pad0"; b32 "mh_format"; b32 "__pad1"].
Definition gfs2_sb : ctype := Struct true [
  ("sb_header"%string, gfs2_meta_header); b32 "sb_fs_format"; b32 "sb_multihost_format"; b32 "__pad0"; b32 "sb_bsize";
  b32 "sb_bsize_shift"; b32 "__pad1"; ("sb_master_dir"%string, gfs2_inum); ("__pad2"%string, gfs2_inum); ("sb_root_dir"%string, gfs2_inum);
  a8 "sb_lockproto" 64; a8 "sb_locktable" 64].

Definition iso_volume_descriptor : ctype := Struct false [
  b8 "type"; a8 "id" 5; b8 "version"].
Definition iso_hs_volume_descriptor : ctype := Struct false [
  a8 "foo" 8; b8 "type"; a8 "id" 5; b8 "version"].

Definition timestruc_t : ctype := Struct false [
  b32 "tv_sec"; b32 "tv_nsec"].
Definition jfs_superblock : ctype := Struct false [
  a8 "s_magic" 4; b32 "s_version"; b64 "s_size"; b32 "s_bsize"; b16 "s_l2bsize"; b16 "s_l2bfactor"; b32 "s_pbsize";
  b16 "s_l2pbsize"; b16 "pad"; b32 "s_agsize"; b32 "s_flag"; b32 "s_state"; b32 "s_compress"; b64 "s_ait2"; b64 "s_aim2";
  b32 "s_logdev"; b32 "s_logserial"; b64 "s_logpxd"; b64 "s_fsckpxd"; ("s_time"%string, timestruc_t); b32 "s_fsckloglen"; b8 "s_fscklog";
  a8 "s_fpack" 11; b64 "s_xsize"; b64 "s_xfsckpxd"; b64 "s_xlogpxd"; a8 "s_uuid" 16; a8 "s_label" 16; a8 "s_loguuid" 16].

Definition keyblock : ctype := Struct false [b32 "active"; b32 "passwordIterations"; a8 "passwordSalt" 32; b32 "keyMaterialOffset"; b32 "stripes"].
Definition luks_partition_header : ctype := Struct false [
  a8 "magic" 6; b16 "version"; a8 "cipherName" 32; a8 "cipherMode" 32; a8 "hashSpec" 32; b32 "payloadOffset"; b32 "keyBytes";
  a8 "mkDigest" 20; a8 "mkDigestSalt" 32; b32 "mkDigestIterations"; a8 "uuid" 40; ("keyblock"%string, Arr keyblock 8)].

Definition lvm2_super_block : ctype := Struct false [
  a8 "magic" 8; b64 "sector"; b32 "crc"; b32 "offset"; a8 "type" 8].

Definition minix_super_block : ctype := Struct false [
  b16 "s_ninodes"; b16 "s_nzones"; b16 "s_imap_blocks"; b16 "s_zmap_blocks"; b16 "s_firstdatazone"; b16 "s_log_zone_size";
  b32 "s_max_size"; b16 "s_magic"; b16 "s_state"; b32 "s_zones"].

Definition nilfs_super_block : ctype := Struct false [
  b32 "s_rev_level"; b16 "s_minor_rev_level"; b16 "s_magic"; b16 "s_bytes"; b16 "s_flags"; b32 "s_crc_seed"; b32 "s_sum";
  b32 "s_log_block_size"; b64 "s_nsegments"; b64 "s_dev_size"; b64 "s_first_data_block"; b32 "s_blocks_per_segment";
  b32 "s_r_segments_percentage"; b64 "s_last_cno"; b64 "s_last_pseg"; b64 "s_last_seq"; b64 "s_free_blocks_count"; b64 "s_ctime";
  b64 "s_mtime"; b64 "s_wtime"; b16 "s_mnt_count"; b16 "s_max_mnt_count"; b16 "s_state"; b16 "s_errors"; b64 "s_lastcheck";
  b32 "s_checkinterval"; b32 "s_creator_os"; b16 "s_def_resuid"; b16 "s_def_resgid"; b32 "s_first_ino"; b16 "s_inode_size";
  b16 "s_dat_entry_size"; b16 "s_checkpoint_size"; b16 "s_segment_usage_size"; a8 "s_uuid" 16; a8 "s_volume_name" 16;
  a8 "s_last_mounted" 64; b32 "s_c_interval"; b32 "s_c_block_max"; a32 "s_reserved" 192].

Definition ocfs2_super_block : ctype := Struct true [
  b16 "s_major_rev_level"; b16 "s_minor_rev_level"; b16 "s_mnt_count"; b16 "s_max_mnt_count"; b16 "s_state"; b16 "s_errors";
  b32 "s_checkinterval"; b64 "s_lastcheck"; b32 "s_creator_os"; b32 "s_feature_compat"; b32 "s_feature_incompat";
  b32 "s_feature_ro_compat"; b64 "s_root_blkno"; b64 "s_system_dir_blkno"; b32 "s_blocksize_bits"; b32 "s_clustersize_bits";
  b16 "s_max_slots"; b16 "s_reserved1"; b32 "s_reserved2"; b64 "s_first_cluster_group"; a8 "s_label" 64; a8 "s_uuid" 16].
Definition ocfs2_dinode : ctype := Struct true [
  a8 "i_signature" 8; b32 "i_generation"; b16 "i_suballoc_slot"; b16 "i_suballoc_bit"; b32 "i_reserved0"; b32 "i_clusters";
  b32 "i_uid"; b32 "i_gid"; b64 "i_size"; b16 "i_mode"; b16 "i_links_count"; b32 "i_flags"; b64 "i_atime"; b64 "i_ctime";
  b64 "i_mtime"; b64 "i_dtime"; b64 "i_blkno"; b64 "i_last_eb_blk"; b32 "i_fs_generation"; b32 "i_atime_nsec"; b32 "i_ctime_nsec";
  b32 "i_mtime_nsec"; b32 "i_attr"; b16 "i_orphaned_slot"; b16 "i_reserved1"; a64 "i_reserved2" 8; b64 "i_pad1"; b64 "i_rdev";
  b32 "i_used"; b32 "i_total"; b32 "ij_flags"; b32 "ij_pad"; ("i_super"%string, ocfs2_super_block)].

Definition reiser4_master_sb : ctype := Struct true [
  a8 "ms_magic" 16; b16 "ms_format"; b16 "ms_blksize"; a8 "ms_uuid" 16; a8 "ms_label" 16].

Definition journal_params : ctype := Struct false [
  b32 "jp_journal_1st_block"; b32 "jp_journal_dev"; b32 "jp_journal_size"; b32 "jp_journal_trans_max"; b32 "jp_journal_magic";
  b32 "jp_journal_max_batch"; b32 "jp_journal_max_commit_age"; b32 "jp_journal_max_trans_age"].
Definition reiserfs_super_block_v1 : ctype := Struct true [
  b32 "s_block_count"; b32 "s_free_blocks"; b32 "s_root_block"; ("s_journal"%string, journal_params); b16 "s_blocksize";
  b16 "s_oid_maxsize"; b16 "s_oid_cursize"; b16 "s_umount_state"; a8 "s_magic" 10; b16 "s_fs_state"; b32 "s_hash_function_code";
  b16 "s_tree_height"; b16 "s_bmap_nr"; b16 "s_version"; b16 "s_reserved_for_journal"].
Definition reiserfs_super_block : ctype := Struct true [
  ("s_v1"%string, reiserfs_super_block_v1); b32 "s_inode_generation"; b32 "s_flags"; a8 "s_uuid" 16; a8 "s_label" 16; a8 "s_unused" 88].

Definition romfs_super_block : ctype := Struct false [
  b32 "word0"; b32 "word1"; b32 "size"; b32 "checksum"; a8 "name" 0].

(** Bit-fields of 16 and 8 bits lie on byte boundaries. *)
Definition squashfs_super_block : ctype := Struct true [
  b32 "s_magic"; b32 "inodes"; b32 "bytes_used_2"; b32 "uid_start_2"; b32 "guid_start_2"; b32 "inode_table_start_2";
  b32 "directory_table_start_2"; b16 "s_major"; b16 "s_minor"; b16 "block_size_1"; b16 "block_log"; b8 "flags"; b8 "no_uids";
  b8 "no_guids"; b32 "mkfs_time"; b64 "root_inode"; b32 "block_size"; b32 "fragments"; b32 "fragment_table_start_2";
  b64 "bytes_used"; b64 "uid_start"; b64 "guid_start"; b64 "inode_table_start"; b64 "directory_table_start";
  b64 "fragment_table_start"; b64 "lookup_table_start"].

Definition swap_super_block : ctype := Struct false [
  a8 "reserved" (1024 - 10); a8 "magic" 10].

Definition xfs_sb : ctype := Struct false [
  b32 "sb_magicnum"; b32 "sb_blocksize"; b64 "sb_dblocks"].

(** The sizes and offsets agree with the formats: every structure fits into a
    block of 1024 bytes, the super blocks of ext fill it. *)
Example structure_sizes :
  sizeof ext2_super_block = 1024 ∧ sizeof ext3_super_block = 1024 ∧ sizeof swap_super_block = 1024 ∧ sizeof nilfs_super_block = 1024 ∧
  sizeof luks_partition_header = 592 ∧ sizeof reiserfs_super_block = 204 ∧ sizeof jfs_superblock = 184 ∧ sizeof gfs2_sb = 224 ∧
  sizeof ocfs2_dinode = 376 ∧ sizeof btrfs_super_block = 555.
Proof. by vm_compute. Qed.

(** ** Members of a full block *)

Lemma le_range l : Forall (in_u 8) l → 0 <= le l < 2 ^ (8 * Z.of_nat (length l)).
Proof.
  induction 1 as [| b l Hb Hl IH]; [done |]. cbn [le length]. unfold in_u in Hb. change (2 ^ 8) with 256 in Hb.
  replace (8 * Z.of_nat (S (length l))) with (8 + 8 * Z.of_nat (length l)) by lia. rewrite Z.pow_add_r by lia. change (2 ^ 8) with 256. lia.
Qed.

Lemma bytes_at_ok l i n : 0 <= i → 0 <= n → i + n <= Z.of_nat (length l) → Forall (in_u 8) l →
  ∃ bs, bytes_at l i n = Some bs ∧ length bs = Z.to_nat n ∧ Forall (in_u 8) bs.
Proof.
  intros Hi Hn Hl Hb. exists (take (Z.to_nat n) (drop (Z.to_nat i) l)). unfold bytes_at. rewrite !(proj2 (Z.leb_le _ _)) by lia.
  split_and!; [done | rewrite length_take, length_drop; lia | by apply Forall_take, Forall_drop].
Qed.

(** A block as [pread] fills it. *)
Definition full_block (buf : list Z) : Prop := length buf = 1024%nat ∧ Forall (in_u 8) buf.

Lemma member_ok t xs o size buf : full_block buf → offsetof t xs = Some (o, Int size) → 0 <= o → 0 <= size → o + size <= 1024 →
  ∃ v, get t xs buf = Some v ∧ 0 <= v < 2 ^ (8 * size).
Proof.
  intros [Hl Hb] Ho H0 Hs H1. destruct (bytes_at_ok buf o size) as (bs & E & Hbs & Hby); [lia | lia | lia | done |].
  exists (le bs). unfold get. rewrite Ho. simpl. rewrite E. split; [done |]. pose proof (le_range bs Hby) as Hr. rewrite Hbs, Z2Nat.id in Hr by lia. exact Hr.
Qed.

Lemma member_bytes_ok t xs o t' s buf : full_block buf → offsetof t xs = Some (o, t') → 0 <= o → o + Z.of_nat (length s) <= 1024 →
  ∃ b, has t xs s buf = Some b.
Proof.
  intros [Hl Hb] Ho H0 H1. destruct (bytes_at_ok buf o (Z.of_nat (length s))) as (bs & E & _ & _); [lia | lia | lia | done |].
  eexists. unfold has. rewrite Ho. simpl. by rewrite E.
Qed.
