(* ===== verification/Fstype.v ===== *)
(** * The type of a file system image: [kinit/fstype/fstype.c]

    [identify_fs] reads blocks of a device and asks the probes of a table, in
    order.  A probe takes the block and the value of [*bytes] and gives its
    result and the new value; reading outside of the block, or shifting a size
    by 64 bits or more, is a fault.  The device is a function from block
    numbers to what [pread] delivers.

    The theorems: on every image whose size fields are in range the search
    returns without a fault, although each block is read only when it changes,
    with the first probe of the table that recognises its block; a super block
    of the ext family is always identified, as ext4, ext4dev, ext3 or ext2 by
    its features; the list of file systems of the kernel is searched
    correctly. *)

From stdpp Require Import base numbers list sets strings.
From Stdlib Require Import Lia.
From S2P Require Import Prelude Ctype Numparse Netdev Ipconfig Layout.

#[local] Set Warnings "-register-all".
#[local] Arguments text _%_string : simpl never.

Definition BLOCK_SIZE : Z := 1024.

(** The bytes of an [n]-byte integer in the other order. *)
Definition swab (n : nat) (x : Z) : Z := be (to_le n x).
Definition __be32_to_cpu (x : Z) : Z := swab 4 x.
Definition __be64_to_cpu (x : Z) : Z := swab 8 x.

(** [<<] on [unsigned long long] *)
Definition shl64 (x n : Z) : option Z := if (0 <=? n) && (n <? 64) then Some (u64 (Z.shiftl x n)) else None.

(** ** The probes *)

Abbreviation probe := (list Z → Z → option (bool * Z)).

Definition gzip_image : probe := λ buf bytes,
  p0 ← byte_at buf 0;
  p1 ← byte_at buf 1;
  Some (if (p0 =? 31) && ((p1 =? 139) || (p1 =? 158)) then (true, 0) else (false, bytes)).

Definition CRAMFS_MAGIC : Z := 0x28cd3d45.
Definition CRAMFS_FLAG_FSID_VERSION_2 : Z := 0x00000001.

Definition cramfs_image : probe := λ buf bytes,
  magic ← get cramfs_super ["magic"%string] buf;
  if magic =? CRAMFS_MAGIC then
    flags ← get cramfs_super ["flags"%string] buf;
    if negb (Z.land flags CRAMFS_FLAG_FSID_VERSION_2 =? 0) then
      blocks ← get cramfs_super ["fsid"; "blocks"]%string buf;
      bytes ← shl64 blocks 10;
      Some (true, bytes)
    else Some (true, 0)
  else Some (false, bytes).

Definition __mkw (h l : Z) : Z := Z.lor (Z.shiftl (Z.land h 0x00ff) 8) (Z.land l 0x00ff).
Definition __mkl (h l : Z) : Z := Z.lor (Z.shiftl (Z.land h 0xffff) 16) (Z.land l 0xffff).
Definition __mk4 (a b c d : Z) : Z := swab 4 (__mkl (__mkw a b) (__mkw c d)).
Definition ROMSB_WORD0 : Z := __mk4 45 114 111 109.
Definition ROMSB_WORD1 : Z := __mk4 49 102 115 45.

Definition romfs_image : probe := λ buf bytes,
  word0 ← get romfs_super_block ["word0"%string] buf;
  word1 ← get romfs_super_block ["word1"%string] buf;
  if (word0 =? ROMSB_WORD0) && (word1 =? ROMSB_WORD1) then
    size ← get romfs_super_block ["size"%string] buf;
    Some (true, __be32_to_cpu size)
  else Some (false, bytes).

Definition MINIX_SUPER_MAGIC : Z := 0x137F.
Definition MINIX_SUPER_MAGIC2 : Z := 0x138F.

Definition minix_image : probe := λ buf bytes,
  s_magic ← get minix_super_block ["s_magic"%string] buf;
  if (s_magic =? MINIX_SUPER_MAGIC) || (s_magic =? MINIX_SUPER_MAGIC2) then
    s_nzones ← get minix_super_block ["s_nzones"%string] buf;
    s_log_zone_size ← get minix_super_block ["s_log_zone_size"%string] buf;
    bytes ← shl64 s_nzones (s_log_zone_size + 10);
    Some (true, bytes)
  else Some (false, bytes).

(** *** The support of the kernel for ext4

    What the probes of ext4 ask of the system: the files that can be opened,
    with their contents, and the release from [uname]. *)

Record host := mk_host {
  fopen : list Z → option (list Z);
  uname_release : option (list Z);
  pagesize : Z;
}.

(** [fgets] with room for [n] characters: the line ([None] for a null pointer)
    and the rest. *)
Fixpoint fgets_line (n : nat) (s : list Z) : option (list Z) * list Z :=
  match n with
  | O => (Some [], s)
  | S n =>
      match s with
      | [] => (None, [])
      | c :: s => if c =? 10 then (Some [10], s) else let '(l, rest) := fgets_line n s in (cons c <$> l, rest)
      end
  end.

(** The string in a buffer: its characters up to the first NUL. *)
Fixpoint c_string (l : list Z) : list Z :=
  match l with
  | [] => []
  | c :: l => if c =? 0 then [] else c :: c_string l
  end.

(** [while (fgets(buf, n + 1, f)) if (found) return 1;  return 0;] *)
Fixpoint find_line (fuel n : nat) (found : list Z → option bool) (s : list Z) : option bool :=
  match fuel with
  | O => None
  | S fuel =>
      match fgets_line n s with
      | (None, _) => Some false
      | (Some line, rest) =>
          b ← found (c_string line);
          if b : bool then Some true else find_line fuel n found rest
      end
  end.

(** [isspace] of the character at [cp]. *)
Definition space_at (cp : list Z) : option bool := (λ v, negb (v =? 0)) <$> isspace (s8 (default 0 (head cp))).

(** The loops that move [cp] on to the next character that is white space, or
    is not, or to the end. *)
Fixpoint skip_while (sp : bool) (cp : list Z) : option (list Z) :=
  match cp with
  | [] => Some []
  | _ :: cp' =>
      b ← space_at cp;
      if Bool.eqb b sp then skip_while sp cp' else Some cp
  end.

(** [t = strchr(cp, c)], and a NUL is put there. *)
Fixpoint cut_at (c : Z) (cp : list Z) : list Z :=
  match cp with
  | [] => []
  | x :: cp => if x =? c then [] else x :: cut_at c cp
  end.

Definition proc_line (fs_name buf : list Z) : option bool :=
  sp ← space_at buf;
  cp ← if negb sp then skip_while false buf else Some buf;
  cp ← skip_while true cp;
  Some (bool_decide (fs_name = cut_at 32 (cut_at 9 (cut_at 10 cp)))).

Definition fs_proc_check (h : host) (fs_name : list Z) : option bool :=
  match fopen h (text "/proc/filesystems") with
  | None => Some false
  | Some s => find_line (S (length s)) 79 (proc_line fs_name) s
  end.

(** [strrchr(buf, '/') + 1] *)
Fixpoint base_name (buf : list Z) : option (list Z) :=
  match buf with
  | [] => None
  | c :: buf =>
      match base_name buf with
      | Some b => Some b
      | None => if c =? 47 then Some buf else None
      end
  end.

(** The suffix [.ko] is cut off. *)
Definition cut_ko (cp : list Z) : list Z :=
  let i := length cp in
  if (3 <? Z.of_nat i) && bool_decide (drop (i - 3) cp = text ".ko") then take (i - 3) cp else cp.

Definition module_line (fs_name buf : list Z) : option bool :=
  Some (if bool_decide (58 ∈ buf) then
          match base_name (cut_at 58 buf) with
          | None => false
          | Some cp => bool_decide (cut_ko cp = fs_name)
          end
        else false).

Definition check_for_modules (h : host) (fs_name : list Z) : option bool :=
  match uname_release h with
  | None => Some false
  | Some release =>
      let buf := take 1023 (text "/lib/modules/" ++ release ++ text "/modules.dep") in
      match fopen h buf with
      | None => Some false
      | Some s => find_line (S (length s)) 1023 (module_line fs_name) s
      end
  end.

(** [fs_proc_check(fs_name) || check_for_modules(fs_name)] *)
Definition present (h : host) (fs_name : list Z) : option bool :=
  b ← fs_proc_check h fs_name;
  if b : bool then Some true else check_for_modules h fs_name.

(** *** ext *)

Definition EXT2_SUPER_MAGIC : Z := 0xEF53.
Definition EXT2_FLAGS_TEST_FILESYS : Z := 0x0004.
Definition EXT3_FEATURE_COMPAT_HAS_JOURNAL : Z := 0x0004.
Definition EXT3_FEATURE_RO_COMPAT_SUPP : Z := Z.lor (Z.lor 0x0001 0x0002) 0x0004.
Definition EXT3_FEATURE_INCOMPAT_SUPP : Z := Z.lor (Z.lor 0x0002 0x0004) 0x0010.
Definition EXT3_FEATURE_RO_COMPAT_UNSUPPORTED : Z := u32 (Z.lnot EXT3_FEATURE_RO_COMPAT_SUPP).
Definition EXT3_FEATURE_INCOMPAT_UNSUPPORTED : Z := u32 (Z.lnot EXT3_FEATURE_INCOMPAT_SUPP).

(** [(unsigned long long)s_blocks_count << (10 + s_log_block_size)] *)
Definition ext_bytes (sb : ctype) (buf : list Z) : option Z :=
  s_blocks_count ← get sb ["s_blocks_count"%string] buf;
  s_log_block_size ← get sb ["s_log_block_size"%string] buf;
  shl64 s_blocks_count (u32 (10 + s_log_block_size)).

(** The result, [*bytes] and [*test_fs]. *)
Definition base_ext4_image (buf : list Z) (bytes : Z) : option (bool * Z * bool) :=
  s_magic ← get ext3_super_block ["s_magic"%string] buf;
  if negb (s_magic =? EXT2_SUPER_MAGIC) then Some (false, bytes, false)
  else
    incompat ← get ext3_super_block ["s_feature_incompat"%string] buf;
    ro_compat ← get ext3_super_block ["s_feature_ro_compat"%string] buf;
    if negb (Z.land incompat EXT3_FEATURE_INCOMPAT_UNSUPPORTED =? 0) || negb (Z.land ro_compat EXT3_FEATURE_RO_COMPAT_UNSUPPORTED =? 0) then
      bytes ← ext_bytes ext3_super_block buf;
      s_flags ← get ext3_super_block ["s_flags"%string] buf;
      Some (true, bytes, negb (Z.land s_flags EXT2_FLAGS_TEST_FILESYS =? 0))
    else Some (false, bytes, false).

Definition ext4_image (h : host) : probe := λ buf bytes,
  '(ret, bytes, test_fs) ← base_ext4_image buf bytes;
  if negb ret then Some (false, bytes)
  else
    ext4dev_present ← present h (text "ext4dev");
    ext4_present ← present h (text "ext4");
    Some (if (test_fs || negb ext4_present) && ext4dev_present then (false, bytes) else (true, bytes)).

Definition ext4dev_image (h : host) : probe := λ buf bytes,
  '(ret, bytes, test_fs) ← base_ext4_image buf bytes;
  if negb ret then Some (false, bytes)
  else
    ext4dev_present ← present h (text "ext4dev");
    ext4_present ← present h (text "ext4");
    Some (if (negb test_fs || negb ext4dev_present) && ext4_present then (false, bytes) else (true, bytes)).

Definition ext3_image : probe := λ buf bytes,
  s_magic ← get ext3_super_block ["s_magic"%string] buf;
  compat ← get ext3_super_block ["s_feature_compat"%string] buf;
  if (s_magic =? EXT2_SUPER_MAGIC) && negb (Z.land compat EXT3_FEATURE_COMPAT_HAS_JOURNAL =? 0) then
    bytes ← ext_bytes ext3_super_block buf;
    Some (true, bytes)
  else Some (false, bytes).

Definition ext2_image : probe := λ buf bytes,
  s_magic ← get ext2_super_block ["s_magic"%string] buf;
  if s_magic =? EXT2_SUPER_MAGIC then
    bytes ← ext_bytes ext2_super_block buf;
    Some (true, bytes)
  else Some (false, bytes).

(** *** The other probes *)

Definition reiserfs_image : probe := λ buf bytes,
  r1 ← has reiserfs_super_block ["s_v1"; "s_magic"]%string (text "ReIsErFs") buf;
  r2 ← has reiserfs_super_block ["s_v1"; "s_magic"]%string (text "ReIsEr2Fs") buf;
  r3 ← has reiserfs_super_block ["s_v1"; "s_magic"]%string (text "ReIsEr3Fs") buf;
  if r1 || r2 || r3 then
    count ← get reiserfs_super_block ["s_v1"; "s_block_count"]%string buf;
    size ← get reiserfs_super_block ["s_v1"; "s_blocksize"]%string buf;
    Some (true, u64 (count * size))
  else Some (false, bytes).

Definition reiser4_image : probe := λ buf bytes,
  b ← has reiser4_master_sb ["ms_magic"%string] (text "ReIsEr4") buf;
  if b : bool then
    ms_format ← get reiser4_master_sb ["ms_format"%string] buf;
    ms_blksize ← get reiser4_master_sb ["ms_blksize"%string] buf;
    Some (true, u64 (ms_format * ms_blksize))
  else Some (false, bytes).

Definition XFS_SB_MAGIC : Z := 0x58465342.

Definition xfs_image : probe := λ buf bytes,
  sb_magicnum ← get xfs_sb ["sb_magicnum"%string] buf;
  if __be32_to_cpu sb_magicnum =? XFS_SB_MAGIC then
    sb_dblocks ← get xfs_sb ["sb_dblocks"%string] buf;
    sb_blocksize ← get xfs_sb ["sb_blocksize"%string] buf;
    Some (true, u64 (__be64_to_cpu sb_dblocks * __be32_to_cpu sb_blocksize))
  else Some (false, bytes).

Definition jfs_image : probe := λ buf bytes,
  b ← has jfs_superblock ["s_magic"%string] (text "JFS1") buf;
  if b : bool then
    s_size ← get jfs_superblock ["s_size"%string] buf;
    s_l2pbsize ← get jfs_superblock ["s_l2pbsize"%string] buf;
    bytes ← shl64 s_size s_l2pbsize;
    Some (true, bytes)
  else Some (false, bytes).

Definition LUKS_MAGIC : list Z := text "LUKS" ++ [0xBA; 0xBE].

Definition luks_image : probe := λ buf bytes,
  b ← has luks_partition_header ["magic"%string] LUKS_MAGIC buf;
  Some (if b : bool then (true, 0) else (false, bytes)).

Definition swap_image : probe := λ buf bytes,
  b1 ← has swap_super_block ["magic"%string] (text "SWAP-SPACE") buf;
  b2 ← has swap_super_block ["magic"%string] (text "SWAPSPACE2") buf;
  Some (if b1 || b2 then (true, 0) else (false, bytes)).

Definition suspend_image : probe := λ buf bytes,
  b1 ← has swap_super_block ["magic"%string] (text "S1SUSPEND") buf;
  b2 ← has swap_super_block ["magic"%string] (text "S2SUSPEND") buf;
  b3 ← has swap_super_block ["magic"%string] (text "ULSUSPEND") buf;
  Some (if b1 || b2 || b3 then (true, 0) else (false, bytes)).

(** [for (i = 0; i < BLOCK_SIZE; i += 0x200)] *)
Fixpoint lvm2_sectors (sectors : list Z) (buf : list Z) : option bool :=
  match sectors with
  | [] => Some false
  | i :: sectors =>
      let lsb := drop (Z.to_nat i) buf in
      b1 ← has lvm2_super_block ["magic"%string] (text "LABELONE") lsb;
      b2 ← has lvm2_super_block ["type"%string] (text "LVM2 001") lsb;
      if b1 && b2 then Some true else lvm2_sectors sectors buf
  end.

Definition lvm2_image : probe := λ buf bytes,
  b ← lvm2_sectors [0; 0x200] buf;
  Some (if b : bool then (true, 0) else (false, bytes)).

Definition iso_image : probe := λ buf bytes,
  b1 ← has iso_volume_descriptor ["id"%string] (text "CD001") buf;
  b2 ← has iso_hs_volume_descriptor ["id"%string] (text "CDROM") buf;
  Some (if b1 || b2 then (true, 0) else (false, bytes)).

Definition SQUASHFS_MAGIC : Z := 0x73717368.
Definition SQUASHFS_MAGIC_SWAP : Z := 0x68737173.
Definition SQUASHFS_MAGIC_LZMA : Z := 0x71736873.
Definition SQUASHFS_MAGIC_LZMA_SWAP : Z := 0x73687371.

Definition squashfs_image : probe := λ buf bytes,
  s_magic ← get squashfs_super_block ["s_magic"%string] buf;
  if (s_magic =? SQUASHFS_MAGIC) || (s_magic =? SQUASHFS_MAGIC_SWAP) || (s_magic =? SQUASHFS_MAGIC_LZMA) || (s_magic =? SQUASHFS_MAGIC_LZMA_SWAP) then
    bytes_used ← get squashfs_super_block ["bytes_used"%string] buf;
    Some (true, bytes_used)
  else Some (false, bytes).

Definition GFS2_MAGIC : Z := 0x01161970.
Definition GFS2_FORMAT_FS : Z := 1801.
Definition GFS2_FORMAT_MULTI : Z := 1900.

Definition gfs2_image : probe := λ buf bytes,
  mh_magic ← get gfs2_sb ["sb_header"; "mh_magic"]%string buf;
  sb_fs_format ← get gfs2_sb ["sb_fs_format"%string] buf;
  Some (if (__be32_to_cpu mh_magic =? GFS2_MAGIC) &&
           ((__be32_to_cpu sb_fs_format =? GFS2_FORMAT_FS) || (__be32_to_cpu sb_fs_format =? GFS2_FORMAT_MULTI))
        then (true, 0) else (false, bytes)).

Definition ocfs2_image : probe := λ buf bytes,
  b ← has ocfs2_dinode ["i_signature"%string] (text "OCFSV2") buf;
  Some (if b : bool then (true, 0) else (false, bytes)).

Definition NILFS_SUPER_MAGIC : Z := 0x3434.

Definition nilfs2_image : probe := λ buf bytes,
  s_magic ← get nilfs_super_block ["s_magic"%string] buf;
  s_rev_level ← get nilfs_super_block ["s_rev_level"%string] buf;
  if (s_magic =? NILFS_SUPER_MAGIC) && (s_rev_level =? 2) then
    s_dev_size ← get nilfs_super_block ["s_dev_size"%string] buf;
    Some (true, s_dev_size)
  else Some (false, bytes).

Definition btrfs_image : probe := λ buf bytes,
  b ← has btrfs_super_block ["magic"%string] (text "_BHRfS_M") buf;
  if b : bool then
    total_bytes ← get btrfs_super_block ["total_bytes"%string] buf;
    Some (true, total_bytes)
  else Some (false, bytes).

(** ** The search *)

Record imagetype := mk_image { block : Z; name : list Z; identify : probe }.

(** The null entry at the end of the table is the end of the list. *)
Definition images (h : host) : list imagetype := [
  mk_image 0 (text "gzip") gzip_image;
  mk_image 0 (text "cramfs") cramfs_image;
  mk_image 0 (text "romfs") romfs_image;
  mk_image 0 (text "xfs") xfs_image;
  mk_image 0 (text "squashfs") squashfs_image;
  mk_image 1 (text "ext4dev") (ext4dev_image h);
  mk_image 1 (text "ext4") (ext4_image h);
  mk_image 1 (text "ext3") ext3_image;
  mk_image 1 (text "ext2") ext2_image;
  mk_image 1 (text "minix") minix_image;
  mk_image 1 (text "nilfs2") nilfs2_image;
  mk_image 2 (text "ocfs2") ocfs2_image;
  mk_image 8 (text "reiserfs") reiserfs_image;
  mk_image 64 (text "reiserfs") reiserfs_image;
  mk_image 64 (text "reiser4") reiser4_image;
  mk_image 64 (text "gfs2") gfs2_image;
  mk_image 64 (text "btrfs") btrfs_image;
  mk_image 32 (text "jfs") jfs_image;
  mk_image 32 (text "iso9660") iso_image;
  mk_image 0 (text "luks") luks_image;
  mk_image 0 (text "lvm2") lvm2_image;
  mk_image 1 (text "lvm2") lvm2_image;
  mk_image (-1) (text "swap") swap_image;
  mk_image (-1) (text "suspend") suspend_image].

Definition SWAP_OFFSET (h : host) : Z := Z.shiftr (pagesize h - 1024) 10.

(** [pread(fd, buf, BLOCK_SIZE, position)]: the bytes read, [None] for -1. *)
Abbreviation device := (Z → option (list Z)).

(** What [identify_fs] returns, with [*fstype] and [*bytes]. *)
Definition answer : Type := Z * option (list Z) * Z.

(** The table is static: the entries whose block has been replaced stay so. *)
Fixpoint identify_loop (h : host) (fd : device) (offset : Z) (ips : list imagetype) (cur_block : Z) (buf : list Z) (bytes : Z) :
    option (answer * list imagetype) :=
  match ips with
  | [] => Some ((1, None, bytes), [])
  | ip :: ips =>
      let blk := if block ip =? -1 then SWAP_OFFSET h else block ip in
      let ip := mk_image blk (name ip) (identify ip) in
      match (if negb (cur_block =? blk) then
               match fd (offset + blk * BLOCK_SIZE) with
               | Some b => if Z.of_nat (length b) =? BLOCK_SIZE then Some (blk, b) else None
               | None => None
               end
             else Some (cur_block, buf)) with
      | None => Some ((-1, None, bytes), ip :: ips)
      | Some (cur_block, buf) =>
          '(ret, bytes) ← identify ip buf bytes;
          if ret : bool then Some ((0, Some (name ip), bytes), ip :: ips)
          else
            '(r, ips) ← identify_loop h fd offset ips cur_block buf bytes;
            Some (r, ip :: ips)
      end
  end.

Definition identify_fs (h : host) (table : list imagetype) (fd : device) (offset : Z) : option (answer * list imagetype) :=
  identify_loop h fd offset table (-1) [] 0.

(** ** The search without the cache *)

Definition read_block (fd : device) (offset blk : Z) : option (list Z) :=
  b ← fd (offset + blk * BLOCK_SIZE);
  if Z.of_nat (length b) =? BLOCK_SIZE then Some b else None.
Definition resolved (h : host) (blk : Z) : Z := if blk =? -1 then SWAP_OFFSET h else blk.

(** The first entry that recognises its block; each block is read anew. *)
Fixpoint search (h : host) (rd : Z → option (list Z)) (ips : list imagetype) (bytes : Z) : option answer :=
  match ips with
  | [] => Some (1, None, bytes)
  | ip :: ips =>
      match rd (resolved h (block ip)) with
      | None => Some (-1, None, bytes)
      | Some buf =>
          '(ret, n) ← identify ip buf 0;
          if ret : bool then Some (0, Some (name ip), n) else search h rd ips bytes
      end
  end.

(** A probe that recognises nothing leaves the size alone, and one that does
    recognise the block does not depend on it. *)
Definition clean (r : Z → option (bool * Z)) : Prop := ∀ bytes,
  r bytes = '(ret, n) ← r 0; Some (if ret : bool then (true, n) else (false, bytes)).

Lemma clean_bind {A} (o : option A) (g : A → Z → option (bool * Z)) : (∀ x, clean (g x)) → clean (λ bytes, x ← o; g x bytes).
Proof. intros Hg bytes. destruct o as [x |]; [apply Hg | done]. Qed.
Lemma clean_if (b : bool) r1 r2 : clean r1 → clean r2 → clean (λ bytes, if b then r1 bytes else r2 bytes).
Proof. by destruct b. Qed.
Lemma clean_found n : clean (λ _, Some (true, n)).
Proof. done. Qed.
Lemma clean_unknown : clean (λ bytes, Some (false, bytes)).
Proof. done. Qed.
Lemma clean_choice (b : bool) n : clean (λ bytes, Some (if b then (true, n) else (false, bytes))).
Proof. by destruct b. Qed.

Definition clean_probe (p : probe) : Prop := ∀ buf, clean (p buf).

Ltac prove_clean := intros ?; repeat first [apply clean_found | apply clean_unknown | apply clean_choice | apply clean_bind; intros ? | apply clean_if].

Lemma probes_clean : Forall clean_probe [gzip_image; cramfs_image; romfs_image; xfs_image; squashfs_image; ext3_image; ext2_image; minix_image;
  nilfs2_image; ocfs2_image; reiserfs_image; reiserfs_image; reiser4_image; gfs2_image; btrfs_image; jfs_image; iso_image; luks_image; lvm2_image; lvm2_image; swap_image; suspend_image].
Proof. repeat (constructor; [prove_clean |]). constructor. Qed.

(** [ext4dev] and [ext4] may change the size without recognising the image,
    but then the other one of the two does. *)
Lemma ext4_pair h buf bytes : (ext4dev_image h buf bytes = None ↔ ext4dev_image h buf 0 = None) ∧
  match ext4dev_image h buf 0 with
  | None => True
  | Some (true, n) => ext4dev_image h buf bytes = Some (true, n)
  | Some (false, n) =>
      (ext4dev_image h buf bytes = Some (false, bytes) ∧ ∀ b, ext4_image h buf b = Some (false, b)) ∨
      (ext4dev_image h buf bytes = Some (false, n) ∧ ∀ b, ext4_image h buf b = Some (true, n))
  end.
Proof.
  unfold ext4dev_image, ext4_image, base_ext4_image. destruct (get ext3_super_block ["s_magic"%string] buf) as [magic |]; [| done]. cbn [mbind option_bind].
  destruct (magic =? EXT2_SUPER_MAGIC); cbn [negb]; [| split; [done |]; simpl; by left].
  destruct (get ext3_super_block ["s_feature_incompat"%string] buf) as [inc |]; [| done].
  destruct (get ext3_super_block ["s_feature_ro_compat"%string] buf) as [ro |]; [| done]. cbn [mbind option_bind].
  destruct (_ || _); [| split; [done |]; simpl; by left].
  destruct (ext_bytes ext3_super_block buf) as [n |]; [| done]. destruct (get ext3_super_block ["s_flags"%string] buf) as [fl |]; [| done].
  cbn [mbind option_bind negb]. destruct (present h (text "ext4dev")) as [dev |]; [| done]. destruct (present h (text "ext4")) as [e4 |]; [| done].
  cbn [mbind option_bind]. destruct (negb (_ =? 0)), dev, e4; simpl; (split; [done |]); try done; by right.
Qed.

(** ** The search with the cache *)

Section cached.
Context (h : host) (fd : device) (offset : Z).
Abbreviation rd := (read_block fd offset).

(** The entries of the table before and after some of them were resolved. *)
Definition same_image (ip ip' : imagetype) : Prop := ip' = ip ∨ ip' = mk_image (resolved h (block ip)) (name ip) (identify ip).
Abbreviation same_table := (Forall2 same_image).

Lemma same_image_resolved ip ip' : same_image ip ip' → resolved h (block ip') = resolved h (block ip) ∧ name ip' = name ip ∧ identify ip' = identify ip.
Proof using Type.
  intros [-> | ->]; [done |]. simpl. split; [| done]. unfold resolved. destruct (Z.eqb_spec (block ip) (-1)) as [E | Hne]; [by case_match |].
  by destruct (Z.eqb_spec (block ip) (-1)).
Qed.

(** One entry of the loop, when the buffer holds the block [cur_block] or has
    to be read. *)
Lemma identify_loop_cons ip ips cur_block buf bytes : (cur_block = resolved h (block ip) → rd cur_block = Some buf) →
  identify_loop h fd offset (ip :: ips) cur_block buf bytes =
  let ip' := mk_image (resolved h (block ip)) (name ip) (identify ip) in
  match rd (resolved h (block ip)) with
  | None => Some ((-1, None, bytes), ip' :: ips)
  | Some b =>
      '(ret, bytes) ← identify ip b bytes;
      if ret : bool then Some ((0, Some (name ip), bytes), ip' :: ips)
      else '(r, ips) ← identify_loop h fd offset ips (resolved h (block ip)) b bytes; Some (r, ip' :: ips)
  end.
Proof using Type.
  intros Hc. cbn [identify_loop block name identify]. fold (resolved h (block ip)). destruct (Z.eqb_spec cur_block (resolved h (block ip))) as [-> | Hne]; cbn [negb].
  - by rewrite Hc.
  - unfold read_block. destruct (fd _) as [b |]; [| done]. cbn [mbind option_bind]. by destruct (Z.of_nat (length b) =? BLOCK_SIZE).
Qed.

Lemma same_image_trans ip1 ip2 ip3 : same_image ip1 ip2 → same_image ip2 ip3 → same_image ip1 ip3.
Proof using Type.
  intros H12 H23. destruct (same_image_resolved _ _ H12) as (Hb & Hn & Hi). destruct H23 as [-> | ->]; [done |].
  right. by rewrite Hb, Hn, Hi.
Qed.

Lemma search_same ips ips' bytes : same_table ips ips' → search h rd ips' bytes = search h rd ips bytes.
Proof using Type.
  induction 1 as [| ip ip' ips ips' Hip _ IH]; [done |]. destruct (same_image_resolved _ _ Hip) as (Hb & Hn & Hi). cbn [search].
  rewrite Hb, Hn, Hi. destruct (rd _); [| done]. destruct (identify ip _ 0) as [[[] n] |]; [done | exact IH | done].
Qed.

(** The loop finds what the search finds. *)
Definition refines (ips : list imagetype) : Prop := ∀ cur_block buf bytes a, rd cur_block = Some buf → search h rd ips bytes = Some a →
  ∃ ips', identify_loop h fd offset ips cur_block buf bytes = Some (a, ips') ∧ same_table ips ips'.

Lemma same_table_refl ips : same_table ips ips.
Proof using Type. induction ips; constructor; [by left | done]. Qed.

Lemma refines_clean ip ips : clean_probe (identify ip) → refines ips → ∀ cur_block buf bytes a,
  (cur_block = resolved h (block ip) → rd cur_block = Some buf) → search h rd (ip :: ips) bytes = Some a →
  ∃ ips', identify_loop h fd offset (ip :: ips) cur_block buf bytes = Some (a, ips') ∧ same_table (ip :: ips) ips'.
Proof using Type.
  intros Hp Hips cur_block buf bytes a Hc Hs. rewrite identify_loop_cons by done. cbn [search] in Hs. cbv zeta.
  destruct (rd (resolved h (block ip))) as [b |] eqn:Er.
  - rewrite (Hp b bytes). destruct (identify ip b 0) as [[[] n] |]; [| | done]; cbn [mbind option_bind] in Hs |- *.
    + apply (inj Some) in Hs as <-. eexists. split; [done |]. constructor; [by right | apply same_table_refl].
    + destruct (Hips _ b bytes a Er Hs) as (ips' & E & Ht). rewrite E. eexists. split; [done |]. constructor; [by right | done].
  - apply (inj Some) in Hs as <-. eexists. split; [done |]. constructor; [by right | apply same_table_refl].
Qed.

Lemma refines_ext4 d e ips : identify d = ext4dev_image h → identify e = ext4_image h → resolved h (block d) = resolved h (block e) →
  refines ips → refines (d :: e :: ips).
Proof using Type.
  intros Hd He Hb Hips cur_block buf bytes a Hc Hs. rewrite identify_loop_cons by (intros; by simplify_eq). cbn [search] in Hs. cbv zeta.
  rewrite <- Hb in Hs. destruct (rd (resolved h (block d))) as [b |] eqn:Er; [| apply (inj Some) in Hs as <-; eexists; split; [done | constructor; [right; congruence | apply same_table_refl]]].
  rewrite Hd, He in *. destruct (ext4_pair h b bytes) as [Hn Hp]. destruct (ext4dev_image h b 0) as [[[] n] |]; [| | done]; cbn [mbind option_bind] in Hs.
  - rewrite Hp. apply (inj Some) in Hs as <-. eexists. split; [done |]. constructor; [right; congruence | apply same_table_refl].
  - destruct Hp as [[-> He4] | [-> He4]]; cbn [mbind option_bind]; rewrite identify_loop_cons by done; cbv zeta; rewrite <- Hb, Er, He, He4;
      rewrite (He4 0) in Hs; cbn [mbind option_bind] in Hs |- *.
    + destruct (Hips _ b bytes a Er Hs) as (ips' & E & Ht). rewrite E. eexists. split; [done |]. by repeat (constructor; [right; congruence |]).
    + apply (inj Some) in Hs as <-. eexists. split; [done |]. constructor; [right; congruence |]. constructor; [right; congruence | apply same_table_refl].
Qed.

Lemma refines_nil : refines [].
Proof using Type. intros cur_block buf bytes a _ [= <-]. exists []. by split. Qed.

Lemma refines_app pre ips : Forall (λ ip, clean_probe (identify ip)) pre → refines ips → refines (pre ++ ips).
Proof using Type.
  induction 1 as [| ip pre Hip _ IH]; intros Hips; [done |]. intros cur_block buf bytes a Hc Hs.
  apply (refines_clean ip (pre ++ ips) Hip (IH Hips)); done.
Qed.
End cached.

(** ** The files that are searched *)

Abbreviation seven_bit := (Forall (λ c, 0 <= c < 128)).

(** The files hold characters of seven bits: [isspace] is called with a
    [char]. *)
Definition host_ok (h : host) : Prop := ∀ path s, fopen h path = Some s → seven_bit s.

Lemma fgets_line_split n s : ∀ line rest, fgets_line n s = (Some line, rest) → s = line ++ rest ∧ (n ≠ 0%nat → line ≠ []).
Proof.
  revert s. induction n as [| n IH]; intros s line rest E; simpl in E; [by injection E as <- <- |].
  destruct s as [| c s]; [done |]. destruct (Z.eqb_spec c 10) as [-> |]; [by injection E as <- <- |].
  destruct (fgets_line n s) as [[l |] r] eqn:El; [| done]. injection E as <- <-. by destruct (IH s l r El) as [-> _].
Qed.

Lemma c_string_seven_bit l : seven_bit l → seven_bit (c_string l).
Proof. induction 1 as [| c l Hc _ IH]; [done |]. simpl. destruct (c =? 0); [done | by constructor]. Qed.

Lemma find_line_total fuel n found s : (length s < fuel)%nat → n ≠ 0%nat → seven_bit s → (∀ l, seven_bit l → is_Some (found l)) → is_Some (find_line fuel n found s).
Proof.
  intros Hf Hn Hs Hfound. revert s Hf Hs. induction fuel as [| fuel IH]; intros s Hf Hs; [lia |]. cbn [find_line].
  destruct (fgets_line n s) as [[line |] rest] eqn:E; [| by eexists]. destruct (fgets_line_split _ _ _ _ E) as [-> Hne]. specialize (Hne Hn).
  apply Forall_app in Hs as [Hl Hr]. destruct (Hfound (c_string line)) as [[] ->]; [by apply c_string_seven_bit | by eexists |].
  cbn [mbind option_bind]. apply IH; [| done]. rewrite length_app in Hf. destruct line; [done |]. simpl in Hf. lia.
Qed.

Lemma space_at_seven_bit cp : seven_bit cp → space_at cp = Some (match cp with [] => false | c :: _ => is_space c end).
Proof.
  intros Hcp. unfold space_at. destruct cp as [| c cp]; [vm_compute; reflexivity |]. apply Forall_cons in Hcp as [Hc _]. cbn [head default].
  unfold default, from_option, id. rewrite wraps_small by (done || unfold in_s; lia). destruct (isspace_some c) as [v Hv]; [lia |].
  unfold is_space, holds. by rewrite Hv.
Qed.

Lemma skip_while_seven_bit sp cp : seven_bit cp → ∃ cp', skip_while sp cp = Some cp' ∧ seven_bit cp'.
Proof.
  induction 1 as [| c cp Hc Hcp IH]; [by exists [] |]. cbn [skip_while]. rewrite space_at_seven_bit by by constructor. cbn [mbind option_bind].
  destruct (Bool.eqb _ sp); [done |]. eexists. split; [done | by constructor].
Qed.

Lemma proc_line_total fs_name buf : seven_bit buf → is_Some (proc_line fs_name buf).
Proof.
  intros Hb. unfold proc_line. rewrite space_at_seven_bit by done. cbn [mbind option_bind].
  destruct (skip_while_seven_bit false buf Hb) as (cp & E & Hcp). assert (∃ cp, (if negb match buf with [] => false | c :: _ => is_space c end then skip_while false buf else Some buf) = Some cp ∧ seven_bit cp)
    as (cp' & -> & Hcp') by (destruct (negb _); eauto).
  cbn [mbind option_bind]. destruct (skip_while_seven_bit true cp' Hcp') as (cp2 & -> & _). by eexists.
Qed.

Lemma present_total h fs_name : host_ok h → is_Some (present h fs_name).
Proof.
  intros Hh. unfold present, fs_proc_check. assert (is_Some (check_for_modules h fs_name)) as Hm.
  { unfold check_for_modules. destruct (uname_release h); [| by eexists]. destruct (fopen h _) as [s |] eqn:E; [| by eexists].
    apply find_line_total; [lia | done | by eapply Hh | by eexists]. }
  destruct (fopen h (text "/proc/filesystems")) as [s |] eqn:E; [| done].
  destruct (find_line_total (S (length s)) 79 (proc_line fs_name) s) as [[] ->]; [lia | done | by eapply Hh | apply proc_line_total | by eexists | done].
Qed.

(** *** What they say *)

Lemma fgets_line_line n l rest : 10 ∉ l → (length l < n)%nat → fgets_line n (l ++ 10 :: rest) = (Some (l ++ [10]), rest).
Proof.
  revert l. induction n as [| n IH]; intros l Hl Hn; [lia |]. destruct l as [| c l]; [done |]. apply not_elem_of_cons in Hl as [Hc Hl].
  cbn [app fgets_line]. rewrite (proj2 (Z.eqb_neq c 10)) by done. simpl in Hn. by rewrite IH by (done || lia).
Qed.

Lemma c_string_id l : 0 ∉ l → c_string l = l.
Proof. induction l as [| c l IH]; intros Hl; [done |]. apply not_elem_of_cons in Hl as [Hc Hl]. simpl. rewrite (proj2 (Z.eqb_neq c 0)), IH by done. done. Qed.

(** Lines of a file that are short enough for the buffer are found if one of
    them is. *)
Definition file_of {A} (line : A → list Z) (es : list A) : list Z := concat ((λ e, line e ++ [10]) <$> es).

Lemma find_lines {A} (line : A → list Z) n found (P : A → bool) es : n ≠ 0%nat →
  Forall (λ e, (10 ∉ line e) ∧ (0 ∉ line e) ∧ (length (line e) < n)%nat ∧ found (line e ++ [10]) = Some (P e)) es →
  ∀ fuel, (length (file_of line es) < fuel)%nat → find_line fuel n found (file_of line es) = Some (existsb P es).
Proof.
  intros Hn0. unfold file_of. induction 1 as [| e es (H10 & H0 & Hn & Hf) _ IH]; intros fuel Hfuel; (destruct fuel as [| fuel]; [lia |]).
  { by destruct n. }
  rewrite fmap_cons in *. cbn [concat] in *. rewrite length_app in Hfuel. rewrite <- app_assoc. cbn [find_line app]. rewrite fgets_line_line by done.
  rewrite c_string_id by (intros [? | ?%list_elem_of_singleton]%elem_of_app; done). rewrite Hf. cbn [mbind option_bind existsb]. destruct (P e); [done |].
  apply IH. rewrite length_app in Hfuel. simpl in Hfuel. lia.
Qed.

(** Names of file systems, and the lines of the two files with them. *)
Definition fs_word (x : list Z) : Prop := x ≠ [] ∧ Forall (λ c, 32 < c < 127) x.
Definition proc_text (e : bool * list Z) : list Z := (if e.1 then text "nodev" else []) ++ 9 :: e.2.
Definition module_text (e : list Z * list Z * list Z) : list Z := e.1.1 ++ 47 :: e.1.2 ++ text ".ko:" ++ e.2.

Lemma graph_space c : 32 < c < 127 → is_space c = false.
Proof.
  intros Hc. apply negb_true_iff. assert (forallb (λ c, negb (is_space c)) (seqZ 33 94) = true) as Hall by (vm_compute; reflexivity).
  rewrite forallb_forall in Hall. apply Hall, list_elem_of_In, elem_of_seqZ. lia.
Qed.

Lemma cut_at_app c l rest : c ∉ l → cut_at c (l ++ c :: rest) = l.
Proof. induction l as [| x l IH]; intros Hl; simpl; [by rewrite Z.eqb_refl |]. apply not_elem_of_cons in Hl as [Hx Hl]. rewrite (proj2 (Z.eqb_neq x c)), IH by done. done. Qed.
Lemma cut_at_none c l : c ∉ l → cut_at c l = l.
Proof. induction l as [| x l IH]; intros Hl; [done |]. apply not_elem_of_cons in Hl as [Hx Hl]. simpl. rewrite (proj2 (Z.eqb_neq x c)), IH by done. done. Qed.

Lemma skip_while_stop sp w c rest : seven_bit (w ++ c :: rest) → Forall (λ c, is_space c = sp) w → is_space c = negb sp →
  skip_while sp (w ++ c :: rest) = Some (c :: rest).
Proof.
  intros H7 Hw Hc. induction Hw as [| x w Hx _ IH]; cbn [app skip_while] in *; rewrite space_at_seven_bit by done; cbn [mbind option_bind].
  - rewrite Hc. by destruct sp.
  - rewrite Hx, Bool.eqb_reflx. apply IH. by apply Forall_cons in H7 as [_ H7].
Qed.

Lemma fs_word_free x c : fs_word x → c <= 32 → c ∉ x.
Proof. intros [_ Hx] Hc Hin. rewrite Forall_forall in Hx. specialize (Hx c Hin). lia. Qed.

(** Closed goals with a decision procedure. *)
Ltac by_decide := apply (bool_decide_unpack _); vm_compute; exact I.

Lemma proc_line_entry fs_name e : fs_word e.2 → proc_line fs_name (proc_text e ++ [10]) = Some (bool_decide (fs_name = e.2)).
Proof.
  destruct e as [nodev x]. unfold proc_text. simpl. intros Hx. pose proof Hx as [Hne Hg].
  assert (seven_bit (9 :: x ++ [10])) as H9 by (constructor; [done |]; apply Forall_app; split; [eapply Forall_impl; [exact Hg |]; intros; simpl in *; lia | by_decide]).
  assert (skip_while true (9 :: x ++ [10]) = Some (x ++ [10])) as Hskip.
  { destruct x as [| c x]; [done |]. apply (skip_while_stop true [9]); [done | by_decide |]. apply graph_space. by apply Forall_cons in Hg as [? _]. }
  assert (cut_at 32 (cut_at 9 (cut_at 10 (x ++ [10]))) = x) as Hcut.
  { rewrite (cut_at_app 10 x []) by (apply fs_word_free; [done | lia]). by rewrite (cut_at_none 9 x), (cut_at_none 32 x) by (apply fs_word_free; [done | lia]). }
  unfold proc_line. destruct nodev.
  - change ((text "nodev" ++ 9 :: x) ++ [10]) with (text "nodev" ++ 9 :: x ++ [10]). rewrite space_at_seven_bit by (apply Forall_app; split; [by_decide | done]).
    cbn [mbind option_bind]. change (negb _) with true. cbv iota. rewrite (skip_while_stop false (text "nodev")); [| apply Forall_app; split; [by_decide | done] | by_decide | done].
    cbn [mbind option_bind]. rewrite Hskip. cbn [mbind option_bind]. by rewrite Hcut.
  - change (([] ++ 9 :: x) ++ [10]) with (9 :: x ++ [10]). rewrite space_at_seven_bit by done. cbn [mbind option_bind]. change (negb (is_space 9)) with false. cbv iota. cbn [mbind option_bind].
    rewrite Hskip. cbn [mbind option_bind]. by rewrite Hcut.
Qed.

Lemma cut_ko_entry x : x ≠ [] → cut_ko (x ++ text ".ko") = x.
Proof.
  intros Hx. unfold cut_ko. rewrite length_app. change (length (text ".ko")) with 3%nat. replace (length x + 3 - 3)%nat with (length x) by lia.
  rewrite (proj2 (Z.ltb_lt 3 _)) by (destruct x; [done |]; simpl; lia). rewrite drop_app_length, bool_decide_eq_true_2 by done. apply take_app_length.
Qed.

Lemma base_name_none l : 47 ∉ l → base_name l = None.
Proof. induction l as [| c l IH]; intros Hl; [done |]. apply not_elem_of_cons in Hl as [Hc Hl]. simpl. rewrite IH by done. by rewrite (proj2 (Z.eqb_neq c 47)). Qed.

Lemma base_name_app dir x : 47 ∉ x → base_name (dir ++ 47 :: x) = Some x.
Proof. intros Hx. induction dir as [| c dir IH]; simpl; [by rewrite base_name_none | by rewrite IH]. Qed.

(** A path without a colon, whose last part is the name of the module. *)
Definition module_ok (e : list Z * list Z * list Z) : Prop := (58 ∉ e.1.1) ∧ (58 ∉ e.1.2) ∧ (47 ∉ e.1.2) ∧ e.1.2 ≠ [].

Lemma module_line_entry fs_name e : module_ok e → module_line fs_name (module_text e ++ [10]) = Some (bool_decide (fs_name = e.1.2)).
Proof.
  destruct e as [[dir x] deps]. unfold module_ok, module_text. cbn [fst snd]. intros (Hd & Hx & Hx47 & Hne). unfold module_line.
  replace ((dir ++ 47 :: x ++ text ".ko:" ++ deps) ++ [10]) with ((dir ++ 47 :: x ++ text ".ko") ++ 58 :: deps ++ [10]) by (change (text ".ko:") with (text ".ko" ++ [58]); rewrite <- !app_assoc; cbn [app]; by rewrite <- !app_assoc).
  rewrite bool_decide_eq_true_2 by set_solver. rewrite cut_at_app.
  - rewrite base_name_app, cut_ko_entry; [| done |].
    + f_equal. apply bool_decide_ext. split; congruence.
    + intros [? | Hko]%elem_of_app; [done |]. by vm_compute in Hko; set_solver.
  - intros [? | [? | [? | Hko]%elem_of_app]%elem_of_cons]%elem_of_app; [done | done | done |]. by vm_compute in Hko; set_solver.
Qed.

Lemma existsb_elem {A} (f : A → list Z) x es : existsb (λ e, bool_decide (x = f e)) es = bool_decide (x ∈ f <$> es).
Proof.
  apply eq_iff_eq_true. rewrite existsb_exists, bool_decide_eq_true, list_elem_of_fmap. setoid_rewrite bool_decide_eq_true.
  split; intros (e & H1 & H2); exists e; [apply list_elem_of_In in H1 | apply list_elem_of_In in H2]; done.
Qed.

(** The names that the kernel lists and those of the modules are found. *)
Lemma fs_proc_check_correct h fs_name es : fopen h (text "/proc/filesystems") = Some (file_of proc_text es) →
  Forall (λ e, fs_word e.2 ∧ (length e.2 <= 70)%nat) es → fs_proc_check h fs_name = Some (bool_decide (fs_name ∈ es.*2)).
Proof.
  intros Hf Hes. unfold fs_proc_check. rewrite Hf. rewrite (find_lines proc_text 79 _ (λ e, bool_decide (fs_name = e.2))); [by rewrite existsb_elem | done | | lia].
  eapply Forall_impl; [exact Hes |]. intros [nodev x] [Hx Hl]. simpl in Hl.
  assert (∀ c, c ∈ [0; 10] → c ∉ proc_text (nodev, x)) as Hc.
  { intros c Hc. unfold proc_text. cbn [fst snd]. intros [Hn | [? | Hin]%elem_of_cons]%elem_of_app; [| set_solver | apply (fs_word_free x c Hx); [set_solver by lia | done]].
    destruct nodev; vm_compute in Hn; set_solver. }
  split_and!; [apply Hc; set_solver | apply Hc; set_solver | | by apply proc_line_entry].
  unfold proc_text. simpl. rewrite length_app. simpl. destruct nodev; simpl; lia.
Qed.

Lemma check_for_modules_correct h release fs_name es : uname_release h = Some release → (length release <= 64)%nat →
  fopen h (text "/lib/modules/" ++ release ++ text "/modules.dep") = Some (file_of module_text es) →
  Forall (λ e, module_ok e ∧ (10 ∉ module_text e) ∧ (0 ∉ module_text e) ∧ (length (module_text e) < 1023)%nat) es →
  check_for_modules h fs_name = Some (bool_decide (fs_name ∈ (λ e, e.1.2) <$> es)).
Proof.
  intros Hu Hr Hf Hes. unfold check_for_modules. rewrite Hu, take_ge by (rewrite !length_app; simpl; lia). rewrite Hf.
  rewrite (find_lines module_text 1023 _ (λ e, bool_decide (fs_name = e.1.2))); [by rewrite existsb_elem | done | | lia].
  eapply Forall_impl; [exact Hes |]. intros e (Hok & H10 & H0 & Hl). split_and!; [done | done | done | by apply module_line_entry].
Qed.

(** ** The probes return *)

(** The size fields that are used as shift counts, where a magic number says
    that they are there: the blocks 1 and 32 of the image. *)
Definition ext_size_ok (buf : list Z) : Prop := ∀ n, get ext3_super_block ["s_magic"%string] buf = Some EXT2_SUPER_MAGIC →
  get ext3_super_block ["s_log_block_size"%string] buf = Some n → u32 (10 + n) < 64.
Definition minix_size_ok (buf : list Z) : Prop := ∀ m n, get minix_super_block ["s_magic"%string] buf = Some m →
  m = MINIX_SUPER_MAGIC ∨ m = MINIX_SUPER_MAGIC2 → get minix_super_block ["s_log_zone_size"%string] buf = Some n → n + 10 < 64.
Definition jfs_size_ok (buf : list Z) : Prop := ∀ n, has jfs_superblock ["s_magic"%string] (text "JFS1") buf = Some true →
  get jfs_superblock ["s_l2pbsize"%string] buf = Some n → n < 64.

Ltac read_members Hb :=
  repeat match goal with
         | |- context [get ?t ?xs ?buf] =>
             let v := fresh "v" in let Hv := fresh "Hv" in let Hr := fresh "Hr" in
             match eval vm_compute in (offsetof t xs) with
             | Some (?o, Int ?size) =>
                 destruct (member_ok t xs o size buf Hb) as (v & Hv & Hr); [vm_compute; reflexivity | lia | lia | lia |]; rewrite Hv; cbn [mbind option_bind]
             end
         | |- context [has ?t ?xs ?s ?buf] =>
             let b := fresh "b" in let Hv := fresh "Hv" in
             match eval vm_compute in (offsetof t xs) with
             | Some (?o, ?t') => destruct (member_bytes_ok t xs o t' s buf Hb) as (b & Hv); [vm_compute; reflexivity | lia | by vm_compute |]; rewrite Hv; cbn [mbind option_bind]
             end
         end.

Lemma shl64_some x n : 0 <= n < 64 → shl64 x n = Some (u64 (Z.shiftl x n)).
Proof. intros Hn. unfold shl64. by rewrite (proj2 (Z.leb_le _ _)), (proj2 (Z.ltb_lt _ _)) by lia. Qed.

Lemma full_byte buf i : full_block buf → 0 <= i < 1024 → is_Some (byte_at buf i).
Proof. intros [Hl _] Hi. unfold byte_at. rewrite (proj2 (Z.ltb_ge i 0)) by lia. apply lookup_lt_is_Some. lia. Qed.

Lemma simple_probes_total buf bytes : full_block buf →
  Forall (λ p : probe, is_Some (p buf bytes)) [gzip_image; cramfs_image; romfs_image; xfs_image; squashfs_image; nilfs2_image; ocfs2_image; reiserfs_image; reiser4_image;
    gfs2_image; btrfs_image; iso_image; luks_image; swap_image; suspend_image].
Proof.
  intros Hb. repeat constructor; cbv delta [gzip_image cramfs_image romfs_image xfs_image squashfs_image nilfs2_image ocfs2_image reiserfs_image reiser4_image
    gfs2_image btrfs_image iso_image luks_image swap_image suspend_image]; cbv beta.
  { destruct (full_byte buf 0 Hb) as [p0 ->]; [lia |]. destruct (full_byte buf 1 Hb) as [p1 ->]; [lia |]. by eexists. }
  all: read_members Hb; rewrite ?shl64_some by lia; cbn [mbind option_bind]; repeat (match goal with |- context [if ?b then _ else _] => destruct b end); by eexists.
Qed.

Lemma lvm2_image_total buf bytes : full_block buf → is_Some (lvm2_image buf bytes).
Proof.
  intros [Hl Hb]. assert (∀ i xs o t' s, 0 <= i <= 512 → offsetof lvm2_super_block xs = Some (o, t') → 0 <= o → o + Z.of_nat (length s) <= 512 →
    is_Some (has lvm2_super_block xs s (drop (Z.to_nat i) buf))) as Hhas.
  { intros i xs o t' s Hi Ho H0 H1. unfold has. rewrite Ho. cbn [mbind option_bind].
    destruct (bytes_at_ok (drop (Z.to_nat i) buf) o (Z.of_nat (length s))) as (bs & -> & _); [lia | lia | rewrite length_drop; lia | by apply Forall_drop |]. by eexists. }
  unfold lvm2_image, lvm2_sectors. cbv zeta.
  destruct (Hhas 0 ["magic"%string] 0 (Arr (Int 1) 8) (text "LABELONE")) as [b1 ->]; [lia | by vm_compute | lia | by vm_compute |].
  destruct (Hhas 0 ["type"%string] 24 (Arr (Int 1) 8) (text "LVM2 001")) as [b2 ->]; [lia | by vm_compute | lia | by vm_compute |].
  destruct (Hhas 0x200 ["magic"%string] 0 (Arr (Int 1) 8) (text "LABELONE")) as [b3 ->]; [lia | by vm_compute | lia | by vm_compute |].
  destruct (Hhas 0x200 ["type"%string] 24 (Arr (Int 1) 8) (text "LVM2 001")) as [b4 ->]; [lia | by vm_compute | lia | by vm_compute |].
  cbn [mbind option_bind]. destruct (b1 && b2), (b3 && b4); by eexists.
Qed.

(** The members that both structures of ext have are at the same places. *)
Lemma ext2_ext3 buf : get ext2_super_block ["s_magic"%string] buf = get ext3_super_block ["s_magic"%string] buf ∧
  ext_bytes ext2_super_block buf = ext_bytes ext3_super_block buf.
Proof. done. Qed.

Lemma ext_bytes_some buf : full_block buf → ext_size_ok buf → get ext3_super_block ["s_magic"%string] buf = Some EXT2_SUPER_MAGIC →
  ∃ n m, get ext3_super_block ["s_blocks_count"%string] buf = Some n ∧ get ext3_super_block ["s_log_block_size"%string] buf = Some m ∧
    ext_bytes ext3_super_block buf = Some (u64 (n * 2 ^ u32 (10 + m))).
Proof.
  intros Hb Hs Hm. unfold ext_bytes. read_members Hb. exists v, v0. split_and!; [done | done |]. specialize (Hs v0 Hm Hv0).
  assert (0 <= u32 (10 + v0)) by (apply wrapu_range; done). rewrite shl64_some, Z.shiftl_mul_pow2 by lia. done.
Qed.

Lemma ext_probes_total h buf bytes : host_ok h → full_block buf → ext_size_ok buf →
  Forall (λ p : probe, is_Some (p buf bytes)) [ext4dev_image h; ext4_image h; ext3_image; ext2_image].
Proof.
  intros Hh Hb Hs. destruct (present_total h (text "ext4dev") Hh) as [p1 Hp1]. destruct (present_total h (text "ext4") Hh) as [p2 Hp2].
  destruct (member_ok ext3_super_block ["s_magic"%string] 56 2 buf Hb) as (m & Hm & _); [by vm_compute | lia.. |].
  assert (is_Some (base_ext4_image buf bytes)) as [[[ret n] tst] Hbase].
  { unfold base_ext4_image. rewrite Hm. cbn [mbind option_bind]. destruct (Z.eqb_spec m EXT2_SUPER_MAGIC) as [-> |]; cbn [negb]; [| by eexists].
    destruct (ext_bytes_some buf Hb Hs Hm) as (n & k & _ & _ & He). rewrite He. read_members Hb. destruct (_ || _); by eexists. }
  repeat constructor.
  - unfold ext4dev_image. rewrite Hbase, Hp1, Hp2. cbn [mbind option_bind]. destruct (negb ret); by eexists.
  - unfold ext4_image. rewrite Hbase, Hp1, Hp2. cbn [mbind option_bind]. destruct (negb ret); by eexists.
  - unfold ext3_image. rewrite Hm. cbn [mbind option_bind]. read_members Hb.
    destruct (Z.eqb_spec m EXT2_SUPER_MAGIC) as [-> |]; cbn [andb]; [| by eexists]. destruct (ext_bytes_some buf Hb Hs Hm) as (n' & k & _ & _ & ->).
    cbn [mbind option_bind]. destruct (negb _); by eexists.
  - unfold ext2_image. destruct (ext2_ext3 buf) as [-> ->]. rewrite Hm. cbn [mbind option_bind].
    destruct (Z.eqb_spec m EXT2_SUPER_MAGIC) as [-> |]; [| by eexists]. destruct (ext_bytes_some buf Hb Hs Hm) as (n' & k & _ & _ & ->). by eexists.
Qed.

Lemma minix_image_total buf bytes : full_block buf → minix_size_ok buf → is_Some (minix_image buf bytes).
Proof.
  intros Hb Hs. destruct (member_ok minix_super_block ["s_magic"%string] 16 2 buf Hb) as (m & Hm & _); [by vm_compute | lia.. |].
  destruct (member_ok minix_super_block ["s_log_zone_size"%string] 10 2 buf Hb) as (n & Hn & Hr); [by vm_compute | lia.. |].
  unfold minix_image. rewrite Hm, Hn. cbn [mbind option_bind]. read_members Hb. specialize (Hs m n Hm).
  destruct (Z.eqb_spec m MINIX_SUPER_MAGIC), (Z.eqb_spec m MINIX_SUPER_MAGIC2); cbn [orb]; [| | | by eexists];
    rewrite shl64_some by (split; [lia | apply Hs; auto]); by eexists.
Qed.

Lemma jfs_image_total buf bytes : full_block buf → jfs_size_ok buf → is_Some (jfs_image buf bytes).
Proof.
  intros Hb Hs. destruct (member_ok jfs_superblock ["s_l2pbsize"%string] 28 2 buf Hb) as (n & Hn & Hr); [by vm_compute | lia.. |].
  destruct (member_bytes_ok jfs_superblock ["s_magic"%string] 0 (Arr (Int 1) 4) (text "JFS1") buf Hb) as ([] & Hm); [by vm_compute | lia | by vm_compute | |];
    unfold jfs_image; rewrite Hm; [| by eexists]. rewrite Hn. cbn [mbind option_bind]. read_members Hb.
  rewrite shl64_some by (split; [lia | by apply Hs]). by eexists.
Qed.

(** ** What [identify_fs] finds *)

(** An image with bytes as contents and size fields in range. *)
Record image_ok (rd : Z → option (list Z)) : Prop := {
  image_full blk buf : rd blk = Some buf → full_block buf;
  image_ext buf : rd 1 = Some buf → ext_size_ok buf;
  image_minix buf : rd 1 = Some buf → minix_size_ok buf;
  image_jfs buf : rd 32 = Some buf → jfs_size_ok buf;
}.

Definition entry_result (h : host) (rd : Z → option (list Z)) (ip : imagetype) : option (option (bool * Z)) :=
  (λ buf, identify ip buf 0) <$> rd (resolved h (block ip)).
Definition rejects (h : host) (rd : Z → option (list Z)) (ip : imagetype) : Prop := ∃ n, entry_result h rd ip = Some (Some (false, n)).
Definition recognises (h : host) (rd : Z → option (list Z)) (ip : imagetype) (n : Z) : Prop := entry_result h rd ip = Some (Some (true, n)).
Definition unreadable (h : host) (rd : Z → option (list Z)) (ip : imagetype) : Prop := entry_result h rd ip = None.

(** The answer for a table: that of the first entry that does not reject its
    block, because it recognises it or because it cannot be read. *)
Definition first_answer (h : host) (rd : Z → option (list Z)) (ips : list imagetype) (a : answer) : Prop :=
  (∃ pre ip post n, ips = pre ++ ip :: post ∧ Forall (rejects h rd) pre ∧ recognises h rd ip n ∧ a = (0, Some (name ip), n)) ∨
  (∃ pre ip post, ips = pre ++ ip :: post ∧ Forall (rejects h rd) pre ∧ unreadable h rd ip ∧ a = (-1, None, 0)) ∨
  (Forall (rejects h rd) ips ∧ a = (1, None, 0)).

Lemma first_answer_cons h rd ip ips a : rejects h rd ip → first_answer h rd ips a → first_answer h rd (ip :: ips) a.
Proof.
  intros Hip [(pre & ip' & post & n & -> & Hpre & H) | [(pre & ip' & post & -> & Hpre & H) | [Hall ->]]].
  - left. exists (ip :: pre), ip', post, n. split; [done |]. split; [by constructor | done].
  - right. left. exists (ip :: pre), ip', post. split; [done |]. split; [by constructor | done].
  - right. right. split; [by constructor | done].
Qed.

Lemma search_first h rd ips : Forall (λ ip, entry_result h rd ip ≠ Some None) ips → ∃ a, search h rd ips 0 = Some a ∧ first_answer h rd ips a.
Proof.
  induction 1 as [| ip ips Hip _ (a & E & Ha)]; [eexists; split; [done |]; right; by right |]. cbn [search].
  destruct (rd (resolved h (block ip))) as [buf |] eqn:Er.
  - destruct (identify ip buf 0) as [[[] n] |] eqn:Ei; [| | unfold entry_result in Hip; by rewrite Er in Hip; simpl in Hip; rewrite Ei in Hip].
    + eexists. split; [done |]. left. exists [], ip, ips, n. split_and!; [done | done | | done]. unfold recognises, entry_result. rewrite Er. simpl. by rewrite Ei.
    + exists a. split; [done |]. apply first_answer_cons; [| done]. exists n. unfold entry_result. rewrite Er. simpl. by rewrite Ei.
  - eexists. split; [done |]. right. left. exists [], ip, ips. split_and!; [done | done | | done]. unfold unreadable, entry_result. by rewrite Er.
Qed.

Lemma images_total h rd : host_ok h → image_ok rd → Forall (λ ip, entry_result h rd ip ≠ Some None) (images h).
Proof.
  intros Hh [Hfull Hext Hminix Hjfs].
  assert (∀ ip, (∀ buf, rd (resolved h (block ip)) = Some buf → is_Some (identify ip buf 0)) → entry_result h rd ip ≠ Some None) as Hsome.
  { intros ip Hip. unfold entry_result. destruct (rd (resolved h (block ip))) as [buf |]; simpl; [| discriminate]. destruct (Hip buf eq_refl) as [r ->]. done. }
  unfold images. repeat (apply Forall_cons; split; [apply Hsome; intros buf Hbuf; cbn [block identify] in Hbuf |- * |]); [.. | constructor].
  all: match goal with
       | |- is_Some (minix_image _ _) => apply minix_image_total; [by eapply Hfull | by apply Hminix]
       | |- is_Some (jfs_image _ _) => apply jfs_image_total; [by eapply Hfull | by apply Hjfs]
       | |- is_Some (lvm2_image _ _) => by eapply lvm2_image_total, Hfull
       | |- _ => pose proof (simple_probes_total buf 0 (Hfull _ _ Hbuf)) as Ht; rewrite !Forall_cons in Ht; tauto
       | |- _ => pose proof (ext_probes_total h buf 0 Hh (Hfull _ _ Hbuf) (Hext _ Hbuf)) as Ht; rewrite !Forall_cons in Ht; tauto
       end.
Qed.

Abbreviation clean_image := (λ ip : imagetype, clean_probe (identify ip)).

Lemma same_table_clean h ips ips' : Forall2 (same_image h) ips ips' → Forall clean_image ips → Forall clean_image ips'.
Proof.
  induction 1 as [| ip ip' ips ips' Hip _ IH]; [done |]. rewrite !Forall_cons. intros [H1 H2]. split; [| by apply IH].
  by destruct (same_image_resolved h ip ip' Hip) as (_ & _ & ->).
Qed.

Lemma images_clean h : Forall clean_image (take 5 (images h)) ∧ Forall clean_image (drop 7 (images h)).
Proof. pose proof probes_clean as Hc. rewrite !Forall_cons in Hc. cbn [take drop images]. rewrite !Forall_cons, !Forall_nil. cbn [identify]. tauto. Qed.

Lemma images_refine h fd offset buf bytes table a : Forall2 (same_image h) (images h) table →
  search h (read_block fd offset) table bytes = Some a →
  ∃ table', identify_loop h fd offset table (-1) buf bytes = Some (a, table') ∧ Forall2 (same_image h) table table'.
Proof.
  intros Ht Hs. destruct (images_clean h) as [Hpre Hpost].
  rewrite <- (take_drop 5 (images h)) in Ht. apply Forall2_app_inv_l in Ht as (pre & t2 & Ht1 & Ht & ->).
  apply Forall2_cons_inv_l in Ht as (d & t3 & Hd & Ht & ->). apply Forall2_cons_inv_l in Ht as (e & post & He & Ht & ->).
  apply (same_table_clean h _ _ Ht1) in Hpre. apply (same_table_clean h _ _ Ht) in Hpost.
  destruct (same_image_resolved h _ _ Hd) as (Hdb & _ & Hdi). destruct (same_image_resolved h _ _ He) as (Heb & _ & Hei).
  apply Forall2_cons_inv_l in Ht1 as (gz & pre' & Hgz & _ & ->). destruct (same_image_resolved h _ _ Hgz) as (Hb & _ & _).
  apply Forall_cons in Hpre as [Hgc Hpre]. apply (refines_clean h fd offset gz (pre' ++ d :: e :: post)); [done | | by rewrite Hb | done].
  apply refines_app; [done |]. apply refines_ext4; [done | done | by rewrite Hdb, Heb |].
  rewrite <- (app_nil_r post). apply refines_app; [done | apply refines_nil].
Qed.

(** It always returns, and the table stays usable. *)
Lemma identify_fs_runs h fd offset table : host_ok h → image_ok (read_block fd offset) → Forall2 (same_image h) (images h) table →
  ∃ a table', identify_fs h table fd offset = Some (a, table') ∧ Forall2 (same_image h) (images h) table' ∧
    first_answer h (read_block fd offset) (images h) a.
Proof.
  intros Hh Hi Ht. destruct (search_first h (read_block fd offset) (images h) (images_total h _ Hh Hi)) as (a & Hs & Ha).
  rewrite <- (search_same h fd offset _ _ 0 Ht) in Hs. destruct (images_refine h fd offset [] 0 table a Ht Hs) as (t' & E & Ht').
  exists a, t'. split_and!; [done | | done]. clear -Ht Ht'. revert t' Ht'. induction Ht as [| x y l l' Hxy _ IH]; intros t' Ht'; inversion Ht'; subst; constructor.
  - by eapply same_image_trans.
  - by apply IH.
Qed.

(** C38.  The type of an image is found: for a device that delivers bytes,
    with size fields in range, and from the table as it is at first or as an
    earlier call has left it, [identify_fs] returns without reading outside of
    a block, although it reads a block only when the next entry needs another
    one.  Its answer is that of the first entry, in the order of the table,
    that does not reject its own block: 0 with the name and the size if the
    entry recognises it, -1 if the block cannot be read; and 1, with the size
    0, if all reject theirs. *)
Theorem identify_fs_correct h fd offset table : host_ok h → image_ok (read_block fd offset) → Forall2 (same_image h) (images h) table →
  ∃ a table', identify_fs h table fd offset = Some (a, table') ∧ Forall2 (same_image h) (images h) table' ∧
    first_answer h (read_block fd offset) (images h) a.
Proof. apply identify_fs_runs. Qed.

(** ** The ext family *)

(** The name by features: [test] is the flag for a test file system, [dev] and
    [ext4] say which of the two the kernel supports. *)
Definition ext_name (incompat ro_compat compat : Z) (test dev ext4 : bool) : list Z :=
  if negb (Z.land incompat EXT3_FEATURE_INCOMPAT_UNSUPPORTED =? 0) || negb (Z.land ro_compat EXT3_FEATURE_RO_COMPAT_UNSUPPORTED =? 0) then
    if (test && dev) || negb ext4 then text "ext4dev" else text "ext4"
  else if negb (Z.land compat EXT3_FEATURE_COMPAT_HAS_JOURNAL =? 0) then text "ext3" else text "ext2".

Lemma search_app h rd pre ips : search h rd pre 0 = Some (1, None, 0) → search h rd (pre ++ ips) 0 = search h rd ips 0.
Proof.
  induction pre as [| ip pre IH]; intros Hs; [done |]. cbn [app search] in *. destruct (rd _); [| done].
  destruct (identify ip _ 0) as [[[] n] |]; [done | by apply IH | done].
Qed.

Section ext.
Context (h : host) (buf : list Z) (dev ext4 : bool) (n k inc ro co fl : Z).
Context (Hdev : present h (text "ext4dev") = Some dev) (Hext4 : present h (text "ext4") = Some ext4).
Context (Hmagic : get ext3_super_block ["s_magic"%string] buf = Some EXT2_SUPER_MAGIC).
Context (Hn : get ext3_super_block ["s_blocks_count"%string] buf = Some n) (Hk : get ext3_super_block ["s_log_block_size"%string] buf = Some k).
Context (Hinc : get ext3_super_block ["s_feature_incompat"%string] buf = Some inc) (Hro : get ext3_super_block ["s_feature_ro_compat"%string] buf = Some ro).
Context (Hco : get ext3_super_block ["s_feature_compat"%string] buf = Some co) (Hfl : get ext3_super_block ["s_flags"%string] buf = Some fl).
Context (Hsize : 0 <= k <= 53).

(** The entries of the table from ext4dev on, for a super block of ext in
    block 1. *)
Lemma search_ext rd ips : rd 1 = Some buf →
  search h rd (mk_image 1 (text "ext4dev") (ext4dev_image h) :: mk_image 1 (text "ext4") (ext4_image h) :: mk_image 1 (text "ext3") ext3_image ::
    mk_image 1 (text "ext2") ext2_image :: ips) 0 =
  Some (0, Some (ext_name inc ro co (negb (Z.land fl EXT2_FLAGS_TEST_FILESYS =? 0)) dev ext4), u64 (n * 2 ^ (10 + k))).
Proof using Hco Hdev Hext4 Hfl Hinc Hk Hmagic Hn Hro Hsize.
  intros Hrd. assert (ext_bytes ext3_super_block buf = Some (u64 (n * 2 ^ (10 + k)))) as He.
  { unfold ext_bytes. rewrite Hn, Hk. cbn [mbind option_bind]. rewrite wrapu_small by (unfold in_u; lia). by rewrite shl64_some, Z.shiftl_mul_pow2 by lia. }
  cbn [search]. change (resolved h (block _)) with 1. rewrite Hrd. cbn [identify name block].
  unfold ext4dev_image, ext4_image, ext3_image, ext2_image, base_ext4_image.
  destruct (ext2_ext3 buf) as [-> ->]. rewrite Hmagic, Hinc, Hro, Hco, He, Hfl, Hdev, Hext4. cbn [mbind option_bind]. rewrite Z.eqb_refl. cbn [negb].
  unfold ext_name. destruct (_ || _); cbn [mbind option_bind negb].
  - destruct (negb (Z.land fl _ =? 0)), dev, ext4; done.
  - cbn [andb]. destruct (negb _); done.
Qed.

(** An ext file system is recognised as what it is: when block 1 holds
    a super block of ext, with a block size of at most 2^63, and block 0 none
    of the five formats that are tried before, [identify_fs] reports ext4dev or
    ext4 if there is a feature that ext3 does not support, ext3 if there is a
    journal, and ext2 otherwise, with the size in bytes; between ext4dev and
    ext4 the flag for test file systems decides if the kernel supports both,
    and the support of ext4 otherwise. *)
Theorem ext_identified fd offset : read_block fd offset 1 = Some buf →
  search h (read_block fd offset) (take 5 (images h)) 0 = Some (1, None, 0) →
  fst <$> identify_fs h (images h) fd offset =
    Some (0, Some (ext_name inc ro co (negb (Z.land fl EXT2_FLAGS_TEST_FILESYS =? 0)) dev ext4), u64 (n * 2 ^ (10 + k))).
Proof using Hco Hdev Hext4 Hfl Hinc Hk Hmagic Hn Hro Hsize.
  intros Hrd Hpre. destruct (images_refine h fd offset [] 0 (images h) _ (same_table_refl h _)
    (eq_trans (search_app h _ (take 5 (images h)) (drop 5 (images h)) Hpre) (search_ext (read_block fd offset) (drop 9 (images h)) Hrd))) as (t & E & _).
  unfold identify_fs. by rewrite E.
Qed.
End ext.

(** ** An image *)

Definition blank_block : list Z := replicate 1024 0.
Definition put_at (l : list Z) (i : nat) (v : list Z) : list Z := take i l ++ v ++ drop (i + length v) l.
(** 10000 blocks of 4096 bytes with extents. *)
Definition example_super : list Z := put_at (put_at (put_at (put_at blank_block 56 [0x53; 0xef]) 4 [16; 39]) 24 [2]) 96 [0x40].
Definition example_device : device := λ p, if p =? 1024 then Some example_super else Some blank_block.
Definition example_host : host := mk_host
  (λ p, if decide (p = text "/proc/filesystems") then Some (file_of proc_text [(true, text "proc"); (false, text "ext3"); (false, text "ext4")]) else None) None 4096.

Lemma ext_identified_witness : fst <$> identify_fs example_host (images example_host) example_device 0 = Some (0, Some (text "ext4"), 40960000).
Proof.
  apply (ext_identified example_host example_super false true 10000 2 0x40 0 0 0); try (vm_compute; reflexivity). lia.
Defined.

Lemma example_host_ok : host_ok example_host.
Proof. intros p s. simpl. case_decide; [| done]. intros [= <-]. by_decide. Qed.

Lemma example_image_any offset : image_ok (read_block example_device offset).
Proof.
  assert (∀ blk buf, read_block example_device offset blk = Some buf → buf = example_super ∨ buf = blank_block) as Hr.
  { intros blk buf. unfold read_block, example_device. destruct (_ =? 1024); intros [= <-]; auto. }
  split; intros.
  - destruct (Hr _ _ H) as [-> | ->]; (split; [by vm_compute | by_decide]).
  - intros m _. destruct (Hr _ _ H) as [-> | ->]; intros Hm; vm_compute in Hm; injection Hm as <-; by vm_compute.
  - intros m k Hm Hmm Hk. destruct (Hr _ _ H) as [-> | ->]; vm_compute in Hm; injection Hm as <-; by destruct Hmm.
  - intros m Hm. destruct (Hr _ _ H) as [-> | ->]; by vm_compute in Hm.
Qed.
Lemma example_image_ok : image_ok (read_block example_device 0).
Proof. apply example_image_any. Qed.

Lemma identify_fs_correct_witness : ∃ a table', identify_fs example_host (images example_host) example_device 0 = Some (a, table') ∧
  a = (0, Some (text "ext4"), 40960000).
Proof.
  destruct (identify_fs_correct example_host example_device 0 (images example_host) example_host_ok example_image_ok (same_table_refl _ _)) as (a & t & E & _ & _).
  exists a, t. split; [exact E |]. assert (fst <$> identify_fs example_host (images example_host) example_device 0 = Some a) as Ha by by rewrite E.
  vm_compute in Ha. injection Ha as <-. reflexivity.
Defined.
