(* ===== verification/Prog.v ===== *)
(** * Programs that may end

    A computation of a program with state [S] returns, ends the program with
    [exit], or faults (an access outside the memory it owns, a loop without
    end).  Used for the utilities, whose errors end the program. *)

From stdpp Require Import base tactics list.
From Stdlib Require Import ZArith.

#[local] Open Scope Z_scope.

Inductive outcome (A : Type) := Ret (a : A) | Exit (code : Z) | Fault.
Arguments Ret {A} _.
Arguments Exit {A} _.
Arguments Fault {A}.

Definition prog (S A : Type) : Type := S → outcome (A * S).

Global Instance prog_ret {S} : MRet (prog S) := λ A a s, Ret (a, s).
Global Instance prog_bind {S} : MBind (prog S) := λ A B f c s,
  match c s with Ret (a, s') => f a s' | Exit code => Exit code | Fault => Fault end.

Definition exit_ {S A} (code : Z) : prog S A := λ _, Exit code.
Definition crash {S A} : prog S A := λ _, Fault.
Definition get_st {S} : prog S S := λ s, Ret (s, s).
Definition put_st {S} (s : S) : prog S unit := λ _, Ret (tt, s).
Definition of_option {S A} (o : option A) : prog S A := match o with Some a => mret a | None => crash end.

Lemma pbind_ok {S A B} (m : prog S A) (f : A → prog S B) s a s' : m s = Ret (a, s') → (m ≫= f) s = f a s'.
Proof. unfold mbind, prog_bind. by intros ->. Qed.
Lemma pbind_exit {S A B} (m : prog S A) (f : A → prog S B) s c : m s = Exit c → (m ≫= f) s = Exit c.
Proof. unfold mbind, prog_bind. by intros ->. Qed.
Lemma pbind_fault {S A B} (m : prog S A) (f : A → prog S B) s : m s = Fault → (m ≫= f) s = Fault.
Proof. unfold mbind, prog_bind. by intros ->. Qed.

(** ** Programs that keep a log

    Of the state only the log [log], to which a program appends, and an
    invariant [I] are looked at: the program returns, and [P] holds of the
    result, of what was appended and of the new state. *)

Section logged.
Context {S E : Type} (log : S → list E) (I : S → Prop).

Definition logged {A} (m : prog S A) (s : S) (P : A → list E → S → Prop) : Prop :=
  ∃ a s' new, m s = Ret (a, s') ∧ log s' = log s ++ new ∧ I s' ∧ P a new s'.

Lemma logged_ret {A} (a : A) s (P : A → list E → S → Prop) : I s → P a [] s → logged (mret a) s P.
Proof using Type. intros Hs HP. exists a, s, []. by rewrite app_nil_r. Qed.

Lemma logged_bind_at {A B} (m : prog S A) (f : A → prog S B) s (P : A → list E → S → Prop) (Q : B → list E → S → Prop) :
  logged m s P → (∀ a s' new, log s' = log s ++ new → I s' → P a new s' → logged (f a) s' (λ b new' s'', Q b (new ++ new') s'')) → logged (m ≫= f) s Q.
Proof using Type.
  intros (a & s1 & new & E1 & Hc & Hs & HP) Hf. destruct (Hf a s1 new Hc Hs HP) as (b & s2 & new' & E2 & Hc' & Hs' & HQ).
  exists b, s2, (new ++ new'). rewrite (pbind_ok _ _ _ _ _ E1). split; [done |]. split; [by rewrite Hc', Hc, app_assoc | done].
Qed.

Lemma logged_bind {A B} (m : prog S A) (f : A → prog S B) s (P : A → list E → S → Prop) (Q : B → list E → S → Prop) :
  logged m s P → (∀ a s' new, I s' → P a new s' → logged (f a) s' (λ b new' s'', Q b (new ++ new') s'')) → logged (m ≫= f) s Q.
Proof using Type. intros Hm Hf. eapply logged_bind_at; [exact Hm |]. intros. by apply Hf. Qed.

Lemma logged_weaken {A} (m : prog S A) s (P Q : A → list E → S → Prop) : logged m s P → (∀ a new s', P a new s' → Q a new s') → logged m s Q.
Proof using Type. intros (a & s1 & new & E1 & Hc & Hs & HP) H. exists a, s1, new. by repeat (split; [done |]); apply H. Qed.

Lemma logged_get {B} (f : S → prog S B) s Q : logged (f s) s Q → logged (get_st ≫= f) s Q.
Proof using Type. intros H. exact H. Qed.

Lemma logged_assoc {A B C} (m : prog S A) (f : A → prog S B) (g : B → prog S C) s P : logged ((m ≫= f) ≫= g) s P → logged (m ≫= (λ a, f a ≫= g)) s P.
Proof using Type. unfold logged, mbind, prog_bind. by destruct (m s) as [[a s1] | |]. Qed.
End logged.
Arguments logged_assoc {S E log I A B C} _ _ _ _ _ _.
Arguments logged_ret {S E log I A} _ _ _ _ _.
Arguments logged_bind_at {S E log I A B} _ _ _ _ _ _ _.
Arguments logged_bind {S E log I A B} _ _ _ _ _ _ _.
Arguments logged_weaken {S E log I A} _ _ _ _ _ _.
Arguments logged_get {S E log I B} _ _ _ _.

(** The same of a program that may also exit, with a code in [X] *)
Section ends.
Context {S E : Type} (log : S → list E) (I : S → Prop) (X : Z → Prop).

Definition ends_in {A} (m : prog S A) (s : S) (P : A → list E → S → Prop) : Prop :=
  match m s with
  | Ret (a, s') => ∃ new, log s' = log s ++ new ∧ I s' ∧ P a new s'
  | Exit code => X code
  | Fault => False
  end.

Lemma ends_logged {A} (m : prog S A) s (P : A → list E → S → Prop) : logged log I m s P → ends_in m s P.
Proof using Type. intros (a & s' & new & E1 & H). unfold ends_in. rewrite E1. by exists new. Qed.

Lemma ends_ret {A} (a : A) s (P : A → list E → S → Prop) : I s → P a [] s → ends_in (mret a) s P.
Proof using Type. intros Hs HP. exists []. by rewrite app_nil_r. Qed.

Lemma ends_exit {A} code s (P : A → list E → S → Prop) : X code → ends_in (exit_ code) s P.
Proof using Type. done. Qed.

Lemma ends_bind_at {A B} (m : prog S A) (f : A → prog S B) s (P : A → list E → S → Prop) (Q : B → list E → S → Prop) :
  ends_in m s P → (∀ a s' new, log s' = log s ++ new → I s' → P a new s' → ends_in (f a) s' (λ b new' s'', Q b (new ++ new') s'')) → ends_in (m ≫= f) s Q.
Proof using Type.
  unfold ends_in, mbind, prog_bind. destruct (m s) as [[a s1] | c |]; [| done | done]. intros (new & Hl & Hs & HP) Hf. specialize (Hf a s1 new Hl Hs HP).
  destruct (f a s1) as [[b s2] | c |]; [| done | done]. destruct Hf as (new' & Hl' & Hs' & HQ). exists (new ++ new'). split; [by rewrite Hl', Hl, app_assoc | done].
Qed.

Lemma ends_bind {A B} (m : prog S A) (f : A → prog S B) s (P : A → list E → S → Prop) (Q : B → list E → S → Prop) :
  ends_in m s P → (∀ a s' new, I s' → P a new s' → ends_in (f a) s' (λ b new' s'', Q b (new ++ new') s'')) → ends_in (m ≫= f) s Q.
Proof using Type. intros Hm Hf. eapply ends_bind_at; [exact Hm |]. intros. by apply Hf. Qed.

Lemma ends_weaken {A} (m : prog S A) s (P Q : A → list E → S → Prop) : ends_in m s P → (∀ a new s', P a new s' → Q a new s') → ends_in m s Q.
Proof using Type. unfold ends_in. destruct (m s) as [[a s1] | c |]; [| done | done]. intros (new & Hl & Hs & HP) H. exists new. auto. Qed.

Lemma ends_get {B} (f : S → prog S B) s Q : ends_in (f s) s Q → ends_in (get_st ≫= f) s Q.
Proof using Type. intros H. exact H. Qed.
End ends.
Arguments ends_logged {S E log I X A} _ _ _ _.
Arguments ends_ret {S E log I X A} _ _ _ _ _.
Arguments ends_exit {S E log I X A} _ _ _ _.
Arguments ends_bind_at {S E log I X A B} _ _ _ _ _ _ _.
Arguments ends_bind {S E log I X A B} _ _ _ _ _ _ _.
Arguments ends_weaken {S E log I X A} _ _ _ _ _ _.
Arguments ends_get {S E log I X B} _ _ _ _.
