(* ===== verification/Devno.v ===== *)
(** * Types of files and device numbers: [include/sys/stat.h] and
    [include/sys/sysmacros.h]

    A [dev_t] has 32 bits: 12 of the major number and 20 of the minor number,
    of which 8 come below.  Taking a device number apart and putting it
    together are inverse to each other. *)

From stdpp Require Import base numbers list.
From Stdlib Require Import Lia.
From S2P Require Import Prelude.

Definition S_IFMT : Z := 0xf000.
Definition S_IFSOCK : Z := 0xc000.
Definition S_IFLNK : Z := 0xa000.
Definition S_IFREG : Z := 0x8000.
Definition S_IFBLK : Z := 0x6000.
Definition S_IFDIR : Z := 0x4000.
Definition S_IFCHR : Z := 0x2000.
Definition S_IFIFO : Z := 0x1000.
Definition S_ISDIR (m : Z) : bool := Z.land m S_IFMT =? S_IFDIR.
Definition S_ISBLK (m : Z) : bool := Z.land m S_IFMT =? S_IFBLK.
Definition S_ISREG (m : Z) : bool := Z.land m S_IFMT =? S_IFREG.

Definition makedev (ma mi : Z) : Z :=
  u32 (Z.lor (Z.lor (Z.shiftl (Z.land ma 0xfff) 8) (Z.land mi 0xff)) (Z.shiftl (Z.land mi 0xfff00) 12)).
Definition major (d : Z) : Z := Z.land (Z.shiftr d 8) 0xfff.
Definition minor (d : Z) : Z := Z.lor (Z.land d 0xff) (Z.land (Z.shiftr d 12) 0xfff00).

(** ** Bit by bit *)

Lemma testbit_mask k n i : 0 <= n → 0 <= k → 0 <= i → Z.testbit (2 ^ (n + k) - 2 ^ k) i = (k <=? i) && (i <? n + k).
Proof.
  intros Hn Hk Hi. replace (2 ^ (n + k) - 2 ^ k) with (Z.shiftl (Z.ones n) k) by (rewrite Z.shiftl_mul_pow2, Z.ones_equiv, Z.pow_add_r by lia; lia).
  rewrite Z.shiftl_spec by done. destruct (Z.leb_spec k i); cbn [andb].
  - destruct (Z.ltb_spec i (n + k)); [apply Z.ones_spec_low; lia | apply Z.ones_spec_high; lia].
  - apply Z.testbit_neg_r. lia.
Qed.

Lemma bit_fff i : 0 <= i → Z.testbit 0xfff i = (i <? 12).
Proof. intros Hi. change 0xfff with (2 ^ (12 + 0) - 2 ^ 0). rewrite testbit_mask by lia. rewrite (proj2 (Z.leb_le 0 i)) by lia. done. Qed.
Lemma bit_ff i : 0 <= i → Z.testbit 0xff i = (i <? 8).
Proof. intros Hi. change 0xff with (2 ^ (8 + 0) - 2 ^ 0). rewrite testbit_mask by lia. rewrite (proj2 (Z.leb_le 0 i)) by lia. done. Qed.
Lemma bit_fff00 i : 0 <= i → Z.testbit 0xfff00 i = (8 <=? i) && (i <? 20).
Proof. intros Hi. change 0xfff00 with (2 ^ (12 + 8) - 2 ^ 8). rewrite testbit_mask by lia. done. Qed.

(** The bits of a device number. *)
Lemma makedev_bits ma mi i : 0 <= i → Z.testbit (makedev ma mi) i =
  if i <? 8 then Z.testbit mi i else if i <? 20 then Z.testbit ma (i - 8) else if i <? 32 then Z.testbit mi (i - 12) else false.
Proof.
  intros Hi. unfold makedev, wrapu. destruct (Z.ltb_spec i 32).
  - rewrite Z.mod_pow2_bits_low by lia. rewrite !Z.lor_spec, !Z.shiftl_spec, !Z.land_spec by done. rewrite bit_ff by done.
    destruct (Z.ltb_spec i 8).
    + rewrite (Z.testbit_neg_r _ (i - 8)), (Z.testbit_neg_r _ (i - 12)) by lia. cbn [andb orb]. by rewrite andb_true_r, orb_false_r.
    + rewrite andb_false_r, orb_false_r. rewrite bit_fff by lia. destruct (Z.ltb_spec i 20).
      * rewrite (proj2 (Z.ltb_lt (i - 8) 12)), andb_true_r by lia. destruct (decide (12 <= i)).
        -- rewrite bit_fff00 by lia. rewrite (proj2 (Z.leb_gt 8 (i - 12))) by lia. cbn [andb]. by rewrite andb_false_r, orb_false_r.
        -- rewrite (Z.testbit_neg_r _ (i - 12)) by lia. cbn [andb]. by rewrite orb_false_r.
      * rewrite (proj2 (Z.ltb_ge (i - 8) 12)), andb_false_r by lia. cbn [orb]. rewrite bit_fff00 by lia.
        rewrite (proj2 (Z.leb_le 8 (i - 12))), (proj2 (Z.ltb_lt (i - 12) 20)) by lia. cbn [andb]. by rewrite andb_true_r.
  - rewrite Z.mod_pow2_bits_high by lia. by rewrite !(proj2 (Z.ltb_ge _ _)) by lia.
Qed.

Lemma major_makedev ma mi : 0 <= ma < 2 ^ 12 → major (makedev ma mi) = ma.
Proof.
  intros Hma. apply Z.bits_inj'. intros i Hi. unfold major. rewrite Z.land_spec, Z.shiftr_spec, bit_fff, makedev_bits by lia.
  destruct (Z.ltb_spec i 12); [| rewrite andb_false_r; symmetry; apply (testbit_high 12); [lia | unfold in_u; lia | done]].
  rewrite (proj2 (Z.ltb_ge (i + 8) 8)), (proj2 (Z.ltb_lt (i + 8) 20)), andb_true_r by lia. f_equal. lia.
Qed.

Lemma minor_makedev ma mi : 0 <= mi < 2 ^ 20 → minor (makedev ma mi) = mi.
Proof.
  intros Hmi. apply Z.bits_inj'. intros i Hi. unfold minor. rewrite Z.lor_spec, !Z.land_spec, Z.shiftr_spec, bit_ff, bit_fff00, !makedev_bits by lia.
  destruct (Z.ltb_spec i 8).
  - rewrite (proj2 (Z.leb_gt 8 i)) by lia. cbn [andb]. by rewrite andb_true_r, andb_false_r, orb_false_r.
  - rewrite andb_false_r. cbn [orb]. rewrite (proj2 (Z.leb_le 8 i)) by lia. cbn [andb]. destruct (Z.ltb_spec i 20).
    + rewrite (proj2 (Z.ltb_ge (i + 12) 8)), (proj2 (Z.ltb_ge (i + 12) 20)), (proj2 (Z.ltb_lt (i + 12) 32)), andb_true_r by lia. f_equal. lia.
    + rewrite andb_false_r. symmetry. apply (testbit_high 20); [lia | unfold in_u; lia | done].
Qed.

Lemma makedev_split d : in_u 32 d → makedev (major d) (minor d) = d.
Proof.
  intros Hd. apply Z.bits_inj'. intros i Hi. rewrite makedev_bits by done. unfold major, minor.
  destruct (Z.ltb_spec i 8); [| destruct (Z.ltb_spec i 20); [| destruct (Z.ltb_spec i 32)]].
  - rewrite Z.lor_spec, !Z.land_spec, bit_ff, bit_fff00 by done. rewrite (proj2 (Z.ltb_lt i 8)), (proj2 (Z.leb_gt 8 i)) by lia. cbn [andb]. by rewrite andb_true_r, andb_false_r, orb_false_r.
  - rewrite Z.land_spec, Z.shiftr_spec, bit_fff by lia. rewrite (proj2 (Z.ltb_lt (i - 8) 12)), andb_true_r by lia. f_equal. lia.
  - rewrite Z.lor_spec, !Z.land_spec, Z.shiftr_spec, bit_ff, bit_fff00 by lia. rewrite (proj2 (Z.ltb_ge (i - 12) 8)), (proj2 (Z.leb_le 8 (i - 12))), (proj2 (Z.ltb_lt (i - 12) 20)) by lia.
    cbn [andb]. rewrite andb_false_r, andb_true_r. cbn [orb]. f_equal. lia.
  - symmetry. apply (testbit_high 32); [lia | done | done].
Qed.
