(* ===== verification/InodeHash.v ===== *)
(** * The table of inodes of cpio: [utils/cpio.c]

    cpio remembers the files with several links in a hash table with linear
    probing: [hash_insert], [add_inode] (which enlarges a full table) and
    [find_inode_file].  A slot is [None] for a null pointer; a loop that finds
    no end is a fault.

    The theorem: for files of one device the table is a map from inode numbers
    to names, whatever the collisions and however often it was enlarged. *)

From stdpp Require Import base numbers list.
From Stdlib Require Import Lia Permutation.
From S2P Require Import Prelude.

Record inode_val := mk_inode { inode : Z; major_num : Z; minor_num : Z; file_name : list Z }.

(** [hash_table] (a null pointer at first), [hash_size] and [hash_num]. *)
Abbreviation slots := (list (option inode_val)).
Record htab := mk_htab { hash_table : option slots; hash_size : Z; hash_num : Z }.
Definition no_inodes : htab := mk_htab None 22 0.

(** ** Operations *)

Definition home (n : nat) (node_num : Z) : nat := Z.to_nat (node_num mod Z.of_nat n).
Definition succ_slot (n temp : nat) : nat := ((temp + 1) mod n)%nat.

(** [while (hash_table[temp] != NULL) temp = (temp + 1) % hash_size;] *)
Fixpoint free_slot (fuel : nat) (t : slots) (temp : nat) : option nat :=
  match fuel with
  | O => None
  | S fuel =>
      s ← t !! temp;
      match s with
      | None => Some temp
      | Some _ => free_slot fuel t (succ_slot (length t) temp)
      end
  end.

Definition hash_insert (t : slots) (new_value : inode_val) : option slots :=
  let start := home (length t) (inode new_value) in
  s ← t !! start;
  match s with
  | None => Some (<[start := Some new_value]> t)
  | Some _ =>
      temp ← free_slot (length t) t (succ_slot (length t) start);
      Some (<[temp := Some new_value]> t)
  end.

(** [for (i = 0; i < hash_num; i++) hash_insert(old_table[i]);] *)
Fixpoint reinsert (old : slots) (t : slots) : option slots :=
  match old with
  | [] => Some t
  | None :: _ => None
  | Some v :: old => t ← hash_insert t v; reinsert old t
  end.

(** The table is enlarged, or allocated; [hash_size] is an [int]. *)
Definition grow (h : htab) : option htab :=
  let num := match hash_table h with None => 0 | Some _ => hash_num h end in
  let size := 2 * hash_size h + 3 in
  if 2 ^ 31 <=? size then None
  else
    t ← reinsert (take (Z.to_nat num) (default [] (hash_table h))) (replicate (Z.to_nat size) None);
    Some (mk_htab (Some t) size num).

Definition add_inode (h : htab) (node_num : Z) (name : list Z) (maj min : Z) : option htab :=
  let temp := mk_inode node_num maj min name in
  h ← (if (hash_num h =? hash_size h) || bool_decide (hash_table h = None) then grow h else Some h);
  t ← hash_table h;
  t ← hash_insert t temp;
  Some (mk_htab (Some t) (hash_size h) (hash_num h + 1)).

Definition device_is (v : inode_val) (maj min : Z) : bool := (major_num v =? maj) && (minor_num v =? min).

(** The search from the second slot on compares the device of the entry at the
    home position. *)
Fixpoint find_loop (fuel : nat) (t : slots) (start temp : nat) (at_home : inode_val) (node_num maj min : Z) : option (option (list Z)) :=
  match fuel with
  | O => None
  | S fuel =>
      s ← t !! temp;
      match s with
      | None => Some None
      | Some v =>
          if bool_decide (temp = start) then Some None
          else if (inode v =? node_num) && device_is at_home maj min then Some (Some (file_name v))
          else find_loop fuel t start (succ_slot (length t) temp) at_home node_num maj min
      end
  end.

Definition find_inode_file (h : htab) (node_num maj min : Z) : option (option (list Z)) :=
  match hash_table h with
  | None => Some None
  | Some t =>
      let start := home (length t) node_num in
      s ← t !! start;
      match s with
      | None => Some None
      | Some v =>
          if (inode v =? node_num) && device_is v maj min then Some (Some (file_name v))
          else find_loop (length t) t start (succ_slot (length t) start) v node_num maj min
      end
  end.

(** ** Probing *)

(** The [k]-th slot that is looked at for an inode. *)
Definition slot_at (n : nat) (node_num : Z) (k : nat) : nat := ((home n node_num + k) mod n)%nat.

Lemma home_lt n node_num : (0 < n)%nat → (home n node_num < n)%nat.
Proof. intros Hn. unfold home. pose proof (Z.mod_pos_bound node_num (Z.of_nat n)). lia. Qed.

Lemma slot_at_lt n node_num k : (0 < n)%nat → (slot_at n node_num k < n)%nat.
Proof. intros Hn. apply Nat.mod_upper_bound. lia. Qed.

Lemma slot_at_0 n node_num : (0 < n)%nat → slot_at n node_num 0 = home n node_num.
Proof. intros Hn. unfold slot_at. rewrite Nat.add_0_r. apply Nat.mod_small. by apply home_lt. Qed.

Lemma slot_at_succ n node_num k : (0 < n)%nat → succ_slot n (slot_at n node_num k) = slot_at n node_num (S k).
Proof. intros Hn. unfold succ_slot, slot_at. rewrite Nat.Div0.add_mod_idemp_l. f_equal. lia. Qed.

Lemma mod_wrap a n : (a < n + n)%nat → (a mod n = if decide (a < n) then a else a - n)%nat.
Proof. intros Ha. case_decide; [by apply Nat.mod_small |]. symmetry. apply (Nat.mod_unique a n 1 (a - n)); lia. Qed.

Lemma slot_at_inj n node_num j k : (j < n)%nat → (k < n)%nat → slot_at n node_num j = slot_at n node_num k → j = k.
Proof.
  intros Hj Hk H. unfold slot_at in H. pose proof (home_lt n node_num ltac:(lia)) as Hh. rewrite !mod_wrap in H by lia. repeat case_decide; lia.
Qed.

(** Every slot is looked at. *)
Lemma slot_at_surj n node_num i : (i < n)%nat → ∃ k, (k < n)%nat ∧ slot_at n node_num k = i.
Proof.
  intros Hi. pose proof (home_lt n node_num ltac:(lia)) as Hh. exists ((i + n - home n node_num) mod n)%nat. split; [apply Nat.mod_upper_bound; lia |].
  unfold slot_at. rewrite Nat.Div0.add_mod_idemp_r. replace (home n node_num + (i + n - home n node_num))%nat with (i + 1 * n)%nat by lia.
  rewrite Nat.Div0.mod_add. by apply Nat.mod_small.
Qed.

(** The invariant of linear probing: no free slot between the home position of
    an entry and its place. *)
Definition occupied (t : slots) (i : nat) : Prop := ∃ v, t !! i = Some (Some v).
Definition reachable (t : slots) : Prop := ∀ i v, t !! i = Some (Some v) →
  ∃ k, (k < length t)%nat ∧ i = slot_at (length t) (inode v) k ∧ ∀ j, (j < k)%nat → occupied t (slot_at (length t) (inode v) j).

Definition stored (t : slots) : list inode_val := omap id t.

Lemma stored_elem t v : v ∈ stored t ↔ ∃ i, t !! i = Some (Some v).
Proof.
  unfold stored. rewrite list_elem_of_omap. split.
  - intros (s & Hs & E). unfold id in E. subst s. by apply list_elem_of_lookup in Hs.
  - intros [i Hi]. exists (Some v). split; [by eapply list_elem_of_lookup_2 | done].
Qed.

Lemma stored_some v t : stored (Some v :: t) = v :: stored t.
Proof. done. Qed.
Lemma stored_none t : stored (None :: t) = stored t.
Proof. done. Qed.
Lemma stored_le t : (length (stored t) <= length t)%nat.
Proof. induction t as [| [v |] t IH]; [done | |]; rewrite ?stored_some, ?stored_none; cbn [length]; lia. Qed.

Lemma stored_free t : (length (stored t) < length t)%nat → ∃ i, t !! i = Some None.
Proof.
  induction t as [| [v |] t IH]; intros H; [simpl in H; lia | | by exists 0%nat].
  rewrite stored_some in H. cbn [length] in H. destruct IH as [i Hi]; [lia |]. by exists (S i).
Qed.

Lemma stored_insert t i v : t !! i = Some None → stored (<[i := Some v]> t) ≡ₚ v :: stored t.
Proof.
  revert i. induction t as [| s t IH]; intros i Hi; [done |]. destruct i as [| i]; simpl in Hi.
  - apply (inj Some) in Hi as ->. done.
  - specialize (IH i Hi). cbn [insert list_insert]. destruct s as [w |]; [rewrite !stored_some, IH; apply Permutation_swap | by rewrite !stored_none].
Qed.

(** ** Insertion *)

Lemma occupied_insert t i v j : occupied t j → occupied (<[i := Some v]> t) j.
Proof.
  intros [w Hw]. destruct (decide (i = j)) as [-> | Hne]; [| exists w; by rewrite list_lookup_insert_ne].
  exists v. apply list_lookup_insert_eq. by eapply lookup_lt_Some.
Qed.

Lemma free_slot_ok t node_num : (∃ i, t !! i = Some None) → ∀ fuel k, (length t <= k + fuel)%nat →
  (∀ j, (j < k)%nat → occupied t (slot_at (length t) node_num j)) →
  ∃ k', (k' < length t)%nat ∧ free_slot fuel t (slot_at (length t) node_num k) = Some (slot_at (length t) node_num k') ∧
    t !! slot_at (length t) node_num k' = Some None ∧ ∀ j, (j < k')%nat → occupied t (slot_at (length t) node_num j).
Proof.
  intros [i Hi]. pose proof (lookup_lt_Some _ _ _ Hi) as Hlt. destruct (slot_at_surj (length t) node_num i Hlt) as (ki & Hki & Hsi).
  induction fuel as [| fuel IH]; intros k Hf Hocc.
  - destruct (Hocc ki) as [w Hw]; [lia |]. rewrite Hsi in Hw. congruence.
  - cbn [free_slot]. destruct (lookup_lt_is_Some_2 t (slot_at (length t) node_num k)) as [s Hs]; [apply slot_at_lt; lia |]. rewrite Hs. cbn [mbind option_bind].
    destruct s as [w |].
    + rewrite slot_at_succ by lia. apply IH; [lia |]. intros j Hj. destruct (decide (j = k)) as [-> |]; [by exists w | apply Hocc; lia].
    + exists k. split; [| done]. destruct (decide (ki < k)%nat) as [Hlk |]; [| lia]. destruct (Hocc ki Hlk) as [w Hw]. rewrite Hsi in Hw. congruence.
Qed.

Lemma hash_insert_ok t v : (length (stored t) < length t)%nat → reachable t →
  ∃ t', hash_insert t v = Some t' ∧ length t' = length t ∧ reachable t' ∧ stored t' ≡ₚ v :: stored t.
Proof.
  intros Hfree Hr. pose proof (stored_free t Hfree) as Hi. assert (0 < length t)%nat as Hpos by lia.
  assert (∃ k, (k < length t)%nat ∧ hash_insert t v = Some (<[slot_at (length t) (inode v) k := Some v]> t) ∧
    t !! slot_at (length t) (inode v) k = Some None ∧ ∀ j, (j < k)%nat → occupied t (slot_at (length t) (inode v) j)) as (k & Hk & E & Hnone & Hocc).
  { unfold hash_insert. destruct (lookup_lt_is_Some_2 t (home (length t) (inode v))) as [s Hs]; [by apply home_lt |]. rewrite Hs. cbn [mbind option_bind].
    rewrite <- slot_at_0 in Hs |- * by done. destruct s as [w |].
    - destruct (free_slot_ok t (inode v) Hi (length t) 1) as (k & Hk & E & Hn & Ho); [lia | |].
      { intros j Hj. replace j with 0%nat by lia. by exists w. }
      exists k. split_and!; [done | | done | done]. rewrite slot_at_succ, E by done. done.
    - exists 0%nat. split_and!; [done | done | done | lia]. }
  eexists. split_and!; [exact E | by rewrite length_insert | | by apply stored_insert].
  intros i w Hw. rewrite length_insert. destruct (decide (slot_at (length t) (inode v) k = i)) as [<- | Hne].
  - rewrite list_lookup_insert_eq in Hw by (by apply slot_at_lt). injection Hw as <-. exists k. split_and!; [done | done |].
    intros j Hj. by apply occupied_insert, Hocc.
  - rewrite list_lookup_insert_ne in Hw by done. destruct (Hr i w Hw) as (k' & Hk' & Hi' & Ho'). exists k'. split_and!; [done | done |].
    intros j Hj. by apply occupied_insert, Ho'.
Qed.

Lemma reinsert_ok old : ∀ t vs, old = Some <$> vs → (length (stored t) + length vs < length t)%nat → reachable t →
  ∃ t', reinsert old t = Some t' ∧ length t' = length t ∧ reachable t' ∧ stored t' ≡ₚ vs ++ stored t.
Proof.
  induction old as [| s old IH]; intros t vs Hvs Hl Hr; destruct vs as [| v vs]; try done; [by exists t |].
  rewrite fmap_cons in Hvs. injection Hvs as -> Hvs. cbn [reinsert length] in *.
  destruct (hash_insert_ok t v) as (t1 & -> & Hl1 & Hr1 & Hs1); [lia | done |]. cbn [mbind option_bind].
  destruct (IH t1 vs Hvs) as (t2 & -> & Hl2 & Hr2 & Hs2); [rewrite (Permutation_length Hs1), Hl1; cbn [length]; lia | done |].
  exists t2. split_and!; [done | congruence | done |]. rewrite Hs2, Hs1. symmetry. apply Permutation_middle.
Qed.

(** ** The table as a map *)

(** The table holds the entries [l], in some order. *)
Record holds_inodes (h : htab) (l : list inode_val) : Prop := {
  hi_num : hash_num h = Z.of_nat (length l);
  hi_size : 22 <= hash_size h <= 2 * Z.of_nat (length l) + 47;
  hi_table : match hash_table h with
             | None => l = [] ∧ hash_size h = 22
             | Some t => Z.of_nat (length t) = hash_size h ∧ reachable t ∧ stored t ≡ₚ l
             end;
}.

Lemma no_inodes_hold : holds_inodes no_inodes [].
Proof. by split. Qed.

Lemma replicate_empty n : stored (replicate n None) = [] ∧ reachable (replicate n None).
Proof.
  split; [unfold stored; by induction n |]. intros i v Hi. by apply lookup_replicate in Hi as [? _].
Qed.

Lemma stored_full (t : slots) : length (stored t) = length t → t = Some <$> stored t.
Proof.
  induction t as [| [v |] t IH]; intros H; [done | |].
  - rewrite stored_some in *. cbn [length] in H. rewrite fmap_cons. f_equal. apply IH. lia.
  - rewrite stored_none in H. cbn [length] in H. pose proof (stored_le t). lia.
Qed.

Lemma grow_ok h l : holds_inodes h l → hash_num h = hash_size h ∨ hash_table h = None → Z.of_nat (length l) < 2 ^ 28 →
  ∃ h', grow h = Some h' ∧ holds_inodes h' l ∧ hash_num h' < hash_size h' ∧ hash_table h' ≠ None.
Proof.
  intros [Hn Hs Ht] Hg Hsize. unfold grow. rewrite (proj2 (Z.leb_gt (2 ^ 31) _)) by lia.
  destruct (replicate_empty (Z.to_nat (2 * hash_size h + 3))) as [He Hr].
  destruct (hash_table h) as [t |] eqn:Et.
  - destruct Ht as (Htl & Htr & Hts). assert (length (stored t) = length t) as Hfull by (rewrite (Permutation_length Hts); destruct Hg as [Hg | Hg]; [lia | done]).
    pose proof (stored_full t Hfull) as Hold. cbn [default]. unfold default, from_option, id. pose proof (Permutation_length Hts). rewrite take_ge by lia.
    destruct (reinsert_ok t (replicate (Z.to_nat (2 * hash_size h + 3)) None) (stored t) Hold) as (t' & -> & Hl' & Hr' & Hs'); [rewrite He, length_replicate; simpl; lia | done |].
    rewrite length_replicate in Hl'. eexists. split_and!; [done | | simpl; lia | done].
    split; simpl; [done | lia |]. split_and!; [lia | done |]. by rewrite Hs', He, app_nil_r.
  - destruct Ht as [-> Hs22]. rewrite take_0. cbn [reinsert mbind option_bind]. eexists. split_and!; [done | | simpl; lia | done].
    split; simpl; [done | simpl; lia |]. rewrite length_replicate, He. split_and!; [lia | done | done].
Qed.

Lemma add_inode_ok h l node_num name maj min : holds_inodes h l → Z.of_nat (length l) < 2 ^ 28 →
  ∃ h', add_inode h node_num name maj min = Some h' ∧ holds_inodes h' (l ++ [mk_inode node_num maj min name]).
Proof.
  intros Hh Hsize. unfold add_inode.
  assert (∃ h1, (if (hash_num h =? hash_size h) || bool_decide (hash_table h = None) then grow h else Some h) = Some h1 ∧ holds_inodes h1 l ∧
    hash_num h1 < hash_size h1 ∧ hash_table h1 ≠ None) as (h1 & -> & [Hn Hs Ht] & Hlt & Hne).
  { pose proof Hh as [Hn Hs Ht]. destruct (Z.eqb_spec (hash_num h) (hash_size h)) as [Hfull |]; cbn [orb].
    - destruct (grow_ok h l Hh) as (h1 & E & ? & ? & ?); [by left | done |]. by exists h1.
    - case_bool_decide as Hnone.
      + destruct (grow_ok h l Hh) as (h1 & E & ? & ? & ?); [by right | done |]. by exists h1.
      + exists h. split_and!; [done | done | | done]. destruct (hash_table h) as [t |]; [| done]. destruct Ht as (Htl & _ & Hts).
        pose proof (stored_le t) as Hle. rewrite (Permutation_length Hts) in Hle. lia. }
  cbn [mbind option_bind]. destruct (hash_table h1) as [t |]; [| done]. destruct Ht as (Htl & Htr & Hts). cbn [mbind option_bind].
  destruct (hash_insert_ok t (mk_inode node_num maj min name)) as (t' & -> & Hl' & Hr' & Hs'); [rewrite (Permutation_length Hts); lia | done |].
  eexists. split; [done |]. split; simpl; [rewrite length_app; simpl; lia | rewrite length_app; simpl; lia |]. split_and!; [lia | done |].
  rewrite Hs', Hts. apply Permutation_cons_append.
Qed.

(** ** Looking up *)

Fixpoint name_of (l : list inode_val) (node_num : Z) : option (list Z) :=
  match l with
  | [] => None
  | v :: l => if inode v =? node_num then Some (file_name v) else name_of l node_num
  end.

Lemma name_of_some l v : NoDup (inode <$> l) → v ∈ l → name_of l (inode v) = Some (file_name v).
Proof.
  induction l as [| w l IH]; intros Hnd Hv; [by apply not_elem_of_nil in Hv |]. rewrite fmap_cons in Hnd. apply NoDup_cons in Hnd as [Hw Hnd].
  cbn [name_of]. apply elem_of_cons in Hv as [-> | Hv]; [by rewrite Z.eqb_refl |].
  rewrite (proj2 (Z.eqb_neq _ _)); [by apply IH |]. intros E. apply Hw. rewrite E. by apply list_elem_of_fmap_2.
Qed.

Lemma name_of_none l node_num : (∀ v, v ∈ l → inode v ≠ node_num) → name_of l node_num = None.
Proof.
  induction l as [| w l IH]; intros H; [done |]. cbn [name_of]. rewrite (proj2 (Z.eqb_neq _ _)) by (apply H; left). apply IH. intros v Hv. apply H. by right.
Qed.

Section find.
Context (t : slots) (node_num maj min : Z).
Context (Hpos : (0 < length t)%nat) (Hr : reachable t) (Hnd : NoDup (inode <$> stored t)).
Context (Hdev : ∀ v, v ∈ stored t → device_is v maj min = true).

(** The loop from the [k]-th slot on, when the ones before hold other inodes. *)
Lemma find_loop_ok v0 : v0 ∈ stored t → ∀ fuel k, (length t < k + fuel)%nat → (0 < k <= length t)%nat →
  (∀ j, (j < k)%nat → ∃ v, t !! slot_at (length t) node_num j = Some (Some v) ∧ inode v ≠ node_num) →
  find_loop fuel t (home (length t) node_num) (slot_at (length t) node_num k) v0 node_num maj min = Some (name_of (stored t) node_num).
Proof using Hdev Hnd Hpos Hr.
  intros Hv0. assert (∀ k, (∀ j, (j < k)%nat → ∃ v, t !! slot_at (length t) node_num j = Some (Some v) ∧ inode v ≠ node_num) →
    (k = length t ∨ t !! slot_at (length t) node_num k = Some None) → name_of (stored t) node_num = None) as Hnone.
  { intros k Hk Hend. apply name_of_none. intros v Hv Hnv. apply stored_elem in Hv as [i Hi]. destruct (Hr i v Hi) as (ki & Hki & -> & Hocc). rewrite Hnv in *.
    destruct (decide (ki < k)%nat) as [Hlt |]; [destruct (Hk ki Hlt) as (w & Hw & Hne); congruence |].
    destruct Hend as [-> | Hend]; [lia |]. destruct (decide (ki = k)) as [-> |]; [congruence |]. destruct (Hocc k) as [w Hw]; [lia | congruence]. }
  induction fuel as [| fuel IH]; intros k Hf Hk Hbefore; [lia |]. cbn [find_loop].
  destruct (lookup_lt_is_Some_2 t (slot_at (length t) node_num k)) as [s Hs]; [by apply slot_at_lt |]. rewrite Hs. cbn [mbind option_bind].
  destruct s as [v |]; [| rewrite (Hnone k); auto]. rewrite <- (slot_at_0 (length t) node_num) by done. case_bool_decide as Hstart.
  - rewrite (Hnone k); [done | done |]. left. destruct (decide (k < length t)%nat) as [Hlt |]; [| lia].
    apply slot_at_inj in Hstart; lia.
  - assert (v ∈ stored t) as Hv by (apply stored_elem; eauto). rewrite (Hdev v0 Hv0), andb_true_r. destruct (Z.eqb_spec (inode v) node_num) as [<- | Hne].
    + by rewrite name_of_some.
    + rewrite slot_at_succ by done. rewrite slot_at_0 by done.
      assert (k < length t)%nat. { destruct (decide (k = length t)) as [-> |]; [| lia]. exfalso. apply Hstart. unfold slot_at. rewrite Nat.add_0_r. 
        replace (home (length t) node_num + length t)%nat with (home (length t) node_num + 1 * length t)%nat by lia. by rewrite Nat.Div0.mod_add. }
      apply IH; [lia | lia |].
      intros j Hj. destruct (decide (j = k)) as [-> |]; [by exists v | apply Hbefore; lia].
Qed.
End find.

(** Looking up in a table with entries of one device. *)
Lemma find_inode_ok h l node_num maj min : holds_inodes h l → NoDup (inode <$> l) → (∀ v, v ∈ l → device_is v maj min = true) →
  find_inode_file h node_num maj min = Some (name_of l node_num).
Proof.
  intros [Hn Hs Ht] Hnd Hdev. unfold find_inode_file. destruct (hash_table h) as [t |]; [| by destruct Ht as [-> _]].
  destruct Ht as (Htl & Hr & Hst). assert (0 < length t)%nat as Hpos by lia.
  assert (NoDup (inode <$> stored t)) as Hnd' by by rewrite Hst. assert (∀ v, v ∈ stored t → device_is v maj min = true) as Hdev' by (intros v; rewrite Hst; apply Hdev).
  assert (name_of l node_num = name_of (stored t) node_num) as ->.
  { destruct (decide (node_num ∈ inode <$> l)) as [(v & -> & Hv)%list_elem_of_fmap | Hno].
    - rewrite !name_of_some; [done | done | by rewrite Hst | done | done].
    - rewrite !name_of_none; [done | |]; intros v Hv <-; apply Hno, list_elem_of_fmap_2; [by rewrite <- Hst | done]. }
  destruct (lookup_lt_is_Some_2 t (home (length t) node_num)) as [s Hh]; [by apply home_lt |]. rewrite Hh. cbn [mbind option_bind].
  destruct s as [v |].
  - assert (v ∈ stored t) as Hv by (apply stored_elem; eauto). rewrite (Hdev' v Hv), andb_true_r. destruct (Z.eqb_spec (inode v) node_num) as [<- | Hne].
    + by rewrite name_of_some.
    + rewrite <- (slot_at_0 (length t) node_num), slot_at_succ, slot_at_0 by done. apply find_loop_ok; try done; [lia | lia |].
      intros j Hj. replace j with 0%nat by lia. rewrite slot_at_0 by done. by exists v.
  - rewrite name_of_none; [done |]. intros v Hv <-. apply stored_elem in Hv as [i Hi]. destruct (Hr i v Hi) as (k & Hk & -> & Ho).
    rewrite <- slot_at_0 in Hh by done. destruct k as [| k]; [congruence |]. destruct (Ho 0%nat) as [w Hw]; [lia | congruence].
Qed.

(** Insertions of a list of files, one after the other. *)
Fixpoint add_all (h : htab) (l : list (Z * list Z)) (maj min : Z) : option htab :=
  match l with
  | [] => Some h
  | (n, name) :: l => h ← add_inode h n name maj min; add_all h l maj min
  end.

Lemma add_all_ok maj min l : ∀ h l0, holds_inodes h l0 → Z.of_nat (length l0) + Z.of_nat (length l) <= 2 ^ 28 →
  ∃ h', add_all h l maj min = Some h' ∧ holds_inodes h' (l0 ++ ((λ '(n, name), mk_inode n maj min name) <$> l)).
Proof.
  induction l as [| [n name] l IH]; intros h l0 Hh Hb; [exists h; by rewrite app_nil_r |]. cbn [add_all length] in *.
  destruct (add_inode_ok h l0 n name maj min Hh) as (h1 & -> & Hh1); [lia |]. cbn [mbind option_bind].
  destruct (IH h1 _ Hh1) as (h2 & E & Hh2); [rewrite length_app; simpl; lia |]. exists h2. by rewrite <- app_assoc in Hh2.
Qed.

(** The table of inodes is a map: after the insertion of any list of
    different inodes of one device, with collisions and enlargements, an inode
    is found with its name exactly if it was inserted; no search and no
    insertion runs on for ever. *)
Theorem inode_table_correct maj min l : NoDup l.*1 → Z.of_nat (length l) <= 2 ^ 28 →
  ∃ h, add_all no_inodes l maj min = Some h ∧
    (∀ n name, (n, name) ∈ l → find_inode_file h n maj min = Some (Some name)) ∧
    (∀ n, n ∉ l.*1 → find_inode_file h n maj min = Some None).
Proof.
  intros Hnd Hl. destruct (add_all_ok maj min l no_inodes [] no_inodes_hold) as (h & E & Hh); [simpl; lia |]. cbn [app] in Hh.
  set (l' := (λ '(n, name), mk_inode n maj min name) <$> l) in *. exists h. split; [done |].
  assert (inode <$> l' = l.*1) as Hi by (unfold l'; rewrite <- list_fmap_compose; apply list_fmap_ext; by intros ? []).
  assert (∀ n, find_inode_file h n maj min = Some (name_of l' n)) as Hf.
  { intros n. apply find_inode_ok; [done | by rewrite Hi |]. intros v ([n' name] & -> & _)%list_elem_of_fmap. unfold device_is. simpl. by rewrite !Z.eqb_refl. }
  split.
  - intros n name Hin. rewrite Hf. f_equal. apply (name_of_some l' (mk_inode n maj min name)); [by rewrite Hi |].
    unfold l'. apply list_elem_of_fmap. by exists (n, name).
  - intros n Hn. rewrite Hf. f_equal. apply name_of_none. intros v Hv <-. apply Hn. rewrite <- Hi. by apply list_elem_of_fmap_2.
Qed.

(** A hundred inodes that collide in pairs; the table is enlarged twice. *)
Definition example_inodes : list (Z * list Z) := (λ n, (n * 47, [n])) <$> seqZ 1 100.

Lemma inode_table_correct_witness : ∃ h, add_all no_inodes example_inodes 8 1 = Some h ∧ hash_size h = 197 ∧ find_inode_file h (47 * 77) 8 1 = Some (Some [77]).
Proof.
  destruct (inode_table_correct 8 1 example_inodes) as (h & E & Hf & _); [apply (bool_decide_unpack _); vm_compute; exact I | vm_compute; discriminate |].
  exists h. split; [done |]. split; [vm_compute in E; injection E as <-; reflexivity |]. apply Hf. apply (bool_decide_unpack _). vm_compute. exact I.
Defined.

(** With two devices the search goes wrong: behind the home position it looks
    at the device of the entry there, and finds the file of another device. *)
Example two_devices : (h ← add_inode no_inodes 0 [1] 8 1; h ← add_inode h 47 [2] 8 2; find_inode_file h 47 8 1) = Some (Some [2]).
Proof. vm_compute. reflexivity. Qed.
