(* ===== verification/Cpio.v ===== *)
(** * Extraction of archives: [utils/cpio.c]

    [process_copy_in] reads an archive in the new portable format from its
    standard input and creates the files.  Three layers: the input buffer,
    which is refilled by [read] in pieces of any size; the files, with the
    output buffer, the deferred links and the table of inodes; and the headers.

    A computation of the program either returns, ends the program with
    [exit(1)], or faults.  The file system is a class with one operation per
    kind of call; at most one file is open for output at a time, and [Write],
    [Fchown], [Fchmod] and [Close] are about it.

    The theorems: whatever the sizes of the reads and whatever the calls answer,
    the extraction of an archive does, entry by entry, what a direct
    interpretation of the entries does; junk in front of a header is skipped. *)

From stdpp Require Import base numbers list strings.
From Stdlib Require Import Lia.
From S2P Require Import Prelude Prog Devno Numparse Ipconfig InodeHash.

#[local] Set Warnings "-register-all".

(** ** The file system *)

Inductive call :=
  | Unlink (name : list Z)
  | Rmdir (name : list Z)
  | Link (target name : list Z)
  | Open (name : list Z)
  | Close
  | Chown (name : list Z) (uid gid : Z)
  | Chmod (name : list Z) (mode : Z)
  | Fchown (uid gid : Z)
  | Fchmod (mode : Z)
  | Mkdir (name : list Z) (mode : Z)
  | Mknod (name : list Z) (mode dev : Z)
  | Symlink (target name : list Z)
  | Lchown (name : list Z) (uid gid : Z).

(** [sys] answers with an error number, or [None] for success; [lstat] gives
    the mode of a name that exists; [write] the number of bytes. *)
Class Files (W : Type) := {
  sys : call → W → option Z * W;
  lstat : list Z → W → option Z;
  write : list Z → W → Z * W;
}.

Definition EEXIST : Z := 17.

(** The numbers of the header, [unsigned long] or [long], and the name. *)
Record new_cpio_header := mk_header {
  c_ino : Z; c_mode : Z; c_uid : Z; c_gid : Z; c_nlink : Z; c_mtime : Z; c_filesize : Z;
  c_dev_maj : Z; c_dev_min : Z; c_rdev_maj : Z; c_rdev_min : Z; c_namesize : Z; c_chksum : Z;
  c_name : list Z;
}.
Definition set_name (name : list Z) (h : new_cpio_header) : new_cpio_header :=
  mk_header (c_ino h) (c_mode h) (c_uid h) (c_gid h) (c_nlink h) (c_mtime h) (c_filesize h)
    (c_dev_maj h) (c_dev_min h) (c_rdev_maj h) (c_rdev_min h) (c_namesize h) (c_chksum h) name.

Definition DISK_IO_BLOCK_SIZE : Z := 512.
Definition io_block_size : Z := 512.

(** ** The files

    The state of this layer: the bytes in [output_buffer], the list
    [deferments], the table of inodes, and the file system. *)

Section files.
Context {W : Type} `{!Files W}.

Record core := mk_core { output : list Z; deferments : list new_cpio_header; inodes : htab; world : W }.

Definition syscall (c : call) : prog core (option Z) := λ s,
  let '(e, w) := sys c (world s) in Ret (e, mk_core (output s) (deferments s) (inodes s) w).
Definition sys_lstat (name : list Z) : prog core (option Z) := λ s, Ret (lstat name (world s), s).
Definition set_output (o : list Z) : prog core unit := λ s, Ret (tt, mk_core o (deferments s) (inodes s) (world s)).
Definition set_deferments (d : list new_cpio_header) : prog core unit := λ s, Ret (tt, mk_core (output s) d (inodes s) (world s)).
Definition set_inodes (h : htab) : prog core unit := λ s, Ret (tt, mk_core (output s) (deferments s) h (world s)).

Definition disk_empty_output_buffer : prog core unit := λ s,
  let '(bytes_written, w) := write (output s) (world s) in
  if negb (bytes_written =? Z.of_nat (length (output s))) then Exit 1
  else Ret (tt, mk_core [] (deferments s) (inodes s) w).

Fixpoint disk_write_loop (fuel : nat) (in_buf : list Z) : prog core unit :=
  match in_buf, fuel with
  | [], _ => mret tt
  | _, O => crash
  | _, S fuel =>
      s ← get_st;
      let space_left := DISK_IO_BLOCK_SIZE - Z.of_nat (length (output s)) in
      if space_left =? 0 then
        disk_empty_output_buffer;;
        disk_write_loop fuel in_buf
      else
        let n := Z.to_nat (Z.min (Z.of_nat (length in_buf)) space_left) in
        set_output (output s ++ take n in_buf);;
        disk_write_loop fuel (drop n in_buf)
  end.

(** The loop empties the buffer or takes a byte: at most two rounds a byte. *)
Definition disk_buffered_write (in_buf : list Z) : prog core unit := disk_write_loop (2 * length in_buf) in_buf.

(** [link_to_name]: 0 or -1 *)
Definition link_to_name (link_name link_target : list Z) : prog core Z :=
  e ← syscall (Link link_target link_name);
  mret (match e with None => 0 | Some _ => -1 end).

(** The arguments are [int]s, those of the table [unsigned long]s. *)
Definition link_to_maj_min_ino (file_name : list Z) (st_dev_maj st_dev_min st_ino : Z) : prog core Z :=
  let ino := u64 (s32 st_ino) in
  let maj := u64 (s32 st_dev_maj) in
  let min := u64 (s32 st_dev_min) in
  s ← get_st;
  link_name ← of_option (find_inode_file (inodes s) ino maj min);
  match link_name with
  | None => h ← of_option (add_inode (inodes s) ino file_name maj min); set_inodes h;; mret (-1)
  | Some name => link_to_name file_name name
  end.

Definition link_header (h : new_cpio_header) : prog core Z := link_to_maj_min_ino (c_name h) (c_dev_maj h) (c_dev_min h) (c_ino h).

Definition defer_copyin (h : new_cpio_header) : prog core unit :=
  s ← get_st;
  set_deferments (h :: deferments s).

(** [ino], [maj] and [min] are [int]s, compared with [unsigned long] and
    [long] members. *)
Definition same_file (h d : new_cpio_header) : bool :=
  (c_ino d =? u64 (s32 (c_ino h))) && (s64 (c_dev_maj d) =? s32 (c_dev_maj h)) && (s64 (c_dev_min d) =? s32 (c_dev_min h)).

(** [d_prev] ends the list of those that stay. *)
Fixpoint defered_loop (h : new_cpio_header) (ds : list new_cpio_header) : prog core (list new_cpio_header) :=
  match ds with
  | [] => mret []
  | d :: ds =>
      if same_file h d then
        _ ← link_to_name (c_name d) (c_name h);
        defered_loop h ds
      else
        ds ← defered_loop h ds;
        mret (d :: ds)
  end.

Definition create_defered_links (h : new_cpio_header) : prog core unit :=
  s ← get_st;
  ds ← defered_loop h (deferments s);
  set_deferments ds.

Fixpoint final_loop (ds : list new_cpio_header) : prog core unit :=
  match ds with
  | [] => mret tt
  | d :: ds =>
      link_res ← link_header d;
      (if link_res =? 0 then mret tt
       else
         e ← syscall (Open (c_name d));
         match e with
         | Some _ => mret tt
         | None =>
             _ ← syscall (Fchown (u32 (c_uid d)) (u32 (c_gid d)));
             _ ← syscall (Fchmod (u32 (c_mode d)));
             _ ← syscall Close;
             mret tt
         end);;
      final_loop ds
  end.

Definition create_final_defers : prog core unit :=
  s ← get_st;
  final_loop (deferments s).

(** *** Names of directories *)

Definition ISSLASH (c : Z) : bool := c =? 47.
Fixpoint skip_slashes (p : list Z) : list Z :=
  match p with
  | c :: p' => if ISSLASH c then skip_slashes p' else p
  | [] => []
  end.

(** The last component, as what is left of the name from [base] on. *)
Fixpoint base_loop (fuel : nat) (base p : list Z) : list Z :=
  match fuel, p with
  | S fuel, c :: p' =>
      if ISSLASH c then
        match skip_slashes p' with
        | [] => if ISSLASH (default 0 (head base)) then [47] else base
        | q => base_loop fuel q (tail q)
        end
      else base_loop fuel base p'
  | _, _ => base
  end.
Definition base_name (name : list Z) : list Z := base_loop (length name) name name.

Fixpoint base_len (fuel : nat) (name : list Z) : nat :=
  match fuel with
  | O => length name
  | S fuel =>
      if (1 <? Z.of_nat (length name)) && ISSLASH (default 0 (last name)) then base_len fuel (removelast name) else length name
  end.

Definition strip_trailing_slashes (path : list Z) : list Z :=
  let base := base_name path in
  take (length path - length base + base_len (length base) base) path.

(** [chown] and [chmod] of a new file. *)
Definition set_attributes (h : new_cpio_header) : prog core unit :=
  _ ← syscall (Chown (c_name h) (u32 (c_uid h)) (u32 (c_gid h)));
  _ ← syscall (Chmod (c_name h) (u32 (c_mode h)));
  mret tt.

Definition copyin_directory (h : new_cpio_header) (existing_dir : bool) : prog core unit :=
  let h := set_name (strip_trailing_slashes (c_name h)) h in
  if bool_decide (c_name h = [46]) then mret tt
  else
    res ← (if existing_dir then mret None else syscall (Mkdir (c_name h) (u32 (c_mode h))));
    match res with
    | None => set_attributes h
    | Some errno =>
        if negb (errno =? EEXIST) then mret tt
        else
          st_mode ← sys_lstat (c_name h);
          match st_mode with
          | Some m => if S_ISDIR m then set_attributes h else mret tt
          | None => mret tt
          end
    end.

Definition copyin_device (h : new_cpio_header) : prog core unit :=
  link_res ← (if 1 <? c_nlink h then link_header h else mret (-1));
  if link_res =? 0 then mret tt
  else
    res ← syscall (Mknod (c_name h) (u32 (c_mode h)) (makedev (s32 (c_rdev_maj h)) (s32 (c_rdev_min h))));
    match res with
    | Some _ => mret tt
    | None => set_attributes h
    end.

(** A name that is in the way is removed, unless it is a directory and is to
    become one: whether to go on, and [existing_dir]. *)
Definition remove_existing (h : new_cpio_header) : prog core (bool * bool) :=
  st_mode ← sys_lstat (c_name h);
  match st_mode with
  | None => mret (true, false)
  | Some m =>
      if S_ISDIR m && (Z.land (c_mode h) S_IFMT =? S_IFDIR) then mret (true, true)
      else
        e ← syscall (if S_ISDIR m then Rmdir (c_name h) else Unlink (c_name h));
        mret (match e with None => true | Some _ => false end, false)
  end.

(** The end of [copyin_link], with the target of the link. *)
Definition make_symlink (h : new_cpio_header) (link_name : list Z) : prog core unit :=
  res ← syscall (Symlink link_name (c_name h));
  match res with
  | Some _ => mret tt
  | None => _ ← syscall (Lchown (c_name h) (u32 (c_uid h)) (u32 (c_gid h))); mret tt
  end.
End files.
Arguments core _ : clear implicits.

(** ** The input

    [in_buff] holds the [input_size] bytes that are left in the buffer, [input]
    what is still to be read, [reads] counts the calls of [read]: the [k]-th
    one delivers [read_size k] bytes, but at least one and not more than there
    are or than it was asked for, or fails. *)

Record tape := mk_tape { in_buff : list Z; input : list Z; reads : nat }.
Definition stream (t : tape) : list Z := in_buff t ++ input t.

Section archive.
Context {W : Type} `{!Files W} (read_size : nat → option nat).

Abbreviation io := (prog (tape * core W)).

Definition lift {A} (m : prog (core W) A) : io A := λ '(t, s),
  match m s with Ret (a, s') => Ret (a, (t, s')) | Exit code => Exit code | Fault => Fault end.

(** [read(in_des, input_buffer, num_bytes)] *)
Definition read_input (num_bytes : Z) (t : tape) : option (list Z * tape) :=
  match read_size (reads t) with
  | None => None
  | Some k =>
      let n := Nat.min (Nat.max 1 k) (Z.to_nat num_bytes) in
      Some (take n (input t), mk_tape (in_buff t) (drop n (input t)) (S (reads t)))
  end.

Definition tape_fill_input_buffer (num_bytes : Z) : io unit := λ '(t, s),
  let num_bytes := if num_bytes <? io_block_size then num_bytes else io_block_size in
  match read_input num_bytes t with
  | None => Exit 1
  | Some ([], _) => Exit 1
  | Some (bs, t) => Ret (tt, (mk_tape bs (input t) (reads t), s))
  end.

Definition fill_if_empty : io unit := λ ts,
  if bool_decide (in_buff ts.1 = []) then tape_fill_input_buffer io_block_size ts else Ret (tt, ts).

(** The next at most [n] bytes of the buffer. *)
Definition take_input (n : Z) : io (list Z) := λ '(t, s),
  let k := Z.to_nat (Z.min n (Z.of_nat (length (in_buff t)))) in
  Ret (take k (in_buff t), (mk_tape (drop k (in_buff t)) (input t) (reads t), s)).

Fixpoint tape_read_loop (fuel : nat) (bytes_left : Z) : io (list Z) :=
  if bytes_left <=? 0 then mret []
  else
    match fuel with
    | O => crash
    | S fuel =>
        fill_if_empty;;
        bs ← take_input bytes_left;
        rest ← tape_read_loop fuel (bytes_left - Z.of_nat (length bs));
        mret (bs ++ rest)
    end.

(** The bytes read; a round takes at least one. *)
Definition tape_buffered_read (num_bytes : Z) : io (list Z) := tape_read_loop (Z.to_nat num_bytes) num_bytes.
Definition tape_toss_input (num_bytes : Z) : io unit := _ ← tape_buffered_read num_bytes; mret tt.

Fixpoint copy_loop (fuel : nat) (num_bytes : Z) : io unit :=
  if num_bytes <=? 0 then mret tt
  else
    match fuel with
    | O => crash
    | S fuel =>
        fill_if_empty;;
        bs ← take_input num_bytes;
        lift (disk_buffered_write bs);;
        copy_loop fuel (num_bytes - Z.of_nat (length bs))
    end.
Definition copy_files_tape_to_disk (num_bytes : Z) : io unit := copy_loop (Z.to_nat num_bytes) num_bytes.

Definition tape_skip_padding (offset : Z) : io unit :=
  let pad := Z.rem (4 - Z.rem (s32 offset) 4) 4 in
  if negb (pad =? 0) then tape_toss_input pad else mret tt.

(** [tape_toss_input] and [tape_skip_padding] of the data of a file. *)
Definition skip_data (h : new_cpio_header) : io unit :=
  tape_toss_input (s64 (c_filesize h));;
  tape_skip_padding (c_filesize h).

(** ** The entries *)

Definition try_existing_file (h : new_cpio_header) : io (bool * bool) :=
  '((go_on, existing_dir) : bool * bool) ← lift (remove_existing h);
  (if go_on then mret tt else skip_data h);;
  mret (go_on, existing_dir).

Definition copy_contents (h : new_cpio_header) : io unit :=
  e ← lift (syscall (Open (c_name h)));
  match e with
  | Some _ => skip_data h
  | None =>
      copy_files_tape_to_disk (s64 (c_filesize h));;
      lift disk_empty_output_buffer;;
      _ ← lift (syscall Close);
      lift (set_attributes h);;
      tape_skip_padding (c_filesize h);;
      if 1 <? c_nlink h then lift (create_defered_links h) else mret tt
  end.

Definition copyin_regular_file (h : new_cpio_header) : io unit :=
  if 1 <? c_nlink h then
    if c_filesize h =? 0 then
      lift (defer_copyin h);;
      skip_data h
    else
      link_res ← lift (link_header h);
      if link_res =? 0 then skip_data h else copy_contents h
  else copy_contents h.

(** The string in a buffer that holds a NUL. *)
Fixpoint string_in (l : list Z) : option (list Z) :=
  match l with
  | [] => None
  | c :: l => if c =? 0 then Some [] else cons c <$> string_in l
  end.

(** The buffer for the target has [(unsigned) c_filesize + 1] bytes. *)
Definition copyin_link (h : new_cpio_header) : io unit :=
  if u32 (u32 (c_filesize h) + 1) <=? c_filesize h then crash
  else
    link_name ← tape_buffered_read (s64 (c_filesize h));
    tape_skip_padding (c_filesize h);;
    target ← of_option (string_in (link_name ++ [0]));
    lift (make_symlink h target).

Definition copyin_file (h : new_cpio_header) : io unit :=
  '((go_on, existing_dir) : bool * bool) ← try_existing_file h;
  if negb go_on then mret tt
  else
    let type := Z.land (c_mode h) S_IFMT in
    if type =? S_IFREG then copyin_regular_file h
    else if type =? S_IFDIR then lift (copyin_directory h existing_dir)
    else if (type =? S_IFCHR) || (type =? S_IFBLK) || (type =? S_IFSOCK) || (type =? S_IFIFO) then lift (copyin_device h)
    else if type =? S_IFLNK then copyin_link h
    else skip_data h.

(** ** The headers *)

(** [strtoul(hexbuf, NULL, 16)] of eight bytes *)
Definition hex_value (hexbuf : list Z) : Z := (parse_num 16 (default hexbuf (string_in hexbuf))).1.
Fixpoint hex_fields (n : nat) (ah : list Z) : list Z :=
  match n with
  | O => []
  | S n => hex_value (take 8 ah) :: hex_fields n (drop 8 ah)
  end.

Definition header_of (hdr : list Z) (name : list Z) : option new_cpio_header :=
  match hdr with
  | [a1; a2; a3; a4; a5; a6; a7; a8; a9; a10; a11; a12; a13] => Some (mk_header a1 a2 a3 a4 a5 a6 a7 a8 a9 a10 a11 a12 a13 name)
  | _ => None
  end.

(** The name is a string that ends within its [c_namesize] bytes, or what
    follows reads on behind them. *)
Definition read_in_new_ascii : io new_cpio_header :=
  ascii_header ← tape_buffered_read (13 * 8);
  let c_hdr := hex_fields 13 ascii_header in
  let c_namesize := default 0 (c_hdr !! 11%nat) in
  bs ← tape_buffered_read (s64 c_namesize);
  tape_skip_padding (c_namesize + 110);;
  name ← of_option (string_in bs);
  of_option (header_of c_hdr name).

Definition is_magic (l : list Z) : bool := bool_decide (l = text "070702") || bool_decide (l = text "070701").

(** [magic] holds the last six bytes. *)
Fixpoint find_magic (fuel : nat) (magic : list Z) : io unit :=
  if is_magic magic then mret tt
  else
    match fuel with
    | O => crash
    | S fuel =>
        b ← tape_buffered_read 1;
        find_magic fuel (drop 1 magic ++ b)
    end.

Definition read_in_header : io new_cpio_header :=
  magic ← tape_buffered_read 6;
  ts ← get_st;
  find_magic (S (length (stream ts.1))) magic;;
  read_in_new_ascii.

Definition trailer : list Z := text "TRAILER!!!".

(** Each round takes a header. *)
Fixpoint copy_in_loop (fuel : nat) : io unit :=
  match fuel with
  | O => crash
  | S fuel =>
      h ← read_in_header;
      if bool_decide (c_name h = trailer) then mret tt
      else
        copyin_file h;;
        copy_in_loop fuel
  end.

Definition process_copy_in : io unit :=
  ts ← get_st;
  copy_in_loop (S (length (stream ts.1)));;
  lift create_final_defers.
End archive.

(** ** What the entries mean

    The extraction of a list of entries, each a header and the data of the
    file, without buffers: data are written in blocks of 512 bytes. *)

Section meaning.
Context {W : Type} `{!Files W}.
Abbreviation op := (prog (core W)).

Fixpoint blocks_of (fuel : nat) (data : list Z) : list (list Z) :=
  match fuel with
  | O => [data]
  | S fuel => if (length data <=? 512)%nat then [data] else take 512 data :: blocks_of fuel (drop 512 data)
  end.
Definition blocks (data : list Z) : list (list Z) := blocks_of (length data) data.

(** A short write ends the program. *)
Definition write_block (b : list Z) : op unit := λ s,
  let '(n, w) := write b (world s) in
  if n =? Z.of_nat (length b) then Ret (tt, mk_core [] (deferments s) (inodes s) w) else Exit 1.
Fixpoint write_blocks (bs : list (list Z)) : op unit :=
  match bs with
  | [] => mret tt
  | b :: bs => write_block b;; write_blocks bs
  end.

Definition extract_contents (h : new_cpio_header) (data : list Z) : op unit :=
  e ← syscall (Open (c_name h));
  match e with
  | Some _ => mret tt
  | None =>
      write_blocks (blocks data);;
      _ ← syscall Close;
      set_attributes h;;
      if 1 <? c_nlink h then create_defered_links h else mret tt
  end.

Definition extract_regular (h : new_cpio_header) (data : list Z) : op unit :=
  if 1 <? c_nlink h then
    if c_filesize h =? 0 then defer_copyin h
    else
      link_res ← link_header h;
      if link_res =? 0 then mret tt else extract_contents h data
  else extract_contents h data.

Definition extract_entry (e : new_cpio_header * list Z) : op unit :=
  let '(h, data) := e in
  '((go_on, existing_dir) : bool * bool) ← remove_existing h;
  if negb go_on then mret tt
  else
    let type := Z.land (c_mode h) S_IFMT in
    if type =? S_IFREG then extract_regular h data
    else if type =? S_IFDIR then copyin_directory h existing_dir
    else if (type =? S_IFCHR) || (type =? S_IFBLK) || (type =? S_IFSOCK) || (type =? S_IFIFO) then copyin_device h
    else if type =? S_IFLNK then make_symlink h (default data (string_in data))
    else mret tt.

Fixpoint extract_entries (es : list (new_cpio_header * list Z)) : op unit :=
  match es with
  | [] => mret tt
  | e :: es => extract_entry e;; extract_entries es
  end.
Definition extract (es : list (new_cpio_header * list Z)) : op unit :=
  extract_entries es;;
  create_final_defers.

(** ** Buffered output *)

(** One byte at a time. *)
Definition put_byte (c : Z) : op unit :=
  s ← get_st;
  if (length (output s) =? 512)%nat then disk_empty_output_buffer;; set_output [c] else set_output (output s ++ [c]).
Fixpoint put_bytes (data : list Z) : op unit :=
  match data with
  | [] => mret tt
  | c :: data => put_byte c;; put_bytes data
  end.

Lemma put_bytes_app a b s : put_bytes (a ++ b) s = (put_bytes a;; put_bytes b) s.
Proof using Type.
  revert s. induction a as [| c a IH]; intros s; [done |]. cbn [app put_bytes]. unfold mbind, prog_bind in *.
  destruct (put_byte c s) as [[[] s'] | |]; [apply IH | done | done].
Qed.

(** Bytes that fit into the buffer are appended to it. *)
Lemma put_bytes_fit data : ∀ s, (length (output s) + length data <= 512)%nat →
  put_bytes data s = Ret (tt, mk_core (output s ++ data) (deferments s) (inodes s) (world s)).
Proof using Type.
  induction data as [| c data IH]; intros s Hl; [rewrite app_nil_r; by destruct s |]. cbn [put_bytes length] in *.
  assert (put_byte c s = Ret (tt, mk_core (output s ++ [c]) (deferments s) (inodes s) (world s))) as E.
  { unfold put_byte, get_st, mbind, prog_bind. by rewrite (proj2 (Nat.eqb_neq _ 512)) by lia. }
  rewrite (pbind_ok _ _ _ _ _ E), IH by (cbn [output]; rewrite length_app; simpl; lia). cbn [output deferments inodes world]. by rewrite <- app_assoc.
Qed.

Lemma flush_output (s : core W) : disk_empty_output_buffer s = write_block (output s) s.
Proof using Type. unfold disk_empty_output_buffer, write_block. destruct (write (output s) (world s)) as [n w]. by destruct (n =? _). Qed.

Lemma write_block_output b s s' : write_block b s = Ret (tt, s') → output s' = [].
Proof using Type. unfold write_block. destruct (write b (world s)) as [n w]. destruct (n =? _); [| done]. by intros [= <-]. Qed.

(** A full buffer is written first. *)
Lemma put_bytes_full c data s : length (output s) = 512%nat → put_bytes (c :: data) s = (disk_empty_output_buffer;; put_bytes (c :: data)) s.
Proof using Type.
  intros H. cbn [put_bytes]. unfold mbind, prog_bind. unfold put_byte at 1, get_st, mbind, prog_bind. rewrite H, Nat.eqb_refl.
  destruct (disk_empty_output_buffer s) as [[[] s'] | |] eqn:E; [| done | done]. assert (output s' = []) as Hs' by (rewrite flush_output in E; by eapply write_block_output).
  unfold put_byte, get_st, mbind, prog_bind. by rewrite Hs'.
Qed.

Lemma disk_write_bytes fuel : ∀ data s, (length (output s) <= 512)%nat → (2 * length data <= fuel + (if (length (output s) =? 512) then 0 else 1))%nat →
  disk_write_loop fuel data s = put_bytes data s.
Proof using Type.
  induction fuel as [| fuel IH]; intros data s Ho Hf; (destruct data as [| c data]; [done |]); [cbn [length] in Hf; destruct (length (output s) =? 512)%nat; lia |].
  cbn [disk_write_loop]. unfold get_st at 1. erewrite pbind_ok by done. cbv beta zeta. unfold DISK_IO_BLOCK_SIZE. destruct (Z.eqb_spec (512 - Z.of_nat (length (output s))) 0) as [Hfull | Hroom].
  - assert (length (output s) = 512)%nat as H512 by lia. rewrite put_bytes_full by done. unfold mbind, prog_bind.
    destruct (disk_empty_output_buffer s) as [[[] s'] | |] eqn:E; [| done | done]. assert (output s' = []) as Hs' by (rewrite flush_output in E; by eapply write_block_output).
    apply IH; rewrite Hs'; rewrite ?H512 in Hf; cbn [length Nat.eqb] in *; [lia |]. lia.
  - set (n := Z.to_nat _). assert (1 <= n <= length (c :: data))%nat as Hn by (unfold n; cbn [length]; lia).
    assert (n + length (output s) <= 512)%nat as Hn2 by (unfold n; lia).
    rewrite <- (take_drop n (c :: data)) at 2. rewrite put_bytes_app. assert (length (output s) + length (take n (c :: data)) <= 512)%nat as Hfit by (rewrite length_take; lia).
    rewrite (pbind_ok _ _ _ _ _ (put_bytes_fit _ s Hfit)).
    erewrite pbind_ok by done. apply IH; cbn [output]; rewrite length_app, length_take; [lia |].
    rewrite length_drop. destruct (Nat.eqb_spec (length (output s)) 512); [lia |]. destruct (_ =? 512)%nat; lia.
Qed.

Lemma write_block_any b o s : write_block b (mk_core o (deferments s) (inodes s) (world s)) = write_block b s.
Proof using Type. done. Qed.

Lemma put_bytes_blocks fuel : ∀ data s, (length data <= fuel)%nat → output s = [] →
  (put_bytes data;; disk_empty_output_buffer) s = write_blocks (blocks_of fuel data) s.
Proof using Type.
  assert (∀ data s, (length data <= 512)%nat → output s = [] → (put_bytes data;; disk_empty_output_buffer) s = write_blocks [data] s) as Hsmall.
  { intros data s Hl Ho. erewrite pbind_ok by (apply put_bytes_fit; rewrite Ho; simpl; lia). rewrite flush_output, Ho, write_block_any. cbn [output app write_blocks].
    unfold mbind, prog_bind. by destruct (write_block data s) as [[[] ?] | |]. }
  induction fuel as [| fuel IH]; intros data s Hf Ho; cbn [blocks_of]; [apply Hsmall; [lia | done] |].
  destruct (Nat.leb_spec (length data) 512) as [Hle | Hgt]; [by apply Hsmall |]. rewrite <- (take_drop 512 data) at 1.
  destruct (drop 512 data) as [| c rest] eqn:Ed; [apply (f_equal length) in Ed; rewrite length_drop in Ed; simpl in Ed; lia |].
  assert (length (take 512 data) = 512)%nat as Ht by (rewrite length_take; lia). rewrite <- Ed. cbn [write_blocks].
  unfold mbind at 1, prog_bind at 1. rewrite put_bytes_app. erewrite pbind_ok by (apply put_bytes_fit; rewrite Ho; simpl; lia). rewrite Ho. cbn [app].
  rewrite Ed, put_bytes_full by (by cbn [output]). unfold mbind, prog_bind. rewrite flush_output, write_block_any. cbn [output].
  destruct (write_block (take 512 data) s) as [[[] s'] | |] eqn:E; [| done | done]. rewrite <- Ed.
  specialize (IH (drop 512 data) s'). unfold mbind, prog_bind in IH. rewrite <- IH; [done | rewrite length_drop; lia |]. by eapply write_block_output.
Qed.

(** Each operation leaves the output buffer empty. *)
Definition tidy {A} (m : op A) : Prop := ∀ s, output s = [] → match m s with Ret (_, s') => output s' = [] | _ => True end.

Lemma tidy_bind {A B} (m : op A) (f : A → op B) : tidy m → (∀ a, tidy (f a)) → tidy (m ≫= f).
Proof using Type.
  intros Hm Hf s Hs. specialize (Hm s Hs). unfold mbind, prog_bind. destruct (m s) as [[a s'] | |]; [| done | done]. by apply Hf.
Qed.
Lemma tidy_ret {A} (a : A) : tidy (mret a).
Proof using Type. by intros s Hs. Qed.
Lemma tidy_if {A} (b : bool) (m1 m2 : op A) : tidy m1 → tidy m2 → tidy (if b then m1 else m2).
Proof using Type. by destruct b. Qed.
Lemma tidy_syscall c : tidy (syscall c).
Proof using Type. intros s Hs. unfold syscall. by destruct (sys c (world s)). Qed.
Lemma tidy_lstat n : tidy (sys_lstat n).
Proof using Type. by intros s Hs. Qed.
Lemma tidy_get : tidy get_st.
Proof using Type. by intros s Hs. Qed.
Lemma tidy_of_option {A} (o : option A) : tidy (of_option o).
Proof using Type. by destruct o; intros s Hs. Qed.
Lemma tidy_deferments d : tidy (set_deferments d).
Proof using Type. by intros s Hs. Qed.
Lemma tidy_inodes h : tidy (set_inodes h).
Proof using Type. by intros s Hs. Qed.
Lemma tidy_write_blocks bs : tidy (write_blocks bs).
Proof using Type.
  induction bs as [| b bs IH]; [apply tidy_ret |]. apply tidy_bind; [| done]. intros s _. destruct (write_block b s) as [[[] s'] | |] eqn:E; [by eapply write_block_output | done | done].
Qed.
End meaning.

Ltac tidy_steps :=
  repeat first
    [ apply tidy_ret | apply tidy_syscall | apply tidy_lstat | apply tidy_get | apply tidy_of_option | apply tidy_deferments | apply tidy_inodes
    | apply tidy_write_blocks | apply tidy_if | apply tidy_bind; [| intros ?]
    | match goal with
      | |- tidy (match ?x with Some _ => _ | None => _ end) => destruct x
      | |- tidy (let '(_, _) := ?x in _) => destruct x
      end ].

Section tidy_ops.
Context {W : Type} `{!Files W}.

Lemma tidy_link_header h : tidy (W := W) (link_header h).
Proof using Type. unfold link_header, link_to_maj_min_ino, link_to_name. tidy_steps. Qed.
Lemma tidy_set_attributes h : tidy (W := W) (set_attributes h).
Proof using Type. unfold set_attributes. tidy_steps. Qed.
Lemma tidy_defered_loop h ds : tidy (W := W) (defered_loop h ds).
Proof using Type. induction ds as [| d ds IH]; cbn [defered_loop]; unfold link_to_name; tidy_steps; done. Qed.
Lemma tidy_extract_entry e : tidy (W := W) (extract_entry e).
Proof using Type.
  destruct e as [h data]. unfold extract_entry, remove_existing, extract_regular, extract_contents, defer_copyin, create_defered_links, copyin_directory, copyin_device, make_symlink.
  cbv zeta. repeat first [apply tidy_link_header | apply tidy_set_attributes | apply tidy_defered_loop | progress tidy_steps].
Qed.
End tidy_ops.

(** ** Buffered input *)

Section reading.
Context {W : Type} `{!Files W} (read_size : nat → option nat).
Context (Hreads : ∀ k, read_size k ≠ None).
Abbreviation io := (prog (tape * core W)).

(** [m] takes the bytes [a] from the input and does what [k] does; before and
    after, the output buffer is empty. *)
Definition runs {A} (m : io A) (k : prog (core W) A) (a : list Z) : Prop := ∀ t s b, stream t = a ++ b → output s = [] →
  match k s with
  | Ret (x, s') => output s' = [] ∧ ∃ t', m (t, s) = Ret (x, (t', s')) ∧ stream t' = b
  | Exit code => m (t, s) = Exit code
  | Fault => m (t, s) = Fault
  end.

Lemma runs_ret {A} (x : A) : runs (mret x) (mret x) [].
Proof using Type. intros t s b Ht Hs. split; [done |]. by exists t. Qed.

Lemma runs_lift {A} (k : prog (core W) A) : tidy k → runs (lift k) k [].
Proof using Type.
  intros Hk t s b Ht Hs. specialize (Hk s Hs). unfold lift. destruct (k s) as [[x s'] | |]; [| done | done]. split; [done |]. by exists t.
Qed.

Lemma runs_bind {A B} (m : io A) (k : prog (core W) A) (f : A → io B) (g : A → prog (core W) B) a1 a2 :
  runs m k a1 → (∀ x, runs (f x) (g x) a2) → runs (m ≫= f) (k ≫= g) (a1 ++ a2).
Proof using Type.
  intros Hm Hf t s b Ht Hs. rewrite <- app_assoc in Ht. specialize (Hm t s (a2 ++ b) Ht Hs). unfold mbind, prog_bind.
  destruct (k s) as [[x s'] | |]; [| by rewrite Hm | by rewrite Hm]. destruct Hm as (Hs' & t' & E & Ht'). rewrite E. by apply (Hf x t' s' b).
Qed.

(** With a result that is known. *)
Lemma runs_then {A B} (m : io A) (x : A) (f : A → io B) (g : prog (core W) B) a1 a2 :
  runs m (mret x) a1 → runs (f x) g a2 → runs (m ≫= f) g (a1 ++ a2).
Proof using Type.
  intros Hm Hf t s b Ht Hs. rewrite <- app_assoc in Ht. destruct (Hm t s (a2 ++ b) Ht Hs) as (_ & t' & E & Ht'). rewrite (pbind_ok _ _ _ _ _ E). by apply (Hf t' s b).
Qed.

Lemma runs_ext {A} (m : io A) (k k' : prog (core W) A) a : runs m k a → (∀ s, output s = [] → k s = k' s) → runs m k' a.
Proof using Type. intros Hm Hk t s b Ht Hs. rewrite <- Hk by done. by apply Hm. Qed.

Lemma fill_ok (t : tape) (s : core W) : stream t ≠ [] → ∃ t', fill_if_empty read_size (t, s) = Ret (tt, (t', s)) ∧ stream t' = stream t ∧ in_buff t' ≠ [].
Proof using Hreads.
  intros Hne. unfold fill_if_empty. cbn [fst]. case_bool_decide as He; [| by exists t]. unfold tape_fill_input_buffer, read_input.
  destruct (read_size (reads t)) as [k |] eqn:Ek; [| by apply Hreads in Ek]. change (if io_block_size <? io_block_size then io_block_size else io_block_size) with 512.
  cbv zeta. set (n := Nat.min (Nat.max 1 k) (Z.to_nat 512)). assert (1 <= n)%nat by (unfold n; lia).
  unfold stream in *. rewrite He in *. cbn [app] in *. destruct (input t) as [| c l] eqn:El; [done |].
  destruct n as [| n]; [lia |]. cbn [take drop]. eexists. split; [done |]. cbn [in_buff input]. split; [simpl; by rewrite take_drop | done].
Qed.

Lemma take_input_ok (t : tape) (s : core W) n : in_buff t ≠ [] → (0 < n)%nat → ∃ bs t', take_input (Z.of_nat n) (t, s) = Ret (bs, (t', s)) ∧ bs ≠ [] ∧ (length bs <= n)%nat ∧ stream t = bs ++ stream t'.
Proof using Type.
  intros Hne Hn. unfold take_input. set (k := Z.to_nat _). assert (1 <= k <= n)%nat as Hk by (unfold k; destruct (in_buff t); [done |]; simpl; lia).
  eexists _, _. split; [done |]. split_and!.
  - destruct (in_buff t); [done |]. by destruct k; [lia |].
  - rewrite length_take. lia.
  - unfold stream. cbn [in_buff input]. by rewrite app_assoc, take_drop.
Qed.

Lemma split_prefix (a b bs l : list Z) : (length bs <= length a)%nat → a ++ b = bs ++ l → ∃ rest, a = bs ++ rest ∧ l = rest ++ b.
Proof using Type.
  intros Hl H. exists (drop (length bs) a). assert (a = bs ++ drop (length bs) a) as Ha.
  { rewrite <- (take_drop (length bs) a) at 1. f_equal. apply (f_equal (take (length bs))) in H. by rewrite take_app_length, take_app_le in H. }
  split; [done |]. rewrite Ha, <- app_assoc in H. by apply app_inv_head in H.
Qed.

Lemma tape_read_ok fuel : ∀ a, (length a <= fuel)%nat → runs (tape_read_loop read_size fuel (Z.of_nat (length a))) (mret a) a.
Proof using Hreads.
  induction fuel as [| fuel IH]; intros a Hf t s b Ht Hs; (split; [done |]).
  - destruct a; [| simpl in Hf; lia]. by exists t.
  - cbn [tape_read_loop]. destruct (Z.leb_spec (Z.of_nat (length a)) 0) as [H0 | Hpos]; [destruct a; [by exists t | simpl in H0; lia] |].
    destruct (fill_ok t s) as (t1 & E1 & H1 & Hne); [rewrite Ht; destruct a; [simpl in Hpos; lia | done] |]. rewrite (pbind_ok _ _ _ _ _ E1).
    destruct (take_input_ok t1 s (length a) Hne ltac:(lia)) as (bs & t2 & E2 & Hbs & Hl & H2). rewrite (pbind_ok _ _ _ _ _ E2).
    destruct (split_prefix a b bs (stream t2) Hl) as (rest & -> & Ht2); [congruence |].
    assert (length rest <= fuel)%nat as Hf' by (rewrite length_app in Hf; destruct bs; [done |]; simpl in Hf; lia).
    replace (Z.of_nat (length (bs ++ rest)) - Z.of_nat (length bs)) with (Z.of_nat (length rest)) by (rewrite length_app; lia).
    destruct (IH _ Hf' t2 s b Ht2 Hs) as (_ & t3 & E3 & H3). rewrite (pbind_ok _ _ _ _ _ E3). by exists t3.
Qed.

Lemma tape_buffered_read_ok a n : n = Z.of_nat (length a) → runs (tape_buffered_read read_size n) (mret a) a.
Proof using Hreads. intros ->. apply tape_read_ok. lia. Qed.

Lemma tape_toss_ok a n : n = Z.of_nat (length a) → runs (tape_toss_input read_size n) (mret tt) a.
Proof using Hreads.
  intros Hn. unfold tape_toss_input. rewrite <- (app_nil_r a). eapply runs_then; [by apply tape_buffered_read_ok | apply runs_ret].
Qed.

Lemma put_bytes_bound data : ∀ s : core W, (length (output s) <= 512)%nat → match put_bytes data s with Ret (_, s') => (length (output s') <= 512)%nat | _ => True end.
Proof using Type.
  induction data as [| c data IH]; intros s Hs; [done |]. cbn [put_bytes]. unfold mbind at 1, prog_bind at 1.
  destruct (put_byte c s) as [[[] s'] | |] eqn:E; [| done | done]. apply IH. unfold put_byte, get_st, mbind, prog_bind in E.
  destruct (Nat.eqb_spec (length (output s)) 512); [destruct (disk_empty_output_buffer s) as [[[] ?] | |]; [| done | done] |];
    injection E as <-; cbn [output length]; rewrite ?length_app; simpl; lia.
Qed.

Lemma copy_loop_ok fuel : ∀ data t (s : core W) b, (length data <= fuel)%nat → stream t = data ++ b → (length (output s) <= 512)%nat →
  match put_bytes data s with
  | Ret (x, s') => ∃ t', copy_loop read_size fuel (Z.of_nat (length data)) (t, s) = Ret (x, (t', s')) ∧ stream t' = b
  | Exit code => copy_loop read_size fuel (Z.of_nat (length data)) (t, s) = Exit code
  | Fault => copy_loop read_size fuel (Z.of_nat (length data)) (t, s) = Fault
  end.
Proof using Hreads.
  induction fuel as [| fuel IH]; intros data t s b Hf Ht Hs.
  - destruct data; [| simpl in Hf; lia]. by exists t.
  - cbn [copy_loop]. destruct (Z.leb_spec (Z.of_nat (length data)) 0) as [H0 | Hpos]; [destruct data; [by exists t | simpl in H0; lia] |].
    destruct (fill_ok t s) as (t1 & E1 & H1 & Hne); [rewrite Ht; destruct data; [simpl in Hpos; lia | done] |]. rewrite (pbind_ok _ _ _ _ _ E1).
    destruct (take_input_ok t1 s (length data) Hne ltac:(lia)) as (bs & t2 & E2 & Hbs & Hl & H2). rewrite (pbind_ok _ _ _ _ _ E2).
    destruct (split_prefix data b bs (stream t2) Hl) as (rest & -> & Ht2); [congruence |].
    assert (length rest <= fuel)%nat as Hf' by (rewrite length_app in Hf; destruct bs; [done |]; simpl in Hf; lia).
    replace (Z.of_nat (length (bs ++ rest)) - Z.of_nat (length bs)) with (Z.of_nat (length rest)) by (rewrite length_app; lia).
    rewrite put_bytes_app. unfold mbind, prog_bind, lift, disk_buffered_write. rewrite disk_write_bytes by lia.
    pose proof (put_bytes_bound bs s Hs) as Hb. destruct (put_bytes bs s) as [[[] s'] | |]; [| done | done]. by apply (IH rest t2 s' b).
Qed.

(** The data of a file go to the disk in blocks. *)
Lemma copy_contents_ok data n : n = Z.of_nat (length data) →
  runs (copy_files_tape_to_disk read_size n;; lift disk_empty_output_buffer) (write_blocks (blocks data)) data.
Proof using Hreads.
  intros -> t s b Ht Hs. pose proof (tidy_write_blocks (blocks data) s Hs) as Htidy. unfold blocks in *. rewrite <- put_bytes_blocks in * by done.
  pose proof (copy_loop_ok (Z.to_nat (Z.of_nat (length data))) data t s b) as Hc. rewrite Hs in Hc. specialize (Hc ltac:(lia) Ht ltac:(simpl; lia)).
  unfold copy_files_tape_to_disk, mbind, prog_bind in *. destruct (put_bytes data s) as [[[] s'] | |]; [| by rewrite Hc | by rewrite Hc].
  destruct Hc as (t' & E & Ht'). rewrite E. unfold lift. destruct (disk_empty_output_buffer s') as [[[] s2] | |]; [| done | done]. split; [done |]. by exists t'.
Qed.

(** The number of bytes up to a multiple of four. *)
Definition pad_len (n : Z) : nat := Z.to_nat ((- n) mod 4).

Lemma skip_padding_ok n p : 0 <= n < 2 ^ 31 → length p = pad_len n → runs (tape_skip_padding read_size n) (mret tt) p.
Proof using Hreads.
  intros Hn Hp. unfold tape_skip_padding. rewrite wraps_small by (done || unfold in_s; lia). unfold pad_len in Hp.
  assert (Z.rem (4 - Z.rem n 4) 4 = (- n) mod 4) as -> by (Z.to_euclidean_division_equations; lia). cbv zeta.
  pose proof (Z.mod_pos_bound (- n) 4 ltac:(lia)). destruct (Z.eqb_spec ((- n) mod 4) 0) as [E | Hne]; cbn [negb].
  - rewrite E in Hp. destruct p; [apply runs_ret | done].
  - apply tape_toss_ok. lia.
Qed.
End reading.

(** ** The format of an archive *)

Definition hex_digit (d : Z) : Z := if d <? 10 then 48 + d else 87 + d.
(** The [k] lowest hexadecimal digits of a number. *)
Fixpoint hex_text (k : nat) (n : Z) : list Z :=
  match k with
  | O => []
  | S k => hex_digit (n / 16 ^ Z.of_nat k mod 16) :: hex_text k n
  end.

Definition fields (h : new_cpio_header) : list Z :=
  [c_ino h; c_mode h; c_uid h; c_gid h; c_nlink h; c_mtime h; c_filesize h; c_dev_maj h; c_dev_min h; c_rdev_maj h; c_rdev_min h; c_namesize h; c_chksum h].

Definition padding (n : Z) : list Z := replicate (pad_len n) 0.
Definition header_text (h : new_cpio_header) : list Z :=
  text "070701" ++ concat (hex_text 8 <$> fields h) ++ c_name h ++ [0] ++ padding (c_namesize h + 110).
Definition data_text (data : list Z) : list Z := data ++ padding (Z.of_nat (length data)).

(** A header that can be written. *)
Record header_ok (h : new_cpio_header) : Prop := {
  ho_fields : Forall (in_u 32) (fields h);
  ho_name : 0 ∉ c_name h;
  ho_namesize : c_namesize h = Z.of_nat (length (c_name h)) + 1;
  ho_size : c_namesize h < 2 ^ 30;
}.

Definition has_data (h : new_cpio_header) : bool :=
  let type := Z.land (c_mode h) S_IFMT in
  negb ((type =? S_IFDIR) || (type =? S_IFCHR) || (type =? S_IFBLK) || (type =? S_IFSOCK) || (type =? S_IFIFO)).

(** Only files and links have data. *)
Record entry_ok (e : new_cpio_header * list Z) : Prop := {
  eo_header : header_ok e.1;
  eo_size : c_filesize e.1 = Z.of_nat (length e.2);
  eo_bound : c_filesize e.1 < 2 ^ 31;
  eo_data : has_data e.1 = false → e.2 = [];
  eo_name : c_name e.1 ≠ trailer;
}.

Definition entry_text (e : new_cpio_header * list Z) : list Z := header_text e.1 ++ data_text e.2.

(** Junk in front of a header: the magic number begins nowhere before it. *)
Definition junk_ok (junk : list Z) (h : new_cpio_header) : Prop := ∀ i, (i < length junk)%nat → is_magic (take 6 (drop i (junk ++ header_text h))) = false.

(** Entries, each behind some junk, and the trailer. *)
Fixpoint archive_text (l : list (list Z * (new_cpio_header * list Z))) (last : list Z * new_cpio_header) : list Z :=
  match l with
  | [] => last.1 ++ header_text last.2
  | (junk, e) :: l => junk ++ entry_text e ++ archive_text l last
  end.

(** *** The digits *)

Lemma hex_text_length k n : length (hex_text k n) = k.
Proof. induction k as [| k IH]; simpl; [done | by rewrite IH]. Qed.

Lemma hex_digit_ok d : 0 <= d < 16 → digitval (s8 (hex_digit d)) = d ∧ in_u 8 (hex_digit d) ∧ hex_digit d ≠ 120 ∧ hex_digit d ≠ 88 ∧ hex_digit d ≠ 0.
Proof.
  intros Hd. assert (Forall (λ d, digitval (s8 (hex_digit d)) = d ∧ in_u 8 (hex_digit d) ∧ hex_digit d ≠ 120 ∧ hex_digit d ≠ 88 ∧ hex_digit d ≠ 0) (seqZ 0 16)) as Hall
    by (apply (bool_decide_unpack _); vm_compute; exact I).
  rewrite Forall_forall in Hall. apply Hall, elem_of_seqZ. lia.
Qed.

Lemma hex_text_digits k n : Forall (λ c, digit_in 16 c = true ∧ in_u 8 c ∧ c ≠ 120 ∧ c ≠ 88 ∧ c ≠ 0) (hex_text k n).
Proof.
  induction k as [| k IH]; [constructor |]. cbn [hex_text]. constructor; [| done]. set (d := n / _ mod 16).
  assert (0 <= d < 16) as Hd by (apply Z.mod_pos_bound; lia). destruct (hex_digit_ok d Hd) as (E & ? & ? & ?). split; [| done].
  unfold digit_in. rewrite E, (proj2 (Z.leb_le 0 d)), (proj2 (Z.ltb_lt d 16)) by lia. done.
Qed.

Lemma hex_text_value k n : positional 16 (hex_text k n) = n mod 16 ^ Z.of_nat k.
Proof.
  induction k as [| k IH]; [by rewrite Z.mod_1_r |]. cbn [hex_text positional]. rewrite hex_text_length, IH.
  destruct (hex_digit_ok (n / 16 ^ Z.of_nat k mod 16)) as (-> & _); [apply Z.mod_pos_bound; lia |].
  rewrite Nat2Z.inj_succ, Z.pow_succ_r by lia. rewrite (Z.mul_comm 16), Z.rem_mul_r by lia. lia.
Qed.

Lemma string_in_none l : 0 ∉ l → string_in l = None.
Proof. induction l as [| c l IH]; intros Hl; [done |]. apply not_elem_of_cons in Hl as [Hc Hl]. cbn [string_in]. by rewrite (proj2 (Z.eqb_neq c 0)), IH. Qed.

Lemma string_in_app l rest : 0 ∉ l → string_in (l ++ 0 :: rest) = Some l.
Proof. induction l as [| c l IH]; intros Hl; [done |]. apply not_elem_of_cons in Hl as [Hc Hl]. cbn [app string_in]. by rewrite (proj2 (Z.eqb_neq c 0)), IH. Qed.

Lemma hex_value_ok n : in_u 32 n → hex_value (hex_text 8 n) = n.
Proof.
  intros Hn. unfold hex_value. pose proof (hex_text_digits 8 n) as Hd.
  rewrite string_in_none by (intros Hin; rewrite Forall_forall in Hd; by destruct (Hd 0 Hin) as (_ & _ & _ & _ & ?)). cbn [default]. unfold default, from_option, id.
  pose proof (parse_num_grammar [] None [] (hex_text 8 n) [] 16 16) as Hp. rewrite app_nil_r in Hp. cbn [app sign_text] in Hp. rewrite Hp; try done.
  - cbn [fst apply_sign]. rewrite hex_text_value. change (16 ^ Z.of_nat 8) with (2 ^ 32). unfold in_u in Hn. rewrite (Z.mod_small n) by lia. by rewrite wrapu_small by (unfold in_u; lia).
  - apply BPhex_bare. cbn [hex_text starts_0x]. cbn [hex_text] in Hd. rewrite !Forall_cons in Hd. destruct Hd as (_ & (_ & _ & H1 & H2 & _) & _).
    rewrite (proj2 (Z.eqb_neq _ 120)), (proj2 (Z.eqb_neq _ 88)) by done. by rewrite andb_false_r.
  - eapply Forall_impl; [exact Hd |]. by intros c (? & _).
  - eapply Forall_impl; [exact Hd |]. by intros c (_ & ? & _).
Qed.

Lemma hex_fields_ok ns : Forall (in_u 32) ns → hex_fields (length ns) (concat (hex_text 8 <$> ns)) = ns.
Proof.
  induction 1 as [| n ns Hn _ IH]; [done |]. cbn [length]. rewrite fmap_cons. cbn [concat hex_fields].
  rewrite (take_app_length' _ _ 8), (drop_app_length' _ _ 8), hex_value_ok, IH by (done || by rewrite hex_text_length). done.
Qed.

(** *** Reading headers *)

Lemma concat_hex_length ns : length (concat (hex_text 8 <$> ns)) = (8 * length ns)%nat.
Proof. induction ns as [| n ns IH]; [done |]. rewrite fmap_cons. cbn [concat length]. rewrite length_app, hex_text_length, IH. lia. Qed.

Lemma padding_length n : length (padding n) = pad_len n.
Proof. apply length_replicate. Qed.

Section parsing.
Context {W : Type} `{!Files W} (read_size : nat → option nat).
Context (Hreads : ∀ k, read_size k ≠ None).
Abbreviation runs := (runs (W := W)).

Lemma runs_assoc {A B C} (m : prog (tape * core W) A) (f : A → prog (tape * core W) B) (g : B → prog (tape * core W) C) k a :
  runs (m ≫= λ x, f x ≫= g) k a → runs ((m ≫= f) ≫= g) k a.
Proof using Type.
  intros H t s b Ht Hs. specialize (H t s b Ht Hs). assert (((m ≫= f) ≫= g) (t, s) = (m ≫= λ x, f x ≫= g) (t, s)) as E; [| by rewrite E].
  unfold mbind, prog_bind. by destruct (m (t, s)) as [[? ?] | |].
Qed.

Lemma read_in_new_ascii_ok h : header_ok h →
  runs (read_in_new_ascii read_size) (mret h) (concat (hex_text 8 <$> fields h) ++ (c_name h ++ [0]) ++ padding (c_namesize h + 110)).
Proof using Hreads.
  intros [Hf Hname Hns Hsz]. unfold read_in_new_ascii.
  eapply runs_then; [apply tape_buffered_read_ok; [done | by rewrite concat_hex_length] |].
  assert (hex_fields 13 (concat (hex_text 8 <$> fields h)) = fields h) as -> by (by apply (hex_fields_ok (fields h))). cbv zeta. change (fields h !! 11%nat) with (Some (c_namesize h)). cbn [default]. unfold default, from_option, id. cbv beta iota.
  assert (in_u 32 (c_namesize h)) as H32 by (unfold in_u; lia). unfold in_u in H32.
  rewrite (wraps_small 64) by (done || unfold in_s; lia).
  eapply runs_then; [apply tape_buffered_read_ok; [done | rewrite length_app; simpl; lia] |].
  rewrite <- (app_nil_r (padding _)). eapply runs_then; [apply skip_padding_ok; [done | lia | apply padding_length] |].
  rewrite string_in_app by done. intros t s b Ht Hs. split; [done |]. exists t. split; [| done]. by destruct h.
Qed.

(** The search with the last six bytes in [magic]. *)
Lemma find_magic_ok m b : is_magic m = true → length m = 6%nat → ∀ junk fuel magic rest (s : core W) t, magic ++ rest = junk ++ m → length magic = 6%nat →
  (∀ i, (i < length junk)%nat → is_magic (take 6 (drop i (junk ++ m))) = false) → (length junk <= fuel)%nat → stream t = rest ++ b → output s = [] →
  ∃ t', find_magic read_size fuel magic (t, s) = Ret (tt, (t', s)) ∧ stream t' = b.
Proof using Hreads.
  intros Hm Hml. induction junk as [| j junk IH]; intros fuel magic rest s t E Hl Hj Hf Ht Hs.
  - cbn [app] in E. apply (f_equal length) in E as El. rewrite length_app in El. destruct rest; [| simpl in El; lia]. rewrite app_nil_r in E. subst magic.
    exists t. destruct fuel; simpl; rewrite Hm; done.
  - destruct fuel as [| fuel]; [simpl in Hf; lia |]. cbn [find_magic].
    assert (is_magic magic = false) as ->. { rewrite <- (Hj 0%nat) by (simpl; lia). f_equal. rewrite drop_0, <- E. by rewrite take_app_length' by done. }
    destruct rest as [| c rest]. { apply (f_equal length) in E. rewrite !length_app in E. simpl in E. lia. }
    destruct (tape_buffered_read_ok read_size Hreads [c] 1 eq_refl t s (rest ++ b) Ht Hs) as (_ & t1 & E1 & H1). rewrite (pbind_ok _ _ _ _ _ E1).
    destruct magic as [| c0 magic]; [done |]. cbn [app] in E. injection E as -> E. cbn [drop]. apply (IH fuel (magic ++ [c]) rest s t1); [by rewrite <- app_assoc | rewrite length_app; simpl in *; lia | | simpl in Hf; lia | done | done].
    intros i Hi. apply (Hj (S i)). simpl. lia.
Qed.

Lemma read_in_header_ok junk h : header_ok h → junk_ok junk h → runs (read_in_header read_size) (mret h) (junk ++ header_text h).
Proof using Hreads.
  intros Hh Hj t s b Ht Hs. split; [done |]. unfold read_in_header. set (tail := concat (hex_text 8 <$> fields h) ++ (c_name h ++ [0]) ++ padding (c_namesize h + 110)).
  assert (header_text h = text "070701" ++ tail) as Htext by (unfold header_text, tail; by rewrite <- !app_assoc). rewrite Htext in Ht.
  rewrite app_assoc, <- app_assoc in Ht. rewrite <- (take_drop 6 (junk ++ text "070701")), <- app_assoc in Ht.
  assert (length (take 6 (junk ++ text "070701")) = 6%nat) as Hl6 by (rewrite length_take, length_app; change (length (text "070701")) with 6%nat; lia).
  destruct (tape_buffered_read_ok read_size Hreads (take 6 (junk ++ text "070701")) 6 ltac:(rewrite Hl6; done) t s _ Ht Hs) as (_ & t1 & E1 & H1).
  rewrite (pbind_ok _ _ _ _ _ E1). erewrite pbind_ok by done. cbn [fst].
  destruct (find_magic_ok (text "070701") (tail ++ b) eq_refl eq_refl junk (S (length (stream t1))) (take 6 (junk ++ text "070701")) (drop 6 (junk ++ text "070701")) s t1)
    as (t2 & E2 & H2); [by rewrite take_drop | done | | rewrite H1, length_app, length_drop, length_app; simpl; lia | done | done |].
  { intros i Hi. specialize (Hj i Hi). rewrite Htext, app_assoc in Hj. rewrite (drop_app_le (junk ++ _)) in Hj by (rewrite length_app; lia).
    rewrite take_app_le in Hj; [done |]. rewrite length_drop, length_app. change (length (text "070701")) with 6%nat. lia. }
  rewrite (pbind_ok _ _ _ _ _ E2). destruct (read_in_new_ascii_ok h Hh t2 s b H2 Hs) as (_ & t3 & E3 & H3). by exists t3.
Qed.

Lemma runs_assoc_r {A B C} (m : prog (tape * core W) A) (f : A → prog (tape * core W) B) (g : B → prog (tape * core W) C) k a :
  runs ((m ≫= f) ≫= g) k a → runs (m ≫= λ x, f x ≫= g) k a.
Proof using Type.
  intros H t s b Ht Hs. specialize (H t s b Ht Hs). assert (((m ≫= f) ≫= g) (t, s) = (m ≫= λ x, f x ≫= g) (t, s)) as E; [| by rewrite <- E].
  unfold mbind, prog_bind. by destruct (m (t, s)) as [[? ?] | |].
Qed.

(** An operation on the files alone takes nothing from the input. *)
Lemma runs_lift_bind {A B} (k : prog (core W) A) (f : A → prog (tape * core W) B) (g : A → prog (core W) B) a :
  tidy k → (∀ x, runs (f x) (g x) a) → runs (lift k ≫= f) (k ≫= g) a.
Proof using Type. intros Hk Hf. apply (runs_bind (lift k) k f g [] a); [by apply runs_lift | done]. Qed.

(** *** Entries *)

Lemma skip_data_ok h data : c_filesize h = Z.of_nat (length data) → c_filesize h < 2 ^ 31 → runs (skip_data read_size h) (mret tt) (data_text data).
Proof using Hreads.
  intros Hsz Hb. unfold skip_data, data_text. rewrite Hsz in *. rewrite (wraps_small 64) by (done || unfold in_s; lia).
  eapply runs_then; [by apply tape_toss_ok |]. apply skip_padding_ok; [done | lia | apply padding_length].
Qed.

Lemma tidy_create_defered h : tidy (W := W) (create_defered_links h).
Proof using Type. unfold create_defered_links. tidy_steps. apply tidy_defered_loop. Qed.

Lemma copy_contents_runs h data : c_filesize h = Z.of_nat (length data) → c_filesize h < 2 ^ 31 →
  runs (copy_contents read_size h) (extract_contents h data) (data_text data).
Proof using Hreads.
  intros Hsz Hb. unfold copy_contents, extract_contents. apply runs_lift_bind; [apply tidy_syscall |]. intros [e |]; [by apply skip_data_ok |].
  rewrite Hsz in *. rewrite (wraps_small 64) by (done || unfold in_s; lia). unfold data_text. apply runs_assoc_r.
  apply runs_bind; [by apply copy_contents_ok |]. intros _. apply runs_lift_bind; [apply tidy_syscall |]. intros _. apply runs_lift_bind; [apply tidy_set_attributes |]. intros _.
  rewrite <- (app_nil_r (padding _)). eapply runs_then; [apply skip_padding_ok; [done | lia | apply padding_length] |].
  destruct (1 <? c_nlink h); [apply runs_lift, tidy_create_defered | apply runs_ret].
Qed.

(** Doing [k] and then skipping [a]. *)
Lemma runs_skip (m : prog (tape * core W) unit) (k : prog (core W) unit) a : tidy k → runs m (mret tt) a → runs (lift k;; m) k a.
Proof using Type.
  intros Hk Hm. eapply runs_ext; [apply (runs_lift_bind k (λ _, m) (λ _, mret tt)); [done | by intros []] |]. intros s _. unfold mbind, prog_bind. by destruct (k s) as [[[] ?] | |].
Qed.

Lemma copyin_regular_runs h data : c_filesize h = Z.of_nat (length data) → c_filesize h < 2 ^ 31 →
  runs (copyin_regular_file read_size h) (extract_regular h data) (data_text data).
Proof using Hreads.
  intros Hsz Hb. unfold copyin_regular_file, extract_regular. destruct (1 <? c_nlink h); [| by apply copy_contents_runs].
  destruct (c_filesize h =? 0).
  - apply runs_skip; [unfold defer_copyin; tidy_steps | by apply skip_data_ok].
  - apply runs_lift_bind; [apply tidy_link_header |]. intros res. destruct (res =? 0); [by apply skip_data_ok | by apply copy_contents_runs].
Qed.

Lemma string_in_end l : string_in (l ++ [0]) = Some (default l (string_in l)).
Proof using Type.
  induction l as [| c l IH]; [done |]. cbn [app string_in]. destruct (c =? 0); [done |]. rewrite IH. by destruct (string_in l).
Qed.

Lemma copyin_link_runs h data : c_filesize h = Z.of_nat (length data) → c_filesize h < 2 ^ 31 →
  runs (copyin_link read_size h) (make_symlink h (default data (string_in data))) (data_text data).
Proof using Hreads.
  intros Hsz Hb. unfold copyin_link, data_text. rewrite Hsz in *. rewrite (wrapu_small 32 (Z.of_nat _)), (wrapu_small 32 (_ + 1)) by (unfold in_u; lia).
  rewrite (proj2 (Z.leb_gt _ _)) by lia. rewrite (wraps_small 64) by (done || unfold in_s; lia).
  eapply runs_then; [by apply tape_buffered_read_ok |]. rewrite <- (app_nil_r (padding _)). eapply runs_then; [apply skip_padding_ok; [done | lia | apply padding_length] |].
  rewrite string_in_end. apply runs_lift. unfold make_symlink. tidy_steps.
Qed.

Lemma tidy_directory h b : tidy (W := W) (copyin_directory h b).
Proof using Type. unfold copyin_directory. cbv zeta. repeat first [apply tidy_set_attributes | progress tidy_steps]. Qed.
Lemma tidy_device h : tidy (W := W) (copyin_device h).
Proof using Type. unfold copyin_device. repeat first [apply tidy_set_attributes | apply tidy_link_header | progress tidy_steps]. Qed.
Lemma tidy_remove h : tidy (W := W) (remove_existing h).
Proof using Type. unfold remove_existing. tidy_steps. Qed.

Lemma copyin_file_runs e : entry_ok e → runs (copyin_file read_size e.1) (extract_entry e) (data_text e.2).
Proof using Hreads.
  destruct e as [h data]. intros [_ Hsz Hb Hdata _]. cbn [fst snd] in *. unfold copyin_file, try_existing_file, extract_entry.
  apply runs_assoc, runs_lift_bind; [apply tidy_remove |]. intros [[] ex]; cbn [negb].
  - intros t s b Ht Hs. assert (runs (let type := Z.land (c_mode h) S_IFMT in
      if type =? S_IFREG then copyin_regular_file read_size h
      else if type =? S_IFDIR then lift (copyin_directory h ex)
      else if (type =? S_IFCHR) || (type =? S_IFBLK) || (type =? S_IFSOCK) || (type =? S_IFIFO) then lift (copyin_device h)
      else if type =? S_IFLNK then copyin_link read_size h else skip_data read_size h)
      (let type := Z.land (c_mode h) S_IFMT in
      if type =? S_IFREG then extract_regular h data
      else if type =? S_IFDIR then copyin_directory h ex
      else if (type =? S_IFCHR) || (type =? S_IFBLK) || (type =? S_IFSOCK) || (type =? S_IFIFO) then copyin_device h
      else if type =? S_IFLNK then make_symlink h (default data (string_in data)) else mret tt) (data_text data)) as Hruns; [| by apply (Hruns t s b)].
    clear t s b Ht Hs. unfold has_data in Hdata. cbv zeta in *. set (type := Z.land (c_mode h) S_IFMT) in *.
    destruct (type =? S_IFREG) eqn:E1; [by apply copyin_regular_runs |].
    destruct (type =? S_IFDIR) eqn:E2. { rewrite (Hdata eq_refl). apply runs_lift, tidy_directory. }
    destruct ((type =? S_IFCHR) || (type =? S_IFBLK) || (type =? S_IFSOCK) || (type =? S_IFIFO)) eqn:E3.
    { cbn [orb] in Hdata. rewrite Hdata; [apply runs_lift, tidy_device |]. by rewrite E3. }
    destruct (type =? S_IFLNK); [by apply copyin_link_runs | by apply skip_data_ok].
  - intros t s b Ht Hs. destruct (skip_data_ok h data Hsz Hb t s b Ht Hs) as (Hs' & t' & E & Ht'). split; [done |]. exists t'. split; [| done].
    unfold mbind, prog_bind. by rewrite E.
Qed.

(** *** Archives *)

Record archive_ok (l : list (list Z * (new_cpio_header * list Z))) (last : list Z * new_cpio_header) : Prop := {
  ao_entries : Forall (λ x, entry_ok x.2 ∧ junk_ok x.1 x.2.1) l;
  ao_last : header_ok last.2 ∧ junk_ok last.1 last.2 ∧ c_name last.2 = trailer;
}.

Lemma copy_in_loop_runs last l : ∀ fuel, archive_ok l last → (length l < fuel)%nat →
  runs (copy_in_loop read_size fuel) (extract_entries l.*2) (archive_text l last).
Proof using Hreads.
  induction l as [| [junk e] l IH]; intros fuel [Hl (Hh & Hj & Hn)] Hf; (destruct fuel as [| fuel]; [simpl in Hf; lia |]); cbn [copy_in_loop archive_text].
  - rewrite <- (app_nil_r (last.1 ++ _)). eapply runs_then; [by apply read_in_header_ok |]. cbv beta. rewrite bool_decide_eq_true_2 by done. apply runs_ret.
  - apply Forall_cons in Hl as [[He Hje] Hl]. cbn [fst snd] in *. unfold entry_text. rewrite <- app_assoc, app_assoc.
    eapply runs_then; [apply read_in_header_ok; [by destruct He | done] |]. cbv beta. rewrite bool_decide_eq_false_2 by by destruct He.
    rewrite fmap_cons. cbn [extract_entries snd]. apply runs_bind; [by apply copyin_file_runs |]. intros []. apply IH; [by split | simpl in Hf; lia].
Qed.

Lemma archive_length l last : (length l <= length (archive_text l last))%nat.
Proof using Type.
  induction l as [| [junk e] l IH]; [simpl; lia |]. cbn [length archive_text]. unfold entry_text, header_text. rewrite !length_app. change (length (text "070701")) with 6%nat. lia.
Qed.

Lemma tidy_final_loop ds : tidy (W := W) (final_loop ds).
Proof using Type. induction ds as [| d ds IH]; cbn [final_loop]; repeat first [done | apply tidy_link_header | progress tidy_steps]. Qed.
Lemma tidy_final : tidy (W := W) create_final_defers.
Proof using Type. unfold create_final_defers. tidy_steps. apply tidy_final_loop. Qed.
Lemma process_copy_in_runs l last : archive_ok l last → runs (process_copy_in read_size) (extract l.*2) (archive_text l last).
Proof using Hreads.
  intros Ha t s b Ht Hs. assert (runs (copy_in_loop read_size (S (length (stream t)));; lift create_final_defers) (extract l.*2) (archive_text l last)) as Hruns.
  { unfold extract. rewrite <- (app_nil_r (archive_text l last)). apply runs_bind.
    - apply copy_in_loop_runs; [done |]. pose proof (archive_length l last). rewrite Ht, length_app. lia.
    - intros []. apply runs_lift, tidy_final. }
  exact (Hruns t s b Ht Hs).
Qed.
End parsing.

(** C16.  The extraction of an archive does what its entries say: however
    [read] divides the input, whatever the system calls answer and whatever
    junk lies between the entries, [process_copy_in] on the text of an archive
    makes the system calls of the extraction of its entries one by one, in the
    same order and with the same answers, takes exactly the archive from the
    input, and ends like it (after a short write with status 1).  In
    particular an error with one file never makes it lose its place in the
    archive. *)
Theorem archive_extracted {W} `{!Files W} read_size l last t (s : core W) rest :
  (∀ k, read_size k ≠ None) → archive_ok l last → stream t = archive_text l last ++ rest → output s = [] →
  match extract l.*2 s with
  | Ret (_, s') => ∃ t', process_copy_in read_size (t, s) = Ret (tt, (t', s')) ∧ stream t' = rest
  | Exit code => process_copy_in read_size (t, s) = Exit code
  | Fault => process_copy_in read_size (t, s) = Fault
  end.
Proof.
  intros Hr Ha Ht Hs. pose proof (process_copy_in_runs read_size Hr l last Ha t s rest Ht Hs) as Hruns.
  destruct (extract l.*2 s) as [[[] s'] | |]; [| done | done]. by destruct Hruns as [_ ?].
Qed.

(** A world that writes down the calls. *)
Definition log_files : Files (list call) := {|
  sys := λ c w, (None, w ++ [c]);
  lstat := λ _ _, None;
  write := λ bs w, (Z.of_nat (length bs), w);
|}.
Definition example_file : new_cpio_header * list Z := (mk_header 7 0x81a4 0 5 1 0 3 8 1 0 0 2 0 (text "a"), text "hi!").
Definition example_trailer : new_cpio_header := mk_header 0 0 0 0 1 0 0 0 0 0 0 11 0 trailer.

(** One file behind two bytes of junk, read three bytes at a time. *)
Lemma archive_extracted_witness :
  ∃ t', @process_copy_in _ log_files (λ _, Some 3%nat) (mk_tape [] (archive_text [([48; 55], example_file)] ([], example_trailer)) 0, mk_core [] [] no_inodes []) =
    Ret (tt, (t', mk_core [] [] no_inodes [Open (text "a"); Close; Chown (text "a") 0 5; Chmod (text "a") 0x81a4])) ∧ stream t' = [].
Proof.
  assert (archive_ok [([48; 55], example_file)] ([], example_trailer)) as Ha.
  { split; [apply Forall_singleton; split; [split; [split |..] |] | split_and!; [split | |]]; try (apply (bool_decide_unpack _); vm_compute; exact I); try reflexivity; try discriminate.
    - intros i Hi. cbn [fst length] in Hi. destruct i as [| [|]]; [reflexivity | reflexivity | lia].
    - intros i Hi. cbn [fst length] in Hi. lia. }
  pose proof (@archive_extracted _ log_files (λ _, Some 3%nat) [([48; 55], example_file)] ([], example_trailer)
    (mk_tape [] (archive_text [([48; 55], example_file)] ([], example_trailer)) 0) (mk_core [] [] no_inodes []) []) as H.
  rewrite app_nil_r in H. specialize (H ltac:(discriminate) Ha eq_refl eq_refl). exact H.
Defined.
