(* ===== verification/CpioFs.v ===== *)
(** * Archives and the files they hold

    What extraction ([Cpio]) leaves in a file system: names that refer to
    numbered files, so that several names can share one.  The calls behave as
    POSIX says for a user who may do everything; names are not taken apart.

    The theorem: from an empty file system every entry of an archive becomes a
    file with the contents, permissions and owner of the archive; names are
    links to one file exactly if the archive says so, although the format
    keeps the data of such a file only with its last name. *)

From stdpp Require Import base numbers list gmap strings.
From Stdlib Require Import Lia.
From S2P Require Import Prelude Prog Devno Ipconfig InodeHash Cpio.

#[local] Set Warnings "-register-all".

(** ** A file system *)

Inductive kind := Regular (data : list Z) | Directory | Special (type dev : Z) | SymbolicLink (target : list Z).
Record node := mk_node { node_kind : kind; perm : Z; owner : Z; group : Z }.

(** [cur] is the open file with the position in it. *)
Record fs := mk_fs { dents : gmap (list Z) nat; nodes : gmap nat node; next : nat; cur : option (nat * nat) }.
Definition empty_fs : fs := mk_fs ∅ ∅ 0 None.

Definition ENOENT : Z := 2.
Definition EBADF : Z := 9.
Definition EISDIR : Z := 21.

Definition type_of (k : kind) : Z :=
  match k with Regular _ => S_IFREG | Directory => S_IFDIR | Special type _ => type | SymbolicLink _ => S_IFLNK end.
Definition st_mode (nd : node) : Z := Z.lor (type_of (node_kind nd)) (perm nd).

Definition find_node (name : list Z) (w : fs) : option (nat * node) :=
  i ← dents w !! name;
  nd ← nodes w !! i;
  Some (i, nd).

(** A new file under a name that does not exist. *)
Definition add_node (name : list Z) (nd : node) (w : fs) : fs :=
  mk_fs (<[name := next w]> (dents w)) (<[next w := nd]> (nodes w)) (S (next w)) (cur w).
Definition create (name : list Z) (nd : node) (w : fs) : option Z * fs :=
  match dents w !! name with
  | Some _ => (Some EEXIST, w)
  | None => (None, add_node name nd w)
  end.
Definition change (i : nat) (f : node → node) (w : fs) : fs := mk_fs (dents w) (alter f i (nodes w)) (next w) (cur w).
Definition change_name (name : list Z) (f : node → node) (w : fs) : option Z * fs :=
  match dents w !! name with
  | Some i => (None, change i f w)
  | None => (Some ENOENT, w)
  end.
Definition change_open (f : node → node) (w : fs) : option Z * fs :=
  match cur w with
  | Some (i, _) => (None, change i f w)
  | None => (Some EBADF, w)
  end.
Definition set_cur (c : option (nat * nat)) (w : fs) : fs := mk_fs (dents w) (nodes w) (next w) c.
Definition set_owner (u g : Z) (nd : node) : node := mk_node (node_kind nd) (perm nd) u g.
Definition set_perm (m : Z) (nd : node) : node := mk_node (node_kind nd) (Z.land m 0xfff) (owner nd) (group nd).

Definition fs_open (name : list Z) (w : fs) : option Z * fs :=
  match find_node name w with
  | None => (None, set_cur (Some (next w, 0%nat)) (add_node name (mk_node (Regular []) 0x180 0 0) w))
  | Some (i, nd) => match node_kind nd with Regular _ => (None, set_cur (Some (i, 0%nat)) w) | _ => (Some EISDIR, w) end
  end.

Definition fs_write (bs : list Z) (w : fs) : Z * fs :=
  match cur w with
  | Some (i, off) =>
      match nodes w !! i with
      | Some (mk_node (Regular d) p u g) =>
          (Z.of_nat (length bs),
           mk_fs (dents w) (<[i := mk_node (Regular (take off d ++ bs ++ drop (off + length bs) d)) p u g]> (nodes w)) (next w) (Some (i, off + length bs)%nat))
      | _ => (-1, w)
      end
  | None => (-1, w)
  end.

Definition fs_link (target name : list Z) (w : fs) : option Z * fs :=
  match dents w !! target, dents w !! name with
  | None, _ => (Some ENOENT, w)
  | _, Some _ => (Some EEXIST, w)
  | Some i, None => (None, mk_fs (<[name := i]> (dents w)) (nodes w) (next w) (cur w))
  end.

Definition fs_remove (name : list Z) (w : fs) : option Z * fs :=
  match dents w !! name with
  | None => (Some ENOENT, w)
  | Some _ => (None, mk_fs (delete name (dents w)) (nodes w) (next w) (cur w))
  end.

Definition fs_sys (c : call) (w : fs) : option Z * fs :=
  match c with
  | Unlink name | Rmdir name => fs_remove name w
  | Link target name => fs_link target name w
  | Open name => fs_open name w
  | Close => (None, set_cur None w)
  | Chown name u g | Lchown name u g => change_name name (set_owner u g) w
  | Chmod name m => change_name name (set_perm m) w
  | Fchown u g => change_open (set_owner u g) w
  | Fchmod m => change_open (set_perm m) w
  | Mkdir name m => create name (mk_node Directory (Z.land m 0x1ff) 0 0) w
  | Mknod name m dev => create name (mk_node (Special (Z.land m S_IFMT) dev) (Z.land m 0x1ff) 0 0) w
  | Symlink target name => create name (mk_node (SymbolicLink target) 0x1ff 0 0) w
  end.

Global Instance fs_files : Files fs := {|
  sys := fs_sys;
  lstat := λ name w, (λ '(_, nd), st_mode nd) <$> find_node name w;
  write := fs_write;
|}.

(** ** The calls on a new file *)

Lemma change_added n nd w f : change (next w) f (add_node n nd w) = add_node n (f nd) w.
Proof. unfold change, add_node. cbn [nodes dents next cur]. by rewrite alter_insert_eq. Qed.

Lemma change_new n nd w f : change_name n f (add_node n nd w) = (None, add_node n (f nd) w).
Proof. unfold change_name. rewrite <- change_added. unfold add_node at 1. cbn [dents]. by rewrite lookup_insert_eq. Qed.

Lemma syscall_bind {A} (f : option Z → prog (core fs) A) c s e w : fs_sys c (world s) = (e, w) →
  (syscall c ≫= f) s = f e (mk_core (output s) (deferments s) (inodes s) w).
Proof. intros H. unfold syscall, mbind, prog_bind. change (sys c (world s)) with (fs_sys c (world s)). by rewrite H. Qed.

(** The owner and the permissions of the header. *)
Definition with_header (h : new_cpio_header) (nd : node) : node := set_perm (u32 (c_mode h)) (set_owner (u32 (c_uid h)) (u32 (c_gid h)) nd).

Lemma set_attributes_new h o d hh nd w :
  set_attributes h (mk_core o d hh (add_node (c_name h) nd w)) = Ret (tt, mk_core o d hh (add_node (c_name h) (with_header h nd) w)).
Proof.
  unfold set_attributes. erewrite syscall_bind by apply change_new. by erewrite syscall_bind by apply change_new.
Qed.

Lemma create_fresh n nd w : dents w !! n = None → create n nd w = (None, add_node n nd w).
Proof. unfold create. by intros ->. Qed.

Lemma find_fresh n w : dents w !! n = None → find_node n w = None.
Proof. unfold find_node. by intros ->. Qed.

Lemma remove_fresh h s : dents (world s) !! c_name h = None → remove_existing h s = Ret ((true, false), s).
Proof. intros H. unfold remove_existing, sys_lstat, mbind, prog_bind. cbn [lstat fs_files]. by rewrite find_fresh. Qed.

(** The new file while it is written. *)
Definition being_written (n data : list Z) (w : fs) : fs :=
  set_cur (Some (next w, length data)) (add_node n (mk_node (Regular data) 0x180 0 0) w).

Lemma open_fresh n w : dents w !! n = None → fs_sys (Open n) w = (None, being_written n [] w).
Proof. intros H. cbn [fs_sys]. unfold fs_open. by rewrite find_fresh. Qed.

Lemma change_opened n k nd w f : change_open f (set_cur (Some (next w, k)) (add_node n nd w)) = (None, set_cur (Some (next w, k)) (add_node n (f nd) w)).
Proof. rewrite <- change_added. done. Qed.

Lemma write_new n b d hh w data :
  write_block b (mk_core [] d hh (being_written n data w)) = Ret (tt, mk_core [] d hh (being_written n (data ++ b) w)).
Proof.
  unfold write_block. cbn [world write fs_files deferments inodes]. unfold fs_write, being_written. cbn [cur set_cur nodes add_node dents next].
  rewrite lookup_insert_eq, Z.eqb_refl. rewrite take_ge, drop_ge, app_nil_r, length_app by lia. unfold set_cur, add_node. cbn [cur nodes dents next].
  by rewrite insert_insert_eq.
Qed.

Lemma write_blocks_new n bs d hh w : ∀ data,
  write_blocks bs (mk_core [] d hh (being_written n data w)) = Ret (tt, mk_core [] d hh (being_written n (data ++ concat bs) w)).
Proof.
  induction bs as [| b bs IH]; intros data; cbn [write_blocks concat]; [by rewrite app_nil_r |].
  rewrite (pbind_ok _ _ _ _ _ (write_new n b d hh w data)), IH. by rewrite <- app_assoc.
Qed.

Lemma concat_blocks data : concat (blocks data) = data.
Proof.
  unfold blocks. generalize (length data) at 1. intros fuel. revert data. induction fuel as [| fuel IH]; intros data; cbn [blocks_of concat]; [apply app_nil_r |].
  destruct (length data <=? 512)%nat; cbn [concat]; [apply app_nil_r |]. by rewrite IH, take_drop.
Qed.

Lemma written_closed n data w : cur w = None → set_cur None (being_written n data w) = add_node n (mk_node (Regular data) 0x180 0 0) w.
Proof. unfold being_written, set_cur, add_node. cbn [dents nodes next cur]. by intros ->. Qed.

(** ** What an archive describes *)

Abbreviation entry := (new_cpio_header * list Z)%type.
Definition type (e : entry) : Z := Z.land (c_mode e.1) S_IFMT.
Definition is_special (e : entry) : bool := (type e =? S_IFCHR) || (type e =? S_IFBLK) || (type e =? S_IFSOCK) || (type e =? S_IFIFO).

Definition kind_of (e : entry) : kind :=
  if type e =? S_IFREG then Regular e.2
  else if type e =? S_IFDIR then Directory
  else if is_special e then Special (type e) (makedev (s32 (c_rdev_maj e.1)) (s32 (c_rdev_min e.1)))
  else SymbolicLink (default e.2 (string_in e.2)).
Definition node_of (e : entry) : node :=
  mk_node (kind_of e) (if type e =? S_IFLNK then 0x1ff else Z.land (c_mode e.1) 0xfff) (c_uid e.1) (c_gid e.1).

(** A file that may have several names, and the one without its data. *)
Definition linked (e : entry) : bool := (type e =? S_IFREG) && (1 <? c_nlink e.1).
Definition hollow (e : entry) : bool := linked e && (c_filesize e.1 =? 0).

(** Names with the same key are links to the same file. *)
Definition key (e : entry) : Z + list Z := if linked e then inl (c_ino e.1) else inr (c_name e.1).
Abbreviation name_of_entry e := (c_name e.1).

Section tree.
Context (maj min : Z).

(** The entries of an archive that was made from files of one device: types
    that are known, names without a trailing slash, and the data of a file
    with several names with the last of them. *)
Record tree_entry (e : entry) : Prop := {
  te_fields : Forall (in_u 32) (fields e.1);
  te_size : c_filesize e.1 = Z.of_nat (length e.2);
  te_type : type e = S_IFREG ∨ type e = S_IFDIR ∨ is_special e = true ∨ type e = S_IFLNK;
  te_dir : type e = S_IFDIR → strip_trailing_slashes (name_of_entry e) = name_of_entry e ∧ name_of_entry e ≠ [46];
  te_special : is_special e = true → c_nlink e.1 <= 1;
  te_linked : linked e = true → c_ino e.1 < 2 ^ 31 ∧ c_dev_maj e.1 = maj ∧ c_dev_min e.1 = min;
}.

Record tree_ok (es : list entry) : Prop := {
  to_entries : Forall tree_entry es;
  to_names : NoDup ((λ e, name_of_entry e) <$> es);
  to_data pre e post e' : es = pre ++ e :: post → linked e = true → hollow e = false → e' ∈ post → linked e' = true → c_ino e'.1 ≠ c_ino e.1;
  to_length : Z.of_nat (length es) <= 2 ^ 28;
  to_device : 0 <= maj < 2 ^ 31 ∧ 0 <= min < 2 ^ 31;
}.

(** ** The state of the extraction

    [L] are the entries whose names exist, [D] those that are deferred, [G]
    those with which a file was created, in this order: the [i]-th has the
    number [i]. *)

Definition inode_of (e : entry) : inode_val := mk_inode (c_ino e.1) maj min (name_of_entry e).
Abbreviation names l := ((λ e : entry, name_of_entry e) <$> l).
Abbreviation linked_only := (filter (λ e, linked e = true)).

Record good (L D G : list entry) (s : core fs) : Prop := {
  g_out : output s = [];
  g_cur : cur (world s) = None;
  g_next : next (world s) = length G;
  g_nodes i : nodes (world s) !! i = node_of <$> (G !! i);
  g_keys : NoDup (key <$> G);
  g_sub e : e ∈ G → e ∈ L;
  g_size : (length G <= length L)%nat;
  g_dents n i : dents (world s) !! n = Some i ↔ ∃ e lead, e ∈ L ∧ name_of_entry e = n ∧ G !! i = Some lead ∧ key lead = key e;
  g_lead e : e ∈ L → ∃ i lead, G !! i = Some lead ∧ key lead = key e;
  g_full e : e ∈ L → hollow e = false → e ∈ G;
  g_def : deferments s = D.*1;
  g_hash : holds_inodes (inodes s) (inode_of <$> linked_only G);
}.

Lemma good_empty : good [] [] [] (mk_core [] [] no_inodes empty_fs).
Proof using Type.
  split; try done.
  - constructor.
  - intros n i. cbn [world dents empty_fs]. rewrite lookup_empty. split; [done |]. by intros (? & ? & ?%not_elem_of_nil & _).
  - by intros e ?%not_elem_of_nil.
Qed.

Lemma good_fresh L D G s n : good L D G s → n ∉ names L → dents (world s) !! n = None.
Proof using Type.
  intros Hg Hn. destruct (dents (world s) !! n) as [i |] eqn:E; [| done]. apply (g_dents _ _ _ _ Hg) in E as (e & lead & He & <- & _).
  destruct Hn. by apply (list_elem_of_fmap_2 (λ e, name_of_entry e)).
Qed.

(** The file of a key. *)
Lemma good_lookup L D G s e i lead : good L D G s → e ∈ L → G !! i = Some lead → key lead = key e → dents (world s) !! name_of_entry e = Some i.
Proof using Type. intros Hg He Hi Hk. apply (g_dents _ _ _ _ Hg). by exists e, lead. Qed.

(** A new file. *)
Lemma good_place L D G s e h' : good L D G s → name_of_entry e ∉ names L → key e ∉ key <$> G →
  holds_inodes h' (inode_of <$> linked_only (G ++ [e])) →
  good (L ++ [e]) D (G ++ [e]) (mk_core [] (deferments s) h' (add_node (name_of_entry e) (node_of e) (world s))).
Proof using Type.
  intros Hg Hn Hk Hh. split; cbn [output world deferments inodes add_node cur next nodes dents].
  - done.
  - apply (g_cur _ _ _ _ Hg).
  - rewrite length_app, (g_next _ _ _ _ Hg). simpl. lia.
  - intros i. rewrite (g_next _ _ _ _ Hg). destruct (decide (i = length G)) as [-> | Hne].
    + rewrite lookup_insert_eq, list_lookup_middle by done. done.
    + rewrite lookup_insert_ne, (g_nodes _ _ _ _ Hg) by done. destruct (decide (i < length G)%nat); [by rewrite lookup_app_l by done |].
      rewrite (lookup_ge_None_2 G), (lookup_ge_None_2 (G ++ [e])) by (rewrite ?length_app; simpl; lia). done.
  - rewrite fmap_app. apply NoDup_app. split_and!; [apply (g_keys _ _ _ _ Hg) | | apply NoDup_singleton]. intros k Hk1 ->%list_elem_of_singleton. done.
  - intros x [Hx | ->%list_elem_of_singleton]%elem_of_app; apply elem_of_app; [left; by apply (g_sub _ _ _ _ Hg) | right; by apply list_elem_of_singleton].
  - rewrite !length_app. pose proof (g_size _ _ _ _ Hg). simpl. lia.
  - intros n i. rewrite (g_next _ _ _ _ Hg). destruct (decide (n = name_of_entry e)) as [-> | Hne].
    + rewrite lookup_insert_eq. split.
      * intros [= <-]. exists e, e. split_and!; [apply elem_of_app; right; by apply list_elem_of_singleton | done | by apply list_lookup_middle | done].
      * intros (x & lead & Hx & Hnx & Hl & Hkx). apply elem_of_app in Hx as [Hx | ->%list_elem_of_singleton]; [destruct Hn; rewrite <- Hnx; by apply (list_elem_of_fmap_2 (λ e, name_of_entry e)) |].
        f_equal. destruct (decide (i < length G)%nat) as [Hi |].
        -- rewrite lookup_app_l in Hl by done. destruct Hk. rewrite <- Hkx. apply list_elem_of_fmap_2. by eapply list_elem_of_lookup_2.
        -- apply lookup_lt_Some in Hl. rewrite length_app in Hl. simpl in Hl. lia.
    + rewrite lookup_insert_ne by done. rewrite (g_dents _ _ _ _ Hg). split; intros (x & lead & Hx & Hnx & Hl & Hkx); exists x, lead.
      * split_and!; [apply elem_of_app; by left | done | by apply lookup_app_l_Some | done].
      * apply elem_of_app in Hx as [Hx | ->%list_elem_of_singleton]; [| congruence]. split_and!; [done | done | | done].
        apply lookup_app_Some in Hl as [Hl | [_ Hl]]; [done |]. apply list_lookup_singleton_Some in Hl as [_ <-].
        destruct (g_lead _ _ _ _ Hg x Hx) as (j & lead' & Hj & Hkj). destruct Hk. rewrite Hkx, <- Hkj. apply list_elem_of_fmap_2. by eapply list_elem_of_lookup_2.
  - intros x [Hx | ->%list_elem_of_singleton]%elem_of_app.
    + destruct (g_lead _ _ _ _ Hg x Hx) as (j & lead & Hj & Hkj). exists j, lead. split; [by apply lookup_app_l_Some | done].
    + exists (length G), e. split; [by apply list_lookup_middle | done].
  - intros x [Hx | ->%list_elem_of_singleton]%elem_of_app Hh0; apply elem_of_app; [left; by apply (g_full _ _ _ _ Hg) | right; by apply list_elem_of_singleton].
  - apply (g_def _ _ _ _ Hg).
  - done.
Qed.

(** A link to an old one. *)
Lemma good_link L D G s d i lead D' : good L D G s → name_of_entry d ∉ names L → G !! i = Some lead → key lead = key d → hollow d = true →
  good (L ++ [d]) D' G (mk_core [] D'.*1 (inodes s) (mk_fs (<[name_of_entry d := i]> (dents (world s))) (nodes (world s)) (next (world s)) (cur (world s)))).
Proof using Type.
  intros Hg Hn Hi Hk Hd. split; cbn [output world deferments inodes cur next nodes dents]; try first [done | by apply Hg].
  - intros x Hx. apply elem_of_app. left. by apply (g_sub _ _ _ _ Hg).
  - rewrite length_app. pose proof (g_size _ _ _ _ Hg). lia.
  - intros n j. destruct (decide (n = name_of_entry d)) as [-> | Hne].
    + rewrite lookup_insert_eq. split.
      * intros [= <-]. exists d, lead. split_and!; [apply elem_of_app; right; by apply list_elem_of_singleton | done | done | done].
      * intros (x & lead' & Hx & Hnx & Hl & Hkx). apply elem_of_app in Hx as [Hx | ->%list_elem_of_singleton]; [destruct Hn; rewrite <- Hnx; by apply (list_elem_of_fmap_2 (λ e, name_of_entry e)) |].
        f_equal. eapply (NoDup_lookup _ _ _ (key d) (g_keys _ _ _ _ Hg)); rewrite list_lookup_fmap; [by rewrite Hi; simpl; rewrite Hk | by rewrite Hl; simpl; rewrite Hkx].
    + rewrite lookup_insert_ne by done. rewrite (g_dents _ _ _ _ Hg). split; intros (x & lead' & Hx & Hnx & Hl & Hkx); exists x, lead'.
      * split_and!; [apply elem_of_app; by left | done | done | done].
      * apply elem_of_app in Hx as [Hx | ->%list_elem_of_singleton]; [done | congruence].
  - intros x [Hx | ->%list_elem_of_singleton]%elem_of_app; [by apply (g_lead _ _ _ _ Hg) | by exists i, lead].
  - intros x [Hx | ->%list_elem_of_singleton]%elem_of_app Hh; [by apply (g_full _ _ _ _ Hg) | congruence].
Qed.
(** ** Single entries *)

Lemma field_range h x : Forall (in_u 32) (fields h) → x ∈ fields h → in_u 32 x.
Proof using Type. rewrite Forall_forall. auto. Qed.
Ltac field_range := apply (field_range _ _ ltac:(eassumption)); unfold fields; set_solver.

Lemma with_header_fields h k p u g : Forall (in_u 32) (fields h) → with_header h (mk_node k p u g) = mk_node k (Z.land (c_mode h) 0xfff) (c_uid h) (c_gid h).
Proof using Type.
  intros Hf. assert (in_u 32 (c_mode h) ∧ in_u 32 (c_uid h) ∧ in_u 32 (c_gid h)) as (H1 & H2 & H3).
  { split_and!; field_range. }
  unfold with_header, set_perm, set_owner. cbn [node_kind perm owner group]. by rewrite !wrapu_small.
Qed.

Lemma contents_new h data s : output s = [] → cur (world s) = None → dents (world s) !! c_name h = None →
  extract_contents h data s = (if 1 <? c_nlink h then create_defered_links h else mret tt)
    (mk_core [] (deferments s) (inodes s) (add_node (c_name h) (with_header h (mk_node (Regular data) 0x180 0 0)) (world s))).
Proof using Type.
  intros Ho Hc Hf. unfold extract_contents. erewrite syscall_bind by by apply open_fresh.
  rewrite Ho, (pbind_ok _ _ _ _ _ (write_blocks_new (c_name h) (blocks data) _ _ _ [])), concat_blocks. cbn [app].
  erewrite syscall_bind by done. cbn [world output deferments inodes]. rewrite written_closed by done.
  by rewrite (pbind_ok _ _ _ _ _ (set_attributes_new h _ _ _ _ _)).
Qed.

(** All but the files with several names. *)
Lemma simple_entry e s : tree_entry e → linked e = false → output s = [] → cur (world s) = None → dents (world s) !! name_of_entry e = None →
  extract_entry e s = Ret (tt, mk_core [] (deferments s) (inodes s) (add_node (name_of_entry e) (node_of e) (world s))).
Proof using Type.
  destruct e as [h data]. intros [Hf Hsz Ht Hdir Hsp _] Hl Ho Hc Hfresh. unfold linked, node_of, kind_of, is_special, type in *. cbn [fst snd] in *.
  unfold extract_entry. rewrite (pbind_ok _ _ _ _ _ (remove_fresh h s Hfresh)). cbn [negb]. cbv zeta. set (ty := Z.land (c_mode h) S_IFMT) in *.
  destruct (Z.eqb_spec ty S_IFREG) as [-> | Hreg].
  - cbn [andb] in Hl. unfold extract_regular. rewrite Hl, contents_new, Hl by done. rewrite with_header_fields by done. done.
  - destruct (Z.eqb_spec ty S_IFDIR) as [-> | Hnd].
    + destruct (Hdir eq_refl) as [Hstrip Hdot]. unfold copyin_directory. cbv zeta. rewrite Hstrip. replace (set_name (c_name h) h) with h by by destruct h.
      rewrite bool_decide_eq_false_2 by done. unfold mret at 1. erewrite syscall_bind by by apply create_fresh.
      cbv beta iota. rewrite set_attributes_new, with_header_fields, Ho by done. done.
    + destruct ((ty =? S_IFCHR) || (ty =? S_IFBLK) || (ty =? S_IFSOCK) || (ty =? S_IFIFO)) eqn:Hspec.
      * unfold copyin_device. rewrite (proj2 (Z.ltb_ge _ _)) by by apply Hsp. erewrite pbind_ok by done. cbv beta. change (-1 =? 0) with false. cbv iota.
        erewrite syscall_bind by by apply create_fresh. cbv beta iota. rewrite set_attributes_new, with_header_fields, Ho by done.
        assert (in_u 32 (c_mode h)) as Hm by (field_range). rewrite (wrapu_small 32 (c_mode h)) by done. fold ty.
        destruct (Z.eqb_spec ty S_IFLNK) as [E |]; [by rewrite E in Hspec |]. done.
      * destruct Ht as [? | [? | [? | Hlnk]]]; [done | done | congruence |]. rewrite Hlnk, Z.eqb_refl. unfold make_symlink. erewrite syscall_bind by by apply create_fresh.
        cbv beta iota. erewrite syscall_bind by apply change_new. cbn [output deferments inodes world]. rewrite Ho. unfold set_owner. cbn [node_kind perm].
        assert (in_u 32 (c_uid h) ∧ in_u 32 (c_gid h)) as (Hu & Hg) by (split; field_range).
        rewrite !wrapu_small by done. done.
Qed.
(** ** Files with several names *)

Context (Hdev : 0 <= maj < 2 ^ 31 ∧ 0 <= min < 2 ^ 31).

Lemma key_linked e d : linked d = true → key e = key d → linked e = true ∧ c_ino e.1 = c_ino d.1.
Proof using Type. unfold key. intros ->. destruct (linked e); [| done]. by intros [= ->]. Qed.

(** The numbers of a linked file do not change when they become [int]s. *)
Lemma linked_numbers e : tree_entry e → linked e = true →
  u64 (s32 (c_ino e.1)) = c_ino e.1 ∧ s32 (c_dev_maj e.1) = maj ∧ s32 (c_dev_min e.1) = min ∧ u64 maj = maj ∧ u64 min = min.
Proof using Hdev.
  intros [Hf _ _ _ _ Hl] Hlinked. destruct (Hl Hlinked) as (Hi & Hmaj & Hmin). assert (in_u 32 (c_ino e.1)) as Hr by field_range.
  unfold in_u in Hr. rewrite Hmaj, Hmin. rewrite !(wraps_small 32) by (done || unfold in_s; lia). rewrite !(wrapu_small 64) by (unfold in_u; lia). done.
Qed.

Lemma link_header_numbers e : tree_entry e → linked e = true →
  link_header (W := fs) e.1 = (s ← get_st;
    link_name ← of_option (find_inode_file (inodes s) (c_ino e.1) maj min);
    match link_name with
    | None => h ← of_option (add_inode (inodes s) (c_ino e.1) (name_of_entry e) maj min); set_inodes h;; mret (-1)
    | Some name => link_to_name (name_of_entry e) name
    end).
Proof using Hdev.
  intros He Hl. destruct (linked_numbers e He Hl) as (H1 & H2 & H3 & H4 & H5). unfold link_header, link_to_maj_min_ino. cbv zeta. by rewrite H1, H2, H3, H4, H5.
Qed.

Lemma linked_inodes G : NoDup (key <$> G) → NoDup (inode <$> (inode_of <$> linked_only G)).
Proof using Type.
  induction G as [| e G IH]; [constructor |]. rewrite fmap_cons. intros [Hn Hnd]%NoDup_cons. rewrite filter_cons. destruct (decide (linked e = true)) as [He |]; [| by apply IH].
  rewrite !fmap_cons. apply NoDup_cons. split; [| by apply IH]. cbn [inode inode_of]. intros (v & Hv & (d & -> & [Hl Hd]%list_elem_of_filter)%list_elem_of_fmap)%list_elem_of_fmap.
  apply Hn, list_elem_of_fmap. exists d. split; [| done]. unfold key. rewrite Hl, He. cbn [inode inode_of] in Hv. by f_equal.
Qed.

(** The name of the file with the key of [e]. *)
Lemma good_find L D G s ino : good L D G s → find_inode_file (inodes s) ino maj min = Some (name_of (inode_of <$> linked_only G) ino).
Proof using Hdev.
  intros Hg. apply find_inode_ok; [apply (g_hash _ _ _ _ Hg) | by apply linked_inodes, (g_keys _ _ _ _ Hg) |].
  intros v (d & -> & _)%list_elem_of_fmap. unfold device_is. cbn. by rewrite !Z.eqb_refl.
Qed.

Lemma link_new L D G s e : good L D G s → tree_entry e → linked e = true → key e ∉ key <$> G → Z.of_nat (length G) < 2 ^ 28 →
  ∃ h', link_header e.1 s = Ret (-1, mk_core (output s) (deferments s) h' (world s)) ∧ holds_inodes h' (inode_of <$> linked_only (G ++ [e])).
Proof using Hdev.
  intros Hg He Hl Hk Hlen. rewrite link_header_numbers by done. unfold get_st. erewrite pbind_ok by done. cbv beta.
  rewrite (good_find _ _ _ _ _ Hg), name_of_none.
  - destruct (add_inode_ok (inodes s) _ (c_ino e.1) (name_of_entry e) maj min (g_hash _ _ _ _ Hg)) as (h' & E & Hh').
    { rewrite length_fmap. pose proof (length_filter (λ e, linked e = true) G). lia. }
    exists h'. rewrite E. split; [done |]. rewrite filter_app, fmap_app. by rewrite (filter_cons_True _ e []), filter_nil by done.
  - intros v (d & -> & [Hd HdG]%list_elem_of_filter)%list_elem_of_fmap. cbn. intros E. apply Hk, list_elem_of_fmap. exists d. split; [| done]. unfold key. by rewrite Hl, Hd, E.
Qed.

Lemma link_to_name_new n target i s : dents (world s) !! target = Some i → dents (world s) !! n = None →
  link_to_name n target s = Ret (0, mk_core (output s) (deferments s) (inodes s) (mk_fs (<[n := i]> (dents (world s))) (nodes (world s)) (next (world s)) (cur (world s)))).
Proof using Type.
  intros Ht Hn. unfold link_to_name. by erewrite syscall_bind by (cbn [fs_sys]; unfold fs_link; by rewrite Ht, Hn).
Qed.

Lemma link_old L D G s e i lead : good L D G s → tree_entry e → linked e = true → name_of_entry e ∉ names L → G !! i = Some lead → key lead = key e →
  link_header e.1 s = Ret (0, mk_core [] (deferments s) (inodes s) (mk_fs (<[name_of_entry e := i]> (dents (world s))) (nodes (world s)) (next (world s)) (cur (world s)))).
Proof using Hdev.
  intros Hg He Hl Hn Hi Hk. rewrite link_header_numbers by done. unfold get_st. erewrite pbind_ok by done. cbv beta. rewrite (good_find _ _ _ _ _ Hg).
  destruct (key_linked lead e Hl Hk) as [Hll Hino]. rewrite <- Hino. change (c_ino lead.1) with (inode (inode_of lead)).
  rewrite name_of_some; [| by apply linked_inodes, (g_keys _ _ _ _ Hg) |].
  - erewrite pbind_ok by done. cbv beta iota. rewrite <- (g_out _ _ _ _ Hg). apply link_to_name_new; [| by eapply good_fresh].
    eapply (good_lookup _ _ _ _ lead); [done | | done | done]. eapply (g_sub _ _ _ _ Hg), list_elem_of_lookup_2. done.
  - apply list_elem_of_fmap_2, list_elem_of_filter. split; [done |]. by eapply list_elem_of_lookup_2.
Qed.
Lemma good_defer L D D' G s : good L D G s → good L D' G (mk_core (output s) D'.*1 (inodes s) (world s)).
Proof using Type. intros []. by split. Qed.

Lemma hollow_linked e : hollow e = true → linked e = true.
Proof using Type. unfold hollow. by intros [? _]%andb_prop. Qed.

Lemma same_file_key e d : tree_entry e → tree_entry d → linked e = true → linked d = true → same_file e.1 d.1 = bool_decide (key d = key e).
Proof using Hdev.
  intros He Hd Hle Hld. destruct (linked_numbers e He Hle) as (H1 & H2 & H3 & _).
  unfold same_file, key. rewrite Hle, Hld, H1, H2, H3. destruct (te_linked _ Hd Hld) as (_ & -> & ->). rewrite !(wraps_small 64) by (done || unfold in_s; lia).
  rewrite !Z.eqb_refl, !andb_true_r. destruct (Z.eqb_spec (c_ino d.1) (c_ino e.1)) as [-> | Hne]; [by rewrite bool_decide_eq_true_2 |].
  rewrite bool_decide_eq_false_2; [done |]. by intros [= ?].
Qed.

(** The deferred names of a file that was just created become links to it. *)
Lemma deferred_run e i D0 G : G !! i = Some e → tree_entry e → linked e = true → ∀ D L s, good L D0 G s →
  (∀ d, d ∈ D → tree_entry d ∧ hollow d = true) → NoDup (names (L ++ D)) →
  ∃ s', defered_loop e.1 D.*1 s = Ret ((filter (λ d, key d ≠ key e) D).*1, s') ∧ good (L ++ filter (λ d, key d = key e) D) D0 G s'.
Proof using Hdev.
  intros Hi He Hl. induction D as [| d D IH]; intros L s Hg HD Hnd.
  { exists s. rewrite !filter_nil, app_nil_r. done. }
  destruct (HD d) as [Hd Hh]; [left |]. assert (∀ d, d ∈ D → tree_entry d ∧ hollow d = true) as HD' by (intros x Hx; apply HD; by right).
  pose proof (hollow_linked _ Hh) as Hld. rewrite fmap_cons. cbn [defered_loop]. rewrite same_file_key by done.
  assert (name_of_entry d ∉ names L) as Hfresh.
  { rewrite fmap_app, fmap_cons in Hnd. apply NoDup_app in Hnd as (_ & Hnd & _). intros Hin. apply (Hnd _ Hin). left. }
  destruct (decide (key d = key e)) as [Hk | Hk].
  - rewrite bool_decide_eq_true_2, (filter_cons_True (λ d, key d = key e)), (filter_cons_False (λ d, key d ≠ key e)) by auto.
    assert (dents (world s) !! name_of_entry e = Some i) as Hde by (eapply good_lookup; [done | eapply (g_sub _ _ _ _ Hg), list_elem_of_lookup_2, Hi | done | done]).
    rewrite (pbind_ok _ _ _ _ _ (link_to_name_new _ _ _ _ Hde (good_fresh _ _ _ _ _ Hg Hfresh))).
    pose proof (good_link _ _ _ _ d i e D0 Hg Hfresh Hi (eq_sym Hk) Hh) as Hg1. rewrite <- (g_def _ _ _ _ Hg), <- (g_out _ _ _ _ Hg) in Hg1.
    destruct (IH _ _ Hg1 HD') as (s' & E & Hs'); [by rewrite <- app_assoc |]. exists s'. split; [done |]. by rewrite <- app_assoc in Hs'.
  - rewrite bool_decide_eq_false_2, (filter_cons_False (λ d, key d = key e)), (filter_cons_True (λ d, key d ≠ key e)) by auto. destruct (IH L s Hg HD') as (s' & E & Hs').
    { apply (sublist_NoDup _ (names (L ++ d :: D))); [done |]. rewrite !fmap_app, fmap_cons. apply sublist_app; [done |]. by apply sublist_cons. }
    exists s'. by rewrite (pbind_ok _ _ _ _ _ E).
Qed.

Lemma defered_links_run e i L D G s : G !! i = Some e → tree_entry e → linked e = true → good L D G s →
  (∀ d, d ∈ D → tree_entry d ∧ hollow d = true) → NoDup (names (L ++ D)) →
  ∃ s', create_defered_links e.1 s = Ret (tt, s') ∧ good (L ++ filter (λ d, key d = key e) D) (filter (λ d, key d ≠ key e) D) G s'.
Proof using Hdev.
  intros Hi He Hl Hg HD Hnd. unfold create_defered_links, get_st. erewrite pbind_ok by done. cbv beta. rewrite (g_def _ _ _ _ Hg).
  destruct (deferred_run e i D G Hi He Hl D L s Hg HD Hnd) as (s' & E & Hs'). rewrite (pbind_ok _ _ _ _ _ E).
  eexists. split; [done |]. by eapply good_defer.
Qed.

Lemma final_create d s : tree_entry d → hollow d = true → cur (world s) = None → dents (world s) !! name_of_entry d = None →
  (e ← syscall (Open (name_of_entry d));
   match e with
   | Some _ => mret tt
   | None =>
       _ ← syscall (Fchown (u32 (c_uid d.1)) (u32 (c_gid d.1)));
       _ ← syscall (Fchmod (u32 (c_mode d.1)));
       _ ← syscall Close;
       mret tt
   end) s = Ret (tt, mk_core (output s) (deferments s) (inodes s) (add_node (name_of_entry d) (node_of d) (world s))).
Proof using Type.
  intros Hd Hh Hc Hf. assert (node_of d = with_header d.1 (mk_node (Regular []) 0x180 0 0)) as ->.
  { rewrite with_header_fields by apply Hd. unfold hollow, linked in Hh. apply andb_prop in Hh as [[Hty _]%andb_prop Hz]. apply Z.eqb_eq in Hty, Hz.
    unfold node_of, kind_of. rewrite Hty. cbn. rewrite (te_size _ Hd) in Hz. by destruct (d.2). }
  erewrite syscall_bind by by apply open_fresh. cbv beta iota. erewrite syscall_bind by apply change_opened. cbv beta. erewrite syscall_bind by apply change_opened.
  cbv beta. erewrite syscall_bind by done. unfold set_cur at 1, add_node. cbn [dents nodes next cur]. unfold mret, prog_ret. by rewrite Hc.
Qed.

(** What is left at the end. *)
Lemma final_run D0 : ∀ D L G s, good L D0 G s → (∀ d, d ∈ D → tree_entry d ∧ hollow d = true) → NoDup (names (L ++ D)) →
  Z.of_nat (length L + length D) <= 2 ^ 28 → ∃ G' s', final_loop D.*1 s = Ret (tt, s') ∧ good (L ++ D) D0 G' s'.
Proof using Hdev.
  induction D as [| d D IH]; intros L G s Hg HD Hnd Hlen; [exists G, s; by rewrite app_nil_r |].
  destruct (HD d) as [Hd Hh]; [left |]. assert (∀ d, d ∈ D → tree_entry d ∧ hollow d = true) as HD' by (intros x Hx; apply HD; by right).
  pose proof (hollow_linked _ Hh) as Hld. rewrite fmap_cons. cbn [final_loop length] in *.
  assert (name_of_entry d ∉ names L) as Hfresh.
  { rewrite fmap_app, fmap_cons in Hnd. apply NoDup_app in Hnd as (_ & Hnd & _). intros Hin. apply (Hnd _ Hin). left. }
  replace (L ++ d :: D) with ((L ++ [d]) ++ D) in * by by rewrite <- app_assoc.
  destruct (decide (key d ∈ key <$> G)) as [(lead & Hk & [i Hi]%list_elem_of_lookup)%list_elem_of_fmap | Hk].
  - rewrite (pbind_ok _ _ _ _ _ (link_old _ _ _ _ _ _ _ Hg Hd Hld Hfresh Hi (eq_sym Hk))). change (0 =? 0) with true. cbv iota. erewrite pbind_ok by done.
    pose proof (good_link _ _ _ _ d i lead D0 Hg Hfresh Hi (eq_sym Hk) Hh) as Hg1. rewrite <- (g_def _ _ _ _ Hg) in Hg1.
    apply (IH _ _ _ Hg1); [done | done | rewrite length_app; simpl; lia].
  - destruct (link_new _ _ _ _ d Hg Hd Hld Hk) as (h' & E & Hh'); [pose proof (g_size _ _ _ _ Hg); lia |].
    rewrite (pbind_ok _ _ _ _ _ E). change (-1 =? 0) with false. cbv iota.
    pose proof (good_place _ _ _ _ d h' Hg Hfresh Hk Hh') as Hg1. rewrite <- (g_out _ _ _ _ Hg) in Hg1.
    erewrite pbind_ok by (apply (final_create d); [done | done | apply (g_cur _ _ _ _ Hg) | by apply (good_fresh _ _ _ _ _ Hg)]).
    apply (IH _ _ _ Hg1); [done | done | rewrite length_app; simpl; lia].
Qed.
(** ** All the entries *)

Record phase (es L D G rest : list entry) : Prop := {
  ph_suffix : ∃ pre, es = pre ++ rest;
  ph_perm : L ++ D ++ rest ≡ₚ es;
  ph_hollow d : d ∈ D → hollow d = true;
  ph_keys g e : g ∈ G → e ∈ rest → key g ≠ key e;
}.

(** The key of an entry with its data does not come again. *)
Lemma key_last es pre e rest e' : tree_ok es → es = pre ++ e :: rest → hollow e = false → e' ∈ rest → key e ≠ key e'.
Proof using Type.
  intros Hes E Hh He'. unfold key. destruct (linked e) eqn:Hl, (linked e') eqn:Hl'; try done.
  - intros [= Hino]. by apply (to_data _ Hes pre e rest e').
  - intros [= Hn]. pose proof (to_names _ Hes) as Hnd. rewrite E, fmap_app, fmap_cons in Hnd. apply NoDup_app in Hnd as (_ & _ & [Hnd _]%NoDup_cons).
    apply Hnd. rewrite Hn. by apply (list_elem_of_fmap_2 (λ e, name_of_entry e)).
Qed.

Section step.
Context (es L D G rest : list entry) (e : entry) (s : core fs).
Context (Hes : tree_ok es) (Hp : phase es L D G (e :: rest)) (Hg : good L D G s).

Lemma step_suffix : ∃ pre, es = pre ++ rest.
Proof using Hp. destruct (ph_suffix _ _ _ _ _ Hp) as [pre E]. exists (pre ++ [e]). by rewrite E, <- app_assoc. Qed.
Lemma step_entry x : x ∈ L ++ D ++ e :: rest → tree_entry x.
Proof using Hes Hp. rewrite (ph_perm _ _ _ _ _ Hp). intros Hx. by apply (proj1 (Forall_forall _ _) (to_entries _ Hes)). Qed.
Lemma step_this : tree_entry e.
Proof using Hes Hp. apply step_entry. rewrite !elem_of_app. do 2 right. left. Qed.
Lemma step_names : NoDup (names ((L ++ [e]) ++ D)).
Proof using Hes Hp.
  assert (names ((L ++ [e]) ++ D) ++ names rest ≡ₚ names es) as HP; [| assert (NoDup (names ((L ++ [e]) ++ D) ++ names rest)) as [? _]%NoDup_app by (rewrite HP; apply Hes); done].
  rewrite <- fmap_app. apply fmap_Permutation. rewrite <- (ph_perm _ _ _ _ _ Hp). rewrite <- !app_assoc. cbn [app]. f_equiv. by rewrite Permutation_middle.
Qed.
Lemma step_fresh : name_of_entry e ∉ names L.
Proof using Hes Hp.
  pose proof step_names as Hnd. rewrite !fmap_app in Hnd. apply NoDup_app in Hnd as (Hnd & _). apply NoDup_app in Hnd as (_ & Hnd & _).
  intros Hin. apply (Hnd _ Hin). left.
Qed.
Lemma step_key : key e ∉ key <$> G.
Proof using Hp. intros (g & Hk & Hin)%list_elem_of_fmap. apply (ph_keys _ _ _ _ _ Hp g e); [exact Hin | left | exact (eq_sym Hk)]. Qed.
Lemma step_size : Z.of_nat (length G) < 2 ^ 28.
Proof using Hes Hg Hp.
  pose proof (to_length _ Hes). pose proof (g_size _ _ _ _ Hg). pose proof (Permutation_length (ph_perm _ _ _ _ _ Hp)) as HL. rewrite !length_app in HL. cbn [length] in HL. lia.
Qed.
Lemma step_keys : hollow e = false → ∀ g x, g ∈ G ++ [e] → x ∈ rest → key g ≠ key x.
Proof using Hes Hp.
  intros Hh g x [Hin | ->%list_elem_of_singleton]%elem_of_app Hx; [apply (ph_keys _ _ _ _ _ Hp); [done | by right] |].
  destruct (ph_suffix _ _ _ _ _ Hp) as [pre E]. by eapply key_last.
Qed.

Lemma step_simple : linked e = false → ∃ L' D' G' s', extract_entry e s = Ret (tt, s') ∧ good L' D' G' s' ∧ phase es L' D' G' rest.
Proof using Hes Hg Hp.
  intros Hl. exists (L ++ [e]), D, (G ++ [e]). eexists. split_and!.
  - apply simple_entry; [apply step_this | done | apply (g_out _ _ _ _ Hg) | apply (g_cur _ _ _ _ Hg) | by apply (good_fresh _ _ _ _ _ Hg), step_fresh].
  - apply good_place; [done | apply step_fresh | apply step_key |]. rewrite filter_app, (filter_cons_False _ e []), filter_nil, app_nil_r by congruence. apply (g_hash _ _ _ _ Hg).
  - split; [apply step_suffix | | apply (ph_hollow _ _ _ _ _ Hp) | apply step_keys; unfold hollow; by rewrite Hl].
    rewrite <- (ph_perm _ _ _ _ _ Hp). rewrite <- !app_assoc. cbn [app]. f_equiv. by rewrite Permutation_middle.
Qed.

Lemma linked_regular : linked e = true → (Z.land (c_mode e.1) S_IFMT =? S_IFREG) = true ∧ (1 <? c_nlink e.1) = true.
Proof using Type. unfold linked, type. by intros [? ?]%andb_prop. Qed.

Lemma linked_entry : linked e = true → extract_entry e s = extract_regular e.1 e.2 s.
Proof using Hes Hg Hp.
  intros [Hty _]%linked_regular. pose proof (good_fresh _ _ _ _ _ Hg step_fresh) as Hf. destruct e as [h data]. cbn [fst snd] in *.
  unfold extract_entry. rewrite (pbind_ok _ _ _ _ _ (remove_fresh h s Hf)). cbn [negb]. cbv zeta. by rewrite Hty.
Qed.

Lemma step_hollow : hollow e = true → ∃ L' D' G' s', extract_entry e s = Ret (tt, s') ∧ good L' D' G' s' ∧ phase es L' D' G' rest.
Proof using Hes Hg Hp.
  intros Hh. pose proof (hollow_linked _ Hh) as Hl. exists L, (e :: D), G. eexists. split_and!.
  - rewrite linked_entry by done. unfold extract_regular. rewrite (proj2 (linked_regular Hl)). unfold hollow in Hh. apply andb_prop in Hh as [_ ->]. done.
  - rewrite (g_def _ _ _ _ Hg). by apply (good_defer _ D (e :: D)).
  - split; [apply step_suffix | | |].
    + rewrite <- (ph_perm _ _ _ _ _ Hp). f_equiv. cbn [app]. by rewrite Permutation_middle.
    + intros d [-> | Hd]%elem_of_cons; [done |]. by apply (ph_hollow _ _ _ _ _ Hp).
    + intros g x Hin Hx. apply (ph_keys _ _ _ _ _ Hp); [done | by right].
Qed.

Lemma step_data : linked e = true → hollow e = false → ∃ L' D' G' s', extract_entry e s = Ret (tt, s') ∧ good L' D' G' s' ∧ phase es L' D' G' rest.
Proof using Hdev Hes Hg Hp.
  intros Hl Hh. pose proof (good_fresh _ _ _ _ _ Hg step_fresh) as Hf.
  destruct (link_new _ _ _ _ e Hg step_this Hl step_key step_size) as (h' & E & Hh').
  pose proof (good_place _ _ _ _ e h' Hg step_fresh step_key Hh') as Hg1.
  destruct (defered_links_run e (length G) _ D _ _ (list_lookup_middle _ _ _ _ eq_refl) step_this Hl Hg1) as (s' & E' & Hs').
  { intros d Hd. split; [apply step_entry; rewrite !elem_of_app; auto | by apply (ph_hollow _ _ _ _ _ Hp)]. }
  { apply step_names. }
  exists ((L ++ [e]) ++ filter (λ d, key d = key e) D), (filter (λ d, key d ≠ key e) D), (G ++ [e]), s'. split_and!; [| done |].
  - rewrite linked_entry by done. unfold extract_regular. rewrite (proj2 (linked_regular Hl)). assert ((c_filesize e.1 =? 0) = false) as -> by (unfold hollow in Hh; by rewrite Hl in Hh).
    rewrite (pbind_ok _ _ _ _ _ E). change (-1 =? 0) with false. cbv iota. rewrite contents_new; [| apply (g_out _ _ _ _ Hg) | apply (g_cur _ _ _ _ Hg) | done].
    rewrite (proj2 (linked_regular Hl)), with_header_fields by apply step_this. unfold node_of, kind_of in E'. unfold type in E'. rewrite (proj1 (linked_regular Hl)) in E'.
    rewrite (proj1 (Z.eqb_eq _ _) (proj1 (linked_regular Hl))) in E'. done.
  - split; [apply step_suffix | | | by apply step_keys].
    + rewrite <- (ph_perm _ _ _ _ _ Hp). rewrite <- !app_assoc. f_equiv. rewrite (app_assoc (filter _ D)), (filter_app_complement (λ d, key d = key e) D). cbn [app]. by rewrite Permutation_middle.
    + intros d [_ Hd]%list_elem_of_filter. by apply (ph_hollow _ _ _ _ _ Hp).
Qed.
End step.
Lemma step_any es L D G rest e s : tree_ok es → phase es L D G (e :: rest) → good L D G s →
  ∃ L' D' G' s', extract_entry e s = Ret (tt, s') ∧ good L' D' G' s' ∧ phase es L' D' G' rest.
Proof using Hdev.
  intros Hes Hp Hg. destruct (linked e) eqn:Hl; [destruct (hollow e) eqn:Hh |]; [by eapply step_hollow | by eapply step_data | by eapply step_simple].
Qed.

Lemma entries_run es : tree_ok es → ∀ rest L D G s, phase es L D G rest → good L D G s →
  ∃ L' D' G' s', extract_entries rest s = Ret (tt, s') ∧ good L' D' G' s' ∧ phase es L' D' G' [].
Proof using Hdev.
  intros Hes. induction rest as [| e rest IH]; intros L D G s Hp Hg; [by exists L, D, G, s |].
  destruct (step_any _ _ _ _ _ _ _ Hes Hp Hg) as (L1 & D1 & G1 & s1 & E & Hg1 & Hp1). cbn [extract_entries]. rewrite (pbind_ok _ _ _ _ _ E). by apply (IH L1 D1 G1).
Qed.

(** At the end all the names exist. *)
Lemma tree_run es : tree_ok es → ∃ L G D s', extract es (mk_core [] [] no_inodes empty_fs) = Ret (tt, s') ∧ L ≡ₚ es ∧ good L D G s'.
Proof using Hdev.
  intros Hes. destruct (entries_run es Hes es [] [] [] (mk_core [] [] no_inodes empty_fs)) as (L & D & G & s & E & Hg & Hp); [| apply good_empty |].
  { split; [by exists [] | done | by intros d ?%not_elem_of_nil | by intros g e ?%not_elem_of_nil]. }
  pose proof (ph_perm _ _ _ _ _ Hp) as HP. rewrite app_nil_r in HP. unfold extract. rewrite (pbind_ok _ _ _ _ _ E). unfold create_final_defers, get_st. erewrite pbind_ok by done. cbv beta.
  rewrite (g_def _ _ _ _ Hg). destruct (final_run D D L G s Hg) as (G' & s' & E' & Hg').
  - intros d Hd. split; [| by apply (ph_hollow _ _ _ _ _ Hp)]. apply (proj1 (Forall_forall _ _) (to_entries _ Hes)). rewrite <- HP. apply elem_of_app. by right.
  - rewrite HP. apply Hes.
  - pose proof (to_length _ Hes) as Hlen. rewrite <- (Permutation_length HP), length_app in Hlen. done.
  - by exists (L ++ D), G', D, s'.
Qed.
End tree.

(** What the files of an archive are when it has been extracted. *)
Record restored (es : list entry) (w : fs) : Prop := {
  re_names n : is_Some (dents w !! n) ↔ n ∈ ((λ e : entry, name_of_entry e) <$> es);
  re_files e : e ∈ es → ∃ i lead, find_node (name_of_entry e) w = Some (i, node_of lead) ∧ lead ∈ es ∧ key lead = key e;
  re_data e : e ∈ es → hollow e = false → ∃ i, find_node (name_of_entry e) w = Some (i, node_of e);
  re_links e e' : e ∈ es → e' ∈ es → dents w !! name_of_entry e = dents w !! name_of_entry e' ↔ key e = key e';
}.

Lemma good_restored maj min L D G es s : good maj min L D G s → L ≡ₚ es → restored es (world s).
Proof.
  intros Hg HL.
  assert (∀ e, e ∈ es → ∃ i lead, dents (world s) !! name_of_entry e = Some i ∧ G !! i = Some lead ∧ key lead = key e) as Hlead.
  { intros e He. rewrite <- HL in He. destruct (g_lead _ _ _ _ _ _ Hg e He) as (i & lead & Hi & Hk). exists i, lead. split; [by eapply good_lookup | done]. }
  assert (∀ n i lead, dents (world s) !! n = Some i → G !! i = Some lead → find_node n (world s) = Some (i, node_of lead)) as Hfind.
  { intros n i lead Hn Hi. unfold find_node. rewrite Hn. cbn [mbind option_bind]. by rewrite (g_nodes _ _ _ _ _ _ Hg), Hi. }
  split.
  - intros n. split.
    + intros [i (e & lead & He & <- & _)%(g_dents _ _ _ _ _ _ Hg)]. rewrite <- HL. by apply (list_elem_of_fmap_2 (λ e, name_of_entry e)).
    + intros (e & -> & He)%list_elem_of_fmap. destruct (Hlead e He) as (i & lead & Hi & _). by exists i.
  - intros e He. destruct (Hlead e He) as (i & lead & Hi & Hl & Hk). exists i, lead. split_and!; [by apply Hfind | | done].
    rewrite <- HL. eapply (g_sub _ _ _ _ _ _ Hg), list_elem_of_lookup_2, Hl.
  - intros e He Hh. rewrite <- HL in He. destruct (proj1 (list_elem_of_lookup _ _) (g_full _ _ _ _ _ _ Hg e He Hh)) as [i Hi]. exists i. apply Hfind; [| done]. by eapply good_lookup.
  - intros e e' He He'. destruct (Hlead e He) as (i & lead & Hi & Hl & Hk). destruct (Hlead e' He') as (i' & lead' & Hi' & Hl' & Hk'). rewrite Hi, Hi', <- Hk, <- Hk'. split.
    + intros [= ->]. congruence.
    + intros E. f_equal. eapply (NoDup_lookup _ _ _ _ (g_keys _ _ _ _ _ _ Hg)); rewrite list_lookup_fmap; [by rewrite Hl | by rewrite Hl', E].
Qed.

(** C15.  An archive of files of one device is restored: extracted into an
    empty file system, however [read] divides the input and whatever lies
    between the entries, exactly the names of the archive exist; a directory,
    device, symbolic link or file has the kind, contents, permissions and owner
    that the archive says; and two names are links to one file exactly if the
    archive gives them the same inode, although their data come only with the
    last of them. *)
Theorem archive_restored read_size maj min l last t rest : (∀ k, read_size k ≠ None) → archive_ok l last → tree_ok maj min l.*2 →
  stream t = archive_text l last ++ rest →
  ∃ t' s', process_copy_in read_size (t, mk_core [] [] no_inodes empty_fs) = Ret (tt, (t', s')) ∧ stream t' = rest ∧ restored l.*2 (world s').
Proof.
  intros Hr Ha Htree Ht. destruct (tree_run maj min (to_device _ _ _ Htree) l.*2 Htree) as (L & G & D & s' & E & HL & Hg).
  pose proof (process_copy_in_runs read_size Hr l last Ha t _ rest Ht (eq_refl : output (mk_core [] [] no_inodes empty_fs) = [])) as Hruns.
  rewrite E in Hruns. destruct Hruns as (_ & t' & ? & ?). exists t', s'. split_and!; [done | done |]. by eapply good_restored.
Qed.

(** A directory, two names of one file of which the second has the data, a
    symbolic link and a device. *)
Definition example_tree : list entry :=
  [(mk_header 1 0x41ed 0 0 2 0 0 8 1 0 0 2 0 (text "d"), []);
   (mk_header 7 0x81a4 0 5 2 0 0 8 1 0 0 4 0 (text "d/x"), []);
   (mk_header 7 0x81a4 0 5 2 0 3 8 1 0 0 2 0 (text "y"), text "hi!");
   (mk_header 8 0xa1ff 0 0 1 0 1 8 1 0 0 2 0 (text "l"), text "y");
   (mk_header 9 0x21b6 0 0 1 0 0 8 1 1 3 2 0 (text "n"), [])].

Definition example_archive : list (list Z * entry) := pair [] <$> example_tree.

Lemma archive_restored_witness : ∃ t' s',
  process_copy_in (λ _, Some 100%nat) (mk_tape [] (archive_text example_archive ([], example_trailer)) 0, mk_core [] [] no_inodes empty_fs) = Ret (tt, (t', s')) ∧
  stream t' = [] ∧ find_node (text "d/x") (world s') = find_node (text "y") (world s') ∧
  ∃ i, find_node (text "y") (world s') = Some (i, mk_node (Regular (text "hi!")) 0x1a4 0 5).
Proof.
  assert (archive_ok example_archive ([], example_trailer)) as Ha.
  { split; [| split_and!; [split; try (apply (bool_decide_unpack _); vm_compute; exact I); reflexivity | intros i Hi; cbn [fst length] in Hi; lia | reflexivity]].
    unfold example_archive, example_tree. repeat (rewrite fmap_cons; apply Forall_cons; split; [| try apply Forall_nil; try exact I]).
    all: split; [split; [split |..] | intros i Hi; cbn [fst length] in Hi; lia]; try (apply (bool_decide_unpack _); vm_compute; exact I); try reflexivity; try discriminate. }
  assert (example_archive.*2 = example_tree) as Etree by reflexivity.
  assert (tree_ok 8 1 example_tree) as Ht.
  { split; [| apply (bool_decide_unpack _); vm_compute; exact I | | discriminate | split; split; (reflexivity || discriminate)].
    - unfold example_tree. repeat (apply Forall_cons; split; [| try apply Forall_nil; try exact I]); split; try (apply (bool_decide_unpack _); vm_compute; exact I); try reflexivity; try discriminate.
      all: intros _; split_and!; (reflexivity || discriminate).
    - intros pre e post e' E Hl Hh He' Hl' _. unfold example_tree in E.
      do 5 (destruct pre as [| ? pre]; [cbn [app] in E; injection E as <- <-; 
          first [discriminate Hl | discriminate Hh | repeat (apply elem_of_cons in He' as [-> | He']; [discriminate Hl' |]); by apply not_elem_of_nil in He']
        | cbn [app] in E; injection E as _ E]).
      destruct pre; discriminate E. }
  destruct (archive_restored (λ _, Some 100%nat) 8 1 example_archive ([], example_trailer) (mk_tape [] (archive_text example_archive ([], example_trailer)) 0) [])
    as (t' & s' & E & Hs & [_ _ Hdata Hlinks]); [discriminate | exact Ha | rewrite Etree; exact Ht | by rewrite app_nil_r |].
  exists t', s'. rewrite Etree in Hdata, Hlinks. split_and!; [exact E | exact Hs | |].
  - unfold find_node. destruct (Hlinks _ _ (list_elem_of_lookup_2 example_tree 1 _ eq_refl) (list_elem_of_lookup_2 example_tree 2 _ eq_refl)) as [_ Hkey].
    specialize (Hkey eq_refl). cbn [fst c_name] in Hkey. rewrite Hkey. reflexivity.
  - exact (Hdata _ (list_elem_of_lookup_2 example_tree 2 _ eq_refl) eq_refl).
Defined.
