(* ===== verification/Dd.v ===== *)
(** * Copying with conversion: [utils/dd.c]

    [parse_options] splits the operands and sets the static variables;
    [do_dd] reads blocks of [ibs] bytes, converts each and writes blocks of
    [obs] bytes.  The input file delivers at each [read] at most what was
    asked for; the output file takes everything (the code does not look at
    the result of [write]).

    The theorems: the blocks written are those of the concatenation of the
    converted blocks that were read; without conversions the output is the
    input behind [skip] blocks; the operands mean what their text says. *)

From stdpp Require Import base numbers list strings.
From Stdlib Require Import Lia.
From S2P Require Import Prelude Memory Ctype Numparse Ipconfig Prog.

#[local] Set Warnings "-register-all".

(** ** Operands *)

Definition CONV_BLOCK : Z := 1.
Definition CONV_UNBLOCK : Z := 2.
Definition CONV_LCASE : Z := 4.
Definition CONV_UCASE : Z := 8.
Definition CONV_SWAB : Z := 16.
Definition CONV_NOERROR : Z := 32.
Definition CONV_NOTRUNC : Z := 64.
Definition CONV_SYNC : Z := 128.

Definition option_names : list (list Z) :=
  text <$> ["bs"; "cbs"; "conv"; "count"; "ibs"; "if"; "obs"; "of"; "seek"; "skip"]%string.
Definition OPT_BS : nat := 0.
Definition OPT_CBS : nat := 1.
Definition OPT_CONV : nat := 2.
Definition OPT_COUNT : nat := 3.
Definition OPT_IBS : nat := 4.
Definition OPT_IF : nat := 5.
Definition OPT_OBS : nat := 6.
Definition OPT_OF : nat := 7.
Definition OPT_SEEK : nat := 8.
Definition OPT_SKIP : nat := 9.

Record conv_opt := mk_conv { conv_str : list Z; conv_set : Z; conv_exclude : Z }.
Definition conv_opts : list conv_opt :=
  [mk_conv (text "block") CONV_BLOCK CONV_UNBLOCK; mk_conv (text "unblock") CONV_UNBLOCK CONV_BLOCK;
   mk_conv (text "lcase") CONV_LCASE CONV_UCASE; mk_conv (text "ucase") CONV_UCASE CONV_LCASE;
   mk_conv (text "swab") CONV_SWAB 0; mk_conv (text "noerror") CONV_NOERROR 0;
   mk_conv (text "notrunc") CONV_NOTRUNC 0; mk_conv (text "sync") CONV_SYNC 0].

(** The [str] of each option, and the other static variables. *)
Record vars := mk_vars {
  strs : list (option (list Z));
  cbs : Z; conv : Z; count : Z; ibs : Z; obs : Z; seek : Z; skip : Z;
}.
Definition initial_vars : vars := mk_vars (replicate 10 None) 0 0 0 512 512 0 0.
Definition set_strs (x : list (option (list Z))) (v : vars) : vars := mk_vars x (cbs v) (conv v) (count v) (ibs v) (obs v) (seek v) (skip v).
Definition set_cbs (x : Z) (v : vars) : vars := mk_vars (strs v) x (conv v) (count v) (ibs v) (obs v) (seek v) (skip v).
Definition set_conv (x : Z) (v : vars) : vars := mk_vars (strs v) (cbs v) x (count v) (ibs v) (obs v) (seek v) (skip v).
Definition set_count (x : Z) (v : vars) : vars := mk_vars (strs v) (cbs v) (conv v) x (ibs v) (obs v) (seek v) (skip v).
Definition set_ibs (x : Z) (v : vars) : vars := mk_vars (strs v) (cbs v) (conv v) (count v) x (obs v) (seek v) (skip v).
Definition set_obs (x : Z) (v : vars) : vars := mk_vars (strs v) (cbs v) (conv v) (count v) (ibs v) x (seek v) (skip v).
Definition set_seek (x : Z) (v : vars) : vars := mk_vars (strs v) (cbs v) (conv v) (count v) (ibs v) (obs v) x (skip v).
Definition set_skip (x : Z) (v : vars) : vars := mk_vars (strs v) (cbs v) (conv v) (count v) (ibs v) (obs v) (seek v) x.
Definition opt_str (i : nat) (v : vars) : option (list Z) := mjoin (strs v !! i).
(** [OPT->str != NULL] *)
Definition given (i : nat) (v : vars) : bool := match opt_str i v with Some _ => true | None => false end.
Definition modify (f : vars → vars) : prog vars unit := λ v, Ret (tt, f v).
Definition has (flag : Z) (c : Z) : bool := negb (Z.land c flag =? 0).

(** The factors of a size; [None] is [err]. *)
Fixpoint parse_bs_loop (fuel : nat) (str : list Z) (realval : Z) : option Z :=
  match fuel with
  | O => None
  | S fuel =>
      let '(val, n) := parse_num 10 str in
      if (n =? 0)%nat then None
      else
        let str := drop n str in
        let '(val, str) :=
          match str with
          | 98 :: str' => (u64 (val * 512), str')
          | 107 :: str' => (u64 (val * 1024), str')
          | _ => (val, str)
          end in
        let realval := u64 (realval * val) in
        match str with
        | [] => Some realval
        | c :: str => if c =? 120 then parse_bs_loop fuel str realval else None
        end
  end.
Definition parse_bs (str : list Z) : prog vars Z :=
  match parse_bs_loop (S (length str)) str 1 with Some n => mret n | None => exit_ 1 end.

(** [parse_num] of the source; what follows the number is not looked at. *)
Definition parse_count (str : list Z) : prog vars Z :=
  let '(val, n) := parse_num 10 str in
  if (n =? 0)%nat || (2 ^ 32 - 1 <? val) then exit_ 1 else mret (u32 val).

(** The first option whose first [len] characters are those of the argument. *)
Fixpoint find_opt (i : nat) (names : list (list Z)) (key : list Z) : option nat :=
  match names with
  | [] => None
  | name :: names => if bool_decide (take (length key) name = key) then Some i else find_opt (S i) names key
  end.

(** The part in front of [=], if there is one, and [s + 1]. *)
Definition split_operand (arg : list Z) : option (list Z * list Z) :=
  match list_find (λ c, c = 61) arg with
  | Some (len, _) => Some (take len arg, drop (S len) arg)
  | None => match arg with [] => None | _ :: s => Some ([], s) end
  end.

(** Whether all operands are known. *)
Fixpoint parse_operands (args : list (list Z)) : prog vars bool :=
  match args with
  | [] => mret true
  | arg :: args =>
      '((key, str) : list Z * list Z) ← of_option (split_operand arg);
      match find_opt 0 option_names key with
      | None => mret false
      | Some i => modify (λ v, set_strs (<[i := Some str]> (strs v)) v);; parse_operands args
      end
  end.

(** [if (OPT->str) var = parse(OPT)] *)
Definition set_number (opt : nat) (parse : list Z → prog vars Z) (set : Z → vars → vars) : prog vars unit :=
  v ← get_st;
  match opt_str opt v with
  | None => mret tt
  | Some str => n ← parse str; modify (set n)
  end.

Fixpoint find_conv (os : list conv_opt) (s : list Z) : option conv_opt :=
  match os with
  | [] => None
  | o :: os => if bool_decide (s = conv_str o) then Some o else find_conv os s
  end.

(** [strsep(&p, ",")]: the words between commas *)
Fixpoint words_at (sep : Z) (p : list Z) : list (list Z) :=
  match p with
  | [] => [[]]
  | c :: p =>
      if c =? sep then [] :: words_at sep p
      else match words_at sep p with w :: ws => (c :: w) :: ws | [] => [[c]] end
  end.

Fixpoint parse_convs (words : list (list Z)) : prog vars bool :=
  match words with
  | [] => mret true
  | s :: words =>
      match find_conv conv_opts s with
      | None => mret false
      | Some o =>
          modify (λ v, set_conv (Z.lor (Z.land (conv v) (Z.lnot (conv_exclude o))) (conv_set o)) v);;
          parse_convs words
      end
  end.

(** 0, or 1 for an error *)
Definition parse_options (argv : list (list Z)) : prog vars Z :=
  known ← parse_operands (tail argv);
  if negb known then mret 1
  else
    set_number OPT_IBS parse_bs set_ibs;;
    set_number OPT_OBS parse_bs set_obs;;
    set_number OPT_CBS parse_bs set_cbs;;
    set_number OPT_COUNT parse_count set_count;;
    set_number OPT_SEEK parse_count set_seek;;
    set_number OPT_SKIP parse_count set_skip;;
    set_number OPT_BS parse_bs (λ n v, set_ibs n (set_obs n v));;
    v ← get_st;
    ok ← match opt_str OPT_CONV v with None => mret true | Some p => parse_convs (words_at 44 p) end;
    if negb ok then mret 1
    else
      v ← get_st;
      mret (if has (Z.lor CONV_BLOCK CONV_UNBLOCK) (conv v) && (cbs v =? 0) then 1 else 0).

(** ** Files

    [answer k] is what the [k]-th [read] does if there are bytes left: it
    delivers at most [n] of them but at least one, or fails. *)

Inductive read_answer := Chunk (n : nat) | Interrupted | Broken.

Record stats := mk_stats { in_full : Z; in_partial : Z; out_full : Z; out_partial : Z }.

(** [pos] and [wpos] are the offsets of the two files, [written] the writes
    with their offsets. *)
Record io := mk_io {
  contents : list Z; pos : Z; seekable : bool; nreads : nat;
  wseekable : bool; wpos : Z; written : list (Z * list Z);
  st : stats;
}.

Section dd.
Context (answer : nat → read_answer).

Inductive read_result := Got (bs : list Z) | Eintr | Eio.
Definition move (p : Z) (s : io) : io := mk_io (contents s) p (seekable s) (nreads s) (wseekable s) (wpos s) (written s) (st s).
Definition wmove (p : Z) (s : io) : io := mk_io (contents s) (pos s) (seekable s) (nreads s) (wseekable s) p (written s) (st s).
Definition next_read (s : io) : io := mk_io (contents s) (pos s) (seekable s) (S (nreads s)) (wseekable s) (wpos s) (written s) (st s).
Definition read (size : Z) : prog io read_result := λ s,
  match answer (nreads s) with
  | Chunk n =>
      let bs := take (Nat.min (Nat.max 1 n) (Z.to_nat size)) (drop (Z.to_nat (pos s)) (contents s)) in
      Ret (Got bs, next_read (move (pos s + Z.of_nat (length bs)) s))
  | Interrupted => Ret (Eintr, next_read s)
  | Broken => Ret (Eio, next_read s)
  end.

Definition write (bs : list Z) : prog io unit := λ s,
  Ret (tt, mk_io (contents s) (pos s) (seekable s) (nreads s) (wseekable s) (wpos s + Z.of_nat (length bs)) (written s ++ [(wpos s, bs)]) (st s)).

Definition count_stat (f : stats → stats) : prog io unit := λ s,
  Ret (tt, mk_io (contents s) (pos s) (seekable s) (nreads s) (wseekable s) (wpos s) (written s) (f (st s))).
Definition add_in_full (x : stats) : stats := mk_stats (u32 (in_full x + 1)) (in_partial x) (out_full x) (out_partial x).
Definition add_in_partial (x : stats) : stats := mk_stats (in_full x) (u32 (in_partial x + 1)) (out_full x) (out_partial x).
Definition add_out_full (x : stats) : stats := mk_stats (in_full x) (in_partial x) (u32 (out_full x + 1)) (out_partial x).
Definition add_out_partial (x : stats) : stats := mk_stats (in_full x) (in_partial x) (out_full x) (u32 (out_partial x + 1)).

(** *** Skipping *)

(** The number of bytes, or -1. *)
Fixpoint safe_read (fuel : nat) (size count : Z) : prog io Z :=
  if size =? 0 then mret count
  else
    match fuel with
    | O => crash
    | S fuel =>
        ret ← read size;
        match ret with
        | Eintr => safe_read fuel size count
        | Eio => mret (if count =? 0 then -1 else count)
        | Got bs =>
            if bool_decide (bs = []) then mret count
            else safe_read fuel (size - Z.of_nat (length bs)) (count + Z.of_nat (length bs))
        end
    end.

(** The two files of the program. *)
Inductive file := Input | Output.
Definition can_seek (f : file) (s : io) : bool := match f with Input => seekable s | Output => wseekable s end.
Definition offset (f : file) (s : io) : Z := match f with Input => pos s | Output => wpos s end.
Definition move_to (f : file) (p : Z) (s : io) : io := match f with Input => move p s | Output => wmove p s end.

(** [lseek(fd, size, SEEK_CUR)] as an [int] *)
Definition lseek (f : file) (size : Z) : prog io Z := λ s,
  let p := offset f s + s64 size in
  if negb (can_seek f s) || (p <? 0) then Ret (-1, s) else Ret (s32 p, move_to f p s).

(** [blk] and [ret] after the loop. *)
Fixpoint seek_loop (f : file) (size : Z) (blks : nat) (blk ret : Z) : prog io (Z * Z) :=
  match blks with
  | O => mret (blk, ret)
  | S blks =>
      ret ← lseek f size;
      if ret =? -1 then mret (blk, ret) else seek_loop f size blks (blk + 1) ret
  end.

(** The output is open for writing only, so a [read] of it fails. *)
Fixpoint read_loop (fuel : nat) (f : file) (size : Z) (blks : nat) (ret : Z) : prog io Z :=
  match blks with
  | O => mret ret
  | S blks =>
      ret ← match f with Input => safe_read fuel size 0 | Output => mret (if size =? 0 then 0 else -1) end;
      if negb (ret =? s32 size) then mret ret else read_loop fuel f size blks ret
  end.

Definition skip_blocks (fuel : nat) (f : file) (blks size : Z) : prog io Z :=
  '((blk, ret) : Z * Z) ← seek_loop f size (Z.to_nat blks) 0 0;
  s ← get_st;
  ret ← (if (blk =? 0) && (ret =? -1) && negb (can_seek f s) then read_loop fuel f size (Z.to_nat blks) 0 else mret ret);
  mret (if ret =? -1 then 1 else 0).

(** *** Converting *)

Fixpoint swab (l : list Z) : list Z :=
  match l with
  | a :: b :: l => b :: a :: swab l
  | l => l
  end.

(** [in_buf[i] = tolower(in_buf[i])] for signed characters *)
Definition map_case (f : Z → option Z) (l : list Z) : option (list Z) := mapM (λ b, u8 <$> f (s8 b)) l.

Definition convert (v : vars) (bs : list Z) : option (list Z) :=
  let fill_val := if has (Z.lor CONV_BLOCK CONV_UNBLOCK) (conv v) then 32 else 0 in
  let bs := if has CONV_SYNC (conv v) then bs ++ replicate (Z.to_nat (ibs v) - length bs) fill_val else bs in
  let bs := if has CONV_SWAB (conv v) then swab bs else bs in
  bs ← (if has CONV_LCASE (conv v) then map_case tolower bs else Some bs);
  if has CONV_UCASE (conv v) then map_case toupper bs else Some bs.

(** *** Collecting into blocks of [obs] bytes *)

(** [do ... while (out_size == 0 && in_size)]: what is in [out_buf] and what is
    left of the input. *)
Fixpoint collect (fuel : nat) (obs : Z) (out buf : list Z) : prog io (list Z * list Z) :=
  match fuel with
  | O => crash
  | S fuel =>
      let space := u32 (obs - Z.of_nat (length out)) in
      let space := if Z.of_nat (length buf) <? space then Z.of_nat (length buf) else space in
      let out := out ++ take (Z.to_nat space) buf in
      let buf := drop (Z.to_nat space) buf in
      out ← (if Z.of_nat (length out) =? obs then write out;; count_stat add_out_full;; mret [] else mret out);
      if bool_decide (out = []) && negb (bool_decide (buf = [])) then collect fuel obs out buf else mret (out, buf)
  end.

(** A round takes a byte, or there is none left. *)
Definition put_block (obs : Z) (out buf : list Z) : prog io (list Z) :=
  if bool_decide (out = []) && (Z.of_nat (length buf) =? obs) then
    write buf;;
    count_stat add_out_full;;
    mret []
  else
    '((out, buf) : list Z * list Z) ← collect (S (length buf)) obs out buf;
    mret (if bool_decide (buf = []) then out else buf).

(** [count] is [None] without the operand; the bytes in [out_buf] at the end *)
Fixpoint dd_loop (fuel : nat) (v : vars) (count : option Z) (out : list Z) : prog io (list Z) :=
  if bool_decide (count = Some 0) then mret out
  else
    match fuel with
    | O => crash
    | S fuel =>
        ret ← read (ibs v);
        match ret with
        | Eintr | Eio => mret out
        | Got bs =>
            if bool_decide (bs = []) && negb (has CONV_NOERROR (conv v)) then mret out
            else
              count_stat (if Z.of_nat (length bs) =? ibs v then add_in_full else add_in_partial);;
              buf ← of_option (convert v bs);
              out ← put_block (obs v) out buf;
              dd_loop fuel v (Z.pred <$> count) out
        end
    end.

Definition do_dd (fuel : nat) (v : vars) : prog io unit :=
  out ← dd_loop fuel v (if given OPT_COUNT v then Some (count v) else None) [];
  if bool_decide (out = []) then mret tt
  else
    write out;;
    count_stat add_out_partial.

(** The exit status.  Opening the files succeeds, and so does [malloc] of a
    buffer, except of one of size 0. *)
Definition main (fuel : nat) (argv : list (list Z)) : prog io Z := λ s,
  match parse_options argv initial_vars with
  | Exit code => Exit code
  | Fault => Fault
  | Ret (ret, v) =>
      (if negb (ret =? 0) then mret ret
       else if has (Z.lor CONV_BLOCK CONV_UNBLOCK) (conv v) then mret 1
       else if (ibs v =? 0) || (obs v =? 0) then mret 1
       else
         ret ← (if given OPT_SEEK v then skip_blocks fuel Output (seek v) (obs v) else mret 0);
         if negb (ret =? 0) then mret 1
         else
           ret ← (if given OPT_SKIP v then skip_blocks fuel Input (skip v) (ibs v) else mret 0);
           if negb (ret =? 0) then mret 1
           else
             count_stat (λ _, mk_stats 0 0 0 0);;
             do_dd fuel v;;
             mret 0) s
  end.
End dd.

(** ** The output of the loop *)

(** A list in pieces of [n]. *)
Fixpoint chunks_of (fuel : nat) (n : nat) (l : list Z) : list (list Z) :=
  match fuel, l with
  | S fuel, _ :: _ => take n l :: chunks_of fuel n (drop n l)
  | _, _ => []
  end.
Definition chunks (n : nat) (l : list Z) : list (list Z) := chunks_of (length l) n l.

(** Writes one behind the other. *)
Fixpoint place (p : Z) (ws : list (list Z)) : list (Z * list Z) :=
  match ws with
  | [] => []
  | w :: ws => (p, w) :: place (p + Z.of_nat (length w)) ws
  end.

Lemma place_app p a b : place p (a ++ b) = place p a ++ place (p + Z.of_nat (length (concat a))) b.
Proof.
  revert p. induction a as [| w a IH]; intros p; cbn [app place concat]; [by rewrite Z.add_0_r |].
  rewrite IH, length_app. do 3 f_equal. lia.
Qed.

Lemma chunks_of_fuel n : (0 < n)%nat → ∀ f1 f2 l, (length l <= f1)%nat → (length l <= f2)%nat → chunks_of f1 n l = chunks_of f2 n l.
Proof.
  intros Hn. induction f1 as [| f1 IH]; intros f2 [| x l] H1 H2; simpl length in *; try lia; [by destruct f2.. |].
  destruct f2 as [| f2]; [lia |]. cbn [chunks_of]. f_equal. apply IH; rewrite length_drop; simpl length; lia.
Qed.

Lemma chunks_cons n w l : (0 < n)%nat → length w = n → chunks n (w ++ l) = w :: chunks n l.
Proof.
  intros Hn Hw. unfold chunks. destruct w as [| x w]; [simpl in Hw; lia |]. cbn [app length chunks_of]. rewrite app_comm_cons.
  rewrite take_app_length', drop_app_length' by done. f_equal. apply chunks_of_fuel; [done | rewrite length_app; lia | done].
Qed.

Lemma chunks_short n l : (length l <= n)%nat → l ≠ [] → chunks n l = [l].
Proof.
  intros Hl Hne. unfold chunks. destruct l as [| x l]; [done |]. cbn [length chunks_of]. rewrite take_ge, drop_ge by done. by destruct (length l).
Qed.

(** Full pieces and a rest are determined by their concatenation. *)
Lemma chunks_concat n ws out : (0 < n)%nat → Forall (λ w, length w = n) ws → (length out < n)%nat →
  chunks n (concat ws ++ out) = ws ++ (if bool_decide (out = []) then [] else [out]).
Proof.
  intros Hn Hws Ho. induction Hws as [| w ws Hw _ IH]; cbn [concat app].
  - case_bool_decide as E; [by subst |]. apply chunks_short; [lia | done].
  - rewrite <- app_assoc, chunks_cons by done. by rewrite IH.
Qed.

Lemma chunks_concat_id n l : (0 < n)%nat → concat (chunks n l) = l.
Proof.
  intros Hn. unfold chunks. assert (∀ f l, (length l <= f)%nat → concat (chunks_of f n l) = l) as H; [| by apply H].
  induction f as [| f IH]; intros [| x k] Hf; simpl length in *; try lia; [done.. |]. cbn [chunks_of concat]. rewrite IH by (rewrite length_drop; simpl length; lia). apply take_drop.
Qed.

(** What has happened between two states: [ws] was written in full blocks,
    [nf] full and [np] other blocks were read. *)
Record progress (ws : list (list Z)) (nf np : nat) (s s' : io) : Prop := {
  pr_written : written s' = written s ++ place (wpos s) ws;
  pr_wpos : wpos s' = wpos s + Z.of_nat (length (concat ws));
  pr_in_full : u32 (in_full (st s')) = u32 (in_full (st s) + Z.of_nat nf);
  pr_in_partial : u32 (in_partial (st s')) = u32 (in_partial (st s) + Z.of_nat np);
  pr_out_full : u32 (out_full (st s')) = u32 (out_full (st s) + Z.of_nat (length ws));
  pr_out_partial : out_partial (st s') = out_partial (st s);
  pr_contents : contents s' = contents s;
}.

Lemma u32_step x y z a b : u32 y = u32 (x + a) → u32 z = u32 (y + b) → u32 z = u32 (x + (a + b)).
Proof.
  unfold wrapu. intros Hy ->. rewrite <- Zplus_mod_idemp_l, Hy, Zplus_mod_idemp_l. f_equal. lia.
Qed.

Lemma progress_trans ws ws' nf nf' np np' s s1 s2 : progress ws nf np s s1 → progress ws' nf' np' s1 s2 → progress (ws ++ ws') (nf + nf') (np + np') s s2.
Proof.
  intros [] []. split; try congruence.
  - rewrite place_app, app_assoc. congruence.
  - rewrite concat_app, length_app. lia.
  - rewrite Nat2Z.inj_add. by eapply u32_step.
  - rewrite Nat2Z.inj_add. by eapply u32_step.
  - rewrite length_app, Nat2Z.inj_add. by eapply u32_step.
Qed.

(** The state of the input. *)
Record same_input (s s' : io) : Prop := {
  si_pos : pos s' = pos s;
  si_nreads : nreads s' = nreads s;
}.

Lemma progress_refl s : progress [] 0 0 s s.
Proof. split; rewrite ?Z.add_0_r; try done. by rewrite app_nil_r. Qed.

Lemma write_full w s : ∃ s', (write w;; count_stat add_out_full;; mret ([] : list Z)) s = Ret ([], s') ∧ progress [w] 0 0 s s' ∧ same_input s s'.
Proof.
  eexists. split; [done |]. split; [| by split]. split; cbn; rewrite ?app_nil_r, ?Z.add_0_r; try done. unfold wrapu. by rewrite Zmod_mod.
Qed.

Section collect.
Context (n : Z) (Hn : 0 < n < 2 ^ 31).

Lemma collect_ok fuel : ∀ out buf s, Z.of_nat (length out) < n → (length buf < fuel)%nat →
  ∃ ws out' s', collect fuel n out buf s = Ret ((out', []), s') ∧ progress ws 0 0 s s' ∧ same_input s s' ∧
    concat ws ++ out' = out ++ buf ∧ Forall (λ w, Z.of_nat (length w) = n) ws ∧ Z.of_nat (length out') < n.
Proof using Hn.
  induction fuel as [| fuel IH]; intros out buf s Ho Hf; [lia |]. cbn [collect].
  rewrite (wrapu_small 32 (n - _)) by (unfold in_u; lia). set (space := if _ <? _ then _ else _).
  assert (space = Z.min (Z.of_nat (length buf)) (n - Z.of_nat (length out))) as Es by (unfold space; destruct (Z.ltb_spec (Z.of_nat (length buf)) (n - Z.of_nat (length out))); lia).
  clearbody space. set (out1 := out ++ take (Z.to_nat space) buf). set (buf1 := drop (Z.to_nat space) buf).
  assert (out1 ++ buf1 = out ++ buf) as Eob by (unfold out1, buf1; by rewrite <- app_assoc, take_drop).
  assert (length out1 = (length out + Z.to_nat space)%nat) as Hl1 by (unfold out1; rewrite length_app, length_take; lia).
  assert (length buf1 = (length buf - Z.to_nat space)%nat) as Hl2 by (unfold buf1; by rewrite length_drop).
  destruct (Z.eqb_spec (Z.of_nat (length out1)) n) as [Hfull | Hpart].
  - destruct (write_full out1 s) as (s1 & E1 & Hp1 & Hi1). rewrite (pbind_ok _ _ _ _ _ E1). cbn [bool_decide]. rewrite (bool_decide_eq_true_2 ([] = [])) by done. cbn [andb].
    case_bool_decide as Eb; cbn [negb].
    + exists [out1], [], s1. split_and!; [by rewrite Eb | done | done | by rewrite <- Eob, Eb; simpl; rewrite !app_nil_r | by constructor | simpl; lia].
    + destruct (IH [] buf1 s1) as (ws & out' & s' & E & Hp & [] & Hc & Hws & Ho'); [simpl; lia | lia |].
      exists (out1 :: ws), out', s'. split_and!; [done | by apply (progress_trans [out1] ws 0 0 0 0 s s1 s') | destruct Hi1; split; congruence | | by constructor | done].
      cbn [concat]. by rewrite <- app_assoc, Hc.
  - assert (buf1 = []) as Eb by (apply nil_length_inv; lia). exists [], out1, s. erewrite pbind_ok by done. rewrite Eb, app_nil_r in *. rewrite (bool_decide_eq_true_2 ([] = [])) by done. cbn [negb]. rewrite andb_false_r.
    split_and!; [done | apply progress_refl | done | done | constructor | lia].
Qed.

Lemma put_block_ok out buf s : Z.of_nat (length out) < n →
  ∃ ws out' s', put_block n out buf s = Ret (out', s') ∧ progress ws 0 0 s s' ∧ same_input s s' ∧
    concat ws ++ out' = out ++ buf ∧ Forall (λ w, Z.of_nat (length w) = n) ws ∧ Z.of_nat (length out') < n.
Proof using Hn.
  intros Ho. unfold put_block. destruct (bool_decide (out = []) && _) eqn:E.
  - apply andb_prop in E as [->%bool_decide_eq_true E%Z.eqb_eq]. destruct (write_full buf s) as (s1 & E1 & Hp1 & Hi1).
    exists [buf], [], s1. split_and!; [done | done | done | by simpl; rewrite !app_nil_r | by constructor | simpl; lia].
  - destruct (collect_ok (S (length buf)) out buf s Ho) as (ws & out' & s' & E1 & H); [lia |].
    exists ws, out', s'. rewrite (pbind_ok _ _ _ _ _ E1). done.
Qed.
End collect.

(** The blocks that [read] delivers from the [k]-th call on, in at most
    [rounds] calls. *)
Fixpoint deliver (sizes : nat → nat) (ibs : nat) (rounds k : nat) (data : list Z) : list (list Z) :=
  match rounds, data with
  | S rounds, _ :: _ =>
      let n := Nat.min (Nat.max 1 (sizes k)) ibs in
      take n data :: deliver sizes ibs rounds (S k) (drop n data)
  | _, _ => []
  end.

Lemma deliver_concat sizes n : (0 < n)%nat → ∀ rounds k data, (length data <= rounds)%nat → concat (deliver sizes n rounds k data) = data.
Proof.
  intros Hn. induction rounds as [| rounds IH]; intros k [| x data] Hr; simpl length in *; try lia; [done.. |].
  cbn [deliver concat]. rewrite IH by (rewrite length_drop; simpl length; lia). apply take_drop.
Qed.

Lemma deliver_rounds sizes n : (0 < n)%nat → ∀ r1 r2 k data, (length data <= r1)%nat → (length data <= r2)%nat → deliver sizes n r1 k data = deliver sizes n r2 k data.
Proof.
  intros Hn. induction r1 as [| r1 IH]; intros r2 k [| x data] H1 H2; simpl length in *; try lia; [by destruct r2.. |].
  destruct r2 as [| r2]; [lia |]. cbn [deliver]. f_equal. apply IH; rewrite length_drop; simpl length; lia.
Qed.

(** A file that is not a pipe delivers full blocks. *)
Lemma deliver_full sizes n : (0 < n)%nat → (∀ k, (n <= sizes k)%nat) → ∀ rounds k data, (length data <= rounds)%nat → deliver sizes n rounds k data = chunks n data.
Proof.
  intros Hn Hs. assert (∀ rounds k data, deliver sizes n rounds k data = chunks_of rounds n data) as H.
  { induction rounds as [| rounds IH]; intros k [| x data]; [done.. |]. cbn [deliver chunks_of]. specialize (Hs k). replace (Nat.min _ n) with n by lia. by rewrite IH. }
  intros rounds k data Hr. rewrite H. by apply chunks_of_fuel.
Qed.

(** ... and with [count] blocks its beginning. *)
Lemma deliver_count sizes n : (0 < n)%nat → (∀ k, (n <= sizes k)%nat) → ∀ rounds k data, concat (deliver sizes n rounds k data) = take (rounds * n) data.
Proof.
  intros Hn Hs. induction rounds as [| rounds IH]; intros k data; [done |]. destruct data as [| x data]; [by rewrite take_nil |].
  cbn [deliver concat]. specialize (Hs k). replace (Nat.min _ n) with n by lia. rewrite IH. cbn [Nat.mul]. rewrite <- (take_drop n (x :: data)) at 3.
  destruct (decide (n <= length (x :: data))%nat).
  - rewrite take_app, take_take, Nat.min_r, length_take, Nat.min_l by lia. do 2 f_equal. lia.
  - rewrite drop_ge by lia. rewrite take_nil, !app_nil_r. rewrite (take_ge (x :: data) n) by lia. by rewrite take_ge by lia.
Qed.

Lemma drop_length_take n (l : list Z) : drop (length (take n l)) l = drop n l.
Proof. rewrite length_take. destruct (decide (n <= length l)%nat); [by rewrite Nat.min_l |]. rewrite Nat.min_r by lia. by rewrite !drop_ge by lia. Qed.

Section loop.
Context (answer : nat → read_answer) (sizes : nat → nat) (v : vars).
Context (Hanswer : ∀ k, answer k = Chunk (sizes k)).
Context (Hibs : 0 < ibs v < 2 ^ 31) (Hobs : 0 < obs v < 2 ^ 31) (Hnoerror : has CONV_NOERROR (conv v) = false).

Definition full_blocks (bs : list (list Z)) : nat := length (filter (λ b, Z.of_nat (length b) = ibs v) bs).
Definition partial_blocks (bs : list (list Z)) : nat := length (filter (λ b, Z.of_nat (length b) ≠ ibs v) bs).

Definition rest_of (s : io) : list Z := drop (Z.to_nat (pos s)) (contents s).

Lemma read_some s x data : 0 <= pos s → rest_of s = x :: data → ∃ s', let b := take (Nat.min (Nat.max 1 (sizes (nreads s))) (Z.to_nat (ibs v))) (x :: data) in
  read answer (ibs v) s = Ret (Got b, s') ∧ progress [] 0 0 s s' ∧ b ≠ [] ∧ (length b <= Z.to_nat (ibs v))%nat ∧
  0 <= pos s' ∧ nreads s' = S (nreads s) ∧ rest_of s' = drop (Nat.min (Nat.max 1 (sizes (nreads s))) (Z.to_nat (ibs v))) (x :: data).
Proof using Hanswer Hibs.
  intros Hpos Hr. unfold rest_of in *. unfold read. rewrite Hanswer. rewrite Hr. set (n := Nat.min _ _). assert (1 <= n)%nat as Hn by (unfold n; lia).
  eexists. cbv zeta. split; [done |]. split_and!.
  - split; cbn; rewrite ?Z.add_0_r; try done. by rewrite app_nil_r.
  - destruct n; [lia | done].
  - rewrite length_take. unfold n. lia.
  - cbn. lia.
  - done.
  - cbn [pos contents next_read move]. rewrite Z2Nat.inj_add, Nat2Z.id by lia. rewrite <- drop_drop, Hr. apply drop_length_take.
Qed.

Lemma read_end s : rest_of s = [] → ∃ s', read answer (ibs v) s = Ret (Got [], s') ∧ progress [] 0 0 s s'.
Proof using Hanswer.
  intros Hr. unfold rest_of in Hr. unfold read. rewrite Hanswer, Hr, take_nil. eexists. split; [done |]. split; cbn; rewrite ?Z.add_0_r; try done. by rewrite app_nil_r.
Qed.

Lemma count_in_ok (b : list Z) s : ∃ s', count_stat (if Z.of_nat (length b) =? ibs v then add_in_full else add_in_partial) s = Ret (tt, s') ∧
  progress [] (full_blocks [b]) (partial_blocks [b]) s s' ∧ same_input s s'.
Proof using Type.
  eexists. split; [done |]. split; [| by split]. unfold full_blocks, partial_blocks. rewrite !filter_cons.
  destruct (Z.eqb_spec (Z.of_nat (length b)) (ibs v)) as [E | E]; [rewrite decide_True, decide_False by auto | rewrite decide_False, decide_True by auto];
    (split; cbn; rewrite ?Z.add_0_r, ?app_nil_r; unfold wrapu; rewrite ?Zmod_mod; done).
Qed.

(** The blocks as they are converted and collected. *)
Lemma dd_loop_ok fuel : ∀ count out s cbs, 0 <= pos s →
  let bs := deliver sizes (Z.to_nat (ibs v)) (match count with Some c => Z.to_nat c | None => length (rest_of s) end) (nreads s) (rest_of s) in
  mapM (convert v) bs = Some cbs → (length bs < fuel)%nat → Z.of_nat (length out) < obs v → (∀ c, count = Some c → 0 <= c) →
  ∃ ws out' s', dd_loop answer fuel v count out s = Ret (out', s') ∧ progress ws (full_blocks bs) (partial_blocks bs) s s' ∧
    concat ws ++ out' = out ++ concat cbs ∧ Forall (λ w, Z.of_nat (length w) = obs v) ws ∧ Z.of_nat (length out') < obs v.
Proof using Hanswer Hibs Hobs Hnoerror.
  induction fuel as [| fuel IH]; intros count out s cbs Hpos bs Hconv Hf Ho Hc; [lia |]. cbn [dd_loop].
  case_bool_decide as Ec.
  { subst count bs. cbn in Hconv |- *. injection Hconv as <-. exists [], out, s. split_and!; [done | apply progress_refl | by rewrite app_nil_r | constructor | done]. }
  destruct (rest_of s) as [| x data] eqn:Er.
  { assert (bs = []) as Eb by (subst bs; by destruct count as [c |]; [destruct (Z.to_nat c) |]). rewrite Eb in *. injection Hconv as <-.
    destruct (read_end s Er) as (s1 & E1 & Hp1). rewrite (pbind_ok _ _ _ _ _ E1). cbv beta iota. rewrite bool_decide_eq_true_2, Hnoerror by done. cbn [andb negb].
    exists [], out, s1. split_and!; [done | done | by rewrite app_nil_r | constructor | done]. }
  destruct (read_some s x data Hpos Er) as (s1 & E1 & Hp1 & Hne & Hlen & Hpos1 & Hk1 & Hr1). cbv zeta in *. set (n := Nat.min _ _) in *. set (b := take n (x :: data)) in *.
  assert (∃ rounds, (match count with Some c => Z.to_nat c | None => length (x :: data) end) = S rounds ∧
    (∀ c, count = Some c → Z.to_nat (Z.pred c) = rounds) ∧ (count = None → length (drop n (x :: data)) <= rounds)%nat) as (rounds & Erounds & Hcount & Hnone).
  { destruct count as [c |].
    - specialize (Hc c eq_refl). assert (c ≠ 0) by congruence. exists (Z.to_nat (Z.pred c)). split_and!; [lia | by intros ? [= ->] | done].
    - exists (length data). split_and!; [done | done |]. intros _. rewrite length_drop. unfold n. simpl length. lia. }
  assert (bs = b :: deliver sizes (Z.to_nat (ibs v)) rounds (S (nreads s)) (drop n (x :: data))) as Ebs by (unfold bs; by rewrite Erounds).
  rewrite (pbind_ok _ _ _ _ _ E1). cbv beta iota. rewrite bool_decide_eq_false_2 by done. cbn [andb].
  destruct (count_in_ok b s1) as (s2 & E2 & Hp2 & Hi2). rewrite (pbind_ok _ _ _ _ _ E2).
  rewrite Ebs in Hconv. cbn [mapM] in Hconv. destruct (convert v b) as [cb |] eqn:Ecb; [| done]. cbn [mbind option_bind] in Hconv.
  destruct (mapM (convert v) _) as [cbs' |] eqn:Ecbs; [| done]. injection Hconv as <-. cbn [of_option]. erewrite pbind_ok by done. cbv beta.
  destruct (put_block_ok (obs v) Hobs out cb s2 Ho) as (ws1 & out1 & s3 & E3 & Hp3 & Hi3 & Hc3 & Hw3 & Ho3). rewrite (pbind_ok _ _ _ _ _ E3).
  pose proof (progress_trans _ _ _ _ _ _ _ _ _ (progress_trans _ _ _ _ _ _ _ _ _ Hp1 Hp2) Hp3) as Hp.
  assert (rest_of s3 = drop n (x :: data)) as Hr3.
  { rewrite <- Hr1. unfold rest_of. rewrite (pr_contents _ _ _ _ _ Hp3), (pr_contents _ _ _ _ _ Hp2), (si_pos _ _ Hi3), (si_pos _ _ Hi2). done. }
  assert (nreads s3 = S (nreads s)) as Hk3 by (rewrite (si_nreads _ _ Hi3), (si_nreads _ _ Hi2); done).
  set (bs' := deliver sizes _ rounds _ _) in *.
  assert (deliver sizes (Z.to_nat (ibs v)) (match Z.pred <$> count with Some c => Z.to_nat c | None => length (rest_of s3) end) (nreads s3) (rest_of s3) = bs') as Ed.
  { rewrite Hr3, Hk3. unfold bs'. destruct count as [c |]; cbn [fmap option_fmap option_map]; [by rewrite (Hcount c) |]. apply deliver_rounds; [lia | done | by apply Hnone]. }
  specialize (IH (Z.pred <$> count) out1 s3 cbs'). cbv zeta in IH. rewrite Ed in IH. destruct IH as (ws & out' & s' & E & Hp' & Hc' & Hw' & Ho').
  - rewrite (si_pos _ _ Hi3), (si_pos _ _ Hi2). done.
  - done.
  - rewrite Ebs in Hf. simpl in Hf. lia.
  - done.
  - intros c Hc1. destruct count as [c0 |]; [| done]. injection Hc1 as <-. specialize (Hc c0 eq_refl). assert (c0 ≠ 0) by congruence. lia.
  - exists (ws1 ++ ws), out', s'. split_and!; [done | | | by apply Forall_app | done].
    + rewrite Ebs. pose proof (progress_trans _ _ _ _ _ _ _ _ _ Hp Hp') as Hall. unfold full_blocks, partial_blocks in *. rewrite (filter_cons _ b bs'), (filter_cons _ b bs'), filter_cons, filter_cons in *.
      destruct (decide (Z.of_nat (length b) = ibs v)), (decide (Z.of_nat (length b) ≠ ibs v)); done.
    + cbn [concat]. rewrite concat_app, <- app_assoc, Hc', app_assoc, Hc3, <- app_assoc. done.
Qed.

Lemma do_dd_ok fuel s cbs : 0 <= pos s → 0 <= count v →
  let bs := deliver sizes (Z.to_nat (ibs v)) (if given OPT_COUNT v then Z.to_nat (count v) else length (rest_of s)) (nreads s) (rest_of s) in
  mapM (convert v) bs = Some cbs → (length bs < fuel)%nat →
  ∃ s', do_dd answer fuel v s = Ret (tt, s') ∧ written s' = written s ++ place (wpos s) (chunks (Z.to_nat (obs v)) (concat cbs)) ∧
    u32 (in_full (st s')) = u32 (in_full (st s) + Z.of_nat (full_blocks bs)) ∧ u32 (in_partial (st s')) = u32 (in_partial (st s) + Z.of_nat (partial_blocks bs)).
Proof using Hanswer Hibs Hobs Hnoerror.
  intros Hpos Hcount bs Hconv Hf. unfold do_dd.
  destruct (dd_loop_ok fuel (if given OPT_COUNT v then Some (count v) else None) [] s cbs Hpos) as (ws & out & s1 & E & [Hw Hwp Hif Hip _ _ _] & Hc & Hws & Ho).
  - cbv zeta. subst bs. by destruct (given OPT_COUNT v).
  - subst bs. by destruct (given OPT_COUNT v).
  - simpl. lia.
  - intros c Hc. destruct (given OPT_COUNT v); [| done]. by injection Hc as <-.
  - rewrite (pbind_ok _ _ _ _ _ E). cbn [app] in Hc. rewrite <- Hc. rewrite chunks_concat; [| lia | eapply Forall_impl; [done |]; intros w Hl; simpl in Hl; lia | lia].
    assert (bs = deliver sizes (Z.to_nat (ibs v)) (match (if given OPT_COUNT v then Some (count v) else None) with Some c => Z.to_nat c | None => length (rest_of s) end) (nreads s) (rest_of s)) as Eb
      by (unfold bs; by destruct (given OPT_COUNT v)). rewrite <- Eb in Hif, Hip.
    case_bool_decide as Eout.
    + exists s1. rewrite app_nil_r. done.
    + eexists. split; [done |]. cbn. split_and!; [| done | done]. rewrite Hw, Hwp, place_app, <- app_assoc. done.
Qed.
End loop.

(** ** Skipping *)

Section skipping.
Context (answer : nat → read_answer) (sizes : nat → nat).
Context (Hanswer : ∀ k, answer k = Chunk (sizes k)).

Lemma safe_read_ok fuel : ∀ size count s, 0 <= size → 0 <= count → 0 <= pos s → (Z.to_nat size <= fuel)%nat →
  ∃ s', safe_read answer fuel size count s = Ret (count + Z.min size (Z.of_nat (length (rest_of s))), s') ∧
    progress [] 0 0 s s' ∧ 0 <= pos s' ∧ rest_of s' = drop (Z.to_nat size) (rest_of s).
Proof using Hanswer.
  induction fuel as [| fuel IH]; intros size count s Hs Hc Hpos Hf; cbn [safe_read]; (destruct (Z.eqb_spec size 0) as [-> | Hne]; [exists s; split_and!; [by rewrite Z.min_l, Z.add_0_r by lia | apply progress_refl | done | done] |]); [lia |].
  unfold read at 1. unfold mbind at 1, prog_bind at 1. rewrite Hanswer. cbv zeta. set (n := Nat.min _ _). fold (rest_of s).
  assert (1 <= n <= Z.to_nat size)%nat as Hn by (unfold n; lia). set (b := take n (rest_of s)). set (s1 := next_read _).
  assert (progress [] 0 0 s s1) as Hp1 by (split; cbn; rewrite ?Z.add_0_r; try done; by rewrite app_nil_r).
  assert (rest_of s1 = drop n (rest_of s)) as Hr1.
  { unfold rest_of at 1, s1. cbn [pos contents next_read move]. rewrite Z2Nat.inj_add, Nat2Z.id by lia. rewrite <- drop_drop. apply drop_length_take. }
  case_bool_decide as Eb.
  - assert (rest_of s = []) as Er by (unfold b in Eb; destruct n; [lia |]; by destruct (rest_of s)).
    exists s1. split_and!; [rewrite Er; simpl; rewrite Z.min_r, Z.add_0_r by lia; done | done | cbn; lia | rewrite Hr1, Er, !drop_nil; done].
  - assert (length b = Nat.min n (length (rest_of s))) as Hb by (unfold b; apply length_take).
    assert (0 < length b)%nat as Hb0 by (destruct b; [done | simpl; lia]).
    destruct (IH (size - Z.of_nat (length b)) (count + Z.of_nat (length b)) s1) as (s' & E & Hp & Hpos' & Hr'); [lia | lia | cbn; lia | lia |].
    exists s'. rewrite E, Hr', Hr1, length_drop. split_and!; [do 2 f_equal; lia | by apply (progress_trans [] [] 0 0 0 0 s s1 s') | done |].
    rewrite drop_drop. destruct (decide (n <= length (rest_of s))%nat); [f_equal; lia |]. rewrite !drop_ge by lia. done.
Qed.

Lemma move_again f p q s : move_to f q (move_to f p s) = move_to f q s.
Proof using Type. by destruct f. Qed.
Lemma move_here f s : move_to f (offset f s) s = s.
Proof using Type. by destruct f, s. Qed.
Lemma offset_moved f p s : offset f (move_to f p s) = p.
Proof using Type. by destruct f. Qed.
Lemma can_seek_moved f p s : can_seek f (move_to f p s) = can_seek f s.
Proof using Type. by destruct f. Qed.

Lemma seek_loop_ok f size blks : ∀ blk ret s, can_seek f s = true → 0 <= size → 0 <= offset f s → offset f s + Z.of_nat blks * size < 2 ^ 31 → 0 <= ret →
  ∃ ret', seek_loop f size blks blk ret s = Ret ((blk + Z.of_nat blks, ret'), move_to f (offset f s + Z.of_nat blks * size) s) ∧ 0 <= ret'.
Proof using Type.
  induction blks as [| blks IH]; intros blk ret s Hcan Hs Ho Hb Hr; cbn [seek_loop].
  { exists ret. split; [| done]. rewrite Z.mul_0_l, !Z.add_0_r, move_here. done. }
  assert (lseek f size s = Ret (offset f s + size, move_to f (offset f s + size) s)) as E.
  { assert (size < 2 ^ 31) by nia. unfold lseek. rewrite (wraps_small 64) by (done || unfold in_s; lia). rewrite Hcan, (proj2 (Z.ltb_ge _ 0)) by lia. cbn [negb orb]. by rewrite (wraps_small 32) by (done || unfold in_s; nia). }
  rewrite (pbind_ok _ _ _ _ _ E). rewrite (proj2 (Z.eqb_neq _ _)) by lia.
  destruct (IH (blk + 1) (offset f s + size) (move_to f (offset f s + size) s)) as (ret' & E' & Hr'); rewrite ?can_seek_moved, ?offset_moved; [done | lia | lia | lia | lia |].
  rewrite offset_moved in E'. exists ret'. rewrite E', move_again. split; [| done]. do 3 f_equal; lia.
Qed.

Lemma seek_fails f size blks s : can_seek f s = false → seek_loop f size (S blks) 0 0 s = Ret ((0, -1), s).
Proof using Type. intros H. cbn [seek_loop]. unfold lseek, mbind, prog_bind. by rewrite H. Qed.

Lemma read_loop_ok fuel size blks : 0 <= size < 2 ^ 31 → (Z.to_nat size <= fuel)%nat → ∀ ret s, 0 <= ret → 0 <= pos s →
  ∃ ret' s', read_loop answer fuel Input size blks ret s = Ret (ret', s') ∧ 0 <= ret' ∧ progress [] 0 0 s s' ∧ 0 <= pos s' ∧ rest_of s' = drop (blks * Z.to_nat size) (rest_of s).
Proof using Hanswer.
  intros Hs Hf. induction blks as [| blks IH]; intros ret s Hr Hpos; cbn [read_loop].
  { exists ret, s. split_and!; [done | done | apply progress_refl | done | done]. }
  destruct (safe_read_ok fuel size 0 s) as (s1 & E1 & Hp1 & Hpos1 & Hr1); [lia | done | done | done |]. rewrite (pbind_ok _ _ _ _ _ E1). rewrite (wraps_small 32) by (done || unfold in_s; lia).
  destruct (Z.eqb_spec (0 + Z.min size (Z.of_nat (length (rest_of s)))) size) as [Hfull | Hshort]; cbn [negb].
  - destruct (IH (0 + Z.min size (Z.of_nat (length (rest_of s)))) s1) as (ret' & s' & E' & Hr' & Hp' & Hpos' & Hrest); [lia | done |].
    exists ret', s'. split_and!; [done | done | by apply (progress_trans [] [] 0 0 0 0 s s1 s') | done |]. rewrite Hrest, Hr1, drop_drop. done.
  - eexists _, s1. split_and!; [done | lia | done | done |]. rewrite Hr1. rewrite !drop_ge by nia. done.
Qed.

(** Blocks of the input are skipped on a file as on a pipe. *)
Lemma skip_input fuel blks size s : 0 <= blks → 0 <= size < 2 ^ 31 → (Z.to_nat size <= fuel)%nat → 0 <= pos s → pos s + blks * size < 2 ^ 31 →
  ∃ s', skip_blocks answer fuel Input blks size s = Ret (0, s') ∧ progress [] 0 0 s s' ∧ 0 <= pos s' ∧ rest_of s' = drop (Z.to_nat (blks * size)) (rest_of s).
Proof using Hanswer.
  intros Hb Hs Hf Hpos Hlim. unfold skip_blocks. destruct (can_seek Input s) eqn:Hcan.
  - destruct (seek_loop_ok Input size (Z.to_nat blks) 0 0 s Hcan) as (ret & E & Hr); [lia | done | cbn [offset]; rewrite Z2Nat.id by lia; done | done |].
    rewrite (pbind_ok _ _ _ _ _ E). unfold get_st. erewrite pbind_ok by done. rewrite (proj2 (Z.eqb_neq ret (-1))) by lia. rewrite andb_false_r. cbn [andb]. erewrite pbind_ok by done.
    rewrite (proj2 (Z.eqb_neq ret (-1))) by lia. eexists. split; [done |]. cbn [offset move_to]. rewrite Z2Nat.id by lia. split_and!.
    + split; cbn; rewrite ?Z.add_0_r; try done. by rewrite app_nil_r.
    + cbn. nia.
    + unfold rest_of. cbn [pos contents move]. rewrite Z2Nat.inj_add, drop_drop by nia. done.
  - destruct (Z.to_nat blks) as [| n] eqn:En.
    + eexists. split; [done |]. split_and!; [apply progress_refl | done |]. replace (Z.to_nat (blks * size)) with 0%nat by nia. done.
    + rewrite (pbind_ok _ _ _ _ _ (seek_fails Input size n s Hcan)). unfold get_st. erewrite pbind_ok by done. rewrite Hcan. cbn [negb andb Z.eqb Pos.eqb].
      destruct (read_loop_ok fuel size (S n) Hs Hf 0 s) as (ret & s' & E & Hr & Hp & Hpos' & Hrest); [done | done |].
      rewrite (pbind_ok _ _ _ _ _ E). rewrite (proj2 (Z.eqb_neq ret (-1))) by lia. exists s'. split_and!; [done | done | done |]. rewrite Hrest. f_equal. nia.
Qed.

Lemma skip_output fuel blks size s : 0 <= blks → 0 <= size → wseekable s = true → 0 <= wpos s → wpos s + blks * size < 2 ^ 31 →
  skip_blocks answer fuel Output blks size s = Ret (0, wmove (wpos s + blks * size) s).
Proof using Type.
  intros Hb Hs Hcan Hpos Hlim. unfold skip_blocks.
  destruct (seek_loop_ok Output size (Z.to_nat blks) 0 0 s Hcan) as (ret & E & Hr); [done | done | cbn [offset]; rewrite Z2Nat.id by lia; done | done |].
  rewrite (pbind_ok _ _ _ _ _ E). unfold get_st. erewrite pbind_ok by done. rewrite (proj2 (Z.eqb_neq ret (-1))) by lia. rewrite andb_false_r. cbn [andb]. erewrite pbind_ok by done.
  rewrite (proj2 (Z.eqb_neq ret (-1))) by lia. cbn [offset move_to]. by rewrite Z2Nat.id by lia.
Qed.
End skipping.

(** ** Conversions *)

Definition ascii_byte (b : Z) : Prop := 0 <= b < 128.

Lemma case_ascii b : ascii_byte b → ∃ d e, tolower (s8 b) = Some d ∧ toupper (s8 b) = Some e ∧ ascii_byte (u8 d) ∧ ascii_byte (u8 e).
Proof.
  intros Hb. set (P b := (128 <=? b) || match tolower (s8 b), toupper (s8 b) with
    | Some d, Some e => (0 <=? u8 d) && (u8 d <? 128) && (0 <=? u8 e) && (u8 e <? 128) | _, _ => false end).
  assert (P b = true) as HP. { assert (∀ c, 0 <= c <= 255 → P c = true) as H by (apply uchar_all; vm_compute; reflexivity). apply H. unfold ascii_byte in Hb. lia. }
  unfold P in HP. unfold ascii_byte in *. rewrite (proj2 (Z.leb_gt 128 b)) in HP by lia. cbn [orb] in HP.
  destruct (tolower (s8 b)) as [d |], (toupper (s8 b)) as [e |]; try done. exists d, e. rewrite !andb_true_iff, !Z.leb_le, !Z.ltb_lt in HP. split_and!; [done | done | lia | lia | lia | lia].
Qed.

Lemma map_case_ascii f l : f = tolower ∨ f = toupper → Forall ascii_byte l → ∃ l', map_case f l = Some l' ∧ Forall ascii_byte l'.
Proof.
  intros Hf. induction 1 as [| b l Hb _ (l' & IH & Hl')]; [by exists [] |]. destruct (case_ascii b Hb) as (d & e & Ed & Ee & Hd & He).
  unfold map_case in *. cbn [mapM]. destruct Hf as [-> | ->]; [rewrite Ed; exists (u8 d :: l') | rewrite Ee; exists (u8 e :: l')]; cbn [fmap option_fmap option_map mbind option_bind]; rewrite IH; (split; [done | by constructor]).
Qed.

Lemma swab_forall P l : Forall P l → Forall P (swab l).
Proof.
  assert (∀ n l, (length l <= n)%nat → Forall P l → Forall P (swab l)) as H; [| by apply (H (length l))].
  induction n as [| n IH]; intros [| a [| b k]] Hl Hk; simpl in Hl; try lia; [constructor | done | done |].
  cbn [swab]. rewrite !Forall_cons in Hk. destruct Hk as (Ha & Hb & Hk). rewrite !Forall_cons. split_and!; [done | done | apply IH; [lia | done]].
Qed.

Definition maps_case (v : vars) : bool := has CONV_LCASE (conv v) || has CONV_UCASE (conv v).

(** The tables of characters are only read for characters below 128. *)
Lemma convert_total v bs : (maps_case v = true → Forall ascii_byte bs) → ∃ r, convert v bs = Some r.
Proof.
  intros H. unfold convert. cbv zeta. set (fill := if has (Z.lor _ _) _ then _ else _). set (b1 := if has CONV_SYNC _ then _ else _). set (b2 := if has CONV_SWAB _ then _ else _).
  assert (maps_case v = true → Forall ascii_byte b2) as H2.
  { intros Hm. specialize (H Hm). assert (Forall ascii_byte b1) as H1.
    { unfold b1. destruct (has CONV_SYNC (conv v)); [| done]. apply Forall_app. split; [done |]. apply Forall_replicate. unfold fill, ascii_byte. destruct (has _ _); lia. }
    unfold b2. destruct (has CONV_SWAB (conv v)); [by apply swab_forall | done]. }
  clearbody b2. unfold maps_case in H2. destruct (has CONV_LCASE (conv v)), (has CONV_UCASE (conv v)); [| | | by eexists]; specialize (H2 eq_refl).
  - destruct (map_case_ascii tolower b2) as (b3 & -> & H3); [by left | done |]. cbn [mbind option_bind]. destruct (map_case_ascii toupper b3) as (b4 & -> & _); [by right | done |]. by eexists.
  - destruct (map_case_ascii tolower b2) as (b3 & -> & H3); [by left | done |]. by eexists.
  - cbn [mbind option_bind]. destruct (map_case_ascii toupper b2) as (b4 & -> & _); [by right | done |]. by eexists.
Qed.

Lemma deliver_forall P sizes n rounds : ∀ k data, Forall P data → Forall (Forall P) (deliver sizes n rounds k data).
Proof.
  induction rounds as [| rounds IH]; intros k [| x data] H; cbn [deliver]; [constructor.. |]. constructor; [by apply Forall_take | by apply IH, Forall_drop].
Qed.

Lemma convert_all v bs : (maps_case v = true → Forall (Forall ascii_byte) bs) → ∃ cbs, mapM (convert v) bs = Some cbs.
Proof.
  induction bs as [| b bs IH]; intros H; [by exists [] |]. destruct (convert_total v b) as [r Er]; [intros Hm; by apply H, Forall_cons in Hm as [? _] |].
  destruct IH as [cbs Ecbs]; [intros Hm; by apply H, Forall_cons in Hm as [_ ?] |]. exists (r :: cbs). cbn [mapM]. rewrite Er. cbn [mbind option_bind]. by rewrite Ecbs.
Qed.

(** ** The program *)

(** The numbers that are set are not negative. *)
Definition natural (v : vars) : Prop := 0 <= count v ∧ 0 <= seek v ∧ 0 <= skip v.
Definition keeps {A} (m : prog vars A) : Prop := ∀ v, natural v → match m v with Ret (_, v') => natural v' | _ => True end.

Lemma keeps_bind {A B} (m : prog vars A) (f : A → prog vars B) : keeps m → (∀ a, keeps (f a)) → keeps (m ≫= f).
Proof. intros Hm Hf v Hv. specialize (Hm v Hv). unfold mbind, prog_bind. destruct (m v) as [[a v'] | |]; [by apply Hf | done | done]. Qed.
Lemma keeps_ret {A} (a : A) : keeps (mret a).
Proof. by intros v Hv. Qed.
Lemma keeps_get : keeps get_st.
Proof. by intros v Hv. Qed.
Lemma keeps_of_option {A} (o : option A) : keeps (of_option o).
Proof. by destruct o; intros v Hv. Qed.
Lemma keeps_modify f : (∀ v, natural v → natural (f v)) → keeps (modify f).
Proof. intros H v Hv. by apply H. Qed.

Lemma keeps_operands args : keeps (parse_operands args).
Proof.
  induction args as [| a args IH]; cbn [parse_operands]; [apply keeps_ret |]. apply keeps_bind; [apply keeps_of_option |]. intros [key str].
  destruct (find_opt _ _ _); [| apply keeps_ret]. apply keeps_bind; [by apply keeps_modify | done].
Qed.
Lemma keeps_convs words : keeps (parse_convs words).
Proof.
  induction words as [| w words IH]; cbn [parse_convs]; [apply keeps_ret |]. destruct (find_conv _ _); [| apply keeps_ret]. apply keeps_bind; [by apply keeps_modify | done].
Qed.
Lemma keeps_size opt set : (∀ n v, natural v → natural (set n v)) → keeps (set_number opt parse_bs set).
Proof.
  intros H. unfold set_number. apply keeps_bind; [apply keeps_get |]. intros v. destruct (opt_str opt v); [| apply keeps_ret]. apply keeps_bind; [| intros n; apply keeps_modify, H].
  unfold parse_bs. destruct (parse_bs_loop _ _ _); [apply keeps_ret | by intros w _].
Qed.
Lemma keeps_number opt set : (∀ n v, 0 <= n → natural v → natural (set n v)) → keeps (set_number opt parse_count set).
Proof.
  intros H. unfold set_number. apply keeps_bind; [apply keeps_get |]. intros v. destruct (opt_str opt v) as [str |]; [| apply keeps_ret].
  intros w Hw. unfold mbind, prog_bind, parse_count. destruct (parse_num 10 str) as [val n]. destruct (_ || _); [done |]. cbn. apply H; [apply (wrapu_range 32); lia | done].
Qed.

Lemma keeps_options argv : keeps (parse_options argv).
Proof.
  unfold parse_options. apply keeps_bind; [apply keeps_operands |]. intros known. destruct (negb known); [apply keeps_ret |].
  do 3 (apply keeps_bind; [apply keeps_size; by intros n v |]; intros _). do 3 (apply keeps_bind; [apply keeps_number; intros n v ? (? & ? & ?); by split_and! |]; intros _).
  apply keeps_bind; [apply keeps_size; by intros n v |]. intros _. apply keeps_bind; [apply keeps_get |]. intros v.
  apply keeps_bind; [destruct (opt_str OPT_CONV v); [apply keeps_convs | apply keeps_ret] |]. intros ok. destruct (negb ok); [apply keeps_ret |].
  apply keeps_bind; [apply keeps_get |]. intros v'. apply keeps_ret.
Qed.

(** The input behind the skipped blocks, and the place of the output. *)
Definition skipped (v : vars) : Z := if given OPT_SKIP v then skip v * ibs v else 0.
Definition sought (v : vars) : Z := if given OPT_SEEK v then seek v * obs v else 0.

Record dd_ok (v : vars) (fuel : nat) (s : io) : Prop := {
  do_ibs : 0 < ibs v < 2 ^ 31;
  do_obs : 0 < obs v < 2 ^ 31;
  do_block : has (Z.lor CONV_BLOCK CONV_UNBLOCK) (conv v) = false;
  do_noerror : has CONV_NOERROR (conv v) = false;
  do_case : maps_case v = true → Forall ascii_byte (contents s);
  do_in : 0 <= pos s ∧ pos s + skipped v < 2 ^ 31;
  do_out : 0 <= wpos s ∧ wpos s + sought v < 2 ^ 31 ∧ (given OPT_SEEK v = true → wseekable s = true);
  do_fuel : (Z.to_nat (ibs v) <= fuel)%nat ∧ (length (contents s) < fuel)%nat;
}.

Lemma deliver_length sizes n rounds : (0 < n)%nat → ∀ k data, (length (deliver sizes n rounds k data) <= length data)%nat.
Proof.
  intros Hn. induction rounds as [| rounds IH]; intros k [| x data]; cbn [deliver length]; [lia.. |].
  specialize (IH (S k) (drop (Nat.min (Nat.max 1 (sizes k)) n) (x :: data))). rewrite length_drop in IH. simpl length in IH. lia.
Qed.

Section program.
Context (answer : nat → read_answer) (sizes : nat → nat).
Context (Hanswer : ∀ k, answer k = Chunk (sizes k)).

Lemma seek_phase v fuel s : dd_ok v fuel s → natural v →
  (if given OPT_SEEK v then skip_blocks answer fuel Output (seek v) (obs v) else mret 0) s = Ret (0, wmove (wpos s + sought v) s).
Proof using Type.
  intros [] (_ & Hseek & _). unfold sought in *. destruct (given OPT_SEEK v).
  - apply skip_output; [done | lia | tauto | tauto | tauto].
  - rewrite Z.add_0_r. by destruct s.
Qed.

Lemma skip_phase v fuel s : 0 < ibs v < 2 ^ 31 → natural v → (Z.to_nat (ibs v) <= fuel)%nat → 0 <= pos s → pos s + skipped v < 2 ^ 31 →
  ∃ s', (if given OPT_SKIP v then skip_blocks answer fuel Input (skip v) (ibs v) else mret 0) s = Ret (0, s') ∧ progress [] 0 0 s s' ∧ 0 <= pos s' ∧
    rest_of s' = drop (Z.to_nat (skipped v)) (rest_of s).
Proof using Hanswer.
  intros Hibs (_ & _ & Hskip) Hf Hpos Hlim. unfold skipped in *. destruct (given OPT_SKIP v).
  - by apply (skip_input answer sizes Hanswer); [| lia |..].
  - exists s. split_and!; [done | apply progress_refl | done | done].
Qed.

Lemma main_run argv v fuel s : parse_options argv initial_vars = Ret (0, v) → dd_ok v fuel s →
  let data := drop (Z.to_nat (skipped v)) (rest_of s) in
  ∃ k cbs s', let bs := deliver sizes (Z.to_nat (ibs v)) (if given OPT_COUNT v then Z.to_nat (count v) else length data) k data in
    mapM (convert v) bs = Some cbs ∧ main answer fuel argv s = Ret (0, s') ∧
    written s' = written s ++ place (wpos s + sought v) (chunks (Z.to_nat (obs v)) (concat cbs)) ∧
    u32 (in_full (st s')) = u32 (Z.of_nat (full_blocks v bs)) ∧ u32 (in_partial (st s')) = u32 (Z.of_nat (partial_blocks v bs)).
Proof using Hanswer.
  intros Hparse Hok data. assert (natural v) as Hnat by (pose proof (keeps_options argv initial_vars) as Hk; rewrite Hparse in Hk; by apply Hk).
  pose proof Hok as [Hibs Hobs Hblock Hnoerr Hcase [Hpos Hlim] _ [Hf1 Hf2]]. set (s1 := wmove (wpos s + sought v) s).
  destruct (skip_phase v fuel s1 Hibs Hnat Hf1 Hpos Hlim) as (s2 & E2 & [Hw2 Hwp2 Hif2 Hip2 _ _ Hc2] & Hpos2 & Hr2).
  change (rest_of s1) with (rest_of s) in Hr2. fold data in Hr2. exists (nreads s2).
  set (s2' := mk_io (contents s2) (pos s2) (seekable s2) (nreads s2) (wseekable s2) (wpos s2) (written s2) (mk_stats 0 0 0 0)).
  set (bs := deliver _ _ _ _ data). destruct (convert_all v bs) as [cbs Ecbs].
  { intros Hm. apply deliver_forall. unfold data, rest_of. by apply Forall_drop, Forall_drop, Hcase. }
  assert (length bs < fuel)%nat as Hlen.
  { eapply Nat.le_lt_trans; [apply deliver_length; lia |]. unfold data, rest_of. rewrite !length_drop. lia. }
  destruct (do_dd_ok answer sizes v Hanswer Hibs Hobs Hnoerr fuel s2' cbs Hpos2 (proj1 Hnat)) as (s3 & E3 & Hw3 & Hif3 & Hip3); [by change (rest_of s2') with (rest_of s2); rewrite Hr2 | by change (rest_of s2') with (rest_of s2); rewrite Hr2 |].
  change (rest_of s2') with (rest_of s2) in Hif3, Hip3. rewrite Hr2 in Hif3, Hip3. exists cbs, s3. split_and!.
  - done.
  - unfold main. rewrite Hparse. change (negb (0 =? 0)) with false. cbv iota. rewrite Hblock, (proj2 (Z.eqb_neq (ibs v) 0)), (proj2 (Z.eqb_neq (obs v) 0)) by lia. cbn [orb]. rewrite (pbind_ok _ _ _ _ _ (seek_phase v fuel s Hok Hnat)). cbn [negb Z.eqb].
    rewrite (pbind_ok _ _ _ _ _ E2). cbn [negb Z.eqb]. unfold count_stat. erewrite pbind_ok by done. by rewrite (pbind_ok _ _ _ _ _ E3).
  - rewrite Hw3. cbn [written wpos s2']. rewrite Hw2, Hwp2. cbn [place concat length]. rewrite app_nil_r, Z.add_0_r. done.
  - done.
  - done.
Qed.
End program.

(** C17.  Copying: with block sizes in range and no read error, on a file as on
    a pipe that delivers blocks of any sizes, [dd] ends with status 0; it skips
    [skip] blocks of input and [seek] blocks of output, reads blocks until the
    end or [count] of them, converts each, and writes the concatenation of the
    results in blocks of exactly [obs] bytes and a rest, one behind the other;
    the counts of full and partial blocks read are those of the blocks
    delivered. *)
Theorem dd_correct answer sizes argv v fuel s : (∀ k, answer k = Chunk (sizes k)) → parse_options argv initial_vars = Ret (0, v) → dd_ok v fuel s →
  let data := drop (Z.to_nat (skipped v)) (rest_of s) in
  ∃ k cbs s', let bs := deliver sizes (Z.to_nat (ibs v)) (if given OPT_COUNT v then Z.to_nat (count v) else length data) k data in
    mapM (convert v) bs = Some cbs ∧ main answer fuel argv s = Ret (0, s') ∧
    written s' = written s ++ place (wpos s + sought v) (chunks (Z.to_nat (obs v)) (concat cbs)) ∧
    u32 (in_full (st s')) = u32 (Z.of_nat (full_blocks v bs)) ∧ u32 (in_partial (st s')) = u32 (Z.of_nat (partial_blocks v bs)).
Proof. intros Hanswer Hparse Hok. by apply main_run. Qed.

Definition example_args : list (list Z) := text <$> ["dd"; "ibs=2"; "obs=3"; "skip=1"; "conv=swab,notrunc"]%string.
Definition example_io : io := mk_io [65; 66; 67; 68; 69; 70; 71] 0 false 0 true 0 [] (mk_stats 0 0 0 0).

Lemma dd_correct_witness : ∃ v s', parse_options example_args initial_vars = Ret (0, v) ∧ main (λ _, Chunk 5) 10 example_args example_io = Ret (0, s') ∧
  written s' = [(0, [68; 67; 70]); (3, [69; 71])].
Proof.
  destruct (parse_options example_args initial_vars) as [[ret v] | |] eqn:E; [| vm_compute in E; discriminate E..].
  assert (ret = 0) as -> by (vm_compute in E; by injection E). assert (ibs v = 2 ∧ obs v = 3 ∧ skip v = 1 ∧ conv v = 80 ∧ strs v = strs v) as (Hi & Ho & Hk & Hc & _) by (vm_compute in E; injection E as <-; done).
  assert (dd_ok v 10 example_io) as Hok.
  { vm_compute in E. injection E as <-. split; (reflexivity || (vm_compute; split_and!; (reflexivity || discriminate || lia)) || discriminate || idtac). }
  destruct (dd_correct (λ _, Chunk 5) (λ _, 5%nat) example_args v 10 example_io (λ _, eq_refl) E Hok) as (k & cbs & s' & Hm & Hmain & Hw & _).
  exists v, s'. split_and!; [done | done |]. vm_compute in E. injection E as <-. rewrite Hw. vm_compute in Hm. injection Hm as <-. vm_compute. reflexivity.
Defined.

(** Without conversions the output is the input. *)
Lemma convert_plain v bs : conv v = 0 ∨ conv v = CONV_NOTRUNC → mapM (convert v) bs = Some bs.
Proof.
  intros H. assert (∀ b, convert v b = Some b) as Hc by (intros b; unfold convert; by destruct H as [-> | ->]).
  induction bs as [| b bs IH]; [done |]. cbn [mapM]. rewrite Hc. cbn [mbind option_bind]. by rewrite IH.
Qed.

Theorem dd_copies answer sizes argv v fuel s : (∀ k, answer k = Chunk (sizes k)) → parse_options argv initial_vars = Ret (0, v) → dd_ok v fuel s →
  conv v = 0 ∨ conv v = CONV_NOTRUNC → given OPT_COUNT v = false →
  ∃ s', main answer fuel argv s = Ret (0, s') ∧
    written s' = written s ++ place (wpos s + sought v) (chunks (Z.to_nat (obs v)) (drop (Z.to_nat (skipped v)) (rest_of s))).
Proof.
  intros Hanswer Hparse Hok Hconv Hcount. destruct (main_run answer sizes Hanswer argv v fuel s Hparse Hok) as (k & cbs & s' & Hm & Hmain & Hw & _).
  exists s'. split; [done |]. rewrite convert_plain in Hm by done. injection Hm as <-. rewrite Hw, Hcount, deliver_concat; [done | destruct Hok; lia | done].
Qed.

(** With [conv=noerror] and without [count=] the loop does not end: the end of
    the input is taken for an error that is to be ignored. *)
Theorem noerror_endless answer sizes v : (∀ k, answer k = Chunk (sizes k)) → 0 < obs v < 2 ^ 31 → has CONV_NOERROR (conv v) = true → maps_case v = false →
  ∀ fuel out s, Z.of_nat (length out) < obs v → dd_loop answer fuel v None out s = Fault.
Proof.
  intros Hanswer Hobs Hno Hcase. induction fuel as [| fuel IH]; intros out s Ho; [done |]. cbn [dd_loop]. rewrite bool_decide_eq_false_2 by done.
  unfold read at 1. unfold mbind at 1, prog_bind at 1. rewrite Hanswer. cbv zeta. rewrite Hno. cbn [negb]. rewrite andb_false_r. set (b := take _ _). set (s1 := next_read _).
  unfold count_stat. erewrite pbind_ok by done. destruct (convert_total v b) as [cb Ecb]; [congruence |]. rewrite Ecb. erewrite pbind_ok by done.
  match goal with |- (put_block _ _ _ ≫= _) ?s2 = _ => destruct (put_block_ok (obs v) Hobs out cb s2 Ho) as (ws & out' & s3 & E & _ & _ & _ & _ & Ho') end.
  rewrite (pbind_ok _ _ _ _ _ E). by apply IH.
Qed.

(** *** The operands *)

(** An operand with the full name of an option sets it. *)
Theorem operand_recognised i name value : option_names !! i = Some name → split_operand (name ++ 61 :: value) = Some (name, value) ∧ find_opt 0 option_names name = Some i.
Proof.
  intros Hi. split.
  - unfold split_operand. assert (list_find (λ c, c = 61) (name ++ 61 :: value) = Some (length name, 61)) as ->.
    { apply list_find_Some. split_and!; [by rewrite list_lookup_middle | done |]. intros j y Hj Hlt. rewrite lookup_app_l in Hj by done.
      assert (Forall (λ c, c ≠ 61) name) as Hn by (assert (Forall (Forall (λ c, c ≠ 61)) option_names) as Hall by (apply (bool_decide_unpack _); vm_compute; exact I);
        rewrite Forall_lookup in Hall; by apply (Hall i)). rewrite Forall_lookup in Hn. by apply (Hn j). }
    f_equal. rewrite take_app_length, drop_app_ge by lia. by replace (S (length name) - length name)%nat with 1%nat by lia.
  - assert (Forall (λ '(i, name), find_opt 0 option_names name = Some i) (imap pair option_names)) as Hall by (apply (bool_decide_unpack _); vm_compute; exact I).
    rewrite Forall_lookup in Hall. specialize (Hall i (i, name)). rewrite list_lookup_imap, Hi in Hall. by apply Hall.
Qed.

(** A size is a product of decimal numbers, each with a unit. *)
Inductive size_unit := Bytes | Blocks | Kilobytes.
Definition unit_text (u : size_unit) : list Z := match u with Bytes => [] | Blocks => [98] | Kilobytes => [107] end.
Definition unit_value (u : size_unit) : Z := match u with Bytes => 1 | Blocks => 512 | Kilobytes => 1024 end.
Fixpoint size_text (f : list Z * size_unit) (fs : list (list Z * size_unit)) : list Z :=
  f.1 ++ unit_text f.2 ++ match fs with [] => [] | f' :: fs => 120 :: size_text f' fs end.
Fixpoint size_value (fs : list (list Z * size_unit)) : Z :=
  match fs with [] => 1 | f :: fs => positional 10 f.1 * unit_value f.2 * size_value fs end.
Definition number (ds : list Z) : Prop := ds ≠ [] ∧ Forall (λ c, digit_in 10 c = true) ds ∧ bytes ds.

Lemma u64_mul_l a b : u64 (u64 a * b) = u64 (a * b).
Proof. unfold wrapu. apply Zmult_mod_idemp_l. Qed.
Lemma u64_mul_r a b : u64 (a * u64 b) = u64 (a * b).
Proof. unfold wrapu. apply Zmult_mod_idemp_r. Qed.

Lemma u64_factor r m m' v : u64 m' = u64 m → u64 (u64 (r * m') * v) = u64 (r * (m * v)).
Proof. intros H. rewrite u64_mul_l. replace (r * m' * v) with (m' * (r * v)) by ring. rewrite <- u64_mul_l, H, u64_mul_l. f_equal. ring. Qed.

Theorem parse_bs_product fs : ∀ f fuel r, Forall (λ f, number f.1) (f :: fs) → (length fs < fuel)%nat →
  parse_bs_loop fuel (size_text f fs) r = Some (u64 (r * size_value (f :: fs))).
Proof.
  induction fs as [| f' fs IH]; intros [ds u] fuel r Hfs Hfuel; (destruct fuel as [| fuel]; [simpl in Hfuel; lia |]);
    apply Forall_cons in Hfs as [(Hne & Hds & Hb) Hfs]; cbn [fst snd] in *; cbn [size_text parse_bs_loop fst snd].
  - set (rest := unit_text u ++ []). pose proof (parse_num_grammar [] None [] ds rest 10 10) as Hp. cbn [app sign_text apply_sign] in Hp.
    rewrite Hp; [| constructor | by constructor | done | done | done | done | unfold rest; by destruct u; intros c t [= <- <-]]. rewrite drop_app_length. destruct (Nat.eqb_spec (length ds) 0) as [E |]; [by apply nil_length_inv in E |].
    unfold rest. cbn [size_value fst snd]. destruct u; cbn [unit_text unit_value app]; rewrite ?u64_mul_l, u64_mul_r; do 2 f_equal; lia.
  - set (tl := size_text f' fs) in *. set (rest := unit_text u ++ 120 :: tl). pose proof (parse_num_grammar [] None [] ds rest 10 10) as Hp. cbn [app sign_text apply_sign] in Hp.
    rewrite Hp; [| constructor | by constructor | done | done | done | done | unfold rest; by destruct u; intros c t [= <- <-]]. rewrite drop_app_length. destruct (Nat.eqb_spec (length ds) 0) as [E |]; [by apply nil_length_inv in E |].
    unfold rest. cbn [size_value fst snd]. simpl in Hfuel.
    destruct u; cbn [unit_text unit_value app]; change (120 =? 120) with true; cbv iota; unfold tl; rewrite IH by (done || lia); cbn [size_value fst snd]; 
      f_equal; apply u64_factor; rewrite ?u64_idem, ?u64_mul_l, ?Z.mul_1_r; done.
Qed.

(** An argument without [=] is taken for [bs]. *)
Example operand_without_name : ∃ v, parse_options (text <$> ["dd"; "x10"]%string) initial_vars = Ret (0, v) ∧ ibs v = 10 ∧ obs v = 10.
Proof. eexists. split; [vm_compute; reflexivity | done]. Qed.
