(* ===== verification/Rootdev.v ===== *)
(** * Names of devices: [kinit/name_to_dev.c], [kinit/devname.c],
    [kinit/getintfile.c] and [kinit/resume/resumelib.c]

    The files of sysfs are a function from paths to contents, the device nodes
    one from paths to modes and device numbers.  Strings are lists of
    characters without the NUL; a computation that reads beyond the end of a
    string is [None].

    The theorems: disks, their partitions in both spellings, numbers in both
    bases and the special names get the device numbers the comment of
    [name_to_dev_t] promises. *)

From stdpp Require Import base numbers list strings.
From Stdlib Require Import Lia.
From S2P Require Import Prelude Memory Ctype Numparse Printf Inet Ipconfig Kinit Devno.

#[local] Set Warnings "-register-all".

Definition BUF_SZ : Z := 65536.

Definition Root_RAM0 : Z := makedev 1 0.
Definition Root_NFS : Z := makedev 0 255.
Definition Root_MTD : Z := makedev 0 254.
Definition Root_MULTI : Z := makedev 0 253.

(** The string in a buffer: what is in front of the first NUL. *)
Fixpoint c_string (l : list Z) : list Z :=
  match l with
  | [] => []
  | c :: l => if c =? 0 then [] else c :: c_string l
  end.

(** [snprintf] into a buffer of [BUF_SZ] bytes *)
Definition fit (path : list Z) : list Z := take (Z.to_nat (BUF_SZ - 1)) path.

Definition is_digit (c : Z) : bool := negb (isdigit (s8 c) =? 0).

Section devices.
Context (file : list Z → option (list Z)) (stat : list Z → option (Z * Z)).

(** [open], [read] of at most [size] bytes, and the test that a line was read:
    the line without its end. *)
Definition read_line (path : list Z) (size : Z) : option (list Z) :=
  contents ← file path;
  let buf := take (Z.to_nat size) contents in
  let len := Z.of_nat (length buf) in
  if (len <=? 0) || (len =? size) || negb (default 0 (last buf) =? 10) then None
  else Some (c_string (removelast buf)).

(** [strtoul], with what follows the number *)
Definition strtoul (base : Z) (s : list Z) : Z * list Z :=
  let '(v, n) := parse_num base s in (v, drop n s).

(** ["major:minor"] *)
Definition device_of_line (buf : list Z) : option Z :=
  let '(ma, s) := strtoul 10 buf in
  match s with
  | 58 :: s =>
      let '(mi, s) := strtoul 10 s in
      match s with
      | [] => Some (makedev (s32 ma) (s32 mi))
      | _ => None
      end
  | _ => None
  end.

(** [part] is an [int], 0 for the disk itself; 0 is also the failure. *)
Definition try_name (name : list Z) (part : Z) : Z :=
  match read_line (fit (text "/sys/block/" ++ name ++ text "/dev")) BUF_SZ ≫= device_of_line with
  | None => 0
  | Some res =>
      if part =? 0 then res
      else
        match read_line (fit (text "/sys/block/" ++ name ++ text "/range")) 32 with
        | None => 0
        | Some buf =>
            let '(v, s) := strtoul 10 buf in
            match s with
            | [] => let range := s32 v in if part <? range then u32 (res + part) else 0
            | _ => 0
            end
        end
  end.

(** [while (p > s && isdigit(p[-1])) p--;]: the name without the digits at its
    end, and the digits *)
Fixpoint split_digits (s digits : list Z) : list Z * list Z :=
  match s with
  | [] => ([], digits)
  | c :: s => if is_digit c then split_digits s (c :: digits) else (reverse (c :: s), digits)
  end.

(** A disk or a partition of it. *)
Definition disk_or_partition (name : list Z) : Z :=
  let s := (λ c, if c =? 47 then 33 else c) <$> name in
  let res := try_name s 0 in
  if negb (res =? 0) then res
  else
    let '(base, digits) := split_digits (reverse s) [] in
    if bool_decide (base = []) || (default 48 (head digits) =? 48) then 0
    else
      let part := s32 (strtoul 10 digits).1 in
      let res := try_name base part in
      if negb (res =? 0) then res
      else
        match reverse base with
        | c :: d :: base' => if negb (is_digit d) || negb (c =? 112) then 0 else try_name (reverse (d :: base')) part
        | _ => 0
        end.

(** [strchr(s, ':')]: what is in front of it and behind it *)
Fixpoint split_colon (s : list Z) : option (list Z * list Z) :=
  match s with
  | [] => None
  | c :: s => if c =? 58 then Some ([], s) else (λ '(a, b), (c :: a, b)) <$> split_colon s
  end.

(** A number in place of a name; [devname] has at least five characters, or
    the search for the colon begins behind its end. *)
Definition device_number (name devname : list Z) : option (option Z) :=
  if (length devname <? 5)%nat then None
  else
    Some match split_colon (drop 5 devname) with
         | Some (a, (_ :: _) as b) =>
             let '(ma, e1) := strtoul 10 a in
             let '(mi, e2) := strtoul 10 b in
             if bool_decide (e1 = []) && bool_decide (e2 = []) then Some (makedev (s32 ma) (s32 mi)) else None
         | _ =>
             let '(res, p) := strtoul 16 name in
             if bool_decide (p = []) then Some (u32 res) else None
         end.

Definition special_name (name : list Z) : option Z :=
  if bool_decide (name = text "nfs") then Some Root_NFS
  else if bool_decide (name = text "ram") then Some Root_RAM0
  else if bool_decide (take 3 name = text "mtd") then Some Root_MTD
  else None.

Definition block_node (devname : list Z) : option Z :=
  match stat devname with
  | Some (st_mode, st_rdev) => if S_ISBLK st_mode then Some st_rdev else None
  | None => None
  end.

Definition name_to_dev_t (name : list Z) : option Z :=
  if bool_decide (44 ∈ name) then Some Root_MULTI
  else
    let devname := if default 0 (head name) =? 47 then name else text "/dev/" ++ name in
    match block_node devname with
    | Some st_rdev => Some st_rdev
    | None =>
        let other (name : list Z) := match special_name name with Some res => res | None => disk_or_partition name end in
        if bool_decide (take 5 name = text "/dev/") then Some (other (drop 5 name))
        else
          res ← device_number name devname;
          Some match res with Some res => res | None => other name end
    end.
End devices.

(** ** The name of a device *)

Definition BUF_SIZE : Z := 512.
Definition DT_UNKNOWN : Z := 0.
Definition DT_DIR : Z := 4.

Section sysfs.
Context (file : list Z → option (list Z)) (entries : list Z → option (list (list Z * Z))).

(** The file [dev] of an entry.  [namebuf[rd] = '\0'] is outside of the buffer
    if the file fills it: the outer option.  The inner one says whether the
    major number is that of [dev], and gives the minor number. *)
Definition entry_minor (path : list Z) (dev : Z) : option (option Z) :=
  match file (path ++ text "/dev") with
  | None => Some None
  | Some contents =>
      let namebuf := take (Z.to_nat BUF_SIZE) contents in
      if Z.of_nat (length namebuf) =? BUF_SIZE then None
      else
        Some (let '(ma, ep) := strtoul 10 (c_string namebuf) in
              match ep with
              | 58 :: ep =>
                  if negb (ma =? major dev) then None
                  else let '(mi, ep) := strtoul 10 ep in match ep with 10 :: _ => Some mi | _ => None end
              | _ => None
              end)
  end.

(** The loop over the entries of [sysdir], with [down] for a directory below. *)
Fixpoint scan_entries (down : list Z → option (option (list Z))) (sysdir : list Z) (dev : Z) (es : list (list Z * Z)) : option (option (list Z)) :=
  match es with
  | [] => Some None
  | (d_name, d_type) :: es =>
      let next := scan_entries down sysdir dev es in
      if default 0 (head d_name) =? 46 then next
      else if negb (d_type =? DT_UNKNOWN) && negb (d_type =? DT_DIR) then next
      else if BUF_SIZE - 64 - (Z.of_nat (length sysdir) + 1) <=? Z.of_nat (length d_name) then next
      else
        let path := sysdir ++ [47] ++ d_name in
        mi ← entry_minor path dev;
        match mi with
        | None => next
        | Some mi =>
            if mi =? minor dev then Some (Some d_name)
            else
              found ← down path;
              match found with Some name => Some (Some name) | None => next end
        end
  end.

(** The name, if it was found. *)
Fixpoint scansysdir (fuel : nat) (sysdir : list Z) (dev : Z) : option (option (list Z)) :=
  match fuel with
  | O => None
  | S fuel =>
      match entries sysdir with
      | None => Some None
      | Some es => scan_entries (λ path, scansysdir fuel path dev) sysdir dev es
      end
  end.

(** A path has less than [BUF_SIZE] characters, which bounds the depth. *)
Definition bdevname (dev : Z) : option (list Z) :=
  name ← scansysdir (Z.to_nat BUF_SIZE) (text "/sys/block") dev;
  Some (default (text "dev") name ++ text "(" ++ dec (major dev) ++ text "," ++ dec (minor dev) ++ text ")").
End sysfs.

(** ** Numbers in files, and resuming *)

(** The result and the new value of [*val]. *)
Definition getintfile (file : list Z → option (list Z)) (path : list Z) (val : Z) : Z * Z :=
  match file path with
  | None => (-1, val)
  | Some contents =>
      let '(v, ep) := strtoul 0 (c_string (take 63 contents)) in
      (match ep with [] => 0 | c :: _ => if c =? 10 then 0 else -1 end, s64 v)
  end.

Section resume.
Context (file : list Z → option (list Z)) (stat : list Z → option (Z * Z)).

(** What is written to [/sys/power/resume]; [resume] itself returns -1, if it
    returns. *)
Definition resume (resume_file : list Z) (resume_offset : Z) : option (option (list Z)) :=
  resume_device ← name_to_dev_t file stat resume_file;
  Some (if major resume_device =? 0 then None
        else
          let device_string := dec (major resume_device) ++ text ":" ++ dec (minor resume_device) ++ text ":" ++ dec resume_offset in
          if 64 <=? Z.of_nat (length device_string) then None else Some device_string).

Definition do_resume (argv : list (list Z)) : option (option (list Z)) :=
  match get_arg argv (text "resume=") with
  | None => Some None
  | Some resume_file =>
      let resume_offset := match get_arg argv (text "resume_offset=") with Some a => (strtoul 0 a).1 | None => 0 end in
      if negb (get_flag argv (text "noresume") =? 0) then Some None else resume resume_file resume_offset
  end.
End resume.

(** ** Numbers *)

Definition numeral (base : Z) (ds : list Z) : Prop := ds ≠ [] ∧ Forall (λ c, digit_in base c = true ∧ in_u 8 c) ds.

Lemma numeral_parts base ds : numeral base ds → ds ≠ [] ∧ Forall (λ c, digit_in base c = true) ds ∧ bytes ds.
Proof. intros [Hne Hds]. split_and!; [done | |]; (eapply Forall_impl; [done |]); naive_solver. Qed.

Lemma strtoul_decimal ds rest : numeral 10 ds → (∀ c t, rest = c :: t → digit_in 10 c = false) →
  strtoul 10 (ds ++ rest) = (u64 (positional 10 ds), rest).
Proof.
  intros (Hne & Hd & Hb)%numeral_parts Hrest. unfold strtoul. pose proof (parse_num_grammar [] None [] ds rest 10 10) as Hp. cbn [app sign_text apply_sign] in Hp.
  rewrite Hp; [by rewrite drop_app_length | constructor | by constructor | done | done | done | done | done].
Qed.

Lemma digit_16 c : digit_in 16 c = true → in_u 8 c → c ≠ 120 ∧ c ≠ 88.
Proof. intros Hd Hc. split; intros ->; vm_compute in Hd; discriminate. Qed.

Lemma strtoul_hex ds : numeral 16 ds → strtoul 16 ds = (u64 (positional 16 ds), []).
Proof.
  intros Hn. destruct (numeral_parts _ _ Hn) as (Hne & Hd & Hb). unfold strtoul. pose proof (parse_num_grammar [] None [] ds [] 16 16) as Hp.
  cbn [app sign_text apply_sign] in Hp. rewrite app_nil_r in Hp. rewrite Hp; [by rewrite drop_all | constructor | | done | done | done | done | done].
  apply BPhex_bare. destruct Hn as [_ Hall]. destruct ds as [| a [| b ds]]; [done | done |]. cbn [starts_0x]. apply Forall_cons in Hall as [_ [[Hb1 Hb2] _]%Forall_cons].
  destruct (digit_16 b Hb1 Hb2). rewrite (proj2 (Z.eqb_neq b 120)), (proj2 (Z.eqb_neq b 88)) by done. by rewrite andb_false_r.
Qed.

(** A digit is a digit. *)
Lemma is_digit_decimal c : in_u 8 c → is_digit c = digit_in 10 c.
Proof.
  intros Hc. assert (∀ c, 0 <= c <= 255 → bool_decide (is_digit c = digit_in 10 c) = true) as H by (apply uchar_all; vm_compute; reflexivity).
  specialize (H c). rewrite bool_decide_eq_true in H. apply H. unfold in_u in Hc. lia.
Qed.

Lemma c_string_whole l : 0 ∉ l → c_string l = l.
Proof. induction l as [| c l IH]; intros H; [done |]. apply not_elem_of_cons in H as [Hc Hl]. cbn [c_string]. rewrite (proj2 (Z.eqb_neq c 0)), IH by done. done. Qed.

Lemma numeral_nul base ds : numeral base ds → 0 ∉ ds.
Proof. intros [_ Hds] Hin. rewrite Forall_forall in Hds. destruct (Hds 0 Hin) as [Hd _]. vm_compute in Hd. by destruct base. Qed.

(** ** Disks *)

Section named.
Context (file : list Z → option (list Z)) (stat : list Z → option (Z * Z)).

Lemma read_line_ok path size l : file path = Some (l ++ [10]) → 0 ∉ l → Z.of_nat (length l) + 1 < size → read_line file path size = Some l.
Proof using Type.
  intros Hf Hl Hs. unfold read_line. rewrite Hf. cbn [mbind option_bind]. rewrite take_ge by (rewrite length_app; simpl; lia). rewrite length_app. cbn [length].
  rewrite (proj2 (Z.leb_gt _ 0)), (proj2 (Z.eqb_neq _ size)), last_snoc by lia. cbn. by rewrite removelast_last, c_string_whole.
Qed.

(** The entry of a disk in sysfs: its number and how many minor numbers are
    its own. *)
Record disk (name : list Z) (dev range : Z) : Prop := {
  disk_len : (length name < 1000)%nat;
  disk_dev : ∃ ma mi, numeral 10 ma ∧ numeral 10 mi ∧ (length ma + length mi < 1000)%nat ∧ positional 10 ma < 2 ^ 31 ∧ positional 10 mi < 2 ^ 31 ∧
    file (text "/sys/block/" ++ name ++ text "/dev") = Some (ma ++ [58] ++ mi ++ [10]) ∧ dev = makedev (positional 10 ma) (positional 10 mi);
  disk_range : ∃ r, numeral 10 r ∧ (length r < 31)%nat ∧ file (text "/sys/block/" ++ name ++ text "/range") = Some (r ++ [10]) ∧ range = positional 10 r ∧ range < 2 ^ 31;
}.
Definition no_disk (name : list Z) : Prop := (length name < 2000)%nat ∧ file (text "/sys/block/" ++ name ++ text "/dev") = None.

Lemma fit_short path : (length path < 4000)%nat → fit path = path.
Proof using Type. intros H. unfold fit, BUF_SZ. rewrite take_ge; [done |]. lia. Qed.

Lemma positional_nonneg ds : numeral 10 ds → 0 <= positional 10 ds.
Proof using Type.
  intros [_ Hd]. induction Hd as [| c ds [Hc _] _ IH]; [done |]. cbn [positional]. unfold digit_in in Hc. apply andb_prop in Hc as [Hc%Z.leb_le _]. nia.
Qed.

Lemma int_of_decimal ds : numeral 10 ds → positional 10 ds < 2 ^ 31 → s32 (u64 (positional 10 ds)) = positional 10 ds.
Proof using Type.
  intros Hn Hb. pose proof (positional_nonneg ds Hn). rewrite (wrapu_small 64) by (unfold in_u; lia). apply wraps_small; [done | unfold in_s; lia].
Qed.

Lemma device_of_line_ok ma mi : numeral 10 ma → numeral 10 mi → positional 10 ma < 2 ^ 31 → positional 10 mi < 2 ^ 31 →
  device_of_line (ma ++ 58 :: mi) = Some (makedev (positional 10 ma) (positional 10 mi)).
Proof using Type.
  intros Hma Hmi Hb1 Hb2. unfold device_of_line. rewrite strtoul_decimal by (done || (intros c t [= <- <-]; done)).
  pose proof (strtoul_decimal mi [] Hmi) as E. rewrite app_nil_r in E. rewrite E by done. by rewrite !int_of_decimal.
Qed.

Lemma try_disk name dev range : disk name dev range → try_name file name 0 = dev.
Proof using Type.
  intros [Hlen (ma & mi & Hma & Hmi & Hl & Hb1 & Hb2 & Hf & ->) _]. unfold try_name. rewrite fit_short by (rewrite !length_app; simpl; lia).
  rewrite (read_line_ok _ BUF_SZ (ma ++ 58 :: mi)); [| by rewrite Hf, <- !app_assoc | | rewrite length_app; simpl; unfold BUF_SZ; lia].
  - cbn [mbind option_bind]. by rewrite device_of_line_ok.
  - intros [H | [? | H]%elem_of_cons]%elem_of_app; [by apply (numeral_nul 10 ma) | done | by apply (numeral_nul 10 mi)].
Qed.

Lemma try_partition name dev range part : disk name dev range → 0 < part < range → try_name file name part = u32 (dev + part).
Proof using Type.
  intros Hd Hp. pose proof (try_disk name dev range Hd) as H0. destruct Hd as [Hlen (ma & mi & Hma & Hmi & Hl & Hb1 & Hb2 & Hf & Edev) (r & Hr & Hrl & Hrf & -> & Hb)].
  unfold try_name in *. destruct (read_line file _ BUF_SZ ≫= device_of_line) as [res |] eqn:E.
  - cbn [Z.eqb] in H0. subst res. rewrite (proj2 (Z.eqb_neq part 0)) by lia. rewrite fit_short by (rewrite !length_app; simpl; lia).
    rewrite (read_line_ok _ 32 r); [| done | by apply (numeral_nul 10) | lia]. pose proof (strtoul_decimal r [] Hr) as Es. rewrite app_nil_r in Es. rewrite Es by done.
    rewrite int_of_decimal by done. by rewrite (proj2 (Z.ltb_lt _ _)) by lia.
  - rewrite fit_short in E by (rewrite !length_app; simpl; lia). rewrite (read_line_ok _ BUF_SZ (ma ++ 58 :: mi)) in E; [| by rewrite Hf, <- !app_assoc | | rewrite length_app; simpl; unfold BUF_SZ; lia].
    + cbn [mbind option_bind] in E. by rewrite device_of_line_ok in E.
    + intros [H | [? | H]%elem_of_cons]%elem_of_app; [by apply (numeral_nul 10 ma) | done | by apply (numeral_nul 10 mi)].
Qed.

Lemma try_none name part : no_disk name → try_name file name part = 0.
Proof using Type. intros [Hl Hf]. unfold try_name, read_line. rewrite fit_short by (rewrite !length_app; simpl; lia). by rewrite Hf. Qed.

(** ** Names *)

Definition slashed (x : list Z) : list Z := (λ c, if c =? 47 then 33 else c) <$> x.

Lemma slashed_digits ds : numeral 10 ds → slashed ds = ds.
Proof using Type.
  intros [_ Hds]. unfold slashed. induction Hds as [| c ds [Hc _] _ IH]; [done |]. rewrite fmap_cons, IH. f_equal.
  destruct (Z.eqb_spec c 47) as [-> |]; [vm_compute in Hc; discriminate | done].
Qed.

Lemma split_digits_ok ds : ∀ base acc, Forall (λ c, is_digit c = true) ds → (∀ b c, base = b ++ [c] → is_digit c = false) →
  split_digits (reverse (base ++ ds)) acc = (base, ds ++ acc).
Proof using Type.
  induction ds as [| d ds IH] using rev_ind; intros base acc Hds Hb.
  - rewrite app_nil_r. destruct base as [| c base _] using rev_ind; [done |]. rewrite reverse_snoc. cbn [split_digits].
    rewrite (Hb base c eq_refl). by rewrite reverse_cons, reverse_involutive.
  - apply Forall_app in Hds as [Hds Hd]. apply Forall_cons in Hd as [Hd _]. rewrite app_assoc, reverse_snoc. cbn [split_digits]. rewrite Hd.
    rewrite IH by done. by rewrite <- app_assoc.
Qed.

Lemma numeral_digits ds : numeral 10 ds → Forall (λ c, is_digit c = true) ds.
Proof using Type. intros [_ Hds]. eapply Forall_impl; [done |]. intros c [Hc H8]. by rewrite is_digit_decimal. Qed.

Lemma device_path x : 44 ∉ x → block_node stat (text "/dev/" ++ x) = None → special_name x = None →
  name_to_dev_t file stat (text "/dev/" ++ x) = Some (disk_or_partition file x).
Proof using Type.
  intros Hc Hb Hs. unfold name_to_dev_t. rewrite bool_decide_eq_false_2.
  - change (default 0 (head (text "/dev/" ++ x)) =? 47) with true. cbv iota zeta. rewrite Hb. rewrite bool_decide_eq_true_2 by done. change (drop 5 (text "/dev/" ++ x)) with x. by rewrite Hs.
  - intros [H | ?]%elem_of_app; [| done]. revert H. apply (bool_decide_unpack _). vm_compute. exact I.
Qed.

Lemma slashed_app a b : slashed (a ++ b) = slashed a ++ slashed b.
Proof using Type. apply fmap_app. Qed.

Lemma partition_found x ds dev range : numeral 10 ds → (∀ t, ds ≠ 48 :: t) → disk (slashed x) dev range → 0 < dev → dev + range <= 2 ^ 32 →
  0 < positional 10 ds < range → x ≠ [] → (∀ b c, slashed x = b ++ [c] → is_digit c = false) → no_disk (slashed x ++ ds) →
  disk_or_partition file (x ++ ds) = dev + positional 10 ds.
Proof using Type.
  intros Hn H0 Hd Hdev Hroom Hr Hx Hlast Hno. unfold disk_or_partition. fold (slashed (x ++ ds)). rewrite slashed_app, (slashed_digits ds) by done.
  rewrite try_none by done. cbn [Z.eqb negb]. rewrite split_digits_ok, app_nil_r by (done || by apply numeral_digits).
  rewrite bool_decide_eq_false_2 by (by destruct x). cbn [orb]. destruct Hd as [? ? (r & ? & ? & ? & Er & Hb)] eqn:Hd'. clear Hd'.
  assert ((default 48 (head ds) =? 48) = false) as ->. { destruct ds as [| c t]; [by destruct Hn |]. cbn. apply Z.eqb_neq. intros ->. by apply (H0 t). }
  pose proof (strtoul_decimal ds [] Hn) as Es. rewrite app_nil_r in Es. rewrite Es by done. cbn [fst]. rewrite int_of_decimal by (done || lia).
  rewrite (try_partition (slashed x) dev range) by done. rewrite wrapu_small by (unfold in_u; lia). by rewrite (proj2 (Z.eqb_neq _ 0)) by lia.
Qed.

Lemma p_partition_found x ds dev range b d : numeral 10 ds → (∀ t, ds ≠ 48 :: t) → disk (slashed x) dev range → 0 < dev → dev + range <= 2 ^ 32 →
  0 < positional 10 ds < range → slashed x = b ++ [d] → is_digit d = true → no_disk (slashed x ++ [112] ++ ds) → no_disk (slashed x ++ [112]) →
  disk_or_partition file (x ++ [112] ++ ds) = dev + positional 10 ds.
Proof using Type.
  intros Hn H0 Hd Hdev Hroom Hr Hx Hlast Hno Hno'. unfold disk_or_partition. fold (slashed (x ++ [112] ++ ds)). rewrite !slashed_app, (slashed_digits ds) by done.
  change (slashed [112]) with [112]. rewrite try_none by done. cbn [Z.eqb negb]. rewrite app_assoc. rewrite split_digits_ok, app_nil_r.
  2: by apply numeral_digits. 2: { intros b' c [_ <-]%app_inj_tail. done. }
  rewrite bool_decide_eq_false_2 by (intros [_ ?]%app_nil; done). cbn [orb]. assert (range < 2 ^ 31) as Hb by (by destruct Hd as [_ _ (r & _ & _ & _ & _ & Hb)]).
  assert ((default 48 (head ds) =? 48) = false) as ->. { destruct ds as [| c t]; [by destruct Hn |]. cbn. apply Z.eqb_neq. intros ->. by apply (H0 t). }
  pose proof (strtoul_decimal ds [] Hn) as Es. rewrite app_nil_r in Es. rewrite Es by done. cbn [fst]. rewrite int_of_decimal by (done || lia).
  rewrite try_none by done. cbn [Z.eqb negb]. rewrite reverse_snoc. rewrite Hx at 1. rewrite reverse_snoc. cbn [negb]. rewrite Hlast. change (112 =? 112) with true. cbn [negb orb].
  rewrite reverse_cons, reverse_involutive, <- Hx. rewrite (try_partition (slashed x) dev range) by done. by rewrite wrapu_small by (unfold in_u; lia).
Qed.

Lemma disk_found x dev range : disk (slashed x) dev range → 0 < dev → disk_or_partition file x = dev.
Proof using Type.
  intros Hd Hdev. unfold disk_or_partition. fold (slashed x). rewrite (try_disk _ _ _ Hd). by rewrite (proj2 (Z.eqb_neq dev 0)) by lia.
Qed.
End named.

(** Under a name of [/dev] that is not special, without a comma and without a node. *)
Record free_name (stat : list Z → option (Z * Z)) (x : list Z) : Prop := {
  fn_comma : 44 ∉ x;
  fn_node : block_node stat (text "/dev/" ++ x) = None;
  fn_special : special_name x = None;
}.

(** Names of disks and partitions: if sysfs has a disk (slashes in
    its name written as exclamation marks), [/dev/<disk>] is its device
    number, and for every partition number below the range of the disk
    [/dev/<disk><n>] is the number of the disk plus [n] if the name of the
    disk does not end with a digit, and [/dev/<disk>p<n>] is if it does, as
    long as no other disk has that name. *)
Theorem device_named file stat x dev range : disk file (slashed x) dev range → 0 < dev → dev + range <= 2 ^ 32 →
  (free_name stat x → name_to_dev_t file stat (text "/dev/" ++ x) = Some dev) ∧
  ∀ ds, numeral 10 ds → (∀ t, ds ≠ 48 :: t) → 0 < positional 10 ds < range →
    (∀ b c, slashed x = b ++ [c] → is_digit c = false → no_disk file (slashed x ++ ds) → free_name stat (x ++ ds) →
      name_to_dev_t file stat (text "/dev/" ++ x ++ ds) = Some (dev + positional 10 ds)) ∧
    (∀ b c, slashed x = b ++ [c] → is_digit c = true → no_disk file (slashed x ++ [112] ++ ds) → no_disk file (slashed x ++ [112]) → free_name stat (x ++ [112] ++ ds) →
      name_to_dev_t file stat (text "/dev/" ++ x ++ [112] ++ ds) = Some (dev + positional 10 ds)).
Proof.
  intros Hd Hdev Hroom. split.
  - intros []. rewrite device_path by done. f_equal. by eapply disk_found.
  - intros ds Hn H0 Hr. split; intros b c Hx Hc Hno.
    + intros []. rewrite device_path by done. f_equal. eapply partition_found; try done; [intros ->; by apply app_cons_not_nil in Hx |]. intros b' c' Hx'. rewrite Hx in Hx'. by apply app_inj_tail in Hx' as [_ <-].
    + intros Hno' []. rewrite device_path by done. f_equal. by eapply p_partition_found.
Qed.

Lemma numeral_not base ds x : numeral base ds → x = 44 ∨ x = 47 ∨ x = 58 → x ∉ ds.
Proof. intros [_ Hds] Hx Hin. rewrite Forall_forall in Hds. destruct (Hds x Hin) as [Hd _]. unfold digit_in in Hd. by destruct Hx as [-> | [-> | ->]]. Qed.

Lemma split_colon_ok a b : 58 ∉ a → split_colon (a ++ 58 :: b) = Some (a, b).
Proof. induction a as [| c a IH]; intros H; [done |]. apply not_elem_of_cons in H as [Hc Ha]. cbn [app split_colon]. rewrite (proj2 (Z.eqb_neq c 58)) by done. by rewrite IH. Qed.
Lemma split_colon_none a : 58 ∉ a → split_colon a = None.
Proof. induction a as [| c a IH]; intros H; [done |]. apply not_elem_of_cons in H as [Hc Ha]. cbn [split_colon]. rewrite (proj2 (Z.eqb_neq c 58)) by done. by rewrite IH. Qed.

(** A name that does not begin with a slash. *)
Lemma number_path file stat name : 44 ∉ name → head name ≠ Some 47 → block_node stat (text "/dev/" ++ name) = None → ∀ d, device_number name (text "/dev/" ++ name) = Some (Some d) →
  name_to_dev_t file stat name = Some d.
Proof.
  intros Hc Hh Hb d Hd. unfold name_to_dev_t. rewrite bool_decide_eq_false_2 by done. assert ((default 0 (head name) =? 47) = false) as ->.
  { destruct name as [| c name]; [done |]. cbn. apply Z.eqb_neq. intros ->. by apply Hh. }
  cbv zeta. rewrite Hb. rewrite bool_decide_eq_false_2; [by rewrite Hd |]. intros E. apply Hh. destruct name as [| c name]; [done |]. cbn [take] in E. by injection E as ->.
Qed.

(** Numbers: two decimal numbers with a colon, or a hexadecimal number, are the
    device number they write. *)
Theorem device_numbered file stat :
  (∀ a b, numeral 10 a → numeral 10 b → positional 10 a < 2 ^ 31 → positional 10 b < 2 ^ 31 → block_node stat (text "/dev/" ++ a ++ [58] ++ b) = None →
    name_to_dev_t file stat (a ++ [58] ++ b) = Some (makedev (positional 10 a) (positional 10 b))) ∧
  (∀ ds, numeral 16 ds → 0 <= positional 16 ds < 2 ^ 32 → block_node stat (text "/dev/" ++ ds) = None → name_to_dev_t file stat ds = Some (positional 16 ds)).
Proof.
  assert (∀ x, (length (text "/dev/" ++ x) <? 5)%nat = false) as Hlen by done. split.
  - intros a b Ha Hb Ba Bb Hblk. apply number_path; [| | done |].
    + intros [H | [? | H]%elem_of_cons]%elem_of_app; [revert H; apply (numeral_not 10); auto | done | revert H; apply (numeral_not 10); auto].
    + destruct a as [| c a]; [by destruct Ha |]. intros [= ->]. apply (numeral_not 10 (47 :: a) 47 Ha); [auto | left].
    + unfold device_number. change (drop 5 (text "/dev/" ++ a ++ [58] ++ b)) with (a ++ 58 :: b). rewrite Hlen.
      rewrite split_colon_ok by (apply (numeral_not 10); auto). destruct b as [| c b'] eqn:Eb; [by destruct Hb |]. rewrite <- Eb in *.
      pose proof (strtoul_decimal a [] Ha) as E1. pose proof (strtoul_decimal b [] Hb) as E2. rewrite app_nil_r in E1, E2. rewrite E1, E2 by done.
      rewrite bool_decide_eq_true_2 by done. cbn [andb]. by rewrite !int_of_decimal.
  - intros ds Hds Hb Hblk. apply number_path; [apply (numeral_not 16); auto | | done |].
    + destruct ds as [| c ds]; [by destruct Hds |]. intros [= ->]. apply (numeral_not 16 (47 :: ds) 47 Hds); [auto | left].
    + unfold device_number. change (drop 5 (text "/dev/" ++ ds)) with ds. rewrite Hlen.
      rewrite split_colon_none by (apply (numeral_not 16); auto). rewrite strtoul_hex by done. rewrite bool_decide_eq_true_2 by done.
      rewrite (wrapu_small 64) by (unfold in_u; lia). by rewrite (wrapu_small 32) by (unfold in_u; lia).
Qed.

(** ** The search of sysfs ends, and finds devices with the number. *)

Section search.
Context (file : list Z → option (list Z)) (entries : list Z → option (list (list Z * Z))).

Lemma entry_minor_some path dev : (∀ p c, file p = Some c → (length c < 512)%nat) → is_Some (entry_minor file path dev).
Proof using Type.
  intros Hf. unfold entry_minor. destruct (file (path ++ text "/dev")) as [c |] eqn:E; [| by eexists]. specialize (Hf _ _ E).
  rewrite length_take. unfold BUF_SIZE. rewrite (proj2 (Z.eqb_neq _ _)) by lia. by eexists.
Qed.

Lemma scan_entries_some down sysdir dev es : (∀ p c, file p = Some c → (length c < 512)%nat) →
  (∀ path, (length sysdir < length path < 448)%nat → is_Some (down path)) → is_Some (scan_entries file down sysdir dev es).
Proof using Type.
  intros Hf Hdown. induction es as [| [d_name d_type] es IH]; cbn [scan_entries]; [by eexists |]. destruct (_ =? 46); [done |]. destruct (negb _ && negb _); [done |].
  destruct (Z.leb_spec (BUF_SIZE - 64 - (Z.of_nat (length sysdir) + 1)) (Z.of_nat (length d_name))) as [| Hlen]; [done |]. unfold BUF_SIZE in Hlen.
  destruct (entry_minor_some (sysdir ++ [47] ++ d_name) dev Hf) as [mi ->]. cbn [mbind option_bind]. destruct mi as [mi |]; [| done]. destruct (mi =? minor dev); [by eexists |].
  destruct (Hdown (sysdir ++ [47] ++ d_name)) as [found ->]; [rewrite !length_app; simpl; lia |]. cbn [mbind option_bind]. destruct found; [by eexists | done].
Qed.

Theorem scansysdir_ends dev : (∀ p c, file p = Some c → (length c < 512)%nat) → ∀ fuel sysdir, (448 < fuel + length sysdir)%nat → (0 < fuel)%nat →
  is_Some (scansysdir file entries fuel sysdir dev).
Proof using Type.
  intros Hf. induction fuel as [| fuel IH]; intros sysdir Hlen H0; [lia |]. cbn [scansysdir]. destruct (entries sysdir) as [es |]; [| by eexists].
  apply scan_entries_some; [done |]. intros path Hp. apply IH; lia.
Qed.

Lemma scan_entries_found down sysdir dev name es : scan_entries file down sysdir dev es = Some (Some name) →
  (∃ d_type, (name, d_type) ∈ es ∧ entry_minor file (sysdir ++ [47] ++ name) dev = Some (Some (minor dev))) ∨
  ∃ d_name d_type, (d_name, d_type) ∈ es ∧ down (sysdir ++ [47] ++ d_name) = Some (Some name).
Proof using Type.
  induction es as [| [d_name d_type] es IH]; cbn [scan_entries]; [done |]. intros H.
  assert (scan_entries file down sysdir dev es = Some (Some name) → (∃ d_type0, (name, d_type0) ∈ (d_name, d_type) :: es ∧ entry_minor file (sysdir ++ [47] ++ name) dev = Some (Some (minor dev))) ∨
    ∃ d_name0 d_type0, (d_name0, d_type0) ∈ (d_name, d_type) :: es ∧ down (sysdir ++ [47] ++ d_name0) = Some (Some name)) as Hnext.
  { intros [(t & Ht & ?) | (n & t & Ht & ?)]%IH; [left; exists t | right; exists n, t]; (split; [by right | done]). }
  destruct (_ =? 46); [by apply Hnext |]. destruct (negb _ && negb _); [by apply Hnext |]. destruct (_ <=? _); [by apply Hnext |].
  destruct (entry_minor file (sysdir ++ [47] ++ d_name) dev) as [[mi |] |] eqn:E; cbn [mbind option_bind] in H; [| by apply Hnext | done].
  destruct (Z.eqb_spec mi (minor dev)) as [-> | Hne]; [injection H as <-; left; exists d_type; split; [left | done] |].
  destruct (down (sysdir ++ [47] ++ d_name)) as [[n |] |] eqn:Ed; cbn [mbind option_bind] in H; [| by apply Hnext | done].
  injection H as <-. right. exists d_name, d_type. split; [left | done].
Qed.

(** The name that is found is an entry of sysfs with the number of the device. *)
Theorem scansysdir_found dev name : ∀ fuel sysdir, scansysdir file entries fuel sysdir dev = Some (Some name) →
  ∃ dir es d_type, entries dir = Some es ∧ (name, d_type) ∈ es ∧ entry_minor file (dir ++ [47] ++ name) dev = Some (Some (minor dev)).
Proof using Type.
  induction fuel as [| fuel IH]; intros sysdir H; [done |]. cbn [scansysdir] in H. destruct (entries sysdir) as [es |] eqn:E; [| done].
  apply scan_entries_found in H as [(t & Ht & Hm) | (n & t & Ht & Hd)]; [by exists sysdir, es, t | by eapply IH].
Qed.
End search.

(** [/dev/sda3], [/dev/cciss/c0d0p2] *)
Definition example_sysfs (path : list Z) : option (list Z) :=
  if bool_decide (path = text "/sys/block/sda/dev") then Some (text "8:0" ++ [10])
  else if bool_decide (path = text "/sys/block/sda/range") then Some (text "16" ++ [10])
  else if bool_decide (path = text "/sys/block/cciss!c0d0/dev") then Some (text "104:0" ++ [10])
  else if bool_decide (path = text "/sys/block/cciss!c0d0/range") then Some (text "16" ++ [10])
  else None.

Lemma device_named_witness : name_to_dev_t example_sysfs (λ _, None) (text "/dev/sda3") = Some (makedev 8 3) ∧
  name_to_dev_t example_sysfs (λ _, None) (text "/dev/cciss/c0d0p2") = Some (makedev 104 2).
Proof.
  assert (disk example_sysfs (slashed (text "sda")) (makedev 8 0) 16) as Hsda.
  { split; [vm_compute; lia | exists (text "8"), (text "0") | exists (text "16")]; split_and!; try reflexivity; try (vm_compute; lia); (split; [discriminate | apply (bool_decide_unpack _); vm_compute; exact I]). }
  assert (disk example_sysfs (slashed (text "cciss/c0d0")) (makedev 104 0) 16) as Hcciss.
  { split; [vm_compute; lia | exists (text "104"), (text "0") | exists (text "16")]; split_and!; try reflexivity; try (vm_compute; lia); (split; [discriminate | apply (bool_decide_unpack _); vm_compute; exact I]). }
  assert (∀ x, 44 ∉ x → special_name x = None → free_name (λ _, None) x) as Hfree by done.
  split.
  - destruct (device_named example_sysfs (λ _, None) (text "sda") _ _ Hsda ltac:(reflexivity) ltac:(discriminate)) as [_ H].
    destruct (H (text "3")) as [H1 _]; [split; [discriminate | apply (bool_decide_unpack _); vm_compute; exact I] | discriminate | by vm_compute |].
    apply (H1 (text "sd") 97); [reflexivity | reflexivity | split; [vm_compute; lia | reflexivity] |]. apply Hfree; [apply (bool_decide_unpack _); vm_compute; exact I | reflexivity].
  - destruct (device_named example_sysfs (λ _, None) (text "cciss/c0d0") _ _ Hcciss ltac:(reflexivity) ltac:(discriminate)) as [_ H].
    destruct (H (text "2")) as [_ H1]; [split; [discriminate | apply (bool_decide_unpack _); vm_compute; exact I] | discriminate | by vm_compute |].
    apply (H1 (text "cciss!c0d") 48); [reflexivity | reflexivity | split; [vm_compute; lia | reflexivity] | split; [vm_compute; lia | reflexivity] |]. apply Hfree; [apply (bool_decide_unpack _); vm_compute; exact I | reflexivity].
Defined.
