(* ===== verification/DoMounts.v ===== *)
(** * Mounting the root: [kinit/do_mounts.c] and [kinit/do_mounts_mtd.c]

    The system calls are operations of a class over the state of the world;
    [errno] is part of the state, since the code decides by it.  The type of a
    device is found with [identify_fs] of [Fstype], names with [name_to_dev_t]
    of [Rootdev].  The other ways to get a root (NFS, the initial RAM disk,
    loading a RAM disk, RAID arrays) are parameters; of the root by NFS it is
    only assumed that it returns or ends kinit with 1, and the theorems say
    what the result is in terms of its result.

    The theorems: without a type, the types are tried in the order of the
    kernel's list after the one that was recognised, up to the first that does
    not say that the type is wrong; the result is 0 exactly if a root was
    mounted; of several roots the first that works is taken. *)

From stdpp Require Import base numbers list strings.
From Stdlib Require Import Lia.
From S2P Require Import Prelude Prog Numparse Ipconfig Kinit Devno Mount Layout Fstype Rootdev.

#[local] Set Warnings "-register-all".

(** ** The kernel *)

Inductive request := SET_ARRAY_INFO | ADD_NEW_DISK | RUN_ARRAY | RAID_AUTORUN | BLKRRPART | BLKFLSBUF.

(** [KMove] is a mount with [MS_MOVE]; [KFchdir] goes to the directory that was
    opened by this name; [KRun] is a child process that runs a program to its
    end; [KWrite] is the writing of a file. *)
Inductive kcall :=
  | KMount (source : option (list Z)) (target type : list Z) (flags : Z) (data : option (list Z))
  | KMove (source target : list Z)
  | KUmount (target : list Z) (flags : Z)
  | KUnlink (name : list Z)
  | KMknod (name : list Z) (mode dev : Z)
  | KMkdir (name : list Z) (mode : Z)
  | KRmdir (name : list Z)
  | KChdir (path : list Z)
  | KFchdir (path : list Z)
  | KChroot (path : list Z)
  | KOpen (path : list Z)
  | KAccess (path : list Z)
  | KIoctl (path : list Z) (r : request) (args : list Z)
  | KWrite (path bytes : list Z)
  | KRun (path : list Z)
  | KSleep (seconds : Z).

(** A call answers with an error number or succeeds; [kopen] gives the bytes
    behind a device or the error; [kfile] the contents of a file; [kreport]
    what [errno] is after a message on a device (its name is looked up in
    [/sys], so that it may change). *)
Class Root (W : Type) := {
  kdo : kcall → W → option Z * W;
  kopen : list Z → W → Z + device;
  kfile : list Z → W → option (list Z);
  kstat : list Z → W → option (Z * Z);
  kreport : Z → W → Z;
}.

Definition ESRCH : Z := 3.
Definition proc_filesystems : list Z := text "/proc/filesystems".

Section mounts.
Context {W : Type} `{!Root W} (h : host).

(** [images] is the table of [identify_fs]. *)
Record kinit := mk_kinit { errno : Z; images : list imagetype; world : W }.

Definition kcalls (c : kcall) : prog kinit bool := λ s,
  match kdo c (world s) with
  | (None, w) => Ret (true, mk_kinit (errno s) (images s) w)
  | (Some e, w) => Ret (false, mk_kinit e (images s) w)
  end.
Definition set_errno (e : Z) : prog kinit unit := λ s, Ret (tt, mk_kinit e (images s) (world s)).

Definition create_dev (name : list Z) (dev : Z) : prog kinit bool :=
  kcalls (KUnlink name);;
  kcalls (KMknod name (Z.lor S_IFBLK 0x180) dev).

(** [mount_block] with a type: whether it was mounted. *)
Definition mount_typed (source target type : list Z) (flags : Z) (data : option (list Z)) : prog kinit bool :=
  ok ← kcalls (KMount (Some source) target type flags data);
  s ← get_st;
  if negb ok && (errno s =? EACCES) && (Z.land flags MS_RDONLY =? 0)
  then kcalls (KMount (Some source) target type (Z.lor flags MS_RDONLY) data)
  else mret ok.

(** [open] and [identify_fs]: the type, if there is one. *)
Definition identify (source : list Z) : prog kinit (option (list Z)) := λ s,
  match kopen source (world s) with
  | inl e => Ret (None, mk_kinit e (images s) (world s))
  | inr fd =>
      match identify_fs h (images s) fd 0 with
      | None => Fault
      | Some ((err, type, _), images) => Ret (if err =? 0 then type else None, mk_kinit (errno s) images (world s))
      end
  end.

(** The lines of a file that end with a newline; [strchr] stops at a NUL. *)
Fixpoint whole_lines (cur : list Z) (fslist : list Z) : list (list Z) :=
  match fslist with
  | [] => []
  | c :: fslist =>
      if c =? 0 then []
      else if c =? 10 then cur :: whole_lines [] fslist
      else whole_lines (cur ++ [c]) fslist
  end.

(** The type that was mounted. *)
Fixpoint try_lines (source target : list Z) (flags : Z) (data : option (list Z)) (lines : list (list Z)) : prog kinit (option (list Z)) :=
  match lines with
  | [] => mret None
  | line :: lines =>
      match line with
      | 9 :: type =>
          ok ← mount_typed source target type flags data;
          if ok : bool then mret (Some type)
          else
            s ← get_st;
            if negb (errno s =? EINVAL) then mret None else try_lines source target flags data lines
      | _ => try_lines source target flags data lines
      end
  end.

Definition mount_block (source target : list Z) (type : option (list Z)) (flags : Z) (data : option (list Z)) : prog kinit (option (list Z)) :=
  match type with
  | Some type =>
      ok ← mount_typed source target type flags data;
      mret (if ok : bool then Some type else None)
  | None =>
      known ← identify source;
      ok ← (match known with Some type => mount_typed source target type flags data | None => mret false end);
      if ok : bool then mret known
      else
        s ← get_st;
        set_errno EINVAL;;
        match kfile proc_filesystems (world s) with
        | None => mret None
        | Some fslist => try_lines source target flags data (whole_lines [] fslist)
        end
  end.

(** The result of the failures of [mount_block_root] *)
Definition mount_failed : prog kinit Z :=
  s ← get_st;
  mret (if negb (errno s =? EINVAL) then - kreport (errno s) (world s) else - ESRCH).

Definition mount_block_root (argv : list (list Z)) (root_dev : Z) (type : option (list Z)) (flags : Z) : prog kinit Z :=
  let data := get_arg argv (text "rootflags=") in
  let source := text "/dev/root" in
  let target := text "/root" in
  create_dev source root_dev;;
  set_errno 0;;
  rp ← (match type with Some _ => mount_block source target type flags data | None => mret None end);
  match rp with
  | Some _ => mret 0
  | None =>
      s ← get_st;
      if bool_decide (type ≠ None) && negb (errno s =? EINVAL) then mount_failed
      else
        rp ← (if errno s =? 0 then mount_block source target None flags data else mret None);
        match rp with Some _ => mret 0 | None => mount_failed end
  end.

Definition mount_mtd_root (argv : list (list Z)) (root_dev_name type : option (list Z)) (flags : Z) : prog kinit Z :=
  let data := get_arg argv (text "rootflags=") in
  let type := default (text "jffs2") type in
  ok ← kcalls (KMount root_dev_name (text "/root") type flags data);
  s ← get_st;
  mret (if ok : bool then 0 else - errno s).

(** ** The root

    [mount_nfs_root], [md_run], [initrd_load] and [ramdisk_load] are other
    parts of kinit. *)

Context (mount_nfs_root : list (list Z) → Z → prog kinit Z).

Definition root_flags (argv : list (list Z)) : Z :=
  let flags := Z.lor MS_RDONLY MS_VERBOSE in
  if get_flag argv (text "ro") <? get_flag argv (text "rw") then Z.land flags (Z.lnot MS_RDONLY) else flags.

(** The device after [rootfstype=] *)
Definition root_by_type (type : option (list Z)) (root_dev : Z) : Z :=
  if bool_decide (type = Some (text "nfs")) then Root_NFS
  else if bool_decide (type = Some (text "jffs2")) && (major root_dev =? 0) then Root_MTD
  else root_dev.

Definition mount_root (argv : list (list Z)) (root_dev : Z) (root_dev_name : option (list Z)) : prog kinit Z :=
  let flags := root_flags argv in
  let type := get_arg argv (text "rootfstype=") in
  let root_dev := root_by_type type root_dev in
  ret ← (if root_dev =? Root_NFS then mount_nfs_root argv flags
         else if root_dev =? Root_MTD then mount_mtd_root argv root_dev_name type flags
         else mount_block_root argv root_dev type flags);
  (if ret =? 0 then kcalls (KChdir (text "/root")) else mret false);;
  mret ret.

(** [name_to_dev_t] in the present world *)
Definition device_for (name : list Z) : prog kinit Z :=
  s ← get_st;
  of_option (name_to_dev_t (λ path, kfile path (world s)) (λ path, kstat path (world s)) name).

(** [strtok_r] with commas: the words that are not empty *)
Definition roots_of (names : list Z) : list (list Z) :=
  let fix go cur l :=
    match l with
    | [] => [cur]
    | c :: l => if c =? 44 then cur :: go [] l else go (cur ++ [c]) l
    end in
  filter (λ w, w ≠ []) (go [] names).

Fixpoint mount_roots_loop (argv : list (list Z)) (roots : list (list Z)) (ret : Z) : prog kinit Z :=
  match roots with
  | [] => mret ret
  | root :: roots =>
      root_dev ← device_for root;
      ret ← mount_root argv root_dev (Some root);
      if ret =? 0 then mret ret else mount_roots_loop argv roots ret
  end.
Definition mount_roots (argv : list (list Z)) (root_dev_name : list Z) : prog kinit Z :=
  mount_roots_loop argv (roots_of root_dev_name) (- ESRCH).

Context (md_run : list (list Z) → prog kinit unit) (initrd_load : list (list Z) → Z → prog kinit bool) (ramdisk_load : list (list Z) → prog kinit bool).

(** [atoi] *)
Definition int_arg (a : list Z) : Z := s32 (parse_num 10 a).1.

(** The device of the root; [real-root-dev] is read into a variable that has
    no value yet. *)
Definition root_device (argv : list (list Z)) : prog kinit Z :=
  match get_arg argv (text "root=") with
  | Some name => device_for name
  | None =>
      if bool_decide (get_arg argv (text "nfsroot=") ≠ None) || bool_decide (get_arg argv (text "nfsaddrs=") ≠ None) then mret Root_NFS
      else
        s ← get_st;
        match kfile (text "/proc/sys/kernel/real-root-dev") (world s) with
        | None => crash
        | Some _ => mret (u32 (getintfile (λ path, kfile path (world s)) (text "/proc/sys/kernel/real-root-dev") 0).2)
        end
  end.

Definition do_mounts (argv : list (list Z)) : prog kinit Z :=
  (match get_arg argv (text "rootdelay=") with Some delay => kcalls (KSleep (int_arg delay)) | None => mret true end);;
  md_run argv;;
  root_dev ← root_device argv;
  loaded ← initrd_load argv root_dev;
  if loaded : bool then mret 0
  else
    ram ← (match get_arg argv (text "load_ramdisk=") with
           | Some a => if negb (int_arg a =? 0) then ramdisk_load argv else mret false
           | None => mret false
           end);
    let root_dev := if ram : bool then Root_RAM0 else root_dev in
    match get_arg argv (text "root=") with
    | Some name => if root_dev =? Root_MULTI then mount_roots argv name else mount_root argv root_dev (Some name)
    | None => if root_dev =? Root_MULTI then crash else mount_root argv root_dev None
    end.
End mounts.

(** ** A kernel that keeps a record

    The answer to a call may depend on all the calls before it. *)

Record history := mk_history { calls : list (kcall * option Z) }.

Section recorded.
Context (verdict : list (kcall * option Z) → kcall → option Z) (opens : list (kcall * option Z) → list Z → Z + device).
Context (files : list (kcall * option Z) → list Z → option (list Z)) (stats : list (kcall * option Z) → list Z → option (Z * Z)).
Context (report : list (kcall * option Z) → Z → Z).

Definition recording : Root history := {|
  kdo c w := (verdict (calls w) c, mk_history (calls w ++ [(c, verdict (calls w) c)]));
  kopen path w := opens (calls w) path;
  kfile path w := files (calls w) path;
  kstat path w := stats (calls w) path;
  kreport e w := report (calls w) e;
|}.
#[local] Existing Instance recording.

Context (h : host).

(** What the kernel is assumed to do: errors have positive numbers, and the
    devices it opens are images with size fields in range; a message leaves an
    error an error. *)
Record kernel_ok : Prop := {
  ko_errors l c e : verdict l c = Some e → 0 < e;
  ko_opens l path e : opens l path = inl e → 0 < e;
  ko_images l path fd : opens l path = inr fd → image_ok (read_block fd 0);
  ko_report l e : 0 < e → 0 < report l e;
  ko_host : host_ok h;
}.
Context (Hkernel : kernel_ok).

Definition is_mount (x : kcall * option Z) : bool := match x.1 with KMount _ _ _ _ _ => true | _ => false end.
Definition failed (x : kcall * option Z) : Prop := x.2 ≠ None.
Definition mounts (l : list (kcall * option Z)) : list (kcall * option Z) := filter (λ x, is_mount x = true) l.

(** Of the calls [new] the last mount succeeded and the others failed, or all
    failed. *)
Definition mounted_last (ok : bool) (new : list (kcall * option Z)) : Prop :=
  if ok then ∃ pre m, mounts new = pre ++ [(m, None)] ∧ Forall failed pre else Forall failed (mounts new).

Abbreviation st := (kinit (W := history)).
Definition table_ok (s : st) : Prop := Forall2 (same_image h) (Fstype.images h) (images s).

(** [m] returns; it makes calls [new] with [P]. *)
Abbreviation makes := (logged (λ s : st, calls (world s)) table_ok).

Lemma makes_call c s : table_ok s → makes (kcalls c) s (λ ok new s', new = [(c, if ok : bool then None else Some (errno s'))] ∧ (ok = false → 0 < errno s') ∧ (ok = true → errno s' = errno s)).
Proof using Hkernel.
  intros Ht. unfold logged, kcalls. change (kdo c (world s)) with (verdict (calls (world s)) c, mk_history (calls (world s) ++ [(c, verdict (calls (world s)) c)])).
  destruct (verdict (calls (world s)) c) as [e |] eqn:E.
  - exists false, (mk_kinit e (images s) (mk_history (calls (world s) ++ [(c, Some e)]))), [(c, Some e)]. split_and!; try done. intros _. by eapply (ko_errors Hkernel).
  - exists true, (mk_kinit (errno s) (images s) (mk_history (calls (world s) ++ [(c, None)]))), [(c, None)]. by split_and!.
Qed.

(** *** One type *)

Section typed.
Context (source target : list Z) (flags : Z) (data : option (list Z)).

(** The calls for a type: whether the last one succeeded, and the error it had
    otherwise.  Only after [EACCES] a mount that was not to be read-only is
    tried once more, read-only. *)
Inductive attempt (type : list Z) : bool → Z → list (kcall * option Z) → Prop :=
  | attempt_ok e : attempt type true e [(KMount (Some source) target type flags data, None)]
  | attempt_fails e : e ≠ EACCES ∨ Z.land flags MS_RDONLY ≠ 0 → attempt type false e [(KMount (Some source) target type flags data, Some e)]
  | attempt_again ok e : Z.land flags MS_RDONLY = 0 →
      attempt type ok e [(KMount (Some source) target type flags data, Some EACCES);
                         (KMount (Some source) target type (Z.lor flags MS_RDONLY) data, if ok then None else Some e)].

Lemma mount_typed_makes type s : table_ok s →
  makes (mount_typed source target type flags data) s (λ ok new s', attempt type ok (errno s') new ∧ (ok = false → 0 < errno s')).
Proof using Hkernel.
  intros Ht. unfold mount_typed. eapply logged_bind; [by apply makes_call |]. intros ok s1 new Ht1 (-> & Hpos & Hkeep). apply logged_get. destruct ok; cbn [negb andb].
  - apply logged_ret; [done |]. rewrite app_nil_r. split; [constructor | done].
  - destruct (Z.eqb_spec (errno s1) EACCES) as [Ha | Ha]; cbn [andb].
    + destruct (Z.eqb_spec (Z.land flags MS_RDONLY) 0) as [Hf | Hf].
      * eapply logged_weaken; [by apply makes_call |]. intros ok new s2 (-> & Hpos2 & _). rewrite Ha. split; [by apply attempt_again | done].
      * apply logged_ret; [done |]. rewrite app_nil_r. split; [apply attempt_fails; auto | by apply Hpos].
    + apply logged_ret; [done |]. rewrite app_nil_r. split; [apply attempt_fails; auto | by apply Hpos].
Qed.

(** *** A list of types *)

(** All of them are wrong types. *)
Inductive all_wrong : list (list Z) → list (kcall * option Z) → Prop :=
  | wrong_nil : all_wrong [] []
  | wrong_cons type types a b : attempt type false EINVAL a → all_wrong types b → all_wrong (type :: types) (a ++ b).

(** The types are tried in order up to the first that is not a wrong type: it
    was mounted, or had another error. *)
Definition tried (types : list (list Z)) (res : option (list Z)) (e : Z) (new : list (kcall * option Z)) : Prop :=
  (∃ pre type post a b ok, types = pre ++ type :: post ∧ all_wrong pre a ∧ attempt type ok e b ∧ (ok = false → e ≠ EINVAL) ∧ new = a ++ b ∧ res = if ok : bool then Some type else None) ∨
  (all_wrong types new ∧ res = None ∧ e = EINVAL).

Definition types_in (lines : list (list Z)) : list (list Z) := omap (λ l, match l with 9 :: type => Some type | _ => None end) lines.

Lemma try_lines_makes lines : ∀ s, table_ok s → errno s = EINVAL →
  makes (try_lines source target flags data lines) s (λ res new s', tried (types_in lines) res (errno s') new ∧ (res = None → 0 < errno s')).
Proof using Hkernel.
  induction lines as [| line lines IH]; intros s Ht He; cbn [try_lines].
  { apply logged_ret; [done |]. rewrite He. split; [right; split_and!; [constructor | done | done] | done]. }
  destruct (match line with 9 :: type => Some type | _ => None end) as [type |] eqn:El.
  - assert (line = 9 :: type) as -> by (destruct line as [| c l]; [done |]; repeat (destruct c as [| c | c]; try done); by injection El as ->).
    change (types_in ((9 :: type) :: lines)) with (type :: types_in lines).
    eapply logged_bind; [by apply mount_typed_makes |]. intros ok s1 new Ht1 [Hatt Hpos]. destruct ok.
    + apply logged_ret; [done |]. rewrite app_nil_r. split; [| done]. left. exists [], type, (types_in lines), [], new, true. split_and!; [done | constructor | done | done | done | done].
    + apply logged_get. destruct (Z.eqb_spec (errno s1) EINVAL) as [E1 | E1]; cbn [negb].
      * eapply logged_weaken; [by apply IH |]. intros res new' s2 [Htr Hp2]. split; [| done]. rewrite E1 in Hatt. destruct Htr as [(pre & t & post & a & b & ok & -> & Hw & Hb & Hne & -> & ->) | (Hw & -> & ->)].
        -- left. exists (type :: pre), t, post, (new ++ a), b, ok. split_and!; [done | by constructor | done | done | by rewrite app_assoc | done].
        -- right. split_and!; [by constructor | done | done].
      * apply logged_ret; [done |]. rewrite app_nil_r. split; [| by intros; apply Hpos]. left. exists [], type, (types_in lines), [], new, false. split_and!; [done | constructor | done | done | done | done].
  - assert (types_in (line :: lines) = types_in lines) as -> by (unfold types_in; cbn [omap list_omap]; by rewrite El).
    destruct line as [| c l]; [by apply IH |]. repeat (destruct c as [| c | c]; try by apply IH). done.
Qed.
End typed.

(** *** What was mounted *)

Definition some {A} (o : option A) : bool := match o with Some _ => true | None => false end.

Lemma mounted_after ok a b : mounted_last false a → mounted_last ok b → mounted_last ok (a ++ b).
Proof using Type.
  unfold mounted_last, mounts. rewrite filter_app. intros Ha. destruct ok; [| intros; by apply Forall_app].
  intros (pre & m & -> & Hpre). exists (filter (λ x, is_mount x = true) a ++ pre), m. rewrite app_assoc. split; [done | by apply Forall_app].
Qed.

Lemma mounted_none new : Forall (λ x, is_mount x = false) new → mounted_last false new.
Proof using Type.
  intros H. unfold mounted_last, mounts. induction H as [| x l Hx _ IH]; [constructor |]. rewrite filter_cons_False by congruence. done.
Qed.

Lemma attempt_mounted source target flags data type ok e new : attempt source target flags data type ok e new → mounted_last ok new.
Proof using Type.
  intros [e' | e' _ | ok' e' _]; unfold mounted_last, mounts.
  - by exists [], (KMount (Some source) target type flags data).
  - repeat constructor. done.
  - destruct ok'; [| repeat constructor; done]. exists [(KMount (Some source) target type flags data, Some EACCES)]. eexists. split; [done | by repeat constructor].
Qed.

Lemma wrong_mounted source target flags data types new : all_wrong source target flags data types new → mounted_last false new.
Proof using Type. induction 1 as [| type types a b Ha _ IH]; [constructor |]. apply mounted_after; [by eapply attempt_mounted | done]. Qed.

Lemma tried_mounted source target flags data types res e new : tried source target flags data types res e new → mounted_last (some res) new.
Proof using Type.
  intros [(pre & t & post & a & b & ok & -> & Hw & Hb & _ & -> & ->) | (Hw & -> & _)].
  - apply mounted_after; [by eapply wrong_mounted |]. apply attempt_mounted in Hb. by destruct ok.
  - by eapply wrong_mounted.
Qed.

(** *** Without a type *)

(** The type that [identify_fs] recognises. *)
Definition known_type (s : st) (source : list Z) : option (list Z) :=
  match opens (calls (world s)) source with
  | inl _ => None
  | inr fd => match identify_fs h (images s) fd 0 with Some ((err, type, _), _) => if err =? 0 then type else None | None => None end
  end.

Lemma identify_makes source s : table_ok s → makes (identify h source) s (λ known new _, known = known_type s source ∧ new = []).
Proof using Hkernel.
  intros Ht. unfold logged, identify, known_type. change (kopen source (world s)) with (opens (calls (world s)) source).
  destruct (opens (calls (world s)) source) as [e | fd] eqn:E.
  - exists None, (mk_kinit e (images s) (world s)), []. by rewrite app_nil_r.
  - destruct (identify_fs_runs h fd 0 (images s) (ko_host Hkernel) (ko_images Hkernel _ _ _ E) Ht) as ([[err type] n] & table' & -> & Ht' & _).
    exists (if err =? 0 then type else None), (mk_kinit (errno s) table' (world s)), []. by rewrite app_nil_r.
Qed.

(** What is tried: the known type, then the types of the kernel's list. *)
Definition tries_all (source target : list Z) (flags : Z) (data : option (list Z)) (known res : option (list Z)) (s : st) (new : list (kcall * option Z)) (e : Z) : Prop :=
  (∃ t, known = Some t ∧ res = Some t ∧ attempt source target flags data t true e new) ∨
  (∃ a b e', (match known with Some t => attempt source target flags data t false e' a | None => a = [] end) ∧ new = a ++ b ∧
    match files (calls (world s) ++ a) proc_filesystems with
    | None => b = [] ∧ res = None
    | Some fslist => tried source target flags data (types_in (whole_lines [] fslist)) res e b
    end).

Lemma known_makes source target flags data known s : table_ok s →
  makes (match known with Some type => mount_typed source target type flags data | None => mret false end) s
    (λ ok new s', match known with Some t => attempt source target flags data t ok (errno s') new | None => ok = false ∧ new = [] end).
Proof using Hkernel.
  intros Ht. destruct known as [t |]; [| by apply logged_ret]. eapply logged_weaken; [by apply mount_typed_makes |]. by intros ok new s' [H _].
Qed.

Lemma mount_block_makes source target flags data s : table_ok s →
  makes (mount_block h source target None flags data) s (λ res new s', tries_all source target flags data (known_type s source) res s new (errno s') ∧ (res = None → 0 < errno s')).
Proof using Hkernel.
  intros Ht. cbn [mount_block]. eapply logged_bind_at; [by apply identify_makes |]. intros known s1 new1 Hc1 Ht1 [-> ->]. rewrite app_nil_r in Hc1.
  eapply logged_bind_at; [by apply known_makes |]. intros ok s2 a Hc2 Ht2 Ha. destruct ok.
  - apply logged_ret; [done |]. rewrite app_nil_r, app_nil_l. destruct (known_type s source) as [t |]; [| by destruct Ha].
    split; [left; by exists t | done].
  - apply logged_get. set (s3 := mk_kinit EINVAL (images s2) (world s2)). change (makes ?m s2 ?P) with (makes (match files (calls (world s2)) proc_filesystems with None => mret None | Some fslist => try_lines source target flags data (whole_lines [] fslist) end) s3 P).
    rewrite Hc2, Hc1. 
    assert (∀ res b e, match files (calls (world s) ++ a) proc_filesystems with None => b = [] ∧ res = None | Some fslist => tried source target flags data (types_in (whole_lines [] fslist)) res e b end →
      tries_all source target flags data (known_type s source) res s (a ++ b) e) as Hall.
    { intros res b e Hb. right. exists a, b, (errno s2). split_and!; [| done | done]. destruct (known_type s source); [done | by destruct Ha]. }
    destruct (files (calls (world s) ++ a) proc_filesystems) as [fslist |].
    + eapply logged_weaken; [by apply try_lines_makes |]. intros res b s4 [Hb He]. split; [by apply Hall | done].
    + apply logged_ret; [done |]. split; [by apply Hall | done].
Qed.

Lemma tries_all_mounted source target flags data known res s new e : tries_all source target flags data known res s new e → mounted_last (some res) new.
Proof using Type.
  intros [(t & -> & -> & Ha) | (a & b & e' & Ha & -> & Hb)]; [by apply attempt_mounted in Ha |].
  apply mounted_after. { destruct known; [by apply attempt_mounted in Ha | subst a; constructor]. }
  destruct (files _ _); [by eapply tried_mounted |]. destruct Hb as [-> ->]. constructor.
Qed.

(** *** A block device *)

(** What the failure [e] is reported as. *)
Definition failure_code (l : list (kcall * option Z)) (e : Z) : Z := if e =? EINVAL then - ESRCH else - report l e.

Lemma failure_negative l e : 0 < e → failure_code l e < 0.
Proof using Hkernel. intros He. unfold failure_code, ESRCH. destruct (e =? EINVAL); [lia |]. pose proof (ko_report Hkernel l e He). lia. Qed.

Lemma mount_failed_makes s : table_ok s → makes mount_failed s (λ ret new s', new = [] ∧ ret = failure_code (calls (world s)) (errno s) ∧ s' = s).
Proof using Type.
  intros Ht. unfold mount_failed. apply logged_get. apply logged_ret; [done |]. split_and!; [done | | done].
  unfold failure_code. by destruct (errno s =? EINVAL).
Qed.

Abbreviation root_source := (text "/dev/root").
Abbreviation root_target := (text "/root").

(** The calls that make the device *)
Definition node_made (root_dev : Z) (pre : list (kcall * option Z)) : Prop :=
  ∃ u m, pre = [(KUnlink root_source, u); (KMknod root_source (Z.lor S_IFBLK 0x180) root_dev, m)].

Lemma create_dev_makes root_dev s : table_ok s → makes (create_dev root_source root_dev) s (λ _ new _, node_made root_dev new).
Proof using Hkernel.
  intros Ht. unfold create_dev. eapply logged_bind; [by apply makes_call |]. intros ok s1 new Ht1 (-> & _).
  eapply logged_weaken; [by apply makes_call |]. intros ok' new' s2 (-> & _). do 2 eexists. reflexivity.
Qed.

(** What is tried for a root: with a type, only this type. *)
Definition root_tried (type : option (list Z)) (flags : Z) (data : option (list Z)) (s : st) (ret : Z) (new : list (kcall * option Z)) : Prop :=
  ∃ res e, match type with
           | Some t => attempt root_source root_target flags data t (some res) e new
           | None => tries_all root_source root_target flags data (known_type s root_source) res s new e
           end ∧ (res = None → 0 < e) ∧ ret = if some res then 0 else failure_code (calls (world s) ++ new) e.

Lemma root_tried_mounted type flags data s ret new : root_tried type flags data s ret new → mounted_last (ret =? 0) new.
Proof using Hkernel.
  intros (res & e & Ht & He & ->).
  assert (((if some res then 0 else failure_code (calls (world s) ++ new) e) =? 0) = some res) as ->.
  { destruct res; [done |]. pose proof (failure_negative (calls (world s) ++ new) e (He eq_refl)). simpl. lia. }
  destruct type; [by eapply attempt_mounted | by eapply tries_all_mounted].
Qed.

Lemma mount_block_typed_makes source target t flags data s : table_ok s →
  makes (mount_block h source target (Some t) flags data) s (λ res new s', attempt source target flags data t (some res) (errno s') new ∧ (res = None → 0 < errno s')).
Proof using Hkernel.
  intros Ht. cbn [mount_block]. eapply logged_bind; [by apply mount_typed_makes |]. intros ok s1 new Ht1 [Ha He].
  apply logged_ret; [done |]. rewrite app_nil_r. destruct ok; [done |]. split; [done | by intros; apply He].
Qed.

(** The end of [mount_block_root] for the outcome [rp] of the last attempt. *)
Lemma root_result_makes type flags data s0 s rp b :
  calls (world s) = calls (world s0) ++ b →
  match type with
  | Some t => attempt root_source root_target flags data t (some rp) (errno s) b
  | None => tries_all root_source root_target flags data (known_type s0 root_source) rp s0 b (errno s)
  end → (rp = None → 0 < errno s) → table_ok s →
  makes (match rp with Some _ => mret 0 | None => mount_failed end) s (λ ret new _, root_tried type flags data s0 ret (b ++ new)).
Proof using Type.
  intros Hc Hb He Ht. assert (∀ ret, ret = (if some rp then 0 else failure_code (calls (world s0) ++ b) (errno s)) → root_tried type flags data s0 ret (b ++ [])) as Hres.
  { intros ret ->. rewrite app_nil_r. by exists rp, (errno s). }
  destruct rp; [apply logged_ret; [done |]; by apply Hres |].
  eapply logged_weaken; [by apply mount_failed_makes |]. intros ret new s' (-> & -> & _). apply Hres. by rewrite Hc.
Qed.

Lemma mount_block_root_makes argv root_dev type flags s : table_ok s →
  makes (mount_block_root h argv root_dev type flags) s (λ ret new s',
    ∃ pre b s1, node_made root_dev pre ∧ new = pre ++ b ∧ calls (world s1) = calls (world s) ++ pre ∧ root_tried type flags (get_arg argv (text "rootflags=")) s1 ret b).
Proof using Hkernel.
  intros Ht. unfold mount_block_root. set (data := get_arg argv _). eapply logged_bind_at; [by apply create_dev_makes |]. intros ok s1 pre Hc1 Ht1 Hpre.
  set (s2 := mk_kinit 0 (images s1) (world s1)). eapply (logged_weaken _ _ (λ ret new _, root_tried type flags data s2 ret new)); [| intros ret b s3 Hb; by exists pre, b, s2].
  eapply (logged_bind_at (set_errno 0) _ s1 (λ _ new s', new = [] ∧ s' = s2)); [by exists tt, s2, []; rewrite app_nil_r |]. intros [] s2' new2 _ _ [-> ->].
  destruct type as [t |].
  - eapply logged_bind_at; [by apply mount_block_typed_makes |]. intros rp s3 b Hc3 Ht3 [Hb He].
    pose proof (root_result_makes (Some t) flags data s2 s3 rp b Hc3 Hb He Ht3) as Hend. destruct rp as [t' |]; [exact Hend |].
    apply logged_get. rewrite bool_decide_eq_true_2 by done. destruct (Z.eqb_spec (errno s3) EINVAL) as [E | E]; cbn [negb andb]; [| exact Hend].
    rewrite E. exact Hend.
  - eapply (logged_bind_at _ _ s2 (λ rp new s', rp = None ∧ new = [] ∧ s' = s2)); [by apply logged_ret |]. intros rp s2' new2 _ _ (-> & -> & ->).
    apply logged_get. rewrite bool_decide_eq_false_2 by tauto. cbn [andb]. eapply logged_bind_at; [by apply mount_block_makes |]. intros rp s3 b Hc3 Ht3 [Hb He].
    by apply root_result_makes with (type := None).
Qed.

(** C39.  For a block device the node [/dev/root] is made anew, and
    then exactly these mounts are tried.  With [rootfstype=], only this type,
    and after [EACCES] once more read-only.  Without it, the type that
    [identify_fs] recognises; if that fails, the types of [/proc/filesystems]
    that need a device, in their order, up to the first that is mounted or
    fails with something else than [EINVAL].  The result is 0 if the last one
    was mounted, and [-ESRCH] or the error otherwise. *)
Theorem block_root_types argv root_dev type flags s : table_ok s →
  makes (mount_block_root h argv root_dev type flags) s (λ ret new s',
    ∃ pre b s1, node_made root_dev pre ∧ new = pre ++ b ∧ calls (world s1) = calls (world s) ++ pre ∧
      root_tried type flags (get_arg argv (text "rootflags=")) s1 ret b).
Proof using Hkernel. apply mount_block_root_makes. Qed.

(** *** All roots *)

Lemma node_made_mounts root_dev pre : node_made root_dev pre → mounted_last false pre.
Proof using Type. intros (u & m & ->). apply mounted_none. by repeat constructor. Qed.

Lemma mount_mtd_root_makes argv name type flags s : table_ok s → makes (mount_mtd_root argv name type flags) s (λ ret new _, mounted_last (ret =? 0) new).
Proof using Hkernel.
  intros Ht. unfold mount_mtd_root. eapply logged_bind; [by apply makes_call |]. intros ok s1 new Ht1 (-> & He & _). apply logged_get. apply logged_ret; [done |].
  rewrite app_nil_r. destruct ok; simpl.
  - exists []. eexists. by split.
  - specialize (He eq_refl). replace (- errno s1 =? 0) with false by lia. by repeat constructor.
Qed.

Abbreviation ends := (ends_in (λ s : st, calls (world s)) table_ok (λ code, code = 1)).

(** The root by NFS returns, or ends the program with 1, as it does without
    the address of a server; what it does, and what its result says, is the
    parameter [nfs]. *)
Context (mount_nfs_root : list (list Z) → Z → prog st Z) (nfs : Z → list (kcall * option Z) → Prop).
Context (Hnfs : ∀ argv flags s, table_ok s → ends (mount_nfs_root argv flags) s (λ ret new _, nfs ret new)).

(** One root is tried: a device, of whose mounts the last succeeded exactly if
    the result is 0, or NFS. *)
Definition root_try (ret : Z) (new : list (kcall * option Z)) : Prop := mounted_last (ret =? 0) new ∨ nfs ret new.

(** Roots that were tried in vain *)
Definition failures (new : list (kcall * option Z)) : Prop :=
  ∃ parts, new = concat parts ∧ Forall (λ a, ∃ ret, ret ≠ 0 ∧ root_try ret a) parts.

(** The last root that was tried was mounted, and then made the directory; or
    none was. *)
Definition root_outcome (ret : Z) (new : list (kcall * option Z)) : Prop :=
  if ret =? 0 then ∃ pre b r, new = pre ++ b ++ [(KChdir root_target, r)] ∧ failures pre ∧ root_try 0 b else failures new.

Lemma failures_nil : failures [].
Proof using Type. exists []. by split; [| constructor]. Qed.

Lemma failures_one ret a : ret ≠ 0 → root_try ret a → failures a.
Proof using Type. intros Hr Ha. exists [a]. cbn [concat]. rewrite app_nil_r. split; [done |]. apply Forall_singleton. by exists ret. Qed.

Lemma failures_app a b : failures a → failures b → failures (a ++ b).
Proof using Type.
  intros (p & -> & Hp) (q & -> & Hq). exists (p ++ q). rewrite concat_app. split; [done |]. by apply Forall_app.
Qed.

Lemma failures_quiet new : mounted_last false new → failures new.
Proof using Type. intros H. apply (failures_one (-1)); [done |]. by left. Qed.

(** With devices only: exactly one mount succeeded and it was the last one, or
    none did. *)
Lemma root_outcome_devices ret new : (∀ r l, nfs r l → mounted_last (r =? 0) l) → root_outcome ret new →
  if ret =? 0 then ∃ mnt r, new = mnt ++ [(KChdir root_target, r)] ∧ mounted_last true mnt else mounted_last false new.
Proof using Type.
  intros Hn. assert (∀ r l, root_try r l → mounted_last (r =? 0) l) as Ht by (intros r l [? | ?]; auto).
  assert (∀ l, failures l → mounted_last false l) as Hf.
  { intros l (parts & -> & Hp). induction Hp as [| a parts (r & Hr & Ha) _ IH]; [by apply mounted_none |].
    apply mounted_after; [| exact IH]. apply Ht in Ha. by replace (r =? 0) with false in Ha by lia. }
  unfold root_outcome. destruct (ret =? 0); [| apply Hf]. intros (pre & b & r & -> & Hp & Hb).
  exists (pre ++ b), r. rewrite app_assoc. split; [done |]. apply mounted_after; [by apply Hf | exact (Ht 0 b Hb)].
Qed.

Lemma mount_root_makes argv root_dev name s : table_ok s → ends (mount_root h mount_nfs_root argv root_dev name) s (λ ret new _, root_outcome ret new).
Proof using Hkernel Hnfs.
  intros Ht. unfold mount_root. set (type := get_arg argv _). set (dev := root_by_type type root_dev).
  eapply (ends_bind _ _ _ (λ ret new _, root_try ret new)).
  { destruct (dev =? Root_NFS); [eapply ends_weaken; [by apply Hnfs |]; intros; by right |].
    apply ends_logged. destruct (dev =? Root_MTD); [eapply logged_weaken; [by apply mount_mtd_root_makes |]; intros; by left |].
    eapply logged_weaken; [by apply mount_block_root_makes |]. intros ret new _ (pre & b & s1 & Hpre & -> & _ & Hb).
    left. apply mounted_after; [by eapply node_made_mounts | by eapply root_tried_mounted]. }
  intros ret s1 new Ht1 Hnew. apply ends_logged. unfold root_outcome. destruct (Z.eqb_spec ret 0) as [-> | Hret].
  - eapply logged_bind; [by apply makes_call |]. intros ok s2 new' Ht2 (-> & _). apply logged_ret; [done |]. rewrite app_nil_r.
    eexists [], new, _. split; [reflexivity |]. by split; [apply failures_nil |].
  - eapply (logged_bind _ _ _ (λ _ new _, new = [])); [by apply logged_ret |]. intros ok s2 new' Ht2 ->. apply logged_ret; [done |].
    replace (ret =? 0) with false by lia. rewrite !app_nil_r. by apply (failures_one ret).
Qed.

(** A name that [name_to_dev_t] reads within its bounds *)
Definition readable (name : list Z) : bool := negb (bool_decide (head name = Some 47) && (length name <? 5)%nat).

Lemma device_for_makes name s : readable name = true → table_ok s → makes (device_for name) s (λ _ new _, new = []).
Proof using Type.
  intros Hn Ht. unfold device_for. apply logged_get.
  assert (is_Some (name_to_dev_t (λ path, kfile path (world s)) (λ path, kstat path (world s)) name)) as [d ->]; [| by apply logged_ret].
  unfold name_to_dev_t. destruct (bool_decide (44 ∈ name)); [done |]. destruct (block_node _ _); [done |]. destruct (bool_decide (take 5 name = _)); [done |].
  unfold device_number, readable in *. destruct name as [| c name]; [by eexists |]. cbn [head] in *. change (default 0 (Some c)) with c.
  destruct (Z.eqb_spec c 47) as [-> |].
  - rewrite bool_decide_eq_true_2 in Hn by done. apply negb_true_iff in Hn. cbn [andb] in Hn. rewrite Hn. by eexists.
  - by eexists.
Qed.

Lemma root_outcome_after ret a b : failures a → root_outcome ret b → root_outcome ret (a ++ b).
Proof using Type.
  intros Ha. unfold root_outcome. destruct (ret =? 0); [| by apply failures_app].
  intros (pre & c & r & -> & Hp & Hc). exists (a ++ pre), c, r. rewrite <- app_assoc. split; [done |]. split; [by apply failures_app | done].
Qed.

Lemma mount_roots_makes argv roots : forallb readable roots = true → ∀ ret s, ret ≠ 0 → table_ok s →
  ends (mount_roots_loop h mount_nfs_root argv roots ret) s (λ ret new _, root_outcome ret new).
Proof using Hkernel Hnfs.
  induction roots as [| root roots IH]; intros Hn ret s Hret Ht; cbn [mount_roots_loop].
  { apply ends_ret; [done |]. unfold root_outcome. replace (ret =? 0) with false by lia. apply failures_nil. }
  apply andb_true_iff in Hn as [Hn Hns]. eapply ends_bind; [apply ends_logged; by apply device_for_makes |]. intros dev s1 new Ht1 ->.
  eapply ends_bind; [by apply mount_root_makes |]. intros ret' s2 a Ht2 Ha. destruct (Z.eqb_spec ret' 0) as [E | E].
  - apply ends_ret; [done |]. by rewrite app_nil_r.
  - eapply ends_weaken; [by apply IH |]. intros ret2 b s3 Hb. cbn [app]. apply root_outcome_after; [| done].
    unfold root_outcome in Ha. by replace (ret' =? 0) with false in Ha by lia.
Qed.

(** Several roots, separated by commas, are tried in turn up to the first that
    is mounted, which is made the directory; so a root is never mounted over
    another.  If none is, the result is not 0. *)
Theorem roots_mounted argv name s : forallb readable (roots_of name) = true → table_ok s →
  ends (mount_roots h mount_nfs_root argv name) s (λ ret new _, root_outcome ret new).
Proof using Hkernel Hnfs. intros Hn Ht. by apply mount_roots_makes. Qed.
End recorded.

(** ** An example

    Two disks; on the second there is an ext4 file system. *)

Definition example_files (path : list Z) : option (list Z) :=
  if bool_decide (path = proc_filesystems) then Some (text "nodev" ++ [9] ++ text "proc" ++ [10; 9] ++ text "vfat" ++ [10; 9] ++ text "ext4" ++ [10])
  else if bool_decide (path = text "/sys/block/sda/dev") then Some (text "8:0" ++ [10])
  else if bool_decide (path = text "/sys/block/sdb/dev") then Some (text "8:16" ++ [10])
  else None.

Definition node_of (l : list (kcall * option Z)) : option Z :=
  foldl (λ d x, match x.1 with KMknod _ _ dev => Some dev | _ => d end) None l.

Definition example_verdict (l : list (kcall * option Z)) (c : kcall) : option Z :=
  match c with
  | KMount _ _ type _ _ => if bool_decide (type = text "ext4") && bool_decide (node_of l = Some (makedev 8 16)) then None else Some EINVAL
  | _ => None
  end.

Abbreviation example_kernel := (recording example_verdict (λ _ _, inr example_device) (λ _, example_files) (λ _ _, None) (λ _ e, e)).

Lemma example_kernel_ok : kernel_ok example_verdict (λ _ _, inr example_device) (λ _ e, e) example_host.
Proof.
  split; [| done | | done | exact example_host_ok].
  - intros l c e. destruct c; simpl; try done. destruct (_ && _); [done |]. by intros [= <-].
  - intros _ _ fd [= <-]. exact example_image_ok.
Qed.

Definition example_kinit : kinit (W := history) := mk_kinit 0 (Fstype.images example_host) (mk_history []).

(** The mounts that were tried, of a run *)
Definition run_mounts (r : outcome (Z * kinit (W := history))) : option (Z * list (list Z * option Z)) :=
  match r with
  | Ret (ret, s) => Some (ret, omap (λ x, match x.1 with KMount _ _ t _ _ => Some (t, x.2) | _ => None end) (calls (world s)))
  | _ => None
  end.

Lemma block_root_types_witness : ∃ ret s', mount_block_root (Root0 := example_kernel) example_host [text "kinit"] (makedev 8 0) None MS_RDONLY example_kinit = Ret (ret, s') ∧
  run_mounts (Ret (ret, s')) = Some (- ESRCH, [(text "ext4", Some EINVAL); (text "vfat", Some EINVAL); (text "ext4", Some EINVAL)]).
Proof.
  destruct (block_root_types example_verdict (λ _ _, inr example_device) (λ _, example_files) (λ _ _, None) (λ _ e, e) example_host example_kernel_ok
    [text "kinit"] (makedev 8 0) None MS_RDONLY example_kinit (same_table_refl _ _)) as (ret & s' & new & E & _).
  exists ret, s'. split; [exact E |]. rewrite <- E. vm_compute. reflexivity.
Defined.

(** Without a network *)
Definition no_nfs (ret : Z) (new : list (kcall * option Z)) : Prop := ret = - ESRCH ∧ new = [].

Lemma roots_mounted_witness :
  let m := mount_roots (Root0 := example_kernel) example_host (λ _ _, mret (- ESRCH)) [text "kinit"; text "rw"] (text "sda,sdb") in
  ends_in (λ s : kinit (W := history), calls (world s)) (table_ok example_host) (λ code, code = 1) m example_kinit (λ ret new _, root_outcome no_nfs ret new) ∧
  run_mounts (m example_kinit) = Some (0, [(text "ext4", Some EINVAL); (text "vfat", Some EINVAL); (text "ext4", Some EINVAL); (text "ext4", None)]).
Proof.
  intros m. split; [| vm_compute; reflexivity].
  apply (roots_mounted example_verdict (λ _ _, inr example_device) (λ _, example_files) (λ _ _, None) (λ _ e, e) example_host example_kernel_ok
    (λ _ _, mret (- ESRCH)) no_nfs); [| reflexivity | apply same_table_refl].
  intros argv flags s Ht. by apply ends_ret.
Defined.
