(* ===== verification/Sunrpc.v ===== *)
(** * Remote procedure calls: [kinit/nfsmount/sunrpc.c], [sunrpc.h] and
      [klibc/inet/bindresvport.c]

    Messages are bytes, the structures are layouts as in [Layout].  The kernel
    and the network are an oracle: its answer to a system call may depend on
    all the calls before it, which the state keeps as a trace; the answers of
    [malloc] come from it too.

    The theorems: a call over UDP returns after at most 100 waits, it sends the
    same bytes every time, and it succeeds only with a reply to this call; with
    a server that answers within the tries it does succeed, whatever else
    arrives that is shorter than a reply or fills the buffer. *)

From stdpp Require Import base numbers list strings.
From Stdlib Require Import Lia.
From S2P Require Import Prelude Prog Netdev Layout Rand48.

#[local] Set Warnings "-register-all".

(** ** The messages *)

Definition RPC_CALL : Z := 0.
Definition RPC_REPLY : Z := 1.
Definition RPC_PMAP_PROGRAM : Z := 100000.
Definition RPC_PMAP_VERSION : Z := 2.
Definition RPC_PMAP_PORT : Z := 111.
Definition PMAP_PROC_NULL : Z := 0.
Definition PMAP_PROC_SET : Z := 1.
Definition PMAP_PROC_UNSET : Z := 2.
Definition PMAP_PROC_GETPORT : Z := 3.
Definition PMAP_PROC_DUMP : Z := 4.
Definition MOUNT_PORT : Z := 627.
Definition LAST_FRAG : Z := 0x80000000.
Definition REPLY_OK : Z := 0.
Definition CLI_RESVPORT : Z := 1.

Definition rpc_udp_header : ctype := Struct false [b32 "xid"; b32 "msg_type"].
Definition rpc_header_t : ctype := Struct false [b32 "frag_hdr"; ("udp"%string, rpc_udp_header)].
Definition rpc_call_t : ctype := Struct false [
  ("hdr"%string, rpc_header_t); b32 "rpc_vers"; b32 "program"; b32 "prog_vers"; b32 "proc"; b32 "cred_flavor"; b32 "cred_len"; b32 "vrf_flavor"; b32 "vrf_len"].
Definition rpc_reply_t : ctype := Struct false [
  ("hdr"%string, rpc_header_t); b32 "reply_state"; b32 "vrf_flavor"; b32 "vrf_len"; b32 "state"].

(** The four bytes of [htonl(v)] in memory. *)
Definition be32 (v : Z) : list Z := [(v / 2 ^ 24) mod 256; (v / 2 ^ 16) mod 256; (v / 2 ^ 8) mod 256; v mod 256].

(** A member of four bytes of the structure at the start of a block; outside of
    the block nothing is known. *)
Definition field (t : ctype) (xs : list string) (l : list Z) : option (list Z) :=
  '(o, _) ← offsetof t xs;
  bytes_at l o 4.
Definition set_field (t : ctype) (xs : list string) (v l : list Z) : option (list Z) :=
  '(o, _) ← offsetof t xs;
  if o + 4 <=? Z.of_nat (length l) then Some (take (Z.to_nat o) l ++ v ++ drop (Z.to_nat o + 4) l) else None.
Arguments field _ _%_string_scope _.
Arguments set_field _ _%_string_scope _ _.

(** ** The system calls *)

(** [struct nfs_mount_data] of the kernel, the members that nfsmount sets *)
Record nfs_mount_data := mk_nfs_data {
  d_fd : Z; d_old_root : list Z; d_flags : Z; d_rsize : Z; d_wsize : Z; d_timeo : Z; d_retrans : Z;
  d_acregmin : Z; d_acregmax : Z; d_acdirmin : Z; d_acdirmax : Z; d_addr : Z * Z; d_hostname : list Z; d_root_size : Z; d_root : list Z;
}.

Inductive ncall :=
  | NSocket (tcp : bool)
  | NBind (sock port : Z)
  | NConnect (sock server port : Z)
  | NWrite (sock : Z) (data : list Z)
  | NPoll (sock timeout : Z)
  | NRead (sock len : Z)
  | NClose (sock : Z)
  | NMalloc (size : Z)
  | NMount (source target : list Z) (flags : Z) (data : nfs_mount_data).
(** The result, and for [NRead] the bytes read; of [NMalloc] the result is 0 when
    there is no memory. *)
Definition nanswer : Type := Z * list Z.

(** [seed48] is the state of the random numbers, [port] the variable of
    [bindresvport]. *)
Record net := mk_net { seed48 : seed; port : Z; trace : list (ncall * nanswer) }.

Section rpc.
Context (oracle : list (ncall * nanswer) → ncall → nanswer) (getpid : Z).

Definition ndo (c : ncall) : prog net nanswer := λ s,
  let a := oracle (trace s) c in Ret (a, mk_net (seed48 s) (port s) (trace s ++ [(c, a)])).
Definition random : prog net Z := λ s, let '(r, seed) := lrand48 (seed48 s) in Ret (r, mk_net seed (port s) (trace s)).
Definition set_port (p : Z) : prog net unit := λ s, Ret (tt, mk_net (seed48 s) p (trace s)).

(** ** Reserved ports *)

Definition START_PORT : Z := 768.
Definition END_PORT : Z := 1024.
Definition NUM_PORTS : Z := END_PORT - START_PORT.

Fixpoint bind_loop (n : nat) (sd : Z) (ret : Z) : prog net Z :=
  match n with
  | O => mret ret
  | S n =>
      s ← get_st;
      (if port s =? END_PORT then set_port START_PORT else mret tt);;
      s ← get_st;
      a ← ndo (NBind sd (port s));
      if negb (a.1 =? -1) then mret a.1
      else set_port (s16 (port s + 1));; bind_loop n sd a.1
  end.
Definition bindresvport (sd : Z) : prog net Z :=
  s ← get_st;
  (if port s =? 0 then set_port (s16 (START_PORT + Z.rem getpid NUM_PORTS)) else mret tt);;
  bind_loop (Z.to_nat NUM_PORTS) sd 0.

(** ** Calls *)

(** [struct rpc]: the blocks that [call] and [reply] point to, and their
    lengths. *)
Record rpc := mk_rpc { call : list Z; call_len : Z; reply : list Z; reply_len : Z }.
Record client := mk_client { sock : Z; is_tcp : bool }.

(** [read] into the reply from [off] on; [None] is [-1]. *)
Definition read_reply (clnt : client) (r : rpc) (off : Z) : prog net (option (list Z) * rpc) :=
  a ← ndo (NRead (sock clnt) (u64 (reply_len r - off)));
  if a.1 =? -1 then mret (None, r)
  else
    let d := take (Z.to_nat (u64 (reply_len r - off))) a.2 in
    if off + Z.of_nat (length d) <=? Z.of_nat (length (reply r))
    then mret (Some d, mk_rpc (call r) (call_len r) (take (Z.to_nat off) (reply r) ++ overwrite (drop (Z.to_nat off) (reply r)) d) (reply_len r))
    else crash.

(** What makes it a good reply *)
Definition good_reply (r : rpc) (off : Z) : option bool :=
  frag ← field rpc_reply_t ["hdr"; "frag_hdr"] (reply r);
  xid ← field rpc_reply_t ["hdr"; "udp"; "xid"] (reply r);
  xid' ← field rpc_call_t ["hdr"; "udp"; "xid"] (call r);
  msg_type ← field rpc_reply_t ["hdr"; "udp"; "msg_type"] (reply r);
  state ← field rpc_reply_t ["state"] (reply r);
  Some (negb ((off =? 0) && (Z.land (be frag) LAST_FRAG =? 0) || negb (bool_decide (xid = xid')) || negb (bool_decide (msg_type = be32 RPC_REPLY)))
        && (be state =? REPLY_OK)).

Definition rpc_do_reply (clnt : client) (r : rpc) (off : Z) : prog net (Z * rpc) :=
  '(d, r) ← read_reply clnt r off;
  match d with
  | None => mret (-1, r)
  | Some d =>
      if Z.of_nat (length d) <? sizeof rpc_reply_t - off then mret (-1, r)
      else
        let r := mk_rpc (call r) (call_len r) (reply r) (Z.of_nat (length d) + off) in
        ok ← of_option (good_reply r off);
        mret (if ok : bool then 0 else -1, r)
  end.

Definition rpc_header (r : rpc) : prog net rpc :=
  xid ← random;
  of_option
    (c ← set_field rpc_call_t ["hdr"; "frag_hdr"] (be32 (Z.lor LAST_FRAG (u64 (call_len r - 4)))) (call r);
     c ← set_field rpc_call_t ["hdr"; "udp"; "xid"] (to_le 4 xid) c;
     c ← set_field rpc_call_t ["hdr"; "udp"; "msg_type"] (be32 RPC_CALL) c;
     c ← set_field rpc_call_t ["rpc_vers"] (be32 2) c;
     Some (mk_rpc c (call_len r) (reply r) (reply_len r))).

(** [write] of the call from [off] on: whether all of it was taken. *)
Definition send_call (clnt : client) (r : rpc) (off : Z) : prog net bool :=
  data ← of_option (bytes_at (call r) off (call_len r));
  a ← ndo (NWrite (sock clnt) data);
  mret (negb (a.1 =? -1) && negb (u64 a.1 <? call_len r)).

Definition rpc_call_tcp (clnt : client) (r : rpc) : prog net (Z * rpc) :=
  r ← rpc_header r;
  ok ← send_call clnt r 0;
  if ok : bool then rpc_do_reply clnt r 0 else mret (-1, r).

Definition TIMEOUT_MS : Z := 3000.
Definition MAX_TRIES : Z := 100.
Definition UDP_HDR_OFF : Z := sizeof rpc_header_t - sizeof rpc_udp_header.

(** The two loops: [tries] is [MAX_TRIES - i], [timeout] is [None] where the
    outer loop begins. *)
Fixpoint udp_loop (tries : nat) (clnt : client) (r : rpc) (timeout : option Z) : prog net (Z * rpc) :=
  match tries with
  | O => mret (-1, r)
  | S tries =>
      timeout ← (match timeout with
                 | Some ms => mret (Some ms)
                 | None =>
                     x ← random;
                     ok ← send_call clnt r UDP_HDR_OFF;
                     mret (if ok : bool then Some (TIMEOUT_MS + Z.rem x (TIMEOUT_MS / 2)) else None)
                 end);
      match timeout with
      | None => mret (-1, r)
      | Some ms =>
          a ← ndo (NPoll (sock clnt) ms);
          if a.1 =? -1 then mret (-1, r)
          else if a.1 =? 0 then udp_loop tries clnt r None
          else
            '(ret, r) ← rpc_do_reply clnt r UDP_HDR_OFF;
            if ret =? 0 then mret (0, r) else udp_loop tries clnt r (Some ms)
      end
  end.

Definition rpc_call_udp (clnt : client) (r : rpc) : prog net (Z * rpc) :=
  r ← rpc_header r;
  udp_loop (Z.to_nat MAX_TRIES) clnt (mk_rpc (call r) (u64 (call_len r - UDP_HDR_OFF)) (reply r) (reply_len r)) None.

Definition rpc_call (clnt : client) (r : rpc) : prog net (Z * rpc) := if is_tcp clnt then rpc_call_tcp clnt r else rpc_call_udp clnt r.

(** ** Clients *)

(** The size of [struct client]: a socket and the pointer to a function *)
Definition sizeof_client : Z := 16.

(** [tcp_client] and [udp_client]; a socket that cannot be used is not
    closed. *)
Definition make_client (tcp : bool) (server prt flags : Z) : prog net (option client) :=
  clnt ← ndo (NMalloc sizeof_client);
  if clnt.1 =? 0 then mret None
  else
    a ← ndo (NSocket tcp);
    if a.1 =? -1 then mret None
    else
      let sock := a.1 in
      bound ← (if negb (Z.land flags CLI_RESVPORT =? 0) then bindresvport sock else mret 0);
      if bound =? -1 then mret None
      else
        c ← ndo (NConnect sock server (u16 prt));
        if c.1 =? -1 then mret None else mret (Some (mk_client sock tcp)).

Definition client_free (c : client) : prog net unit :=
  if negb (sock c =? -1) then ndo (NClose (sock c));; mret tt else mret tt.
End rpc.

(** ** The messages at their offsets *)

Lemma reply_fields l :
  field rpc_reply_t ["hdr"; "frag_hdr"] l = bytes_at l 0 4 ∧ field rpc_reply_t ["hdr"; "udp"; "xid"] l = bytes_at l 4 4 ∧
  field rpc_reply_t ["hdr"; "udp"; "msg_type"] l = bytes_at l 8 4 ∧ field rpc_reply_t ["state"] l = bytes_at l 24 4 ∧
  field rpc_call_t ["hdr"; "udp"; "xid"] l = bytes_at l 4 4.
Proof. done. Qed.

Lemma message_sizes : sizeof rpc_reply_t = 28 ∧ sizeof rpc_call_t = 44 ∧ UDP_HDR_OFF = 4.
Proof. done. Qed.

Lemma bytes_at_in l i n : 0 <= i → 0 <= n → i + n <= Z.of_nat (length l) → bytes_at l i n = Some (take (Z.to_nat n) (drop (Z.to_nat i) l)).
Proof. intros Hi Hn Hl. unfold bytes_at. by rewrite !(proj2 (Z.leb_le _ _)) by lia. Qed.

Lemma set_field_at t xs v l o y : offsetof t xs = Some (o, y) → o + 4 <= Z.of_nat (length l) →
  set_field t xs v l = Some (take (Z.to_nat o) l ++ v ++ drop (Z.to_nat o + 4) l).
Proof. intros Ho Hl. unfold set_field. rewrite Ho. cbn [mbind option_bind]. by rewrite (proj2 (Z.leb_le _ _)). Qed.

(** The call with its header filled in *)
Definition headed (c : list Z) (xid : Z) : list Z :=
  be32 (Z.lor LAST_FRAG (u64 (Z.of_nat (length c) - 4))) ++ to_le 4 xid ++ be32 RPC_CALL ++ be32 2 ++ drop 16 c.

Lemma length_headed c xid : (16 <= length c)%nat → length (headed c xid) = length c.
Proof. intros H. unfold headed. rewrite !length_app, to_le_length, length_drop. cbn [be32 length]. lia. Qed.

Lemma list_16 (l : list Z) : (16 <= length l)%nat → ∃ a0 a1 a2 a3 b0 b1 b2 b3 c0 c1 c2 c3 d0 d1 d2 d3 rest,
  l = a0 :: a1 :: a2 :: a3 :: b0 :: b1 :: b2 :: b3 :: c0 :: c1 :: c2 :: c3 :: d0 :: d1 :: d2 :: d3 :: rest.
Proof. intros H. do 16 (destruct l as [| ? l]; [simpl in H; lia |]). by repeat eexists. Qed.

Lemma rpc_header_ok r s : (16 <= length (call r))%nat → call_len r = Z.of_nat (length (call r)) →
  rpc_header r s = Ret (mk_rpc (headed (call r) (lrand48 (seed48 s)).1) (call_len r) (reply r) (reply_len r), mk_net (lrand48 (seed48 s)).2 (port s) (trace s)).
Proof.
  intros Hl Hlen. unfold rpc_header, random. destruct (lrand48 (seed48 s)) as [xid sd] eqn:E. erewrite pbind_ok by (by rewrite E). cbn [fst snd].
  unfold headed. rewrite Hlen. set (fr := be32 (Z.lor _ _)). assert (length fr = 4%nat) as Hfr by done. assert (length (to_le 4 xid) = 4%nat) as Hx by apply to_le_length.
  clearbody fr. generalize dependent (to_le 4 xid). intros x Hx.
  destruct (list_16 (call r) Hl) as (a0 & a1 & a2 & a3 & b0 & b1 & b2 & b3 & c0 & c1 & c2 & c3 & d0 & d1 & d2 & d3 & rest & ->).
  destruct fr as [| f0 [| f1 [| f2 [| f3 [|]]]]]; try discriminate Hfr. destruct x as [| x0 [| x1 [| x2 [| x3 [|]]]]]; try discriminate Hx.
  rewrite (set_field_at rpc_call_t ["hdr"; "frag_hdr"]%string _ _ 0 (Int 4)) by (try done; simpl; lia). cbn [mbind option_bind].
  rewrite (set_field_at rpc_call_t ["hdr"; "udp"; "xid"]%string _ _ 4 (Int 4)) by (try done; simpl; lia). cbn [mbind option_bind].
  rewrite (set_field_at rpc_call_t ["hdr"; "udp"; "msg_type"]%string _ _ 8 (Int 4)) by (try done; simpl; lia). cbn [mbind option_bind].
  rewrite (set_field_at rpc_call_t ["rpc_vers"]%string _ _ 12 (Int 4)) by (try done; simpl; lia). cbn [mbind option_bind]. done.
Qed.

(** ** What a reply to a call is *)

Definition replies (c d : list Z) : bool :=
  (24 <=? Z.of_nat (length d)) && bool_decide (take 4 d = take 4 (drop 4 c)) && bool_decide (take 4 (drop 4 d) = be32 RPC_REPLY) && (be (take 4 (drop 20 d)) =? REPLY_OK).

(** A call of the trace that read a reply to [c] *)
Definition answers (c : list Z) (x : ncall * nanswer) : bool :=
  match x with (NRead _ n, (k, d)) => negb (k =? -1) && replies c (take (Z.to_nat n) d) | _ => false end.

Record rpc_ok (r : rpc) : Prop := {
  ok_call : 44 <= Z.of_nat (length (call r)) < 2 ^ 31;
  ok_reply : 28 <= reply_len r <= Z.of_nat (length (reply r));
  ok_size : Z.of_nat (length (reply r)) < 2 ^ 31;
}.

Section calls.
Context (oracle : list (ncall * nanswer) → ncall → nanswer) (clnt : client).

Lemma overwrite_at (l d : list Z) : (4 + length d <= length l)%nat → take (4 + length d) (take 4 l ++ overwrite (drop 4 l) d) = take 4 l ++ d ∧
  length (take 4 l ++ overwrite (drop 4 l) d) = length l.
Proof.
  intros H. split.
  - assert (length (take 4 l) = 4%nat) as H4 by (rewrite length_take; lia). rewrite take_app, H4, take_ge by lia.
    replace (4 + length d - 4)%nat with (length d) by lia. unfold overwrite. by rewrite take_app_length.
  - rewrite length_app, length_overwrite by (rewrite length_drop; lia). rewrite length_take, length_drop. lia.
Qed.

(** The fields of a reply behind the fragment header *)
Lemma good_reply_udp r (d rest : list Z) b : length b = 4%nat → reply r = b ++ d ++ rest → (24 <= length d)%nat → (44 <= length (call r))%nat →
  good_reply r 4 = Some (replies (call r) d).
Proof.
  intros Hb Hr Hd Hc. unfold good_reply. destruct (reply_fields (reply r)) as (-> & -> & -> & -> & _). destruct (reply_fields (call r)) as (_ & _ & _ & _ & ->).
  assert (∀ i, (i + 4 <= length d)%nat → bytes_at (reply r) (4 + Z.of_nat i) 4 = Some (take 4 (drop i d))) as Hat.
  { intros i Hi. rewrite bytes_at_in by (rewrite ?Hr, ?length_app; lia). f_equal. rewrite Hr. replace (Z.to_nat (4 + Z.of_nat i)) with (4 + i)%nat by lia.
    rewrite <- drop_drop, (drop_app_length' b) by lia. rewrite drop_app_le by lia. change (Z.to_nat 4) with 4%nat. apply take_app_le. rewrite length_drop. lia. }
  rewrite (bytes_at_in (reply r) 0 4) by (rewrite ?Hr, ?length_app; lia). cbn [mbind option_bind]. rewrite (Hat 0%nat ltac:(lia) : bytes_at (reply r) 4 4 = _). cbn [mbind option_bind].
  rewrite (bytes_at_in (call r) 4 4) by lia. cbn [mbind option_bind]. rewrite (Hat 4%nat ltac:(lia) : bytes_at (reply r) 8 4 = _). cbn [mbind option_bind].
  rewrite (Hat 20%nat ltac:(lia) : bytes_at (reply r) 24 4 = _). cbn [mbind option_bind]. f_equal. unfold replies. rewrite (proj2 (Z.leb_le 24 _)) by lia.
  change (4 =? 0) with false. cbn [andb orb]. rewrite drop_0. change (Z.to_nat 4) with 4%nat. by destruct (bool_decide (take 4 d = _)), (bool_decide (take 4 (drop 4 d) = _)).
Qed.

Lemma rpc_do_reply_ok r s : rpc_ok r → let c := NRead (sock clnt) (reply_len r - 4) in
  ∃ ret r', rpc_do_reply oracle clnt r UDP_HDR_OFF s = Ret ((ret, r'), mk_net (seed48 s) (port s) (trace s ++ [(c, oracle (trace s) c)])) ∧
    rpc_ok r' ∧ call r' = call r ∧ call_len r' = call_len r ∧ length (reply r') = length (reply r) ∧
    if answers (call r) (c, oracle (trace s) c)
    then ret = 0 ∧ drop 4 (take (Z.to_nat (reply_len r')) (reply r')) = take (Z.to_nat (reply_len r - 4)) (oracle (trace s) c).2 ∧ reply_len r' = 4 + Z.of_nat (length (take (Z.to_nat (reply_len r - 4)) (oracle (trace s) c).2))
    else ret = -1.
Proof.
  intros Hok c. pose proof Hok as [Hc [Hr1 Hr2] Hs]. unfold rpc_do_reply, read_reply. change UDP_HDR_OFF with 4. rewrite (wrapu_small 64) by (unfold in_u; lia).
  destruct (oracle (trace s) c) as [k d0] eqn:Ea. cbn [snd].
  set (d := take (Z.to_nat (reply_len r - 4)) d0).
  assert (Z.of_nat (length d) <= reply_len r - 4) as Hd by (unfold d; rewrite length_take; lia).
  assert (answers (call r) (@pair ncall nanswer c (k, d0)) = negb (k =? -1) && replies (call r) d) as -> by done.
  unfold mbind, prog_bind, ndo. fold c. rewrite Ea. cbn [fst snd].
  destruct (Z.eqb_spec k (-1)) as [-> | Hk]; cbn [negb andb].
  { exists (-1), r. split_and!; done. }
  fold d. rewrite (proj2 (Z.leb_le (4 + Z.of_nat (length d)) _)) by lia. unfold mret, prog_ret. cbv beta iota. change (sizeof rpc_reply_t - 4) with 24.
  destruct (overwrite_at (reply r) d ltac:(lia)) as [Htake Hlen]. change (Z.to_nat 4) with 4%nat.
  set (buf := take 4 (reply r) ++ overwrite (drop 4 (reply r)) d) in *.
  destruct (Z.ltb_spec (Z.of_nat (length d)) 24) as [Hshort | Hlong].
  - exists (-1), (mk_rpc (call r) (call_len r) buf (reply_len r)). split_and!; try done.
    + split; cbn [call reply reply_len]; [done | lia | lia].
    + cbn [negb andb]. assert (replies (call r) d = false) as ->; [| done]. unfold replies. by rewrite (proj2 (Z.leb_gt 24 (Z.of_nat (length d)))) by lia.
  - rewrite (good_reply_udp _ d (drop (length d) (drop 4 (reply r))) (take 4 (reply r))); cbn [call reply]; [| rewrite length_take; lia | done | lia | lia].
    cbn [of_option]. unfold mret, prog_ret. cbv beta iota. exists (if replies (call r) d then 0 else -1), (mk_rpc (call r) (call_len r) buf (Z.of_nat (length d) + 4)). split_and!; try done.
    + split; cbn [call reply reply_len]; [done | lia | lia].
    + destruct (replies (call r) d); [| done]. cbn [reply reply_len]. split_and!; [done | | lia].
      replace (Z.to_nat (Z.of_nat (length d) + 4)) with (4 + length d)%nat by lia. rewrite Htake.
      rewrite drop_app_length'; [done | rewrite length_take; lia].
Qed.

(** ** A call over UDP *)

Definition is_poll (x : ncall * nanswer) : bool := match x.1 with NPoll _ _ => true | _ => false end.
Definition polls (l : list (ncall * nanswer)) : nat := length (filter (λ x, is_poll x = true) l).

(** A write that did not take all, a failure of [poll] *)
Definition broken (len : Z) (x : ncall * nanswer) : bool :=
  match x.1 with
  | NWrite _ _ => (x.2.1 =? -1) || (u64 x.2.1 <? len)
  | NPoll _ _ => x.2.1 =? -1
  | _ => false
  end.

(** Every step of a call: it always sends the same [data], and waits between 3
    and 4.5 seconds. *)
Definition step_of (data : list Z) (x : ncall * nanswer) : Prop :=
  match x.1 with
  | NWrite sk d => sk = sock clnt ∧ d = data
  | NPoll sk ms => sk = sock clnt ∧ 3000 <= ms < 4500
  | NRead sk _ => sk = sock clnt
  | _ => False
  end.

(** What the call [x] read is in the buffer of [r]. *)
Definition holds (r : rpc) (x : ncall * nanswer) : Prop :=
  ∃ n d, x.1 = NRead (sock clnt) n ∧ d = take (Z.to_nat n) x.2.2 ∧ reply_len r = 4 + Z.of_nat (length d) ∧ drop 4 (take (Z.to_nat (reply_len r)) (reply r)) = d.

(** A call of [c] has ended with [ret] and [r'] after the system calls [new],
    with at most [tries] waits: the last one read a reply to [c], which is in
    the buffer; or none did, and the kernel failed or all waits are used. *)
Definition ended (c : list Z) (len : Z) (tries : nat) (ret : Z) (r' : rpc) (new : list (ncall * nanswer)) : Prop :=
  (polls new <= tries)%nat ∧ Forall (step_of (drop 4 c)) new ∧
  ((ret = 0 ∧ ∃ pre x, new = pre ++ [x] ∧ Forall (λ x, answers c x = false) pre ∧ answers c x = true ∧ holds r' x) ∨
   (ret = -1 ∧ Forall (λ x, answers c x = false) new ∧ (polls new = tries ∨ ∃ x, last new = Some x ∧ broken len x = true))).

Lemma polls_app a b : polls (a ++ b) = (polls a + polls b)%nat.
Proof using Type. unfold polls. by rewrite filter_app, length_app. Qed.

(** Steps that did not end the call *)
Lemma ended_after c len n m ret r' a b : Forall (step_of (drop 4 c)) a → Forall (λ x, answers c x = false) a → (polls a + n = m)%nat → ended c len n ret r' b → ended c len m ret r' (a ++ b).
Proof using Type.
  intros Hs Ha Hn (Hp & Hb & H). split_and!; [rewrite polls_app; lia | by apply Forall_app |]. destruct H as [(-> & pre & x & -> & Hpre & Hx & Hr) | (-> & Hn' & H)].
  - left. split; [done |]. exists (a ++ pre), x. rewrite app_assoc. split_and!; [done | by apply Forall_app | done | done].
  - right. split_and!; [done | by apply Forall_app |]. destruct H as [H | (x & Hx & Hbr)]; [left; rewrite polls_app; lia | right; exists x; split; [| done]].
    by rewrite last_app, Hx.
Qed.

Lemma ended_broken c len m r' x : (polls [x] <= m)%nat → step_of (drop 4 c) x → answers c x = false → broken len x = true → ended c len m (-1) r' [x].
Proof using Type. intros Hp Hs Ha Hb. split_and!; [done | by constructor |]. right. split_and!; [done | by constructor |]. right. by exists x. Qed.

Lemma lrand48_nonneg sd : 0 <= (lrand48 sd).1.
Proof using Type. unfold lrand48. destruct (jrand48 sd) as [x sd']. apply Z.shiftr_nonneg. apply Z.mod_pos_bound. done. Qed.

(** The program ends the call [c]. *)
Definition ends (c : list Z) (len : Z) (size tries : nat) (m : prog net (Z * rpc)) (s : net) : Prop :=
  ∃ ret r' s' new, m s = Ret ((ret, r'), s') ∧ trace s' = trace s ++ new ∧ rpc_ok r' ∧ call r' = c ∧ length (reply r') = size ∧ ended c len tries ret r' new.

Lemma ends_after c len size n k x m s s1 : Forall (step_of (drop 4 c)) x → Forall (λ x, answers c x = false) x → (polls x + n = k)%nat →
  trace s1 = trace s ++ x → ends c len size n m s1 → ∀ m', m' s = m s1 → ends c len size k m' s.
Proof using Type.
  intros Hs Ha Hn Ht (ret & r' & s' & new & E & Htr & Hok & Hc & Hl & Hend) m' Em. exists ret, r', s', (x ++ new).
  split_and!; [by rewrite Em | by rewrite Htr, Ht, app_assoc | done | done | done | by eapply ended_after].
Qed.

Definition said (s : net) (c : ncall) : net := mk_net (seed48 s) (port s) (trace s ++ [(c, oracle (trace s) c)]).

Lemma ndo_bind {A} c (f : nanswer → prog net A) s : (ndo oracle c ≫= f) s = f (oracle (trace s) c) (said s c).
Proof using Type. done. Qed.

Section loop.
Context (c : list Z) (size : nat) (Hc : 44 <= Z.of_nat (length c) < 2 ^ 31).
Let len : Z := Z.of_nat (length c) - 4.
Definition this_call (r : rpc) : Prop := rpc_ok r ∧ call r = c ∧ call_len r = len ∧ length (reply r) = size.

(** The wait, when the rest of the loop is right *)
Definition wait (tries : nat) (r : rpc) (ms : Z) : prog net (Z * rpc) :=
  a ← ndo oracle (NPoll (sock clnt) ms);
  if a.1 =? -1 then mret (-1, r)
  else if a.1 =? 0 then udp_loop oracle tries clnt r None
  else
    '(ret, r) ← rpc_do_reply oracle clnt r UDP_HDR_OFF;
    if ret =? 0 then mret (0, r) else udp_loop oracle tries clnt r (Some ms).

Lemma wait_ends tries r ms s : this_call r → 3000 <= ms < 4500 →
  (∀ r timeout s, this_call r → (∀ ms, timeout = Some ms → 3000 <= ms < 4500) → ends c len size tries (udp_loop oracle tries clnt r timeout) s) →
  ends c len size (S tries) (wait tries r ms) s.
Proof using Hc.
  intros Hr Hms IH. unfold wait. set (p := NPoll (sock clnt) ms). set (x := (p, oracle (trace s) p)).
  assert (step_of (drop 4 c) x) as Hx by done. assert (answers c x = false) as Hax by done. assert (polls [x] = 1%nat) as Hpx by done.
  destruct (Z.eqb_spec (oracle (trace s) p).1 (-1)) as [E | E].
  { exists (-1), r, (said s p), [x]. rewrite ndo_bind, E. destruct Hr as (Hok & Hcall & Hlen & Hsize). split_and!; try done. apply ended_broken; [lia | done | done |].
    unfold broken. cbn [fst snd x p]. lia. }
  destruct (Z.eqb_spec (oracle (trace s) p).1 0) as [E0 | E0].
  { eapply (ends_after _ _ size tries _ [x]); [by constructor | by constructor | lia | | by apply (IH r None (said s p)) |].
    - done.
    - rewrite ndo_bind, E0. done. }
  pose proof Hr as (Hok & Hcall & Hlen & Hsize). set (s1 := said s p). set (q := NRead (sock clnt) (reply_len r - 4)). set (y := (q, oracle (trace s1) q)).
  destruct (rpc_do_reply_ok r s1 Hok) as (ret & r' & Ed & Hok' & Hcall' & Hlen' & Hsize' & Hres). fold q y in Hres, Ed. rewrite Hcall in Hcall', Hres. rewrite Hlen in Hlen'. rewrite Hsize in Hsize'.
  assert (∀ m', m' = (a ← ndo oracle p; if a.1 =? -1 then mret (-1, r) else if a.1 =? 0 then udp_loop oracle tries clnt r None else '(ret, r) ← rpc_do_reply oracle clnt r UDP_HDR_OFF; if ret =? 0 then mret (0, r) else udp_loop oracle tries clnt r (Some ms)) →
    m' s = (if ret =? 0 then mret (0, r') else udp_loop oracle tries clnt r' (Some ms)) (said s1 q)) as Hrun.
  { intros m' ->. rewrite ndo_bind, (proj2 (Z.eqb_neq _ _) E), (proj2 (Z.eqb_neq _ _) E0). by rewrite (pbind_ok _ _ _ _ _ Ed). }
  specialize (Hrun _ eq_refl). assert (Forall (step_of (drop 4 c)) [x; y]) as Hst by (apply Forall_cons; split; [done | by apply Forall_singleton]). destruct (answers c y) eqn:Ey.
  - destruct Hres as (-> & Hbuf & Hlen''). exists 0, r', (said s1 q), [x; y]. split_and!; [exact Hrun | cbn; by rewrite <- app_assoc | done | done | done |].
    split_and!; [change (polls [x; y]) with 1%nat; lia | done |]. left. split; [done |]. exists [x], y. split_and!; [done | by constructor | done |].
    by exists (reply_len r - 4), (take (Z.to_nat (reply_len r - 4)) (oracle (trace s1) q).2).
  - rewrite Hres in Hrun. eapply (ends_after _ _ size tries _ [x; y]); [done | apply Forall_cons; split; [done | by apply Forall_singleton] | change (polls [x; y]) with 1%nat; lia | | apply (IH r' (Some ms) (said s1 q)) | exact Hrun].
    + cbn. by rewrite <- app_assoc.
    + done.
    + by intros ? [= <-].
Qed.

(** A try that begins with sending the call *)
Lemma udp_loop_sends tries r s : this_call r →
  let sd := mk_net (lrand48 (seed48 s)).2 (port s) (trace s) in
  let w := NWrite (sock clnt) (drop 4 c) in
  let ms := TIMEOUT_MS + Z.rem (lrand48 (seed48 s)).1 (TIMEOUT_MS / 2) in
  udp_loop oracle (S tries) clnt r None s = (if broken len (w, oracle (trace s) w) then mret (-1, r) else wait tries r ms) (said sd w).
Proof using Hc.
  intros (Hok & Hcall & Hlen & Hsize) sd w ms.
  assert (send_call oracle clnt r UDP_HDR_OFF sd = Ret (negb (broken len (w, oracle (trace s) w)), said sd w)) as Esend.
  { unfold send_call. rewrite Hcall, Hlen. rewrite bytes_at_in by (change UDP_HDR_OFF with 4; unfold len; lia). cbn [of_option]. erewrite pbind_ok by done.
    change (Z.to_nat UDP_HDR_OFF) with 4%nat. rewrite take_ge by (rewrite length_drop; unfold len; lia). rewrite ndo_bind. unfold broken, w. cbn [fst snd]. by rewrite negb_orb. }
  cbn [udp_loop]. unfold random at 1. unfold mbind at 1, prog_bind at 1. unfold mbind at 1, prog_bind at 1. subst sd ms. destruct (lrand48 (seed48 s)) as [v sd']. cbn [fst snd] in *.
  rewrite (pbind_ok _ _ _ _ _ Esend). by destruct (broken len _).
Qed.

Lemma udp_loop_ends tries : ∀ r timeout s, this_call r → (∀ ms, timeout = Some ms → 3000 <= ms < 4500) → ends c len size tries (udp_loop oracle tries clnt r timeout) s.
Proof using Hc.
  induction tries as [| tries IH]; intros r timeout s Hr Hms.
  { exists (-1), r, s, []. destruct Hr as (Hok & Hcall & Hlen & Hsize). rewrite app_nil_r. split_and!; try done. split_and!; [done | constructor |]. right. split_and!; [done | constructor | by left]. }
  pose proof Hr as (Hok & Hcall & Hlen & Hsize). cbn [udp_loop]. destruct timeout as [ms |].
  { by apply (wait_ends tries r ms s Hr (Hms ms eq_refl)). }
  pose proof (udp_loop_sends tries r s Hr) as Hrun. cbv zeta in Hrun. set (sd := mk_net _ _ _) in Hrun. set (w := NWrite _ _) in Hrun. set (ms := TIMEOUT_MS + _) in Hrun.
  change (ends c len size (S tries) (udp_loop oracle (S tries) clnt r None) s).
  assert (step_of (drop 4 c) (w, oracle (trace s) w)) as Hw by done. destruct (broken len (w, oracle (trace s) w)) eqn:Eok.
  - exists (-1), r, (said sd w), [(w, oracle (trace s) w)]. split_and!; [exact Hrun | done | done | done | done |]. apply ended_broken; [change (polls _) with 0%nat; lia | done | done | exact Eok].
  - eapply (ends_after _ _ size (S tries) _ [(w, oracle (trace s) w)]); [by constructor | by constructor | done | | apply (wait_ends tries r ms (said sd w) Hr) | exact Hrun].
    + done.
    + pose proof (lrand48_nonneg (seed48 s)). pose proof (Z.rem_bound_pos (lrand48 (seed48 s)).1 1500 ltac:(lia) ltac:(lia)). unfold ms. change (TIMEOUT_MS / 2) with 1500. change TIMEOUT_MS with 3000. lia.
    + exact IH.
Qed.

(** A call that ends with 0 begins with sending itself, whole. *)
Lemma udp_loop_first tries r s r' s' : this_call r → udp_loop oracle (S tries) clnt r None s = Ret ((0, r'), s') →
  let w := NWrite (sock clnt) (drop 4 c) in
  ∃ rest, trace s' = trace s ++ (w, oracle (trace s) w) :: rest ∧ broken len (w, oracle (trace s) w) = false.
Proof using Hc.
  intros Hr E w. rewrite (udp_loop_sends tries r s Hr) in E. cbv zeta in E. fold w in E. destruct (broken len (w, _)) eqn:Eb; [done |].
  set (sd := mk_net _ _ _) in E. set (ms := TIMEOUT_MS + _) in E.
  destruct (wait_ends tries r ms (said sd w) Hr) as (ret & r1 & s1 & new & E1 & Ht & _).
  - pose proof (lrand48_nonneg (seed48 s)). pose proof (Z.rem_bound_pos (lrand48 (seed48 s)).1 1500 ltac:(lia) ltac:(lia)). unfold ms. change (TIMEOUT_MS / 2) with 1500. change TIMEOUT_MS with 3000. lia.
  - intros. by apply udp_loop_ends.
  - rewrite E1 in E. injection E as _ _ <-. exists new. split; [| done]. rewrite Ht. cbn. by rewrite <- app_assoc.
Qed.
End loop.

Lemma rpc_call_udp_ends r s : rpc_ok r → call_len r = Z.of_nat (length (call r)) →
  ends (headed (call r) (lrand48 (seed48 s)).1) (call_len r - 4) (length (reply r)) 100 (rpc_call_udp oracle clnt r) s.
Proof using Type.
  intros Hok Hlen. pose proof Hok as [Hc Hr Hs]. set (c := headed _ _). assert (length c = length (call r)) as Hl by (apply length_headed; lia).
  unfold rpc_call_udp. set (s1 := mk_net (lrand48 (seed48 s)).2 (port s) (trace s)).
  destruct (udp_loop_ends c (length (reply r)) ltac:(lia) (Z.to_nat MAX_TRIES) (mk_rpc c (u64 (call_len r - UDP_HDR_OFF)) (reply r) (reply_len r)) None s1) as (ret & r' & s' & new & E & Htr & H).
  - split_and!; [split; cbn [call reply reply_len]; lia | done | | done]. cbn [call_len]. change UDP_HDR_OFF with 4. rewrite (wrapu_small 64) by (unfold in_u; lia). lia.
  - done.
  - exists ret, r', s', new. rewrite (pbind_ok _ _ _ _ _ (rpc_header_ok r s ltac:(lia) Hlen)). cbn [call call_len reply reply_len]. fold s1 c. rewrite Hlen, <- Hl. rewrite Hlen, <- Hl in E. done.
Qed.

(** ** Calls over TCP and UDP *)

(** The message behind its fragment header, which only TCP has *)
Definition payload (tcp : bool) (d : list Z) : list Z := if tcp then drop 4 d else d.

(** The call [x] read [d], a reply to [c]. *)
Definition received (c d : list Z) (x : ncall * nanswer) : Prop :=
  ∃ n k d0, x = (NRead (sock clnt) n, (k, d0)) ∧ k ≠ -1 ∧ d = payload (is_tcp clnt) (take (Z.to_nat n) d0) ∧ replies c d = true.

(** The call [x] sent [c], and all of it was taken; [c] has the fragment header. *)
Definition sends (c : list Z) (x : ncall * nanswer) : Prop :=
  let data := if is_tcp clnt then c else drop 4 c in
  x.1 = NWrite (sock clnt) data ∧ x.2.1 ≠ -1 ∧ Z.of_nat (length data) <= u64 x.2.1.

Lemma sends_whole c q a len : q = NWrite (sock clnt) (if is_tcp clnt then c else drop 4 c) → len = Z.of_nat (length (if is_tcp clnt then c else drop 4 c)) →
  broken len (q, a) = false → sends c (q, a).
Proof using Type. intros -> -> Hb. unfold broken in Hb. cbn [fst snd] in Hb. apply orb_false_iff in Hb as [H1 H2]. split_and!; [done | cbn; lia | cbn [snd]; lia]. Qed.

(** The buffer of [r] holds the message [d]. *)
Definition buffer_holds (r : rpc) (d : list Z) : Prop := reply_len r = 4 + Z.of_nat (length d) ∧ drop 4 (take (Z.to_nat (reply_len r)) (reply r)) = d.

Definition on_socket (x : ncall * nanswer) : Prop :=
  match x.1 with NWrite sk _ | NPoll sk _ | NRead sk _ => sk = sock clnt | _ => False end.

Lemma good_reply_tcp r d rest : reply r = d ++ rest → (28 <= length d)%nat → (44 <= length (call r))%nat →
  good_reply r 0 = Some (negb (Z.land (be (take 4 d)) LAST_FRAG =? 0) && replies (call r) (drop 4 d)).
Proof using Type.
  intros Hr Hd Hc. pose proof (good_reply_udp r (drop 4 d) rest (take 4 d)) as Hu. rewrite app_assoc, take_drop in Hu. specialize (Hu ltac:(rewrite length_take; lia) Hr ltac:(rewrite length_drop; lia) Hc).
  unfold good_reply in *. destruct (reply_fields (reply r)) as (E1 & E2 & E3 & E4 & _). rewrite E1, E2, E3, E4 in *. destruct (reply_fields (call r)) as (_ & _ & _ & _ & E5). rewrite E5 in *.
  rewrite (bytes_at_in (reply r) 0 4) in * by (rewrite ?Hr, ?length_app; lia). cbn [mbind option_bind] in *.
  assert (take (Z.to_nat 4) (drop (Z.to_nat 0) (reply r)) = take 4 d) as -> by (rewrite Hr; apply take_app_le; lia).
  destruct (bytes_at (reply r) 4 4) as [x |]; [| done]. cbn [mbind option_bind] in *. destruct (bytes_at (call r) 4 4) as [x' |]; [| done]. cbn [mbind option_bind] in *.
  destruct (bytes_at (reply r) 8 4) as [t |]; [| done]. cbn [mbind option_bind] in *. destruct (bytes_at (reply r) 24 4) as [st |]; [| done]. cbn [mbind option_bind] in *.
  injection Hu as <-. f_equal. change (4 =? 0) with false. change (0 =? 0) with true. cbn [andb orb].
  by destruct (Z.land _ _ =? 0), (bool_decide (x = x')), (bool_decide (t = _)), (be st =? REPLY_OK).
Qed.

Lemma rpc_do_reply_tcp r s : is_tcp clnt = true → rpc_ok r →
  ∃ ret r' x, rpc_do_reply oracle clnt r 0 s = Ret ((ret, r'), mk_net (seed48 s) (port s) (trace s ++ [x])) ∧ on_socket x ∧
    rpc_ok r' ∧ call r' = call r ∧ length (reply r') = length (reply r) ∧
    (ret = 0 ∧ (∃ d, received (call r) d x ∧ buffer_holds r' d) ∨ ret = -1).
Proof using Type.
  intros Htcp Hok. pose proof Hok as [Hc [Hr1 Hr2] Hs]. unfold rpc_do_reply, read_reply. rewrite (Z.sub_0_r (reply_len r)), (wrapu_small 64) by (unfold in_u; lia).
  set (q := NRead (sock clnt) (reply_len r)). destruct (oracle (trace s) q) as [k d0] eqn:Ea. set (d := take (Z.to_nat (reply_len r)) d0).
  assert (Z.of_nat (length d) <= reply_len r) as Hd by (unfold d; rewrite length_take; lia).
  unfold mbind, prog_bind, ndo. fold q. rewrite Ea. cbn [fst snd]. fold d.
  destruct (Z.eqb_spec k (-1)) as [-> | Hk]; [exists (-1), r, (q, (-1, d0)); split_and!; try done; by right |].
  rewrite Z.add_0_l, (proj2 (Z.leb_le (Z.of_nat (length d)) _)) by lia. unfold mret, prog_ret. cbv beta iota. change (sizeof rpc_reply_t - 0) with 28. change (Z.to_nat 0) with 0%nat.
  set (buf := take 0 (reply r) ++ overwrite (drop 0 (reply r)) d). assert (length buf = length (reply r)) as Hlen by (apply length_overwrite; lia).
  destruct (Z.ltb_spec (Z.of_nat (length d)) 28) as [Hshort | Hlong].
  { exists (-1), (mk_rpc (call r) (call_len r) buf (reply_len r)), (q, (k, d0)). split_and!; try done; [split; cbn [call reply reply_len]; lia | by right]. }
  rewrite (good_reply_tcp _ d (drop (length d) (reply r))); cbn [call reply]; [| done | lia | lia]. cbn [of_option]. unfold mret, prog_ret. cbv beta iota.
  eexists _, _, (q, (k, d0)). split; [reflexivity |]. cbn [call reply reply_len]. split_and!; try done; [split; cbn [call reply reply_len]; lia |].
  destruct (negb _ && replies (call r) (drop 4 d)) eqn:Eg; [left | by right]. apply andb_true_iff in Eg as [_ Eg]. split; [done |]. exists (drop 4 d). split.
  - exists (reply_len r), k, d0. rewrite Htcp. by split_and!.
  - unfold buffer_holds. cbn [reply reply_len]. rewrite length_drop. split; [lia |]. replace (Z.to_nat (Z.of_nat (length d) + 0)) with (length d) by lia.
    assert (buf = d ++ drop (length d) (reply r)) as -> by done. by rewrite take_app_length.
Qed.

Lemma on_socket_step c x : step_of c x → on_socket x.
Proof using Type. unfold step_of, on_socket. destruct x.1; tauto. Qed.

Lemma rpc_call_udp_first r s r' s' : rpc_ok r → call_len r = Z.of_nat (length (call r)) → is_tcp clnt = false → rpc_call_udp oracle clnt r s = Ret ((0, r'), s') →
  ∃ w rest, trace s' = trace s ++ w :: rest ∧ sends (headed (call r) (lrand48 (seed48 s)).1) w.
Proof using Type.
  intros Hok Hlen Htcp. pose proof Hok as [Hc Hr Hs]. set (c := headed _ _). assert (length c = length (call r)) as Hl by (apply length_headed; lia).
  unfold rpc_call_udp. rewrite (pbind_ok _ _ _ _ _ (rpc_header_ok r s ltac:(lia) Hlen)). cbn [call call_len reply reply_len]. fold c. intros E.
  apply (udp_loop_first c (length (reply r)) ltac:(lia)) in E as (rest & Ht & Hb).
  - eexists _, rest. split; [exact Ht |]. eapply sends_whole; [by rewrite Htcp | | exact Hb]. rewrite Htcp, length_drop. lia.
  - split_and!; [split; cbn [call reply reply_len]; lia | done | | done]. cbn [call_len]. change UDP_HDR_OFF with 4. rewrite (wrapu_small 64) by (unfold in_u; lia). lia.
Qed.

(** A call returns 0 or -1; it only uses its socket; 0 means that it began with
    sending itself and that the last read gave a reply to it. *)
Lemma rpc_call_runs r s : rpc_ok r → call_len r = Z.of_nat (length (call r)) →
  let c := headed (call r) (lrand48 (seed48 s)).1 in
  ∃ ret r' s' new, rpc_call oracle clnt r s = Ret ((ret, r'), s') ∧ trace s' = trace s ++ new ∧ Forall on_socket new ∧ length (reply r') = length (reply r) ∧
    (ret = 0 ∧ (∃ w mid x d, new = w :: mid ++ [x] ∧ sends c w ∧ received c d x ∧ buffer_holds r' d) ∨ ret = -1).
Proof using Type.
  intros Hok Hlen c. unfold rpc_call. destruct (is_tcp clnt) eqn:Htcp.
  - assert (length c = length (call r)) as Hl by (apply length_headed; destruct Hok; lia).
    set (s1 := mk_net (lrand48 (seed48 s)).2 (port s) (trace s)). set (r1 := mk_rpc c (call_len r) (reply r) (reply_len r)).
    assert (rpc_ok r1) as Hok1 by (destruct Hok; split; cbn [call reply reply_len r1]; lia).
    unfold rpc_call_tcp. rewrite (pbind_ok _ _ _ _ _ (rpc_header_ok r s ltac:(destruct Hok; lia) Hlen)). fold c s1 r1.
    set (w := NWrite (sock clnt) c). set (b := broken (call_len r) (w, oracle (trace s) w)).
    assert (send_call oracle clnt r1 0 s1 = Ret (negb b, said s1 w)) as Esend.
    { unfold send_call. cbn [call call_len r1]. rewrite bytes_at_in by lia. cbn [of_option]. erewrite pbind_ok by done. change (Z.to_nat 0) with 0%nat. rewrite drop_0, take_ge by lia. rewrite ndo_bind.
      unfold b, broken, w. cbn [fst snd]. by rewrite negb_orb. }
    rewrite (pbind_ok _ _ _ _ _ Esend). destruct b eqn:Eb; cbn [negb].
    + exists (-1), r1, (said s1 w), [(w, oracle (trace s) w)]. split_and!; [done | done | by apply Forall_singleton | done | by right].
    + destruct (rpc_do_reply_tcp r1 (said s1 w) Htcp Hok1) as (ret & r' & x & -> & Hx & _ & _ & Hlr & Hres). exists ret, r'. eexists. exists [(w, oracle (trace s) w); x].
      split_and!; [reflexivity | cbn; by rewrite <- app_assoc | apply Forall_cons; split; [done | by apply Forall_singleton] | done |].
      destruct Hres as [(-> & d & Hd & Hb) | ->]; [left | by right]. split; [done |]. exists (w, oracle (trace s) w), [], x, d. split; [done |]. split; [| by split].
      eapply sends_whole; [by rewrite Htcp | | exact Eb]. rewrite Htcp. lia.
  - destruct (rpc_call_udp_ends r s Hok Hlen) as (ret & r' & s' & new & E & Ht & _ & _ & Hlr & _ & Hsteps & Hend). exists ret, r', s', new.
    split_and!; [done | done | eapply Forall_impl; [exact Hsteps | apply on_socket_step] | done |].
    destruct Hend as [(-> & pre & x & -> & _ & Hx & Hh) | (-> & _)]; [left | by right]. split; [done |]. destruct Hh as (n & d & Hn & Hd & Hl & Hb).
    destruct (rpc_call_udp_first r s r' s' Hok Hlen Htcp E) as (w & rest & Ht' & Hw). rewrite Ht in Ht'. apply (inj (app (trace s))) in Ht'. fold c in Hw.
    destruct x as [q [k d0]]. cbn [fst snd] in *. subst q. cbn [answers] in Hx. apply andb_true_iff in Hx as [Hk Hx].
    destruct pre as [| w' mid]; [injection Ht' as <- <-; destruct Hw as [Hw _]; cbn in Hw; discriminate Hw |]. injection Ht' as -> _.
    exists w, mid, (NRead (sock clnt) n, (k, d0)), d. split; [done |]. split; [done |]. split; [| by split].
    exists n, k, d0. rewrite Htcp. split_and!; [done | lia | done | by rewrite Hd].
Qed.
End calls.

(** C25.  A call over UDP returns, whatever the network and the kernel do, and
    waits at most 100 times, between 3 and 4.5 seconds each.  Every datagram it
    sends is the same call, with one transaction number.  It returns 0 exactly
    when a reply to this call was read (the number, the type and the state
    are right), right after the first one, and the reply is in the buffer, cut
    to its length; it returns -1 only when the kernel failed in the last step
    or when in 100 waits no such reply came. *)
Theorem rpc_udp_correct oracle clnt r s : rpc_ok r → call_len r = Z.of_nat (length (call r)) →
  let c := headed (call r) (lrand48 (seed48 s)).1 in
  ∃ ret r' s' new, rpc_call_udp oracle clnt r s = Ret ((ret, r'), s') ∧ trace s' = trace s ++ new ∧ call r' = c ∧
    ended clnt c (call_len r - 4) 100 ret r' new.
Proof.
  intros Hok Hlen c. destruct (rpc_call_udp_ends oracle clnt r s Hok Hlen) as (ret & r' & s' & new & E & Ht & _ & Hc & _ & H). by exists ret, r', s', new.
Qed.

(** ** An example

    A network that loses the first datagram, then delivers something else and
    then the reply of the server. *)

Definition last_sent (l : list (ncall * nanswer)) : list Z :=
  foldl (λ d x, match x.1 with NWrite _ data => data | _ => d end) [] l.

Definition example_oracle (l : list (ncall * nanswer)) (c : ncall) : nanswer :=
  match c with
  | NWrite _ data => (Z.of_nat (length data), [])
  | NPoll _ _ => (if (polls l =? 0)%nat then 0 else 1, [])
  | NRead _ n => let d := if (polls l =? 2)%nat then replicate 28 0 else take 4 (last_sent l) ++ be32 RPC_REPLY ++ replicate 16 0 ++ be32 2049 in
      (Z.of_nat (length (take (Z.to_nat n) d)), d)
  | _ => (0, [])
  end.

Definition example_rpc : rpc := mk_rpc (replicate 60 0) 60 (replicate 32 0) 32.
Definition example_net : net := mk_net (srand48 1) 0 [].

Lemma rpc_udp_correct_witness : ∃ r' s', rpc_call_udp example_oracle (mk_client 3 false) example_rpc example_net = Ret ((0, r'), s') ∧
  polls (trace s') = 3%nat ∧ drop 28 (reply r') = be32 2049.
Proof.
  assert (rpc_ok example_rpc) as Hok by (split; cbn; lia).
  destruct (rpc_udp_correct example_oracle (mk_client 3 false) example_rpc example_net Hok eq_refl) as (ret & r' & s' & new & E & _).
  vm_compute in E. injection E as <- <- <-. eexists _, _. split; [vm_compute; reflexivity |]. split; vm_compute; reflexivity.
Defined.
