(* ===== verification/Pmap.v ===== *)
(** * The portmapper of nfsmount: [kinit/nfsmount/dummypmap.c]

    [dummy_portmap] answers the calls of the kernel while a file system is
    mounted.  The packet in [pkt] is the list of the bytes received; reading
    behind them fails.

    The theorems: no packet makes the server read behind it; every call gets an
    answer that the client of [Sunrpc] accepts; a line is written to the file
    only for a call that has no credentials or those of root. *)

From stdpp Require Import base numbers list strings.
From Stdlib Require Import Lia.
From S2P Require Import Prelude Netdev Layout Inet Ipconfig Sunrpc.

#[local] Set Warnings "-register-all".

Definition AUTH_NULL : Z := 0.
Definition AUTH_UNIX : Z := 1.
Definition REPLY_DENIED : Z := 1.
Definition PROG_UNAVAIL : Z := 1.
Definition PROG_MISMATCH : Z := 2.
Definition PROC_UNAVAIL : Z := 3.
Definition SYSTEM_ERR : Z := 5.
Definition IPPROTO_TCP : Z := 6.
Definition IPPROTO_UDP : Z := 17.

Definition portmap_args : ctype := Struct false [b32 "program"; b32 "version"; b32 "proto"; b32 "port"].
Definition portmap_call : ctype := Struct false [("rpc"%string, rpc_call_t); ("args"%string, portmap_args)].
Definition portmap_reply : ctype := Struct false [("rpc"%string, rpc_reply_t); b32 "port"].

(** A word in network order at an offset *)
Definition ntohl_at (pkt : list Z) (o : Z) : option Z := be <$> bytes_at pkt o 4.
(** A member of [*rpc], which begins four bytes in front of the packet *)
Definition rpc_member (x : string) (pkt : list Z) : option Z :=
  '(o, _) ← offsetof rpc_call_t [x];
  ntohl_at pkt (o - 4).
Arguments rpc_member _%_string_scope _.

Definition protoname (proto : Z) : option (list Z) :=
  if proto =? IPPROTO_TCP then Some (text "tcp") else if proto =? IPPROTO_UDP then Some (text "udp") else None.

(** The position behind the credentials or the verifier at [auth] *)
Definition get_auth (pkt : list Z) (auth : Z) : option (option Z) :=
  flavor ← ntohl_at pkt auth;
  if (flavor =? AUTH_NULL) || (flavor =? AUTH_UNIX) then
    len ← ntohl_at pkt (auth + 4);
    Some (Some (auth + 8 + len))
  else Some None.

Definition check_unix_cred (pkt : list Z) (cred : Z) : option Z :=
  len ← ntohl_at pkt (cred + 4);
  let quad_len := Z.shiftr (u32 (len + 3)) 2 in
  if quad_len <? 6 then Some (-1)
  else
    let base := cred + 8 in
    node_name_len ← ntohl_at pkt (base + 4);
    let quad_name_len := Z.shiftr (u32 (node_name_len + 3)) 2 in
    if 2 + quad_name_len + 3 >? quad_len then Some (-1)
    else
      uid ← ntohl_at pkt (base + 4 * (2 + quad_name_len));
      if negb (uid =? 0) then Some (-1)
      else
        gid ← ntohl_at pkt (base + 4 * (2 + quad_name_len + 1));
        Some (if negb (gid =? 0) then -1 else 0).

Definition check_cred (pkt : list Z) (cred : Z) : option Z :=
  flavor ← ntohl_at pkt cred;
  if flavor =? AUTH_NULL then Some 0 else if flavor =? AUTH_UNIX then check_unix_cred pkt cred else Some (-1).

Definition check_vrf (pkt : list Z) (vrf : Z) : option Z :=
  flavor ← ntohl_at pkt vrf;
  Some (if flavor =? AUTH_NULL then 0 else -1).

(** The position of the arguments, if the credentials are accepted *)
Definition find_args (pkt : list Z) (cred : Z) : option (option Z) :=
  let pktlen := Z.of_nat (length pkt) in
  vrf ← get_auth pkt cred;
  match vrf with
  | None => Some None
  | Some vrf =>
      if vrf >? pktlen - 8 - sizeof portmap_args then Some None
      else
        args ← get_auth pkt vrf;
        match args with
        | None => Some None
        | Some args =>
            if args >? pktlen - sizeof portmap_args then Some None
            else
              c ← check_cred pkt cred;
              if negb (c =? 0) then Some None
              else
                v ← check_vrf pkt vrf;
                Some (if negb (v =? 0) then None else Some args)
        end
  end.

(** The reply behind its fragment header *)
Definition reply_bytes (xid : list Z) (reply_state port : Z) : list Z :=
  xid ++ be32 RPC_REPLY ++ be32 reply_state ++ be32 0 ++ be32 0 ++ be32 0 ++ be32 port.

(** [reply_state], [port] and the line for the file *)
Definition serve (pkt : list Z) (args : Z) : option (Z * Z * list Z) :=
  proc ← rpc_member "proc" pkt;
  if proc =? PMAP_PROC_NULL then Some (0, 0, [])
  else if proc =? PMAP_PROC_SET then
    proto ← ntohl_at pkt (args + 8);
    match protoname proto with
    | None => Some (0, 0, [])
    | Some name =>
        program ← ntohl_at pkt args;
        version ← ntohl_at pkt (args + 4);
        port ← ntohl_at pkt (args + 12);
        Some (0, 1, dec program ++ text " " ++ dec version ++ text " " ++ name ++ text " " ++ dec port ++ [10])
    end
  else if proc =? PMAP_PROC_UNSET then Some (0, 1, [])
  else if proc =? PMAP_PROC_GETPORT then Some (0, 0, [])
  else if proc =? PMAP_PROC_DUMP then Some (0, 0, [])
  else Some (PROC_UNAVAIL, 0, []).

(** A packet: the reply, if there is one, and what is written to the file *)
Definition answer_packet (pkt : list Z) : option (option (list Z) * list Z) :=
  if Z.of_nat (length pkt) + 4 <? sizeof portmap_call then Some (None, [])
  else
    msg_type ← ntohl_at pkt 4;
    if negb (msg_type =? RPC_CALL) then Some (None, [])
    else
      xid ← bytes_at pkt 0 4;
      rpc_vers ← rpc_member "rpc_vers" pkt;
      program ← rpc_member "program" pkt;
      prog_vers ← rpc_member "prog_vers" pkt;
      '(cred, _) ← offsetof rpc_call_t ["cred_flavor"%string];
      '(state, port, line) ←
        (if negb (rpc_vers =? 2) then Some (REPLY_DENIED, 0, [])
         else if negb (program =? RPC_PMAP_PROGRAM) then Some (PROG_UNAVAIL, 0, [])
         else if negb (prog_vers =? 2) then Some (PROG_MISMATCH, 0, [])
         else
           args ← find_args pkt (cred - 4);
           match args with
           | None => Some (SYSTEM_ERR, 0, [])
           | Some args => serve pkt args
           end);
      Some (Some (reply_bytes xid state port), line).

(** What [recvfrom] delivers *)
Inductive received := Packet (pkt : list Z) | Interrupted | Failed.

(** [dummy_portmap]: the replies and the file, until an error ends it *)
Fixpoint dummy_portmap (rs : list received) (sent : list (list Z)) (file : list Z) : option (list (list Z) * list Z) :=
  match rs with
  | [] => Some (sent, file)
  | Failed :: _ => Some (sent, file)
  | Interrupted :: rs => dummy_portmap rs sent file
  | Packet pkt :: rs =>
      '(reply, line) ← answer_packet pkt;
      dummy_portmap rs (sent ++ match reply with Some d => [d] | None => [] end) (file ++ line)
  end.

(** ** Words in a packet *)

Definition bytes (l : list Z) : Prop := Forall (in_u 8) l.

Lemma be_four a b c d : be [a; b; c; d] = a * 2 ^ 24 + b * 2 ^ 16 + c * 2 ^ 8 + d.
Proof. unfold be. cbn [fold_left]. lia. Qed.

Lemma be_be32 v : in_u 32 v → be (be32 v) = v.
Proof. intros Hv. unfold in_u in Hv. unfold be32. rewrite be_four. Z.to_euclidean_division_equations. lia. Qed.

Lemma be32_be l : bytes l → length l = 4%nat → be32 (be l) = l ∧ in_u 32 (be l).
Proof.
  intros Hb Hl. destruct l as [| a [| b [| c [| d [|]]]]]; try discriminate Hl. unfold bytes in Hb. rewrite !Forall_cons in Hb. destruct Hb as (Ha & Hb & Hc & Hd & _).
  rewrite be_four. unfold in_u in *. split; [| lia]. unfold be32. repeat f_equal; Z.to_euclidean_division_equations; lia.
Qed.

Lemma length_be32 v : length (be32 v) = 4%nat.
Proof. done. Qed.

(** The word at [o], when it is in the packet *)
Lemma ntohl_at_in pkt o : bytes pkt → 0 <= o → o + 4 <= Z.of_nat (length pkt) →
  ∃ v, ntohl_at pkt o = Some v ∧ in_u 32 v ∧ drop (Z.to_nat o) pkt = be32 v ++ drop (Z.to_nat o + 4) pkt.
Proof.
  intros Hb Ho Hl. unfold ntohl_at. rewrite bytes_at_in by lia. change (Z.to_nat 4) with 4%nat. set (w := take 4 _).
  destruct (be32_be w) as [E Hr]; [by apply Forall_take, Forall_drop | unfold w; rewrite length_take, length_drop; lia |].
  exists (be w). split_and!; [done | done |]. rewrite E. unfold w. by rewrite <- drop_drop, take_drop.
Qed.

Lemma ntohl_at_app pre v rest o : o = Z.of_nat (length pre) → in_u 32 v → ntohl_at (pre ++ be32 v ++ rest) o = Some v.
Proof. intros -> Hv. unfold ntohl_at. rewrite bytes_at_app by done. simpl. f_equal. by apply be_be32. Qed.

Lemma members pkt : rpc_member "rpc_vers" pkt = ntohl_at pkt 8 ∧ rpc_member "program" pkt = ntohl_at pkt 12 ∧
  rpc_member "prog_vers" pkt = ntohl_at pkt 16 ∧ rpc_member "proc" pkt = ntohl_at pkt 20.
Proof. done. Qed.

(** ** Credentials *)

(** The body of the credentials of root: a time stamp, the name of the machine
    filled up to words, user and group 0, further groups *)
Definition root_body (body : list Z) : Prop :=
  ∃ stamp k name groups, body = stamp ++ be32 k ++ name ++ be32 0 ++ be32 0 ++ groups ∧ length stamp = 4%nat ∧ in_u 32 k ∧
    Z.of_nat (length name) = 4 * (u32 (k + 3) / 4) ∧ (0 < length groups)%nat ∧ (20 < length body)%nat.

Lemma ntohl_at_drop pkt n o : 0 <= o → ntohl_at pkt (Z.of_nat n + o) = ntohl_at (drop n pkt) o.
Proof.
  intros Ho. unfold ntohl_at, bytes_at. rewrite length_drop, drop_drop. replace (Z.to_nat (Z.of_nat n + o)) with (n + Z.to_nat o)%nat by lia.
  destruct (Z.leb_spec 0 (Z.of_nat n + o)); [| lia]. destruct (Z.leb_spec 0 o); [| lia]. cbn [andb].
  destruct (Z.leb_spec (Z.of_nat n + o + 4) (Z.of_nat (length pkt))); destruct (Z.leb_spec (o + 4) (Z.of_nat (length pkt - n))); try lia; done.
Qed.

Lemma ntohl_at_pre a b o : o + 4 <= Z.of_nat (length a) → ntohl_at (a ++ b) o = ntohl_at a o.
Proof.
  intros Ho. unfold ntohl_at, bytes_at. destruct (Z.leb_spec 0 o); [| done]. cbn [andb]. rewrite length_app, !(proj2 (Z.leb_le _ _)) by lia. f_equal.
  rewrite drop_app_le, take_app_le by (rewrite ?length_drop; lia). done.
Qed.

(** The check, for a body alone *)
Definition check_body (body : list Z) : option Z :=
  let quad_len := (Z.of_nat (length body) + 3) / 4 in
  if quad_len <? 6 then Some (-1)
  else
    node_name_len ← ntohl_at body 4;
    let quad_name_len := u32 (node_name_len + 3) / 4 in
    if 2 + quad_name_len + 3 >? quad_len then Some (-1)
    else
      uid ← ntohl_at body (4 * (2 + quad_name_len));
      if negb (uid =? 0) then Some (-1)
      else
        gid ← ntohl_at body (4 * (2 + quad_name_len + 1));
        Some (if negb (gid =? 0) then -1 else 0).

Lemma u32_nonneg v : 0 <= u32 v.
Proof. by apply Z.mod_pos_bound. Qed.

Lemma check_unix_body pkt cred body vrf : 0 <= cred → Z.of_nat (length body) < 2 ^ 31 →
  drop (Z.to_nat cred + 4) pkt = be32 (Z.of_nat (length body)) ++ body ++ vrf → check_unix_cred pkt cred = check_body body.
Proof.
  intros Hc Hl Hd. unfold check_unix_cred, check_body.
  assert (ntohl_at pkt (cred + 4) = Some (Z.of_nat (length body))) as ->.
  { replace (cred + 4) with (Z.of_nat (Z.to_nat cred + 4) + 0) by lia. rewrite ntohl_at_drop, Hd by lia. apply (ntohl_at_app []); [done | unfold in_u; lia]. }
  cbn [mbind option_bind]. rewrite (wrapu_small 32 (Z.of_nat (length body) + 3)) by (unfold in_u; lia). rewrite Z.shiftr_div_pow2 by lia. change (2 ^ 2) with 4.
  set (q := (Z.of_nat (length body) + 3) / 4). assert (4 * q <= Z.of_nat (length body) + 3) as Hq by (unfold q; Z.to_euclidean_division_equations; lia).
  destruct (Z.ltb_spec q 6) as [| H6]; [done |].
  assert (∀ o, 0 <= o → o + 4 <= Z.of_nat (length body) → ntohl_at pkt (cred + 8 + o) = ntohl_at body o) as Hat.
  { intros o Ho Hle. replace (cred + 8 + o) with (Z.of_nat (Z.to_nat cred + 4) + (4 + o)) by lia. rewrite ntohl_at_drop, Hd by lia.
    replace (4 + o) with (Z.of_nat 4 + o) by lia. rewrite ntohl_at_drop by lia. change (drop 4 (be32 ?v ++ ?l)) with l. by apply ntohl_at_pre. }
  rewrite Hat by lia. destruct (ntohl_at body 4) as [k |]; [| done]. cbn [mbind option_bind]. rewrite Z.shiftr_div_pow2 by lia. change (2 ^ 2) with 4.
  pose proof (Z.div_pos (u32 (k + 3)) 4 (u32_nonneg _) ltac:(lia)) as Hn. set (n := u32 (k + 3) / 4) in *. rewrite Z.gtb_ltb. destruct (Z.ltb_spec q (2 + n + 3)) as [| Hle]; [done |].
  by rewrite !Hat by lia.
Qed.

Lemma check_body_ok body : bytes body → ∃ c, check_body body = Some c ∧ (c = 0 ↔ root_body body).
Proof.
  intros Hb. unfold check_body. set (q := (Z.of_nat (length body) + 3) / 4).
  assert (4 * q <= Z.of_nat (length body) + 3 < 4 * q + 4) as Hq by (unfold q; Z.to_euclidean_division_equations; lia).
  destruct (Z.ltb_spec q 6) as [H6 | H6].
  { exists (-1). split; [done |]. split; [done |]. intros (? & ? & ? & ? & _ & _ & _ & _ & _ & Hl). lia. }
  destruct (ntohl_at_in body 4 Hb ltac:(lia) ltac:(lia)) as (k & -> & Hk & Ek). cbn [mbind option_bind].
  pose proof (Z.div_pos (u32 (k + 3)) 4 (u32_nonneg _) ltac:(lia)) as Hn. set (n := u32 (k + 3) / 4) in *.
  assert (root_body body → 2 + n + 3 <= q ∧ ntohl_at body (4 * (2 + n)) = Some 0 ∧ ntohl_at body (4 * (2 + n + 1)) = Some 0) as Hroot.
  { intros (stamp & k' & name & groups & E & Hst & Hk' & Hname & Hg & _).
    assert (k' = k) as ->.
    { assert (ntohl_at body 4 = Some k') as H1 by (rewrite E; apply ntohl_at_app; [lia | done]).
      assert (ntohl_at body 4 = Some k) as H2; [| congruence]. unfold ntohl_at. rewrite bytes_at_in by lia. change (Z.to_nat 4) with 4%nat in *. rewrite Ek.
      rewrite take_app_length' by done. simpl. f_equal. by apply be_be32. }
    fold n in Hname. split_and!.
    - apply (f_equal length) in E. rewrite !length_app, !length_be32 in E. lia.
    - rewrite E. rewrite (app_assoc stamp), (app_assoc (stamp ++ _)). apply ntohl_at_app; [| done]. rewrite !length_app, length_be32. lia.
    - rewrite E. rewrite (app_assoc stamp), (app_assoc (stamp ++ _)), (app_assoc (_ ++ name)). apply ntohl_at_app; [| done]. rewrite !length_app, !length_be32. lia. }
  rewrite Z.gtb_ltb. destruct (Z.ltb_spec q (2 + n + 3)) as [Hgt | Hle]; [exists (-1); split; [done |]; split; [done | intros H; apply Hroot in H; lia] |].
  destruct (ntohl_at_in body (4 * (2 + n)) Hb ltac:(lia) ltac:(lia)) as (uid & Eu & _ & Du). rewrite Eu in *. cbn [mbind option_bind].
  destruct (Z.eqb_spec uid 0) as [-> | Hu]; cbn [negb]; [| exists (-1); split; [done |]; split; [done |]; intros H; apply Hroot in H as (_ & H & _); congruence].
  destruct (ntohl_at_in body (4 * (2 + n + 1)) Hb ltac:(lia) ltac:(lia)) as (gid & Eg & _ & Dg). rewrite Eg in *. cbn [mbind option_bind].
  destruct (Z.eqb_spec gid 0) as [-> | Hg]; cbn [negb]; [| exists (-1); split; [done |]; split; [done |]; intros H; apply Hroot in H as (_ & _ & H); congruence].
  exists 0. split; [done |]. split; [intros _ | done].
  exists (take 4 body), k, (take (Z.to_nat (4 * n)) (drop 8 body)), (drop (Z.to_nat (4 * (2 + n + 2))) body).
  rewrite !length_take, !length_drop. split_and!; [| lia | done | lia | lia | lia].
  rewrite <- (take_drop 4 body) at 1. f_equal. change (Z.to_nat 4) with 4%nat in Ek. rewrite Ek. f_equal. rewrite <- (take_drop (Z.to_nat (4 * n)) (drop _ body)) at 1. f_equal.
  rewrite drop_drop. replace (4 + 4 + Z.to_nat (4 * n))%nat with (Z.to_nat (4 * (2 + n))) by lia. rewrite Du. f_equal.
  replace (Z.to_nat (4 * (2 + n)) + 4)%nat with (Z.to_nat (4 * (2 + n + 1))) by lia. rewrite Dg. f_equal. f_equal. lia.
Qed.

(** Credentials that are accepted *)
Definition accepted (flavor : Z) (body : list Z) : Prop := flavor = AUTH_NULL ∨ flavor = AUTH_UNIX ∧ root_body body.

(** Credentials and a verifier in front of [rest] *)
Definition authority (flavor : Z) (body verf rest : list Z) : list Z :=
  be32 flavor ++ be32 (Z.of_nat (length body)) ++ body ++ be32 AUTH_NULL ++ be32 (Z.of_nat (length verf)) ++ verf ++ rest.

Lemma get_auth_ok pkt a : bytes pkt → 0 <= a → a + 8 <= Z.of_nat (length pkt) →
  ∃ flavor n, in_u 32 flavor ∧ in_u 32 n ∧ drop (Z.to_nat a) pkt = be32 flavor ++ be32 n ++ drop (Z.to_nat (a + 8)) pkt ∧ ntohl_at pkt a = Some flavor ∧
    get_auth pkt a = Some (if (flavor =? AUTH_NULL) || (flavor =? AUTH_UNIX) then Some (a + 8 + n) else None).
Proof.
  intros Hb Ha Hl. unfold get_auth. destruct (ntohl_at_in pkt a Hb ltac:(lia) ltac:(lia)) as (flavor & Ef & Hf & Df).
  destruct (ntohl_at_in pkt (a + 4) Hb ltac:(lia) ltac:(lia)) as (n & En & Hn & Dn). exists flavor, n. rewrite Ef, En. split_and!; [done | done | | done | cbn [mbind option_bind]; by destruct (_ || _)].
  rewrite Df. f_equal. replace (Z.to_nat a + 4)%nat with (Z.to_nat (a + 4)) by lia. rewrite Dn. do 2 f_equal. lia.
Qed.

Lemma find_args_ok pkt : bytes pkt → 56 <= Z.of_nat (length pkt) < 2 ^ 31 →
  ∃ r, find_args pkt 24 = Some r ∧ ∀ args, r = Some args →
    ∃ flavor body verf rest, drop 24 pkt = authority flavor body verf rest ∧ accepted flavor body ∧ 16 <= Z.of_nat (length rest) ∧ 0 <= args ∧ drop (Z.to_nat args) pkt = rest.
Proof.
  intros Hb Hl. unfold find_args. change (sizeof portmap_args) with 16.
  destruct (get_auth_ok pkt 24 Hb ltac:(lia) ltac:(lia)) as (flavor & n & Hf & Hn & D1 & E1 & ->). cbn [mbind option_bind].
  destruct ((flavor =? AUTH_NULL) || (flavor =? AUTH_UNIX)) eqn:Ef; [| by exists None]. change (24 + 8 + n) with (32 + n). unfold in_u in Hn.
  rewrite Z.gtb_ltb. destruct (Z.ltb_spec (Z.of_nat (length pkt) - 8 - 16) (32 + n)) as [| Hv]; [by exists None |].
  destruct (get_auth_ok pkt (32 + n) Hb ltac:(lia) ltac:(lia)) as (flavor2 & n2 & Hf2 & Hn2 & D2 & E2 & ->). cbn [mbind option_bind]. unfold in_u in Hn2.
  destruct ((flavor2 =? AUTH_NULL) || (flavor2 =? AUTH_UNIX)); [| by exists None].
  rewrite Z.gtb_ltb. destruct (Z.ltb_spec (Z.of_nat (length pkt) - 16) (32 + n + 8 + n2)) as [| Hargs]; [by exists None |].
  change (Z.to_nat (24 + 8)) with 32%nat in D1. change (Z.to_nat 24) with 24%nat in D1.
  set (body := take (Z.to_nat n) (drop 32 pkt)). assert (length body = Z.to_nat n) as Hbody by (unfold body; rewrite length_take, length_drop; lia).
  assert (drop 32 pkt = body ++ drop (Z.to_nat (32 + n)) pkt) as D32.
  { unfold body. rewrite <- (take_drop (Z.to_nat n) (drop 32 pkt)) at 1. rewrite drop_drop. do 2 f_equal. lia. }
  assert (∃ c, check_cred pkt 24 = Some c ∧ (c = 0 → accepted flavor body)) as (c & -> & Hc).
  { unfold check_cred. rewrite E1. cbn [mbind option_bind]. destruct (Z.eqb_spec flavor AUTH_NULL) as [-> | H0]; [exists 0; split; [done | by left] |].
    destruct (Z.eqb_spec flavor AUTH_UNIX) as [-> | H1]; [| done].
    rewrite (check_unix_body pkt 24 body (drop (Z.to_nat (32 + n)) pkt)); [| lia | lia |].
    - destruct (check_body_ok body) as (c & -> & Hc); [by apply Forall_take, Forall_drop |]. exists c. split; [done |]. intros ->. right. split; [done | by apply Hc].
    - change (Z.to_nat 24 + 4)%nat with (24 + 4)%nat. rewrite <- drop_drop, D1, <- D32, Hbody. change (drop 4 (be32 ?v ++ ?l)) with l. do 2 f_equal. lia. }
  cbn [mbind option_bind]. destruct (Z.eqb_spec c 0) as [-> | Hc0]; cbn [negb]; [| by exists None].
  unfold check_vrf. rewrite E2. cbn [mbind option_bind]. destruct (Z.eqb_spec flavor2 AUTH_NULL) as [-> | Hf0]; [| by exists None].
  cbn [negb]. exists (Some (32 + n + 8 + n2)). split; [done |]. intros args [= <-].
  set (verf := take (Z.to_nat n2) (drop (Z.to_nat (32 + n + 8)) pkt)).
  exists flavor, body, verf, (drop (Z.to_nat (32 + n + 8 + n2)) pkt). split_and!; [| by apply Hc | rewrite length_drop; lia | lia | done].
  unfold authority. rewrite D1, D32, D2, Hbody. do 2 f_equal; [f_equal; lia |]. do 2 f_equal. assert (length verf = Z.to_nat n2) as -> by (unfold verf; rewrite length_take, length_drop; lia). f_equal; [f_equal; lia |].
  unfold verf. rewrite <- (take_drop (Z.to_nat n2) (drop (Z.to_nat (32 + n + 8)) pkt)) at 1. f_equal. rewrite drop_drop. f_equal. lia.
Qed.

(** ** The server *)

(** A call to register a port, with everything in its place *)
Definition set_packet (xid : list Z) (flavor : Z) (body verf : list Z) (program version proto port : Z) (rest : list Z) : list Z :=
  xid ++ be32 RPC_CALL ++ be32 2 ++ be32 RPC_PMAP_PROGRAM ++ be32 2 ++ be32 PMAP_PROC_SET ++
  authority flavor body verf (be32 program ++ be32 version ++ be32 proto ++ be32 port ++ rest).

Definition set_line (program version : Z) (name : list Z) (port : Z) : list Z :=
  dec program ++ text " " ++ dec version ++ text " " ++ name ++ text " " ++ dec port ++ [10].

(** The line comes from a proper call. *)
Definition registered (pkt line xid : list Z) : Prop :=
  ∃ flavor body verf program version proto port rest name, pkt = set_packet xid flavor body verf program version proto port rest ∧ accepted flavor body ∧
    protoname proto = Some name ∧ line = set_line program version name port.

Lemma serve_ok pkt args proc : ntohl_at pkt 20 = Some proc → bytes pkt → 0 <= args → args + 16 <= Z.of_nat (length pkt) →
  ∃ state port line, serve pkt args = Some (state, port, line) ∧
    (line = [] ∨ proc = PMAP_PROC_SET ∧ state = 0 ∧ port = 1 ∧ ∃ program version proto prt name,
      drop (Z.to_nat args) pkt = be32 program ++ be32 version ++ be32 proto ++ be32 prt ++ drop (Z.to_nat (args + 16)) pkt ∧ protoname proto = Some name ∧ line = set_line program version name prt).
Proof.
  intros Ep Hb Ha Hl. unfold serve. destruct (members pkt) as (_ & _ & _ & ->). rewrite Ep. cbn [mbind option_bind].
  destruct (proc =? PMAP_PROC_NULL); [by exists 0, 0, []; auto |].
  destruct (Z.eqb_spec proc PMAP_PROC_SET) as [Hp |]; [| repeat case_match; eexists _, _, []; auto].
  destruct (ntohl_at_in pkt args Hb ltac:(lia) ltac:(lia)) as (program & E1 & _ & D1). destruct (ntohl_at_in pkt (args + 4) Hb ltac:(lia) ltac:(lia)) as (version & E2 & _ & D2).
  destruct (ntohl_at_in pkt (args + 8) Hb ltac:(lia) ltac:(lia)) as (proto & E3 & _ & D3). destruct (ntohl_at_in pkt (args + 12) Hb ltac:(lia) ltac:(lia)) as (prt & E4 & _ & D4).
  rewrite E1, E2, E3, E4. cbn [mbind option_bind]. destruct (protoname proto) as [name |] eqn:En; [| by exists 0, 0, []; auto].
  exists 0, 1. eexists. split; [done |]. right. split_and!; [done | done | done |]. exists program, version, proto, prt, name. split_and!; [| done | done].
  rewrite D1. f_equal. replace (Z.to_nat args + 4)%nat with (Z.to_nat (args + 4)) by lia. rewrite D2. f_equal. replace (Z.to_nat (args + 4) + 4)%nat with (Z.to_nat (args + 8)) by lia.
  rewrite D3. f_equal. replace (Z.to_nat (args + 8) + 4)%nat with (Z.to_nat (args + 12)) by lia. rewrite D4. do 2 f_equal. lia.
Qed.

Lemma replies_accepted xid state port c : length xid = 4%nat → take 4 (drop 4 c) = xid → replies c (reply_bytes xid state port) = true.
Proof.
  intros Hx Hc. unfold replies, reply_bytes. rewrite Hc. destruct xid as [| a [| b [| x [| d [|]]]]]; try discriminate Hx.
  rewrite !bool_decide_eq_true_2 by done. rewrite !length_app. done.
Qed.

Lemma answer_ok pkt : bytes pkt → Z.of_nat (length pkt) <= 65536 →
  ∃ reply line, answer_packet pkt = Some (reply, line) ∧
    (∀ d c, reply = Some d → drop 4 c = pkt → replies c d = true) ∧
    (line = [] ∨ ∃ xid, registered pkt line xid ∧ reply = Some (reply_bytes xid 0 1)).
Proof.
  intros Hb Hlen. unfold answer_packet. change (sizeof portmap_call) with 60. destruct (Z.ltb_spec (Z.of_nat (length pkt) + 4) 60) as [| Hl]; [exists None, []; split_and!; [done | done | by left] |].
  destruct (ntohl_at_in pkt 4 Hb ltac:(lia) ltac:(lia)) as (mt & -> & _ & D4). cbn [mbind option_bind].
  destruct (Z.eqb_spec mt RPC_CALL) as [-> |]; cbn [negb]; [| exists None, []; split_and!; [done | done | by left]].
  rewrite bytes_at_in by lia. cbn [mbind option_bind]. change (take (Z.to_nat 4) (drop (Z.to_nat 0) pkt)) with (take 4 pkt). set (xid := take 4 pkt).
  assert (length xid = 4%nat) as Hx by (unfold xid; rewrite length_take; lia).
  destruct (members pkt) as (-> & -> & -> & _). destruct (ntohl_at_in pkt 8 Hb ltac:(lia) ltac:(lia)) as (vers & -> & _ & D8). destruct (ntohl_at_in pkt 12 Hb ltac:(lia) ltac:(lia)) as (prog & -> & _ & D12).
  destruct (ntohl_at_in pkt 16 Hb ltac:(lia) ltac:(lia)) as (pv & -> & _ & D16). destruct (ntohl_at_in pkt 20 Hb ltac:(lia) ltac:(lia)) as (proc & E20 & _ & D20). cbn [mbind option_bind].
  change (offsetof rpc_call_t ["cred_flavor"%string]) with (Some (28, Int 4)). cbn [mbind option_bind]. change (28 - 4) with 24.
  assert (∀ d c state port, Some (reply_bytes xid state port) = Some d → drop 4 c = pkt → replies c d = true) as Hrep.
  { intros d c state port [= <-] Hc. apply replies_accepted; [done |]. by rewrite Hc. }
  destruct (Z.eqb_spec vers 2) as [-> |]; cbn [negb]; [| eexists _, []; cbn [mbind option_bind]; split_and!; [reflexivity | intros ? ?; apply Hrep | by left]].
  destruct (Z.eqb_spec prog RPC_PMAP_PROGRAM) as [-> |]; cbn [negb]; [| eexists _, []; cbn [mbind option_bind]; split_and!; [reflexivity | intros ? ?; apply Hrep | by left]].
  destruct (Z.eqb_spec pv 2) as [-> |]; cbn [negb]; [| eexists _, []; cbn [mbind option_bind]; split_and!; [reflexivity | intros ? ?; apply Hrep | by left]].
  destruct (find_args_ok pkt Hb ltac:(lia)) as (r & -> & Hr). cbn [mbind option_bind]. destruct r as [args |]; [| eexists _, []; cbn [mbind option_bind]; split_and!; [reflexivity | intros ? ?; apply Hrep | by left]].
  destruct (Hr args eq_refl) as (flavor & body & verf & rest & D24 & Hacc & Hrest & Ha & Drest).
  assert (args + 16 <= Z.of_nat (length pkt)) as Hargs by (rewrite <- Drest, length_drop in Hrest; lia).
  destruct (serve_ok pkt args proc E20 Hb Ha Hargs) as (state & prt & line & -> & Hline). cbn [mbind option_bind].
  eexists _, line. split_and!; [reflexivity | intros ? ?; apply Hrep |]. destruct Hline as [-> | (-> & -> & -> & program & version & proto & port & name & Dargs & En & ->)]; [by left | right].
  exists xid. split; [| done]. exists flavor, body, verf, program, version, proto, port, (drop (Z.to_nat (args + 16)) pkt), name. split_and!; [| done | done | done].
  unfold set_packet. rewrite <- Dargs, Drest, <- D24. change (drop 24 pkt) with (drop (Z.to_nat 20 + 4) pkt). rewrite <- D20. change (Z.to_nat 20) with (Z.to_nat 16 + 4)%nat. rewrite <- D16.
  change (Z.to_nat 16) with (Z.to_nat 12 + 4)%nat. rewrite <- D12. change (Z.to_nat 12) with (Z.to_nat 8 + 4)%nat. rewrite <- D8. change (Z.to_nat 8) with (Z.to_nat 4 + 4)%nat. rewrite <- D4.
  unfold xid. by rewrite take_drop.
Qed.

Definition packet_ok (r : received) : Prop := match r with Packet pkt => bytes pkt ∧ Z.of_nat (length pkt) <= 65536 | _ => True end.

Lemma portmap_runs rs : Forall packet_ok rs → ∀ sent file,
  ∃ sent' lines, dummy_portmap rs sent file = Some (sent ++ sent', file ++ concat lines) ∧
    Forall (λ line, ∃ pkt xid, Packet pkt ∈ rs ∧ registered pkt line xid) lines ∧
    Forall (λ d, ∃ pkt, Packet pkt ∈ rs ∧ ∀ c, drop 4 c = pkt → replies c d = true) sent'.
Proof.
  induction 1 as [| r rs Hr _ IH]; intros sent file; cbn [dummy_portmap]; [exists [], []; cbn [concat]; rewrite !app_nil_r; by split_and!; [| constructor | constructor] |].
  assert (∀ sent file, ∃ sent' lines, dummy_portmap rs sent file = Some (sent ++ sent', file ++ concat lines) ∧ Forall (λ line, ∃ pkt xid, Packet pkt ∈ r :: rs ∧ registered pkt line xid) lines ∧
    Forall (λ d, ∃ pkt, Packet pkt ∈ r :: rs ∧ ∀ c, drop 4 c = pkt → replies c d = true) sent') as IH'.
  { intros s f. destruct (IH s f) as (s' & ls & E & H1 & H2). exists s', ls. split_and!; [done | |].
    - eapply Forall_impl; [exact H1 |]. intros l (pkt & xid & Hin & H). exists pkt, xid. split; [by right | done].
    - eapply Forall_impl; [exact H2 |]. intros d (pkt & Hin & H). exists pkt. split; [by right | done]. }
  destruct r as [pkt | |]; [| apply IH' | exists [], []; cbn [concat]; rewrite !app_nil_r; by split_and!; [| constructor | constructor]].
  destruct Hr as [Hb Hl]. destruct (answer_ok pkt Hb Hl) as (reply & line & -> & Hrep & Hline). cbn [mbind option_bind].
  set (new := match reply with Some d => [d] | None => [] end). destruct (IH' (sent ++ new) (file ++ line)) as (s' & ls & E & H1 & H2).
  exists (new ++ s'), (match line with [] => ls | _ => line :: ls end). rewrite E. split_and!.
  - rewrite <- !app_assoc. by destruct line.
  - destruct Hline as [-> | (xid & Hreg & _)]; [done |]. destruct line as [| z line]; [done |]. constructor; [| done]. exists pkt, xid. split; [by left | done].
  - apply Forall_app. split; [| done]. unfold new. destruct reply as [d |]; constructor; [| constructor]. exists pkt. split; [by left |]. intros c Hc. by apply (Hrep d c).
Qed.

(** C26.  Whatever is received, the server reads only what is in the packets.
    Each reply is one that the client takes as the reply to the call that
    the packet is.  Each line of the file comes from a packet that is a call to
    register this port, in full, for TCP or UDP, without credentials or with
    those of user and group 0, and with an empty verifier: nobody else can
    write to it. *)
Theorem portmap_safe rs : Forall packet_ok rs →
  ∃ sent lines, dummy_portmap rs [] [] = Some (sent, concat lines) ∧
    Forall (λ line, ∃ pkt xid, Packet pkt ∈ rs ∧ registered pkt line xid) lines ∧
    Forall (λ d, ∃ pkt, Packet pkt ∈ rs ∧ ∀ c, drop 4 c = pkt → replies c d = true) sent.
Proof. intros H. apply (portmap_runs rs H [] []). Qed.

(** ** Proper calls are served *)

Lemma find_args_complete pkt flavor body verf rest : Z.of_nat (length pkt) < 2 ^ 31 → bytes pkt → drop 24 pkt = authority flavor body verf rest → accepted flavor body → 16 <= Z.of_nat (length rest) →
  find_args pkt 24 = Some (Some (40 + Z.of_nat (length body) + Z.of_nat (length verf))).
Proof.
  intros Hl Hb D Hacc Hrest. assert (length (drop 24 pkt) = 16 + length body + length verf + length rest)%nat as Hlen by (rewrite D; unfold authority; rewrite !length_app, !length_be32; lia).
  rewrite length_drop in Hlen. unfold find_args. change (sizeof portmap_args) with 16. set (n := Z.of_nat (length body)) in *. set (n2 := Z.of_nat (length verf)) in *.
  assert (∀ o v pre post, 0 <= o → in_u 32 v → drop 24 pkt = pre ++ be32 v ++ post → o = Z.of_nat (length pre) → ntohl_at pkt (24 + o) = Some v) as Hat.
  { intros o v pre post Ho Hv Hd Hp. change 24 with (Z.of_nat 24). rewrite ntohl_at_drop, Hd by lia. by apply ntohl_at_app. }
  assert (in_u 32 flavor ∧ (flavor =? AUTH_NULL) || (flavor =? AUTH_UNIX) = true) as [Hf Hf'] by (destruct Hacc as [-> | [-> _]]; done).
  assert (get_auth pkt 24 = Some (Some (32 + n))) as ->.
  { unfold get_auth. rewrite (Hat 0 flavor [] _ ltac:(lia) Hf D eq_refl : ntohl_at pkt 24 = _). cbn [mbind option_bind]. rewrite Hf'.
    rewrite (Hat 4 n (be32 flavor) _ ltac:(lia) ltac:(unfold in_u; lia) D eq_refl : ntohl_at pkt (24 + 4) = _). done. }
  cbn [mbind option_bind]. rewrite Z.gtb_ltb, (proj2 (Z.ltb_ge _ _)) by lia.
  assert (ntohl_at pkt (32 + n) = Some AUTH_NULL) as Ev.
  { replace (32 + n) with (24 + (8 + n)) by lia. eapply (Hat _ _ (be32 flavor ++ be32 n ++ body)); [lia | done | by rewrite D; unfold authority; rewrite <- !app_assoc | rewrite !length_app, !length_be32; lia]. }
  assert (get_auth pkt (32 + n) = Some (Some (40 + n + n2))) as ->.
  { unfold get_auth. rewrite Ev. cbn [mbind option_bind]. change ((AUTH_NULL =? AUTH_NULL) || (AUTH_NULL =? AUTH_UNIX)) with true.
    assert (ntohl_at pkt (32 + n + 4) = Some n2) as ->; [| cbn [mbind option_bind]; do 2 f_equal; lia].
    replace (32 + n + 4) with (24 + (8 + n + 4)) by lia. eapply (Hat _ _ (be32 flavor ++ be32 n ++ body ++ be32 AUTH_NULL)); [lia | unfold in_u; lia | by rewrite D; unfold authority; rewrite <- !app_assoc | rewrite !length_app, !length_be32; lia]. }
  cbn [mbind option_bind]. rewrite Z.gtb_ltb, (proj2 (Z.ltb_ge _ _)) by lia. assert (check_cred pkt 24 = Some 0) as ->.
  { unfold check_cred. rewrite (Hat 0 flavor [] _ ltac:(lia) Hf D eq_refl : ntohl_at pkt 24 = _). cbn [mbind option_bind]. destruct Hacc as [-> | [-> Hroot]]; [done |].
    change (AUTH_UNIX =? AUTH_NULL) with false. change (AUTH_UNIX =? AUTH_UNIX) with true.
    rewrite (check_unix_body pkt 24 body (be32 AUTH_NULL ++ be32 n2 ++ verf ++ rest)); [| lia | lia | change (Z.to_nat 24 + 4)%nat with (24 + 4)%nat; by rewrite <- drop_drop, D].
    destruct (check_body_ok body) as (c & -> & Hc); [| f_equal; by apply Hc].
    assert (bytes (drop 24 pkt)) as Hd by by apply Forall_drop. rewrite D in Hd. unfold bytes, authority in Hd. rewrite !Forall_app in Hd. tauto. }
  cbn [mbind option_bind]. unfold check_vrf. rewrite Ev. done.
Qed.

(** A proper call to register a port is carried out: the line is written and
    the reply says yes. *)
Theorem portmap_registers xid flavor body verf program version proto port rest name :
  let pkt := set_packet xid flavor body verf program version proto port rest in
  bytes pkt → Z.of_nat (length pkt) <= 65536 → length xid = 4%nat → accepted flavor body → protoname proto = Some name →
  in_u 32 program → in_u 32 version → in_u 32 proto → in_u 32 port →
  answer_packet pkt = Some (Some (reply_bytes xid 0 1), set_line program version name port).
Proof.
  intros pkt Hb Hl Hx Hacc Hname Hpr Hve Hpo Hpt. set (args := be32 program ++ be32 version ++ be32 proto ++ be32 port ++ rest).
  assert (∀ o v pre post, in_u 32 v → pkt = pre ++ be32 v ++ post → o = Z.of_nat (length pre) → ntohl_at pkt o = Some v) as Hat by (intros o v pre post Hv -> ->; by apply ntohl_at_app).
  assert (drop 24 pkt = authority flavor body verf args) as D24.
  { unfold pkt, set_packet. rewrite !app_assoc. apply drop_app_length'. rewrite !length_app, !length_be32. lia. }
  assert (length pkt = 56 + length body + length verf + length rest)%nat as Hlen.
  { assert (24 + length (drop 24 pkt) = length pkt)%nat as <- by (unfold pkt, set_packet; rewrite length_drop, !length_app, !length_be32; lia). rewrite D24. unfold authority, args. rewrite !length_app, !length_be32. lia. }
  assert (16 <= Z.of_nat (length args)) as Hargs by (unfold args; rewrite !length_app, !length_be32; lia).
  unfold answer_packet. change (sizeof portmap_call) with 60. rewrite (proj2 (Z.ltb_ge _ _)) by lia.
  rewrite (Hat 4 RPC_CALL xid _ ltac:(done) eq_refl) by lia. cbn [mbind option_bind]. change (negb (RPC_CALL =? RPC_CALL)) with false.
  assert (bytes_at pkt 0 4 = Some xid) as -> by (rewrite bytes_at_in by lia; f_equal; apply take_app_length'; lia). cbn [mbind option_bind].
  destruct (members pkt) as (-> & -> & -> & Em).
  rewrite (Hat 8 2 (xid ++ be32 RPC_CALL) _ ltac:(done) ltac:(unfold pkt, set_packet; by rewrite <- !app_assoc)) by (rewrite !length_app, !length_be32; lia).
  rewrite (Hat 12 RPC_PMAP_PROGRAM (xid ++ be32 RPC_CALL ++ be32 2) _ ltac:(done) ltac:(unfold pkt, set_packet; by rewrite <- !app_assoc)) by (rewrite !length_app, !length_be32; lia).
  rewrite (Hat 16 2 (xid ++ be32 RPC_CALL ++ be32 2 ++ be32 RPC_PMAP_PROGRAM) _ ltac:(done) ltac:(unfold pkt, set_packet; by rewrite <- !app_assoc)) by (rewrite !length_app, !length_be32; lia).
  cbn [mbind option_bind]. change (offsetof rpc_call_t ["cred_flavor"%string]) with (Some (28, Int 4)). cbn [mbind option_bind]. change (28 - 4) with 24. cbn [negb Z.eqb Pos.eqb RPC_PMAP_PROGRAM].
  rewrite (find_args_complete pkt flavor body verf args ltac:(lia) Hb D24 Hacc Hargs). cbn [mbind option_bind].
  assert (∀ o v pre post, 0 <= o → in_u 32 v → args = pre ++ be32 v ++ post → o = Z.of_nat (length pre) → ntohl_at pkt (40 + Z.of_nat (length body) + Z.of_nat (length verf) + o) = Some v) as Harg.
  { intros o v pre post Ho Hv Ea Hp. eapply (Hat _ _ (take 24 pkt ++ be32 flavor ++ be32 (Z.of_nat (length body)) ++ body ++ be32 AUTH_NULL ++ be32 (Z.of_nat (length verf)) ++ verf ++ pre)); [done | | rewrite !length_app, !length_be32, length_take; lia].
    rewrite <- (take_drop 24 pkt) at 1. rewrite D24. unfold authority. rewrite Ea, <- !app_assoc. done. }
  unfold serve. rewrite Em. rewrite (Hat 20 PMAP_PROC_SET (xid ++ be32 RPC_CALL ++ be32 2 ++ be32 RPC_PMAP_PROGRAM ++ be32 2) _ ltac:(done) ltac:(unfold pkt, set_packet; by rewrite <- !app_assoc)) by (rewrite !length_app, !length_be32; lia).
  cbn [mbind option_bind]. change (PMAP_PROC_SET =? PMAP_PROC_NULL) with false. change (PMAP_PROC_SET =? PMAP_PROC_SET) with true. cbv iota.
  rewrite (Harg 8 proto (be32 program ++ be32 version) _ ltac:(lia) Hpo ltac:(by unfold args; rewrite <- !app_assoc) eq_refl). cbn [mbind option_bind]. rewrite Hname.
  rewrite <- (Z.add_0_r (40 + _ + _)). rewrite (Harg 0 program [] _ ltac:(lia) Hpr eq_refl eq_refl). cbn [mbind option_bind]. rewrite Z.add_0_r.
  rewrite (Harg 4 version (be32 program) _ ltac:(lia) Hve eq_refl eq_refl). cbn [mbind option_bind].
  rewrite (Harg 12 port (be32 program ++ be32 version ++ be32 proto) _ ltac:(lia) Hpt ltac:(by unfold args; rewrite <- !app_assoc) eq_refl). done.
Qed.

(** ** An example: two calls, one from root and one from user 7 *)

Definition example_body (uid : Z) : list Z := be32 1234 ++ be32 2 ++ [104; 105; 0; 0] ++ be32 uid ++ be32 0 ++ be32 0.
Definition example_set (uid : Z) : list Z := set_packet [1; 2; 3; 4] AUTH_UNIX (example_body uid) [] 100021 4 IPPROTO_UDP 32768 [].

Lemma portmap_safe_witness : ∃ sent lines, dummy_portmap [Packet (example_set 0); Interrupted; Packet (example_set 7)] [] [] = Some (sent, concat lines) ∧
  concat lines = text "100021 4 udp 32768" ++ [10] ∧ sent = [reply_bytes [1; 2; 3; 4] 0 1; reply_bytes [1; 2; 3; 4] SYSTEM_ERR 0].
Proof.
  destruct (portmap_safe [Packet (example_set 0); Interrupted; Packet (example_set 7)]) as (sent & lines & E & _).
  { repeat constructor; (vm_compute; split; congruence) || (vm_compute; congruence). }
  exists sent, lines. split; [exact E |].
  assert (Some (sent, concat lines) = Some ([reply_bytes [1; 2; 3; 4] 0 1; reply_bytes [1; 2; 3; 4] SYSTEM_ERR 0], text "100021 4 udp 32768" ++ [10])) as E2 by (rewrite <- E; vm_compute; reflexivity).
  split; congruence.
Defined.
