(* ===== verification/Nfsmount.v ===== *)
(** * Mounting by NFS: [kinit/nfsmount/main.c], [mount.c], [portmap.c] and
      [kinit/nfsroot.c]

    On the calls of [Sunrpc].  The static variables are in the state; the
    system call [mount] is part of the trace.  [longjmp(abort_buf, 1)] makes
    [nfsmount_main] return 1.

    The theorems: the result 0 of [nfs_mount] means that the kernel mounted,
    once, with the handle in the reply to the call that asked the server for the
    path; every other result means that nothing was mounted; the options have the effect of their names. *)

From stdpp Require Import base numbers list strings.
From Stdlib Require Import Lia.
From S2P Require Import Prelude Prog Getopt Netdev Devno Layout Rand48 Ipconfig Ipparse Kinit Rootdev Mount Sunrpc.

#[local] Set Warnings "-register-all".

(** ** Constants of the protocol and of the kernel *)

Definition NFS_PROGRAM : Z := 100003.
Definition NFS_PORT : Z := 2049.
Definition NFS2_VERSION : Z := 2.
Definition NFS3_VERSION : Z := 3.
Definition NFS_MNT_PROGRAM : Z := 100005.
Definition NFS_MNT_VERSION : Z := 1.
Definition NFS_MNT3_VERSION : Z := 3.
Definition NFS_FHSIZE : Z := 32.
Definition NFS_MOUNT_SOFT : Z := 0x1.
Definition NFS_MOUNT_INTR : Z := 0x2.
Definition NFS_MOUNT_POSIX : Z := 0x8.
Definition NFS_MOUNT_NOCTO : Z := 0x10.
Definition NFS_MOUNT_NOAC : Z := 0x20.
Definition NFS_MOUNT_TCP : Z := 0x40.
Definition NFS_MOUNT_VER3 : Z := 0x80.
Definition NFS_MOUNT_NONLM : Z := 0x200.
Definition NFS_MOUNT_BROKEN_SUID : Z := 0x400.
Definition NFS_MOUNT_NOACL : Z := 0x800.
Definition NFS_MOUNT_FLAGMASK : Z := 0xffff.
Definition IPPROTO_TCP : Z := 6.
Definition IPPROTO_UDP : Z := 17.

Definition NFS_MOUNT_KLIBC_RONLY : Z := 0x10000.
Definition MNTPROC_MNT : Z := 1.
Definition MNTPROC_UMNT : Z := 3.

(** ** Messages *)

Definition portmap_call : ctype := Struct false [("rpc"%string, rpc_call_t); b32 "program"; b32 "version"; b32 "proto"; b32 "port"].
Definition portmap_reply : ctype := Struct false [("rpc"%string, rpc_reply_t); b32 "port"].
Definition mount_call_t : ctype := Struct false [("rpc"%string, rpc_call_t); b32 "path_len"].
Definition NFS_MAXFHSIZE_WIRE : Z := 64.
Definition nfs_fh_wire : ctype := Struct true [b32 "size"; a8 "data" NFS_MAXFHSIZE_WIRE].
Definition mount_reply : ctype := Struct true [("reply"%string, rpc_reply_t); b32 "status"; ("fh"%string, nfs_fh_wire)].
Definition MNT_REPLY_MINSIZE : Z := sizeof rpc_reply_t + 4.

(** A call without its header: program, version and procedure, no credentials *)
Definition blank_call (program version proc : Z) : list Z :=
  replicate 16 0 ++ be32 program ++ be32 version ++ be32 proc ++ replicate 16 0.

(** ** The state *)

(** [nfs_port], [mount_port], [mnt_reply] and [mount_data] are static. *)
Record nfs := mk_nfs { nnet : net; nfs_port : Z; mount_port : Z; mnt_reply : list Z; mount_data : nfs_mount_data }.

Definition initial_data : nfs_mount_data :=
  mk_nfs_data 0 (replicate 32 0) (Z.lor (Z.lor NFS_MOUNT_NONLM NFS_MOUNT_VER3) NFS_MOUNT_TCP) 0 0 7 3 3 60 30 60 (0, 0) (replicate 256 0) 0 (replicate 64 0).

Definition set_data (d : nfs_mount_data) (s : nfs) : nfs := mk_nfs (nnet s) (nfs_port s) (mount_port s) (mnt_reply s) d.
Definition set_flags (v : Z) (d : nfs_mount_data) : nfs_mount_data :=
  mk_nfs_data (d_fd d) (d_old_root d) v (d_rsize d) (d_wsize d) (d_timeo d) (d_retrans d) (d_acregmin d) (d_acregmax d) (d_acdirmin d) (d_acdirmax d) (d_addr d) (d_hostname d) (d_root_size d) (d_root d).
Definition set_root (old : list Z) (size : Z) (root : list Z) (d : nfs_mount_data) : nfs_mount_data :=
  mk_nfs_data (d_fd d) old (d_flags d) (d_rsize d) (d_wsize d) (d_timeo d) (d_retrans d) (d_acregmin d) (d_acregmax d) (d_acdirmin d) (d_acdirmax d) (d_addr d) (d_hostname d) size root.
Definition set_target (fd : Z) (addr : Z * Z) (hostname : list Z) (d : nfs_mount_data) : nfs_mount_data :=
  mk_nfs_data fd (d_old_root d) (d_flags d) (d_rsize d) (d_wsize d) (d_timeo d) (d_retrans d) (d_acregmin d) (d_acregmax d) (d_acdirmin d) (d_acdirmax d) addr hostname (d_root_size d) (d_root d).

Definition has_flag (flags f : Z) : bool := negb (Z.land flags f =? 0).

Section nfs.
Context (oracle : list (ncall * nanswer) → ncall → nanswer) (getpid : Z).
(** What is in a new block of memory, and in the buffer on the stack of
    [portmap] *)
Context (stale : nat → list Z) (stack : list Z).

Definition on_net {A} (m : prog net A) : prog nfs A := λ s,
  match m (nnet s) with
  | Ret (a, n) => Ret (a, mk_nfs n (nfs_port s) (mount_port s) (mnt_reply s) (mount_data s))
  | Exit c => Exit c
  | Fault => Fault
  end.
Definition modify (f : nfs → nfs) : prog nfs unit := λ s, Ret (tt, f s).

(** ** The port of a service *)

Definition portmap (server program version proto : Z) : prog net Z :=
  clnt ← make_client oracle getpid true server RPC_PMAP_PORT 0;
  clnt ← (match clnt with Some c => mret (Some c) | None => make_client oracle getpid false server RPC_PMAP_PORT 0 end);
  match clnt with
  | None => mret 0
  | Some clnt =>
      let call := blank_call RPC_PMAP_PROGRAM RPC_PMAP_VERSION PMAP_PROC_GETPORT ++ be32 program ++ be32 version ++ be32 proto ++ be32 0 in
      '(ret, r) ← rpc_call oracle clnt (mk_rpc call (sizeof portmap_call) stack (sizeof portmap_reply));
      port ← (if ret <? 0 then mret 0
              else if reply_len r <? sizeof portmap_reply then mret 0
              else p ← of_option (field portmap_reply ["port"%string] (reply r)); mret (be p));
      client_free oracle clnt;;
      mret port
  end.

(** Whether the ports are known *)
Definition get_ports (server : Z) : prog nfs bool :=
  s ← get_st;
  let v3 := has_flag (d_flags (mount_data s)) NFS_MOUNT_VER3 in
  let nfs_ver := if v3 then NFS3_VERSION else NFS2_VERSION in
  let mount_ver := if v3 then NFS_MNT3_VERSION else NFS_MNT_VERSION in
  let proto := if has_flag (d_flags (mount_data s)) NFS_MOUNT_TCP then IPPROTO_TCP else IPPROTO_UDP in
  ok ← (if nfs_port s =? 0 then
          p ← on_net (portmap server NFS_PROGRAM nfs_ver proto);
          modify (λ s, mk_nfs (nnet s) (s32 p) (mount_port s) (mnt_reply s) (mount_data s));;
          if s32 p =? 0 then
            if proto =? IPPROTO_TCP then mret false
            else modify (λ s, mk_nfs (nnet s) NFS_PORT (mount_port s) (mnt_reply s) (mount_data s));; mret true
          else mret true
        else mret true);
  if ok : bool then
    s ← get_st;
    (if mount_port s =? 0 then
       p ← on_net (portmap server NFS_MNT_PROGRAM mount_ver proto);
       modify (λ s, mk_nfs (nnet s) (nfs_port s) (if p =? 0 then MOUNT_PORT else p) (mnt_reply s) (mount_data s))
     else mret tt);;
    mret true
  else mret false.

(** ** Mounting *)

Definition pad_len (len : Z) : Z := Z.land (len + 3) (Z.lnot 3).

(** The message; the bytes that fill up the last word are whatever was in the
    memory. *)
Definition mount_message (proc version : Z) (path : list Z) : list Z :=
  let path_len := Z.of_nat (length path) in
  let pad := Z.to_nat (pad_len path_len - path_len) in
  blank_call NFS_MNT_PROGRAM version proc ++ be32 path_len ++ path ++ take pad (stale pad ++ replicate pad 0).

Definition mount_call (proc version : Z) (path : list Z) (clnt : client) : prog nfs Z :=
  s ← get_st;
  let call_len := sizeof mount_call_t + pad_len (Z.of_nat (length path)) in
  mnt_call ← on_net (ndo oracle (NMalloc call_len));
  if mnt_call.1 =? 0 then mret (-1)
  else
    let call := mount_message proc version path in
    '(ret, r) ← on_net (rpc_call oracle clnt (mk_rpc call call_len (mnt_reply s) (sizeof mount_reply)));
    modify (λ s, mk_nfs (nnet s) (nfs_port s) (mount_port s) (reply r) (mount_data s));;
    if ret <? 0 then mret (-1)
    else if negb (proc =? MNTPROC_MNT) then mret 0
    else if reply_len r <? MNT_REPLY_MINSIZE then mret (-1)
    else
      status ← of_option (field mount_reply ["status"%string] (reply r));
      mret (if negb (bool_decide (status = be32 0)) then -1 else 0).

Definition mount_v2 (path : list Z) (clnt : client) : prog nfs Z :=
  ret ← mount_call MNTPROC_MNT NFS_MNT_VERSION path clnt;
  (if ret =? 0 then
     s ← get_st;
     '(o, _) ← of_option (offsetof mount_reply ["fh"%string]);
     fh ← of_option (bytes_at (mnt_reply s) o NFS_FHSIZE);
     let d := mount_data s in
     modify (set_data (set_root (overwrite (d_old_root d) fh) NFS_FHSIZE (overwrite (d_root d) fh) d))
   else mret tt);;
  mret ret.

Definition store_handle : prog nfs unit :=
  s ← get_st;
  size ← of_option (field mount_reply ["fh"; "size"]%string (mnt_reply s));
  let fhsize := u32 (be size) in
  '(o, _) ← of_option (offsetof mount_reply ["fh"; "data"]%string);
  fh ← (if fhsize <=? NFS_MAXFHSIZE_WIRE then of_option (bytes_at (mnt_reply s) o fhsize) else crash);
  let d := mount_data s in
  modify (set_data (set_flags (Z.lor (d_flags d) NFS_MOUNT_VER3)
    (set_root (replicate (Z.to_nat NFS_FHSIZE) 0) (u16 fhsize) (overwrite (replicate 64 0) fh) d))).

Definition mount_v3 (path : list Z) (clnt : client) : prog nfs Z :=
  ret ← mount_call MNTPROC_MNT NFS_MNT3_VERSION path clnt;
  (if ret =? 0 then store_handle else mret tt);;
  mret ret.

Definition umount_call (path : list Z) (clnt : client) : prog nfs Z :=
  s ← get_st;
  mount_call MNTPROC_UMNT (if has_flag (d_flags (mount_data s)) NFS_MOUNT_VER3 then NFS_MNT3_VERSION else NFS_MNT_VERSION) path clnt.

(** From the socket on: whether it was mounted, and the socket. *)
Definition kernel_mount (pathname hostname : list Z) (server : Z) (path : list Z) : prog nfs (bool * Z) :=
  s ← get_st;
  a ← on_net (ndo oracle (NSocket (has_flag (d_flags (mount_data s)) NFS_MOUNT_TCP)));
  let sock := a.1 in
  if sock =? -1 then mret (false, -1)
  else
    bound ← on_net (bindresvport oracle getpid sock);
    if bound =? -1 then mret (false, sock)
    else
      s ← get_st;
      let d := mount_data s in
      let hostname := take (length (d_hostname d)) (hostname ++ replicate (length (d_hostname d)) 0) in
      let d := set_target sock (server, u16 (nfs_port s)) hostname d in
      let mountflags := if has_flag (d_flags d) NFS_MOUNT_KLIBC_RONLY then MS_RDONLY else 0 in
      let d := set_flags (Z.land (d_flags d) NFS_MOUNT_FLAGMASK) d in
      modify (set_data d);;
      r ← on_net (ndo oracle (NMount pathname path mountflags d));
      mret (negb (r.1 =? -1), sock).

Definition nfs_mount (pathname hostname : list Z) (server : Z) (rem_path path : list Z) : prog nfs Z :=
  ports ← get_ports server;
  if negb ports then mret (-1)
  else
    s ← get_st;
    clnt ← on_net (make_client oracle getpid (has_flag (d_flags (mount_data s)) NFS_MOUNT_TCP) server (mount_port s) CLI_RESVPORT);
    match clnt with
    | None => mret (-1)
    | Some clnt =>
        ret ← (if has_flag (d_flags (mount_data s)) NFS_MOUNT_VER3 then mount_v3 rem_path clnt else mount_v2 rem_path clnt);
        '(ok, sock) ← (if ret =? -1 then mret (false, -1) else kernel_mount pathname hostname server path);
        (if negb (ret =? -1) && negb ok then umount_call path clnt else mret 0);;
        on_net (client_free oracle clnt);;
        (if negb (sock =? -1) then on_net (ndo oracle (NClose sock));; mret tt else mret tt);;
        mret (if ok : bool then 0 else -1)
    end.

(** ** Options *)

Definition put_flags (f : Z → Z) (s : nfs) : nfs := set_data (set_flags (f (d_flags (mount_data s))) (mount_data s)) s.

(** [int_opts]: the variables by name *)
Definition put_int (k : nat) (v : Z) (s : nfs) : nfs :=
  let d := mount_data s in
  let pick (i : nat) (old : Z) := if (k =? i)%nat then v else old in
  mk_nfs (nnet s) (pick 0%nat (nfs_port s)) (mount_port s) (mnt_reply s)
    (mk_nfs_data (d_fd d) (d_old_root d) (d_flags d) (pick 1%nat (d_rsize d)) (pick 2%nat (d_wsize d)) (pick 3%nat (d_timeo d)) (pick 4%nat (d_retrans d))
      (pick 5%nat (d_acregmin d)) (pick 6%nat (d_acregmax d)) (pick 7%nat (d_acdirmin d)) (pick 8%nat (d_acdirmax d)) (d_addr d) (d_hostname d) (d_root_size d) (d_root d)).
Definition int_opts : list string := ["port"; "rsize"; "wsize"; "timeo"; "retrans"; "acregmin"; "acregmax"; "acdirmin"; "acdirmax"]%string.

Definition bool_opts : list (string * Z * Z) := [
  ("soft", Z.lnot NFS_MOUNT_SOFT, NFS_MOUNT_SOFT); ("hard", Z.lnot NFS_MOUNT_SOFT, 0);
  ("intr", Z.lnot NFS_MOUNT_INTR, NFS_MOUNT_INTR); ("nointr", Z.lnot NFS_MOUNT_INTR, 0);
  ("posix", Z.lnot NFS_MOUNT_POSIX, NFS_MOUNT_POSIX); ("noposix", Z.lnot NFS_MOUNT_POSIX, 0);
  ("cto", Z.lnot NFS_MOUNT_NOCTO, 0); ("nocto", Z.lnot NFS_MOUNT_NOCTO, NFS_MOUNT_NOCTO);
  ("ac", Z.lnot NFS_MOUNT_NOAC, 0); ("noac", Z.lnot NFS_MOUNT_NOAC, NFS_MOUNT_NOAC);
  ("lock", Z.lnot NFS_MOUNT_NONLM, 0); ("nolock", Z.lnot NFS_MOUNT_NONLM, NFS_MOUNT_NONLM);
  ("acl", Z.lnot NFS_MOUNT_NOACL, 0); ("noacl", Z.lnot NFS_MOUNT_NOACL, NFS_MOUNT_NOACL);
  ("v2", Z.lnot NFS_MOUNT_VER3, 0); ("v3", Z.lnot NFS_MOUNT_VER3, NFS_MOUNT_VER3);
  ("udp", Z.lnot NFS_MOUNT_TCP, 0); ("tcp", Z.lnot NFS_MOUNT_TCP, NFS_MOUNT_TCP);
  ("broken_suid", Z.lnot NFS_MOUNT_BROKEN_SUID, NFS_MOUNT_BROKEN_SUID);
  ("ro", Z.lnot NFS_MOUNT_KLIBC_RONLY, NFS_MOUNT_KLIBC_RONLY); ("rw", Z.lnot NFS_MOUNT_KLIBC_RONLY, 0)]%string.

(** [None] is an abort; so is [false] below. *)
Definition parse_int (val : list Z) : option Z :=
  let '(v, end_) := strtoul 0 val in
  if bool_decide (val = []) || negb (bool_decide (end_ = [])) then None else Some (s32 v).

(** [strchr(cp, '=')] *)
Fixpoint split_equals (cp : list Z) : option (list Z * list Z) :=
  match cp with
  | [] => None
  | c :: cp => if c =? 61 then Some ([], cp) else (λ '(a, b), (c :: a, b)) <$> split_equals cp
  end.

Definition parse_opt (cp : list Z) : prog nfs bool :=
  match split_equals cp with
  | Some (name, val) =>
      match list_find (λ x, text x = name) int_opts with
      | Some (k, _) => match parse_int val with Some v => modify (put_int k v);; mret true | None => mret false end
      | None => mret false
      end
  | None =>
      match list_find (λ x, text x.1.1 = cp) bool_opts with
      | Some (_, (_, and_mask, or_mask)) => modify (put_flags (λ f, Z.lor (Z.land f and_mask) or_mask));; mret true
      | None => mret false
      end
  end.

(** [strsep(&opts, ",")] *)
Fixpoint fields_at_commas (cur opts : list Z) : list (list Z) :=
  match opts with
  | [] => [cur]
  | c :: opts => if c =? 44 then cur :: fields_at_commas [] opts else fields_at_commas (cur ++ [c]) opts
  end.

Fixpoint parse_opt_list (cps : list (list Z)) : prog nfs bool :=
  match cps with
  | [] => mret true
  | cp :: cps =>
      ok ← (match cp with [] => mret true | _ => parse_opt cp end);
      if ok : bool then parse_opt_list cps else mret false
  end.
Definition parse_opts (opts : list Z) : prog nfs bool := parse_opt_list (fields_at_commas [] opts).

(** ** The program *)

(** [stat]: the mode of a file.  [start_dummy_portmap] forks the server of
    [Pmap]: -1 for a failure, 0 if it is not needed. *)
Context (stat : list Z → option Z) (start_dummy_portmap : list Z → Z).

(** The file of [-p]; [None] if the result of the program is 1. *)
Fixpoint run_options (es : list Getopt.event) (portmap_file : option (list Z)) : prog nfs (option (option (list Z))) :=
  match es with
  | [] => mret (Some portmap_file)
  | Getopt.Opt c (Some optarg) :: es =>
      if c =? 111 then
        ok ← parse_opts optarg;
        if ok : bool then run_options es portmap_file else mret None
      else run_options es (Some optarg)
  | _ => mret None
  end.

Definition nfsmount_main (argv : list (list Z)) : prog nfs Z :=
  let args := drop 1 argv in
  '(es, ops) ← of_option (events (text "o:p:") (S (work [] args)) [] args);
  portmap_file ← run_options es None;
  match portmap_file, ops with
  | None, _ => mret 1
  | Some _, [] => mret 1
  | Some portmap_file, rem_name :: ops =>
      match split_colon rem_name with
      | None => mret 1
      | Some (hostname, rem_path) =>
          if negb (default 0 (head rem_path) =? 47) then mret 1
          else
            let path := match ops with path :: _ => path | [] => text "/nfs_root" end in
            match Ipparse.parse_addr hostname, stat path with
            | Ok server, Some mode =>
                if negb (S_ISDIR mode) then mret 1
                else
                  let spoof := match portmap_file with Some file => start_dummy_portmap file | None => 0 end in
                  if spoof =? -1 then mret 1
                  else
                    r ← nfs_mount rem_name hostname server rem_path path;
                    mret (if negb (r =? 0) then 1 else 0)
            | _, _ => mret 1
            end
      end
  end.

(** ** The root of kinit *)

(** [snprintf(buf, len, path, text)], for a path whose only directives are one
    [%s] and [%%]; others read arguments that are not there. *)
Fixpoint format_path (path addr : list Z) (used : bool) : option (list Z) :=
  match path with
  | [] => Some []
  | c :: path =>
      if c =? 37 then
        match path with
        | d :: path =>
            if d =? 37 then (c ::.) <$> format_path path addr used
            else if (d =? 115) && negb used then (addr ++.) <$> format_path path addr true
            else None
        | [] => None
        end
      else (c ::.) <$> format_path path addr used
  end.

Fixpoint has_sub (path : list Z) : bool :=
  match path with
  | c :: ((d :: _) as path') => (c =? 37) && (d =? 115) || has_sub path'
  | _ => false
  end.

Definition sub_client (clnt : Z) (path : list Z) (len : nat) : prog nfs (list Z) :=
  if has_sub path then
    if clnt =? INADDR_NONE then exit_ 1
    else t ← of_option (format_path path (my_inet_ntoa clnt) false); mret (take (len - 1) t)
  else mret path.

(** The server, the own address and the path of the devices *)
Fixpoint find_server (devs : list netdev) (clnt : Z) : Z * Z * option (list Z) :=
  match devs with
  | [] => (INADDR_NONE, clnt, None)
  | dev :: devs =>
      if negb (ip_server dev =? INADDR_NONE) && negb (ip_server dev =? INADDR_ANY) then (ip_server dev, ip_addr dev, Some (c_string (bootpath dev)))
      else find_server devs (if negb (ip_addr dev =? INADDR_NONE) && negb (ip_addr dev =? INADDR_ANY) then ip_addr dev else clnt)
  end.

(** [strchr(path, ',')] *)
Fixpoint cut_comma (path : list Z) : list Z * option (list Z) :=
  match path with
  | [] => ([], None)
  | c :: path => if c =? 44 then ([], Some path) else let '(a, o) := cut_comma path in (c :: a, o)
  end.

Definition mount_nfs_root (ifaces : list netdev) (argv : list (list Z)) : prog nfs Z :=
  let len := 1024%nat in
  let '(addr, clnt, dev_bootpath) := find_server ifaces INADDR_NONE in
  let path := match get_arg argv (text "nfsroot=") with
              | Some path => path
              | None => match dev_bootpath with Some ((_ :: _) as path) => path | _ => text "/tftpboot/%s" end
              end in
  let '(path, opts) := cut_comma path in
  root ← (match split_colon path with
          | None => if addr =? INADDR_NONE then exit_ 1 else mret (take (len - 1) (my_inet_ntoa addr ++ text ":" ++ path))
          | Some _ => if (length path <? len)%nat then mret path else crash
          end);
  root ← sub_client clnt root len;
  let nfs_argv := [text "NFS-Mount"] ++ match opts with Some opts => [text "-o"; opts] | None => [] end ++ [root; text "/root"] in
  ret ← nfsmount_main nfs_argv;
  mret (if negb (ret =? 0) then -1 else 0).
End nfs.

(** ** System calls of the parts *)

Definition is_mount (x : ncall * nanswer) : bool := match x.1 with NMount _ _ _ _ => true | _ => false end.
(** No call mounts. *)
Definition quiet (l : list (ncall * nanswer)) : Prop := Forall (λ x, is_mount x = false) l.

Section proofs.
Context (oracle : list (ncall * nanswer) → ncall → nanswer) (getpid : Z).
Context (stale : nat → list Z) (stack : list Z).
Context (Hstack : length stack = 32%nat).

(** Programs over the network alone *)
Abbreviation calls := (logged trace (λ _ : net, True)).

Lemma quiet_app a b : quiet a → quiet b → quiet (a ++ b).
Proof using Type. intros. by apply Forall_app. Qed.
Lemma quiet_one x : is_mount x = false → quiet [x].
Proof using Type. intros. by apply Forall_singleton. Qed.

Lemma ndo_calls c s : calls (ndo oracle c) s (λ a new _, new = [(c, a)]).
Proof using Type. eexists _, _, [_]. by split_and!. Qed.

Lemma ndo_quiet c s : is_mount (c, (0, [])) = false → calls (ndo oracle c) s (λ a new _, quiet new).
Proof using Type. intros Hc. eapply logged_weaken; [apply ndo_calls |]. intros a new _ ->. by apply quiet_one. Qed.

Lemma set_port_quiet p s : calls (set_port p) s (λ _ new _, quiet new).
Proof using Type. eexists _, _, []. split_and!; [done | by rewrite app_nil_r | done | constructor]. Qed.

(** [m] mounts nothing, and so does what follows. *)
Lemma quiet_bind {A B} (m : prog net A) (f : A → prog net B) s (Q : B → Prop) : calls m s (λ _ new _, quiet new) →
  (∀ a s', calls (f a) s' (λ b new _, quiet new ∧ Q b)) → calls (m ≫= f) s (λ b new _, quiet new ∧ Q b).
Proof using Type.
  intros Hm Hf. eapply logged_bind; [exact Hm |]. intros a s1 new _ Hn. eapply logged_weaken; [apply Hf |]. intros b new' s2 [Hn' HQ]. split; [by apply quiet_app | done].
Qed.
Lemma quiet_ret {A} (a : A) s (Q : A → Prop) : Q a → calls (mret a) s (λ b new _, quiet new ∧ Q b).
Proof using Type. intros. apply logged_ret; [done | split; [constructor | done]]. Qed.
Lemma quiet_weaken {A} (m : prog net A) s (Q : A → Prop) : calls m s (λ b new _, quiet new ∧ Q b) → calls m s (λ _ new _, quiet new).
Proof using Type. intros H. eapply logged_weaken; [exact H |]. by intros a new s' [Hn _]. Qed.

Lemma bind_loop_quiet n sd : ∀ ret s, calls (bind_loop oracle n sd ret) s (λ _ new _, quiet new ∧ True).
Proof using Type.
  induction n as [| n IH]; intros ret s; [by apply quiet_ret |]. cbn [bind_loop]. apply logged_get. apply quiet_bind; [destruct (_ =? _); [apply set_port_quiet | apply (quiet_weaken _ _ (λ _, True)); by apply quiet_ret] |].
  intros _ s1. apply logged_get. apply quiet_bind; [by apply ndo_quiet |]. intros a s2. destruct (negb _); [by apply quiet_ret |]. apply quiet_bind; [apply set_port_quiet |]. intros _ s3. apply IH.
Qed.

Lemma bindresvport_quiet sd s : calls (bindresvport oracle getpid sd) s (λ _ new _, quiet new ∧ True).
Proof using Type.
  unfold bindresvport. apply logged_get. apply quiet_bind; [destruct (_ =? _); [apply set_port_quiet | apply (quiet_weaken _ _ (λ _, True)); by apply quiet_ret] |].
  intros _ s1. apply bind_loop_quiet.
Qed.

(** The last call connected the socket of [clnt]. *)
Definition connected (clnt : client) (server prt : Z) (new : list (ncall * nanswer)) : Prop :=
  ∃ a, last new = Some (NConnect (sock clnt) server prt, a) ∧ a.1 ≠ -1.

Lemma make_client_does tcp server prt flags s :
  calls (make_client oracle getpid tcp server prt flags) s (λ c new _, quiet new ∧ ∀ clnt, c = Some clnt → is_tcp clnt = tcp ∧ connected clnt server (u16 prt) new).
Proof using Type.
  unfold make_client. eapply logged_bind; [by apply ndo_quiet |]. intros m s0 new0 _ Hq0. destruct (m.1 =? 0); [apply logged_ret; [done | by rewrite app_nil_r] |].
  eapply logged_bind; [by apply ndo_quiet |]. intros a s1 new1 _ Hq1. destruct (a.1 =? -1); [apply logged_ret; [done |]; rewrite app_nil_r; split; [by apply quiet_app | done] |].
  eapply (logged_bind _ _ _ (λ _ new _, quiet new)).
  { destruct (negb _); [eapply quiet_weaken; apply bindresvport_quiet | apply (quiet_weaken _ _ (λ _, True)); by apply quiet_ret]. }
  intros b s2 new2 _ Hq2. pose proof (quiet_app _ _ Hq0 (quiet_app _ _ Hq1 Hq2)) as Hq. destruct (b =? -1); [apply logged_ret; [done |]; by rewrite app_nil_r |].
  eapply logged_bind; [apply ndo_calls |]. intros c s3 new3 _ ->. assert (quiet (new0 ++ new1 ++ new2 ++ [(NConnect a.1 server (u16 prt), c)])) as Hall.
  { rewrite !app_assoc. apply quiet_app; [by rewrite <- app_assoc | by apply quiet_one]. }
  destruct (Z.eqb_spec c.1 (-1)); apply logged_ret; try done; rewrite app_nil_r; split; try done.
  intros ? [= <-]. split; [done |]. exists c. split; [by rewrite !app_assoc, last_snoc | done].
Qed.

Lemma make_client_quiet tcp server prt flags s : calls (make_client oracle getpid tcp server prt flags) s (λ _ new _, quiet new ∧ True).
Proof using Type. eapply logged_weaken; [apply make_client_does |]. by intros c new s' [H _]. Qed.

Lemma client_free_quiet c s : calls (client_free oracle c) s (λ _ new _, quiet new).
Proof using Type.
  unfold client_free. destruct (negb _); [| apply (quiet_weaken _ _ (λ _, True)); by apply quiet_ret].
  apply (quiet_weaken _ _ (λ _, True)), quiet_bind; [by apply ndo_quiet |]. intros. by apply quiet_ret.
Qed.

Lemma on_socket_quiet clnt l : Forall (on_socket clnt) l → quiet l.
Proof using Type. intros H. eapply Forall_impl; [exact H |]. intros [[] ?]; done. Qed.

Lemma rpc_call_calls clnt r s : rpc_ok r → call_len r = Z.of_nat (length (call r)) →
  calls (rpc_call oracle clnt r) s (λ res new _, quiet new ∧ length (reply res.2) = length (reply r) ∧
    (res.1 = 0 ∧ (∃ xid w mid x d, new = w :: mid ++ [x] ∧ sends clnt (headed (call r) xid) w ∧ received clnt (headed (call r) xid) d x ∧ buffer_holds res.2 d) ∨ res.1 = -1)).
Proof using Type.
  intros Hok Hl. destruct (rpc_call_runs oracle clnt r s Hok Hl) as (ret & r' & s' & new & E & Ht & Hq & Hlr & H). exists (ret, r'), s', new.
  split_and!; [done | done | done | by eapply on_socket_quiet | done |]. destruct H as [[-> H] | ->]; [left; split; [done |]; by exists (lrand48 (seed48 s)).1 | by right].
Qed.

Lemma portmap_quiet server program version proto s : calls (portmap oracle getpid stack server program version proto) s (λ _ new _, quiet new ∧ True).
Proof using Hstack.
  unfold portmap. apply quiet_bind; [eapply quiet_weaken; apply make_client_quiet |]. intros c1 s1.
  apply quiet_bind. { destruct c1; [apply (quiet_weaken _ _ (λ _, True)); by apply quiet_ret | eapply quiet_weaken; apply make_client_quiet]. }
  intros c2 s2. destruct c2 as [clnt |]; [| by apply quiet_ret]. change (sizeof portmap_call) with 60. change (sizeof portmap_reply) with 32.
  eapply logged_bind; [apply rpc_call_calls; [split; cbn [call reply reply_len]; rewrite ?Hstack; cbn; lia | done] |]. intros [ret r] s3 new _ (Hq & Hlr & _). cbn [fst snd reply] in *. rewrite Hstack in Hlr.
  eapply logged_weaken; [eapply (quiet_bind _ _ _ (λ _, True)) |].
  - destruct (ret <? 0); [apply (quiet_weaken _ _ (λ _, True)); by apply quiet_ret |]. destruct (reply_len r <? 32); [apply (quiet_weaken _ _ (λ _, True)); by apply quiet_ret |].
    change (field portmap_reply ["port"%string] (reply r)) with (bytes_at (reply r) 28 4). rewrite bytes_at_in by lia. apply (quiet_weaken _ _ (λ _, True)). by apply quiet_ret.
  - intros p s4. apply quiet_bind; [apply client_free_quiet |]. intros. by apply quiet_ret.
  - intros b new' s4 [Hq' _]. split; [by apply quiet_app | done].
Qed.

(** ** The state of nfsmount *)

Abbreviation ntrace := (λ s : nfs, trace (nnet s)).
Definition reply_ok (s : nfs) : Prop := length (mnt_reply s) = 100%nat.
Abbreviation does := (logged ntrace reply_ok).

(** The data do not change; nor does the port of the mount server, if it is
    known. *)
Definition same_data (s s' : nfs) : Prop := mount_data s' = mount_data s.
Definition keeps_port (s s' : nfs) : Prop := mount_port s ≠ 0 → mount_port s' = mount_port s.

Lemma on_net_does {A} (m : prog net A) s (P : A → list (ncall * nanswer) → net → Prop) : reply_ok s → calls m (nnet s) P →
  does (on_net m) s (λ a new s', P a new (nnet s') ∧ same_data s s' ∧ mnt_reply s' = mnt_reply s ∧ mount_port s' = mount_port s).
Proof using Type.
  intros Hs (a & n & new & E & Ht & _ & HP). exists a, (mk_nfs n (nfs_port s) (mount_port s) (mnt_reply s) (mount_data s)), new. unfold on_net. rewrite E. by split_and!.
Qed.

Lemma modify_does f s : reply_ok (f s) → trace (nnet (f s)) = trace (nnet s) → does (modify f) s (λ _ new s', new = [] ∧ s' = f s).
Proof using Type. intros Hs Ht. exists tt, (f s), []. rewrite app_nil_r. by split_and!. Qed.

Lemma get_ports_does server s : reply_ok s → does (get_ports oracle getpid stack server) s (λ _ new s', quiet new ∧ same_data s s' ∧ keeps_port s s').
Proof using Hstack.
  intros Hs. unfold get_ports. apply logged_get. set (v3 := has_flag _ NFS_MOUNT_VER3). set (proto := if has_flag _ NFS_MOUNT_TCP then _ else _).
  eapply (logged_bind _ _ _ (λ _ new s', quiet new ∧ same_data s s' ∧ mount_port s' = mount_port s)).
  - destruct (nfs_port s =? 0); [| apply logged_ret; [done | split; [constructor | done]]].
    eapply logged_bind; [apply on_net_does; [done | apply portmap_quiet] |]. intros p s1 new1 Hs1 ([Hq1 _] & Hd1 & _ & Hm1).
    eapply logged_bind; [by apply modify_does |]. intros _ s2 new2 Hs2 [-> ->].
    destruct (s32 p =? 0); [| apply logged_ret; [done | rewrite !app_nil_r; done]]. destruct (proto =? IPPROTO_TCP); [apply logged_ret; [done | rewrite !app_nil_r; done] |].
    eapply logged_bind; [by apply modify_does |]. intros _ s3 new3 Hs3 [-> ->]. apply logged_ret; [done | rewrite !app_nil_r; done].
  - intros ok s1 new1 Hs1 (Hq1 & Hd1 & Hm1). assert (keeps_port s s1) as Hk1 by by intros _. destruct ok; [| apply logged_ret; [done | rewrite app_nil_r; done]]. apply logged_get.
    eapply (logged_bind _ _ _ (λ _ new s', quiet new ∧ same_data s s' ∧ keeps_port s s')).
    + destruct (Z.eqb_spec (mount_port s1) 0) as [H0 | H0]; [| apply logged_ret; [done | split; [constructor | done]]].
      eapply logged_bind; [apply on_net_does; [done | apply portmap_quiet] |]. intros p s2 new2 Hs2 ([Hq2 _] & Hd2 & _).
      eapply logged_weaken; [by apply modify_does |]. intros _ new3 s3 [-> ->]. rewrite app_nil_r. split_and!; [done | unfold same_data in *; cbn; congruence |]. intros Hne. congruence.
    + intros _ s2 new2 Hs2 (Hq2 & Hd2 & Hk2). apply logged_ret; [done |]. rewrite app_nil_r. split; [by apply quiet_app | done].
Qed.

(** ** The call to the mount server *)

Lemma pad_len_bounds n : 0 <= n → n <= pad_len n <= n + 3.
Proof using Type.
  clear Hstack. intros Hn. unfold pad_len. assert (Z.land (n + 3) (Z.lnot 3) = n + 3 - (n + 3) mod 4) as ->; [| pose proof (Z.mod_pos_bound (n + 3) 4); lia].
  replace ((n + 3) mod 4) with (Z.land (n + 3) (Z.ones 2)) by (by rewrite Z.land_ones by lia). rewrite Z.sub_nocarry_ldiff.
  - change (Z.ones 2) with 3. apply Z.bits_inj'. intros i Hi. rewrite Z.land_spec, Z.ldiff_spec, Z.land_spec, Z.lnot_spec by done. by destruct (Z.testbit (n + 3) i), (Z.testbit 3 i).
  - apply Z.bits_inj'. intros i Hi. rewrite Z.ldiff_spec, Z.land_spec, Z.bits_0. by destruct (Z.testbit (n + 3) i), (Z.testbit (Z.ones 2) i).
Qed.

Lemma length_blank_call a b c : length (blank_call a b c) = 44%nat.
Proof using Type. done. Qed.

Lemma length_mount_message proc version path : Z.of_nat (length (mount_message stale proc version path)) = 48 + pad_len (Z.of_nat (length path)).
Proof using Type.
  clear Hstack. pose proof (pad_len_bounds (Z.of_nat (length path)) ltac:(lia)). unfold mount_message. rewrite !length_app, length_take, length_app, length_replicate, length_blank_call. cbn [be32 length]. lia.
Qed.

(** The call [c] was sent to the socket of [clnt], with a transaction number,
    and after that [d] was read from it, a reply with this number. *)
Definition asked (clnt : client) (c d : list Z) (new : list (ncall * nanswer)) : Prop :=
  ∃ xid pre w mid x post, new = pre ++ w :: mid ++ x :: post ∧ sends clnt (headed c xid) w ∧ received clnt (headed c xid) d x.

Lemma asked_app clnt c d a b e : asked clnt c d b → asked clnt c d (a ++ b ++ e).
Proof using Type. intros (xid & pre & w & mid & x & post & -> & H). exists xid, (a ++ pre), w, mid, x, (post ++ e). split; [| done]. by rewrite <- !app_assoc, <- app_comm_cons, <- app_assoc. Qed.

(** The server has answered the call [c] with [d], without an error, and [d] is
    in the buffer. *)
Definition answered (clnt : client) (c d : list Z) (s' : nfs) (new : list (ncall * nanswer)) : Prop :=
  asked clnt c d new ∧ (28 <= length d <= 96)%nat ∧ take 4 (drop 24 d) = be32 0 ∧ take (length d) (drop 4 (mnt_reply s')) = d.

Lemma mount_call_does proc version path clnt s : reply_ok s → Z.of_nat (length path) < 2 ^ 30 →
  does (mount_call oracle stale proc version path clnt) s (λ ret new s', quiet new ∧ same_data s s' ∧
    (ret = 0 ∧ (proc = MNTPROC_MNT → ∃ d, answered clnt (mount_message stale proc version path) d s' new) ∨ ret = -1)).
Proof using Type.
  clear Hstack. intros Hs Hp. unfold mount_call. apply logged_get. pose proof (length_mount_message proc version path) as Hlen. pose proof (pad_len_bounds (Z.of_nat (length path)) ltac:(lia)) as Hpad.
  change (sizeof mount_call_t) with 48. change (sizeof mount_reply) with 100. change MNT_REPLY_MINSIZE with 32. set (c := mount_message _ _ _ _) in *. unfold reply_ok in Hs.
  eapply logged_bind; [apply on_net_does; [done | by apply ndo_quiet] |]. intros m s0 new0 Hs0 (Hq0 & Hd0 & Hbf & _).
  destruct (m.1 =? 0); [apply logged_ret; [done |]; rewrite app_nil_r; auto |]. rewrite <- Hbf.
  eapply logged_bind; [apply on_net_does; [done | apply rpc_call_calls; [split; cbn [call reply reply_len]; rewrite ?Hbf, ?Hs; lia | cbn [call call_len]; lia]] |].
  intros [ret r] s1 new1 Hs1 ((Hq1 & Hlr & Hres) & Hd1 & _). cbn [fst snd call reply] in *. rewrite Hbf, Hs in Hlr.
  pose proof (quiet_app _ _ Hq0 Hq1) as Hq. assert (same_data s s1) as Hd by (unfold same_data in *; congruence).
  eapply logged_bind; [by apply modify_does |]. intros _ s2 new2 Hs2 [-> ->].
  assert (∀ P, (P ∨ -1 = -1)) as Hneg by auto.
  destruct (Z.ltb_spec ret 0) as [Hr0 | Hr0]; [apply logged_ret; [done |]; rewrite !app_nil_r; auto |].
  destruct (Z.eqb_spec proc MNTPROC_MNT) as [-> | Hne]; cbn [negb]; [| apply logged_ret; [done |]; rewrite !app_nil_r; split_and!; [done | done | left; done]].
  destruct (Z.ltb_spec (reply_len r) 32) as [Hrl | Hrl]; [apply logged_ret; [done |]; rewrite !app_nil_r; auto |].
  change (field mount_reply ["status"%string] (reply r)) with (bytes_at (reply r) 28 4). rewrite bytes_at_in by lia. cbn [of_option].
  destruct Hres as [(-> & xid & w & mid & x & d & -> & Hw & Hrec & Hbl & Hbd) | ->]; [| lia].
  assert (reply_len r <= 100) as Hle. { assert (length (drop 4 (take (Z.to_nat (reply_len r)) (reply r))) <= 96)%nat as H by (rewrite length_drop, length_take; lia). rewrite Hbd in H. lia. }
  assert (take (length d) (drop 4 (reply r)) = d) as Hbuf. { rewrite <- Hbd at 2. rewrite skipn_firstn_comm. f_equal. lia. }
  assert (take (Z.to_nat 4) (drop (Z.to_nat 28) (reply r)) = take 4 (drop 24 d)) as ->.
  { rewrite <- Hbuf at 1. change (Z.to_nat 28) with (4 + 24)%nat. rewrite <- drop_drop, skipn_firstn_comm, take_take. f_equal. lia. }
  apply logged_ret; [done |]. rewrite !app_nil_r. split_and!; [done | done |]. destruct (bool_decide_reflect (take 4 (drop 24 d) = be32 0)) as [Hst | Hst]; cbn [negb]; [left | by right].
  split; [done |]. intros _. exists d. split_and!; [| lia | lia | done | exact Hbuf]. by exists xid, new0, w, mid, x, [].
Qed.

(** ** The handle *)

(** The handle in the answer [d] of the server, which is long enough for it *)
Definition handle (v3 : bool) (d : list Z) : list Z :=
  if v3 then take (Z.to_nat (u32 (be (take 4 (drop 28 d))))) (drop 32 d) else take 32 (drop 28 d).
Definition complete (v3 : bool) (d : list Z) : Prop :=
  if v3 then (32 <= length d)%nat ∧ 32 + u32 (be (take 4 (drop 28 d))) <= Z.of_nat (length d) else (60 <= length d)%nat.

(** [data] has the handle of [d].  What is missing in a shorter answer is taken
    from what was in the buffer of 96 bytes behind it. *)
Definition has_handle (v3 : bool) (d : list Z) (data : nfs_mount_data) : Prop :=
  (∃ behind, length (d ++ behind) = 96%nat ∧ take (Z.to_nat (d_root_size data)) (d_root data) = handle v3 (d ++ behind)) ∧
  (complete v3 d → take (Z.to_nat (d_root_size data)) (d_root data) = handle v3 d).

Lemma handle_complete v3 d behind : complete v3 d → handle v3 (d ++ behind) = handle v3 d.
Proof using Type.
  clear Hstack. intros Hc. unfold handle. destruct v3; cbn [complete] in Hc.
  - destruct Hc as [H1 H2]. rewrite !drop_app_le, (take_app_le (drop 28 d)) by (rewrite ?length_drop; lia). apply take_app_le. rewrite length_drop. lia.
  - rewrite drop_app_le by lia. apply take_app_le. rewrite length_drop. lia.
Qed.

Lemma buffer_handle v3 d buf data : length buf = 100%nat → (length d <= 96)%nat → take (length d) (drop 4 buf) = d →
  take (Z.to_nat (d_root_size data)) (d_root data) = handle v3 (drop 4 buf) → has_handle v3 d data.
Proof using Type.
  clear Hstack. intros Hb Hd Hbuf H. assert (drop 4 buf = d ++ drop (length d) (drop 4 buf)) as E by (rewrite <- Hbuf at 1; by rewrite take_drop).
  split; [exists (drop (length d) (drop 4 buf)); rewrite <- E; split; [rewrite length_drop; lia | done] |]. intros Hc. rewrite H, E. by apply handle_complete.
Qed.

(** The server has answered, and the data are set. *)
Definition got_handle (v3 : bool) (path : list Z) (clnt : client) (s s' : nfs) (new : list (ncall * nanswer)) : Prop :=
  ∃ d, answered clnt (mount_message stale MNTPROC_MNT (if v3 then NFS_MNT3_VERSION else NFS_MNT_VERSION) path) d s' new ∧
    has_handle v3 d (mount_data s') ∧ has_flag (d_flags (mount_data s')) NFS_MOUNT_KLIBC_RONLY = has_flag (d_flags (mount_data s)) NFS_MOUNT_KLIBC_RONLY.

(** The answer to the call says that its handle is longer than a handle can
    be. *)
Definition announces (path : list Z) (clnt : client) (s : nfs) : Prop :=
  ∃ s', mount_call oracle stale MNTPROC_MNT NFS_MNT3_VERSION path clnt s = Ret (0, s') ∧ NFS_MAXFHSIZE_WIRE < u32 (be (take 4 (drop 32 (mnt_reply s')))).

Lemma take_overwrite old new : take (length new) (overwrite old new) = new.
Proof using Type. unfold overwrite. apply take_app_length. Qed.

Lemma mount_v2_does path clnt s : reply_ok s → Z.of_nat (length path) < 2 ^ 30 →
  does (mount_v2 oracle stale path clnt) s (λ ret new s', quiet new ∧ (ret = 0 ∧ got_handle false path clnt s s' new ∨ ret = -1)).
Proof using Type.
  clear Hstack. intros Hs Hp. unfold mount_v2. eapply logged_bind; [by apply mount_call_does |]. intros ret s1 new Hs1 (Hq & Hd & Hres).
  destruct Hres as [[-> Hans] | ->].
  - change (0 =? 0) with true. cbv iota. eapply (logged_bind _ _ _ (λ _ new' s', new' = [] ∧ mnt_reply s' = mnt_reply s1 ∧
      mount_data s' = set_root (overwrite (d_old_root (mount_data s1)) (take 32 (drop 32 (mnt_reply s1)))) NFS_FHSIZE (overwrite (d_root (mount_data s1)) (take 32 (drop 32 (mnt_reply s1)))) (mount_data s1))).
    + apply logged_get. change (of_option (offsetof mount_reply ["fh"%string])) with (mret (M := prog nfs) (32, nfs_fh_wire)). eapply (logged_bind _ _ _ (λ r new' s', r = (32, nfs_fh_wire) ∧ new' = [] ∧ s' = s1)); [by apply logged_ret |].
      intros ? s2 new2 Hs2 (-> & -> & ->). rewrite bytes_at_in by (unfold NFS_FHSIZE, reply_ok in *; lia). cbn [of_option].
      eapply logged_weaken; [by apply modify_does |]. by intros _ new3 s3 [-> ->].
    + intros _ s2 new2 Hs2 (-> & Hm & Hdata). apply logged_ret; [done |]. rewrite !app_nil_r. split; [done |]. left. split; [done |].
      destruct (Hans eq_refl) as (d & Hr & Hl & Hst & Hbuf). exists d. split; [by rewrite <- Hm in Hbuf |]. split; [| by rewrite Hdata, <- Hd].
      apply (buffer_handle _ _ (mnt_reply s1)); [done | lia | done |]. rewrite Hdata. cbn [d_root_size d_root set_root]. assert (length (take 32 (drop 32 (mnt_reply s1))) = 32%nat) as H32 by (unfold reply_ok in Hs1; rewrite length_take, length_drop; lia).
      change (Z.to_nat NFS_FHSIZE) with 32%nat. rewrite <- H32 at 1. rewrite take_overwrite. unfold handle. by rewrite drop_drop.
  - change (-1 =? 0) with false. cbv iota. eapply (logged_bind _ _ _ (λ _ new' _, new' = [])); [by apply logged_ret |]. intros _ s2 new2 Hs2 ->. apply logged_ret; [done |]. rewrite !app_nil_r. split; [done | by right].
Qed.

Lemma lor_ronly f : has_flag (Z.lor f NFS_MOUNT_VER3) NFS_MOUNT_KLIBC_RONLY = has_flag f NFS_MOUNT_KLIBC_RONLY.
Proof using Type. unfold has_flag. rewrite Z.land_lor_distr_l. change (Z.land NFS_MOUNT_VER3 NFS_MOUNT_KLIBC_RONLY) with 0. by rewrite Z.lor_0_r. Qed.

Lemma store_handle_runs s : reply_ok s → let size := u32 (be (take 4 (drop 32 (mnt_reply s)))) in
  store_handle s = if size <=? NFS_MAXFHSIZE_WIRE
    then Ret (tt, set_data (set_flags (Z.lor (d_flags (mount_data s)) NFS_MOUNT_VER3) (set_root (replicate 32 0) size (overwrite (replicate 64 0) (take (Z.to_nat size) (drop 36 (mnt_reply s)))) (mount_data s))) s)
    else Fault.
Proof using Type.
  clear Hstack. intros Hs size. assert (0 <= size) as H0 by (by apply Z.mod_pos_bound). unfold reply_ok in Hs. unfold store_handle. change (field mount_reply ["fh"; "size"]%string) with (λ l, bytes_at l 32 4).
  unfold get_st. unfold mbind at 1, prog_bind at 1. cbv beta iota. rewrite bytes_at_in by lia. cbn [of_option]. unfold mbind at 1, prog_bind at 1. unfold mret at 1, prog_ret at 1. cbv beta iota.
  change (of_option (offsetof mount_reply ["fh"; "data"]%string)) with (mret (M := prog nfs) (36, Arr (Int 1) 64)). unfold mbind at 1, prog_bind at 1. unfold mret at 1, prog_ret at 1. cbv beta iota.
  change (take (Z.to_nat 4) (drop (Z.to_nat 32) (mnt_reply s))) with (take 4 (drop 32 (mnt_reply s))). fold size.
  destruct (Z.leb_spec size NFS_MAXFHSIZE_WIRE) as [Hle | Hgt]; [| done]. unfold NFS_MAXFHSIZE_WIRE in Hle. rewrite bytes_at_in by lia. cbn [of_option]. unfold mbind at 1, prog_bind at 1. unfold mret at 1, prog_ret at 1. cbv beta iota.
  unfold modify. change (Z.to_nat NFS_FHSIZE) with 32%nat. change (Z.to_nat 36) with 36%nat. by rewrite (wrapu_small 16) by (unfold in_u; lia).
Qed.

Lemma mount_v3_does path clnt s : reply_ok s → Z.of_nat (length path) < 2 ^ 30 →
  does (mount_v3 oracle stale path clnt) s (λ ret new s', quiet new ∧ (ret = 0 ∧ got_handle true path clnt s s' new ∨ ret = -1)) ∨
  mount_v3 oracle stale path clnt s = Fault ∧ announces path clnt s.
Proof using Type.
  clear Hstack. intros Hs Hp. unfold mount_v3. destruct (mount_call_does MNTPROC_MNT NFS_MNT3_VERSION path clnt s Hs Hp) as (ret & s1 & new & E & Ht & Hs1 & Hq & Hd & Hres).
  unfold logged. rewrite (pbind_ok _ _ _ _ _ E). destruct Hres as [[-> Hans] | ->].
  - change (0 =? 0) with true. cbv iota. pose proof (store_handle_runs s1 Hs1) as Hrun. set (size := u32 (be (take 4 (drop 32 (mnt_reply s1))))) in *. cbv zeta in Hrun.
    assert (0 <= size) as H0 by (by apply Z.mod_pos_bound).
    destruct (Z.leb_spec size NFS_MAXFHSIZE_WIRE) as [Hle | Hgt]; [left | right; split; [by rewrite (pbind_fault _ _ _ Hrun) | by exists s1]].
    set (data := set_flags _ _) in Hrun. rewrite (pbind_ok _ _ _ _ _ Hrun). exists 0, (set_data data s1), new. split_and!; [done | done | done | done |]. left. split; [done |].
    destruct (Hans eq_refl) as (d & Hr & Hl & Hst & Hbuf). exists d. split; [done |]. split; [| cbn; rewrite lor_ronly; by rewrite Hd].
    apply (buffer_handle _ _ (mnt_reply s1)); [done | lia | done |]. cbn [mount_data set_data data set_flags set_root d_root_size d_root]. unfold handle. rewrite !drop_drop. fold size.
    unfold NFS_MAXFHSIZE_WIRE in Hle. set (fh := take (Z.to_nat size) (drop 36 (mnt_reply s1))). assert (length fh = Z.to_nat size) as Hfh by (unfold fh, reply_ok in *; rewrite length_take, length_drop; lia).
    change (take (Z.to_nat size) (drop (4 + 32) (mnt_reply s1))) with fh. rewrite <- Hfh. apply take_overwrite.
  - left. exists (-1), s1, new. split_and!; [done | done | done | done | by right].
Qed.

(** ** The call to the kernel *)

Lemma kernel_mount_does pathname hostname server path s : reply_ok s →
  does (kernel_mount oracle getpid pathname hostname server path) s (λ res new s', ∃ pre,
    quiet pre ∧ (res.1 = false ∧ (new = pre ∨ ∃ fl data a, new = pre ++ [(NMount pathname path fl data, (-1, a))]) ∨
    res.1 = true ∧ ∃ data k a, new = pre ++ [(NMount pathname path (if has_flag (d_flags (mount_data s)) NFS_MOUNT_KLIBC_RONLY then MS_RDONLY else 0) data, (k, a))] ∧ k ≠ -1 ∧
      d_root_size data = d_root_size (mount_data s) ∧ d_root data = d_root (mount_data s))).
Proof using Type.
  clear Hstack. intros Hs. unfold kernel_mount. apply logged_get. set (c := NSocket _). eapply logged_bind; [apply on_net_does; [done | apply ndo_calls] |]. intros a s1 new1 Hs1 (-> & Hd1 & _).
  assert (quiet [(c, a)]) as Hq1 by by apply quiet_one.
  destruct (a.1 =? -1); [apply logged_ret; [done |]; rewrite app_nil_r; exists [(c, a)]; split; [done | left; split; [done | by left]] |].
  eapply logged_bind; [apply on_net_does; [done | apply bindresvport_quiet] |]. intros b s2 new2 Hs2 ((Hq2 & _) & Hd2 & _). pose proof (quiet_app _ _ Hq1 Hq2) as Hq.
  destruct (b =? -1); [apply logged_ret; [done |]; rewrite app_nil_r; eexists; split; [exact Hq | left; split; [done | by left]] |].
  apply logged_get. set (host := take _ _). set (d0 := set_target _ _ _ _). set (fl := if has_flag _ NFS_MOUNT_KLIBC_RONLY then MS_RDONLY else 0). set (data := set_flags _ _).
  eapply logged_bind; [by apply modify_does |]. intros _ s3 new3 Hs3 [-> ->].
  eapply logged_bind; [apply on_net_does; [done | apply ndo_calls] |]. intros [k ans] s4 new4 Hs4 (-> & _). apply logged_ret; [done |]. rewrite app_nil_l, app_nil_r, app_assoc.
  exists ([(c, a)] ++ new2). split; [done |]. cbn [fst]. destruct (Z.eqb_spec k (-1)) as [-> | Hk]; cbn [negb].
  - left. split; [done |]. right. by exists fl, data, ans.
  - right. split; [done |]. exists data, k, ans. unfold same_data in *. assert (mount_data s2 = mount_data s) as E2 by congruence. unfold fl, data, d0. rewrite E2. by split_and!.
Qed.

(** ** Mounting *)

(** The mount server at [server] was asked for the handle of [rem_path] on a
    new connection: the call of procedure MNT for this path was sent there, and
    then [d] was read, a reply to it without an error. *)
Definition exchanged (server prt : Z) (v3 : bool) (rem_path d : list Z) (new : list (ncall * nanswer)) : Prop :=
  ∃ clnt pre post, new = pre ++ post ∧ connected clnt server prt pre ∧
    asked clnt (mount_message stale MNTPROC_MNT (if v3 then NFS_MNT3_VERSION else NFS_MNT_VERSION) rem_path) d post ∧ take 4 (drop 24 d) = be32 0.

(** What has happened when [nfs_mount] returns: no mount succeeded, or exactly
    one did, with the right flags, and with the handle of the answer that the
    server gave to the call for [rem_path]. *)
Definition mount_outcome (mport server : Z) (pathname rem_path path : list Z) (v3 ronly : bool) (ret : Z) (new : list (ncall * nanswer)) : Prop :=
  ret = -1 ∧ Forall (λ x, is_mount x = true → x.2.1 = -1) new ∨
  ret = 0 ∧ ∃ pre data k a post, new = pre ++ (NMount pathname path (if ronly then MS_RDONLY else 0) data, (k, a)) :: post ∧ quiet pre ∧ quiet post ∧ k ≠ -1 ∧
    ∃ d prt, exchanged server prt v3 rem_path d pre ∧ (mport ≠ 0 → prt = u16 mport) ∧ has_handle v3 d data.

Lemma quiet_fails l : quiet l → Forall (λ x, is_mount x = true → x.2.1 = -1) l.
Proof using Type. intros H. eapply Forall_impl; [exact H |]. intros x Hx Hm. by rewrite Hx in Hm. Qed.

Lemma exchanged_app server prt v3 rem_path d a b e : exchanged server prt v3 rem_path d b → exchanged server prt v3 rem_path d (a ++ b ++ e).
Proof using Type.
  intros (clnt & pre & post & -> & (an & Hl & Ha) & Hask & Hst). exists clnt, (a ++ pre), (post ++ e). split_and!; [by rewrite <- !app_assoc | exists an; by rewrite last_app, Hl | | done].
  by apply (asked_app _ _ _ []).
Qed.

Lemma outcome_quiet mport server pathname rem_path path v3 ronly ret b c : quiet c → mount_outcome mport server pathname rem_path path v3 ronly ret b → mount_outcome mport server pathname rem_path path v3 ronly ret (b ++ c).
Proof using Type.
  intros Hc [[-> H] | (-> & pre & data & k & an & post & -> & Hpre & Hpost & H)].
  - left. split; [done |]. apply Forall_app_2; [done | by apply quiet_fails].
  - right. split; [done |]. exists pre, data, k, an, (post ++ c). rewrite <- app_assoc. split; [done |]. split; [done |]. split; [by apply quiet_app | exact H].
Qed.

(** The server has answered during the calls [l], and the data have the
    handle. *)
Definition prepared (mport server : Z) (rem_path : list Z) (v3 ronly : bool) (s : nfs) (l : list (ncall * nanswer)) : Prop :=
  has_flag (d_flags (mount_data s)) NFS_MOUNT_KLIBC_RONLY = ronly ∧
  ∃ d prt, exchanged server prt v3 rem_path d l ∧ (mport ≠ 0 → prt = u16 mport) ∧ has_handle v3 d (mount_data s).

(** After the answer of the server *)
Lemma rest_does mport pathname hostname server rem_path path clnt v3 ronly s ret a0 : reply_ok s → Z.of_nat (length path) < 2 ^ 30 → quiet a0 →
  (ret = 0 ∧ prepared mport server rem_path v3 ronly s a0 ∨ ret = -1) →
  does ('(ok, sock) ← (if ret =? -1 then mret (false, -1) else kernel_mount oracle getpid pathname hostname server path);
        (if negb (ret =? -1) && negb ok then umount_call oracle stale path clnt else mret 0);;
        on_net (client_free oracle clnt);;
        (if negb (sock =? -1) then on_net (ndo oracle (NClose sock));; mret tt else mret tt);;
        mret (if ok : bool then 0 else -1)) s
    (λ ret new _, mount_outcome mport server pathname rem_path path v3 ronly ret (a0 ++ new)).
Proof using Type.
  clear Hstack. intros Hs Hp Ha0 Hret.
  eapply (logged_bind _ _ _ (λ res new _, mount_outcome mport server pathname rem_path path v3 ronly (if res.1 : bool then 0 else -1) (a0 ++ new))).
  { destruct Hret as [[-> [Hro (d & prt & Hx & Hpt & Hh)]] | ->].
    - change (0 =? -1) with false. cbv iota. eapply logged_weaken; [by apply kernel_mount_does |]. intros [ok sock] new s1 (pre & Hpre & H). cbn [fst] in *.
      destruct H as [[-> H] | (-> & data & k & an & -> & Hk & Hsz & Hroot)].
      + left. split; [done |]. apply Forall_app. split; [by apply quiet_fails |]. destruct H as [-> | (fl & data & an & ->)]; [by apply quiet_fails |]. apply Forall_app. split; [by apply quiet_fails |]. by apply Forall_singleton.
      + right. split; [done |]. exists (a0 ++ pre), data, k, an, []. rewrite Hro, <- app_assoc. split_and!; [done | by apply quiet_app | constructor | done |].
        exists d, prt. split_and!; [by apply (exchanged_app _ _ _ _ _ []) | done |]. unfold has_handle in *. by rewrite Hsz, Hroot.
    - change (-1 =? -1) with true. cbv iota. apply logged_ret; [done |]. rewrite app_nil_r. left. split; [done | by apply quiet_fails]. }
  intros [ok sock] s1 new1 Hs1 Hout. cbn [fst] in Hout.
  eapply (logged_bind _ _ _ (λ _ new _, quiet new)).
  { destruct (_ && _); [| apply logged_ret; [done | constructor]]. unfold umount_call. apply logged_get. eapply logged_weaken; [by apply mount_call_does |]. by intros ? new ? [H _]. }
  intros _ s2 new2 Hs2 Hq2. eapply logged_bind; [apply on_net_does; [done | apply client_free_quiet] |]. intros _ s3 new3 Hs3 (Hq3 & _).
  eapply (logged_bind _ _ _ (λ _ new _, quiet new)).
  { destruct (negb (sock =? -1)); [| apply logged_ret; [done | constructor]]. eapply logged_bind; [apply on_net_does; [done | by apply ndo_quiet] |]. intros _ s4 new4 Hs4 (Hq4 & _). apply logged_ret; [done |]. by rewrite app_nil_r. }
  intros _ s4 new4 Hs4 Hq4. apply logged_ret; [done |]. rewrite app_nil_r, app_assoc. apply outcome_quiet; [by repeat apply quiet_app | done].
Qed.

(** The answer to the call of [nfs_mount] announces a handle of version 3 that
    is too long. *)
Definition oversized (server : Z) (rem_path : list Z) (s : nfs) : Prop :=
  ∃ s1 s2 clnt, get_ports oracle getpid stack server s = Ret (true, s1) ∧
    on_net (make_client oracle getpid (has_flag (d_flags (mount_data s1)) NFS_MOUNT_TCP) server (mount_port s1) CLI_RESVPORT) s1 = Ret (Some clnt, s2) ∧ announces rem_path clnt s2.

Lemma nfs_mount_does pathname hostname server rem_path path s : reply_ok s → Z.of_nat (length path) < 2 ^ 30 → Z.of_nat (length rem_path) < 2 ^ 30 →
  let v3 := has_flag (d_flags (mount_data s)) NFS_MOUNT_VER3 in
  let ronly := has_flag (d_flags (mount_data s)) NFS_MOUNT_KLIBC_RONLY in
  does (nfs_mount oracle getpid stale stack pathname hostname server rem_path path) s (λ ret new _, mount_outcome (mount_port s) server pathname rem_path path v3 ronly ret new) ∨
  nfs_mount oracle getpid stale stack pathname hostname server rem_path path s = Fault ∧ v3 = true ∧ oversized server rem_path s.
Proof using Hstack.
  intros Hs Hp Hrp v3 ronly. unfold nfs_mount. destruct (get_ports_does server s Hs) as (ports & s1 & a1 & E1 & Ht1 & Hs1 & Hq1 & Hd1 & Hk1).
  assert (∀ l, quiet l → mount_outcome (mount_port s) server pathname rem_path path v3 ronly (-1) l) as Hneg by (intros l Hl; left; split; [done | by apply quiet_fails]).
  unfold logged at 1. rewrite (pbind_ok _ _ _ _ _ E1). destruct ports; cbn [negb]; [| left; exists (-1), s1, a1; split_and!; [done | done | done | by apply Hneg]].
  erewrite pbind_ok by done.
  destruct (on_net_does _ s1 _ Hs1 (make_client_does (has_flag (d_flags (mount_data s1)) NFS_MOUNT_TCP) server (mount_port s1) CLI_RESVPORT (nnet s1))) as (c & s2 & a2 & E2 & Ht2 & Hs2 & (Hq2 & Hcon) & Hd2 & _).
  rewrite (pbind_ok _ _ _ _ _ E2). pose proof (quiet_app _ _ Hq1 Hq2) as Hq12.
  destruct c as [clnt |]; [| left; exists (-1), s2, (a1 ++ a2); split_and!; [done | by rewrite Ht2, Ht1, app_assoc | done | by apply Hneg]].
  destruct (Hcon clnt eq_refl) as [_ Hconn]. rewrite Hd1. fold v3. assert (d_flags (mount_data s2) = d_flags (mount_data s)) as Hfl by congruence.
  assert (does (if v3 then mount_v3 oracle stale rem_path clnt else mount_v2 oracle stale rem_path clnt) s2 (λ ret new s', quiet new ∧ (ret = 0 ∧ got_handle v3 rem_path clnt s2 s' new ∨ ret = -1)) ∨
    (if v3 then mount_v3 oracle stale rem_path clnt else mount_v2 oracle stale rem_path clnt) s2 = Fault ∧ v3 = true ∧ announces rem_path clnt s2) as [H | (E3 & Hv & Hov)].
  { destruct v3; [destruct (mount_v3_does rem_path clnt s2 Hs2 Hrp) as [H | [H1 H2]]; [by left | by right] | left; by apply mount_v2_does]. }
  - left. destruct H as (ret & s3 & a3 & E3 & Ht3 & Hs3 & Hq3 & Hres). rewrite (pbind_ok _ _ _ _ _ E3).
    assert (ret = 0 ∧ prepared (mount_port s) server rem_path v3 ronly s3 ((a1 ++ a2) ++ a3) ∨ ret = -1) as Hprep.
    { destruct Hres as [[-> (d & (Hask & _ & Hst & _) & Hh & Hro)] | ->]; [left; split; [done |] | by right]. rewrite Hfl in Hro. split; [done |]. exists d, (u16 (mount_port s1)). split_and!; [| by intros Hne; rewrite Hk1 | done].
      exists clnt, (a1 ++ a2), a3. split_and!; [done | | done | done]. destruct Hconn as (an & Hl & Han). exists an. by rewrite last_app, Hl. }
    destruct (rest_does (mount_port s) pathname hostname server rem_path path clnt v3 ronly s3 ret ((a1 ++ a2) ++ a3) Hs3 Hp (quiet_app _ _ Hq12 Hq3) Hprep) as (r & s4 & a4 & E4 & Ht4 & Hs4 & Hout).
    exists r, s4, (((a1 ++ a2) ++ a3) ++ a4). split_and!; [exact E4 | by rewrite Ht4, Ht3, Ht2, Ht1, <- !app_assoc | done | done].
  - right. split; [by rewrite (pbind_fault _ _ _ E3) |]. split; [done |]. by exists s1, s2, clnt.
Qed.
End proofs.

(** C24.  [nfs_mount] ends, whatever the servers and the kernel do: with -1,
    and then no mount succeeded, or with 0, and then exactly one did, read-only
    if the option says so.  Before it, a socket was connected to the server (to
    the port of the mount server, if it was given), the call of procedure MNT
    for [rem_path] was sent to it whole, with a transaction number, and then
    a reply with this number and without an error was read from it.  The data
    of the mount have the handle of this reply; of a reply that is too short
    for its handle the missing bytes are those that were in the buffer before.
    The only other end is an overrun, when the reply to this call announces a
    handle of version 3 that is longer than 64 bytes. *)
Theorem nfs_mounted oracle getpid stale stack pathname hostname server rem_path path s :
  length stack = 32%nat → reply_ok s → Z.of_nat (length path) < 2 ^ 30 → Z.of_nat (length rem_path) < 2 ^ 30 →
  let v3 := has_flag (d_flags (mount_data s)) NFS_MOUNT_VER3 in
  let ronly := has_flag (d_flags (mount_data s)) NFS_MOUNT_KLIBC_RONLY in
  match nfs_mount oracle getpid stale stack pathname hostname server rem_path path s with
  | Ret (ret, s') => ∃ new, trace (nnet s') = trace (nnet s) ++ new ∧ mount_outcome stale (mount_port s) server pathname rem_path path v3 ronly ret new
  | Exit _ => False
  | Fault => v3 = true ∧ oversized oracle getpid stale stack server rem_path s
  end.
Proof.
  intros Hstack Hs Hp Hrp v3 ronly.
  destruct (nfs_mount_does oracle getpid stale stack Hstack pathname hostname server rem_path path s Hs Hp Hrp) as [(ret & s' & new & -> & Ht & _ & H) | (-> & Hv & Ho)]; [by exists new | done].
Qed.

(** ** The program *)

Section program.
Context (oracle : list (ncall * nanswer) → ncall → nanswer) (getpid : Z) (stale : nat → list Z) (stack : list Z).
Context (stat : list Z → option Z) (start_dummy_portmap : list Z → Z).
Abbreviation does := (logged (λ s : nfs, trace (nnet s)) reply_ok).

Lemma parse_opt_does cp s : reply_ok s → does (parse_opt cp) s (λ _ new _, new = []).
Proof using Type.
  intros Hs. unfold parse_opt. destruct (split_equals cp) as [[name val] |].
  - destruct (list_find _ int_opts) as [[k ?] |]; [| by apply logged_ret]. destruct (parse_int val) as [v |]; [| by apply logged_ret].
    eapply (logged_bind _ _ _ (λ _ new _, new = [])); [eexists _, _, []; rewrite app_nil_r; by split_and! |]. intros _ s1 new Hs1 ->. by apply logged_ret.
  - destruct (list_find _ bool_opts) as [[k [[x am] om]] |]; [| by apply logged_ret].
    eapply (logged_bind _ _ _ (λ _ new _, new = [])); [eexists _, _, []; rewrite app_nil_r; by split_and! |]. intros _ s1 new Hs1 ->. by apply logged_ret.
Qed.

Lemma parse_opts_does cps : ∀ s, reply_ok s → does (parse_opt_list cps) s (λ _ new _, new = []).
Proof using Type.
  induction cps as [| cp cps IH]; intros s Hs; [by apply logged_ret |]. cbn [parse_opt_list].
  eapply (logged_bind _ _ _ (λ _ new _, new = [])); [destruct cp; [by apply logged_ret | by apply parse_opt_does] |].
  intros ok s1 new Hs1 ->. destruct ok; [by apply IH | by apply logged_ret].
Qed.

Lemma run_options_does es : ∀ file s, reply_ok s → does (run_options es file) s (λ _ new _, new = []).
Proof using Type.
  induction es as [| e es IH]; intros file s Hs; [by apply logged_ret |]. cbn [run_options]. destruct e as [c [optarg |] | | |]; try by apply logged_ret.
  destruct (c =? 111); [| by apply IH]. eapply logged_bind; [by apply parse_opts_does |]. intros ok s1 new Hs1 ->. destruct ok; [by apply IH | by apply logged_ret].
Qed.

(** Whether a mount succeeded, and then only one *)
Definition program_outcome (ret : Z) (new : list (ncall * nanswer)) : Prop :=
  ret = 1 ∧ Forall (λ x, is_mount x = true → x.2.1 = -1) new ∨
  ret = 0 ∧ ∃ pre x post, new = pre ++ x :: post ∧ quiet pre ∧ quiet post ∧ is_mount x = true ∧ x.2.1 ≠ -1.

Lemma split_colon_length l a b : split_colon l = Some (a, b) → (length b <= length l)%nat.
Proof using Type.
  revert a b. induction l as [| c l IH]; intros a b E; [done |]. cbn [split_colon] in E. destruct (c =? 58); [injection E as <- <-; simpl; lia |].
  destruct (split_colon l) as [[a' b'] |] eqn:El; [| done]. injection E as <- <-. specialize (IH _ _ eq_refl). simpl. lia.
Qed.

Lemma events_operands opts n cl rest es ops : Getopt.events opts n cl rest = Some (es, ops) → ops ⊆ rest.
Proof using Type.
  revert cl rest es ops. induction n as [| n IH]; intros cl rest es ops E; [done |]. cbn [Getopt.events] in E.
  destruct (Getopt.next_event opts cl rest) as [e [cl' rest']] eqn:En.
  assert (rest' ⊆ rest) as Hsub.
  { unfold Getopt.next_event, Getopt.letter in En. repeat case_match; simplify_eq; intros x Hx; first [exact Hx | by apply elem_of_nil in Hx | by right | by right; right]. }
  destruct e; [| | | by injection E as <- <-]; (destruct (Getopt.events opts n cl' rest') as [[es' ops'] |] eqn:E'; [| done]; cbn in E; injection E as <- <-; intros x Hx; apply Hsub; by apply (IH _ _ _ _ E')).
Qed.

Lemma outcome_program mport server pathname rem_path path v3 ronly ret new : mount_outcome stale mport server pathname rem_path path v3 ronly ret new → program_outcome (if negb (ret =? 0) then 1 else 0) new.
Proof using Type.
  intros [[-> H] | (-> & pre & data & k & a & post & -> & Hpre & Hpost & Hk & _)]; [by left |]. right. split; [done |]. by eexists pre, _, post.
Qed.

(** The program mounts once and returns 0, or does not mount and returns 1. *)
Theorem nfsmount_main_outcome argv s : length stack = 32%nat → reply_ok s → Forall (λ a : list Z, Z.of_nat (length a) < 2 ^ 30) argv →
  match nfsmount_main oracle getpid stale stack stat start_dummy_portmap argv s with
  | Ret (ret, s') => ∃ new, trace (nnet s') = trace (nnet s) ++ new ∧ program_outcome ret new
  | Exit _ => False
  | Fault => ∃ server rem_path s1, oversized oracle getpid stale stack server rem_path s1
  end.
Proof using Type.
  intros Hstack Hs Hargv. unfold nfsmount_main. set (args := drop 1 argv).
  destruct (Getopt.events_total (text "o:p:") (S (Getopt.work [] args)) [] args ltac:(lia)) as (es & ops & Eev). rewrite Eev. cbn [of_option]. erewrite pbind_ok by done.
  destruct (run_options_does es None s Hs) as (file & s1 & new1 & E1 & Ht1 & Hs1 & ->). rewrite (pbind_ok _ _ _ _ _ E1). rewrite app_nil_r in Ht1.
  assert (∃ new, trace (nnet s1) = trace (nnet s) ++ new ∧ program_outcome 1 new) as Hone by (exists []; rewrite app_nil_r; split; [done | left; split; [done | constructor]]).
  assert (∀ a, a ∈ ops → Z.of_nat (length a) < 2 ^ 30) as Hlen.
  { intros a Ha. apply (events_operands _ _ _ _ _ _ Eev) in Ha. rewrite Forall_forall in Hargv. apply Hargv. rewrite <- (take_drop 1 argv). apply elem_of_app. by right. }
  destruct file as [file |]; [| exact Hone]. destruct ops as [| rem_name ops]; [exact Hone |]. destruct (split_colon rem_name) as [[hostname rem_path] |] eqn:Ec; [| exact Hone].
  destruct (negb _); [exact Hone |]. set (path := match ops with path :: _ => path | [] => text "/nfs_root" end). destruct (Ipparse.parse_addr hostname) as [server |]; [| exact Hone]. destruct (stat path) as [mode |]; [| exact Hone].
  destruct (negb _); [exact Hone |]. destruct (_ =? -1); [exact Hone |].
  assert (Z.of_nat (length path) < 2 ^ 30) as Hp by (unfold path; destruct ops as [| p ops]; [done | apply Hlen; by right; left]).
  assert (Z.of_nat (length rem_path) < 2 ^ 30) as Hrp. { apply split_colon_length in Ec. specialize (Hlen rem_name ltac:(by left)). lia. }
  destruct (nfs_mount_does oracle getpid stale stack Hstack rem_name hostname server rem_path path s1 Hs1 Hp Hrp) as [(ret & s2 & new & E2 & Ht2 & _ & Hout) | (E2 & _ & Hov)].
  - rewrite (pbind_ok _ _ _ _ _ E2). exists new. rewrite Ht2, Ht1. split; [done |]. by eapply outcome_program.
  - rewrite (pbind_fault _ _ _ E2). by exists server, rem_path, s1.
Qed.
End program.

(** ** An example: version 2 over UDP, with known ports *)

Definition example_server (l : list (ncall * nanswer)) (c : ncall) : nanswer :=
  match c with
  | NSocket _ => (3, [])
  | NWrite _ data => (Z.of_nat (length data), [])
  | NPoll _ _ => (1, [])
  | NMalloc _ => (1, [])
  | NRead _ n => (60, take 4 (last_sent l) ++ be32 RPC_REPLY ++ replicate 16 0 ++ be32 0 ++ replicate 32 7)
  | _ => (0, [])
  end.
Definition example_nfs : nfs := mk_nfs example_net 2049 700 (replicate 100 0) (set_flags NFS_MOUNT_KLIBC_RONLY initial_data).

(** The handle and the flags of the last mount *)
Definition mounted_with (r : outcome (Z * nfs)) : option (Z * Z * list Z) :=
  match r with
  | Ret (ret, s) => foldl (λ o x, match x.1 with NMount _ _ fl d => Some (ret, fl, take (Z.to_nat (d_root_size d)) (d_root d)) | _ => o end) None (trace (nnet s))
  | _ => None
  end.

Lemma nfs_mounted_witness : ∃ ret s', nfs_mount example_server 5 (λ _, []) (replicate 32 0) (text "1.2.3.4:/r") (text "1.2.3.4") 0x04030201 (text "/r") (text "/root") example_nfs = Ret (ret, s') ∧
  mounted_with (Ret (ret, s')) = Some (0, MS_RDONLY, replicate 32 7).
Proof.
  pose proof (nfs_mounted example_server 5 (λ _, []) (replicate 32 0) (text "1.2.3.4:/r") (text "1.2.3.4") 0x04030201 (text "/r") (text "/root") example_nfs eq_refl eq_refl eq_refl eq_refl) as H.
  destruct (nfs_mount example_server 5 _ _ _ _ _ _ _ example_nfs) as [[ret s'] | |] eqn:E; [| destruct H | destruct H; discriminate].
  exists ret, s'. split; [reflexivity |]. rewrite <- E. vm_compute. reflexivity.
Defined.
