(* ===== verification/Ramdisk.v ===== *)
(** * RAM disks: [kinit/xpio.c], the copying of [kinit/initrd.c] and
      [kinit/ramdisk_load.c]

    Files are lists of bytes.  What the kernel does with the [k]-th call is an
    answer of an oracle: it serves a number of bytes of its choice, fails, or
    is interrupted.

    The theorems: the initial RAM disk is copied whole, for every division of
    the reads and writes; a RAM disk on several disks is loaded with exactly
    the bytes of the file system; a compressed one with what the decoder makes
    of the bytes of the disks, in order, across buffers and disks. *)

From stdpp Require Import base numbers list.
From Stdlib Require Import Lia.
From S2P Require Import Prelude.

Inductive answer := Serve (n : nat) | Failure | Interrupt.

Definition BUF_SIZE : Z := 65536.

(** Writing [d] at [i] *)
Definition splice (l : list Z) (i : nat) (d : list Z) : list Z := take i l ++ d ++ drop (i + length d) l.

Section io.
Context (oracle : nat → answer).

(** ** [pread] and [pwrite] that go on *)

(** The state of the loop: the buffer and the place in it, what is left, the
    offset, the sum and the last result; [k] counts the calls. *)
Fixpoint xpread_loop (fuel k : nat) (file buf : list Z) (bp count offset ctr rv : Z) : option (Z * list Z * nat) :=
  match fuel with
  | O => None
  | S fuel =>
      let result (rv : Z) := Some (if negb (ctr =? 0) then ctr else rv, buf, k) in
      if count =? 0 then result rv
      else if offset <? 0 then Some (if negb (ctr =? 0) then ctr else -1, buf, S k)
      else
        match oracle k with
        | Failure => Some (if negb (ctr =? 0) then ctr else -1, buf, S k)
        | Interrupt => xpread_loop fuel (S k) file buf (bp - 1) (u64 (count + 1)) (offset - 1) (ctr - 1) (-1)
        | Serve n =>
            let d := take (Nat.min n (Z.to_nat count)) (drop (Z.to_nat offset) file) in
            let rv := Z.of_nat (length d) in
            if rv =? 0 then Some (if negb (ctr =? 0) then ctr else 0, buf, S k)
            else if (0 <=? bp) && (bp + rv <=? Z.of_nat (length buf))
            then xpread_loop fuel (S k) file (splice buf (Z.to_nat bp) d) (bp + rv) (u64 (count - rv)) (offset + rv) (ctr + rv) rv
            else None
        end
  end.
Definition xpread (fuel k : nat) (file buf : list Z) (count offset : Z) : option (Z * list Z * nat) := xpread_loop fuel k file buf 0 count offset 0 0.

Fixpoint xpwrite_loop (fuel k : nat) (file buf : list Z) (bp count offset ctr rv : Z) : option (Z * list Z * nat) :=
  match fuel with
  | O => None
  | S fuel =>
      if count =? 0 then Some (if negb (ctr =? 0) then ctr else rv, file, k)
      else if offset <? 0 then Some (if negb (ctr =? 0) then ctr else -1, file, S k)
      else
        match oracle k with
        | Failure => Some (if negb (ctr =? 0) then ctr else -1, file, S k)
        | Interrupt => xpwrite_loop fuel (S k) file buf (bp - 1) (u64 (count + 1)) (offset - 1) (ctr - 1) (-1)
        | Serve n =>
            if (0 <=? bp) && (bp + count <=? Z.of_nat (length buf)) then
              (* a device takes what fits *)
              let room := (length file - Z.to_nat offset)%nat in
              let d := take (Nat.min n room) (take (Z.to_nat count) (drop (Z.to_nat bp) buf)) in
              let rv := Z.of_nat (length d) in
              if rv =? 0 then Some (if negb (ctr =? 0) then ctr else 0, file, S k)
              else xpwrite_loop fuel (S k) (splice file (Z.to_nat offset) d) buf (bp + rv) (u64 (count - rv)) (offset + rv) (ctr + rv) rv
            else None
        end
  end.
Definition xpwrite (fuel k : nat) (file buf : list Z) (count offset : Z) : option (Z * list Z * nat) := xpwrite_loop fuel k file buf 0 count offset 0 0.

(** ** The initial RAM disk *)

(** The loop from [bytes] down; the file is open for reading, so that
    [ftruncate] has no effect.  The result, the RAM disk and the calls *)
Fixpoint rd_copy_loop (fuel calls k : nat) (file ram buffer : list Z) (bytes : Z) : option (Z * list Z * nat) :=
  match fuel with
  | O => None
  | S fuel =>
      if bytes =? 0 then Some (0, ram, k)
      else
        let blocksize := Z.land (bytes - 1) (BUF_SIZE - 1) + 1 in
        let offset := bytes - blocksize in
        '(r, buffer, k) ← xpread calls k file buffer blocksize offset;
        if negb (r =? blocksize) then Some (-1, ram, k)
        else
          '(w, ram, k) ← xpwrite calls k ram buffer blocksize offset;
          if negb (w =? blocksize) then Some (-1, ram, k) else rd_copy_loop fuel calls k file ram buffer offset
  end.

(** [regular]: what [fstat] says of the file *)
Definition rd_copy_uncompressed (fuel calls k : nat) (regular : bool) (file ram buffer : list Z) : option (Z * list Z * nat) :=
  let bytes := Z.of_nat (length file) in
  if negb regular || (bytes =? 0) then Some (-1, ram, k) else rd_copy_loop fuel calls k file ram buffer bytes.

(** ** Disks *)

(** A disk that is in the drive: its bytes, and whether [BLKGETSIZE64] tells
    its size *)
Record medium := mk_medium { sized : bool; contents : list Z }.
Definition medium_size (m : medium) : Z := if sized m then Z.of_nat (length (contents m)) else 2 ^ 64 - 1.

(** The disk to read from at [start], [None] if the next one cannot be opened:
    at the end of a disk, which is compared as an unsigned number, the next is
    asked for and read from its start *)
Definition disk_at (m : medium) (media : list (option medium)) (start : Z) : option (medium * list (option medium) * Z) :=
  if medium_size m <=? u64 start
  then match media with Some m' :: media => Some (m', media, 0) | _ => None end
  else Some (m, media, start).

(** [pread] until it is not interrupted: the bytes, [None] for a failure; what
    is read at most, and the calls *)
Fixpoint read_again (fuel k : nat) (m : medium) (bytes start : Z) : option (option (list Z) * nat) :=
  match fuel with
  | O => None
  | S fuel =>
      if start <? 0 then Some (None, S k)
      else match oracle k with
      | Interrupt => read_again fuel (S k) m bytes start
      | Failure => Some (None, S k)
      | Serve n => Some (Some (take (Nat.min n (Z.to_nat bytes)) (drop (Z.to_nat start) (contents m))), S k)
      end
  end.

(** [load_ramdisk_raw]; [media] are the disks that follow, [None] if one cannot
    be opened.  The result and what was given to the stream *)
Fixpoint raw_loop (fuel calls k : nat) (m : medium) (media : list (option medium)) (start fssize : Z) (out : list Z) : option (Z * list Z) :=
  match fuel with
  | O => None
  | S fuel =>
      if fssize =? 0 then Some (0, out)
      else
        match disk_at m media start with
        | None => Some (-1, out)
        | Some (m, media, start) =>
            let left_ := Z.min (u64 (medium_size m - start)) fssize in
            let bytes := Z.min left_ BUF_SIZE in
            '(d, k) ← read_again calls k m bytes start;
            match d with
            | Some ((_ :: _) as d) => raw_loop fuel calls k m media (start + Z.of_nat (length d)) (u64 (fssize - Z.of_nat (length d))) (out ++ d)
            | _ => Some (1, out)
            end
        end
  end.
Definition load_ramdisk_raw (fuel calls : nat) (media : list (option medium)) (start fssize : Z) : option (Z * list Z) :=
  match media with
  | Some m :: media => raw_loop fuel calls 0 m media start fssize []
  | _ => Some (-1, [])
  end.

(** ** Compressed disks

    [inflate] is the decoder: from its state, the input that is there and the
    room in the output, it gives the result, how much input it took, the output
    and the new state. *)

Context {decoder : Type} (inflate : decoder → list Z → nat → Z * nat * list Z * decoder).

Definition Z_OK : Z := 0.
Definition Z_STREAM_END : Z := 1.
Definition Z_BUF_ERROR : Z := -5.

(** [input] and [output] are what is in the buffers; the result and what was
    given to the stream *)
Fixpoint inflate_loop (fuel calls k : nat) (zs : decoder) (m : medium) (media : list (option medium)) (start : Z) (input output out : list Z) : option (Z * list Z) :=
  match fuel with
  | O => None
  | S fuel =>
      (* [None]: the end with an error *)
      step ← (if (length output =? Z.to_nat BUF_SIZE)%nat then Some (Some (m, media, start, input, [], out ++ output, k))
              else match input with
                   | _ :: _ => Some (Some (m, media, start, input, output, out, k))
                   | [] =>
                       match disk_at m media start with
                       | None => Some None
                       | Some (m, media, start) =>
                           let bytes := Z.min (u64 (medium_size m - start)) BUF_SIZE in
                           '(d, k) ← read_again calls k m bytes start;
                           Some match d with
                                | Some ((_ :: _) as d) => Some (m, media, start + Z.of_nat (length d), d, output, out, k)
                                | _ => None
                                end
                       end
                   end);
      match step with
      | None => Some (-1, out)
      | Some (m, media, start, input, output, out, k) =>
          let '(rv, taken, made, zs) := inflate zs input (Z.to_nat BUF_SIZE - length output) in
          let input := drop taken input in
          let output := output ++ made in
          if (rv =? Z_OK) || (rv =? Z_BUF_ERROR) then inflate_loop fuel calls k zs m media start input output out
          else if negb (rv =? Z_STREAM_END) then Some (-1, out)
          else Some (0, out ++ output)
      end
  end.
(** [zs] is what [inflateInit2] gave, [None] if it failed *)
Definition load_ramdisk_compressed (fuel calls : nat) (zs : option decoder) (media : list (option medium)) (start : Z) : option (Z * list Z) :=
  match zs, media with
  | Some zs, Some m :: media => inflate_loop fuel calls 0 zs m media start [] [] []
  | _, _ => Some (-1, [])
  end.
End io.

(** ** Writing into a list *)

Lemma splice_nil l i : splice l i [] = l.
Proof. unfold splice. rewrite app_nil_l, Nat.add_0_r. apply take_drop. Qed.

Lemma splice_length l i d : (i + length d <= length l)%nat → length (splice l i d) = length l.
Proof. intros. unfold splice. rewrite !length_app, length_take, length_drop. lia. Qed.

Lemma splice_splice l i d e : (i + length d + length e <= length l)%nat → splice (splice l i d) (i + length d) e = splice l i (d ++ e).
Proof.
  intros Hl. unfold splice at 1 3. rewrite length_app. assert (length (take i l) = i) as Hi by (rewrite length_take; lia).
  assert (take (i + length d) (splice l i d) = take i l ++ d) as ->.
  { unfold splice. rewrite app_assoc. apply take_app_length'. rewrite length_app. lia. }
  assert (drop (i + length d + length e) (splice l i d) = drop (i + (length d + length e)) l) as ->.
  { unfold splice. rewrite <- drop_drop, app_assoc, (drop_app_length' (take i l ++ d)) by (rewrite length_app; lia). rewrite drop_drop. f_equal. lia. }
  by rewrite <- !app_assoc.
Qed.

(** A slice of a file *)
Definition slice (l : list Z) (i n : nat) : list Z := take n (drop i l).

Lemma length_slice l i n : (i + n <= length l)%nat → length (slice l i n) = n.
Proof. intros. unfold slice. rewrite length_take, length_drop. lia. Qed.

Lemma slice_slice l i n m : (m <= n)%nat → slice l i n = slice l i m ++ slice l (i + m) (n - m).
Proof. intros. unfold slice. rewrite <- drop_drop, <- (take_drop m (take n (drop i l))), take_take, skipn_firstn_comm. do 2 f_equal. lia. Qed.

Lemma splice_all l d : (length d = length l)%nat → splice l 0 d = d.
Proof. intros H. unfold splice. rewrite Nat.add_0_l, drop_ge by lia. by rewrite app_nil_r. Qed.

(** ** Reading and writing blocks *)

(** The kernel serves at least one byte with each call. *)
Definition steady (oracle : nat → answer) : Prop := ∀ k, ∃ n, oracle k = Serve (S n).

Section steady.
Context (oracle : nat → answer) (Hsteady : steady oracle).

Definition total (ctr count rv : Z) : Z := if negb (ctr + count =? 0) then ctr + count else rv.

Lemma xpread_loop_ok fuel : ∀ k file buf (bp count offset : nat) (ctr : Z) rv, 0 <= ctr → (bp + count <= length buf)%nat → (offset + count <= length file)%nat →
  (count < fuel)%nat → Z.of_nat count < 2 ^ 62 →
  ∃ k', xpread_loop oracle fuel k file buf (Z.of_nat bp) (Z.of_nat count) (Z.of_nat offset) ctr rv = Some (total ctr (Z.of_nat count) rv, splice buf bp (slice file offset count), k').
Proof using Hsteady.
  induction fuel as [| fuel IH]; intros k file buf bp count offset ctr rv Hctr Hbuf Hfile Hfuel Hbig; [lia |]. cbn [xpread_loop].
  destruct (Z.eqb_spec (Z.of_nat count) 0) as [E | E].
  { assert (count = 0%nat) as -> by lia. exists k. unfold total, slice. rewrite take_0, splice_nil. by rewrite Z.add_0_r. }
  rewrite (proj2 (Z.ltb_ge _ _)) by lia. destruct (Hsteady k) as [n ->]. rewrite !Nat2Z.id. set (m := Nat.min (S n) count). set (d := take m (drop offset file)).
  assert (length d = m) as Hd by (unfold d, m; rewrite length_take, length_drop; lia). rewrite Hd.
  rewrite (proj2 (Z.eqb_neq _ _)) by (unfold m; lia). rewrite (proj2 (Z.leb_le _ _)), (proj2 (Z.leb_le _ _)) by (unfold m; lia). cbn [andb].
  rewrite (wrapu_small 64) by (unfold in_u, m; lia).
  destruct (IH (S k) file (splice buf bp d) (bp + m)%nat (count - m)%nat (offset + m)%nat (ctr + Z.of_nat m) (Z.of_nat m)) as [k' IHk]; [lia | rewrite splice_length; unfold m in *; lia | unfold m; lia | unfold m; lia | unfold m; lia |].
  exists k'. replace (Z.of_nat bp + Z.of_nat m) with (Z.of_nat (bp + m)) by lia. replace (Z.of_nat count - Z.of_nat m) with (Z.of_nat (count - m)) by (unfold m; lia).
  replace (Z.of_nat offset + Z.of_nat m) with (Z.of_nat (offset + m)) by lia. rewrite IHk. do 2 f_equal. f_equal.
  - unfold total. replace (ctr + Z.of_nat m + Z.of_nat (count - m)) with (ctr + Z.of_nat count) by (unfold m; lia). rewrite (proj2 (Z.eqb_neq _ _)) by lia. done.
  - rewrite <- Hd. rewrite splice_splice by (rewrite length_slice; unfold m in *; lia). f_equal. rewrite Hd. symmetry. apply (slice_slice file offset count m). unfold m. lia.
Qed.

Lemma xpwrite_loop_ok fuel : ∀ k file buf (bp count offset : nat) (ctr : Z) rv, 0 <= ctr → (bp + count <= length buf)%nat → (offset + count <= length file)%nat →
  (count < fuel)%nat → Z.of_nat count < 2 ^ 62 →
  ∃ k', xpwrite_loop oracle fuel k file buf (Z.of_nat bp) (Z.of_nat count) (Z.of_nat offset) ctr rv = Some (total ctr (Z.of_nat count) rv, splice file offset (slice buf bp count), k').
Proof using Hsteady.
  induction fuel as [| fuel IH]; intros k file buf bp count offset ctr rv Hctr Hbuf Hfile Hfuel Hbig; [lia |]. cbn [xpwrite_loop].
  destruct (Z.eqb_spec (Z.of_nat count) 0) as [E | E].
  { assert (count = 0%nat) as -> by lia. exists k. unfold total, slice. rewrite take_0, splice_nil. by rewrite Z.add_0_r. }
  rewrite (proj2 (Z.ltb_ge _ _)) by lia. destruct (Hsteady k) as [n ->]. rewrite !Nat2Z.id. rewrite (proj2 (Z.leb_le _ _)), (proj2 (Z.leb_le _ _)) by lia. cbn [andb].
  rewrite take_take. set (m := Nat.min (Nat.min (S n) (length file - offset)) count). set (d := take m (drop bp buf)).
  assert (length d = m) as Hd by (unfold d, m; rewrite length_take, length_drop; lia). rewrite Hd.
  assert (0 < m <= count)%nat as Hm by (unfold m; lia). clearbody m. rewrite (proj2 (Z.eqb_neq _ _)) by lia. rewrite (wrapu_small 64) by (unfold in_u; lia).
  destruct (IH (S k) (splice file offset d) buf (bp + m)%nat (count - m)%nat (offset + m)%nat (ctr + Z.of_nat m) (Z.of_nat m)) as [k' IHk]; [lia | lia | rewrite splice_length; lia | lia | lia |].
  exists k'. replace (Z.of_nat bp + Z.of_nat m) with (Z.of_nat (bp + m)) by lia. replace (Z.of_nat count - Z.of_nat m) with (Z.of_nat (count - m)) by lia.
  replace (Z.of_nat offset + Z.of_nat m) with (Z.of_nat (offset + m)) by lia. rewrite IHk. do 2 f_equal. f_equal.
  - unfold total. replace (ctr + Z.of_nat m + Z.of_nat (count - m)) with (ctr + Z.of_nat count) by lia. rewrite (proj2 (Z.eqb_neq _ _)) by lia. done.
  - rewrite <- Hd. rewrite splice_splice by (rewrite length_slice; lia). f_equal. rewrite Hd. symmetry. apply (slice_slice buf bp count m). lia.
Qed.
End steady.

(** ** The initial RAM disk *)

Lemma blocksize_mod bytes : 0 < bytes → Z.land (bytes - 1) (BUF_SIZE - 1) + 1 = (bytes - 1) mod BUF_SIZE + 1.
Proof. intros. unfold BUF_SIZE. change (65536 - 1) with (Z.ones 16). by rewrite Z.land_ones. Qed.

(** What a block adds to what was copied behind it *)
Lemma copied_block file ram i n : (i + n <= length file)%nat → (i + n <= length ram)%nat →
  take i file ++ drop i (splice ram i (slice file i n)) = take (i + n) file ++ drop (i + n) ram.
Proof.
  intros Hf Hr. unfold splice. rewrite drop_app_length' by (rewrite length_take; lia). rewrite (length_slice file i n) by lia.
  rewrite app_assoc. f_equal. unfold slice. rewrite <- (take_drop i file) at 3. rewrite take_app, take_take, length_take. f_equal; f_equal; lia.
Qed.

Section copy.
Context (oracle : nat → answer) (Hsteady : steady oracle).

Lemma rd_copy_loop_ok fuel : ∀ calls k file ram buffer (bytes : nat), Z.of_nat (length buffer) = BUF_SIZE → BUF_SIZE < Z.of_nat calls →
  (bytes <= length file)%nat → (bytes <= length ram)%nat → Z.of_nat bytes <= (Z.of_nat fuel - 1) * BUF_SIZE →
  ∃ k', rd_copy_loop oracle fuel calls k file ram buffer (Z.of_nat bytes) = Some (0, take bytes file ++ drop bytes ram, k').
Proof using Hsteady.
  induction fuel as [| fuel IH]; intros calls k file ram buffer bytes Hbuf Hcalls Hf Hr Hfuel; [unfold BUF_SIZE in *; lia |]. cbn [rd_copy_loop].
  destruct (Z.eqb_spec (Z.of_nat bytes) 0) as [E | E]; [exists k; by replace bytes with 0%nat by lia |].
  rewrite blocksize_mod by lia. set (b := (Z.of_nat bytes - 1) mod BUF_SIZE + 1).
  assert (0 < b <= BUF_SIZE ∧ b <= Z.of_nat bytes ∧ Z.of_nat bytes - b <= (Z.of_nat fuel - 1) * BUF_SIZE) as (Hb & Hle & Hdown).
  { pose proof (Z.div_mod (Z.of_nat bytes - 1) BUF_SIZE ltac:(done)). pose proof (Z.mod_pos_bound (Z.of_nat bytes - 1) BUF_SIZE ltac:(done)).
    pose proof (Z.div_pos (Z.of_nat bytes - 1) BUF_SIZE ltac:(lia) ltac:(done)). unfold b. unfold BUF_SIZE in *. lia. }
  clearbody b. unfold BUF_SIZE in Hb, Hbuf, Hcalls. pose proof (Z2Nat.id b ltac:(lia)) as En. revert En. generalize (Z.to_nat b). intros n En. subst b.
  replace (Z.of_nat bytes - Z.of_nat n) with (Z.of_nat (bytes - n)) in * by lia. unfold xpread, xpwrite.
  destruct (xpread_loop_ok oracle Hsteady calls k file buffer 0 n (bytes - n) 0 0) as [k1 E1]; [lia.. |]. change (Z.of_nat 0) with 0 in E1. rewrite E1. cbn [mbind option_bind].
  unfold total at 1. rewrite Z.add_0_l, (proj2 (Z.eqb_neq (Z.of_nat n) 0)), Z.eqb_refl by lia. cbn [negb].
  destruct (xpwrite_loop_ok oracle Hsteady calls k1 ram (splice buffer 0 (slice file (bytes - n) n)) 0 n (bytes - n) 0 0) as [k2 E2]; [lia | rewrite splice_length, ?length_slice; rewrite ?length_slice; lia | lia.. |].
  change (Z.of_nat 0) with 0 in E2. rewrite E2. cbn [mbind option_bind]. unfold total. rewrite Z.add_0_l, (proj2 (Z.eqb_neq (Z.of_nat n) 0)), Z.eqb_refl by lia. cbn [negb].
  assert (slice (splice buffer 0 (slice file (bytes - n) n)) 0 n = slice file (bytes - n) n) as ->.
  { unfold splice. unfold slice at 1. rewrite drop_0, take_0, app_nil_l. apply take_app_length'. symmetry. apply length_slice. lia. }
  destruct (IH calls k2 file (splice ram (bytes - n) (slice file (bytes - n) n)) (splice buffer 0 (slice file (bytes - n) n)) (bytes - n)%nat) as [k' ->];
    [unfold BUF_SIZE; rewrite splice_length; rewrite ?length_slice; lia | unfold BUF_SIZE; lia | lia | rewrite splice_length; rewrite ?length_slice; lia | exact Hdown |].
  exists k'. rewrite copied_block by lia. do 5 f_equal; lia.
Qed.
End copy.

(** The copying of an uncompressed initial RAM disk: the file is
    copied whole to the start of the RAM disk, from the end to the beginning in
    blocks of the size of the buffer, and what is behind it stays, however the
    kernel divides the reads and the writes; the loop ends after a round per
    block. *)
Theorem rd_copy_correct (oracle : nat → answer) (Hsteady : steady oracle) (fuel calls k : nat) (file ram buffer : list Z)
  (Hne : file ≠ []) (Hroom : (length file <= length ram)%nat) (Hbuf : Z.of_nat (length buffer) = BUF_SIZE) (Hcalls : BUF_SIZE < Z.of_nat calls)
  (Hfuel : Z.of_nat (length file) <= (Z.of_nat fuel - 1) * BUF_SIZE) :
  ∃ k', rd_copy_uncompressed oracle fuel calls k true file ram buffer = Some (0, file ++ drop (length file) ram, k').
Proof.
  unfold rd_copy_uncompressed. rewrite (proj2 (Z.eqb_neq _ _)) by (destruct file; [done | simpl; lia]). cbn [negb orb].
  destruct (rd_copy_loop_ok oracle Hsteady fuel calls k file ram buffer (length file)) as [k' ->]; [done.. | lia | lia | done |]. exists k'. by rewrite take_ge.
Qed.

Definition by_three : nat → answer := λ k, Serve (S (k mod 3)).

Lemma by_three_steady : steady by_three.
Proof. intros k. by exists (k mod 3)%nat. Qed.

Lemma rd_copy_correct_witness : ∃ k', rd_copy_uncompressed by_three 2 (Z.to_nat 65537) 0 true [1; 2; 3; 4; 5; 6; 7] [0; 0; 0; 0; 0; 0; 0; 8; 9] (replicate (Z.to_nat 65536) 0)
  = Some (0, [1; 2; 3; 4; 5; 6; 7] ++ drop (length [1; 2; 3; 4; 5; 6; 7]) [0; 0; 0; 0; 0; 0; 0; 8; 9], k').
Proof.
  apply (rd_copy_correct by_three by_three_steady 2 (Z.to_nat 65537) 0 [1; 2; 3; 4; 5; 6; 7] [0; 0; 0; 0; 0; 0; 0; 8; 9] (replicate (Z.to_nat 65536) 0)).
  - done.
  - simpl. lia.
  - rewrite length_replicate. unfold BUF_SIZE. lia.
  - unfold BUF_SIZE. lia.
  - unfold BUF_SIZE. simpl. lia.
Defined.

(** An interrupted [pread] makes the loop go a byte back, behind the start of
    the buffer. *)
Example xpread_interrupted : xpread (λ k, match k with O => Interrupt | _ => Serve 2 end) 5 0 [1; 2; 3] [0; 0] 2 1 = None.
Proof. reflexivity. Qed.

(** ** Disks *)

(** Interrupted fewer than [calls] times in a row, and no failures *)
Definition patient (calls : nat) (oracle : nat → answer) : Prop :=
  ∀ k, ∃ j n, (j < calls)%nat ∧ (∀ i, (i < j)%nat → oracle (k + i)%nat = Interrupt) ∧ oracle (k + j)%nat = Serve (S n).

(** Disks with something on them; only the last may hide its size *)
Fixpoint disks_ok (ms : list medium) : Prop :=
  match ms with
  | [] => True
  | m :: ms => (contents m ≠ [] ∧ Z.of_nat (length (contents m)) < 2 ^ 62 ∧ (sized m = false → ms = [])) ∧ disks_ok ms
  end.

(** What is on the disks from a place of the first *)
Definition data_from (m : medium) (media : list medium) (start : nat) : list Z := drop start (contents m) ++ concat (contents <$> media).

Lemma data_from_step m media start n : data_from m media start = slice (contents m) start n ++ data_from m media (start + n).
Proof. unfold data_from, slice. rewrite app_assoc. f_equal. rewrite <- drop_drop. symmetry. apply take_drop. Qed.

Lemma disk_at_data m media (start : nat) : disks_ok (m :: media) → Z.of_nat start < 2 ^ 62 → data_from m media start ≠ [] →
  ∃ m' media' start', disk_at m (Some <$> media) (Z.of_nat start) = Some (m', Some <$> media', Z.of_nat start') ∧
    data_from m' media' start' = data_from m media start ∧ disks_ok (m' :: media') ∧ (start' < length (contents m'))%nat.
Proof.
  intros Hok Hst Hd. unfold disk_at. rewrite (wrapu_small 64) by (unfold in_u; lia). destruct Hok as [(Hne & Hlen & Hun) Hms] eqn:E. clear E.
  destruct (decide (start < length (contents m))%nat) as [Hlt | Hge].
  - exists m, media, start. rewrite (proj2 (Z.leb_gt _ _)) by (unfold medium_size; destruct (sized m); lia). done.
  - unfold data_from in Hd. rewrite drop_ge in Hd by lia. destruct media as [| m' media]; [done |].
    unfold medium_size. destruct (sized m); [| by specialize (Hun eq_refl)]. rewrite (proj2 (Z.leb_le _ _)) by lia.
    exists m', media, 0%nat. split; [done |]. split; [unfold data_from; by rewrite drop_0, (drop_ge (contents m)) by lia |]. split; [done |].
    destruct Hms as [[Hne' _] _]. destruct (contents m'); [done | simpl; lia].
Qed.

(** At the end of the data *)
Lemma disk_at_end m media (start : nat) : disks_ok (m :: media) → Z.of_nat start < 2 ^ 62 → data_from m media start = [] →
  media = [] ∧ drop start (contents m) = [] ∧ (disk_at m [] (Z.of_nat start) = None ∨ disk_at m [] (Z.of_nat start) = Some (m, [], Z.of_nat start)).
Proof.
  intros Hok Hst Hd. unfold data_from in Hd. apply app_nil in Hd as [Hd Hms]. destruct media as [| m' media].
  - split; [done |]. split; [done |]. unfold disk_at. destruct (_ <=? _); auto.
  - destruct Hok as [_ [[Hne _] _]]. simpl in Hms. apply app_nil in Hms as [? _]. done.
Qed.

Section patient.
Context (oracle : nat → answer) (calls : nat) (Hpatient : patient calls oracle).

Lemma read_again_ok k m bytes (start : nat) :
  ∃ n k', read_again oracle calls k m bytes (Z.of_nat start) = Some (Some (slice (contents m) start (Nat.min (S n) (Z.to_nat bytes))), k').
Proof using Hpatient.
  destruct (Hpatient k) as (j & n & Hj & Hint & Hs). exists n. revert k j Hj Hint Hs. clear Hpatient. induction calls as [| c IH]; intros k j Hj Hint Hs; [lia |].
  cbn [read_again]. rewrite (proj2 (Z.ltb_ge _ _)) by lia. destruct j as [| j].
  - rewrite Nat.add_0_r in Hs. rewrite Hs, Nat2Z.id. by exists (S k).
  - specialize (Hint 0%nat) as H0. rewrite Nat.add_0_r in H0. rewrite H0 by lia. apply (IH (S k) j); [lia | |].
    + intros i Hi. rewrite Nat.add_succ_comm. apply Hint. lia.
    + by rewrite Nat.add_succ_comm.
Qed.

(** Reading from a disk that has more *)
Lemma read_disk k m bytes (start : nat) : (start < length (contents m))%nat → 0 < bytes →
  ∃ j k', (0 < j)%nat ∧ Z.of_nat j <= bytes ∧ (start + j <= length (contents m))%nat ∧ length (slice (contents m) start j) = j ∧
    read_again oracle calls k m bytes (Z.of_nat start) = Some (Some (slice (contents m) start j), k').
Proof using Hpatient.
  intros Hlt Hb. destruct (read_again_ok k m bytes start) as (n & k' & ->). set (j0 := Nat.min (S n) (Z.to_nat bytes)). exists (Nat.min j0 (length (contents m) - start)), k'.
  assert (slice (contents m) start j0 = slice (contents m) start (Nat.min j0 (length (contents m) - start))) as ->.
  { unfold slice. destruct (Nat.le_gt_cases j0 (length (contents m) - start)); [by rewrite Nat.min_l by lia |]. rewrite Nat.min_r by lia. rewrite !take_ge by (rewrite length_drop; lia). done. }
  rewrite length_slice by lia. repeat split; unfold j0; lia.
Qed.

Lemma raw_loop_ok fuel : ∀ k m media (start fssize : nat) out, disks_ok (m :: media) → Z.of_nat start < 2 ^ 62 → Z.of_nat fssize < 2 ^ 63 → (fssize < fuel)%nat →
  ∃ r, raw_loop oracle fuel calls k m (Some <$> media) (Z.of_nat start) (Z.of_nat fssize) out = Some (r, out ++ take fssize (data_from m media start)) ∧
    (r = 0 ↔ (fssize <= length (data_from m media start))%nat).
Proof using Hpatient.
  induction fuel as [| fuel IH]; intros k m media start fssize out Hok Hst Hfs Hfuel; [lia |]. cbn [raw_loop].
  destruct (Z.eqb_spec (Z.of_nat fssize) 0) as [E | E]; [exists 0; replace fssize with 0%nat by lia; rewrite take_0, app_nil_r; split; [done | split; [lia | done]] |].
  destruct (decide (data_from m media start = [])) as [Hnil | Hd].
  - rewrite Hnil, take_nil, app_nil_r. destruct (disk_at_end m media start Hok Hst Hnil) as (-> & Hdrop & Hat). cbn [fmap list_fmap length].
    destruct Hat as [-> | ->]; [exists (-1); split; [done | lia] |].
    destruct (read_again_ok k m (Z.min (Z.min (u64 (medium_size m - Z.of_nat start)) (Z.of_nat fssize)) BUF_SIZE) start) as (n & k' & ->).
    unfold slice. rewrite Hdrop, take_nil. cbn [mbind option_bind]. exists 1. split; [done | lia].
  - destruct (disk_at_data m media start Hok Hst Hd) as (m' & media' & start' & -> & <- & Hok' & Hlt). clear Hok Hst Hd m media start.
    pose proof Hok' as [(_ & Hlen & _) _]. set (bytes := Z.min (Z.min _ _) BUF_SIZE).
    assert (0 < bytes ∧ bytes <= Z.of_nat fssize) as [Hb1 Hb2].
    { unfold bytes, medium_size, BUF_SIZE. destruct (sized m'); rewrite (wrapu_small 64) by (unfold in_u; lia); lia. }
    destruct (read_disk k m' bytes start' Hlt Hb1) as (j & k' & Hj & Hjb & Hje & Hlj & ->). cbn [mbind option_bind].
    destruct (slice (contents m') start' j) as [| b d] eqn:Ed; [simpl in Hlj; lia |]. rewrite <- Ed, Ed, Hlj, <- Ed.
    rewrite (wrapu_small 64) by (unfold in_u; lia). rewrite <- Nat2Z.inj_add, <- Nat2Z.inj_sub by lia. rewrite <- Ed in Hlj.
    destruct (IH k' m' media' (start' + j)%nat (fssize - j)%nat (out ++ slice (contents m') start' j)) as (r & -> & Hr); [done | lia | lia | lia |].
    exists r. rewrite (data_from_step m' media' start' j). split.
    + rewrite take_app, Hlj, <- (app_assoc out). rewrite (take_ge (slice _ _ _)) by lia. done.
    + rewrite Hr, length_app, Hlj. lia.
Qed.
End patient.

(** A file system on several disks is loaded whole, from the place on the first
    disk, and only its bytes; if the disks end early, all of them are loaded and
    the result says so. *)
Theorem load_ramdisk_raw_correct (oracle : nat → answer) (calls : nat) (Hpatient : patient calls oracle) (fuel : nat) (m : medium) (media : list medium) (start fssize : nat)
  (Hdisks : disks_ok (m :: media)) (Hstart : Z.of_nat start < 2 ^ 62) (Hsize : Z.of_nat fssize < 2 ^ 63) (Hfuel : (fssize < fuel)%nat) :
  ∃ r, load_ramdisk_raw oracle fuel calls (Some <$> m :: media) (Z.of_nat start) (Z.of_nat fssize) = Some (r, take fssize (data_from m media start)) ∧
    (r = 0 ↔ (fssize <= length (data_from m media start))%nat).
Proof. apply (raw_loop_ok oracle calls Hpatient fuel 0 m media start fssize []); done. Qed.

(** ** Compressed disks *)

Section compressed.
Context (oracle : nat → answer) (calls : nat) (Hpatient : patient calls oracle).
Context {decoder : Type} (inflate : decoder → list Z → nat → Z * nat * list Z * decoder).

(** What the loop relies on: [decodes zs input output] if a decoder in state
    [zs] that is given [input], in whatever pieces, makes [output] of it and
    ends.  [inflate] with room in its output takes some of the input and makes
    some of the output; it says [Z_STREAM_END] when all is made, and stops
    before that only if the room is used up, or the input that is there and
    there is more to come. *)
Context (decodes : decoder → list Z → list Z → Prop).
Definition decoder_law : Prop := ∀ zs input rest output room rv taken made zs', (0 < room)%nat → decodes zs (input ++ rest) output → inflate zs input room = (rv, taken, made, zs') →
  (length made <= room)%nat ∧
  ((rv = Z_STREAM_END ∧ output = made) ∨
   ((rv = Z_OK ∨ rv = Z_BUF_ERROR) ∧ ∃ output', output = made ++ output' ∧ decodes zs' (drop taken input ++ rest) output' ∧
      (length made = room ∨ (drop taken input = [] ∧ rest ≠ [])))).
Context (Hlaw : decoder_law).

(** The step after the buffers were seen to: what the decoder makes of the
    input; and that the next round has something to do *)
Lemma inflate_loop_ok fuel : ∀ k zs m media (start : nat) input output out todo, disks_ok (m :: media) → Z.of_nat start < 2 ^ 62 →
  decodes zs (input ++ data_from m media start) todo → Z.of_nat (length output) <= BUF_SIZE →
  (Z.of_nat (length output) = BUF_SIZE ∨ (input = [] ∧ data_from m media start ≠ [])) →
  (length (data_from m media start) + length output + length todo < fuel)%nat →
  inflate_loop oracle inflate fuel calls k zs m (Some <$> media) (Z.of_nat start) input output out = Some (0, out ++ output ++ todo).
Proof using Hpatient Hlaw.
  induction fuel as [| fuel IH]; intros k zs m media start input output out todo Hok Hst Hdec Hout Hnext Hfuel; [lia |]. cbn [inflate_loop].
  (* what a round does once the buffers are ready *)
  assert (∀ k m media (start : nat) input output out, disks_ok (m :: media) → Z.of_nat start < 2 ^ 62 → decodes zs (input ++ data_from m media start) todo →
    Z.of_nat (length output) < BUF_SIZE → (length (data_from m media start) + length output + length todo < fuel)%nat →
    (let '(rv, taken, made, zs) := inflate zs input (Z.to_nat BUF_SIZE - length output) in
     let input := drop taken input in let output := output ++ made in
     if (rv =? Z_OK) || (rv =? Z_BUF_ERROR) then inflate_loop oracle inflate fuel calls k zs m (Some <$> media) (Z.of_nat start) input output out
     else if negb (rv =? Z_STREAM_END) then Some (-1, out) else Some (0, out ++ output)) = Some (0, out ++ output ++ todo)) as Hround.
  { clear k m media start input output out Hok Hst Hdec Hout Hnext Hfuel. intros k m media start input output out Hok Hst Hdec Hout Hfuel.
    destruct (inflate zs input (Z.to_nat BUF_SIZE - length output)) as [[[rv taken] made] zs'] eqn:Ei.
    destruct (Hlaw zs input (data_from m media start) todo (Z.to_nat BUF_SIZE - length output)%nat rv taken made zs' ltac:(lia) Hdec Ei) as [Hroom [[-> ->] | (Hrv & todo' & -> & Hdec' & Hstop)]]; [done |].
    assert ((rv =? Z_OK) || (rv =? Z_BUF_ERROR) = true) as -> by (destruct Hrv as [-> | ->]; done). cbv zeta. rewrite length_app in Hfuel.
    rewrite (IH k zs' m media start (drop taken input) (output ++ made) out todo'); [by rewrite <- app_assoc | done.. | rewrite length_app; lia | rewrite length_app; destruct Hstop; [left; lia | by right] | rewrite length_app; lia]. }
  destruct (Nat.eqb_spec (length output) (Z.to_nat BUF_SIZE)) as [Hfull | Hnot].
  - cbn [mbind option_bind]. refine (eq_trans (Hround k m media start input [] (out ++ output) Hok Hst Hdec _ _) _); [done | simpl length; unfold BUF_SIZE in *; lia | by rewrite app_nil_l, app_assoc].
  - destruct Hnext as [? | [-> Hd]]; [lia |]. destruct (disk_at_data m media start Hok Hst Hd) as (m' & media' & start' & -> & Hdata & Hok' & Hlt).
    rewrite <- Hdata in Hdec, Hfuel. clear Hok Hst Hd Hdata m media start. pose proof Hok' as [(_ & Hlen & _) _]. set (bytes := Z.min _ BUF_SIZE).
    assert (0 < bytes) as Hb. { unfold bytes, medium_size, BUF_SIZE. destruct (sized m'); rewrite (wrapu_small 64) by (unfold in_u; lia); lia. }
    destruct (read_disk oracle calls Hpatient k m' bytes start' Hlt Hb) as (j & k' & Hj & Hjb & Hje & Hlj & ->). cbn [mbind option_bind].
    rewrite app_nil_l, (data_from_step m' media' start' j) in Hdec. rewrite (data_from_step m' media' start' j), length_app, Hlj in Hfuel.
    destruct (slice (contents m') start' j) as [| b d] eqn:Ed; [simpl in Hlj; lia |]. cbn [mbind option_bind]. rewrite Hlj, <- Nat2Z.inj_add.
    apply Hround; [done | lia | done | lia | lia].
Qed.

(** C18.  A compressed RAM disk: with a decoder that keeps its law, the bytes
    of the disks, from the place on the first disk on and in the order of the
    disks, are decoded, and the stream is given exactly what they decode to,
    across the ends of the two buffers and of the disks, and however the kernel
    divides the reads or interrupts them.  No disk is asked for that is not
    there, and the loop ends: each round reads a byte at least or empties the
    buffer of the output. *)
Theorem load_ramdisk_compressed_correct (fuel : nat) (zs : decoder) (m : medium) (media : list medium) (start : nat) (output : list Z)
  (Hdisks : disks_ok (m :: media)) (Hstart : Z.of_nat start < 2 ^ 62) (Hdata : data_from m media start ≠ []) (Hdecodes : decodes zs (data_from m media start) output)
  (Hfuel : (length (data_from m media start) + length output < fuel)%nat) :
  load_ramdisk_compressed oracle inflate fuel calls (Some zs) (Some <$> m :: media) (Z.of_nat start) = Some (0, output).
Proof using Hpatient Hlaw.
  unfold load_ramdisk_compressed. rewrite fmap_cons.
  apply (inflate_loop_ok fuel 0 zs m media start [] [] [] output); [done | done | done | simpl; unfold BUF_SIZE; lia | by right | simpl; lia].
Qed.
End compressed.

(** A decoder that keeps the law: it copies up to a zero. *)
Fixpoint copy_to_zero (input : list Z) (room : nat) : Z * nat * list Z :=
  match input with
  | [] => (Z_OK, O, [])
  | b :: input =>
      if b =? 0 then (Z_STREAM_END, 1%nat, [])
      else match room with
           | O => (Z_OK, O, [])
           | S room => let '(rv, taken, made) := copy_to_zero input room in (rv, S taken, b :: made)
           end
  end.
Definition copy_decodes (_ : unit) (input output : list Z) : Prop := Forall (λ b, b ≠ 0) output ∧ ∃ tail, input = output ++ 0 :: tail.

Lemma copy_law : decoder_law (λ _ input room, (copy_to_zero input room, tt)) copy_decodes.
Proof.
  intros [] input rest output room rv taken made [] _ [Hnz [tail Ht]] E. injection E as E. revert room output rv taken made Hnz Ht E.
  induction input as [| b input IH]; intros room output rv taken made Hnz Ht E; cbn [copy_to_zero] in E.
  - injection E as <- <- <-. split; [simpl; lia |]. right. split; [by left |]. exists output. split; [done |]. split; [split; [done | by exists tail] |]. right. split; [done |]. simpl in Ht. subst. by destruct output.
  - simpl in Ht. destruct (Z.eqb_spec b 0) as [-> | Hb].
    { injection E as <- <- <-. split; [simpl; lia |]. left. split; [done |]. destruct output as [| o output]; [done |]. injection Ht as <- Ht. by inversion Hnz. }
    destruct output as [| o output]; [by injection Ht |]. simpl in Ht. injection Ht as <- Ht. inversion Hnz as [| ? ? _ Hnz']; subst. destruct room as [| room].
    { injection E as <- <- <-. split; [done |]. right. split; [by left |]. exists (b :: output). split; [done |]. split; [| by left]. split; [done |]. exists tail. simpl. by rewrite Ht. }
    destruct (copy_to_zero input room) as [[rv' taken'] made'] eqn:Ec. injection E as <- <- <-.
    destruct (IH room output rv' taken' made' Hnz' Ht Ec) as [Hl [[-> ->] | (Hrv & output' & -> & Hd & Hs)]]; (split; [simpl; lia |]); [by left | right].
    split; [done |]. exists output'. split; [done |]. split; [done |]. destruct Hs as [<- | ?]; [by left | by right].
Qed.

(** Interrupted now and then *)
Definition now_and_then : nat → answer := λ k, if Nat.even k then Interrupt else Serve 2.

Lemma now_and_then_patient : patient 2 now_and_then.
Proof.
  intros k. unfold now_and_then. destruct (Nat.even k) eqn:E.
  - exists 1%nat, 1%nat. split; [lia |]. split; [intros i Hi; replace i with 0%nat by lia; by rewrite Nat.add_0_r, E |]. rewrite Nat.add_1_r, Nat.even_succ, <- Nat.negb_even, E. done.
  - exists 0%nat, 1%nat. split; [lia |]. split; [intros i Hi; lia |]. by rewrite Nat.add_0_r, E.
Qed.

Lemma load_ramdisk_compressed_witness : load_ramdisk_compressed now_and_then (λ (_ : unit) input room, (copy_to_zero input room, tt)) 20 2 (Some tt)
  (Some <$> [mk_medium true [9; 9; 1; 2; 3; 4]; mk_medium false [5; 6; 7; 0; 8]]) (Z.of_nat 2) = Some (0, [1; 2; 3; 4; 5; 6; 7]).
Proof.
  apply (load_ramdisk_compressed_correct now_and_then 2 now_and_then_patient (λ (_ : unit) input room, (copy_to_zero input room, tt)) copy_decodes copy_law 20 tt
    (mk_medium true [9; 9; 1; 2; 3; 4]) [mk_medium false [5; 6; 7; 0; 8]] 2 [1; 2; 3; 4; 5; 6; 7]).
  - simpl. repeat split; done || lia.
  - lia.
  - done.
  - split; [repeat constructor; done | by exists [8]].
  - simpl. lia.
Defined.

Definition first_disk : medium := mk_medium true [9; 9; 1; 2; 3; 4].
Definition second_disk : medium := mk_medium true [5; 6; 7].

Lemma load_ramdisk_raw_witness : ∃ r, load_ramdisk_raw now_and_then 20 2 (Some <$> [first_disk; second_disk]) (Z.of_nat 2) (Z.of_nat 6) = Some (r, take 6 (data_from first_disk [second_disk] 2)) ∧
  (r = 0 ↔ (6 <= length (data_from first_disk [second_disk] 2))%nat).
Proof. apply (load_ramdisk_raw_correct now_and_then 2 now_and_then_patient 20 first_disk [second_disk] 2 6); [simpl; repeat split; done || lia | lia | lia | lia]. Defined.
