(* ===== verification/Md.v ===== *)
(** * RAID arrays: [kinit/do_mounts_md.c]

    The arguments [md=] and [raid=] fill a table; then each entry is made into
    an array with calls of [ioctl] in the world of [DoMounts].

    The theorems: the table holds one entry per array, the last definition of
    it; for an entry exactly the disks of its list up to the first that is not
    known are added, in order, and the array is run only if no call before has
    failed; nothing is mounted.  A partitioned array always ends kinit, since
    its major number is not found. *)

From stdpp Require Import base numbers list strings.
From Stdlib Require Import Lia.
From S2P Require Import Prelude Prog Numparse Inet Ipconfig Kinit Devno Fstype Rootdev DoMounts.

#[local] Set Warnings "-register-all".

Definition MAX_MD_DEVS : Z := 256.
Definition MD_SB_DISKS : nat := 27.
Definition MD_MAJOR : Z := 9.
Definition MdpMinorShift : Z := 6.
Definition LEVEL_LINEAR : Z := -1.
Definition LEVEL_NONE : Z := -1000000.

(** An element of [md_setup_args], and the static variables *)
Record md_arg := mk_md { md_minor : Z; partitioned : bool; level : Z; chunk : Z; device_names : option (list Z) }.
Definition blank_md : md_arg := mk_md 0 false 0 0 None.
Record md_table := mk_table { md_setup_args : list md_arg; md_setup_ents : nat; raid_noautodetect : bool; raid_autopart : bool }.
Definition empty_table : md_table := mk_table (replicate (Z.to_nat MAX_MD_DEVS) blank_md) 0 false false.

(** ** The arguments *)

(** The result, the number and the rest of the text; the number has a meaning
    unless the result is 0. *)
Definition get_option (str : list Z) : Z * Z * list Z :=
  match str with
  | [] => (0, 0, str)
  | _ =>
      let '(v, n) := parse_num 0 str in
      if (n =? 0)%nat then (0, s32 v, str)
      else match drop n str with
           | 44 :: rest => (2, s32 v, rest)
           | rest => (1, s32 v, rest)
           end
  end.

(** The place of an array in the table, or behind its end *)
Fixpoint find_ent (ents : list md_arg) (minor_num : Z) (part : bool) : nat :=
  match ents with
  | [] => O
  | a :: ents => if (md_minor a =? minor_num) && eqb (partitioned a) part then O else S (find_ent ents minor_num part)
  end.

(** [1 << n] *)
Definition shift_one (n : Z) : option Z := if (0 <=? n) && (n <? 31) then Some (Z.shiftl 1 n) else None.

Definition md_setup (t : md_table) (str : list Z) : option md_table :=
  let '(part, str) := match str with 100 :: str => (true, str) | _ => (false, str) end in
  let '(r, minor_num, str) := get_option str in
  if negb (r =? 2) then Some t
  else
    let str1 := str in
    if MAX_MD_DEVS <=? minor_num then Some t
    else
      let ent := find_ent (take (md_setup_ents t) (md_setup_args t)) minor_num part in
      if MAX_MD_DEVS <=? Z.of_nat ent then Some t
      else
        let t := mk_table (md_setup_args t) (if (md_setup_ents t <=? ent)%nat then S (md_setup_ents t) else md_setup_ents t) (raid_noautodetect t) (raid_autopart t) in
        old ← md_setup_args t !! ent;
        let put (a : md_arg) := mk_table (<[ent := a]> (md_setup_args t)) (md_setup_ents t) (raid_noautodetect t) (raid_autopart t) in
        let '(r, lvl, str) := get_option str in
        if (r =? 2) && ((lvl =? 0) || (lvl =? LEVEL_LINEAR)) then
          let '(r, factor, str) := get_option str in
          if negb (r =? 2) then Some t
          else
            let '(r, fault, str) := get_option str in
            if negb (r =? 2) then Some t
            else
              chunk ← shift_one (factor + 12);
              Some (put (mk_md minor_num part lvl chunk (Some str)))
        else Some (put (mk_md minor_num part LEVEL_NONE (chunk old) (Some str1))).

(** [strncmp(str, name, wlen) == 0] *)
Definition same_start (str name : list Z) (wlen : nat) : bool := bool_decide (take wlen (str ++ [0]) = take wlen (name ++ [0])).

Fixpoint to_comma (l : list Z) : nat :=
  match l with [] => O | c :: l => if c =? 44 then O else S (to_comma l) end.

(** The words are compared with the start of the whole text. *)
Fixpoint raid_loop (fuel : nat) (t : md_table) (str : list Z) (pos : nat) : option md_table :=
  match fuel with
  | O => None
  | S fuel =>
      if (pos <? S (length str))%nat then
        let wlen := to_comma (drop pos str) in
        let noauto := raid_noautodetect t || same_start str (text "noautodetect") wlen in
        let autopart := raid_autopart t || same_start str (text "partitionable") wlen || same_start str (text "part") wlen in
        raid_loop fuel (mk_table (md_setup_args t) (md_setup_ents t) noauto autopart) str (pos + wlen + 1)
      else Some t
  end.
Definition raid_setup (t : md_table) (str : list Z) : option md_table := raid_loop (S (S (length str))) t str 0.

(** [strncmp(p, prefix, n) == 0] with what follows *)
Definition behind (prefix p : list Z) : option (list Z) :=
  if bool_decide (take (length prefix) p = prefix) then Some (drop (length prefix) p) else None.

Fixpoint md_args (t : md_table) (argv : list (list Z)) : option md_table :=
  match argv with
  | [] => Some t
  | p :: argv =>
      t ← match behind (text "raid=") p with
          | Some str => raid_setup t str
          | None => match behind (text "md=") p with Some str => md_setup t str | None => Some t end
          end;
      md_args t argv
  end.

(** ** The major number of partitioned arrays *)

(** The lines of [fgets] with a buffer of [n] bytes; a last line without an end
    is not delivered. *)
Fixpoint fgets_lines (n room : nat) (cur l : list Z) : list (list Z) :=
  match l with
  | [] => []
  | c :: l =>
      if (c =? 10) || (room <=? 1)%nat then (cur ++ [c]) :: fgets_lines n (n - 1) [] l
      else fgets_lines n (room - 1) (cur ++ [c]) l
  end.

Fixpoint skip_space (l : list Z) : list Z := match l with c :: l' => if is_space c then skip_space l' else l | [] => [] end.

Fixpoint mdp_loop (lines : list (list Z)) (is_blk : bool) : Z :=
  match lines with
  | [] => 0
  | line :: lines =>
      let line := c_string line in
      let is_blk := is_blk || bool_decide (line = text "Block devices:" ++ [10]) in
      if is_blk then
        let '(v, n) := parse_num 10 line in
        let major_no := s32 v in
        let p := skip_space (drop n line) in
        if major_no =? 0 then mdp_loop lines false
        else if (0 <? major_no) && bool_decide (p = text "mdp") then major_no
        else mdp_loop lines is_blk
      else mdp_loop lines is_blk
  end.

Section drive.
Context {W : Type} `{!Root W}.
Abbreviation st := (kinit (W := W)).

Definition mdp_major : prog st Z :=
  s ← get_st;
  match kfile (text "/proc/devices") (world s) with
  | None => crash
  | Some file =>
      let found := mdp_loop (fgets_lines 512 511 [] file) false in
      if found =? 0 then exit_ 1 else mret found
  end.

(** ** Making arrays *)

Definition md_name (a : md_arg) : list Z :=
  take 15 (text "/dev/md" ++ (if partitioned a then text "_d" else []) ++ (if md_minor a <? 0 then 45 :: dec (- md_minor a) else dec (md_minor a))).

(** The numbers of the devices up to the first name that is not known *)
Fixpoint find_disks (n : nat) (names : list (list Z)) : prog st (list Z) :=
  match n, names with
  | S n, name :: names =>
      dev ← device_for name;
      if dev =? 0 then mret [] else devs ← find_disks n names; mret (dev :: devs)
  | _, _ => mret []
  end.

Fixpoint split_commas (cur l : list Z) : list (list Z) :=
  match l with [] => [cur] | c :: l => if c =? 44 then cur :: split_commas [] l else split_commas (cur ++ [c]) l end.

(** [dinfo] of an array that is described here: number, disk, state (active and
    in sync), major and minor; of one that describes itself, major and minor *)
Fixpoint add_disks (name : list Z) (i : Z) (devs : list Z) : prog st bool :=
  match devs with
  | [] => mret true
  | dev :: devs =>
      ok ← kcalls (KIoctl name ADD_NEW_DISK [i; i; 6; major dev; minor dev]);
      if ok : bool then add_disks name (i + 1) devs else mret false
  end.
Fixpoint add_members (name : list Z) (devs : list Z) : prog st bool :=
  match devs with
  | [] => mret true
  | dev :: devs => kcalls (KIoctl name ADD_NEW_DISK [major dev; minor dev]);; add_members name devs
  end.

(** [ioctl] never returns [-EBUSY], so that its first result does not matter.
    [ainfo]: level, size, disks, RAID disks, minor, not persistent, clean,
    layout and chunk size *)
Definition start_array (a : md_arg) (name : list Z) (devs : list Z) : prog st unit :=
  opened ← kcalls (KOpen name);
  if negb opened then mret tt
  else
    kcalls (KIoctl name SET_ARRAY_INFO []);;
    ok ← (if negb (level a =? LEVEL_NONE) then
            ok ← kcalls (KIoctl name SET_ARRAY_INFO [level a; 0; 0; Z.of_nat (length devs); md_minor a; 1; 1; 0; chunk a]);
            if ok : bool then add_disks name 0 devs else mret false
          else add_members name devs);
    ok ← (if ok : bool then kcalls (KIoctl name RUN_ARRAY []) else mret false);
    if ok : bool then
      opened ← kcalls (KOpen name);
      (if opened : bool then kcalls (KIoctl name BLKRRPART []) else mret false);;
      mret tt
    else mret tt.

Definition setup_drive (a : md_arg) : prog st unit :=
  let name := md_name a in
  s ← get_st;
  match kstat name (world s) with
  | Some _ => mret tt
  | None =>
      dev ← (if partitioned a then ma ← mdp_major; mret (makedev ma (s32 (Z.shiftl (md_minor a) MdpMinorShift)))
             else mret (makedev MD_MAJOR (md_minor a)));
      create_dev name dev;;
      devs ← (match device_names a with Some names => find_disks MD_SB_DISKS (split_commas [] names) | None => mret [] end);
      match devs with [] => mret tt | _ => start_array a name devs end
  end.

Fixpoint md_setup_drive (ents : list md_arg) : prog st unit :=
  match ents with
  | [] => mret tt
  | a :: ents => setup_drive a;; md_setup_drive ents
  end.

Definition md_run_setup (t : md_table) : prog st unit :=
  create_dev (text "/dev/md0") (makedev MD_MAJOR 0);;
  (if raid_noautodetect t then mret true
   else
     opened ← kcalls (KOpen (text "/dev/md0"));
     if opened : bool then kcalls (KIoctl (text "/dev/md0") RAID_AUTORUN [if raid_autopart t then 1 else 0]) else mret false);;
  md_setup_drive (take (md_setup_ents t) (md_setup_args t)).

Definition md_run (argv : list (list Z)) : prog st unit :=
  t ← of_option (md_args empty_table argv);
  md_run_setup t.
End drive.

(** ** Partitioned arrays *)

Lemma mdp_never lines : mdp_loop lines false = 0.
Proof.
  induction lines as [| line lines IH]; [done |]. cbn [mdp_loop orb]. case_bool_decide as E; [| exact IH]. rewrite E.
  assert (parse_num 10 (text "Block devices:" ++ [10]) = (0, 0%nat)) as -> by (vm_compute; reflexivity). exact IH.
Qed.

(** The heading of the block devices is taken for the end of their list, so
    that the major number is never found: for every contents of the file the
    program ends. *)
Theorem mdp_major_exits {W : Type} `{!Root W} (s : kinit (W := W)) (file : list Z) : kfile (text "/proc/devices") (world s) = Some file → mdp_major s = Exit 1.
Proof. intros E. unfold mdp_major, mbind, prog_bind, get_st. rewrite E, mdp_never. done. Qed.

(** ** The table *)

Definition md_key (a : md_arg) : Z * bool := (md_minor a, partitioned a).

Definition entries (t : md_table) : list md_arg := take (md_setup_ents t) (md_setup_args t).

(** One entry per array *)
Record md_ok (t : md_table) : Prop := {
  mo_size : Z.of_nat (length (md_setup_args t)) = MAX_MD_DEVS;
  mo_ents : (md_setup_ents t <= length (md_setup_args t))%nat;
  mo_keys : NoDup (md_key <$> entries t);
}.

(** What an argument defines: the array, the level, the size of a chunk (if the
    array is described here) and the names; [None] if it is refused. *)
Definition md_definition (str : list Z) : option ((Z * bool) * Z * option Z * list Z) :=
  let '(part, str) := match str with 100 :: str => (true, str) | _ => (false, str) end in
  let '(r, minor_num, str) := get_option str in
  if negb (r =? 2) || (MAX_MD_DEVS <=? minor_num) then None
  else
    let '(r, lvl, str') := get_option str in
    if (r =? 2) && ((lvl =? 0) || (lvl =? LEVEL_LINEAR)) then
      let '(r, factor, str) := get_option str' in
      if negb (r =? 2) then None
      else
        let '(r, fault, str) := get_option str in
        if negb (r =? 2) then None
        else c ← shift_one (factor + 12); Some ((minor_num, part), lvl, Some c, str)
    else Some ((minor_num, part), LEVEL_NONE, None, str).

(** An entry is what the argument defines; a chunk size that is not given is
    not used. *)
Definition defined_by (d : (Z * bool) * Z * option Z * list Z) (a : md_arg) : Prop :=
  let '(key, lvl, c, names) := d in
  md_key a = key ∧ level a = lvl ∧ device_names a = Some names ∧ match c with Some c => chunk a = c | None => lvl = LEVEL_NONE end.

Lemma find_ent_spec ents m p :
  (find_ent ents m p = length ents ∧ (m, p) ∉ (md_key <$> ents)) ∨ (∃ a, ents !! find_ent ents m p = Some a ∧ md_key a = (m, p)).
Proof.
  induction ents as [| a ents IH]; [left; split; [done | by apply not_elem_of_nil] |]. cbn [find_ent]. destruct (Z.eqb_spec (md_minor a) m) as [E | E], (eqb_spec (partitioned a) p) as [Ep | Ep]; cbn [andb].
  1: right; exists a; split; [done |]; unfold md_key; congruence.
  all: destruct IH as [[IH Hn] | (b & Hb & Hk)]; [left; split; [simpl; lia |]; rewrite fmap_cons; apply not_elem_of_cons; split; [unfold md_key; congruence | done] | right; by exists b].
Qed.

(** An entry that is put in its place *)
Lemma put_ok t ent a : md_ok t → Z.of_nat ent < MAX_MD_DEVS → ent = find_ent (entries t) (md_minor a) (partitioned a) →
  let t' := mk_table (<[ent := a]> (md_setup_args t)) (if (md_setup_ents t <=? ent)%nat then S (md_setup_ents t) else md_setup_ents t) (raid_noautodetect t) (raid_autopart t) in
  md_ok t' ∧ a ∈ entries t' ∧ (∀ b, md_key b ≠ md_key a → b ∈ entries t' ↔ b ∈ entries t).
Proof.
  intros Hok Hlt Hent. destruct Hok as [Hsz Hents Hkeys]. assert (length (entries t) = md_setup_ents t) as Hlen by (unfold entries; rewrite length_take; lia).
  assert (ent < length (md_setup_args t))%nat as Hin by lia. cbv zeta.
  destruct (find_ent_spec (entries t) (md_minor a) (partitioned a)) as [[Ef Hn] | (b & Hb & Hk)].
  - (* a new one *)
    rewrite <- Hent, Hlen in Ef. clear Hent. subst ent. rewrite Nat.leb_refl.
    assert (entries (mk_table (<[md_setup_ents t := a]> (md_setup_args t)) (S (md_setup_ents t)) (raid_noautodetect t) (raid_autopart t)) = entries t ++ [a]) as E.
    { unfold entries. cbn [md_setup_args md_setup_ents]. rewrite (take_S_r _ _ a) by (apply list_lookup_insert_eq; lia). by rewrite take_insert_ge by lia. }
    split; [split; rewrite ?E; cbn [md_setup_args md_setup_ents]; rewrite ?length_insert; [done | lia |] |].
    + rewrite fmap_app. apply NoDup_app. split; [done |]. split; [| apply NoDup_singleton]. intros k Hkin Hk. apply list_elem_of_singleton in Hk as ->. done.
    + rewrite E. split; [apply elem_of_app; right; by apply list_elem_of_singleton |]. intros b Hb. rewrite elem_of_app, list_elem_of_singleton. split; [intros [? | ->]; done | by left].
  - (* another definition of an old one *)
    rewrite <- Hent in Hb. assert (ent < md_setup_ents t)%nat as Hlt' by (rewrite <- Hlen; by eapply lookup_lt_Some).
    rewrite (proj2 (Nat.leb_gt _ _)) by done.
    assert (entries (mk_table (<[ent := a]> (md_setup_args t)) (md_setup_ents t) (raid_noautodetect t) (raid_autopart t)) = <[ent := a]> (entries t)) as E.
    { unfold entries. cbn [md_setup_args md_setup_ents]. by rewrite take_insert_lt by lia. }
    assert (md_key <$> <[ent := a]> (entries t) = md_key <$> entries t) as Ek.
    { rewrite list_fmap_insert. apply list_insert_id. rewrite list_lookup_fmap, Hb. simpl. by rewrite Hk. }
    split; [split; rewrite ?E; cbn [md_setup_args md_setup_ents]; rewrite ?length_insert; [done | done | by rewrite Ek] |]. rewrite E. split.
    + apply (list_elem_of_lookup_2 _ ent). apply list_lookup_insert_eq. lia.
    + intros c Hc. split; intros Hin'.
      * apply list_elem_of_lookup in Hin' as [i Hi]. destruct (decide (i = ent)) as [-> | Hne]; [rewrite list_lookup_insert_eq in Hi by lia; injection Hi as <-; done |].
        rewrite list_lookup_insert_ne in Hi by done. by eapply list_elem_of_lookup_2.
      * apply list_elem_of_lookup in Hin' as [i Hi]. apply (list_elem_of_lookup_2 _ i). rewrite list_lookup_insert_ne; [done |]. intros <-. rewrite Hb in Hi. injection Hi as <-. done.
Qed.

(** An argument that defines an array puts its definition into the table, in
    the place of an older one of the same array; the other entries stay. *)
Lemma md_setup_defines t str d : md_ok t → md_definition str = Some d → Z.of_nat (length (entries t)) < MAX_MD_DEVS →
  ∃ t' a, md_setup t str = Some t' ∧ md_ok t' ∧ defined_by d a ∧ a ∈ entries t' ∧ (∀ b, md_key b ≠ md_key a → b ∈ entries t' ↔ b ∈ entries t) ∧
    (length (entries t') <= S (length (entries t)))%nat.
Proof.
  intros Hok Hd Hroom. unfold md_definition in Hd. unfold md_setup. destruct (match str with 100 :: str => (true, str) | _ => (false, str) end) as [part str0].
  destruct (get_option str0) as [[r m] s1]. destruct (negb (r =? 2)); [done |]. cbn [orb] in Hd. destruct (MAX_MD_DEVS <=? m); [done |].
  fold (entries t). set (ent := find_ent (entries t) m part).
  assert (ent <= length (entries t))%nat as Hent. { unfold ent. destruct (find_ent_spec (entries t) m part) as [[-> _] | (b & Hb & _)]; [done |]. apply lookup_lt_Some in Hb. lia. }
  rewrite (proj2 (Z.leb_gt _ _)) by lia. cbn [md_setup_args md_setup_ents raid_noautodetect raid_autopart].
  destruct (lookup_lt_is_Some_2 (md_setup_args t) ent) as [old Hold]; [destruct Hok; lia |]. rewrite Hold. cbn [mbind option_bind].
  assert (∀ a, md_key a = (m, part) → ∃ t', Some (mk_table (<[ent := a]> (md_setup_args t)) (if (md_setup_ents t <=? ent)%nat then S (md_setup_ents t) else md_setup_ents t) (raid_noautodetect t) (raid_autopart t)) = Some t' ∧
    md_ok t' ∧ a ∈ entries t' ∧ (∀ b, md_key b ≠ md_key a → b ∈ entries t' ↔ b ∈ entries t) ∧ (length (entries t') <= S (length (entries t)))%nat) as Hput.
  { intros a [= Em Ep]. eexists. split; [done |]. destruct (put_ok t ent a Hok ltac:(lia)) as (H1 & H2 & H3); [unfold ent; congruence |]. split_and!; [done | done | done |].
    unfold entries. cbn [md_setup_ents md_setup_args]. rewrite !length_take, length_insert. destruct Hok. destruct (_ <=? _)%nat; lia. }
  destruct (get_option s1) as [[r1 lvl] s2]. destruct ((r1 =? 2) && _).
  - destruct (get_option s2) as [[r2 factor] s3]. destruct (negb (r2 =? 2)); [done |]. destruct (get_option s3) as [[r3 flt] s4]. destruct (negb (r3 =? 2)); [done |].
    destruct (shift_one (factor + 12)) as [c |]; [| done]. cbn [mbind option_bind] in *. injection Hd as <-.
    destruct (Hput (mk_md m part lvl c (Some s4)) eq_refl) as (t' & E & H1 & H2 & H3 & H4). exists t', (mk_md m part lvl c (Some s4)). by split_and!.
  - injection Hd as <-. destruct (Hput (mk_md m part LEVEL_NONE (chunk old) (Some s1)) eq_refl) as (t' & E & H1 & H2 & H3 & H4). exists t', (mk_md m part LEVEL_NONE (chunk old) (Some s1)). by split_and!.
Qed.

Definition key_of (d : (Z * bool) * Z * option Z * list Z) : Z * bool := let '(key, _, _, _) := d in key.

(** The last definition of each array *)
Fixpoint last_definitions (ds : list ((Z * bool) * Z * option Z * list Z)) : list ((Z * bool) * Z * option Z * list Z) :=
  match ds with
  | [] => []
  | d :: ds => if bool_decide (key_of d ∈ (key_of <$> ds)) then last_definitions ds else d :: last_definitions ds
  end.

Lemma md_args_table ds : ∀ t strs, md_ok t → md_definition <$> strs = Some <$> ds → Z.of_nat (length (entries t) + length strs) <= MAX_MD_DEVS →
  ∃ t', md_args t ((λ str, text "md=" ++ str) <$> strs) = Some t' ∧ md_ok t' ∧
    (∀ d, d ∈ last_definitions ds → ∃ a, a ∈ entries t' ∧ defined_by d a) ∧ (∀ b, md_key b ∉ (key_of <$> ds) → b ∈ entries t → b ∈ entries t').
Proof.
  induction ds as [| d ds IH]; intros t strs Hok Hds Hroom; (destruct strs as [| str strs]; [try done |]); try (cbn in Hds; done).
  - exists t. split_and!; [done | done | intros d Hd; by apply elem_of_nil in Hd | done].
  - rewrite !fmap_cons in Hds. injection Hds as Hd Hds. cbn [length] in Hroom. destruct (md_setup_defines t str d Hok Hd ltac:(lia)) as (t1 & a & E1 & Hok1 & Ha & Hin & Hother & Hlen).
    destruct (IH t1 strs Hok1 Hds ltac:(lia)) as (t' & E' & Hok' & Hdefs & Hkeep). exists t'.
    assert (md_key a = key_of d) as Hk by (destruct d as [[[key lvl] c] names]; by destruct Ha). split_and!.
    + rewrite fmap_cons. cbn [md_args]. assert (behind (text "raid=") (text "md=" ++ str) = None) as -> by done.
      assert (behind (text "md=") (text "md=" ++ str) = Some str) as ->. { unfold behind. rewrite take_app_length, bool_decide_true by done. done. }
      rewrite E1. exact E'.
    + done.
    + intros d' Hd'. cbn [last_definitions] in Hd'. case_bool_decide as Hl; [by apply Hdefs |]. apply elem_of_cons in Hd' as [-> | Hd']; [| by apply Hdefs].
      exists a. split; [| done]. apply Hkeep; [by rewrite Hk | done].
    + intros b Hb Hbt. rewrite fmap_cons in Hb. apply not_elem_of_cons in Hb as [Hne Hb]. apply Hkeep; [done |]. apply Hother; [congruence | done].
Qed.

(** From arguments that all define arrays a table with one entry per array is
    made, and the entry of an array is the last definition of it. *)
Theorem md_table_correct (strs : list (list Z)) (ds : list ((Z * bool) * Z * option Z * list Z)) (Hdefs : md_definition <$> strs = Some <$> ds) (Hroom : Z.of_nat (length strs) <= MAX_MD_DEVS) :
  ∃ t, md_args empty_table ((λ str, text "md=" ++ str) <$> strs) = Some t ∧ NoDup (md_key <$> entries t) ∧ ∀ d, d ∈ last_definitions ds → ∃ a, a ∈ entries t ∧ defined_by d a.
Proof.
  assert (md_ok empty_table) as Hok by (split; [unfold empty_table; cbn [md_setup_args]; by rewrite length_replicate | simpl; lia | apply NoDup_nil_2]).
  destruct (md_args_table ds empty_table strs Hok Hdefs) as (t & E & Ht & Hd & _); [exact Hroom |]. exists t. split; [done |]. split; [apply Ht | done].
Qed.

Lemma md_table_correct_witness : ∃ t, md_args empty_table ((λ str, text "md=" ++ str) <$> [text "0,sda1,sdb1"; text "d1,0,4,0,sdc"; text "0,-1,2,0,sdd"]) = Some t ∧ NoDup (md_key <$> entries t) ∧
  ∀ d, d ∈ last_definitions [((0, false), LEVEL_NONE, None, text "sda1,sdb1"); ((1, true), 0, Some 65536, text "sdc"); ((0, false), LEVEL_LINEAR, Some 16384, text "sdd")] → ∃ a, a ∈ entries t ∧ defined_by d a.
Proof.
  apply (md_table_correct [text "0,sda1,sdb1"; text "d1,0,4,0,sdc"; text "0,-1,2,0,sdd"] [((0, false), LEVEL_NONE, None, text "sda1,sdb1"); ((1, true), 0, Some 65536, text "sdc"); ((0, false), LEVEL_LINEAR, Some 16384, text "sdd")]);
    [vm_compute; reflexivity | simpl; unfold MAX_MD_DEVS; lia].
Defined.

(** An empty word of [raid=] sets everything; a word behind the first is not
    looked at. *)
Example raid_empty : (λ t, (raid_noautodetect t, raid_autopart t)) <$> raid_setup empty_table [] = Some (true, true).
Proof. vm_compute. reflexivity. Qed.
Example raid_second_word : (λ t, (raid_noautodetect t, raid_autopart t)) <$> raid_setup empty_table (text "x,noautodetect") = Some (false, false).
Proof. vm_compute. reflexivity. Qed.

(** ** The calls for an array *)

(** The calls up to the first that fails *)
Definition until_failure (cs : list kcall) (ok : bool) (new : list (kcall * option Z)) : Prop :=
  if ok then new = (λ c, (c, None)) <$> cs
  else ∃ pre c post e, cs = pre ++ c :: post ∧ new = ((λ c, (c, None)) <$> pre) ++ [(c, Some e)].

Lemma until_failure_cons c cs ok new : until_failure cs ok new → until_failure (c :: cs) ok ((c, None) :: new).
Proof.
  destruct ok; simpl; [by intros -> |]. intros (pre & c' & post & e & -> & ->). by exists (c :: pre), c', post, e.
Qed.

Lemma until_failure_app cs cs' ok new new' : until_failure cs true new → until_failure cs' ok new' → until_failure (cs ++ cs') ok (new ++ new').
Proof.
  intros ->. induction cs as [| c cs IH]; [done |]. intros H. cbn [app fmap list_fmap]. apply until_failure_cons. by apply IH.
Qed.

Lemma until_failure_stop cs cs' new : until_failure cs false new → until_failure (cs ++ cs') false new.
Proof. intros (pre & c & post & e & -> & ->). exists pre, c, (post ++ cs'), e. by rewrite <- app_assoc. Qed.

(** The disks, numbered *)
Definition disk_calls (name : list Z) (i : Z) (devs : list Z) : list kcall := imap (λ j dev, KIoctl name ADD_NEW_DISK [i + Z.of_nat j; i + Z.of_nat j; 6; major dev; minor dev]) devs.
Definition member_calls (name : list Z) (devs : list Z) : list kcall := (λ dev, KIoctl name ADD_NEW_DISK [major dev; minor dev]) <$> devs.

(** What starts an array: without a description of its own on the disks, the
    description, the disks and the start, up to the first failure; otherwise
    the disks, whatever happens, and the start. *)
Definition assembled (a : md_arg) (name : list Z) (devs : list Z) (ok : bool) (new : list (kcall * option Z)) : Prop :=
  if level a =? LEVEL_NONE then
    ∃ b r, new = b ++ [(KIoctl name RUN_ARRAY [], r)] ∧ b.*1 = member_calls name devs ∧ (ok = true ↔ r = None)
  else until_failure (KIoctl name SET_ARRAY_INFO [level a; 0; 0; Z.of_nat (length devs); md_minor a; 1; 1; 0; chunk a] :: disk_calls name 0 devs ++ [KIoctl name RUN_ARRAY []]) ok new.

(** All calls of a round: after the array was opened and tested; at the end its
    partitions are read again. *)
Definition array_calls (a : md_arg) (name : list Z) (devs : list Z) (new : list (kcall * option Z)) : Prop :=
  (∃ e, new = [(KOpen name, Some e)]) ∨
  (∃ r b ok end_, new = (KOpen name, None) :: (KIoctl name SET_ARRAY_INFO [], r) :: b ++ end_ ∧ assembled a name devs ok b ∧
     if ok : bool then (∃ e, end_ = [(KOpen name, Some e)]) ∨ (∃ r', end_ = [(KOpen name, None); (KIoctl name BLKRRPART [], r')]) else end_ = []).

Section recorded.
Context (verdict : list (kcall * option Z) → kcall → option Z) (opens : list (kcall * option Z) → list Z → Z + device).
Context (files : list (kcall * option Z) → list Z → option (list Z)) (stats : list (kcall * option Z) → list Z → option (Z * Z)).
Context (report : list (kcall * option Z) → Z → Z) (h : host).
#[local] Instance the_kernel : Root history := recording verdict opens files stats report.
Context (Hkernel : kernel_ok verdict opens report h).

Abbreviation makes := (logged (λ s : kinit (W := history), calls (world s)) (table_ok h)).

Lemma call_made c s : table_ok h s → makes (kcalls c) s (λ ok new _, if ok : bool then new = [(c, None)] else ∃ e, new = [(c, Some e)]).
Proof using Hkernel.
  intros Ht. eapply logged_weaken; [by apply (makes_call verdict opens files stats report h Hkernel) |]. intros ok new s' (-> & _). destruct ok; [done | by eexists].
Qed.

Lemma add_disks_makes name devs : ∀ i s, table_ok h s → makes (add_disks name i devs) s (λ ok new _, until_failure (disk_calls name i devs) ok new).
Proof using Hkernel.
  induction devs as [| dev devs IH]; intros i s Ht; cbn [add_disks]; [by apply logged_ret |].
  assert (disk_calls name i (dev :: devs) = KIoctl name ADD_NEW_DISK [i; i; 6; major dev; minor dev] :: disk_calls name (i + 1) devs) as ->.
  { unfold disk_calls. cbn [imap]. rewrite Z.add_0_r. f_equal. apply imap_ext. intros j d _. unfold compose. by replace (i + Z.of_nat (S j)) with (i + 1 + Z.of_nat j) by lia. }
  eapply logged_bind; [by apply call_made |]. intros ok s1 new Ht1 Hn. destruct ok.
  - rewrite Hn. eapply logged_weaken; [by apply IH |]. intros ok new' s2 H. by apply until_failure_cons.
  - destruct Hn as [e ->]. apply logged_ret; [done |]. rewrite app_nil_r. by eexists [], _, _, e.
Qed.

Lemma add_members_makes name devs : ∀ s, table_ok h s → makes (add_members name devs) s (λ ok new _, ok = true ∧ new.*1 = member_calls name devs).
Proof using Hkernel.
  induction devs as [| dev devs IH]; intros s Ht; cbn [add_members]; [by apply logged_ret |]. eapply logged_bind; [by apply call_made |]. intros ok s1 new Ht1 Hn.
  eapply logged_weaken; [by apply IH |]. intros ok' new' s2 [-> H]. split; [done |]. unfold member_calls. rewrite fmap_app, H. destruct ok; [by rewrite Hn | destruct Hn as [e ->]; done].
Qed.

(** The description, the disks and the start *)
Lemma assemble_makes a name devs s : table_ok h s →
  makes (ok ← (if negb (level a =? LEVEL_NONE) then
                 ok ← kcalls (KIoctl name SET_ARRAY_INFO [level a; 0; 0; Z.of_nat (length devs); md_minor a; 1; 1; 0; chunk a]);
                 if ok : bool then add_disks name 0 devs else mret false
               else add_members name devs);
         if ok : bool then kcalls (KIoctl name RUN_ARRAY []) else mret false) s (λ ok new _, assembled a name devs ok new).
Proof using Hkernel.
  intros Ht. unfold assembled. destruct (Z.eqb_spec (level a) LEVEL_NONE) as [E | E]; cbn [negb].
  - eapply logged_bind; [by apply add_members_makes |]. intros ok s1 new Ht1 [-> Hn]. eapply logged_weaken; [by apply call_made |]. intros ok new' s2 H.
    destruct ok; [exists new, None; by rewrite H | destruct H as [e ->]; by exists new, (Some e)].
  - set (info := KIoctl name SET_ARRAY_INFO _).
    eapply (logged_bind _ _ _ (λ ok new _, until_failure (info :: disk_calls name 0 devs) ok new)).
    { eapply logged_bind; [by apply call_made |]. intros ok s1 new Ht1 Hn. destruct ok.
      - rewrite Hn. eapply logged_weaken; [by apply add_disks_makes |]. intros ok new' s2 H. by apply until_failure_cons.
      - destruct Hn as [e ->]. apply logged_ret; [done |]. rewrite app_nil_r. by eexists [], _, _, e. }
    intros ok s1 new Ht1 Hn. destruct ok.
    + eapply logged_weaken; [by apply call_made |]. intros ok new' s2 H. apply (until_failure_app (info :: disk_calls name 0 devs) _ _ _ _ Hn).
      destruct ok; [by rewrite H | destruct H as [e ->]; by eexists [], _, [], e].
    + apply logged_ret; [done |]. rewrite app_nil_r. by apply (until_failure_stop (info :: disk_calls name 0 devs)).
Qed.

Lemma start_array_makes a name devs s : table_ok h s → makes (start_array a name devs) s (λ _ new _, array_calls a name devs new).
Proof using Hkernel.
  intros Ht. unfold start_array. eapply logged_bind; [by apply call_made |]. intros ok s1 new Ht1 Hn. destruct ok; cbn [negb].
  2: { destruct Hn as [e ->]. apply logged_ret; [done |]. left. by exists e. }
  rewrite Hn. eapply logged_bind; [by apply call_made |]. intros okt s2 newt Ht2 Hnt. assert (∃ r, newt = [(KIoctl name SET_ARRAY_INFO [], r)]) as [r ->] by (destruct okt; [by eexists | destruct Hnt as [e ->]; by eexists]).
  apply logged_assoc. eapply logged_bind; [by apply (assemble_makes a name devs) |]. intros ok s3 b Ht3 Hb. destruct ok.
  - eapply logged_bind; [by apply call_made |]. intros ok4 s4 new4 Ht4 Hn4. destruct ok4.
    + eapply logged_bind; [by apply call_made |]. intros ok5 s5 new5 Ht5 Hn5. apply logged_ret; [done |]. rewrite app_nil_r. right. exists r, b, true, (new4 ++ new5). cbn [app].
      split; [done |]. split; [done |]. right. rewrite Hn4. destruct ok5; [exists None; by rewrite Hn5 | destruct Hn5 as [e ->]; by exists (Some e)].
    + destruct Hn4 as [e ->]. eapply (logged_bind _ _ _ (λ _ new _, new = [])); [by apply logged_ret |]. intros ok5 s5 new5 Ht5 ->. apply logged_ret; [done |]. right.
      exists r, b, true, [(KOpen name, Some e)]. cbn [app]. split; [done |]. split; [done |]. left. by exists e.
  - apply logged_ret; [done |]. right. exists r, b, false, []. cbn [app]. done.
Qed.

Lemma create_node_makes name dev s : table_ok h s → makes (create_dev name dev) s (λ _ new _, ∃ u m, new = [(KUnlink name, u); (KMknod name (Z.lor S_IFBLK 0x180) dev, m)]).
Proof using Hkernel.
  intros Ht. unfold create_dev. eapply logged_bind; [by apply (makes_call verdict opens files stats report h Hkernel) |]. intros ok s1 new Ht1 (-> & _).
  eapply logged_weaken; [by apply (makes_call verdict opens files stats report h Hkernel) |]. intros ok' new' s2 (-> & _). do 2 eexists. reflexivity.
Qed.

(** The numbers of the known disks at the front of the list *)
Fixpoint disks_at (l : list (kcall * option Z)) (n : nat) (names : list (list Z)) : list Z :=
  match n, names with
  | S n, name :: names =>
      let dev := default 0 (name_to_dev_t (files l) (stats l) name) in
      if dev =? 0 then [] else dev :: disks_at l n names
  | _, _ => []
  end.

Lemma device_for_at name s : readable name = true → device_for name s = Ret (default 0 (name_to_dev_t (files (calls (world s))) (stats (calls (world s))) name), s).
Proof using Type.
  intros Hn. destruct (name_to_dev_t (files (calls (world s))) (stats (calls (world s))) name) as [d |] eqn:E; unfold device_for, mbind, prog_bind, get_st, of_option.
  - change (name_to_dev_t (λ path, kfile path (world s)) (λ path, kstat path (world s)) name) with (name_to_dev_t (files (calls (world s))) (stats (calls (world s))) name). by rewrite E.
  - exfalso. unfold name_to_dev_t in E. destruct (bool_decide (44 ∈ name)); [done |]. destruct (block_node _ _); [done |]. destruct (bool_decide (take 5 name = _)); [done |].
    unfold device_number, readable in *. destruct name as [| c name]; [done |]. cbn [head] in *. change (default 0 (Some c)) with c in E.
    destruct (Z.eqb_spec c 47) as [-> |]; [| done]. rewrite bool_decide_eq_true_2 in Hn by done. apply negb_true_iff in Hn. cbn [andb] in Hn. by rewrite Hn in E.
Qed.

Lemma find_disks_at n : ∀ names s, forallb readable names = true → find_disks n names s = Ret (disks_at (calls (world s)) n names, s).
Proof using Type.
  induction n as [| n IH]; intros names s Hn; [by destruct names |]. destruct names as [| name names]; [done |]. apply andb_true_iff in Hn as [Hn Hns]. cbn [find_disks disks_at].
  rewrite (pbind_ok _ _ _ _ _ (device_for_at name s Hn)). destruct (_ =? 0); [done |]. by rewrite (pbind_ok _ _ _ _ _ (IH names s Hns)).
Qed.

Definition disk_names (a : md_arg) : list (list Z) := match device_names a with Some names => split_commas [] names | None => [] end.

Lemma find_named_disks a s : forallb readable (disk_names a) = true →
  (match device_names a with Some names => find_disks MD_SB_DISKS (split_commas [] names) | None => mret [] end) s = Ret (disks_at (calls (world s)) MD_SB_DISKS (disk_names a), s).
Proof using Type. unfold disk_names. intros Hn. destruct (device_names a) as [names |]; [by apply find_disks_at | done]. Qed.

(** What is done for an entry of the table *)
Definition entry_calls (a : md_arg) (l new : list (kcall * option Z)) : Prop :=
  if bool_decide (stats l (md_name a) ≠ None) then new = []
  else ∃ u m b, let made := [(KUnlink (md_name a), u); (KMknod (md_name a) (Z.lor S_IFBLK 0x180) (makedev MD_MAJOR (md_minor a)), m)] in
    let devs := disks_at (l ++ made) MD_SB_DISKS (disk_names a) in
    new = made ++ b ∧ if bool_decide (devs = []) then b = [] else array_calls a (md_name a) devs b.

Lemma drive_set_up (a : md_arg) (s : kinit (W := history)) (Hpart : partitioned a = false) (Hnames : forallb readable (disk_names a) = true) (Ht : table_ok h s) :
  makes (setup_drive a) s (λ _ new _, entry_calls a (calls (world s)) new).
Proof using Hkernel.
  unfold setup_drive, entry_calls. apply logged_get. change (kstat (md_name a) (world s)) with (stats (calls (world s)) (md_name a)).
  destruct (stats (calls (world s)) (md_name a)) as [x |]; [rewrite bool_decide_true by done; by apply logged_ret |]. rewrite bool_decide_false by tauto. rewrite Hpart.
  eapply (logged_bind_at _ _ _ (λ dev new s', dev = makedev MD_MAJOR (md_minor a) ∧ new = [] ∧ s' = s)); [by apply logged_ret |]. intros dev s0 new0 _ _ (-> & -> & ->).
  eapply logged_bind_at; [by apply create_node_makes |]. intros ok s1 new1 Hc1 Ht1 (u & m & ->).
  eapply (logged_bind_at _ _ _ (λ devs new s', devs = disks_at (calls (world s1)) MD_SB_DISKS (disk_names a) ∧ new = [] ∧ s' = s1)).
  { exists (disks_at (calls (world s1)) MD_SB_DISKS (disk_names a)), s1, []. rewrite app_nil_r. split; [by apply find_named_disks | done]. }
  intros devs s2 new2 _ _ (Hdevs & -> & ->). rewrite Hc1 in Hdevs. cbn [app]. destruct devs as [| d devs].
  - apply logged_ret; [done |]. exists u, m, []. cbv zeta. cbn [app]. rewrite <- Hdevs. by rewrite bool_decide_true.
  - eapply logged_weaken; [by apply start_array_makes |]. intros [] b s3 Hb. exists u, m, b. cbv zeta. cbn [app]. rewrite <- Hdevs. by rewrite bool_decide_false.
Qed.

(** C22.  An array that is not partitioned and has no node yet: its node is made,
    the disks of its list are looked up to the first that is not known, and if
    there are any the array is opened and assembled from exactly these disks, in
    their order.  An array that is described on the command line gets its
    description first, and a call that fails is the last; one that describes
    itself gets all its disks; only an array that was started has its
    partitions read. *)
Theorem md_array_made (a : md_arg) (s : kinit (W := history)) (Hpart : partitioned a = false) (Hnames : forallb readable (disk_names a) = true) (Ht : table_ok h s) :
  makes (setup_drive a) s (λ _ new _, entry_calls a (calls (world s)) new).
Proof using Hkernel. by apply drive_set_up. Qed.

(** ** Nothing is mounted *)

Abbreviation quiet := (Forall (λ x : kcall * option Z, is_mount x = false)).

Lemma calls_quiet (cs : list kcall) (new : list (kcall * option Z)) : Forall (λ c, is_mount (c, None) = false) cs → new.*1 ⊆ cs → quiet new.
Proof using Type.
  intros Hcs Hsub. apply Forall_forall. intros [c r] Hx. change (is_mount (c, r)) with (is_mount (c, None)). apply (proj1 (Forall_forall _ cs) Hcs), Hsub. by apply (list_elem_of_fmap_2 fst) in Hx.
Qed.

Lemma until_failure_calls cs ok new : until_failure cs ok new → new.*1 ⊆ cs.
Proof using Type.
  destruct ok; simpl.
  - intros ->. rewrite <- list_fmap_compose. intros c Hc. apply list_elem_of_fmap in Hc as (c' & -> & Hc). done.
  - intros (pre & c & post & e & -> & ->). rewrite fmap_app, <- list_fmap_compose. intros c' Hc. apply elem_of_app in Hc as [Hc | Hc].
    + apply list_elem_of_fmap in Hc as (c'' & -> & Hc). apply elem_of_app. by left.
    + apply list_elem_of_singleton in Hc as ->. apply elem_of_app. right. left.
Qed.

Lemma disk_calls_quiet name i devs : Forall (λ c, is_mount (c, None) = false) (disk_calls name i devs).
Proof using Type. revert i. unfold disk_calls. induction devs as [| d devs IH]; intros i; [constructor |]. cbn [imap]. constructor; [done |]. rewrite Forall_forall. intros c Hc. apply elem_of_lookup_imap in Hc as (j & d' & -> & _). done. Qed.

Lemma array_calls_quiet a name devs new : array_calls a name devs new → quiet new.
Proof using Type.
  intros [[e ->] | (r & b & ok & en & -> & Hb & He)]; [by repeat constructor |]. constructor; [done |]. constructor; [done |]. apply Forall_app. split.
  - unfold assembled in Hb. destruct (_ =? _).
    + destruct Hb as (b' & r' & -> & Hb' & _). apply Forall_app. split; [| by repeat constructor]. apply (calls_quiet (member_calls name devs)); [| by rewrite Hb'].
      unfold member_calls. rewrite Forall_fmap. by apply Forall_true.
    + apply until_failure_calls in Hb. eapply calls_quiet; [| exact Hb]. constructor; [done |]. apply Forall_app. split; [apply disk_calls_quiet | by repeat constructor].
  - destruct ok; [| by subst]. destruct He as [[e ->] | [r' ->]]; by repeat constructor.
Qed.

Lemma entry_calls_quiet a l new : entry_calls a l new → quiet new.
Proof using Type.
  unfold entry_calls. destruct (bool_decide _); [by intros -> |]. intros (u & m & b & -> & Hb). constructor; [done |]. constructor; [done |].
  destruct (bool_decide _); [by subst | by eapply array_calls_quiet].
Qed.

(** The file of the devices can always be read. *)
Context (Hdevices : ∀ l, files l (text "/proc/devices") ≠ None).
Abbreviation ends := (ends_in (λ s : kinit (W := history), calls (world s)) (table_ok h) (λ code, code = 1)).

Lemma setup_drive_quiet a s : forallb readable (disk_names a) = true → table_ok h s → ends (setup_drive a) s (λ _ new _, quiet new).
Proof using Hkernel Hdevices.
  intros Hn Ht. destruct (partitioned a) eqn:Hp.
  - unfold setup_drive. apply ends_get. destruct (kstat (md_name a) (world s)); [by apply ends_ret |]. rewrite Hp.
    destruct (files (calls (world s)) (text "/proc/devices")) as [file |] eqn:Ef; [| by apply Hdevices in Ef].
    unfold ends_in. erewrite pbind_exit; [done |]. apply pbind_exit. by apply (mdp_major_exits s file).
  - apply ends_logged. eapply logged_weaken; [by apply drive_set_up |]. intros [] new s' H. by eapply entry_calls_quiet.
Qed.

Lemma md_setup_drive_quiet ents : ∀ s, Forall (λ a, forallb readable (disk_names a) = true) ents → table_ok h s → ends (md_setup_drive ents) s (λ _ new _, quiet new).
Proof using Hkernel Hdevices.
  induction ents as [| a ents IH]; intros s Hn Ht; [by apply ends_ret |]. apply Forall_cons in Hn as [Ha Hn]. cbn [md_setup_drive].
  eapply ends_bind; [by apply setup_drive_quiet |]. intros [] s1 new Ht1 H. eapply ends_weaken; [by apply IH |]. intros [] new' s2 H'. by apply Forall_app.
Qed.

(** The names of the disks of all arrays can be looked up. *)
Definition md_readable (argv : list (list Z)) : Prop :=
  match md_args empty_table argv with Some t => Forall (λ a, forallb readable (disk_names a) = true) (entries t) | None => False end.

Lemma md_run_quiet argv s : md_readable argv → table_ok h s → ends (md_run argv) s (λ _ new _, quiet new).
Proof using Hkernel Hdevices.
  unfold md_readable, md_run. destruct (md_args empty_table argv) as [t |]; [| done]. intros Hn Ht. cbn [of_option].
  eapply (ends_bind (mret t) _ s (λ t' new _, t' = t ∧ new = [])); [by apply ends_ret |]. intros t' s0 new0 Ht0 [-> ->]. unfold md_run_setup.
  eapply ends_bind; [apply ends_logged; by apply create_node_makes |]. intros ok s1 new1 Ht1 (u & m & ->).
  eapply (ends_bind _ _ s1 (λ _ new _, quiet new)).
  { destruct (raid_noautodetect t); [by apply ends_ret |]. apply ends_logged. eapply logged_bind; [by apply call_made |]. intros ok2 s2 new2 Ht2 Hn2. destruct ok2.
    - rewrite Hn2. eapply logged_weaken; [by apply call_made |]. intros ok3 new3 s3 Hn3. constructor; [done |]. destruct ok3; [rewrite Hn3 | destruct Hn3 as [e ->]]; by repeat constructor.
    - destruct Hn2 as [e ->]. apply logged_ret; [done |]. by repeat constructor. }
  intros ok2 s2 new2 Ht2 H2. eapply ends_weaken; [by apply md_setup_drive_quiet |]. intros [] new3 s3 H3. cbn [app]. constructor; [done |]. constructor; [done |]. by apply Forall_app.
Qed.
End recorded.

(** ** An example

    Two disks in an array that describes itself. *)

Definition md_files (path : list Z) : option (list Z) :=
  if bool_decide (path = text "/sys/block/sda/dev") then Some (text "8:0" ++ [10])
  else if bool_decide (path = text "/sys/block/sdb/dev") then Some (text "8:16" ++ [10])
  else None.

Definition md_entry : md_arg := mk_md 3 false LEVEL_NONE 0 (Some (text "sda,sdb,nothing,sda")).

Lemma md_kernel_ok : kernel_ok (λ _ _, None) (λ _ _, inr example_device) (λ _ e, e) example_host.
Proof. split; [done | done | | done | exact example_host_ok]. intros _ _ fd [= <-]. exact example_image_ok. Qed.

Definition calls_of {A} (r : outcome (A * kinit (W := history))) : option (list kcall) := match r with Ret (_, s) => Some (calls (world s)).*1 | _ => None end.

Lemma md_array_made_witness : ∃ u s', setup_drive (Root0 := recording (λ _ _, None) (λ _ _, inr example_device) (λ _, md_files) (λ _ _, None) (λ _ e, e)) md_entry example_kinit = Ret (u, s') ∧
  calls_of (Ret (u, s')) = Some [KUnlink (text "/dev/md3"); KMknod (text "/dev/md3") 0x6180 (makedev 9 3); KOpen (text "/dev/md3"); KIoctl (text "/dev/md3") SET_ARRAY_INFO [];
    KIoctl (text "/dev/md3") ADD_NEW_DISK [8; 0]; KIoctl (text "/dev/md3") ADD_NEW_DISK [8; 16]; KIoctl (text "/dev/md3") RUN_ARRAY []; KOpen (text "/dev/md3"); KIoctl (text "/dev/md3") BLKRRPART []].
Proof.
  destruct (md_array_made (λ _ _, None) (λ _ _, inr example_device) (λ _, md_files) (λ _ _, None) (λ _ e, e) example_host md_kernel_ok md_entry example_kinit eq_refl eq_refl (same_table_refl _ _)) as (u & s' & new & E & _).
  exists u, s'. split; [exact E |]. rewrite <- E. vm_compute. reflexivity.
Defined.
