(* ===== verification/Initrd.v ===== *)
(** * The initial RAM disk and the loading of RAM disks: [kinit/initrd.c] and [ramdisk_load] of [kinit/ramdisk_load.c]

    In the world of [DoMounts], with the copying of [Ramdisk].  The contents of
    [/dev/ram0] are written with one call here, [KWrite]; how the single reads
    and writes go is part of the world.

    The theorems: the RAM disk gets the image, unpacked if it is compressed; if
    there is no image, it cannot be copied, or it is the root itself, nothing
    else is done and the root is mounted as usual: then exactly one mount has
    succeeded if the result is 0, and it was the last one. *)

From stdpp Require Import base numbers list strings.
From Stdlib Require Import Lia.
From S2P Require Import Prelude Prog Numparse Inet Ipconfig Kinit Devno Mount Fstype Rootdev DoMounts Ramdisk Md.

#[local] Set Warnings "-register-all".

Definition MNT_DETACH : Z := 2.
Definition ramdisk_name : list Z := text "/dev/ram0".
Definition initrd_image : list Z := text "/initrd.image".
Definition real_root_dev : list Z := text "/proc/sys/kernel/real-root-dev".

(** The contents of the RAM disk, how the reads and writes of a copying go, the
    disks that are put into a drive one after the other, and whether keys are
    pressed *)
Class Ram (W : Type) := {
  kram : W → list Z;
  kanswers : W → nat → Ramdisk.answer;
  kmedia : W → list Z → list (option medium);
}.

Section initrd.
Context {W : Type} `{!Root W, !Ram W} (h : host).
Abbreviation st := (kinit (W := W)).
Context {decoder : Type} (inflate : decoder → list Z → nat → Z * nat * list Z * decoder) (inflateInit : option decoder).
(** Bounds of the rounds of a copying and of the calls of a round; [junk] is what
    is in the buffer of the stack. *)
Context (fuel tries : nat) (junk : list Z).

(** ** The copying *)

Definition rd_copy_image (path : list Z) : prog st Z :=
  s ← get_st;
  match kfile path (world s) with
  | None => mret (-1)
  | Some file =>
      '(r, magic, _) ← of_option (xpread (kanswers (world s)) tries 0 file [0; 0] 2 0);
      let packed := (r =? 2) && bool_decide (magic = [0x1f; 0x8b]) in
      opened ← kcalls (KOpen ramdisk_name);
      if negb opened then mret (-1)
      else if packed then
        '(rv, out) ← of_option (load_ramdisk_compressed (kanswers (world s)) inflate fuel tries inflateInit [Some (mk_medium false file)] 0);
        kcalls (KWrite ramdisk_name out);;
        mret rv
      else
        '(rv, ram, _) ← of_option (rd_copy_uncompressed (kanswers (world s)) fuel tries 0 true file (kram (world s)) junk);
        kcalls (KWrite ramdisk_name ram);;
        mret rv
  end.

(** ** The program [/linuxrc] *)

(** The conditions of the code with [||]: the calls up to the first that fails *)
Fixpoint all_calls (cs : list kcall) : prog st bool :=
  match cs with
  | [] => mret true
  | c :: cs => ok ← kcalls c; if ok : bool then all_calls cs else mret false
  end.
Definition minus_errno : prog st Z := s ← get_st; mret (- errno s).

Context (mount_nfs_root : list (list Z) → Z → prog st Z).

(** What follows when [/linuxrc] has ended: the initial RAM disk becomes the
    root, or the real root is mounted and it is put away *)
Definition after_linuxrc (argv : list (list Z)) : prog st Z :=
  s ← get_st;
  let realroot := (getintfile (λ path, kfile path (world s)) real_root_dev Root_RAM0).2 in
  if realroot =? Root_RAM0 then
    moved ← kcalls (KMove (text "/old") (text "/root"));
    if negb moved then minus_errno else kcalls (KRmdir (text "/old"));; mret 0
  else
    mount_root h mount_nfs_root argv (u32 realroot) None;;
    moved ← kcalls (KMove (text "/old") (text "/root/initrd"));
    (if moved : bool then mret true
     else
       opened ← kcalls (KOpen ramdisk_name);
       kcalls (KUmount (text "/old") MNT_DETACH);;
       (if opened : bool then kcalls (KIoctl ramdisk_name BLKFLSBUF [0]) else mret false));;
    kcalls (KRmdir (text "/old"));;
    mret 0.

Definition run_linuxrc (argv : list (list Z)) (root_dev : Z) : prog st Z :=
  kcalls (KMkdir (text "/root") 0x1c0);;
  mounted ← mount_block h ramdisk_name (text "/root") None MS_VERBOSE None;
  match mounted with
  | None => minus_errno
  | Some _ =>
      ok ← kcalls (KWrite real_root_dev (dec root_dev));
      if negb ok then crash
      else
        kcalls (KMkdir (text "/old") 0x1c0);;
        root_fd ← kcalls (KOpen (text "/"));
        old_fd ← kcalls (KOpen (text "/old"));
        if negb root_fd || negb old_fd then minus_errno
        else
          ok ← all_calls [KChdir (text "/root"); KMove (text ".") (text "/"); KChroot (text "."); KRun (text "/linuxrc");
                          KFchdir (text "/old"); KMove (text "/") (text "."); KFchdir (text "/"); KChroot (text ".")];
          if negb ok then minus_errno else after_linuxrc argv
  end.

Definition initrd_load (argv : list (list Z)) (root_dev : Z) : prog st bool :=
  found ← kcalls (KAccess initrd_image);
  if negb found then mret false
  else
    create_dev ramdisk_name Root_RAM0;;
    rv ← rd_copy_image initrd_image;
    unlinked ← (if negb (rv =? 0) then mret false else kcalls (KUnlink initrd_image));
    if negb unlinked then mret false
    else if root_dev =? Root_MULTI then mret false
    else if negb (root_dev =? Root_RAM0) then run_linuxrc argv root_dev;; mret true
    else mret false.

(** ** Loading a RAM disk *)

(** [strtoumax(arg, NULL, 10) * ramdisk_blocksize] *)
Definition ramdisk_start (argv : list (list Z)) : Z :=
  let blocksize := match get_arg argv (text "ramdisk_blocksize=") with Some a => int_arg a | None => 512 end in
  match get_arg argv (text "ramdisk_start=") with Some a => s64 ((parse_num 10 a).1 * blocksize) | None => 0 end.

Definition rddev : list Z := text "/dev/rddev".

Definition ramdisk_load (argv : list (list Z)) : prog st bool :=
  let start := ramdisk_start argv in
  ramdisk_dev ← device_for (default (text "/dev/fd0") (get_arg argv (text "ramdisk_device=")));
  if ramdisk_dev =? 0 then mret false
  else
    create_dev rddev ramdisk_dev;;
    create_dev ramdisk_name Root_RAM0;;
    s ← get_st;
    wfd ← kcalls (KOpen ramdisk_name);
    match kopen rddev (world s) with
    | inl e => mret false
    | inr fd =>
        if negb wfd then mret false
        else
          s ← get_st;
          match identify_fs h (images s) fd start with
          | None => crash
          | Some ((err, type, fssize), images) =>
              put_st (mk_kinit (errno s) images (world s));;
              let is_gzip := bool_decide (type = Some (text "gzip")) in
              if negb (err =? 0) || ((fssize =? 0) && negb is_gzip) then mret false
              else
                let disks := kmedia (world s) rddev in
                '(rv, out) ← of_option (if (fssize =? 0) && is_gzip then load_ramdisk_compressed (kanswers (world s)) inflate fuel tries inflateInit disks start
                                        else load_ramdisk_raw (kanswers (world s)) fuel tries disks start fssize);
                kcalls (KWrite ramdisk_name out);;
                mret (rv =? 0)
          end
    end.

(** [do_mounts] with all its parts *)
Definition full_do_mounts (argv : list (list Z)) : prog st Z := do_mounts h mount_nfs_root md_run initrd_load ramdisk_load argv.
End initrd.

(** ** What is called *)

(** From the initial RAM disk and back *)
Definition switch_calls : list kcall :=
  [KChdir (text "/root"); KMove (text ".") (text "/"); KChroot (text "."); KRun (text "/linuxrc");
   KFchdir (text "/old"); KMove (text "/") (text "."); KFchdir (text "/"); KChroot (text ".")].

Section recorded.
Context (verdict : list (kcall * option Z) → kcall → option Z) (opens : list (kcall * option Z) → list Z → Z + device).
Context (files : list (kcall * option Z) → list Z → option (list Z)) (stats : list (kcall * option Z) → list Z → option (Z * Z)).
Context (report : list (kcall * option Z) → Z → Z) (h : host).
#[local] Instance a_kernel : Root history := recording verdict opens files stats report.
Context (rams : list (kcall * option Z) → list Z) (answers : list (kcall * option Z) → nat → Ramdisk.answer) (disks : list (kcall * option Z) → list Z → list (option medium)).
#[local] Instance a_ram : Ram history := {| kram w := rams (calls w); kanswers w := answers (calls w); kmedia w := disks (calls w) |}.
Context {decoder : Type} (inflate : decoder → list Z → nat → Z * nat * list Z * decoder) (inflateInit : option decoder) (fuel tries : nat) (junk : list Z).

Context (Hkernel : kernel_ok verdict opens report h).
Abbreviation makes := (logged (λ s : kinit (W := history), calls (world s)) (table_ok h)).
Abbreviation ends := (ends_in (λ s : kinit (W := history), calls (world s)) (table_ok h) (λ code, code = 1)).
Abbreviation quiet := (Forall (λ x : kcall * option Z, is_mount x = false)).
Abbreviation copy_image := (rd_copy_image inflate inflateInit fuel tries junk).

Lemma call_fails c s : table_ok h s → makes (kcalls c) s (λ ok new s', if ok : bool then new = [(c, None)] else new = [(c, Some (errno s'))] ∧ 0 < errno s').
Proof using Hkernel.
  intros Ht. eapply logged_weaken; [by apply (makes_call verdict opens files stats report h Hkernel) |]. intros ok new s' (-> & He & _). destruct ok; [done | auto].
Qed.

Lemma call_any c s : table_ok h s → makes (kcalls c) s (λ _ new _, ∃ r, new = [(c, r)]).
Proof using Hkernel. intros Ht. eapply logged_weaken; [by apply call_fails |]. intros [] new s' H; [by eexists | destruct H as [-> _]; by eexists]. Qed.

Lemma all_calls_makes cs : ∀ s, table_ok h s → makes (all_calls cs) s (λ ok new s', until_failure cs ok new ∧ (ok = false → 0 < errno s')).
Proof using Hkernel.
  induction cs as [| c cs IH]; intros s Ht; cbn [all_calls]; [by apply logged_ret |]. eapply logged_bind; [by apply call_fails |]. intros ok s1 new Ht1 Hn. destruct ok.
  - rewrite Hn. eapply logged_weaken; [by apply IH |]. intros ok new' s2 [H He]. split; [by apply until_failure_cons | done].
  - destruct Hn as [-> He]. apply logged_ret; [done |]. rewrite app_nil_r. split; [by eexists [], _, _, _ | done].
Qed.

Lemma minus_errno_makes s : table_ok h s → makes minus_errno s (λ ret new _, ret = - errno s ∧ new = []).
Proof using Type. intros Ht. unfold minus_errno. apply logged_get. by apply logged_ret. Qed.

Lemma given_makes {A} (x : A) s : table_ok h s → makes (of_option (Some x)) s (λ y new s', y = x ∧ new = [] ∧ s' = s).
Proof using Type. intros Ht. by apply (logged_ret x). Qed.

(** *** The copying *)

(** The copying returns. *)
Definition copies (l : list (kcall * option Z)) (path : list Z) : Prop :=
  match files l path with
  | None => True
  | Some file =>
      is_Some (xpread (answers l) tries 0 file [0; 0] 2 0) ∧ is_Some (load_ramdisk_compressed (answers l) inflate fuel tries inflateInit [Some (mk_medium false file)] 0) ∧
      is_Some (rd_copy_uncompressed (answers l) fuel tries 0 true file (rams l) junk)
  end.

(** *** The program *)

(** As in [DoMounts], the root by NFS returns or ends kinit with 1, and what it
    does is the parameter [nfs]. *)
Context (mount_nfs_root : list (list Z) → Z → prog (kinit (W := history)) Z) (nfs : Z → list (kcall * option Z) → Prop).
Context (Hnfs : ∀ argv flags s, table_ok h s → ends (mount_nfs_root argv flags) s (λ ret new _, nfs ret new)).

(** The RAM disk is put away: moved into the real root, or detached and
    emptied *)
Definition put_away (new : list (kcall * option Z)) : Prop :=
  (∃ r, new = [(KMove (text "/old") (text "/root/initrd"), None); (KRmdir (text "/old"), r)]) ∨
  (∃ e u r, new = [(KMove (text "/old") (text "/root/initrd"), Some e); (KOpen ramdisk_name, Some u); (KUmount (text "/old") MNT_DETACH, r.1); (KRmdir (text "/old"), r.2)]) ∨
  (∃ e u f r, new = [(KMove (text "/old") (text "/root/initrd"), Some e); (KOpen ramdisk_name, None); (KUmount (text "/old") MNT_DETACH, u); (KIoctl ramdisk_name BLKFLSBUF [0], f); (KRmdir (text "/old"), r)]).

(** The end of the hand-over, by what [/linuxrc] left in [real-root-dev]: the
    RAM disk becomes the root, or the real root is tried, with the result
    [ret], which is not looked at, and the RAM disk is put away. *)
Definition handed_over (l new : list (kcall * option Z)) : Prop :=
  if (getintfile (files l) real_root_dev Root_RAM0).2 =? Root_RAM0
  then ∃ r, new = [(KMove (text "/old") (text "/root"), None); (KRmdir (text "/old"), r)]
  else ∃ ret root rest, new = root ++ rest ∧ root_outcome nfs ret root ∧ put_away rest.

Lemma after_linuxrc_makes argv s : table_ok h s → ends (after_linuxrc h mount_nfs_root argv) s (λ ret new _, ret = 0 → handed_over (calls (world s)) new).
Proof using Hkernel Hnfs.
  intros Ht. unfold after_linuxrc, handed_over. apply ends_get. change (λ path, kfile path (world s)) with (files (calls (world s))). destruct (_ =? Root_RAM0).
  - apply ends_logged. eapply logged_bind; [by apply call_fails |]. intros ok s1 new Ht1 Hn. destruct ok; cbn [negb].
    + rewrite Hn. eapply logged_bind; [by apply call_any |]. intros ok2 s2 new2 Ht2 [r ->]. apply logged_ret; [done |]. intros _. by exists r.
    + destruct Hn as [-> He]. eapply logged_weaken; [by apply minus_errno_makes |]. intros ret new' s2 [-> ->]. lia.
  - eapply ends_bind; [by apply (mount_root_makes verdict opens files stats report h Hkernel mount_nfs_root nfs Hnfs) |]. intros ret s1 root Ht1 Hroot.
    apply ends_logged. eapply logged_bind; [by apply call_fails |]. intros moved s2 new2 Ht2 Hm. destruct moved.
    + eapply (logged_bind _ _ s2 (λ _ new _, new = [])); [by apply logged_ret |]. intros b s3 new3 Ht3 ->. eapply logged_bind; [by apply call_any |]. intros ok4 s4 new4 Ht4 [r ->].
      apply logged_ret; [done |]. intros _. exists ret, root, (new2 ++ [(KRmdir (text "/old"), r)]). cbn [app]. split; [done |]. split; [done |]. left. exists r. by rewrite Hm.
    + destruct Hm as [-> _].
      eapply (logged_bind _ _ s2 (λ _ new _, (∃ u r, new = [(KOpen ramdisk_name, Some u); (KUmount (text "/old") MNT_DETACH, r)]) ∨ (∃ u f, new = [(KOpen ramdisk_name, None); (KUmount (text "/old") MNT_DETACH, u); (KIoctl ramdisk_name BLKFLSBUF [0], f)]))).
      { eapply logged_bind; [by apply call_fails |]. intros opened s3 new3 Ht3 Ho. eapply logged_bind; [by apply call_any |]. intros um s4 new4 Ht4 [r4 ->]. destruct opened.
        - eapply logged_weaken; [by apply call_any |]. intros f new5 s5 [r5 ->]. right. rewrite Ho. by exists r4, r5.
        - destruct Ho as [-> _]. apply logged_ret; [done |]. left. by eexists _, r4. }
      intros b s3 new3 Ht3 H3. eapply logged_bind; [by apply call_any |]. intros ok4 s4 new4 Ht4 [r ->]. apply logged_ret; [done |]. intros _. eexists ret, root, _. split; [reflexivity |]. split; [done |].
      destruct H3 as [(u & r3 & ->) | (u & f & ->)]; [right; left; by eexists _, u, (r3, r) | right; right; by eexists _, u, f, r].
Qed.

(** The calls when all went well *)
Definition linuxrc_calls (root_dev : Z) (l new : list (kcall * option Z)) : Prop :=
  ∃ r mnt r' tail, let pre := ((KMkdir (text "/root") 0x1c0, r) :: mnt) ++
      [(KWrite real_root_dev (dec root_dev), None); (KMkdir (text "/old") 0x1c0, r'); (KOpen (text "/"), None); (KOpen (text "/old"), None)] ++ ((λ c, (c, None)) <$> switch_calls) in
    new = pre ++ tail ∧ mounted_last true mnt ∧ handed_over (l ++ pre) tail.

(** The file of the root device can be written. *)
Context (Hproc : ∀ l dev, verdict l (KWrite real_root_dev dev) = None).

Lemma linuxrc_run argv root_dev s : table_ok h s → ends (run_linuxrc h mount_nfs_root argv root_dev) s (λ ret new _, ret = 0 → linuxrc_calls root_dev (calls (world s)) new).
Proof using Hkernel Hnfs Hproc.
  intros Ht. unfold run_linuxrc. eapply ends_bind_at; [apply ends_logged; by apply call_any |]. intros ok0 s0 new0 Hc0 Ht0 [r ->].
  eapply ends_bind_at; [apply ends_logged; by apply (mount_block_makes verdict opens files stats report h Hkernel) |]. intros mounted s1 mnt Hc1 Ht1 [Hm He]. apply tries_all_mounted in Hm.
  destruct mounted as [type |].
  2: { apply ends_logged. eapply logged_weaken; [by apply minus_errno_makes |]. intros ret new s' [-> ->] E. specialize (He eq_refl). lia. }
  eapply (ends_bind_at _ _ s1 (λ ok new _, ok = true ∧ new = [(KWrite real_root_dev (dec root_dev), None)])).
  { apply ends_logged. unfold logged, kcalls. change (kdo ?c (world s1)) with (verdict (calls (world s1)) c, mk_history (calls (world s1) ++ [(c, verdict (calls (world s1)) c)])). rewrite Hproc. eexists true, _, _. split; [reflexivity |]. by split. }
  intros ok2 s2 new2 Hc2 Ht2 [-> ->]. cbn [negb]. eapply ends_bind_at; [apply ends_logged; by apply call_any |]. intros ok3 s3 new3 Hc3 Ht3 [r' ->].
  eapply ends_bind_at; [apply ends_logged; by apply call_fails |]. intros root_fd s4 new4 Hc4 Ht4 H4. eapply ends_bind_at; [apply ends_logged; by apply (makes_call verdict opens files stats report h Hkernel) |]. intros old_fd s5 new5 Hc5 Ht5 (H5 & Hbad & Hkeep).
  destruct (negb root_fd || negb old_fd) eqn:Efd.
  { apply ends_logged. eapply logged_weaken; [by apply minus_errno_makes |]. intros ret new s' [-> ->] E. destruct old_fd; [| specialize (Hbad eq_refl); lia]. destruct root_fd; [done |]. destruct H4 as [_ He4]. rewrite Hkeep in E by done. lia. }
  apply orb_false_iff in Efd as [Er Eo]. apply negb_false_iff in Er, Eo. subst root_fd old_fd.
  eapply ends_bind_at; [apply ends_logged; by apply (all_calls_makes switch_calls) |]. intros ok6 s6 new6 Hc6 Ht6 [H6 He6]. destruct ok6; cbn [negb].
  2: { apply ends_logged. eapply logged_weaken; [by apply minus_errno_makes |]. intros ret new s' [-> ->] E. specialize (He6 eq_refl). lia. }
  eapply ends_weaken; [by apply after_linuxrc_makes |]. intros ret tail s7 H7 Hret. specialize (H7 Hret). simpl in H6. rewrite H4, H5, H6 in *.
  exists r, mnt, r', tail. cbv zeta. rewrite Hc6, Hc5, Hc4, Hc3, Hc2, Hc1, Hc0 in H7. cbn [app fmap list_fmap switch_calls] in *.
  split; [by rewrite <- ?app_assoc |]. split; [done |]. rewrite <- ?app_assoc in H7. rewrite <- ?app_assoc. exact H7.
Qed.

(** C20.  Running [/linuxrc]: with the result 0 the RAM disk was mounted (the
    last mount that was tried, and the only one that succeeded), it was told the
    device of the root, made the root, the program ran in it, and all of this was
    undone in the opposite order.  Then, if the program left the number of the
    RAM disk as the root device, the RAM disk was moved to be the root.
    Otherwise the real root was tried as usual; whether that succeeds does not
    change the result, and the RAM disk was moved into it or given up in either
    case. *)
Theorem linuxrc_handover argv root_dev s : table_ok h s → ends (run_linuxrc h mount_nfs_root argv root_dev) s (λ ret new _, ret = 0 → linuxrc_calls root_dev (calls (world s)) new).
Proof using Hkernel Hnfs Hproc. apply linuxrc_run. Qed.

(** *** All together *)

(** The contents of the RAM disk after the image [file] was copied to it, when
    the kernel serves every call and the bounds are large enough: the image with
    the old contents behind it, or what a compressed image decodes to. *)
Context (decodes : decoder → list Z → list Z → Prop).
Definition faithful (l : list (kcall * option Z)) (file out : list Z) : Prop :=
  steady (answers l) → (2 <= length file)%nat → Z.of_nat (length file) < 2 ^ 62 →
  if bool_decide (take 2 file = [0x1f; 0x8b])
  then ∀ zs output, inflateInit = Some zs → decodes zs file output → (length file + length output < fuel)%nat → out = output
  else (length file <= length (rams l))%nat → Z.of_nat (length file) <= (Z.of_nat fuel - 1) * BUF_SIZE → out = file ++ drop (length file) (rams l).

Context (Hlaw : decoder_law inflate decodes) (Hjunk : Z.of_nat (length junk) = BUF_SIZE) (Htries : BUF_SIZE < Z.of_nat tries).

(** The first two bytes are seen. *)
Lemma magic_read l file r magic k : steady (answers l) → (2 <= length file)%nat → xpread (answers l) tries 0 file [0; 0] 2 0 = Some (r, magic, k) →
  (r =? 2) && bool_decide (magic = [0x1f; 0x8b]) = bool_decide (take 2 file = [0x1f; 0x8b]).
Proof using Hjunk Htries.
  intros Hst H2 E. destruct (xpread_loop_ok _ Hst tries 0 file [0; 0] 0 2 0 0 0) as [k' E']; [lia | simpl; lia | lia | unfold BUF_SIZE in *; lia | lia |].
  change (Z.of_nat 0) with 0 in E'. change (Z.of_nat 2) with 2 in E'. unfold xpread in E. rewrite E' in E. injection E as <- <- <-.
  rewrite splice_all by (rewrite length_slice; simpl; lia). unfold slice. by rewrite drop_0.
Qed.

Lemma compressed_faithful l file out rv : steady (answers l) → (2 <= length file)%nat → Z.of_nat (length file) < 2 ^ 62 →
  load_ramdisk_compressed (answers l) inflate fuel tries inflateInit [Some (mk_medium false file)] 0 = Some (rv, out) →
  ∀ zs output, inflateInit = Some zs → decodes zs file output → (length file + length output < fuel)%nat → out = output.
Proof using Hlaw Hjunk Htries.
  intros Hst H2 Hbig E zs output Ei Hd Hf. rewrite Ei in E. cbn [load_ramdisk_compressed] in E.
  assert (patient tries (answers l)) as Hp.
  { intros k. destruct (Hst k) as [n Hn]. exists 0%nat, n. rewrite Nat.add_0_r. split; [unfold BUF_SIZE in *; lia |]. split; [lia | done]. }
  assert (data_from (mk_medium false file) [] 0 = file) as Hdata by (unfold data_from; simpl; by rewrite drop_0, app_nil_r).
  pose proof (inflate_loop_ok (answers l) tries Hp inflate decodes Hlaw fuel 0 zs (mk_medium false file) [] 0 [] [] [] output) as Hrun.
  rewrite !Hdata in Hrun. cbn [fmap list_fmap length] in Hrun. change (Z.of_nat 0) with 0 in Hrun. rewrite Hrun in E.
  - by injection E.
  - split; [| done]. cbn [contents]. split; [by destruct file; simpl in H2; [lia |] |]. done.
  - done.
  - done.
  - unfold BUF_SIZE. lia.
  - right. split; [done |]. destruct file; simpl in H2; [lia | done].
  - lia.
Qed.

Lemma uncompressed_faithful l file out rv k : steady (answers l) → (2 <= length file)%nat →
  rd_copy_uncompressed (answers l) fuel tries 0 true file (rams l) junk = Some (rv, out, k) →
  (length file <= length (rams l))%nat → Z.of_nat (length file) <= (Z.of_nat fuel - 1) * BUF_SIZE → out = file ++ drop (length file) (rams l).
Proof using Hjunk Htries.
  intros Hst H2 E Hroom Hf. unfold rd_copy_uncompressed in E. rewrite (proj2 (Z.eqb_neq (Z.of_nat (length file)) 0)) in E by lia. cbn [negb orb] in E.
  destruct (rd_copy_loop_ok _ Hst fuel tries 0 file (rams l) junk (length file)) as [k' E']; [done.. | lia | lia | done |].
  rewrite E' in E. injection E as _ <- _. by rewrite take_ge by lia.
Qed.

(** The calls of a successful copying *)
Definition copied (l new : list (kcall * option Z)) (path : list Z) : Prop :=
  ∃ file out r, files l path = Some file ∧ new = [(KOpen ramdisk_name, None); (KWrite ramdisk_name out, r)] ∧ faithful l file out.

Lemma rd_copy_image_makes path s : copies (calls (world s)) path → table_ok h s →
  makes (copy_image path) s (λ rv new _, quiet new ∧ (rv = 0 → copied (calls (world s)) new path)).
Proof using Hkernel Hlaw Hjunk Htries.
  intros Hc Ht. unfold rd_copy_image. apply logged_get. change (kfile path (world s)) with (files (calls (world s)) path). unfold copies in Hc. unfold copied.
  destruct (files (calls (world s)) path) as [file |]; [| by apply logged_ret]. destruct Hc as ([x Hx] & [y Hy] & [z Hz]).
  change (kanswers (world s)) with (answers (calls (world s))). change (kram (world s)) with (rams (calls (world s))). rewrite Hx.
  eapply logged_bind; [by apply given_makes |]. intros x' s1 new Ht1 (-> & -> & ->). destruct x as [[r magic] k].
  eapply logged_bind; [by apply call_fails |]. intros ok s2 new Ht2 Hn. destruct ok; cbn [negb].
  2: { destruct Hn as [-> _]. apply logged_ret; [done |]. split; [by repeat constructor | done]. }
  rewrite Hn. destruct ((r =? 2) && _) eqn:Ep.
  - rewrite Hy. eapply logged_bind; [by apply given_makes |]. intros y' s3 new3 Ht3 (-> & -> & ->). destruct y as [rv out].
    eapply logged_bind; [by apply call_any |]. intros ok s4 new4 Ht4 [r4 ->]. apply logged_ret; [done |]. split; [by repeat constructor |].
    intros ->. exists file, out, r4. split; [done |]. split; [done |]. intros Hst H2 Hbig. rewrite <- (magic_read _ _ _ _ _ Hst H2 Hx), Ep. by eapply compressed_faithful.
  - rewrite Hz. eapply logged_bind; [by apply given_makes |]. intros z' s3 new3 Ht3 (-> & -> & ->). destruct z as [[rv ram] k'].
    eapply logged_bind; [by apply call_any |]. intros ok s4 new4 Ht4 [r4 ->]. apply logged_ret; [done |]. split; [by repeat constructor |].
    intros ->. exists file, ram, r4. split; [done |]. split; [done |]. intros Hst H2 Hbig. rewrite <- (magic_read _ _ _ _ _ Hst H2 Hx), Ep. by eapply uncompressed_faithful.
Qed.

Context (Hcopies : ∀ l, copies l initrd_image).
Context (Himages : ∀ l path fd offset, opens l path = inr fd → image_ok (read_block fd offset)).
(** Loading a RAM disk returns. *)
Context (Hloads : ∀ l start fssize, is_Some (load_ramdisk_compressed (answers l) inflate fuel tries inflateInit (disks l rddev) start) ∧
  is_Some (load_ramdisk_raw (answers l) fuel tries (disks l rddev) start fssize)).

(** The image was copied to the RAM disk, without a mount before, and its file
    removed; from then on the RAM disk is in charge. *)
Definition took_over (l new : list (kcall * option Z)) : Prop :=
  ∃ pre copying post, new = pre ++ copying ++ (KUnlink initrd_image, None) :: post ∧ quiet pre ∧ copied (l ++ pre) copying initrd_image.

Lemma run_linuxrc_returns argv root_dev s : table_ok h s → ends (run_linuxrc h mount_nfs_root argv root_dev) s (λ _ _ _, True).
Proof using Hkernel Hnfs Hproc. intros Ht. eapply ends_weaken; [by apply linuxrc_run |]. done. Qed.

Lemma create_quiet name dev s : table_ok h s → makes (create_dev name dev) s (λ _ new _, quiet new).
Proof using Hkernel.
  intros Ht. eapply logged_weaken; [by apply (create_node_makes verdict opens files stats report h Hkernel) |]. intros ok new s' (u & m & ->). by repeat constructor.
Qed.

Lemma initrd_load_makes argv root_dev s : table_ok h s →
  ends (initrd_load h inflate inflateInit fuel tries junk mount_nfs_root argv root_dev) s (λ loaded new _, if loaded : bool then took_over (calls (world s)) new else quiet new).
Proof using Hkernel Hnfs Hproc Hcopies Hlaw Hjunk Htries.
  intros Ht. unfold initrd_load. eapply ends_bind_at; [apply ends_logged; by apply call_fails |]. intros found s1 new1 Hc1 Ht1 H1. destruct found; cbn [negb].
  2: { destruct H1 as [-> _]. apply ends_ret; [done |]. by repeat constructor. }
  rewrite H1 in *. eapply ends_bind_at; [apply ends_logged; by apply create_quiet |]. intros ok2 s2 new2 Hc2 Ht2 H2.
  eapply ends_bind_at; [apply ends_logged; by apply rd_copy_image_makes |]. intros rv s3 new3 Hc3 Ht3 [H3 Hcopy]. rewrite Hc2, Hc1, <- app_assoc in Hcopy.
  eapply (ends_bind _ _ s3 (λ ok new _, if ok : bool then rv = 0 ∧ new = [(KUnlink initrd_image, None)] else quiet new)).
  { apply ends_logged. destruct (Z.eqb_spec rv 0) as [-> | ?]; cbn [negb]; [| by apply logged_ret]. eapply logged_weaken; [by apply call_fails |].
    intros ok new s' H. destruct ok; [done |]. destruct H as [-> _]. by repeat constructor. }
  intros unlinked s4 new4 Ht4 H4. assert (quiet new4) as Hq4 by (destruct unlinked; [destruct H4 as [_ ->]; by repeat constructor | done]).
  assert (quiet ([(KAccess initrd_image, None)] ++ new2 ++ new3 ++ new4 ++ [])) as Hall.
  { rewrite app_nil_r. apply Forall_app. split; [by repeat constructor |]. apply Forall_app. split; [done |]. by apply Forall_app. }
  destruct unlinked; cbn [negb]; [| by apply ends_ret].
  destruct (root_dev =? Root_MULTI); [by apply ends_ret |]. destruct (root_dev =? Root_RAM0); cbn [negb]; [by apply ends_ret |].
  eapply ends_bind; [by apply run_linuxrc_returns |]. intros ret s5 new5 Ht5 _. apply ends_ret; [done |]. destruct H4 as [Hrv ->].
  exists ([(KAccess initrd_image, None)] ++ new2), new3, new5. rewrite app_nil_r. split; [by rewrite <- !app_assoc |].
  split; [apply Forall_app; split; [by repeat constructor | done] | by apply Hcopy].
Qed.

Lemma ramdisk_load_quiet argv s : readable (default (text "/dev/fd0") (get_arg argv (text "ramdisk_device="))) = true → table_ok h s →
  makes (ramdisk_load h inflate inflateInit fuel tries argv) s (λ _ new _, quiet new).
Proof using Hkernel Himages Hloads.
  intros Hname Ht. unfold ramdisk_load. eapply logged_bind; [by apply (device_for_makes verdict opens files stats report h) |]. intros dev s1 new1 Ht1 ->.
  destruct (dev =? 0); [by apply logged_ret |]. eapply logged_bind; [by apply create_quiet |]. intros ok2 s2 new2 Ht2 H2. eapply logged_bind; [by apply create_quiet |]. intros ok3 s3 new3 Ht3 H3.
  apply logged_get. eapply logged_bind; [by apply call_any |]. intros wfd s4 new4 Ht4 [r4 ->]. cbn [app].
  assert (quiet (new2 ++ new3 ++ [(KOpen ramdisk_name, r4)])) as Hq by (apply Forall_app; split; [done |]; apply Forall_app; split; [done | by repeat constructor]).
  change (kopen rddev (world s3)) with (opens (calls (world s3)) rddev). destruct (opens (calls (world s3)) rddev) as [e | fd] eqn:Eo; [by apply logged_ret |].
  destruct wfd; cbn [negb]; [| by apply logged_ret]. apply logged_get.
  destruct (identify_fs_runs h fd (ramdisk_start argv) (images s4) (ko_host _ _ _ _ Hkernel) (Himages _ _ _ _ Eo) Ht4) as ([[err type] fssize] & table' & -> & Ht' & _).
  eapply (logged_bind _ _ s4 (λ _ new _, new = [])); [exists tt, (mk_kinit (errno s4) table' (world s4)), []; by rewrite app_nil_r |]. intros [] s5 new5 Ht5 ->.
  destruct (_ || _); [apply logged_ret; [done | cbn [app]; by rewrite ?app_nil_r] |].
  change (kanswers (world s4)) with (answers (calls (world s4))). change (kmedia (world s4) rddev) with (disks (calls (world s4)) rddev).
  destruct (Hloads (calls (world s4)) (ramdisk_start argv) fssize) as [[x Hx] [y Hy]]. rewrite Hx, Hy.
  assert ((if (fssize =? 0) && bool_decide (type = Some (text "gzip")) then Some x else Some y) = Some (if (fssize =? 0) && bool_decide (type = Some (text "gzip")) then x else y)) as -> by (by destruct (_ && _)).
  eapply logged_bind; [by apply given_makes |]. intros z s6 new6 Ht6 (_ & -> & _). destruct z as [rv out]. eapply logged_bind; [by apply call_any |]. intros ok7 s7 new7 Ht7 [r7 ->].
  apply logged_ret; [done |]. cbn [app]. apply Forall_app. split; [done |]. apply Forall_app. split; [done | by repeat constructor].
Qed.

Context (Hdevices : ∀ l, files l (text "/proc/devices") ≠ None).

End recorded.

(** ** An example

    A RAM disk with an ext4 file system, which stays the root. *)

Definition boot_files (path : list Z) : option (list Z) :=
  if bool_decide (path = real_root_dev) then Some (text "256" ++ [10])
  else if bool_decide (path = initrd_image) then Some [1; 2; 0]
  else if bool_decide (path = text "/sys/block/sda/dev") then Some (text "8:0" ++ [10])
  else if bool_decide (path = text "/proc/devices") then Some []
  else None.

Definition zeros : list Z := replicate (Z.to_nat 65536) 0.
Definition plain_inflate : unit → list Z → nat → Z * nat * list Z * unit := λ _ input room, (copy_to_zero input room, tt).
Abbreviation boot_kernel := (recording (λ _ _, None) (λ _ _, inr example_device) (λ _, boot_files) (λ _ _, None) (λ _ e, e)).
Definition boot_ram : Ram history := {| kram _ := [0; 0; 0; 0]; kanswers _ := by_three; kmedia _ _ := [] |}.

Lemma boot_copies l : copies (λ _, boot_files) (λ _, [0; 0; 0; 0]) (λ _, by_three) plain_inflate (Some tt) 20 (Z.to_nat 65537) zeros l initrd_image.
Proof. unfold copies. change (boot_files initrd_image) with (Some [1; 2; 0]). split_and!; eexists; vm_compute; reflexivity. Qed.

Lemma no_nfs_ends (argv : list (list Z)) (flags : Z) (s : kinit (W := history)) : table_ok example_host s →
  ends_in (λ s : kinit (W := history), calls (world s)) (table_ok example_host) (λ code, code = 1) (mret (- ESRCH)) s (λ ret new _, no_nfs ret new).
Proof. intros Ht. by apply ends_ret. Qed.

Definition value_of (r : outcome (Z * kinit (W := history))) : option Z := match r with Ret (v, _) => Some v | _ => None end.

Lemma linuxrc_handover_witness :
  let m := run_linuxrc (Root0 := boot_kernel) example_host (λ _ _, mret (- ESRCH)) [text "kinit"] (makedev 8 1) in
  ends_in (λ s : kinit (W := history), calls (world s)) (table_ok example_host) (λ code, code = 1) m example_kinit
    (λ ret new _, ret = 0 → linuxrc_calls (λ _, boot_files) no_nfs (makedev 8 1) [] new) ∧ value_of (m example_kinit) = Some 0.
Proof.
  intros m. split; [| vm_compute; reflexivity].
  apply (linuxrc_handover (λ _ _, None) (λ _ _, inr example_device) (λ _, boot_files) (λ _ _, None) (λ _ e, e) example_host md_kernel_ok (λ _ _, mret (- ESRCH)) no_nfs no_nfs_ends (λ _ _, eq_refl)
    [text "kinit"] (makedev 8 1) example_kinit (same_table_refl _ _)).
Defined.

Definition boot_argv : list (list Z) := [text "kinit"; text "root=/dev/sda"; text "rw"].

