(* ===== verification/Caps.v ===== *)
(** * Dropping capabilities: [kinit/capabilities.c]

    The list of the command line names capabilities that are taken from the
    helpers of the kernel, from the bounding set and from the inheritable set.
    What the kernel answers is given by a record of functions; what it was told
    is kept in a list, also when the program ends early.

    The theorems: names denote their numbers whatever their case; if the
    function returns, every capability of the list has left the bounding set
    and the inheritable set in this order, and exactly its bits were cleared;
    but it returns only if the writes to the files of the helpers fail, since
    the result of [fwrite] is taken for an error number. *)

From stdpp Require Import base numbers list strings.
From Stdlib Require Import Lia.
From S2P Require Import Prelude Ctype StrOps Netdev Printf Scanf Ipconfig DoMounts.

#[local] Set Warnings "-register-all".

Definition capabilities : list (list Z) := text <$> [
  "CAP_CHOWN"; "CAP_DAC_OVERRIDE"; "CAP_DAC_READ_SEARCH"; "CAP_FOWNER"; "CAP_FSETID"; "CAP_KILL"; "CAP_SETGID"; "CAP_SETUID"; "CAP_SETPCAP";
  "CAP_LINUX_IMMUTABLE"; "CAP_NET_BIND_SERVICE"; "CAP_NET_BROADCAST"; "CAP_NET_ADMIN"; "CAP_NET_RAW"; "CAP_IPC_LOCK"; "CAP_IPC_OWNER"; "CAP_SYS_MODULE";
  "CAP_SYS_RAWIO"; "CAP_SYS_CHROOT"; "CAP_SYS_PTRACE"; "CAP_SYS_PACCT"; "CAP_SYS_ADMIN"; "CAP_SYS_BOOT"; "CAP_SYS_NICE"; "CAP_SYS_RESOURCE"; "CAP_SYS_TIME";
  "CAP_SYS_TTY_CONFIG"; "CAP_MKNOD"; "CAP_LEASE"; "CAP_AUDIT_WRITE"; "CAP_AUDIT_CONTROL"; "CAP_SETFCAP"; "CAP_MAC_OVERRIDE"; "CAP_MAC_ADMIN"; "CAP_SYSLOG" ]%string.

(** [strcasecmp(s, name) == 0] *)
Definition same_name (s name : list Z) : bool := bool_decide (upper <$> s = upper <$> name).

Fixpoint find_from (s : list Z) (i : Z) (caps : list (list Z)) : Z :=
  match caps with
  | [] => -1
  | name :: caps => if same_name s name then i else find_from s (i + 1) caps
  end.
Definition find_capability (s : list Z) : Z := find_from s 0 capabilities.

(** ** The kernel *)

(** [struct __user_cap_data_struct] *)
Record cap_data := mk_cap_data { effective : Z; permitted : Z; inheritable : Z }.

Inductive action :=
  | Capset (low high : cap_data)
  | BsetDrop (cap : Z)
  | Commit (filename bytes : list Z).

(** [capget] gives the two words of each set; [capset], and [prctl] to drop,
    whether they work; [prctl] to read, its result; a file its contents, of
    which there is at most one buffer, and [written] how much [fwrite] could
    write of some bytes. *)
Record kernel := mk_kernel {
  capget : list action → option (cap_data * cap_data);
  capset : list action → cap_data → cap_data → bool;
  bset_read : list action → Z → Z;
  bset_drop : list action → Z → Z;
  contents : list action → list Z → option (list Z);
  written : list action → list Z → list Z → Z;
}.

(** A result, or [None] if [exit(1)] was called, and what the kernel was
    told *)
Definition caps (A : Type) : Type := list action → option A * list action.
Global Instance caps_ret : MRet caps := λ A a l, (Some a, l).
Global Instance caps_bind : MBind caps := λ A B f c l, match c l with (Some a, l) => f a l | (None, l) => (None, l) end.
Definition fail {A} : caps A := λ l, (None, l).
Definition ask {A} (f : list action → A) : caps A := λ l, (Some (f l), l).
Definition tell (a : action) : caps unit := λ l, (Some tt, l ++ [a]).

Section drop.
Context (k : kernel).

(** [x & ~(1U << n)] *)
Definition clear_bit (x n : Z) : Z := Z.land x (u32 (Z.lnot (u32 (Z.shiftl 1 n)))).

Definition do_capset (cap_ordinal : Z) : caps unit :=
  r ← ask (capget k);
  match r with
  | None => fail
  | Some (low, high) =>
      let low' := if cap_ordinal <? 32 then mk_cap_data (effective low) (permitted low) (clear_bit (inheritable low) cap_ordinal) else low in
      let high' := if cap_ordinal <? 32 then high else mk_cap_data (effective high) (permitted high) (clear_bit (inheritable high) (cap_ordinal - 32)) in
      ok ← ask (λ l, capset k l low' high');
      if ok : bool then tell (Capset low' high') else fail
  end.

Definition do_bset (cap_ordinal : Z) : caps unit :=
  ret ← ask (λ l, bset_read k l cap_ordinal);
  if ret =? 1 then
    ret ← ask (λ l, bset_drop k l cap_ordinal);
    if negb (ret =? 0) then fail else tell (BsetDrop cap_ordinal)
  else if ret <? 0 then fail
  else mret tt.

(** ["%u %u %c"] with the addresses 1, 2 and 3 for [lo32], [hi32] and [tail] *)
Definition masks_format : list directive := [Conv false [] [] 117; White 32; Conv false [] [] 117; White 32; Conv false [] [] 99].
Definition read_masks (buf : list Z) : option (Z * Z) :=
  match scan masks_format buf 0 [1; 2; 3] 0 with
  | Some (r, ws) =>
      if r =? 2 then
        match ws with (_, lo) :: (_, hi) :: _ => Some (le lo, le hi) | _ => None end
      else None
  | None => None
  end.

(** ["%u %u"] *)
Definition masks_text (lo hi : Z) : list Z := default [] (render 10 (λ _, None) (text "%u %u") [lo; hi]).

Definition buf_size : Z := 80.

(** [1 << n] is an [int] here, converted to [uint32_t]. *)
Definition do_usermodehelper_file (filename : list Z) (cap_ordinal : Z) : caps unit :=
  file ← ask (λ l, contents k l filename);
  match file with
  | None => fail
  | Some file =>
      let buf := take (Z.to_nat (buf_size - 1)) file in
      if bool_decide (buf = []) then fail
      else
        match read_masks buf with
        | None => fail
        | Some (lo32, hi32) =>
            let lo32' := if cap_ordinal <? 32 then clear_bit lo32 cap_ordinal else lo32 in
            let hi32' := if cap_ordinal <? 32 then hi32 else clear_bit hi32 (cap_ordinal - 32) in
            let bytes := masks_text lo32' hi32' ++ [0] in
            tell (Commit filename bytes);;
            ret ← ask (λ l, written k l filename bytes);
            if negb (ret =? 0) then fail else mret tt
        end
  end.

Definition helper_files : list (list Z) := text <$> ["/proc/sys/kernel/usermodehelper/bset"; "/proc/sys/kernel/usermodehelper/inheritable"]%string.

Fixpoint helper_loop (files : list (list Z)) (cap_ordinal : Z) : caps unit :=
  match files with
  | [] => mret tt
  | filename :: files => do_usermodehelper_file filename cap_ordinal;; helper_loop files cap_ordinal
  end.
Definition do_usermodehelper (cap_ordinal : Z) : caps unit := helper_loop helper_files cap_ordinal.

Definition drop_capability (cap_ordinal : Z) : caps unit :=
  do_usermodehelper cap_ordinal;;
  do_bset cap_ordinal;;
  do_capset cap_ordinal.

Fixpoint drop_loop (tokens : list (list Z)) : caps unit :=
  match tokens with
  | [] => mret tt
  | token :: tokens =>
      let cap_ordinal := find_capability token in
      if cap_ordinal <? 0 then fail
      else drop_capability cap_ordinal;; drop_loop tokens
  end.

(** [memory]: whether [strdup] works *)
Definition drop_capabilities (memory : bool) (arg : option (list Z)) : caps unit :=
  match arg with
  | None => mret tt
  | Some names => if memory then drop_loop (roots_of names) else fail
  end.
End drop.

(** ** Names *)

Lemma find_from_first s name table : ∀ i z, table !! i = Some name → upper <$> s = upper <$> name → (∀ (j : nat) other, (j < i)%nat → table !! j = Some other → upper <$> s ≠ upper <$> other) →
  find_from s z table = z + Z.of_nat i.
Proof.
  induction table as [| c table IH]; intros i z Hi Hs Hfirst; [done |]. cbn [find_from]. unfold same_name. destruct i as [| i].
  - injection Hi as ->. rewrite bool_decide_true by done. lia.
  - rewrite bool_decide_false by (apply (Hfirst 0%nat c); [lia | done]). rewrite (IH i (z + 1)); [lia | done | done |]. intros j other Hj. apply (Hfirst (S j)). lia.
Qed.

Lemma find_from_none s table : ∀ z, (∀ name, name ∈ table → upper <$> s ≠ upper <$> name) → find_from s z table = -1.
Proof.
  induction table as [| c table IH]; intros z Hno; [done |]. cbn [find_from]. unfold same_name. rewrite bool_decide_false by (apply Hno; left). apply IH. intros name Hn. apply Hno. by right.
Qed.

Lemma names_differ : NoDup ((λ name : list Z, upper <$> name) <$> capabilities).
Proof. apply (bool_decide_unpack _). vm_compute. exact I. Qed.

(** A name denotes its place in the table, whatever the case of its letters;
    other names are refused. *)
Theorem find_capability_correct (s : list Z) :
  (∀ (i : nat) name, capabilities !! i = Some name → upper <$> s = upper <$> name → find_capability s = Z.of_nat i) ∧
  ((∀ name, name ∈ capabilities → upper <$> s ≠ upper <$> name) → find_capability s = -1).
Proof.
  split; [| apply find_from_none]. intros i name Hi Hs. apply (find_from_first s name capabilities i 0 Hi Hs). intros j other Hj Ho E.
  assert (j = i); [| lia]. apply (NoDup_lookup _ j i (upper <$> s) names_differ); rewrite list_lookup_fmap; [by rewrite Ho, E | by rewrite Hi, Hs].
Qed.

Example cap_net_raw : find_capability (text "Cap_Net_Raw") = 13.
Proof. vm_compute. reflexivity. Qed.

(** ** Bits *)

Lemma clear_bit_spec x n i : in_u 32 x → 0 <= n < 32 → 0 <= i → Z.testbit (clear_bit x n) i = Z.testbit x i && negb (i =? n).
Proof.
  intros Hx Hn Hi. unfold clear_bit. rewrite Z.land_spec. rewrite (wrapu_small 32 (Z.shiftl 1 n)) by (unfold in_u; rewrite shiftl_mul, Z.mul_1_l by lia; split; [apply Z.pow_nonneg; lia | apply Z.pow_lt_mono_r; lia]).
  destruct (Z.lt_ge_cases i 32) as [Hlt | Hge].
  - unfold wrapu. rewrite Z.mod_pow2_bits_low, Z.lnot_spec, Z.shiftl_spec by lia. f_equal. f_equal. destruct (Z.eqb_spec i n) as [-> | E]; [by rewrite Z.sub_diag |].
    destruct (Z.lt_ge_cases (i - n) 0); [by rewrite Z.testbit_neg_r | apply Z.bits_above_log2; [lia | change (Z.log2 1) with 0; lia]].
  - by rewrite (testbit_high 32 x i) by (done || lia).
Qed.

(** ** What the kernel is told *)

Section told.
Context (k : kernel).

(** [c] returns after [P] of what it told, or ends the program. *)
Definition after {A} (c : caps A) (l : list action) (P : A → list action → Prop) : Prop :=
  match c l with
  | (Some a, l') => ∃ new, l' = l ++ new ∧ P a new
  | (None, _) => True
  end.

Lemma after_ret {A} (a : A) l (P : A → list action → Prop) : P a [] → after (mret a) l P.
Proof using Type. intros H. exists []. by rewrite app_nil_r. Qed.
Lemma after_bind {A B} (c : caps A) (f : A → caps B) l (P : A → list action → Prop) (Q : B → list action → Prop) :
  after c l P → (∀ a new, P a new → after (f a) (l ++ new) (λ b new', Q b (new ++ new'))) → after (c ≫= f) l Q.
Proof using Type.
  unfold after, mbind, caps_bind. destruct (c l) as [[a |] l1]; [| done]. intros (new & -> & Hp) H. specialize (H a new Hp). destruct (f a (l ++ new)) as [[b |] l2]; [| done].
  destruct H as (new' & -> & Hq). exists (new ++ new'). by rewrite app_assoc.
Qed.
Lemma after_ask {A B} (g : list action → A) (f : A → caps B) l (Q : B → list action → Prop) : after (f (g l)) l Q → after (ask g ≫= f) l Q.
Proof using Type. done. Qed.
Lemma after_tell a l (P : unit → list action → Prop) : P tt [a] → after (tell a) l P.
Proof using Type. intros H. by exists [a]. Qed.
Lemma after_weaken {A} (c : caps A) l (P Q : A → list action → Prop) : after c l P → (∀ a new, P a new → Q a new) → after c l Q.
Proof using Type. unfold after. destruct (c l) as [[a |] l1]; [| done]. intros (new & -> & Hp) H. exists new. auto. Qed.

Definition is_commit (a : action) : Prop := match a with Commit _ _ => True | _ => False end.

(** A write of [bytes] to a file failed. *)
Definition unwritten (l : list action) (filename : list Z) : Prop := ∃ bytes, written k (l ++ [Commit filename bytes]) filename bytes = 0.

Lemma do_usermodehelper_file_after filename cap l : after (do_usermodehelper_file k filename cap) l (λ _ new, Forall is_commit new ∧ unwritten l filename).
Proof using Type.
  unfold do_usermodehelper_file. apply after_ask. destruct (contents k l filename) as [file |]; [| done]. destruct (bool_decide _); [done |]. destruct (read_masks _) as [[lo hi] |]; [| done].
  eapply after_bind; [by apply (after_tell _ l (λ _ new, new = [Commit filename (masks_text (if cap <? 32 then clear_bit lo cap else lo) (if cap <? 32 then hi else clear_bit hi (cap - 32)) ++ [0])])) |].
  intros [] new ->. apply after_ask. match goal with |- context [written k ?l' ?f ?b] => destruct (Z.eqb_spec (written k l' f b) 0) as [E | E] end; cbn [negb]; [| done].
  apply after_ret. split; [repeat constructor | by eexists].
Qed.

Lemma helper_loop_after files cap : ∀ l, after (helper_loop k files cap) l (λ _ new, Forall is_commit new).
Proof using Type.
  induction files as [| f files IH]; intros l; [by apply after_ret |]. cbn [helper_loop]. eapply after_bind; [apply do_usermodehelper_file_after |]. intros [] new [Hn _].
  eapply after_weaken; [apply IH |]. intros [] new' Hn'. by apply Forall_app.
Qed.

(** What leaves the bounding set *)
Definition bset_told (cap : Z) (new : list action) : Prop := new = [BsetDrop cap] ∨ new = [].

(** The inheritable set without a capability, and nothing else changed *)
Definition capset_told (cap : Z) (new : list action) : Prop :=
  ∃ l low high low' high', capget k l = Some (low, high) ∧ new = [Capset low' high'] ∧
    effective low' = effective low ∧ permitted low' = permitted low ∧ effective high' = effective high ∧ permitted high' = permitted high ∧
    (in_u 32 (inheritable low) → in_u 32 (inheritable high) → 0 <= cap < 64 →
     ∀ i, 0 <= i < 32 → Z.testbit (inheritable low') i = Z.testbit (inheritable low) i && negb (i =? cap) ∧
                        Z.testbit (inheritable high') i = Z.testbit (inheritable high) i && negb (32 + i =? cap)).

Lemma do_bset_after cap l : after (do_bset k cap) l (λ _ new, bset_told cap new).
Proof using Type.
  unfold do_bset. apply after_ask. destruct (_ =? 1).
  - apply after_ask. destruct (negb _); [done |]. apply after_tell. by left.
  - destruct (_ <? 0); [done |]. apply after_ret. by right.
Qed.

Lemma do_capset_after cap l : after (do_capset k cap) l (λ _ new, capset_told cap new).
Proof using Type.
  unfold do_capset. apply after_ask. destruct (capget k l) as [[low high] |] eqn:E; [| done]. apply after_ask. destruct (capset k l _ _); [| done]. apply after_tell.
  eexists l, low, high, _, _. split; [done |]. split; [done |]. destruct (Z.ltb_spec cap 32) as [Hc | Hc]; cbn [effective permitted inheritable]; split_and!; try done;
    intros Hl Hh Hcap i Hi; rewrite ?clear_bit_spec by (done || lia).
  - split; [done |]. rewrite (proj2 (Z.eqb_neq (32 + i) cap)) by lia. by rewrite andb_true_r.
  - rewrite (proj2 (Z.eqb_neq i cap)) by lia. rewrite andb_true_r. split; [done |]. f_equal. f_equal. destruct (Z.eqb_spec i (cap - 32)), (Z.eqb_spec (32 + i) cap); lia || done.
Qed.

(** For each capability of the list, in order *)
Inductive all_told : list (list Z) → list action → Prop :=
  | told_nil : all_told [] []
  | told_cons token tokens commits b c rest : 0 <= find_capability token → Forall is_commit commits → bset_told (find_capability token) b → capset_told (find_capability token) c →
      all_told tokens rest → all_told (token :: tokens) (commits ++ b ++ c ++ rest).

Lemma drop_loop_after tokens : ∀ l, after (drop_loop k tokens) l (λ _ new, all_told tokens new).
Proof using Type.
  induction tokens as [| token tokens IH]; intros l; [apply after_ret; constructor |]. cbn [drop_loop]. destruct (Z.ltb_spec (find_capability token) 0) as [H | H]; [done |].
  eapply after_bind.
  { unfold drop_capability. eapply after_bind; [apply helper_loop_after |]. intros [] commits Hc. cbv beta. eapply after_bind; [apply do_bset_after |]. intros [] b Hb. cbv beta.
    eapply after_weaken; [apply do_capset_after |]. intros [] c Hcs. instantiate (1 := λ _ new, ∃ commits b c, new = commits ++ b ++ c ∧ Forall is_commit commits ∧ bset_told (find_capability token) b ∧ capset_told (find_capability token) c). by exists commits, b, c. }
  intros [] new (commits & b & c & -> & Hc & Hb & Hcs). eapply after_weaken; [apply IH |]. intros [] rest Hr. rewrite <- !app_assoc. by constructor.
Qed.

(** If the program goes on, then for each capability of the list, in order, the
    bounding set and the inheritable set were told to lose exactly it. *)
Theorem drop_capabilities_correct (memory : bool) (names : list Z) (l l' : list action) :
  drop_capabilities k memory (Some names) l = (Some tt, l') → ∃ new, l' = l ++ new ∧ all_told (roots_of names) new.
Proof using Type.
  intros E. unfold drop_capabilities in E. destruct memory; [| done]. pose proof (drop_loop_after (roots_of names) l) as H. unfold after in H. by rewrite E in H.
Qed.

(** But it goes on only if the first write to the helpers failed: where writes
    work, kinit ends at the first capability. *)
Theorem drop_capabilities_ends (memory : bool) (names : list Z) (l : list action) :
  (∀ l filename bytes, written k l filename bytes ≠ 0) → roots_of names ≠ [] → (drop_capabilities k memory (Some names) l).1 = None.
Proof using Type.
  intros Hw Hne. unfold drop_capabilities. destruct memory; [| done]. destruct (roots_of names) as [| token tokens]; [done |]. cbn [drop_loop]. destruct (_ <? 0); [done |].
  unfold drop_capability, do_usermodehelper, helper_files. cbn [fmap list_fmap helper_loop].
  pose proof (do_usermodehelper_file_after (text "/proc/sys/kernel/usermodehelper/bset") (find_capability token) l) as H. unfold after in H. unfold mbind, caps_bind.
  destruct (do_usermodehelper_file k _ _ l) as [[[] |] l1]; [| done]. destruct H as (new & _ & _ & bytes & Hb). by apply Hw in Hb.
Qed.
End told.

Definition sys_kernel (w : Z) : kernel :=
  mk_kernel (λ _, Some (mk_cap_data 7 7 0xffffffff, mk_cap_data 0 0 7)) (λ _ _ _, true) (λ _ _, 1) (λ _ _, 0) (λ _ _, Some (text "4294967295 63" ++ [10])) (λ _ _ _, w).

Lemma drop_capabilities_witness : ∃ new, (drop_capabilities (sys_kernel 0) true (Some (text "cap_chown,CAP_SYSLOG")) []).2 = [] ++ new ∧ all_told (sys_kernel 0) (roots_of (text "cap_chown,CAP_SYSLOG")) new.
Proof. apply (drop_capabilities_correct (sys_kernel 0) true (text "cap_chown,CAP_SYSLOG") []). vm_compute. reflexivity. Defined.

Lemma drop_capabilities_ends_witness : (drop_capabilities (sys_kernel 14) true (Some (text "cap_chown")) []).1 = None.
Proof. apply (drop_capabilities_ends (sys_kernel 14) true (text "cap_chown") []); [done | vm_compute; done]. Defined.

Example helper_masks : (do_usermodehelper_file (sys_kernel 0) (text "f") 34 []).2 = [Commit (text "f") (text "4294967295 59" ++ [0])].
Proof. vm_compute. reflexivity. Qed.
