(* ===== verification/Boot.v ===== *)
(** * The main program of kinit: [kinit/kinit.c]

    In the world of [DoMounts]: the file systems of the kernel are mounted, the
    command line is read, and the parts are run one after the other.
    [ipconfig_main] and [run_init] are parameters (they are modelled in
    [Ipconfig] and [RunInit] in worlds of their own); the mounting of the root
    is that of [Initrd], capabilities are dropped by [Caps].

    The theorems: the init that is started is the one that was asked for, if it
    can be executed, and the first usual one otherwise; kinit returns 1 before
    anything was done about the root, and 2 otherwise, with the file systems of
    the kernel unmounted in all cases, and before init is looked for. *)

From stdpp Require Import base numbers list strings.
From Stdlib Require Import Lia.
From S2P Require Import Prelude Prog Numparse Ipconfig Kinit Devno Mount Fstype Rootdev DoMounts Ramdisk Md Initrd Caps.

#[local] Set Warnings "-register-all".

(** The error of a [stat] that failed, and what the kernel says about
    capabilities *)
Class Boot (W : Type) := {
  kstat_error : list Z → W → Z;
  kcaps : W → Caps.kernel;
}.

Definition ENOENT : Z := 2.

Section main.
Context {W : Type} `{!Root W, !Boot W}.
Abbreviation st := (kinit (W := W)).

(** -1, 0 (it is there) or 1 (it was mounted) *)
Definition mount_sys_fs (check fsname fstype : list Z) : prog st Z :=
  s ← get_st;
  match kstat check (world s) with
  | Some _ => mret 0
  | None =>
      kcalls (KMkdir fsname 0x16d);;
      ok ← kcalls (KMount (Some (text "none")) fsname fstype 0 None);
      mret (if ok : bool then 1 else -1)
  end.

Definition check_path (path : list Z) : prog st unit :=
  s ← get_st;
  match kstat path (world s) with
  | None =>
      if negb (kstat_error path (world s) =? ENOENT) then exit_ 1
      else
        made ← kcalls (KMkdir path 0x1ed);
        if negb made then exit_ 1 else mret tt
  | Some (mode, _) => if negb (S_ISDIR mode) then exit_ 1 else mret tt
  end.

Definition init_paths : list (list Z) := [text "/sbin/init"; text "/bin/init"; text "/etc/init"; text "/bin/sh"].

(** The first that can be executed, with the path behind its slash *)
Fixpoint first_executable (paths : list (list Z)) : prog st (option (list Z)) :=
  match paths with
  | [] => mret None
  | p :: paths =>
      ok ← kcalls (KAccess (drop 1 p));
      if ok : bool then mret (Some p) else first_executable paths
  end.

Definition find_init (root : list Z) (user : option (list Z)) : prog st (option (list Z)) :=
  ok ← kcalls (KChdir root);
  if negb ok then exit_ 1
  else
    chosen ← (match user with
              | Some u => if bool_decide (head u = Some 47) then kcalls (KAccess (drop 1 u)) else mret false
              | None => mret false
              end);
    path ← (if chosen : bool then mret user else first_executable init_paths);
    kcalls (KChdir (text "/"));;
    mret path.

(** The arguments for [ipconfig] *)
Definition has_prefix (prefix p : list Z) : bool := bool_decide (take (length prefix) p = prefix).
Definition ipconfig_args (argv : list (list Z)) : list (list Z) :=
  [text "IP-Config"; text "-i"; text "Linux kinit"] ++ filter (λ p, has_prefix (text "ip=") p || has_prefix (text "nfsaddrs=") p = true) (drop 1 argv).

Context (ipconfig_main : list (list Z) → prog st Z).
Definition do_ipconfig (argv : list (list Z)) : prog st Z := ipconfig_main (ipconfig_args argv).

(** The arguments behind [--] *)
Fixpoint after_dashes (args : list (list Z)) : list (list Z) :=
  match args with
  | [] => []
  | a :: args => if bool_decide (a = text "--") then args else after_dashes args
  end.

(** What [split_cmdline] makes of the two command lines and the arguments *)
Definition effective_argv (argv0 arch cmdline : list Z) (args : list (list Z)) : list (list Z) :=
  argv0 :: Kinit.words (c_string arch) ++ Kinit.words (c_string cmdline) ++ args.

(** The end of the program: the file systems that are still mounted *)
Definition bail (mnt_procfs mnt_sysfs : bool) (ret : Z) : prog st Z :=
  (if mnt_procfs then kcalls (KUmount (text "/proc") 0) else mret true);;
  (if mnt_sysfs then kcalls (KUmount (text "/sys") 0) else mret true);;
  mret ret.

(** [strrchr(path, '/') + 1] *)
Definition base_name (path : list Z) : list Z := reverse ((λ l, let fix go l := match l with c :: l => if c =? 47 then [] else c :: go l | [] => [] end in go l) (reverse path)).

Context (do_mounts : list (list Z) → prog st Z) (run_init : list Z → list (list Z) → prog st unit).

(** [drop_capabilities] ends kinit if something is wrong. *)
Definition drop_caps (arg : option (list Z)) : prog st unit :=
  s ← get_st;
  match drop_capabilities (kcaps (world s)) true arg [] with
  | (Some _, _) => mret tt
  | (None, _) => exit_ 1
  end.

Definition resume_from (argv : list (list Z)) : prog st unit :=
  s ← get_st;
  device ← of_option (do_resume (λ path, kfile path (world s)) (λ path, kstat path (world s)) argv);
  match device with
  | Some text_ => kcalls (KWrite (text "/sys/power/resume") text_);; mret tt
  | None => mret tt
  end.

(** From the command line to the root *)
Definition start_root (cmdv : list (list Z)) : prog st unit :=
  resume_from cmdv;;
  do_ipconfig cmdv;;
  check_path (text "/root");;
  do_mounts cmdv;;
  drop_caps (get_arg cmdv (text "drop_capabilities=")).

(** From the root to init *)
Definition start_init (argv cmdv : list (list Z)) : prog st Z :=
  kcalls (KUmount (text "/proc") 0);;
  kcalls (KUmount (text "/sys") 0);;
  init ← find_init (text "/root") (get_arg cmdv (text "init="));
  match init with
  | None => bail false false 2
  | Some path => run_init path (base_name path :: drop 1 argv);; bail false false 2
  end.

(** From the file systems of the kernel on *)
Definition run_parts (argv : list (list Z)) : prog st Z :=
  proc ← mount_sys_fs (text "/proc/cmdline") (text "/proc") (text "proc");
  if proc <? 0 then bail false false 1
  else
    sysfs ← mount_sys_fs (text "/sys/bus") (text "/sys") (text "sysfs");
    if sysfs <? 0 then bail true false 1
    else
      s ← get_st;
      let arch := default [] (kfile (text "/arch.cmd") (world s)) in
      match kfile (text "/proc/cmdline") (world s) with
      | None => bail true true 1
      | Some cmdline =>
          let cmdv := effective_argv (default [] (head argv)) arch cmdline (after_dashes (drop 1 argv)) in
          start_root cmdv;;
          start_init argv cmdv
      end.

(** The console becomes the standard input and output, if it can be opened;
    the descriptors are not part of the state. *)
Definition kinit_main (argv : list (list Z)) : prog st Z :=
  kcalls (KOpen (text "/dev/console"));;
  run_parts argv.
End main.

(** ** Choosing init *)

(** Executable files are looked for in order. *)
Definition looked_for (paths : list (list Z)) (found : option (list Z)) (asked : list (kcall * option Z)) : Prop :=
  match found with
  | Some p => ∃ pre post es, paths = pre ++ p :: post ∧ asked = zip_with (λ q (e : Z), (KAccess (drop 1 q), Some e)) pre es ++ [(KAccess (drop 1 p), None)] ∧ length es = length pre
  | None => ∃ es, asked = zip_with (λ q (e : Z), (KAccess (drop 1 q), Some e)) paths es ∧ length es = length paths
  end.

(** The init of the command line is taken if its path is absolute and it can be
    executed; otherwise one of the usual ones. *)
Definition init_chosen (user path : option (list Z)) (asked : list (kcall * option Z)) : Prop :=
  (∃ u, user = Some u ∧ head u = Some 47 ∧ path = Some u ∧ asked = [(KAccess (drop 1 u), None)]) ∨
  (∃ refused rest, asked = refused ++ rest ∧ looked_for init_paths path rest ∧
     ((∃ u e, user = Some u ∧ head u = Some 47 ∧ refused = [(KAccess (drop 1 u), Some e)]) ∨ (refused = [] ∧ ∀ u, user = Some u → head u ≠ Some 47))).

Lemma looked_for_cons q e paths found asked : looked_for paths found asked → looked_for (q :: paths) found ((KAccess (drop 1 q), Some e) :: asked).
Proof.
  destruct found as [p |].
  - intros (pre & post & es & -> & -> & Hl). exists (q :: pre), post, (e :: es). simpl. auto.
  - intros (es & -> & Hl). exists (e :: es). simpl. auto.
Qed.

(** Calls that are about the file systems of the kernel only *)
Definition about_sys (x : kcall * option Z) : Prop :=
  match x.1 with
  | KMkdir n _ | KMount _ n _ _ _ | KUmount n _ => n = text "/proc" ∨ n = text "/sys"
  | _ => False
  end.

Section recorded.
Context (verdict : list (kcall * option Z) → kcall → option Z) (opens : list (kcall * option Z) → list Z → Z + device).
Context (files : list (kcall * option Z) → list Z → option (list Z)) (stats : list (kcall * option Z) → list Z → option (Z * Z)).
Context (report : list (kcall * option Z) → Z → Z) (h : host).
#[local] Instance boot_kernel_of : Root history := recording verdict opens files stats report.
Context (stat_error : list (kcall * option Z) → list Z → Z) (cap_kernel : Caps.kernel).
#[local] Instance boot_of : Boot history := {| kstat_error path w := stat_error (calls w) path; kcaps _ := cap_kernel |}.
Context (Hkernel : kernel_ok verdict opens report h).

Abbreviation makes := (logged (λ s : kinit (W := history), calls (world s)) (table_ok h)).
Abbreviation ends := (ends_in (λ s : kinit (W := history), calls (world s)) (table_ok h) (λ code, code = 1)).
Abbreviation call_fails := (Initrd.call_fails verdict opens files stats report h Hkernel).
Abbreviation call_any := (Initrd.call_any verdict opens files stats report h Hkernel).

Lemma first_executable_makes paths : ∀ s, table_ok h s → makes (first_executable paths) s (λ found new _, looked_for paths found new).
Proof using Hkernel.
  induction paths as [| p paths IH]; intros s Ht; cbn [first_executable]; [apply logged_ret; [done | by exists []] |].
  eapply logged_bind; [by apply call_fails |]. intros ok s1 new Ht1 Hn. destruct ok.
  - apply logged_ret; [done |]. rewrite Hn. by exists [], paths, [].
  - destruct Hn as [-> _]. eapply logged_weaken; [by apply IH |]. intros found new s2 H. by apply looked_for_cons.
Qed.

Lemma init_found root user s : table_ok h s →
  ends (find_init root user) s (λ path new _, ∃ asked r, new = (KChdir root, None) :: asked ++ [(KChdir (text "/"), r)] ∧ init_chosen user path asked).
Proof using Hkernel.
  intros Ht. unfold find_init. eapply ends_bind; [apply ends_logged; by apply call_fails |]. intros ok s1 new Ht1 Hn. destruct ok; cbn [negb]; [| by apply ends_exit]. rewrite Hn. apply ends_logged.
  eapply (logged_bind _ _ s1 (λ chosen new _, if chosen : bool then ∃ u, user = Some u ∧ head u = Some 47 ∧ new = [(KAccess (drop 1 u), None)]
    else (∃ u e, user = Some u ∧ head u = Some 47 ∧ new = [(KAccess (drop 1 u), Some e)]) ∨ (new = [] ∧ ∀ u, user = Some u → head u ≠ Some 47))).
  { destruct user as [u |]; [| apply logged_ret; [done | by right]]. case_bool_decide as Hu; [| apply logged_ret; [done | right; split; [done |]; by intros ? [= <-]]].
    eapply logged_weaken; [by apply call_fails |]. intros ok' new' s' H. destruct ok'; [by exists u |]. destruct H as [-> _]. left. by eexists u, _. }
  intros chosen s2 new2 Ht2 H2. eapply (logged_bind _ _ s2 (λ path new _, init_chosen user path (new2 ++ new))).
  { destruct chosen.
    - apply logged_ret; [done |]. destruct H2 as (u & -> & Hu & ->). left. by exists u.
    - eapply logged_weaken; [by apply first_executable_makes |]. intros found new3 s3 H3. right. by exists new2, new3. }
  intros path s3 new3 Ht3 H3. eapply logged_bind; [by apply call_any |]. intros ok4 s4 new4 Ht4 [r ->]. apply logged_ret; [done |]. exists (new2 ++ new3), r. split; [| done].
  cbn [app]. by rewrite <- app_assoc.
Qed.

(** The search for init goes to the new root and back, and in between the init
    of the command line is taken if its path is absolute and it can be executed,
    otherwise the first of the usual ones that can be, and none if no one can
    be; kinit ends if there is no such directory. *)
Theorem find_init_correct root user s : table_ok h s →
  ends (find_init root user) s (λ path new _, ∃ asked r, new = (KChdir root, None) :: asked ++ [(KChdir (text "/"), r)] ∧ init_chosen user path asked).
Proof using Hkernel. apply init_found. Qed.

(** ** The whole *)

Context (ipconfig_main : list (list Z) → prog (kinit (W := history)) Z) (do_mounts : list (list Z) → prog (kinit (W := history)) Z) (run_init : list Z → list (list Z) → prog (kinit (W := history)) unit).

(** The parts return or end kinit. *)
Context (Hip : ∀ args s, table_ok h s → ends (ipconfig_main args) s (λ _ _ _, True)).
Context (Hroot : ∀ argv s, table_ok h s → ends (do_mounts argv) s (λ _ _ _, True)).
Context (Hinit : ∀ path argv s, table_ok h s → ends (run_init path argv) s (λ _ _ _, True)).

(** What [resume=] names can be looked up. *)
Definition resumable (cmdv : list (list Z)) : Prop := ∀ l, do_resume (files l) (stats l) cmdv ≠ None.

Lemma mount_sys_fs_makes check fsname fstype s : fsname = text "/proc" ∨ fsname = text "/sys" → table_ok h s →
  makes (mount_sys_fs check fsname fstype) s (λ _ new _, Forall about_sys new).
Proof using Hkernel.
  intros Hn Ht. unfold mount_sys_fs. apply logged_get. destruct (kstat check (world s)); [by apply logged_ret |].
  eapply logged_bind; [by apply call_any |]. intros ok s1 new Ht1 [r ->]. eapply logged_bind; [by apply call_any |]. intros ok2 s2 new2 Ht2 [r2 ->]. apply logged_ret; [done |].
  constructor; [exact Hn |]. constructor; [exact Hn | constructor].
Qed.

Lemma bail_makes p q ret s : table_ok h s → makes (bail p q ret) s (λ ret' new _, ret' = ret ∧ Forall about_sys new).
Proof using Hkernel.
  intros Ht. unfold bail. eapply (logged_bind _ _ s (λ _ new _, Forall about_sys new)).
  { destruct p; [| by apply logged_ret]. eapply logged_weaken; [by apply call_any |]. intros ok new s' [r ->]. constructor; [by left | constructor]. }
  intros ok s1 new Ht1 H1. eapply (logged_bind _ _ s1 (λ _ new _, Forall about_sys new)).
  { destruct q; [| by apply logged_ret]. eapply logged_weaken; [by apply call_any |]. intros ok2 new2 s' [r ->]. constructor; [by right | constructor]. }
  intros ok2 s2 new2 Ht2 H2. apply logged_ret; [done |]. rewrite app_nil_r. split; [done | by apply Forall_app].
Qed.

Lemma check_path_ends path s : table_ok h s → ends (check_path path) s (λ _ _ _, True).
Proof using Hkernel.
  intros Ht. unfold check_path. apply ends_get. destruct (kstat path (world s)) as [[mode dev] |]; [destruct (negb _); [done | by apply ends_ret] |].
  destruct (negb _); [done |]. eapply ends_bind; [apply ends_logged; by apply call_any |]. intros made s1 new Ht1 _. destruct made; cbn [negb]; [by apply ends_ret | done].
Qed.

Lemma start_root_ends cmdv s : resumable cmdv → table_ok h s → ends (start_root ipconfig_main do_mounts cmdv) s (λ _ _ _, True).
Proof using Hkernel Hip Hroot.
  intros Hresume Ht. unfold start_root. eapply (ends_bind _ _ s (λ _ _ _, True)).
  { unfold resume_from. apply ends_get. change (λ path, kfile path (world s)) with (files (calls (world s))). change (λ path, kstat path (world s)) with (stats (calls (world s))).
    destruct (do_resume (files (calls (world s))) (stats (calls (world s))) cmdv) as [device |] eqn:E; [| by apply Hresume in E]. cbn [of_option].
    eapply (ends_bind (mret device) _ s (λ _ _ _, True)); [by apply ends_ret |]. intros d s1 new Ht1 _. destruct d as [t |]; [| by apply ends_ret].
    eapply ends_bind; [apply ends_logged; by apply call_any |]. intros ok s2 new2 Ht2 _. by apply ends_ret. }
  intros [] s1 new1 Ht1 _. eapply ends_bind; [by apply Hip |]. intros r2 s2 new2 Ht2 _. eapply ends_bind; [by apply check_path_ends |]. intros [] s3 new3 Ht3 _.
  eapply ends_bind; [by apply Hroot |]. intros r4 s4 new4 Ht4 _. unfold drop_caps. apply ends_get. destruct (drop_capabilities _ _ _ _) as [[u |] l]; [by apply ends_ret | done].
Qed.

Lemma start_init_ends argv cmdv s : table_ok h s →
  ends (start_init run_init argv cmdv) s (λ ret new _, ret = 2 ∧ ∃ p q post, new = [(KUmount (text "/proc") 0, p); (KUmount (text "/sys") 0, q); (KChdir (text "/root"), None)] ++ post).
Proof using Hkernel Hinit.
  intros Ht. unfold start_init. eapply ends_bind; [apply ends_logged; by apply call_any |]. intros ok1 s1 new1 Ht1 [p ->]. eapply ends_bind; [apply ends_logged; by apply call_any |]. intros ok2 s2 new2 Ht2 [q ->].
  eapply ends_bind; [by apply init_found |]. intros init s3 new3 Ht3 (asked & r & -> & _). destruct init as [path |].
  - eapply ends_bind; [by apply Hinit |]. intros [] s4 new4 Ht4 _. apply ends_logged. eapply logged_weaken; [by apply bail_makes |]. intros ret new5 s5 [-> _]. split; [done |]. exists p, q. eexists. cbn [app]. reflexivity.
  - apply ends_logged. eapply logged_weaken; [by apply bail_makes |]. intros ret new5 s5 [-> _]. split; [done |]. exists p, q. eexists. cbn [app]. reflexivity.
Qed.

Lemma run_parts_ends argv s :
  (∀ l cmdline, files l (text "/proc/cmdline") = Some cmdline → resumable (effective_argv (default [] (head argv)) (default [] (files l (text "/arch.cmd"))) cmdline (after_dashes (drop 1 argv)))) → table_ok h s →
  ends (run_parts ipconfig_main do_mounts run_init argv) s (λ ret new _,
    (ret = 1 ∧ Forall about_sys new) ∨
    (ret = 2 ∧ ∃ sys parts p q post, new = sys ++ parts ++ [(KUmount (text "/proc") 0, p); (KUmount (text "/sys") 0, q); (KChdir (text "/root"), None)] ++ post ∧ Forall about_sys sys)).
Proof using Hkernel Hip Hroot Hinit.
  intros Hresume Ht. unfold run_parts. eapply ends_bind; [apply ends_logged; apply mount_sys_fs_makes; [by left | done] |]. intros proc s1 new1 Ht1 H1.
  assert (∀ p q s new, Forall about_sys new → table_ok h s → ends (bail p q 1) s (λ ret new' _, (ret = 1 ∧ Forall about_sys (new ++ new')) ∨
    (ret = 2 ∧ ∃ sys parts p q post, new ++ new' = sys ++ parts ++ [(KUmount (text "/proc") 0, p); (KUmount (text "/sys") 0, q); (KChdir (text "/root"), None)] ++ post ∧ Forall about_sys sys))) as Hbail.
  { intros p q s' new Hn Ht'. apply ends_logged. eapply logged_weaken; [by apply bail_makes |]. intros ret new' s'' [-> H]. left. split; [done | by apply Forall_app]. }
  destruct (proc <? 0); [by apply Hbail |]. eapply ends_bind; [apply ends_logged; apply mount_sys_fs_makes; [by right | done] |]. intros sysfs s2 new2 Ht2 H2.
  assert (Forall about_sys (new1 ++ new2)) as H12 by (by apply Forall_app).
  destruct (sysfs <? 0); [eapply ends_weaken; [by apply (Hbail true false s2 (new1 ++ new2)) |]; intros ret new' s' Hb; cbv beta in Hb; rewrite <- app_assoc in Hb; exact Hb |].
  apply ends_get. destruct (kfile (text "/proc/cmdline") (world s2)) as [cmdline |] eqn:Ecmd; [| eapply ends_weaken; [by apply (Hbail true true s2 (new1 ++ new2)) |]; intros ret new' s' Hb; cbv beta in Hb; rewrite <- app_assoc in Hb; exact Hb].
  eapply ends_bind; [apply start_root_ends; [by apply Hresume | done] |]. intros [] s3 new3 Ht3 _. eapply ends_weaken; [by apply start_init_ends |]. intros ret new4 s4 (-> & p & q & post & ->).
  right. split; [done |]. exists (new1 ++ new2), new3, p, q, post. split; [by rewrite <- app_assoc | done].
Qed.

(** C21.  kinit never returns 0.  It opens the console first.  It returns 1 if
    the file systems of the kernel or the command line cannot be had, and then
    has done nothing else but make, mount and unmount [/proc] and [/sys];
    otherwise it returns 2, after both were unmounted again, before init was
    looked for in the new root.  A part that fails for good ends it with 1. *)
Theorem kinit_main_correct argv s :
  (∀ l cmdline, files l (text "/proc/cmdline") = Some cmdline → resumable (effective_argv (default [] (head argv)) (default [] (files l (text "/arch.cmd"))) cmdline (after_dashes (drop 1 argv)))) → table_ok h s →
  ends (kinit_main ipconfig_main do_mounts run_init argv) s (λ ret new _, ∃ r sys, Forall about_sys sys ∧
    (ret = 1 ∧ new = (KOpen (text "/dev/console"), r) :: sys ∨
     ret = 2 ∧ ∃ parts p q post, new = (KOpen (text "/dev/console"), r) :: sys ++ parts ++ [(KUmount (text "/proc") 0, p); (KUmount (text "/sys") 0, q); (KChdir (text "/root"), None)] ++ post)).
Proof using Hkernel Hip Hroot Hinit.
  intros Hresume Ht. unfold kinit_main. eapply ends_bind; [apply ends_logged; by apply call_any |]. intros ok s1 new1 Ht1 [r ->].
  eapply ends_weaken; [by apply run_parts_ends |]. intros ret new s2 [[-> H] | (-> & sys & parts & p & q & post & -> & H)].
  - exists r, new. split; [done |]. by left.
  - exists r, sys. split; [done |]. right. split; [done |]. by exists parts, p, q, post.
Qed.
End recorded.

(** [/sbin/init] is not there, [/bin/init] is. *)
Definition bin_init (l : list (kcall * option Z)) (c : kcall) : option Z :=
  match c with KAccess p => if bool_decide (p = text "bin/init") then None else Some ENOENT | _ => None end.

Lemma bin_init_ok : kernel_ok bin_init (λ _ _, inr example_device) (λ _ e, e) example_host.
Proof.
  split; [| done | | done | exact example_host_ok].
  - intros l c e. destruct c; simpl; try done. destruct (bool_decide _); [done |]. by intros [= <-].
  - intros _ _ fd [= <-]. exact example_image_ok.
Qed.

Definition cmdline_files (path : list Z) : option (list Z) := if bool_decide (path = text "/proc/cmdline") then Some (text "root=/dev/sda init=/x" ++ [10]) else None.

Lemma find_init_correct_witness : ends_in (λ s : kinit (W := history), calls (world s)) (table_ok example_host) (λ code, code = 1)
  (find_init (Root0 := recording bin_init (λ _ _, inr example_device) (λ _, cmdline_files) (λ _ _, None) (λ _ e, e)) (text "/root") (Some (text "/x"))) example_kinit
  (λ path new _, ∃ asked r, new = (KChdir (text "/root"), None) :: asked ++ [(KChdir (text "/"), r)] ∧ init_chosen (Some (text "/x")) path asked).
Proof.
  apply (find_init_correct bin_init (λ _ _, inr example_device) (λ _, cmdline_files) (λ _ _, None) (λ _ e, e) example_host bin_init_ok (text "/root") (Some (text "/x")) example_kinit). apply same_table_refl.
Defined.

(** Parts that do nothing *)
Lemma idle_ends {A} (a : A) s : table_ok example_host s → ends_in (λ s : kinit (W := history), calls (world s)) (table_ok example_host) (λ code, code = 1) (mret a) s (λ _ _ _, True).
Proof. intros Ht. by apply ends_ret. Qed.

Lemma kinit_main_correct_witness : ends_in (λ s : kinit (W := history), calls (world s)) (table_ok example_host) (λ code, code = 1)
  (kinit_main (Root0 := recording bin_init (λ _ _, inr example_device) (λ _, cmdline_files) (λ _ _, None) (λ _ e, e)) (Boot0 := {| kstat_error _ _ := ENOENT; kcaps _ := sys_kernel 0 |})
    (λ _, mret 0) (λ _, mret 0) (λ _ _, mret tt) [text "kinit"]) example_kinit
  (λ ret new _, ∃ r sys, Forall about_sys sys ∧
    (ret = 1 ∧ new = (KOpen (text "/dev/console"), r) :: sys ∨
     ret = 2 ∧ ∃ parts p q post, new = (KOpen (text "/dev/console"), r) :: sys ++ parts ++ [(KUmount (text "/proc") 0, p); (KUmount (text "/sys") 0, q); (KChdir (text "/root"), None)] ++ post)).
Proof.
  apply (kinit_main_correct bin_init (λ _ _, inr example_device) (λ _, cmdline_files) (λ _ _, None) (λ _ e, e) example_host (λ _ _, ENOENT) (sys_kernel 0) bin_init_ok
    (λ _, mret 0) (λ _, mret 0) (λ _ _, mret tt) (λ _, idle_ends 0) (λ _, idle_ends 0) (λ _ _, idle_ends tt) [text "kinit"] example_kinit).
  - intros l cmdline [= <-] l'. vm_compute. done.
  - apply same_table_refl.
Defined.

(** The search ends with [/bin/init], and kinit with 2. *)
Example boot_ends : value_of (kinit_main (Root0 := recording bin_init (λ _ _, inr example_device) (λ _, cmdline_files) (λ _ _, None) (λ _ e, e)) (Boot0 := {| kstat_error _ _ := ENOENT; kcaps _ := sys_kernel 0 |})
  (λ _, mret 0) (λ _, mret 0) (λ _ _, mret tt) [text "kinit"] example_kinit) = Some 2.
Proof. vm_compute. reflexivity. Qed.
