(* ===== verification/Exec.v ===== *)
(** * Starting programs: [execvpe.c] and [exec_l.c]

    [execve] is the kernel's: it starts the program at a path or gives an error;
    its answer may depend on the paths that were tried before.

    The theorems: [execvpe] tries the program in the directories of [PATH] from
    left to right, up to the first where it can be started or where the error
    is not one of the place; the functions with a variable number of arguments
    pass them all. *)

From stdpp Require Import base numbers list strings.
From Stdlib Require Import Lia.
From S2P Require Import Prelude Ipconfig.

Definition PATH_MAX : Z := 4096.
Definition ENOENT : Z := 2.
Definition E2BIG : Z := 7.
Definition ENOEXEC : Z := 8.
Definition ENOMEM : Z := 12.
Definition ETXTBSY : Z := 26.
Definition DEFAULT_PATH : list Z := text "/bin:/usr/bin:.".

(** The program that runs now with its arguments and environment, or the result
    and [errno] *)
Inductive exec_result := Running (path : list Z) (argv envp : list (list Z)) | Returned (rv errno : Z).

Section exec.
(** The error of [execve], if any, for a path after those that were tried *)
Context (refused : list (list Z) → list Z → option Z).

Definition execve (tried : list (list Z)) (path : list Z) (argv envp : list (list Z)) : exec_result :=
  match refused tried path with None => Running path argv envp | Some e => Returned (-1) e end.

(** [strchr(searchpath, ':')]: the part in front, and what is behind *)
Fixpoint to_colon (s : list Z) : list Z * option (list Z) :=
  match s with
  | [] => ([], None)
  | c :: s => if c =? 58 then ([], Some s) else let '(p, rest) := to_colon s in (c :: p, rest)
  end.

(** The contents of [path] for a prefix, if they fit *)
Definition path_in (prefix file : list Z) : option (list Z) :=
  let prefixlen := Z.of_nat (length prefix) in
  let filelen := Z.of_nat (length file) in
  if (prefixlen =? 0) || bool_decide (last prefix = Some 47) then
    if PATH_MAX <=? prefixlen + filelen then None else Some (prefix ++ file)
  else if PATH_MAX <=? prefixlen + filelen + 1 then None else Some (prefix ++ [47] ++ file).

(** An error that ends the search *)
Definition final_error (e : Z) : bool := (e =? E2BIG) || (e =? ENOEXEC) || (e =? ENOMEM) || (e =? ETXTBSY).

(** [continue] goes to the condition of the loop, past the step to the next
    directory.  The result and the paths that were tried *)
Fixpoint execvpe_loop (fuel : nat) (file : list Z) (argv envp : list (list Z)) (searchpath : list Z) (errno : Z) (tried : list (list Z)) : option (exec_result * list (list Z)) :=
  match fuel with
  | O => None
  | S fuel =>
      let '(prefix, esp) := to_colon searchpath in
      match path_in prefix file with
      | None =>
          match esp with
          | Some _ => execvpe_loop fuel file argv envp searchpath errno tried
          | None => Some (Returned (-1) errno, tried)
          end
      | Some path =>
          match execve tried path argv envp with
          | Running path argv envp => Some (Running path argv envp, tried ++ [path])
          | Returned _ errno =>
              if final_error errno then Some (Returned (-1) errno, tried ++ [path])
              else match esp with
                   | Some rest => execvpe_loop fuel file argv envp rest errno (tried ++ [path])
                   | None => Some (Returned (-1) errno, tried ++ [path])
                   end
          end
      end
  end.

(** [PATH]: what [getenv] says *)
Definition execvpe (fuel : nat) (PATH : option (list Z)) (file : list Z) (argv envp : list (list Z)) : option (exec_result * list (list Z)) :=
  if bool_decide (47 ∈ file) then Some (execve [] file argv envp, [file])
  else execvpe_loop fuel file argv envp (default DEFAULT_PATH PATH) ENOENT [].

(** [execl], [execle], [execlp], [execlpe]: the arguments behind [arg0] up to
    the null pointer, and the argument behind it; [alloca] is given the count.
    [p] and [e] are [EXEC_P] and [EXEC_E].  [None] if an argument is read that
    was not passed or the array is too small *)
Fixpoint count_args (args : list (option (list Z))) (argc : Z) : option Z :=
  match args with
  | [] => None
  | Some _ :: args => count_args args (argc + 1)
  | None :: _ => Some (argc + 1)
  end.
Fixpoint copy_args (args : list (option (list Z))) (argv : list (list Z)) : option (list (list Z)) :=
  match args with
  | [] => None
  | Some arg :: args => copy_args args (argv ++ [arg])
  | None :: _ => Some argv
  end.
Definition exec_l (p e : bool) (fuel : nat) (PATH : option (list Z)) (environ : list (list Z)) (path arg0 : list Z) (args : list (option (list Z))) (last_arg : option (list (list Z))) : option (exec_result * list (list Z)) :=
  argc ← count_args args 1;
  argv ← copy_args args [arg0];
  if argc <? Z.of_nat (length argv) + 1 then None
  else
    envp ← (if e then last_arg else Some environ);
    if p then execvpe fuel PATH path argv envp else Some (execve [] path argv envp, [path]).

(** ** The search *)

(** The directories of a search path *)
Fixpoint split_path (s : list Z) : list (list Z) :=
  match s with
  | [] => [[]]
  | c :: s => if c =? 58 then [] :: split_path s else match split_path s with d :: ds => (c :: d) :: ds | [] => [[c]] end
  end.

(** The name of a file in a directory; an empty directory is the current one *)
Definition in_directory (dir file : list Z) : list Z :=
  if bool_decide (dir = []) || bool_decide (last dir = Some 47) then dir ++ file else dir ++ [47] ++ file.

Lemma split_path_colon s : split_path s = (to_colon s).1 :: match (to_colon s).2 with Some rest => split_path rest | None => [] end.
Proof.
  induction s as [| c s IH]; [done |]. cbn [split_path to_colon]. destruct (c =? 58); [done |]. rewrite IH. by destruct (to_colon s) as [p [r |]].
Qed.

Lemma path_in_fits prefix file : Z.of_nat (length prefix) + Z.of_nat (length file) + 1 < PATH_MAX → path_in prefix file = Some (in_directory prefix file).
Proof.
  intros H. unfold path_in, in_directory. destruct prefix as [| c p].
  - cbn [length] in *. change (Z.of_nat 0 =? 0) with true. rewrite (bool_decide_true ([] = [])) by done. cbn [orb]. rewrite (proj2 (Z.leb_gt _ _)) by lia. done.
  - rewrite (proj2 (Z.eqb_neq _ 0)) by (cbn [length]; lia). rewrite (bool_decide_false (c :: p = [])) by done. cbn [orb].
    destruct (bool_decide _); rewrite (proj2 (Z.leb_gt _ _)) by lia; done.
Qed.

Definition fits (file dir : list Z) : Prop := Z.of_nat (length dir) + Z.of_nat (length file) + 1 < PATH_MAX.

(** The paths all failed with errors of their place, [e] is the last one. *)
Inductive passed_over : list (list Z) → list (list Z) → Z → Z → Prop :=
  | passed_nil tried e : passed_over tried [] e e
  | passed_cons tried path paths e0 e e' : refused tried path = Some e → final_error e = false → passed_over (tried ++ [path]) paths e e' → passed_over tried (path :: paths) e0 e'.

(** The outcome of trying paths in order *)
Definition searched (argv envp : list (list Z)) (paths tried : list (list Z)) (e0 : Z) (res : exec_result) (new : list (list Z)) : Prop :=
  (∃ pre path post e, paths = pre ++ path :: post ∧ passed_over tried pre e0 e ∧ new = pre ++ [path] ∧
     ((refused (tried ++ pre) path = None ∧ res = Running path argv envp) ∨
      (∃ e', refused (tried ++ pre) path = Some e' ∧ final_error e' = true ∧ res = Returned (-1) e'))) ∨
  (∃ e, passed_over tried paths e0 e ∧ new = paths ∧ res = Returned (-1) e).

Lemma searched_cons argv envp path paths tried e0 e res new : refused tried path = Some e → final_error e = false →
  searched argv envp paths (tried ++ [path]) e res new → searched argv envp (path :: paths) tried e0 res (path :: new).
Proof using Type.
  intros Hr Hf [(pre & p & post & e1 & -> & Hpre & -> & Hres) | (e1 & Hp & -> & ->)].
  - left. exists (path :: pre), p, post, e1. split_and!; [done | by econstructor | done |]. by rewrite <- app_assoc in Hres.
  - right. exists e1. split_and!; [by econstructor | done | done].
Qed.

Lemma execvpe_loop_ok fuel : ∀ file argv envp searchpath errno tried, Forall (fits file) (split_path searchpath) → (length (split_path searchpath) <= fuel)%nat →
  ∃ res new, execvpe_loop fuel file argv envp searchpath errno tried = Some (res, tried ++ new) ∧
    searched argv envp ((λ d, in_directory d file) <$> split_path searchpath) tried errno res new.
Proof using Type.
  induction fuel as [| fuel IH]; intros file argv envp s errno tried Hfit Hfuel; rewrite (split_path_colon s) in *; [cbn [length] in Hfuel; lia |].
  cbn [execvpe_loop]. destruct (to_colon s) as [prefix esp] eqn:Es. cbn [fst snd] in *. apply Forall_cons in Hfit as [Hp Hfit]. rewrite (path_in_fits _ _ Hp). rewrite fmap_cons.
  unfold execve. destruct (refused tried (in_directory prefix file)) as [e |] eqn:Er.
  2: { exists (Running (in_directory prefix file) argv envp), [in_directory prefix file]. split; [done |]. left. eexists [], _, _, errno. split_and!; [done | constructor | done |]. left. by rewrite app_nil_r. }
  destruct (final_error e) eqn:Ef.
  { exists (Returned (-1) e), [in_directory prefix file]. split; [done |]. left. eexists [], _, _, errno. split_and!; [done | constructor | done |]. right. exists e. by rewrite app_nil_r. }
  destruct esp as [rest |].
  - destruct (IH file argv envp rest e (tried ++ [in_directory prefix file]) Hfit) as (res & new & -> & Hs); [cbn [length] in Hfuel; lia |].
    exists res, (in_directory prefix file :: new). split; [by rewrite <- app_assoc |]. by eapply searched_cons.
  - exists (Returned (-1) e), [in_directory prefix file]. split; [done |]. right. exists e. split_and!; [econstructor; [done | done | constructor] | done | done].
Qed.

(** A file without a slash is tried in the directories of the search path, or
    of the default one, from left to right: up to the first where it can be
    started, which then runs with the arguments and the environment, or where
    the error is final; otherwise the result is -1 with the last error.  The
    search ends, after a round per directory, if every path fits the buffer. *)
Theorem execvpe_correct (fuel : nat) (PATH : option (list Z)) (file : list Z) (argv envp : list (list Z)) (Hname : 47 ∉ file)
  (Hfits : Forall (fits file) (split_path (default DEFAULT_PATH PATH))) (Hfuel : (length (split_path (default DEFAULT_PATH PATH)) <= fuel)%nat) :
  ∃ res tried, execvpe fuel PATH file argv envp = Some (res, tried) ∧ searched argv envp ((λ d, in_directory d file) <$> split_path (default DEFAULT_PATH PATH)) [] ENOENT res tried.
Proof using Type.
  unfold execvpe. rewrite bool_decide_false by done. destruct (execvpe_loop_ok fuel file argv envp _ ENOENT [] Hfits Hfuel) as (res & new & -> & Hs). by exists res, new.
Qed.

(** A directory that is too long makes the loop endless unless it is the
    last. *)
Theorem execvpe_endless (fuel : nat) (file : list Z) (argv envp : list (list Z)) (dir rest : list Z) (errno : Z) (tried : list (list Z)) :
  PATH_MAX <= Z.of_nat (length dir) → 58 ∉ dir → execvpe_loop fuel file argv envp (dir ++ 58 :: rest) errno tried = None.
Proof using Type.
  intros Hlong Hd. assert (to_colon (dir ++ 58 :: rest) = (dir, Some rest)) as E.
  { clear Hlong. induction dir as [| c dir IH]; [done |]. cbn [app to_colon]. apply not_elem_of_cons in Hd as [Hc Hd]. rewrite (proj2 (Z.eqb_neq c 58)) by done. by rewrite IH. }
  assert (path_in dir file = None) as Ep.
  { unfold path_in. assert (PATH_MAX = 4096) by done. rewrite (proj2 (Z.eqb_neq _ 0)) by lia. cbn [orb]. destruct (bool_decide _); rewrite (proj2 (Z.leb_le _ _)) by lia; done. }
  induction fuel as [| fuel IH]; [done |]. cbn [execvpe_loop]. by rewrite E, Ep, IH.
Qed.

(** ** Arguments *)

Lemma count_args_ok args rest : ∀ argc, count_args (map Some args ++ None :: rest) argc = Some (argc + Z.of_nat (length args) + 1).
Proof. induction args as [| a args IH]; intros argc; cbn [map app count_args length]; [f_equal; lia |]. rewrite IH. f_equal. lia. Qed.

Lemma copy_args_ok args rest : ∀ argv, copy_args (map Some args ++ None :: rest) argv = Some (argv ++ args).
Proof. induction args as [| a args IH]; intros argv; cbn [map app copy_args]; [by rewrite app_nil_r |]. by rewrite IH, <- app_assoc. Qed.

(** The array holds all arguments and has room for them. *)
Theorem exec_l_passes (p e : bool) (fuel : nat) (PATH : option (list Z)) (environ : list (list Z)) (path arg0 : list Z) (args : list (list Z)) (rest : list (option (list Z))) (env : list (list Z)) :
  exec_l p e fuel PATH environ path arg0 (map Some args ++ None :: rest) (Some env) =
    if p then execvpe fuel PATH path (arg0 :: args) (if e then env else environ) else Some (execve [] path (arg0 :: args) (if e then env else environ), [path]).
Proof using Type.
  unfold exec_l. rewrite count_args_ok, copy_args_ok. cbn [mbind option_bind]. rewrite (proj2 (Z.ltb_ge _ _)) by (rewrite length_app; simpl; lia). by destruct e.
Qed.
End exec.

(** [ls] is in the second directory. *)
Definition only_usr (tried : list (list Z)) (path : list Z) : option Z := if bool_decide (path = text "/usr/bin/ls") then None else Some ENOENT.

Lemma execvpe_correct_witness : ∃ res tried, execvpe only_usr 3 None (text "ls") [text "ls"] [] = Some (res, tried) ∧
  searched only_usr [text "ls"] [] ((λ d, in_directory d (text "ls")) <$> split_path (default DEFAULT_PATH None)) [] ENOENT res tried.
Proof.
  apply (execvpe_correct only_usr 3 None (text "ls") [text "ls"] []).
  - apply (bool_decide_unpack _). vm_compute. exact I.
  - unfold fits, PATH_MAX. apply (bool_decide_unpack _). vm_compute. exact I.
  - apply (bool_decide_unpack _). vm_compute. exact I.
Defined.

Example ls_found : fst <$> execvpe only_usr 3 None (text "ls") [text "ls"] [] = Some (Running (text "/usr/bin/ls") [text "ls"] []).
Proof. vm_compute. reflexivity. Qed.
