(* ===== verification/Dirent.v ===== *)
(** * Reading directories: [readdir.c] and [scandir.c]

    A directory stream has a buffer that [getdents] fills with records of
    different lengths.  Answers of [getdents] are a list: bytes, or an error.

    The theorems: the records of all answers are delivered once and in order, for
    every division into answers, and then the end; [scandir] returns a single
    entry as it is, but writes behind its array when there are two. *)

From stdpp Require Import base numbers list strings.
From Stdlib Require Import Lia.
From S2P Require Import Prelude Netdev Layout.

#[local] Set Warnings "-register-all".

Definition dirent : ctype := Struct false [b64 "d_ino"; b64 "d_off"; b16 "d_reclen"; b8 "d_type"; a8 "d_name" 256].

(** [struct _IO_dir]; [next] is an offset in the buffer *)
Record dir := mk_dir { bytes_left : Z; next : Z; buffer : list Z }.
Definition buffer_size : Z := 15 * sizeof dirent.

(** [opendir]: the stream, if there was memory for it and the directory could
    be opened; the contents of the buffer and [next] are arbitrary. *)
Definition opendir (memory opened : bool) (next : Z) (buffer : list Z) : option dir :=
  if memory && opened then Some (mk_dir 0 next buffer) else None.

Definition d_reclen (d : dir) (dent : Z) : option Z := if dent <? 0 then None else get dirent ["d_reclen"] (drop (Z.to_nat dent) (buffer d)).

(** The entry as an offset in the buffer, the new stream and the answers left *)
Definition readdir (d : dir) (answers : list (option (list Z))) : option (option Z * dir * list (option (list Z))) :=
  let deliver (d : dir) answers :=
    let dent := next d in
    reclen ← d_reclen d dent;
    Some (Some dent, mk_dir (u64 (bytes_left d - reclen)) (next d + reclen) (buffer d), answers) in
  if bytes_left d =? 0 then
    match answers with
    | Some ((_ :: _) as bs) :: answers => deliver (mk_dir (Z.of_nat (length bs)) 0 (overwrite (buffer d) bs)) answers
    | _ :: answers => Some (None, d, answers)
    | [] => Some (None, d, [])
    end
  else deliver d answers.

(** [closedir] gives what [close] gave. *)
Definition closedir (close : Z → Z) (fd : Z) : Z := close fd.

(** ** [scandir] *)

Section scandir.
(** [filter]; whether the [k]-th allocation (of a copy) and a change of the array
    to a size work *)
Context (filter : option (list Z → bool)) (copies : nat → bool) (grows : Z → bool).
(** What [qsort] with the comparison function makes of the array *)
Context (sorted : list (list Z) → list (list Z)).

(** [*copy = *dirent]: all of the structure, which has to be in the buffer *)
Definition copy_dirent (d : dir) (dent : Z) : option (list Z) :=
  if dent + sizeof dirent <=? Z.of_nat (length (buffer d)) then Some (take (Z.to_nat (sizeof dirent)) (drop (Z.to_nat dent) (buffer d))) else None.

(** [None] is an access outside of a block; [Some None] the end at
    [cleanup_fail].  [room] is the size of the block at [nl], in bytes. *)
Fixpoint scandir_loop (fuel k : nat) (d : dir) (answers : list (option (list Z))) (nl : list (list Z)) (allocated room : Z) : option (option (list (list Z))) :=
  match fuel with
  | O => None
  | S fuel =>
      '(dent, d, answers) ← readdir d answers;
      match dent with
      | None => Some (Some nl)
      | Some dent =>
          if match filter with None => true | Some f => f (drop (Z.to_nat dent) (buffer d)) end then
            if negb (copies k) then Some None
            else
              copy ← copy_dirent d dent;
              let count := Z.of_nat (length nl) in
              let full := count =? allocated in
              let allocated := if full then if allocated =? 0 then 15 else allocated * 2 else allocated in
              if full && negb (grows allocated) then Some None
              else
                let room := if full then allocated else room in
                if (count + 1) * 8 <=? room then scandir_loop fuel (S k) d answers (nl ++ [copy]) allocated room else None
          else scandir_loop fuel k d answers nl allocated room
      end
  end.

(** The array, [None] for -1; [d] is what [opendir] gave *)
Definition scandir (fuel : nat) (d : option dir) (answers : list (option (list Z))) : option (option (list (list Z))) :=
  match d with
  | None => Some None
  | Some d => match scandir_loop fuel 0 d answers [] 0 0 with Some nl => Some (sorted <$> nl) | None => None end
  end.
End scandir.

(** ** What a program sees of an entry *)

Record entry := mk_entry { d_ino : Z; d_off : Z; d_type : Z; d_name : list Z }.

(** The characters up to the terminator *)
Fixpoint c_chars (l : list Z) : option (list Z) :=
  match l with [] => None | c :: l => if c =? 0 then Some [] else (c ::.) <$> c_chars l end.

Definition entry_at (d : dir) (dent : Z) : option entry :=
  let l := drop (Z.to_nat dent) (buffer d) in
  ino ← get dirent ["d_ino"] l;
  off ← get dirent ["d_off"] l;
  type ← get dirent ["d_type"] l;
  '(o, _) ← offsetof dirent ["d_name"];
  name ← c_chars (drop (Z.to_nat o) l);
  Some (mk_entry ino off type name).

(** Reading to the end *)
Fixpoint read_all (fuel : nat) (d : dir) (answers : list (option (list Z))) : option (list entry) :=
  match fuel with
  | O => None
  | S fuel =>
      '(dent, d, answers) ← readdir d answers;
      match dent with
      | None => Some []
      | Some dent =>
          e ← entry_at d dent;
          es ← read_all fuel d answers;
          Some (e :: es)
      end
  end.

(** ** Records *)

(** The record of an entry with [pad] bytes behind the name *)
Definition record (e : entry) (pad : list Z) : list Z :=
  to_le 8 (d_ino e) ++ to_le 8 (d_off e) ++ to_le 2 (20 + Z.of_nat (length (d_name e)) + Z.of_nat (length pad)) ++ [d_type e] ++ d_name e ++ [0] ++ pad.

Definition entry_ok (e : entry) (pad : list Z) : Prop :=
  in_u 64 (d_ino e) ∧ in_u 64 (d_off e) ∧ in_u 8 (d_type e) ∧ Forall (λ c, c ≠ 0) (d_name e) ∧ 20 + Z.of_nat (length (d_name e)) + Z.of_nat (length pad) < 2 ^ 16.

Definition records (es : list (entry * list Z)) : list Z := concat ((λ x, record x.1 x.2) <$> es).

Lemma length_record e pad : Z.of_nat (length (record e pad)) = 20 + Z.of_nat (length (d_name e)) + Z.of_nat (length pad).
Proof. unfold record. rewrite !length_app, !to_le_length. simpl. lia. Qed.

Lemma get_int (x : string) o size l pre bs rest : offsetof dirent [x] = Some (o, Int size) → l = pre ++ bs ++ rest → o = Z.of_nat (length pre) → size = Z.of_nat (length bs) →
  get dirent [x] l = Some (le bs).
Proof. intros Ho -> E1 E2. unfold get. rewrite Ho. cbn [mbind option_bind]. by rewrite (bytes_at_app pre bs rest o size E1 E2). Qed.

Lemma c_chars_ok s rest : Forall (λ c, c ≠ 0) s → c_chars (s ++ 0 :: rest) = Some s.
Proof. induction 1 as [| c s Hc _ IH]; [done |]. cbn [app c_chars]. rewrite (proj2 (Z.eqb_neq c 0)) by done. by rewrite IH. Qed.

Section at_record.
Context (d : dir) (pre : list Z) (e : entry) (pad rest : list Z).
Context (Hbuf : buffer d = pre ++ record e pad ++ rest) (Hok : entry_ok e pad).

Lemma drop_to_record : drop (Z.to_nat (Z.of_nat (length pre))) (buffer d) = record e pad ++ rest.
Proof using Hbuf. rewrite Hbuf, Nat2Z.id. apply drop_app_length. Qed.

Lemma d_reclen_record : d_reclen d (Z.of_nat (length pre)) = Some (Z.of_nat (length (record e pad))).
Proof using Hbuf Hok.
  unfold d_reclen. rewrite (proj2 (Z.ltb_ge _ _)) by lia. rewrite drop_to_record.
  rewrite (get_int "d_reclen" 16 2 _ (to_le 8 (d_ino e) ++ to_le 8 (d_off e)) (to_le 2 (20 + Z.of_nat (length (d_name e)) + Z.of_nat (length pad))) (([d_type e] ++ d_name e ++ [0] ++ pad) ++ rest));
    [| done | unfold record; by rewrite <- !app_assoc | by rewrite length_app, !to_le_length | by rewrite to_le_length].
  destruct Hok as (_ & _ & _ & _ & Hlen). rewrite le_to_le by lia. by rewrite length_record.
Qed.

Lemma entry_at_record : entry_at d (Z.of_nat (length pre)) = Some e.
Proof using Hbuf Hok.
  unfold entry_at. rewrite drop_to_record. destruct Hok as (Hi & Ho & Ht & Hn & Hlen). unfold in_u in *.
  rewrite (get_int "d_ino" 0 8 _ [] (to_le 8 (d_ino e)) (drop 8 (record e pad) ++ rest)); [| done | unfold record; simpl; by rewrite <- ?app_assoc | done | by rewrite to_le_length].
  rewrite (get_int "d_off" 8 8 _ (to_le 8 (d_ino e)) (to_le 8 (d_off e)) (drop 16 (record e pad) ++ rest)); [| done | unfold record; simpl; by rewrite <- ?app_assoc | by rewrite to_le_length | by rewrite to_le_length].
  rewrite (get_int "d_type" 18 1 _ (to_le 8 (d_ino e) ++ to_le 8 (d_off e) ++ to_le 2 (20 + Z.of_nat (length (d_name e)) + Z.of_nat (length pad))) [d_type e] ((d_name e ++ [0] ++ pad) ++ rest));
    [| done | unfold record; by rewrite <- !app_assoc | by rewrite !length_app, !to_le_length | done].
  cbn [mbind option_bind]. replace (offsetof dirent ["d_name"]) with (Some (19, Arr (Int 1) 256)) by done. cbn [mbind option_bind].
  assert (drop (Z.to_nat 19) (record e pad ++ rest) = d_name e ++ 0 :: pad ++ rest) as -> by (unfold record; simpl; by rewrite <- !app_assoc).
  rewrite c_chars_ok by done. cbn [mbind option_bind]. rewrite !le_to_le by (simpl; lia). destruct e. simpl. do 3 f_equal. lia.
Qed.
End at_record.

(** What is left in the buffer: the records [es] from [next] on *)
Definition holds (d : dir) (es : list (entry * list Z)) : Prop :=
  ∃ pre rest, buffer d = pre ++ records es ++ rest ∧ next d = Z.of_nat (length pre) ∧ bytes_left d = Z.of_nat (length (records es)) ∧ Forall (λ x, entry_ok x.1 x.2) es ∧ Z.of_nat (length (buffer d)) = buffer_size.

Lemma deliver_next d e pad es : holds d ((e, pad) :: es) →
  ∃ d', d_reclen d (next d) = Some (Z.of_nat (length (record e pad))) ∧ d' = mk_dir (u64 (bytes_left d - Z.of_nat (length (record e pad)))) (next d + Z.of_nat (length (record e pad))) (buffer d) ∧
    entry_at d' (next d) = Some e ∧ holds d' es.
Proof.
  intros (pre & rest & Hb & Hn & Hl & Hok & Hsz). apply Forall_cons in Hok as [He Hok]. cbn [fst snd] in He. unfold records in Hb, Hl. cbn [fmap list_fmap concat fst snd] in Hb, Hl.
  rewrite <- app_assoc in Hb. eexists. split; [rewrite Hn; by eapply d_reclen_record |]. split; [done |]. split.
  - rewrite Hn. by eapply entry_at_record.
  - exists (pre ++ record e pad), rest. unfold records. cbn [buffer next bytes_left]. split_and!; [by rewrite <- app_assoc | rewrite length_app; lia | | done | done].
    assert (buffer_size = 4200) as E by done. rewrite E, Hb, !length_app in Hsz. rewrite Hl, length_app. rewrite (wrapu_small 64) by (unfold in_u; lia). lia.
Qed.

Lemma records_nil es : Forall (λ x, entry_ok x.1 x.2) es → records es = [] → es = [].
Proof.
  destruct es as [| [e pad] es]; [done |]. intros _ H. exfalso. unfold records in H. cbn [fmap list_fmap concat fst snd] in H. apply app_nil in H as [H _].
  pose proof (length_record e pad) as L. rewrite H in L. simpl in L. lia.
Qed.

(** A full answer: records that fit the buffer, at least one *)
Definition answer_ok (es : list (entry * list Z)) : Prop :=
  es ≠ [] ∧ Forall (λ x, entry_ok x.1 x.2) es ∧ Z.of_nat (length (records es)) <= buffer_size.

Lemma refill d es : bytes_left d = 0 → Z.of_nat (length (buffer d)) = buffer_size → answer_ok es →
  holds (mk_dir (Z.of_nat (length (records es))) 0 (overwrite (buffer d) (records es))) es.
Proof.
  intros Hl Hsz (Hne & Hok & Hfit). exists [], (drop (length (records es)) (buffer d)). cbn [buffer next bytes_left]. split_and!; [done | done | done | done |].
  rewrite length_overwrite by lia. done.
Qed.

Lemma readdir_refill d bs n answers : bytes_left d = 0 → bs ≠ [] → d_reclen (mk_dir (Z.of_nat (length bs)) 0 (overwrite (buffer d) bs)) 0 = Some n →
  readdir d (Some bs :: answers) = Some (Some 0, mk_dir (u64 (Z.of_nat (length bs) - n)) (0 + n) (overwrite (buffer d) bs), answers).
Proof. intros Hl Hne Hr. unfold readdir. rewrite Hl. cbn [Z.eqb]. destruct bs as [| b bs]; [done |]. cbn [next]. by rewrite Hr. Qed.

(** The next entry, wherever it comes from *)
Lemma readdir_next d es answers e pad more : holds d es → Forall answer_ok answers → es ++ concat answers = (e, pad) :: more →
  ∃ dent d' es' answers', readdir d ((Some ∘ records) <$> answers) = Some (Some dent, d', (Some ∘ records) <$> answers') ∧ entry_at d' dent = Some e ∧
    holds d' es' ∧ Forall answer_ok answers' ∧ es' ++ concat answers' = more.
Proof.
  intros Hd Hans Hmore. unfold readdir. destruct es as [| [e0 pad0] es].
  - destruct Hd as (pre & rest & Hb & Hn & Hl & _ & Hsz). change (records []) with (@nil Z) in *. rewrite Hl. cbn [length]. change (Z.of_nat 0 =? 0) with true. cbv iota.
    destruct answers as [| es answers]; [done |]. apply Forall_cons in Hans as [Hes Hans]. pose proof (refill d es Hl Hsz Hes) as Hd'. rewrite fmap_cons. cbn [compose].
    destruct Hes as (Hne & Hok & _). destruct (records es) as [| b bs] eqn:Er; [by apply records_nil in Er |]. rewrite <- Er in *. clear Er. destruct es as [| [e1 pad1] es]; [done |].
    injection Hmore as <- <- Hmore. destruct (deliver_next _ e1 pad1 es Hd') as (d' & -> & Ed & He & Hh). cbn [mbind option_bind]. rewrite <- Ed. by eauto 10.
  - injection Hmore as <- <- Hmore. destruct (deliver_next d e0 pad0 es Hd) as (d' & E & Ed & He & Hh). rewrite E. cbn [mbind option_bind].
    destruct Hd as (pre & rest & _ & _ & Hl & _ & _). rewrite (proj2 (Z.eqb_neq (bytes_left d) 0)).
    2: { rewrite Hl. unfold records. cbn [fmap list_fmap concat fst snd]. rewrite length_app. pose proof (length_record e0 pad0). lia. }
    rewrite <- Ed. by eauto 10.
Qed.

(** The end *)
Lemma readdir_end d es answers : holds d es → Forall answer_ok answers → es ++ concat answers = [] → readdir d ((Some ∘ records) <$> answers) = Some (None, d, []).
Proof.
  intros Hd Hans [-> Hc]%app_nil. destruct answers as [| es answers]; [| apply Forall_cons in Hans as [[Hne _] _]; by apply app_nil in Hc as [? _]].
  destruct Hd as (pre & rest & _ & _ & Hl & _ & _). unfold readdir. by rewrite Hl.
Qed.

Lemma read_all_ok fuel : ∀ d es answers, holds d es → Forall answer_ok answers → (length es + length (concat answers) < fuel)%nat →
  read_all fuel d ((Some ∘ records) <$> answers) = Some (fst <$> (es ++ concat answers)).
Proof.
  induction fuel as [| fuel IH]; intros d es answers Hd Hans Hfuel; [lia |]. cbn [read_all]. rewrite <- length_app in Hfuel.
  destruct (es ++ concat answers) as [| [e pad] more] eqn:Em.
  - by rewrite (readdir_end d es answers).
  - destruct (readdir_next d es answers e pad more) as (dent & d' & es' & answers' & -> & He & Hh & Ha & <-); [done.. |]. cbn [mbind option_bind]. rewrite He. cbn [mbind option_bind].
    rewrite (IH d' es' answers') by (done || (cbn [length] in Hfuel; rewrite length_app in Hfuel; lia)). done.
Qed.

(** The entries of a directory are read back as the kernel wrote them, all of
    them, in order, for every division of the records into answers; then the
    end is reported. *)
Theorem readdir_roundtrip (place : Z) (junk : list Z) (d : dir) (answers : list (list (entry * list Z))) (Hopen : opendir true true place junk = Some d) (Hbuf : Z.of_nat (length junk) = buffer_size)
  (Hans : Forall answer_ok answers) (fuel : nat) (Hfuel : (length (concat answers) < fuel)%nat) :
  read_all fuel d ((Some ∘ records) <$> answers) = Some (fst <$> concat answers).
Proof.
  injection Hopen as <-. destruct fuel as [| fuel]; [lia |]. destruct answers as [| es answers]; [done |].
  (* the first answer fills the buffer, whatever [next] was *)
  refine (eq_trans _ (read_all_ok (S fuel) (mk_dir 0 (Z.of_nat 0) junk) [] (es :: answers) _ Hans Hfuel)).
  - cbn [read_all]. unfold readdir. cbn [bytes_left buffer]. apply Forall_cons in Hans as [(Hne & Hok & _) _]. rewrite fmap_cons. cbn [compose].
    destruct (records es) eqn:Er; [by apply records_nil in Er | done].
  - exists [], junk. cbn [records fmap list_fmap concat]. split_and!; try done.
Qed.

Definition example_answers : list (list (entry * list Z)) :=
  [[(mk_entry 7 1 4 [46], [0; 0]); (mk_entry 9 2 8 [97; 98; 99], [])]; [(mk_entry 11 3 8 [100], [1; 2; 3])]].

Lemma readdir_roundtrip_witness : read_all 4 (mk_dir 0 5 (replicate (Z.to_nat 4200) 7)) ((Some ∘ records) <$> example_answers) = Some (fst <$> concat example_answers).
Proof.
  apply (readdir_roundtrip 5 (replicate (Z.to_nat 4200) 7) _ example_answers eq_refl); [by rewrite length_replicate | | simpl; lia].
  repeat constructor; try done; unfold entry_ok, in_u; simpl; split_and!; try lia; repeat constructor; done.
Defined.

(** ** [scandir] *)

Section scanning.
Context (copies : nat → bool) (grows : Z → bool) (sorted : list (list Z) → list (list Z)).
Context (Hcopies : ∀ k, copies k = true) (Hgrows : ∀ n, grows n = true).
Context (d : dir) (answers : list (list (entry * list Z))) (Hd : holds d []) (Hans : Forall answer_ok answers).

(** The array is allocated with as many bytes as it should have elements: with
    two entries or more, whatever their names, [scandir] leaves its block. *)
Theorem scandir_overruns fuel : (2 <= length (concat answers))%nat → scandir None copies grows sorted fuel (Some d) ((Some ∘ records) <$> answers) = None.
Proof using Hcopies Hgrows Hd Hans.
  intros Hl. unfold scandir. enough (scandir_loop None copies grows fuel 0 d ((Some ∘ records) <$> answers) [] 0 0 = None) as -> by done.
  destruct fuel as [| fuel]; [done |]. destruct (concat answers) as [| [e1 p1] [| [e2 p2] more]] eqn:Ec; [simpl in Hl; lia.. |]. cbn [scandir_loop].
  destruct (readdir_next d [] answers e1 p1 ((e2, p2) :: more)) as (dent & d1 & es1 & a1 & -> & _ & Hh & Ha & Hm); [done.. |]. cbn [mbind option_bind]. rewrite Hcopies. cbn [negb].
  destruct (copy_dirent d1 dent) as [copy |]; [| done]. cbn [mbind option_bind length]. rewrite Hgrows. change ((Z.of_nat 0 + 1) * 8 <=? _) with true. cbv iota. cbn [app].
  destruct fuel as [| fuel]; [done |]. cbn [scandir_loop].
  destruct (readdir_next d1 es1 a1 e2 p2 more) as (dent2 & d2 & es2 & a2 & -> & _); [done.. |]. cbn [mbind option_bind]. rewrite Hcopies. cbn [negb].
  by destruct (copy_dirent d2 dent2).
Qed.

(** A single entry is returned as it is: the copy has its fields and its name. *)
Theorem scandir_single fuel e pad : answers = [[(e, pad)]] → (2 <= fuel)%nat →
  ∃ b copy, scandir None copies grows sorted fuel (Some d) ((Some ∘ records) <$> answers) = Some (Some (sorted [copy])) ∧
    copy = take (Z.to_nat (sizeof dirent)) b ∧ entry_at (mk_dir 0 0 b) 0 = Some e.
Proof using Hcopies Hgrows Hd Hans.
  intros Ea Hf. destruct fuel as [| [| fuel]]; [lia.. |]. rewrite Ea in *. apply Forall_cons in Hans as [Ha _]. destruct Hd as (pre & rest & _ & _ & Hl & _ & Hsz).
  pose proof (refill d [(e, pad)] Hl Hsz Ha) as Hr. set (b := overwrite (buffer d) (records [(e, pad)])) in *.
  destruct (deliver_next _ e pad [] Hr) as (d' & Er & Ed & He & Hh). cbn [next bytes_left buffer] in *.
  assert (readdir d ((Some ∘ records) <$> [[(e, pad)]]) = Some (Some 0, d', [])) as E.
  { rewrite fmap_cons. cbn [compose fmap list_fmap]. rewrite Ed. apply readdir_refill; [by rewrite Hl | | exact Er]. intros E0. destruct Ha as (Hne & Hok & _). by apply records_nil in E0. }
  assert (buffer d' = b) as Hb by (by rewrite Ed). exists b, (take (Z.to_nat (sizeof dirent)) b). split; [| split; [done | by rewrite Ed in He]].
  unfold scandir. cbn [scandir_loop]. rewrite E. cbn [mbind option_bind]. rewrite Hcopies. cbn [negb].
  assert (Z.of_nat (length b) = buffer_size) as Hlb by (destruct Hh as (? & ? & _ & _ & _ & _ & H); congruence).
  assert (copy_dirent d' 0 = Some (take (Z.to_nat (sizeof dirent)) b)) as ->.
  { unfold copy_dirent. rewrite Hb, Hlb. change (0 + sizeof dirent <=? buffer_size) with true. by rewrite drop_0. }
  cbn [mbind option_bind length]. rewrite Hgrows. change ((Z.of_nat 0 + 1) * 8 <=? _) with true. cbv iota. cbn [app andb negb].
  change (Z.of_nat 0 =? 0) with true. cbv iota. cbn [andb negb].
  pose proof (readdir_end d' [] [] Hh ltac:(done) ltac:(done)) as E2. cbn [fmap list_fmap] in E2. rewrite E2. done.
Qed.
End scanning.

Lemma scandir_overruns_witness : scandir None (λ _, true) (λ _, true) (λ l, l) 9 (Some (mk_dir 0 (Z.of_nat 0) (replicate (Z.to_nat 4200) 7))) ((Some ∘ records) <$> example_answers) = None.
Proof.
  apply scandir_overruns; [done | done | | | simpl; lia].
  - exists [], (replicate (Z.to_nat 4200) 7). split_and!; try done.
  - repeat constructor; try done; unfold entry_ok, in_u; simpl; split_and!; try lia; repeat constructor; done.
Defined.
