(* ===== verification/Startup.v ===== *)
(** * Start of a process: [libc_init.c]

    The kernel leaves a block of words on the stack: the number of arguments,
    pointers to them, pointers to the environment, and pairs of the auxiliary
    vector.  Pointers into the block are indices of words; a read outside of it
    is a fault.

    The theorem: from a block that the kernel has made, [main] gets the
    arguments and the environment that are there, and the page size is the
    kernel's. *)

From stdpp Require Import base numbers list.
From Stdlib Require Import Lia.
From S2P Require Import Prelude.

Definition AT_PAGESZ : Z := 6.
Definition AT_ENTRY : Z := 9.

Definition word (elfdata : list Z) (i : Z) : option Z := if i <? 0 then None else elfdata !! Z.to_nat i.

(** [for (envend = envp; *envend; envend++)] *)
Fixpoint find_envend (fuel : nat) (elfdata : list Z) (envend : Z) : option Z :=
  match fuel with
  | O => None
  | S fuel => v ← word elfdata envend; if v =? 0 then Some envend else find_envend fuel elfdata (envend + 1)
  end.

(** The loop over the auxiliary vector: [MAIN] (0 in a static program) and
    [page_size] *)
Fixpoint scan_aux (fuel : nat) (shared : bool) (elfdata : list Z) (auxentry MAIN page_size : Z) : option (Z * Z) :=
  match fuel with
  | O => None
  | S fuel =>
      type ← word elfdata auxentry;
      if type =? 0 then Some (MAIN, page_size)
      else if shared && (type =? AT_ENTRY) then
        v ← word elfdata (auxentry + 1);
        scan_aux fuel shared elfdata (auxentry + 2) v page_size
      else if type =? AT_PAGESZ then
        v ← word elfdata (auxentry + 1);
        scan_aux fuel shared elfdata (auxentry + 2) MAIN (u32 v)
      else scan_aux fuel shared elfdata (auxentry + 2) MAIN page_size
  end.

(** [__builtin_clz], which has no value for 0 *)
Definition builtin_clz (x : Z) : option Z := if x =? 0 then None else Some (31 - Z.log2 x).

(** What the program starts with: [argv], [envp] (also [environ]) and [main] *)
Record startup := mk_startup { argc : Z; argv : Z; envp : Z; main_at : Z; page_size_ : Z; page_shift_ : Z }.

Definition __libc_init (shared : bool) (elfdata : list Z) : option startup :=
  let fuel := S (length elfdata) in
  argc ← s32 <$> word elfdata 0;
  let argv := 1 in
  let envp := argv + (argc + 1) in
  envend ← find_envend fuel elfdata envp;
  '(MAIN, page_size) ← scan_aux fuel shared elfdata (envend + 1) 0 0;
  clz ← builtin_clz page_size;
  Some (mk_startup argc argv envp MAIN page_size (Z.lxor clz 31)).

(** ** The block of the kernel *)

Definition aux_words (aux : list (Z * Z)) : list Z := aux ≫= λ '(t, v), [t; v].
Definition stack_image (args env : list Z) (aux : list (Z * Z)) (rest : list Z) : list Z :=
  Z.of_nat (length args) :: args ++ 0 :: env ++ 0 :: aux_words aux ++ 0 :: rest.

(** The value of a type in the vector, the last if there are several *)
Definition aux_value (type : Z) (aux : list (Z * Z)) (init : Z) : Z := foldl (λ v x, if x.1 =? type then x.2 else v) init aux.

Lemma word_app pre x rest : word (pre ++ x :: rest) (Z.of_nat (length pre)) = Some x.
Proof. unfold word. rewrite (proj2 (Z.ltb_ge _ _)) by lia. rewrite Nat2Z.id. by apply list_lookup_middle. Qed.

Lemma find_envend_ok env : ∀ fuel pre rest, Forall (λ p, p ≠ 0) env → (length env < fuel)%nat →
  find_envend fuel (pre ++ env ++ 0 :: rest) (Z.of_nat (length pre)) = Some (Z.of_nat (length pre + length env)).
Proof.
  induction env as [| p env IH]; intros fuel pre rest Hnz Hf; (destruct fuel as [| fuel]; [simpl in Hf; lia |]); cbn [find_envend app].
  - rewrite word_app. cbn [mbind option_bind length]. by rewrite Nat.add_0_r.
  - rewrite word_app. cbn [mbind option_bind]. apply Forall_cons in Hnz as [Hp Hnz]. rewrite (proj2 (Z.eqb_neq p 0)) by done.
    replace (Z.of_nat (length pre) + 1) with (Z.of_nat (length (pre ++ [p]))) by (rewrite length_app; simpl; lia).
    replace (pre ++ p :: env ++ 0 :: rest) with ((pre ++ [p]) ++ env ++ 0 :: rest) by (by rewrite <- app_assoc). rewrite IH; [| done | simpl in Hf; lia]. rewrite length_app. simpl. f_equal. lia.
Qed.

Lemma scan_aux_ok shared aux : ∀ fuel pre rest MAIN page_size, Forall (λ x, x.1 ≠ 0) aux → (length aux < fuel)%nat →
  scan_aux fuel shared (pre ++ aux_words aux ++ 0 :: rest) (Z.of_nat (length pre)) MAIN page_size =
    Some (if shared then aux_value AT_ENTRY aux MAIN else MAIN, foldl (λ v x, if x.1 =? AT_PAGESZ then u32 x.2 else v) page_size aux).
Proof.
  induction aux as [| [t v] aux IH]; intros fuel pre rest MAIN page_size Hnz Hf; (destruct fuel as [| fuel]; [simpl in Hf; lia |]); cbn [scan_aux].
  - change (aux_words [] ++ 0 :: rest) with (0 :: rest). rewrite word_app. by destruct shared.
  - change (aux_words ((t, v) :: aux) ++ 0 :: rest) with (t :: v :: aux_words aux ++ 0 :: rest). rewrite word_app. cbn [mbind option_bind].
    apply Forall_cons in Hnz as [Ht Hnz]. cbn [fst] in Ht. rewrite (proj2 (Z.eqb_neq t 0)) by done.
    assert (word (pre ++ t :: v :: aux_words aux ++ 0 :: rest) (Z.of_nat (length pre) + 1) = Some v) as Hv.
    { replace (Z.of_nat (length pre) + 1) with (Z.of_nat (length (pre ++ [t]))) by (rewrite length_app; simpl; lia).
      replace (pre ++ t :: v :: aux_words aux ++ 0 :: rest) with ((pre ++ [t]) ++ v :: aux_words aux ++ 0 :: rest) by (by rewrite <- app_assoc). apply word_app. }
    rewrite Hv. cbn [mbind option_bind]. replace (Z.of_nat (length pre) + 2) with (Z.of_nat (length (pre ++ [t; v]))) by (rewrite length_app; simpl; lia).
    replace (pre ++ t :: v :: aux_words aux ++ 0 :: rest) with ((pre ++ [t; v]) ++ aux_words aux ++ 0 :: rest) by (by rewrite <- app_assoc).
    assert ((length aux < fuel)%nat) as Hf' by (simpl in Hf; lia). unfold aux_value. cbn [foldl fst snd].
    destruct shared, (Z.eqb_spec t AT_ENTRY) as [-> | He]; cbn [andb]; try (change (AT_ENTRY =? AT_PAGESZ) with false; cbv iota; by rewrite IH);
      (destruct (t =? AT_PAGESZ); by rewrite IH).
Qed.

Lemma page_size_value aux : ∀ init, foldl (λ v x, if x.1 =? AT_PAGESZ then u32 x.2 else v) (u32 init) aux = u32 (aux_value AT_PAGESZ aux init).
Proof. induction aux as [| [t v] aux IH]; intros init; [done |]. unfold aux_value. cbn [foldl fst snd]. destruct (t =? AT_PAGESZ); apply IH. Qed.

Lemma length_aux_words aux : length (aux_words aux) = (2 * length aux)%nat.
Proof. induction aux as [| [t v] aux IH]; [done |]. change (aux_words ((t, v) :: aux)) with (t :: v :: aux_words aux). simpl length. lia. Qed.

(** [page_shift] of a size *)
Lemma shift_of_size x : 0 < x < 2 ^ 32 → Z.lxor (31 - Z.log2 x) 31 = Z.log2 x.
Proof.
  intros H. assert (0 <= Z.log2 x < 32) as Hr by (split; [apply Z.log2_nonneg | apply Z.log2_lt_pow2; lia]). revert Hr. generalize (Z.log2 x). intros n Hn.
  assert (Forall (λ n, Z.lxor (31 - n) 31 = n) (seqZ 0 32)) as F by (apply (bool_decide_unpack _); vm_compute; exact I).
  rewrite Forall_forall in F. apply F. apply elem_of_seqZ. lia.
Qed.

(** The arguments and the environment are where the kernel put them, [main] of a
    shared program is its entry point, and the page size is that of the
    auxiliary vector, [2 ^ page_shift] if it is a power of two. *)
Theorem libc_init_correct (shared : bool) (args env : list Z) (aux : list (Z * Z)) (rest : list Z) (k : Z) (Hargs : Z.of_nat (length args) < 2 ^ 31)
  (Henv : Forall (λ p, p ≠ 0) env) (Haux : Forall (λ x, x.1 ≠ 0) aux) (Hk : 0 <= k < 32) (Hpage : aux_value AT_PAGESZ aux 0 = 2 ^ k) :
  ∃ s, __libc_init shared (stack_image args env aux rest) = Some s ∧
    argc s = Z.of_nat (length args) ∧
    take (length args) (drop (Z.to_nat (argv s)) (stack_image args env aux rest)) = args ∧
    take (length env) (drop (Z.to_nat (envp s)) (stack_image args env aux rest)) = env ∧
    word (stack_image args env aux rest) (argv s + argc s) = Some 0 ∧
    word (stack_image args env aux rest) (envp s + Z.of_nat (length env)) = Some 0 ∧
    main_at s = (if shared then aux_value AT_ENTRY aux 0 else 0) ∧ page_size_ s = 2 ^ k ∧ page_shift_ s = k.
Proof.
  unfold __libc_init. set (img := stack_image args env aux rest). assert (word img 0 = Some (Z.of_nat (length args))) as -> by done. cbn [fmap option_fmap option_map mbind option_bind].
  rewrite (wraps_small 32) by (done || (unfold in_s; lia)).
  set (pre := Z.of_nat (length args) :: args ++ [0]). assert (img = pre ++ env ++ 0 :: aux_words aux ++ 0 :: rest) as E by (unfold img, stack_image, pre; simpl; by rewrite <- app_assoc).
  assert (length pre = length args + 2)%nat as Lpre by (unfold pre; simpl; rewrite length_app; simpl; lia).
  assert (1 + (Z.of_nat (length args) + 1) = Z.of_nat (length pre)) as -> by lia.
  assert (length img = length pre + length env + 1 + 2 * length aux + 1 + length rest)%nat as L.
  { rewrite E, !length_app. simpl. rewrite !length_app. simpl. rewrite length_aux_words. lia. }
  assert (find_envend (S (length img)) img (Z.of_nat (length pre)) = Some (Z.of_nat (length pre + length env))) as -> by (rewrite E at 2; apply find_envend_ok; [done | lia]).
  cbn [mbind option_bind].
  set (pre2 := pre ++ env ++ [0]). assert (img = pre2 ++ aux_words aux ++ 0 :: rest) as E2 by (rewrite E; unfold pre2; by rewrite <- !app_assoc).
  replace (Z.of_nat (length pre + length env) + 1) with (Z.of_nat (length pre2)) by (unfold pre2; rewrite !length_app; simpl; lia).
  assert (scan_aux (S (length img)) shared img (Z.of_nat (length pre2)) 0 (u32 0) = Some (if shared then aux_value AT_ENTRY aux 0 else 0, 2 ^ k)) as Hs.
  { rewrite E2 at 2. rewrite scan_aux_ok by (done || lia). rewrite page_size_value, Hpage. rewrite (wrapu_small 32); [done |]. unfold in_u. split; [apply Z.pow_nonneg; lia | apply Z.pow_lt_mono_r; lia]. }
  change (u32 0) with 0 in Hs. rewrite Hs. cbn [mbind option_bind].
  assert (0 < 2 ^ k < 2 ^ 32) as Hp by (split; [apply Z.pow_pos_nonneg; lia | apply Z.pow_lt_mono_r; lia]).
  unfold builtin_clz. rewrite (proj2 (Z.eqb_neq (2 ^ k) 0)) by lia. cbn [mbind option_bind].
  eexists. split; [done |]. cbn [argc argv envp main_at page_size_ page_shift_]. split_and!; [done | | | | | done | done | rewrite shift_of_size by done; apply Z.log2_pow2; lia].
  - unfold img, stack_image. simpl. apply take_app_length.
  - rewrite E, Nat2Z.id, drop_app_length. apply take_app_length.
  - replace (1 + Z.of_nat (length args)) with (Z.of_nat (length (Z.of_nat (length args) :: args))) by (simpl; lia). unfold img, stack_image. apply (word_app (Z.of_nat (length args) :: args) 0).
  - rewrite <- Nat2Z.inj_add. replace (length pre + length env)%nat with (length (pre ++ env)) by (by rewrite length_app). rewrite E, app_assoc. apply word_app.
Qed.

Lemma libc_init_correct_witness : ∃ s, __libc_init true (stack_image [100; 104] [200] [(6, 4096); (9, 5000)] [42]) = Some s ∧ argc s = Z.of_nat (length [100; 104]) ∧
    take (length [100; 104]) (drop (Z.to_nat (argv s)) (stack_image [100; 104] [200] [(6, 4096); (9, 5000)] [42])) = [100; 104] ∧
    take (length [200]) (drop (Z.to_nat (envp s)) (stack_image [100; 104] [200] [(6, 4096); (9, 5000)] [42])) = [200] ∧
    word (stack_image [100; 104] [200] [(6, 4096); (9, 5000)] [42]) (argv s + argc s) = Some 0 ∧
    word (stack_image [100; 104] [200] [(6, 4096); (9, 5000)] [42]) (envp s + Z.of_nat (length [200])) = Some 0 ∧
    main_at s = aux_value AT_ENTRY [(6, 4096); (9, 5000)] 0 ∧ page_size_ s = 2 ^ 12 ∧ page_shift_ s = 12.
Proof.
  apply (libc_init_correct true [100; 104] [200] [(6, 4096); (9, 5000)] [42] 12); [simpl; lia | repeat constructor; done | repeat constructor; done | lia | done].
Defined.
