(* ===== verification/Cat.v ===== *)
(** * Concatenation: [utils/cat.c]

    Standard output is a list of bytes; whether the [k]-th operation on it works
    is an oracle.  Files are given by what reading them delivers.

    The theorems: with the options that change the text, the output is that of
    a description by lines (numbered, with their ends marked, characters made
    visible); without them, the files are copied unchanged however reads and
    writes are divided. *)

From stdpp Require Import base numbers list strings.
From Stdlib Require Import Lia.
From S2P Require Import Prelude Prog Ctype Printf Getopt Ipconfig.

#[local] Set Warnings "-register-all".

Record flags := mk_flags { bflag : bool; eflag : bool; fflag : bool; lflag : bool; nflag : bool; sflag : bool; tflag : bool; vflag : bool }.
Definition no_flags : flags := mk_flags false false false false false false false false.

(** The switch of [main]; [None] is the message about the usage *)
Definition set_flag (fl : flags) (ch : Z) : option flags :=
  let '(mk_flags b e f l n s t v) := fl in
  if ch =? 98 then Some (mk_flags true e f l true s t v)
  else if ch =? 101 then Some (mk_flags b true f l n s t true)
  else if ch =? 102 then Some (mk_flags b e true l n s t v)
  else if ch =? 108 then Some (mk_flags b e f true n s t v)
  else if ch =? 110 then Some (mk_flags b e f l true s t v)
  else if ch =? 115 then Some (mk_flags b e f l n true t v)
  else if ch =? 116 then Some (mk_flags b e f l n s true true)
  else if ch =? 117 then Some fl
  else if ch =? 118 then Some (mk_flags b e f l n s t true)
  else None.
Fixpoint set_flags (fl : flags) (es : list Getopt.event) : option flags :=
  match es with
  | [] => Some fl
  | Getopt.Opt c _ :: es => fl ← set_flag fl c; set_flags fl es
  | _ => None
  end.

(** ** Text that is changed *)

(** What was written, the number of operations so far, what is left of standard
    input, and the result of the program *)
Record cat := mk_cat { out : list Z; ops : nat; stdin : list Z; rval : Z }.

Section cat.
Context (fl : flags) (bad : nat → bool).

(** [putchar] and [fprintf]: whether it worked *)
Definition emit (t : list Z) (s : cat) : bool * cat :=
  if bad (ops s) then (false, mk_cat (out s) (S (ops s)) (stdin s) (rval s))
  else (true, mk_cat (out s ++ t) (S (ops s)) (stdin s) (rval s)).

(** ["%6d\t"] and ["%6s\t"] with an empty string *)
Definition line_number (line : Z) : list Z := default [] (render 10 (λ _, None) (text "%6d" ++ [9]) [line]).
Definition no_number : list Z := default [] (render 10 (λ _, Some []) (text "%6s" ++ [9]) [1]).

Definition is_cntrl (c : Z) : bool := match iscntrl c with Some v => negb (v =? 0) | None => false end.

(** The end of a round: out of the loop, with [stdout_err], or on with the next
    character *)
Inductive round := Stop (stdout_err : bool) | Next (prev : Z) (gobble : bool) (line : Z).

(** Behind the part about the start of a line: [ch] as it is shown *)
Definition cook_shown (ch line : Z) (s : cat) : round * cat :=
  let put (ch : Z) (s : cat) := let '(ok, s) := emit [ch] s in (if ok : bool then Next ch false line else Stop false, s) in
  if ch =? 10 then
    if eflag fl then let '(ok, s) := emit [36] s in if ok : bool then put ch s else (Stop false, s) else put ch s
  else if ch =? 9 then
    if tflag fl then
      let '(ok, s) := emit [94] s in
      if negb ok then (Stop false, s)
      else let '(ok, s) := emit [73] s in (if ok : bool then Next ch false line else Stop false, s)
    else put ch s
  else if vflag fl then
    let control (ch : Z) (s : cat) :=
      if is_cntrl ch then
        let '(ok, s) := emit [94] s in
        if negb ok then (Stop false, s)
        else let '(ok, s) := emit [u8 (if ch =? 127 then 63 else Z.lor ch 64)] s in (if ok : bool then Next ch false line else Stop false, s)
      else put ch s in
    if negb (Z.land ch (Z.lnot 0x7f) =? 0) then
      let '(ok, s) := emit [77] s in
      if negb ok then (Stop false, s)
      else let '(ok, s) := emit [45] s in if negb ok then (Stop false, s) else control (Z.land ch 0x7f) s
    else control ch s
  else put ch s.

(** One round of the loop *)
Definition cook_char (prev ch : Z) (gobble : bool) (line : Z) (s : cat) : round * cat :=
  if prev =? 10 then
    if ch =? 10 then
      if sflag fl then
        if negb gobble then let '(ok, s) := emit [10] s in (if ok : bool then Next ch true line else Stop false, s)
        else (Next ch true line, s)
      else if nflag fl then
        if negb (bflag fl) then
          let '(ok, s) := emit (line_number (s32 (line + 1))) s in
          if ok : bool then cook_shown ch (s32 (line + 1)) s else (Stop true, s)
        else if eflag fl then
          let '(ok, s) := emit no_number s in
          if ok : bool then cook_shown ch line s else (Stop true, s)
        else cook_shown ch line s
      else cook_shown ch line s
    else if nflag fl then
      let '(ok, s) := emit (line_number (s32 (line + 1))) s in
      if ok : bool then cook_shown ch (s32 (line + 1)) s else (Stop true, s)
    else cook_shown ch line s
  else cook_shown ch line s.

(** [stdout_err] at the end *)
Fixpoint cook_loop (input : list Z) (prev : Z) (gobble : bool) (line : Z) (s : cat) : bool * cat :=
  match input with
  | [] => (false, s)
  | ch :: input =>
      match cook_char prev ch gobble line s with
      | (Stop err, s) => (err, s)
      | (Next prev gobble line, s) => cook_loop input prev gobble line s
      end
  end.
Definition cook_buf (input : list Z) (s : cat) : cat :=
  let '(err, s) := cook_loop input 10 false 0 s in
  if err : bool then mk_cat (out s) (ops s) (stdin s) 1 else s.

(** [files] is what [fopen] finds.  Standard input is at its end after it was
    read once. *)
Definition cook_stdin (s : cat) : cat := cook_buf (stdin s) (mk_cat (out s) (ops s) [] (rval s)).
Fixpoint cook_operands (files : list Z → option (list Z)) (argv : list (list Z)) (s : cat) : cat :=
  match argv with
  | [] => s
  | arg :: argv =>
      let s := if bool_decide (arg = text "-") then cook_stdin s
               else match files arg with
                    | Some input => cook_buf input s
                    | None => mk_cat (out s) (ops s) (stdin s) 1
                    end in
      cook_operands files argv s
  end.
Definition cook_args (files : list Z → option (list Z)) (argv : list (list Z)) (s : cat) : cat :=
  match argv with [] => cook_stdin s | _ => cook_operands files argv s end.

(** ** Text that is not changed *)

(** What the calls of [read] deliver, [None] for an error, and how much the
    [k]-th [write] takes at most, [None] for an error *)
Abbreviation reads := (list (option (list Z))).
Context (takes : nat → option nat).

Fixpoint write_all (fuel : nat) (buf : list Z) : prog cat unit :=
  match fuel with
  | 0%nat => crash
  | S fuel =>
      match buf with
      | [] => mret tt
      | _ =>
          s ← get_st;
          match takes (ops s) with
          | None => exit_ 1
          | Some n =>
              put_st (mk_cat (out s ++ take n buf) (S (ops s)) (stdin s) (rval s));;
              write_all fuel (drop n buf)
          end
      end
  end.

(** What [getc] delivers of it: up to the end or an error *)
Fixpoint readable (rs : reads) : list Z :=
  match rs with
  | Some ((_ :: _) as buf) :: rs => buf ++ readable rs
  | _ => []
  end.

Fixpoint raw_cat (fuel : nat) (rs : reads) : prog cat unit :=
  match rs with
  | [] => mret tt
  | Some [] :: _ => mret tt
  | Some buf :: rs => write_all fuel buf;; raw_cat fuel rs
  | None :: _ => s ← get_st; put_st (mk_cat (out s) (ops s) (stdin s) 1)
  end.

(** [opens] gives whether a file is a regular one and what reading it delivers;
    with [-f] other files are passed over.  [input] is standard input. *)
Definition skip_file : prog cat unit := s ← get_st; put_st (mk_cat (out s) (ops s) (stdin s) 1).
Fixpoint raw_operands (fuel : nat) (opens : list Z → option (bool * reads)) (input : reads) (argv : list (list Z)) : prog cat unit :=
  match argv with
  | [] => mret tt
  | arg :: argv =>
      if bool_decide (arg = text "-") then raw_cat fuel input;; raw_operands fuel opens [] argv
      else
        (match opens arg with
         | None => skip_file
         | Some (regular, rs) => if fflag fl && negb regular then skip_file else raw_cat fuel rs
         end);;
        raw_operands fuel opens input argv
  end.
Definition raw_args (fuel : nat) (opens : list Z → option (bool * reads)) (input : reads) (argv : list (list Z)) : prog cat unit :=
  match argv with [] => raw_cat fuel input | _ => raw_operands fuel opens input argv end.
End cat.

(** [main]: [locked] and [flushed] are the results of [fcntl] and [fclose]; the
    result of the program *)
Definition cat_main (fuel : nat) (bad : nat → bool) (takes : nat → option nat) (opens : list Z → option (bool * list (option (list Z)))) (input : list (option (list Z))) (locked flushed : bool) (argv : list (list Z)) : prog cat Z :=
  let args := drop 1 argv in
  '(es, operands) ← of_option (events (text "beflnstuv") (S (work [] args)) [] args);
  match set_flags no_flags es with
  | None => exit_ 1
  | Some fl =>
      if lflag fl && negb locked then exit_ 1
      else
        (if bflag fl || eflag fl || nflag fl || sflag fl || tflag fl || vflag fl
         then s ← get_st; put_st (cook_args fl bad (λ name, (λ x, readable x.2) <$> opens name) operands s)
         else raw_args fl takes fuel opens input operands);;
        s ← get_st;
        if negb flushed then exit_ 1 else mret (rval s)
  end.

(** ** What the output should be *)

Section spec.
Context (fl : flags).

(** A character that is not the end of a line *)
Definition visible (c : Z) : list Z := if is_cntrl c then [94; if c =? 127 then 63 else Z.lor c 64] else [c].
Definition shown (c : Z) : list Z :=
  if c =? 9 then if tflag fl then [94; 73] else [9]
  else if vflag fl then if 128 <=? c then [77; 45] ++ visible (c - 128) else visible c
  else [c].

Definition line_end : list Z := (if eflag fl then [36] else []) ++ [10].

(** The text of the lines [ls] and of the last, [tail], which has no end;
    [gobble]: the line before was empty *)
Fixpoint cooked (gobble : bool) (line : Z) (ls : list (list Z)) (tail : list Z) : list Z :=
  match ls with
  | [] => match tail with [] => [] | _ => (if nflag fl then line_number (line + 1) else []) ++ (tail ≫= shown) end
  | [] :: ls =>
      if sflag fl then (if gobble then [] else [10]) ++ cooked true line ls tail
      else if nflag fl && negb (bflag fl) then line_number (line + 1) ++ line_end ++ cooked false (line + 1) ls tail
      else (if nflag fl && eflag fl then no_number else []) ++ line_end ++ cooked false line ls tail
  | l :: ls =>
      (if nflag fl then line_number (line + 1) else []) ++ (l ≫= shown) ++ line_end ++ cooked false (if nflag fl then line + 1 else line) ls tail
  end.
End spec.

(** The lines of a text, and what is behind the last end of a line *)
Fixpoint lines_of (l : list Z) : list (list Z) * list Z :=
  match l with
  | [] => ([], [])
  | c :: l =>
      let '(ls, tail) := lines_of l in
      if c =? 10 then ([] :: ls, tail)
      else match ls with [] => ([], c :: tail) | line :: ls => ((c :: line) :: ls, tail) end
  end.

Definition joined (ls : list (list Z)) (tail : list Z) : list Z := concat ((λ l, l ++ [10]) <$> ls) ++ tail.

Lemma lines_of_joined l : joined (lines_of l).1 (lines_of l).2 = l.
Proof.
  induction l as [| c l IH]; [done |]. cbn [lines_of]. destruct (lines_of l) as [ls tail] eqn:E. cbn [fst snd] in IH. destruct (Z.eqb_spec c 10) as [-> | Hc].
  - cbn [fst snd]. unfold joined in *. cbn. by rewrite <- IH at 1.
  - destruct ls as [| line ls]; cbn [fst snd]; unfold joined in *; cbn in *; by rewrite <- IH.
Qed.

Lemma lines_of_clean l : Forall (Forall (λ c, c ≠ 10)) (lines_of l).1 ∧ Forall (λ c, c ≠ 10) (lines_of l).2.
Proof.
  induction l as [| c l [IH1 IH2]]; [done |]. cbn [lines_of]. destruct (lines_of l) as [ls tail] eqn:E. cbn [fst snd] in *. destruct (Z.eqb_spec c 10) as [-> | Hc].
  - split; [by constructor | done].
  - destruct ls as [| line ls]; cbn [fst snd]; [by auto |]. apply Forall_cons in IH1 as [? ?]. auto.
Qed.

Lemma Forall_joined (P : Z → Prop) ls tail : Forall P (joined ls tail) → Forall (Forall P) ls ∧ Forall P tail.
Proof.
  unfold joined. rewrite Forall_app. intros [H1 H2]. split; [| done]. induction ls as [| l ls IH]; [done |]. cbn in H1. apply Forall_app in H1 as [Hl H1]. apply Forall_app in Hl as [Hl _]. auto.
Qed.

Section works.
Context (fl : flags).

(** The text [t] was added. *)
Definition added (t : list Z) (s s' : cat) : Prop := out s' = out s ++ t ∧ stdin s' = stdin s ∧ rval s' = rval s.

Lemma added_nil s : added [] s s.
Proof. split; [by rewrite app_nil_r | done]. Qed.
Lemma added_app t t' s s' s'' : added t s s' → added t' s' s'' → added (t ++ t') s s''.
Proof. intros (E & Es & Er) (E' & Es' & Er'). split_and!; [by rewrite E', E, app_assoc | congruence | congruence]. Qed.

Definition good : nat → bool := λ _, false.
Lemma emit_good t s : ∃ s', emit good t s = (true, s') ∧ added t s s'.
Proof. eexists. split; [reflexivity |]. done. Qed.

(** The characters for which [prev] does not become the end of a line: with
    [-v] the byte 138, shown as [M-^J], does that. *)
Definition plain (c : Z) : Prop := in_u 8 c ∧ c ≠ 10 ∧ (vflag fl = true → c ≠ 138).

Ltac emits := match goal with |- context [emit good ?t ?s] => let s' := fresh "s" in let E := fresh "E" in let H := fresh "A" in destruct (emit_good t s) as (s' & E & H); rewrite E; clear E; cbn [negb] end.

Lemma high_bit c : in_u 8 c → negb (Z.land c (Z.lnot 0x7f) =? 0) = (128 <=? c) ∧ Z.land c 0x7f = if 128 <=? c then c - 128 else c.
Proof.
  intros Hc. assert (Forall (λ c, negb (Z.land c (Z.lnot 0x7f) =? 0) = (128 <=? c) ∧ Z.land c 0x7f = if 128 <=? c then c - 128 else c) (seqZ 0 256)) as F by (apply (bool_decide_unpack _); vm_compute; exact I).
  rewrite Forall_forall in F. apply F. apply elem_of_seqZ. unfold in_u in Hc. lia.
Qed.

Lemma control_byte c : 0 <= c < 128 → u8 (if c =? 127 then 63 else Z.lor c 64) = if c =? 127 then 63 else Z.lor c 64.
Proof.
  intros Hc. assert (Forall (λ c, u8 (if c =? 127 then 63 else Z.lor c 64) = if c =? 127 then 63 else Z.lor c 64) (seqZ 0 128)) as F by (apply (bool_decide_unpack _); vm_compute; exact I).
  rewrite Forall_forall in F. apply F. apply elem_of_seqZ. lia.
Qed.

Lemma cook_shown_plain ch line s : plain ch → ∃ p s', cook_shown fl good ch line s = (Next p false line, s') ∧ p ≠ 10 ∧ added (shown fl ch) s s'.
Proof.
  intros (Hb & Hn & Hv). unfold cook_shown, shown. rewrite (proj2 (Z.eqb_neq ch 10)) by done. destruct (Z.eqb_spec ch 9) as [-> | H9].
  - destruct (tflag fl); repeat emits; eexists _, _; (split; [reflexivity |]); (split; [done |]); [| done]. by eapply (added_app [94] [73]).
  - destruct (vflag fl); [| emits; eexists _, _; split; [reflexivity | done]]. destruct (high_bit ch Hb) as [-> ->]. unfold in_u in Hb.
    destruct (Z.leb_spec 128 ch) as [Hh | Hl].
    + emits. emits. assert (ch - 128 ≠ 10) by (specialize (Hv eq_refl); lia). unfold visible. destruct (is_cntrl (ch - 128)); cbn [negb].
      * emits. emits. eexists _, _. split; [reflexivity |]. split; [done |]. rewrite control_byte in * by lia.
        apply (added_app [77] _ _ _ _ A). apply (added_app [45] _ _ _ _ A0). apply (added_app [94] _ _ _ _ A1). done.
      * emits. eexists _, _. split; [reflexivity |]. split; [done |]. apply (added_app [77] _ _ _ _ A). by apply (added_app [45] _ _ _ _ A0).
    + unfold visible. destruct (is_cntrl ch); cbn [negb].
      * emits. emits. eexists _, _. split; [reflexivity |]. split; [done |]. rewrite control_byte in * by lia. by apply (added_app [94] _ _ _ _ A).
      * emits. eexists _, _. by split.
Qed.

Lemma cook_shown_end line s : ∃ s', cook_shown fl good 10 line s = (Next 10 false line, s') ∧ added (line_end fl) s s'.
Proof.
  unfold cook_shown, line_end. change (10 =? 10) with true. cbv iota. destruct (eflag fl); repeat emits; eexists; (split; [reflexivity |]); [| done]. by apply (added_app [36] _ _ _ _ A).
Qed.

(** The rest of a line *)
Lemma cook_loop_chars l : ∀ rest prev line s, Forall plain l → prev ≠ 10 →
  ∃ p s', cook_loop fl good (l ++ rest) prev false line s = cook_loop fl good rest p false line s' ∧ p ≠ 10 ∧ added (l ≫= shown fl) s s'.
Proof.
  induction l as [| c l IH]; intros rest prev line s Hl Hp; [exists prev, s; split_and!; [done | done | apply added_nil] |].
  apply Forall_cons in Hl as [Hc Hl]. cbn [app cook_loop]. unfold cook_char. rewrite (proj2 (Z.eqb_neq prev 10)) by done.
  destruct (cook_shown_plain c line s Hc) as (p & s1 & -> & Hp1 & A1). destruct (IH rest p line s1 Hl Hp1) as (p' & s2 & -> & Hp2 & A2).
  exists p', s2. split_and!; [done | done |]. cbn [mbind list_bind]. by eapply added_app.
Qed.

(** A line that has characters, up to its end *)
Lemma cook_loop_line c l : ∀ rest g line s, Forall plain (c :: l) → -2 ^ 31 <= line + 1 < 2 ^ 31 →
  ∃ p s', cook_loop fl good ((c :: l) ++ rest) 10 g line s = cook_loop fl good rest p false (if nflag fl then line + 1 else line) s' ∧ p ≠ 10 ∧
    added ((if nflag fl then line_number (line + 1) else []) ++ ((c :: l) ≫= shown fl)) s s'.
Proof.
  intros rest g line s Hl Hline. apply Forall_cons in Hl as [Hc Hl]. pose proof Hc as (_ & Hne & _). cbn [app cook_loop]. unfold cook_char. change (10 =? 10) with true.
  rewrite (proj2 (Z.eqb_neq c 10)) by done. cbv iota. rewrite (wraps_small 32) by (done || (unfold in_s; lia)). destruct (nflag fl).
  - emits. destruct (cook_shown_plain c (line + 1) s0 Hc) as (p & s1 & -> & Hp1 & A1). destruct (cook_loop_chars l rest p (line + 1) s1 Hl Hp1) as (p' & s2 & -> & Hp2 & A2).
    exists p', s2. split_and!; [done | done |]. cbn [mbind list_bind]. eapply added_app; [done |]. by eapply added_app.
  - destruct (cook_shown_plain c line s Hc) as (p & s1 & -> & Hp1 & A1). destruct (cook_loop_chars l rest p line s1 Hl Hp1) as (p' & s2 & -> & Hp2 & A2).
    exists p', s2. split_and!; [done | done |]. cbn [mbind list_bind app]. by eapply added_app.
Qed.

Lemma cook_loop_end rest p line s : p ≠ 10 → ∃ s', cook_loop fl good (10 :: rest) p false line s = cook_loop fl good rest 10 false line s' ∧ added (line_end fl) s s'.
Proof.
  intros Hp. cbn [cook_loop]. unfold cook_char. rewrite (proj2 (Z.eqb_neq p 10)) by done. destruct (cook_shown_end line s) as (s' & -> & A). by exists s'.
Qed.

(** An empty line *)
Lemma cook_loop_empty rest g line s : -2 ^ 31 <= line + 1 < 2 ^ 31 →
  ∃ s', cook_loop fl good (10 :: rest) 10 g line s = cook_loop fl good rest 10 (sflag fl) (if negb (sflag fl) && nflag fl && negb (bflag fl) then line + 1 else line) s' ∧
    added (if sflag fl then if g then [] else [10] else (if nflag fl && negb (bflag fl) then line_number (line + 1) else if nflag fl && eflag fl then no_number else []) ++ line_end fl) s s'.
Proof.
  intros Hline. cbn [cook_loop]. unfold cook_char. change (10 =? 10) with true. cbv iota. rewrite (wraps_small 32) by (done || (unfold in_s; lia)).
  destruct (sflag fl); cbn [negb andb].
  - destruct g; cbn [negb]; [exists s; split; [done | apply added_nil] |]. emits. by exists s0.
  - destruct (nflag fl); cbn [negb andb]; [destruct (bflag fl); cbn [negb andb]; [destruct (eflag fl) eqn:He |] |]; try emits;
      match goal with |- context [cook_shown fl good 10 ?l ?s] => destruct (cook_shown_end l s) as (s' & -> & A') end; exists s'; (split; [done |]); try done; by eapply added_app.
Qed.

Lemma cook_loop_lines ls : ∀ tail g line s, Forall (Forall plain) ls → Forall plain tail → 0 <= line → line + Z.of_nat (length ls) + 1 < 2 ^ 31 →
  ∃ s', cook_loop fl good (joined ls tail) 10 g line s = (false, s') ∧ added (cooked fl g line ls tail) s s'.
Proof.
  induction ls as [| l ls IH]; intros tail g line s Hls Htail H0 Hline.
  - unfold joined. cbn [fmap list_fmap concat app cooked]. destruct tail as [| c tail]; [exists s; split; [done | apply added_nil] |].
    destruct (cook_loop_line c tail [] g line s Htail ltac:(simpl in Hline; lia)) as (p & s' & E & _ & A). rewrite app_nil_r in E. rewrite E. by exists s'.
  - apply Forall_cons in Hls as [Hl Hls]. cbn [length] in Hline.
    assert (joined (l :: ls) tail = l ++ 10 :: joined ls tail) as -> by (unfold joined; cbn; by rewrite <- !app_assoc).
    destruct l as [| c l].
    + destruct (cook_loop_empty (joined ls tail) g line s ltac:(lia)) as (s1 & E1 & A1). cbn [app] in *. rewrite E1.
      destruct (IH tail (sflag fl) (if negb (sflag fl) && nflag fl && negb (bflag fl) then line + 1 else line) s1 Hls Htail ltac:(destruct (_ && _); lia) ltac:(destruct (_ && _); lia)) as (s2 & -> & A2).
      exists s2. split; [done |]. cbn [cooked]. destruct (sflag fl); cbn [negb andb] in *; [by eapply added_app |].
      destruct (nflag fl && negb (bflag fl)); rewrite app_assoc; by eapply added_app.
    + destruct (cook_loop_line c l (10 :: joined ls tail) g line s Hl ltac:(lia)) as (p & s1 & -> & Hp & A1).
      destruct (cook_loop_end (joined ls tail) p (if nflag fl then line + 1 else line) s1 Hp) as (s2 & -> & A2).
      destruct (IH tail false (if nflag fl then line + 1 else line) s2 Hls Htail ltac:(destruct (nflag fl); lia) ltac:(destruct (nflag fl); lia)) as (s3 & -> & A3).
      exists s3. split; [done |]. cbn [cooked]. rewrite app_assoc. eapply added_app; [done |]. by eapply added_app.
Qed.
End works.

(** C23.  With the options that change the text, [cat] adds to the output what
    the description by lines says of the file: lines are numbered, their ends
    marked, runs of empty lines reduced to one, and characters made visible,
    each as its option asks for. *)
Theorem cook_buf_correct (fl : flags) (input : list Z) (s : cat) (Hbytes : Forall (in_u 8) input) (Hv : vflag fl = true → 138 ∉ input) (Hlines : Z.of_nat (length (lines_of input).1) + 1 < 2 ^ 31) :
  out (cook_buf fl good input s) = out s ++ cooked fl false 0 (lines_of input).1 (lines_of input).2 ∧ rval (cook_buf fl good input s) = rval s.
Proof.
  destruct (lines_of_clean input) as [Hc1 Hc2].
  assert (Forall (Forall (plain fl)) (lines_of input).1 ∧ Forall (plain fl) (lines_of input).2) as [Hp1 Hp2].
  { assert (Forall (λ c, in_u 8 c ∧ (vflag fl = true → c ≠ 138)) input) as H.
    { rewrite Forall_forall in Hbytes |- *. intros c Hc. split; [by apply Hbytes |]. intros Hfl ->. by apply Hv. }
    rewrite <- (lines_of_joined input) in H. apply Forall_joined in H as [H1 H2]. split.
    - rewrite Forall_forall in *. intros l Hl. specialize (H1 l Hl). specialize (Hc1 l Hl). rewrite Forall_forall in *. intros c Hc. destruct (H1 c Hc). split_and!; [done | by apply Hc1 | done].
    - rewrite Forall_forall in *. intros c Hc. destruct (H2 c Hc). split_and!; [done | by apply Hc2 | done]. }
  destruct (cook_loop_lines fl (lines_of input).1 (lines_of input).2 false 0 s Hp1 Hp2 ltac:(lia) ltac:(lia)) as (s' & E & A & _ & R).
  unfold cook_buf. rewrite lines_of_joined in E. rewrite E. done.
Qed.

Definition cat0 : cat := mk_cat [] 0 [] 0.
Definition flags_nest : flags := mk_flags false true false false true true true true.

Lemma cook_buf_correct_witness : out (cook_buf flags_nest good (text "a" ++ [9; 1; 10; 10; 10; 200; 10] ++ text "b") cat0) =
    out cat0 ++ cooked flags_nest false 0 (lines_of (text "a" ++ [9; 1; 10; 10; 10; 200; 10] ++ text "b")).1 (lines_of (text "a" ++ [9; 1; 10; 10; 10; 200; 10] ++ text "b")).2 ∧
  rval (cook_buf flags_nest good (text "a" ++ [9; 1; 10; 10; 10; 200; 10] ++ text "b") cat0) = rval cat0.
Proof.
  apply (cook_buf_correct flags_nest (text "a" ++ [9; 1; 10; 10; 10; 200; 10] ++ text "b") cat0).
  - apply (bool_decide_unpack _). vm_compute. exact I.
  - intros _. apply (bool_decide_unpack _). vm_compute. exact I.
  - vm_compute. reflexivity.
Defined.

Example cook_example : out (cook_buf flags_nest good (text "a" ++ [9; 1; 10; 10; 10; 200; 10] ++ text "b") cat0) =
  text "     1" ++ [9] ++ text "a^I^A$" ++ [10; 10] ++ text "     2" ++ [9] ++ text "M-H$" ++ [10] ++ text "     3" ++ [9] ++ text "b".
Proof. vm_compute. reflexivity. Qed.

(** With [-v] the byte 138 is taken for the end of a line: what follows it on
    the line is numbered again. *)
Example cook_meta_newline : out (cook_buf flags_nest good [138; 65; 10] cat0) = text "     1" ++ [9] ++ text "M-^J" ++ text "     2" ++ [9] ++ text "A$" ++ [10].
Proof. vm_compute. reflexivity. Qed.

(** ** Files that are not changed *)

Section raw.
Context (takes : nat → option nat) (Htakes : ∀ k, ∃ n, takes k = Some (S n)).

Lemma write_all_ok fuel : ∀ buf s, (length buf < fuel)%nat → ∃ s', write_all takes fuel buf s = Ret (tt, s') ∧ added buf s s'.
Proof using Htakes.
  induction fuel as [| fuel IH]; intros buf s Hf; [lia |]. cbn [write_all]. destruct buf as [| b buf]; [exists s; split; [done | apply added_nil] |].
  unfold mbind, prog_bind, get_st. destruct (Htakes (ops s)) as [n ->]. unfold put_st. cbn [take drop].
  destruct (IH (drop n buf) (mk_cat (out s ++ b :: take n buf) (S (ops s)) (stdin s) (rval s))) as (s' & -> & E & Es & Er); [simpl in Hf; rewrite length_drop; lia |].
  exists s'. split; [done |]. split_and!; [| done | done]. rewrite E. cbn [out]. rewrite <- app_assoc. cbn [app]. by rewrite take_drop.
Qed.

(** Whether reading ends with an error *)
Fixpoint read_fails (rs : list (option (list Z))) : bool :=
  match rs with
  | Some (_ :: _) :: rs => read_fails rs
  | None :: _ => true
  | _ => false
  end.

Lemma raw_cat_ok fuel rs : ∀ s, Forall (λ r, ∀ buf, r = Some buf → (length buf < fuel)%nat) rs →
  ∃ s', raw_cat takes fuel rs s = Ret (tt, s') ∧ out s' = out s ++ readable rs ∧ rval s' = if read_fails rs then 1 else rval s.
Proof using Htakes.
  induction rs as [| r rs IH]; intros s Hrs; [exists s; by rewrite app_nil_r |]. apply Forall_cons in Hrs as [Hr Hrs]. destruct r as [[| b buf] |].
  - exists s. cbn. by rewrite app_nil_r.
  - cbn [raw_cat readable read_fails]. unfold mbind, prog_bind. destruct (write_all_ok fuel (b :: buf) s (Hr _ eq_refl)) as (s1 & -> & E & _ & Er).
    destruct (IH s1 Hrs) as (s2 & -> & E2 & R2). exists s2. split; [done |]. rewrite E2, E, <- app_assoc, R2, Er. done.
  - eexists. split; [reflexivity |]. cbn. by rewrite app_nil_r.
Qed.

(** The files that can be read *)
Definition contents_of (fl : flags) (opens : list Z → option (bool * list (option (list Z)))) (arg : list Z) : list Z :=
  match opens arg with Some (regular, rs) => if fflag fl && negb regular then [] else readable rs | None => [] end.

(** Without options that change the text, the operands are copied to the output
    in their order, unchanged, however reads and writes are divided. *)
Theorem raw_operands_correct (fl : flags) (fuel : nat) (opens : list Z → option (bool * list (option (list Z)))) (input : list (option (list Z))) (argv : list (list Z)) :
  ∀ s, text "-" ∉ argv → (∀ arg regular rs, opens arg = Some (regular, rs) → Forall (λ r, ∀ buf, r = Some buf → (length buf < fuel)%nat) rs) →
  ∃ s', raw_operands fl takes fuel opens input argv s = Ret (tt, s') ∧ out s' = out s ++ (argv ≫= contents_of fl opens).
Proof using Htakes.
  induction argv as [| arg argv IH]; intros s Hdash Hfuel; [exists s; by rewrite app_nil_r |]. apply not_elem_of_cons in Hdash as [Ha Hdash]. cbn [raw_operands].
  rewrite bool_decide_false by done. unfold mbind at 1, prog_bind at 1.
  assert (∃ s1, (match opens arg with Some (regular, rs) => if fflag fl && negb regular then skip_file else raw_cat takes fuel rs | None => skip_file end) s = Ret (tt, s1) ∧ out s1 = out s ++ contents_of fl opens arg) as (s1 & -> & E1).
  { unfold contents_of. destruct (opens arg) as [[regular rs] |] eqn:Eo.
    - destruct (fflag fl && negb regular); [eexists; split; [reflexivity |]; cbn; by rewrite app_nil_r |]. destruct (raw_cat_ok fuel rs s (Hfuel _ _ _ Eo)) as (s1 & -> & E & _). by exists s1.
    - eexists. split; [reflexivity |]. cbn. by rewrite app_nil_r. }
  destruct (IH s1 Hdash Hfuel) as (s2 & -> & E2). exists s2. split; [done |]. rewrite E2, E1, <- app_assoc. done.
Qed.
End raw.

(** A write that takes nothing makes the loop endless. *)
Lemma write_zero_endless fuel : ∀ b buf s, write_all (λ _, Some 0%nat) fuel (b :: buf) s = Fault.
Proof. induction fuel as [| fuel IH]; intros b buf s; [done |]. cbn [write_all]. unfold mbind, prog_bind, get_st, put_st. cbn [take drop]. apply IH. Qed.
