(* ===== verification/Readfile.v ===== *)
(** * Reading a whole file: [kinit/readfile.c]

    [freadfile] reads a stream into a block that it doubles when it is full.  It
    tells a failure from the end of the file by [errno], which the kernels of
    [Stdio] do not have: [errno_kernel] adds it to any of them.

    The theorems: what is delivered are the bytes of the stream from where it was,
    with a NUL behind them; all of them unless a read failed; the block is never
    overrun; without failures and with memory the whole file is returned. *)

From stdpp Require Import base numbers list gmap.
From Stdlib Require Import Lia.
From S2P Require Import Prelude Chain Stdio.

(** [errno]: 0, [EINTR] or [EAGAIN], or another error *)
Inductive errno_class := NoError | Interrupted | OtherError.
Global Instance errno_class_eq : EqDecision errno_class.
Proof. solve_decision. Defined.

(** ** [errno] on top of a kernel *)

Section errno.
Context {W : Type} `{Kernel W}.

(** A call that leaves [errno] alone, and one that sets it if [failed] says so *)
Definition noting {A} (failed : A → option errno_class) (c : W → A * W) (s : W * errno_class) : A * (W * errno_class) :=
  let '(a, w) := c s.1 in (a, (w, default s.2 (failed a))).
Definition error_of {A} (r : sysres A) : option errno_class := match r with Ret _ => None | Again => Some Interrupted | Fail => Some OtherError end.
Definition error_if (r : Z) : option errno_class := if r =? -1 then Some OtherError else None.
Definition no_memory (a : Z) : option errno_class := if a =? 0 then Some OtherError else None.

Global Instance errno_kernel : Kernel (W * errno_class) := {|
  sys_read fd n := noting error_of (sys_read fd n);
  sys_write fd l := noting error_of (sys_write fd l);
  sys_lseek fd off whence := noting error_if (sys_lseek fd off whence);
  sys_open path fl := noting error_if (sys_open path fl);
  sys_close fd := noting error_if (sys_close fd);
  sys_isatty fd s := sys_isatty fd s.1;
  sys_fcntl fd c a := noting error_if (sys_fcntl fd c a);
  alloc n := noting no_memory (alloc n);
  dealloc a s := (dealloc a s.1, s.2);
|}.

Lemma noting_inv {A} failed (c : W → A * W) s a s' : noting failed c s = (a, s') → c s.1 = (a, s'.1) ∧ s'.2 = default s.2 (failed a).
Proof. unfold noting. destruct (c s.1) as [b w]. by intros [= -> <-]. Qed.

Context `{!KernelLaws W}.

Global Instance errno_laws : KernelLaws (W * errno_class).
Proof.
  refine {| sent s := sent s.1; input s := input s.1; pos s := pos s.1; status s := status s.1; patience s := patience s.1 |}.
  - intros fd l w n w' [E _]%noting_inv. by eapply write_ret.
  - intros fd l w w' [E _]%noting_inv. by eapply write_again.
  - intros fd l w w' [E _]%noting_inv. by eapply write_fail.
  - intros fd n w l w' Hn [E _]%noting_inv. by apply (read_ret fd n).
  - intros fd n w w' [E _]%noting_inv. by eapply read_again.
  - intros fd n w w' [E _]%noting_inv. by eapply read_fail.
  - intros fd off w p w' [E _]%noting_inv. by eapply seek_cur.
  - intros fd off w p w' [E _]%noting_inv. by eapply seek_set.
  - intros fd a w. cbn. unfold noting. pose proof (getfl fd a w.1). by destruct (sys_fcntl fd 3 a w.1).
  - intros fd off wh w p w' [E _]%noting_inv. by eapply seek_sent.
  - intros fd w r w' [E _]%noting_inv. by eapply close_sent.
  - intros a w. apply dealloc_sent.
Defined.
End errno.

(** ** The code *)

Section code.
Context {W : Type} `{Kernel W}.
Local Abbreviation M := (st (FILE * (W * errno_class))).

Definition get_errno : M errno_class := λ s, Some (s.2.2, s).
Definition set_errno (e : errno_class) : M unit := λ s, Some (tt, (s.1, (s.2.1, e))).

(** Whether [realloc] of a block of the first size to the second works;
    [malloc] is [realloc] of nothing. *)
Context (memory : Z → Z → bool).

(** [while (bf && (rv = _fread(buffer + bu, bf, f)))]; [used] is the used part of
    the buffer *)
Fixpoint fill (n fuel : nat) (bf : Z) (used : list Z) : M (Z * list Z) :=
  match n with
  | O => fault
  | S n =>
      if bf =? 0 then mret (bf, used)
      else
        data ← _fread fuel bf;
        if bool_decide (data = []) then mret (bf, used)
        else fill n fuel (u64 (bf - Z.of_nat (length data))) (used ++ data)
  end.

(** The contents of the block that [*pp] points to, [None] for -1.  Behind the
    used part the block has [bf] bytes, so [bs] are [bu + bf]. *)
Fixpoint freadfile_loop (n fuel : nat) (old_errno : errno_class) (bs bf : Z) (used : list Z) : M (option (list Z)) :=
  match n with
  | O => fault
  | S n' =>
      set_errno NoError;;
      '(bf, used) ← fill n fuel bf used;
      errno ← get_errno;
      if bool_decide (errno = OtherError) then mret None
      else if negb (bf =? 0) then
        let bu := Z.of_nat (length used) in
        let size := if memory bs (bu + 1) then bu + 1 else bs in
        if size <=? bu then fault
        else set_errno old_errno;; mret (Some (used ++ [0]))
      else
        let bf := u64 (bf + bs) in
        let bs' := u64 (bs + bs) in
        if memory bs bs' then freadfile_loop n' fuel old_errno bs' bf used else mret None
  end.

Definition freadfile (n fuel : nat) : M (option (list Z)) :=
  old_errno ← get_errno;
  if memory 0 BUFSIZ then freadfile_loop n fuel old_errno BUFSIZ BUFSIZ [] else mret None.

Context (headnode : Z).

Definition readfile (n fuel : nat) (filename : list Z) : st (@stdio (W * errno_class)) (option (list Z)) :=
  f ← fopen headnode filename [114];
  if f =? 0 then mret None
  else
    rv ← on_file f (freadfile n fuel);
    _ ← fclose fuel f;
    mret rv.
End code.

(** ** Errors and [errno] *)

Section errors.
Context {W : Type} `{Kernel W, !KernelLaws W}.
Implicit Types s : FILE * (W * errno_class).

(** No call of [read] fails for good. *)
Definition never_fails : Prop := ∀ fd n (w w' : W), sys_read fd n w ≠ (Fail, w').

(** How a function changes the error flag of the stream and [errno]: the flag
    stays when it is set, an error is seen in both, and without failures in
    none. *)
Record noted s s' : Prop := mk_noted {
  noted_flag : flag FLAG_ERR s.1 = true → flag FLAG_ERR s'.1 = true;
  noted_errno : s'.2.2 = OtherError → s.2.2 = OtherError ∨ flag FLAG_ERR s'.1 = true;
  noted_never : never_fails → flag FLAG_ERR s'.1 = flag FLAG_ERR s.1 ∧ (s'.2.2 = OtherError → s.2.2 = OtherError);
}.

Global Instance noted_refl : Reflexive noted.
Proof. split; auto. Qed.

Global Instance noted_trans : Transitive noted.
Proof.
  intros s1 s2 s3 [F1 E1 N1] [F2 E2 N2]. split; [auto | |].
  - intros [[? | ?]%E1 | ?]%E2; auto.
  - intros Hn. destruct (N1 Hn) as [F ?], (N2 Hn) as [F' ?]. rewrite F', F. auto.
Qed.

Definition keeps {A} (c : st (FILE * (W * errno_class)) A) : Prop := ∀ s a s', c s = Some (a, s') → noted s s'.

Lemma noting_bind {A B} (c : st _ A) (k : A → st _ B) : keeps c → (∀ a, keeps (k a)) → keeps (c ≫= k).
Proof. intros Hc Hk s b s' (a & s1 & E1 & E2)%bind_inv. etrans; [by eapply Hc | by eapply Hk]. Qed.

Lemma noting_ret {A} (a : A) : keeps (mret a).
Proof. intros s b s' [= _ <-]. done. Qed.

Lemma noting_upd g : (∀ f, flag FLAG_ERR (g f) = flag FLAG_ERR f) → keeps (upd g).
Proof. intros Hg s a s' [= _ <-]. split; cbn; rewrite ?Hg; auto. Qed.

Lemma noting_file : keeps file.
Proof. by intros s a s' [= _ <-]. Qed.

Lemma noting_get_buf o n : keeps (get_buf o n).
Proof. intros s a s'. unfold get_buf. case_bool_decide; [by intros [= _ <-] | done]. Qed.

Lemma noting_put_buf o l : keeps (put_buf o l).
Proof. intros s a s'. unfold put_buf. case_bool_decide; [| done]. intros [= <- <-]. split; cbn; auto. Qed.

Create HintDb noted.
Hint Resolve noting_ret noting_file noting_get_buf noting_put_buf : noted.
Hint Extern 1 (keeps (upd _)) => apply noting_upd; intros; repeat case_match; rewrite ?flag_raise, ?flag_lower by done; done : noted.

Lemma fread_noted fuel : ∀ count acc, keeps (fread_loop fuel count acc).
Proof.
  induction fuel as [| fuel IH]; intros count acc; [done |]. cbn [fread_loop].
  apply noting_bind; [auto with noted | intros f]. apply noting_bind.
  { case_match; [| auto with noted]. repeat (apply noting_bind; [auto with noted | intros ?]). auto with noted. }
  intros data. case_match; [auto with noted |]. apply noting_bind; [auto with noted | intros _].
  intros s a s' (rv & s1 & E1 & E2)%bind_inv. unfold call in E1. destruct (sys_read (fd f) BUFSIZ s.2) as [rv1 w1] eqn:Er. injection E1 as -> <-.
  apply noting_inv in Er as [Er He]. destruct rv as [l | |]; cbn [error_of default] in He.
  - transitivity (s.1, w1); [split; cbn; rewrite ?He; auto |]. revert E2. generalize (s.1, w1) as s1. intros s1 E2.
    case_bool_decide; revert s1 a s' E2.
    + change (keeps (upd (raise FLAG_EOF) ≫= λ _, mret (acc ++ data))). apply noting_bind; auto with noted.
    + match goal with |- ∀ s1 a s', ?c s1 = _ → _ => change (keeps c) end. repeat (apply noting_bind; [auto with noted | intros ?]). apply IH.
  - transitivity (s.1, w1); [split; cbn; rewrite ?He; auto; done | by eapply IH].
  - apply bind_inv in E2 as ([] & s2 & [= <-] & [= _ <-]). split; cbn; rewrite ?flag_raise by done; cbn; [auto | auto |].
    intros Hn. by apply Hn in Er.
Qed.
End errors.

(** ** Reading to the end *)

Section reading.
Context {W : Type} `{Kernel W, !KernelLaws W}.
Local Abbreviation world := (W * errno_class)%type.
Implicit Types (f : FILE) (w : world).

(** Nothing is left, or an error is flagged. *)
Definition ended f w : Prop := ready f = [] ∧ (input w (fd f) = [] ∨ flag FLAG_ERR f = true).

Lemma advanced_none f w w' : in_ok f → w'.1 = w.1 → advanced f w [] f w'.
Proof.
  intros Hi Hw. change (patience w') with (patience w'.1). assert (patience w' = patience w) as Hp by (change (patience w'.1 = patience w.1); congruence).
  assert (input w' = input w ∧ pos w' = pos w) as [Hin Hpos] by (change (input w'.1 = input w.1 ∧ pos w'.1 = pos w.1); by rewrite Hw).
  split; try done; rewrite ?Hp, ?Hin, ?Hpos; cbn [length Z.of_nat app]; done || lia.
Qed.

Lemma advanced_trans f w l f1 w1 l' f2 w2 : advanced f w l f1 w1 → advanced f1 w1 l' f2 w2 → advanced f w (l ++ l') f2 w2.
Proof.
  intros [Hi1 Hs1 Hp1 Hst1 Hfp1 Hpos1] [Hi2 Hs2 Hp2 Hst2 Hfp2 Hpos2]. rewrite (same_fd _ _ Hs1) in *.
  split; rewrite ?length_app; try done; try lia; [by etrans | by rewrite Hst1, Hst2, <- app_assoc].
Qed.

Lemma advanced_stream f w l f' w' : advanced f w l f' w' → stream f w = l ++ stream f' w'.
Proof. intros [_ Hs _ Hst _ _]. unfold stream. by rewrite (same_fd _ _ Hs), Hst. Qed.

Lemma fread_step fuel count f w : in_ok f → 0 < count < 2 ^ 64 → (patience w + Z.to_nat count + 1 < fuel)%nat →
  ∃ l f' w', _fread fuel count (f, w) = Some (l, (f', w')) ∧ advanced f w l f' w' ∧ noted (f, w) (f', w') ∧ Z.of_nat (length l) <= count ∧
    (l = [] → ended f' w').
Proof.
  intros Hi Hc Hf. destruct (fread_loop_spec fuel count [] f w) as (l & f' & w' & E & D); [done | lia | case_bool_decide; lia |].
  exists l, f', w'. split; [exact E |]. pose proof D as [Hi' Hs Hp Hl Hst Hfp Hpos He]. split; [by split |]. split; [by eapply fread_noted |]. split; [done |].
  intros ->. destruct He as [[He _] | (_ & Hr & He)]; [cbn in He; lia |]. split; [done |]. rewrite (same_fd _ _ Hs). destruct He as [[_ ?] | ?]; auto.
Qed.

Lemma fill_spec fuel : ∀ n bf used f w, in_ok f → 0 <= bf < 2 ^ 64 → (length (stream f w) < n)%nat → (patience w + Z.to_nat bf + 1 < fuel)%nat →
  ∃ l f' w', fill n fuel bf used (f, w) = Some ((bf - Z.of_nat (length l), used ++ l), (f', w')) ∧ advanced f w l f' w' ∧ noted (f, w) (f', w') ∧
    (Z.of_nat (length l) = bf ∨ Z.of_nat (length l) < bf ∧ ended f' w').
Proof.
  induction n as [| n IH]; intros bf used f w Hi Hb Hn Hf; [lia |]. cbn [fill]. destruct (Z.eqb_spec bf 0) as [-> | Hb0].
  { exists [], f, w. rewrite app_nil_r. split_and!; [done | by apply advanced_none | done | by left]. }
  destruct (fread_step fuel bf f w) as (l & f1 & w1 & E & A & N & Hl & Hend); [done | lia | done |]. erewrite bind_ok by exact E.
  case_bool_decide as Hnil.
  { subst l. exists [], f1, w1. rewrite app_nil_r, Z.sub_0_r. split_and!; [done | done | done | right; split; [cbn; lia | by apply Hend]]. }
  rewrite (wrapu_small 64) by (unfold in_u; lia). pose proof (advanced_stream _ _ _ _ _ A) as Hst. apply (f_equal length) in Hst. rewrite length_app in Hst.
  assert (length l ≠ 0%nat) by (by destruct l). pose proof (ad_patience _ _ _ _ _ A).
  destruct (IH (bf - Z.of_nat (length l)) (used ++ l) f1 w1) as (l2 & f2 & w2 & E2 & A2 & N2 & H2); [apply A | lia | lia | lia |].
  exists (l ++ l2), f2, w2. rewrite E2, app_assoc, length_app. split; [do 3 f_equal; lia |].
  split; [by eapply advanced_trans |]. split; [by etrans |]. destruct H2 as [? | [? ?]]; [left; lia | right; split; [lia | done]].
Qed.

Context (memory : Z → Z → bool).

(** What [freadfile] has done when it returned [r] with [l] read from [f] *)
Record read_whole f w (l : list Z) (r : option (list Z)) f' w' : Prop := mk_read_whole {
  rw_advanced : advanced f w l f' w';
  rw_result : match r with Some _ => ended f' w' | None => flag FLAG_ERR f' = true ∨ ∃ a b, memory a b = false end;
  rw_never : never_fails (W := W) → flag FLAG_ERR f' = flag FLAG_ERR f;
}.

Lemma freadfile_loop_spec fuel old (N : nat) : 2 * Z.of_nat N + BUFSIZ < 2 ^ 63 → ∀ n bs bf used f w,
  in_ok f → bs = Z.of_nat (length used) + bf → 0 < bf → bs <= 2 * Z.of_nat N + BUFSIZ → (length used + length (stream f w) <= N)%nat →
  (length (stream f w) < n)%nat → (patience w + Z.to_nat (2 * Z.of_nat N + BUFSIZ) + 1 < fuel)%nat →
  ∃ r l f' w', freadfile_loop memory n fuel old bs bf used (f, w) = Some (r, (f', w')) ∧ read_whole f w l r f' w' ∧
    (r ≠ None → r = Some (used ++ l ++ [0]) ∧ w'.2 = old).
Proof.
  pose proof bufsiz_value as HB. intros HN. induction n as [| n IH]; intros bs bf used f w Hi Hbs Hbf Hmax Hused Hn Hf; [lia |]. cbn [freadfile_loop].
  erewrite bind_ok by reflexivity. cbn [fst snd].
  destruct (fill_spec fuel (S n) bf used f (w.1, NoError)) as (l & f1 & w1 & E & A & No & Hend); [done | lia | exact Hn | change (patience (w.1, NoError)) with (patience w); lia |].
  erewrite bind_ok by exact E. cbv beta iota. erewrite bind_ok by reflexivity. cbn [fst snd].
  assert (advanced f w l f1 w1) as A0 by (destruct A; by split).
  assert (never_fails (W := W) → flag FLAG_ERR f1 = flag FLAG_ERR f) as Hnev by (intros Hv; by apply (noted_never _ _ No)).
  case_bool_decide as Herr.
  { exists None, l, f1, w1. split; [done |]. split; [| done]. split; [done | | done]. left. destruct (noted_errno _ _ No Herr) as [? | ?]; done. }
  destruct (Z.eqb_spec (bf - Z.of_nat (length l)) 0) as [Hz | Hz]; cbn [negb].
  - pose proof (advanced_stream _ _ _ _ _ A0) as Hst. apply (f_equal length) in Hst. rewrite length_app in Hst. pose proof (ad_patience _ _ _ _ _ A0).
    assert (u64 (bf - Z.of_nat (length l) + bs) = bs) as -> by (rewrite Hz; apply wrapu_small; unfold in_u; lia).
    rewrite (wrapu_small 64) by (unfold in_u; lia). destruct (memory bs (bs + bs)) eqn:Em.
    + destruct (IH (bs + bs) bs (used ++ l) f1 w1) as (r & l2 & f2 & w2 & E2 & [A2 R2 N2] & H2);
        [apply A | rewrite length_app; lia | lia | lia | rewrite length_app; lia | lia | lia |].
      exists r, (l ++ l2), f2, w2. split; [exact E2 |]. split; [split; [by eapply advanced_trans | done | intros Hv; by rewrite N2, Hnev] |].
      intros Hr. destruct (H2 Hr) as [-> ?]. by rewrite <- !app_assoc.
    + exists None, l, f1, w1. split; [done |]. split; [split; [done | by right; eauto | done] | done].
  - destruct Hend as [? | [Hlt Hend]]; [lia |]. rewrite (proj2 (Z.leb_gt _ _)) by (rewrite length_app; destruct (memory _ _); lia).
    erewrite bind_ok by reflexivity. exists (Some ((used ++ l) ++ [0])), l, f1, (w1.1, old). split; [done |]. split; [| intros _; by rewrite app_assoc].
    split; [destruct A0; by split | exact Hend | done].
Qed.

(** [freadfile] on a stream of any length returns.  What it has taken from the
    stream is delivered with a NUL behind it, and [errno] is as it was; nothing is
    left unless a read has failed.  It gives up only after a failed read or
    for lack of memory. *)
Theorem freadfile_correct n fuel f w : in_ok f → 2 * Z.of_nat (length (stream f w)) + BUFSIZ < 2 ^ 63 → (length (stream f w) < n)%nat →
  (patience w + Z.to_nat (2 * Z.of_nat (length (stream f w)) + BUFSIZ) + 1 < fuel)%nat →
  ∃ r l f' w', freadfile memory n fuel (f, w) = Some (r, (f', w')) ∧ read_whole f w l r f' w' ∧ (r ≠ None → r = Some (l ++ [0]) ∧ w'.2 = w.2).
Proof.
  intros Hi HN Hn Hf. unfold freadfile. erewrite bind_ok by reflexivity. destruct (memory 0 BUFSIZ) eqn:Em.
  - destruct (freadfile_loop_spec fuel w.2 (length (stream f w)) HN n BUFSIZ BUFSIZ [] f w) as (r & l & f' & w' & E & R & Hr); try done; try (cbn; lia).
    by exists r, l, f', w'.
  - exists None, [], f, w. split; [done |]. split; [split; [by apply advanced_none | right; eauto | done] | done].
Qed.

(** Without failures, and with memory, the whole rest of the file is returned. *)
Theorem freadfile_whole n fuel f w : in_ok f → flag FLAG_ERR f = false → 2 * Z.of_nat (length (stream f w)) + BUFSIZ < 2 ^ 63 → (length (stream f w) < n)%nat →
  (patience w + Z.to_nat (2 * Z.of_nat (length (stream f w)) + BUFSIZ) + 1 < fuel)%nat → never_fails (W := W) → (∀ a b, memory a b = true) →
  ∃ f' w', freadfile memory n fuel (f, w) = Some (Some (stream f w ++ [0]), (f', w')) ∧ advanced f w (stream f w) f' w' ∧ w'.2 = w.2.
Proof.
  intros Hi He HN Hn Hf Hv Hm. destruct (freadfile_correct n fuel f w Hi HN Hn Hf) as (r & l & f' & w' & E & [A R V] & Hr).
  specialize (V Hv). rewrite He in V. destruct r as [r |]; [| destruct R as [R | (a & b & R)]; [congruence | by rewrite Hm in R]].
  destruct (Hr ltac:(done)) as [[= ->] Hw]. destruct R as [Hrd [Hin | ?]]; [| congruence].
  pose proof (advanced_stream _ _ _ _ _ A) as Hst. unfold stream at 2 in Hst. rewrite Hrd, Hin, !app_nil_r in Hst. rewrite Hst. by exists f', w'.
Qed.
End reading.

(** ** Opening and closing around it *)

Section whole_file.
Context {W : Type} `{Kernel W, !KernelLaws W}.
Context (memory : Z → Z → bool) (Hmemory : ∀ a b, memory a b = true) (Hnever : never_fails (W := W)).

(** A stream that has been used keeps the others as they are. *)
Lemma streams_ok_update (s : @stdio (W * errno_class)) f x x' w' : streams_ok s → files s !! f = Some x → in_ok x' → fd x' = fd x →
  streams_ok (set_world w' (set_files (<[f := x']> (files s)) s)).
Proof.
  intros [Hok Hfd] Hx Hx' Hf. split; cbn.
  - intros g y. rewrite lookup_insert. case_decide; [intros [= <-]; by right | apply Hok].
  - intros g h y z. rewrite !lookup_insert. repeat case_decide; subst; try done; [intros [= <-] | |].
    + intros Hz E. rewrite Hf in E. by eapply Hfd.
    + intros Hy [= <-] E. rewrite Hf in E. by eapply Hfd.
    + apply Hfd.
Qed.

(** [readfile] of a file that can be opened returns all of it, a NUL behind,
    and leaves the streams as they were before. *)
Theorem readfile_whole headnode n fuel path (s s1 : @stdio (W * errno_class)) f d l x :
  fopen headnode path [114] s = Some (f, s1) → f ≠ 0 → wf_stdio headnode s1 (f :: l) → streams_ok s1 →
  files s1 !! f = Some x → fresh_stream d x →
  2 * Z.of_nat (length (input (world s1) d)) + BUFSIZ < 2 ^ 63 → (length (input (world s1) d) < n)%nat →
  (patience (world s1) + Z.to_nat (2 * Z.of_nat (length (input (world s1) d)) + BUFSIZ) + 1 < fuel)%nat →
  ∃ s', readfile memory headnode n fuel path s = Some (Some (input (world s1) d ++ [0]), s') ∧ wf_stdio headnode s' l ∧ files s' = delete f (files s1).
Proof using Hmemory Hnever.
  intros Eo Hf Hwf Hok Hx (Hi & _ & Hd & Hr & _ & Ht) HN Hn Hfuel. pose proof bufsiz_value as HB.
  assert (stream x (world s1) = input (world s1) d) as Hst by (unfold stream; by rewrite Hr, Hd).
  destruct (freadfile_whole memory n fuel x (world s1)) as (x' & w' & E & A & _); rewrite ?Hst; try done; [by apply orb_false_iff in Ht as [? _] |].
  unfold readfile. erewrite bind_ok by exact Eo. rewrite (proj2 (Z.eqb_neq f 0)) by done.
  rewrite Hst in E. erewrite bind_ok by (by eapply on_file_ok). set (s2 := set_world w' _).
  destruct (fclose_correct headnode fuel s2 [] f l x') as (rf & x2 & w2 & _ & s' & Ec & Hwf' & Hfs & _).
  - destruct Hwf as [Hc Hnd Hin]. split; [exact Hc | exact Hnd |]. intros g. unfold s2. cbn. rewrite lookup_insert, Hin. case_decide; [subst g; split; eauto | done].
  - eapply streams_ok_update; [done | done | apply A | apply (same_fd _ _ (ad_same _ _ _ _ _ A))].
  - unfold s2. cbn. apply lookup_insert_eq.
  - unfold s2. cbn [Stdio.world set_world]. pose proof (ad_patience _ _ _ _ _ A). lia.
  - erewrite bind_ok by exact Ec. exists s'. split; [done |]. split; [exact Hwf' |]. rewrite Hfs. unfold s2. cbn.
    apply map_eq. intros g. rewrite !lookup_delete, lookup_insert. by repeat case_decide.
Qed.
End whole_file.

(** ** Examples *)

(** Reads of one byte, an interruption, the rest: the file is read whole. *)
Example freadfile_interrupted :
  (λ r, r.1) <$> freadfile (λ _ _, true) 10 (Z.to_nat 40000) (demo_file 0, (demo_world [1; -1] [104; 105; 10], OtherError)) = Some (Some [104; 105; 10; 0]).
Proof. vm_compute. reflexivity. Qed.

(** A failure is an error, and the buffer is not returned. *)
Example freadfile_failed :
  (λ r, r.1) <$> freadfile (λ _ _, true) 10 (Z.to_nat 40000) (demo_file 0, (demo_world [1; -2] [104; 105; 10], NoError)) = Some None.
Proof. vm_compute. reflexivity. Qed.

(** But it is forgotten when a later call is interrupted: the file is taken to
    end there. *)
Example freadfile_forgets :
  (λ r, r.1) <$> freadfile (λ _ _, true) 10 (Z.to_nat 40000) (demo_file 0, (demo_world [1; -2; -1] [104], NoError)) = Some (Some [104; 0]).
Proof. vm_compute. reflexivity. Qed.
