(* ===== verification/Syslog.v ===== *)
(** * Messages to the kernel's log: [syslog.c] and [closelog.c]

    The message is put together in a buffer of 1024 bytes, by [sprintf] and
    [vsnprintf] of [Printf] on the bytes of memory.  The static variables are the
    identity (in memory), the descriptor and the flags; what is written is a
    list.

    The theorems: the buffer is never overrun; what is written is one line with
    the priority, the identity and the text, cut to what fits, and it always ends
    with a newline; the identity stays a string of at most 31 characters. *)

From stdpp Require Import base numbers list gmap.
From Stdlib Require Import Lia.
From S2P Require Import Prelude Memory StrOps Numparse Printf.

Definition BUFLEN : Z := 1024.
Definition MAXID : Z := 31.
Definition LOG_PID : Z := 0x01.
Definition LOG_PERROR : Z := 0x20.
Definition LOG_PRI (x : Z) : Z := Z.land x 7.

(** Where a message goes: [write] on a descriptor, or the stream [stderr] *)
Inductive sink := Descriptor (fd : Z) | Stderr.

Record logger := mk_logger {
  memory : mem;
  syslog_fd : Z;
  syslog_flags : Z;
  written : list (sink * list Z);
  closed : list Z;
}.
Local Abbreviation L := (st logger).

Definition get_logger : L logger := λ s, Some (s, s).
Definition mem_do {A} (c : C A) : L A := λ s,
  match c (memory s) with
  | Some (a, m) => Some (a, mk_logger m (syslog_fd s) (syslog_flags s) (written s) (closed s))
  | None => None
  end.
Definition set_fd (fd : Z) : L unit := λ s, Some (tt, mk_logger (memory s) fd (syslog_flags s) (written s) (closed s)).
Definition set_syslog_flags (v : Z) : L unit := λ s, Some (tt, mk_logger (memory s) (syslog_fd s) v (written s) (closed s)).
Definition send (to : sink) (data : list Z) : L unit := λ s, Some (tt, mk_logger (memory s) (syslog_fd s) (syslog_flags s) (written s ++ [(to, data)]) (closed s)).

(** The [n] bytes at [a] *)
Definition contents (a n : Z) : C (list Z) := λ m, (λ l, (l, m)) <$> mapM (λ i, m !! (a + i)) (seqZ 0 n).

(** "%s[%u]: " and "%s: " *)
Definition pid_format : list Z := [37; 115; 91; 37; 117; 93; 58; 32].
Definition id_format : list Z := [37; 115; 58; 32].

Section code.
(** The array [id], the array [buf] of the call, and the string constants *)
Context (id buf fmt_pid fmt_id empty : Z).

(** [kmsg] is what opening the log gives. *)
Definition openlog (kmsg ident option : Z) : L unit :=
  s ← get_logger;
  opened ← (if syslog_fd s =? -1 then set_fd kmsg;; mret (negb (kmsg =? -1)) else mret true);
  if negb opened then mret tt
  else
    set_syslog_flags option;;
    _ ← mem_do (Str.strncpy id (if negb (ident =? 0) then ident else empty) MAXID);
    mret tt.

(** The part of [vsyslog] that fills the buffer; the result is [len] *)
Definition put_tag (flags pid : Z) : C Z :=
  if has flags LOG_PID then n ← sprintf (buf + 3) fmt_pid [id; pid]; mret (3 + n)
  else c ← load8 id; if negb (c =? 0) then n ← sprintf (buf + 3) fmt_id [id]; mret (3 + n) else mret 3.

Definition put_message (flags pid prio format : Z) (ap : list Z) : C Z :=
  store8 buf 60;;
  store8 (buf + 1) (LOG_PRI prio + 48);;
  store8 (buf + 2) 62;;
  len ← put_tag flags pid;
  n ← vsnprintf (buf + len) (u64 (BUFLEN - len)) format ap;
  len ← ck32 (len + n);
  let len := if BUFLEN - 1 <? len then BUFLEN - 1 else len in
  c ← load8 (buf + (len - 1));
  if negb (c =? 10) then store8 (buf + len) 10;; mret (len + 1) else mret len.

Definition vsyslog (kmsg pid prio format : Z) (ap : list Z) : L unit :=
  s ← get_logger;
  (if syslog_fd s =? -1 then openlog kmsg 0 0 else mret tt);;
  s ← get_logger;
  len ← mem_do (put_message (syslog_flags s) pid prio format ap);
  let fd := if syslog_fd s =? -1 then 2 else syslog_fd s in
  data ← mem_do (contents buf len);
  send (Descriptor fd) data;;
  if has (syslog_flags s) LOG_PERROR then send Stderr (drop 3 data) else mret tt.
End code.

Definition closelog : L unit := λ s,
  let logfd := syslog_fd s in
  Some (tt, if negb (logfd =? -1) then mk_logger (memory s) (-1) (syslog_flags s) (written s) (closed s ++ [logfd]) else s).

(** ** Specification *)

Definition decimal (v : Z) : list Z := int_text 0 10 (u32 v) 0 (-1).

(** What stands between the priority and the text *)
Definition tag (flags : Z) (ident : list Z) (pid : Z) : list Z :=
  if has flags LOG_PID then ident ++ [91] ++ decimal pid ++ [93; 58; 32]
  else if bool_decide (ident = []) then [] else ident ++ [58; 32].

Definition message (flags : Z) (ident : list Z) (pid prio : Z) (t : list Z) : list Z :=
  take (Z.to_nat (BUFLEN - 1)) ([60; LOG_PRI prio + 48; 62] ++ tag flags ident pid ++ t).
Definition line_of (msg : list Z) : list Z := if bool_decide (last msg = Some 10) then msg else msg ++ [10].

(** ** Lemmas *)

Lemma mem_do_ok {A} (c : C A) (s : logger) a m : c (memory s) = Some (a, m) →
  mem_do c s = Some (a, mk_logger m (syslog_fd s) (syslog_flags s) (written s) (closed s)).
Proof. unfold mem_do. by intros ->. Qed.

Lemma contents_ok m a bs n : mem_at m a bs → n = Z.of_nat (length bs) → contents a n m = Some (bs, m).
Proof.
  intros Hm ->. unfold contents. enough (mapM (λ i, m !! (a + i)) (seqZ 0 (Z.of_nat (length bs))) = Some bs) as -> by done.
  apply mapM_Some_2, Forall2_same_length_lookup. rewrite length_seqZ, Nat2Z.id. split; [done |].
  intros i j b [-> _]%lookup_seqZ Hb. by apply Hm.
Qed.

Lemma length_decimal v : (1 <= length (decimal v) <= 10)%nat.
Proof.
  unfold decimal, int_text, justify. change (has 0 FL_MINUS) with false. change (has 0 FL_ZERO) with false.
  change (int_prefix 0 10) with (@nil Z). change (int_sign 0 (u32 v)) with (@nil Z). cbn [app length Nat.add].
  set (d := int_digits 0 10 (u32 v) (-1)). assert (in_u 32 (u32 v)) as Hv by (by apply wrapu_range). unfold in_u in Hv.
  assert (d = Z.max (num_digits 64 10 (u32 v)) 1) as Hd.
  { unfold d, int_digits. change (int_mag 0 (u32 v)) with (u32 v). change (has 0 FL_HASH && (10 =? 8)) with false. cbv zeta iota.
    pose proof (num_digits_bounds 64 10 (u32 v)). lia. }
  assert (num_digits 64 10 (u32 v) <= 10).
  { destruct (decide (u32 v = 0)) as [-> |]; [done |].
    pose proof (num_digits_lower 64 10 (u32 v) ltac:(lia) ltac:(change (Z.of_nat 64) with 64; lia)) as Hlow.
    assert (10 ^ (num_digits 64 10 (u32 v) - 1) < 10 ^ 10) as Hp by lia. apply Z.pow_lt_mono_r_iff in Hp; lia. }
  assert (length (int_body 0 10 (u32 v) (-1)) = Z.to_nat d) as Hb.
  { unfold int_body, int_skip. fold d. change (has 0 FL_TICK) with false. cbv zeta iota. rewrite (Z.div_small (d - 1)) by lia. rewrite length_numeral by lia. f_equal. lia. }
  rewrite length_app, length_replicate, Hb. lia.
Qed.

Lemma string_text_plain bs : string_text 0 0 (-1) bs = Some bs.
Proof.
  change (string_text 0 0 (-1) bs) with (Some (replicate (Z.to_nat (0 - Z.of_nat (length bs))) 32 ++ bs)).
  by replace (Z.to_nat (0 - Z.of_nat (length bs))) with 0%nat by lia.
Qed.

Section rendering.
Context (id : Z) (ident : list Z) (Hid : id ≠ 0).
Definition id_strs (v : Z) : option (list Z) := if v =? id then Some ident else None.

Lemma conv_string ap : conv_text id_strs 115 0 0 (-1) rank_int (id :: ap) = Some (ident, ap).
Proof using Hid.
  change (conv_text id_strs 115 0 0 (-1) rank_int (id :: ap)) with
    (match (if id =? 0 then Some null_text else id_strs id) with
     | Some bs => match string_text 0 0 (-1) bs with Some t => Some (t, ap) | None => None end
     | None => None
     end).
  rewrite (proj2 (Z.eqb_neq id 0)) by done. unfold id_strs. by rewrite Z.eqb_refl, string_text_plain.
Qed.

Lemma render_pid pid : render (length pid_format) id_strs pid_format [id; pid] = Some (ident ++ [91] ++ decimal pid ++ [93; 58; 32]).
Proof using Hid.
  change (render (length pid_format) id_strs pid_format [id; pid]) with
    ('(t, ap) ← conv_text id_strs 115 0 0 (-1) rank_int [id; pid]; (t ++.) <$> render 7 id_strs [91; 37; 117; 93; 58; 32] ap).
  rewrite conv_string. done.
Qed.

Lemma render_id : render (length id_format) id_strs id_format [id] = Some (ident ++ [58; 32]).
Proof using Hid.
  change (render (length id_format) id_strs id_format [id]) with ('(t, ap) ← conv_text id_strs 115 0 0 (-1) rank_int [id]; (t ++.) <$> render 3 id_strs [58; 32] ap).
  rewrite conv_string. done.
Qed.
End rendering.

Lemma mem_set_over m a bs z cs : (length z <= length cs)%nat → mem_set (mem_set m a (bs ++ z)) (a + Z.of_nat (length bs)) cs = mem_set m a (bs ++ cs).
Proof.
  intros Hl. rewrite !mem_set_app. apply map_eq. intros k. rewrite !mem_set_lookup. repeat case_decide; done || lia.
Qed.

(** ** Writing a message *)

Section logging.
Context (id buf fmt_pid fmt_id empty : Z).

(** [n] bytes at [a] that are not in the buffer *)
Definition clear_of (a n : Z) : Prop := a + n <= buf ∨ buf + BUFLEN <= a.

(** The identity and the constants in a memory *)
Record log_ok (m : mem) (ident : list Z) : Prop := mk_log_ok {
  lo_id : cstr m id ident;
  lo_bytes : bytes ident;
  lo_length : Z.of_nat (length ident) <= MAXID;
  lo_null : id ≠ 0;
  lo_pid : cstr m fmt_pid pid_format;
  lo_fmt : cstr m fmt_id id_format;
  lo_buf : mapped m buf BUFLEN;
  lo_clear : clear_of id (MAXID + 1) ∧ clear_of fmt_pid 9 ∧ clear_of fmt_id 5;
}.

Lemma log_ok_outside m m' ident : same_outside buf BUFLEN m m' → mapped m' buf BUFLEN → log_ok m ident → log_ok m' ident.
Proof.
  intros Ho Hm [Hid Hb Hl Hn Hp Hf _ (C1 & C2 & C3)]. unfold clear_of, MAXID in *. split; try done; eapply cstr_outside; try done; cbn [length pid_format id_format]; lia.
Qed.

Lemma length_tag flags ident pid : Z.of_nat (length ident) <= MAXID → Z.of_nat (length (tag flags ident pid)) <= 45.
Proof.
  intros Hl. unfold tag, MAXID in *. pose proof (length_decimal pid). case_match; [| case_bool_decide]; rewrite ?length_app; cbn [length]; lia.
Qed.

(** The choice of the tag; [z] is the NUL behind it, if there is a tag *)
Lemma tag_spec flags ident pid m : log_ok m ident → ∃ z, (length z <= 1)%nat ∧
  put_tag id buf fmt_pid fmt_id flags pid m =
  Some (3 + Z.of_nat (length (tag flags ident pid)), mem_set m (buf + 3) (tag flags ident pid ++ z)).
Proof.
  intros [Hid Hb Hl Hn Hp Hf Hm (C1 & C2 & C3)]. pose proof (length_tag flags ident pid Hl) as Ht. unfold clear_of, BUFLEN, MAXID in *.
  assert (∀ f fmt ap, render (length f) (id_strs id ident) f ap = Some (tag flags ident pid) → cstr m fmt f → bytes f → clear_of fmt (Z.of_nat (length f) + 1) →
    sprintf (buf + 3) fmt ap m = Some (Z.of_nat (length (tag flags ident pid)), mem_set m (buf + 3) (tag flags ident pid ++ [0]))) as Hrun.
  { intros f fmt ap Hr Hc Hbf Hcl. unfold sprintf, clear_of, BUFLEN in *. rewrite (vsnprintf_run (id_strs id ident) m _ _ _ f ap (tag flags ident pid)); try done; unfold SIZE_MAX.
    - change (2 ^ 64 - 1 =? 0) with false. cbv iota. by rewrite take_ge by lia.
    - lia.
    - intros k Hk. apply Hm. lia.
    - unfold away. lia.
    - intros v bs. unfold id_strs. destruct (Z.eqb_spec v id) as [-> |]; [| done]. intros [= <-]. split_and!; [done | done | lia | unfold away; lia]. }
  unfold put_tag, tag in *. destruct (has flags LOG_PID) eqn:Epid.
  - exists [0]. split; [done |]. erewrite bind_ok; [done |]. apply (Hrun pid_format); [by apply render_pid | done | by_eval | done].
  - case_bool_decide as Enil.
    + subst ident. exists []. split; [cbn; lia |]. apply cstr_nil in Hid. by erewrite bind_ok by (by apply load8_ok).
    + exists [0]. split; [done |]. destruct ident as [| c ident]; [done |]. pose proof Hid as Hid0. apply cstr_cons in Hid0 as (Hc & Hc0 & _).
      erewrite bind_ok by (by apply load8_ok). rewrite (proj2 (Z.eqb_neq c 0)) by done. cbn [negb].
      erewrite bind_ok; [done |]. apply (Hrun id_format); [by apply render_id | done | by_eval | done].
Qed.

Context (strs : Z → option (list Z)) (format : Z) (f ap t : list Z).
Context (Hformat : bytes f) (Hclear : clear_of format (Z.of_nat (length f) + 1)).
Context (Htext : render (length f) strs f ap = Some t) (Hlong : Z.of_nat (length t) < 2 ^ 31 - 100).

(** The format and the strings that its arguments point to *)
Definition args_ok (m : mem) : Prop := cstr m format f ∧
  ∀ v bs, strs v = Some bs → cstr m v bs ∧ bytes bs ∧ Z.of_nat (length bs) < 2 ^ 31 ∧ clear_of v (Z.of_nat (length bs) + 1).

Lemma args_outside m m' : same_outside buf BUFLEN m m' → args_ok m → args_ok m'.
Proof using Hclear.
  clear Htext Hlong. intros Ho [Hf Hs]. unfold clear_of in *. split; [eapply cstr_outside; [done | done | lia] |]. intros v bs Hv. destruct (Hs v bs Hv) as (? & ? & ? & ?).
  split_and!; try done. eapply cstr_outside; [done | done | lia].
Qed.

Lemma put_priority {A} prio m (k : C A) : mapped m buf BUFLEN →
  (store8 buf 60;; store8 (buf + 1) (LOG_PRI prio + 48);; store8 (buf + 2) 62;; k) m = k (mem_set m buf [60; LOG_PRI prio + 48; 62]).
Proof using Type.
  clear Hlong.
  intros Hm. unfold BUFLEN in *. destruct (Hm buf) as [b0 H0]; [lia |]. erewrite bind_ok by (by eapply store8_ok).
  assert (u8 (LOG_PRI prio + 48) = LOG_PRI prio + 48) as Hp.
  { apply wrapu_small. unfold in_u, LOG_PRI. change 7 with (Z.ones 3). rewrite Z.land_ones by lia. pose proof (Z.mod_pos_bound prio (2 ^ 3)). lia. }
  destruct (mapped_insert _ _ _ buf (u8 60) Hm (buf + 1)) as [b1 H1]; [lia |]. erewrite bind_ok by (by eapply store8_ok). rewrite Hp.
  destruct (mapped_insert _ _ _ (buf + 1) (LOG_PRI prio + 48) (mapped_insert _ _ _ buf (u8 60) Hm) (buf + 2)) as [b2 H2]; [lia |].
  erewrite bind_ok by (by eapply store8_ok). cbn [mem_set]. by replace (buf + 1 + 1) with (buf + 2) by lia.
Qed.

Lemma put_message_spec flags ident pid prio m : log_ok m ident → args_ok m → ∃ m', let line := line_of (message flags ident pid prio t) in
  put_message id buf fmt_pid fmt_id flags pid prio format ap m = Some (Z.of_nat (length line), m') ∧
  mem_at m' buf line ∧ same_outside buf BUFLEN m m' ∧ mapped m' buf BUFLEN ∧ Z.of_nat (length line) <= BUFLEN.
Proof using Hformat Hclear Htext Hlong.
  intros Hok Ha. pose proof (lo_buf _ _ Hok) as Hm. cbv zeta. unfold put_message. rewrite put_priority by done.
  set (pre := [60; LOG_PRI prio + 48; 62]) in *.
  assert (∀ bs, Z.of_nat (length bs) <= BUFLEN → same_outside buf BUFLEN m (mem_set m buf bs) ∧ mapped (mem_set m buf bs) buf BUFLEN) as Hset.
  { intros bs Hbs. split; [apply same_outside_sub; lia | by apply mapped_set]. }
  destruct (Hset pre ltac:(done)) as [O1 M1].
  destruct (tag_spec flags ident pid (mem_set m buf pre)) as (z & Hz & Et); [by eapply log_ok_outside |].
  pose proof (length_tag flags ident pid (lo_length _ _ Hok)) as Hlt. set (tg := tag flags ident pid) in *.
  assert (mem_set (mem_set m buf pre) (buf + 3) (tg ++ z) = mem_set m buf ((pre ++ tg) ++ z)) as Em by (rewrite <- app_assoc; by rewrite (mem_set_app m buf pre)).
  rewrite Em in Et. assert (length (pre ++ tg) = 3 + length tg)%nat as Hlp by by rewrite length_app.
  destruct (Hset ((pre ++ tg) ++ z)) as [O2 M2]; [rewrite length_app; unfold BUFLEN; lia |].
  destruct (args_outside m _ O2 Ha) as [Hf Hs]. unfold BUFLEN in *.
  assert (u64 (1024 - (3 + Z.of_nat (length tg))) = 1024 - Z.of_nat (length (pre ++ tg))) as En by (rewrite (wrapu_small 64) by (unfold in_u; lia); lia).
  assert (vsnprintf (buf + (3 + Z.of_nat (length tg))) (u64 (1024 - (3 + Z.of_nat (length tg)))) format ap (mem_set m buf ((pre ++ tg) ++ z)) =
    Some (Z.of_nat (length t), mem_set m buf (message flags ident pid prio t ++ [0]))) as Ev.
  { rewrite En. rewrite (vsnprintf_run strs _ _ _ _ f ap t); try done.
    - rewrite (proj2 (Z.eqb_neq _ 0)) by lia. replace (buf + (3 + Z.of_nat (length tg))) with (buf + Z.of_nat (length (pre ++ tg))) by lia.
      rewrite mem_set_over by (rewrite length_app; cbn; lia). unfold message. fold tg pre. rewrite (app_assoc pre tg t), (take_app (pre ++ tg)), (take_ge (pre ++ tg)) by (unfold BUFLEN; lia).
      rewrite <- (app_assoc (pre ++ tg)). by replace (Z.to_nat (1024 - Z.of_nat (length (pre ++ tg)) - 1)) with (Z.to_nat (BUFLEN - 1) - length (pre ++ tg))%nat by (unfold BUFLEN; lia).
    - lia.
    - lia.
    - intros k Hk. apply M2. lia.
    - unfold away, clear_of, BUFLEN in *. lia.
    - intros v bs Hv. destruct (Hs v bs Hv) as (? & ? & ? & ?). split_and!; try done. unfold away, clear_of, BUFLEN in *. lia. }
  set (msg := message flags ident pid prio t) in *.
  assert (Z.of_nat (length msg) = Z.min 1023 (3 + Z.of_nat (length tg) + Z.of_nat (length t))) as Hmsg.
  { unfold msg, message. fold pre tg. rewrite length_take, (app_assoc pre tg t), length_app. unfold BUFLEN. lia. }
  erewrite bind_ok by exact Et. erewrite bind_ok by exact Ev.
  erewrite bind_ok by (unfold ck32; rewrite bool_decide_true by (unfold in_s; lia); reflexivity). cbv zeta.
  assert ((if 1024 - 1 <? 3 + Z.of_nat (length tg) + Z.of_nat (length t) then 1024 - 1 else 3 + Z.of_nat (length tg) + Z.of_nat (length t)) = Z.of_nat (length msg)) as ->
    by (rewrite Hmsg; destruct (Z.ltb_spec (1024 - 1) (3 + Z.of_nat (length tg) + Z.of_nat (length t))); lia).
  destruct (Hset (msg ++ [0])) as [O3 M3]; [rewrite length_app; cbn; lia |].
  destruct (last msg) as [c |] eqn:Elast; [| apply last_None in Elast; rewrite Elast in Hmsg; cbn in Hmsg; lia].
  pose proof Elast as Hc. rewrite last_lookup in Hc. pose proof (mem_set_at m buf (msg ++ [0])) as Hat. apply mem_at_app in Hat as [Hat Hnul].
  erewrite bind_ok by (apply load8_ok; replace (buf + (Z.of_nat (length msg) - 1)) with (buf + Z.of_nat (pred (length msg))) by lia; apply Hat; exact Hc).
  unfold line_of. rewrite Elast. destruct (Z.eqb_spec c 10) as [-> | Hc10]; cbn [negb].
  - rewrite bool_decide_true by done. exists (mem_set m buf (msg ++ [0])). split_and!; try done. lia.
  - rewrite bool_decide_false by congruence. apply mem_at_cons in Hnul as [Hnul _]. erewrite bind_ok by (by eapply store8_ok).
    change (u8 10) with 10. rewrite mem_set_last. rewrite length_app. cbn [length].
    destruct (Hset (msg ++ [10])) as [O4 M4]; [rewrite length_app; cbn; lia |].
    exists (mem_set m buf (msg ++ [10])). split_and!; try done; [unfold mret, st_ret; do 2 f_equal; lia | apply mem_set_at | lia].
Qed.

(** [vsyslog] with the log open, or where it cannot be opened: it returns, and
    writes one line to the log (to descriptor 2 if there is none), which is the
    message cut to 1023 bytes, with a newline at its end if it has none; with
    [LOG_PERROR] the line without the priority also goes to [stderr].  Of the
    memory, only the buffer changes. *)
Theorem vsyslog_correct kmsg pid prio s ident : log_ok (memory s) ident → args_ok (memory s) → syslog_fd s ≠ -1 ∨ kmsg = -1 →
  ∃ m', let line := line_of (message (syslog_flags s) ident pid prio t) in
    vsyslog id buf fmt_pid fmt_id empty kmsg pid prio format ap s =
      Some (tt, mk_logger m' (syslog_fd s) (syslog_flags s)
        (written s ++ (Descriptor (if syslog_fd s =? -1 then 2 else syslog_fd s), line) :: (if has (syslog_flags s) LOG_PERROR then [(Stderr, drop 3 line)] else [])) (closed s)) ∧
    same_outside buf BUFLEN (memory s) m' ∧ Z.of_nat (length line) <= BUFLEN.
Proof using Hformat Hclear Htext Hlong.
  destruct s as [m fd flags wr cl]. cbn [memory syslog_fd syslog_flags written closed]. intros Hok Ha Hfd.
  destruct (put_message_spec flags ident pid prio m Hok Ha) as (m' & E & Hat & Ho & _ & Hl). cbv zeta in *. exists m'. split; [| done]. unfold vsyslog.
  erewrite bind_ok by reflexivity. cbn [syslog_fd]. erewrite bind_ok.
  2: { instantiate (1 := mk_logger m fd flags wr cl). destruct (Z.eqb_spec fd (-1)) as [-> |]; [| done]. destruct Hfd as [| ->]; done. }
  erewrite bind_ok by reflexivity. cbn [syslog_fd syslog_flags]. erewrite bind_ok by (apply mem_do_ok; exact E).
  erewrite bind_ok by (apply mem_do_ok; by apply contents_ok). erewrite bind_ok by reflexivity. cbn.
  destruct (has flags LOG_PERROR); [unfold send; cbn; by rewrite <- app_assoc | done].
Qed.

(** [openlog] stores at most 31 characters of the identity and leaves the byte
    behind them 0, so that it stays a string. *)
Theorem openlog_correct kmsg ident option s l : syslog_fd s ≠ -1 ∨ kmsg ≠ -1 →
  cstr (memory s) (if negb (ident =? 0) then ident else empty) l → bytes l → mapped (memory s) id MAXID → memory s !! (id + MAXID) = Some 0 →
  id <= (if negb (ident =? 0) then ident else empty) ∨ (if negb (ident =? 0) then ident else empty) + Z.of_nat (length l) + 1 <= id →
  ∃ m', openlog id empty kmsg ident option s = Some (tt, mk_logger m' (if syslog_fd s =? -1 then kmsg else syslog_fd s) option (written s) (closed s)) ∧
    cstr m' id (take (Z.to_nat MAXID) l) ∧ same_outside id MAXID (memory s) m' ∧ m' !! (id + MAXID) = Some 0.
Proof using Type.
  clear Hlong. destruct s as [m fd flags wr cl]. cbn [memory syslog_fd syslog_flags written closed]. intros Hfd Hs Hb Hm Hend Hap.
  set (src := if negb (ident =? 0) then ident else empty) in *. unfold openlog. erewrite bind_ok by reflexivity. cbn [syslog_fd].
  set (fd' := if fd =? -1 then kmsg else fd). erewrite bind_ok.
  2: { instantiate (1 := mk_logger m fd' flags wr cl). instantiate (1 := true). unfold fd'. destruct (Z.eqb_spec fd (-1)) as [-> |]; [| done].
       destruct Hfd as [| Hk]; [done |]. erewrite bind_ok by reflexivity. by rewrite (proj2 (Z.eqb_neq kmsg (-1))). }
  cbn [negb]. erewrite bind_ok by reflexivity. fold src. erewrite bind_ok.
  2: { apply mem_do_ok. cbn [memory]. by apply (strncpy_correct m id src l MAXID). }
  eexists. split; [reflexivity |]. set (bs := resize (Z.to_nat MAXID) 0 l). assert (Z.of_nat (length bs) = MAXID) as Hbs by (unfold bs; by rewrite length_resize).
  assert (mem_set m id bs !! (id + MAXID) = Some 0) as Hz by (rewrite mem_set_lookup, decide_False by lia; done).
  split_and!; [| rewrite <- Hbs; apply mem_set_outside | done].
  split; [| destruct Hs as [_ Hs]; by apply Forall_take]. intros i b. rewrite lookup_app_Some. intros [Hi | [Hi Hi0]].
  - rewrite lookup_take_Some in Hi. destruct Hi as [Hi Hlt]. apply mem_set_at. unfold bs. rewrite lookup_resize by (by apply lookup_lt_Some in Hi || lia). done.
  - apply list_lookup_singleton_Some in Hi0 as [Hi0 <-]. rewrite length_take in Hi, Hi0. destruct (decide (length l < Z.to_nat MAXID)%nat).
    + apply mem_set_at. unfold bs. rewrite lookup_resize_new by lia. done.
    + by replace (id + Z.of_nat i) with (id + MAXID) by (unfold MAXID in *; lia).
Qed.
End logging.

(** ** Examples *)

Definition log_mem (ident : list Z) : mem :=
  mem_set (mem_set (mem_set (mem_set (mem_set ∅ 100 (resize 32 0 ident)) 200 (pid_format ++ [0])) 220 (id_format ++ [0])) 300 [37; 100; 0]) 1000 (replicate 1024 7).

(** "<6>kinit[17]: -5" with and without the priority *)
Example vsyslog_both :
  (λ r, written r.2) <$> vsyslog 100 1000 200 220 310 (-1) 17 (24 + 6) 300 [2 ^ 64 - 5] (mk_logger (log_mem [107; 105; 110; 105; 116]) 4 (LOG_PID + LOG_PERROR) [] []) =
  Some [(Descriptor 4, [60; 54; 62; 107; 105; 110; 105; 116; 91; 49; 55; 93; 58; 32; 45; 53; 10]); (Stderr, [107; 105; 110; 105; 116; 91; 49; 55; 93; 58; 32; 45; 53; 10])].
Proof. vm_compute. reflexivity. Qed.

(** No identity, no log *)
Example vsyslog_unopened :
  (λ r, written r.2) <$> vsyslog 100 1000 200 220 310 (-1) 17 3 300 [7] (mk_logger (log_mem []) (-1) 0 [] []) = Some [(Descriptor 2, [60; 51; 62; 55; 10])].
Proof. vm_compute. reflexivity. Qed.

Lemma vsyslog_correct_witness : ∃ s', vsyslog 100 1000 200 220 310 (-1) 17 30 300 [7] (mk_logger (log_mem [107; 105; 110; 105; 116]) 4 0 [] []) = Some (tt, s') ∧
  written s' = [(Descriptor 4, [60; 54; 62; 107; 105; 110; 105; 116; 58; 32; 55; 10])].
Proof.
  destruct (vsyslog_correct 100 1000 200 220 310 (λ _, None) 300 [37; 100] [7] [55]) with (kmsg := -1) (pid := 17) (prio := 30) (s := mk_logger (log_mem [107; 105; 110; 105; 116]) 4 0 [] []) (ident := [107; 105; 110; 105; 116])
    as (m' & E & _).
  - by_eval.
  - unfold clear_of. cbn. lia.
  - reflexivity.
  - cbn. lia.
  - split; cbn [memory]; [| by_eval | by_eval | done | | | |].
    + split; [| by_eval]. intros i b Hi. do 6 (destruct i as [| i]; [injection Hi as <-; vm_compute; reflexivity |]). done.
    + split; [| by_eval]. intros i b Hi. do 9 (destruct i as [| i]; [injection Hi as <-; vm_compute; reflexivity |]). done.
    + split; [| by_eval]. intros i b Hi. do 5 (destruct i as [| i]; [injection Hi as <-; vm_compute; reflexivity |]). done.
    + intros k Hk. unfold log_mem. apply mem_set_dom_lookup. rewrite length_replicate. unfold BUFLEN in Hk. lia.
    + unfold clear_of, MAXID, BUFLEN. lia.
  - split; [| done]. split; [| by_eval]. intros i b Hi. cbn [memory]. do 3 (destruct i as [| i]; [injection Hi as <-; vm_compute; reflexivity |]). done.
  - left. done.
  - eexists. split; [exact E |]. cbn [written app]. reflexivity.
Defined.
