(* ===== verification/Ipmain.v ===== *)
(** * The start of ipconfig: [ipconfig_main], [add_device] and [netdev.c]

    Which devices are configured: those named by the arguments, or all that
    /sys/class/net lists.  The kernel's answers about an interface are a record;
    names are values here.  (In the source, the name of a device that was found
    in /sys points into the buffer of the directory stream, which [closedir]
    frees; what is proved of the names holds up to there.)

    The theorems: every usable interface gets one state with the settings of the
    parameter, and no other interface is touched; the walk ends unless an
    interface is called "all" or has another name that is not [plain]; what an interface had as its addresses is
    never asked for. *)

From stdpp Require Import base numbers list strings gmap.
From Stdlib Require Import Lia.
From S2P Require Import Prelude Numparse Getopt Rand48 Netdev Bootp Ipconfig Ipparse Prog.

#[local] Set Warnings "-register-all".

Definition IFF_UP : Z := 0x1.
Definition IFF_LOOPBACK : Z := 0x8.
Definition IFF_POINTOPOINT : Z := 0x10.
Definition IFNAMSIZ : Z := 16.
Definition ARPHRD_ETHER : Z := 1.
Definition ARPHRD_EUI64 : Z := 27.
Definition ARPHRD_LOOPBACK : Z := 772.
Definition PATH_MAX : Z := 4096.
Definition sysfs_class_net : list Z := text "/sys/class/net".

(** What the ioctl calls give for an interface: [SIOCGIFINDEX], [SIOCGIFMTU],
    [SIOCGIFHWADDR] (the type and the 14 bytes of the address), [SIOCGIFADDR],
    [SIOCGIFBRDADDR], [SIOCGIFNETMASK], [SIOCGIFFLAGS]; whether [SIOCSIFFLAGS]
    works *)
Record iface := mk_iface {
  i_index : option Z;
  i_mtu : option Z;
  i_hwaddr : option (Z * list Z);
  i_addr : option Z;
  i_brdaddr : option Z;
  i_netmask : option Z;
  i_flags : option Z;
  i_setflags : bool;
}.

(** The variables of the program; [flagged] are the flags that were set *)
Record ipc := mk_ipc {
  slist : list state;
  gl : globals;
  bringup_first : bool;
  default_caps : Z;
  loop_timeout : Z;
  rand_seed : seed;
  flagged : list (list Z * Z);
}.
Local Abbreviation I := (prog ipc).

Definition set_devices (v : list state * globals) : I unit := λ s, Ret (tt, mk_ipc v.1 v.2 (bringup_first s) (default_caps s) (loop_timeout s) (rand_seed s) (flagged s)).
Definition set_first : I unit := λ s, Ret (tt, mk_ipc (slist s) (gl s) true (default_caps s) (loop_timeout s) (rand_seed s) (flagged s)).
Definition set_default_caps (v : Z) : I unit := λ s, Ret (tt, mk_ipc (slist s) (gl s) (bringup_first s) v (loop_timeout s) (rand_seed s) (flagged s)).
Definition set_timeout (v : Z) : I unit := λ s, Ret (tt, mk_ipc (slist s) (gl s) (bringup_first s) (default_caps s) v (rand_seed s) (flagged s)).
Definition set_globals (v : globals) : I unit := λ s, Ret (tt, mk_ipc (slist s) v (bringup_first s) (default_caps s) (loop_timeout s) (rand_seed s) (flagged s)).
Definition set_seed (v : seed) : I unit := λ s, Ret (tt, mk_ipc (slist s) (gl s) (bringup_first s) (default_caps s) (loop_timeout s) v (flagged s)).
Definition set_flags (name : list Z) (v : Z) : I unit := λ s, Ret (tt, mk_ipc (slist s) (gl s) (bringup_first s) (default_caps s) (loop_timeout s) (rand_seed s) (flagged s ++ [(name, v)])).

(** [longjmp(abort_buf, 1)] ends [ipconfig_main] with 1. *)
Definition or_abort {A} (r : result A) : I A := match r with Ok a => mret a | Aborted => exit_ 1 end.

(** ** One interface *)

(** [copy_name] *)
Definition ifr_name (d : netdev) : list Z := take (Z.to_nat (IFNAMSIZ - 1)) (takewhile_nz (name d)).

(** [netdev_gif_addr] with what is done when it fails *)
Definition gif_addr (answer : option Z) (get : netdev → Z) (set : Z → netdev → netdev) (d : netdev) : netdev :=
  if get d =? INADDR_NONE then set (default 0 answer) d else d.

Definition netdev_init_if (socket : bool) (i : iface) (d : netdev) : Z * netdev :=
  if negb socket then (-1, d)
  else
    match i_index i with
    | None => (-1, d)
    | Some index =>
        let d := set_ifindex (u32 index) d in
        match i_mtu i with
        | None => (-1, d)
        | Some m =>
            let d := set_mtu (u32 m) d in
            match i_hwaddr i with
            | None => (-1, d)
            | Some (family, sa_data) =>
                let d := set_hwlen 0 (set_hwtype family d) in
                let len := if family =? ARPHRD_ETHER then Some 6 else if family =? ARPHRD_EUI64 then Some 8 else if family =? ARPHRD_LOOPBACK then Some 0 else None in
                match len with
                | None => (-1, d)
                | Some len =>
                    let d := set_hwlen len d in
                    let d := set_hwaddr (overwrite (hwaddr d) (take (Z.to_nat len) sa_data)) d in
                    let d := set_hwbrd (overwrite (hwbrd d) (replicate (Z.to_nat len) 255)) d in
                    if (ip_addr d =? INADDR_NONE) && bool_decide (i_addr i = None) then (0, set_ip_netmask 0 (set_ip_broadcast 0 (set_ip_addr 0 d)))
                    else
                      let d := gif_addr (i_addr i) ip_addr set_ip_addr d in
                      let d := gif_addr (i_brdaddr i) ip_broadcast set_ip_broadcast d in
                      (0, gif_addr (i_netmask i) ip_netmask set_ip_netmask d)
                end
            end
        end
    end.

Section code.
Context (iface_of : list Z → iface) (socket : bool).
(** The files of /sys/class/net: the name of an interface and what reading its
    flags gives; [None] if the directory cannot be opened *)
Context (net : option (list (list Z * option (list Z)))).
(** The kernel during the start, the memory for a device, and that for its
    state *)
Context (e : env) (memory : bool) (junk : option (Z * Z)).

Definition netdev_setflags (change : Z → Z) (d : netdev) : I Z :=
  let i := iface_of (ifr_name d) in
  match i_flags i with
  | None => mret (-1)
  | Some flags => set_flags (ifr_name d) (s16 (change flags));; mret (if i_setflags i then 0 else -1)
  end.
Definition netdev_up : netdev → I Z := netdev_setflags (λ flags, Z.lor flags IFF_UP).
Definition netdev_down : netdev → I Z := netdev_setflags (λ flags, Z.land flags (Z.lnot IFF_UP)).

Definition bringup (d : netdev) : I unit :=
  rv ← netdev_up d;
  s ← get_st;
  set_devices (bringup_device e (rv =? 0) junk d (slist s) (gl s)).

(** ** Adding devices *)

Definition zero_dev : netdev :=
  mk_netdev [] 0 0 (replicate 16 0) (replicate 16 0) 0 0 0 0 0 0 0 0 0 0 0 0 0 0 (replicate 65 0) (replicate 65 0) (replicate 65 0) (replicate 65 0) (replicate 256 0) (replicate 128 0).

(** The end of [add_device]; a random number is drawn only for a device that
    can broadcast. *)
Definition init_device (d : netdev) : I (option netdev) :=
  let i := iface_of (ifr_name d) in
  let '(rv, d) := netdev_init_if socket i d in
  if rv =? -1 then mret None
  else
    s ← get_st;
    let '(r, d') := bootp_init_if d (i_flags i) (lrand48 (rand_seed s)).1 (clock e) in
    if r =? -1 then mret None
    else
      (if match i_flags i with Some fl => (mtu d <? 364) || (Z.land fl IFF_BROADCAST =? 0) | None => true end then mret tt else set_seed (lrand48 (rand_seed s)).2);;
      mret (Some d').

(** The heuristic of [add_all_devices] on an entry and its file *)
Definition bootable (nm : list Z) (file : option (list Z)) : bool :=
  let i := Z.of_nat (length sysfs_class_net) + 1 + Z.of_nat (length nm) + 6 in
  if bool_decide (head nm = Some 46) then false
  else if PATH_MAX - 1 <=? i then false
  else match file with
       | None => false
       | Some p =>
           let flags := (parse_num 0 (takewhile_nz (take 254 p))).1 in
           (Z.land flags IFF_LOOPBACK =? 0) && negb (Z.land flags (Z.lor IFF_BROADCAST IFF_POINTOPOINT) =? 0)
       end.

Fixpoint add_entries (add : list Z → I (option netdev)) (template : netdev) (entries : list (list Z * option (list Z))) : I unit :=
  match entries with
  | [] => mret tt
  | (nm, file) :: entries =>
      (if bootable nm file then
         d ← add nm;
         match d with None => mret tt | Some d => bringup (merge_template template d) end
       else mret tt);;
      add_entries add template entries
  end.

Fixpoint add_device (fuel : nat) (info : list Z) : I (option netdev) :=
  match fuel with
  | 0%nat => crash
  | S fuel =>
      if negb memory then exit_ 1
      else
        s ← get_st;
        '(d, first, one) ← or_abort (parse_device (set_caps (default_caps s) zero_dev) info);
        (if one =? 0 then match net with Some entries => add_entries (add_device fuel) d entries | None => mret tt end else mret tt);;
        (if first : bool then set_first else mret tt);;
        if one =? 0 then mret None else init_device d
  end.

Definition add_and_bringup (fuel : nat) (info : list Z) : I unit :=
  d ← add_device fuel info;
  match d with Some d => bringup d | None => mret tt end.

(** ** [ipconfig_main] *)

Definition with_vendor (id : list Z) (g : globals) : globals :=
  mk_globals (ipudp_hdrs g) (cfg_local_port g) (cfg_remote_port g) id (do_not_config g) (configured g) (ifaces g) (sent g) (requests g) (files g).
Definition with_port (port : Z) (g : globals) : globals :=
  mk_globals (ipudp_hdrs g) (u16 port) (u16 (u16 port - 1)) (vendor_class_identifier g) (do_not_config g) (configured g) (ifaces g) (sent g) (requests g) (files g).
Definition without_config (g : globals) : globals :=
  mk_globals (ipudp_hdrs g) (cfg_local_port g) (cfg_remote_port g) (vendor_class_identifier g) true (configured g) (ifaces g) (sent g) (requests g) (files g).

Definition set_vendor (id : list Z) : I unit :=
  v ← or_abort (set_vendor_identifier id); s ← get_st; set_globals (with_vendor v (gl s)).

Definition handle_option (fuel : nat) (ev : Getopt.event) : I unit :=
  match ev with
  | Getopt.Opt c arg =>
      let optarg := default [] arg in
      if c =? 99 then v ← or_abort (parse_proto optarg); set_default_caps v
      else if c =? 112 then
        let port := s32 (parse_num 10 optarg).1 in
        if (port <=? 0) || (65535 <? port) then exit_ 1 else s ← get_st; set_globals (with_port port (gl s))
      else if c =? 116 then
        let t := s32 (parse_num 10 optarg).1 in
        set_timeout t;; if t <? 0 then exit_ 1 else mret tt
      else if c =? 105 then set_vendor optarg
      else if c =? 111 then set_first
      else if c =? 110 then s ← get_st; set_globals (without_config (gl s))
      else if c =? 100 then add_and_bringup fuel optarg
      else exit_ 1
  | _ => exit_ 1
  end.

Fixpoint each {A} (f : A → I unit) (l : list A) : I unit := match l with [] => mret tt | x :: l => f x;; each f l end.

(** Up to the loop: whether it is to be run.  [from_other] when the program is
    called by kinit, [now] is the time. *)
Definition ipconfig_start (fuel : nat) (from_other : bool) (sec usec : Z) (argv : list (list Z)) : I bool :=
  (if from_other then mret tt else set_seed (srand48 (Z.lxor usec (s64 (Z.shiftl sec 24)))));;
  set_vendor (text "Linux ipconfig");;
  '(evs, operands) ← of_option (events (text "c:d:i:onp:t:") (S (work [] (drop 1 argv))) [] (drop 1 argv));
  each (handle_option fuel) evs;;
  each (add_and_bringup fuel) operands;;
  s ← get_st;
  n ← or_abort (check_autoconfig (slist s) (gl s));
  mret (negb (n =? 0)).

(** The loop; [rounds] are what happens during it. *)
Definition ipconfig_main (fuel : nat) (from_other : bool) (sec usec : Z) (argv : list (list Z)) (open_ok : bool) (start_usec : Z) (rounds : list round) : I Z :=
  again ← ipconfig_start fuel from_other sec usec argv;
  if again : bool then
    s ← get_st;
    '(err, l, g, _) ← of_option (loop open_ok (bringup_first s) (loop_timeout s) (clock e) start_usec rounds (slist s) (gl s));
    set_devices (l, g);;
    mret err
  else mret 0.
End code.

(** ** What a device is when it is added *)

Lemma init_if_name sock i d rv d' : netdev_init_if sock i d = (rv, d') → name d' = name d.
Proof. unfold netdev_init_if, gif_addr. intros E. repeat case_match; simplify_eq; done. Qed.

Lemma bootp_init_name d fl r now rv d' : bootp_init_if d fl r now = (rv, d') → name d' = name d.
Proof. unfold bootp_init_if. intros E. repeat case_match; simplify_eq; done. Qed.

Lemma merge_name t d : name (merge_template t d) = name d.
Proof. unfold merge_template. cbv zeta. cbn [name set_caps]. repeat case_match; done. Qed.

Lemma gif_addr_no answer get set d : get d ≠ INADDR_NONE → gif_addr answer get set d = d.
Proof. intros H. unfold gif_addr. by rewrite (proj2 (Z.eqb_neq _ _) H). Qed.

(** The addresses that an interface has are asked for only in place of the
    broadcast address 255.255.255.255: a device begins with 0.0.0.0. *)
Theorem init_if_asks_nothing sock i j d : ip_addr d ≠ INADDR_NONE → ip_broadcast d ≠ INADDR_NONE → ip_netmask d ≠ INADDR_NONE →
  i_index i = i_index j → i_mtu i = i_mtu j → i_hwaddr i = i_hwaddr j → netdev_init_if sock i d = netdev_init_if sock j d.
Proof.
  intros H1 H2 H3 E1 E2 E3. unfold netdev_init_if. rewrite E1, E2, E3.
  destruct (negb sock); [done |]. destruct (i_index j); [| done]. destruct (i_mtu j); [| done]. destruct (i_hwaddr j) as [[family sa] |]; [| done]. cbv zeta.
  destruct (if family =? ARPHRD_ETHER then _ else _) as [len |]; [| done]. set (d1 := set_hwbrd _ _).
  assert (ip_addr d1 ≠ INADDR_NONE ∧ ip_broadcast d1 ≠ INADDR_NONE ∧ ip_netmask d1 ≠ INADDR_NONE) as (G1 & G2 & G3) by done. clearbody d1.
  rewrite (proj2 (Z.eqb_neq (ip_addr d1) _) G1). cbn [andb]. by rewrite !(gif_addr_no _ ip_addr _ d1), !(gif_addr_no _ ip_broadcast _ d1), !(gif_addr_no _ ip_netmask _ d1).
Qed.

(** A name that means one interface: it is not "all", has no colon, and does
    not begin like a parameter. *)
Definition plain (nm : list Z) : Prop :=
  nm ≠ [] ∧ nm ≠ text "all" ∧ (58 ∉ nm) ∧ ¬ (text "ip=" `prefix_of` nm) ∧ ¬ (text "nfsaddrs=" `prefix_of` nm).

Lemma strip_none p ip : ¬ (p `prefix_of` ip) → strip p ip = None.
Proof.
  revert ip. induction p as [| a p IH]; intros ip H; [destruct H; apply prefix_nil |]. destruct ip as [| b ip]; [done |]. cbn [strip].
  destruct (Z.eqb_spec a b) as [-> |]; [| done]. apply IH. intros Hp. by apply H, prefix_cons.
Qed.

Lemma parse_plain d nm : plain nm → parse_device d nm = Ok (set_name nm d, false, 1).
Proof.
  intros (H1 & H2 & H3 & H4 & H5). unfold parse_device. rewrite (strip_none _ _ H4), (strip_none _ _ H5), (cut_last nm H3). cbn [mbind result_bind]. cbn [name set_name].
  by rewrite !bool_decide_false.
Qed.

Lemma filter_nil_iff_all (l : list netdev) : filter (λ d, caps d ≠ 0) l ≠ [] ↔ ¬ Forall (λ d, caps d = 0) l.
Proof.
  split; intros H Hn; apply H; [apply filter_none; eapply Forall_impl; [exact Hn |]; intros x Hx Hc; by apply Hc |].
  apply Forall_forall. intros x Hx. destruct (decide (caps x = 0)) as [| Hc]; [done |]. assert (x ∈ filter (λ d, caps d ≠ 0) l) as Hf by (by apply list_elem_of_filter). rewrite Hn in Hf. by apply not_elem_of_nil in Hf.
Qed.

Lemma length_filter_two (l : list netdev) : length l = (length (filter (λ d, caps d ≠ 0%Z) l) + length (filter (λ d, caps d = 0%Z) l))%nat.
Proof. induction l as [| d l IH]; [done |]. rewrite !filter_cons. destruct (decide (caps d = 0)), (decide (caps d ≠ 0)); try done; cbn [length]; lia. Qed.

Section devices.
Context (iface_of : list Z → iface) (socket : bool) (entries : list (list Z * option (list Z))) (e : env) (junk_state junk_restart : Z).
Abbreviation junk := (Some (junk_state, junk_restart)).
Abbreviation add := (add_device iface_of socket (Some entries) e true junk).

(** The device that an interface gives, with a random number *)
Definition init_with (d : netdev) (rand : Z) : option netdev :=
  let i := iface_of (ifr_name d) in
  let '(rv, d) := netdev_init_if socket i d in
  if rv =? -1 then None
  else let '(r, d) := bootp_init_if d (i_flags i) rand (clock e) in if r =? -1 then None else Some d.

(** Everything but the seed is the same. *)
Definition but_seed (s s' : ipc) : Prop :=
  s' = mk_ipc (slist s) (gl s) (bringup_first s) (default_caps s) (loop_timeout s) (rand_seed s') (flagged s).

Lemma init_device_spec d s : ∃ o r s', init_device iface_of socket e d s = Ret (o, s') ∧ o = init_with d r ∧ but_seed s s'.
Proof.
  unfold init_device, init_with. cbv zeta. destruct (netdev_init_if socket (iface_of (ifr_name d)) d) as [rv d1]. destruct (rv =? -1); [exists None, 0, s; by destruct s |].
  exists (let '(r, d') := bootp_init_if d1 (i_flags (iface_of (ifr_name d))) (lrand48 (rand_seed s)).1 (clock e) in if r =? -1 then None else Some d'), (lrand48 (rand_seed s)).1.
  rewrite (pbind_ok _ _ s s s) by done. destruct (bootp_init_if d1 _ _ _) as [r d']. destruct (r =? -1); [exists s; by destruct s |].
  destruct (match i_flags _ with Some _ => _ | None => _ end); eexists; (split; [unfold mbind, prog_bind; reflexivity |]); by destruct s.
Qed.

Lemma init_with_name d r d' : init_with d r = Some d' → name d' = name d.
Proof.
  unfold init_with. cbv zeta. destruct (netdev_init_if _ _ d) as [rv d1] eqn:E1. destruct (rv =? -1); [done |]. destruct (bootp_init_if d1 _ _ _) as [r' d2] eqn:E2.
  destruct (r' =? -1); [done |]. intros [= <-]. by rewrite (bootp_init_name _ _ _ _ _ _ E2), (init_if_name _ _ _ _ _ E1).
Qed.

(** An interface can be used if its answers come, and [SIOCSIFFLAGS] works *)
Lemma init_with_rand d r r' : init_with d r = None → init_with d r' = None.
Proof.
  unfold init_with. cbv zeta. destruct (netdev_init_if _ _ d) as [rv d1]. destruct (rv =? -1); [done |]. unfold bootp_init_if. destruct (i_flags _); [| done]. by destruct (_ || _).
Qed.

Lemma init_with_flags d r d' : init_with d r = Some d' → i_flags (iface_of (ifr_name d)) ≠ None.
Proof.
  unfold init_with. cbv zeta. destruct (netdev_init_if _ _ d) as [rv d1]. destruct (rv =? -1); [done |]. by destruct (i_flags (iface_of (ifr_name d))).
Qed.

Lemma add_plain fuel nm s : plain nm → add (S fuel) nm s = init_device iface_of socket e (set_name nm (set_caps (default_caps s) zero_dev)) s.
Proof.
  intros Hp. cbn [add_device negb]. rewrite (pbind_ok _ _ s s s) by done. rewrite (parse_plain _ nm Hp).
  unfold or_abort. rewrite (pbind_ok (mret _) _ s _ s eq_refl). cbv iota. change (1 =? 0) with false. cbv iota. rewrite (pbind_ok (mret tt) _ s _ s eq_refl). by rewrite (pbind_ok (mret tt) _ s _ s eq_refl).
Qed.

(** ** All devices *)

(** What [bringup_device] leaves in the list for a device *)
Definition new_state (d : netdev) : state :=
  let st := if negb (Z.land (caps d) CAP_DHCP =? 0) && (ip_addr d =? INADDR_ANY) then Some DEVST_DHCPDISC
            else if negb (Z.land (caps d) CAP_DHCP =? 0) then Some DEVST_DHCPREQ
            else if negb (Z.land (caps d) CAP_BOOTP =? 0) then Some DEVST_BOOTP else None in
  mk_state (default junk_state st) (default junk_restart st) (clock e) 1 d.

Section walk.
Context (t : netdev) (c : Z).

(** The device before the parameter is taken into account *)
Definition named (nm : list Z) : netdev := set_name nm (set_caps c zero_dev).

(** The interfaces that give the answers that are needed, and those of them
    that are brought up *)
Definition usable (nm : list Z) : bool := match init_with (named nm) 0 with Some _ => true | None => false end.
Definition answering (l : list (list Z * option (list Z))) : list (list Z) := filter (λ nm, usable nm = true) (fst <$> filter (λ x, bootable x.1 x.2 = true) l).
Definition chosen (l : list (list Z * option (list Z))) : list (list Z) := filter (λ nm, i_setflags (iface_of (ifr_name (named nm))) = true) (answering l).

(** The request to bring an interface up *)
Definition up_request (nm : list Z) : list Z * Z :=
  (ifr_name (named nm), s16 (Z.lor (default 0 (i_flags (iface_of (ifr_name (named nm))))) IFF_UP)).

(** The device that is made of an interface: its answers and the parameter *)
Definition device_of (nm : list Z) (d : netdev) : Prop := ∃ r d0, init_with (named nm) r = Some d0 ∧ d = merge_template t d0.

(** What is left when the devices [devs] have been brought up with the requests
    [ups] *)
Record after (s : ipc) (ups : list (list Z * Z)) (devs : list netdev) (s' : ipc) : Prop := mk_after {
  af_slist : slist s' = rev (new_state <$> filter (λ d, caps d ≠ 0) devs) ++ slist s;
  af_ifaces : ifaces (gl s') = rev (postprocess_device <$> filter (λ d, caps d = 0) devs) ++ ifaces (gl s);
  af_configured : configured (gl s') = configured (gl s) + Z.of_nat (length (filter (λ d, caps d = 0) devs));
  af_flagged : flagged s' = flagged s ++ ups;
  af_kept : bringup_first s' = bringup_first s ∧ default_caps s' = default_caps s ∧ loop_timeout s' = loop_timeout s;
}.

Lemma after_none s s' : but_seed s s' → after s [] [] s'.
Proof. intros ->. split; cbn; try done; [lia | by rewrite app_nil_r]. Qed.

Lemma after_app s u1 d1 s1 u2 d2 s' : after s u1 d1 s1 → after s1 u2 d2 s' → after s (u1 ++ u2) (d1 ++ d2) s'.
Proof.
  intros [A1 A2 A3 A4 (K1 & K2 & K3)] [B1 B2 B3 B4 (L1 & L2 & L3)]. split.
  - by rewrite B1, A1, filter_app, fmap_app, rev_app_distr, <- app_assoc.
  - by rewrite B2, A2, filter_app, fmap_app, rev_app_distr, <- app_assoc.
  - rewrite B3, A3, filter_app, length_app. lia.
  - by rewrite B4, A4, <- app_assoc.
  - split_and!; congruence.
Qed.

Lemma after_skip s s1 ups devs s' : but_seed s s1 → after s1 ups devs s' → after s ups devs s'.
Proof. intros ->. by intros [B1 B2 B3 B4 B5]. Qed.

Lemma bringup_spec nm d s : ifr_name d = ifr_name (named nm) → i_flags (iface_of (ifr_name d)) ≠ None →
  ∃ s', bringup iface_of e junk d s = Ret (tt, s') ∧ after s [up_request nm] (if i_setflags (iface_of (ifr_name (named nm))) then [d] else []) s'.
Proof.
  intros Hn Hf. unfold bringup, netdev_up, netdev_setflags, up_request. rewrite <- Hn. destruct (i_flags (iface_of (ifr_name d))) as [fl |]; [| done].
  destruct (i_setflags (iface_of (ifr_name d))); (eexists; split; [reflexivity |]); cbn; unfold bringup_device; cbn.
  - destruct (Z.eqb_spec (caps d) 0) as [Hc | Hc]; cbn; split; cbn; rewrite ?filter_cons; repeat case_decide; try done; cbn; lia.
  - split; cbn; try done. lia.
Qed.

(** One entry of the directory *)
Lemma entry_spec fuel nm s : plain nm → default_caps s = c →
  ∃ devs s', (d ← add (S fuel) nm; match d with None => mret tt | Some d => bringup iface_of e junk (merge_template t d) end) s = Ret (tt, s') ∧
    Forall2 device_of (filter (λ nm, i_setflags (iface_of (ifr_name (named nm))) = true) (filter (λ nm, usable nm = true) [nm])) devs ∧
    after s (up_request <$> filter (λ nm, usable nm = true) [nm]) devs s'.
Proof.
  intros Hp Hc. destruct (init_device_spec (named nm) s) as (o & r & s1 & E1 & Ho & H1).
  assert (add (S fuel) nm s = Ret (o, s1)) as Ea by (rewrite add_plain, Hc by done; exact E1). rewrite (pbind_ok _ _ _ _ _ Ea). rewrite (filter_cons _ nm []).
  destruct o as [d |].
  - assert (ifr_name (merge_template t d) = ifr_name (named nm)) as Hn by (unfold ifr_name; by rewrite merge_name, (init_with_name _ _ _ (eq_sym Ho))).
    destruct (bringup_spec nm (merge_template t d) s1 Hn) as (s2 & E2 & H2); [rewrite Hn; by eapply init_with_flags |].
    assert (usable nm = true) as Hu by (unfold usable; destruct (init_with (named nm) 0) eqn:H0; [done |]; by rewrite (init_with_rand _ _ r H0) in Ho).
    rewrite decide_True by done. cbn [fmap list_fmap]. rewrite filter_nil, filter_cons, filter_nil. eexists _, s2. split; [exact E2 |]. split; [| by eapply after_skip].
    destruct (i_setflags (iface_of (ifr_name (named nm)))); [rewrite decide_True by done | by rewrite decide_False by done]. repeat constructor. by exists r, d.
  - exists [], s1. rewrite decide_False by (unfold usable; by rewrite (init_with_rand _ _ 0 (eq_sym Ho))). rewrite !filter_nil. split; [done |]. split; [constructor | by apply after_none].
Qed.

Lemma add_entries_spec fuel : ∀ l s, Forall (λ x, bootable x.1 x.2 = true → plain x.1) l → default_caps s = c →
  ∃ devs s', add_entries iface_of e junk (add (S fuel)) t l s = Ret (tt, s') ∧ Forall2 device_of (chosen l) devs ∧ after s (up_request <$> answering l) devs s'.
Proof.
  induction l as [| [nm file] l IH]; intros s Hl Hc; [exists [], s; split_and!; [done | constructor | apply after_none; by destruct s] |].
  apply Forall_cons in Hl as [Hp Hl]. cbn [add_entries]. cbn [fst snd] in Hp. unfold chosen, answering. rewrite (filter_cons _ (nm, file)). cbn [fst snd]. destruct (bootable nm file) eqn:Eb.
  - destruct (entry_spec fuel nm s (Hp eq_refl) Hc) as (d1 & s1 & E1 & F1 & A1). destruct (IH s1 Hl) as (devs & s' & E & F & A); [by destruct A1 as [_ _ _ _ (_ & -> & _)] |].
    exists (d1 ++ devs), s'. rewrite decide_True by done. rewrite fmap_cons. change ((nm, file).1 :: ?l) with ([nm] ++ l). rewrite !filter_app, fmap_app.
    split_and!; [by rewrite (pbind_ok _ _ _ _ _ E1) | by apply Forall2_app | by eapply after_app].
  - rewrite decide_False by congruence. destruct (IH s Hl Hc) as (devs & s' & E & F & A). exists devs, s'. split_and!; [| exact F | exact A]. by erewrite pbind_ok.
Qed.
End walk.

(** An argument that names no interface ("ip=dhcp", "all", "ip=::::::dhcp" and
    the like): with two levels of calls the walk over /sys ends, every
    interface that is suitable and answers has been brought up once, in the
    order of the directory, with the settings of the argument; those with a
    protocol are waiting for it, the others are configured already. *)
Theorem all_devices_added fuel info s t first : parse_device (set_caps (default_caps s) zero_dev) info = Ok (t, first, 0) →
  Forall (λ x, bootable x.1 x.2 = true → plain x.1) entries →
  ∃ devs s', add (S (S fuel)) info s = Ret (None, s') ∧ Forall2 (device_of t (default_caps s)) (chosen (default_caps s) entries) devs ∧
    slist s' = rev (new_state <$> filter (λ d, caps d ≠ 0) devs) ++ slist s ∧
    ifaces (gl s') = rev (postprocess_device <$> filter (λ d, caps d = 0) devs) ++ ifaces (gl s) ∧
    configured (gl s') = configured (gl s) + Z.of_nat (length (filter (λ d, caps d = 0) devs)) ∧
    flagged s' = flagged s ++ (up_request (default_caps s) <$> answering (default_caps s) entries) ∧ bringup_first s' = true.
Proof.
  intros Hp Hl. assert (first = true) as ->.
  { unfold parse_device in Hp. destruct (match strip _ info with Some _ => _ | None => _ end) as [ip is_ip]. destruct (match cut ip with (_, None) => _ | (_, Some _) => _ end) as [[d f] |]; [| done].
    cbn in Hp. by destruct (_ || _); simplify_eq. }
  destruct (add_entries_spec t (default_caps s) fuel entries s Hl eq_refl) as (devs & s1 & E & F & [A1 A2 A3 A4 A5]).
  exists devs. eexists. split.
  - set (n := S fuel) in *. cbn [add_device negb]. rewrite (pbind_ok _ _ s s s) by done. rewrite Hp. unfold or_abort. rewrite (pbind_ok (mret _) _ s _ s eq_refl). cbv iota. change (0 =? 0) with true. cbv iota.
    erewrite pbind_ok by exact E. reflexivity.
  - split_and!; [exact F | exact A1 | exact A2 | exact A3 | exact A4 | done].
Qed.

(** An interface that is called "all" is taken for the word: the walk over /sys
    begins again at every entry of that name, without end. *)
Theorem all_endless file rest : entries = (text "all", file) :: rest → bootable (text "all") file = true → ∀ fuel s, add fuel (text "all") s = Fault.
Proof.
  intros He Hb. induction fuel as [| fuel IH]; intros s; [done |]. cbn [add_device negb]. rewrite (pbind_ok _ _ s s s) by done.
  assert (parse_device (set_caps (default_caps s) zero_dev) (text "all") = Ok (set_name (text "all") (set_caps (default_caps s) zero_dev), true, 0)) as -> by reflexivity.
  unfold or_abort. rewrite (pbind_ok (mret _) _ s _ s eq_refl). cbv iota. change (0 =? 0) with true. cbv iota. apply pbind_fault. rewrite He. cbn [add_entries]. rewrite Hb.
  apply pbind_fault, pbind_fault. rewrite <- He. apply IH.
Qed.

(** [ipconfig ip=dhcp] up to its loop *)
Abbreviation start_dhcp := (λ fuel other sec usec, ipconfig_start iface_of socket (Some entries) e true junk (S (S fuel)) other sec usec [text "ipconfig"; text "ip=dhcp"]).

Lemma start_dhcp_found fuel other sec usec s : slist s = [] → configured (gl s) = 0 →
  Forall (λ x, bootable x.1 x.2 = true → plain x.1) entries →
  ∃ devs, Forall2 (device_of (set_caps 3 zero_dev) (default_caps s)) (chosen (default_caps s) entries) devs ∧
    match devs with
    | [] => start_dhcp fuel other sec usec s = Exit 1
    | _ => ∃ s', start_dhcp fuel other sec usec s = Ret (negb (bool_decide (Forall (λ d, caps d = 0) devs)), s') ∧
             slist s' = rev (new_state <$> filter (λ d, caps d ≠ 0) devs) ∧ ifaces (gl s') = rev (postprocess_device <$> filter (λ d, caps d = 0) devs) ++ ifaces (gl s) ∧
             flagged s' = flagged s ++ (up_request (default_caps s) <$> answering (default_caps s) entries) ∧ bringup_first s' = true
    end.
Proof.
  intros Hs Hg Hl.
  set (s1 := mk_ipc (slist s) (with_vendor (60 :: 14 :: text "Linux ipconfig") (gl s)) (bringup_first s) (default_caps s) (loop_timeout s)
    (if other then rand_seed s else srand48 (Z.lxor usec (s64 (Z.shiftl sec 24)))) (flagged s)).
  destruct (all_devices_added fuel (text "ip=dhcp") s1 (set_caps (Z.lor CAP_BOOTP CAP_DHCP) zero_dev) true eq_refl Hl) as (devs & s2 & E & F & A1 & A2 & A3 & A4 & A5).
  change (default_caps s1) with (default_caps s) in F. change (slist s1) with (slist s) in A1. change (configured (gl s1)) with (configured (gl s)) in A3. rewrite Hs, app_nil_r in A1. rewrite Hg in A3.
  exists devs. split; [exact F |].
  assert (ipconfig_start iface_of socket (Some entries) e true junk (S (S fuel)) other sec usec [text "ipconfig"; text "ip=dhcp"] s =
    (n ← or_abort (check_autoconfig (slist s2) (gl s2)); mret (negb (n =? 0))) s2) as ->.
  { unfold ipconfig_start.
    set (s0 := mk_ipc (slist s) (gl s) (bringup_first s) (default_caps s) (loop_timeout s) (if other then rand_seed s else srand48 (Z.lxor usec (s64 (Z.shiftl sec 24)))) (flagged s)).
    rewrite (pbind_ok _ _ s tt s0) by (unfold s0; by destruct other, s). rewrite (pbind_ok (set_vendor _) _ s0 tt s1) by reflexivity.
    assert (events (text "c:d:i:onp:t:") (S (work [] (drop 1 [text "ipconfig"; text "ip=dhcp"]))) [] (drop 1 [text "ipconfig"; text "ip=dhcp"]) = Some ([], [text "ip=dhcp"])) as -> by (vm_compute; reflexivity).
    rewrite (pbind_ok (of_option (Some ([], [text "ip=dhcp"]))) _ s1 ([], [text "ip=dhcp"]) s1 eq_refl). cbv iota. cbn [each]. rewrite (pbind_ok (mret tt) _ s1 tt s1 eq_refl).
    rewrite (pbind_ok (add_and_bringup _ _ _ _ _ _ _ _;; mret tt) _ s1 tt s2); [by rewrite (pbind_ok _ _ s2 s2 s2) |].
    rewrite (pbind_ok _ _ s1 tt s2); [done |]. unfold add_and_bringup. by rewrite (pbind_ok _ _ _ _ _ E). }
  unfold check_autoconfig. rewrite A1, A3, (filter_all _ (rev (new_state <$> filter (λ d, caps d ≠ 0) devs)))
    by (apply List.Forall_rev, Forall_fmap, Forall_forall; intros d Hd; by apply list_elem_of_filter in Hd as [? _]).
  rewrite length_rev, length_fmap. pose proof (length_filter_two devs) as Hlen. destruct devs as [| d devs]; [done |]. remember (d :: devs) as l eqn:El.
  rewrite (proj2 (andb_false_iff _ _)) by (rewrite !Z.eqb_neq; rewrite El in Hlen |- *; cbn [length] in Hlen; lia).
  rewrite (pbind_ok (or_abort (Ok _)) _ s2 _ s2 eq_refl). exists s2. split; [| split_and!; [exact A1 | exact A2 | exact A4 | exact A5]]. unfold mret, prog_ret. do 2 f_equal.
  case_bool_decide as Hb.
  - rewrite filter_none; [done |]. eapply Forall_impl; [exact Hb |]. intros x Hx H. by apply H.
  - rewrite (proj2 (Z.eqb_neq _ 0)); [done |]. intros H0. apply Hb, Forall_forall. intros x Hx. destruct (decide (caps x = 0)) as [| Hn]; [done |].
    assert (x ∈ filter (λ d, caps d ≠ 0) l) as Hf by (by apply list_elem_of_filter). destruct (filter (λ d, caps d ≠ 0) l); [by apply not_elem_of_nil in Hf | done].
Qed.

(** ** The same without the code *)

(** An entry of /sys/class/net that is suitable: its name does not begin with a
    dot, the path of its file has less than 4095 characters, and in the number
    that the file begins with bit 3 (loopback) is clear, and bit 1 (broadcast) or
    bit 4 (point to point) is set. *)
Definition suitable (x : list Z * option (list Z)) : bool :=
  let '(nm, file) := x in
  negb (bool_decide (head nm = Some 46)) && bool_decide (Z.of_nat (length (text "/sys/class/net/" ++ nm ++ text "/flags")) < 4095) &&
  match file with
  | None => false
  | Some p => let flags := (parse_num 0 (takewhile_nz (take 254 p))).1 in negb (Z.testbit flags 3) && (Z.testbit flags 1 || Z.testbit flags 4)
  end.

(** What the kernel says about an interface; it is asked with the first 15
    characters of the name. *)
Definition kernel_name (nm : list Z) : list Z := take 15 (takewhile_nz nm).
Definition said_of (nm : list Z) : iface := iface_of (kernel_name nm).

(** The interface has an index, an MTU, flags, and an address of Ethernet,
    EUI-64 or the loopback. *)
Definition responds (nm : list Z) : bool :=
  socket && match i_index (said_of nm), i_mtu (said_of nm), i_hwaddr (said_of nm), i_flags (said_of nm) with
            | Some _, Some _, Some (family, _), Some _ => bool_decide (family ∈ [1; 27; 772])
            | _, _, _, _ => false
            end.

(** The device for it, when [c] are the protocols of the option -c: those of
    [c] that ip=dhcp allows, and none if it cannot broadcast or its packets are
    too small.  It has the hardware address of the interface, and no other. *)
Definition dhcp_device (c : Z) (nm : list Z) (d : netdev) : Prop :=
  ∃ index m family sa fl rand, i_index (said_of nm) = Some index ∧ i_mtu (said_of nm) = Some m ∧ i_hwaddr (said_of nm) = Some (family, sa) ∧ i_flags (said_of nm) = Some fl ∧
    let len := if family =? 1 then 6%nat else if family =? 27 then 8%nat else 0%nat in
    let able := (364 <=? u32 m) && Z.testbit fl 1 in
    d = mk_netdev nm family (Z.of_nat len) (overwrite (replicate 16 0) (take len sa)) (replicate len 255 ++ replicate (16 - len) 0) (u32 index) (u32 m)
      (if able then Z.land c 3 else 0) (if able then clock e else 0) (if able then u32 rand else 0)
      0 0 0 0 0 0 0 0 0 (replicate 65 0) (replicate 65 0) (replicate 65 0) (replicate 65 0) (replicate 256 0) (replicate 128 0).

(** A device that waits for its first answer *)
Definition waiting (d : netdev) : state :=
  let st := if Z.testbit (caps d) 1 then DEVST_DHCPDISC else DEVST_BOOTP in mk_state st st (clock e) 1 d.

Lemma land_bit x k : 0 <= k → (Z.land x (2 ^ k) =? 0) = negb (Z.testbit x k).
Proof.
  intros Hk. apply eq_true_iff_eq. rewrite Z.eqb_eq, negb_true_iff. split; intros H.
  - pose proof (f_equal (λ y, Z.testbit y k) H) as E. cbn beta in E. rewrite Z.land_spec, Z.pow2_bits_true, Z.bits_0, andb_true_r in E by done. exact E.
  - apply Z.bits_inj'. intros i Hi. rewrite Z.land_spec, Z.bits_0, Z.pow2_bits_eqb by done. destruct (Z.eqb_spec k i) as [<- |]; [by rewrite H | apply andb_false_r].
Qed.

Lemma bootable_suitable nm file : bootable nm file = suitable (nm, file).
Proof.
  unfold bootable, suitable. change (Z.of_nat (length sysfs_class_net)) with 14. rewrite !length_app. change (length (text "/sys/class/net/")) with 15%nat. change (length (text "/flags")) with 6%nat. change (PATH_MAX - 1) with 4095.
  destruct (bool_decide (head nm = Some 46)); [done |]. cbn [negb andb]. destruct (Z.leb_spec 4095 (14 + 1 + Z.of_nat (length nm) + 6)); [by rewrite bool_decide_false by lia |].
  rewrite bool_decide_true by lia. cbn [andb]. destruct file as [p |]; [| done]. cbv zeta. set (flags := (parse_num 0 _).1).
  rewrite Z.land_lor_distr_r. assert ((Z.lor (Z.land flags IFF_BROADCAST) (Z.land flags IFF_POINTOPOINT) =? 0) = (Z.land flags IFF_BROADCAST =? 0) && (Z.land flags IFF_POINTOPOINT =? 0)) as ->.
  { apply eq_true_iff_eq. by rewrite andb_true_iff, !Z.eqb_eq, Z.lor_eq_0_iff. }
  change IFF_LOOPBACK with (2 ^ 3). change IFF_BROADCAST with (2 ^ 1). change IFF_POINTOPOINT with (2 ^ 4). rewrite !land_bit by done. by destruct (Z.testbit flags 3), (Z.testbit flags 1), (Z.testbit flags 4).
Qed.

(** What becomes of an interface that answers, as one equation *)
Lemma init_with_eq c nm r : init_with (named c nm) r =
  match i_index (said_of nm), i_mtu (said_of nm), i_hwaddr (said_of nm), i_flags (said_of nm) with
  | Some index, Some m, Some (family, sa), Some fl =>
      let len := if family =? 1 then 6%nat else if family =? 27 then 8%nat else 0%nat in
      let able := (364 <=? u32 m) && Z.testbit fl 1 in
      if socket && bool_decide (family ∈ [1; 27; 772]) then
        Some (mk_netdev nm family (Z.of_nat len) (overwrite (replicate 16 0) (take len sa)) (replicate len 255 ++ replicate (16 - len) 0) (u32 index) (u32 m)
          (if able then c else Z.land c (Z.lnot 3)) (if able then clock e else 0) (if able then u32 r else 0)
          0 0 0 0 0 0 0 0 0 (replicate 65 0) (replicate 65 0) (replicate 65 0) (replicate 65 0) (replicate 256 0) (replicate 128 0))
      else None
  | _, _, _, _ => None
  end.
Proof.
  unfold init_with. change (iface_of (ifr_name (named c nm))) with (said_of nm). unfold netdev_init_if. destruct (said_of nm) as [index m hw addr brd mask fl sf].
  cbn [i_index i_mtu i_hwaddr i_flags i_addr i_brdaddr i_netmask]. destruct socket; [| by destruct index, m, hw as [[? ?] |], fl]. cbn [negb andb].
  destruct index as [index |]; [| done]. destruct m as [m |]; [| done]. destruct hw as [[family sa] |]; [| done].
  assert (bool_decide (family ∈ [1; 27; 772]) = (family =? 1) || (family =? 27) || (family =? 772)) as ->.
  { apply eq_true_iff_eq. rewrite bool_decide_eq_true, !orb_true_iff, !Z.eqb_eq, !elem_of_cons, elem_of_nil. tauto. }
  unfold ARPHRD_ETHER, ARPHRD_EUI64, ARPHRD_LOOPBACK. destruct fl as [fl |].
  - change IFF_BROADCAST with (2 ^ 1). assert (∀ x, (x <? 364) || (Z.land fl (2 ^ 1) =? 0) = negb ((364 <=? x) && Z.testbit fl 1)) as Hable by (intros x; rewrite land_bit, negb_andb, Z.leb_antisym by done; by rewrite negb_involutive).
    destruct (family =? 1); [| destruct (family =? 27); [| destruct (family =? 772); [| done]]]; cbv zeta; cbn [orb]; unfold bootp_init_if, gif_addr; cbn [ip_addr ip_broadcast ip_netmask named zero_dev set_name set_caps set_ifindex set_mtu set_hwlen set_hwtype set_hwaddr set_hwbrd Z.eqb andb mtu INADDR_NONE];
      change IFF_BROADCAST with (2 ^ 1); rewrite Hable; by destruct ((364 <=? u32 m) && Z.testbit fl 1).
  - destruct (family =? 1); [| destruct (family =? 27); [| destruct (family =? 772)]]; done.
Qed.

Lemma usable_responds c nm : usable c nm = responds nm.
Proof. unfold usable, responds. rewrite init_with_eq. repeat case_match; simplify_eq; try done; by rewrite ?andb_false_r. Qed.

Lemma device_of_dhcp c nm d : device_of (set_caps 3 zero_dev) c nm d → dhcp_device c nm d.
Proof.
  intros (r & d0 & E & ->). rewrite init_with_eq in E. unfold dhcp_device. destruct (i_index (said_of nm)) as [index |]; [| done]. destruct (i_mtu (said_of nm)) as [m |]; [| done].
  destruct (i_hwaddr (said_of nm)) as [[family sa] |]; [| done]. destruct (i_flags (said_of nm)) as [fl |]; [| done]. cbv zeta in E. destruct (socket && _); [| done]. injection E as <-.
  exists index, m, family, sa, fl, r. split_and!; [done | done | done | done |]. cbv zeta. unfold merge_template, set_caps. cbn. f_equal. destruct (_ && _); [done |].
  rewrite <- Z.land_assoc. change (Z.land (Z.lnot 3) 3) with 0. apply Z.land_0_r.
Qed.

Lemma caps_below c : Z.land c 3 ≠ 0 → Z.testbit (Z.land c 3) 1 = false → (Z.land (Z.land c 3) CAP_BOOTP =? 0) = false.
Proof.
  intros H0 H1. change CAP_BOOTP with (2 ^ 0). rewrite land_bit by done. apply negb_false_iff, not_false_iff_true. intros H2. apply H0, Z.bits_inj'. intros i Hi. rewrite Z.bits_0.
  destruct (Z.eqb_spec i 0) as [-> |]; [done |]. destruct (Z.eqb_spec i 1) as [-> |]; [done |]. rewrite Z.land_spec. change 3 with (Z.ones 2). rewrite Z.ones_spec_high by lia. apply andb_false_r.
Qed.

Lemma new_state_waiting c nm d : dhcp_device c nm d → caps d ≠ 0 → new_state d = waiting d.
Proof.
  intros (index & m & family & sa & fl & r & _ & _ & _ & _ & ->) Hc. cbv zeta in *. unfold new_state, waiting. cbn [caps ip_addr] in *. destruct (_ && _); [| done]. change CAP_DHCP with (2 ^ 1). rewrite land_bit by done.
  destruct (Z.testbit (Z.land c 3) 1) eqn:E1; cbn [negb andb Z.eqb INADDR_ANY default]; [done |]. by rewrite caps_below.
Qed.

End devices.

(** ** Examples *)

Definition example_iface : iface := mk_iface (Some 2) (Some 1500) (Some (ARPHRD_ETHER, [82; 84; 0; 18; 52; 86; 0; 0; 0; 0; 0; 0; 0; 0])) (Some 99) None None (Some 0x1002) true.
Definition example_net : list (list Z * option (list Z)) :=
  [(text ".", None); (text "lo", Some (text "0x9")); (text "eth0", Some (text "0x1002")); (text "eth1", None); (text "eth2", Some (text "0x1003"))].
Definition example_ipc : ipc := mk_ipc [] example_globals false 7 (-1) (srand48 1) [].

(** Of these, eth0 and eth2 are found. *)
Example dhcp_found :
  match ipconfig_start (λ _, example_iface) true (Some example_net) (example_env []) true (Some (0, 0)) 2 true 0 0 [text "ipconfig"; text "ip=dhcp"] example_ipc with
  | Ret (again, s) => Some (again, (λ x, (name (dev x), state_ x, caps (dev x), ip_addr (dev x), hwaddr (dev x))) <$> slist s, flagged s)
  | _ => None
  end = Some (true, [(text "eth2", DEVST_DHCPDISC, 3, 0, [82; 84; 0; 18; 52; 86; 0; 0; 0; 0; 0; 0; 0; 0; 0; 0]); (text "eth0", DEVST_DHCPDISC, 3, 0, [82; 84; 0; 18; 52; 86; 0; 0; 0; 0; 0; 0; 0; 0; 0; 0])],
              [(text "eth0", 0x1003); (text "eth2", 0x1003)]).
Proof. vm_compute. reflexivity. Qed.

Lemma example_net_plain : Forall (λ x, suitable x = true → plain x.1) example_net.
Proof.
  assert (plain (text "eth0") ∧ plain (text "eth2")) as [H0 H2] by (unfold plain; split_and!; apply (bool_decide_unpack _); by vm_compute).
  apply Forall_forall. unfold example_net. intros x Hx. repeat (apply elem_of_cons in Hx as [-> | Hx]; [cbn [fst]; intros Hs; first [exact H0 | exact H2 | by vm_compute in Hs] |]).
  by apply not_elem_of_nil in Hx.
Qed.

Lemma all_devices_added_witness : ∃ (devs : list netdev) s', add_device (λ _, example_iface) true (Some example_net) (example_env []) true (Some (0, 0)) 2 (text "all") example_ipc = Ret (None, s') ∧
  length devs = 2%nat ∧ bringup_first s' = true.
Proof.
  destruct (all_devices_added (λ _, example_iface) true example_net (example_env []) 0 0 0 (text "all") example_ipc (set_name (text "all") (set_caps 7 zero_dev)) true)
    as (devs & s' & E & F & _ & _ & _ & _ & B).
  - reflexivity.
  - eapply Forall_impl; [exact example_net_plain |]. intros [nm file] Hx Hb. apply Hx. by rewrite <- bootable_suitable.
  - exists devs, s'. split; [exact E |]. split; [| exact B]. apply Forall2_length in F. rewrite <- F. vm_compute. reflexivity.
Defined.

