(* ===== verification/Mkdir.v ===== *)
(** * Making directories: [utils/mkdir.c]

    The file system is a map from the components of a path (from the root) to
    directories with their permissions, or to something else; names mean
    themselves (no links, no "..").  The kernel masks the permissions of a new
    directory with 1777 octal, [chmod] with 7777; the umask is 0 when the program
    runs.  A parameter says where the user may not write.

    The theorems: with -p, all directories of the path exist in the end, those
    there before are as they were, the new ones have the default permissions
    and the last one those that were asked for, unless the path ends with a
    slash; a failure to set them removes what was made. *)

From stdpp Require Import base numbers list gmap strings.
From Stdlib Require Import Lia.
From S2P Require Import Prelude Getopt FileMode Ipconfig.

#[local] Set Warnings "-register-all".

Inductive object := Directory (mode : Z) | Other.
Abbreviation filesys := (gmap (list (list Z)) object).

(** The components of a path: between slashes, not empty *)
Fixpoint parts (cur l : list Z) : list (list Z) :=
  match l with
  | [] => [cur]
  | c :: l => if c =? 47 then cur :: parts [] l else parts (cur ++ [c]) l
  end.
Definition components (path : list Z) : list (list Z) := filter (λ c, c ≠ []) (parts [] path).

Definition EEXIST : Z := 17.
Definition ENOENT : Z := 2.
Definition EACCES : Z := 13.
Definition ENOTDIR : Z := 20.

Section code.
(** Directories the user may not write to, and paths whose permissions may not
    be changed *)
Context (denied unchangeable : list (list Z) → bool).

(** ** The kernel *)

(** [errno], if the call fails *)
Definition mkdir (dir : list Z) (mode : Z) (f : filesys) : option Z * filesys :=
  let q := components dir in
  match f !! q with
  | Some _ => (Some EEXIST, f)
  | None =>
      match f !! take (pred (length q)) q with
      | None => (Some ENOENT, f)
      | Some Other => (Some ENOTDIR, f)
      | Some (Directory _) => if denied (take (pred (length q)) q) then (Some EACCES, f) else (None, <[q := Directory (Z.land mode 0x3ff)]> f)
      end
  end.
Definition chmod (dir : list Z) (mode : Z) (f : filesys) : bool * filesys :=
  let q := components dir in
  match f !! q with
  | Some (Directory _) => if unchangeable q then (false, f) else (true, <[q := Directory (Z.land mode 0xfff)]> f)
  | _ => (false, f)
  end.
Definition rmdir (dir : list Z) (f : filesys) : filesys := delete (components dir) f.

(** ** The code *)

Context (p_flag : bool) (leaf_mode subdir_mode : Z).

Definition make_one_dir (dir : list Z) (mode : Z) (f : filesys) : Z * filesys :=
  match mkdir dir mode f with
  | (None, f) => (0, f)
  | (Some err, f) =>
      if p_flag && (err =? EEXIST) && match f !! components dir with Some (Directory _) => true | _ => false end then (1, f) else (-1, f)
  end.

(** The loop over the slashes: [seen] is what stands before [p] *)
Fixpoint make_parents (seen rest : list Z) (f : filesys) : Z * filesys :=
  match rest with
  | [] => (0, f)
  | c :: rest =>
      if (c =? 47) && negb (bool_decide (seen = [])) then
        let '(r, f) := make_one_dir seen subdir_mode f in
        if r =? -1 then (-1, f) else make_parents (seen ++ [c]) rest f
      else make_parents (seen ++ [c]) rest f
  end.

Definition make_dir (dir : list Z) (f : filesys) : Z * filesys :=
  let '(r, f) := if p_flag then make_parents [] dir f else (0, f) in
  if r =? -1 then (-1, f)
  else
    let '(ret, f) := make_one_dir dir leaf_mode f in
    if ret =? -1 then (-1, f)
    else if ret =? 0 then
      let '(ok, f) := chmod dir leaf_mode f in
      if ok : bool then (0, f) else (-1, rmdir dir f)
    else (0, f).

Fixpoint make_dirs (dirs : list (list Z)) (ret : Z) (f : filesys) : Z * filesys :=
  match dirs with
  | [] => (ret, f)
  | dir :: dirs => let '(r, f) := make_dir dir f in make_dirs dirs (if negb (r =? 0) then 255 else ret) f
  end.
End code.

(** [main]: the modes from the umask and the options; [None] is the message about
    the usage (or about a mode that cannot be understood). *)
Definition leaf_default (saved_umask : Z) : Z := Z.land 0x1ff (Z.lnot saved_umask).
Definition subdir_default (saved_umask : Z) : Z := Z.lor (Z.lxor saved_umask 0x1ff) 0xc0.

Fixpoint mkdir_options (saved_umask : Z) (evs : list Getopt.event) (leaf_mode : Z) (p_flag : bool) : option (Z * bool) :=
  match evs with
  | [] => Some (leaf_mode, p_flag)
  | Getopt.Opt c arg :: evs =>
      if c =? 109 then
        m ← parse_file_mode (default [] arg) leaf_mode saved_umask; mkdir_options saved_umask evs m p_flag
      else if c =? 112 then mkdir_options saved_umask evs leaf_mode true
      else mkdir_options saved_umask evs leaf_mode p_flag
  | _ => None
  end.

Definition mkdir_main (denied unchangeable : list (list Z) → bool) (saved_umask : Z) (argv : list (list Z)) (f : filesys) : option (Z * filesys) :=
  '(evs, dirs) ← events (text "pm:") (S (work [] (drop 1 argv))) [] (drop 1 argv);
  '(leaf, p_flag) ← mkdir_options saved_umask evs (leaf_default saved_umask) false;
  if bool_decide (dirs = []) then None
  else Some (make_dirs denied unchangeable p_flag leaf (subdir_default saved_umask) dirs 0 f).

(** ** Components *)

Lemma parts_app cur a b : parts cur (a ++ 47 :: b) = parts cur a ++ parts [] b.
Proof. revert cur. induction a as [| c a IH]; intros cur; [done |]. cbn [app parts]. destruct (c =? 47); [cbn; by rewrite IH | apply IH]. Qed.

Lemma components_app a b : components (a ++ 47 :: b) = components a ++ components b.
Proof. unfold components. by rewrite parts_app, filter_app. Qed.

Lemma parts_word cur w : 47 ∉ w → parts cur w = [cur ++ w].
Proof.
  revert cur. induction w as [| c w IH]; intros cur Hw; [by rewrite app_nil_r |]. apply not_elem_of_cons in Hw as [Hc Hw]. cbn [parts].
  rewrite (proj2 (Z.eqb_neq c 47)) by done. by rewrite IH, <- app_assoc.
Qed.

Lemma components_word w : 47 ∉ w → components w = if bool_decide (w = []) then [] else [w].
Proof. intros Hw. unfold components. rewrite parts_word, app_nil_l, filter_cons, filter_nil by done. case_bool_decide; case_decide; done. Qed.

(** A path is words with slashes between them. *)
Fixpoint join (ws : list (list Z)) (last : list Z) : list Z := match ws with [] => last | w :: ws => w ++ 47 :: join ws last end.
Definition words_ok (ws : list (list Z)) (last : list Z) : Prop := Forall (λ w, 47 ∉ w) (ws ++ [last]).

Lemma join_exists path : ∃ ws last, path = join ws last ∧ words_ok ws last.
Proof.
  induction path as [| c path (ws & last & -> & H)]; [exists [], []; split; [done | repeat constructor; set_solver] |].
  destruct (decide (c = 47)) as [-> | Hc].
  - exists ([] :: ws), last. split; [done |]. constructor; [set_solver | exact H].
  - destruct ws as [| w ws]; unfold words_ok in *; cbn in *.
    + exists [], (c :: last). split; [done |]. apply Forall_cons in H as [H _]. repeat constructor. set_solver.
    + exists ((c :: w) :: ws), last. split; [done |]. apply Forall_cons in H as [H Hs]. constructor; [set_solver | exact Hs].
Qed.

Lemma components_join ws last : words_ok ws last → components (join ws last) = filter (λ c, c ≠ []) (ws ++ [last]).
Proof.
  unfold words_ok. induction ws as [| w ws IH]; intros H; cbn [app join] in *; apply Forall_cons in H as [Hw H].
  - rewrite components_word, filter_cons, filter_nil by done. case_bool_decide; case_decide; done.
  - rewrite components_app, IH, components_word, filter_cons by done. case_bool_decide; case_decide; done.
Qed.

(** ** Making the missing directories *)

Definition ensure (mode : Z) (f : filesys) (q : list (list Z)) : filesys := match f !! q with Some _ => f | None => <[q := Directory mode]> f end.
Fixpoint ensure_below (mode : Z) (base cs : list (list Z)) (f : filesys) : filesys :=
  match cs with [] => f | c :: cs => ensure_below mode (base ++ [c]) cs (ensure mode f (base ++ [c])) end.

Lemma ensure_lookup mode f q r : ensure mode f q !! r = match f !! r with Some o => Some o | None => if bool_decide (r = q) then Some (Directory mode) else None end.
Proof.
  unfold ensure. destruct (f !! q) as [o |] eqn:E.
  - case_bool_decide; [subst r; by rewrite E | by destruct (f !! r)].
  - rewrite lookup_insert. case_decide as H; [subst r; by rewrite E, bool_decide_true | rewrite bool_decide_false by congruence; by destruct (f !! r)].
Qed.

Lemma ensure_below_lookup mode cs : ∀ base f r, ensure_below mode base cs f !! r =
  match f !! r with Some o => Some o | None => if bool_decide (base ++ [] ≠ r ∧ base `prefix_of` r ∧ r `prefix_of` base ++ cs) then Some (Directory mode) else None end.
Proof.
  induction cs as [| c cs IH]; intros base f r; cbn [ensure_below].
  - destruct (f !! r); [done |]. rewrite bool_decide_false; [done |]. rewrite app_nil_r. intros (H1 & H2 & H3). apply H1. by apply (anti_symm prefix).
  - rewrite IH, ensure_lookup. destruct (f !! r); [done |]. destruct (decide (r = base ++ [c])) as [-> | Hr].
    + rewrite bool_decide_true, (bool_decide_true (_ ≠ _ ∧ _)); [done | | done]. rewrite app_nil_r. split_and!; [| by apply prefix_app_r | by apply prefix_app, prefix_cons, prefix_nil].
      intros H. apply (f_equal length) in H. rewrite length_app in H. cbn in H. lia.
    + rewrite (bool_decide_false (r = _)) by done. rewrite !app_nil_r, <- app_assoc. apply (f_equal (λ b : bool, if b then Some (Directory mode) else None)). apply bool_decide_ext. split.
      * intros (H1 & H2 & H3). split_and!; [| etrans; [by apply prefix_app_r | exact H2] | exact H3].
        intros <-. destruct H2 as [k H2]. apply (f_equal length) in H2. rewrite !length_app in H2. cbn in H2. lia.
      * intros (H1 & [k ->] & H3). apply prefix_app_inv in H3. destruct k as [| x k]; [by rewrite app_nil_r in H1 |]. apply prefix_cons_inv_1 in H3 as Hx. subst x.
        split_and!; [done | exists k; by rewrite <- app_assoc | by apply prefix_app].
Qed.

Lemma last_join ws w : words_ok ws w → ws ≠ [] ∨ w ≠ [] → (last (join ws w) = Some 47 ↔ w = []).
Proof.
  unfold words_ok. induction ws as [| v ws IH]; intros Hw Hne; cbn [join app] in *; apply Forall_cons in Hw as [Hv Hw].
  - destruct Hne as [| Hne]; [done |]. destruct w as [| c w]; [done |]. split; [| done]. intros Hl. exfalso. apply Hv. apply last_Some in Hl as [l' ->]. set_solver.
  - rewrite last_app. cbn [last]. destruct (join ws w) as [| c l] eqn:Ej.
    + split; [| done]. intros _. destruct ws as [| u ws]; [exact Ej |]. cbn in Ej. by apply app_nil in Ej as [_ ?].
    + assert (ws ≠ [] ∨ w ≠ []) as Hne' by (destruct ws; [right; cbn in Ej; by rewrite Ej | by left]). specialize (IH Hw Hne'). change (last (47 :: c :: l)) with (last (c :: l)). destruct (last (c :: l)) eqn:El; [exact IH |]. by apply last_None in El.
Qed.

Lemma prefix_below (q cs : list (list Z)) w : q `prefix_of` cs ++ [w] → cs ++ [w] ≠ q → q `prefix_of` cs.
Proof.
  intros [k Hk] Hne. destruct k as [| x k]; [by rewrite app_nil_r in Hk |]. destruct (exists_last (l := x :: k)) as (k' & y & Ek); [done |].
  rewrite Ek, app_assoc in Hk. apply app_inj_tail in Hk as [-> _]. by apply prefix_app_r.
Qed.

Section making.
Context (denied unchangeable : list (list Z) → bool) (leaf_mode subdir_mode : Z) (Hwrite : ∀ q, denied q = false).
Abbreviation one := (make_one_dir denied true).
Abbreviation sub := (Z.land subdir_mode 0x3ff).

(** A missing directory below one that is there, and one that is there *)
Lemma make_missing dir mode f base c m : components dir = base ++ [c] → f !! (base ++ [c]) = None → f !! base = Some (Directory m) →
  one dir mode f = (0, <[base ++ [c] := Directory (Z.land mode 0x3ff)]> f).
Proof using Hwrite.
  intros Hc Hn Hb. unfold make_one_dir, mkdir. rewrite Hc, Hn. replace (take (pred (length (base ++ [c]))) (base ++ [c])) with base; [by rewrite Hb, Hwrite |].
  rewrite length_app. cbn [length]. replace (pred (length base + 1)) with (length base) by lia. by rewrite take_app_length.
Qed.

Lemma make_present dir mode f m : f !! components dir = Some (Directory m) → one dir mode f = (1, f).
Proof using Type. intros H. unfold make_one_dir, mkdir. by rewrite H, H. Qed.

Lemma make_parents_word seen w rest f : 47 ∉ w → make_parents denied true subdir_mode seen (w ++ rest) f = make_parents denied true subdir_mode (seen ++ w) rest f.
Proof using Type.
  revert seen. induction w as [| c w IH]; intros seen Hw; [by rewrite app_nil_r |]. apply not_elem_of_cons in Hw as [Hc Hw]. cbn [app make_parents].
  rewrite (proj2 (Z.eqb_neq c 47)) by done. cbn [andb]. by rewrite IH, <- app_assoc.
Qed.

(** [seen] is at the beginning of a word *)
Definition at_word (seen : list Z) : Prop := seen = [] ∨ ∃ s, seen = s ++ [47].

Lemma components_at seen w : at_word seen → components (seen ++ w) = components seen ++ components w.
Proof using Type.
  intros [-> | [s ->]]; [done |]. rewrite <- app_assoc. cbn [app]. rewrite !components_app. cbn. by rewrite app_nil_r.
Qed.

Lemma make_parents_ok ws : ∀ seen last f, at_word seen → words_ok ws last → (∃ m, f !! components seen = Some (Directory m)) →
  (∀ q, q `prefix_of` components seen ++ filter (λ c, c ≠ []) ws → f !! q ≠ Some Other) →
  let f' := ensure_below sub (components seen) (filter (λ c, c ≠ []) ws) f in
  make_parents denied true subdir_mode seen (join ws last) f = (0, f') ∧ (∃ m, f' !! (components seen ++ filter (λ c, c ≠ []) ws) = Some (Directory m)).
Proof using Hwrite.
  induction ws as [| w ws IH]; intros seen last f Hat Hw Hb Hfree; cbv zeta.
  - rewrite !filter_nil, app_nil_r. cbn [ensure_below]. apply Forall_cons in Hw as [Hw _]. cbn [join]. split; [| exact Hb]. rewrite <- (app_nil_r last), make_parents_word by done. done.
  - apply Forall_cons in Hw as [Hw Hws]. cbn [join]. rewrite make_parents_word by done. cbn [make_parents]. change (47 =? 47) with true. cbn [andb].
    assert (at_word ((seen ++ w) ++ [47])) as Hat' by (right; by eexists).
    assert (components ((seen ++ w) ++ [47]) = components seen ++ components w) as Hc by (rewrite components_app, (components_at seen w Hat); cbn; by rewrite app_nil_r).
    rewrite (components_word w) in Hc by done. destruct (decide (w = [])) as [-> | Hne].
    + rewrite app_nil_r in *. rewrite filter_cons, decide_False in * by (by intros H). cbn in Hc. rewrite app_nil_r in Hc.
      destruct (IH (seen ++ [47]) last f Hat' Hws) as [E D]; [by rewrite Hc | by rewrite Hc |]. rewrite Hc in E, D. split; [| exact D].
      case_bool_decide; cbn [negb]; [exact E |]. destruct Hb as [m Hb]. rewrite (make_present seen subdir_mode f m Hb). exact E.
    + rewrite bool_decide_false in Hc by done. rewrite (filter_cons _ w), decide_True in * by done. cbn [ensure_below].
      rewrite bool_decide_false by (by intros [_ ?]%app_nil). cbn [negb].
      assert (components (seen ++ w) = components seen ++ [w]) as Hcw by (rewrite (components_at seen w Hat), (components_word w), bool_decide_false by done; done).
      set (f1 := ensure sub f (components seen ++ [w])).
      assert (∃ r, r ≠ -1 ∧ one (seen ++ w) subdir_mode f = (r, f1) ∧ ∃ m, f1 !! (components seen ++ [w]) = Some (Directory m)) as (r & Hr & E1 & D1).
      { unfold f1, ensure. destruct (f !! (components seen ++ [w])) as [[m |] |] eqn:Ef.
        - exists 1. rewrite <- Hcw in Ef. rewrite (make_present _ subdir_mode f m Ef). split_and!; [done | done | rewrite Hcw in Ef; by exists m].
        - exfalso. eapply Hfree; [| exact Ef]. by apply prefix_app, prefix_cons, prefix_nil.
        - destruct Hb as [m Hb]. exists 0. rewrite (make_missing _ subdir_mode f _ _ m Hcw Ef Hb). split_and!; [done | done |]. rewrite lookup_insert_eq. by eexists. }
      rewrite E1, (proj2 (Z.eqb_neq r (-1))) by done.
      destruct (IH ((seen ++ w) ++ [47]) last f1 Hat' Hws) as [E D].
      { by rewrite Hc. }
      { rewrite Hc, <- app_assoc. intros q Hq. unfold f1. rewrite ensure_lookup. specialize (Hfree q Hq). destruct (f !! q); [done |]. by case_bool_decide. }
      rewrite Hc in E, D. split; [exact E |]. by rewrite <- app_assoc in D.
Qed.

(** [mkdir -p] of any path through directories, with the rights to do it: it
    succeeds, all directories of the path are there, what was there before is
    unchanged, and what is new has the default permissions, except that the last
    directory has those that were asked for, if no slash is behind it. *)
Theorem mkdir_p_correct path f : (∀ q, unchangeable q = false) → (∃ m, f !! [] = Some (Directory m)) → (∀ q, q `prefix_of` components path → f !! q ≠ Some Other) →
  ∃ f', make_dir denied unchangeable true leaf_mode subdir_mode path f = (0, f') ∧
    ∀ q, f' !! q = match f !! q with
                   | Some o => Some o
                   | None => if bool_decide (q `prefix_of` components path)
                             then Some (Directory (if bool_decide (q = components path ∧ last path ≠ Some 47) then Z.land leaf_mode 0xfff else sub)) else None
                   end.
Proof using Hwrite.
  intros Hch [m0 Hroot] Hfree. destruct (join_exists path) as (ws & w & -> & Hw). rewrite (components_join ws w Hw) in *. rewrite filter_app in *.
  set (cs := filter (λ c, c ≠ []) ws) in *.
  destruct (make_parents_ok ws [] w f) as [E [m D]]; [by left | done | by exists m0 | |].
  { intros q Hq. apply Hfree. cbn in Hq. by apply prefix_app_r. }
  cbn [components parts app filter] in E, D. change (components []) with (@nil (list Z)) in *. cbn [app] in D. fold cs in E, D. set (f1 := ensure_below sub [] cs f) in *.
  assert (∀ q, f1 !! q = match f !! q with Some o => Some o | None => if bool_decide (q `prefix_of` cs) then Some (Directory sub) else None end) as Hf1.
  { intros q. unfold f1. rewrite ensure_below_lookup. destruct (f !! q) eqn:Eq; [done |]. apply (f_equal (λ b : bool, if b then Some (Directory sub) else None)), bool_decide_ext. cbn.
    split; [by intros (_ & _ & ?) |]. intros Hq. split_and!; [| apply prefix_nil | done]. intros <-. congruence. }
  unfold make_dir. rewrite E. cbn [Z.eqb]. change (0 =? -1) with false. cbv iota.
  destruct (decide (w = [])) as [-> | Hne].
  - assert (components (join ws []) = cs) as Hc by (rewrite components_join by done; rewrite filter_app; cbn; by rewrite app_nil_r).
    rewrite <- Hc in D. rewrite (make_present _ leaf_mode f1 m D). exists f1. split; [done |]. intros q. rewrite filter_cons, filter_nil, decide_False, app_nil_r, Hf1 by (by intros H).
    destruct (f !! q) eqn:Eq; [done |]. case_bool_decide; [| done]. do 2 f_equal. rewrite bool_decide_false; [done |]. intros [-> Hl].
    destruct (decide (ws = [])) as [-> | Hws]; [cbn in *; congruence |]. apply Hl. apply last_join; [done | by left | done].
  - assert (components (join ws w) = cs ++ [w]) as Hc by (rewrite components_join, filter_app by done; rewrite filter_cons, filter_nil, decide_True by done; done).
    rewrite filter_cons, filter_nil, decide_True in * by done.
    assert (last (join ws w) ≠ Some 47) as Hl by (rewrite last_join by auto; done).
    destruct (f1 !! (cs ++ [w])) as [[m1 |] |] eqn:Ef.
    + rewrite <- Hc in Ef. rewrite (make_present _ leaf_mode f1 m1 Ef). exists f1. split; [done |]. intros q. rewrite Hf1. rewrite Hc, Hf1 in Ef.
      destruct (f !! q) eqn:Eq; [done |]. destruct (f !! (cs ++ [w])) eqn:E2.
      * assert (q ≠ cs ++ [w]) as Hq by congruence. rewrite (bool_decide_false (q = _ ∧ _)) by tauto.
        apply (f_equal (λ b : bool, if b then Some (Directory sub) else None)), bool_decide_ext. split; [apply prefix_app_r | intros; by apply (prefix_below q cs w)].
      * rewrite bool_decide_false in Ef; [done |]. intros [k Hk]. apply (f_equal length) in Hk. rewrite !length_app in Hk. cbn in Hk. lia.
    + rewrite Hf1 in Ef. destruct (f !! (cs ++ [w])) eqn:E2; [| by case_bool_decide]. simplify_eq. exfalso. by apply (Hfree (cs ++ [w])).
    + rewrite (make_missing _ leaf_mode f1 _ _ m Hc Ef D). change (0 =? -1) with false. change (0 =? 0) with true. cbv iota. unfold chmod. rewrite Hc, lookup_insert_eq, Hch, insert_insert_eq.
      eexists. split; [reflexivity |]. intros q. rewrite lookup_insert. rewrite Hf1 in Ef. destruct (f !! (cs ++ [w])) eqn:E2; [done |]. destruct (decide (cs ++ [w] = q)) as [Hq | Hq].
      * subst q. rewrite E2, (bool_decide_true (_ `prefix_of` _)) by done. by rewrite (bool_decide_true (_ ∧ _)).
      * rewrite Hf1. destruct (f !! q) eqn:Eq; [done |]. rewrite (bool_decide_false (q = _ ∧ _)) by (intros [? _]; congruence).
        apply (f_equal (λ b : bool, if b then Some (Directory sub) else None)), bool_decide_ext. split; [apply prefix_app_r | intros; by apply (prefix_below q cs w)].
Qed.
End making.

(** A directory whose permissions cannot be set is removed again. *)
Theorem make_dir_undone denied unchangeable leaf_mode subdir_mode path f base c m : components path = base ++ [c] → f !! (base ++ [c]) = None → f !! base = Some (Directory m) →
  denied base = false → unchangeable (base ++ [c]) = true → make_dir denied unchangeable false leaf_mode subdir_mode path f = (-1, f).
Proof.
  intros Hc Hn Hb Hd Hu. unfold make_dir, make_one_dir, mkdir. change (0 =? -1) with false. cbv iota. rewrite Hc, Hn.
  replace (take (pred (length (base ++ [c]))) (base ++ [c])) with base.
  2: { rewrite length_app. cbn [length]. replace (pred (length base + 1)) with (length base) by lia. by rewrite take_app_length. }
  rewrite Hb, Hd. change (0 =? -1) with false. change (0 =? 0) with true. cbv iota. unfold chmod. rewrite Hc, lookup_insert_eq, Hu. unfold rmdir. by rewrite Hc, delete_insert_id.
Qed.

(** ** Examples *)

Definition empty_root : filesys := {[ [] := Directory 0x1ed ]}.
Definition mkdir_run (argv : list (list Z)) : option (Z * option object * option object) :=
  (λ r, (r.1, r.2 !! [text "a"], r.2 !! [text "a"; text "b"])) <$> mkdir_main (λ _, false) (λ _, false) 0x12 argv empty_root.

Example mkdir_modes : mkdir_run [text "mkdir"; text "-p"; text "-m"; text "700"; text "a//b"] = Some (0, Some (Directory 0x1ed), Some (Directory 0x1c0)).
Proof. vm_compute. reflexivity. Qed.

(** With a slash at the end the mode is not used. *)
Example mkdir_slash : mkdir_run [text "mkdir"; text "-p"; text "-m"; text "700"; text "a/b/"] = Some (0, Some (Directory 0x1ed), Some (Directory 0x1ed)).
Proof. vm_compute. reflexivity. Qed.

Example mkdir_no_parent : mkdir_run [text "mkdir"; text "a/b"; text "a"] = Some (255, Some (Directory 0x1ed), None).
Proof. vm_compute. reflexivity. Qed.

Lemma mkdir_p_correct_witness : ∃ f', make_dir (λ _, false) (λ _, false) true 0x1c0 0x1ed (text "/a/b") empty_root = (0, f') ∧ f' !! [text "a"; text "b"] = Some (Directory 0x1c0).
Proof.
  destruct (mkdir_p_correct (λ _, false) (λ _, false) 0x1c0 0x1ed (λ _, eq_refl) (text "/a/b") empty_root) as (f' & E & H).
  - done.
  - by exists 0x1ed.
  - intros q _. unfold empty_root. rewrite lookup_singleton. by case_decide.
  - exists f'. split; [exact E |]. rewrite H. vm_compute. reflexivity.
Defined.
