(* ===== verification/Nuke.v ===== *)
(** * Removing trees: [utils/nuke.c]

    [nuke] of the utility, on the trees and failures of [RunInit]; it differs from
    the function of run-init in that it goes into other devices and that it goes
    on after every error.

    The theorems: without failures the whole tree is gone; whatever fails, a file
    is left only if it could not be unlinked itself or a directory above it
    could not be read; nothing appears that was not there. *)

From stdpp Require Import base numbers list strings.
From Stdlib Require Import Lia.
From S2P Require Import Prelude RunInit.

#[local] Set Warnings "-register-all".

Section code.
Context (o : oracle).

(** The loop of [nuke_dir], with [nuke_dirent]: the entries that are left *)
Fixpoint wipe_entries (nuke : path → node → Z * option node) (what : path) (es : list (string * node)) : Z * list (string * node) :=
  match es with
  | [] => (0, [])
  | (name, n) :: es =>
      let '(err, rest) := nuke (what ++ [name]) n in
      let kept := match rest with Some n' => [(name, n')] | None => [] end in
      if negb (err =? 0) then (err, kept ++ es)
      else let '(err, es') := wipe_entries nuke what es in (err, kept ++ es')
  end.

Definition wipe_dir_with (nuke : path → node → Z * option node) (what : path) (n : node) : Z * node :=
  match n with
  | File _ => (ENOTDIR, n)
  | Dir me es =>
      match opendir_err o what with
      | Some e => (if e =? EACCES then 0 else e, n)
      | None => let '(err, es') := wipe_entries nuke what es in (err, Dir me es')
      end
  end.

(** [nuke]: the result, always 0, and what is left *)
Fixpoint wipe (what : path) (n : node) : Z * option node :=
  match unlink o what n with
  | None => (0, None)
  | Some e =>
      if e =? EISDIR then
        let '(err, n) := wipe_dir_with wipe what n in
        if err =? 0 then
          match rmdir o what n with
          | Some _ => (0, Some n)
          | None => (0, None)
          end
        else (0, Some n)
      else (0, Some n)
  end.
End code.

(** [main] on operands and the trees they name; the status is 0. *)
Definition nuke_main (o : oracle) (args : list (path * node)) : Z * list (option node) := (0, (λ '(p, n), (wipe o p n).2) <$> args).

(** ** What is left *)

(** [m] is in the tree [n] at the path *)
Inductive at_path : node → path → node → Prop :=
| at_here n : at_path n [] n
| at_below d es x c p m : (x, c) ∈ es → at_path c p m → at_path (Dir d es) (x :: p) m.

Section wiping.
Context (o : oracle).

Lemma wipe_zero what n : (wipe o what n).1 = 0.
Proof.
  destruct n as [d | d es]; cbn; unfold unlink; destruct (unlink_err o what) as [e |]; cbn; try done.
  - by destruct (e =? EISDIR).
  - destruct (e =? EISDIR); [| done]. destruct (opendir_err o what); [by repeat case_match |]. destruct (wipe_entries _ _ _) as [err es']. by repeat case_match.
  - destruct (opendir_err o what); [by repeat case_match |]. destruct (wipe_entries _ _ _) as [err es']. by repeat case_match.
Qed.

(** The function of an entry, applied to all of them *)
Definition left_of (what : path) (e : string * node) : list (string * node) :=
  match (wipe o (what ++ [e.1]) e.2).2 with Some n => [(e.1, n)] | None => [] end.

Lemma wipe_entries_all what es : wipe_entries (wipe o) what es = (0, concat (left_of what <$> es)).
Proof.
  induction es as [| [x n] es IH]; [done |]. cbn [wipe_entries]. destruct (wipe o (what ++ [x]) n) as [err rest] eqn:E. pose proof (wipe_zero (what ++ [x]) n) as H0. rewrite E in H0. cbn in H0. subst err.
  change (0 =? 0) with true. cbn [negb]. rewrite IH, fmap_cons. cbn [concat]. unfold left_of at 2. cbn [fst snd]. by rewrite E.
Qed.

(** Why something at a path may be left: it cannot be unlinked, or a directory
    above it cannot be read or is taken for a file *)
Inductive blocked (what : path) : path → Prop :=
| blocked_here p : is_Some (unlink_err o (what ++ p)) → blocked what p
| blocked_above q x p : is_Some (opendir_err o (what ++ q)) ∨ is_Some (unlink_err o (what ++ q)) → blocked what (q ++ x :: p).

Lemma blocked_cons what x p : blocked (what ++ [x]) p → blocked what (x :: p).
Proof.
  intros [q H | q y r H]; rewrite <- app_assoc in H; cbn in H; [by constructor | apply (blocked_above _ (x :: q)); exact H].
Qed.

(** A directory that is left is as it was, or has the entries that are left *)
Lemma wipe_dir_left what d es n' : (wipe o what (Dir d es)).2 = Some n' →
  n' = Dir d es ∧ (is_Some (opendir_err o what) ∨ is_Some (unlink_err o what)) ∨ n' = Dir d (concat (left_of what <$> es)).
Proof.
  change (wipe o what (Dir d es)) with
    (match unlink o what (Dir d es) with
     | None => (0, None)
     | Some e => if e =? EISDIR then
         let '(err, n) := wipe_dir_with o (wipe o) what (Dir d es) in
         if err =? 0 then match rmdir o what n with Some _ => (0, Some n) | None => (0, None) end else (0, Some n)
       else (0, Some (Dir d es))
     end).
  unfold wipe_dir_with. rewrite wipe_entries_all. unfold unlink. destruct (unlink_err o what) as [e |] eqn:Eu, (opendir_err o what) as [e' |] eqn:Eo; cbv iota beta zeta.
  - intros E. left. split; [| eauto]. repeat case_match; cbn in E; simplify_eq; done.
  - destruct (e =? EISDIR); [| intros [= <-]; left; eauto]. change (0 =? 0) with true. cbv iota. destruct (rmdir o what _); [intros [= <-]; by right | done].
  - change (EISDIR =? EISDIR) with true. cbv iota. intros E. left. split; [| eauto]. repeat case_match; cbn in E; simplify_eq; done.
  - change (EISDIR =? EISDIR) with true. change (0 =? 0) with true. cbv iota. destruct (rmdir o what _); [intros [= <-]; by right | done].
Qed.

(** A file that is left was there, and something is in its way. *)
Theorem wipe_left n : ∀ what n' p d, (wipe o what n).2 = Some n' → at_path n' p (File d) → at_path n p (File d) ∧ blocked what p.
Proof.
  induction n as [dev | dev es IH] using node_tree_ind; intros what n' p d E Hp.
  - assert (n' = File dev ∧ is_Some (unlink_err o what)) as [-> Hu].
    { revert E. cbn. unfold unlink. destruct (unlink_err o what) as [e |]; [| done]. destruct (e =? EISDIR); intros [= <-]; eauto. }
    split; [exact Hp |]. inversion Hp; subst. apply blocked_here. by rewrite app_nil_r.
  - apply wipe_dir_left in E as [[-> H] | ->].
    + split; [exact Hp |]. inversion Hp; subst. apply (blocked_above what []). by rewrite app_nil_r.
    + inversion Hp as [| ? ? x c q m Hin Hq]; subst. apply list_elem_of_In, in_concat in Hin as (l & Hl & Hin). apply list_elem_of_In, list_elem_of_fmap in Hl as ([x0 c0] & -> & H0).
      unfold left_of in Hin. cbn [fst snd] in Hin. destruct (wipe o (what ++ [x0]) c0).2 as [c1 |] eqn:E1; [| done]. destruct Hin as [[= -> ->] | []].
      rewrite Forall_forall in IH. destruct (IH (x, c0) H0 (what ++ [x]) c q d E1 Hq) as [Ha Hb]. split; [by eapply at_below | by apply blocked_cons].
Qed.
End wiping.

(** Without failures everything is removed, mount points included. *)
Theorem wipe_all n : ∀ what, wipe no_failures what n = (0, None).
Proof.
  induction n as [dev | dev es IH] using node_tree_ind; intros what; [done |].
  destruct (wipe no_failures what (Dir dev es)) as [r o] eqn:E. pose proof (wipe_zero no_failures what (Dir dev es)) as H0. rewrite E in H0. cbn in H0. subst r. f_equal.
  destruct o as [n' |]; [| done]. exfalso. revert E.
  change (wipe no_failures what (Dir dev es)) with
    (let '(err, n) := wipe_dir_with no_failures (wipe no_failures) what (Dir dev es) in
     if err =? 0 then match rmdir no_failures what n with Some _ => (0, Some n) | None => (0, None) end else (0, Some n)).
  cbn [wipe_dir_with opendir_err no_failures]. rewrite wipe_entries_all. change (0 =? 0) with true. cbv iota.
  assert (concat (left_of no_failures what <$> es) = []) as ->; [| done].
  clear n'. induction IH as [| [x c] es Hc _ IHes]; [done |]. rewrite fmap_cons. cbn [concat]. rewrite IHes. unfold left_of. cbn [fst snd]. by rewrite Hc.
Qed.

Lemma wipe_left_witness :
  let o := mk_oracle (λ _, None) (λ p, if decide (p = ["r"; "a"]%string) then Some EACCES else None) (λ _, None) (λ _, None) in
  blocked o ["r"%string] ["a"%string] ∧ (wipe o ["r"%string] (Dir 1 [("a"%string, File 1); ("b"%string, Dir 2 [("c"%string, File 2)])])).2 = Some (Dir 1 [("a"%string, File 1)]).
Proof.
  intros o. split; [| reflexivity].
  apply (wipe_left o (Dir 1 [("a"%string, File 1); ("b"%string, Dir 2 [("c"%string, File 2)])]) ["r"%string] (Dir 1 [("a"%string, File 1)]) ["a"%string] 1); [reflexivity |].
  eapply at_below; [apply list_elem_of_here | constructor].
Defined.
