(* ===== verification/Ls.v ===== *)
(** * Listing files: [utils/ls.c]

    The file system is given by what [lstat], [opendir] and [readlink] find at
    the components of a path; relative paths start at the working directory,
    which the program changes.  The text of "%5ju" is that of [Printf].

    The theorems: the characters of the permissions determine them (where no
    special bit is set); the columns of a list without devices are aligned; a
    directory with a relative name is looked for inside of itself; a link of
    128 characters or more is written behind its buffer. *)

From stdpp Require Import base numbers list strings.
From Stdlib Require Import Lia.
From S2P Require Import Prelude Memory Printf Devno Prog Ipconfig Mkdir.

#[local] Set Warnings "-register-all".

Record stat := mk_stat { st_mode : Z; st_nlink : Z; st_uid : Z; st_gid : Z; st_size : Z; st_rdev : Z }.

Record widths := mk_widths { max_nlinks : Z; max_uid : Z; max_gid : Z; max_maj : Z; max_min : Z; max_size : Z }.
Definition initial_widths : widths := mk_widths 1 1 1 1 1 1.
Definition max_linksiz : Z := 128.

Definition S_ISCHR (m : Z) : bool := Z.land m S_IFMT =? S_IFCHR.
Definition S_ISLNK (m : Z) : bool := Z.land m S_IFMT =? S_IFLNK.
Definition is_device (st : stat) : bool := S_ISCHR (st_mode st) || S_ISBLK (st_mode st).

(** "%ju" and "%u" in a field *)
Definition number (width v : Z) : list Z := int_text 0 10 v width (-1).
Definition digits (v : Z) : Z := Z.of_nat (length (number 0 v)).

Definition do_preformat (st : stat) (w : widths) : widths :=
  let nlinks := Z.max (max_nlinks w) (digits (u64 (st_nlink st))) in
  let uid := Z.max (max_uid w) (digits (u64 (st_uid st))) in
  let gid := Z.max (max_gid w) (digits (u64 (st_gid st))) in
  if is_device st then
    let maj := Z.max (max_maj w) (digits (u32 (major (st_rdev st)))) in
    let min := Z.max (max_min w) (digits (u32 (minor (st_rdev st)))) in
    mk_widths nlinks uid gid maj min (maj + min + 1)
  else mk_widths nlinks uid gid (max_maj w) (max_min w) (Z.max (max_size w) (digits (u64 (st_size st)))).

Definition isset (mode mask : Z) : bool := Z.land mode mask =? mask.

(** The ten characters of the type and the permissions *)
Definition mode_text (m : Z) : list Z :=
  let bit mask c := if isset m mask then c else 45 in
  [ let t := Z.land m S_IFMT in
    if t =? S_IFBLK then 98 else if t =? S_IFCHR then 99 else if t =? S_IFDIR then 100 else if t =? S_IFIFO then 112
    else if t =? S_IFLNK then 108 else if t =? S_IFSOCK then 115 else if t =? S_IFREG then 45 else 63;
    bit 0x100 114; bit 0x80 119; if isset m 0x800 then 83 else bit 0x40 120;
    bit 0x20 114; bit 0x10 119; if isset m 0x400 then 83 else bit 0x8 120;
    bit 0x4 114; bit 0x2 119; if isset m 0x200 then if S_ISDIR m then 116 else 84 else bit 0x1 120 ].

(** The columns up to the name *)
Definition columns (w : widths) (st : stat) : list Z :=
  mode_text (st_mode st) ++ [32] ++ number (max_nlinks w) (u64 (st_nlink st)) ++ [32] ++ number (max_uid w) (u64 (st_uid st)) ++ [32] ++ number (max_gid w) (u64 (st_gid st)) ++ [32] ++
  (if is_device st then number (max_maj w) (u32 (major (st_rdev st))) ++ [44] ++ number (max_min w) (u32 (minor (st_rdev st))) else number (max_size w) (u64 (st_size st))) ++ [32].

Section code.
Context (lstat : list (list Z) → option stat) (entries : list (list Z) → option (list (list Z))) (target : list (list Z) → option (list Z)).

Record ls := mk_ls { width : widths; cwd : list (list Z); output : list Z }.
Local Abbreviation L := (prog ls).

(** The components of a path from the root; "." is the directory itself *)
Definition resolve (cwd : list (list Z)) (path : list Z) : list (list Z) :=
  let cs := filter (λ c, c ≠ text ".") (components path) in
  match path with c :: _ => if c =? 47 then cs else cwd ++ cs | [] => cwd end.

Definition set_width (g : widths → widths) : L unit := λ s, Ret (tt, mk_ls (g (width s)) (cwd s) (output s)).
Definition print (t : list Z) : L unit := λ s, Ret (tt, mk_ls (width s) (cwd s) (output s ++ t)).
Definition set_cwd (c : list (list Z)) : L unit := λ s, Ret (tt, mk_ls (width s) c (output s)).

Definition do_stat (st : stat) (path : list Z) : L unit :=
  s ← get_st;
  print (columns (width s) st ++ path);;
  (if S_ISLNK (st_mode st) then
     match target (resolve (cwd s) path) with
     | None => exit_ 1
     | Some name =>
         let link_name := take (Z.to_nat max_linksiz) name in
         (* link_name[rc] = '\0' *)
         if max_linksiz <=? Z.of_nat (length link_name) then crash else print (text " -> " ++ link_name)
     end
   else mret tt);;
  print [10].

Fixpoint do_entries (preformat : bool) (names : list (list Z)) : L unit :=
  match names with
  | [] => mret tt
  | name :: names =>
      s ← get_st;
      match lstat (resolve (cwd s) name) with
      | None => exit_ 1
      | Some st => if preformat then set_width (do_preformat st) else do_stat st name
      end;;
      do_entries preformat names
  end.

(** [chdir], and then [opendir] of the same path *)
Definition do_dir (path : list Z) (preformat : bool) : L unit :=
  s ← get_st;
  match lstat (resolve (cwd s) path) with
  | Some st =>
      if negb (S_ISDIR (st_mode st)) then exit_ 1
      else
        set_cwd (resolve (cwd s) path);;
        s ← get_st;
        match entries (resolve (cwd s) path) with
        | None => exit_ 1
        | Some names => do_entries preformat names
        end
  | None => exit_ 1
  end.

Fixpoint each_arg (preformat : bool) (args : list (list Z)) : L bool :=
  match args with
  | [] => mret false
  | arg :: args =>
      (* -h: the message about the usage *)
      if preformat && bool_decide (take 2 arg = text "-h") then mret true
      else
        s ← get_st;
        match lstat (resolve (cwd s) arg) with
        | None => exit_ 1
        | Some st =>
            if S_ISDIR (st_mode st) then do_dir arg preformat
            else if preformat then set_width (do_preformat st) else do_stat st arg
        end;;
        each_arg preformat args
  end.

Definition ls_main (args : list (list Z)) : L Z :=
  match args with
  | [] => do_dir (text ".") true;; do_dir (text ".") false;; mret 0
  | _ => help ← each_arg true args; if help : bool then mret 0 else each_arg false args;; mret 0
  end.
End code.

(** ** Permissions *)

Definition types : list (Z * Z) := [(98, S_IFBLK); (99, S_IFCHR); (100, S_IFDIR); (112, S_IFIFO); (108, S_IFLNK); (115, S_IFSOCK); (45, S_IFREG)].

(** Reading the ten characters back *)
Definition read_bits (t : list Z) : Z := foldl (λ v c, 2 * v + (if c =? 45 then 0 else 1)) 0 t.
Definition read_mode (t : list Z) : option Z :=
  match t with
  | c :: t => (λ x, x.2.2 + read_bits t) <$> list_find (λ x, x.1 = c) types
  | [] => None
  end.

(** The text determines the type and the permissions, if none of the special
    bits is set (an [S] is printed in place of the [x] otherwise). *)
Theorem mode_text_read ty perm : ty ∈ types.*2 → 0 <= perm < 512 → read_mode (mode_text (ty + perm)) = Some (ty + perm).
Proof.
  intros Hty Hp. assert (Forall (λ ty, Forall (λ p, read_mode (mode_text (ty + p)) = Some (ty + p)) (seqZ 0 512)) types.*2) as H by by_eval.
  rewrite Forall_forall in H. specialize (H ty Hty). rewrite Forall_forall in H. apply H, elem_of_seqZ. lia.
Qed.

(** ** Columns *)

Lemma length_number w v : Z.of_nat (length (number w v)) = Z.max w (digits v).
Proof. unfold digits, number, int_text. rewrite !length_justify. lia. Qed.

Definition fits (w : widths) (st : stat) : Prop :=
  digits (u64 (st_nlink st)) <= max_nlinks w ∧ digits (u64 (st_uid st)) <= max_uid w ∧ digits (u64 (st_gid st)) <= max_gid w ∧ digits (u64 (st_size st)) <= max_size w.

Lemma preformat_fits sts : ∀ w st, Forall (λ st, is_device st = false) sts → fits w st ∨ st ∈ sts → fits (foldl (λ w st, do_preformat st w) w sts) st.
Proof.
  induction sts as [| st0 sts IH]; intros w st Hn H; cbn [foldl]; [destruct H as [H | H]; [done | by apply not_elem_of_nil in H] |].
  apply Forall_cons in Hn as [H0 Hn]. apply IH; [done |]. destruct H as [(F1 & F2 & F3 & F4) | [-> | H]%elem_of_cons]; [left | left | by right];
    unfold do_preformat, fits; rewrite H0; cbn [max_nlinks max_uid max_gid max_size]; lia.
Qed.

(** When the widths were taken from all files of a list without devices, all
    names stand in one column. *)
Theorem columns_aligned w0 sts st : Forall (λ st, is_device st = false) sts → st ∈ sts →
  let w := foldl (λ w st, do_preformat st w) w0 sts in
  Z.of_nat (length (columns w st)) = 15 + max_nlinks w + max_uid w + max_gid w + max_size w.
Proof.
  intros Hn Hin w. assert (fits w st) as (F1 & F2 & F3 & F4) by (apply preformat_fits; auto). assert (is_device st = false) as Hd by (rewrite Forall_forall in Hn; auto).
  unfold columns. rewrite Hd. rewrite !length_app, !Nat2Z.inj_add, !length_number. cbn [length mode_text]. lia.
Qed.

(** ** Directories and links *)

Section failures.
Context (lstat : list (list Z) → option stat) (entries : list (list Z) → option (list (list Z))) (target : list (list Z) → option (list Z)).

(** A directory with a relative name can be listed only if there is a directory of
    that name inside of it, and then that one is listed. *)
Theorem do_dir_relative path pre s st : head path ≠ Some 47 → path ≠ [] → let there := resolve (cwd s) path in let cs := filter (λ c, c ≠ text ".") (components path) in
  lstat there = Some st → S_ISDIR (st_mode st) = true →
  do_dir lstat entries target path pre s =
    match entries (there ++ cs) with
    | None => Exit 1
    | Some names => do_entries lstat target pre names (mk_ls (width s) there (output s))
    end.
Proof.
  intros Hh Hne there cs Hst Hdir. unfold do_dir. rewrite (pbind_ok _ _ s s s) by done. fold there. rewrite Hst, Hdir. cbn [negb].
  rewrite (pbind_ok (set_cwd there) _ s tt (mk_ls (width s) there (output s)) eq_refl). rewrite (pbind_ok _ _ _ (mk_ls (width s) there (output s)) (mk_ls (width s) there (output s)) eq_refl). cbn [cwd].
  assert (resolve there path = there ++ cs) as -> by (unfold resolve; destruct path as [| c path]; [done |]; rewrite (proj2 (Z.eqb_neq c 47)) by (intros ->; done); done).
  by destruct (entries (there ++ cs)).
Qed.

(** A link to a name of 128 characters or more: the terminating 0 is stored
    behind the block of 128 bytes. *)
Theorem link_overrun st path s name : S_ISLNK (st_mode st) = true → target (resolve (cwd s) path) = Some name → max_linksiz <= Z.of_nat (length name) → do_stat target st path s = Fault.
Proof.
  intros Hl Ht Hn. unfold do_stat. rewrite (pbind_ok _ _ s s s) by done. rewrite (pbind_ok (print _) _ s tt _ eq_refl). apply pbind_fault. rewrite Hl, Ht.
  cbv zeta. unfold max_linksiz in *. rewrite (proj2 (Z.leb_le _ _)) by (rewrite length_take; lia). done.
Qed.
End failures.

(** ** Examples *)

Definition example_stat (mode size rdev : Z) : stat := mk_stat mode 1 0 100 size rdev.
Definition one_dir (p : list (list Z)) : option stat :=
  if bool_decide (p = []) then Some (example_stat 0x41ed 40 0)
  else if bool_decide (p = [text "big"]) then Some (example_stat 0x81a4 123456 0)
  else if bool_decide (p = [text "null"]) then Some (example_stat 0x21b6 0 (makedev 1 3))
  else if bool_decide (p = [text "d"]) then Some (example_stat 0x41ed 0 0)
  else None.
Definition listed (names : list (list Z)) (args : list (list Z)) : option (list Z) :=
  match ls_main one_dir (λ p, if bool_decide (p = []) then Some names else if bool_decide (p = [text "d"]) then Some [] else None) (λ _, None) args (mk_ls initial_widths [] []) with
  | Ret (_, s) => Some (output s)
  | _ => None
  end.

Example ls_files : listed [text "big"; text "d"] [] =
  Some (text "-rw-r--r-- 1 0 100 123456 big" ++ [10] ++ text "drwxr-xr-x 1 0 100      0 d" ++ [10]).
Proof. vm_compute. reflexivity. Qed.

(** A device behind a large file takes the width back. *)
Example ls_device : listed [text "big"; text "null"; text "d"] [] =
  Some (text "-rw-r--r-- 1 0 100 123456 big" ++ [10] ++ text "crw-rw-rw- 1 0 100 1,3 null" ++ [10] ++ text "drwxr-xr-x 1 0 100   0 d" ++ [10]).
Proof. vm_compute. reflexivity. Qed.

Example ls_relative : listed [] [text "/d"] = Some [] ∧ listed [] [text "d"] = None.
Proof. split; vm_compute; reflexivity. Qed.
