(* ===== verification/Mntent.v ===== *)
(** * The table of mounts: [getmntent.c], [setmntent.c], [endmntent.c]

    A line is read with [fgets] of [Stdio] into a buffer in [Memory] and cut with
    [strtok_r] of [StrOps] in place; the entry has pointers into the buffer.

    The theorems: the fields of the entry are the words of the line, in order,
    with an empty string or 0 for those that are missing; a line with fewer than
    three words ends the table; comments and empty lines are passed over. *)

From stdpp Require Import base numbers list gmap.
From Stdlib Require Import Lia.
From S2P Require Import Prelude Memory MemOps StrOps Numparse Stdio.

(** " \t\n" *)
Definition separators : list Z := [32; 9; 10].
Definition BUFLEN : Z := 1024.

(** [struct mntent]; the strings are addresses *)
Record mntent := mk_mntent { mnt_fsname : Z; mnt_dir : Z; mnt_type : Z; mnt_opts : Z; mnt_freq : Z; mnt_passno : Z }.

Section parsing.
(** The addresses of the separators and of an empty string *)
Context (sep empty : Z).

Definition number_at (p : Z) : C Z := if p =? NULL then mret 0 else atoi p.

(** The part of [getmntent_r] behind [fgets].  The second test is of
    [mnt_fsname] again, not of [mnt_dir]. *)
Definition parse_line (buf : Z) : C (option mntent) :=
  '(fsname, h) ← Str.strtok_r buf sep NULL;
  if fsname =? NULL then mret None
  else
    '(dir, h) ← Str.strtok_r NULL sep h;
    if fsname =? NULL then mret None
    else
      '(type, h) ← Str.strtok_r NULL sep h;
      if type =? NULL then mret None
      else
        '(opts, h) ← Str.strtok_r NULL sep h;
        let opts := if opts =? NULL then empty else opts in
        '(line, h) ← Str.strtok_r NULL sep h;
        freq ← number_at line;
        '(line, _) ← Str.strtok_r NULL sep h;
        passno ← number_at line;
        mret (Some (mk_mntent fsname dir type opts freq passno)).
End parsing.

Section code.
Context {W : Type} `{Kernel W} (sep empty : Z).
Local Abbreviation T := (st (mem * (FILE * W))).

Definition in_mem {A} (c : C A) : T A := λ s, match c s.1 with Some (a, m) => Some (a, (m, s.2)) | None => None end.
Definition in_file {A} (c : st (FILE * W) A) : T A := λ s, match c s.2 with Some (a, f) => Some (a, (s.1, f)) | None => None end.

Fixpoint store_bytes (a : Z) (l : list Z) : C unit := match l with [] => mret tt | b :: l => store8 a b;; store_bytes (a + 1) l end.

(** [while ((line = fgets(buf, buflen, fp)) != NULL)]: whether there is a line *)
Fixpoint next_line (n fuel : nat) (buf buflen : Z) : T bool :=
  match n with
  | O => fault
  | S n =>
      '(ok, line) ← in_file (fgets fuel buflen);
      in_mem (store_bytes buf line);;
      if ok : bool then
        c ← in_mem (load8 buf);
        if (c =? 35) || (c =? 10) then next_line n fuel buf buflen else mret true
      else mret false
  end.

Definition getmntent_r (n fuel : nat) (buf buflen : Z) : T (option mntent) :=
  if buf =? NULL then mret None
  else
    found ← next_line n fuel buf buflen;
    if found : bool then in_mem (parse_line sep empty buf) else mret None.

(** [getmntent]: [block] is the buffer that [malloc] gives, a new one for
    every call *)
Definition getmntent (n fuel : nat) (block : Z) : T (option mntent) := getmntent_r n fuel block BUFLEN.
End code.

Definition setmntent {W} `{Kernel W} (headnode : Z) (filename type : list Z) : st (@stdio W) Z := fopen headnode filename type.
Definition endmntent {W} `{Kernel W} (fuel : nat) (fp : Z) : st (@stdio W) Z :=
  (if negb (fp =? NULL) then _ ← fclose fuel fp; mret tt else mret tt);; mret 1.

(** ** The words of a line *)

(** What [strtok_r] finds in a text, and what it leaves *)
Definition next_word (s : list Z) : option (list Z * list Z) :=
  let rest := drop (skip_len separators s) s in
  match rest with
  | [] => None
  | _ => let n := field_len separators rest in Some (take n rest, drop (S n) rest)
  end.
Fixpoint words_from (n : nat) (s : list Z) : list (list Z) :=
  match n with
  | O => []
  | S n => match next_word s with Some (w, s) => w :: words_from n s | None => [] end
  end.
Definition words (s : list Z) : list (list Z) := words_from (length s) s.

Lemma next_word_shorter s w s' : next_word s = Some (w, s') → (length s' < length s)%nat.
Proof.
  unfold next_word. cbv zeta. destruct (drop (skip_len separators s) s) as [| c r] eqn:E; [done |]. intros [= <- <-].
  apply (f_equal length) in E. rewrite length_drop in E. cbn [length] in E. rewrite length_drop. cbn [length]. lia.
Qed.

Lemma words_from_enough n : ∀ m s, (length s <= n)%nat → (length s <= m)%nat → words_from n s = words_from m s.
Proof.
  induction n as [| n IH]; intros m s Hn Hm.
  - destruct s; [| simpl in Hn; lia]. by destruct m.
  - destruct m as [| m]; [destruct s; [done | simpl in Hm; lia] |]. cbn [words_from]. destruct (next_word s) as [[w s'] |] eqn:E; [| done].
    apply next_word_shorter in E. f_equal. apply IH; lia.
Qed.

Lemma words_next s : words s = match next_word s with Some (w, s') => w :: words s' | None => [] end.
Proof.
  unfold words at 1. destruct (length s) as [| n] eqn:En; [by destruct s |]. cbn [words_from]. destruct (next_word s) as [[w s'] |] eqn:E; [| done].
  apply next_word_shorter in E. f_equal. apply words_from_enough; lia.
Qed.

(** ** Cutting a line *)

Section cutting.
Context (sep buf room : Z) (Hbuf : 0 < buf) (Hsep : sep + 4 <= buf ∨ buf + room <= sep).

(** The line has been cut up to [hold], where [r] is left; [found] are the words
    found so far, with their addresses. *)
Record cutting (m : mem) (hold : Z) (r : list Z) (found : list (Z * list Z)) : Prop := mk_cutting {
  cu_sep : cstr m sep separators;
  cu_rest : hold = NULL ∧ r = [] ∨ buf <= hold ∧ hold + Z.of_nat (length r) <= buf + room ∧ cstr m hold r;
  cu_bytes : Forall (in_u 8) r;
  cu_found : Forall (λ x, x.1 ≠ NULL ∧ cstr m x.1 x.2 ∧ Forall (in_u 8) x.2 ∧ (hold = NULL ∨ x.1 + Z.of_nat (length x.2) < hold)) found;
}.

Lemma found_keep m m' hold hold' (r : list Z) found : Forall (λ x, x.1 ≠ NULL ∧ cstr m x.1 x.2 ∧ Forall (in_u 8) x.2 ∧ (hold = NULL ∨ x.1 + Z.of_nat (length x.2) < hold)) found →
  hold ≠ NULL → same_outside hold (Z.of_nat (length r)) m m' → hold' = NULL ∨ hold <= hold' →
  Forall (λ x, x.1 ≠ NULL ∧ cstr m' x.1 x.2 ∧ Forall (in_u 8) x.2 ∧ (hold' = NULL ∨ x.1 + Z.of_nat (length x.2) < hold')) found.
Proof using Type.
  intros Hf Hh Ho Hh'. eapply Forall_impl; [exact Hf |]. intros x (H1 & H2 & H3 & [H4 | H4]); [done |]. split_and!; [done | | done | destruct Hh'; [by left | right; lia]].
  eapply cstr_outside; [done | done | lia].
Qed.

Lemma next_token m hold r found p : cutting m hold r found → p = NULL ∨ p = hold → ∃ tok hold' m', Str.strtok_r p sep (if p =? NULL then hold else NULL) m = Some ((tok, hold'), m') ∧
  same_outside buf room m m' ∧
  match next_word r with
  | None => tok = NULL ∧ cutting m' hold' [] found
  | Some (w, r') => tok ≠ NULL ∧ cutting m' hold' r' (found ++ [(tok, w)])
  end.
Proof using Hbuf Hsep.
  intros [Hs Hr Hb Hf] Hp. assert ((if negb (p =? NULL) then p else if p =? NULL then hold else NULL) = hold) as Eh.
  { destruct (Z.eqb_spec p NULL); cbn [negb]; [done |]. destruct Hp; congruence. }
  unfold Str.strtok_r, with_fuel. rewrite Eh. destruct Hr as [[-> ->] | (Hlo & Hhi & Hc)].
  - exists NULL, NULL, m. split_and!; [done | done |]. cbn. split; [done |]. by split; [| left | |].
  - assert (cstr m sep separators ∧ Forall (in_u 8) separators) as [_ Hsb] by (split; [done | by_eval]).
    destruct (strtok_loop_spec sep separators r (S (size m)) m hold) as (tok & hold' & m' & E & Ho & H0 & H1); [done | done | done | done | lia | cbn [length separators]; lia | apply cstr_length in Hc; lia |].
    assert (same_outside buf room m m') as Ho' by (intros k Hk; apply Ho; lia).
    assert (cstr m' sep separators) as Hs' by (eapply cstr_outside; [done | exact Ho' | cbn [length separators]; lia]).
    exists tok, hold', m'. split; [exact E |]. split; [exact Ho' |]. pose proof (span_len_le (in_set separators) r) as Hk. fold (skip_len separators r) in Hk.
    unfold next_word. cbv zeta. destruct (drop (skip_len separators r) r) as [| c rest] eqn:Er.
    + destruct (H0 eq_refl) as [-> ->]. split; [done |]. split; [done | by left | done | eapply found_keep; [done | unfold NULL; lia | done | by left]].
    + destruct (H1 ltac:(done)) as (-> & Hne & Ht & Hh). set (n := field_len separators (c :: rest)) in *.
      assert (length r = (skip_len separators r + length (c :: rest))%nat) as Hlen by (rewrite <- Er, length_drop; lia).
      assert (Forall (in_u 8) (c :: rest)) as Hbr by (rewrite <- Er; by apply Forall_drop).
      pose proof (span_len_le (λ b, negb (in_set separators b)) (c :: rest)) as Hn. fold (field_len separators (c :: rest)) in Hn. fold n in Hn.
      assert (hold' = NULL ∧ drop (S n) (c :: rest) = [] ∨ hold' = hold + Z.of_nat (skip_len separators r) + Z.of_nat n + 1 ∧ (n < length (c :: rest))%nat ∧ cstr m' hold' (drop (S n) (c :: rest))) as Hh'.
      { destruct (decide (n < length (c :: rest))%nat); [right; tauto | left; split; [done | apply drop_ge; lia]]. }
      clear Hh. split; [unfold NULL; lia |]. split; [done | | by apply Forall_drop |].
      * destruct Hh' as [[-> ->] | (-> & Hlt & Hc')]; [by left | right]. split_and!; [lia | rewrite length_drop; lia | done].
      * apply Forall_app. split; [eapply found_keep; [done | unfold NULL; lia | done | destruct Hh' as [[-> _] | (-> & _)]; [by left | right; lia]] |].
        constructor; [| done]. cbn [fst snd]. split_and!; [unfold NULL; lia | done | by apply Forall_take |]. rewrite length_take. destruct Hh' as [[-> _] | (-> & _)]; [by left | right; lia].
Qed.

(** ** The entry *)

Context (empty : Z) (Hempty : empty + 1 <= buf ∨ buf + room <= empty) (Hroom : room < 2 ^ 63).

Definition word_number (w : list Z) : Z := s32 (parse_num 10 w).1.

Lemma number_at_word m p w : p ≠ NULL → cstr m p w → Forall (in_u 8) w → Z.of_nat (length w) < 2 ^ 63 → number_at p m = Some (word_number w, m).
Proof using Type.
  intros Hp Hc Hw Hl. unfold number_at. rewrite (proj2 (Z.eqb_neq p NULL)) by done. unfold atoi.
  destruct (strntoumax_run m p w 10 SIZE_MAX Hc Hw ltac:(done)) as [E _]. rewrite (take_ge w) in E by (unfold SIZE_MAX; lia). by erewrite bind_ok by exact E.
Qed.

(** A word that was found is in the memory, and there is room for it. *)
Lemma found_word m hold r found x : cutting m hold r found → x ∈ found → x.1 ≠ NULL ∧ cstr m x.1 x.2 ∧ Forall (in_u 8) x.2.
Proof using Type. intros [_ _ _ Hf] Hx. rewrite Forall_forall in Hf. destruct (Hf x Hx) as (? & ? & ? & _). done. Qed.

Lemma next_word_length s w s' : next_word s = Some (w, s') → (length w + length s' <= length s)%nat.
Proof using Type.
  unfold next_word. cbv zeta. destruct (drop (skip_len separators s) s) as [| c r] eqn:E; [done |]. intros [= <- <-].
  apply (f_equal length) in E. rewrite length_drop in E. cbn [length] in E. rewrite length_take, length_drop. cbn [length]. lia.
Qed.

(** The call for a number, with its word or at the end *)
Lemma next_number m hold r found : cutting m hold r found → Z.of_nat (length r) < 2 ^ 63 → ∃ tok hold' r' m', Str.strtok_r NULL sep hold m = Some ((tok, hold'), m') ∧
  same_outside buf room m m' ∧ number_at tok m' = Some (from_option (λ x, word_number x.1) 0 (next_word r), m') ∧ r' = from_option snd [] (next_word r) ∧
  ∃ found', cutting m' hold' r' (found ++ found').
Proof using Hbuf Hsep.
  intros Hc Hl. destruct (next_token m hold r found NULL Hc ltac:(by left)) as (tok & hold' & m' & E & Ho & H). destruct (next_word r) as [[w r'] |] eqn:En.
  - destruct H as [Ht Hc']. exists tok, hold', r', m'. split_and!; [exact E | done | | done | by exists [(tok, w)]].
    destruct (found_word _ _ _ _ (tok, w) Hc') as (_ & H2 & H3); [by apply elem_of_app; right; apply list_elem_of_here |]. cbn [fst snd] in H2, H3. apply next_word_length in En. apply (number_at_word m' tok w); [done | done | done | lia].
  - destruct H as [-> Hc']. exists NULL, hold', [], m'. split_and!; [exact E | done | done | done | exists []; by rewrite app_nil_r].
Qed.

(** A line of three words or more gives an entry with its words: device, directory
    and type are strings in the buffer, the options are the fourth word or empty,
    and the numbers are 0 where they are missing.  Fewer words give none.
    Only the line itself is changed. *)
Theorem parse_line_correct m s : cstr m buf s → Forall (in_u 8) s → Z.of_nat (length s) <= room → cstr m sep separators → cstr m empty [] →
  ∃ r m', parse_line sep empty buf m = Some (r, m') ∧ same_outside buf room m m' ∧
    match words s with
    | fsname :: dir :: type :: more => ∃ e, r = Some e ∧ cstr m' (mnt_fsname e) fsname ∧ cstr m' (mnt_dir e) dir ∧ cstr m' (mnt_type e) type ∧
        cstr m' (mnt_opts e) (default [] (more !! 0%nat)) ∧ mnt_freq e = from_option word_number 0 (more !! 1%nat) ∧ mnt_passno e = from_option word_number 0 (more !! 2%nat)
    | _ => r = None
    end.
Proof using Hbuf Hsep Hempty Hroom.
  intros Hs Hb Hl Hsp He. unfold parse_line.
  assert (cutting m buf s []) as C0 by (split; [done | right; split_and!; [lia | lia | done] | done | constructor]).
  destruct (next_token m buf s [] buf C0 ltac:(by right)) as (p1 & h1 & m1 & E1 & O1 & H1). rewrite (proj2 (Z.eqb_neq buf NULL)) in E1 by (unfold NULL; lia).
  erewrite bind_ok by exact E1. cbv beta iota. rewrite words_next. destruct (next_word s) as [[w1 s1] |] eqn:N1; [| destruct H1 as [-> _]; by exists None, m1].
  destruct H1 as [Hp1 C1]. rewrite (proj2 (Z.eqb_neq p1 NULL)) by done. cbn [app] in C1.
  destruct (next_token m1 h1 s1 _ NULL C1 ltac:(by left)) as (p2 & h2 & m2 & E2 & O2 & H2). erewrite bind_ok by exact E2. cbv beta iota.
  pose proof (same_outside_trans _ _ _ _ _ _ _ O1 O2 ltac:(lia) ltac:(lia)) as O12. apply next_word_length in N1 as L1.
  rewrite (words_next s1). destruct (next_word s1) as [[w2 s2] |] eqn:N2.
  2: { destruct H2 as [-> C2]. destruct (next_token m2 h2 [] _ NULL C2 ltac:(by left)) as (p3 & h3 & m3 & E3 & O3 & -> & _). erewrite bind_ok by exact E3. cbv beta iota. rewrite (proj2 (Z.eqb_eq NULL NULL)) by done.
       exists None, m3. split_and!; [done | by eapply same_outside_trans; [exact O12 | exact O3 | lia | lia] | done]. }
  destruct H2 as [Hp2 C2]. destruct (next_token m2 h2 s2 _ NULL C2 ltac:(by left)) as (p3 & h3 & m3 & E3 & O3 & H3). erewrite bind_ok by exact E3. cbv beta iota.
  pose proof (same_outside_trans _ _ _ _ _ _ _ O12 O3 ltac:(lia) ltac:(lia)) as O13. apply next_word_length in N2 as L2.
  rewrite (words_next s2). destruct (next_word s2) as [[w3 s3] |] eqn:N3; [| destruct H3 as [-> _]; by exists None, m3].
  destruct H3 as [Hp3 C3]. rewrite (proj2 (Z.eqb_neq p3 NULL)) by done. apply next_word_length in N3 as L3.
  destruct (next_token m3 h3 s3 _ NULL C3 ltac:(by left)) as (p4 & h4 & m4 & E4 & O4 & H4). erewrite bind_ok by exact E4. cbv beta iota zeta.
  pose proof (same_outside_trans _ _ _ _ _ _ _ O13 O4 ltac:(lia) ltac:(lia)) as O14.
  set (s4 := from_option snd [] (next_word s3)). set (op := if p4 =? NULL then empty else p4). set (F := ([(p1, w1)] ++ [(p2, w2)]) ++ [(p3, w3)]) in *.
  assert (∃ f4, cutting m4 h4 s4 (F ++ f4) ∧ (op = empty ∧ next_word s3 = None ∨ (op, from_option fst [] (next_word s3)) ∈ f4)) as (f4 & C4 & Hop).
  { unfold s4, op. destruct (next_word s3) as [[w4 s4'] |]; destruct H4 as [Hp4 C4].
    - exists [(p4, w4)]. rewrite (proj2 (Z.eqb_neq p4 NULL)) by done. split; [done | right; apply list_elem_of_here].
    - exists []. rewrite (proj2 (Z.eqb_eq p4 NULL)) by done. rewrite app_nil_r. split; [done | by left]. }
  assert (length s4 <= length s3)%nat as L4 by (unfold s4; destruct (next_word s3) as [[w4 s4'] |] eqn:N4; [apply next_word_length in N4; cbn; lia | cbn; lia]).
  destruct (next_number m4 h4 s4 _ C4) as (p5 & h5 & s5 & m5 & E5 & O5 & V5 & Hs5 & f5 & C5); [lia |]. erewrite bind_ok by exact E5. cbv beta iota. erewrite bind_ok by exact V5.
  assert (length s5 <= length s4)%nat as L5 by (subst s5; destruct (next_word s4) as [[w5 s5'] |] eqn:N5; [apply next_word_length in N5; cbn; lia | cbn; lia]).
  destruct (next_number m5 h5 s5 _ C5) as (p6 & h6 & s6 & m6 & E6 & O6 & V6 & _ & f6 & C6); [lia |]. erewrite bind_ok by exact E6. cbv beta iota. erewrite bind_ok by exact V6.
  pose proof (same_outside_trans _ _ _ _ _ _ _ (same_outside_trans _ _ _ _ _ _ _ O14 O5 ltac:(lia) ltac:(lia)) O6 ltac:(lia) ltac:(lia)) as O16.
  eexists _, m6. split; [reflexivity |]. split; [exact O16 |]. eexists. split; [reflexivity |]. cbn [mnt_fsname mnt_dir mnt_type mnt_opts mnt_freq mnt_passno].
  assert (∀ x, x ∈ F ++ f4 → cstr m6 x.1 x.2) as Hx by (intros x Hx; apply (found_word _ _ _ _ x C6); set_solver).
  split_and!; [apply (Hx (p1, w1)); unfold F; set_solver | apply (Hx (p2, w2)); unfold F; set_solver | apply (Hx (p3, w3)); unfold F; set_solver | | |].
  - destruct Hop as [[-> Hn] | Hin].
    + rewrite words_next, Hn. cbn. eapply cstr_outside; [exact He | exact O16 | cbn; lia].
    + assert (cstr m6 op (from_option fst [] (next_word s3))) as Ho by (apply (Hx (op, _)); set_solver). rewrite words_next. by destruct (next_word s3) as [[w4 s4'] |].
  - rewrite words_next. unfold s4. destruct (next_word s3) as [[w4 s4'] |]; [| done]. cbn. rewrite words_next. by destruct (next_word s4') as [[w5 s5'] |].
  - rewrite words_next. rewrite Hs5. unfold s4. destruct (next_word s3) as [[w4 s4'] |]; [| done]. cbn. rewrite words_next. destruct (next_word s4') as [[w5 s5'] |]; [| done]. cbn.
    rewrite words_next. by destruct (next_word s5') as [[w6 s6'] |].
Qed.
End cutting.

(** ** Reading the line *)

Lemma store_bytes_ok l : ∀ m a, mapped m a (Z.of_nat (length l)) → Forall (in_u 8) l → store_bytes a l m = Some (tt, mem_set m a l).
Proof.
  induction l as [| b l IH]; intros m a Hm Hb; [done |]. apply Forall_cons in Hb as [Hb Hl]. destruct (Hm a) as [x Hx]; [simpl; lia |]. cbn [store_bytes mem_set].
  erewrite bind_ok by (by eapply store8_ok). rewrite (wrapu_small 8 b Hb). apply IH; [| done]. apply mapped_insert. intros k Hk. apply Hm. simpl. lia.
Qed.

(** The first newline of a text is at one place. *)
Lemma first_newline l l' r r' : 10 ∉ l → 10 ∉ l' → l ++ 10 :: r = l' ++ 10 :: r' → l = l' ∧ r = r'.
Proof.
  revert l'. induction l as [| c l IH]; intros [| c' l'] Hl Hl' E; cbn in E; simplify_eq.
  - done.
  - exfalso. apply Hl'. apply list_elem_of_here.
  - exfalso. apply Hl. apply list_elem_of_here.
  - destruct (IH l') as [-> ->]; [set_solver | set_solver | done |]. done.
Qed.

Section reading.
Context {W : Type} `{Kernel W, !KernelLaws W}.

(** [fgets] of a line that fits *)
Lemma fgets_line fuel n f w l rest : in_ok f → Forall (in_u 8) (stream f w) → (patience w + 2 < fuel)%nat → stream f w = l ++ 10 :: rest → 10 ∉ l → Z.of_nat (length l) + 1 < n →
  ∃ ok line f' w', fgets fuel n (f, w) = Some ((ok, line ++ [0]), (f', w')) ∧ Z.of_nat (length line) < n ∧ Forall (in_u 8) line ∧
    if ok : bool then line = l ++ [10] ∧ in_ok f' ∧ stream f' w' = rest else flag FLAG_ERR f' = true.
Proof.
  intros Hi Hb Hp Hs Hl Hn. destruct (fgets_correct fuel n f w Hi Hb Hp ltac:(lia)) as (ok & line & f' & w' & E & Hi' & _ & Hst & Hlen & Hr).
  exists ok, line, f', w'. split; [exact E |]. split; [done |]. rewrite Hst in Hb. apply Forall_app in Hb as [Hb _]. split; [done |]. rewrite Hs in Hst. destruct ok.
  - destruct Hr as [(l' & -> & Hl') | [Hfull Hno]].
    + rewrite <- app_assoc in Hst. destruct (first_newline l l' rest (stream f' w') Hl Hl' Hst) as [-> ->]. done.
    + exfalso. apply Hno. assert (line = take (length line) (l ++ 10 :: rest)) as -> by (rewrite Hst; by rewrite take_app_length).
      rewrite take_app_ge by lia. apply elem_of_app. right. replace (length line - length l)%nat with (S (pred (length line - length l))) by lia. apply list_elem_of_here.
  - destruct Hr as [Hno [Hend | ?]]; [| done]. exfalso. apply Hno. rewrite Hend, app_nil_r in Hst. rewrite <- Hst. set_solver.
Qed.

(** [getmntent_r] at a line that is neither empty nor a comment, and that fits the
    buffer: its entry is returned and the stream is behind the line, or a read
    has failed. *)
Theorem getmntent_line sep empty n fuel buf buflen m f w l rest : 0 < buf → (sep + 4 <= buf ∨ buf + buflen <= sep) → (empty + 1 <= buf ∨ buf + buflen <= empty) → buflen < 2 ^ 63 →
  mapped m buf buflen → cstr m sep separators → cstr m empty [] → in_ok f → Forall (in_u 8) (stream f w) → (patience w + 2 < fuel)%nat →
  stream f w = l ++ 10 :: rest → 10 ∉ l → 0 ∉ l → Z.of_nat (length l) + 1 < buflen → l ≠ [] → head l ≠ Some 35 →
  ∃ r m' f' w', getmntent_r sep empty (S n) fuel buf buflen (m, (f, w)) = Some (r, (m', (f', w'))) ∧
    (r = None ∧ flag FLAG_ERR f' = true ∨
     stream f' w' = rest ∧ same_outside buf buflen m m' ∧
     match words (l ++ [10]) with
     | fsname :: dir :: type :: more => ∃ e, r = Some e ∧ cstr m' (mnt_fsname e) fsname ∧ cstr m' (mnt_dir e) dir ∧ cstr m' (mnt_type e) type ∧
         cstr m' (mnt_opts e) (default [] (more !! 0%nat)) ∧ mnt_freq e = from_option word_number 0 (more !! 1%nat) ∧ mnt_passno e = from_option word_number 0 (more !! 2%nat)
     | _ => r = None
     end).
Proof.
  intros Hbuf Hsep Hempty Hlen Hm Hcs Hce Hi Hby Hp Hst Hnl Hnz Hfit Hne Hhash.
  destruct (fgets_line fuel buflen f w l rest Hi Hby Hp Hst Hnl Hfit) as (ok & line & f' & w' & E & Hl & Hlb & Hok).
  unfold getmntent_r. rewrite (proj2 (Z.eqb_neq buf NULL)) by (unfold NULL; lia). cbn [next_line].
  assert (in_file (fgets fuel buflen) (m, (f, w)) = Some ((ok, line ++ [0]), (m, (f', w')))) as E1 by (unfold in_file; cbn [snd fst]; by rewrite E).
  set (m1 := mem_set m buf (line ++ [0])).
  assert (in_mem (store_bytes buf (line ++ [0])) (m, (f', w')) = Some (tt, (m1, (f', w')))) as E2.
  { unfold in_mem. cbn [fst snd]. rewrite store_bytes_ok; [done | | apply Forall_app; split; [done | by repeat constructor]]. rewrite length_app. cbn [length]. intros k Hk. apply Hm. lia. }
  destruct ok.
  - destruct Hok as (-> & Hi' & Hst'). destruct l as [| c l]; [done |]. assert (c ≠ 35) as Hc35 by (intros ->; done). assert (c ≠ 10) as Hc10 by set_solver.
    set (line := (c :: l) ++ [10]) in *. assert (same_outside buf buflen m m1) as O1 by (apply same_outside_sub; [lia | rewrite length_app; cbn [length]; lia]).
    assert (cstr m1 buf line) as Hline. { apply cstr_set. unfold line. apply Forall_app. split; [| by repeat constructor]. apply Forall_forall. intros x Hx ->. done. }
    destruct (parse_line_correct sep buf buflen Hbuf Hsep empty Hempty Hlen m1 line) as (r & m' & Ep & O2 & Hr); [done | done | lia | | |].
    { eapply cstr_outside; [done | exact O1 | cbn [length separators]; lia]. }
    { eapply cstr_outside; [done | exact O1 | cbn; lia]. }
    exists r, m', f', w'. split.
    + erewrite bind_ok.
      2: { erewrite bind_ok by exact E1. cbv beta iota. erewrite bind_ok by exact E2. erewrite bind_ok.
           2: { unfold in_mem. cbn [fst snd]. by rewrite (load8_ok _ _ c) by (apply cstr_cons in Hline as [? _]; done). }
           rewrite (proj2 (Z.eqb_neq c 35)), (proj2 (Z.eqb_neq c 10)) by done. cbn [orb]. reflexivity. }
      unfold in_mem. cbn [fst snd]. by rewrite Ep.
    + right. split; [done |]. split; [eapply same_outside_trans; [exact O1 | exact O2 | lia | lia] | exact Hr].
  - exists None, m1, f', w'. split; [| by left]. rewrite (bind_ok _ _ _ false (m1, (f', w'))); [reflexivity |]. erewrite bind_ok by exact E1. cbv beta iota. by erewrite bind_ok by exact E2.
Qed.
End reading.

(** ** Example *)

Definition mnt_mem : mem := mem_set (mem_set (mem_set ∅ 100 (separators ++ [0])) 110 [0]) 1000 (replicate 1024 7).

(** A comment, an empty line, and then "/dev/sda1 /  ext3 rw 0 1" *)
Definition mnt_lines : list Z :=
  [35; 120; 10; 10] ++ [47; 100; 101; 118; 47; 115; 100; 97; 49; 32; 47; 32; 9; 101; 120; 116; 51; 32; 114; 119; 32; 48; 32; 49; 10] ++ [110; 111; 10].
Example getmntent_example :
  match getmntent (W := demo) 100 110 4 (Z.to_nat 100) 1000 (mnt_mem, (demo_file 0, demo_world [] mnt_lines)) with
  | Some (Some e, _) => Some (mnt_fsname e - 1000, mnt_dir e - 1000, mnt_type e - 1000, mnt_opts e - 1000, mnt_freq e, mnt_passno e)
  | _ => None
  end = Some (0, 10, 13, 18, 0, 1).
Proof. vm_compute. reflexivity. Qed.
